(* ===== verification/_CoqProject ===== *)
-Q . S2P
Prelude.v
StdText.v
Crdt.v
AjnaTypes.v
Document.v
Authorization.v
Hashing.v
MerkleDag.v
Anchoring.v
Method.v
Disclosure.v
DidSync.v
Resolver.v
MessageQueue.v
Storage.v
RecordRepo.v
RecordSpec.v
SerdeJson.v
Attach64.v
Didcomm.v
DcxFrame.v
DcxRuntime.v
DcxSafety.v
DcxDelivery.v
DcxRuns.v
SigningCounter.v
Signing.v
SigningHandler.v
SigningSafety.v
SigningRuns.v
Workflow.v
WorkflowService.v
WorkflowSpec.v
WorkflowProps.v
WorkflowQueue.v
WorkflowHandler.v
WorkflowRuns.v
AnonCreds.v
Issuance.v
IssuanceMessages.v
IssuanceService.v
IssuanceHandler.v
IssuanceProps.v
IssuanceFlow.v
IssuanceRuns.v
Proofs.v
ProofService.v
ProofProps.v
ProofFlow.v
QueueRepo.v
QueueStore.v
Wp.v
Pickup.v
Keys.v
Dids.v
PeerDid.v
PeerProps.v
Oob.v
OobProps.v
Connections.v
ConnStore.v
BasicMessages.v
BasicMessageProps.v
MessageProcessor.v
Mediation.v
Sender.v
BasicModule.v
MessageProps.v
ConnHandlers.v
ConnProps.v
ConnFlow.v
Keylists.v
Mediator.v
MediationProps.v
Forward.v
ForwardProps.v
AppProps.v
MediationRuns.v
