(* ===== verification/Prelude.v ===== *)
(** * A model of the idiom agent framework

    The repository is a Rust workspace of SSI agent crates.  This library models the
    crates and modules that carry its own logic and proves what they promise; it is the
    root file and also holds the vocabulary that every other file uses.

    ** How the code is translated

    A Rust struct is a [Record], an enum an [Inductive] with its variants, a method a
    [Definition] of the same body; the comment before a definition names the file, the
    lines and the symbol.  A fallible pure function returns an [outcome] (a value, the
    error, or a panic).  A method of a shared object is a computation of type [eff E S A]:
    it is given the object and the world and returns an outcome with both, so what was
    written before an error stays written.  Locks are taken and released within a method
    unless said otherwise; where a method reads and writes under different locks the two
    halves are separate definitions and the races are examples.

    Machine integers are [N] or [Z] with the wrap-around written out ([add64], [wrap64],
    [u64_as_i64]); the workspace's release profile does not check overflow.  Instants are
    nanoseconds.  The clock and the random source are the two sequences of a [World].
    A shared object that outlives its entry in a table is an address of a heap (DcxRuntime.v).
    The order in which a [HashMap] or [HashSet] is visited is the class [HashOrder]:
    the theorems hold for every order.  Crates outside the repository (blake3, base64,
    serde, chrono, rmp_serde, bloom, JMESPath, ChaCha20-Poly1305, SHA-256, HKDF) are classes with the laws the code relies on, and each
    has a concrete instance for the witnesses.

    ** The files

    - Prelude.v: outcomes, the world, effects with their triples, iteration orders, order
      and sorting of strings, stable sorting by a key.  StdText.v: decimal numbers and UTF-8
      as the standard library reads and writes them.
    - did:ajna, [src/did/src/ajna].  Crdt.v holds the three CRDTs behind one interface; AjnaTypes.v is the data; Document.v is [AjnaDocument]: its operations,
      both delta formats, its merge; Authorization.v is the authorization engine; Hashing.v
      the hash primitives; MerkleDag.v the operation history; Anchoring.v the anchoring
      service; Method.v is [AjnaMethod], which composes the former: it registers documents
      and records their histories; Disclosure.v is selective disclosure; DidSync.v operation
      bundles and the sync protocol; Resolver.v resolution over the method, anchors and a DHT.
    - Storage.v: the [StorageProvider] trait as an interface with laws and the in-memory
      provider that satisfies them; the persistent components are defined over the
      interface.
    - Didcomm.v: messages and handler data.
    - The signing protocol, [src/protocols/signing].  SigningCounter.v is the replay
      protection; Signing.v the session state machine and the coordinator;
      SigningHandler.v the message handler; SigningSafety.v what any sequence of messages
      preserves; SigningRuns.v concrete runs.
    - MessageQueue.v: the queue of a pickup mediator.
    - The workflow protocol, [src/protocols/workflow].  Workflow.v holds templates,
      instances, guards, the attribute planner and the action registry; WorkflowService.v
      the repositories and every call of the service; WorkflowSpec.v an abstract machine
      whose steps are labelled by the call and its answer; WorkflowProps.v the refinement and what follows;
      WorkflowQueue.v the command queue with its workers as a step relation;
      WorkflowHandler.v the message handlers and the agent's module; WorkflowRuns.v runs.
    - DCX, [src/didcomm/src/dcx].  The counter store is an interface with the laws that
      persistence.rs documents: reservations are durable ([StoreLaws]), while the mark of what
      was received may lag behind a crash; [PromptStore] is a store where it does not.  DcxFrame.v is the frame codec, byte by byte;
      DcxRuntime.v keys, channels, their manager, the counter store, the classical provider,
      both transports and the runtime, with crashes and restarts;
      DcxSafety.v and DcxDelivery.v their theorems; DcxRuns.v runs.
    - Repositories, RecordRepo.v: the interface of the protocols' record stores, the
      in-memory one and the write-through one over a storage provider.
    - AnonCreds, [src/credentials/anoncreds_core]: AnonCreds.v, the services around the
      crate [anoncreds], whose types and functions are parameters.  SerdeJson.v (with a JSON
      syntax and serializers for the witnesses) and Attach64.v are the serializers and the base64 decoders they and the protocols use.
    - Issue-credential, [src/protocols/credentials].  Issuance.v holds states, records and
      formats; IssuanceMessages.v the messages and their wire forms; IssuanceService.v the
      AnonCreds and the W3C service; IssuanceHandler.v the handlers and their dispatch;
      IssuanceProps.v the exchange state machine, each step with the call or the message that
      makes it, and what follows for every run; IssuanceFlow.v an issuance from end to end; IssuanceRuns.v runs.
    - Present-proof, [src/protocols/proofs].  Proofs.v holds records and messages;
      ProofService.v the service and its handlers; ProofProps.v the state machine, each step with the
      call or the message that makes it; ProofFlow.v a proof from end to end, with runs.
    - Message pickup, [src/protocols/pickup].  QueueRepo.v is the repository interface with
      the storage-backed repository, QueueStore.v the laws of the interface and their proof;
      Pickup.v the messages, the services of both sides and the handlers.
    - Mediation, [src/protocols/coordinate_mediation].  Mediation.v holds records and
      messages, Keylists.v the keylist repositories behind an interface with laws,
      Mediator.v the services and handlers, MediationProps.v what the keylists keep;
      Forward.v live sessions, forwarding and the mediator with everything its handlers
      share ([src/mediator_server/src/app.rs]); ForwardProps.v what a forward does;
      AppProps.v what any messages to the mediator preserve; MediationRuns.v runs.
      Wp.v is the weakest-precondition calculus these proofs use.
    - DIDs, [src/did/src/core] and [src/did/src/methods].  Keys.v is the wallet as an interface
      and the texts of keys; Dids.v identifiers, documents, records and their repository;
      PeerDid.v did:peer with its resolver and its creator, PeerProps.v its theorems.
    - Out-of-band, [src/protocols/oob].  Oob.v holds invitations, records, the repository, the
      service and its interface; OobProps.v the record machine and an invitation from end to
      end, with runs.
    - Connections, [src/protocols/connections].  Connections.v holds records, messages, the
      repository's finders, the service and the metadata functions of the agent's module
      ([src/agent/src/modules/connections.rs]); ConnStore.v the storage-backed repository with its
      indexes; ConnHandlers.v the DID documents and their signed
      attachments, and the handlers with what they share; ConnProps.v the record machine with
      its evidence; ConnFlow.v a connection from end to end, with runs.  RecordSpec.v is the
      calculus of record machines that the protocols share.
    - Basic messages, [src/protocols/basic_messages].  BasicMessages.v holds messages, records,
      repositories, the service and the handlers; BasicMessageProps.v who may make and change
      a record, and a conversation from end to end, with runs.  BasicModule.v is the agent's
      module: it registers the handler and sends ([src/agent/src/modules/basic_messages.rs]).
    - Messages in and out of the agent, [src/agent/src/messaging] and
      [src/agent/src/agent/messaging.rs].  MessageProcessor.v holds the registry of handlers, the
      parser, the context, the processor - from an envelope to a handler, and from the
      handler's answer to a sealed one - and the HTTP ingress; Sender.v the resolution of a recipient, the layers
      of forwards and sending, with what the hops find; MessageProps.v what a message that
      arrives does and how an answer is sealed, with runs.
    ** What the theorems show

    - Convergence: replicas that merge in any order agree (documents, OR-sets, maps, and
      histories whose nodes are added once); adds win over concurrent removes and removes act on what was observed.
    - Safety of the method: deactivation is permanent, every registered document has a
      well-formed history, the authorization engine allows exactly what its rules say and
      never removes the last controller; outcomes of every call, errors included.
    - Histories and anchors: content addressing, topological order, block numbers that grow.
    - Disclosure: a proof verifies for every disclosed field and binds it.
    - Sync: what each message does, and where it falls short of its documentation.
    - Signing: a distributed or completed session holds as many signatures as required; a
      message changes only its sender's part; counters are never spent twice.
    - Queues and storage: index consistency, what is taken, pages of queries.
    - Workflow: every call of the service, answered or refused, refines the step of the abstract
      machine that is its own, stored
      instances stay well-typed for their templates, what status offers is what advance
      accepts, redelivered advances are idempotent, commands settle within their attempts.
    - DCX: frames round-trip and only sealed ones decode; over every run of calls one after
      the other with a store, crashes and restarts included, no nonce is used twice, and no message is
      dispatched twice but after a restart that lost the received mark; overlapping calls are examples; a
      rejected frame changes nothing; what one end sends the other end dispatches.
    - Repositories: the write-through repository refines the in-memory one, across restarts.
    - Issue-credential: each call and message takes a record along the steps that are its own
      in the exchange state machine, records only move on, every stored offer, request and credential
      has the history it should have, in order, and between two agents
      whose AnonCreds services answer an offer ends with the issuer's credential at the holder.
    - Present-proof: each call and message takes a record along the steps that are its own; a record
      says verified only after the verifier's service said so, or an ack was heard after the presentation was
      made; a proof completes between agents.
    - Mediation: whatever other connections send, a registered key stays with its connection;
      a forward to it that is accepted is delivered to that connection as it was sent; the
      stored queue refines the in-memory one, across failures and restarts; flushing ends.
    - did:peer: a created DID decodes to what it was created from, with no state; a long
      did:peer:4 resolves to its document, and never to one that its hash does not name.
    - Out-of-band: an invitation is reused by its receiver; a single-use
      one is reused once.
    - Connections: a completed connection has the history it should have and never changes but
      for the metadata that the host writes;
      two agents complete a connection and know each other's DIDs and keys; a search through
      the indexes of the stored repository finds what a scan would.
    - Basic messages: a record comes from one of the two parties of its connection and only
      they change it; what one sends and edits, the other has.
    - Messages: an answer is sealed for the other side of its connection, in the version that
      was agreed; a message that is sent can be opened hop by hop, each naming the next; what arrives is filed
      with its sender or with whom it names, and the wire form of DIDComm v1 is read back.
    Runs that show a defect are examples next to the component; the manifest's findings
    name them.

    ** Bounds and fuel

    [dag_visit_node] recurses with fuel: the number of nodes plus two, and
    [dag_visit_total] shows that this is enough for every well-formed history.
    [build_levels] has the number of leaves as fuel.  [utf8_validate] has the length of
    its input.  [flush_queued_for_connection] has turns as fuel, and [flush_ends] shows how
    many are enough.  Every other recursion is structural.

    ** Not modelled

    Encryption, signatures, zero-knowledge proofs and transports live in external crates;
    the database providers (Askar, Kanon), wallets, servers and the wiring of the agent are
    I/O around the modelled parts.  The remaining protocols (user profiles, feature
    discovery, push notifications, proof of existence) and the credential formats are not
    modelled; the manifest lists each with its reason. *)
From Stdlib Require Export NArith ZArith Lia.
From stdpp Require Export base numbers option list gmap sets strings sorting pretty.
#[export] Set Default Goal Selector "!".

(** * Machine integers, errors and panics *)

(** Unsigned 64-bit arithmetic: the release profile of the workspace does not
    enable overflow checks, so [+] wraps. *)
Definition u64_modulus : N := 18446744073709551616%N.
Definition wrap64 (n : N) : N := (n mod u64_modulus)%N.
Definition add64 (a b : N) : N := wrap64 (a + b)%N.

(** The [as i64] cast of a [u64] and the [as u64] / [as usize] cast of an [i64]. *)
Definition u64_as_i64 (n : N) : Z :=
  let z := Z.of_N (wrap64 n) in
  if decide (z < 9223372036854775808)%Z then z else (z - 18446744073709551616)%Z.
Definition i64_as_u64 (z : Z) : N := Z.to_N (z mod 18446744073709551616)%Z.

(** A fallible computation: a value, the error the code returns, or a panic. *)
Inductive outcome (E A : Type) : Type :=
  | Ok (a : A)
  | Err (e : E)
  | Panic.
Arguments Ok {E A} a.
Arguments Err {E A} e.
Arguments Panic {E A}.

Definition is_ok {E A} (r : outcome E A) : bool :=
  match r with Ok _ => true | _ => false end.

Declare Scope idiom_scope.
Delimit Scope idiom_scope with idiom.
Open Scope idiom_scope.

(** [let? x := r in k] is the [?] operator of Rust. *)
Notation "'let?' x := r 'in' k" :=
  (match r with Ok x => k | Err e => Err e | Panic => Panic end)
  (at level 10, x name, r at level 100, k at level 200) : idiom_scope.
Notation "'let?' ' p := r 'in' k" :=
  (match r with Ok p => k | Err e => Err e | Panic => Panic end)
  (at level 10, p pattern, r at level 100, k at level 200) : idiom_scope.

(** * The world: the clock and the random source

    [Utc::now()] and [Uuid::new_v4()] read the outside.  A run is given the
    readings as two sequences and the number of readings made so far; every
    definition that reads one passes the world on. Instants are nanoseconds. *)
Abbreviation Instant := Z (only parsing).
Abbreviation Uuid := N (only parsing).

Record World := mkWorld {
  w_time : nat → Instant;
  w_tn : nat;
  w_uuid : nat → Uuid;
  w_un : nat
}.

Definition utc_now (w : World) : Instant * World :=
  (w_time w (w_tn w), mkWorld (w_time w) (S (w_tn w)) (w_uuid w) (w_un w)).
Definition uuid_new_v4 (w : World) : Uuid * World :=
  (w_uuid w (w_un w), mkWorld (w_time w) (w_tn w) (w_uuid w) (S (w_un w))).

(** A concrete world: the n-th reading of either is n. *)
Definition world0 : World := mkWorld Z.of_nat 0 N.of_nat 0.

(** [DateTime::to_rfc3339] of [chrono], and the text of a v4 UUID. *)
Class Rfc3339 := { to_rfc3339 : Instant → string }.
Class UuidText := { uuid_to_string : Uuid → string }.
Definition toy_rfc3339 : Rfc3339 := {| to_rfc3339 t := pretty t |}.
Definition toy_uuid_text : UuidText := {| uuid_to_string u := pretty u |}.

(** * Effects

    A method that mutates a shared object: it is given the object and the world,
    and returns an outcome with both.  What was written before an error stays
    written. *)
Definition eff (E S A : Type) : Type := S → World → outcome E A * S * World.

#[export] Instance eff_ret E S : MRet (eff E S) := λ A a s w, (Ok a, s, w).
#[export] Instance eff_bind E S : MBind (eff E S) := λ A B k m s w,
  match m s w with
  | (Ok a, s, w) => k a s w
  | (Err e, s, w) => (Err e, s, w)
  | (Panic, s, w) => (Panic, s, w)
  end.
#[export] Instance eff_fmap E S : FMap (eff E S) := λ A B f m s w,
  match m s w with
  | (Ok a, s, w) => (Ok (f a), s, w)
  | (Err e, s, w) => (Err e, s, w)
  | (Panic, s, w) => (Panic, s, w)
  end.

Definition eff_throw {E S A} (e : E) : eff E S A := λ s w, (Err e, s, w).
Definition eff_get {E S} : eff E S S := λ s w, (Ok s, s, w).
Definition eff_gets {E S A} (f : S → A) : eff E S A := λ s w, (Ok (f s), s, w).
Definition eff_modify {E S} (f : S → S) : eff E S unit := λ s w, (Ok tt, f s, w).
(** A computation that reads the world only. *)
Definition eff_world {E S A} (f : World → A * World) : eff E S A :=
  λ s w, let '(a, w) := f w in (Ok a, s, w).
(** [Uuid::new_v4().to_string()]. *)
Definition new_id `{UuidText} {E S} : eff E S string := u ← eff_world uuid_new_v4; mret (uuid_to_string u).
(** A computation that can fail and touches nothing. *)
Definition eff_lift {E S A} (r : outcome E A) : eff E S A := λ s w, (r, s, w).
(** [match m.await { Ok(a) => .., Err(e) => .. }]: the error becomes a value. *)
Definition eff_catch {E S A} (m : eff E S A) : eff E S (E + A) := λ s w,
  match m s w with
  | (Ok a, s, w) => (Ok (inr a), s, w)
  | (Err e, s, w) => (Ok (inl e), s, w)
  | (Panic, s, w) => (Panic, s, w)
  end.
(** A [for] loop over a list. *)
Fixpoint eff_for {E S A} (l : list A) (f : A → eff E S unit) : eff E S unit :=
  match l with
  | [] => mret tt
  | x :: l => f x;; eff_for l f
  end.

Lemma eff_bind_ok {E S A B} (m : eff E S A) (k : A → eff E S B) s w b s' w' :
  (m ≫= k) s w = (Ok b, s', w') →
  ∃ a s1 w1, m s w = (Ok a, s1, w1) ∧ k a s1 w1 = (Ok b, s', w').
Proof.
  unfold mbind, eff_bind. destruct (m s w) as [[[a|e|] s1] w1]; [|done..]. intros Hk. by exists a, s1, w1.
Qed.
Lemma eff_bind_run {E S A B} (m : eff E S A) (k : A → eff E S B) s w a s' w' :
  m s w = (Ok a, s', w') → (m ≫= k) s w = k a s' w'.
Proof. intros Hm. unfold mbind, eff_bind. by rewrite Hm. Qed.

(** A triple over an invariant [I] of the state: from a state with [I] and [Pre] the
    computation ends in a state with [I], and [Q] holds of its value if it has one. *)
Section triples.
Context {E S : Type} (I : S → Prop).

Definition hoare {A} (Pre : S → Prop) (m : eff E S A) (Q : A → S → Prop) : Prop :=
  ∀ s w, I s → Pre s →
    match m s w with
    | (Ok a, s', _) => I s' ∧ Q a s'
    | (_, s', _) => I s'
    end.

Lemma hoare_ret {A} (a : A) (Q : A → S → Prop) : hoare (Q a) (mret a) Q.
Proof. by intros s w. Qed.

Lemma hoare_bind {A B} Pre (m : eff E S A) (R : A → S → Prop) (k : A → eff E S B) Q :
  hoare Pre m R → (∀ a, hoare (R a) (k a) Q) → hoare Pre (m ≫= k) Q.
Proof.
  intros Hm Hk s w Hs Hp. specialize (Hm s w Hs Hp). unfold mbind, eff_bind.
  destruct (m s w) as [[[a|e|] s'] w']; [|done..]. destruct Hm. by apply Hk.
Qed.

Lemma hoare_conseq {A} (Pre Pre' : S → Prop) (m : eff E S A) (Q Q' : A → S → Prop) :
  (∀ s, I s → Pre s → Pre' s) → (∀ a s, I s → Q' a s → Q a s) → hoare Pre' m Q' → hoare Pre m Q.
Proof.
  intros Hp Hq Hm s w Hs HP. specialize (Hm s w Hs (Hp s Hs HP)).
  destruct (m s w) as [[[a|e|] s'] w']; [|done..]. destruct Hm. auto.
Qed.

Lemma hoare_get Pre : hoare Pre eff_get (λ a s, a = s ∧ Pre s).
Proof. by intros s w. Qed.
Lemma hoare_throw {A} Pre e (Q : A → S → Prop) : hoare Pre (eff_throw e) Q.
Proof. by intros s w. Qed.
Lemma hoare_world {A} Pre (f : World → A * World) :
  hoare Pre (eff_world f) (λ a s, (∃ w, a = (f w).1) ∧ Pre s).
Proof. intros s w Hs Hp. unfold eff_world. destruct (f w) as [a w'] eqn:Hf. split; [done|]. split; [|done]. exists w. by rewrite Hf. Qed.
Lemma hoare_lift {A} Pre (r : outcome E A) : hoare Pre (eff_lift r) (λ a s, r = Ok a ∧ Pre s).
Proof. intros s w Hs Hp. unfold eff_lift. by destruct r. Qed.
Lemma hoare_modify Pre (f : S → S) (Q : unit → S → Prop) :
  (∀ s, I s → Pre s → I (f s) ∧ Q tt (f s)) → hoare Pre (eff_modify f) Q.
Proof. intros Hf s w Hs Hp. by apply Hf. Qed.
Lemma hoare_catch {A} Pre (m : eff E S A) Q :
  hoare Pre m Q → hoare Pre (eff_catch m) (λ r s, match r with inr a => Q a s | inl _ => True end).
Proof.
  intros Hm s w Hs Hp. specialize (Hm s w Hs Hp). unfold eff_catch.
  by destruct (m s w) as [[[a|e|] s'] w'].
Qed.
Lemma hoare_if {A} (b : bool) Pre (m m' : eff E S A) Q :
  hoare Pre m Q → hoare Pre m' Q → hoare Pre (if b then m else m') Q.
Proof. by destruct b. Qed.
Lemma hoare_pre {A} (Pre Pre' : S → Prop) (m : eff E S A) Q :
  (∀ s, Pre s → Pre' s) → hoare Pre' m Q → hoare Pre m Q.
Proof. intros Hp Hm s w Hs Hpre. apply Hm; auto. Qed.
End triples.

(** Runs the effects of the goal as far as their scrutinees allow. *)
Ltac eff_simpl :=
  unfold mbind, eff_bind, mret, eff_ret, eff_get, eff_gets, eff_throw, eff_modify, eff_lift, eff_catch; cbn.

(** * Iteration order of hash maps

    The order in which a [HashMap] or a [HashSet] is visited is not specified.
    The definitions visit them through this interface, and the theorems hold for
    every instance. *)
Class HashOrder := {
  map_iter : ∀ {K V} `{Countable K}, gmap K V → list (K * V);
  map_iter_perm : ∀ {K V} `{Countable K} (m : gmap K V), map_iter m ≡ₚ map_to_list m;
  set_iter : ∀ {K} `{Countable K}, gset K → list K;
  set_iter_perm : ∀ {K} `{Countable K} (s : gset K), set_iter s ≡ₚ elements s
}.

Definition plain_order : HashOrder := {|
  map_iter := λ K V _ _ m, map_to_list m;
  map_iter_perm := λ K V _ _ m, Permutation_refl _;
  set_iter := λ K _ _ s, elements s;
  set_iter_perm := λ K _ _ s, Permutation_refl _
|}.

Definition reverse_order : HashOrder := {|
  map_iter := λ K V _ _ m, reverse (map_to_list m);
  map_iter_perm := λ K V _ _ m, reverse_Permutation _;
  set_iter := λ K _ _ s, reverse (elements s);
  set_iter_perm := λ K _ _ s, reverse_Permutation _
|}.

Section iteration.
Context `{HashOrder} {K V : Type} `{Countable K}.
Implicit Types (m : gmap K V) (s : gset K).

Lemma elem_of_map_iter m k v : (k, v) ∈ map_iter m ↔ m !! k = Some v.
Proof. rewrite map_iter_perm. apply elem_of_map_to_list. Qed.

Lemma elem_of_set_iter s k : k ∈ set_iter s ↔ k ∈ s.
Proof. rewrite set_iter_perm. apply elem_of_elements. Qed.

Lemma NoDup_fst_map_iter m : NoDup (map_iter m).*1.
Proof. rewrite map_iter_perm. apply NoDup_fst_map_to_list. Qed.

Lemma NoDup_set_iter s : NoDup (set_iter s).
Proof. rewrite set_iter_perm. apply NoDup_elements. Qed.

Lemma length_set_iter s : length (set_iter s) = size s.
Proof. by rewrite set_iter_perm. Qed.

Lemma elem_of_map_iter_fst m k : k ∈ (map_iter m).*1 ↔ is_Some (m !! k).
Proof.
  rewrite list_elem_of_fmap. split.
  - intros ([k' v] & -> & Hin%elem_of_map_iter). by exists v.
  - intros [v Hv]. exists (k, v). by rewrite elem_of_map_iter.
Qed.

(** A left fold over a map that updates one key per entry: what it leaves at a
    key depends only on the entry of that key. *)
Lemma foldl_keywise {W} (f : gmap K W → K * V → gmap K W) (g : option W → V → option W)
    (Hf : ∀ acc k v j, f acc (k, v) !! j = if decide (j = k) then g (acc !! j) v else acc !! j)
    (l : list (K * V)) (acc : gmap K W) j :
  NoDup l.*1 →
  foldl f acc l !! j =
    match list_find (λ kv, kv.1 = j) l with
    | Some (_, (_, v)) => g (acc !! j) v
    | None => acc !! j
    end.
Proof.
  revert acc. induction l as [|[k v] l IH]; intros acc; [done|].
  rewrite fmap_cons, NoDup_cons. intros [Hnk Hnd]. cbn [foldl].
  rewrite (IH _ Hnd), Hf. cbn [list_find fst].
  destruct (decide (k = j)) as [->|Hne].
  - rewrite decide_True by done.
    destruct (list_find _ l) as [[i [k' v']]|] eqn:E; [|done].
    apply list_find_Some in E as (Hl & Hk & _). cbn in Hk. subst k'.
    destruct Hnk. apply list_elem_of_fmap. exists (j, v').
    split; [done|]. by eapply list_elem_of_lookup_2.
  - rewrite decide_False by done.
    by destruct (list_find _ l) as [[i [k' v']]|].
Qed.

Lemma list_find_map_iter m j :
  match list_find (λ kv, kv.1 = j) (map_iter m) with
  | Some (_, (_, v)) => m !! j = Some v
  | None => m !! j = None
  end.
Proof.
  destruct (list_find _ _) as [[i [k v]]|] eqn:E.
  - apply list_find_Some in E as (Hl & Hk & _). cbn in Hk. subst k.
    apply elem_of_map_iter. by eapply list_elem_of_lookup_2.
  - apply list_find_None in E. destruct (m !! j) as [v|] eqn:Hj; [|done].
    apply elem_of_map_iter in Hj. rewrite Forall_forall in E. by destruct (E _ Hj).
Qed.

Lemma foldl_map_iter {W} (f : gmap K W → K * V → gmap K W) (g : option W → V → option W)
    (Hf : ∀ acc k v j, f acc (k, v) !! j = if decide (j = k) then g (acc !! j) v else acc !! j)
    m (acc : gmap K W) j :
  foldl f acc (map_iter m) !! j =
    match m !! j with Some v => g (acc !! j) v | None => acc !! j end.
Proof.
  rewrite (foldl_keywise f g Hf) by apply NoDup_fst_map_iter.
  pose proof (list_find_map_iter m j) as Hj.
  destruct (list_find _ _) as [[i [k v]]|]; by rewrite Hj.
Qed.
End iteration.

(** * Order on strings

    Rust compares strings by their bytes, as [String.compare] does. *)
Definition str_lt (a b : string) : bool :=
  match String.compare a b with Lt => true | _ => false end.
Definition str_le (a b : string) : bool := negb (str_lt b a).

Lemma str_lt_irrefl a : str_lt a a = false.
Proof.
  unfold str_lt. pose proof (String.compare_antisym a a) as H.
  by destruct (String.compare a a).
Qed.

Lemma str_lt_trans a b c : str_lt a b = true → str_lt b c = true → str_lt a c = true.
Proof.
  unfold str_lt. revert b c.
  induction a as [|x a IH]; intros [|y b] [|z c]; cbn; try done.
  unfold Ascii.compare.
  destruct (N.compare_spec (Ascii.N_of_ascii x) (Ascii.N_of_ascii y)),
    (N.compare_spec (Ascii.N_of_ascii y) (Ascii.N_of_ascii z)),
    (N.compare_spec (Ascii.N_of_ascii x) (Ascii.N_of_ascii z)); try done; try lia.
  apply IH.
Qed.

Lemma str_lt_total a b : a = b ∨ str_lt a b = true ∨ str_lt b a = true.
Proof.
  unfold str_lt. rewrite (String.compare_antisym b a).
  destruct (String.compare a b) eqn:E; cbn; [|by auto..].
  left. by apply String.compare_eq_iff.
Qed.

Lemma str_lt_asym a b : str_lt a b = true → str_lt b a = false.
Proof.
  intros Hab. destruct (str_lt b a) eqn:Hba; [|done].
  pose proof (str_lt_trans _ _ _ Hab Hba). by rewrite str_lt_irrefl in *.
Qed.

Lemma str_le_or a b : str_le a b = true ∨ str_le b a = true.
Proof.
  unfold str_le.
  destruct (str_lt b a) eqn:E; [|by left]. right. by rewrite (str_lt_asym _ _ E).
Qed.

(** [v.sort()] on a vector of strings. *)
Definition str_ler : relation string := λ a b, str_le a b = true.
#[export] Instance str_ler_dec : RelDecision str_ler.
Proof. intros a b. unfold str_ler. apply _. Defined.
Definition sort_strings (l : list string) : list string := merge_sort str_ler l.
Lemma sort_strings_perm l : sort_strings l ≡ₚ l.
Proof. apply merge_sort_Permutation. Qed.

#[export] Instance str_ler_total : Total str_ler.
Proof. intros a b. apply str_le_or. Qed.
#[export] Instance str_ler_trans : Transitive str_ler.
Proof.
  intros a b c. unfold str_ler, str_le. rewrite !negb_true_iff. intros Hba Hcb.
  destruct (str_lt c a) eqn:Hca; [|done].
  destruct (str_lt_total a b) as [->|[Hab|Hab]]; [congruence| |congruence].
  by rewrite (str_lt_trans _ _ _ Hca Hab) in Hcb.
Qed.
#[export] Instance str_ler_antisymm : AntiSymm (=) str_ler.
Proof.
  intros a b. unfold str_ler, str_le. rewrite !negb_true_iff. intros Hba Hab.
  destruct (str_lt_total a b) as [->|[?|?]]; congruence.
Qed.

(** Sorting forgets the order of its input. *)
Lemma sort_strings_proper l l' : l ≡ₚ l' → sort_strings l = sort_strings l'.
Proof.
  intros Hp. apply (Sorted_unique str_ler).
  - apply Sorted_merge_sort, _.
  - apply Sorted_merge_sort, _.
  - unfold sort_strings. by rewrite !merge_sort_Permutation.
Qed.

(** [v.sort_by_key(f)]: a stable sort by an integer key. *)
Fixpoint insert_by_key {A} (f : A → Z) (x : A) (l : list A) : list A :=
  match l with
  | [] => [x]
  | y :: l' => if (f x <=? f y)%Z then x :: y :: l' else y :: insert_by_key f x l'
  end.
Definition sort_by_key {A} (f : A → Z) (l : list A) : list A := foldr (insert_by_key f) [] l.

Lemma insert_by_key_perm {A} (f : A → Z) x l : insert_by_key f x l ≡ₚ x :: l.
Proof.
  induction l as [|y l IH]; cbn; [done|]. destruct (f x <=? f y)%Z; [done|]. rewrite IH. apply Permutation_swap.
Qed.
Lemma sort_by_key_perm {A} (f : A → Z) l : sort_by_key f l ≡ₚ l.
Proof. induction l as [|x l IH]; cbn; [done|]. by rewrite insert_by_key_perm, IH. Qed.

Lemma sort_by_key_sorted {A} (f : A → Z) l : StronglySorted (λ a b, f a ≤ f b)%Z (sort_by_key f l).
Proof.
  induction l as [|x l IH]; [constructor|]. revert IH.
  change (sort_by_key f (x :: l)) with (insert_by_key f x (sort_by_key f l)).
  generalize (sort_by_key f l). clear l. intros l.
  induction l as [|y l IH]; cbn; intros Hs; [by constructor|].
  apply StronglySorted_inv in Hs as [Hs Hy]. destruct (Z.leb_spec (f x) (f y)).
  - constructor; [by constructor|]. constructor; [done|]. eapply Forall_impl; [exact Hy|]. cbn. lia.
  - constructor; [by apply IH|]. rewrite insert_by_key_perm. constructor; [lia|done].
Qed.

(** The concatenation of a list of byte strings, as successive [update] calls of
    a streaming hasher see it. *)
Definition str_concat (l : list string) : string := foldr String.append EmptyString l.

Create HintDb idiom discriminated.
#[export] Hint Resolve NoDup_fst_map_iter NoDup_set_iter str_lt_irrefl : idiom.

(** Splits every conjunction and every [match] it finds, and closes what it can. *)
Ltac crush_cases :=
  repeat first
    [ progress simplify_eq/=
    | case_match
    | case_decide
    | done
    | lia ].

(** * String tests of the standard library *)

Definition str_starts_with (s p : string) : bool := String.prefix p s.
Definition str_contains (s p : string) : bool :=
  match String.index 0 p s with Some _ => true | None => false end.
Definition str_ends_with (s p : string) : bool :=
  (String.length p <=? String.length s)%nat &&
  bool_decide (String.substring (String.length s - String.length p) (String.length p) s = p).

(** * The first element with a property *)

(** [iter().find(..)]. *)
Definition find_first {A} (P : A → Prop) `{∀ x, Decision (P x)} (l : list A) : option A := snd <$> list_find P l.

Lemma find_first_Some {A} (P : A → Prop) `{∀ x, Decision (P x)} l x : find_first P l = Some x → x ∈ l ∧ P x.
Proof.
  unfold find_first. destruct (list_find P l) as [[i y]|] eqn:E; [|done]. intros [= <-].
  apply list_find_Some in E as (Hl&HP&_). split; [by eapply list_elem_of_lookup_2|done].
Qed.

Lemma find_first_None {A} (P : A → Prop) `{∀ x, Decision (P x)} l : find_first P l = None ↔ ∀ x, x ∈ l → ¬ P x.
Proof.
  unfold find_first. destruct (list_find P l) as [[i y]|] eqn:E; cbn.
  - split; [done|]. apply list_find_Some in E as (Hl&HP&_). intros Hn. exfalso.
    eapply Hn; [by eapply list_elem_of_lookup_2|done].
  - split; [|done]. intros _. apply list_find_None in E. by rewrite Forall_forall in E.
Qed.

Lemma find_first_is_Some {A} (P : A → Prop) `{∀ x, Decision (P x)} l x : x ∈ l → P x → is_Some (find_first P l).
Proof. intros Hx HP. apply not_eq_None_Some. rewrite find_first_None. intros Hn. by apply (Hn x). Qed.
