(* ===== verification/StdText.v ===== *)
(** The text conversions of the Rust standard library that the components use: the
    decimal rendering and parsing of [u64], and [String::from_utf8], with the texts of
    their errors. *)
From Stdlib Require Import Ascii.
From S2P Require Import Prelude.

(** [u64::to_string]. *)
Definition u64_to_string (n : N) : string := pretty n.

(** * [str::parse::<u64>] *)

Inductive IntErrorKind := IntEmpty | IntInvalidDigit | IntPosOverflow.

(** [ParseIntError::to_string]. *)
Definition int_error_text (e : IntErrorKind) : string :=
  match e with
  | IntEmpty => "cannot parse integer from empty string"
  | IntInvalidDigit => "invalid digit found in string"
  | IntPosOverflow => "number too large to fit in target type"
  end.

Definition digit_of (c : Ascii.ascii) : option N :=
  let n := Ascii.N_of_ascii c in
  if decide (48 ≤ n ≤ 57)%N then Some (n - 48)%N else None.

Fixpoint parse_u64_go (acc : N) (s : string) : outcome IntErrorKind N :=
  match s with
  | EmptyString => Ok acc
  | String c s =>
      match digit_of c with
      | None => Err IntInvalidDigit
      | Some d =>
          if (acc * 10 + d <? u64_modulus)%N then parse_u64_go (acc * 10 + d) s else Err IntPosOverflow
      end
  end.

Definition parse_u64 (s : string) : outcome IntErrorKind N :=
  match s with
  | EmptyString => Err IntEmpty
  | String "+"%char EmptyString => Err IntInvalidDigit
  | String "+"%char s => parse_u64_go 0 s
  | s => parse_u64_go 0 s
  end.

(** A parsed number is a [u64]. *)
Lemma parse_u64_go_bound acc s n : (acc < u64_modulus)%N → parse_u64_go acc s = Ok n → (n < u64_modulus)%N.
Proof.
  revert acc. induction s as [|c s IH]; cbn; intros acc Ha; [by intros [= <-]|].
  destruct (digit_of c) as [d|]; [|done].
  destruct (N.ltb_spec (acc * 10 + d) u64_modulus); [|done]. by apply IH.
Qed.

Lemma parse_u64_bound s n : parse_u64 s = Ok n → (n < u64_modulus)%N.
Proof.
  assert (0 < u64_modulus)%N as H0 by done. unfold parse_u64.
  repeat case_match; subst; try done; by apply parse_u64_go_bound.
Qed.

Lemma digit_of_pretty d : (d < 10)%N → digit_of (pretty_N_char d) = Some d.
Proof.
  intros Hd.
  assert (d = 0 ∨ d = 1 ∨ d = 2 ∨ d = 3 ∨ d = 4 ∨ d = 5 ∨ d = 6 ∨ d = 7 ∨ d = 8 ∨ d = 9)%N as Hc by lia.
  destruct Hc as [->|[->|[->|[->|[->|[->|[->|[->|[->| ->]]]]]]]]]; reflexivity.
Qed.

Lemma parse_pretty_go n s :
  (0 < n < u64_modulus)%N → parse_u64_go 0 (pretty_N_go n s) = parse_u64_go n s.
Proof.
  revert s. induction (N.lt_wf_0 n) as [n _ IH]. intros s Hn.
  rewrite pretty_N_go_step by lia.
  assert (n mod 10 < 10)%N as Hm by (apply N.mod_lt; lia).
  pose proof (N.div_mod n 10 ltac:(lia)) as Hdm.
  assert (parse_u64_go (n / 10) (String (pretty_N_char (n mod 10)) s) = parse_u64_go n s) as Hstep.
  { cbn [parse_u64_go]. rewrite digit_of_pretty by done.
    replace (n / 10 * 10 + n mod 10)%N with n by lia. by rewrite (proj2 (N.ltb_lt _ _)) by lia. }
  destruct (decide (n / 10 = 0)%N) as [Hz|Hz].
  - rewrite Hz, pretty_N_go_0. by rewrite Hz in Hstep.
  - assert (n / 10 < n)%N by (apply N.div_lt; lia). rewrite IH by lia. exact Hstep.
Qed.

Lemma pretty_go_head n s :
  (0 < n)%N → ∃ c r, pretty_N_go n s = String c r ∧ is_Some (digit_of c).
Proof.
  revert s. induction (N.lt_wf_0 n) as [n _ IH]. intros s Hn. rewrite pretty_N_go_step by done.
  destruct (decide (n / 10 = 0)%N) as [Hz|Hz].
  - rewrite Hz, pretty_N_go_0. eexists _, _. split; [done|]. rewrite digit_of_pretty; [done|]. apply N.mod_lt. lia.
  - assert (n / 10 < n)%N by (apply N.div_lt; lia). apply IH; [done|]. by apply N.neq_0_lt_0.
Qed.

Lemma parse_u64_unsigned c s : is_Some (digit_of c) → parse_u64 (String c s) = parse_u64_go 0 (String c s).
Proof.
  intros [d Hd]. unfold parse_u64. destruct c as [[] [] [] [] [] [] [] []]; try reflexivity; discriminate Hd.
Qed.

Lemma parse_u64_to_string n : (n < u64_modulus)%N → parse_u64 (u64_to_string n) = Ok n.
Proof.
  intros Hn. unfold u64_to_string. destruct (decide (n = 0)%N) as [->|Hz]; [done|].
  unfold pretty, pretty_N. rewrite decide_False by done.
  destruct (pretty_go_head n "") as (c&r&Hr&Hd); [lia|]. rewrite Hr, parse_u64_unsigned, <- Hr by done.
  rewrite parse_pretty_go by lia. done.
Qed.

(** * [String::from_utf8]

    The validation of the standard library: where it fails it knows the index of the
    first bad sequence and, unless the input ended inside it, its length. *)

Inductive utf8_step := Utf8Ok (len : nat) | Utf8Bad (len : nat) | Utf8Incomplete.

Definition in_range (a b : N) (n : N) : bool := (a <=? n)%N && (n <=? b)%N.

(** The continuation bytes after a first byte that is right so far. *)
Fixpoint utf8_tail (seen : nat) (k : nat) (l : list N) : utf8_step :=
  match k with
  | O => Utf8Ok seen
  | S k =>
      match l with
      | [] => Utf8Incomplete
      | b :: l => if in_range 128 191 b then utf8_tail (S seen) k l else Utf8Bad seen
      end
  end.

(** The second byte of a sequence of [k + 2] bytes lies in a range of its own. *)
Definition utf8_second (a b : N) (k : nat) (l : list N) : utf8_step :=
  match l with
  | [] => Utf8Incomplete
  | x :: l => if in_range a b x then utf8_tail 2 k l else Utf8Bad 1
  end.

Definition utf8_char (l : list N) : utf8_step :=
  match l with
  | [] => Utf8Incomplete
  | b :: l =>
      if (b <=? 127)%N then Utf8Ok 1
      else if in_range 194 223 b then utf8_tail 1 1 l
      else if (b =? 224)%N then utf8_second 160 191 1 l
      else if in_range 225 236 b then utf8_second 128 191 1 l
      else if (b =? 237)%N then utf8_second 128 159 1 l
      else if in_range 238 239 b then utf8_second 128 191 1 l
      else if (b =? 240)%N then utf8_second 144 191 2 l
      else if in_range 241 243 b then utf8_second 128 191 2 l
      else if (b =? 244)%N then utf8_second 128 143 2 l
      else Utf8Bad 1
  end.

(** [Utf8Error::to_string]. *)
Definition utf8_error_text (index : nat) (len : option nat) : string :=
  match len with
  | Some n => "invalid utf-8 sequence of " +:+ pretty n +:+ " bytes from index " +:+ pretty index
  | None => "incomplete utf-8 byte sequence from index " +:+ pretty index
  end.

(** [fuel] bounds the number of characters; the length of the input is enough, every
    character takes a byte. *)
Fixpoint utf8_validate (fuel : nat) (index : nat) (l : list N) : option string :=
  match fuel, l with
  | O, _ | _, [] => None
  | S fuel, _ =>
      match utf8_char l with
      | Utf8Ok n => utf8_validate fuel (index + n) (drop n l)
      | Utf8Bad n => Some (utf8_error_text index (Some n))
      | Utf8Incomplete => Some (utf8_error_text index None)
      end
  end.

Definition bytes_of_string (s : string) : list N := Ascii.N_of_ascii <$> String.list_ascii_of_string s.

(** [String::from_utf8]: the string, or the text of the error. *)
Definition from_utf8 (value : string) : outcome string string :=
  let l := bytes_of_string value in
  match utf8_validate (length l) 0 l with None => Ok value | Some e => Err e end.

Lemma utf8_validate_ascii fuel index l : Forall (λ b, (b <= 127)%N) l → utf8_validate fuel index l = None.
Proof.
  intros Hl. revert fuel index. induction Hl as [|b l Hb Hl IH]; intros [|fuel] index; try done. cbn [utf8_validate].
  assert (utf8_char (b :: l) = Utf8Ok 1) as ->; [|apply IH].
  cbn [utf8_char]. by rewrite (proj2 (N.leb_le _ _) Hb).
Qed.

(** An ASCII text is valid. *)
Lemma from_utf8_ascii s : Forall (λ b, (b <= 127)%N) (bytes_of_string s) → from_utf8 s = Ok s.
Proof. intros Hs. unfold from_utf8. by rewrite utf8_validate_ascii. Qed.

Lemma digit_ascii c : is_Some (digit_of c) → (Ascii.N_of_ascii c <= 127)%N.
Proof. unfold digit_of. intros [d Hd]. case_decide; [lia|done]. Qed.

Lemma pretty_go_ascii n s :
  Forall (λ b, (b <= 127)%N) (bytes_of_string s) → Forall (λ b, (b <= 127)%N) (bytes_of_string (pretty_N_go n s)).
Proof.
  revert s. induction (N.lt_wf_0 n) as [n _ IH]. intros s Hs.
  destruct (decide (n = 0)%N) as [->|Hn]; [by rewrite pretty_N_go_0|].
  rewrite pretty_N_go_step by lia. apply IH; [apply N.div_lt; lia|]. constructor; [|done].
  apply digit_ascii. rewrite digit_of_pretty; [done|]. apply N.mod_lt. lia.
Qed.

Lemma from_utf8_u64 n : from_utf8 (u64_to_string n) = Ok (u64_to_string n).
Proof.
  apply from_utf8_ascii. unfold u64_to_string, pretty, pretty_N. case_decide; [by repeat constructor|].
  by apply pretty_go_ascii.
Qed.

(** * Splitting and stripping *)

Lemma string_app_cons a (s t : string) : String a s +:+ t = String a (s +:+ t).
Proof. reflexivity. Qed.
Lemma string_app_nil (s : string) : s +:+ "" = s.
Proof. induction s as [|a s IH]; [done|]. by rewrite string_app_cons, IH. Qed.
Lemma string_app_assoc (s t u : string) : (s +:+ t) +:+ u = s +:+ (t +:+ u).
Proof. induction s as [|a s IH]; [done|]. by rewrite !string_app_cons, IH. Qed.
Lemma string_app_inj (s t u : string) : s +:+ t = s +:+ u → t = u.
Proof. induction s as [|a s IH]; [done|]. rewrite !string_app_cons. intros [= He]. by apply IH. Qed.

(** A text without a character, and one of letters and digits. *)
Definition str_avoids (c : ascii) (s : string) : bool := forallb (λ a, negb (Ascii.eqb a c)) (String.list_ascii_of_string s).
Definition is_alnum (a : ascii) : bool :=
  let n := Ascii.N_of_ascii a in
  ((48 <=? n) && (n <=? 57) || (65 <=? n) && (n <=? 90) || (97 <=? n) && (n <=? 122))%N.
Definition str_alnum (s : string) : bool := forallb is_alnum (String.list_ascii_of_string s).

Lemma str_avoids_cons c a s : str_avoids c (String a s) = negb (Ascii.eqb a c) && str_avoids c s.
Proof. reflexivity. Qed.
Lemma str_avoids_app c s t : str_avoids c (s +:+ t) = str_avoids c s && str_avoids c t.
Proof. induction s as [|a s IH]; [done|]. by rewrite string_app_cons, !str_avoids_cons, IH, andb_assoc. Qed.
Lemma alnum_avoids c s : is_alnum c = false → str_alnum s = true → str_avoids c s = true.
Proof.
  intros Hc. unfold str_alnum, str_avoids. rewrite !forallb_forall. intros Hs a Ha. apply Hs in Ha.
  apply negb_true_iff, Ascii.eqb_neq. by intros ->; rewrite Hc in Ha.
Qed.

(** [str::split_once] and [str::split] at a character, [str::splitn]. *)
Fixpoint str_split_once (c : ascii) (s : string) : option (string * string) :=
  match s with
  | EmptyString => None
  | String a s => if Ascii.eqb a c then Some ("", s) else (λ p, (String a p.1, p.2)) <$> str_split_once c s
  end.
Fixpoint str_split (c : ascii) (s : string) : list string :=
  match s with
  | EmptyString => [""]
  | String a s =>
      if Ascii.eqb a c then "" :: str_split c s
      else match str_split c s with x :: l => String a x :: l | [] => [String a ""] end
  end.
Fixpoint str_splitn (n : nat) (c : ascii) (s : string) : list string :=
  match n with
  | O => []
  | 1 => [s]
  | S n => match str_split_once c s with Some (x, s) => x :: str_splitn n c s | None => [s] end
  end.

Lemma str_split_once_app c s t : str_avoids c s = true → str_split_once c (s +:+ String c t) = Some (s, t).
Proof.
  induction s as [|a s IH]; [intros _; change ("" +:+ String c t) with (String c t); cbn; by rewrite Ascii.eqb_refl|].
  rewrite str_avoids_cons, andb_true_iff, negb_true_iff. intros [Ha Hs]. rewrite string_app_cons. cbn. by rewrite Ha, (IH Hs).
Qed.
Lemma str_split_once_none c s : str_avoids c s = true → str_split_once c s = None.
Proof.
  induction s as [|a s IH]; [done|]. rewrite str_avoids_cons, andb_true_iff, negb_true_iff. intros [Ha Hs]. cbn. by rewrite Ha, (IH Hs).
Qed.
Lemma str_split_once_Some c s x y : str_split_once c s = Some (x, y) → s = x +:+ String c y ∧ str_avoids c x = true.
Proof.
  revert x. induction s as [|a s IH]; intros x; cbn; [done|]. destruct (Ascii.eqb a c) eqn:Ha.
  - intros [= <- <-]. apply Ascii.eqb_eq in Ha as ->. done.
  - destruct (str_split_once c s) as [[u v]|]; [|done]. cbn. intros [= <- <-]. destruct (IH u eq_refl) as [-> Hu].
    split; [done|]. by rewrite str_avoids_cons, Ha, Hu.
Qed.
Lemma str_split_nonempty c s : str_split c s ≠ [].
Proof. destruct s as [|a s]; [done|]. cbn. destruct (Ascii.eqb a c); [done|]. by destruct (str_split c s). Qed.
Lemma str_split_none c s : str_avoids c s = true → str_split c s = [s].
Proof.
  induction s as [|a s IH]; [done|]. rewrite str_avoids_cons, andb_true_iff, negb_true_iff. intros [Ha Hs]. cbn. by rewrite Ha, (IH Hs).
Qed.
Lemma str_split_app c s t : str_avoids c s = true → str_split c (s +:+ String c t) = s :: str_split c t.
Proof.
  induction s as [|a s IH]; [intros _; change ("" +:+ String c t) with (String c t); cbn; by rewrite Ascii.eqb_refl|].
  rewrite str_avoids_cons, andb_true_iff, negb_true_iff. intros [Ha Hs]. rewrite string_app_cons. cbn. by rewrite Ha, (IH Hs).
Qed.

(** [s.split(c).next().unwrap_or(s)], [s.rsplit(c).next().unwrap_or(s)]. *)
Definition str_before (c : ascii) (s : string) : string := default s (head (str_split c s)).
Definition str_after_last (c : ascii) (s : string) : string := default s (last (str_split c s)).
Lemma str_before_none c s : str_avoids c s = true → str_before c s = s.
Proof. intros Hs. unfold str_before. by rewrite str_split_none. Qed.
Lemma str_before_app c s t : str_avoids c s = true → str_before c (s +:+ String c t) = s.
Proof. intros Hs. unfold str_before. by rewrite str_split_app. Qed.
Lemma str_after_last_none c s : str_avoids c s = true → str_after_last c s = s.
Proof. intros Hs. unfold str_after_last. by rewrite str_split_none. Qed.
Lemma str_split_suffix c s t : ∃ x l, str_split c (s +:+ String c t) = x :: l ++ str_split c t.
Proof.
  induction s as [|a s (x & l & IH)].
  - exists "", []. change ("" +:+ String c t) with (String c t). cbn. by rewrite Ascii.eqb_refl.
  - rewrite string_app_cons. cbn. rewrite IH. destruct (Ascii.eqb a c); [by exists "", (x :: l)|by exists (String a x), l].
Qed.
Lemma str_after_last_app c s t : str_after_last c (s +:+ String c t) = str_after_last c t.
Proof.
  unfold str_after_last. destruct (str_split_suffix c s t) as (x & l & ->). rewrite app_comm_cons, last_app.
  destruct (last (str_split c t)) as [y|] eqn:Hy; [done|]. by apply last_None, str_split_nonempty in Hy.
Qed.

(** [str::strip_prefix]. *)
Fixpoint str_strip_prefix (p s : string) : option string :=
  match p, s with
  | EmptyString, _ => Some s
  | String a p, String b s => if decide (a = b) then str_strip_prefix p s else None
  | _, _ => None
  end.
Lemma strip_prefix_app p s : str_strip_prefix p (p +:+ s) = Some s.
Proof. induction p as [|a p IH]; [done|]. rewrite string_app_cons. cbn. by rewrite decide_True. Qed.
Lemma strip_prefix_some p s t : str_strip_prefix p s = Some t → s = p +:+ t.
Proof.
  revert s. induction p as [|a p IH]; intros s; cbn; [by intros [= ->]|]. destruct s as [|b s]; [done|].
  case_decide as Hab; [|done]. intros Hs%IH. by rewrite Hab, Hs.
Qed.
Lemma starts_with_strip p s : str_starts_with s p = bool_decide (is_Some (str_strip_prefix p s)).
Proof.
  revert s. induction p as [|a p IH]; intros [|b s]; try done. cbn. case_decide as Hab.
  - destruct (ascii_dec a b); [|done]. apply IH.
  - by destruct (ascii_dec a b).
Qed.
Lemma starts_with_app p s : str_starts_with (p +:+ s) p = true.
Proof. rewrite starts_with_strip, strip_prefix_app. by apply bool_decide_eq_true. Qed.

Lemma string_length_app (s t : string) : String.length (s +:+ t) = String.length s + String.length t.
Proof. induction s as [|a s IH]; [done|]. rewrite string_app_cons. cbn. by rewrite IH. Qed.
Lemma substring_app_l (a b : string) n : String.length a = n → String.substring 0 n (a +:+ b) = a.
Proof.
  revert n. induction a as [|c a IH]; intros n; cbn; intros <-; [by destruct b|].
  exact (f_equal (String c) (IH _ eq_refl)).
Qed.
Lemma substring_app_r (a b : string) n m k :
  String.length a = n → String.substring (n + k) m (a +:+ b) = String.substring k m b.
Proof. revert n. induction a as [|c a IH]; intros n; cbn; intros <-; [done|]. exact (IH _ eq_refl). Qed.

(** The derived [Debug] text of a list. *)
Definition debug_list (l : list string) : string :=
  "[" +:+ match l with [] => "" | x :: l => foldl (λ acc y, acc +:+ ", " +:+ y) x l end +:+ "]".
