(* ===== verification/Crdt.v ===== *)
(** The interface every state-based CRDT of did:ajna offers to the document that
    is built from them ([src/did/src/ajna/document.rs], [AjnaDocument::merge]).

    [crdt_ok] is the invariant of a replica state.  [crdt_compat a b] says that
    the two states could meet without a conflict the merge does not arbitrate
    (it is [True] for the OR-Set and the vector clock; for the LWW-Map it excludes
    two different writes carrying the same timestamp and node).  The document's
    theorems are proved against this interface; each CRDT file discharges it.

    Vector clocks, [src/did/src/ajna/vector_clock.rs].

    Node identifiers map to 64-bit counters; a missing entry reads as 0.  The
    specification is the pointwise order [vc_leq] on the readings: [happens_before]
    decides its strict part, [merge] is its least upper bound, [compare] classifies
    two clocks.

    Last-write-wins maps, [src/did/src/ajna/lww_map.rs].

    Each key holds the entry of the winning write, a removal being a write of a
    tombstone.  An entry wins by its timestamp, ties going to the greater node id;
    an entry that ties on both does not win, so the one already stored stays.

    Observed-remove sets, [src/did/src/ajna/or_set.rs].

    Every addition of an element carries its own UUID; a removal moves the UUIDs
    it sees to the tombstones.  The specification of a state is its set of live
    (element, UUID) instances together with its tombstones: under the invariant
    [orset_ok] the two determine the state ([orset_ext]), and [merge] is the union
    of both less every tombstoned instance. *)
From S2P Require Import Prelude.

Class StateCrdt (S : Type) := {
  crdt_new : S;
  crdt_merge : S → S → S;
  crdt_ok : S → Prop;
  crdt_compat : S → S → Prop;
  crdt_new_ok : crdt_ok crdt_new;
  crdt_merge_ok a b : crdt_ok a → crdt_ok b → crdt_ok (crdt_merge a b);
  crdt_merge_new_l b : crdt_ok b → crdt_merge crdt_new b = b;
  crdt_merge_idem a : crdt_ok a → crdt_merge a a = a;
  crdt_merge_comm a b : crdt_ok a → crdt_ok b → crdt_compat a b → crdt_merge a b = crdt_merge b a;
  crdt_merge_assoc a b c : crdt_ok a → crdt_ok b → crdt_ok c →
    crdt_merge a (crdt_merge b c) = crdt_merge (crdt_merge a b) c
}.

(** An optional CRDT field of the document: [if let Some(ref o) = other.f
    { self.f.get_or_insert_with(new).merge(o) }]. *)
Section optional.
Context {S : Type} `{StateCrdt S}.

(** [src/did/src/ajna/document.rs:397-400] AjnaDocument::merge (the pattern of each optional field) *)
Definition opt_merge (self other : option S) : option S :=
  match other with
  | None => self
  | Some o => Some (crdt_merge (default crdt_new self) o)
  end.

Definition opt_ok (a : option S) : Prop := from_option crdt_ok True a.
Definition opt_compat (a b : option S) : Prop :=
  match a, b with Some x, Some y => crdt_compat x y | _, _ => True end.

Lemma opt_default_ok a : opt_ok a → crdt_ok (default crdt_new a).
Proof. destruct a; [done|]. intros _. apply crdt_new_ok. Qed.

Lemma opt_merge_ok a b : opt_ok a → opt_ok b → opt_ok (opt_merge a b).
Proof. destruct b; [|done]. intros Ha Hb. by apply crdt_merge_ok; [apply opt_default_ok|]. Qed.

Lemma opt_merge_idem a : opt_ok a → opt_merge a a = a.
Proof. destruct a; [|done]. intros Ha. cbn. by rewrite crdt_merge_idem. Qed.

Lemma opt_merge_none_l b : opt_ok b → opt_merge None b = b.
Proof. destruct b; [|done]. intros Hb. cbn. by rewrite crdt_merge_new_l. Qed.

Lemma opt_merge_comm a b : opt_ok a → opt_ok b → opt_compat a b → opt_merge a b = opt_merge b a.
Proof.
  destruct a as [a|], b as [b|]; intros Ha Hb Hab; cbn in *; [|by rewrite crdt_merge_new_l..|done].
  by rewrite crdt_merge_comm.
Qed.

Lemma opt_merge_assoc a b c : opt_ok a → opt_ok b → opt_ok c →
  opt_merge a (opt_merge b c) = opt_merge (opt_merge a b) c.
Proof.
  destruct c as [c|]; [|done]. destruct b as [b|]; intros Ha Hb Hc; cbn.
  - rewrite crdt_merge_assoc; auto using opt_default_ok.
  - by rewrite (crdt_merge_new_l c).
Qed.
End optional.

#[export] Hint Resolve crdt_new_ok crdt_merge_ok opt_merge_ok : idiom.

Definition option_crdt (S : Type) `{StateCrdt S} : StateCrdt (option S).
Proof.
  refine {| crdt_new := None; crdt_merge := opt_merge; crdt_ok := opt_ok; crdt_compat := opt_compat |}.
  - done.
  - apply opt_merge_ok.
  - apply opt_merge_none_l.
  - apply opt_merge_idem.
  - apply opt_merge_comm.
  - apply opt_merge_assoc.
Defined.
#[export] Existing Instance option_crdt.

(** [src/did/src/ajna/vector_clock.rs:9-14] VectorClock *)
Record VectorClock := mkVC { clocks : gmap string N }.

(** [src/did/src/ajna/vector_clock.rs:111-125] ClockOrdering *)
Inductive ClockOrdering := Equal | Before | After | Concurrent.

#[export] Instance VectorClock_eq_dec : EqDecision VectorClock.
Proof. solve_decision. Defined.

(** [src/did/src/ajna/vector_clock.rs:17-22] VectorClock::new *)
Definition vc_new : VectorClock := mkVC ∅.

(** [src/did/src/ajna/vector_clock.rs:24-28] VectorClock::increment *)
Definition vc_increment (self : VectorClock) (node_id : string) : VectorClock :=
  let counter := default 0%N (clocks self !! node_id) in
  mkVC (<[node_id := add64 counter 1]> (clocks self)).

(** [src/did/src/ajna/vector_clock.rs:30-33] VectorClock::get *)
Definition vc_get (self : VectorClock) (node_id : string) : N :=
  default 0%N (clocks self !! node_id).

(** [src/did/src/ajna/vector_clock.rs:43-51] VectorClock::happens_before (the first loop; [None] is its early [return false]) *)
Fixpoint vc_hb_self (other : VectorClock) (entries : list (string * N))
    (strictly_less : bool) : option bool :=
  match entries with
  | [] => Some strictly_less
  | (node, time) :: rest =>
      let other_time := vc_get other node in
      if (other_time <? time)%N then None
      else vc_hb_self other rest (if (time <? other_time)%N then true else strictly_less)
  end.

(** [src/did/src/ajna/vector_clock.rs:53-58] VectorClock::happens_before (the second loop) *)
Fixpoint vc_hb_other (self : VectorClock) (entries : list (string * N))
    (strictly_less : bool) : bool :=
  match entries with
  | [] => strictly_less
  | (node, time) :: rest =>
      vc_hb_other self rest
        (if bool_decide (clocks self !! node = None) && (0 <? time)%N then true else strictly_less)
  end.

Section with_order.
  Context `{HashOrder}.

(** [src/did/src/ajna/vector_clock.rs:35-61] VectorClock::happens_before *)
Definition vc_happens_before (self other : VectorClock) : bool :=
  match vc_hb_self other (map_iter (clocks self)) false with
  | None => false
  | Some strictly_less => vc_hb_other self (map_iter (clocks other)) strictly_less
  end.

(** [src/did/src/ajna/vector_clock.rs:63-66] VectorClock::is_concurrent *)
Definition vc_is_concurrent (self other : VectorClock) : bool :=
  negb (vc_happens_before self other) && negb (vc_happens_before other self)
  && negb (bool_decide (self = other)).

(** [src/did/src/ajna/vector_clock.rs:68-76] VectorClock::merge *)
Definition vc_merge (self other : VectorClock) : VectorClock :=
  mkVC (foldl (λ acc kv,
    match acc !! kv.1 with
    | Some t => <[kv.1 := (t `max` kv.2)%N]> acc
    | None => <[kv.1 := kv.2]> acc
    end) (clocks self) (map_iter (clocks other))).

(** [src/did/src/ajna/vector_clock.rs:78-92] VectorClock::compare *)
Definition vc_compare (self other : VectorClock) : ClockOrdering :=
  if decide (self = other) then Equal
  else if vc_happens_before self other then Before
  else if vc_happens_before other self then After
  else Concurrent.

(** [src/did/src/ajna/vector_clock.rs:94-97] VectorClock::node_ids *)
Definition vc_node_ids (self : VectorClock) : list string := (map_iter (clocks self)).*1.

(** [src/did/src/ajna/vector_clock.rs:99-102] VectorClock::total_events *)
Definition vc_total_events (self : VectorClock) : N :=
  foldl add64 0%N (map_iter (clocks self)).*2.

(** ** The specification: the pointwise order on readings *)
Definition vc_leq (a b : VectorClock) : Prop := ∀ n, (vc_get a n ≤ vc_get b n)%N.
Definition vc_lt (a b : VectorClock) : Prop :=
  vc_leq a b ∧ ∃ n, (vc_get a n < vc_get b n)%N.

(** No entry is stored with the counter 0. *)
Definition vc_no_zero (a : VectorClock) : Prop := ∀ n t, clocks a !! n = Some t → (0 < t)%N.

#[export] Instance vc_leq_preorder : PreOrder vc_leq.
Proof.
  split.
  - by intros a n.
  - intros a b c Hab Hbc n. etrans; [apply Hab|apply Hbc].
Qed.

Lemma vc_get_lookup a n t : clocks a !! n = Some t → vc_get a n = t.
Proof. unfold vc_get. by intros ->. Qed.

Lemma vc_hb_self_spec other l sl :
  match vc_hb_self other l sl with
  | None => ∃ n t, (n, t) ∈ l ∧ (vc_get other n < t)%N
  | Some r => (∀ n t, (n, t) ∈ l → (t ≤ vc_get other n)%N) ∧
      (r = true ↔ sl = true ∨ ∃ n t, (n, t) ∈ l ∧ (t < vc_get other n)%N)
  end.
Proof.
  revert sl. induction l as [|[n t] l IH]; intros sl; cbn.
  { split; [intros ? ? []%elem_of_nil|]. split; [by left|].
    intros [?|(?&?&[]%elem_of_nil&?)]; done. }
  destruct (N.ltb_spec (vc_get other n) t) as [Hlt|Hge].
  { exists n, t. split; [left|done]. }
  specialize (IH (if (t <? vc_get other n)%N then true else sl)).
  destruct (vc_hb_self _ _ _) as [r|].
  - destruct IH as [Hall Hr]. split.
    + intros n' t' [[= -> ->]|Hin]%elem_of_cons; [done|by apply Hall].
    + rewrite Hr. destruct (N.ltb_spec t (vc_get other n)) as [Hlt'|Hge'].
      * split; [|by left]. intros _. right. exists n, t. split; [left|done].
      * split.
        -- intros [?|(n'&t'&?&?)]; [by left|]. right. exists n', t'. split; [by right|done].
        -- intros [?|(n'&t'&[[= -> ->]|?]%elem_of_cons&?)]; [by left|lia|].
           right. by exists n', t'.
  - destruct IH as (n'&t'&?&?). exists n', t'. split; [by right|done].
Qed.

Lemma vc_hb_other_spec self l sl :
  vc_hb_other self l sl = true ↔
    sl = true ∨ ∃ n t, (n, t) ∈ l ∧ clocks self !! n = None ∧ (0 < t)%N.
Proof.
  revert sl. induction l as [|[n t] l IH]; intros sl; cbn.
  { split; [by left|]. intros [?|(?&?&[]%elem_of_nil&?)]; done. }
  rewrite IH. split.
  - intros [Hc|(n'&t'&?&?)]; [|right; exists n', t'; split; [by right|done]].
    destruct (bool_decide_reflect (clocks self !! n = None)), (N.ltb_spec 0 t); cbn in Hc;
      [|by left..].
    right. exists n, t. split; [left|done].
  - intros [->|(n'&t'&[[= -> ->]|?]%elem_of_cons&Hn&Ht)].
    + left. by case_match.
    + left. rewrite bool_decide_true by done. by apply N.ltb_lt in Ht as ->.
    + right. by exists n', t'.
Qed.

Lemma vc_happens_before_spec a b : vc_happens_before a b = true ↔ vc_lt a b.
Proof.
  unfold vc_happens_before. pose proof (vc_hb_self_spec b (map_iter (clocks a)) false) as Hs.
  destruct (vc_hb_self _ _ _) as [r|].
  - destruct Hs as [Hall Hr]. rewrite vc_hb_other_spec, Hr.
    setoid_rewrite elem_of_map_iter. setoid_rewrite elem_of_map_iter in Hall.
    assert (vc_leq a b) as Hle.
    { intros n. unfold vc_get at 1. destruct (clocks a !! n) eqn:E; cbn; [by apply Hall|lia]. }
    split.
    + intros [[?|(n&t&Hn&Ht)]|(n&t&Hn&Ha&Ht)]; [done|..]; (split; [done|]); exists n.
      * by rewrite (vc_get_lookup _ _ _ Hn).
      * rewrite (vc_get_lookup b n t) by done. unfold vc_get. by rewrite Ha.
    + intros [_ [n Hn]]. unfold vc_get at 1 in Hn. destruct (clocks a !! n) as [t|] eqn:Ha; cbn in Hn.
      * left. right. by exists n, t.
      * right. unfold vc_get in Hn. destruct (clocks b !! n) as [t|] eqn:Hb; cbn in Hn; [|lia].
        by exists n, t.
  - destruct Hs as (n&t&Hn%elem_of_map_iter&Ht). split; [done|].
    intros [Hle _]. specialize (Hle n). rewrite (vc_get_lookup _ _ _ Hn) in Hle. lia.
Qed.

Lemma vc_merge_lookup a b n :
  clocks (vc_merge a b) !! n =
    match clocks b !! n with
    | Some t => Some (match clocks a !! n with Some t' => (t' `max` t)%N | None => t end)
    | None => clocks a !! n
    end.
Proof.
  unfold vc_merge; cbn [clocks].
  apply (foldl_map_iter _ (λ o t, Some (match o with Some t' => (t' `max` t)%N | None => t end))).
  intros acc k v j. cbn [fst snd]. destruct (decide (j = k)) as [->|Hne].
  - destruct (acc !! k); by rewrite lookup_insert_eq.
  - destruct (acc !! k); by rewrite lookup_insert_ne.
Qed.

Lemma vc_merge_get a b n : vc_get (vc_merge a b) n = (vc_get a n `max` vc_get b n)%N.
Proof. unfold vc_get. rewrite vc_merge_lookup. destruct (clocks a !! n), (clocks b !! n); cbn; lia. Qed.

Lemma vc_ext a b : (∀ n, clocks a !! n = clocks b !! n) → a = b.
Proof. destruct a, b. cbn. intros Heq. f_equal. by apply map_eq. Qed.

#[export] Instance vc_crdt : StateCrdt VectorClock.
Proof.
  refine {| crdt_new := vc_new; crdt_merge := vc_merge;
            crdt_ok := λ _, True; crdt_compat := λ _ _, True |}; [done..| | | |].
  all: intros; apply vc_ext; intros n; rewrite !vc_merge_lookup.
  - unfold vc_new; cbn. rewrite lookup_empty. by destruct (clocks b !! n).
  - destruct (clocks a !! n); [|done]. f_equal. lia.
  - destruct (clocks a !! n), (clocks b !! n); try done. f_equal. lia.
  - destruct (clocks a !! n), (clocks b !! n), (clocks c !! n); try done. f_equal. lia.
Defined.

Lemma vc_merge_comm a b : vc_merge a b = vc_merge b a.
Proof. exact (crdt_merge_comm a b I I I). Qed.

Lemma vc_merge_assoc a b c : vc_merge a (vc_merge b c) = vc_merge (vc_merge a b) c.
Proof. exact (crdt_merge_assoc a b c I I I). Qed.

Lemma vc_merge_idem a : vc_merge a a = a.
Proof. exact (crdt_merge_idem a I). Qed.

Lemma vc_increment_get a n m :
  vc_get (vc_increment a n) m = if decide (m = n) then add64 (vc_get a n) 1 else vc_get a m.
Proof.
  unfold vc_get, vc_increment; cbn. destruct (decide (m = n)) as [->|].
  - by rewrite lookup_insert_eq.
  - by rewrite lookup_insert_ne.
Qed.

Lemma vc_increment_lt a n :
  (vc_get a n < u64_modulus - 1)%N → vc_lt a (vc_increment a n).
Proof.
  intros Hb. assert (add64 (vc_get a n) 1 = vc_get a n + 1)%N as Hadd.
  { unfold add64, wrap64. rewrite N.mod_small; [done|]. unfold u64_modulus in *. lia. }
  split.
  - intros m. rewrite vc_increment_get. case_decide; [|done]. subst. lia.
  - exists n. rewrite vc_increment_get, decide_True, Hadd by done. lia.
Qed.

Lemma vc_no_zero_increment a n :
  (vc_get a n < u64_modulus - 1)%N → vc_no_zero a → vc_no_zero (vc_increment a n).
Proof.
  intros Hb Ha m t Hm. apply vc_get_lookup in Hm as Hg. rewrite <- Hg, vc_increment_get.
  case_decide as Hmn.
  - unfold add64, wrap64. rewrite N.mod_small; [lia|]. unfold u64_modulus in *. lia.
  - apply Ha with m. unfold vc_increment in Hm; cbn in Hm. rewrite lookup_insert_ne in Hm by done.
    by rewrite Hm, (vc_get_lookup a m t).
Qed.

Lemma vc_no_zero_merge a b : vc_no_zero a → vc_no_zero b → vc_no_zero (vc_merge a b).
Proof.
  intros Ha Hb n t. rewrite vc_merge_lookup.
  destruct (clocks b !! n) as [tb|] eqn:Eb; [|apply Ha].
  intros [= <-]. apply Hb in Eb. destruct (clocks a !! n) as [ta|]; lia.
Qed.

Lemma vc_no_zero_new : vc_no_zero vc_new.
Proof. intros n t Hn. cbn in Hn. by rewrite lookup_empty in Hn. Qed.

Lemma vc_leq_antisym a b : vc_no_zero a → vc_no_zero b → vc_leq a b → vc_leq b a → a = b.
Proof.
  intros Ha Hb Hab Hba. apply vc_ext. intros n. specialize (Hab n). specialize (Hba n).
  unfold vc_get in *. destruct (clocks a !! n) as [x|] eqn:Ea, (clocks b !! n) as [y|] eqn:Eb; cbn in *.
  - f_equal. lia.
  - apply Ha in Ea. lia.
  - apply Hb in Eb. lia.
  - done.
Qed.
End with_order.

Section properties.
Context `{HashOrder}.

(** [compare] classifies two clocks that store no zero counter exactly as the
    pointwise order on their readings does: equal, strictly before, strictly after,
    or incomparable; in particular the four answers are exclusive. *)
Theorem vc_compare_classifies (a b : VectorClock) :
  vc_no_zero a → vc_no_zero b →
  match vc_compare a b with
  | Equal => ∀ n, vc_get a n = vc_get b n
  | Before => vc_lt a b ∧ ¬ vc_leq b a
  | After => vc_lt b a ∧ ¬ vc_leq a b
  | Concurrent => ¬ vc_leq a b ∧ ¬ vc_leq b a
  end.
Proof.
  intros Ha Hb. unfold vc_compare.
  assert (∀ x y, vc_lt x y → ¬ vc_leq y x) as Hstrict.
  { intros x y [_ [n Hn]] Hyx. specialize (Hyx n). lia. }
  assert (∀ x y, vc_leq x y → x ≠ y → vc_no_zero x → vc_no_zero y → vc_lt x y) as Hlt.
  { intros x y Hxy Hne Hx Hy. apply vc_happens_before_spec.
    destruct (vc_happens_before x y) eqn:E; [done|]. destruct Hne.
    apply vc_leq_antisym; [done..|]. intros n.
    destruct (N.le_gt_cases (vc_get y n) (vc_get x n)) as [|Hlt]; [done|].
    assert (vc_happens_before x y = true); [|congruence].
    apply vc_happens_before_spec. split; [done|by exists n]. }
  case_decide as Heq; [by intros n; subst|].
  destruct (vc_happens_before a b) eqn:Hab.
  { apply vc_happens_before_spec in Hab. auto. }
  destruct (vc_happens_before b a) eqn:Hba.
  { apply vc_happens_before_spec in Hba. auto. }
  split; intros Hle; [apply not_true_iff_false in Hab; apply Hab|apply not_true_iff_false in Hba; apply Hba];
    apply vc_happens_before_spec; auto.
Qed.

(** [merge] of two vector clocks is their least upper bound in the pointwise
    order on readings, for every iteration order of the hash map. *)
Theorem vc_merge_is_lub (a b c : VectorClock) :
  vc_leq a (vc_merge a b) ∧ vc_leq b (vc_merge a b) ∧
  (vc_leq (vc_merge a b) c ↔ vc_leq a c ∧ vc_leq b c).
Proof.
  split; [intros n; rewrite vc_merge_get; lia|].
  split; [intros n; rewrite vc_merge_get; lia|]. split.
  - intros Hle. split; intros n; specialize (Hle n); rewrite vc_merge_get in Hle; lia.
  - intros [Ha Hb] n. specialize (Ha n). specialize (Hb n). rewrite vc_merge_get. lia.
Qed.
End properties.

Lemma vc_compare_classifies_witness :
  let a := vc_increment (vc_increment vc_new "n1") "n1" in
  let b := vc_increment vc_new "n2" in
  vc_no_zero a ∧ vc_no_zero b ∧ @vc_compare plain_order a b = Concurrent ∧
  ¬ vc_leq a b ∧ ¬ vc_leq b a.
Proof.
  intros a b.
  assert (vc_no_zero a) as Ha.
  { apply vc_no_zero_increment; [reflexivity|]. apply vc_no_zero_increment; [reflexivity|apply vc_no_zero_new]. }
  assert (vc_no_zero b) as Hb.
  { apply vc_no_zero_increment; [reflexivity|apply vc_no_zero_new]. }
  split; [exact Ha|]. split; [exact Hb|]. split; [reflexivity|].
  exact (@vc_compare_classifies plain_order a b Ha Hb).
Defined.

(** [src/did/src/ajna/lww_map.rs:13-27] LWWEntry *)
Record LWWEntry (V : Type) := mkLWWEntry {
  le_value : V;
  le_timestamp : Instant;
  le_node_id : string;
  le_is_tombstone : bool
}.
Arguments mkLWWEntry {V}.
Arguments le_value {V}.
Arguments le_timestamp {V}.
Arguments le_node_id {V}.
Arguments le_is_tombstone {V}.

#[export] Instance LWWEntry_eq_dec V `{EqDecision V} : EqDecision (LWWEntry V).
Proof. solve_decision. Defined.

(** [src/did/src/ajna/lww_map.rs:79-84] LWWMap *)
Record LWWMap (K V : Type) `{Countable K} := mkLWW { lww_map : gmap K (LWWEntry V) }.
Arguments mkLWW {K V _ _}.
Arguments lww_map {K V _ _}.

Section entry.
Context {V : Type}.

(** [src/did/src/ajna/lww_map.rs:40-48] LWWEntry::with_timestamp *)
Definition lwe_with_timestamp (value : V) (timestamp : Instant) (node_id : string) : LWWEntry V :=
  mkLWWEntry value timestamp node_id false.

(** [src/did/src/ajna/lww_map.rs:30-38] LWWEntry::new *)
Definition lwe_new (value : V) (node_id : string) (w : World) : LWWEntry V * World :=
  let '(now, w) := utc_now w in (mkLWWEntry value now node_id false, w).

(** [src/did/src/ajna/lww_map.rs:50-61] LWWEntry::tombstone *)
Definition lwe_tombstone `{Inhabited V} (timestamp : Instant) (node_id : string) : LWWEntry V :=
  mkLWWEntry inhabitant timestamp node_id true.

(** [src/did/src/ajna/lww_map.rs:63-76] LWWEntry::wins_over *)
Definition lwe_wins_over (self other : LWWEntry V) : bool :=
  match Z.compare (le_timestamp self) (le_timestamp other) with
  | Gt => true
  | Lt => false
  | Eq => str_lt (le_node_id other) (le_node_id self)
  end.

(** Two entries carry the same stamp. *)
Definition lwe_same_stamp (x y : LWWEntry V) : Prop :=
  le_timestamp x = le_timestamp y ∧ le_node_id x = le_node_id y.

Lemma lwe_wins_over_irrefl x : lwe_wins_over x x = false.
Proof. unfold lwe_wins_over. rewrite Z.compare_refl. apply str_lt_irrefl. Qed.

Lemma lwe_wins_over_trans x y z :
  lwe_wins_over x y = true → lwe_wins_over y z = true → lwe_wins_over x z = true.
Proof.
  unfold lwe_wins_over.
  destruct (Z.compare_spec (le_timestamp x) (le_timestamp y)),
    (Z.compare_spec (le_timestamp y) (le_timestamp z)),
    (Z.compare_spec (le_timestamp x) (le_timestamp z)); try done; try lia.
  intros. by eapply str_lt_trans.
Qed.

Lemma lwe_wins_over_total x y :
  lwe_same_stamp x y ∨ lwe_wins_over x y = true ∨ lwe_wins_over y x = true.
Proof.
  unfold lwe_wins_over, lwe_same_stamp. rewrite (Z.compare_antisym (le_timestamp x)).
  destruct (Z.compare_spec (le_timestamp x) (le_timestamp y)); cbn; [|by auto..].
  destruct (str_lt_total (le_node_id x) (le_node_id y)) as [?|[?|?]]; auto.
Qed.

Lemma lwe_wins_over_stamp x y : lwe_same_stamp x y → lwe_wins_over x y = false.
Proof. unfold lwe_wins_over. intros [-> ->]. by rewrite Z.compare_refl, str_lt_irrefl. Qed.

Lemma lwe_wins_over_stamp_l x y z : lwe_same_stamp x y → lwe_wins_over x z = lwe_wins_over y z.
Proof. unfold lwe_wins_over. by intros [-> ->]. Qed.

Lemma lwe_wins_over_stamp_r x y z : lwe_same_stamp x y → lwe_wins_over z x = lwe_wins_over z y.
Proof. unfold lwe_wins_over. by intros [-> ->]. Qed.

Lemma lwe_wins_over_asym x y : lwe_wins_over x y = true → lwe_wins_over y x = false.
Proof.
  intros Hxy. destruct (lwe_wins_over y x) eqn:Hyx; [|done].
  pose proof (lwe_wins_over_trans _ _ _ Hxy Hyx). by rewrite lwe_wins_over_irrefl in *.
Qed.

(** The winner of an entry already stored (if any) and a new one. *)
Definition lwe_pick (old : option (LWWEntry V)) (e : LWWEntry V) : LWWEntry V :=
  match old with Some x => if lwe_wins_over e x then e else x | None => e end.

Lemma lwe_pick_assoc a x y : lwe_pick a (lwe_pick (Some x) y) = lwe_pick (Some (lwe_pick a x)) y.
Proof.
  destruct a as [a|]; [|done]. cbn.
  destruct (lwe_wins_over y x) eqn:Hyx, (lwe_wins_over x a) eqn:Hxa; cbn; rewrite ?Hyx, ?Hxa; try done.
  - by rewrite (lwe_wins_over_trans _ _ _ Hyx Hxa).
  - destruct (lwe_wins_over y a) eqn:Hya; [|done].
    destruct (lwe_wins_over_total a x) as [Hs|[Hax|?]]; [| |congruence].
    + rewrite (lwe_wins_over_stamp_r _ _ y Hs) in Hya. congruence.
    + by rewrite (lwe_wins_over_trans _ _ _ Hya Hax) in Hyx.
Qed.

Lemma lwe_pick_comm x y :
  (lwe_same_stamp x y → x = y) → lwe_pick (Some x) y = lwe_pick (Some y) x.
Proof.
  intros Hst. cbn. destruct (lwe_wins_over_total x y) as [Hs|[Hxy|Hyx]].
  - by rewrite (Hst Hs).
  - by rewrite Hxy, (lwe_wins_over_asym _ _ Hxy).
  - by rewrite Hyx, (lwe_wins_over_asym _ _ Hyx).
Qed.
End entry.

Section map.
Context {K V : Type} `{Countable K}.
Implicit Types (m : LWWMap K V) (e : LWWEntry V).

(** [src/did/src/ajna/lww_map.rs:87-92] LWWMap::new *)
Definition lww_new : LWWMap K V := mkLWW ∅.

(** [src/did/src/ajna/lww_map.rs:112-122] LWWMap::set_entry *)
Definition lww_set_entry m (key : K) e : LWWMap K V :=
  match lww_map m !! key with
  | Some existing =>
      if lwe_wins_over e existing then mkLWW (<[key := e]> (lww_map m)) else m
  | None => mkLWW (<[key := e]> (lww_map m))
  end.

(** [src/did/src/ajna/lww_map.rs:94-98] LWWMap::set *)
Definition lww_set m (key : K) (value : V) (node_id : string) (w : World) : LWWMap K V * World :=
  let '(entry, w) := lwe_new value node_id w in (lww_set_entry m key entry, w).

(** [src/did/src/ajna/lww_map.rs:100-110] LWWMap::set_with_timestamp *)
Definition lww_set_with_timestamp m (key : K) (value : V) (timestamp : Instant)
    (node_id : string) : LWWMap K V :=
  lww_set_entry m key (lwe_with_timestamp value timestamp node_id).

(** [src/did/src/ajna/lww_map.rs:124-131] LWWMap::remove *)
Definition lww_remove `{Inhabited V} m (key : K) (node_id : string) (w : World) : LWWMap K V * World :=
  let '(now, w) := utc_now w in (lww_set_entry m key (lwe_tombstone now node_id), w).

(** [src/did/src/ajna/lww_map.rs:133-140] LWWMap::remove_with_timestamp *)
Definition lww_remove_with_timestamp `{Inhabited V} m (key : K) (timestamp : Instant)
    (node_id : string) : LWWMap K V :=
  lww_set_entry m key (lwe_tombstone timestamp node_id).

(** [src/did/src/ajna/lww_map.rs:142-151] LWWMap::get *)
Definition lww_get m (key : K) : option V :=
  entry ← lww_map m !! key; if le_is_tombstone entry then None else Some (le_value entry).

(** [src/did/src/ajna/lww_map.rs:153-158] LWWMap::contains_key *)
Definition lww_contains_key m (key : K) : bool :=
  match lww_map m !! key with Some entry => negb (le_is_tombstone entry) | None => false end.

(** [src/did/src/ajna/lww_map.rs:214-217] LWWMap::get_entry *)
Definition lww_get_entry m (key : K) : option (LWWEntry V) := lww_map m !! key.

(** [src/did/src/ajna/lww_map.rs:209-212] LWWMap::clear *)
Definition lww_clear m : LWWMap K V := mkLWW ∅.

Context `{HashOrder}.

(** [src/did/src/ajna/lww_map.rs:178-185] LWWMap::entries *)
Definition lww_entries m : list (K * V) :=
  (λ kv, (kv.1, le_value kv.2)) <$>
    filter (λ kv : K * LWWEntry V, le_is_tombstone kv.2 = false) (map_iter (lww_map m)).

(** [src/did/src/ajna/lww_map.rs:160-167] LWWMap::keys *)
Definition lww_keys m : list K :=
  fst <$> filter (λ kv : K * LWWEntry V, le_is_tombstone kv.2 = false) (map_iter (lww_map m)).

(** [src/did/src/ajna/lww_map.rs:169-176] LWWMap::values *)
Definition lww_values m : list V :=
  (λ kv, le_value kv.2) <$>
    filter (λ kv : K * LWWEntry V, le_is_tombstone kv.2 = false) (map_iter (lww_map m)).

(** [src/did/src/ajna/lww_map.rs:187-193] LWWMap::len *)
Definition lww_len m : nat :=
  length (filter (λ kv : K * LWWEntry V, le_is_tombstone kv.2 = false) (map_iter (lww_map m))).

(** [src/did/src/ajna/lww_map.rs:195-198] LWWMap::is_empty *)
Definition lww_is_empty m : bool := (lww_len m =? 0)%nat.

(** [src/did/src/ajna/lww_map.rs:200-207] LWWMap::merge *)
Definition lww_merge m (other : LWWMap K V) : LWWMap K V :=
  foldl (λ acc kv, lww_set_entry acc kv.1 kv.2) m (map_iter (lww_map other)).

(** Two maps never hold different writes with the same stamp at a key. *)
Definition lww_compat (a b : LWWMap K V) : Prop :=
  ∀ k x y, lww_map a !! k = Some x → lww_map b !! k = Some y → lwe_same_stamp x y → x = y.

Lemma lww_ext (a b : LWWMap K V) : (∀ k, lww_map a !! k = lww_map b !! k) → a = b.
Proof. destruct a, b. cbn. intros Heq. f_equal. by apply map_eq. Qed.

Lemma lww_set_entry_lookup m k e j :
  lww_map (lww_set_entry m k e) !! j =
    if decide (j = k) then Some (lwe_pick (lww_map m !! j) e) else lww_map m !! j.
Proof.
  unfold lww_set_entry. destruct (decide (j = k)) as [->|Hne].
  - destruct (lww_map m !! k) as [x|] eqn:E; cbn; [|by rewrite lookup_insert_eq].
    destruct (lwe_wins_over e x); cbn; [by rewrite lookup_insert_eq|by rewrite E].
  - destruct (lww_map m !! k) as [x|]; [destruct (lwe_wins_over e x)|]; cbn;
      by rewrite ?lookup_insert_ne.
Qed.

Lemma lww_set_entry_comm m k (x y : LWWEntry V) :
  (lwe_same_stamp x y → x = y) →
  lww_set_entry (lww_set_entry m k x) k y = lww_set_entry (lww_set_entry m k y) k x.
Proof.
  intros Hst. apply lww_ext. intros j. rewrite !lww_set_entry_lookup.
  case_decide as Hj; [|done]. f_equal.
  by rewrite <- !lwe_pick_assoc, lwe_pick_comm.
Qed.

Lemma lww_merge_lookup (a b : LWWMap K V) j :
  lww_map (lww_merge a b) !! j =
    match lww_map b !! j with
    | Some e => Some (lwe_pick (lww_map a !! j) e)
    | None => lww_map a !! j
    end.
Proof.
  unfold lww_merge.
  transitivity (foldl (λ acc kv, lww_map (lww_set_entry (mkLWW acc) kv.1 kv.2)) (lww_map a)
                  (map_iter (lww_map b)) !! j).
  - f_equal. generalize (map_iter (lww_map b)). intros l. revert a.
    induction l as [|kv l IH]; intros a; [done|]. cbn [foldl]. rewrite IH. do 2 f_equal. by destruct a.
  - apply (foldl_map_iter _ (λ o e, Some (lwe_pick o e))).
    intros acc k v j'. by rewrite lww_set_entry_lookup.
Qed.

#[export] Instance lww_crdt : StateCrdt (LWWMap K V).
Proof.
  refine {| crdt_new := lww_new; crdt_merge := lww_merge;
            crdt_ok := λ _, True; crdt_compat := lww_compat |}; [done..| | | |].
  all: intros; apply lww_ext; intros k; rewrite !lww_merge_lookup.
  - unfold lww_new; cbn. rewrite lookup_empty. by destruct (lww_map b !! k).
  - destruct (lww_map a !! k); [|done]. cbn. by rewrite lwe_wins_over_irrefl.
  - match goal with Hc : lww_compat _ _ |- _ => specialize (Hc k) end.
    destruct (lww_map a !! k) as [x|], (lww_map b !! k) as [y|]; try done.
    f_equal. apply lwe_pick_comm. eauto.
  - destruct (lww_map a !! k), (lww_map b !! k), (lww_map c !! k); try done; f_equal.
    + by rewrite lwe_pick_assoc.
Defined.

Lemma lww_opt_ok (a : option (LWWMap K V)) : opt_ok a.
Proof. by destruct a. Qed.

(** ** Replaying writes *)

(** The map after a sequence of writes [(key, entry)]. *)
Definition lww_replay m (ws : list (K * LWWEntry V)) : LWWMap K V :=
  foldl (λ acc kv, lww_set_entry acc kv.1 kv.2) m ws.

(** No two different writes of the sequence carry the same stamp at a key. *)
Definition lww_unique_stamps (ws : list (K * LWWEntry V)) : Prop :=
  ∀ k x y, (k, x) ∈ ws → (k, y) ∈ ws → lwe_same_stamp x y → x = y.

Lemma lww_replay_lookup (ws : list (K * LWWEntry V)) k :
  match lww_map (lww_replay lww_new ws) !! k with
  | Some e => (k, e) ∈ ws ∧ ∀ x, (k, x) ∈ ws → lwe_wins_over x e = false
  | None => ∀ x, (k, x) ∉ ws
  end.
Proof.
  unfold lww_replay. induction ws as [|[j x] ws IH] using rev_ind.
  { cbn. rewrite lookup_empty. intros x. apply not_elem_of_nil. }
  rewrite foldl_app. cbn [foldl fst snd]. rewrite lww_set_entry_lookup.
  assert (∀ P : LWWEntry V → Prop, (∀ y, (k, y) ∈ ws → P y) → (k = j → P x) →
    ∀ y, (k, y) ∈ ws ++ [(j, x)] → P y) as Hall.
  { intros P Hws Hx y [Hy|[= -> ->]%list_elem_of_singleton]%elem_of_app; auto. }
  destruct (decide (k = j)) as [->|Hne].
  - destruct (lww_map _ !! j) as [e|]; cbn.
    + destruct IH as [Hin Hmax]. destruct (lwe_wins_over x e) eqn:Hw.
      * split; [apply elem_of_app; right; by apply list_elem_of_singleton|].
        apply Hall; [|intros _; apply lwe_wins_over_irrefl]. intros y Hy.
        destruct (lwe_wins_over y x) eqn:Hyx; [|done].
        by rewrite <- (Hmax y Hy), (lwe_wins_over_trans _ _ _ Hyx Hw).
      * split; [apply elem_of_app; by left|]. by apply Hall.
    + split; [apply elem_of_app; right; by apply list_elem_of_singleton|].
      apply Hall; [|intros _; apply lwe_wins_over_irrefl]. intros y Hy. by destruct (IH y).
  - destruct (lww_map _ !! k) as [e|].
    + destruct IH as [Hin Hmax]. split; [apply elem_of_app; by left|]. by apply Hall.
    + intros y Hy. refine (Hall (λ _, False) _ _ y Hy); [|done]. intros z Hz. by destruct (IH z).
Qed.
End map.
#[export] Hint Resolve lwe_wins_over_irrefl lww_opt_ok : idiom.

Section properties.
Context {K V : Type} `{Countable K}.

(** Writes to an LWW-Map converge: two replicas that receive the same writes
    in any two orders end in the same map, provided no two different writes to a
    key share timestamp and node; and at every key the map holds a write that no
    other write to that key beats. *)
Theorem lww_replay_converges (ws1 ws2 : list (K * LWWEntry V)) :
  ws1 ≡ₚ ws2 → lww_unique_stamps ws1 →
  lww_replay lww_new ws1 = lww_replay lww_new ws2 ∧
  ∀ k e, lww_get_entry (lww_replay lww_new ws1) k = Some e →
    (k, e) ∈ ws1 ∧ ∀ x, (k, x) ∈ ws1 → x ≠ e → lwe_wins_over e x = true.
Proof.
  intros Hp Hu. split.
  - apply lww_ext. intros k.
    pose proof (lww_replay_lookup ws1 k) as H1. pose proof (lww_replay_lookup ws2 k) as H2.
    assert (∀ x, (k, x) ∈ ws2 ↔ (k, x) ∈ ws1) as Hin by (intros x; by rewrite Hp).
    destruct (lww_map (lww_replay lww_new ws1) !! k) as [x|],
      (lww_map (lww_replay lww_new ws2) !! k) as [y|]; [| | |done].
    + destruct H1 as [Hx Hmx], H2 as [Hy Hmy]. f_equal. apply Hin in Hy.
      destruct (lwe_wins_over_total x y) as [Hs|[Hw|Hw]]; [by eapply Hu| |].
      * by rewrite (Hmy x (proj2 (Hin x) Hx)) in Hw.
      * by rewrite (Hmx y Hy) in Hw.
    + destruct H1 as [Hx _]. by destruct (H2 x (proj2 (Hin x) Hx)).
    + destruct H2 as [Hy _]. by destruct (H1 y (proj1 (Hin y) Hy)).
  - unfold lww_get_entry. intros k e He. pose proof (lww_replay_lookup ws1 k) as H1.
    rewrite He in H1. destruct H1 as [Hin Hmax]. split; [done|]. intros x Hx Hne.
    destruct (lwe_wins_over_total e x) as [Hs|[?|Hw]]; [|done|by rewrite (Hmax x Hx) in Hw].
    destruct Hne. symmetry. by eapply Hu.
Qed.
End properties.

Lemma lww_replay_converges_witness :
  let w1 := lwe_with_timestamp 10%Z 5%Z "node_a" in
  let w2 := lwe_with_timestamp 20%Z 5%Z "node_b" in
  let ws1 := [("k", w1); ("k", w2)] in
  let ws2 := [("k", w2); ("k", w1)] in
  lww_get (lww_replay lww_new ws2) "k" = Some 20%Z ∧
  lww_replay lww_new ws1 = lww_replay lww_new ws2.
Proof.
  intros w1 w2 ws1 ws2. split; [reflexivity|].
  apply lww_replay_converges.
  - apply Permutation_swap.
  - intros k x y Hx Hy Hs. apply elem_of_cons in Hx as [Hx|Hx%list_elem_of_singleton];
      apply elem_of_cons in Hy as [Hy|Hy%list_elem_of_singleton]; simplify_eq; try reflexivity;
      destruct Hs as [_ Hs]; discriminate Hs.
Defined.

(** [src/did/src/ajna/or_set.rs:13-22] ORSet *)
Record ORSet (T : Type) `{Countable T} := mkORSet {
  os_elements : gmap T (gset Uuid);
  os_tombstones : gset (T * Uuid)
}.
Arguments mkORSet {T _ _}.
Arguments os_elements {T _ _}.
Arguments os_tombstones {T _ _}.

Section or_set.
Context {T : Type} `{Countable T}.
Implicit Types (s : ORSet T) (e : T) (u : Uuid).

#[export] Instance ORSet_eq_dec : EqDecision (ORSet T).
Proof. solve_decision. Defined.

(** [src/did/src/ajna/or_set.rs:25-31] ORSet::new *)
Definition orset_new : ORSet T := mkORSet ∅ ∅.

(** [src/did/src/ajna/or_set.rs:33-40] ORSet::add *)
Definition orset_add s (element : T) (w : World) : Uuid * ORSet T * World :=
  let '(uuid, w) := uuid_new_v4 w in
  (uuid,
   mkORSet (<[element := {[uuid]} ∪ default ∅ (os_elements s !! element)]> (os_elements s))
     (os_tombstones s), w).

(** [src/did/src/ajna/or_set.rs:55-67] ORSet::remove_instance *)
Definition orset_remove_instance s (element : T) (uuid : Uuid) : ORSet T :=
  match os_elements s !! element with
  | Some uuids =>
      if decide (uuid ∈ uuids) then
        let uuids' := uuids ∖ {[uuid]} in
        mkORSet
          (if decide (uuids' = ∅) then delete element (os_elements s)
           else <[element := uuids']> (os_elements s))
          ({[(element, uuid)]} ∪ os_tombstones s)
      else s
  | None => s
  end.

(** [src/did/src/ajna/or_set.rs:69-72] ORSet::contains *)
Definition orset_contains s (element : T) : bool := bool_decide (is_Some (os_elements s !! element)).

(** [src/did/src/ajna/or_set.rs:79-82] ORSet::len *)
Definition orset_len s : nat := size (os_elements s).

(** [src/did/src/ajna/or_set.rs:84-87] ORSet::is_empty *)
Definition orset_is_empty s : bool := (orset_len s =? 0)%nat.

(** [src/did/src/ajna/or_set.rs:111-117] ORSet::apply_tombstones *)
Definition orset_apply_tombstones s : ORSet T :=
  mkORSet
    (map_imap (λ elem uuids,
       let kept := filter (λ uuid, (elem, uuid) ∉ os_tombstones s) uuids in
       if decide (kept = ∅) then None else Some kept) (os_elements s))
    (os_tombstones s).

(** [src/did/src/ajna/or_set.rs:119-123] ORSet::clear *)
Definition orset_clear s : ORSet T := mkORSet ∅ ∅.

(** [src/did/src/ajna/or_set.rs:125-128] ORSet::get_uuids *)
Definition orset_get_uuids s (element : T) : option (gset Uuid) := os_elements s !! element.

Context `{HashOrder}.

(** [src/did/src/ajna/or_set.rs:42-53] ORSet::remove *)
Definition orset_remove s (element : T) : ORSet T :=
  match os_elements s !! element with
  | Some uuids =>
      mkORSet (delete element (os_elements s))
        (foldl (λ tombs uuid, {[(element, uuid)]} ∪ tombs) (os_tombstones s) (set_iter uuids))
  | None => s
  end.

(** [src/did/src/ajna/or_set.rs:74-77] ORSet::elements *)
Definition orset_elements s : list T := (map_iter (os_elements s)).*1.

(** [src/did/src/ajna/or_set.rs:89-109] ORSet::merge *)
Definition orset_merge s (other : ORSet T) : ORSet T :=
  let elements := foldl (λ acc kv, <[kv.1 := default ∅ (acc !! kv.1) ∪ kv.2]> acc)
    (os_elements s) (map_iter (os_elements other)) in
  orset_apply_tombstones (mkORSet elements (os_tombstones s ∪ os_tombstones other)).

(** ** Specification *)

(** The instance of [e] added under [u] is in the set. *)
Definition orset_live s e u : Prop := u ∈ default ∅ (os_elements s !! e).

(** No element is kept without an instance, and no live instance is tombstoned. *)
Definition orset_ok s : Prop :=
  (∀ e, os_elements s !! e ≠ Some ∅) ∧ (∀ e u, orset_live s e u → (e, u) ∉ os_tombstones s).

Lemma orset_contains_live s e :
  orset_ok s → orset_contains s e = true ↔ ∃ u, orset_live s e u.
Proof.
  intros [Hne _]. unfold orset_contains, orset_live. rewrite bool_decide_eq_true. split.
  - intros [us Hus]. rewrite Hus. cbn. destruct (set_choose_or_empty us) as [[u Hu]|He]; [by exists u|].
    apply leibniz_equiv in He. subst. by destruct (Hne e).
  - intros [u Hu]. destruct (os_elements s !! e); [done|]. by apply not_elem_of_empty in Hu.
Qed.

Lemma orset_ext (a b : ORSet T) :
  orset_ok a → orset_ok b →
  (∀ e u, orset_live a e u ↔ orset_live b e u) → os_tombstones a = os_tombstones b → a = b.
Proof.
  destruct a as [ea ta], b as [eb tb]. unfold orset_ok, orset_live; cbn.
  intros [Ha _] [Hb _] Hl ->. f_equal. apply map_eq. intros e.
  specialize (Hl e). specialize (Ha e). specialize (Hb e).
  destruct (ea !! e) as [x|], (eb !! e) as [y|]; cbn in *; [| | |done].
  - f_equal. by apply set_eq.
  - destruct Ha. f_equal. apply set_eq. set_solver.
  - destruct Hb. f_equal. apply set_eq. set_solver.
Qed.

Lemma orset_new_ok : orset_ok orset_new.
Proof. split; unfold orset_live; cbn; intros e; rewrite lookup_empty; set_solver. Qed.

Lemma orset_new_live e u : ¬ orset_live orset_new e u.
Proof. unfold orset_live; cbn. rewrite lookup_empty. set_solver. Qed.

Lemma orset_apply_tombstones_live s e u :
  orset_live (orset_apply_tombstones s) e u ↔ orset_live s e u ∧ (e, u) ∉ os_tombstones s.
Proof.
  unfold orset_live, orset_apply_tombstones; cbn. rewrite map_lookup_imap.
  destruct (os_elements s !! e) as [us|]; cbn; [|set_solver].
  rewrite <- (comm and ((e, u) ∉ _)), <- (elem_of_filter (λ uuid, (e, uuid) ∉ os_tombstones s)).
  case_decide as He; cbn; [by rewrite He|done].
Qed.

Lemma orset_apply_tombstones_ok s : orset_ok (orset_apply_tombstones s).
Proof.
  split.
  - intros e. unfold orset_apply_tombstones; cbn. rewrite map_lookup_imap.
    destruct (os_elements s !! e); cbn; [|done]. case_decide; congruence.
  - intros e u Hl. by apply orset_apply_tombstones_live in Hl as [_ ?].
Qed.

Lemma orset_merge_elements (a b : ORSet T) (m : gmap T (gset Uuid)) e u :
  u ∈ default ∅ (foldl (λ acc kv, <[kv.1 := default ∅ (acc !! kv.1) ∪ kv.2]> acc)
     (os_elements a) (map_iter (os_elements b)) !! e) ↔ orset_live a e u ∨ orset_live b e u.
Proof.
  rewrite (foldl_map_iter _ (λ o us, Some (default ∅ o ∪ us))).
  - unfold orset_live. destruct (os_elements b !! e) as [us|]; cbn; set_solver.
  - intros acc k v j. cbn [fst snd]. rewrite lookup_insert. repeat case_decide; congruence.
Qed.

Lemma orset_merge_live (a b : ORSet T) e u :
  orset_live (orset_merge a b) e u ↔
    (orset_live a e u ∨ orset_live b e u) ∧ (e, u) ∉ os_tombstones a ∪ os_tombstones b.
Proof.
  unfold orset_merge. rewrite orset_apply_tombstones_live. unfold orset_live at 1; cbn.
  by rewrite orset_merge_elements by exact ∅.
Qed.

Lemma orset_merge_ok (a b : ORSet T) : orset_ok (orset_merge a b).
Proof. apply orset_apply_tombstones_ok. Qed.

Lemma orset_merge_tombstones (a b : ORSet T) :
  os_tombstones (orset_merge a b) = os_tombstones a ∪ os_tombstones b.
Proof. done. Qed.

#[export] Instance orset_crdt : StateCrdt (ORSet T).
Proof.
  refine {| crdt_new := orset_new; crdt_merge := orset_merge;
            crdt_ok := orset_ok; crdt_compat := λ _ _, True |}.
  - apply orset_new_ok.
  - intros a b _ _. apply orset_merge_ok.
  - intros b Hb. apply orset_ext; [apply orset_merge_ok|done| |rewrite orset_merge_tombstones; cbn; set_solver].
    intros e u. rewrite orset_merge_live. destruct Hb as [_ Hb]. specialize (Hb e u).
    pose proof (orset_new_live e u). cbn. set_solver.
  - intros a Ha. apply orset_ext; [apply orset_merge_ok|done| |rewrite orset_merge_tombstones; set_solver].
    intros e u. rewrite orset_merge_live. destruct Ha as [_ Ha]. specialize (Ha e u). set_solver.
  - intros a b _ _ _. apply orset_ext; [apply orset_merge_ok..| |rewrite !orset_merge_tombstones; set_solver].
    intros e u. rewrite !orset_merge_live. set_solver.
  - intros a b c Ha Hb Hc.
    apply orset_ext; [apply orset_merge_ok..| |rewrite !orset_merge_tombstones; set_solver].
    intros e u. rewrite !orset_merge_live, !orset_merge_tombstones. set_solver.
Defined.

Lemma orset_opt_compat (a b : option (ORSet T)) : opt_compat a b.
Proof. by destruct a, b. Qed.

Lemma orset_merge_comm (a b : ORSet T) : orset_ok a → orset_ok b → orset_merge a b = orset_merge b a.
Proof. intros Ha Hb. exact (crdt_merge_comm a b Ha Hb I). Qed.

Lemma orset_merge_idem (a : ORSet T) : orset_ok a → orset_merge a a = a.
Proof. intros Ha. exact (crdt_merge_idem a Ha). Qed.

Lemma orset_merge_assoc (a b c : ORSet T) : orset_ok a → orset_ok b → orset_ok c →
  orset_merge a (orset_merge b c) = orset_merge (orset_merge a b) c.
Proof. intros Ha Hb Hc. exact (crdt_merge_assoc a b c Ha Hb Hc). Qed.

(** ** The local operations on the live instances *)

Lemma orset_add_spec s e w :
  let '(uuid, s', w') := orset_add s e w in
  uuid = w_uuid w (w_un w) ∧ os_tombstones s' = os_tombstones s ∧
  (∀ e' u, orset_live s' e' u ↔ orset_live s e' u ∨ (e' = e ∧ u = uuid)) ∧
  (orset_ok s → (e, uuid) ∉ os_tombstones s → orset_ok s').
Proof.
  unfold orset_add; cbn. set (uuid := w_uuid w (w_un w)).
  assert (∀ e' u, orset_live (mkORSet (<[e:={[uuid]} ∪ default ∅ (os_elements s !! e)]> (os_elements s))
            (os_tombstones s)) e' u ↔ orset_live s e' u ∨ (e' = e ∧ u = uuid)) as Hl.
  { intros e' u. unfold orset_live; cbn. rewrite lookup_insert. case_decide; cbn; set_solver. }
  split_and!; [done..|]. intros [Hne Hd] Hf. split.
  - intros e'. cbn. rewrite lookup_insert. case_decide; [|done]. intros [= Heq]. set_solver.
  - intros e' u. rewrite Hl. intros [?|[-> ->]]; [by apply Hd|done].
Qed.

Lemma orset_add_contains s e w e' :
  orset_contains (orset_add s e w).1.2 e' = orset_contains s e' || bool_decide (e' = e).
Proof.
  unfold orset_contains, orset_add; cbn. rewrite lookup_insert.
  destruct (decide (e = e')) as [->|Hne].
  - rewrite (bool_decide_true (e' = e')), orb_true_r by done. by apply bool_decide_true.
  - by rewrite (bool_decide_false (e' = e)), orb_false_r by congruence.
Qed.

Lemma orset_new_contains e : orset_contains orset_new e = false.
Proof. unfold orset_contains; cbn. rewrite lookup_empty. apply bool_decide_false. by intros []. Qed.

Lemma orset_remove_contains s e e' :
  orset_contains (orset_remove s e) e' = orset_contains s e' && negb (bool_decide (e' = e)).
Proof.
  unfold orset_contains, orset_remove. destruct (os_elements s !! e) as [us|] eqn:He; cbn.
  - rewrite lookup_delete. destruct (decide (e = e')) as [->|Hne].
    + rewrite (bool_decide_true (e' = e')), andb_false_r by done. apply bool_decide_false. by intros [].
    + by rewrite (bool_decide_false (e' = e)), andb_true_r by congruence.
  - destruct (decide (e' = e)) as [->|Hne].
    + rewrite He, (bool_decide_true (e = e)), andb_false_r by done. apply bool_decide_false. by intros [].
    + by rewrite (bool_decide_false (e' = e)), andb_true_r by congruence.
Qed.

Lemma orset_remove_live s e e' u : orset_live (orset_remove s e) e' u ↔ orset_live s e' u ∧ e' ≠ e.
Proof.
  unfold orset_remove. destruct (os_elements s !! e) as [us|] eqn:He.
  - unfold orset_live; cbn. rewrite lookup_delete. case_decide; cbn; set_solver.
  - split; [|by intros [? _]]. intros Hl. split; [done|]. intros ->. unfold orset_live in Hl.
    rewrite He in Hl. by apply not_elem_of_empty in Hl.
Qed.

Lemma orset_remove_tombstones s e e' u :
  (e', u) ∈ os_tombstones (orset_remove s e) ↔
    (e', u) ∈ os_tombstones s ∨ (e' = e ∧ orset_live s e u).
Proof.
  unfold orset_remove, orset_live. destruct (os_elements s !! e) as [us|]; cbn; [|set_solver].
  transitivity ((e', u) ∈ os_tombstones s ∨ (e' = e ∧ u ∈ set_iter us)); [|by rewrite elem_of_set_iter].
  generalize (os_tombstones s). generalize (set_iter us).
  intros l. induction l as [|x l IH]; intros t; cbn; [set_solver|]. rewrite IH, elem_of_union, elem_of_singleton, elem_of_cons. naive_solver.
Qed.

Lemma orset_remove_ok s e : orset_ok s → orset_ok (orset_remove s e).
Proof.
  intros [Hne Hd]. split.
  - intros e'. unfold orset_remove. destruct (os_elements s !! e); [|done]. cbn.
    rewrite lookup_delete. case_decide; [done|apply Hne].
  - intros e' u [Hl Hee]%orset_remove_live. rewrite orset_remove_tombstones.
    apply Hd in Hl. naive_solver.
Qed.

Lemma orset_remove_instance_live s e x e' u :
  orset_live (orset_remove_instance s e x) e' u ↔ orset_live s e' u ∧ (e', u) ≠ (e, x).
Proof.
  unfold orset_remove_instance, orset_live. destruct (os_elements s !! e) as [us|] eqn:He.
  - case_decide as Hx; [|split; [|tauto]; intros Hu; split; [done|]; intros [= -> ->]; by rewrite He in Hu].
    case_decide as Hemp; cbn; [rewrite lookup_delete|rewrite lookup_insert]; case_decide as Hd;
      subst; rewrite ?He; cbn; set_solver.
  - split; [|tauto]. intros Hu. split; [done|]. intros [= -> ->]. rewrite He in Hu. set_solver.
Qed.

Lemma orset_remove_instance_ok s e x : orset_ok s → orset_ok (orset_remove_instance s e x).
Proof.
  intros Hok. pose proof (orset_remove_instance_live s e x) as Hlive. destruct Hok as [Hne Hd]. split.
  - intros e'. unfold orset_remove_instance. destruct (os_elements s !! e) as [us|]; [|done].
    case_decide; [|done]. case_decide; cbn; [rewrite lookup_delete|rewrite lookup_insert];
      case_decide; auto; congruence.
  - intros e' u Hl%Hlive. destruct Hl as [Hl Hneq]. apply Hd in Hl.
    unfold orset_remove_instance. destruct (os_elements s !! e) as [us|]; [|done].
    case_decide; [|done]. cbn. set_solver.
Qed.

Lemma elem_of_orset_elements s e : e ∈ orset_elements s ↔ orset_contains s e = true.
Proof. unfold orset_elements, orset_contains. by rewrite elem_of_map_iter_fst, bool_decide_eq_true. Qed.

Lemma orset_len_elements s : orset_len s = length (orset_elements s).
Proof.
  unfold orset_len, orset_elements. rewrite length_fmap, map_iter_perm. symmetry.
  apply length_map_to_list.
Qed.

Lemma orset_len_pos s : (1 ≤ orset_len s)%nat ↔ ∃ e, orset_contains s e = true.
Proof.
  rewrite orset_len_elements. setoid_rewrite <- elem_of_orset_elements. split.
  - destruct (orset_elements s) as [|e l]; cbn; [lia|]. exists e. left.
  - intros [e He]. destruct (orset_elements s) as [|e' l]; cbn; [by apply not_elem_of_nil in He|lia].
Qed.

Lemma orset_len_remove s e : (orset_len s - 1 ≤ orset_len (orset_remove s e))%nat.
Proof.
  unfold orset_len, orset_remove. destruct (os_elements s !! e) as [us|] eqn:E; cbn; [|lia].
  rewrite map_size_delete, E. cbn. lia.
Qed.
End or_set.
#[export] Hint Resolve orset_new_ok orset_merge_ok orset_remove_ok orset_remove_instance_ok orset_opt_compat : idiom.

(** ** A network of replicas

    [orset_step] is one event at one replica: an addition under a UUID no
    replica has used, a removal, a removal of one instance, or the merge of
    another replica's state. *)
Section network.
Context {T : Type} `{Countable T} `{HashOrder}.

Record Network := mkNetwork { net_replicas : list (ORSet T); net_used : gset Uuid }.

Definition net_set (n : Network) (i : nat) (s : ORSet T) : Network :=
  mkNetwork (<[i := s]> (net_replicas n)) (net_used n).

Inductive orset_step : Network → Network → Prop :=
  | step_add n i s e w uuid s' w' :
      net_replicas n !! i = Some s → orset_add s e w = (uuid, s', w') → uuid ∉ net_used n →
      orset_step n (mkNetwork (<[i := s']> (net_replicas n)) ({[uuid]} ∪ net_used n))
  | step_remove n i s e :
      net_replicas n !! i = Some s → orset_step n (net_set n i (orset_remove s e))
  | step_remove_instance n i s e u :
      net_replicas n !! i = Some s → orset_step n (net_set n i (orset_remove_instance s e u))
  | step_merge n i j s t :
      net_replicas n !! i = Some s → net_replicas n !! j = Some t →
      orset_step n (net_set n i (orset_merge s t)).

(** Every replica keeps its invariant and knows used UUIDs only. *)
Definition net_inv (n : Network) : Prop :=
  ∀ s, s ∈ net_replicas n →
    orset_ok s ∧
    (∀ e u, orset_live s e u → u ∈ net_used n) ∧
    (∀ e u, (e, u) ∈ os_tombstones s → u ∈ net_used n).

Lemma net_inv_set n i s :
  net_inv n → orset_ok s →
  (∀ e u, orset_live s e u → u ∈ net_used n) →
  (∀ e u, (e, u) ∈ os_tombstones s → u ∈ net_used n) → net_inv (net_set n i s).
Proof.
  intros Hn Hok Hl Ht t Hin. cbn in *. apply list_elem_of_lookup in Hin as [j Hj].
  destruct (decide (i = j)) as [->|Hne].
  - apply list_lookup_insert_Some in Hj as [(_&->&_)|[? _]]; [done|congruence].
  - rewrite list_lookup_insert_ne in Hj by done. apply Hn. by eapply list_elem_of_lookup_2.
Qed.

Lemma orset_remove_instance_tombstones s (e : T) x e' u :
  (e', u) ∈ os_tombstones (orset_remove_instance s e x) →
  (e', u) ∈ os_tombstones s ∨ orset_live s e' u.
Proof.
  unfold orset_remove_instance, orset_live. destruct (os_elements s !! e) as [us|] eqn:He; [|by left].
  case_decide; [|by left]. cbn. rewrite elem_of_union, elem_of_singleton.
  intros [[= -> ->]|?]; [right; by rewrite He|by left].
Qed.

Lemma orset_step_inv n n' : orset_step n n' → net_inv n → net_inv n'.
Proof.
  intros Hstep Hn. destruct Hstep as [n i s e w uuid s' w' Hi Hadd Hu|n i s e Hi|n i s e u Hi|n i j s t Hi Hj].
  all: destruct (Hn s) as (Hok&Hl&Ht); [by eapply list_elem_of_lookup_2|].
  - pose proof (orset_add_spec s e w) as Hs. rewrite Hadd in Hs. destruct Hs as (_&Htm&Hlv&Hok').
    assert (net_inv (mkNetwork (net_replicas n) ({[uuid]} ∪ net_used n))) as Hn'.
    { intros t Hin. destruct (Hn t Hin) as (?&?&?). split_and!; [done|set_solver..]. }
    apply (net_inv_set _ i s' Hn'); cbn.
    + apply Hok'; [done|]. intros Hin. by apply Ht in Hin.
    + intros e' u. rewrite Hlv. set_solver.
    + intros e' u. rewrite Htm. set_solver.
  - apply net_inv_set; [done|by apply orset_remove_ok|..]; intros e' u.
    + rewrite orset_remove_live. intros [? _]. eauto.
    + rewrite orset_remove_tombstones. intros [?|[_ ?]]; eauto.
  - apply net_inv_set; [done|by apply orset_remove_instance_ok|..]; intros e' u'.
    + rewrite orset_remove_instance_live. intros [? _]. eauto.
    + intros [?|?]%orset_remove_instance_tombstones; eauto.
  - destruct (Hn t) as (Hokt&Hlt&Htt); [by eapply list_elem_of_lookup_2|].
    apply net_inv_set; [done|apply orset_merge_ok|..]; intros e' u.
    + rewrite orset_merge_live. intros [[?|?] _]; eauto.
    + rewrite orset_merge_tombstones, elem_of_union. intros [?|?]; eauto.
Qed.

Lemma orset_reachable_inv k n :
  rtc orset_step (mkNetwork (replicate k orset_new) ∅) n → net_inv n.
Proof.
  assert (net_inv (mkNetwork (replicate k orset_new) ∅)) as Hinit.
  { intros s [-> _]%elem_of_replicate. split_and!; [apply orset_new_ok| |].
    - intros e u Hl. by apply orset_new_live in Hl.
    - intros e u Hin. cbn in Hin. by apply not_elem_of_empty in Hin. }
  intros Hr. revert Hinit. induction Hr; [done|]. intros Hinit. eauto using orset_step_inv.
Qed.
End network.

Section properties.
Context {T : Type} `{Countable T} `{HashOrder}.

(** C2: In any network of OR-Set replicas started empty and driven by additions
    under unused UUIDs, removals and merges, every replica keeps its invariant and
    any two replicas that exchange their states become equal, whichever merges
    first; merging again changes nothing. *)
Theorem orset_network_converges (k : nat) (n : Network) (i j : nat) (s t : ORSet T) :
  rtc orset_step (mkNetwork (replicate k orset_new) ∅) n →
  net_replicas n !! i = Some s → net_replicas n !! j = Some t →
  orset_ok s ∧ orset_merge s t = orset_merge t s ∧
  orset_merge (orset_merge s t) t = orset_merge s t.
Proof.
  intros Hr Hs%list_elem_of_lookup_2 Ht%list_elem_of_lookup_2.
  apply orset_reachable_inv in Hr. destruct (Hr s Hs) as [Hos _], (Hr t Ht) as [Hot _].
  split; [done|]. split; [by apply orset_merge_comm|].
  by rewrite <- orset_merge_assoc, orset_merge_idem.
Qed.

(** Add wins: an addition under a UUID the other replica has not seen survives
    the merge with a concurrent removal of the same element, in both directions. *)
Theorem orset_add_wins (a b a' : ORSet T) (e : T) (w w' : World) (uuid : Uuid) :
  orset_ok a → orset_ok b → orset_add a e w = (uuid, a', w') →
  (e, uuid) ∉ os_tombstones a → (e, uuid) ∉ os_tombstones b → ¬ orset_live b e uuid →
  orset_contains (orset_merge (orset_remove b e) a') e = true ∧
  orset_contains (orset_merge a' (orset_remove b e)) e = true.
Proof.
  intros Ha Hb Hadd Hta Htb Hlb. pose proof (orset_add_spec a e w) as Hs.
  rewrite Hadd in Hs. destruct Hs as (_&Htm&Hlv&_).
  assert (orset_live a' e uuid) by (apply Hlv; by right).
  assert ((e, uuid) ∉ os_tombstones (orset_remove b e)) by (rewrite orset_remove_tombstones; tauto).
  rewrite !orset_contains_live by apply orset_merge_ok.
  split; exists uuid; apply orset_merge_live; rewrite Htm; set_solver.
Qed.

(** Observed remove: once a replica has seen every instance another replica
    holds of an element, its removal of the element takes effect at that replica. *)
Theorem orset_observed_remove (a b : ORSet T) (e : T) :
  (∀ u, orset_live a e u → orset_live b e u ∨ (e, u) ∈ os_tombstones b) →
  orset_contains (orset_merge a (orset_remove b e)) e = false ∧
  orset_contains (orset_merge (orset_remove b e) a) e = false.
Proof.
  intros Hobs. rewrite <- !not_true_iff_false, !orset_contains_live by apply orset_merge_ok.
  split; intros [u Hu]; apply orset_merge_live in Hu as [Hl Hnt];
    rewrite orset_remove_live, elem_of_union, orset_remove_tombstones in *; naive_solver.
Qed.
End properties.

Lemma orset_network_converges_witness :
  let w := world0 in
  let '(u, s, w) := @orset_add string _ _ orset_new "k" w in
  let n := mkNetwork [s; orset_new] ({[u]} ∪ ∅) in
  rtc (@orset_step _ _ _ plain_order) (mkNetwork (replicate 2 orset_new) ∅) n ∧
  @orset_contains string _ _ s "k" = true ∧
  @orset_merge _ _ _ plain_order s orset_new = @orset_merge _ _ _ plain_order orset_new s.
Proof.
  assert (rtc (@orset_step string _ _ plain_order) (mkNetwork (replicate 2 orset_new) ∅)
    (mkNetwork [(orset_add orset_new "k" world0).1.2; orset_new] ({[0%N]} ∪ ∅))) as Hr.
  { apply rtc_once. exact (@step_add _ _ _ plain_order (mkNetwork (replicate 2 orset_new) ∅) 0 orset_new
      "k" world0 0%N _ _ eq_refl eq_refl (not_elem_of_empty _)). }
  split; [exact Hr|]. split; [reflexivity|].
  exact (proj1 (proj2 (@orset_network_converges string _ _ plain_order 2 _ 0 1 _ _ Hr eq_refl eq_refl))).
Defined.

Lemma orset_add_wins_witness :
  let '(u, a, w) := @orset_add string _ _ orset_new "k" world0 in
  let '(u', a', w') := orset_add a "k" w in
  (u, u') = (0%N, 1%N) ∧ orset_contains (@orset_merge _ _ _ plain_order (@orset_remove _ _ _ plain_order a "k") a') "k" = true.
Proof.
  split; [reflexivity|].
  set (w := mkWorld Z.of_nat 0 N.of_nat 1).
  set (a := (@orset_add string _ _ orset_new "k" world0).1.2).
  assert (orset_ok a) as Ha.
  { pose proof (@orset_add_spec string _ _ orset_new "k" world0) as Hs.
    apply Hs; [apply orset_new_ok|]. apply not_elem_of_empty. }
  refine (proj1 (@orset_add_wins string _ _ plain_order a a _ "k" w _ 1%N Ha Ha eq_refl _ _ _)).
  - apply not_elem_of_empty.
  - apply not_elem_of_empty.
  - intros Hl. apply (@orset_add_spec string _ _ orset_new "k" world0) in Hl as [Hl|[_ Hl]];
      [by apply orset_new_live in Hl|discriminate Hl].
Defined.

Lemma orset_observed_remove_witness :
  let a := (@orset_add string _ _ orset_new "k" world0).1.2 in
  orset_contains a "k" = true ∧
  @orset_contains string _ _ (@orset_merge _ _ _ plain_order a (@orset_remove _ _ _ plain_order a "k")) "k" = false.
Proof.
  intros a. split; [reflexivity|].
  apply (@orset_observed_remove string _ _ plain_order a a "k"). intros u Hu. left. exact Hu.
Defined.
