(* ===== verification/AjnaTypes.v ===== *)
(** The data of did:ajna: JSON values, the error type, verification methods and
    services, the two operation formats and the W3C document they convert from
    ([error.rs], [document.rs], [operations.rs], [operation_v2.rs] of
    [src/did/src/ajna], and [src/did/src/core/document.rs]). *)
From S2P Require Import Prelude.

(** A [serde_json::Value]; a float is given by its 64-bit pattern, an object by
    its entries (keys are distinct, their order carries no meaning). *)
Inductive Json :=
  | JNull
  | JBool (b : bool)
  | JPosInt (n : N)
  | JNegInt (z : Z)
  | JFloat (bits : Z)
  | JString (s : string)
  | JArray (l : list Json)
  | JObject (l : list (string * Json)).

(** [Value::as_i64]: an integer that fits in an [i64]. *)
Definition json_as_i64 (v : Json) : option Z :=
  match v with
  | JPosInt n => if decide (Z.of_N n < 9223372036854775808)%Z then Some (Z.of_N n) else None
  | JNegInt z => Some z
  | _ => None
  end.

Definition json_as_str (v : Json) : option string :=
  match v with JString s => Some s | _ => None end.

(** Lookup of a key in an object. *)
Definition json_get (key : string) (v : Json) : option Json :=
  match v with
  | JObject l => snd <$> (snd <$> list_find (λ kv : string * Json, kv.1 = key) l)
  | _ => None
  end.

(** [src/did/src/ajna/error.rs:7-73] AjnaError *)
Inductive AjnaError :=
  | InvalidDid (msg : string)
  | DidNotFound (did : string)
  | InvalidOperation (msg : string)
  | Serialization (msg : string)
  | SerializationError (msg : string)
  | InvalidSignature (msg : string)
  | MergeConflict (msg : string)
  | InvalidKey (msg : string)
  | VectorClockError (msg : string)
  | MerkleDagError (msg : string)
  | AgentError (msg : string)
  | StorageError (msg : string)
  | InvalidBloomFilter (msg : string)
  | BundleTooLarge (size max : N)
  | InvalidBundleId
  | InsufficientContext
  | ResolutionFailed (msg : string)
  | AnchorNotFinal
  | DeactivatedDID
  | InvalidReference (msg : string)
  | BloomError (msg : string).

Abbreviation Result := (outcome AjnaError).

(** ** Verification methods and services *)

(** [src/did/src/ajna/document.rs:44-64] VerificationMethod *)
Record VerificationMethod := mkVM {
  vm_id : string;
  vm_type : string;
  vm_controller : string;
  vm_public_key_multibase : string;
  vm_purpose : option (list string)
}.

#[export] Instance VerificationMethod_eq_dec : EqDecision VerificationMethod.
Proof. solve_decision. Defined.
#[export] Instance VerificationMethod_countable : Countable VerificationMethod.
Proof.
  refine (inj_countable'
    (λ m, (vm_id m, vm_type m, vm_controller m, vm_public_key_multibase m, vm_purpose m))
    (λ '(i, t, c, k, p), mkVM i t c k p) _).
  by intros [].
Defined.

(** [src/did/src/ajna/document.rs:12-42] verification_method_types *)
Definition SLHDSA_2024 : string := "SLH-DSA-SHAKE-128s-2024".
Definition MLDSA65_2024 : string := "ML-DSA-65-2024".
Definition ED25519_2020 : string := "Ed25519VerificationKey2020".
Definition X25519_2020 : string := "X25519KeyAgreementKey2020".
Definition ECDSA_SECP256R1_2019 : string := "EcdsaSecp256r1VerificationKey2019".

(** [src/did/src/ajna/document.rs:67-81] VerificationMethod::new_slhdsa *)
Definition vm_new_slhdsa (did key_id public_key_multibase : string)
    (purpose : option (list string)) : VerificationMethod :=
  mkVM (did +:+ "#" +:+ key_id) SLHDSA_2024 did public_key_multibase purpose.

(** [src/did/src/ajna/document.rs:83-97] VerificationMethod::new_mldsa65 *)
Definition vm_new_mldsa65 (did key_id public_key_multibase : string)
    (purpose : option (list string)) : VerificationMethod :=
  mkVM (did +:+ "#" +:+ key_id) MLDSA65_2024 did public_key_multibase purpose.

(** [src/did/src/ajna/document.rs:99-105] VerificationMethod::is_quantum_resistant *)
Definition vm_is_quantum_resistant (self : VerificationMethod) : bool :=
  bool_decide (vm_type self = SLHDSA_2024 ∨ vm_type self = MLDSA65_2024).

(** [src/did/src/ajna/document.rs:107-116] VerificationMethod::is_deprecated *)
Definition vm_is_deprecated (self : VerificationMethod) : bool :=
  bool_decide (vm_type self = ED25519_2020 ∨ vm_type self = X25519_2020 ∨
               vm_type self = ECDSA_SECP256R1_2019).

(** [src/did/src/ajna/document.rs:119-136] Service *)
Record Service := mkService {
  svc_id : string;
  svc_type : string;
  svc_endpoint : string;
  svc_properties : gmap string Json
}.

(** The derived [Default]. *)
#[export] Instance Service_inhabited : Inhabited Service := populate (mkService "" "" "" ∅).
#[export] Instance Json_inhabited : Inhabited Json := populate JNull.

(** ** Legacy operations *)

(** [src/did/src/ajna/operations.rs:13-45] CRDTOperation *)
Inductive CRDTOperation :=
  | AddVerificationMethod (method : VerificationMethod) (timestamp : Instant) (node_id : string)
  | RemoveVerificationMethod (method_id : string) (method : VerificationMethod)
      (timestamp : Instant) (node_id : string)
  | SetService (service : Service) (timestamp : Instant) (node_id : string)
  | RemoveService (service_id : string) (timestamp : Instant) (node_id : string).

(** [src/did/src/ajna/operations.rs:48-55] CRDTOperation::add_verification_method *)
Definition op_add_verification_method (method : VerificationMethod) (node_id : string)
    (w : World) : CRDTOperation * World :=
  let '(now, w) := utc_now w in (AddVerificationMethod method now node_id, w).

(** [src/did/src/ajna/operations.rs:57-69] CRDTOperation::remove_verification_method *)
Definition op_remove_verification_method (method_id : string) (method : VerificationMethod)
    (node_id : string) (w : World) : CRDTOperation * World :=
  let '(now, w) := utc_now w in (RemoveVerificationMethod method_id method now node_id, w).

(** [src/did/src/ajna/operations.rs:71-78] CRDTOperation::set_service *)
Definition op_set_service (service : Service) (node_id : string) (w : World) : CRDTOperation * World :=
  let '(now, w) := utc_now w in (SetService service now node_id, w).

(** [src/did/src/ajna/operations.rs:80-87] CRDTOperation::remove_service *)
Definition op_remove_service (service_id node_id : string) (w : World) : CRDTOperation * World :=
  let '(now, w) := utc_now w in (RemoveService service_id now node_id, w).

(** [src/did/src/ajna/operations.rs:89-97] CRDTOperation::timestamp *)
Definition op_timestamp (self : CRDTOperation) : Instant :=
  match self with
  | AddVerificationMethod _ t _ | RemoveVerificationMethod _ _ t _
  | SetService _ t _ | RemoveService _ t _ => t
  end.

(** [src/did/src/ajna/operations.rs:99-107] CRDTOperation::node_id *)
Definition op_node_id (self : CRDTOperation) : string :=
  match self with
  | AddVerificationMethod _ _ n | RemoveVerificationMethod _ _ _ n
  | SetService _ _ n | RemoveService _ _ n => n
  end.

(** [src/did/src/ajna/operations.rs:201-223] DIDUpdate *)
Record DIDUpdate := mkDIDUpdate {
  upd_did : string;
  upd_operations : list CRDTOperation;
  upd_clock : list (string * N);
  upd_timestamp : Instant;
  upd_origin_node : string;
  upd_signature : option string
}.

(** [src/did/src/ajna/operations.rs:226-241] DIDUpdate::new *)
Definition upd_new (did : string) (operations : list CRDTOperation) (clock : list (string * N))
    (origin_node : string) (w : World) : DIDUpdate * World :=
  let '(now, w) := utc_now w in (mkDIDUpdate did operations clock now origin_node None, w).

(** ** Operations, second format *)

(** [src/did/src/ajna/operation_v2.rs:56-65] ClockEntry *)
Record ClockEntry := mkClockEntry { ce_actor_id : N; ce_counter : N }.

(** [src/did/src/ajna/operation_v2.rs:114-123] VerificationPurpose *)
Inductive VerificationPurpose :=
  | Authentication | AssertionMethod | KeyAgreement | CapabilityInvocation | CapabilityDelegation.
#[export] Instance VerificationPurpose_eq_dec : EqDecision VerificationPurpose.
Proof. solve_decision. Defined.

(** [src/did/src/ajna/operation_v2.rs:125-135] VerificationPurpose::fmt *)
Definition purpose_to_string (p : VerificationPurpose) : string :=
  match p with
  | Authentication => "authentication"
  | AssertionMethod => "assertionMethod"
  | KeyAgreement => "keyAgreement"
  | CapabilityInvocation => "capabilityInvocation"
  | CapabilityDelegation => "capabilityDelegation"
  end.

(** [src/did/src/ajna/operation_v2.rs:67-112] Delta *)
Inductive Delta :=
  | VmAdd (entry : VerificationMethod)
  | VmRemove (id : string)
  | RefAdd (purpose : VerificationPurpose) (ref_ : string)
  | RefRemove (purpose : VerificationPurpose) (ref_ : string)
  | ServiceAdd (entry : Service)
  | ServiceRemove (id : string)
  | PropSet (key : string) (value : Json) (ts : N)
  | ControllerAdd (did : string)
  | ControllerRemove (did : string)
  | Deactivate (reason : option string).

(** [src/did/src/ajna/operation_v2.rs:137-145] AuthProof *)
Record AuthProof := mkAuthProof { ap_proof : string; ap_kid : string }.

(** [src/did/src/ajna/operation_v2.rs:24-54] Operation *)
Record Operation := mkOperation {
  op2_type : string;
  op2_doc : string;
  op2_op_id : string;
  op2_parents : list string;
  op2_actor : string;
  op2_clock : ClockEntry;
  op2_delta : Delta;
  op2_auth : AuthProof;
  op2_timestamp_ms : Z
}.

(** [src/did/src/ajna/operation_v2.rs:21-22] OP_TYPE *)
Definition OP_TYPE : string := "org.ajna.did/op/1.0".

(** [src/did/src/ajna/operation_v2.rs:255-258] Operation::lamport_time *)
Definition op2_lamport_time (self : Operation) : N := ce_counter (op2_clock self).

(** ** The W3C document of [src/did/src/core] *)

(** [src/did/src/core/document.rs:78-102] VerificationMethod *)
Record CoreVerificationMethod := mkCoreVM {
  cvm_id : string;
  cvm_type : string;
  cvm_controller : string;
  cvm_public_key_base58 : option string;
  cvm_public_key_multibase : option string;
  cvm_public_key_jwk : option Json
}.

(** [src/did/src/core/document.rs:104-114] VerificationRelationship *)
Inductive VerificationRelationship :=
  | Reference (id : string)
  | Embedded (method : CoreVerificationMethod).

(** [src/did/src/core/document.rs:116-134] Service *)
Record CoreService := mkCoreService {
  csvc_id : string;
  csvc_type : string;
  csvc_endpoint : Json;
  csvc_properties : gmap string Json
}.

(** [src/did/src/core/document.rs:8-76] DidDocument *)
Record DidDocument := mkDidDocument {
  dd_id : string;
  dd_verification_method : list CoreVerificationMethod;
  dd_authentication : list VerificationRelationship;
  dd_assertion_method : list VerificationRelationship;
  dd_key_agreement : list VerificationRelationship;
  dd_capability_invocation : list VerificationRelationship;
  dd_capability_delegation : list VerificationRelationship;
  dd_service : list CoreService;
  dd_context : option Json;
  dd_also_known_as : list string;
  dd_controller : option Json
}.
