(* ===== verification/Document.v ===== *)
(** The CRDT document of did:ajna, [AjnaDocument] of [src/did/src/ajna/document.rs],
    and the application of legacy operations to it ([operations.rs]).

    A method that takes [&mut self] returns the new document.  The setters
    [set_<field>] are the assignments to one field. *)
From S2P Require Import Prelude Crdt AjnaTypes.

(** The part of [chrono] the code calls: [Utc.timestamp_millis_opt(ms)] has no
    value for an instant out of its range. *)
Class Chrono := {
  timestamp_millis_opt : Z → option Instant;
  timestamp_millis_opt_spec ms t : timestamp_millis_opt ms = Some t → t = (ms * 1000000)%Z
}.

Definition chrono_range : Chrono.
Proof.
  refine {| timestamp_millis_opt ms :=
    if decide (-8334601228800000 ≤ ms ≤ 8210266876799999)%Z then Some (ms * 1000000)%Z else None |}.
  intros ms t. case_decide; [|done]. by intros [= <-].
Defined.

(** [src/did/src/ajna/document.rs:207-224] BlockchainAnchor *)
Record BlockchainAnchor := mkAnchor {
  ba_network : string;
  ba_tx_hash : string;
  ba_block_number : N;
  ba_timestamp : Instant;
  ba_merkle_root : string
}.

(** [src/did/src/ajna/document.rs:138-205] AjnaDocument *)
Record AjnaDocument := mkDoc {
  doc_id : string;
  doc_verification_methods : ORSet VerificationMethod;
  doc_authentication : option (ORSet string);
  doc_assertion_method : option (ORSet string);
  doc_key_agreement : option (ORSet string);
  doc_capability_invocation : option (ORSet string);
  doc_capability_delegation : option (ORSet string);
  doc_controller : option (ORSet string);
  doc_service : option (LWWMap string Service);
  doc_policy : option (LWWMap string Json);
  doc_deactivated : option bool;
  doc_vector_clock : VectorClock;
  doc_created : Instant;
  doc_updated : Instant;
  doc_node_id : string;
  doc_blockchain_anchor : option BlockchainAnchor
}.

Definition set_verification_methods (v : ORSet VerificationMethod) (d : AjnaDocument) : AjnaDocument :=
  mkDoc (doc_id d) v (doc_authentication d) (doc_assertion_method d) (doc_key_agreement d) (doc_capability_invocation d) (doc_capability_delegation d) (doc_controller d) (doc_service d) (doc_policy d) (doc_deactivated d) (doc_vector_clock d) (doc_created d) (doc_updated d) (doc_node_id d) (doc_blockchain_anchor d).
Definition set_authentication (v : option (ORSet string)) (d : AjnaDocument) : AjnaDocument :=
  mkDoc (doc_id d) (doc_verification_methods d) v (doc_assertion_method d) (doc_key_agreement d) (doc_capability_invocation d) (doc_capability_delegation d) (doc_controller d) (doc_service d) (doc_policy d) (doc_deactivated d) (doc_vector_clock d) (doc_created d) (doc_updated d) (doc_node_id d) (doc_blockchain_anchor d).
Definition set_assertion_method (v : option (ORSet string)) (d : AjnaDocument) : AjnaDocument :=
  mkDoc (doc_id d) (doc_verification_methods d) (doc_authentication d) v (doc_key_agreement d) (doc_capability_invocation d) (doc_capability_delegation d) (doc_controller d) (doc_service d) (doc_policy d) (doc_deactivated d) (doc_vector_clock d) (doc_created d) (doc_updated d) (doc_node_id d) (doc_blockchain_anchor d).
Definition set_key_agreement (v : option (ORSet string)) (d : AjnaDocument) : AjnaDocument :=
  mkDoc (doc_id d) (doc_verification_methods d) (doc_authentication d) (doc_assertion_method d) v (doc_capability_invocation d) (doc_capability_delegation d) (doc_controller d) (doc_service d) (doc_policy d) (doc_deactivated d) (doc_vector_clock d) (doc_created d) (doc_updated d) (doc_node_id d) (doc_blockchain_anchor d).
Definition set_capability_invocation (v : option (ORSet string)) (d : AjnaDocument) : AjnaDocument :=
  mkDoc (doc_id d) (doc_verification_methods d) (doc_authentication d) (doc_assertion_method d) (doc_key_agreement d) v (doc_capability_delegation d) (doc_controller d) (doc_service d) (doc_policy d) (doc_deactivated d) (doc_vector_clock d) (doc_created d) (doc_updated d) (doc_node_id d) (doc_blockchain_anchor d).
Definition set_capability_delegation (v : option (ORSet string)) (d : AjnaDocument) : AjnaDocument :=
  mkDoc (doc_id d) (doc_verification_methods d) (doc_authentication d) (doc_assertion_method d) (doc_key_agreement d) (doc_capability_invocation d) v (doc_controller d) (doc_service d) (doc_policy d) (doc_deactivated d) (doc_vector_clock d) (doc_created d) (doc_updated d) (doc_node_id d) (doc_blockchain_anchor d).
Definition set_controller (v : option (ORSet string)) (d : AjnaDocument) : AjnaDocument :=
  mkDoc (doc_id d) (doc_verification_methods d) (doc_authentication d) (doc_assertion_method d) (doc_key_agreement d) (doc_capability_invocation d) (doc_capability_delegation d) v (doc_service d) (doc_policy d) (doc_deactivated d) (doc_vector_clock d) (doc_created d) (doc_updated d) (doc_node_id d) (doc_blockchain_anchor d).
Definition set_service (v : option (LWWMap string Service)) (d : AjnaDocument) : AjnaDocument :=
  mkDoc (doc_id d) (doc_verification_methods d) (doc_authentication d) (doc_assertion_method d) (doc_key_agreement d) (doc_capability_invocation d) (doc_capability_delegation d) (doc_controller d) v (doc_policy d) (doc_deactivated d) (doc_vector_clock d) (doc_created d) (doc_updated d) (doc_node_id d) (doc_blockchain_anchor d).
Definition set_policy (v : option (LWWMap string Json)) (d : AjnaDocument) : AjnaDocument :=
  mkDoc (doc_id d) (doc_verification_methods d) (doc_authentication d) (doc_assertion_method d) (doc_key_agreement d) (doc_capability_invocation d) (doc_capability_delegation d) (doc_controller d) (doc_service d) v (doc_deactivated d) (doc_vector_clock d) (doc_created d) (doc_updated d) (doc_node_id d) (doc_blockchain_anchor d).
Definition set_deactivated (v : option bool) (d : AjnaDocument) : AjnaDocument :=
  mkDoc (doc_id d) (doc_verification_methods d) (doc_authentication d) (doc_assertion_method d) (doc_key_agreement d) (doc_capability_invocation d) (doc_capability_delegation d) (doc_controller d) (doc_service d) (doc_policy d) v (doc_vector_clock d) (doc_created d) (doc_updated d) (doc_node_id d) (doc_blockchain_anchor d).
Definition set_vector_clock (v : VectorClock) (d : AjnaDocument) : AjnaDocument :=
  mkDoc (doc_id d) (doc_verification_methods d) (doc_authentication d) (doc_assertion_method d) (doc_key_agreement d) (doc_capability_invocation d) (doc_capability_delegation d) (doc_controller d) (doc_service d) (doc_policy d) (doc_deactivated d) v (doc_created d) (doc_updated d) (doc_node_id d) (doc_blockchain_anchor d).
Definition set_updated (v : Instant) (d : AjnaDocument) : AjnaDocument :=
  mkDoc (doc_id d) (doc_verification_methods d) (doc_authentication d) (doc_assertion_method d) (doc_key_agreement d) (doc_capability_invocation d) (doc_capability_delegation d) (doc_controller d) (doc_service d) (doc_policy d) (doc_deactivated d) (doc_vector_clock d) (doc_created d) v (doc_node_id d) (doc_blockchain_anchor d).
Definition set_blockchain_anchor (v : option BlockchainAnchor) (d : AjnaDocument) : AjnaDocument :=
  mkDoc (doc_id d) (doc_verification_methods d) (doc_authentication d) (doc_assertion_method d) (doc_key_agreement d) (doc_capability_invocation d) (doc_capability_delegation d) (doc_controller d) (doc_service d) (doc_policy d) (doc_deactivated d) (doc_vector_clock d) (doc_created d) (doc_updated d) (doc_node_id d) v.

(** [src/did/src/ajna/document.rs:227-247] AjnaDocument::new *)
Definition doc_new (did node_id : string) (w : World) : AjnaDocument * World :=
  let '(created, w) := utc_now w in
  let '(updated, w) := utc_now w in
  (mkDoc did orset_new None None None None None None None None None vc_new created updated
     node_id None, w).

(** [src/did/src/ajna/document.rs:586-589] AjnaDocument::is_deactivated *)
Definition doc_is_deactivated (d : AjnaDocument) : bool := default false (doc_deactivated d).

(** [src/did/src/ajna/document.rs:591-594] AjnaDocument::get_policy *)
Definition doc_get_policy (d : AjnaDocument) (key : string) : option Json :=
  p ← doc_policy d; lww_get p key.

(** [src/did/src/ajna/document.rs:596-599] AjnaDocument::get_policy_int *)
Definition doc_get_policy_int (d : AjnaDocument) (key : string) : option Z :=
  v ← doc_get_policy d key; json_as_i64 v.

(** [src/did/src/ajna/document.rs:601-607] AjnaDocument::is_controller *)
Definition doc_is_controller (d : AjnaDocument) (did : string) : bool :=
  default false ((λ c, orset_contains c did) <$> doc_controller d).

(** [src/did/src/ajna/document.rs:364-367] AjnaDocument::get_service *)
Definition doc_get_service (d : AjnaDocument) (service_id : string) : option Service :=
  s ← doc_service d; lww_get s service_id.

(** [src/did/src/ajna/document.rs:671-674] AjnaDocument::set_blockchain_anchor *)
Definition doc_set_blockchain_anchor (d : AjnaDocument) (anchor : BlockchainAnchor) : AjnaDocument :=
  set_blockchain_anchor (Some anchor) d.

(** The instant [Utc::now()] assigned to [updated]. *)
Definition doc_touch (d : AjnaDocument) (w : World) : AjnaDocument * World :=
  let '(now, w) := utc_now w in (set_updated now d, w).

Definition doc_tick (d : AjnaDocument) (node : string) : AjnaDocument :=
  set_vector_clock (vc_increment (doc_vector_clock d) node) d.

(** [src/did/src/ajna/document.rs:279-285] AjnaDocument::add_verification_method *)
Definition doc_add_verification_method (d : AjnaDocument) (method : VerificationMethod)
    (w : World) : Uuid * AjnaDocument * World :=
  let '(uuid, vms, w) := orset_add (doc_verification_methods d) method w in
  let d := doc_tick (set_verification_methods vms d) (doc_node_id d) in
  let '(d, w) := doc_touch d w in
  (uuid, d, w).

(** [src/did/src/ajna/document.rs:301-307] AjnaDocument::set_service *)
Definition doc_set_service (d : AjnaDocument) (service : Service) (w : World) : AjnaDocument * World :=
  let service_map := default lww_new (doc_service d) in
  let '(service_map, w) := lww_set service_map (svc_id service) service (doc_node_id d) w in
  doc_touch (doc_tick (set_service (Some service_map) d) (doc_node_id d)) w.

(** [src/did/src/ajna/document.rs:309-319] AjnaDocument::set_service_with_timestamp *)
Definition doc_set_service_with_timestamp (d : AjnaDocument) (service : Service)
    (timestamp : Instant) (node_id : string) (w : World) : AjnaDocument * World :=
  let service_map := default lww_new (doc_service d) in
  let service_map := lww_set_with_timestamp service_map (svc_id service) service timestamp node_id in
  doc_touch (set_service (Some service_map) d) w.

(** [src/did/src/ajna/document.rs:321-328] AjnaDocument::remove_service *)
Definition doc_remove_service (d : AjnaDocument) (service_id : string) (w : World) : AjnaDocument * World :=
  let '(d, w) :=
    match doc_service d with
    | Some service_map =>
        let '(service_map, w) := lww_remove service_map service_id (doc_node_id d) w in
        (set_service (Some service_map) d, w)
    | None => (d, w)
    end in
  doc_touch (doc_tick d (doc_node_id d)) w.

(** [src/did/src/ajna/document.rs:330-341] AjnaDocument::remove_service_with_timestamp *)
Definition doc_remove_service_with_timestamp (d : AjnaDocument) (service_id : string)
    (timestamp : Instant) (node_id : string) (w : World) : AjnaDocument * World :=
  let d :=
    match doc_service d with
    | Some service_map =>
        set_service (Some (lww_remove_with_timestamp service_map service_id timestamp node_id)) d
    | None => d
    end in
  doc_touch d w.

(** [src/did/src/ajna/document.rs:249-277] AjnaDocument::new_with_genesis *)
Definition doc_new_with_genesis (did node_id : string) (initial_controllers : list string)
    (initial_policy : list (string * Json)) (w : World) : AjnaDocument * World :=
  let '(doc, w) := doc_new did node_id w in
  let '(doc, w) :=
    match initial_controllers with
    | [] => (doc, w)
    | _ =>
        let '(controllers, w) :=
          foldl (λ '(c, w) controller, let '(_, c, w) := orset_add c controller w in (c, w))
            (orset_new, w) initial_controllers in
        (set_controller (Some controllers) doc, w)
    end in
  match initial_policy with
  | [] => (doc, w)
  | _ =>
      let '(policy, w) :=
        foldl (λ '(p, w) kv, lww_set p kv.1 kv.2 (doc_node_id doc) w) (lww_new, w) initial_policy in
      (set_policy (Some policy) doc, w)
  end.

(** The OR-Set of references a purpose selects. *)
Definition doc_purpose (d : AjnaDocument) (purpose : VerificationPurpose) : option (ORSet string) :=
  match purpose with
  | Authentication => doc_authentication d
  | AssertionMethod => doc_assertion_method d
  | KeyAgreement => doc_key_agreement d
  | CapabilityInvocation => doc_capability_invocation d
  | CapabilityDelegation => doc_capability_delegation d
  end.

Definition set_purpose (purpose : VerificationPurpose) (s : option (ORSet string))
    (d : AjnaDocument) : AjnaDocument :=
  match purpose with
  | Authentication => set_authentication s d
  | AssertionMethod => set_assertion_method s d
  | KeyAgreement => set_key_agreement s d
  | CapabilityInvocation => set_capability_invocation s d
  | CapabilityDelegation => set_capability_delegation s d
  end.

(** [src/did/src/ajna/document.rs:535-561] AjnaDocument::add_purpose_ref *)
Definition doc_add_purpose_ref (d : AjnaDocument) (purpose : VerificationPurpose)
    (ref_ : string) (w : World) : AjnaDocument * World :=
  let or_set := default orset_new (doc_purpose d purpose) in
  let '(_, or_set, w) := orset_add or_set ref_ w in
  (set_purpose purpose (Some or_set) d, w).

Section with_order.
Context `{HashOrder}.

(** [src/did/src/ajna/document.rs:343-349] AjnaDocument::get_verification_method *)
Definition doc_get_verification_method (d : AjnaDocument) (method_id : string)
    : option VerificationMethod :=
  snd <$> list_find (λ m, vm_id m = method_id) (orset_elements (doc_verification_methods d)).

(** [src/did/src/ajna/document.rs:351-362] AjnaDocument::get_verification_methods_by_purpose *)
Definition doc_get_verification_methods_by_purpose (d : AjnaDocument) (purpose : string)
    : list VerificationMethod :=
  filter (λ m, is_Some (vm_purpose m) ∧ purpose ∈ default [] (vm_purpose m))
    (orset_elements (doc_verification_methods d)).

(** [src/did/src/ajna/document.rs:369-380] AjnaDocument::get_services_by_type *)
Definition doc_get_services_by_type (d : AjnaDocument) (service_type : string) : list Service :=
  default [] ((λ s, filter (λ svc, svc_type svc = service_type) (lww_values s)) <$> doc_service d).

(** [src/did/src/ajna/document.rs:483-491] AjnaDocument::apply_delta_v2 (removal of the first method with the given id) *)
Definition vms_remove_by_id (vms : ORSet VerificationMethod) (id : string) : ORSet VerificationMethod :=
  match list_find (λ m, vm_id m = id) (orset_elements vms) with
  | Some (_, method) => orset_remove vms method
  | None => vms
  end.

(** [src/did/src/ajna/document.rs:287-299] AjnaDocument::remove_verification_method *)
Definition doc_remove_verification_method (d : AjnaDocument) (method_id : string)
    (w : World) : AjnaDocument * World :=
  let d := set_verification_methods (vms_remove_by_id (doc_verification_methods d) method_id) d in
  doc_touch (doc_tick d (doc_node_id d)) w.

(** [src/did/src/ajna/document.rs:563-584] AjnaDocument::remove_purpose_ref *)
Definition doc_remove_purpose_ref (d : AjnaDocument) (purpose : VerificationPurpose)
    (ref_ : string) : AjnaDocument :=
  match doc_purpose d purpose with
  | Some or_set => set_purpose purpose (Some (orset_remove or_set ref_)) d
  | None => d
  end.

(** [src/did/src/ajna/document.rs:454-466] AjnaDocument::merge (the anchor with the greater block number) *)
Definition anchor_merge (self other : option BlockchainAnchor) : option BlockchainAnchor :=
  match other with
  | Some other_anchor =>
      match self with
      | Some self_anchor =>
          if (ba_block_number self_anchor <? ba_block_number other_anchor)%N
          then Some other_anchor else self
      | None => Some other_anchor
      end
  | None => self
  end.

(** [src/did/src/ajna/document.rs:382-469] AjnaDocument::merge *)
Definition doc_merge (self other : AjnaDocument) : Result AjnaDocument :=
  if decide (doc_id self = doc_id other) then
    Ok (mkDoc (doc_id self)
      (orset_merge (doc_verification_methods self) (doc_verification_methods other))
      (opt_merge (doc_authentication self) (doc_authentication other))
      (opt_merge (doc_assertion_method self) (doc_assertion_method other))
      (opt_merge (doc_key_agreement self) (doc_key_agreement other))
      (opt_merge (doc_capability_invocation self) (doc_capability_invocation other))
      (opt_merge (doc_capability_delegation self) (doc_capability_delegation other))
      (opt_merge (doc_controller self) (doc_controller other))
      (opt_merge (doc_service self) (doc_service other))
      (opt_merge (doc_policy self) (doc_policy other))
      (if decide (doc_deactivated other = Some true) then Some true else doc_deactivated self)
      (vc_merge (doc_vector_clock self) (doc_vector_clock other))
      (if (doc_created other <? doc_created self)%Z then doc_created other else doc_created self)
      (if (doc_updated self <? doc_updated other)%Z then doc_updated other else doc_updated self)
      (doc_node_id self)
      (anchor_merge (doc_blockchain_anchor self) (doc_blockchain_anchor other)))
  else Err (InvalidOperation "Cannot merge documents with different DIDs").

Context `{Chrono}.

(** [src/did/src/ajna/document.rs:473-533] AjnaDocument::apply_delta_v2 *)
Definition doc_apply_delta_v2 (d : AjnaDocument) (delta : Delta) (w : World)
    : Result (AjnaDocument * World) :=
  let? '(d, w) :=
    match delta with
    | VmAdd entry =>
        let '(_, vms, w) := orset_add (doc_verification_methods d) entry w in
        Ok (set_verification_methods vms d, w)
    | VmRemove id =>
        Ok (set_verification_methods (vms_remove_by_id (doc_verification_methods d) id) d, w)
    | RefAdd purpose ref_ => Ok (doc_add_purpose_ref d purpose ref_ w)
    | RefRemove purpose ref_ => Ok (doc_remove_purpose_ref d purpose ref_, w)
    | ServiceAdd entry =>
        let service_map := default lww_new (doc_service d) in
        let '(service_map, w) := lww_set service_map (svc_id entry) entry (doc_node_id d) w in
        Ok (set_service (Some service_map) d, w)
    | ServiceRemove id =>
        match doc_service d with
        | Some service_map =>
            let '(service_map, w) := lww_remove service_map id (doc_node_id d) w in
            Ok (set_service (Some service_map) d, w)
        | None => Ok (d, w)
        end
    | PropSet key value ts =>
        let policy_map := default lww_new (doc_policy d) in
        match timestamp_millis_opt (u64_as_i64 ts) with
        | Some t => Ok (set_policy (Some (lww_set_with_timestamp policy_map key value t (doc_node_id d))) d, w)
        | None => Panic
        end
    | ControllerAdd did =>
        let '(_, controllers, w) := orset_add (default orset_new (doc_controller d)) did w in
        Ok (set_controller (Some controllers) d, w)
    | ControllerRemove did =>
        match doc_controller d with
        | Some controllers => Ok (set_controller (Some (orset_remove controllers did)) d, w)
        | None => Ok (d, w)
        end
    | Deactivate _ => Ok (set_deactivated (Some true) d, w)
    end in
  Ok (doc_touch d w).

(** [src/did/src/ajna/operations.rs:109-141] CRDTOperation::apply *)
Definition op_apply (op : CRDTOperation) (document : AjnaDocument) (w : World) : AjnaDocument * World :=
  let document := doc_tick document (op_node_id op) in
  let '(document, w) :=
    match op with
    | AddVerificationMethod method _ _ =>
        let '(_, d, w) := doc_add_verification_method document method w in (d, w)
    | RemoveVerificationMethod method_id _ _ _ => doc_remove_verification_method document method_id w
    | SetService service timestamp node_id =>
        doc_set_service_with_timestamp document service timestamp node_id w
    | RemoveService service_id timestamp node_id =>
        doc_remove_service_with_timestamp document service_id timestamp node_id w
    end in
  doc_touch document w.

(** [src/did/src/ajna/document.rs:655-664] AjnaDocument::has_updates_since *)
Definition doc_has_updates_since (d other : AjnaDocument) : bool :=
  existsb (λ node, (vc_get (doc_vector_clock other) node <? vc_get (doc_vector_clock d) node)%N)
    (vc_node_ids (doc_vector_clock d)).

(** [src/did/src/ajna/document.rs:666-669] AjnaDocument::total_updates *)
Definition doc_total_updates (d : AjnaDocument) : N := vc_total_events (doc_vector_clock d).

(** [src/did/src/ajna/document.rs:819-826] AjnaDocument::eq *)
Definition doc_eq (a b : AjnaDocument) : Prop :=
  doc_id a = doc_id b ∧ doc_verification_methods a = doc_verification_methods b ∧
  doc_service a = doc_service b ∧ doc_vector_clock a = doc_vector_clock b.

(** A verification method and a service as the derived [Serialize] writes them. *)
Definition vm_to_json (m : VerificationMethod) : Json :=
  JObject ([("id", JString (vm_id m)); ("type", JString (vm_type m));
            ("controller", JString (vm_controller m));
            ("publicKeyMultibase", JString (vm_public_key_multibase m))] ++
           match vm_purpose m with
           | Some ps => [("purpose", JArray (JString <$> ps))]
           | None => []
           end).
Definition svc_to_json (s : Service) : Json :=
  JObject ([("id", JString (svc_id s)); ("type", JString (svc_type s));
            ("serviceEndpoint", JString (svc_endpoint s))] ++ map_iter (svc_properties s)).

(** [src/did/src/ajna/document.rs:609-653] AjnaDocument::to_did_document *)
Definition doc_to_did_document (d : AjnaDocument) : Json :=
  let ids purpose := vm_id <$> doc_get_verification_methods_by_purpose d purpose in
  let entry key purpose :=
    match ids purpose with [] => [] | l => [(key, JArray (JString <$> l))] end in
  JObject ([("@context", JArray [JString "https://www.w3.org/ns/did/v1";
                                 JString "https://w3id.org/security/suites/ed25519-2020/v1"]);
            ("id", JString (doc_id d));
            ("verificationMethod", JArray (vm_to_json <$> orset_elements (doc_verification_methods d)));
            ("service", JArray (svc_to_json <$> default [] (lww_values <$> doc_service d)))] ++
           entry "authentication" "authentication" ++
           entry "assertionMethod" "assertionMethod" ++
           entry "keyAgreement" "keyAgreement").

(** [src/did/src/ajna/document.rs:690-713] AjnaDocument::from_did_core (the purposes of a verification method) *)
Definition core_relates (rels : list VerificationRelationship) (vid : string) : bool :=
  existsb (λ rel,
    match rel with
    | Reference id => str_contains id vid || str_ends_with vid id
    | Embedded _ => false
    end) rels.
Definition core_purposes (doc : DidDocument) (vid : string) : list string :=
  (if core_relates (dd_authentication doc) vid then ["authentication"] else []) ++
  (if core_relates (dd_key_agreement doc) vid then ["keyAgreement"] else []) ++
  (if core_relates (dd_assertion_method doc) vid then ["assertionMethod"] else []).

(** [src/did/src/ajna/document.rs:715-732] AjnaDocument::from_did_core (one verification method) *)
Definition core_vm (doc : DidDocument) (vm : CoreVerificationMethod) : VerificationMethod :=
  let public_key :=
    default (default "" (cvm_public_key_base58 vm)) (cvm_public_key_multibase vm) in
  mkVM (cvm_id vm) (cvm_type vm) (cvm_controller vm) public_key
    (match core_purposes doc (cvm_id vm) with [] => None | ps => Some ps end).

(** [src/did/src/ajna/document.rs:739-757] AjnaDocument::from_did_core (one service) *)
Definition core_service (svc : CoreService) : Service :=
  let endpoint :=
    match csvc_endpoint svc with
    | JString s => s
    | JObject l => default "" (json_get "uri" (JObject l) ≫= json_as_str)
    | _ => ""
    end in
  mkService (csvc_id svc) (csvc_type svc) endpoint ∅.

(** [src/did/src/ajna/document.rs:767-799] AjnaDocument::from_did_core (the references of one relationship) *)
Definition core_refs (rels : list VerificationRelationship) (w : World)
    : option (ORSet string) * World :=
  match rels with
  | [] => (None, w)
  | _ =>
      let '(set, w) :=
        foldl (λ '(set, w) rel,
          match rel with
          | Reference id => let '(_, set, w) := orset_add set id w in (set, w)
          | Embedded _ => (set, w)
          end) (orset_new, w) rels in
      (Some set, w)
  end.

(** [src/did/src/ajna/document.rs:676-816] AjnaDocument::from_did_core *)
Definition doc_from_did_core (doc : DidDocument) (w : World) : AjnaDocument * World :=
  let node_id := dd_id doc in
  let '(verification_methods, w) :=
    foldl (λ '(vms, w) vm, let '(_, vms, w) := orset_add vms (core_vm doc vm) w in (vms, w))
      (orset_new, w) (dd_verification_method doc) in
  let '(service_map, w) :=
    foldl (λ '(sm, w) svc, lww_set sm (csvc_id svc) (core_service svc) node_id w)
      (lww_new, w) (dd_service doc) in
  let '(now, w) := utc_now w in
  let '(authentication, w) := core_refs (dd_authentication doc) w in
  let '(assertion_method, w) := core_refs (dd_assertion_method doc) w in
  let '(key_agreement, w) := core_refs (dd_key_agreement doc) w in
  (mkDoc (dd_id doc) verification_methods authentication assertion_method key_agreement
     None None None
     (match dd_service doc with [] => None | _ => Some service_map end)
     None None vc_new now now node_id None, w).
End with_order.

(** * The document as a join of its parts *)

Section merge.
Context `{HashOrder}.
Implicit Types (a b c d : AjnaDocument).

(** The invariant of a document: every OR-Set in it keeps its own. *)
Record doc_ok d : Prop := {
  ok_vms : orset_ok (doc_verification_methods d);
  ok_purposes purpose : opt_ok (doc_purpose d purpose);
  ok_controller : opt_ok (doc_controller d)
}.

(** Two anchors at the same block are the same anchor. *)
Definition anchor_compat (x y : option BlockchainAnchor) : Prop :=
  match x, y with
  | Some p, Some q => ba_block_number p = ba_block_number q → p = q
  | _, _ => True
  end.

(** Two replicas of a document hold no two different writes with one stamp. *)
Record doc_compat a b : Prop := {
  compat_service : opt_compat (doc_service a) (doc_service b);
  compat_policy : opt_compat (doc_policy a) (doc_policy b);
  compat_anchor : anchor_compat (doc_blockchain_anchor a) (doc_blockchain_anchor b)
}.

(** Equality of what replication is about: everything but the local node id, an
    absent [deactivated] flag reading as [false]. *)
Record doc_equiv a b : Prop := {
  eqv_id : doc_id a = doc_id b;
  eqv_vms : doc_verification_methods a = doc_verification_methods b;
  eqv_purposes purpose : doc_purpose a purpose = doc_purpose b purpose;
  eqv_controller : doc_controller a = doc_controller b;
  eqv_service : doc_service a = doc_service b;
  eqv_policy : doc_policy a = doc_policy b;
  eqv_deactivated : doc_is_deactivated a = doc_is_deactivated b;
  eqv_clock : doc_vector_clock a = doc_vector_clock b;
  eqv_created : doc_created a = doc_created b;
  eqv_updated : doc_updated a = doc_updated b;
  eqv_anchor : doc_blockchain_anchor a = doc_blockchain_anchor b
}.

#[export] Instance doc_equiv_equivalence : Equivalence doc_equiv.
Proof.
  split.
  - by intros a.
  - by intros a b []; split.
  - intros a b c [] []; split; intros; etrans; eauto.
Qed.

(** The same relation on results: equal errors, equivalent documents. *)
Definition res_equiv (x y : Result AjnaDocument) : Prop :=
  match x, y with
  | Ok a, Ok b => doc_equiv a b
  | Err e, Err e' => e = e'
  | Panic, Panic => True
  | _, _ => False
  end.

Lemma anchor_merge_comm x y : anchor_compat x y → anchor_merge x y = anchor_merge y x.
Proof.
  destruct x as [x|], y as [y|]; cbn; try done. intros Hc.
  destruct (N.ltb_spec (ba_block_number x) (ba_block_number y)),
    (N.ltb_spec (ba_block_number y) (ba_block_number x)); try done; try lia.
  f_equal. apply Hc. lia.
Qed.

Lemma anchor_merge_assoc x y z :
  anchor_merge x (anchor_merge y z) = anchor_merge (anchor_merge x y) z.
Proof.
  destruct x as [x|], y as [y|], z as [z|]; cbn; try done.
  all: repeat match goal with
    | |- context [(?m <? ?n)%N] => destruct (N.ltb_spec m n); cbn; try done; try lia
    end.
Qed.

Lemma anchor_merge_idem x : anchor_merge x x = x.
Proof. destruct x; cbn; [|done]. by case_match. Qed.

(** The fields of a successful merge. *)
Lemma doc_merge_inv a b c :
  doc_merge a b = Ok c →
  doc_id a = doc_id b ∧ doc_id c = doc_id a ∧
  doc_verification_methods c = orset_merge (doc_verification_methods a) (doc_verification_methods b) ∧
  (∀ purpose, doc_purpose c purpose = opt_merge (doc_purpose a purpose) (doc_purpose b purpose)) ∧
  doc_controller c = opt_merge (doc_controller a) (doc_controller b) ∧
  doc_service c = opt_merge (doc_service a) (doc_service b) ∧
  doc_policy c = opt_merge (doc_policy a) (doc_policy b) ∧
  doc_is_deactivated c = doc_is_deactivated a || doc_is_deactivated b ∧
  doc_vector_clock c = vc_merge (doc_vector_clock a) (doc_vector_clock b) ∧
  doc_created c = (doc_created a `min` doc_created b)%Z ∧
  doc_updated c = (doc_updated a `max` doc_updated b)%Z ∧
  doc_blockchain_anchor c = anchor_merge (doc_blockchain_anchor a) (doc_blockchain_anchor b) ∧
  doc_node_id c = doc_node_id a.
Proof.
  unfold doc_merge. case_decide as Hid; [|done]. intros [= <-]. cbn.
  assert (∀ x y : Z, (if (y <? x)%Z then y else x) = (x `min` y)%Z) as Hmin.
  { intros x y. destruct (Z.ltb_spec y x); lia. }
  assert (∀ x y : Z, (if (x <? y)%Z then y else x) = (x `max` y)%Z) as Hmax.
  { intros x y. destruct (Z.ltb_spec x y); lia. }
  rewrite Hmin, Hmax. split_and!; try done; [by intros []|].
  unfold doc_is_deactivated; cbn.
  destruct (doc_deactivated a) as [[]|], (doc_deactivated b) as [[]|]; by cbn.
Qed.

Lemma doc_merge_ok_iff a b : (∃ c, doc_merge a b = Ok c) ↔ doc_id a = doc_id b.
Proof. unfold doc_merge. case_decide; naive_solver. Qed.

Lemma doc_merge_preserves_ok a b c : doc_ok a → doc_ok b → doc_merge a b = Ok c → doc_ok c.
Proof.
  intros [] [] (_&_&Hv&Hp&Hc&_)%doc_merge_inv. split.
  - rewrite Hv. apply orset_merge_ok.
  - intros purpose. rewrite Hp. auto with idiom.
  - rewrite Hc. auto with idiom.
Qed.

Lemma doc_merge_comm a b :
  doc_ok a → doc_ok b → doc_compat a b → res_equiv (doc_merge a b) (doc_merge b a).
Proof.
  intros Ha Hb Hc. destruct (decide (doc_id a = doc_id b)) as [Hid|Hid].
  - destruct (proj2 (doc_merge_ok_iff a b) Hid) as [x Hx],
      (proj2 (doc_merge_ok_iff b a) (eq_sym Hid)) as [y Hy].
    rewrite Hx, Hy. cbn.
    apply doc_merge_inv in Hx as (_&X1&X2&X3&X4&X5&X6&X7&X8&X9&X10&X11&_).
    apply doc_merge_inv in Hy as (_&Y1&Y2&Y3&Y4&Y5&Y6&Y7&Y8&Y9&Y10&Y11&_).
    destruct Ha, Hb, Hc. split; [congruence|..].
    + rewrite X2, Y2. by apply orset_merge_comm.
    + intros purpose. rewrite X3, Y3. auto using opt_merge_comm with idiom.
    + rewrite X4, Y4. auto using opt_merge_comm with idiom.
    + rewrite X5, Y5. auto using opt_merge_comm with idiom.
    + rewrite X6, Y6. auto using opt_merge_comm with idiom.
    + rewrite X7, Y7. apply orb_comm.
    + rewrite X8, Y8. apply vc_merge_comm.
    + lia.
    + lia.
    + rewrite X11, Y11. by apply anchor_merge_comm.
  - unfold doc_merge. rewrite !decide_False by congruence. done.
Qed.

Lemma doc_merge_idem a : doc_ok a → doc_merge a a = Ok a.
Proof.
  intros [Hv Hp Hc]. unfold doc_merge. rewrite decide_True by done.
  pose proof (Hp Authentication). pose proof (Hp AssertionMethod). pose proof (Hp KeyAgreement).
  pose proof (Hp CapabilityInvocation). pose proof (Hp CapabilityDelegation). cbn in *.
  rewrite orset_merge_idem, vc_merge_idem, anchor_merge_idem, !opt_merge_idem, !Z.ltb_irrefl
    by auto with idiom.
  by destruct a as [?????????? [[]|] ?????].
Qed.

Lemma doc_merge_assoc a b c ab bc :
  doc_ok a → doc_ok b → doc_ok c → doc_merge a b = Ok ab → doc_merge b c = Ok bc →
  res_equiv (doc_merge a bc) (doc_merge ab c).
Proof.
  intros Ha Hb Hc Hab Hbc.
  apply doc_merge_inv in Hab as (A0&A1&A2&A3&A4&A5&A6&A7&A8&A9&A10&A11&_).
  apply doc_merge_inv in Hbc as (B0&B1&B2&B3&B4&B5&B6&B7&B8&B9&B10&B11&_).
  destruct (proj2 (doc_merge_ok_iff a bc)) as [x Hx]; [congruence|].
  destruct (proj2 (doc_merge_ok_iff ab c)) as [y Hy]; [congruence|].
  rewrite Hx, Hy. cbn.
  apply doc_merge_inv in Hx as (_&X1&X2&X3&X4&X5&X6&X7&X8&X9&X10&X11&_).
  apply doc_merge_inv in Hy as (_&Y1&Y2&Y3&Y4&Y5&Y6&Y7&Y8&Y9&Y10&Y11&_).
  destruct Ha, Hb, Hc. split; [congruence|..].
  - rewrite X2, Y2, A2, B2. by apply orset_merge_assoc.
  - intros purpose. rewrite X3, Y3, A3, B3. by apply opt_merge_assoc.
  - rewrite X4, Y4, A4, B4. by apply opt_merge_assoc.
  - rewrite X5, Y5, A5, B5. auto using opt_merge_assoc with idiom.
  - rewrite X6, Y6, A6, B6. auto using opt_merge_assoc with idiom.
  - rewrite X7, Y7, A7, B7. apply orb_assoc.
  - rewrite X8, Y8, A8, B8. apply vc_merge_assoc.
  - lia.
  - lia.
  - rewrite X11, Y11, A11, B11. apply anchor_merge_assoc.
Qed.

#[export] Instance doc_merge_proper : Proper (doc_equiv ==> doc_equiv ==> res_equiv) doc_merge.
Proof.
  intros a a' [] b b' []. destruct (decide (doc_id a = doc_id b)) as [Hid|Hid].
  - destruct (proj2 (doc_merge_ok_iff a b)) as [x Hx]; [done|].
    destruct (proj2 (doc_merge_ok_iff a' b')) as [y Hy]; [congruence|].
    rewrite Hx, Hy. cbn.
    apply doc_merge_inv in Hx as (_&X1&X2&X3&X4&X5&X6&X7&X8&X9&X10&X11&_).
    apply doc_merge_inv in Hy as (_&Y1&Y2&Y3&Y4&Y5&Y6&Y7&Y8&Y9&Y10&Y11&_).
    split; try congruence.
  - unfold doc_merge. rewrite !decide_False by congruence. done.
Qed.

(** ** Merging many replicas *)

Lemma lww_compat_sym {V} (x y : LWWMap string V) : lww_compat x y → lww_compat y x.
Proof. intros Hc k p q Hp Hq [? ?]. symmetry. by apply (Hc k). Qed.

Lemma lww_compat_merge {V} (x y z : LWWMap string V) :
  lww_compat x z → lww_compat y z → lww_compat (lww_merge x y) z.
Proof.
  intros Hx Hy k p q Hp Hq Hs. rewrite lww_merge_lookup in Hp.
  destruct (lww_map y !! k) as [e|] eqn:Ey; [|by apply (Hx k)].
  destruct (lww_map x !! k) as [e'|] eqn:Ex; cbn in Hp.
  - destruct (lwe_wins_over e e'); simplify_eq; [by apply (Hy k)|by apply (Hx k)].
  - simplify_eq. by apply (Hy k).
Qed.

Lemma lww_opt_compat_merge {V} (x y z : option (LWWMap string V)) :
  opt_compat x z → opt_compat y z → opt_compat (opt_merge x y) z.
Proof.
  destruct y as [y|]; [|done]. destruct z as [z|]; [|done]. cbn.
  destruct x as [x|]; cbn; intros Hx Hy; by apply lww_compat_merge.
Qed.

Lemma doc_compat_sym a b : doc_compat a b → doc_compat b a.
Proof.
  intros [Hs Hp Ha]. split.
  - revert Hs. destruct (doc_service a), (doc_service b); cbn; eauto using lww_compat_sym.
  - revert Hp. destruct (doc_policy a), (doc_policy b); cbn; eauto using lww_compat_sym.
  - revert Ha. destruct (doc_blockchain_anchor a), (doc_blockchain_anchor b); cbn; try done.
    intros Ha Heq. symmetry. by apply Ha.
Qed.

Lemma doc_compat_refl a : doc_compat a a.
Proof.
  split.
  - destruct (doc_service a); [|done]. intros k p q Hp Hq _. congruence.
  - destruct (doc_policy a); [|done]. intros k p q Hp Hq _. congruence.
  - by destruct (doc_blockchain_anchor a).
Qed.

Lemma doc_compat_merge a b c z :
  doc_compat a z → doc_compat b z → doc_merge a b = Ok c → doc_compat c z.
Proof.
  intros [Hs Hp Ha] [Hs' Hp' Ha'] (_&_&_&_&_&Es&Ep&_&_&_&_&Ea&_)%doc_merge_inv. split.
  - rewrite Es. by apply lww_opt_compat_merge.
  - rewrite Ep. by apply lww_opt_compat_merge.
  - rewrite Ea. revert Ha Ha'.
    destruct (doc_blockchain_anchor a), (doc_blockchain_anchor b); cbn; try done.
    intros Ha Ha'. by match goal with |- context [(?m <? ?n)%N] => destruct (m <? n)%N end.
Qed.

(** Successive merges of other replicas into a document. *)
Definition doc_merge_all (r : Result AjnaDocument) (others : list AjnaDocument) : Result AjnaDocument :=
  foldl (λ acc o, let? d := acc in doc_merge d o) r others.

Lemma doc_merge_all_not_ok r ds : is_ok r = false → doc_merge_all r ds = r.
Proof. intros Hr. induction ds as [|d ds IH]; [done|]. by destruct r. Qed.

Lemma doc_merge_all_proper r r' ds : res_equiv r r' → res_equiv (doc_merge_all r ds) (doc_merge_all r' ds).
Proof.
  revert r r'. induction ds as [|d ds IH]; intros r r' Hr; [done|]. cbn. apply IH.
  destruct r, r'; try done. cbn. by apply doc_merge_proper.
Qed.

(** Replica states that can be merged with one another. *)
Definition replicas_ok (ds : list AjnaDocument) : Prop :=
  (∀ a, a ∈ ds → doc_ok a) ∧
  (∀ a b, a ∈ ds → b ∈ ds → doc_id a = doc_id b ∧ doc_compat a b).

Lemma replicas_ok_cons_merge a b c ds :
  replicas_ok (a :: b :: ds) → doc_merge a b = Ok c → replicas_ok (c :: ds).
Proof.
  intros [Hok Hc] Hm. pose proof Hm as (_&Hid&_)%doc_merge_inv.
  assert (∀ x, x ∈ ds → doc_id c = doc_id x ∧ doc_compat c x) as Hcx.
  { intros x Hx. destruct (Hc a x) as [Hi Hax]; [set_solver..|].
    destruct (Hc b x) as [_ Hbx]; [set_solver..|]. split; [congruence|].
    by eapply (doc_compat_merge a b). }
  split.
  - intros x [->|Hx]%elem_of_cons; [|apply Hok; set_solver].
    by apply (doc_merge_preserves_ok a b); [apply Hok; set_solver..|].
  - intros x y [->|Hx]%elem_of_cons [->|Hy]%elem_of_cons.
    + split; [done|apply doc_compat_refl].
    + by apply Hcx.
    + destruct (Hcx x Hx). split; [done|by apply doc_compat_sym].
    + apply Hc; set_solver.
Qed.

Lemma replicas_ok_perm l l' : l ≡ₚ l' → replicas_ok l → replicas_ok l'.
Proof. intros Hp [Hok Hc]. split; setoid_rewrite <- Hp; done. Qed.

Lemma doc_merge_swap d x y ds :
  replicas_ok (d :: x :: y :: ds) →
  res_equiv (doc_merge_all (Ok d) [x; y]) (doc_merge_all (Ok d) [y; x]).
Proof.
  intros [Hok Hc]. cbn.
  assert (doc_ok d ∧ doc_ok x ∧ doc_ok y) as (Hd&Hx&Hy) by (split_and!; apply Hok; set_solver).
  destruct (Hc d x) as [Hdx _]; [set_solver..|]. destruct (Hc d y) as [Hdy _]; [set_solver..|].
  destruct (Hc x y) as [Hxy Hcxy]; [set_solver..|].
  destruct (proj2 (doc_merge_ok_iff d x) Hdx) as [dx Edx], (proj2 (doc_merge_ok_iff d y) Hdy) as [dy Edy].
  destruct (proj2 (doc_merge_ok_iff x y) Hxy) as [xy Exy],
    (proj2 (doc_merge_ok_iff y x) (eq_sym Hxy)) as [yx Eyx].
  rewrite Edx, Edy. pose proof (doc_merge_assoc d x y dx xy Hd Hx Hy Edx Exy) as H1.
  pose proof (doc_merge_assoc d y x dy yx Hd Hy Hx Edy Eyx) as H2.
  pose proof (doc_merge_comm x y Hx Hy Hcxy) as Hcomm. rewrite Exy, Eyx in Hcomm.
  pose proof (doc_merge_proper d d (reflexivity d) xy yx Hcomm) as Hp.
  destruct (doc_merge d xy), (doc_merge d yx), (doc_merge dx y), (doc_merge dy x);
    cbn in *; try done; try congruence.
  etrans; [symmetry; exact H1|]. etrans; [exact Hp|exact H2].
Qed.

Lemma res_equiv_trans x y z : res_equiv x y → res_equiv y z → res_equiv x z.
Proof. destruct x, y, z; cbn; try done; intros; etrans; eauto. Qed.

Lemma doc_merge_all_perm ds ds' d :
  ds ≡ₚ ds' → replicas_ok (d :: ds) →
  res_equiv (doc_merge_all (Ok d) ds) (doc_merge_all (Ok d) ds').
Proof.
  intros Hp. revert d. induction Hp as [|x l l' Hp IH|x y l|l l' l'' H1 IH1 H2 IH2]; intros d Hr.
  - done.
  - cbn. destruct (doc_merge d x) as [c| |] eqn:E.
    + apply IH. by eapply (replicas_ok_cons_merge d x).
    + by rewrite !doc_merge_all_not_ok.
    + by rewrite !doc_merge_all_not_ok.
  - change (res_equiv (doc_merge_all (doc_merge_all (Ok d) [y; x]) l)
                      (doc_merge_all (doc_merge_all (Ok d) [x; y]) l)).
    apply doc_merge_all_proper. by eapply doc_merge_swap.
  - eapply res_equiv_trans; [by apply IH1|]. apply IH2.
    eapply replicas_ok_perm; [|done]. by rewrite H1.
Qed.
End merge.

(** * The application of deltas *)

Section apply.
Context `{HashOrder} `{Chrono}.
Implicit Types (d : AjnaDocument) (w : World).

Lemma doc_purpose_set p q s d : doc_purpose (set_purpose p s d) q = if decide (q = p) then s else doc_purpose d q.
Proof. by destruct p, q. Qed.

Lemma doc_purpose_set_other p s d :
  doc_verification_methods (set_purpose p s d) = doc_verification_methods d ∧
  doc_controller (set_purpose p s d) = doc_controller d ∧
  doc_service (set_purpose p s d) = doc_service d ∧ doc_policy (set_purpose p s d) = doc_policy d ∧
  doc_id (set_purpose p s d) = doc_id d ∧ doc_node_id (set_purpose p s d) = doc_node_id d ∧
  doc_deactivated (set_purpose p s d) = doc_deactivated d ∧
  doc_vector_clock (set_purpose p s d) = doc_vector_clock d.
Proof. by destruct p. Qed.

(** No OR-Set of the document has a tombstone for the UUID. *)
Record doc_fresh d (u : Uuid) : Prop := {
  fresh_vms m : (m, u) ∉ os_tombstones (doc_verification_methods d);
  fresh_purposes p e : (e, u) ∉ from_option os_tombstones ∅ (doc_purpose d p);
  fresh_controller e : (e, u) ∉ from_option os_tombstones ∅ (doc_controller d)
}.

Lemma orset_add_ok {T} `{Countable T} (s s' : ORSet T) e w u w' :
  orset_ok s → (e, w_uuid w (w_un w)) ∉ os_tombstones s → orset_add s e w = (u, s', w') → orset_ok s'.
Proof.
  intros Hok Hf Hadd. pose proof (orset_add_spec s e w) as Hs. rewrite Hadd in Hs.
  destruct Hs as (->&_&_&Hs). by apply Hs.
Qed.

Lemma orset_opt_add_ok {T} `{Countable T} (o : option (ORSet T)) s' e w u w' :
  opt_ok o → (e, w_uuid w (w_un w)) ∉ from_option os_tombstones ∅ o →
  orset_add (default orset_new o) e w = (u, s', w') → orset_ok s'.
Proof.
  intros Hok Hf. apply orset_add_ok.
  - destruct o; [done|apply orset_new_ok].
  - by destruct o.
Qed.

Lemma vms_remove_by_id_ok vms id : orset_ok vms → orset_ok (vms_remove_by_id vms id).
Proof. unfold vms_remove_by_id. case_match; [|done]. case_match. apply orset_remove_ok. Qed.

Lemma doc_touch_fields d w :
  let '(d', w') := doc_touch d w in
  doc_id d' = doc_id d ∧ doc_node_id d' = doc_node_id d ∧ doc_verification_methods d' = doc_verification_methods d ∧
  (∀ p, doc_purpose d' p = doc_purpose d p) ∧ doc_controller d' = doc_controller d ∧
  doc_service d' = doc_service d ∧ doc_policy d' = doc_policy d ∧ doc_deactivated d' = doc_deactivated d ∧
  doc_vector_clock d' = doc_vector_clock d.
Proof. cbn. split_and!; done. Qed.

(** Whether a purpose references a verification method. *)
Definition doc_refs d (purpose : VerificationPurpose) (ref_ : string) : bool :=
  default false ((λ s, orset_contains s ref_) <$> doc_purpose d purpose).

Lemma orset_opt_add_contains {T} `{Countable T} (o : option (ORSet T)) e w e' :
  orset_contains (orset_add (default orset_new o) e w).1.2 e' =
    default false ((λ s, orset_contains s e') <$> o) || bool_decide (e' = e).
Proof. rewrite orset_add_contains. destruct o; [done|]. cbn. by rewrite orset_new_contains. Qed.

(** The entry of a key in an optional LWW-Map. *)
Definition lww_opt_entry {V} (o : option (LWWMap string V)) (key : string) : option (LWWEntry V) :=
  lww_get_entry (default lww_new o) key.

Lemma lww_opt_set_entry {V} (o : option (LWWMap string V)) k e j :
  lww_opt_entry (Some (lww_set_entry (default lww_new o) k e)) j =
    if decide (j = k) then Some (lwe_pick (lww_opt_entry o j) e) else lww_opt_entry o j.
Proof. apply lww_set_entry_lookup. Qed.

Lemma doc_add_purpose_ref_effect d p r w :
  let d' := (doc_add_purpose_ref d p r w).1 in
  (∀ q r', doc_refs d' q r' = doc_refs d q r' || bool_decide (q = p ∧ r' = r)) ∧
  (doc_ok d → doc_fresh d (w_uuid w (w_un w)) → doc_ok d').
Proof.
  unfold doc_add_purpose_ref. pose proof (orset_opt_add_contains (doc_purpose d p) r w) as Hadd.
  destruct (orset_add _ _ _) as [[u s] w2] eqn:E. cbn in *. split.
  - intros q r'. unfold doc_refs. rewrite doc_purpose_set. destruct (decide (q = p)) as [->|Hne]; cbn.
    + rewrite Hadd. f_equal. apply bool_decide_ext. naive_solver.
    + by rewrite bool_decide_false, orb_false_r by naive_solver.
  - intros [Hv Hp Hc] [_ Hf _]. destruct (doc_purpose_set_other p (Some s) d) as (E1&E2&_).
    split; rewrite ?E1, ?E2; try done. intros q. rewrite doc_purpose_set. case_decide; [|done].
    eapply orset_opt_add_ok; [apply (Hp p)|apply Hf|exact E].
Qed.

Lemma doc_remove_purpose_ref_effect d p r :
  let d' := doc_remove_purpose_ref d p r in
  (∀ q r', doc_refs d' q r' = doc_refs d q r' && negb (bool_decide (q = p ∧ r' = r))) ∧
  (doc_ok d → doc_ok d').
Proof.
  unfold doc_remove_purpose_ref. destruct (doc_purpose d p) as [s|] eqn:Hs; cbn; split.
  - intros q r'. unfold doc_refs. rewrite doc_purpose_set. destruct (decide (q = p)) as [->|Hne]; cbn.
    + rewrite Hs, orset_remove_contains. cbn. do 2 f_equal. apply bool_decide_ext. naive_solver.
    + by rewrite bool_decide_false, andb_true_r by naive_solver.
  - intros [Hv Hp Hc]. destruct (doc_purpose_set_other p (Some (orset_remove s r)) d) as (E1&E2&_).
    split; rewrite ?E1, ?E2; try done. intros q. rewrite doc_purpose_set. case_decide; [|done].
    apply orset_remove_ok. specialize (Hp p). by rewrite Hs in Hp.
  - intros q r'. unfold doc_refs. destruct (decide (q = p)) as [->|Hne].
    + by rewrite Hs.
    + by rewrite bool_decide_false, andb_true_r by naive_solver.
  - done.
Qed.

Lemma doc_remove_purpose_ref_other d p r :
  let d' := doc_remove_purpose_ref d p r in
  doc_id d' = doc_id d ∧ doc_vector_clock d' = doc_vector_clock d ∧
  doc_deactivated d' = doc_deactivated d.
Proof. unfold doc_remove_purpose_ref. destruct (doc_purpose d p); [|done]. by destruct p. Qed.

(** The number of verification methods that carry an id. *)
Definition vms_count (vms : ORSet VerificationMethod) (id : string) : nat :=
  length (filter (λ m, vm_id m = id) (orset_elements vms)).

Lemma orset_elements_remove {T} `{Countable T} (s : ORSet T) e :
  e ∈ orset_elements s → orset_elements s ≡ₚ e :: orset_elements (orset_remove s e).
Proof.
  rewrite elem_of_orset_elements. unfold orset_contains. rewrite bool_decide_eq_true. intros [us Hus].
  unfold orset_elements, orset_remove. rewrite Hus. cbn. rewrite !map_iter_perm.
  rewrite <- (insert_delete_id _ _ _ Hus) at 1.
  by rewrite map_to_list_insert by apply lookup_delete_eq.
Qed.

Lemma vms_remove_by_id_count vms id id' :
  vms_count (vms_remove_by_id vms id) id' =
    if decide (id' = id) then pred (vms_count vms id) else vms_count vms id'.
Proof.
  unfold vms_remove_by_id, vms_count.
  destruct (list_find _ _) as [[i m]|] eqn:E.
  - apply list_find_Some in E as (Hl & Hm & _). apply list_elem_of_lookup_2 in Hl.
    pose proof (orset_elements_remove vms m Hl) as Hp.
    case_decide as Hid; rewrite Hp, filter_cons.
    + subst id'. by rewrite decide_True.
    + by rewrite decide_False by congruence.
  - apply list_find_None in E. case_decide; [|done]. subst id'.
    destruct (filter _ _) as [|m l] eqn:Ef; [done|]. exfalso.
    assert (m ∈ filter (λ m, vm_id m = id) (orset_elements vms)) as Hm by (rewrite Ef; left).
    apply list_elem_of_filter in Hm as [Hm Hin]. rewrite Forall_forall in E. by apply (E m).
Qed.
End apply.

(** What no change of a document touches. *)
Section keeps.
Context `{HashOrder} `{Chrono}.

Lemma doc_apply_delta_keeps d delta w d' w' :
  doc_apply_delta_v2 d delta w = Ok (d', w') →
  doc_id d' = doc_id d ∧ (doc_is_deactivated d = true → doc_is_deactivated d' = true).
Proof.
  unfold doc_apply_delta_v2, doc_is_deactivated. destruct delta as [m|id|p r|p r|e|id|key v ts|c|c|reason].
  - destruct (orset_add _ _ _) as [[? ?] ?]. by intros [= <- _].
  - by intros [= <- _].
  - unfold doc_add_purpose_ref. destruct (orset_add _ _ _) as [[? ?] ?]. intros [= <- _]. by destruct p.
  - unfold doc_remove_purpose_ref. intros [= <- _]. by destruct p; cbn; case_match.
  - destruct (lww_set _ _ _ _ _) as [? ?]. by intros [= <- _].
  - destruct (doc_service d); [destruct (lww_remove _ _ _ _) as [? ?]|]; by intros [= <- _].
  - destruct (timestamp_millis_opt _); [|done]. by intros [= <- _].
  - destruct (orset_add _ _ _) as [[? ?] ?]. by intros [= <- _].
  - destruct (doc_controller d); by intros [= <- _].
  - by intros [= <- _].
Qed.

Lemma op_apply_keeps op d w :
  doc_id (op_apply op d w).1 = doc_id d ∧ doc_is_deactivated (op_apply op d w).1 = doc_is_deactivated d.
Proof.
  unfold doc_is_deactivated.
  destruct op as [m t n|i m t n|s t n|i t n]; try done. cbn. by destruct (doc_service d).
Qed.

Lemma doc_new_with_genesis_id did node cs p w : doc_id (doc_new_with_genesis did node cs p w).1 = did.
Proof.
  unfold doc_new_with_genesis. cbn. destruct cs as [|c cs]; destruct p as [|kv p]; try done.
  - by destruct (foldl _ _ _) as [? ?].
  - by destruct (foldl _ _ _) as [? ?].
  - destruct (foldl _ _ _) as [? ?]. by destruct (foldl _ _ _) as [? ?].
Qed.

Lemma doc_apply_delta_anchor d delta w d' w' :
  doc_apply_delta_v2 d delta w = Ok (d', w') → doc_blockchain_anchor d' = doc_blockchain_anchor d.
Proof.
  unfold doc_apply_delta_v2. destruct delta as [m|id|p r|p r|e|id|key v ts|c|c|reason].
  - destruct (orset_add _ _ _) as [[? ?] ?]. by intros [= <- _].
  - by intros [= <- _].
  - unfold doc_add_purpose_ref. destruct (orset_add _ _ _) as [[? ?] ?]. intros [= <- _]. by destruct p.
  - unfold doc_remove_purpose_ref. intros [= <- _]. by destruct p; cbn; case_match.
  - destruct (lww_set _ _ _ _ _) as [? ?]. by intros [= <- _].
  - destruct (doc_service d); [destruct (lww_remove _ _ _ _) as [? ?]|]; by intros [= <- _].
  - destruct (timestamp_millis_opt _); [|done]. by intros [= <- _].
  - destruct (orset_add _ _ _) as [[? ?] ?]. by intros [= <- _].
  - destruct (doc_controller d); by intros [= <- _].
  - by intros [= <- _].
Qed.

Lemma op_apply_anchor op d w : doc_blockchain_anchor (op_apply op d w).1 = doc_blockchain_anchor d.
Proof. destruct op as [m t n|i m t n|s t n|i t n]; try done. cbn. by destruct (doc_service d). Qed.

Lemma doc_new_with_genesis_anchor did node cs p w :
  doc_blockchain_anchor (doc_new_with_genesis did node cs p w).1 = None.
Proof.
  unfold doc_new_with_genesis. cbn. destruct cs as [|c cs]; destruct p as [|kv p]; try done.
  - by destruct (foldl _ _ _) as [? ?].
  - by destruct (foldl _ _ _) as [? ?].
  - destruct (foldl _ _ _) as [? ?]. by destruct (foldl _ _ _) as [? ?].
Qed.
End keeps.

Section properties.
Context `{HashOrder}.

(** C1: Document replicas converge: merging the same other replicas into a document
    in any order gives documents that agree on everything but the local node id,
    the merge always succeeds, and merging a replica a second time changes nothing
    (the replicas are of one DID, keep the OR-Set invariant, and hold no two
    different writes with one stamp). *)
Theorem doc_merge_converges (d : AjnaDocument) (ds ds' : list AjnaDocument) :
  ds ≡ₚ ds' → replicas_ok (d :: ds) →
  res_equiv (doc_merge_all (Ok d) ds) (doc_merge_all (Ok d) ds') ∧
  is_ok (doc_merge_all (Ok d) ds) = true ∧
  ∀ x c, x ∈ ds → doc_merge d x = Ok c → res_equiv (doc_merge c x) (Ok c).
Proof.
  intros Hp Hr. split; [by apply doc_merge_all_perm|]. split.
  - clear Hp ds'. revert d Hr. induction ds as [|x ds IH]; intros d Hr; [done|]. cbn.
    destruct Hr as [Hok Hc]. destruct (Hc d x) as [Hid _]; [set_solver..|].
    destruct (proj2 (doc_merge_ok_iff d x) Hid) as [c Hm]. rewrite Hm. apply IH.
    by eapply (replicas_ok_cons_merge d x).
  - intros x c Hx Hm. destruct Hr as [Hok _].
    assert (doc_ok d ∧ doc_ok x) as [Hd Hxok] by (split; apply Hok; set_solver).
    pose proof (doc_merge_idem x Hxok) as Hxx.
    pose proof (doc_merge_assoc d x x c x Hd Hxok Hxok Hm Hxx) as Ha.
    rewrite Hm in Ha. destruct (doc_merge c x); cbn in *; try done.
Qed.

(** What a document merge does, on both branches: documents of different DIDs are
    refused; otherwise a verification method stays exactly if one side holds an
    instance of it that neither side has removed, a deactivation on either side is
    final, and the clock is the least upper bound of both. *)
Theorem doc_merge_outcome (a b : AjnaDocument) :
  doc_ok a → doc_ok b →
  match doc_merge a b with
  | Ok c =>
      doc_id a = doc_id b ∧ doc_id c = doc_id a ∧ doc_ok c ∧
      (∀ m, orset_contains (doc_verification_methods c) m = true ↔
        ∃ u, (orset_live (doc_verification_methods a) m u ∨ orset_live (doc_verification_methods b) m u) ∧
             (m, u) ∉ os_tombstones (doc_verification_methods a) ∪ os_tombstones (doc_verification_methods b)) ∧
      doc_is_deactivated c = doc_is_deactivated a || doc_is_deactivated b ∧
      (∀ n, vc_get (doc_vector_clock c) n =
            (vc_get (doc_vector_clock a) n `max` vc_get (doc_vector_clock b) n)%N)
  | Err e => doc_id a ≠ doc_id b ∧ e = InvalidOperation "Cannot merge documents with different DIDs"
  | Panic => False
  end.
Proof.
  intros Ha Hb. destruct (doc_merge a b) as [c|e|] eqn:E.
  - pose proof (doc_merge_preserves_ok _ _ _ Ha Hb E) as Hc.
    apply doc_merge_inv in E as (H1&H2&H3&_&_&_&_&H7&H8&_). split_and!; try done.
    + intros m. rewrite H3, orset_contains_live by apply orset_merge_ok. by setoid_rewrite orset_merge_live.
    + intros n. by rewrite H8, vc_merge_get.
  - unfold doc_merge in E. case_decide; by simplify_eq.
  - unfold doc_merge in E. by case_decide.
Qed.

Context `{Chrono}.

(** What each delta does to the document it is applied to: the DID, the clock and
    the invariant are kept, the flag [deactivated] changes by [Deactivate] only, and
    the field the delta names changes as stated (removing a verification method by
    id removes one of the methods that carry it; services and policies are LWW
    writes stamped with the local node id). *)
Theorem doc_apply_delta_effect (d d' : AjnaDocument) (delta : Delta) (w w' : World) :
  doc_ok d → doc_fresh d (w_uuid w (w_un w)) → doc_apply_delta_v2 d delta w = Ok (d', w') →
  doc_ok d' ∧ doc_id d' = doc_id d ∧ doc_vector_clock d' = doc_vector_clock d ∧
  (doc_deactivated d' = match delta with Deactivate _ => Some true | _ => doc_deactivated d end) ∧
  match delta with
  | VmAdd m => ∀ m', orset_contains (doc_verification_methods d') m' =
      orset_contains (doc_verification_methods d) m' || bool_decide (m' = m)
  | VmRemove id => ∀ id', vms_count (doc_verification_methods d') id' =
      if decide (id' = id) then pred (vms_count (doc_verification_methods d) id)
      else vms_count (doc_verification_methods d) id'
  | RefAdd p r => ∀ q r', doc_refs d' q r' = doc_refs d q r' || bool_decide (q = p ∧ r' = r)
  | RefRemove p r => ∀ q r', doc_refs d' q r' = doc_refs d q r' && negb (bool_decide (q = p ∧ r' = r))
  | ServiceAdd e => ∀ k, lww_opt_entry (doc_service d') k =
      if decide (k = svc_id e)
      then Some (lwe_pick (lww_opt_entry (doc_service d) k)
                          (lwe_with_timestamp e (w_time w (w_tn w)) (doc_node_id d)))
      else lww_opt_entry (doc_service d) k
  | ServiceRemove id => ∀ k, lww_opt_entry (doc_service d') k =
      if decide (k = id ∧ is_Some (doc_service d))
      then Some (lwe_pick (lww_opt_entry (doc_service d) k)
                          (lwe_tombstone (w_time w (w_tn w)) (doc_node_id d)))
      else lww_opt_entry (doc_service d) k
  | PropSet key v ts => ∀ k, lww_opt_entry (doc_policy d') k =
      if decide (k = key)
      then Some (lwe_pick (lww_opt_entry (doc_policy d) k)
                          (lwe_with_timestamp v (u64_as_i64 ts * 1000000)%Z (doc_node_id d)))
      else lww_opt_entry (doc_policy d) k
  | ControllerAdd c => ∀ c', doc_is_controller d' c' = doc_is_controller d c' || bool_decide (c' = c)
  | ControllerRemove c =>
      ∀ c', doc_is_controller d' c' = doc_is_controller d c' && negb (bool_decide (c' = c))
  | Deactivate _ => doc_is_deactivated d' = true
  end.
Proof.
  intros Hok Hf. unfold doc_apply_delta_v2. destruct delta as [m|id|p r|p r|e|id|key v ts|c|c|reason].
  - pose proof (orset_add_contains (doc_verification_methods d) m w) as Hadd.
    destruct (orset_add _ _ _) as [[u s] w2] eqn:E. intros [= <- <-]. cbn in *. split_and!; try done.
    destruct Hok as [Hv Hp Hc]. split; [|done|done]. eapply orset_add_ok; [exact Hv|apply Hf|exact E].
  - intros [= <- <-]. split_and!; try done; [|apply vms_remove_by_id_count].
    destruct Hok as [Hv Hp Hc]. split; [by apply vms_remove_by_id_ok|done|done].
  - destruct (doc_add_purpose_ref_effect d p r w) as [Hr Hk]. unfold doc_add_purpose_ref in *.
    destruct (orset_add _ _ _) as [[u s] w2]. cbn in *. intros [= <- <-].
    split_and!; [by split; apply Hk|by destruct p..|exact Hr].
  - destruct (doc_remove_purpose_ref_effect d p r) as [Hr Hk].
    destruct (doc_remove_purpose_ref_other d p r) as (E1&E2&E3). intros [= <- <-].
    split_and!; [by split; apply Hk|done..].
  - intros [= <- <-]. split_and!; try done; [by destruct Hok|]. intros k. apply lww_opt_set_entry.
  - destruct (doc_service d) as [sm|] eqn:Es; intros [= <- <-]; (split_and!; [by destruct Hok|done..|]);
      intros k; cbn; rewrite ?Es.
    + rewrite (lww_opt_set_entry (Some sm)). repeat case_decide; naive_solver.
    + by rewrite decide_False by (by intros [_ []]).
  - destruct (timestamp_millis_opt _) as [t|] eqn:Et; [|done]. intros [= <- <-].
    apply timestamp_millis_opt_spec in Et as ->.
    split_and!; try done; [by destruct Hok|]. intros k. apply lww_opt_set_entry.
  - pose proof (orset_opt_add_contains (doc_controller d) c w) as Hadd.
    destruct (orset_add _ _ _) as [[u s] w2] eqn:E. intros [= <- <-]. cbn in *. split_and!; try done.
    destruct Hok as [Hv Hp Hc]. split; [done|done|]. eapply orset_opt_add_ok; [exact Hc|apply Hf|exact E].
  - unfold doc_is_controller. destruct Hok as [Hv Hp Hc].
    destruct (doc_controller d) as [cs|] eqn:Ec; intros [= <- <-].
    + split_and!; try done; [split; [done|done|by apply orset_remove_ok]|]. intros c'. apply orset_remove_contains.
    + split_and!; try done; [by split; cbn; rewrite ?Ec|]. intros c'. cbn. by rewrite Ec.
  - intros [= <- <-]. split_and!; try done. by destruct Hok.
Qed.

(** Applying a delta never returns an error, and panics exactly on a [PropSet] whose
    Lamport time, read as signed milliseconds, is outside the range of [chrono]. *)
Theorem doc_apply_delta_total (d : AjnaDocument) (delta : Delta) (w : World) :
  match doc_apply_delta_v2 d delta w with
  | Ok _ => ∀ key v ts, delta = PropSet key v ts → is_Some (timestamp_millis_opt (u64_as_i64 ts))
  | Err _ => False
  | Panic => ∃ key v ts, delta = PropSet key v ts ∧ timestamp_millis_opt (u64_as_i64 ts) = None
  end.
Proof.
  unfold doc_apply_delta_v2.
  destruct delta as [m|id|p r|p r|e|id|key v ts|c|c|reason]; cbn; try (by intros ???).
  - destruct (doc_service d); by intros ???.
  - destruct (timestamp_millis_opt _) as [t|] eqn:Et.
    + intros ??? [= _ _ <-]. rewrite Et. by exists t.
    + by exists key, v, ts.
  - destruct (doc_controller d); by intros ???.
Qed.

(** Two [PropSet] deltas with different Lamport times commute: applied to a
    document in either order they leave the same policy map. *)
Theorem doc_propset_commutes (d d1 d12 d2 d21 : AjnaDocument) (key : string) (v1 v2 : Json)
    (ts1 ts2 : N) (w w1 w12 w2 w21 : World) :
  u64_as_i64 ts1 ≠ u64_as_i64 ts2 →
  doc_apply_delta_v2 d (PropSet key v1 ts1) w = Ok (d1, w1) →
  doc_apply_delta_v2 d1 (PropSet key v2 ts2) w1 = Ok (d12, w12) →
  doc_apply_delta_v2 d (PropSet key v2 ts2) w = Ok (d2, w2) →
  doc_apply_delta_v2 d2 (PropSet key v1 ts1) w2 = Ok (d21, w21) →
  doc_policy d12 = doc_policy d21.
Proof.
  intros Hne. unfold doc_apply_delta_v2.
  destruct (timestamp_millis_opt (u64_as_i64 ts1)) as [t1|] eqn:E1; [|done].
  destruct (timestamp_millis_opt (u64_as_i64 ts2)) as [t2|] eqn:E2; [|by intros ??].
  apply timestamp_millis_opt_spec in E1 as ->, E2 as ->.
  intros [= <- <-] [= <- <-] [= <- <-] [= <- <-]. cbn. f_equal.
  apply lww_set_entry_comm. intros [Ht _]. cbn in Ht. lia.
Qed.

(** A legacy operation advances the vector clock once for the node that made it,
    and a verification-method operation once more for the local node; with counters
    below the wrap-around the clock only grows. *)
Theorem op_apply_clock (op : CRDTOperation) (d : AjnaDocument) (w : World) :
  let vm_op := match op with
    | AddVerificationMethod _ _ _ | RemoveVerificationMethod _ _ _ _ => true
    | _ => false
    end in
  let clock := vc_increment (doc_vector_clock d) (op_node_id op) in
  doc_vector_clock (op_apply op d w).1 = (if vm_op then vc_increment clock (doc_node_id d) else clock) ∧
  ((∀ n, (vc_get (doc_vector_clock d) n < u64_modulus - 2)%N) →
   vc_lt (doc_vector_clock d) (doc_vector_clock (op_apply op d w).1)).
Proof.
  intros vm_op clock.
  assert (doc_vector_clock (op_apply op d w).1 = (if vm_op then vc_increment clock (doc_node_id d) else clock)) as Hc.
  { destruct op as [m t n|i m t n|s t n|i t n]; try done. cbn. by destruct (doc_service d). }
  split; [done|]. intros Hb. rewrite Hc.
  assert (vc_lt (doc_vector_clock d) clock) as Hlt.
  { apply vc_increment_lt. specialize (Hb (op_node_id op)). lia. }
  destruct vm_op; [|done]. destruct Hlt as [Hle [n Hn]].
  assert (vc_lt clock (vc_increment clock (doc_node_id d))) as [Hle' _].
  { apply vc_increment_lt. unfold clock. rewrite vc_increment_get. case_decide; [|specialize (Hb (doc_node_id d)); lia].
    specialize (Hb (op_node_id op)). unfold add64, wrap64. rewrite N.mod_small; lia. }
  split; [by etrans|]. exists n. specialize (Hle' n). lia.
Qed.
End properties.

(** ** Witnesses and concrete runs *)

Section examples.
#[local] Existing Instance plain_order.
#[local] Existing Instance chrono_range.

Definition ex_key : VerificationMethod :=
  vm_new_slhdsa "did:ajna:x" "key-1" "zA" (Some ["authentication"]).
Definition ex_a : AjnaDocument := (doc_new "did:ajna:x" "node_a" world0).1.
Definition ex_b : AjnaDocument :=
  set_verification_methods (orset_add orset_new ex_key world0).1.2 (doc_new "did:ajna:x" "node_b" world0).1.
Definition ex_c : AjnaDocument := set_deactivated (Some true) (doc_new "did:ajna:x" "node_c" world0).1.

Lemma ex_fresh u : doc_fresh ex_a u.
Proof. split; [intros m|intros [] e|intros e]; cbn; apply not_elem_of_empty. Qed.

Lemma ex_ok d : d ∈ [ex_a; ex_b; ex_c] → doc_ok d.
Proof.
  intros Hd. assert (orset_ok (doc_verification_methods d)) as Hv.
  { rewrite !elem_of_cons in Hd. destruct Hd as [->|[->|[->|[]%elem_of_nil]]]; [apply orset_new_ok| |apply orset_new_ok].
    by eapply (orset_add_ok orset_new _ ex_key world0); [apply orset_new_ok|apply not_elem_of_empty|]. }
  split; [done|..]; rewrite !elem_of_cons in Hd; destruct Hd as [->|[->|[->|[]%elem_of_nil]]];
    try done; by intros [].
Qed.

Lemma ex_replicas : replicas_ok [ex_a; ex_b; ex_c].
Proof.
  split; [apply ex_ok|]. intros a b Ha Hb. rewrite !elem_of_cons in Ha, Hb.
  destruct Ha as [->|[->|[->|[]%elem_of_nil]]], Hb as [->|[->|[->|[]%elem_of_nil]]]; by split.
Qed.

Lemma doc_merge_converges_witness :
  is_ok (doc_merge_all (Ok ex_a) [ex_b; ex_c]) = true ∧
  res_equiv (doc_merge_all (Ok ex_a) [ex_b; ex_c]) (doc_merge_all (Ok ex_a) [ex_c; ex_b]).
Proof.
  destruct (doc_merge_converges ex_a [ex_b; ex_c] [ex_c; ex_b] (perm_swap _ _ _) ex_replicas) as (H1&H2&_).
  split; [exact H2|exact H1].
Defined.

Lemma doc_merge_outcome_witness :
  doc_ok ex_b ∧ doc_ok ex_c ∧
  match doc_merge ex_b ex_c with
  | Ok c => orset_contains (doc_verification_methods c) ex_key = true ∧ doc_is_deactivated c = true
  | _ => False
  end.
Proof.
  assert (doc_ok ex_b) as Hb by (apply ex_ok; right; left).
  assert (doc_ok ex_c) as Hc by (apply ex_ok; right; right; left).
  split; [exact Hb|]. split; [exact Hc|]. pose proof (doc_merge_outcome ex_b ex_c Hb Hc) as Ho.
  destruct (doc_merge ex_b ex_c) as [c|e|] eqn:E; [|destruct Ho as [Ho _]; by destruct Ho|done].
  destruct Ho as (_&_&_&Hv&Hd&_). split; [|rewrite Hd; reflexivity].
  apply Hv. exists 0%N. split; [left|].
  - apply (orset_add_spec orset_new ex_key world0). right. done.
  - cbn. set_solver.
Defined.

Lemma doc_apply_delta_effect_witness :
  let r := doc_apply_delta_v2 ex_a (ControllerAdd "did:ajna:c") world0 in
  match r with
  | Ok (d', _) => doc_is_controller d' "did:ajna:c" = true ∧ doc_ok d'
  | _ => False
  end.
Proof.
  assert (doc_ok ex_a) as Ha by (apply ex_ok; left).
  destruct (doc_apply_delta_v2 ex_a (ControllerAdd "did:ajna:c") world0) as [[d' w']|e|] eqn:E;
    [|vm_compute in E; discriminate E..].
  pose proof (doc_apply_delta_effect ex_a d' (ControllerAdd "did:ajna:c") world0 w' Ha (ex_fresh _) E)
    as (Hok&_&_&_&Hc).
  split; [|exact Hok]. rewrite (Hc "did:ajna:c"). reflexivity.
Defined.

Lemma doc_propset_commutes_witness :
  match doc_apply_delta_v2 ex_a (PropSet "k" (JPosInt 1) 5) world0,
        doc_apply_delta_v2 ex_a (PropSet "k" (JPosInt 2) 7) world0 with
  | Ok (d1, w1), Ok (d2, w2) =>
      match doc_apply_delta_v2 d1 (PropSet "k" (JPosInt 2) 7) w1,
            doc_apply_delta_v2 d2 (PropSet "k" (JPosInt 1) 5) w2 with
      | Ok (d12, _), Ok (d21, _) =>
          doc_get_policy d12 "k" = Some (JPosInt 2) ∧ doc_policy d12 = doc_policy d21
      | _, _ => False
      end
  | _, _ => False
  end.
Proof.
  split; [reflexivity|].
  eapply (doc_propset_commutes ex_a _ _ _ _ "k" (JPosInt 1) (JPosInt 2) 5 7 world0);
    [discriminate|reflexivity..].
Defined.

(** Two [PropSet] deltas with the same Lamport time are resolved by the order of
    arrival: the entry is stamped with the replica's node id, not with the actor of
    the operation, so the first one applied stays. *)
Example doc_propset_arrival_order :
  let apply2 d v v' :=
    match doc_apply_delta_v2 d (PropSet "k" v 5) world0 with
    | Ok (d1, w1) =>
        match doc_apply_delta_v2 d1 (PropSet "k" v' 5) w1 with
        | Ok (d2, _) => doc_get_policy d2 "k"
        | _ => None
        end
    | _ => None
    end in
  apply2 ex_a (JPosInt 1) (JPosInt 2) = Some (JPosInt 1) ∧
  apply2 ex_a (JPosInt 2) (JPosInt 1) = Some (JPosInt 2).
Proof. split; reflexivity. Qed.

(** After [VmRemove] of an id that two methods carry, one of them still resolves. *)
Example doc_vm_remove_leaves_other :
  let key2 := vm_new_slhdsa "did:ajna:x" "key-1" "zB" None in
  let '(_, s, w) := orset_add orset_new ex_key world0 in
  let '(_, s, w) := orset_add s key2 w in
  let d := set_verification_methods s ex_a in
  match doc_apply_delta_v2 d (VmRemove (vm_id ex_key)) w with
  | Ok (d', _) => is_Some (doc_get_verification_method d' (vm_id ex_key))
  | _ => False
  end.
Proof. vm_compute. eauto. Qed.

(** A method whose id is a prefix of a referenced id receives that reference's
    purpose: only [#key-10] is listed under [authentication] here. *)
Example from_did_core_prefix_purpose :
  let doc := mkDidDocument "did:x" [mkCoreVM "did:x#key-1" "t" "did:x" None None None]
    [Reference "did:x#key-10"] [] [] [] [] [] None [] None in
  vm_purpose <$> orset_elements (doc_verification_methods (doc_from_did_core doc world0).1)
    = [Some ["authentication"]].
Proof. vm_compute. reflexivity. Qed.
End examples.
