(* ===== verification/Authorization.v ===== *)
(** The authorization engine of did:ajna, [src/did/src/ajna/authorization.rs].

    [authorize] decides whether an operation may be applied to a document: the
    document must be active, the actor must be entitled to the delta, enough
    distinct signers must have signed for the quorum the document's policy asks,
    and the delta must make sense for the document.  [authorized_spec] states the
    decision declaratively. *)
From S2P Require Import Prelude Crdt AjnaTypes Document.

(** [src/did/src/ajna/authorization.rs:13-27] AuthorizationContext *)
Record AuthorizationContext := mkAuthCtx {
  ac_did : string;
  ac_actor : string;
  ac_additional_signatures : list string;
  ac_document : AjnaDocument
}.

(** [src/did/src/ajna/authorization.rs:29-44] AuthorizationResult *)
Inductive AuthorizationResult :=
  | Allowed
  | Denied (msg : string)
  | RequiresQuorum (required current missing : N).

(** [src/did/src/ajna/authorization.rs:47-49] AuthorizationResult::is_allowed *)
Definition auth_is_allowed (r : AuthorizationResult) : bool :=
  match r with Allowed => true | _ => false end.

(** [src/did/src/ajna/authorization.rs:95-133] AuthorizationEngine::is_actor_authorized *)
Definition is_actor_authorized (actor : string) (doc : AjnaDocument) (delta : Delta) : bool :=
  match doc_controller doc with
  | None => bool_decide (actor = doc_id doc)
  | Some _ =>
      if doc_is_controller doc actor then true
      else
        match delta with
        | VmAdd _ | VmRemove _ | RefAdd _ _ | RefRemove _ _ =>
            bool_decide (actor = doc_id doc) || doc_is_controller doc actor
        | ServiceAdd _ | ServiceRemove _ =>
            bool_decide (actor = doc_id doc) || doc_is_controller doc actor
        | ControllerAdd _ | ControllerRemove _ => doc_is_controller doc actor
        | PropSet _ _ _ => doc_is_controller doc actor
        | Deactivate _ => bool_decide (actor = doc_id doc) || doc_is_controller doc actor
        end
  end.

(** [src/did/src/ajna/authorization.rs:172-182] AuthorizationEngine::get_quorum_requirement (the policy key of a delta) *)
Definition quorum_key (delta : Delta) : string :=
  match delta with
  | VmAdd _ | VmRemove _ => "auth.quorum.vm"
  | RefAdd _ _ | RefRemove _ _ => "auth.quorum.vm"
  | ServiceAdd _ | ServiceRemove _ => "auth.quorum.service"
  | ControllerAdd _ | ControllerRemove _ => "auth.quorum.controller"
  | PropSet _ _ _ => "auth.quorum.policy"
  | Deactivate _ => "auth.quorum.deactivate"
  end.

(** [src/did/src/ajna/authorization.rs:170-196] AuthorizationEngine::get_quorum_requirement *)
Definition get_quorum_requirement (delta : Delta) (doc : AjnaDocument) : N :=
  match doc_get_policy_int doc (quorum_key delta) with
  | Some quorum => i64_as_u64 quorum
  | None =>
      match doc_get_policy_int doc "auth.quorum.update" with
      | Some quorum => i64_as_u64 quorum
      | None => 1%N
      end
  end.

(** [src/did/src/ajna/authorization.rs:150-157] AuthorizationEngine::check_quorum (the set of signers) *)
Definition auth_signers (context : AuthorizationContext) : gset string :=
  foldl (λ signers sig, {[sig]} ∪ signers) {[ac_actor context]} (ac_additional_signatures context).

(** [src/did/src/ajna/authorization.rs:135-168] AuthorizationEngine::check_quorum *)
Definition check_quorum (operation : Operation) (context : AuthorizationContext) : AuthorizationResult :=
  let quorum_required := get_quorum_requirement (op2_delta operation) (ac_document context) in
  if (quorum_required <=? 1)%N then Allowed
  else
    let current_signatures := N.of_nat (size (auth_signers context)) in
    if (quorum_required <=? current_signatures)%N then Allowed
    else RequiresQuorum quorum_required current_signatures (quorum_required - current_signatures)%N.

Section with_order.
Context `{HashOrder}.

(** [src/did/src/ajna/authorization.rs:198-297] AuthorizationEngine::authorize_delta *)
Definition authorize_delta (delta : Delta) (context : AuthorizationContext) : AuthorizationResult :=
  let doc := ac_document context in
  match delta with
  | VmAdd entry =>
      if negb (str_starts_with (vm_id entry) (doc_id doc))
      then Denied "Verification method must reference this DID"
      else Allowed
  | VmRemove id =>
      match doc_get_verification_method doc id with
      | None => Denied "Verification method not found"
      | Some _ => Allowed
      end
  | RefAdd _ ref_ =>
      match doc_get_verification_method doc ref_ with
      | None => Denied ("Referenced verification method not found: " +:+ ref_)
      | Some _ => Allowed
      end
  | RefRemove _ _ => Allowed
  | ServiceAdd entry =>
      if bool_decide (svc_id entry = "") then Denied "Service ID cannot be empty" else Allowed
  | ServiceRemove _ => Allowed
  | PropSet key _ _ =>
      if str_starts_with key "auth." then
        if negb (doc_is_controller doc (ac_actor context))
        then Denied "Only controllers can modify auth policies"
        else Allowed
      else Allowed
  | ControllerAdd did =>
      if negb (str_starts_with did "did:") then Denied "Invalid controller DID format" else Allowed
  | ControllerRemove _ =>
      match doc_controller doc with
      | Some controllers =>
          if (orset_len controllers <=? 1)%nat then Denied "Cannot remove last controller" else Allowed
      | None => Allowed
      end
  | Deactivate _ => Allowed
  end.

(** [src/did/src/ajna/authorization.rs:56-93] AuthorizationEngine::authorize *)
Definition authorize (operation : Operation) (context : AuthorizationContext)
    : Result AuthorizationResult :=
  let doc := ac_document context in
  if doc_is_deactivated doc then Ok (Denied "Cannot modify deactivated DID")
  else if negb (is_actor_authorized (ac_actor context) doc (op2_delta operation)) then
    Ok (Denied ("Actor " +:+ ac_actor context +:+ " is not authorized"))
  else
    let quorum_result := check_quorum operation context in
    if negb (auth_is_allowed quorum_result) then Ok quorum_result
    else Ok (authorize_delta (op2_delta operation) context).

(** [src/did/src/ajna/authorization.rs:299-322] AuthorizationEngine::can_apply *)
Definition can_apply (operation : Operation) (document : AjnaDocument) : Result AuthorizationResult :=
  let context := mkAuthCtx (op2_doc operation) (op2_actor operation) [] document in
  authorize operation context.

(** ** The declarative reading *)

(** Who may make a delta. *)
Definition actor_entitled (actor : string) (doc : AjnaDocument) (delta : Delta) : Prop :=
  match doc_controller doc with
  | None => actor = doc_id doc
  | Some _ =>
      doc_is_controller doc actor = true ∨
      (actor = doc_id doc ∧
       match delta with ControllerAdd _ | ControllerRemove _ | PropSet _ _ _ => False | _ => True end)
  end.

(** What a delta asks of the document it changes. *)
Definition delta_admissible (delta : Delta) (actor : string) (doc : AjnaDocument) : Prop :=
  match delta with
  | VmAdd entry => str_starts_with (vm_id entry) (doc_id doc) = true
  | VmRemove id | RefAdd _ id =>
      ∃ m, orset_contains (doc_verification_methods doc) m = true ∧ vm_id m = id
  | ServiceAdd entry => svc_id entry ≠ ""
  | PropSet key _ _ => str_starts_with key "auth." = true → doc_is_controller doc actor = true
  | ControllerAdd did => str_starts_with did "did:" = true
  | ControllerRemove _ => ∀ cs, doc_controller doc = Some cs → (2 ≤ orset_len cs)%nat
  | RefRemove _ _ | ServiceRemove _ | Deactivate _ => True
  end.

Record authorized_spec (operation : Operation) (context : AuthorizationContext) : Prop := {
  as_active : doc_is_deactivated (ac_document context) = false;
  as_actor : actor_entitled (ac_actor context) (ac_document context) (op2_delta operation);
  as_quorum :
    (get_quorum_requirement (op2_delta operation) (ac_document context) ≤
     1 `max` N.of_nat (size (list_to_set (ac_actor context :: ac_additional_signatures context) : gset string)))%N;
  as_delta : delta_admissible (op2_delta operation) (ac_actor context) (ac_document context)
}.

Lemma is_actor_authorized_spec actor doc delta :
  is_actor_authorized actor doc delta = true ↔ actor_entitled actor doc delta.
Proof.
  unfold is_actor_authorized, actor_entitled.
  destruct (doc_controller doc) as [cs|]; [|apply bool_decide_eq_true].
  destruct (doc_is_controller doc actor) eqn:E; [by split; [left|]|].
  destruct delta; rewrite ?orb_false_r, ?bool_decide_eq_true; naive_solver.
Qed.

Lemma auth_signers_spec context :
  auth_signers context = list_to_set (ac_actor context :: ac_additional_signatures context).
Proof.
  apply set_eq. intros x. unfold auth_signers. rewrite elem_of_list_to_set, elem_of_cons.
  generalize (ac_additional_signatures context). intros l.
  assert (∀ s : gset string, x ∈ foldl (λ s sig, {[sig]} ∪ s) s l ↔ x ∈ s ∨ x ∈ l) as ->; [|set_solver].
  induction l as [|y l IH]; intros s; cbn; [set_solver|]. rewrite IH. set_solver.
Qed.

Lemma check_quorum_spec operation context :
  match check_quorum operation context with
  | Allowed => (get_quorum_requirement (op2_delta operation) (ac_document context) ≤
      1 `max` N.of_nat (size (auth_signers context)))%N
  | RequiresQuorum r c m =>
      r = get_quorum_requirement (op2_delta operation) (ac_document context) ∧
      c = N.of_nat (size (auth_signers context)) ∧ (1 < r)%N ∧ (c + m = r)%N ∧ (0 < m)%N
  | Denied _ => False
  end.
Proof.
  unfold check_quorum. destruct (N.leb_spec (get_quorum_requirement (op2_delta operation) (ac_document context)) 1); [lia|].
  destruct (N.leb_spec (get_quorum_requirement (op2_delta operation) (ac_document context))
    (N.of_nat (size (auth_signers context)))); [lia|]. split_and!; lia.
Qed.

Lemma get_verification_method_some doc id :
  is_Some (doc_get_verification_method doc id) ↔
    ∃ m, orset_contains (doc_verification_methods doc) m = true ∧ vm_id m = id.
Proof.
  unfold doc_get_verification_method. setoid_rewrite <- elem_of_orset_elements.
  rewrite fmap_is_Some. split.
  - intros [[i m] (Hl&Hm&_)%list_find_Some]. exists m. split; [by eapply list_elem_of_lookup_2|done].
  - intros (m&Hin&Hm). by apply (list_find_elem_of _ _ m).
Qed.

Lemma authorize_delta_spec delta context :
  authorize_delta delta context = Allowed ↔
    delta_admissible delta (ac_actor context) (ac_document context).
Proof.
  destruct delta as [m|id|p r|p r|e|id|key v ts|c|c|reason]; cbn; try done.
  - by destruct (str_starts_with _ _).
  - rewrite <- get_verification_method_some. destruct (doc_get_verification_method _ _); split; done || by intros [].
  - rewrite <- get_verification_method_some. destruct (doc_get_verification_method _ _); split; done || by intros [].
  - case_bool_decide; naive_solver.
  - destruct (str_starts_with _ _), (doc_is_controller _ _); naive_solver.
  - by destruct (str_starts_with _ _).
  - destruct (doc_controller _) as [cs|]; [|done].
    destruct (Nat.leb_spec (orset_len cs) 1) as [Hle|Hgt]; split; try done.
    + intros Hc. specialize (Hc cs eq_refl). lia.
    + intros _ cs' [= <-]. lia.
Qed.

Lemma authorize_spec_sound operation context :
  authorize operation context = Ok Allowed ↔ authorized_spec operation context.
Proof.
  unfold authorize. destruct (doc_is_deactivated (ac_document context)) eqn:Hd.
  { split; [done|]. intros [Ha _ _ _]. congruence. }
  destruct (is_actor_authorized _ _ _) eqn:Ha; cbn.
  2:{ split; [done|]. intros [_ Hact _ _]. apply is_actor_authorized_spec in Hact. congruence. }
  pose proof (check_quorum_spec operation context) as Hq. rewrite auth_signers_spec in Hq.
  destruct (check_quorum operation context) as [|msg|r c m]; cbn.
  - split.
    + intros [= Hdelta]. split; [done|by apply is_actor_authorized_spec|done|by apply authorize_delta_spec].
    + intros [_ _ _ Hdelta]. f_equal. by apply authorize_delta_spec.
  - done.
  - split; [done|]. intros [_ _ Hle _]. destruct Hq as (->&->&?&?&?). lia.
Qed.

Context `{Chrono}.

(** C4: The authorization engine always answers, and it answers [Allowed] exactly when
    the document is active, the actor is entitled to the delta, the distinct signers
    reach the quorum of the document's policy, and the delta is admissible for the
    document. *)
Theorem authorize_iff (operation : Operation) (context : AuthorizationContext) :
  is_ok (authorize operation context) = true ∧
  (authorize operation context = Ok Allowed ↔ authorized_spec operation context).
Proof.
  split; [|apply authorize_spec_sound]. unfold authorize. by repeat case_match.
Qed.

(** An authorized operation never leaves a controlled document without a
    controller: if the document has at least one controller before, it has one
    after the delta is applied. *)
Theorem authorized_keeps_controller (operation : Operation) (context : AuthorizationContext)
    (cs : ORSet string) (d' : AjnaDocument) (w w' : World) :
  authorize operation context = Ok Allowed →
  doc_controller (ac_document context) = Some cs → (1 ≤ orset_len cs)%nat →
  doc_apply_delta_v2 (ac_document context) (op2_delta operation) w = Ok (d', w') →
  ∃ cs', doc_controller d' = Some cs' ∧ (1 ≤ orset_len cs')%nat.
Proof.
  intros [_ _ _ Hdelta]%authorize_spec_sound Hcs Hlen. unfold doc_apply_delta_v2.
  destruct (op2_delta operation) as [m|id|p r|p r|e|id|key v ts|c|c|reason]; rewrite ?Hcs.
  1,2,5,10: intros [= <- <-]; by exists cs.
  - unfold doc_add_purpose_ref. destruct p; intros [= <- <-]; by exists cs.
  - unfold doc_remove_purpose_ref. intros [= <- <-]. exists cs. split; [|done].
    by destruct p; cbn; case_match.
  - destruct (doc_service _); intros [= <- <-]; by exists cs.
  - destruct (timestamp_millis_opt _); [|done]. intros [= <- <-]. by exists cs.
  - pose proof (orset_add_contains cs c w c) as Hc.
    rewrite bool_decide_eq_true_2, orb_true_r in Hc by done. change (default orset_new (Some cs)) with cs.
    destruct (orset_add cs c w) as [[u s] w2]. intros [= <- <-]. exists s. split; [done|].
    apply orset_len_pos. by exists c.
  - intros [= <- <-]. eexists. split; [done|]. specialize (Hdelta cs Hcs).
    pose proof (orset_len_remove cs c). lia.
Qed.

(** [can_apply], the check the DID method makes before it applies an operation,
    passes no additional signature: on an active document whose policy asks for two or more
    signers it answers [RequiresQuorum] with one signature present, whoever the
    entitled actor is. *)
Theorem can_apply_quorum_unreachable (operation : Operation) (document : AjnaDocument) :
  doc_is_deactivated document = false →
  is_actor_authorized (op2_actor operation) document (op2_delta operation) = true →
  (2 ≤ get_quorum_requirement (op2_delta operation) document)%N →
  can_apply operation document =
    Ok (RequiresQuorum (get_quorum_requirement (op2_delta operation) document) 1
          (get_quorum_requirement (op2_delta operation) document - 1)).
Proof.
  intros Hd Ha Hq. unfold can_apply, authorize. cbn. rewrite Hd, Ha. cbn. unfold check_quorum. cbn.
  destruct (N.leb_spec (get_quorum_requirement (op2_delta operation) document) 1); [lia|].
  unfold auth_signers. cbn. rewrite size_singleton. change (N.of_nat 1) with 1%N.
  destruct (N.leb_spec (get_quorum_requirement (op2_delta operation) document) 1); [lia|done].
Qed.
End with_order.

(** ** Witnesses and concrete runs *)

Section examples.
#[local] Existing Instance plain_order.
#[local] Existing Instance chrono_range.

Definition ex_operation (actor : string) (delta : Delta) : Operation :=
  mkOperation OP_TYPE "did:ajna:x" "op-1" [] actor (mkClockEntry 0 1) delta (mkAuthProof "" "") 0.

(** Two controllers, and a policy that asks [q] signers for every update. *)
Definition ex_controlled (q : Json) : AjnaDocument :=
  (doc_new_with_genesis "did:ajna:x" "node_a" ["did:c1"; "did:c2"] [("auth.quorum.update", q)] world0).1.

Lemma authorized_keeps_controller_witness :
  match doc_controller (ex_controlled (JPosInt 1)),
        doc_apply_delta_v2 (ex_controlled (JPosInt 1)) (ControllerRemove "did:c2") world0 with
  | Some cs, Ok (d', _) => ∃ cs', doc_controller d' = Some cs' ∧ (1 ≤ orset_len cs')%nat
  | _, _ => False
  end.
Proof.
  eapply (authorized_keeps_controller (ex_operation "did:c1" (ControllerRemove "did:c2"))
    (mkAuthCtx "did:ajna:x" "did:c1" [] (ex_controlled (JPosInt 1))) _ _ world0);
    [vm_compute; reflexivity|vm_compute; reflexivity|vm_compute; lia|vm_compute; reflexivity].
Defined.

Lemma can_apply_quorum_unreachable_witness :
  can_apply (ex_operation "did:c1" (ControllerAdd "did:c3")) (ex_controlled (JPosInt 2)) =
    Ok (RequiresQuorum 2 1 1).
Proof.
  apply (can_apply_quorum_unreachable (ex_operation "did:c1" (ControllerAdd "did:c3"))
    (ex_controlled (JPosInt 2))); [reflexivity|vm_compute; reflexivity|vm_compute; discriminate].
Defined.

(** With both controllers' signatures the same operation is allowed by [authorize]. *)
Example authorize_two_signers :
  authorize (ex_operation "did:c1" (ControllerAdd "did:c3"))
    (mkAuthCtx "did:ajna:x" "did:c1" ["did:c2"] (ex_controlled (JPosInt 2))) = Ok Allowed.
Proof. vm_compute. reflexivity. Qed.

(** A negative quorum is cast to an unsigned number no set of signers can reach. *)
Example negative_quorum :
  get_quorum_requirement (ControllerAdd "did:c3") (ex_controlled (JNegInt (-1))) = (u64_modulus - 1)%N.
Proof. vm_compute. reflexivity. Qed.
End examples.
