(* ===== verification/Hashing.v ===== *)
(** The hash primitives of did:ajna, [src/did/src/ajna/crypto.rs], over the crates
    they call.

    Bytes are strings.  [blake3], [base64] and [serde_json] are parameters of the
    model, given as classes; what the code relies on is stated as their laws.  A
    streaming hasher is the hash of the concatenation of its updates. *)
From Stdlib Require Import Ascii.
From S2P Require Import Prelude StdText AjnaTypes.

(** The crate [blake3]: a 32-byte digest. *)
Class Blake3 := {
  blake3 : string → string;
  blake3_length s : String.length (blake3 s) = 32
}.

(** The crate [base64], engine [URL_SAFE_NO_PAD]; [inl] is the error's text. *)
Class Base64 := {
  b64url_encode : string → string;
  b64url_decode : string → string + string;
  b64url_decode_encode s : b64url_decode (b64url_encode s) = inr s
}.

(** Characters of base64url. *)
Definition is_b64url (a : ascii) : bool := is_alnum a || Ascii.eqb a "-"%char || Ascii.eqb a "_"%char.
Class Base64UrlChars `{Base64} : Prop := {
  b64url_chars s : forallb is_b64url (String.list_ascii_of_string (b64url_encode s)) = true;
  b64url_nonempty s : s ≠ "" → b64url_encode s ≠ ""
}.

Lemma b64url_plain c `{Base64UrlChars} s : is_b64url c = false → str_avoids c (b64url_encode s) = true.
Proof.
  intros Hc. unfold str_avoids. pose proof (b64url_chars s) as Hall. rewrite forallb_forall in Hall |- *.
  intros a Ha. apply negb_true_iff, Ascii.eqb_neq. intros ->. specialize (Hall c Ha). congruence.
Qed.
(** The same crate, engine [STANDARD]. *)
Class Base64Std := {
  b64_encode : string → string;
  b64_decode : string → string + string;
  b64_decode_encode s : b64_decode (b64_encode s) = inr s
}.

(** The serializers of [serde_json]; [inl] is the error's text. *)
Class SerdeJson := {
  json_to_vec : Json → string + string;
  crdt_op_to_string : CRDTOperation → string + string
}.

(** [src/did/src/ajna/crypto.rs:8-12] DST_AJNA_ROOT *)
Definition DST_AJNA_ROOT : string := "AJNA/ROOT/V1".
Definition DST_AJNA_OP : string := "AJNA/OP/V1".
Definition DST_AJNA_SIGN : string := "AJNA/SIGN/V1".
Definition DST_AJNA_FIELD : string := "AJNA/FIELD/V1".

(** [src/did/src/ajna/crypto.rs:14-15] HASH_SIZE *)
Definition HASH_SIZE : nat := 32.

Section crypto.
Context `{Blake3} `{Base64}.

(** The hasher after a list of updates. *)
Definition blake3_updates (updates : list string) : string := blake3 (str_concat updates).

(** [src/did/src/ajna/crypto.rs:20-34] hash_with_dst *)
Definition hash_with_dst (dst data : string) : string := blake3_updates [dst; data].

(** [src/did/src/ajna/crypto.rs:36-41] hash_operation *)
Definition hash_operation (canonical_bytes : string) : string := hash_with_dst DST_AJNA_OP canonical_bytes.

(** [src/did/src/ajna/crypto.rs:43-48] hash_for_signature *)
Definition hash_for_signature (canonical_bytes : string) : string := hash_with_dst DST_AJNA_SIGN canonical_bytes.

(** [src/did/src/ajna/crypto.rs:50-55] hash_merkle_root *)
Definition hash_merkle_root (data : string) : string := hash_with_dst DST_AJNA_ROOT data.

(** [src/did/src/ajna/crypto.rs:57-67] hash_field *)
Definition crypto_hash_field (path value : string) : string := blake3_updates [DST_AJNA_FIELD; path; value].

(** [src/did/src/ajna/crypto.rs:69-74] hash_to_base64url *)
Definition hash_to_base64url (hash : string) : string := b64url_encode hash.

(** [src/did/src/ajna/crypto.rs:76-96] base64url_to_hash *)
Definition base64url_to_hash (s : string) : string + string :=
  match b64url_decode s with
  | inl e => inl ("Invalid base64url: " +:+ e)
  | inr bytes =>
      if decide (String.length bytes ≠ HASH_SIZE) then
        inl ("Invalid hash size: expected 32, got " +:+ pretty (String.length bytes))
      else inr bytes
  end.

(** [src/did/src/ajna/crypto.rs:98-106] hash_pair *)
Definition crypto_hash_pair (left right : string) : string := blake3_updates [DST_AJNA_ROOT; left; right].

(** The encoding of a hash decodes to the hash. *)
Lemma base64url_to_hash_encode data :
  base64url_to_hash (hash_to_base64url (blake3 data)) = inr (blake3 data).
Proof.
  unfold base64url_to_hash, hash_to_base64url. rewrite b64url_decode_encode.
  case_decide as Hl; [|done]. by rewrite blake3_length in Hl.
Qed.

(** Two different strings with one digest. *)
Definition blake3_collision : Prop := ∃ a b, a ≠ b ∧ blake3 a = blake3 b.
End crypto.

(** ** Strings *)

Lemma str_app_assoc (a b c : string) : (a +:+ b) +:+ c = a +:+ (b +:+ c).
Proof. induction a as [|x a IH]; [done|]. exact (f_equal (String x) IH). Qed.

Lemma str_app_length (a b : string) : String.length (a +:+ b) = (String.length a + String.length b)%nat.
Proof. induction a as [|x a IH]; [done|]. exact (f_equal S IH). Qed.

Lemma str_app_inj (a b c d : string) :
  String.length a = String.length c → a +:+ b = c +:+ d → a = c ∧ b = d.
Proof.
  revert c. induction a as [|x a IH]; intros [|y c]; try done.
  intros [= Hl] [= -> Hr]. destruct (IH c Hl Hr) as [-> ->]. done.
Qed.

Lemma str_app_empty_r (a : string) : a +:+ "" = a.
Proof. induction a as [|x a IH]; [done|]. exact (f_equal (String x) IH). Qed.

(** ** Little-endian integers

    [z.to_le_bytes()] of an n-byte integer, signed ones in two's complement, and
    [from_le_bytes] of an unsigned one. *)
Fixpoint to_le_bytes (n : nat) (z : Z) : string :=
  match n with
  | O => ""
  | S n => String (Ascii.ascii_of_N (Z.to_N (z mod 256))) (to_le_bytes n (z / 256))
  end.
Fixpoint from_le_bytes (s : string) : N :=
  match s with
  | "" => 0
  | String c s => (Ascii.N_of_ascii c + 256 * from_le_bytes s)%N
  end.

Lemma to_le_bytes_length n z : String.length (to_le_bytes n z) = n.
Proof. revert z. induction n as [|n IH]; intros z; [done|]. exact (f_equal S (IH _)). Qed.

Lemma from_to_le_bytes n (x : N) : (x < 256 ^ N.of_nat n)%N → from_le_bytes (to_le_bytes n (Z.of_N x)) = x.
Proof.
  revert x. induction n as [|n IH]; intros x Hx; cbn [to_le_bytes from_le_bytes].
  { cbn in Hx. lia. }
  assert (Z.of_N x mod 256 = Z.of_N (x mod 256))%Z as -> by (by rewrite N2Z.inj_mod).
  assert (Z.of_N x / 256 = Z.of_N (x / 256))%Z as -> by (by rewrite N2Z.inj_div).
  rewrite N2Z.id, IH.
  - rewrite Ascii.N_ascii_embedding by (apply N.mod_lt; lia). pose proof (N.div_mod x 256 ltac:(lia)). lia.
  - rewrite Nat2N.inj_succ, N.pow_succ_r in Hx by lia. apply N.Div0.div_lt_upper_bound. lia.
Qed.

(** ** Concrete instances for evaluation

    The digest pads or cuts its reversed input to 32 bytes; the encoding is the
    identity; a JSON string serializes between bars. *)
Fixpoint str_take_pad (n : nat) (s : string) : string :=
  match n, s with
  | O, _ => ""
  | S n, "" => String (Ascii.ascii_of_nat 48) (str_take_pad n "")
  | S n, String c s => String c (str_take_pad n s)
  end.
Lemma str_take_pad_length n s : String.length (str_take_pad n s) = n.
Proof. revert s. induction n as [|n IH]; intros [|c s]; cbn; auto. Qed.

Definition toy_blake3 : Blake3 := {|
  blake3 s := str_take_pad 32 (String.rev s);
  blake3_length s := str_take_pad_length 32 _
|}.
Definition toy_base64 : Base64 := {|
  b64url_encode s := s;
  b64url_decode s := inr s;
  b64url_decode_encode s := eq_refl
|}.
Definition toy_base64_std : Base64Std := {|
  b64_encode s := s;
  b64_decode s := inr s;
  b64_decode_encode s := eq_refl
|}.
Definition toy_json : SerdeJson := {|
  json_to_vec v :=
    inr match v with
        | JString s => "|" +:+ s +:+ "|"
        | JBool b => if b then "true" else "false"
        | JPosInt n => pretty n
        | _ => "null"
        end;
  crdt_op_to_string op := inr (op_node_id op +:+ pretty (op_timestamp op))
|}.
