(* ===== verification/MerkleDag.v ===== *)
(** The operation history of a did:ajna document, [src/did/src/ajna/merkle_dag.rs]:
    a DAG of nodes addressed by their hash.

    [dag_ok] is the invariant of a history; additions of nodes not yet held and
    merges preserve it.  [visit_node] recurses on children; its fuel is the number
    of nodes plus two, and [dag_visit_total] shows that is always enough. *)
From S2P Require Import Prelude AjnaTypes Document Hashing.

(** [src/did/src/ajna/merkle_dag.rs:16-25] OperationStorage *)
Inductive OperationStorage :=
  | Legacy (ops : list CRDTOperation)
  | V2 (op : Operation).

(** [src/did/src/ajna/merkle_dag.rs:27-44] DagNode *)
Record DagNode := mkDagNode {
  dn_operations : OperationStorage;
  dn_timestamp : Instant;
  dn_parents : list string;
  dn_hash : string;
  dn_node_id : string
}.

(** [src/did/src/ajna/merkle_dag.rs:159-170] MerkleDAG *)
Record MerkleDAG := mkDag {
  dag_nodes : gmap string DagNode;
  dag_heads : gset string;
  dag_genesis : option string
}.

(** [src/did/src/ajna/merkle_dag.rs:172-180] MerkleDAG::new *)
Definition dag_new : MerkleDAG := mkDag ∅ ∅ None.

(** [src/did/src/ajna/merkle_dag.rs:140-146] DagNode::get_operations *)
Definition dn_get_operations (n : DagNode) : list CRDTOperation :=
  match dn_operations n with Legacy ops => ops | V2 _ => [] end.

(** [src/did/src/ajna/merkle_dag.rs:148-154] DagNode::get_operation_v2 *)
Definition dn_get_operation_v2 (n : DagNode) : option Operation :=
  match dn_operations n with V2 op => Some op | Legacy _ => None end.

(** [src/did/src/ajna/merkle_dag.rs:222-225] MerkleDAG::get_node *)
Definition dag_get_node (self : MerkleDAG) (hash : string) : option DagNode := dag_nodes self !! hash.

(** [src/did/src/ajna/merkle_dag.rs:235-238] MerkleDAG::get_genesis *)
Definition dag_get_genesis (self : MerkleDAG) : option DagNode :=
  dag_genesis self ≫= λ hash, dag_nodes self !! hash.

(** [src/did/src/ajna/merkle_dag.rs:377-380] MerkleDAG::len *)
Definition dag_len (self : MerkleDAG) : nat := size (dag_nodes self).

(** [src/did/src/ajna/merkle_dag.rs:382-385] MerkleDAG::is_empty *)
Definition dag_is_empty (self : MerkleDAG) : bool := bool_decide (dag_nodes self = ∅).

(** [src/did/src/ajna/merkle_dag.rs:397-400] MerkleDAG::contains *)
Definition dag_contains (self : MerkleDAG) (hash : string) : bool :=
  bool_decide (is_Some (dag_nodes self !! hash)).

Section hashing.
Context `{Blake3} `{Base64} `{SerdeJson} `{Rfc3339} `{Chrono}.

(** [src/did/src/ajna/merkle_dag.rs:87-126] DagNode::compute_hash *)
Definition dn_compute_hash (operations : OperationStorage) (parents : list string)
    (timestamp : Instant) (node_id : string) : string :=
  let op_updates :=
    match operations with
    | Legacy ops =>
        omap (λ op, match crdt_op_to_string op with inr op_json => Some op_json | inl _ => None end) ops
    | V2 op => [op2_op_id op]
    end in
  hash_to_base64url
    (blake3_updates ([DST_AJNA_ROOT] ++ op_updates ++ parents ++ [to_rfc3339 timestamp; node_id])).

(** [src/did/src/ajna/merkle_dag.rs:47-60] DagNode::new *)
Definition dn_new (operations : list CRDTOperation) (parents : list string) (node_id : string)
    (w : World) : DagNode * World :=
  let '(timestamp, w) := utc_now w in
  let ops_storage := Legacy operations in
  (mkDagNode ops_storage timestamp parents
     (dn_compute_hash ops_storage parents timestamp node_id) node_id, w).

(** [src/did/src/ajna/merkle_dag.rs:62-85] DagNode::from_operation_v2 *)
Definition dn_from_operation_v2 (operation : Operation) (node_id : string) : Result DagNode :=
  match timestamp_millis_opt (op2_timestamp_ms operation) with
  | None => Panic
  | Some timestamp =>
      let parents := op2_parents operation in
      let ops_storage := V2 operation in
      Ok (mkDagNode ops_storage timestamp parents
            (dn_compute_hash ops_storage parents timestamp node_id) node_id)
  end.

(** [src/did/src/ajna/merkle_dag.rs:128-137] DagNode::verify_hash *)
Definition dn_verify_hash (n : DagNode) : bool :=
  bool_decide (dn_compute_hash (dn_operations n) (dn_parents n) (dn_timestamp n) (dn_node_id n) = dn_hash n).

(** [src/did/src/ajna/merkle_dag.rs:182-220] MerkleDAG::add_node *)
Definition dag_add_node (self : MerkleDAG) (node : DagNode) : Result string * MerkleDAG :=
  if negb (dn_verify_hash node) then (Err (MerkleDagError "Invalid node hash"), self)
  else
    match list_find (λ parent, dag_nodes self !! parent = None) (dn_parents node) with
    | Some (_, parent) => (Err (MerkleDagError ("Parent node not found: " +:+ parent)), self)
    | None =>
        let hash := dn_hash node in
        let genesis := if dag_is_empty self then Some hash else dag_genesis self in
        let heads := foldl (λ heads parent, heads ∖ {[parent]}) (dag_heads self) (dn_parents node) in
        (Ok hash, mkDag (<[hash := node]> (dag_nodes self)) ({[hash]} ∪ heads) genesis)
    end.
End hashing.

Section with_order.
Context `{HashOrder}.

(** [src/did/src/ajna/merkle_dag.rs:227-233] MerkleDAG::get_heads *)
Definition dag_get_heads (self : MerkleDAG) : list DagNode :=
  omap (λ hash, dag_nodes self !! hash) (set_iter (dag_heads self)).

(** What [visit_node] threads through its calls. *)
Record VisitState := mkVisit {
  vs_visited : gset string;
  vs_temp_mark : gset string;
  vs_result : list DagNode
}.

(** [src/did/src/ajna/merkle_dag.rs:257-290] MerkleDAG::visit_node *)
Fixpoint dag_visit_node (fuel : nat) (self : MerkleDAG) (hash : string) (s : VisitState)
    : option VisitState :=
  match fuel with
  | O => None
  | S fuel =>
      if decide (hash ∈ vs_visited s) then Some s
      else if decide (hash ∈ vs_temp_mark s) then Some s
      else
        let s := mkVisit (vs_visited s) ({[hash]} ∪ vs_temp_mark s) (vs_result s) in
        s ← foldl (λ acc child, s ← acc;
                     if decide (hash ∈ dn_parents child.2)
                     then dag_visit_node fuel self child.1 s else Some s)
              (Some s) (map_iter (dag_nodes self));
        Some (mkVisit ({[hash]} ∪ vs_visited s) (vs_temp_mark s ∖ {[hash]})
                (vs_result s ++ match dag_nodes self !! hash with Some node => [node] | None => [] end))
  end.

(** [src/did/src/ajna/merkle_dag.rs:240-255] MerkleDAG::topological_sort *)
Definition dag_topological_sort (self : MerkleDAG) : option (list DagNode) :=
  match dag_genesis self with
  | Some genesis_hash =>
      s ← dag_visit_node (S (S (dag_len self))) self genesis_hash (mkVisit ∅ ∅ []);
      Some (reverse (vs_result s))
  | None => Some []
  end.

(** [src/did/src/ajna/merkle_dag.rs:315-322] MerkleDAG::get_all_operations *)
Definition dag_get_all_operations (self : MerkleDAG) : option (list CRDTOperation) :=
  (λ sorted_nodes : list DagNode, sorted_nodes ≫= dn_get_operations) <$> dag_topological_sort self.

(** [src/did/src/ajna/merkle_dag.rs:324-331] MerkleDAG::get_all_operations_v2 *)
Definition dag_get_all_operations_v2 (self : MerkleDAG) : option (list Operation) :=
  (λ sorted_nodes : list DagNode, omap dn_get_operation_v2 sorted_nodes) <$> dag_topological_sort self.

(** [src/did/src/ajna/merkle_dag.rs:333-349] MerkleDAG::get_tips *)
Definition dag_get_tips (self : MerkleDAG) : Result (list string) :=
  Ok ((λ node, match dn_operations node with
               | V2 op => op2_op_id op
               | Legacy _ => dn_hash node
               end) <$> dag_get_heads self).

(** [src/did/src/ajna/merkle_dag.rs:392-395] MerkleDAG::get_all_hashes *)
Definition dag_get_all_hashes (self : MerkleDAG) : list string := (map_iter (dag_nodes self)).*1.

Context `{Blake3} `{Base64} `{SerdeJson} `{Rfc3339}.

(** [src/did/src/ajna/merkle_dag.rs:292-313] MerkleDAG::compute_root *)
Definition dag_compute_root (self : MerkleDAG) : string :=
  hash_to_base64url (blake3_updates (DST_AJNA_ROOT :: sort_strings (set_iter (dag_heads self)))).

(** Sorting by timestamp, as [sort_by_key] does. *)
Definition dn_before : relation DagNode := λ a b, (dn_timestamp a ≤ dn_timestamp b)%Z.
#[export] Instance dn_before_dec : RelDecision dn_before.
Proof. intros a b. unfold dn_before. apply _. Defined.

(** The nodes of the other DAG that remain to be visited by [merge]. *)
Fixpoint dag_merge_nodes (self other : MerkleDAG) (other_nodes : list DagNode) : Result unit * MerkleDAG :=
  match other_nodes with
  | [] => (Ok (), self)
  | node :: rest =>
      if dag_contains self (dn_hash node) then dag_merge_nodes self other rest
      else if existsb (λ parent, negb (dag_contains self parent) && negb (dag_contains other parent))
                (dn_parents node)
      then dag_merge_nodes self other rest
      else
        match dag_add_node self node with
        | (Ok _, self) => dag_merge_nodes self other rest
        | (Err e, self) => (Err e, self)
        | (Panic, self) => (Panic, self)
        end
  end.

(** [src/did/src/ajna/merkle_dag.rs:351-375] MerkleDAG::merge *)
Definition dag_merge (self other : MerkleDAG) : Result unit * MerkleDAG :=
  dag_merge_nodes self other (merge_sort dn_before (map_iter (dag_nodes other)).*2).
End with_order.

(** * The invariant of a history *)

(** [parent] is a parent of the node with hash [child]. *)
Definition dag_edge (self : MerkleDAG) (parent child : string) : Prop :=
  ∃ n, dag_nodes self !! child = Some n ∧ parent ∈ dn_parents n.

Section invariant.
Context `{Blake3} `{Base64} `{SerdeJson} `{Rfc3339}.
Implicit Types (self other : MerkleDAG) (n : DagNode) (h : string).

Record dag_ok self : Prop := {
  dok_hash h n : dag_nodes self !! h = Some n → dn_hash n = h ∧ dn_verify_hash n = true;
  dok_parents p h : dag_edge self p h → is_Some (dag_nodes self !! p);
  dok_acyclic : ∃ rank : string → nat, ∀ p h, dag_edge self p h → (rank p < rank h)%nat;
  dok_heads h : h ∈ dag_heads self ↔ is_Some (dag_nodes self !! h) ∧ ∀ c, ¬ dag_edge self h c;
  dok_genesis : match dag_genesis self with
                | Some g => ∃ n, dag_nodes self !! g = Some n ∧ dn_parents n = []
                | None => dag_nodes self = ∅
                end
}.

Lemma dag_new_ok : dag_ok dag_new.
Proof.
  split; cbn; try done.
  - intros p h (n&Hn&_). cbn in Hn. by rewrite lookup_empty in Hn.
  - exists (λ _, 0). intros p h (n&Hn&_). cbn in Hn. by rewrite lookup_empty in Hn.
  - intros h. rewrite lookup_empty. split; [set_solver|by intros [[]]].
Qed.

Lemma heads_minus_parents (ps : list string) (heads : gset string) h :
  h ∈ foldl (λ heads parent, heads ∖ {[parent]}) heads ps ↔ h ∈ heads ∧ h ∉ ps.
Proof.
  revert heads. induction ps as [|p ps IH]; intros heads; cbn; [set_solver|].
  rewrite IH. set_solver.
Qed.

(** The three outcomes of an addition. *)
Lemma dag_add_node_cases self n :
  (dn_verify_hash n = false ∧ dag_add_node self n = (Err (MerkleDagError "Invalid node hash"), self)) ∨
  (∃ p, dn_verify_hash n = true ∧ p ∈ dn_parents n ∧ dag_nodes self !! p = None ∧
     dag_add_node self n = (Err (MerkleDagError ("Parent node not found: " +:+ p)), self)) ∨
  (dn_verify_hash n = true ∧ (∀ p, p ∈ dn_parents n → is_Some (dag_nodes self !! p)) ∧
   ∃ self', dag_add_node self n = (Ok (dn_hash n), self') ∧
     dag_nodes self' = <[dn_hash n := n]> (dag_nodes self) ∧
     (∀ h, h ∈ dag_heads self' ↔ h = dn_hash n ∨ (h ∈ dag_heads self ∧ h ∉ dn_parents n)) ∧
     dag_genesis self' = if dag_is_empty self then Some (dn_hash n) else dag_genesis self).
Proof.
  unfold dag_add_node. destruct (dn_verify_hash n); cbn; [|by left]. right.
  destruct (list_find _ _) as [[i p]|] eqn:E.
  - left. apply list_find_Some in E as (Hp&Hnone&_). exists p. split_and!; try done.
    by eapply list_elem_of_lookup_2.
  - right. apply list_find_None in E. rewrite Forall_forall in E. split_and!; [done| |].
    + intros p Hp. specialize (E p Hp). by apply not_eq_None_Some.
    + eexists. split_and!; [reflexivity|reflexivity| |reflexivity]. intros h. cbn. rewrite elem_of_union, elem_of_singleton.
      by rewrite heads_minus_parents.
Qed.

Lemma dag_edge_insert self self' n p c :
  dag_nodes self' = <[dn_hash n := n]> (dag_nodes self) →
  dag_nodes self !! dn_hash n = None →
  dag_edge self' p c ↔ (c = dn_hash n ∧ p ∈ dn_parents n) ∨ dag_edge self p c.
Proof.
  intros Hn Hf. unfold dag_edge. rewrite Hn. setoid_rewrite lookup_insert_Some. split.
  - intros (m&[[<- <-]|[Hne Hm]]&Hp); [by left|right; eauto].
  - intros [[-> Hp]|(m&Hm&Hp)]; [by eauto|]. exists m. split; [|done]. right. split; [|done].
    intros <-. congruence.
Qed.

Lemma dag_ok_extend self self' n :
  dag_ok self → dag_nodes self !! dn_hash n = None → dn_verify_hash n = true →
  (∀ p, p ∈ dn_parents n → is_Some (dag_nodes self !! p)) →
  dag_nodes self' = <[dn_hash n := n]> (dag_nodes self) →
  (∀ h, h ∈ dag_heads self' ↔ h = dn_hash n ∨ (h ∈ dag_heads self ∧ h ∉ dn_parents n)) →
  dag_genesis self' = (if dag_is_empty self then Some (dn_hash n) else dag_genesis self) →
  dag_ok self'.
Proof.
  intros Hok Hf Hv Hps Hn Hh Hg. pose proof (dag_edge_insert self self' n) as He.
  assert (∀ h, ¬ dag_edge self (dn_hash n) h) as Hnochild.
  { intros h Hedge. destruct (dok_parents self Hok _ _ Hedge). congruence. }
  assert (dn_hash n ∉ dn_parents n) as Hself by (intros Hin; destruct (Hps _ Hin); congruence).
  split.
  - intros h m. rewrite Hn, lookup_insert_Some. intros [[<- <-]|[_ Hm]]; [done|by apply (dok_hash self Hok)].
  - intros p h Hedge. rewrite Hn. apply lookup_insert_is_Some'. right.
    apply He in Hedge as [[_ Hp]|Hedge]; [by auto|by apply (dok_parents self Hok _ h)|done..].
  - destruct (dok_acyclic self Hok) as [rank Hrank].
    exists (λ h, if decide (h = dn_hash n) then S (max_list (rank <$> dn_parents n)) else rank h).
    intros p h Hedge. apply He in Hedge; [|done..]. destruct Hedge as [[-> Hp]|Hedge].
    + rewrite (decide_True (P := dn_hash n = dn_hash n)) by done. case_decide as Hpn; [by subst|].
      apply Nat.lt_succ_r, max_list_elem_of_le. by apply list_elem_of_fmap_2.
    + rewrite !decide_False; [by apply Hrank| |].
      * intros ->. destruct Hedge as (m&Hm&_). congruence.
      * intros ->. by apply (Hnochild h).
  - intros h. rewrite Hh, Hn, lookup_insert_is_Some', (dok_heads self Hok). split.
    + intros [->|[[Hs Hc] Hp]]; (split; [by auto|]); intros c Hedge; apply He in Hedge as [[-> ?]|Hedge];
        try done; [by apply (Hnochild c)|by apply (Hc c)].
    + intros [[->|Hs] Hc]; [by left|]. right. split; [split; [done|]|].
      * intros c Hedge. apply (Hc c), He; auto.
      * intros Hp. apply (Hc (dn_hash n)), He; auto.
  - rewrite Hg, Hn. unfold dag_is_empty. pose proof (dok_genesis self Hok) as Hgen. case_bool_decide as Hemp.
    + exists n. rewrite lookup_insert_eq. split; [done|]. destruct (dn_parents n) as [|p ps]; [done|].
      destruct (Hps p) as [m Hm]; [left|]. by rewrite Hemp, lookup_empty in Hm.
    + destruct (dag_genesis self) as [g|]; [|done]. destruct Hgen as (m&Hm&Hnil). exists m. split; [|done].
      rewrite lookup_insert_ne; congruence.
Qed.

Lemma dag_add_node_ok self n :
  dag_ok self → dag_nodes self !! dn_hash n = None → dag_ok (dag_add_node self n).2.
Proof.
  intros Hok Hf. destruct (dag_add_node_cases self n) as [[_ ->]|[(p&_&_&_&->)|(Hv&Hps&self'&->&Hn&Hh&Hg)]];
    [done..|]. by eapply dag_ok_extend.
Qed.
End invariant.

(** ** What survives also the addition of a node that is already held *)

Section weak_invariant.
Context `{Blake3} `{Base64} `{SerdeJson} `{Rfc3339}.
Implicit Types (self : MerkleDAG) (n : DagNode) (h : string).

Record dag_wf self : Prop := {
  dwf_hash h n : dag_nodes self !! h = Some n → dn_hash n = h ∧ dn_verify_hash n = true;
  dwf_parents p h : dag_edge self p h → is_Some (dag_nodes self !! p);
  dwf_heads h : h ∈ dag_heads self → is_Some (dag_nodes self !! h)
}.

Lemma dag_ok_wf self : dag_ok self → dag_wf self.
Proof. intros [Hh Hp _ Hhd _]. split; [done|done|]. by intros h [? _]%Hhd. Qed.

Lemma dag_add_node_wf self n : dag_wf self → dag_wf (dag_add_node self n).2.
Proof.
  intros Hwf. destruct (dag_add_node_cases self n) as [[_ ->]|[(p&_&_&_&->)|(Hv&Hps&self'&->&Hn&Hh&_)]];
    [done..|]. destruct Hwf as [Wh Wp Whd]. cbn. split.
  - intros h m. rewrite Hn, lookup_insert_Some. intros [[<- <-]|[_ Hm]]; [done|by apply Wh].
  - intros p h (m&Hm&Hp). rewrite Hn in *. apply lookup_insert_is_Some'. right.
    apply lookup_insert_Some in Hm as [[_ <-]|[_ Hm]]; [by auto|]. apply (Wp p h). by exists m.
  - intros h [->|[Hin _]]%Hh; rewrite Hn; apply lookup_insert_is_Some'; auto.
Qed.

Lemma dn_new_verify ops parents node_id w : dn_verify_hash (dn_new ops parents node_id w).1 = true.
Proof. unfold dn_verify_hash; cbn. by apply bool_decide_eq_true. Qed.

Lemma get_heads_hashes `{HashOrder} self h :
  dag_wf self → h ∈ dn_hash <$> dag_get_heads self ↔ h ∈ dag_heads self.
Proof.
  intros [Wh _ Whd]. unfold dag_get_heads. rewrite list_elem_of_fmap.
  setoid_rewrite list_elem_of_omap. setoid_rewrite elem_of_set_iter. split.
  - intros (n&->&h'&Hin&Hn). apply Wh in Hn as Hn'. destruct Hn' as [-> _]. done.
  - intros Hin. destruct (Whd h Hin) as [n Hn]. exists n. destruct (Wh h n Hn) as [<- _]. eauto.
Qed.

(** A new node on top of all heads is accepted and is the only head. *)
Lemma dag_add_on_heads `{HashOrder} self ops node_id w :
  dag_wf self →
  let n := (dn_new ops (dn_hash <$> dag_get_heads self) node_id w).1 in
  ∃ self', dag_add_node self n = (Ok (dn_hash n), self') ∧ dag_heads self' = {[dn_hash n]} ∧
    dag_nodes self' = <[dn_hash n := n]> (dag_nodes self).
Proof.
  intros Hwf n. assert (∀ p, p ∈ dn_parents n ↔ p ∈ dag_heads self) as Hps by (intros p; by apply get_heads_hashes).
  destruct (dag_add_node_cases self n) as [[Hv _]|[(p&_&Hp&Hnone&_)|(Hv&_&self'&->&Hn&Hh&_)]].
  - unfold n in Hv. by rewrite dn_new_verify in Hv.
  - apply Hps, (dwf_heads self Hwf) in Hp as [? Hs]. congruence.
  - exists self'. split_and!; [done| |done]. apply set_eq. intros h. rewrite Hh, Hps, elem_of_singleton. naive_solver.
Qed.
End weak_invariant.

(** * Termination of the traversal *)

Section termination.
Context `{HashOrder}.

(** The marks are restored by every call, whatever the graph. *)
Lemma dag_visit_total fuel (self : MerkleDAG) h V T R :
  (size (dom (dag_nodes self) ∖ T) + (if decide (h ∈ dom (dag_nodes self)) then 0 else 1) < fuel)%nat →
  ∃ V' R', dag_visit_node fuel self h (mkVisit V T R) = Some (mkVisit V' T R').
Proof.
  revert h V T R. induction fuel as [|fuel IH]; intros h V T R Hf; [lia|]. cbn [dag_visit_node].
  cbn [vs_visited vs_temp_mark vs_result].
  destruct (decide (h ∈ V)); [by eauto|]. destruct (decide (h ∈ T)) as [HT|HT]; [by eauto|].
  assert (size (dom (dag_nodes self) ∖ ({[h]} ∪ T)) < fuel)%nat as Hf'.
  { case_decide as Hh.
    - assert (dom (dag_nodes self) ∖ T = {[h]} ∪ dom (dag_nodes self) ∖ ({[h]} ∪ T)) as Heq.
      { apply set_eq. intros x. destruct (decide (x = h)); set_solver. }
      rewrite Heq, size_union, size_singleton in Hf by set_solver. lia.
    - assert (dom (dag_nodes self) ∖ ({[h]} ∪ T) ⊆ dom (dag_nodes self) ∖ T) as Hsub by set_solver.
      apply subseteq_size in Hsub. lia. }
  assert (∀ l V R, (∀ kv, kv ∈ l → kv.1 ∈ dom (dag_nodes self)) →
    ∃ V' R', foldl (λ acc child, s ← acc;
             if decide (h ∈ dn_parents child.2) then dag_visit_node fuel self child.1 s else Some s)
      (Some (mkVisit V ({[h]} ∪ T) R)) l = Some (mkVisit V' ({[h]} ∪ T) R')) as Hloop.
  { intros l. induction l as [|kv l IHl]; intros V1 R1 Hl; [by eauto|]. cbn [foldl mbind option_bind].
    assert (kv.1 ∈ dom (dag_nodes self)) as Hkv by (apply Hl; left).
    assert (∀ kv, kv ∈ l → kv.1 ∈ dom (dag_nodes self)) as Hl' by (intros; apply Hl; by right).
    destruct (decide (h ∈ dn_parents kv.2)); [|by apply IHl].
    destruct (IH kv.1 V1 ({[h]} ∪ T) R1) as (V2&R2&->); [rewrite decide_True by done; lia|by apply IHl]. }
  destruct (Hloop (map_iter (dag_nodes self)) V R) as (V'&R'&->).
  { intros [k v] Hkv%elem_of_map_iter. by apply elem_of_dom_2 in Hkv. }
  cbn. eexists _, _. do 2 f_equal. set_solver.
Qed.

Lemma dag_topological_sort_total (self : MerkleDAG) : is_Some (dag_topological_sort self).
Proof.
  unfold dag_topological_sort. destruct (dag_genesis self) as [g|]; [|by eauto].
  destruct (dag_visit_total (S (S (dag_len self))) self g ∅ ∅ []) as (V&R&->); [|by eauto].
  rewrite difference_empty_L, size_dom. unfold dag_len. case_decide; lia.
Qed.
End termination.

(** * The topological sort *)

Section toposort.
Context `{HashOrder} `{Blake3} `{Base64} `{SerdeJson} `{Rfc3339}.
Variables (self : MerkleDAG) (Hok : dag_ok self).
Variables (rank : string → nat) (Hrank : ∀ p h, dag_edge self p h → (rank p < rank h)%nat).

(** What holds of [visited] and [result] between two calls: the result lists the
    visited nodes once each, every node after all of its children. *)
Record visit_inv (V : gset string) (R : list DagNode) : Prop := {
  vi_dom h : h ∈ V ↔ h ∈ dn_hash <$> R;
  vi_nodup : NoDup (dn_hash <$> R);
  vi_nodes n : n ∈ R → dag_nodes self !! dn_hash n = Some n;
  vi_order R1 n R2 c : R = R1 ++ n :: R2 → dag_edge self (dn_hash n) c → c ∈ dn_hash <$> R1
}.

Lemma visit_inv_empty : visit_inv ∅ [].
Proof. split; cbn; try done; [set_solver|constructor|set_solver|]. by intros [] ???. Qed.

Lemma visit_inv_snoc V R n :
  visit_inv V R → dag_nodes self !! dn_hash n = Some n → dn_hash n ∉ V →
  (∀ c, dag_edge self (dn_hash n) c → c ∈ V) →
  visit_inv ({[dn_hash n]} ∪ V) (R ++ [n]).
Proof.
  intros [Hd Hnd Hn Ho] Hl Hnew Hch. split.
  - intros h. rewrite fmap_app, elem_of_app, elem_of_union, Hd. set_solver.
  - rewrite fmap_app. apply NoDup_app. split_and!; [done| |apply NoDup_singleton].
    intros h Hh%Hd. set_solver.
  - intros m. rewrite elem_of_app, list_elem_of_singleton. intros [Hm| ->]; [by apply Hn|done].
  - intros R1 m R2 c Heq Hedge. destruct R2 as [|m' R2] using rev_ind.
    + apply app_inj_tail in Heq as [<- <-]. by apply Hd, Hch.
    + rewrite app_comm_cons, app_assoc in Heq. apply app_inj_tail in Heq as [-> _]. by eapply Ho.
Qed.

Definition visits (h : string) (s : VisitState) (r : option VisitState) : Prop :=
  ∃ V R, r = Some (mkVisit V (vs_temp_mark s) R) ∧ visit_inv V R ∧ vs_visited s ⊆ V ∧ h ∈ V ∧
    ∀ x, x ∈ V → x ∈ vs_visited s ∨ rtc (dag_edge self) h x.

Definition visit_pre (h : string) (s : VisitState) : Prop :=
  visit_inv (vs_visited s) (vs_result s) ∧ is_Some (dag_nodes self !! h) ∧
  ∀ t, t ∈ vs_temp_mark s → is_Some (dag_nodes self !! t) ∧ (rank t < rank h)%nat.

Lemma rtc_rank h x : rtc (dag_edge self) h x → (rank h ≤ rank x)%nat.
Proof. induction 1 as [|a b c Hab _ IH]; [done|]. apply Hrank in Hab. lia. Qed.

(** The loop over the children, at the marks [T]. *)
Lemma visit_children fuel h l T s :
  (∀ c s, vs_temp_mark s = T → visit_pre c s → visits c s (dag_visit_node fuel self c s)) →
  (∀ kv, kv ∈ l → dag_nodes self !! kv.1 = Some kv.2) →
  vs_temp_mark s = T → visit_inv (vs_visited s) (vs_result s) →
  (∀ t, t ∈ T → is_Some (dag_nodes self !! t) ∧ (rank t ≤ rank h)%nat) →
  ∃ V R,
    foldl (λ acc child, s ← acc;
             if decide (h ∈ dn_parents child.2) then dag_visit_node fuel self child.1 s else Some s)
      (Some s) l = Some (mkVisit V T R) ∧
    visit_inv V R ∧ vs_visited s ⊆ V ∧
    (∀ kv, kv ∈ l → h ∈ dn_parents kv.2 → kv.1 ∈ V) ∧
    ∀ x, x ∈ V → x ∈ vs_visited s ∨ ∃ c, dag_edge self h c ∧ rtc (dag_edge self) c x.
Proof.
  intros Hvisit. revert s. induction l as [|[c n] l IH]; intros s Hl HT Hinv Ht.
  { destruct s as [V T' R]. cbn in *. subst T'. exists V, R. split_and!; try done; set_solver. }
  assert (dag_nodes self !! c = Some n) as Hc by (apply (Hl (c, n)); left).
  assert (∀ kv, kv ∈ l → dag_nodes self !! kv.1 = Some kv.2) as Hl' by (intros; apply Hl; by right).
  cbn [foldl fst snd mbind option_bind]. case_decide as Hp.
  - assert (dag_edge self h c) as Hedge by (by exists n).
    destruct (Hvisit c s) as (V&R&->&Hinv'&HV&HcV&HVd); [done| |].
    { split_and!; [done|by eexists|]. intros t. rewrite HT. intros [? Hle]%Ht. split; [done|].
      apply Hrank in Hedge. lia. }
    destruct (IH (mkVisit V (vs_temp_mark s) R)) as (V'&R'&->&Hinv''&HV'&Hch&HVd'); [done..|].
    exists V', R'. split_and!; [done|done|cbn in *; set_solver| |].
    + intros kv [->|Hkv]%elem_of_cons Hkp; [cbn in *; set_solver|by apply Hch].
    + intros x [Hx|Hx]%HVd'; [|by right]. cbn in Hx. apply HVd in Hx as [Hx|Hx]; [by left|]. right. eauto.
  - destruct (IH s) as (V'&R'&->&Hinv''&HV'&Hch&HVd'); [done..|].
    exists V', R'. split_and!; try done. intros kv [->|Hkv]%elem_of_cons Hkp; [done|by apply Hch].
Qed.

Lemma visit_node_spec fuel h s :
  visit_pre h s → (size (dom (dag_nodes self)) < fuel + size (vs_temp_mark s))%nat →
  visits h s (dag_visit_node fuel self h s).
Proof.
  revert h s. induction fuel as [|fuel IH]; intros h s (Hinv&Hh&Ht) Hf.
  { exfalso. assert (vs_temp_mark s ⊆ dom (dag_nodes self)) as Hsub.
    { intros t [Hs _]%Ht. by apply elem_of_dom. }
    apply subseteq_size in Hsub. lia. }
  cbn [dag_visit_node]. case_decide as Hv.
  { destruct s as [V T R]. exists V, R. split_and!; try done. intros x; by left. }
  case_decide as Hm; [exfalso; apply Ht in Hm as [_ ?]; lia|].
  set (T := {[h]} ∪ vs_temp_mark s).
  destruct (visit_children fuel h (map_iter (dag_nodes self)) T (mkVisit (vs_visited s) T (vs_result s)))
    as (V&R&->&Hinv'&HV&Hch&HVd); try done.
  { intros c s' HT Hpre. apply IH; [done|]. rewrite HT. unfold T.
    rewrite size_union by set_solver. rewrite size_singleton. lia. }
  { intros [k v] Hkv. by apply elem_of_map_iter. }
  { unfold T. intros t [->%elem_of_singleton|[? ?]%Ht]%elem_of_union; [done|]. split; [done|lia]. }
  cbn. destruct Hh as [n Hn]. rewrite Hn. destruct (dok_hash self Hok h n Hn) as [<- _].
  assert (dn_hash n ∉ V) as HnV.
  { intros [Hx|(c&Hedge&Hr)]%HVd; [done|]. apply Hrank in Hedge. apply rtc_rank in Hr. lia. }
  eexists _, _. split_and!.
  - f_equal. f_equal. unfold T. set_solver.
  - apply visit_inv_snoc; try done. intros c (m&Hcm&Hp). apply (Hch (c, m)); [|done]. by apply elem_of_map_iter.
  - cbn in *. set_solver.
  - set_solver.
  - intros x [->%elem_of_singleton|Hx]%elem_of_union; [by right|].
    apply HVd in Hx as [Hx|(c&Hedge&Hr)]; [by left|]. right. by eapply rtc_l.
Qed.

Lemma topological_sort_spec :
  ∃ l, dag_topological_sort self = Some l ∧ NoDup (dn_hash <$> l) ∧
    (∀ n, n ∈ l ↔ dag_nodes self !! dn_hash n = Some n ∧
       ∃ g, dag_genesis self = Some g ∧ rtc (dag_edge self) g (dn_hash n)) ∧
    (∀ i j p c, l !! i = Some p → l !! j = Some c → dn_hash p ∈ dn_parents c → (i < j)%nat).
Proof.
  unfold dag_topological_sort. pose proof (dok_genesis self Hok) as Hgen.
  destruct (dag_genesis self) as [g|].
  2:{ exists []. split_and!; [done|constructor| |by intros ????]. intros n. rewrite Hgen, lookup_empty.
      split; [by intros ?%elem_of_nil|by intros [??]]. }
  destruct Hgen as (n0&Hg&Hroot).
  destruct (visit_node_spec (S (S (dag_len self))) g (mkVisit ∅ ∅ [])) as (V&R&->&Hinv&_&HgV&HVd).
  { split_and!; [apply visit_inv_empty|by eexists|cbn; set_solver]. }
  { cbn. rewrite size_dom. unfold dag_len. lia. }
  destruct Hinv as [Hd Hnd Hn Ho]. exists (reverse R). split; [done|].
  assert (∀ p c, p ∈ V → dag_edge self p c → c ∈ V) as Hclosed.
  { intros p c Hp Hedge. apply Hd in Hp. apply list_elem_of_fmap in Hp as (n&->&Hin).
    apply list_elem_of_split in Hin as (R1&R2&HR). pose proof (Ho R1 n R2 c HR Hedge) as Hc.
    apply Hd. rewrite HR, fmap_app. set_solver. }
  assert (∀ x, rtc (dag_edge self) g x → x ∈ V) as Hreach.
  { intros x Hx. revert HgV. generalize g Hx. clear -Hclosed. induction 1; eauto. }
  split_and!.
  - by rewrite fmap_reverse, reverse_Permutation.
  - intros n. rewrite elem_of_reverse. split.
    + intros Hin. split; [by apply Hn|]. exists g. split; [done|].
      assert (dn_hash n ∈ V) as HV by (by apply Hd, list_elem_of_fmap_2). apply HVd in HV as [HV|HV]; [|done].
      cbn in HV. set_solver.
    + intros (Hl&g'&[= <-]&Hr). apply Hreach, Hd, list_elem_of_fmap in Hr as (m&Hm&Hin).
      apply Hn in Hin as Hlm. congruence.
  - intros i j p c Hi Hj Hp.
    assert (p ∈ R ∧ c ∈ R) as [HpR HcR].
    { split; rewrite <- (reverse_involutive R); apply elem_of_reverse; by eapply list_elem_of_lookup_2. }
    assert (dag_edge self (dn_hash p) (dn_hash c)) as Hedge by (exists c; split; [by apply Hn|done]).
    apply list_elem_of_split in HpR as (R1&R2&HR). pose proof (Ho R1 p R2 _ HR Hedge) as Hc.
    apply list_elem_of_fmap in Hc as (c'&Hcc&Hc').
    assert (c = c') as <-.
    { apply Hn in HcR. assert (c' ∈ R) as Hc'R by (rewrite HR; set_solver). apply Hn in Hc'R. congruence. }
    apply list_elem_of_split in Hc' as (R3&R4&HR1).
    assert (NoDup (reverse R)) as HndR by (rewrite reverse_Permutation; by eapply NoDup_fmap_1).
    assert (reverse R !! length R2 = Some p) as Hi'.
    { rewrite HR, reverse_app, reverse_cons, <- app_assoc, lookup_app_r; rewrite ?length_reverse; [|lia].
      by rewrite Nat.sub_diag. }
    assert (reverse R !! (length R2 + 1 + length R4)%nat = Some c) as Hj'.
    { rewrite HR, HR1, reverse_app, reverse_cons, reverse_app, reverse_cons, <- !app_assoc.
      rewrite (lookup_app_r (reverse R2)), (lookup_app_r [p]), (lookup_app_r (reverse R4));
        rewrite ?length_reverse; cbn [length]; try lia.
      by replace (length R2 + 1 + length R4 - length R2 - 1 - length R4)%nat with 0%nat by lia. }
    rewrite (NoDup_lookup _ _ _ _ HndR Hi Hi'), (NoDup_lookup _ _ _ _ HndR Hj Hj'). lia.
Qed.
End toposort.

(** * Merging histories *)

Section merging.
Context `{HashOrder} `{Blake3} `{Base64} `{SerdeJson} `{Rfc3339}.
Implicit Types (self other : MerkleDAG) (n : DagNode) (h : string).

#[export] Instance dn_before_total : Total dn_before.
Proof. intros a b. unfold dn_before. lia. Qed.
#[export] Instance dn_before_trans : Transitive dn_before.
Proof. intros a b c. unfold dn_before. lia. Qed.

Lemma dag_edge_mono self self' p c :
  dag_nodes self ⊆ dag_nodes self' → dag_edge self p c → dag_edge self' p c.
Proof. intros Hsub (n&Hn&Hp). exists n. split; [|done]. by eapply lookup_weaken. Qed.

(** The loop of [merge] over nodes of the other history. *)
Lemma dag_merge_nodes_spec self other ns :
  dag_ok self → dag_ok other → (∀ n, n ∈ ns → dag_nodes other !! dn_hash n = Some n) →
  let '(r, self') := dag_merge_nodes self other ns in
  dag_ok self' ∧ dag_nodes self ⊆ dag_nodes self' ∧
  (∀ h n, dag_nodes self' !! h = Some n → dag_nodes self !! h = Some n ∨ dag_nodes other !! h = Some n) ∧
  match r with
  | Ok _ => ∀ n, n ∈ ns → is_Some (dag_nodes self' !! dn_hash n)
  | Err e => ∃ ns1 n ns2 p, ns = ns1 ++ n :: ns2 ∧ p ∈ dn_parents n ∧
      dag_nodes self !! p = None ∧ (p ∉ dn_hash <$> ns1) ∧
      e = MerkleDagError ("Parent node not found: " +:+ p)
  | Panic => False
  end.
Proof.
  intros Hok Hoth. revert self Hok. induction ns as [|n ns IH]; intros self Hok Hns; cbn [dag_merge_nodes].
  { split_and!; [done|done|by left|]. by intros n ?%elem_of_nil. }
  assert (dag_nodes other !! dn_hash n = Some n) as Hn by (apply Hns; left).
  assert (∀ n, n ∈ ns → dag_nodes other !! dn_hash n = Some n) as Hns' by (intros; apply Hns; by right).
  destruct (dag_contains self (dn_hash n)) eqn:Hc.
  - unfold dag_contains in Hc. apply bool_decide_eq_true in Hc.
    specialize (IH self Hok Hns'). destruct (dag_merge_nodes self other ns) as [[u|e|] self'];
      destruct IH as (Hok'&Hsub&Hor&Hr); split_and!; try done.
    + intros m [->|Hm]%elem_of_cons; [|by auto]. destruct Hc as [m' Hm']. exists m'. by eapply lookup_weaken.
    + destruct Hr as (ns1&m&ns2&p&->&Hp&Hnone&Hnot&->). exists (n :: ns1), m, ns2, p. split_and!; try done.
      rewrite fmap_cons, not_elem_of_cons. split; [|done]. intros ->. destruct Hc as [? Hc]. congruence.
  - unfold dag_contains in Hc. apply bool_decide_eq_false, eq_None_not_Some in Hc.
    destruct (existsb _ _) eqn:Hex.
    { exfalso. apply existsb_exists in Hex as (p&Hp%list_elem_of_In&Hmiss).
      assert (is_Some (dag_nodes other !! p)) as Hs by (apply (dok_parents other Hoth p (dn_hash n)); by exists n).
      unfold dag_contains in Hmiss. rewrite (bool_decide_true (is_Some (dag_nodes other !! p)) Hs) in Hmiss.
      by rewrite andb_false_r in Hmiss. }
    destruct (dok_hash other Hoth _ _ Hn) as [_ Hv].
    destruct (dag_add_node_cases self n) as [[Hv' _]|[(p&_&Hp&Hnone&->)|(_&Hps&self1&->&Hn1&Hh1&Hg1)]].
    { congruence. }
    { split_and!; [done|done|by left|]. exists [], n, ns, p. split_and!; try done. by intros ?%elem_of_nil. }
    assert (dag_ok self1) as Hok1 by (by eapply dag_ok_extend).
    assert (dag_nodes self ⊆ dag_nodes self1) as Hsub1 by (rewrite Hn1; by apply insert_subseteq).
    specialize (IH self1 Hok1 Hns'). destruct (dag_merge_nodes self1 other ns) as [[u|e|] self'];
      destruct IH as (Hok'&Hsub&Hor&Hr).
    + split_and!; [done|by etrans| |].
      * intros h m Hm. apply Hor in Hm as [Hm|Hm]; [|by right]. rewrite Hn1, lookup_insert_Some in Hm.
        destruct Hm as [[<- <-]|[_ Hm]]; [by right|by left].
      * intros m [->|Hm]%elem_of_cons; [|by auto]. exists n. eapply lookup_weaken; [|done].
        rewrite Hn1. apply lookup_insert_eq.
    + split_and!; [done|by etrans| |].
      * intros h m Hm. apply Hor in Hm as [Hm|Hm]; [|by right]. rewrite Hn1, lookup_insert_Some in Hm.
        destruct Hm as [[<- <-]|[_ Hm]]; [by right|by left].
      * destruct Hr as (ns1&m&ns2&p&->&Hp&Hnone&Hnot&->). exists (n :: ns1), m, ns2, p.
        rewrite Hn1 in Hnone. apply lookup_insert_None in Hnone as [Hnone Hne]. split_and!; try done.
        rewrite fmap_cons, not_elem_of_cons. split; [by intros ->|done].
    + done.
Qed.

(** Every node of a history is younger than its parents. *)
Definition dag_monotone self : Prop :=
  ∀ n p np, dag_nodes self !! dn_hash n = Some n → p ∈ dn_parents n → dag_nodes self !! p = Some np →
    (dn_timestamp np < dn_timestamp n)%Z.

Lemma elem_of_other_nodes other n :
  dag_ok other → n ∈ merge_sort dn_before (map_iter (dag_nodes other)).*2 ↔ dag_nodes other !! dn_hash n = Some n.
Proof.
  intros Hoth. rewrite merge_sort_Permutation, list_elem_of_fmap. split.
  - intros ([h m]&->&Hm%elem_of_map_iter). cbn. by destruct (dok_hash other Hoth h m Hm) as [-> _].
  - intros Hn. exists (dn_hash n, n). by rewrite elem_of_map_iter.
Qed.

Lemma dag_merge_spec self other :
  dag_ok self → dag_ok other →
  let '(r, self') := dag_merge self other in
  dag_ok self' ∧ dag_nodes self ⊆ dag_nodes self' ∧
  (∀ h n, dag_nodes self' !! h = Some n → dag_nodes self !! h = Some n ∨ dag_nodes other !! h = Some n) ∧
  match r with
  | Ok _ => dom (dag_nodes self') = dom (dag_nodes self) ∪ dom (dag_nodes other)
  | Err e => ∃ n p np, dag_nodes other !! dn_hash n = Some n ∧ p ∈ dn_parents n ∧
      dag_nodes other !! p = Some np ∧ dag_nodes self !! p = None ∧
      (dn_timestamp n ≤ dn_timestamp np)%Z ∧ e = MerkleDagError ("Parent node not found: " +:+ p)
  | Panic => False
  end.
Proof.
  intros Hok Hoth. unfold dag_merge. set (ns := merge_sort _ _).
  assert (∀ n, n ∈ ns ↔ dag_nodes other !! dn_hash n = Some n) as Hns by (intros; by apply elem_of_other_nodes).
  pose proof (dag_merge_nodes_spec self other ns Hok Hoth (λ n, proj1 (Hns n))) as Hm.
  destruct (dag_merge_nodes self other ns) as [r self']. destruct Hm as (Hok'&Hsub&Hor&Hr).
  split_and!; [done..|]. destruct r as [u|e|]; [|clear Hok' Hor|done].
  - apply set_eq. intros h. rewrite elem_of_union, !elem_of_dom. split.
    + intros [n Hn]. destruct (Hor _ _ Hn); [by left|by right].
    + intros [[n Hn]|[n Hn]]; [exists n; by eapply lookup_weaken|].
      destruct (dok_hash other Hoth _ _ Hn) as [<- _]. by apply Hr, Hns.
  - destruct Hr as (ns1&n&ns2&p&Heq&Hp&Hnone&Hnot&->).
    assert (n ∈ ns) as Hin by (rewrite Heq; set_solver). apply Hns in Hin as Hn.
    destruct (dok_parents other Hoth p (dn_hash n)) as [np Hnp]; [by exists n|].
    exists n, p, np. split_and!; try done.
    destruct (dok_hash other Hoth _ _ Hnp) as [Hh _].
    assert (np ∈ ns) as Hnpin by (apply Hns; by rewrite Hh).
    rewrite Heq, elem_of_app, elem_of_cons in Hnpin. destruct Hnpin as [Hl|[->|Hl]].
    + destruct Hnot. rewrite <- Hh. by apply list_elem_of_fmap_2.
    + lia.
    + assert (StronglySorted dn_before ns) as Hs by (apply StronglySorted_merge_sort; apply _).
      rewrite Heq in Hs. apply StronglySorted_app in Hs as (_&_&Hs%StronglySorted_cons).
      destruct Hs as [Hs _]. rewrite Forall_forall in Hs. by apply Hs.
Qed.

Lemma dag_merge_monotone self other :
  dag_ok self → dag_ok other → dag_monotone other →
  ∃ self', dag_merge self other = (Ok tt, self') ∧ dag_ok self' ∧
    dom (dag_nodes self') = dom (dag_nodes self) ∪ dom (dag_nodes other) ∧
    (∀ h n, dag_nodes self' !! h = Some n → dag_nodes self !! h = Some n ∨ dag_nodes other !! h = Some n).
Proof.
  intros Hok Hoth Hmono. pose proof (dag_merge_spec self other Hok Hoth) as Hm.
  destruct (dag_merge self other) as [[[]|e|] self']; destruct Hm as (Hok'&_&Hor&Hr); [by exists self'| |done].
  exfalso. destruct Hr as (n&p&np&Hn&Hp&Hnp&_&Hle&_). specialize (Hmono n p np Hn Hp Hnp). lia.
Qed.

(** Heads are determined by the nodes. *)
Lemma dag_ok_heads_eq self other :
  dag_ok self → dag_ok other → dag_nodes self = dag_nodes other → dag_heads self = dag_heads other.
Proof.
  intros Hs Ho Heq. apply set_eq. intros h. rewrite (dok_heads self Hs), (dok_heads other Ho).
  unfold dag_edge. by rewrite Heq.
Qed.
End merging.

Lemma dag_compute_root_heads `{Blake3} `{Base64} (o1 o2 : HashOrder) (a b : MerkleDAG) :
  dag_heads a = dag_heads b →
  @dag_compute_root o1 _ _ a = @dag_compute_root o2 _ _ b.
Proof.
  intros Hh. unfold dag_compute_root. do 3 f_equal. apply sort_strings_proper.
  by rewrite !set_iter_perm, Hh.
Qed.

Section properties.
Context `{Blake3} `{Base64} `{SerdeJson} `{Rfc3339}.

(** Adding a node to a history, on every branch: a node whose hash does not verify
    or one of whose parents is not held is refused with its error and the history is
    unchanged; otherwise the node is stored under its hash, it becomes a head and its
    parents stop being heads, and when the hash was not held before the invariant of
    the history (hash-addressed, parents held, acyclic, heads = childless nodes,
    parentless genesis) is kept. *)
Theorem dag_add_node_outcome (self : MerkleDAG) (n : DagNode) :
  dag_ok self →
  match dag_add_node self n with
  | (Ok h, self') =>
      h = dn_hash n ∧ dn_verify_hash n = true ∧ (∀ p, p ∈ dn_parents n → is_Some (dag_nodes self !! p)) ∧
      dag_nodes self' = <[h := n]> (dag_nodes self) ∧ h ∈ dag_heads self' ∧
      (∀ p, p ∈ dn_parents n → p ∈ dag_heads self' → p = h) ∧
      (dag_nodes self !! h = None → dag_ok self')
  | (Err e, self') =>
      self' = self ∧
      ((e = MerkleDagError "Invalid node hash" ∧ dn_verify_hash n = false) ∨
       ∃ p, e = MerkleDagError ("Parent node not found: " +:+ p) ∧ p ∈ dn_parents n ∧ dag_nodes self !! p = None)
  | (Panic, _) => False
  end.
Proof.
  intros Hok.
  destruct (dag_add_node_cases self n) as [[Hv ->]|[(p&Hv&Hp&Hnone&->)|(Hv&Hps&self'&->&Hn&Hh&Hg)]].
  - split; [done|by left].
  - split; [done|right; eauto].
  - split_and!; try done.
    + apply Hh. by left.
    + intros p Hp [?|[_ ?]]%Hh; done.
    + intros Hf. by eapply dag_ok_extend.
Qed.

(** What merging two histories does, whatever order the hash maps are visited in:
    the result keeps the invariant, loses no node of [self] and holds only nodes of the
    two; on success it holds every node of both; an error names a missing parent and
    occurs only where a node of [other] is not younger than that parent. *)
Theorem dag_merge_outcome `{HashOrder} (self other : MerkleDAG) :
  dag_ok self → dag_ok other →
  let '(r, self') := dag_merge self other in
  dag_ok self' ∧ dag_nodes self ⊆ dag_nodes self' ∧
  (∀ h n, dag_nodes self' !! h = Some n → dag_nodes self !! h = Some n ∨ dag_nodes other !! h = Some n) ∧
  match r with
  | Ok _ => dom (dag_nodes self') = dom (dag_nodes self) ∪ dom (dag_nodes other)
  | Err e => ∃ n p np, dag_nodes other !! dn_hash n = Some n ∧ p ∈ dn_parents n ∧
      dag_nodes other !! p = Some np ∧ dag_nodes self !! p = None ∧
      (dn_timestamp n ≤ dn_timestamp np)%Z ∧ e = MerkleDagError ("Parent node not found: " +:+ p)
  | Panic => False
  end.
Proof. apply dag_merge_spec. Qed.

(** The histories that come about by additions of nodes that are not held yet and by merges,
    each with an iteration order of its own. *)
Inductive dag_built : MerkleDAG → Prop :=
  | built_new : dag_built dag_new
  | built_add self n : dag_built self → dag_nodes self !! dn_hash n = None → dag_built (dag_add_node self n).2
  | built_merge (o : HashOrder) self other : dag_built self → dag_built other → dag_built (@dag_merge o _ _ _ _ self other).2.

Lemma dag_built_ok self : dag_built self → dag_ok self.
Proof.
  induction 1 as [|self n _ IH Hf|o self other _ IHs _ IHo]; [apply dag_new_ok|by apply dag_add_node_ok|].
  pose proof (@dag_merge_spec o _ _ _ _ self other IHs IHo) as Hm. destruct (dag_merge self other). apply Hm.
Qed.

(** C5: Histories converge.  Take any two that were built by adding nodes which were not held
    yet, valid or not, and by merging such histories, successfully or not.  If in both every node is
    younger than its parents and no hash stands for two different nodes, merging either into
    the other succeeds and gives the same nodes, the same heads and the same Merkle root, even
    when the two replicas visit their hash maps in different orders.  (A node that is added
    again is a head again, [dag_readd_makes_head]: such histories are excluded.) *)
Theorem dag_merge_converges (o1 o2 : HashOrder) (a b : MerkleDAG) :
  dag_built a → dag_built b → dag_monotone a → dag_monotone b →
  (∀ h na nb, dag_nodes a !! h = Some na → dag_nodes b !! h = Some nb → na = nb) →
  ∃ ab ba, @dag_merge o1 _ _ _ _ a b = (Ok tt, ab) ∧ @dag_merge o2 _ _ _ _ b a = (Ok tt, ba) ∧
    dag_nodes ab = dag_nodes ba ∧ dag_heads ab = dag_heads ba ∧
    @dag_compute_root o1 _ _ ab = @dag_compute_root o2 _ _ ba.
Proof.
  intros Ha%dag_built_ok Hb%dag_built_ok Hma Hmb Hagree.
  destruct (@dag_merge_monotone o1 _ _ _ _ a b Ha Hb Hmb) as (ab&Hab&Hokab&Hdab&Horab).
  destruct (@dag_merge_monotone o2 _ _ _ _ b a Hb Ha Hma) as (ba&Hba&Hokba&Hdba&Horba).
  exists ab, ba. assert (dag_nodes ab = dag_nodes ba) as Hn.
  { apply map_eq. intros h. assert (is_Some (dag_nodes ab !! h) ↔ is_Some (dag_nodes ba !! h)) as Hiff.
    { rewrite <- !elem_of_dom, Hdab, Hdba. set_solver. }
    destruct (dag_nodes ab !! h) as [n|] eqn:E1, (dag_nodes ba !! h) as [m|] eqn:E2; try done.
    - f_equal. apply Horab in E1. apply Horba in E2. destruct E1, E2; try congruence; [by eapply Hagree|].
      symmetry. by eapply Hagree.
    - destruct (proj1 Hiff) as [? [=]]. by eexists.
    - destruct (proj2 Hiff) as [? [=]]. by eexists. }
  pose proof (dag_ok_heads_eq ab ba Hokab Hokba Hn) as Hh.
  split_and!; [done..|]. by apply dag_compute_root_heads.
Qed.

(** C7: The topological sort terminates on every history that keeps the invariant, lists
    each node reachable from the genesis exactly once and nothing else, and puts every
    parent before its children. *)
Theorem dag_topological_sort_correct `{HashOrder} (self : MerkleDAG) :
  dag_ok self →
  ∃ l, dag_topological_sort self = Some l ∧ NoDup (dn_hash <$> l) ∧
    (∀ n, n ∈ l ↔ dag_nodes self !! dn_hash n = Some n ∧
       ∃ g, dag_genesis self = Some g ∧ rtc (dag_edge self) g (dn_hash n)) ∧
    (∀ i j p c, l !! i = Some p → l !! j = Some c → dn_hash p ∈ dn_parents c → (i < j)%nat).
Proof.
  intros Hok. destruct (dok_acyclic self Hok) as [rank Hrank]. by eapply topological_sort_spec.
Qed.
End properties.

(** ** Witnesses and concrete runs *)

Section examples.
#[local] Existing Instance plain_order.
#[local] Existing Instance toy_blake3.
#[local] Existing Instance toy_base64.
#[local] Existing Instance toy_json.
#[local] Existing Instance toy_rfc3339.

(** The n-th node made at instant n. *)
Definition ex_node (t : Instant) (parents : list string) (node_id : string) : DagNode :=
  (dn_new [] parents node_id (mkWorld (λ _, t) 0 N.of_nat 0)).1.
Definition ex_g : DagNode := ex_node 0 [] "g".
Definition ex_n1 : DagNode := ex_node 1 [dn_hash ex_g] "a".
Definition ex_n2 : DagNode := ex_node 2 [dn_hash ex_g] "b".
Definition ex_dag (nodes : list DagNode) : MerkleDAG :=
  foldl (λ d n, (dag_add_node d n).2) dag_new nodes.
Definition ex_d1 : MerkleDAG := ex_dag [ex_g; ex_n1].
Definition ex_d2 : MerkleDAG := ex_dag [ex_g; ex_n2].

Lemma ex_d1_built : dag_built ex_d1.
Proof. repeat (apply built_add; [|vm_compute; reflexivity]). apply built_new. Qed.
Lemma ex_d2_built : dag_built ex_d2.
Proof. repeat (apply built_add; [|vm_compute; reflexivity]). apply built_new. Qed.
Lemma ex_d1_ok : dag_ok ex_d1.
Proof. apply dag_built_ok, ex_d1_built. Qed.
Lemma ex_d2_ok : dag_ok ex_d2.
Proof. apply dag_built_ok, ex_d2_built. Qed.

Lemma ex_nodes n : n ∈ [ex_n1; ex_n2] →
  dag_nodes (ex_dag [ex_g; n]) = <[dn_hash n := n]> (<[dn_hash ex_g := ex_g]> ∅).
Proof. intros [->|[->|[]%elem_of_nil]%elem_of_cons]%elem_of_cons;
  match goal with |- _ = ?r => vm_cast_no_check (eq_refl r) end. Qed.

Lemma ex_monotone n : n ∈ [ex_n1; ex_n2] → dag_monotone (ex_dag [ex_g; n]).
Proof.
  intros Hn. unfold dag_monotone. rewrite (ex_nodes n Hn).
  assert (dn_parents n = [dn_hash ex_g] ∧ (0 < dn_timestamp n)%Z ∧ dn_hash n ≠ dn_hash ex_g) as (Hp&Ht&Hne).
  { apply elem_of_cons in Hn as [->|[->|[]%elem_of_nil]%elem_of_cons]; vm_compute; split_and!; congruence. }
  intros m p np Hm Hmp. apply lookup_insert_Some in Hm as [[_ <-]|[_ Hm]].
  - rewrite Hp in Hmp. apply list_elem_of_singleton in Hmp as ->. rewrite lookup_insert_ne by done.
    rewrite lookup_insert_eq. by intros [= <-].
  - apply lookup_insert_Some in Hm as [[_ <-]|[_ Hm]]; [|by rewrite lookup_empty in Hm].
    by apply elem_of_nil in Hmp.
Qed.

Lemma ex_agree h na nb : dag_nodes ex_d1 !! h = Some na → dag_nodes ex_d2 !! h = Some nb → na = nb.
Proof.
  unfold ex_d1, ex_d2. rewrite !ex_nodes by set_solver. rewrite !lookup_insert_Some, !lookup_empty.
  intros [[<- <-]|[_ [[<- <-]|[_ [=]]]]] [[Hh <-]|[_ [[Hh <-]|[_ [=]]]]]; try done;
    vm_compute in Hh; discriminate Hh.
Qed.

Lemma dag_add_node_outcome_witness :
  dag_ok ex_d1 ∧ dag_ok (dag_add_node ex_d1 ex_n2).2 ∧
  (dag_add_node ex_d1 (ex_node 5 ["missing"] "c")).2 = ex_d1.
Proof.
  pose proof ex_d1_ok as Hok.
  pose proof (dag_add_node_outcome ex_d1 ex_n2 Hok) as H1.
  pose proof (dag_add_node_outcome ex_d1 (ex_node 5 ["missing"] "c") Hok) as H2.
  split; [exact Hok|]. split.
  - destruct (dag_add_node ex_d1 ex_n2) as [[h|e|] d] eqn:E; [|vm_compute in E; discriminate E..].
    destruct H1 as (->&_&_&_&_&_&H1). apply H1. vm_compute. reflexivity.
  - destruct (dag_add_node ex_d1 (ex_node 5 ["missing"] "c")) as [[h|e|] d] eqn:E;
      [vm_compute in E; discriminate E|apply H2|destruct H2].
Defined.

Lemma dag_merge_outcome_witness :
  dag_ok ex_d1 ∧ dag_ok ex_d2 ∧ (dag_merge ex_d1 ex_d2).1 = Ok tt ∧
  dom (dag_nodes (dag_merge ex_d1 ex_d2).2) = dom (dag_nodes ex_d1) ∪ dom (dag_nodes ex_d2).
Proof.
  pose proof (dag_merge_outcome ex_d1 ex_d2 ex_d1_ok ex_d2_ok) as Hm.
  split; [apply ex_d1_ok|]. split; [apply ex_d2_ok|]. split; [vm_compute; reflexivity|].
  destruct (dag_merge ex_d1 ex_d2) as [[u|e|] d] eqn:E; [apply Hm|vm_compute in E; discriminate E..].
Defined.

Lemma dag_merge_converges_witness :
  @dag_compute_root plain_order _ _ (dag_merge ex_d1 ex_d2).2 =
  @dag_compute_root reverse_order _ _ (@dag_merge reverse_order _ _ _ _ ex_d2 ex_d1).2.
Proof.
  destruct (dag_merge_converges plain_order reverse_order ex_d1 ex_d2 ex_d1_built ex_d2_built
    (ex_monotone ex_n1 ltac:(left)) (ex_monotone ex_n2 ltac:(right; left)) ex_agree)
    as (ab&ba&Eab&Eba&_&_&Hroot).
  rewrite Eab, Eba. exact Hroot.
Defined.

Lemma dag_topological_sort_correct_witness :
  (λ l : list DagNode, dn_node_id <$> l) <$> dag_topological_sort ex_d1 = Some ["g"; "a"] ∧
  ∃ l, dag_topological_sort ex_d1 = Some l ∧ NoDup (dn_hash <$> l).
Proof.
  split; [vm_compute; reflexivity|].
  destruct (dag_topological_sort_correct ex_d1 ex_d1_ok) as (l&Hl&Hnd&_). exists l. split; [exact Hl|exact Hnd].
Defined.

(** Adding a node that is already held and has children makes it a head again. *)
Example dag_readd_makes_head :
  (dag_add_node ex_d1 ex_g).1 = Ok (dn_hash ex_g) ∧
  bool_decide (dag_heads (dag_add_node ex_d1 ex_g).2 = {[dn_hash ex_g; dn_hash ex_n1]}) = true.
Proof. vm_compute. split; reflexivity. Qed.

(** A second parentless node is stored and is a head, and the topological sort, which
    starts from the genesis, leaves it out. *)
Example dag_second_root_dropped :
  let d := ex_dag [ex_g; ex_node 3 [] "r"] in
  dag_len d = 2 ∧ (λ l : list DagNode, dn_node_id <$> l) <$> dag_topological_sort d = Some ["g"].
Proof. vm_compute. split; reflexivity. Qed.

(** A child stamped before its parent, as clocks that disagree give, makes the merge
    of a correct history fail after part of it is taken over. *)
Example dag_merge_skewed :
  let late := ex_node 9 [dn_hash ex_g] "late" in
  let child := ex_node 4 [dn_hash late] "child" in
  let other := ex_dag [ex_g; late; child] in
  dag_len other = 3 ∧ dag_len (dag_merge dag_new other).2 = 1 ∧
  (dag_merge dag_new other).1 = Err (MerkleDagError ("Parent node not found: " +:+ dn_hash late)).
Proof. vm_compute. split_and!; reflexivity. Qed.
End examples.
