(* ===== verification/Anchoring.v ===== *)
(** The anchoring service of did:ajna, [src/did/src/ajna/anchoring.rs]: the latest
    anchor and the list of all anchors of every DID.

    [anc_submit] is the composition of the sections of [submit_anchor] that run
    between two acquisitions of a lock, so that interleavings of two submissions
    can be written down.  [anc_ok] is the invariant of the service when submissions
    run one after the other. *)
From S2P Require Import Prelude AjnaTypes Hashing MerkleDag.

(** [hex::encode] of the crate [hex]. *)
Class Hex := { hex_encode : string → string }.

(** [src/did/src/ajna/anchoring.rs:38-66] AnchorRecord *)
Record AnchorRecord := mkAnchorRecord {
  anc_did : string;
  anc_merkle_root : string;
  anc_tx_hash : string;
  anc_block_number : N;
  anc_timestamp : Instant;
  anc_network : string;
  anc_operation_count : option N;
  anc_signature : option string
}.

(** [src/did/src/ajna/anchoring.rs:69-88] AnchorRecord::new *)
Definition anc_new (did merkle_root tx_hash : string) (block_number : N) (network : string)
    (w : World) : AnchorRecord * World :=
  let '(timestamp, w) := utc_now w in
  (mkAnchorRecord did merkle_root tx_hash block_number timestamp network None None, w).

(** [src/did/src/ajna/anchoring.rs:90-94] AnchorRecord::with_operation_count *)
Definition anc_with_operation_count (self : AnchorRecord) (count : N) : AnchorRecord :=
  mkAnchorRecord (anc_did self) (anc_merkle_root self) (anc_tx_hash self) (anc_block_number self)
    (anc_timestamp self) (anc_network self) (Some count) (anc_signature self).

(** [src/did/src/ajna/anchoring.rs:96-100] AnchorRecord::with_signature *)
Definition anc_with_signature (self : AnchorRecord) (signature : string) : AnchorRecord :=
  mkAnchorRecord (anc_did self) (anc_merkle_root self) (anc_tx_hash self) (anc_block_number self)
    (anc_timestamp self) (anc_network self) (anc_operation_count self) (Some signature).

(** [src/did/src/ajna/anchoring.rs:103-119] AnchoringService *)
Record AnchoringService := mkAnchoring {
  as_anchors : gmap string AnchorRecord;
  as_history : gmap string (list AnchorRecord);
  as_network : string;
  as_min_anchor_interval : N
}.

(** [src/did/src/ajna/anchoring.rs:122-134] AnchoringService::new *)
Definition as_new (network : string) (min_anchor_interval : N) : AnchoringService :=
  mkAnchoring ∅ ∅ network min_anchor_interval.

(** [signed_duration_since] followed by [num_seconds]: whole seconds, towards zero. *)
Definition seconds_between (now earlier : Instant) : Z := Z.quot (now - earlier) 1000000000.

(** [src/did/src/ajna/anchoring.rs:136-153] AnchoringService::should_anchor *)
Definition as_should_anchor (self : AnchoringService) (did : string) (w : World) : bool * World :=
  match as_anchors self !! did with
  | None => (true, w)
  | Some last_anchor =>
      let '(now, w) := utc_now w in
      let elapsed := seconds_between now (anc_timestamp last_anchor) in
      (bool_decide (u64_as_i64 (as_min_anchor_interval self) ≤ elapsed)%Z, w)
  end.

(** [src/did/src/ajna/anchoring.rs:259-263] AnchoringService::stats (the number of anchors in the histories) *)
Definition anchors_total (history : gmap string (list AnchorRecord)) : N :=
  map_fold (λ _ v n, N.of_nat (length v) + n)%N 0%N history.

(** [src/did/src/ajna/anchoring.rs:295-302] AnchoringService::get_mock_block_number *)
Definition as_get_mock_block_number (self : AnchoringService) : N :=
  add64 1000000 (anchors_total (as_history self)).

(** [src/did/src/ajna/anchoring.rs:222-226] AnchoringService::get_anchor *)
Definition as_get_anchor (self : AnchoringService) (did : string) : option AnchorRecord :=
  as_anchors self !! did.

(** [src/did/src/ajna/anchoring.rs:228-232] AnchoringService::get_anchor_history *)
Definition as_get_anchor_history (self : AnchoringService) (did : string) : list AnchorRecord :=
  default [] (as_history self !! did).

(** [src/did/src/ajna/anchoring.rs:234-249] AnchoringService::verify_anchor *)
Definition as_verify_anchor (self : AnchoringService) (did merkle_root : string) : option bool :=
  (λ anchor, bool_decide (anc_merkle_root anchor = merkle_root)) <$> as_anchors self !! did.

(** [src/did/src/ajna/anchoring.rs:251-255] AnchoringService::is_anchored *)
Definition as_is_anchored (self : AnchoringService) (did : string) : bool :=
  bool_decide (is_Some (as_anchors self !! did)).

(** [src/did/src/ajna/anchoring.rs:257-270] AnchoringService::stats *)
Definition as_stats (self : AnchoringService) : nat * N * string :=
  (size (as_anchors self), anchors_total (as_history self), as_network self).

(** [src/did/src/ajna/anchoring.rs:199-203] AnchoringService::submit_anchor (the latest anchor) *)
Definition as_store_anchor (self : AnchoringService) (did : string) (anchor : AnchorRecord) : AnchoringService :=
  mkAnchoring (<[did := anchor]> (as_anchors self)) (as_history self) (as_network self)
    (as_min_anchor_interval self).

(** [src/did/src/ajna/anchoring.rs:205-212] AnchoringService::submit_anchor (the history) *)
Definition as_push_history (self : AnchoringService) (did : string) (anchor : AnchorRecord) : AnchoringService :=
  mkAnchoring (as_anchors self)
    (<[did := default [] (as_history self !! did) ++ [anchor]]> (as_history self))
    (as_network self) (as_min_anchor_interval self).

Section submit.
Context `{Blake3} `{Hex} `{Rfc3339}.

(** [src/did/src/ajna/anchoring.rs:284-293] AnchoringService::create_mock_tx_hash *)
Definition create_mock_tx_hash (did merkle_root : string) (w : World) : string * World :=
  let '(now, w) := utc_now w in
  (hex_encode (blake3_updates ["AJNA/MOCK_TX/V1"; did; merkle_root; to_rfc3339 now]), w).

(** [src/did/src/ajna/anchoring.rs:185-197] AnchoringService::submit_anchor (the record) *)
Definition as_build_anchor (self : AnchoringService) (did merkle_root : string) (operation_count : N)
    (w : World) : AnchorRecord * World :=
  let '(tx_hash, w) := create_mock_tx_hash did merkle_root w in
  let block_number := as_get_mock_block_number self in
  let '(anchor, w) := anc_new did merkle_root tx_hash block_number (as_network self) w in
  (anc_with_operation_count anchor operation_count, w).

Definition too_soon (self : AnchoringService) (did : string) : AjnaError :=
  InvalidOperation ("Too soon to anchor " +:+ did +:+ ". Min interval: " +:+
                    pretty (as_min_anchor_interval self) +:+ " seconds").

(** [src/did/src/ajna/anchoring.rs:155-220] AnchoringService::submit_anchor *)
Definition as_submit_anchor (self : AnchoringService) (did merkle_root : string) (operation_count : N)
    (w : World) : Result AnchorRecord * AnchoringService * World :=
  let '(ok, w) := as_should_anchor self did w in
  if negb ok then (Err (too_soon self did), self, w)
  else
    let '(anchor, w) := as_build_anchor self did merkle_root operation_count w in
    let self := as_store_anchor self did anchor in
    let self := as_push_history self did anchor in
    (Ok anchor, self, w).

(** ** The invariant of sequential submissions *)

Record anc_ok (s : AnchoringService) : Prop := {
  ao_latest did : as_anchors s !! did = default [] (as_history s !! did) !! pred (length (default [] (as_history s !! did)));
  ao_blocks did i a : default [] (as_history s !! did) !! i = Some a →
    (1000000 ≤ anc_block_number a < 1000000 + anchors_total (as_history s))%N ∧
    anc_did a = did ∧ anc_network a = as_network s;
  ao_increasing did i j a b :
    default [] (as_history s !! did) !! i = Some a → default [] (as_history s !! did) !! j = Some b →
    (i < j)%nat → (anc_block_number a < anc_block_number b)%N;
  ao_distinct did did' i j a b :
    default [] (as_history s !! did) !! i = Some a → default [] (as_history s !! did') !! j = Some b →
    anc_block_number a = anc_block_number b → did = did' ∧ i = j
}.

Lemma anc_new_ok network interval : anc_ok (as_new network interval).
Proof.
  split; cbn; intros *; rewrite ?lookup_empty; cbn; try done; by intros.
Qed.

Lemma anchors_total_push (h : gmap string (list AnchorRecord)) did a :
  anchors_total (<[did := default [] (h !! did) ++ [a]]> h) = (anchors_total h + 1)%N.
Proof.
  unfold anchors_total. set (f := λ (_ : string) (v : list AnchorRecord) n, (N.of_nat (length v) + n)%N).
  assert (∀ j1 j2 z1 z2 y, f j1 z1 (f j2 z2 y) = f j2 z2 (f j1 z1 y)) as Hf by (unfold f; intros; lia).
  rewrite <- insert_delete_eq, (map_fold_insert_L f) by (auto; apply lookup_delete_eq).
  unfold f at 1. rewrite length_app. cbn. destruct (h !! did) as [v|] eqn:E; cbn.
  - rewrite (map_fold_delete_L f 0%N did v h); [unfold f at 2; lia|auto|done].
  - rewrite delete_id by done. lia.
Qed.

(** What a submission leaves when it goes through. *)
Lemma as_submit_anchor_inv s did root count w a s' w' :
  as_submit_anchor s did root count w = (Ok a, s', w') →
  anc_did a = did ∧ anc_merkle_root a = root ∧ anc_network a = as_network s ∧ anc_operation_count a = Some count ∧
  anc_block_number a = as_get_mock_block_number s ∧
  as_anchors s' = <[did := a]> (as_anchors s) ∧
  as_history s' = <[did := default [] (as_history s !! did) ++ [a]]> (as_history s) ∧
  as_network s' = as_network s ∧ as_min_anchor_interval s' = as_min_anchor_interval s.
Proof.
  unfold as_submit_anchor. destruct (as_should_anchor s did w) as [[] w1]; cbn; [|done].
  by intros [= <- <- <-].
Qed.

Lemma history_push_lookup (h : gmap string (list AnchorRecord)) did d a i b :
  default [] (<[did := default [] (h !! did) ++ [a]]> h !! d) !! i = Some b →
  default [] (h !! d) !! i = Some b ∨ (d = did ∧ i = length (default [] (h !! did)) ∧ b = a).
Proof.
  destruct (decide (d = did)) as [->|Hne]; [|rewrite lookup_insert_ne by done; by left].
  rewrite lookup_insert_eq. cbn. intros [?|[Hlen Hi]]%lookup_app_Some; [by left|right].
  apply list_lookup_singleton_Some in Hi as [Hi ->]. split_and!; [done|lia|done].
Qed.

Lemma anc_submit_ok s did root count w r s' w' :
  anc_ok s → (1000000 + anchors_total (as_history s) < u64_modulus)%N →
  as_submit_anchor s did root count w = (r, s', w') → anc_ok s'.
Proof.
  intros Hok Hb Hs. destruct r as [a|e|].
  - apply as_submit_anchor_inv in Hs as (Hd&_&Hn&_&Hbn&Ha&Hh&Hnet&_).
    unfold as_get_mock_block_number, add64, wrap64 in Hbn. rewrite N.mod_small in Hbn by done.
    destruct Hok as [Hl Hbl Hinc Hdis].
    assert (∀ d i b, default [] (as_history s !! d) !! i = Some b → (anc_block_number b < anc_block_number a)%N) as Hlt.
    { intros d i b Hib. apply Hbl in Hib. lia. }
    split.
    + intros d. rewrite Ha, Hh. destruct (decide (d = did)) as [->|Hne]; [|by rewrite !lookup_insert_ne].
      rewrite !lookup_insert_eq. cbn. rewrite length_app. cbn. rewrite Nat.add_1_r. cbn.
      symmetry. apply list_lookup_middle. done.
    + intros d i b. rewrite Hh, anchors_total_push, Hnet.
      intros [Hib|(->&->&->)]%history_push_lookup; [apply Hbl in Hib; naive_solver lia|].
      split; [lia|done].
    + intros d i j b c. rewrite Hh. intros [Hib|(->&->&->)]%history_push_lookup [Hjc|(Hd'&->&->)]%history_push_lookup Hij.
      * by eapply Hinc.
      * by eapply Hlt.
      * apply lookup_lt_Some in Hjc. lia.
      * lia.
    + intros d d' i j b c. rewrite Hh.
      intros [Hib|(->&->&->)]%history_push_lookup [Hjc|(->&->&->)]%history_push_lookup Heq; [by eapply Hdis| | |done].
      * apply Hlt in Hib. lia.
      * apply Hlt in Hjc. lia.
  - unfold as_submit_anchor in Hs. destruct (as_should_anchor s did w) as [[] w1]; cbn in Hs; by simplify_eq.
  - unfold as_submit_anchor in Hs. destruct (as_should_anchor s did w) as [[] w1]; cbn in Hs; by simplify_eq.
Qed.

(** The states a service reaches by submissions that run one after the other. *)
Inductive as_reach (network : string) (interval : N) : AnchoringService → Prop :=
  | as_reach_new : as_reach network interval (as_new network interval)
  | as_reach_submit s did root count w r s' w' :
      as_reach network interval s → (1000000 + anchors_total (as_history s) < u64_modulus)%N →
      as_submit_anchor s did root count w = (r, s', w') → as_reach network interval s'.

Lemma as_reach_next network interval s did root count w :
  as_reach network interval s → (1000000 + anchors_total (as_history s) < u64_modulus)%N →
  as_reach network interval (as_submit_anchor s did root count w).1.2.
Proof.
  intros. destruct (as_submit_anchor s did root count w) as [[r s'] w'] eqn:E. by eapply as_reach_submit.
Qed.

Lemma as_reach_ok network interval s : as_reach network interval s → anc_ok s.
Proof. induction 1 as [|s did root count w r s' w' _ IH Hb Hs]; [apply anc_new_ok|by eapply anc_submit_ok]. Qed.

(** In every state a service reaches by submissions one after the other, the latest
    anchor of a DID is the last of its history, block numbers rise strictly along each
    history, and no two anchors of the service share a block number (as long as the
    number of anchors stays below the 64-bit range). *)
Theorem anchor_history_invariant (network : string) (interval : N) (s : AnchoringService) :
  as_reach network interval s →
  (∀ did, as_get_anchor s did = last (as_get_anchor_history s did)) ∧
  (∀ did i j a b, as_get_anchor_history s did !! i = Some a → as_get_anchor_history s did !! j = Some b →
     (i < j)%nat → (anc_block_number a < anc_block_number b)%N) ∧
  (∀ did did' i j a b, as_get_anchor_history s did !! i = Some a → as_get_anchor_history s did' !! j = Some b →
     anc_block_number a = anc_block_number b → did = did' ∧ i = j).
Proof.
  intros [Hl _ Hinc Hdis]%as_reach_ok. split_and!; [|done|done].
  intros did. rewrite last_lookup. apply Hl.
Qed.

(** What a submission does, on both branches: it is refused, and changes nothing,
    exactly when the DID has an anchor younger than the interval (whole seconds, the
    interval read as a signed number); otherwise the root becomes the anchored one, is
    appended to the history, and [verify_anchor] accepts it and only it. *)
Theorem anchor_submit_outcome (s : AnchoringService) (did root : string) (count : N) (w : World) :
  match as_submit_anchor s did root count w with
  | (Ok a, s', _) =>
      (∀ last_anchor, as_get_anchor s did = Some last_anchor →
         (u64_as_i64 (as_min_anchor_interval s) ≤ seconds_between (w_time w (w_tn w)) (anc_timestamp last_anchor))%Z) ∧
      as_get_anchor s' did = Some a ∧ as_get_anchor_history s' did = as_get_anchor_history s did ++ [a] ∧
      (∀ root', as_verify_anchor s' did root' = Some (bool_decide (root = root'))) ∧
      (∀ did', did' ≠ did → as_get_anchor s' did' = as_get_anchor s did' ∧
         as_get_anchor_history s' did' = as_get_anchor_history s did')
  | (Err e, s', _) =>
      s' = s ∧ e = too_soon s did ∧
      ∃ last_anchor, as_get_anchor s did = Some last_anchor ∧
        (seconds_between (w_time w (w_tn w)) (anc_timestamp last_anchor) < u64_as_i64 (as_min_anchor_interval s))%Z
  | (Panic, _, _) => False
  end.
Proof.
  destruct (as_submit_anchor s did root count w) as [[[a|e|] s'] w'] eqn:Hs.
  - pose proof Hs as Hinv. apply as_submit_anchor_inv in Hinv as (Hd&Hr&_&_&_&Ha&Hh&_&_).
    unfold as_get_anchor, as_get_anchor_history, as_verify_anchor. rewrite Ha, Hh, !lookup_insert_eq. cbn.
    split_and!; [|done|done| |].
    + intros l Hl. unfold as_submit_anchor, as_should_anchor in Hs. rewrite Hl in Hs. cbn in Hs.
      case_bool_decide; [done|]. by cbn in Hs.
    + intros root'. by rewrite Hr.
    + intros d Hne. by rewrite !lookup_insert_ne.
  - unfold as_submit_anchor, as_should_anchor in Hs. unfold as_get_anchor.
    destruct (as_anchors s !! did) as [l|]; cbn in Hs; [|by simplify_eq].
    case_bool_decide; cbn in Hs; [by simplify_eq|]. simplify_eq. split_and!; [done..|]. exists l. split; [done|lia].
  - unfold as_submit_anchor in Hs. destruct (as_should_anchor s did w) as [[] w1]; cbn in Hs; by simplify_eq.
Qed.
End submit.

(** ** Witnesses and concrete runs *)

Section examples.
#[local] Existing Instance toy_blake3.
#[local] Existing Instance toy_rfc3339.
Definition toy_hex : Hex := {| hex_encode s := s |}.
#[local] Existing Instance toy_hex.

Lemma anchor_history_invariant_witness :
  let s := (as_submit_anchor (as_submit_anchor (as_new "net" 0) "did:a" "r1" 1 world0).1.2 "did:a" "r2" 2 world0).1.2 in
  length (as_get_anchor_history s "did:a") = 2%nat ∧
  as_get_anchor s "did:a" = last (as_get_anchor_history s "did:a").
Proof.
  intros s. split; [vm_compute; reflexivity|].
  assert (as_reach "net" 0 s) as Hs.
  { unfold s. apply as_reach_next; [apply as_reach_next; [apply as_reach_new|]|]; vm_compute; reflexivity. }
  exact (proj1 (anchor_history_invariant "net" 0 s Hs) "did:a").
Defined.

(** Two submissions whose reads of the block number both come before either write
    of the history receive the same block number. *)
Example anchor_race_same_block :
  let s := as_new "net" 0 in
  let '(a, w) := as_build_anchor s "did:a" "r1" 1 world0 in
  let '(b, _) := as_build_anchor s "did:b" "r2" 1 w in
  let s := as_push_history (as_store_anchor s "did:a" a) "did:a" a in
  let s := as_push_history (as_store_anchor s "did:b" b) "did:b" b in
  (anc_block_number <$> as_get_anchor s "did:a") = (anc_block_number <$> as_get_anchor s "did:b").
Proof. vm_compute. reflexivity. Qed.

(** An interval above the signed range reads as negative, and limits nothing. *)
Example anchor_interval_cast :
  let s := (as_submit_anchor (as_new "net" (u64_modulus - 1)) "did:a" "r1" 1 world0).1.2 in
  is_ok (as_submit_anchor s "did:a" "r2" 2 world0).1.1 = true.
Proof. vm_compute. reflexivity. Qed.
End examples.
