(* ===== verification/Method.v ===== *)
(** The DID method of did:ajna, [AjnaMethod] of [src/did/src/ajna/method.rs]: the
    registry of documents, their histories, and the optional anchoring service.

    A method of [AjnaMethod] is an effect on its state: what was written before an
    error stays written.  Calls of the public interface run one after the other
    ([am_step]); [am_ok] is the invariant of the states they reach. *)
From S2P Require Import Prelude Crdt AjnaTypes Document Authorization Hashing MerkleDag Anchoring.

(** [src/did/src/ajna/method.rs:18-34] AjnaMethod *)
Record AjnaMethod := mkMethod {
  am_registry : gmap string AjnaDocument;
  am_history : gmap string MerkleDAG;
  am_anchoring : option AnchoringService;
  am_node_id : string
}.

(** [src/did/src/ajna/method.rs:37-45] AjnaMethod::new *)
Definition am_new (node_id : string) : AjnaMethod := mkMethod ∅ ∅ None node_id.

(** [src/did/src/ajna/method.rs:47-63] AjnaMethod::with_anchoring *)
Definition am_with_anchoring (node_id network : string) (min_anchor_interval : N) : AjnaMethod :=
  mkMethod ∅ ∅ (Some (as_new network min_anchor_interval)) node_id.

(** [src/did/src/ajna/method.rs:65-68] AjnaMethod::set_anchoring *)
Definition am_set_anchoring (service : AnchoringService) (self : AjnaMethod) : AjnaMethod :=
  mkMethod (am_registry self) (am_history self) (Some service) (am_node_id self).

Definition am_put_registry (did : string) (d : AjnaDocument) (self : AjnaMethod) : AjnaMethod :=
  mkMethod (<[did := d]> (am_registry self)) (am_history self) (am_anchoring self) (am_node_id self).
Definition am_put_history (did : string) (dag : MerkleDAG) (self : AjnaMethod) : AjnaMethod :=
  mkMethod (am_registry self) (<[did := dag]> (am_history self)) (am_anchoring self) (am_node_id self).

(** A method of [AjnaMethod] that returns an [A]. *)
Abbreviation Am := (eff AjnaError AjnaMethod).

(** [src/did/src/ajna/method.rs:158-171] AjnaMethod::resolve *)
Definition am_resolve (did : string) : Am AjnaDocument :=
  self ← eff_get;
  match am_registry self !! did with
  | Some document => mret document
  | None => eff_throw (DidNotFound did)
  end.

Definition am_register (did : string) (new : World → AjnaDocument * World) : Am AjnaDocument :=
  self ← eff_get;
  match am_registry self !! did with
  | Some _ => eff_throw (InvalidOperation ("DID already exists: " +:+ did))
  | None =>
      document ← eff_world new;
      eff_modify (am_put_registry did document);;
      eff_modify (am_put_history did dag_new);;
      mret document
  end.

(** [src/did/src/ajna/method.rs:70-104] AjnaMethod::create *)
Definition am_create (did : string) : Am AjnaDocument :=
  self ← eff_get; am_register did (doc_new did (am_node_id self)).

(** [src/did/src/ajna/method.rs:106-156] AjnaMethod::create_with_genesis *)
Definition am_create_with_genesis (did : string) (initial_controllers : list string)
    (initial_policy : list (string * Json)) : Am AjnaDocument :=
  self ← eff_get;
  am_register did (doc_new_with_genesis did (am_node_id self) initial_controllers initial_policy).

(** [src/did/src/ajna/method.rs:456-460] AjnaMethod::list_dids (the registered DIDs, as a set) *)
Definition am_dids (self : AjnaMethod) : gset string := dom (am_registry self).

(** [src/did/src/ajna/method.rs:462-466] AjnaMethod::count *)
Definition am_count (self : AjnaMethod) : nat := size (am_registry self).

(** [src/did/src/ajna/method.rs:468-472] AjnaMethod::exists *)
Definition am_exists (self : AjnaMethod) (did : string) : bool := bool_decide (is_Some (am_registry self !! did)).

(** [src/did/src/ajna/method.rs:555-564] AjnaMethod::get_anchor *)
Definition am_get_anchor (self : AjnaMethod) (did : string) : option AnchorRecord :=
  am_anchoring self ≫= λ anchoring, as_get_anchor anchoring did.

(** [src/did/src/ajna/method.rs:566-573] AjnaMethod::get_anchor_history *)
Definition am_get_anchor_history (self : AjnaMethod) (did : string) : list AnchorRecord :=
  match am_anchoring self with Some anchoring => as_get_anchor_history anchoring did | None => [] end.

(** [src/did/src/ajna/method.rs:593-600] AjnaMethod::is_anchored *)
Definition am_is_anchored (self : AjnaMethod) (did : string) : bool :=
  match am_anchoring self with Some anchoring => as_is_anchored anchoring did | None => false end.

(** [src/did/src/ajna/method.rs:602-630] AjnaMethod::resolve_with_anchor *)
Definition am_resolve_with_anchor (did : string) : Am AjnaDocument :=
  document ← am_resolve did;
  self ← eff_get;
  mret match am_get_anchor self did with
       | Some anchor =>
           set_blockchain_anchor
             (Some (mkAnchor (anc_network anchor) (anc_tx_hash anchor) (anc_block_number anchor)
                      (anc_timestamp anchor) (anc_merkle_root anchor))) document
       | None => document
       end.

(** [src/did/src/ajna/method.rs:632-635] AjnaMethod::has_anchoring *)
Definition am_has_anchoring (self : AjnaMethod) : bool := bool_decide (is_Some (am_anchoring self)).

(** The [Debug] rendering of a string, for the escapes that occur in printable ASCII. *)
Fixpoint str_debug_escape (s : string) : string :=
  match s with
  | "" => ""
  | String c s =>
      let n := Ascii.nat_of_ascii c in
      if decide (n = 34 ∨ n = 92)%nat then String (Ascii.ascii_of_nat 92) (String c (str_debug_escape s))
      else String c (str_debug_escape s)
  end.
Definition str_debug (s : string) : string :=
  let quote := String (Ascii.ascii_of_nat 34) "" in quote +:+ str_debug_escape s +:+ quote.

(** The derived [Debug] of [AuthorizationResult]. *)
Definition auth_debug (r : AuthorizationResult) : string :=
  match r with
  | Allowed => "Allowed"
  | Denied msg => "Denied(" +:+ str_debug msg +:+ ")"
  | RequiresQuorum required current missing =>
      "RequiresQuorum { required: " +:+ pretty required +:+ ", current: " +:+ pretty current +:+
      ", missing: " +:+ pretty missing +:+ " }"
  end.

(** [src/did/src/ajna/method.rs:392-396] AjnaMethod::merge_update (the clock) *)
Definition doc_absorb_clock (clock : list (string * N)) (d : AjnaDocument) : AjnaDocument :=
  foldl (λ d kv, set_vector_clock (N.iter kv.2 (λ c, vc_increment c kv.1) (doc_vector_clock d)) d) d clock.

Section with_order.
Context `{HashOrder} `{Chrono}.

(** [document.apply_delta_v2(delta)?] on a local copy. *)
Definition am_delta (document : AjnaDocument) (delta : Delta) : Am AjnaDocument := λ s w,
  match doc_apply_delta_v2 document delta w with
  | Ok (d, w) => (Ok d, s, w)
  | Err e => (Err e, s, w)
  | Panic => (Panic, s, w)
  end.

(** [src/did/src/ajna/method.rs:173-206] AjnaMethod::deactivate *)
Definition am_deactivate (did : string) (reason : option string) : Am AjnaDocument :=
  document ← am_resolve did;
  if doc_is_deactivated document then
    eff_throw (InvalidOperation ("DID already deactivated: " +:+ did))
  else
    document ← am_delta document (Deactivate reason);
    eff_modify (am_put_registry did document);;
    mret document.

(** Operations applied one after the other. *)
Definition op_apply_all (ops : list CRDTOperation) (document : AjnaDocument) (w : World) : AjnaDocument * World :=
  foldl (λ '(d, w) op, op_apply op d w) (document, w) ops.

Context `{Blake3} `{Base64} `{SerdeJson} `{Rfc3339}.

(** The history of a DID, as [entry(did).or_insert_with(MerkleDAG::new)] finds it. *)
Definition am_dag (self : AjnaMethod) (did : string) : MerkleDAG := default dag_new (am_history self !! did).

(** A node added to the history of [did]; the entry is created also when the
    addition fails. *)
Definition am_add_node (did : string) (node : DagNode) : Am unit := λ self w,
  let '(r, dag) := dag_add_node (am_dag self did) node in
  ((let? _ := r in Ok tt), am_put_history did dag self, w).

(** [src/did/src/ajna/method.rs:403-415] AjnaMethod::merge_update (the node added to the history) *)
Definition am_record_operations (did : string) (operations : list CRDTOperation) (node_id : string) : Am unit :=
  self ← eff_get;
  let parents := dn_hash <$> dag_get_heads (am_dag self did) in
  node ← eff_world (dn_new operations parents node_id);
  am_add_node did node.

(** [src/did/src/ajna/method.rs:208-264] AjnaMethod::apply_operation_v2 *)
Definition am_apply_operation_v2 (operation : Operation) : Am AjnaDocument :=
  document ← am_resolve (op2_doc operation);
  auth_result ← eff_lift (can_apply operation document);
  if negb (auth_is_allowed auth_result) then
    eff_throw (InvalidOperation ("Operation not authorized: " +:+ auth_debug auth_result))
  else
    document ← am_delta document (op2_delta operation);
    let document := doc_tick document (op2_actor operation) in
    eff_modify (am_put_registry (op2_doc operation) document);;
    self ← eff_get;
    node ← eff_lift (dn_from_operation_v2 operation (am_node_id self));
    am_add_node (op2_doc operation) node;;
    mret document.

(** [src/did/src/ajna/method.rs:279-286] AjnaMethod::apply_operation (resolve or create) *)
Definition am_resolve_or_create (did : string) : Am AjnaDocument :=
  resolved ← eff_catch (am_resolve did);
  match resolved with
  | inr doc => mret doc
  | inl _ => am_create did
  end.

(** [src/did/src/ajna/method.rs:266-316] AjnaMethod::apply_operation *)
Definition am_apply_operation (did : string) (operation : CRDTOperation) : Am AjnaDocument :=
  document ← am_resolve_or_create did;
  document ← eff_world (op_apply operation document);
  eff_modify (am_put_registry did document);;
  self ← eff_get;
  am_record_operations did [operation] (am_node_id self);;
  mret document.

(** [src/did/src/ajna/method.rs:318-362] AjnaMethod::apply_operations *)
Definition am_apply_operations (did : string) (operations : list CRDTOperation) : Am AjnaDocument :=
  document ← am_resolve did;
  document ← eff_world (op_apply_all operations document);
  eff_modify (am_put_registry did document);;
  self ← eff_get;
  am_record_operations did operations (am_node_id self);;
  mret document.

(** [src/did/src/ajna/method.rs:364-419] AjnaMethod::merge_update *)
Definition am_merge_update (update : DIDUpdate) : Am AjnaDocument :=
  let did := upd_did update in
  document ← am_resolve_or_create did;
  document ← eff_world (op_apply_all (upd_operations update) document);
  let document := doc_absorb_clock (upd_clock update) document in
  eff_modify (am_put_registry did document);;
  am_record_operations did (upd_operations update) (upd_origin_node update);;
  mret document.

(** [src/did/src/ajna/method.rs:421-437] AjnaMethod::get_history *)
Definition am_get_history (did : string) : Am (list CRDTOperation) :=
  self ← eff_get;
  match am_history self !! did with
  | None => eff_throw (DidNotFound did)
  | Some dag =>
      match dag_get_all_operations dag with
      | Some ops => mret ops
      | None => eff_lift Panic
      end
  end.

(** [src/did/src/ajna/method.rs:439-454] AjnaMethod::get_merkle_root *)
Definition am_get_merkle_root (did : string) : Am string :=
  self ← eff_get;
  match am_history self !! did with
  | None => eff_throw (DidNotFound did)
  | Some dag => mret (dag_compute_root dag)
  end.

(** [src/did/src/ajna/method.rs:474-504] AjnaMethod::export_update *)
Definition am_export_update (did : string) : Am DIDUpdate :=
  document ← am_resolve did;
  operations ← am_get_history did;
  let clock := (λ node_id, (node_id, vc_get (doc_vector_clock document) node_id)) <$>
                 vc_node_ids (doc_vector_clock document) in
  self ← eff_get;
  now ← eff_world utc_now;
  mret (mkDIDUpdate did operations clock now (am_node_id self) None).

(** [src/did/src/ajna/method.rs:506-526] AjnaMethod::import_updates *)
Fixpoint am_import_updates (updates : list DIDUpdate) : Am nat :=
  match updates with
  | [] => mret 0
  | update :: updates =>
      r ← eff_catch (am_merge_update update);
      count ← am_import_updates updates;
      mret match r with inr _ => S count | inl _ => count end
  end.

Context `{Hex}.

(** A submission to the anchoring service of the method. *)
Definition am_submit (did merkle_root : string) (operation_count : N) : Am AnchorRecord := λ self w,
  match am_anchoring self with
  | None => (Err (InvalidOperation "Anchoring service not configured"), self, w)
  | Some anchoring =>
      let '(r, anchoring, w) := as_submit_anchor anchoring did merkle_root operation_count w in
      (r, am_set_anchoring anchoring self, w)
  end.

(** [src/did/src/ajna/method.rs:530-553] AjnaMethod::anchor *)
Definition am_anchor (did : string) : Am AnchorRecord :=
  self ← eff_get;
  match am_anchoring self with
  | None => eff_throw (InvalidOperation "Anchoring service not configured")
  | Some _ =>
      merkle_root ← am_get_merkle_root did;
      operations ← am_get_history did;
      am_submit did merkle_root (N.of_nat (length operations))
  end.

(** [src/did/src/ajna/method.rs:575-591] AjnaMethod::verify_against_anchor *)
Definition am_verify_against_anchor (did : string) : Am (option bool) :=
  self ← eff_get;
  match am_anchoring self with
  | None => mret None
  | Some anchoring =>
      r ← eff_catch (am_get_merkle_root did);
      mret match r with
           | inr merkle_root => as_verify_anchor anchoring did merkle_root
           | inl _ => None
           end
  end.

(** ** The public interface as a step relation *)

Inductive AmCall :=
  | CallCreate (did : string)
  | CallCreateGenesis (did : string) (controllers : list string) (policy : list (string * Json))
  | CallDeactivate (did : string) (reason : option string)
  | CallApplyV2 (operation : Operation)
  | CallApply (did : string) (operation : CRDTOperation)
  | CallApplyAll (did : string) (operations : list CRDTOperation)
  | CallMergeUpdate (update : DIDUpdate)
  | CallImport (updates : list DIDUpdate)
  | CallAnchor (did : string)
  | CallSetAnchoring (service : AnchoringService).

Definition am_call (c : AmCall) : Am unit :=
  match c with
  | CallCreate did => am_create did;; mret tt
  | CallCreateGenesis did cs p => am_create_with_genesis did cs p;; mret tt
  | CallDeactivate did reason => am_deactivate did reason;; mret tt
  | CallApplyV2 operation => am_apply_operation_v2 operation;; mret tt
  | CallApply did operation => am_apply_operation did operation;; mret tt
  | CallApplyAll did operations => am_apply_operations did operations;; mret tt
  | CallMergeUpdate update => am_merge_update update;; mret tt
  | CallImport updates => am_import_updates updates;; mret tt
  | CallAnchor did => am_anchor did;; mret tt
  | CallSetAnchoring service => eff_modify (am_set_anchoring service)
  end.

(** One call, whether it succeeds or fails. *)
Definition am_step (self self' : AjnaMethod) : Prop :=
  ∃ c w r w', am_call c self w = (r, self', w').

Definition am_reach (node_id : string) (self : AjnaMethod) : Prop := rtc am_step (am_new node_id) self.
End with_order.

(** * Invariants of the registry and the histories *)

Section invariant.
Context `{HashOrder} `{Chrono} `{Blake3} `{Base64} `{SerdeJson} `{Rfc3339} `{Hex}.

(** A property of registered documents that survives every change a call makes to
    a document, and that new documents have, except those of the DIDs in [K]. *)
Record doc_stable (K : gset string) (P : string → AjnaDocument → Prop) : Prop := {
  st_delta did d delta w d' w' : P did d → doc_apply_delta_v2 d delta w = Ok (d', w') → P did d';
  st_clock did d c : P did d → P did (set_vector_clock c d);
  st_op did d op w : P did d → P did (op_apply op d w).1;
  st_new did node w : did ∉ K → P did (doc_new did node w).1;
  st_genesis did node cs p w : did ∉ K → P did (doc_new_with_genesis did node cs p w).1
}.

Record am_inv (K : gset string) (P : string → AjnaDocument → Prop) (s : AjnaMethod) : Prop := {
  ai_doms did : is_Some (am_registry s !! did) ↔ is_Some (am_history s !! did);
  ai_docs did d : am_registry s !! did = Some d → P did d;
  ai_kept did : did ∈ K → is_Some (am_registry s !! did);
  ai_dags did dag : am_history s !! did = Some dag → dag_wf dag
}.

Section stable.
Variables (K : gset string) (P : string → AjnaDocument → Prop) (Hst : doc_stable K P).
Abbreviation triple := (hoare (E := AjnaError) (am_inv K P)).

Lemma am_inv_registry s did d : am_inv K P s → is_Some (am_registry s !! did) → P did d → am_inv K P (am_put_registry did d s).
Proof.
  intros [Hd Hp Hk Hg] Hin HP. split; cbn.
  - intros did'. rewrite lookup_insert_is_Some', Hd. split; [|by right]. intros [<-|?]; [by apply Hd|done].
  - intros did' d'. rewrite lookup_insert_Some. intros [[<- <-]|[_ ?]]; [done|by apply Hp].
  - intros did' ?%Hk. apply lookup_insert_is_Some'. by right.
  - done.
Qed.

Lemma am_inv_history s did dag : am_inv K P s → is_Some (am_registry s !! did) → dag_wf dag → am_inv K P (am_put_history did dag s).
Proof.
  intros [Hd Hp Hk Hg] Hin Hdag. split; cbn; [|done|done|].
  - intros did'. rewrite lookup_insert_is_Some', <- Hd. split; [by right|]. by intros [<-|?].
  - intros did' dag'. rewrite lookup_insert_Some. intros [[<- <-]|[_ ?]]; [done|by eapply Hg].
Qed.

(** [did] is registered and [d] is a document it could have. *)
Definition holds (did : string) (d : AjnaDocument) (s : AjnaMethod) : Prop :=
  is_Some (am_registry s !! did) ∧ P did d.

Lemma am_resolve_triple did : triple (λ _, True) (am_resolve did) (holds did).
Proof.
  intros s w Hs _. unfold am_resolve. eff_simpl. destruct (am_registry s !! did) as [d|] eqn:E; cbn; [|done].
  split; [done|]. split; [by eexists|]. by eapply ai_docs.
Qed.

Lemma am_register_triple did new :
  (∀ w, did ∉ K → P did (new w).1) → triple (λ _, True) (am_register did new) (holds did).
Proof.
  intros Hnew s w Hs _. unfold am_register. eff_simpl. destruct (am_registry s !! did) as [d|] eqn:E; cbn; [done|].
  unfold eff_world. specialize (Hnew w). destruct (new w) as [d w'] eqn:Hw. cbn in *.
  assert (did ∉ K) as HK by (intros Hin; destruct (ai_kept K P s Hs did Hin); congruence).
  assert (am_inv K P (am_put_history did dag_new (am_put_registry did d s))) as Hinv.
  { split; cbn.
    - intros did'. rewrite !lookup_insert_is_Some'. by rewrite (ai_doms K P s Hs).
    - intros did' d'. rewrite lookup_insert_Some. intros [[<- <-]|[_ Hd']]; [by auto|by eapply ai_docs].
    - intros did' Hin%(ai_kept K P s Hs). apply lookup_insert_is_Some'. by right.
    - intros did' dag. rewrite lookup_insert_Some. intros [[<- <-]|[_ Hd']]; [apply dag_ok_wf, dag_new_ok|by eapply ai_dags]. }
  split; [done|]. split; [|by auto]. cbn. rewrite lookup_insert_eq. by eexists.
Qed.

Lemma am_create_triple did : triple (λ _, True) (am_create did) (holds did).
Proof.
  intros s w Hs Hp. apply (am_register_triple did (doc_new did (am_node_id s))); [|done..].
  intros. by apply (st_new K P Hst).
Qed.

Lemma am_genesis_triple did cs p : triple (λ _, True) (am_create_with_genesis did cs p) (holds did).
Proof.
  intros s w Hs Hp. apply (am_register_triple did (doc_new_with_genesis did (am_node_id s) cs p)); [|done..].
  intros. by apply (st_genesis K P Hst).
Qed.

Lemma am_resolve_or_create_triple did : triple (λ _, True) (am_resolve_or_create did) (holds did).
Proof.
  eapply hoare_bind; [apply hoare_catch, am_resolve_triple|]. intros [e|d].
  - intros s w Hs _. by apply am_create_triple.
  - apply hoare_ret.
Qed.

Lemma am_delta_triple did d delta : triple (holds did d) (am_delta d delta) (holds did).
Proof.
  intros s w Hs [Hr HP]. unfold am_delta. destruct (doc_apply_delta_v2 d delta w) as [[d' w']|e|] eqn:E; [|done..].
  split; [done|]. split; [done|]. by eapply (st_delta K P Hst).
Qed.

Lemma am_put_triple did d : triple (holds did d) (eff_modify (am_put_registry did d)) (λ _, holds did d).
Proof.
  apply hoare_modify. intros s Hs [Hr HP]. split; [by apply am_inv_registry|]. split; [|done].
  cbn. rewrite lookup_insert_eq. by eexists.
Qed.

Lemma am_add_node_triple did d node : triple (holds did d) (am_add_node did node) (λ _, holds did d).
Proof.
  intros s w Hs [Hr HP]. unfold am_add_node.
  assert (dag_wf (am_dag s did)) as Hwf.
  { unfold am_dag. destruct (am_history s !! did) as [dag|] eqn:E; [by eapply ai_dags|]. apply dag_ok_wf, dag_new_ok. }
  pose proof (dag_add_node_wf _ node Hwf) as Hwf'. destruct (dag_add_node (am_dag s did) node) as [r dag].
  assert (am_inv K P (am_put_history did dag s)) as Hinv by (by apply am_inv_history).
  by destruct r.
Qed.

Lemma am_record_triple did d ops node_id : triple (holds did d) (am_record_operations did ops node_id) (λ _, holds did d).
Proof.
  eapply hoare_bind; [apply hoare_get|]. intros self.
  eapply hoare_bind; [apply hoare_world|]. intros node.
  intros s w Hs [_ [_ Hh]]. by apply am_add_node_triple.
Qed.

(** The common end of the calls that change a document. *)
Lemma am_write_triple did d ops node_id :
  triple (holds did d)
    (eff_modify (am_put_registry did d);; am_record_operations did ops node_id;; mret d) (holds did).
Proof.
  eapply hoare_bind; [apply am_put_triple|]. intros [].
  eapply hoare_bind; [apply am_record_triple|]. intros []. apply hoare_ret.
Qed.

Lemma op_apply_all_stable did d ops w : P did d → P did (op_apply_all ops d w).1.
Proof.
  unfold op_apply_all. revert d w. induction ops as [|op ops IH]; intros d w HP; [done|]. cbn.
  pose proof (st_op K P Hst did d op w HP). destruct (op_apply op d w). by apply IH.
Qed.

Lemma doc_absorb_clock_stable did d clock : P did d → P did (doc_absorb_clock clock d).
Proof.
  unfold doc_absorb_clock. revert d. induction clock as [|kv clock IH]; intros d HP; [done|]. cbn.
  by apply IH, (st_clock K P Hst).
Qed.

Lemma am_merge_update_triple u : triple (λ _, True) (am_merge_update u) (holds (upd_did u)).
Proof.
  eapply hoare_bind; [apply am_resolve_or_create_triple|]. intros d.
  eapply hoare_bind; [apply hoare_world|]. intros d'.
  intros s w Hs [[w' ->] [Hr HP]]. apply am_write_triple; [done|].
  split; [done|]. by apply doc_absorb_clock_stable, op_apply_all_stable.
Qed.

Lemma am_get_triple {A} (m : Am A) (Hm : ∀ s w, (m s w).1.2 = s) : triple (λ _, True) m (λ _ _, True).
Proof.
  intros s w Hs _. specialize (Hm s w). destruct (m s w) as [[[a|e|] s'] w']; cbn in Hm; by subst.
Qed.

Lemma am_get_merkle_root_state did s w : (am_get_merkle_root did s w).1.2 = s.
Proof. unfold am_get_merkle_root. eff_simpl. by destruct (am_history s !! did). Qed.
Lemma am_get_history_state did s w : (am_get_history did s w).1.2 = s.
Proof.
  unfold am_get_history. eff_simpl. destruct (am_history s !! did); [|done].
  by destruct (dag_get_all_operations _).
Qed.

Lemma am_anchor_triple did : triple (λ _, True) (am_anchor did) (λ _ _, True).
Proof.
  eapply hoare_bind; [apply hoare_get|]. intros self. destruct (am_anchoring self); [|apply hoare_throw].
  eapply hoare_bind; [|intros root].
  { intros s w Hs _. apply (am_get_triple (am_get_merkle_root did)); [apply am_get_merkle_root_state|done..]. }
  eapply hoare_bind; [apply am_get_triple, am_get_history_state|]. intros ops s w Hs _.
  unfold am_submit. destruct (am_anchoring s) as [a'|]; [|done].
  destruct (as_submit_anchor _ _ _ _ _) as [[r a2] w2].
  assert (am_inv K P (am_set_anchoring a2 s)) by (by destruct Hs; split). by destruct r.
Qed.

Lemma am_import_triple us : triple (λ _, True) (am_import_updates us) (λ _ _, True).
Proof.
  induction us as [|u us IH]; [by intros s w|].
  eapply hoare_bind; [apply hoare_catch, am_merge_update_triple|]. intros r.
  eapply hoare_bind; [by intros s w Hs _; apply IH|]. intros count. by intros s w.
Qed.

Lemma am_apply_operation_v2_triple op :
  triple (λ _, True) (am_apply_operation_v2 op) (holds (op2_doc op)).
Proof.
  eapply hoare_bind; [apply am_resolve_triple|]. intros d.
  eapply hoare_bind; [apply hoare_lift|]. intros auth. apply hoare_if; [apply hoare_throw|].
  apply (hoare_pre _ _ (holds (op2_doc op) d)); [by intros s [_ ?]|].
  eapply hoare_bind; [apply am_delta_triple|]. intros d'. set (d2 := doc_tick d' (op2_actor op)).
  eapply (hoare_bind _ _ _ (λ _, holds (op2_doc op) d2)).
  { intros s w Hs [Hr HP]. apply am_put_triple; [done|]. split; [done|]. by apply (st_clock K P Hst). }
  intros []. eapply hoare_bind; [apply hoare_get|]. intros self.
  apply (hoare_pre _ _ (holds (op2_doc op) d2)); [by intros s [_ ?]|].
  eapply hoare_bind; [apply hoare_lift|]. intros node.
  apply (hoare_pre _ _ (holds (op2_doc op) d2)); [by intros s [_ ?]|].
  eapply hoare_bind; [apply am_add_node_triple|]. intros []. apply hoare_ret.
Qed.

Lemma am_apply_triple did op : triple (λ _, True) (am_apply_operation did op) (holds did).
Proof.
  eapply hoare_bind; [apply am_resolve_or_create_triple|]. intros d.
  eapply hoare_bind; [apply hoare_world|]. intros d' s w Hs [[w' ->] [Hr HP]].
  pose proof (am_write_triple did (op_apply op d w').1 [op] (am_node_id s) s w Hs) as Hw. apply Hw.
  split; [done|]. by apply (st_op K P Hst).
Qed.

Lemma am_apply_all_triple did ops : triple (λ _, True) (am_apply_operations did ops) (holds did).
Proof.
  eapply hoare_bind; [apply am_resolve_triple|]. intros d.
  eapply hoare_bind; [apply hoare_world|]. intros d' s w Hs [[w' ->] [Hr HP]].
  pose proof (am_write_triple did (op_apply_all ops d w').1 ops (am_node_id s) s w Hs) as Hw. apply Hw.
  split; [done|]. by apply op_apply_all_stable.
Qed.

Lemma am_deactivate_triple did reason : triple (λ _, True) (am_deactivate did reason) (holds did).
Proof.
  eapply hoare_bind; [apply am_resolve_triple|]. intros d. apply hoare_if; [apply hoare_throw|].
  eapply hoare_bind; [apply am_delta_triple|]. intros d'.
  eapply hoare_bind; [apply am_put_triple|]. intros []. apply hoare_ret.
Qed.

Lemma am_call_triple c : triple (λ _, True) (am_call c) (λ _ _, True).
Proof.
  assert (∀ A (m : Am A) Q, triple (λ _, True) m Q → triple (λ _, True) (m;; mret tt) (λ _ _, True)) as Hseq.
  { intros A m Q Hm. eapply hoare_bind; [exact Hm|]. by intros a s w. }
  destruct c; cbn.
  - eapply Hseq, am_create_triple.
  - eapply Hseq, am_genesis_triple.
  - eapply Hseq, am_deactivate_triple.
  - eapply Hseq, am_apply_operation_v2_triple.
  - eapply Hseq, am_apply_triple.
  - eapply Hseq, am_apply_all_triple.
  - eapply Hseq, am_merge_update_triple.
  - eapply Hseq, am_import_triple.
  - eapply Hseq, am_anchor_triple.
  - apply hoare_modify. intros s Hs _. split; [|done]. by destruct Hs; split.
Qed.

Lemma am_steps_inv s s' : am_inv K P s → rtc am_step s s' → am_inv K P s'.
Proof.
  intros Hs Hr. induction Hr as [|s s1 s' (c&w&r&w'&Hc) _ IH]; [done|]. apply IH.
  pose proof (am_call_triple c s w Hs I) as Ht. rewrite Hc in Ht. destruct r; [by destruct Ht|done..].
Qed.
End stable.

Lemma stable_id : doc_stable ∅ (λ did d, doc_id d = did).
Proof.
  split; try done.
  - intros did d delta w d' w' <- Ha. by apply doc_apply_delta_keeps in Ha as [-> _].
  - intros did d op w <-. by destruct (op_apply_keeps op d w) as [-> _].
  - intros. apply doc_new_with_genesis_id.
Qed.

Lemma stable_deactivated t : doc_stable {[t]} (λ did d, did = t → doc_is_deactivated d = true).
Proof.
  split; try done.
  - intros did d delta w d' w' Hd Ha Ht. apply doc_apply_delta_keeps in Ha as [_ Ha]. auto.
  - intros did d op w Hd Ht. destruct (op_apply_keeps op d w) as [_ ->]. auto.
  - intros did node w Hnot ->. set_solver.
  - intros did node cs p w Hnot ->. set_solver.
Qed.

Lemma am_inv_new node_id : am_inv ∅ (λ did d, doc_id d = did) (am_new node_id).
Proof. split; cbn; intros *; rewrite ?lookup_empty; done || set_solver. Qed.

Lemma am_reach_inv node_id s : am_reach node_id s → am_inv ∅ (λ did d, doc_id d = did) s.
Proof. apply am_steps_inv; [apply stable_id|apply am_inv_new]. Qed.
End invariant.

Section running.
Context `{HashOrder} `{Chrono} `{Blake3} `{Base64} `{SerdeJson} `{Rfc3339}.

(** Recording operations on a history all of whose heads are held. *)
Lemma am_record_run did ops node_id s w :
  dag_wf (am_dag s did) →
  ∃ n dag w', am_record_operations did ops node_id s w = (Ok tt, am_put_history did dag s, w') ∧
    dn_operations n = Legacy ops ∧ dag_heads dag = {[dn_hash n]} ∧
    dag_nodes dag = <[dn_hash n := n]> (dag_nodes (am_dag s did)).
Proof.
  intros Hwf. destruct (dag_add_on_heads (am_dag s did) ops node_id w Hwf) as (dag&Hadd&Hhd&Hnd).
  unfold am_record_operations, mbind, eff_bind, eff_get, eff_world.
  destruct (dn_new ops (dn_hash <$> dag_get_heads (am_dag s did)) node_id w) as [n w2] eqn:En.
  cbn [fst] in *. exists n, dag, w2. unfold am_add_node. rewrite Hadd.
  split_and!; try done. by injection En as <- _.
Qed.

(** The common end of the calls that change a document, run. *)
Lemma am_write_run did d ops node_id s w :
  dag_wf (am_dag s did) →
  ∃ n s' w', (eff_modify (am_put_registry did d);; am_record_operations did ops node_id;; mret d) s w = (Ok d, s', w') ∧
    am_registry s' = <[did := d]> (am_registry s) ∧ dn_operations n = Legacy ops ∧
    dag_heads (am_dag s' did) = {[dn_hash n]} ∧
    dag_nodes (am_dag s' did) = <[dn_hash n := n]> (dag_nodes (am_dag s did)) ∧
    ∀ did', did' ≠ did → am_history s' !! did' = am_history s !! did'.
Proof.
  intros Hwf. destruct (am_record_run did ops node_id (am_put_registry did d s) w Hwf) as (n&dag&w'&Hr&Hops&Hhd&Hnd).
  unfold mbind, eff_bind, eff_modify. rewrite Hr. exists n. eexists _, _. split_and!; [done|done|done|..].
  - unfold am_dag; cbn. by rewrite lookup_insert_eq.
  - unfold am_dag at 1; cbn. by rewrite lookup_insert_eq.
  - intros did' Hne. cbn. by rewrite lookup_insert_ne.
Qed.

Lemma am_dag_wf K P s did : am_inv K P s → dag_wf (am_dag s did).
Proof.
  intros Hi. unfold am_dag. destruct (am_history s !! did) as [dag|] eqn:E; [by eapply ai_dags|].
  apply dag_ok_wf, dag_new_ok.
Qed.

(** A document is found, or made and registered with an empty history. *)
Lemma am_resolve_or_create_run did s w :
  (is_Some (am_registry s !! did) ↔ is_Some (am_history s !! did)) →
  ∃ d0 s0 w0, am_resolve_or_create did s w = (Ok d0, s0, w0) ∧
    (am_registry s !! did = Some d0 ∨
     (am_registry s !! did = None ∧ d0 = (doc_new did (am_node_id s) w).1)) ∧
    am_dag s0 did = am_dag s did ∧ am_registry s0 !! did = Some d0 ∧ am_node_id s0 = am_node_id s ∧
    ∀ did', did' ≠ did → am_registry s0 !! did' = am_registry s !! did' ∧ am_history s0 !! did' = am_history s !! did'.
Proof.
  intros Hdom. unfold am_resolve_or_create, am_resolve, am_create, am_register.
  destruct (am_registry s !! did) as [d0|] eqn:Ed.
  - exists d0, s, w. eff_simpl. rewrite Ed. split_and!; try done. by left.
  - set (d0 := (doc_new did (am_node_id s) w).1). set (w0 := (doc_new did (am_node_id s) w).2).
    exists d0, (am_put_history did dag_new (am_put_registry did d0 s)), w0. split_and!.
    + eff_simpl. rewrite Ed. cbn. rewrite ?Ed. done.
    + by right.
    + unfold am_dag; cbn. rewrite lookup_insert_eq. destruct (am_history s !! did) eqn:E; [|done].
      destruct (proj2 Hdom) as [? [=]]. by eexists.
    + cbn. by rewrite lookup_insert_eq.
    + done.
    + intros did' Hne. cbn. by rewrite !lookup_insert_ne.
Qed.
End running.

Section properties.
Context `{HashOrder} `{Chrono} `{Blake3} `{Base64} `{SerdeJson} `{Rfc3339} `{Hex}.

(** C3: Deactivation is permanent: once a registered DID is deactivated, no sequence of
    calls of the method (creation, operations of either format, merged and imported
    updates, anchoring), successful or not, makes it active or removes it, and
    [deactivate] itself is refused from then on. *)
Theorem am_deactivation_permanent (node_id did : string) (s s' : AjnaMethod) (d : AjnaDocument)
    (reason : option string) (w : World) :
  am_reach node_id s → am_registry s !! did = Some d → doc_is_deactivated d = true → rtc am_step s s' →
  (∃ d', am_registry s' !! did = Some d' ∧ doc_is_deactivated d' = true ∧ doc_id d' = did) ∧
  am_deactivate did reason s' w = (Err (InvalidOperation ("DID already deactivated: " +:+ did)), s', w).
Proof.
  intros Hr Hd Hact Hsteps. pose proof (am_reach_inv _ _ Hr) as Hi.
  assert (am_inv {[did]} (λ did' d, did' = did → doc_is_deactivated d = true) s) as Hk.
  { destruct Hi as [Hdom _ _ Hg]. split; try done.
    - intros did' d' Hd' ->. congruence.
    - intros t ->%elem_of_singleton. by eexists. }
  apply (am_steps_inv _ _ (stable_deactivated did) _ _) in Hsteps as Hk'; [|done].
  apply (am_steps_inv _ _ stable_id _ _) in Hsteps as Hi'; [|done].
  destruct (ai_kept _ _ _ Hk' did) as [d' Hd']; [set_solver|].
  pose proof (ai_docs _ _ _ Hk' did d' Hd' eq_refl) as Hact'.
  split; [exists d'; split_and!; [done|done|by apply (ai_docs _ _ _ Hi')]|].
  unfold am_deactivate, am_resolve. eff_simpl. by rewrite Hd', Hact'.
Qed.

(** In every reachable state a document and a history are held for exactly the same
    DIDs, every document is stored under its own id, the Merkle root and the history of
    a DID can be read exactly when it is registered, and every node of a history
    verifies its hash, is stored under it and has all of its parents in the history. *)
Theorem am_registry_history (node_id did : string) (s : AjnaMethod) (w : World) :
  am_reach node_id s →
  (is_Some (am_registry s !! did) ↔ is_Some (am_history s !! did)) ∧
  (∀ d, am_registry s !! did = Some d → doc_id d = did) ∧
  (is_ok (am_get_merkle_root did s w).1.1 = am_exists s did) ∧
  (is_ok (am_get_history did s w).1.1 = am_exists s did) ∧
  (is_ok (am_export_update did s w).1.1 = am_exists s did) ∧
  (∀ h n p, dag_nodes (am_dag s did) !! h = Some n →
     dn_hash n = h ∧ dn_verify_hash n = true ∧
     (p ∈ dn_parents n → is_Some (dag_nodes (am_dag s did) !! p))).
Proof.
  intros [Hdom Hid _ Hg]%am_reach_inv.
  assert ((∃ d dag, am_registry s !! did = Some d ∧ am_history s !! did = Some dag) ∨
          (am_registry s !! did = None ∧ am_history s !! did = None)) as Hcase.
  { specialize (Hdom did). clear Hid Hg.
    destruct (am_registry s !! did) as [d|], (am_history s !! did) as [dag|]; [by left; exists d, dag|..|by right].
    - destruct (proj1 Hdom) as [? [=]]. by eexists.
    - destruct (proj2 Hdom) as [? [=]]. by eexists. }
  split_and!; [done|by apply Hid|..].
  1-3: unfold am_export_update, am_resolve, am_get_merkle_root, am_get_history, am_exists; eff_simpl;
    destruct Hcase as [(d&dag&Er&Eh)|[Er Eh]]; rewrite ?Er, ?Eh; cbn; rewrite ?Er, ?Eh; try done;
    unfold dag_get_all_operations; by destruct (dag_topological_sort_total dag) as [l ->].
  - intros h n p. unfold am_dag. destruct (am_history s !! did) as [dag|] eqn:E; cbn; [|by rewrite lookup_empty].
    intros Hn. destruct (Hg did dag E) as [Hh Hp _]. destruct (Hh h n Hn) as [? ?]. split_and!; [done..|].
    intros Hpn. apply (Hp p h). by exists n.
Qed.

(** In every reachable state applying a legacy operation succeeds, creating the DID if
    it is not registered: the stored document is the operation applied to the former
    (or the new) one, the history gains one node that holds the operation and becomes
    its only head, and no other DID is touched. *)
Theorem am_apply_operation_total (node_id did : string) (s : AjnaMethod) (op : CRDTOperation) (w : World) :
  am_reach node_id s →
  ∃ d d0 w0 s' w' n, am_apply_operation did op s w = (Ok d, s', w') ∧
    (am_registry s !! did = Some d0 ∨
     (am_registry s !! did = None ∧ d0 = (doc_new did (am_node_id s) w).1)) ∧
    d = (op_apply op d0 w0).1 ∧ am_registry s' !! did = Some d ∧
    dn_operations n = Legacy [op] ∧ dag_heads (am_dag s' did) = {[dn_hash n]} ∧
    dag_nodes (am_dag s' did) = <[dn_hash n := n]> (dag_nodes (am_dag s did)) ∧
    ∀ did', did' ≠ did → am_registry s' !! did' = am_registry s !! did' ∧ am_history s' !! did' = am_history s !! did'.
Proof.
  intros Hi%am_reach_inv.
  destruct (am_resolve_or_create_run did s w) as (d0&s0&w0&Hrun&Hd0&Hdag&_&Hnode&Hoth); [by apply (ai_doms _ _ _ Hi)|].
  destruct (am_write_run did (op_apply op d0 w0).1 [op] (am_node_id s0) s0 (op_apply op d0 w0).2)
    as (n&s'&w'&Hw&Hreg&Hops&Hhd&Hnd&Hoth'); [by rewrite Hdag; eapply am_dag_wf|].
  exists (op_apply op d0 w0).1, d0, w0, s', w', n. rewrite Hdag in Hnd. split_and!; try done.
  - unfold am_apply_operation, mbind, eff_bind. rewrite Hrun. unfold eff_world, eff_get.
    destruct (op_apply op d0 w0) as [d1 w1] eqn:Ea. cbn [fst snd] in *. exact Hw.
  - by rewrite Hreg, lookup_insert_eq.
  - intros did' Hne. rewrite Hreg, lookup_insert_ne by done. destruct (Hoth did' Hne) as [<- <-]. auto.
Qed.

(** C6: What applying a V2 operation does, on every branch.  For an unknown DID, or when the
    authorization engine does not allow it, it fails with its error and changes nothing.  A
    delta whose timestamp is outside the range of the calendar panics and changes nothing.
    Otherwise the changed document is registered first, with the actor's clock entry advanced;
    if then the operation's own timestamp is outside the range, the call panics and the changed
    document stays; if it is inside, the call succeeds exactly when every parent of the operation
    is a node hash of the history, so that a call that fails on its parents has already changed
    the document too, while its history has the nodes it had. *)
Theorem am_apply_operation_v2_outcome (op : Operation) (s : AjnaMethod) (w : World) :
  match am_registry s !! op2_doc op with
  | None => am_apply_operation_v2 op s w = (Err (DidNotFound (op2_doc op)), s, w)
  | Some d =>
      match can_apply op d with
      | Ok Allowed =>
          match doc_apply_delta_v2 d (op2_delta op) w with
          | Ok (d1, w1) =>
              let d' := doc_tick d1 (op2_actor op) in
              match timestamp_millis_opt (op2_timestamp_ms op) with
              | Some _ =>
                  let '(r, s', _) := am_apply_operation_v2 op s w in
                  am_registry s' = <[op2_doc op := d']> (am_registry s) ∧
                  (is_ok r = true ↔ ∀ p, p ∈ op2_parents op → is_Some (dag_nodes (am_dag s (op2_doc op)) !! p)) ∧
                  match r with
                  | Ok d2 => d2 = d'
                  | Err e => am_dag s' (op2_doc op) = am_dag s (op2_doc op)
                  | Panic => False
                  end
              | None => am_apply_operation_v2 op s w = (Panic, am_put_registry (op2_doc op) d' s, w1)
              end
          | Err _ => False
          | Panic =>
              am_apply_operation_v2 op s w = (Panic, s, w) ∧
              ∃ key value ts, op2_delta op = PropSet key value ts ∧ timestamp_millis_opt (u64_as_i64 ts) = None
          end
      | Ok r => am_apply_operation_v2 op s w =
          (Err (InvalidOperation ("Operation not authorized: " +:+ auth_debug r)), s, w)
      | _ => False
      end
  end.
Proof.
  unfold am_apply_operation_v2, am_resolve. destruct (am_registry s !! op2_doc op) as [d|] eqn:Ed.
  2:{ eff_simpl. by rewrite Ed. }
  assert (∃ r, can_apply op d = Ok r) as [r Hr].
  { unfold can_apply, authorize. repeat case_match; eauto. }
  rewrite Hr. destruct r as [|msg|rq c m]; [|by eff_simpl; rewrite Ed, Hr..].
  eff_simpl. rewrite Ed, Hr. cbn. unfold am_delta.
  pose proof (doc_apply_delta_total d (op2_delta op) w) as Htotal.
  destruct (doc_apply_delta_v2 d (op2_delta op) w) as [[d1 w1]|e|]; [|done|by split].
  unfold dn_from_operation_v2. destruct (timestamp_millis_opt (op2_timestamp_ms op)) as [t|]; [|done]. unfold am_add_node.
  set (n := mkDagNode _ _ _ _ _).
  change (am_dag (am_put_registry _ _ s) (op2_doc op)) with (am_dag s (op2_doc op)).
  assert (dn_verify_hash n = true) as Hv by (by apply bool_decide_eq_true).
  destruct (dag_add_node_cases (am_dag s (op2_doc op)) n) as [[Hv' _]|[(p&_&Hp&Hnone&->)|(_&Hps&dag&->&_)]].
  - congruence.
  - cbn. split_and!; [done| |].
    + split; [done|]. intros Hall. destruct (Hall p Hp). congruence.
    + unfold am_dag at 1; cbn. by rewrite lookup_insert_eq.
  - cbn. by split_and!.
Qed.

(** After a successful [anchor] the anchored root is the root of the current history:
    [verify_against_anchor] answers [true], and resolution shows the new anchor. *)
Theorem am_anchor_then_verify (did : string) (s s' : AjnaMethod) (w w' v : World) (a : AnchorRecord) :
  am_anchor did s w = (Ok a, s', w') →
  anc_merkle_root a = dag_compute_root (am_dag s did) ∧
  am_history s' = am_history s ∧ am_registry s' = am_registry s ∧
  am_verify_against_anchor did s' v = (Ok (Some true), s', v) ∧
  ∀ d, am_registry s !! did = Some d →
    ∃ d', am_resolve_with_anchor did s' v = (Ok d', s', v) ∧
      (ba_merkle_root <$> doc_blockchain_anchor d') = Some (dag_compute_root (am_dag s did)).
Proof.
  unfold am_anchor. eff_simpl. destruct (am_anchoring s) as [anc|] eqn:Eanc; [|done].
  unfold am_get_merkle_root, am_get_history. eff_simpl.
  destruct (am_history s !! did) as [dag|] eqn:Eh; [|done]. cbn. rewrite Eh.
  destruct (dag_get_all_operations dag) as [ops|]; [|done]. cbn. unfold am_submit. rewrite Eanc.
  destruct (as_submit_anchor _ _ _ _ _) as [[r anc'] w2] eqn:Es. intros [= -> <- <-].
  apply as_submit_anchor_inv in Es as (_&Hroot&_&_&_&Hanc&_). unfold am_dag. rewrite Eh. cbn.
  split_and!; [done|done|done|..].
  - unfold am_verify_against_anchor, am_get_merkle_root. eff_simpl. rewrite Eh. cbn.
    unfold as_verify_anchor. rewrite Hanc, lookup_insert_eq. cbn. by rewrite bool_decide_true.
  - intros d Hd. unfold am_resolve_with_anchor, am_resolve. eff_simpl. rewrite Hd. cbn.
    unfold am_get_anchor, as_get_anchor. cbn. rewrite Hanc, lookup_insert_eq. eexists. split; [done|].
    cbn. by rewrite Hroot.
Qed.
End properties.

(** ** Witnesses and concrete runs *)

Section examples.
#[local] Existing Instance plain_order.
#[local] Existing Instance chrono_range.
#[local] Existing Instance toy_blake3.
#[local] Existing Instance toy_base64.
#[local] Existing Instance toy_json.
#[local] Existing Instance toy_rfc3339.
#[local] Existing Instance toy_hex.

Definition ex_did : string := "did:ajna:x".
(** The state and the world after a run. *)
Definition after {A} (m : Am A) (s : AjnaMethod * World) : AjnaMethod * World :=
  let '(_, s', w') := m s.1 s.2 in (s', w').
Definition ex_s0 : AjnaMethod * World := (am_new "n", world0).
Definition ex_created : AjnaMethod * World := after (am_create ex_did) ex_s0.
Definition ex_deactivated : AjnaMethod * World := after (am_deactivate ex_did None) ex_created.

Lemma am_call_after {A} c (m : Am A) s node_id :
  am_call c = (m;; mret tt) → am_reach node_id s.1 → am_reach node_id (after m s).1.
Proof.
  intros Hc Hr. eapply rtc_r; [exact Hr|]. exists c, s.2. rewrite Hc. unfold after, mbind, eff_bind.
  destruct (m s.1 s.2) as [[[a|e|] s'] w']; by eexists _, _.
Qed.

Lemma ex_created_reach : am_reach "n" ex_created.1.
Proof. apply (am_call_after (CallCreate ex_did) _ ex_s0); [done|apply rtc_refl]. Qed.
Lemma ex_deactivated_reach : am_reach "n" ex_deactivated.1.
Proof. by apply (am_call_after (CallDeactivate ex_did None)), ex_created_reach. Qed.

Lemma am_deactivation_permanent_witness :
  (am_deactivate ex_did None (after (am_create ex_did) ex_deactivated).1 world0).1.1 =
    Err (InvalidOperation "DID already deactivated: did:ajna:x").
Proof.
  assert (doc_is_deactivated <$> am_registry ex_deactivated.1 !! ex_did = Some true) as Hd0 by (vm_compute; reflexivity).
  destruct (am_registry ex_deactivated.1 !! ex_did) as [d|] eqn:Ed; [|discriminate Hd0].
  assert (doc_is_deactivated d = true) as Hd by (by injection Hd0).
  assert (rtc am_step ex_deactivated.1 (after (am_create ex_did) ex_deactivated).1) as Hs.
  { apply rtc_once. exists (CallCreate ex_did), ex_deactivated.2.
    unfold am_call, after, mbind, eff_bind. destruct (am_create ex_did _ _) as [[[a|e|] s'] w']; by eexists _, _. }
  destruct (am_deactivation_permanent "n" ex_did _ _ d None world0 ex_deactivated_reach Ed Hd Hs) as [_ Hr].
  rewrite Hr. reflexivity.
Defined.

Lemma am_registry_history_witness :
  am_exists ex_created.1 ex_did = true ∧ is_ok (am_get_merkle_root ex_did ex_created.1 world0).1.1 = true.
Proof.
  split; [reflexivity|].
  destruct (am_registry_history "n" ex_did ex_created.1 world0 ex_created_reach) as (_&_&H1&_).
  rewrite H1. reflexivity.
Defined.

Definition ex_op : CRDTOperation := AddVerificationMethod ex_key 7 "m".

Lemma am_apply_operation_total_witness :
  is_ok (am_apply_operation ex_did ex_op ex_created.1 world0).1.1 = true.
Proof.
  destruct (am_apply_operation_total "n" ex_did ex_created.1 ex_op world0 ex_created_reach)
    as (d&d0&w0&s'&w'&n&Hrun&_).
  rewrite Hrun. reflexivity.
Defined.

Lemma am_anchor_then_verify_witness :
  let s := after (am_apply_operation ex_did ex_op) (am_with_anchoring "n" "net" 0, world0) in
  is_ok (am_anchor ex_did s.1 s.2).1.1 = true ∧
  (am_verify_against_anchor ex_did (am_anchor ex_did s.1 s.2).1.2 s.2).1.1 = Ok (Some true).
Proof.
  intros s. assert (is_ok (am_anchor ex_did s.1 s.2).1.1 = true) as Hok by (vm_compute; reflexivity).
  destruct (am_anchor ex_did s.1 s.2) as [[[a|e|] s'] w'] eqn:E; [|discriminate Hok..].
  destruct (am_anchor_then_verify ex_did s.1 s' s.2 w' s.2 a E) as (_&_&_&Hv&_).
  split; [exact Hok|]. cbn [fst snd]. rewrite Hv. reflexivity.
Defined.

(** A deactivated document still takes legacy operations, and remote updates. *)
Example deactivated_takes_operations :
  (λ d, (doc_is_deactivated d, orset_contains (doc_verification_methods d) ex_key)) <$>
    am_registry (after (am_apply_operation ex_did ex_op) ex_deactivated).1 !! ex_did = Some (true, true) ∧
  is_ok (am_merge_update (mkDIDUpdate ex_did [ex_op] [] 0 "m" None) ex_deactivated.1 ex_deactivated.2).1.1 = true.
Proof. vm_compute. split; reflexivity. Qed.

(** The clock of an update is added entry by entry instead of joined: importing an
    exported state back counts every event again. *)
Example merge_update_adds_clocks :
  let s := after (am_apply_operation ex_did ex_op) ex_created in
  let clock s := (λ d, vc_get (doc_vector_clock d) "m") <$> am_registry s !! ex_did in
  let u := mkDIDUpdate ex_did [] [("m", 1%N)] 0 "m" None in
  clock s.1 = Some 1%N ∧ clock (after (am_merge_update u) s).1 = Some 2%N.
Proof. vm_compute. split; reflexivity. Qed.

(** The tips of a history of V2 operations are operation ids, its nodes are keyed by
    node hashes: an operation whose parents are the tips changes the document and
    then fails. *)
Example v2_tips_are_not_parents :
  let op1 := mkOperation OP_TYPE ex_did "op-1" [] ex_did (mkClockEntry 0 1) (ServiceAdd (mkService "s1" "t" "e" ∅)) (mkAuthProof "" "") 1 in
  let s := after (am_apply_operation_v2 op1) ex_created in
  match dag_get_tips (am_dag s.1 ex_did) with
  | Ok tips =>
      let op2 := mkOperation OP_TYPE ex_did "op-2" tips ex_did (mkClockEntry 0 2) (ServiceAdd (mkService "s2" "t" "e" ∅)) (mkAuthProof "" "") 2 in
      let '(r, s', _) := am_apply_operation_v2 op2 s.1 s.2 in
      tips = ["op-1"] ∧ r = Err (MerkleDagError "Parent node not found: op-1") ∧
      svc_type <$> (am_registry s' !! ex_did ≫= λ d, doc_get_service d "s2") = Some "t"
  | _ => False
  end.
Proof. vm_compute. split_and!; reflexivity. Qed.
End examples.
