(* ===== verification/Disclosure.v ===== *)
(** Selective disclosure for did:ajna, [src/did/src/ajna/selective_disclosure.rs]: a
    Merkle tree over the fields of a document, proofs of single fields, and their
    verification.

    [build_levels] halves a level until one node is left; its fuel is the number of
    leaves, and [build_levels_total] shows that is enough. *)
From S2P Require Import Prelude Crdt AjnaTypes Document Hashing.

(** The 32 zero bytes. *)
Definition zero_hash : string := str_concat (replicate 32 (String (Ascii.ascii_of_nat 0) "")).

(** [src/did/src/ajna/selective_disclosure.rs:18-32] FieldProof *)
Record FieldProof := mkFieldProof {
  fp_path : string;
  fp_value : string;
  fp_proof : list string;
  fp_index : nat
}.

(** [src/did/src/ajna/selective_disclosure.rs:35-45] FieldIndex *)
Record FieldIndex := mkFieldIndex {
  fi_fields : gmap string (string * string * nat);
  fi_tree : list (list string);
  fi_root : string
}.

(** [src/did/src/ajna/selective_disclosure.rs:340-348] MinimalDocument *)
Record MinimalDocument := mkMinimal { md_fields : list FieldProof; md_root : string }.

(** [src/did/src/ajna/selective_disclosure.rs:241-244] FieldIndex::root *)
Definition fi_get_root (self : FieldIndex) : string := fi_root self.

(** [src/did/src/ajna/selective_disclosure.rs:297-300] FieldIndex::get_field *)
Definition fi_get_field (self : FieldIndex) (path : string) : option string :=
  (λ '(_, value, _), value) <$> fi_fields self !! path.

(** [src/did/src/ajna/selective_disclosure.rs:264-290] FieldIndex::compute_proof_path (the loop over the levels) *)
Fixpoint proof_path_levels (levels : list (list string)) (index : nat) : Result (list string) :=
  match levels with
  | [] => Ok []
  | level :: levels =>
      let sibling_index := if Nat.even index then (index + 1)%nat else (index - 1)%nat in
      let? sibling :=
        match level !! (if (sibling_index <? length level)%nat then sibling_index else index) with
        | Some h => Ok h
        | None => Panic
        end in
      let? proof := proof_path_levels levels (index / 2) in
      Ok (sibling :: proof)
  end.

(** [src/did/src/ajna/selective_disclosure.rs:264-290] FieldIndex::compute_proof_path *)
Definition fi_compute_proof_path (self : FieldIndex) (index : nat) : Result (list string) :=
  match fi_tree self with
  | [] => Panic
  | _ => proof_path_levels (take (length (fi_tree self) - 1) (fi_tree self)) index
  end.

(** [src/did/src/ajna/selective_disclosure.rs:246-262] FieldIndex::prove *)
Definition fi_prove (self : FieldIndex) (path : string) : Result FieldProof :=
  match fi_fields self !! path with
  | None => Err (InvalidReference ("Field not found: " +:+ path))
  | Some (_, value, index) =>
      let? proof_hashes := fi_compute_proof_path self index in
      Ok (mkFieldProof path value proof_hashes index)
  end.

(** [src/did/src/ajna/selective_disclosure.rs:351-362] MinimalDocument::new *)
Fixpoint md_prove_all (index : FieldIndex) (paths : list string) : Result (list FieldProof) :=
  match paths with
  | [] => Ok []
  | path :: paths =>
      let? field := fi_prove index path in
      let? fields := md_prove_all index paths in
      Ok (field :: fields)
  end.
Definition md_new (index : FieldIndex) (paths : list string) : Result MinimalDocument :=
  let? fields := md_prove_all index paths in Ok (mkMinimal fields (fi_get_root index)).

Section hashing.
Context `{Blake3}.

(** [src/did/src/ajna/selective_disclosure.rs:322-328] hash_field *)
Definition sd_hash_field (path value : string) : string := hash_with_dst DST_AJNA_FIELD (path +:+ value).

(** [src/did/src/ajna/selective_disclosure.rs:330-337] hash_pair *)
Definition sd_hash_pair (left right : string) : string := blake3_updates [left; right].

(** [src/did/src/ajna/selective_disclosure.rs:221-231] FieldIndex::build_merkle_tree (one level from the level below) *)
Fixpoint next_level (level : list string) : list string :=
  match level with
  | a :: (b :: rest) => sd_hash_pair a b :: next_level rest
  | [a] => [sd_hash_pair a a]
  | [] => []
  end.

Fixpoint build_levels (fuel : nat) (level : list string) : option (list (list string)) :=
  if (length level <=? 1)%nat then Some [level]
  else
    match fuel with
    | O => None
    | S fuel => rest ← build_levels fuel (next_level level); Some (level :: rest)
    end.

(** [src/did/src/ajna/selective_disclosure.rs:209-239] FieldIndex::build_merkle_tree *)
Definition build_merkle_tree (leaves : list string) : option (list (list string)) :=
  match leaves with
  | [] => Some [[zero_hash]]
  | _ => build_levels (length leaves) leaves
  end.

(** [src/did/src/ajna/selective_disclosure.rs:311-317] verify_field_proof (the loop over the siblings) *)
Fixpoint fold_proof (computed_hash : string) (index : nat) (proof : list string) : string :=
  match proof with
  | [] => computed_hash
  | sibling :: proof =>
      fold_proof (if Nat.even index then sd_hash_pair computed_hash sibling
                  else sd_hash_pair sibling computed_hash) (index / 2) proof
  end.

(** [src/did/src/ajna/selective_disclosure.rs:303-320] verify_field_proof *)
Definition verify_field_proof (proof : FieldProof) (root : string) : bool :=
  let leaf_hash := sd_hash_field (fp_path proof) (fp_value proof) in
  bool_decide (fold_proof leaf_hash (fp_index proof) (fp_proof proof) = root).

(** [src/did/src/ajna/selective_disclosure.rs:364-369] MinimalDocument::verify_all *)
Definition md_verify_all (self : MinimalDocument) : bool :=
  forallb (λ proof, verify_field_proof proof (md_root self)) (md_fields self).

(** [src/did/src/ajna/selective_disclosure.rs:371-378] MinimalDocument::get_field *)
Definition md_get_field (self : MinimalDocument) (path : string) : option string :=
  match list_find (λ p, fp_path p = path) (md_fields self) with
  | Some (_, p) => if verify_field_proof p (md_root self) then Some (fp_value p) else None
  | None => None
  end.

Context `{SerdeJson}.

(** [src/did/src/ajna/selective_disclosure.rs:184-207] FieldIndex::add_field *)
Definition add_field (path : string) (value : Json)
    (st : gmap string (string * string * nat) * list string * nat)
    : Result (gmap string (string * string * nat) * list string * nat) :=
  let '(fields, leaves, index) := st in
  match json_to_vec value with
  | inl e => Err (SerializationError e)
  | inr value_bytes =>
      let hash := sd_hash_field path value_bytes in
      Ok (<[path := (hash, value_bytes, index)]> fields, leaves ++ [hash], S index)
  end.

Fixpoint add_fields (entries : list (string * Json))
    (st : gmap string (string * string * nat) * list string * nat)
    : Result (gmap string (string * string * nat) * list string * nat) :=
  match entries with
  | [] => Ok st
  | (path, value) :: entries => let? st := add_field path value st in add_fields entries st
  end.

Context `{HashOrder}.

(** [src/did/src/ajna/selective_disclosure.rs:92-128] FieldIndex::extract_fields (one verification method) *)
Definition vm_fields (i : nat) (vm : VerificationMethod) : list (string * Json) :=
  let base := "/verificationMethod/" +:+ pretty i in
  [(base +:+ "/id", JString (vm_id vm)); (base +:+ "/type", JString (vm_type vm));
   (base +:+ "/controller", JString (vm_controller vm));
   (base +:+ "/publicKeyMultibase", JString (vm_public_key_multibase vm))] ++
  imap (λ j p, (base +:+ "/purpose/" +:+ pretty j, JString p)) (default [] (vm_purpose vm)).

(** [src/did/src/ajna/selective_disclosure.rs:132-157] FieldIndex::extract_fields (one service) *)
Definition service_fields (kv : string * Service) : list (string * Json) :=
  let base := "/service/" +:+ kv.1 in
  [(base +:+ "/id", JString (svc_id kv.2)); (base +:+ "/type", JString (svc_type kv.2));
   (base +:+ "/serviceEndpoint", JString (svc_endpoint kv.2))].

(** [src/did/src/ajna/selective_disclosure.rs:73-182] FieldIndex::extract_fields *)
Definition doc_fields (doc : AjnaDocument) : list (string * Json) :=
  [("/id", JString (doc_id doc))] ++
  imap (λ i c, ("/controller/" +:+ pretty i, JString c)) (default [] (orset_elements <$> doc_controller doc)) ++
  concat (imap vm_fields (orset_elements (doc_verification_methods doc))) ++
  (default [] (lww_entries <$> doc_service doc) ≫= service_fields) ++
  ((λ kv, ("/policy/" +:+ kv.1, kv.2)) <$> default [] (lww_entries <$> doc_policy doc)) ++
  match doc_deactivated doc with
  | Some deactivated => [("/deactivated", JBool deactivated)]
  | None => []
  end.

(** [src/did/src/ajna/selective_disclosure.rs:48-71] FieldIndex::build *)
Definition fi_build (doc : AjnaDocument) : Result FieldIndex :=
  let? '(fields, leaves, _) := add_fields (doc_fields doc) (∅, [], 0%nat) in
  match build_merkle_tree leaves with
  | None => Panic
  | Some tree =>
      let root := default zero_hash (last tree ≫= head) in
      Ok (mkFieldIndex fields tree root)
  end.

(** [src/did/src/ajna/selective_disclosure.rs:292-295] FieldIndex::paths *)
Definition fi_paths (self : FieldIndex) : list string := (map_iter (fi_fields self)).*1.
End hashing.

(** * The tree *)

Lemma list_pair_ind {A} (P : list A → Prop) :
  P [] → (∀ a, P [a]) → (∀ a b l, P l → P (a :: b :: l)) → ∀ l, P l.
Proof.
  intros H0 H1 H2 l. enough (P l ∧ ∀ a, P (a :: l)) by tauto.
  induction l as [|b l [IH IH']]; [by auto|]. split; [by apply IH'|]. auto.
Qed.

Section tree.
Context `{Blake3}.

Lemma next_level_lookup l j :
  next_level l !! j =
    match l !! (2 * j)%nat, l !! (2 * j + 1)%nat with
    | Some a, Some b => Some (sd_hash_pair a b)
    | Some a, None => Some (sd_hash_pair a a)
    | None, _ => None
    end.
Proof.
  revert j. induction l as [|a|a b l IH] using list_pair_ind; intros j; [by destruct j|by destruct j as [|[]]|].
  destruct j as [|j]; [done|]. replace (2 * S j)%nat with (S (S (2 * j))) by lia.
  replace (S (S (2 * j)) + 1)%nat with (S (S (2 * j + 1))) by lia. apply IH.
Qed.

Lemma next_level_length l : (2 * length (next_level l) = length l + length l `mod` 2)%nat.
Proof.
  induction l as [|a|a b l IH] using list_pair_ind; [done|done|]. cbn [next_level length].
  replace (S (S (length l))) with (length l + 1 * 2)%nat by lia. rewrite Nat.Div0.mod_add. lia.
Qed.

Lemma next_level_shrinks l : (2 ≤ length l)%nat → (1 ≤ length (next_level l) < length l)%nat.
Proof.
  intros Hl. pose proof (next_level_length l). pose proof (Nat.mod_upper_bound (length l) 2 ltac:(lia)). lia.
Qed.

Lemma build_levels_total fuel l :
  (length l ≤ fuel)%nat → ∃ rest, build_levels fuel l = Some (l :: rest).
Proof.
  revert l. induction fuel as [|fuel IH]; intros l Hl; cbn [build_levels].
  - destruct l; [|cbn in Hl; lia]. by exists [].
  - destruct (Nat.leb_spec (length l) 1); [by exists []|].
    pose proof (next_level_shrinks l ltac:(lia)). destruct (IH (next_level l)) as [rest Hr]; [lia|].
    rewrite Hr. cbn. by eexists.
Qed.

(** Along a built tree the proof path of any leaf exists and folds to the root. *)
Lemma build_levels_complete fuel l tree i h :
  build_levels fuel l = Some tree → l !! i = Some h →
  ∃ proof, proof_path_levels (take (length tree - 1) tree) i = Ok proof ∧
    last tree ≫= head = Some (fold_proof h i proof) ∧ length proof = (length tree - 1)%nat.
Proof.
  revert l tree i h. induction fuel as [|fuel IH]; intros l tree i h; cbn [build_levels];
    (destruct (Nat.leb_spec (length l) 1) as [Hle|Hgt]; [|try done]).
  1,2: intros [= <-] Hi; exists []; destruct l as [|x [|y l]]; [done| |cbn in Hle; lia];
    destruct i; [|done]; cbn in Hi; by simplify_eq.
  destruct (build_levels fuel (next_level l)) as [rest|] eqn:Er; [|done]. cbn. intros [= <-] Hi.
  assert (∃ s, l !! (if ((if Nat.even i then i + 1 else i - 1) <? length l)%nat
                     then (if Nat.even i then i + 1 else i - 1) else i)%nat = Some s ∧
    next_level l !! (i / 2)%nat =
      Some (if Nat.even i then sd_hash_pair h s else sd_hash_pair s h)) as (s&Hs&Hn).
  { pose proof (lookup_lt_Some _ _ _ Hi) as Hlt. rewrite next_level_lookup.
    destruct (Nat.even i) eqn:Ev.
    - apply Nat.even_spec in Ev as [k ->]. replace (2 * k / 2)%nat with k by (rewrite Nat.mul_comm, Nat.div_mul; lia).
      rewrite Hi. destruct (Nat.ltb_spec (2 * k + 1) (length l)) as [Hl|Hl].
      + apply lookup_lt_is_Some in Hl as [s Hs]. exists s. by rewrite Hs.
      + exists h. apply lookup_ge_None in Hl. by rewrite Hl.
    - assert (Nat.odd i = true) as Ho by (by rewrite <- Nat.negb_even, Ev). apply Nat.odd_spec in Ho as [k ->].
      replace ((2 * k + 1) / 2)%nat with k by (rewrite Nat.mul_comm, Nat.div_add_l; cbn; lia).
      replace (2 * k + 1 - 1)%nat with (2 * k)%nat by lia. destruct (Nat.ltb_spec (2 * k) (length l)); [|lia].
      destruct (lookup_lt_is_Some_2 l (2 * k)) as [s Hs]; [lia|]. exists s. by rewrite Hs, Hi. }
  destruct (IH _ _ _ _ Er Hn) as (proof&Hp&Hroot&Hlen).
  assert (∃ x rest', rest = x :: rest') as (x&rest'&->).
  { destruct fuel; cbn in Er; (destruct (length (next_level l) <=? 1)%nat; [simplify_eq; by eexists _, _|]);
      [done|]. destruct (build_levels fuel _); cbn in Er; simplify_eq. by eexists _, _. }
  exists (s :: proof). cbn [length]. replace (S (S (length rest')) - 1)%nat with (S (length rest')) by lia.
  cbn [take proof_path_levels]. rewrite Hs.
  replace (length (x :: rest') - 1)%nat with (length rest') in Hp by (cbn; lia). rewrite Hp.
  split_and!; [done|exact Hroot|]. cbn in *. lia.
Qed.

(** Two leaves with one proof shape and one root are one leaf, or a collision of the
    hash is at hand. *)
Lemma fold_proof_binding h h' i proof proof' :
  length proof = length proof' → String.length h = 32 → String.length h' = 32 →
  Forall (λ s, String.length s = 32) proof → Forall (λ s, String.length s = 32) proof' →
  fold_proof h i proof = fold_proof h' i proof' → h = h' ∨ blake3_collision.
Proof.
  revert h h' i proof'. induction proof as [|s proof IH]; intros h h' i [|s' proof']; try done; [by left|].
  cbn. intros [= Hlen] Hh Hh' [Hs Hps]%Forall_cons [Hs' Hps']%Forall_cons Heq.
  apply IH in Heq; [|done|destruct (Nat.even i); apply blake3_length|destruct (Nat.even i); apply blake3_length|done|done].
  destruct Heq as [Heq|?]; [|by right]. destruct (Nat.even i); unfold sd_hash_pair, blake3_updates in Heq.
  - destruct (decide (str_concat [h; s] = str_concat [h'; s'])) as [Hc|Hc]; [left|right; by eexists _, _].
    cbn in Hc. apply str_app_inj in Hc as [-> _]; [done|congruence].
  - destruct (decide (str_concat [s; h] = str_concat [s'; h'])) as [Hc|Hc]; [left|right; by eexists _, _].
    cbn in Hc. apply str_app_inj in Hc as [_ Hc]; [|congruence].
    apply str_app_inj in Hc as [-> _]; [done|congruence].
Qed.
End tree.

(** * The index of a document *)

Section index.
Context `{Blake3} `{SerdeJson}.

Record fields_ok (st : gmap string (string * string * nat) * list string * nat) : Prop := {
  fo_index : st.2 = length st.1.2;
  fo_leaf path h v i : st.1.1 !! path = Some (h, v, i) → st.1.2 !! i = Some h ∧ h = sd_hash_field path v
}.

Lemma add_fields_ok entries st st' :
  fields_ok st → add_fields entries st = Ok st' →
  fields_ok st' ∧ (∀ path, is_Some (st'.1.1 !! path) ↔ is_Some (st.1.1 !! path) ∨ path ∈ entries.*1) ∧
  (st.1.2 ≠ [] ∨ entries ≠ [] → st'.1.2 ≠ []).
Proof.
  revert st. induction entries as [|[path v] entries IH]; intros [[fields leaves] index] Hok; cbn [add_fields].
  { intros [= <-]. split_and!; [done| |by intros [?|?]]. intros path. cbn. rewrite elem_of_nil. tauto. }
  unfold add_field. destruct (json_to_vec v) as [e|bytes]; [done|]. intros Hadd.
  apply IH in Hadd as (Hok'&Hdom&Hne).
  - split_and!; [done| |intros _; apply Hne; left; cbn; by destruct leaves].
    intros path'. rewrite Hdom. cbn. rewrite lookup_insert_is_Some', elem_of_cons. naive_solver.
  - destruct Hok as [Hi Hl]. cbn in *. subst index. split; cbn; [rewrite length_app; cbn; lia|].
    intros path' h' v' i'. rewrite lookup_insert_Some. intros [[<- [= <- <- <-]]|[_ Hp]].
    + split; [|done]. by apply list_lookup_middle.
    + apply Hl in Hp as [Hp ->]. split; [|done]. by apply lookup_app_l_Some.
Qed.

Context `{HashOrder}.

Lemma fi_build_ok doc idx :
  fi_build doc = Ok idx →
  (∀ path, is_Some (fi_fields idx !! path) ↔ path ∈ (doc_fields doc).*1) ∧
  ∀ path h v i, fi_fields idx !! path = Some (h, v, i) →
    h = sd_hash_field path v ∧
    ∃ proof, fi_compute_proof_path idx i = Ok proof ∧ fold_proof h i proof = fi_get_root idx ∧
      length proof = (length (fi_tree idx) - 1)%nat.
Proof.
  unfold fi_build. destruct (add_fields _ _) as [[[fields leaves] n]|e|] eqn:Ea; [|done..].
  apply add_fields_ok in Ea as (Hok&Hdom&Hne); [|by split].
  destruct (build_merkle_tree leaves) as [tree|] eqn:Et; [|done]. intros [= <-]. cbn in *. split.
  { intros path. rewrite Hdom, lookup_empty. split; [by intros [[]|]|by right]. }
  intros path h v i Hp. destruct Hok as [_ Hl]. apply Hl in Hp as [Hi ->]. split; [done|].
  destruct leaves as [|x leaves]; [done|]. unfold build_merkle_tree in Et.
  destruct (build_levels_complete _ _ _ _ _ Et Hi) as (proof&Hp&Hroot&Hlen). exists proof.
  unfold fi_compute_proof_path, fi_get_root. cbn. rewrite Hroot. destruct tree; [done|]. by rewrite Hp.
Qed.

(** Selective disclosure is complete: from an index built over a document, every field
    of the document has a proof, the proof verifies against the index's root and carries
    the indexed value, a minimal document over any of the fields verifies as a whole and
    returns their values, and a path that is not a field is refused. *)
Theorem disclosure_complete (doc : AjnaDocument) (idx : FieldIndex) :
  fi_build doc = Ok idx →
  (∀ path, path ∈ (doc_fields doc).*1 →
     ∃ p, fi_prove idx path = Ok p ∧ verify_field_proof p (fi_get_root idx) = true ∧
       fp_path p = path ∧ fi_get_field idx path = Some (fp_value p)) ∧
  (∀ path, path ∉ (doc_fields doc).*1 →
     fi_prove idx path = Err (InvalidReference ("Field not found: " +:+ path))) ∧
  (∀ paths, Forall (λ path, path ∈ (doc_fields doc).*1) paths →
     ∃ md, md_new idx paths = Ok md ∧ md_verify_all md = true ∧
       ∀ path, path ∈ paths → md_get_field md path = fi_get_field idx path).
Proof.
  intros [Hdom Hidx]%fi_build_ok.
  assert (∀ path, path ∈ (doc_fields doc).*1 →
     ∃ p, fi_prove idx path = Ok p ∧ verify_field_proof p (fi_get_root idx) = true ∧
       fp_path p = path ∧ fi_get_field idx path = Some (fp_value p)) as Hprove.
  { intros path [[[h v] i] Hp]%Hdom. destruct (Hidx _ _ _ _ Hp) as (->&proof&Hproof&Hroot&_).
    exists (mkFieldProof path v proof i). unfold fi_prove, fi_get_field, verify_field_proof.
    rewrite Hp, Hproof. cbn. by rewrite bool_decide_true. }
  split_and!; [done| |].
  - intros path Hnot. unfold fi_prove. destruct (fi_fields idx !! path) eqn:E; [|done].
    destruct Hnot. apply Hdom. by eexists.
  - intros paths Hall. unfold md_new.
    assert (∃ ps, md_prove_all idx paths = Ok ps ∧
      Forall (λ p, verify_field_proof p (fi_get_root idx) = true ∧ fi_get_field idx (fp_path p) = Some (fp_value p)) ps ∧
      fp_path <$> ps = paths) as (ps&->&Hps&Hpaths).
    { induction Hall as [|path paths Hpath _ (ps&IH&Hps&Hpaths)]; [by exists []|].
      destruct (Hprove path Hpath) as (p&Hp&Hv&Hpp&Hget). exists (p :: ps).
      split_and!; [cbn; by rewrite Hp, IH|constructor; [by rewrite Hpp|done]|by rewrite fmap_cons, Hpp, Hpaths]. }
    eexists. split; [done|]. split.
    + apply forallb_forall. intros p Hp%list_elem_of_In. rewrite Forall_forall in Hps. by apply Hps.
    + intros path Hin. unfold md_get_field. cbn. subst paths. apply list_elem_of_fmap in Hin as (p&->&Hin).
      destruct (list_find_elem_of (λ q, fp_path q = fp_path p) ps p Hin eq_refl) as [[j q] Hf]. rewrite Hf.
      apply list_find_Some in Hf as (Hj&Hq&_). apply list_elem_of_lookup_2 in Hj.
      rewrite Forall_forall in Hps. destruct (Hps q Hj) as [-> Hg]. by rewrite <- Hq.
Qed.

(** Selective disclosure is binding: a proof for the same leaf and of the same length
    that verifies against the root of a built index opens the same bytes, path followed
    by value, as the index's own proof, or it exhibits two strings with one digest. *)
Theorem disclosure_binding (doc : AjnaDocument) (idx : FieldIndex) (path : string) (p forged : FieldProof) :
  fi_build doc = Ok idx → fi_prove idx path = Ok p →
  fp_index forged = fp_index p → length (fp_proof forged) = length (fp_proof p) →
  Forall (λ s, String.length s = 32) (fp_proof p) → Forall (λ s, String.length s = 32) (fp_proof forged) →
  verify_field_proof forged (fi_get_root idx) = true →
  fp_path forged +:+ fp_value forged = fp_path p +:+ fp_value p ∨ blake3_collision.
Proof.
  intros [_ Hidx]%fi_build_ok Hp Hi Hlen Hall Hall' Hv. unfold fi_prove in Hp.
  destruct (fi_fields idx !! path) as [[[h v] i]|] eqn:E; [|done].
  destruct (Hidx _ _ _ _ E) as (->&proof&Hproof&Hroot&_). rewrite Hproof in Hp. injection Hp as <-. cbn in *.
  apply bool_decide_eq_true in Hv. rewrite Hi, <- Hroot in Hv.
  apply fold_proof_binding in Hv; [|done|apply blake3_length|apply blake3_length|done|done].
  destruct Hv as [Hv|?]; [|by right]. unfold sd_hash_field, hash_with_dst, blake3_updates in Hv.
  destruct (decide (str_concat [DST_AJNA_FIELD; fp_path forged +:+ fp_value forged] = str_concat [DST_AJNA_FIELD; path +:+ v]))
    as [Hc|Hc]; [left|right; by eexists _, _].
  cbn [str_concat foldr] in Hc. apply str_app_inj in Hc as [_ Hc]; [|done].
  fold (str_concat []) in Hc. change ((fp_path forged +:+ fp_value forged) +:+ "" = (path +:+ v) +:+ "") in Hc.
  by rewrite !str_app_empty_r in Hc.
Qed.
End index.

(** ** Witnesses and concrete runs *)

Section examples.
#[local] Existing Instance plain_order.
#[local] Existing Instance toy_blake3.
#[local] Existing Instance toy_json.

Definition ex_policy_doc : AjnaDocument :=
  set_policy (Some (lww_set_with_timestamp lww_new "x" (JPosInt 12) 0 "n")) ex_b.

Lemma disclosure_complete_witness :
  match fi_build ex_policy_doc with
  | Ok idx => ∃ p, fi_prove idx "/policy/x" = Ok p ∧ fp_value p = "12" ∧ verify_field_proof p (fi_get_root idx) = true
  | _ => False
  end.
Proof.
  assert (is_ok (fi_build ex_policy_doc) = true) as Hok by (vm_compute; reflexivity).
  destruct (fi_build ex_policy_doc) as [idx|e|] eqn:E; [|discriminate Hok..].
  destruct (disclosure_complete ex_policy_doc idx E) as [Hc _].
  destruct (Hc "/policy/x") as (p&Hp&Hv&_&Hg).
  { apply (bool_decide_eq_true_1 ("/policy/x" ∈ (doc_fields ex_policy_doc).*1)). vm_compute. reflexivity. }
  exists p. split; [exact Hp|]. split; [|exact Hv].
  assert (match fi_build ex_policy_doc with Ok idx => fi_get_field idx "/policy/x" | _ => None end = Some "12") as Hf
    by (vm_compute; reflexivity).
  rewrite E, Hg in Hf. injection Hf as Hf. exact Hf.
Defined.

Lemma disclosure_binding_witness :
  match fi_build ex_policy_doc with
  | Ok idx =>
      match fi_prove idx "/policy/x" with
      | Ok p => fp_path p +:+ fp_value p = "/policy/x12" ∨ blake3_collision
      | _ => False
      end
  | _ => False
  end.
Proof.
  assert (match fi_build ex_policy_doc with
    | Ok idx =>
        match fi_prove idx "/policy/x" with
        | Ok p => fp_path p +:+ fp_value p = "/policy/x12" ∧
            verify_field_proof (mkFieldProof "/policy/x1" "2" (fp_proof p) (fp_index p)) (fi_get_root idx) = true ∧
            forallb (λ s, String.length s =? 32)%nat (fp_proof p) = true
        | _ => False
        end
    | _ => False
    end) as Hok by (vm_compute; split; [reflexivity|split; reflexivity]).
  destruct (fi_build ex_policy_doc) as [idx|e|] eqn:E; [|destruct Hok..].
  destruct (fi_prove idx "/policy/x") as [p|e|] eqn:Ep; [|destruct Hok..]. destruct Hok as (Hpv&Hv&Hall).
  assert (Forall (λ s, String.length s = 32) (fp_proof p)) as Hlen.
  { apply Forall_forall. intros s Hs%list_elem_of_In. apply Nat.eqb_eq. revert s Hs. by apply forallb_forall. }
  destruct (disclosure_binding ex_policy_doc idx "/policy/x" p (mkFieldProof "/policy/x1" "2" (fp_proof p) (fp_index p))
    E Ep eq_refl eq_refl Hlen Hlen Hv) as [Heq|Hcol]; [left|right; exact Hcol].
  rewrite <- Heq. reflexivity.
Defined.

(** The leaf hashes the path followed by the value with no boundary between them: the
    proof of policy [x] = 12 also verifies as a proof of policy [x1] = 2. *)
Example field_boundary_moves :
  match fi_build ex_policy_doc with
  | Ok idx =>
      match fi_prove idx "/policy/x" with
      | Ok p => fp_value p = "12" ∧
          verify_field_proof (mkFieldProof "/policy/x1" "2" (fp_proof p) (fp_index p)) (fi_get_root idx) = true ∧
          fi_get_field idx "/policy/x1" = None
      | _ => False
      end
  | _ => False
  end.
Proof. vm_compute. split_and!; reflexivity. Qed.
End examples.
