(* ===== verification/DidSync.v ===== *)
(** Operation bundles, [src/did/src/ajna/op_bundle.rs]: the unit of transmission of
    the sync protocol.  [rmp_serde] is a parameter; the clock readings are those of
    the world, one per created bundle.

    The sync protocol of did:ajna: [src/did/src/ajna/bloom_filter.rs] and
    [src/did/src/ajna/didcomm_sync.rs] (announce, fetch, push).

    The crate [bloom] is a parameter: a filter contains what was inserted into it and
    a new filter contains nothing; false positives are left open.  A floating-point
    number is its 64-bit pattern. *)
From S2P Require Import Prelude AjnaTypes Document Hashing StdText MerkleDag.

(** [src/did/src/ajna/op_bundle.rs:22-23] MAX_BUNDLE_SIZE *)
Definition MAX_BUNDLE_SIZE : N := (128 * 1024)%N.

(** [src/did/src/ajna/op_bundle.rs:25-42] OpBundle *)
Record OpBundle := mkOpBundle {
  ob_doc : string;
  ob_operations : list Operation;
  ob_context_ops : list Operation;
  ob_bundle_id : string;
  ob_created_at : Z
}.

(** The MessagePack serializer of [rmp_serde]; [inl] is the error's text. *)
Class RmpSerde := {
  rmp_to_vec : OpBundle → string + string;
  rmp_from_slice : string → string + OpBundle;
  rmp_round_trip b bytes : rmp_to_vec b = inr bytes → rmp_from_slice bytes = inr b
}.

(** [DateTime::timestamp_millis]. *)
Definition timestamp_millis (t : Instant) : Z := (t / 1000000)%Z.

(** [src/did/src/ajna/op_bundle.rs:151-178] OpBundle::find_minimal_context *)
Definition find_minimal_context (operations : list Operation) : Result (list Operation) :=
  let needed_parents : gset string :=
    list_to_set (filter (λ parent, parent ≠ "") (operations ≫= op2_parents)) in
  let ops_set : gset string := list_to_set (op2_op_id <$> operations) in
  let needed_parents := needed_parents ∖ ops_set in
  Ok [].

(** [src/did/src/ajna/op_bundle.rs:180-206] OpBundle::has_sufficient_context *)
Definition has_sufficient_context (self : OpBundle) : bool :=
  let available_ops : gset string := list_to_set (op2_op_id <$> ob_operations self ++ ob_context_ops self) in
  forallb (λ op, forallb (λ parent, bool_decide (parent = "" ∨ parent ∈ available_ops)) (op2_parents op))
    (ob_operations self).

(** [src/did/src/ajna/op_bundle.rs:263-266] OpBundle::total_ops *)
Definition ob_total_ops (self : OpBundle) : nat := length (ob_operations self) + length (ob_context_ops self).

Section serialized.
Context `{Blake3} `{Base64Std} `{RmpSerde}.

(** [src/did/src/ajna/op_bundle.rs:89-92] OpBundle::to_bytes *)
Definition ob_to_bytes (self : OpBundle) : Result string :=
  match rmp_to_vec self with inr b => Ok b | inl e => Err (SerializationError e) end.

(** [src/did/src/ajna/op_bundle.rs:94-97] OpBundle::from_bytes *)
Definition ob_from_bytes (bytes : string) : Result OpBundle :=
  match rmp_from_slice bytes with inr b => Ok b | inl e => Err (SerializationError e) end.

(** [src/did/src/ajna/op_bundle.rs:268-271] OpBundle::size_bytes *)
Definition ob_size_bytes (self : OpBundle) : Result N :=
  let? bytes := ob_to_bytes self in Ok (N.of_nat (String.length bytes)).

(** [src/did/src/ajna/op_bundle.rs:128-149] OpBundle::compute_id *)
Definition ob_compute_id (self : OpBundle) : string :=
  let op_ids := sort_strings (op2_op_id <$> ob_operations self) in
  b64_encode (blake3_updates
    ([DST_AJNA_OP; ob_doc self] ++ op_ids ++ [to_le_bytes 8 (ob_created_at self)])).

(** [src/did/src/ajna/op_bundle.rs:99-126] OpBundle::validate *)
Definition ob_validate (self : OpBundle) : Result unit :=
  if decide (ob_compute_id self ≠ ob_bundle_id self) then Err InvalidBundleId
  else if negb (has_sufficient_context self) then Err InsufficientContext
  else Ok tt.

(** [src/did/src/ajna/op_bundle.rs:45-87] OpBundle::create *)
Definition ob_create (did : string) (operations : list Operation) (max_size : N) (w : World)
    : Result OpBundle * World :=
  match find_minimal_context operations with
  | Ok context_ops =>
      let '(now, w) := utc_now w in
      let bundle := mkOpBundle did operations context_ops "" (timestamp_millis now) in
      let bundle_id := ob_compute_id bundle in
      let bundle := mkOpBundle (ob_doc bundle) (ob_operations bundle) (ob_context_ops bundle)
                      bundle_id (ob_created_at bundle) in
      (match ob_to_bytes bundle with
       | Ok serialized =>
           let size := N.of_nat (String.length serialized) in
           if (max_size <? size)%N then Err (BundleTooLarge size max_size) else Ok bundle
       | Err e => Err e
       | Panic => Panic
       end, w)
  | Err e => (Err e, w)
  | Panic => (Panic, w)
  end.

(** [src/did/src/ajna/op_bundle.rs:226-254] OpBundle::split_if_needed (the loop over the operations) *)
Fixpoint split_loop (did : string) (max_size : N) (operations : list Operation)
    (bundles : list OpBundle) (current_ops : list Operation) (w : World)
    : Result (list OpBundle * list Operation) * World :=
  match operations with
  | [] => (Ok (bundles, current_ops), w)
  | op :: operations =>
      let pushed := current_ops ++ [op] in
      match ob_create did pushed max_size w with
      | (Ok _, w) => split_loop did max_size operations bundles pushed w
      | (Err (BundleTooLarge _ _), w) =>
          if (1 <? length pushed)%nat then
            match ob_create did current_ops max_size w with
            | (Ok bundle, w) => split_loop did max_size operations (bundles ++ [bundle]) [op] w
            | (Err e, w) => (Err e, w)
            | (Panic, w) => (Panic, w)
            end
          else (Err (InvalidOperation "Single operation exceeds max bundle size"), w)
      | (Err e, w) => (Err e, w)
      | (Panic, w) => (Panic, w)
      end
  end.

(** [src/did/src/ajna/op_bundle.rs:208-261] OpBundle::split_if_needed *)
Definition split_if_needed (did : string) (operations : list Operation) (max_size : N) (w : World)
    : Result (list OpBundle) * World :=
  match ob_create did operations max_size w with
  | (Ok bundle, w) => (Ok [bundle], w)
  | (Err (BundleTooLarge _ _), w) =>
      match split_loop did max_size operations [] [] w with
      | (Ok (bundles, current_ops), w) =>
          match current_ops with
          | [] => (Ok bundles, w)
          | _ =>
              match ob_create did current_ops max_size w with
              | (Ok bundle, w) => (Ok (bundles ++ [bundle]), w)
              | (Err e, w) => (Err e, w)
              | (Panic, w) => (Panic, w)
              end
          end
      | (Err e, w) => (Err e, w)
      | (Panic, w) => (Panic, w)
      end
  | (Err e, w) => (Err e, w)
  | (Panic, w) => (Panic, w)
  end.

(** ** What a created bundle is *)

Record bundle_of (did : string) (operations : list Operation) (max_size : N) (b : OpBundle) : Prop := {
  bo_doc : ob_doc b = did;
  bo_ops : ob_operations b = operations;
  bo_context : ob_context_ops b = [];
  bo_id : ob_bundle_id b = ob_compute_id b;
  bo_size : ∃ bytes, ob_to_bytes b = Ok bytes ∧ (N.of_nat (String.length bytes) ≤ max_size)%N
}.

Lemma ob_create_spec did ops max w b w' :
  ob_create did ops max w = (Ok b, w') → bundle_of did ops max b.
Proof.
  unfold ob_create. cbn. destruct (ob_to_bytes _) as [bytes|e|] eqn:Eb; [|done..].
  destruct (N.ltb_spec max (N.of_nat (String.length bytes))); [done|]. intros [= <- _]. by split; eauto.
Qed.

(** A bundle that [create] made of some of the operations, at least one. *)
Definition bundle_part (did : string) (max_size : N) (b : OpBundle) : Prop :=
  bundle_of did (ob_operations b) max_size b ∧ ob_operations b ≠ [].

Lemma split_loop_spec did max ops bundles cur w bundles' cur' w' :
  split_loop did max ops bundles cur w = (Ok (bundles', cur'), w') →
  Forall (bundle_part did max) bundles →
  Forall (bundle_part did max) bundles' ∧
  concat (ob_operations <$> bundles') ++ cur' = concat (ob_operations <$> bundles) ++ cur ++ ops.
Proof.
  revert bundles cur w. induction ops as [|op ops IH]; intros bundles cur w; cbn [split_loop].
  { intros [= <- <- _] Hb. by rewrite app_nil_r. }
  destruct (ob_create did (cur ++ [op]) max w) as [[b|e|] w1]; [|destruct e; try done|done].
  - intros Hs Hb. apply IH in Hs as [Hb' ->]; [|done]. by rewrite <- app_assoc.
  - rewrite length_app. cbn [length]. destruct (Nat.ltb_spec 1 (length cur + 1)) as [Hl|Hl]; [|done].
    destruct (ob_create did cur max w1) as [[b|e|] w2] eqn:Ec; [|done..].
    apply ob_create_spec in Ec. intros Hs Hb. apply IH in Hs as [Hb' ->].
    + split; [done|]. rewrite fmap_app, concat_app. cbn. rewrite (bo_ops _ _ _ _ Ec), app_nil_r.
      by rewrite <- !app_assoc.
    + apply Forall_app. split; [done|]. apply Forall_singleton. split; [by rewrite (bo_ops _ _ _ _ Ec)|].
      rewrite (bo_ops _ _ _ _ Ec). intros ->. cbn in Hl. lia.
Qed.

(** Splitting operations into bundles loses, adds and reorders nothing: on success the
    operations of the bundles, in order, are the given ones, every bundle serializes to
    at most the maximal size, carries the DID and the hash of its contents, and none is
    empty (unless no operations were given). *)
Theorem split_preserves_operations (did : string) (ops : list Operation) (max : N) (w w' : World)
    (bundles : list OpBundle) :
  split_if_needed did ops max w = (Ok bundles, w') →
  concat (ob_operations <$> bundles) = ops ∧
  Forall (λ b, (ob_doc b = did ∧ ob_bundle_id b = ob_compute_id b ∧ (ops ≠ [] → ob_operations b ≠ [])) ∧
    ∃ bytes, ob_to_bytes b = Ok bytes ∧ (N.of_nat (String.length bytes) ≤ max)%N) bundles.
Proof.
  assert (∀ bs, Forall (bundle_part did max) bs →
    Forall (λ b, (ob_doc b = did ∧ ob_bundle_id b = ob_compute_id b ∧ (ops ≠ [] → ob_operations b ≠ [])) ∧
      ∃ bytes, ob_to_bytes b = Ok bytes ∧ (N.of_nat (String.length bytes) ≤ max)%N) bs) as Hpart.
  { intros bs Hbs. eapply Forall_impl; [exact Hbs|]. intros b [[? ? ? ? ?] ?]. by split_and!. }
  unfold split_if_needed. destruct (ob_create did ops max w) as [[b|e|] w1] eqn:Ec; [|destruct e; try done|done].
  - intros [= <- _]. apply ob_create_spec in Ec as [? Ho ? ? ?]. cbn. rewrite app_nil_r.
    split; [done|]. apply Forall_singleton. split; [|done]. split_and!; [done|done|by rewrite Ho].
  - destruct (split_loop did max ops [] [] w1) as [[[bs cur]|e|] w2] eqn:Es; [|done..].
    apply split_loop_spec in Es as [Hb Heq]; [|done]. cbn in Heq.
    destruct cur as [|o cur].
    + intros [= <- _]. rewrite app_nil_r in Heq. split; [done|by apply Hpart].
    + destruct (ob_create did (o :: cur) max w2) as [[b|e|] w3] eqn:Ec'; [|done..].
      apply ob_create_spec in Ec'. intros [= <- _]. rewrite fmap_app, concat_app. cbn.
      rewrite (bo_ops _ _ _ _ Ec'), app_nil_r. split; [done|]. apply Hpart, Forall_app. split; [done|].
      apply Forall_singleton. split; rewrite (bo_ops _ _ _ _ Ec'); done.
Qed.

Lemma sufficient_context_spec b :
  ob_context_ops b = [] →
  has_sufficient_context b = true ↔
    ∀ op parent, op ∈ ob_operations b → parent ∈ op2_parents op → parent = "" ∨ parent ∈ op2_op_id <$> ob_operations b.
Proof.
  intros Hctx. unfold has_sufficient_context. rewrite Hctx, app_nil_r, forallb_forall. setoid_rewrite <- list_elem_of_In.
  setoid_rewrite forallb_forall. setoid_rewrite <- list_elem_of_In. setoid_rewrite bool_decide_eq_true.
  setoid_rewrite elem_of_list_to_set. naive_solver.
Qed.

(** A created bundle validates exactly when every parent of its operations that is not
    the empty id is the id of an operation in the bundle itself: the context that is
    meant to hold the other parents is always empty, and the only other outcome is
    [InsufficientContext]. *)
Theorem created_bundle_validates_iff (did : string) (ops : list Operation) (max : N) (w w' : World) (b : OpBundle) :
  ob_create did ops max w = (Ok b, w') →
  (ob_validate b = Ok tt ↔
     ∀ op parent, op ∈ ops → parent ∈ op2_parents op → parent = "" ∨ parent ∈ op2_op_id <$> ops) ∧
  (ob_validate b = Ok tt ∨ ob_validate b = Err InsufficientContext).
Proof.
  intros [_ Hops Hctx Hid _]%ob_create_spec. unfold ob_validate. rewrite decide_False by (rewrite Hid; auto).
  pose proof (sufficient_context_spec b Hctx) as Hs. rewrite Hops in Hs.
  destruct (has_sufficient_context b); cbn; (split; [|by auto]); [tauto|].
  split; [done|]. intros Hall. apply Hs in Hall. done.
Qed.
End serialized.

(** ** Witnesses and concrete runs *)

Definition ex_bundle_op (op_id : string) (parents : list string) : Operation :=
  mkOperation OP_TYPE "did:ajna:x" op_id parents "did:ajna:x" (mkClockEntry 1 1) (Deactivate None) (mkAuthProof "" "") 0.

(** A serializer of the bundles of such operations: the bits of their code. *)
Definition simple_op (op : Operation) : option (string * list string) :=
  match op with
  | mkOperation ty doc op_id parents actor clock (Deactivate None) auth ts =>
      if decide (ty = OP_TYPE ∧ doc = "did:ajna:x" ∧ actor = "did:ajna:x" ∧
                 (ce_actor_id clock = 1 ∧ ce_counter clock = 1)%N ∧
                 ap_proof auth = "" ∧ ap_kid auth = "" ∧ ts = 0%Z)
      then Some (op_id, parents) else None
  | _ => None
  end.
Lemma simple_op_some op i ps : simple_op op = Some (i, ps) → op = ex_bundle_op i ps.
Proof.
  destruct op as [ty doc op_id parents actor [ai c] [| | | | | | | | |[]] [pr kid] ts]; cbn; try done.
  case_decide as Hd; [|done]. destruct Hd as (->&->&->&[-> ->]&->&->&->). by intros [= -> ->].
Qed.

Fixpoint pos_bits (p : positive) : string :=
  match p with
  | xH => ""
  | xO p => String (Ascii.ascii_of_nat 48) (pos_bits p)
  | xI p => String (Ascii.ascii_of_nat 49) (pos_bits p)
  end.
Fixpoint bits_pos (s : string) : positive :=
  match s with
  | "" => xH
  | String c s => if decide (Ascii.nat_of_ascii c = 48) then xO (bits_pos s) else xI (bits_pos s)
  end.
Lemma bits_pos_bits p : bits_pos (pos_bits p) = p.
Proof. induction p as [p IH|p IH|]; cbn; by rewrite ?IH. Qed.

Definition toy_rmp : RmpSerde.
Proof.
  refine {|
    rmp_to_vec b :=
      match mapM simple_op (ob_operations b), ob_context_ops b with
      | Some ops, [] => inr (pos_bits (encode (ob_doc b, ops, ob_bundle_id b, ob_created_at b)))
      | _, _ => inl "unsupported"
      end;
    rmp_from_slice s :=
      match decode (bits_pos s) with
      | Some (doc, ops, bundle_id, created_at) =>
          inr (mkOpBundle doc ((λ kv : string * list string, ex_bundle_op kv.1 kv.2) <$> ops) [] bundle_id created_at)
      | None => inl "malformed"
      end |}.
  intros [doc ops ctx bid at_] bytes. cbn. destruct (mapM simple_op ops) as [l|] eqn:El; [|done].
  destruct ctx; [|done]. intros [= <-]. rewrite bits_pos_bits, decode_encode. do 2 f_equal.
  apply mapM_Some in El. clear -El. induction El as [|op [i ps] ops l Hop _ IH]; [done|].
  apply simple_op_some in Hop as ->. cbn. by rewrite IH.
Defined.

Section examples.
#[local] Existing Instance toy_blake3.
#[local] Existing Instance toy_base64_std.
#[local] Existing Instance toy_rmp.

Definition ex_ops : list Operation := [ex_bundle_op "a" []; ex_bundle_op "b" ["a"]; ex_bundle_op "c" ["b"]].

Lemma split_preserves_operations_witness :
  match split_if_needed "did:ajna:x" ex_ops 1200 world0 with
  | (Ok bundles, _) => (2 ≤ length bundles)%nat ∧ concat (ob_operations <$> bundles) = ex_ops
  | _ => False
  end.
Proof.
  assert (match split_if_needed "did:ajna:x" ex_ops 1200 world0 with
    | (Ok bundles, _) => (2 <=? length bundles)%nat = true | _ => False end) as Hok by (vm_compute; reflexivity).
  destruct (split_if_needed "did:ajna:x" ex_ops 1200 world0) as [[bundles|e|] w'] eqn:E; [|destruct Hok..].
  split; [by apply Nat.leb_le|].
  exact (proj1 (split_preserves_operations "did:ajna:x" ex_ops 1200 world0 w' bundles E)).
Defined.

Lemma created_bundle_validates_iff_witness :
  match ob_create "did:ajna:x" [ex_bundle_op "b" ["a"]] MAX_BUNDLE_SIZE world0 with
  | (Ok b, _) => ob_validate b = Err InsufficientContext
  | _ => False
  end.
Proof.
  assert (is_ok (ob_create "did:ajna:x" [ex_bundle_op "b" ["a"]] MAX_BUNDLE_SIZE world0).1 = true) as Hok
    by (vm_compute; reflexivity).
  destruct (ob_create "did:ajna:x" [ex_bundle_op "b" ["a"]] MAX_BUNDLE_SIZE world0) as [[b|e|] w'] eqn:E; [|discriminate Hok..].
  destruct (created_bundle_validates_iff _ _ _ _ _ _ E) as [Hiff [Hv|Hv]]; [|exact Hv].
  exfalso. destruct (proj1 Hiff Hv (ex_bundle_op "b" ["a"]) "a") as [Ha|Ha]; [left|left|discriminate Ha|].
  apply list_elem_of_singleton in Ha. discriminate Ha.
Defined.

(** The bundle id covers the ids of the operations only: with another delta under the
    same id the bundle still validates. *)
Example bundle_id_ignores_contents :
  match ob_create "did:ajna:x" [ex_bundle_op "a" []] MAX_BUNDLE_SIZE world0 with
  | (Ok b, _) =>
      let other := mkOperation OP_TYPE "did:ajna:x" "a" [] "did:mallory" (mkClockEntry 1 1)
        (ControllerAdd "did:mallory") (mkAuthProof "" "") 0 in
      ob_validate (mkOpBundle (ob_doc b) [other] [] (ob_bundle_id b) (ob_created_at b)) = Ok tt
  | _ => False
  end.
Proof. vm_compute. reflexivity. Qed.
End examples.

(** The crate [bloom]. *)
Class BloomCrate := {
  CoreBloom : Type;
  core_with_size : N → N → CoreBloom;
  core_insert : CoreBloom → string → CoreBloom;
  core_contains : CoreBloom → string → bool;
  core_contains_insert b x : core_contains (core_insert b x) x = true;
  core_contains_mono b x y : core_contains b y = true → core_contains (core_insert b x) y = true;
  core_contains_new m k x : core_contains (core_with_size m k) x = false
}.

(** The parameters [BloomFilter::new] computes in floating point for a number of items
    at the capped rate: the number of bits and the number of hashes. *)
Class BloomParams := { optimal_params : N → N * N }.

Section bloom_filter.
Context `{BloomCrate}.

(** [src/did/src/ajna/bloom_filter.rs:16-23] BloomFilter *)
Record BloomFilter := mkBloom {
  bf_inner : CoreBloom;
  bf_false_positive_rate : N;
  bf_expected_items : N;
  bf_bit_count : N;
  bf_hash_count : N
}.

(** The bits of the rate 1e-6. *)
Definition fpr_cap : N := 4517329193108106637%N.

(** [src/did/src/ajna/bloom_filter.rs:67-70] BloomFilter::default_config *)
Definition bf_default_config `{BloomParams} : BloomFilter :=
  let '(bit_count, hash_count) := optimal_params 10000 in
  mkBloom (core_with_size bit_count hash_count) fpr_cap 10000 bit_count hash_count.

(** [src/did/src/ajna/bloom_filter.rs:72-79] BloomFilter::insert *)
Definition bf_insert (self : BloomFilter) (op_id : string) : BloomFilter :=
  mkBloom (core_insert (bf_inner self) op_id) (bf_false_positive_rate self) (bf_expected_items self)
    (bf_bit_count self) (bf_hash_count self).

(** [src/did/src/ajna/bloom_filter.rs:81-91] BloomFilter::contains *)
Definition bf_contains (self : BloomFilter) (op_id : string) : bool := core_contains (bf_inner self) op_id.

(** [src/did/src/ajna/bloom_filter.rs:103-132] BloomFilter::to_bytes *)
Definition bf_to_bytes (self : BloomFilter) : string :=
  to_le_bytes 4 (Z.of_N (bf_expected_items self)) +:+
  (to_le_bytes 8 (Z.of_N (bf_false_positive_rate self)) +:+
  (to_le_bytes 4 (Z.of_N (bf_bit_count self)) +:+
   to_le_bytes 4 (Z.of_N (bf_hash_count self)))).

(** [src/did/src/ajna/bloom_filter.rs:134-168] BloomFilter::from_bytes *)
Definition bf_from_bytes (bytes : string) : Result BloomFilter :=
  if (String.length bytes <? 20)%nat then Err (InvalidBloomFilter "Insufficient bytes for header")
  else
    let expected_items := from_le_bytes (String.substring 0 4 bytes) in
    let fpr := from_le_bytes (String.substring 4 8 bytes) in
    let bit_count := from_le_bytes (String.substring 12 4 bytes) in
    let hash_count := from_le_bytes (String.substring 16 4 bytes) in
    Ok (mkBloom (core_with_size bit_count hash_count) fpr expected_items bit_count hash_count).

(** [src/did/src/ajna/bloom_filter.rs:170-175] BloomFilter::estimated_size_bytes *)
Definition bf_estimated_size_bytes (self : BloomFilter) : N := 20.

(** [src/did/src/ajna/bloom_filter.rs:177-181] BloomFilter::clear *)
Definition bf_clear (self : BloomFilter) : BloomFilter :=
  mkBloom (core_with_size (bf_bit_count self) (bf_hash_count self)) (bf_false_positive_rate self)
    (bf_expected_items self) (bf_bit_count self) (bf_hash_count self).

(** [src/did/src/ajna/bloom_filter.rs:183-188] BloomFilter::is_empty *)
Definition bf_is_empty (self : BloomFilter) : bool := false.
End bloom_filter.

(** ** Messages *)

(** [src/did/src/ajna/didcomm_sync.rs:303-322] AnnounceMessage *)
Record AnnounceMessage := mkAnnounce {
  ann_piuri : string;
  ann_doc : string;
  ann_tips : list string;
  ann_bloom : string;
  ann_want : option (list string)
}.

(** [src/did/src/ajna/didcomm_sync.rs:324-338] FetchMessage *)
Record FetchMessage := mkFetch {
  fet_piuri : string;
  fet_doc : string;
  fet_op_ids : list string;
  fet_max_bundle_size : N
}.

(** [src/did/src/ajna/didcomm_sync.rs:340-351] PushMessage *)
Record PushMessage := mkPush { pus_piuri : string; pus_doc : string; pus_bundle : string }.

(** [src/did/src/ajna/didcomm_sync.rs:353-360] SyncStats *)
Record SyncStats := mkSyncStats {
  ss_bloom_size_bytes : N;
  ss_known_dids : nat;
  ss_known_peers : nat;
  ss_total_operations : nat
}.

Section sync.
Context `{BloomCrate} `{BloomParams} `{HashOrder} `{Blake3} `{Base64Std} `{RmpSerde}.

(** [src/did/src/ajna/didcomm_sync.rs:33-43] SyncProtocol *)
Record SyncProtocol := mkSync {
  sp_bloom : BloomFilter;
  sp_known_tips : gmap string (gset string);
  sp_dags : gmap string MerkleDAG
}.

Abbreviation Sp := (eff AjnaError SyncProtocol).

Definition sp_set_bloom (b : BloomFilter) (s : SyncProtocol) : SyncProtocol :=
  mkSync b (sp_known_tips s) (sp_dags s).
Definition sp_put_tips (peer : string) (tips : gset string) (s : SyncProtocol) : SyncProtocol :=
  mkSync (sp_bloom s) (<[peer := tips]> (sp_known_tips s)) (sp_dags s).
Definition sp_put_dag (did : string) (dag : MerkleDAG) (s : SyncProtocol) : SyncProtocol :=
  mkSync (sp_bloom s) (sp_known_tips s) (<[did := dag]> (sp_dags s)).

(** [src/did/src/ajna/didcomm_sync.rs:46-53] SyncProtocol::new *)
Definition sp_new : SyncProtocol := mkSync bf_default_config ∅ ∅.

(** The operations of a DAG, as [get_all_operations_v2] lists them. *)
Definition sp_ops (dag : MerkleDAG) : Sp (list Operation) :=
  match dag_get_all_operations_v2 dag with
  | Some ops => mret ops
  | None => eff_lift Panic
  end.

(** [src/did/src/ajna/didcomm_sync.rs:55-72] SyncProtocol::from_dag *)
Definition sp_from_dag (dag : MerkleDAG) (did : string) : option SyncProtocol :=
  ops ← dag_get_all_operations_v2 dag;
  let sync := sp_new in
  let bloom := foldl (λ bloom op, bf_insert bloom (op2_op_id op)) (sp_bloom sync) ops in
  Some (sp_put_dag did dag (sp_set_bloom bloom sync)).

(** [src/did/src/ajna/didcomm_sync.rs:74-80] SyncProtocol::register_operation *)
Definition sp_register_operation (operation : Operation) : Sp unit :=
  eff_modify (λ s, sp_set_bloom (bf_insert (sp_bloom s) (op2_op_id operation)) s).

(** [src/did/src/ajna/didcomm_sync.rs:266-273] SyncProtocol::get_dag *)
Definition sp_get_dag (did : string) : Sp MerkleDAG :=
  self ← eff_get;
  match sp_dags self !! did with
  | Some dag => mret dag
  | None => eff_throw (DidNotFound did)
  end.

(** [src/did/src/ajna/didcomm_sync.rs:260-264] SyncProtocol::get_tips *)
Definition sp_get_tips (did : string) : Sp (list string) :=
  dag ← sp_get_dag did; eff_lift (dag_get_tips dag).

(** [src/did/src/ajna/didcomm_sync.rs:275-281] SyncProtocol::get_or_create_dag *)
Definition sp_get_or_create_dag (did : string) : Sp MerkleDAG :=
  self ← eff_get;
  match sp_dags self !! did with
  | Some dag => mret dag
  | None => eff_modify (sp_put_dag did dag_new);; mret dag_new
  end.

(** [src/did/src/ajna/didcomm_sync.rs:82-102] SyncProtocol::announce_to_peer *)
Definition sp_announce_to_peer (doc_did : string) : Sp AnnounceMessage :=
  tips ← sp_get_tips doc_did;
  self ← eff_get;
  mret (mkAnnounce "bh/opsync/1.0/announce" doc_did tips (b64_encode (bf_to_bytes (sp_bloom self))) None).

(** [src/did/src/ajna/didcomm_sync.rs:226-236] SyncProtocol::find_missing_ops *)
Definition sp_find_missing_ops (did : string) (peer_bloom : BloomFilter) : Sp (list string) :=
  dag ← sp_get_dag did;
  all_ops ← sp_ops dag;
  mret (op2_op_id <$> filter (λ op, bf_contains peer_bloom (op2_op_id op) = false) all_ops).

(** [src/did/src/ajna/didcomm_sync.rs:238-258] SyncProtocol::find_missing_from_tips *)
Definition sp_find_missing_from_tips (did : string) (peer_tips : list string) : Sp (list string) :=
  self ← eff_get;
  mret (filter (λ tip, bf_contains (sp_bloom self) tip = false) peer_tips).

(** [src/did/src/ajna/didcomm_sync.rs:104-147] SyncProtocol::handle_announce *)
Definition sp_handle_announce (message : AnnounceMessage) (peer_did : string) : Sp (option FetchMessage) :=
  peer_bloom_bytes ← eff_lift (match b64_decode (ann_bloom message) with
                               | inr bytes => Ok bytes
                               | inl e => Err (InvalidBloomFilter e)
                               end);
  peer_bloom ← eff_lift (bf_from_bytes peer_bloom_bytes);
  sp_find_missing_ops (ann_doc message) peer_bloom;;
  missing_on_us ← sp_find_missing_from_tips (ann_doc message) (ann_tips message);
  eff_modify (sp_put_tips peer_did (list_to_set (ann_tips message)));;
  mret match missing_on_us with
       | [] => None
       | _ => Some (mkFetch "bh/opsync/1.0/fetch" (ann_doc message) missing_on_us MAX_BUNDLE_SIZE)
       end.

(** [src/did/src/ajna/didcomm_sync.rs:149-180] SyncProtocol::handle_fetch *)
Definition sp_handle_fetch (message : FetchMessage) : Sp PushMessage :=
  dag ← sp_get_dag (fet_doc message);
  all_ops ← sp_ops dag;
  let requested_ops := filter (λ op, op2_op_id op ∈ fet_op_ids message) all_ops in
  if decide (requested_ops = []) then
    eff_throw (InvalidOperation "No operations found for requested IDs")
  else
    bundle ← eff_world (ob_create (fet_doc message) requested_ops (fet_max_bundle_size message));
    bundle ← eff_lift bundle;
    bundle_bytes ← eff_lift (ob_to_bytes bundle);
    mret (mkPush "bh/opsync/1.0/push" (fet_doc message) bundle_bytes).

(** [src/did/src/ajna/didcomm_sync.rs:182-224] SyncProtocol::handle_push *)
Definition sp_handle_push (message : PushMessage) : Sp nat :=
  bundle ← eff_lift (ob_from_bytes (pus_bundle message));
  eff_lift (ob_validate bundle);;
  sp_get_or_create_dag (pus_doc message);;
  self ← eff_get;
  let applied_count :=
    length (filter (λ op, bf_contains (sp_bloom self) (op2_op_id op) = false) (ob_operations bundle)) in
  eff_for (ob_operations bundle) sp_register_operation;;
  mret applied_count.

(** [src/did/src/ajna/didcomm_sync.rs:283-295] SyncProtocol::stats *)
Definition sp_stats (self : SyncProtocol) : SyncStats :=
  mkSyncStats (bf_estimated_size_bytes (sp_bloom self)) (size (sp_dags self)) (size (sp_known_tips self))
    (map_fold (λ _ d n, dag_len d + n) 0 (sp_dags self)).
End sync.

(** * Facts about filters and registration *)

Section facts.
Context `{BloomCrate}.

Definition bf_in_range (b : BloomFilter) : Prop :=
  (bf_expected_items b < 256 ^ 4 ∧ bf_false_positive_rate b < 256 ^ 8 ∧
   bf_bit_count b < 256 ^ 4 ∧ bf_hash_count b < 256 ^ 4)%N.

Lemma bf_from_to_bytes b :
  bf_in_range b →
  bf_from_bytes (bf_to_bytes b) =
    Ok (mkBloom (core_with_size (bf_bit_count b) (bf_hash_count b)) (bf_false_positive_rate b)
          (bf_expected_items b) (bf_bit_count b) (bf_hash_count b)).
Proof.
  intros (H1&H2&H3&H4). unfold bf_from_bytes, bf_to_bytes.
  rewrite !str_app_length, !to_le_bytes_length. cbn [Nat.add Nat.ltb Nat.leb].
  rewrite (substring_app_l _ _ 4) by apply to_le_bytes_length.
  rewrite (substring_app_r _ _ 4 8 0), (substring_app_l _ _ 8) by apply to_le_bytes_length.
  rewrite (substring_app_r _ _ 4 4 8), (substring_app_r _ _ 8 4 0), (substring_app_l _ _ 4) by apply to_le_bytes_length.
  rewrite (substring_app_r _ _ 4 4 12), (substring_app_r _ _ 8 4 4), (substring_app_r _ _ 4 4 0) by apply to_le_bytes_length.
  rewrite <- (str_app_empty_r (to_le_bytes 4 (Z.of_N (bf_hash_count b)))) at 1 2.
  rewrite (substring_app_l _ _ 4) by apply to_le_bytes_length.
  by rewrite !from_to_le_bytes.
Qed.
End facts.

Section registration.
Context `{BloomCrate}.

(** What registering operations one after the other leaves. *)
Lemma sp_register_all_run ops (s : SyncProtocol) w :
  ∃ b, eff_for ops sp_register_operation s w = (Ok tt, sp_set_bloom b s, w) ∧
    (∀ op, op ∈ ops → bf_contains b (op2_op_id op) = true) ∧
    (∀ x, bf_contains (sp_bloom s) x = true → bf_contains b x = true).
Proof.
  revert s. induction ops as [|op ops IH]; intros s; cbn.
  { exists (sp_bloom s). split_and!; [by destruct s|by intros ? ?%elem_of_nil|done]. }
  eff_simpl. destruct (IH (sp_set_bloom (bf_insert (sp_bloom s) (op2_op_id op)) s)) as (b&Hr&Hin&Hk).
  exists b. unfold eff_for in Hr |- *. rewrite Hr. split_and!; [done| |].
  - intros op' [->|Hop]%elem_of_cons; [|by auto]. apply Hk. apply core_contains_insert.
  - intros x Hx. apply Hk. by apply core_contains_mono.
Qed.
End registration.

#[local] Arguments ob_create : simpl never.

Section properties.
Context `{BloomCrate} `{BloomParams} `{HashOrder} `{Blake3} `{Base64Std} `{RmpSerde}.

(** A filter sent over the wire keeps its configuration and loses its contents: what
    the receiver decodes has the same rate, size and hash count and contains nothing,
    and an input shorter than the header is refused. *)
Theorem bloom_wire_keeps_config_only (b : BloomFilter) (bytes : string) :
  bf_in_range b →
  (∃ b', bf_from_bytes (bf_to_bytes b) = Ok b' ∧
    bf_expected_items b' = bf_expected_items b ∧ bf_false_positive_rate b' = bf_false_positive_rate b ∧
    bf_bit_count b' = bf_bit_count b ∧ bf_hash_count b' = bf_hash_count b ∧
    bf_inner b' = bf_inner (bf_clear b) ∧ (∀ x, bf_contains b' x = false)) ∧
  ((String.length bytes < 20)%nat →
   bf_from_bytes bytes = Err (InvalidBloomFilter "Insufficient bytes for header")).
Proof.
  intros Hr. split.
  - eexists. split; [by apply bf_from_to_bytes|]. split_and!; try done. intros x. apply core_contains_new.
  - intros Hl. unfold bf_from_bytes. destruct (Nat.ltb_spec (String.length bytes) 20); [done|lia].
Qed.

(** What receiving a push does: a bundle that does not parse or validate changes
    nothing; otherwise the answer counts the operations that were not known, every
    operation of the bundle is known afterwards and will not be fetched again, and the
    histories are as before, but for an empty one made for a DID that had none: no
    operation of the bundle reaches a history. *)
Theorem handle_push_outcome (m : PushMessage) (s : SyncProtocol) (w : World) :
  match sp_handle_push m s w with
  | (Ok n, s', _) =>
      ∃ b, ob_from_bytes (pus_bundle m) = Ok b ∧ ob_validate b = Ok tt ∧
        n = length (filter (λ op, bf_contains (sp_bloom s) (op2_op_id op) = false) (ob_operations b)) ∧
        (∀ op, op ∈ ob_operations b → bf_contains (sp_bloom s') (op2_op_id op) = true) ∧
        (∀ w', sp_find_missing_from_tips (pus_doc m) (op2_op_id <$> ob_operations b) s' w' = (Ok [], s', w')) ∧
        sp_dags s' = (if decide (is_Some (sp_dags s !! pus_doc m)) then sp_dags s
                      else <[pus_doc m := dag_new]> (sp_dags s)) ∧
        sp_known_tips s' = sp_known_tips s
  | (Err e, s', _) => s' = s ∧
      (ob_from_bytes (pus_bundle m) = Err e ∨ ∃ b, ob_from_bytes (pus_bundle m) = Ok b ∧ ob_validate b = Err e)
  | (Panic, _, _) => False
  end.
Proof.
  unfold sp_handle_push. unfold mbind at 1, eff_bind at 1, eff_lift at 1.
  destruct (ob_from_bytes (pus_bundle m)) as [b|e|] eqn:Eb; [|by auto|].
  2:{ unfold ob_from_bytes in Eb. by destruct (rmp_from_slice _). }
  unfold mbind at 1, eff_bind at 1, eff_lift at 1.
  destruct (ob_validate b) as [[]|e|] eqn:Ev; [|by eauto 6|].
  2:{ unfold ob_validate in Ev. by repeat case_match. }
  set (s1 := if decide (is_Some (sp_dags s !! pus_doc m)) then s else sp_put_dag (pus_doc m) dag_new s).
  assert (∃ d, sp_get_or_create_dag (pus_doc m) s w = (Ok d, s1, w)) as [d Hd].
  { unfold sp_get_or_create_dag, s1. eff_simpl. destruct (sp_dags s !! pus_doc m) as [d|].
    - exists d. by rewrite decide_True.
    - exists dag_new. rewrite decide_False by (by intros []). done. }
  unfold mbind at 1, eff_bind at 1. rewrite Hd. unfold mbind at 1, eff_bind at 1, eff_get at 1.
  destruct (sp_register_all_run (ob_operations b) s1 w) as (bl&Hr&Hin&_).
  unfold mbind at 1, eff_bind at 1. rewrite Hr. unfold mret, eff_ret.
  assert (sp_bloom s1 = sp_bloom s ∧ sp_known_tips s1 = sp_known_tips s ∧
    sp_dags s1 = if decide (is_Some (sp_dags s !! pus_doc m)) then sp_dags s
                 else <[pus_doc m := dag_new]> (sp_dags s)) as (Hb1&Ht1&Hg1) by (unfold s1; by case_decide).
  exists b. rewrite Hb1. split_and!; [done|done|done|done| |done|done].
  intros w'. unfold sp_find_missing_from_tips. eff_simpl. repeat f_equal.
  revert Hin. cbn. clear. generalize (ob_operations b). intros ops Hin.
  induction ops as [|op ops IH]; [done|]. rewrite fmap_cons, filter_cons_False.
  - apply IH. intros op' Hop. apply Hin. by right.
  - cbn. rewrite (Hin op); [done|left].
Qed.

(** What receiving an announcement does: for a DID without a history it fails with
    [DidNotFound] and remembers nothing, so that a peer that does not hold a DID never
    fetches it; otherwise the peer's tips are remembered and exactly the tips that are
    not known are requested, with the bundle bound of the protocol. *)
Theorem handle_announce_outcome (m : AnnounceMessage) (peer : string) (s : SyncProtocol) (w : World)
    (bytes : string) (pb : BloomFilter) :
  b64_decode (ann_bloom m) = inr bytes → bf_from_bytes bytes = Ok pb →
  match sp_dags s !! ann_doc m with
  | None => sp_handle_announce m peer s w = (Err (DidNotFound (ann_doc m)), s, w)
  | Some _ =>
      let missing := filter (λ tip, bf_contains (sp_bloom s) tip = false) (ann_tips m) in
      ∃ r s', sp_handle_announce m peer s w = (Ok r, s', w) ∧
        sp_known_tips s' = <[peer := list_to_set (ann_tips m)]> (sp_known_tips s) ∧
        sp_dags s' = sp_dags s ∧ sp_bloom s' = sp_bloom s ∧
        match r with
        | None => missing = []
        | Some f => missing ≠ [] ∧ fet_op_ids f = missing ∧ fet_doc f = ann_doc m ∧
            fet_max_bundle_size f = MAX_BUNDLE_SIZE
        end
  end.
Proof.
  intros Hb Hpb. unfold sp_handle_announce. eff_simpl. rewrite Hb, Hpb.
  unfold sp_find_missing_ops, sp_get_dag. eff_simpl. destruct (sp_dags s !! ann_doc m) as [dag|]; [|done].
  cbn. unfold sp_ops, dag_get_all_operations_v2. destruct (dag_topological_sort_total dag) as [l ->]. cbn.
  eexists _, _. split; [done|]. split_and!; [done|done|done|].
  unfold sp_find_missing_from_tips. destruct (filter _ (ann_tips m)) as [|x missing] eqn:E; [done|].
  split_and!; done.
Qed.

(** A fetch answered by one node and received by another: the push is accepted exactly
    when every non-empty parent of the sent operations was itself requested; otherwise
    the receiver refuses it with [InsufficientContext] and keeps its state, so that an
    operation on top of one that is not requested cannot be transferred. *)
Theorem fetch_then_push (f : FetchMessage) (p : PushMessage) (sender sender' receiver : SyncProtocol) (w w' v : World) :
  sp_handle_fetch f sender w = (Ok p, sender', w') →
  sender' = sender ∧ pus_doc p = fet_doc f ∧
  ∃ ops, ops ≠ [] ∧ (∀ op, op ∈ ops → op2_op_id op ∈ fet_op_ids f) ∧
    ((∀ op parent, op ∈ ops → parent ∈ op2_parents op → parent = "" ∨ parent ∈ op2_op_id <$> ops) →
       ∃ n receiver', sp_handle_push p receiver v = (Ok n, receiver', v) ∧
         ∀ op, op ∈ ops → bf_contains (sp_bloom receiver') (op2_op_id op) = true) ∧
    (¬ (∀ op parent, op ∈ ops → parent ∈ op2_parents op → parent = "" ∨ parent ∈ op2_op_id <$> ops) →
       sp_handle_push p receiver v = (Err InsufficientContext, receiver, v)).
Proof.
  unfold sp_handle_fetch, sp_get_dag. eff_simpl.
  destruct (sp_dags sender !! fet_doc f) as [dag|]; [|done]. cbn. unfold sp_ops, dag_get_all_operations_v2.
  destruct (dag_topological_sort_total dag) as [l ->]. cbn.
  set (ops := filter (λ op, op2_op_id op ∈ fet_op_ids f) (omap dn_get_operation_v2 l)).
  case_decide as Hne; [done|]. cbn. unfold eff_world.
  destruct (ob_create (fet_doc f) ops (fet_max_bundle_size f) w) as [[b|e|] w1] eqn:Ec; cbn; [|done..].
  destruct (ob_to_bytes b) as [bytes|e|] eqn:Eb; cbn; [|done..]. intros [= <- <- _].
  apply ob_create_spec in Ec as [Hdoc Hops Hctx Hid _].
  split_and!; [done|done|]. exists ops. split_and!; [done| | |].
  { intros op Hop. unfold ops in Hop. by apply list_elem_of_filter in Hop as [? _]. }
  all: assert (ob_from_bytes bytes = Ok b) as Hfrom
    by (unfold ob_to_bytes in Eb; destruct (rmp_to_vec b) eqn:Er; simplify_eq;
        unfold ob_from_bytes; by rewrite (rmp_round_trip _ _ Er)).
  all: assert (has_sufficient_context b = true ↔
    (∀ op parent, op ∈ ops → parent ∈ op2_parents op → parent = "" ∨ parent ∈ op2_op_id <$> ops)) as Hsuff
    by (rewrite <- Hops; by apply sufficient_context_spec).
  all: unfold sp_handle_push; eff_simpl; rewrite Hfrom; unfold ob_validate;
    rewrite (decide_False (P := ob_compute_id b ≠ ob_bundle_id b)) by (rewrite Hid; auto); intros Hall.
  - rewrite (proj2 Hsuff Hall). cbn.
    destruct (sp_register_all_run (ob_operations b)
      (if decide (is_Some (sp_dags receiver !! fet_doc f)) then receiver
       else sp_put_dag (fet_doc f) dag_new receiver) v) as (bl&Hr&Hin&_).
    unfold sp_get_or_create_dag. eff_simpl.
    destruct (sp_dags receiver !! fet_doc f) as [d|] eqn:Ed; cbn.
    + rewrite decide_True in Hr by done. rewrite Hr. eexists _, _. split; [done|].
      intros op Hop. apply Hin. by rewrite Hops.
    + rewrite decide_False in Hr by (by intros []). rewrite Hr. eexists _, _. split; [done|].
      intros op Hop. apply Hin. by rewrite Hops.
  - destruct (has_sufficient_context b) eqn:Es; [|done]. destruct Hall. by apply Hsuff.
Qed.
End properties.

(** ** Witnesses and concrete runs *)

Lemma exact_insert (b : gset string) x : bool_decide (x ∈ {[x]} ∪ b) = true.
Proof. apply bool_decide_eq_true. set_solver. Qed.
Lemma exact_mono (b : gset string) x y : bool_decide (y ∈ b) = true → bool_decide (y ∈ {[x]} ∪ b) = true.
Proof. rewrite !bool_decide_eq_true. set_solver. Qed.
Lemma exact_new x : bool_decide (x ∈ (∅ : gset string)) = false.
Proof. apply bool_decide_eq_false. set_solver. Qed.
Definition exact_bloom : BloomCrate := {|
  CoreBloom := gset string;
  core_with_size _ _ := ∅;
  core_insert b x := {[x]} ∪ b;
  core_contains b x := bool_decide (x ∈ b);
  core_contains_insert := exact_insert;
  core_contains_mono := exact_mono;
  core_contains_new _ _ := exact_new
|}.
Definition default_params : BloomParams := {| optimal_params _ := (287552%N, 20%N) |}.

Section examples.
#[local] Existing Instance plain_order.
#[local] Existing Instance chrono_range.
#[local] Existing Instance toy_blake3.
#[local] Existing Instance toy_base64.
#[local] Existing Instance toy_base64_std.
#[local] Existing Instance toy_json.
#[local] Existing Instance toy_rfc3339.
#[local] Existing Instance toy_rmp.
#[local] Existing Instance exact_bloom.
#[local] Existing Instance default_params.

Lemma bloom_wire_keeps_config_only_witness :
  let b := bf_insert bf_default_config "op-1" in
  bf_contains b "op-1" = true ∧
  ∃ b', bf_from_bytes (bf_to_bytes b) = Ok b' ∧ bf_contains b' "op-1" = false.
Proof.
  intros b. split; [vm_compute; reflexivity|].
  assert (bf_in_range b) as Hr by (vm_compute; repeat split).
  destruct (bloom_wire_keeps_config_only b "" Hr) as [(b'&Hb'&_&_&_&_&_&Hc) _].
  exists b'. split; [exact Hb'|apply Hc].
Defined.

(** A history of one parentless operation and one on top of it. *)
Definition ex_v2_node (op : Operation) : option DagNode :=
  match dn_from_operation_v2 op "n" with Ok n => Some n | _ => None end.
Definition ex_sync_dag : MerkleDAG :=
  match ex_v2_node (ex_bundle_op "a" []) with
  | Some n =>
      let d := (dag_add_node dag_new n).2 in
      match ex_v2_node (ex_bundle_op "b" [dn_hash n]) with
      | Some m => (dag_add_node d m).2
      | None => d
      end
  | None => dag_new
  end.
Definition ex_sender : SyncProtocol := default sp_new (sp_from_dag ex_sync_dag "did:ajna:x").
Definition ex_fetch (ids : list string) : FetchMessage := mkFetch "bh/opsync/1.0/fetch" "did:ajna:x" ids MAX_BUNDLE_SIZE.
Definition ex_announce : AnnounceMessage :=
  mkAnnounce "bh/opsync/1.0/announce" "did:ajna:x" ["b"; "c"] (bf_to_bytes bf_default_config) None.

Lemma handle_announce_outcome_witness :
  ∃ r s', sp_handle_announce ex_announce "did:peer" ex_sender world0 = (Ok r, s', world0) ∧
    (fet_op_ids <$> r) = Some ["c"].
Proof.
  assert (b64_decode (ann_bloom ex_announce) = inr (bf_to_bytes bf_default_config)) as H1 by (vm_compute; reflexivity).
  assert (bf_from_bytes (bf_to_bytes bf_default_config) = Ok bf_default_config) as H2 by (vm_compute; reflexivity).
  pose proof (handle_announce_outcome ex_announce "did:peer" ex_sender world0 _ _ H1 H2) as Ho.
  assert (is_Some (sp_dags ex_sender !! ann_doc ex_announce)) as [d Hd].
  { apply not_eq_None_Some. intros Hn.
    assert (match sp_dags ex_sender !! ann_doc ex_announce with Some _ => true | None => false end = true) as Hs
      by (vm_compute; reflexivity).
    rewrite Hn in Hs. discriminate Hs. }
  rewrite Hd in Ho. destruct Ho as (r&s'&Hr&_&_&_&Hf).
  exists r, s'. split; [exact Hr|]. destruct r as [f|].
  - destruct Hf as (_&Hf&_). cbn. rewrite Hf. vm_compute. reflexivity.
  - vm_compute in Hf. discriminate Hf.
Defined.

Lemma fetch_then_push_witness :
  match sp_handle_fetch (ex_fetch ["b"]) ex_sender world0 with
  | (Ok p, _, _) => sp_handle_push p sp_new world0 = (Err InsufficientContext, sp_new, world0)
  | _ => False
  end.
Proof.
  assert (is_ok (sp_handle_fetch (ex_fetch ["b"]) ex_sender world0).1.1 = true) as Hok by (vm_compute; reflexivity).
  destruct (sp_handle_fetch (ex_fetch ["b"]) ex_sender world0) as [[[p|e|] s'] w'] eqn:E; [|discriminate Hok..].
  destruct (fetch_then_push (ex_fetch ["b"]) p ex_sender s' sp_new world0 w' world0 E) as (_&_&ops&_&_&Hgood&Hbad).
  assert (match sp_handle_fetch (ex_fetch ["b"]) ex_sender world0 with
    | (Ok p, _, _) => match (sp_handle_push p sp_new world0).1.1 with Err InsufficientContext => true | _ => false end
    | _ => false end = true) as Hrun by (vm_compute; reflexivity).
  rewrite E in Hrun. apply Hbad. intros Hall. destruct (Hgood Hall) as (n&r&Hp&_).
  rewrite Hp in Hrun. discriminate Hrun.
Defined.

(** A pushed operation is counted, known from then on, and in no history. *)
Example push_registers_only :
  match sp_handle_fetch (ex_fetch ["a"]) ex_sender world0 with
  | (Ok p, _, _) =>
      let '(r, s, w) := sp_handle_push p sp_new world0 in
      r = Ok 1 ∧ (dag_len <$> sp_dags s !! "did:ajna:x") = Some 0 ∧ (sp_handle_push p s w).1.1 = Ok 0
  | _ => False
  end.
Proof. vm_compute. split_and!; reflexivity. Qed.
End examples.
