(* ===== verification/Resolver.v ===== *)
(** Resolution of did:ajna, [src/did/src/ajna/resolver.rs]: the cache, the local
    registry, the DHT, the anchor check and the validation of documents.

    The DHT provider and the deserialization of its values are parameters.  The sync
    protocol a service may hold is never consulted, and is left out of the state. *)
From S2P Require Import Prelude Crdt AjnaTypes Document Authorization Hashing MerkleDag Anchoring Method.

(** [src/did/src/ajna/resolver.rs:47-56] VerificationLevel *)
Inductive VerificationLevel := T0 | T1 | T2.
#[export] Instance VerificationLevel_eq_dec : EqDecision VerificationLevel.
Proof. solve_decision. Defined.

(** The derived order. *)
Definition level_rank (l : VerificationLevel) : nat := match l with T0 => 0 | T1 => 1 | T2 => 2 end.

(** [src/did/src/ajna/resolver.rs:58-63] VerificationLevel::satisfies *)
Definition level_satisfies (self required : VerificationLevel) : bool :=
  (level_rank required <=? level_rank self)%nat.

(** [src/did/src/ajna/resolver.rs:65-73] VerificationLevel::fmt *)
Definition level_to_string (self : VerificationLevel) : string :=
  match self with
  | T0 => "T0 (local)"
  | T1 => "T1 (anchored)"
  | T2 => "T2 (complete proof)"
  end.

(** [src/did/src/ajna/resolver.rs:75-81] CachedResolution *)
Record CachedResolution := mkCached {
  cr_document : AjnaDocument;
  cr_verification_level : VerificationLevel;
  cr_cached_at : Instant
}.

(** [src/did/src/ajna/resolver.rs:83-89] CachedResolution::is_fresh *)
Definition cr_is_fresh (self : CachedResolution) (w : World) : bool * World :=
  let '(now, w) := utc_now w in
  (bool_decide (Z.quot (now - cr_cached_at self) 3600000000000 < 1)%Z, w).

(** [serde_json::from_value] at the two document types; [inl] is the error's text. *)
Class DocSerde := {
  ajna_document_from_value : Json → option AjnaDocument;
  did_document_from_value : Json → string + DidDocument
}.

(** [src/did/src/ajna/resolver.rs:91-110] ResolutionService *)
Record ResolutionService := mkResolver {
  rs_method : AjnaMethod;
  rs_dht_provider : option (string → option Json);
  rs_anchoring : option AnchoringService;
  rs_cache : gmap string CachedResolution;
  rs_cache_ttl_seconds : Z
}.

(** [src/did/src/ajna/resolver.rs:113-123] ResolutionService::new *)
Definition rs_new (method : AjnaMethod) : ResolutionService := mkResolver method None None ∅ 3600.

(** [src/did/src/ajna/resolver.rs:137-147] ResolutionService::with_dht *)
Definition rs_with_dht (method : AjnaMethod) (dht : string → option Json) : ResolutionService :=
  mkResolver method (Some dht) None ∅ 3600.

(** [src/did/src/ajna/resolver.rs:149-159] ResolutionService::with_anchoring *)
Definition rs_with_anchoring (method : AjnaMethod) (anchoring : AnchoringService) : ResolutionService :=
  mkResolver method None (Some anchoring) ∅ 3600.

(** [src/did/src/ajna/resolver.rs:177-181] ResolutionService::with_cache_ttl *)
Definition rs_with_cache_ttl (self : ResolutionService) (ttl_seconds : Z) : ResolutionService :=
  mkResolver (rs_method self) (rs_dht_provider self) (rs_anchoring self) (rs_cache self) ttl_seconds.

(** [src/did/src/ajna/resolver.rs:183-192] ResolutionService::set_dht *)
Definition rs_set_dht (self : ResolutionService) (dht : string → option Json) : ResolutionService :=
  mkResolver (rs_method self) (Some dht) (rs_anchoring self) (rs_cache self) (rs_cache_ttl_seconds self).

Definition rs_set_cache (c : gmap string CachedResolution) (self : ResolutionService) : ResolutionService :=
  mkResolver (rs_method self) (rs_dht_provider self) (rs_anchoring self) c (rs_cache_ttl_seconds self).

Abbreviation Rs := (eff AjnaError ResolutionService).

(** [src/did/src/ajna/resolver.rs:265-284] ResolutionService::check_cache *)
Definition rs_check_cache (did : string) (required_level : VerificationLevel) : Rs (option CachedResolution) :=
  self ← eff_get;
  match rs_cache self !! did with
  | Some cached =>
      fresh ← eff_world (cr_is_fresh cached);
      mret (if fresh && level_satisfies (cr_verification_level cached) required_level
            then Some cached else None)
  | None => mret None
  end.

(** [src/did/src/ajna/resolver.rs:422-436] ResolutionService::cache_resolution *)
Definition rs_cache_resolution (did : string) (document : AjnaDocument) (level : VerificationLevel) : Rs unit :=
  now ← eff_world utc_now;
  eff_modify (λ self, rs_set_cache (<[did := mkCached document level now]> (rs_cache self)) self).

(** [src/did/src/ajna/resolver.rs:438-441] ResolutionService::invalidate_cache *)
Definition rs_invalidate_cache (did : string) (self : ResolutionService) : ResolutionService :=
  rs_set_cache (delete did (rs_cache self)) self.

(** [src/did/src/ajna/resolver.rs:443-446] ResolutionService::clear_cache *)
Definition rs_clear_cache (self : ResolutionService) : ResolutionService := rs_set_cache ∅ self.

(** [src/did/src/ajna/resolver.rs:351-381] ResolutionService::verify_against_anchor *)
Definition rs_verify_against_anchor (document : AjnaDocument) (anchoring : AnchoringService) : VerificationLevel :=
  match as_get_anchor anchoring (doc_id document) with
  | None => T0
  | Some anchor =>
      match doc_blockchain_anchor document with
      | Some doc_anchor => if decide (ba_merkle_root doc_anchor = anc_merkle_root anchor) then T1 else T0
      | None => T0
      end
  end.

(** [src/did/src/ajna/resolver.rs:224-231] ResolutionService::resolve (the level reached) *)
Definition rs_level (self : ResolutionService) (required_level : VerificationLevel) (document : AjnaDocument)
    : VerificationLevel :=
  if level_satisfies required_level T1 then
    match rs_anchoring self with
    | Some anchoring => rs_verify_against_anchor document anchoring
    | None => T0
    end
  else T0.

#[local] Arguments rs_level : simpl never.

Definition level_error (required got : VerificationLevel) : AjnaError :=
  ResolutionFailed ("Could not achieve required verification level " +:+ level_to_string required +:+
                    " (got " +:+ level_to_string got +:+ ")").

Section with_order.
Context `{HashOrder}.

(** The first reference of a set with no verification method. *)
Definition dangling_ref (document : AjnaDocument) (refs : option (ORSet string)) : option string :=
  match refs with
  | Some s => snd <$> list_find (λ vm_id, doc_get_verification_method document vm_id = None) (orset_elements s)
  | None => None
  end.

(** [src/did/src/ajna/resolver.rs:383-420] ResolutionService::validate *)
Definition rs_validate (document : AjnaDocument) : Result unit :=
  if doc_is_deactivated document then Err DeactivatedDID
  else
    match dangling_ref document (doc_authentication document) with
    | Some vm_id => Err (InvalidReference ("Authentication references non-existent VM: " +:+ vm_id))
    | None =>
        match dangling_ref document (doc_assertion_method document) with
        | Some vm_id => Err (InvalidReference ("AssertionMethod references non-existent VM: " +:+ vm_id))
        | None => Ok tt
        end
    end.

Context `{DocSerde}.

(** [src/did/src/ajna/resolver.rs:299-318] ResolutionService::resolve_via_sync (a DHT value as a document) *)
Definition rs_parse (value : Json) : Rs AjnaDocument :=
  match ajna_document_from_value value with
  | Some doc => mret doc
  | None =>
      match did_document_from_value value with
      | inr did_core_doc => eff_world (doc_from_did_core did_core_doc)
      | inl e => eff_throw (ResolutionFailed
          ("Failed to parse DID document from DHT (tried both AjnaDocument and DidDocument): " +:+ e))
      end
  end.

(** [src/did/src/ajna/resolver.rs:286-349] ResolutionService::resolve_via_sync *)
Definition rs_resolve_via_sync (did : string) (required_level : VerificationLevel)
    : Rs (AjnaDocument * VerificationLevel) :=
  self ← eff_get;
  match rs_dht_provider self ≫= λ dht, dht did with
  | Some value =>
      document ← rs_parse value;
      eff_lift (rs_validate document);;
      let verification_level := rs_level self required_level document in
      if negb (level_satisfies verification_level required_level) then
        eff_throw (level_error required_level verification_level)
      else
        rs_cache_resolution did document verification_level;;
        mret (document, verification_level)
  | None => eff_throw (ResolutionFailed ("DID " +:+ did +:+ " not found in DHT or local storage"))
  end.

(** [src/did/src/ajna/resolver.rs:194-263] ResolutionService::resolve *)
Definition rs_resolve (did : string) (required_level : VerificationLevel)
    : Rs (AjnaDocument * VerificationLevel) :=
  cached ← rs_check_cache did required_level;
  match cached with
  | Some cached => mret (cr_document cached, cr_verification_level cached)
  | None =>
      self ← eff_get;
      match am_registry (rs_method self) !! did with
      | None => rs_resolve_via_sync did required_level
      | Some document =>
          let verification_level := rs_level self required_level document in
          eff_lift (rs_validate document);;
          if negb (level_satisfies verification_level required_level) then
            eff_throw (level_error required_level verification_level)
          else
            rs_cache_resolution did document verification_level;;
            mret (document, verification_level)
      end
  end.

(** [src/did/src/ajna/resolver.rs:448-475] ResolutionService::cache_stats *)
Definition rs_cache_stats (self : ResolutionService) (w : World) : nat * nat * nat * nat * nat * World :=
  let values := (map_iter (rs_cache self)).*2 in
  let '(fresh, w) :=
    foldl (λ '(n, w) c, let '(f, w) := cr_is_fresh c w in (if f then S n else n, w)) (0, w) values in
  let at_level l := length (filter (λ c, cr_verification_level c = l) values) in
  (size (rs_cache self), fresh, at_level T0, at_level T1, at_level T2, w).

(** ** What the cache holds *)

(** A document that passes [validate]. *)
Definition valid_document (d : AjnaDocument) : Prop :=
  doc_is_deactivated d = false ∧
  ∀ purpose ref_, (purpose = Authentication ∨ purpose = AssertionMethod) → doc_refs d purpose ref_ = true →
    ∃ m, orset_contains (doc_verification_methods d) m = true ∧ vm_id m = ref_.

Lemma dangling_ref_none d refs :
  dangling_ref d refs = None ↔
    ∀ r, default false ((λ s, orset_contains s r) <$> refs) = true →
      ∃ m, orset_contains (doc_verification_methods d) m = true ∧ vm_id m = r.
Proof.
  destruct refs as [s|]; cbn; [|done]. setoid_rewrite <- get_verification_method_some.
  setoid_rewrite <- elem_of_orset_elements. destruct (list_find _ _) as [[i r]|] eqn:E; cbn.
  - split; [done|]. intros Hall. apply list_find_Some in E as (Hi&Hnone&_). apply list_elem_of_lookup_2 in Hi.
    destruct (Hall r Hi) as [m Hm]. congruence.
  - split; [|done]. intros _ r Hr. apply list_find_None in E. rewrite Forall_forall in E.
    by apply not_eq_None_Some, E.
Qed.

Lemma rs_validate_ok d : rs_validate d = Ok tt ↔ valid_document d.
Proof.
  unfold rs_validate, valid_document. destruct (doc_is_deactivated d); [naive_solver|].
  pose proof (dangling_ref_none d (doc_authentication d)) as Ha.
  pose proof (dangling_ref_none d (doc_assertion_method d)) as Hs.
  unfold doc_refs.
  destruct (dangling_ref d (doc_authentication d)) as [r|].
  { split; [done|]. intros [_ Hall]. exfalso. enough (Some r = None) by done. apply Ha. intros r' Hr'.
    apply (Hall Authentication r'); [by left|done]. }
  destruct (dangling_ref d (doc_assertion_method d)) as [r|].
  { split; [done|]. intros [_ Hall]. exfalso. enough (Some r = None) by done. apply Hs. intros r' Hr'.
    apply (Hall AssertionMethod r'); [by right|done]. }
  split; [|done]. intros _. split; [done|]. intros p r [->| ->] Hr; [by apply Ha|by apply Hs].
Qed.

Definition cache_ok (s : ResolutionService) : Prop :=
  ∀ did c, rs_cache s !! did = Some c →
    valid_document (cr_document c) ∧ (level_rank (cr_verification_level c) ≤ 1)%nat.

Definition level_le_1 (l : VerificationLevel) : Prop := (level_rank l ≤ 1)%nat.
Lemma rs_level_le s req d : level_le_1 (rs_level s req d).
Proof.
  unfold level_le_1, rs_level, rs_verify_against_anchor. repeat case_match; cbn; lia.
Qed.

Abbreviation triple := (hoare (E := AjnaError) cache_ok).

(** A document that was checked, with a level that is enough. *)
Definition resolved (req : VerificationLevel) (r : AjnaDocument * VerificationLevel) : Prop :=
  valid_document r.1 ∧ level_satisfies r.2 req = true ∧ level_le_1 r.2.

Lemma rs_finish_triple did d req l :
  level_le_1 l →
  triple (λ _, True)
    (eff_lift (rs_validate d);;
     if negb (level_satisfies l req) then eff_throw (level_error req l)
     else rs_cache_resolution did d l;; mret (d, l)) (λ r _, resolved req r).
Proof.
  intros Hl. eapply hoare_bind; [apply hoare_lift|]. intros [] s w Hs [Hv%rs_validate_ok _].
  destruct (level_satisfies l req) eqn:El; cbn; [|done]. split; [|exact (conj Hv (conj El Hl))].
  intros did' c. cbn. rewrite lookup_insert_Some. intros [[_ <-]|[_ Hc]]; [done|by apply (Hs did')].
Qed.

Lemma rs_resolve_triple did req : triple (λ _, True) (rs_resolve did req) (λ r _, resolved req r).
Proof.
  unfold rs_resolve.
  eapply (hoare_bind _ _ _ (λ c _, match c with
    | Some c => resolved req (cr_document c, cr_verification_level c) | None => True end)).
  { intros s w Hs _. unfold rs_check_cache. eff_simpl. destruct (rs_cache s !! did) as [c|] eqn:E; [|done].
    unfold eff_world. cbn. split; [done|]. destruct (_ && _) eqn:Eb; [|done].
    apply andb_true_iff in Eb as [_ Eb]. destruct (Hs _ _ E) as [Hv Hl]. exact (conj Hv (conj Eb Hl)). }
  intros [c|]; [intros s w Hs Hr; by split|].
  eapply hoare_bind; [apply hoare_get|]. intros self.
  apply (hoare_pre _ _ (λ _, True)); [done|].
  destruct (am_registry (rs_method self) !! did) as [d|]; [apply rs_finish_triple, rs_level_le|].
  eapply hoare_bind; [apply hoare_get|]. intros self'. apply (hoare_pre _ _ (λ _, True)); [done|].
  destruct (rs_dht_provider self' ≫= _) as [value|]; [|apply hoare_throw].
  eapply (hoare_bind _ _ _ (λ _ _, True)).
  { intros s w Hs _. unfold rs_parse. destruct (ajna_document_from_value value); [done|].
    destruct (did_document_from_value value); [done|]. unfold eff_world. by destruct (doc_from_did_core _ w). }
  intros d. apply rs_finish_triple, rs_level_le.
Qed.

(** The states of a service: resolutions, and whatever happens to the method, the
    anchors and the DHT meanwhile; the cache is only written by resolutions. *)
Inductive rs_step : ResolutionService → ResolutionService → Prop :=
  | rs_step_resolve s did req w r s' w' : rs_resolve did req s w = (r, s', w') → rs_step s s'
  | rs_step_invalidate s did : rs_step s (rs_invalidate_cache did s)
  | rs_step_clear s : rs_step s (rs_clear_cache s)
  | rs_step_world s m dht anc ttl : rs_step s (mkResolver m dht anc (rs_cache s) ttl).

Lemma rs_steps_cache s s' : cache_ok s → rtc rs_step s s' → cache_ok s'.
Proof.
  intros Hs Hr. induction Hr as [|s s1 s' Hstep _ IH]; [done|]. apply IH. clear IH.
  destruct Hstep as [s did req w r s2 w' Hrun|s did|s|s m dht anc ttl].
  - pose proof (rs_resolve_triple did req s w Hs I) as Ht. rewrite Hrun in Ht. destruct r; [by destruct Ht|done..].
  - intros did' c. cbn. intros [_ Hc]%lookup_delete_Some. by apply (Hs did').
  - intros did' c. cbn. by rewrite lookup_empty.
  - done.
Qed.

(** C39: Whatever a resolution returns, from the cache, the registry or the DHT, in any
    state a service reaches, has at least the required level, and is an active document
    all of whose authentication and assertion references exist; the level T2 is never
    reached, so that a resolution that requires it always fails. *)
Theorem resolve_sound (s0 s s' : ResolutionService) (did : string) (req : VerificationLevel) (w w' : World)
    (r : Result (AjnaDocument * VerificationLevel)) :
  rs_cache s0 = ∅ → rtc rs_step s0 s → rs_resolve did req s w = (r, s', w') →
  match r with
  | Ok (d, l) => level_satisfies l req = true ∧ valid_document d ∧ l ≠ T2 ∧ req ≠ T2
  | _ => True
  end.
Proof.
  intros Hempty Hr Hrun. assert (cache_ok s) as Hs.
  { eapply rs_steps_cache; [|exact Hr]. intros d c. by rewrite Hempty, lookup_empty. }
  pose proof (rs_resolve_triple did req s w Hs I) as Ht. rewrite Hrun in Ht.
  destruct r as [[d l]|e|]; [|done..]. destruct Ht as [_ (Hv&Hl&Hle)]. cbn in *. unfold level_le_1 in Hle.
  split_and!; [done|done|intros ->; cbn in Hle; lia|]. intros ->. unfold level_satisfies in Hl.
  apply Nat.leb_le in Hl. cbn in *. lia.
Qed.

Context `{Chrono} `{Blake3} `{Base64} `{SerdeJson} `{Rfc3339} `{Hex}.

Lemma stable_no_anchor : doc_stable ∅ (λ _ d, doc_blockchain_anchor d = None).
Proof.
  split; try done.
  - intros _ d delta w d' w' Hd Ha. by rewrite (doc_apply_delta_anchor _ _ _ _ _ Ha).
  - intros _ d op w Hd. by rewrite op_apply_anchor.
  - intros. apply doc_new_with_genesis_anchor.
Qed.

(** A DID of the local registry cannot be resolved at level T1, even right after it was
    anchored: no call of the method ever stores an anchor in a registered document, and
    the anchor check looks only there, so unless a fresh T1 result is cached the
    resolution fails. *)
Theorem local_t1_unreachable (node_id did : string) (s : ResolutionService) (w : World) (d : AjnaDocument) :
  am_reach node_id (rs_method s) → am_registry (rs_method s) !! did = Some d → valid_document d →
  (∀ c, rs_cache s !! did = Some c → cr_verification_level c = T0) →
  (rs_resolve did T1 s w).1.1 = Err (level_error T1 T0).
Proof.
  intros Hr Hd Hv Hc.
  assert (doc_blockchain_anchor d = None) as Hanchor.
  { eapply (ai_docs ∅ (λ _ d, doc_blockchain_anchor d = None)); [|exact Hd].
    eapply am_steps_inv; [apply stable_no_anchor| |exact Hr].
    split; cbn; intros *; rewrite ?lookup_empty; done || set_solver. }
  unfold rs_resolve, rs_check_cache. eff_simpl.
  assert (rs_level s T1 d = T0) as Hl.
  { unfold rs_level, rs_verify_against_anchor. cbn. rewrite Hanchor. by repeat case_match. }
  apply rs_validate_ok in Hv.
  destruct (rs_cache s !! did) as [c|] eqn:Ec; cbn.
  - unfold eff_world. cbn. rewrite (Hc c eq_refl), andb_false_r. cbn. by rewrite Hd, Hv, Hl.
  - by rewrite Hd, Hv, Hl.
Qed.
End with_order.

(** ** Witnesses and concrete runs *)

Definition toy_doc_serde : DocSerde := {|
  ajna_document_from_value _ := None;
  did_document_from_value v :=
    match v with
    | JString did => inr (mkDidDocument did [] [] [] [] [] [] [] None [] None)
    | _ => inl "not a document"
    end
|}.

Section examples.
#[local] Existing Instance plain_order.
#[local] Existing Instance chrono_range.
#[local] Existing Instance toy_blake3.
#[local] Existing Instance toy_base64.
#[local] Existing Instance toy_json.
#[local] Existing Instance toy_rfc3339.
#[local] Existing Instance toy_hex.
#[local] Existing Instance toy_doc_serde.

Definition ex_resolver : ResolutionService := rs_new ex_created.1.

Lemma resolve_sound_witness :
  match (rs_resolve ex_did T0 ex_resolver world0).1.1 with
  | Ok (d, l) => valid_document d ∧ l ≠ T2
  | _ => False
  end.
Proof.
  assert (is_ok (rs_resolve ex_did T0 ex_resolver world0).1.1 = true) as Hok by (vm_compute; reflexivity).
  destruct (rs_resolve ex_did T0 ex_resolver world0) as [[r s'] w'] eqn:E.
  pose proof (resolve_sound ex_resolver ex_resolver s' ex_did T0 world0 w' r eq_refl (rtc_refl _ _) E) as Hs.
  destruct r as [[d l]|e|]; [|discriminate Hok..]. split; apply Hs.
Defined.

Lemma local_t1_unreachable_witness :
  (rs_resolve ex_did T1 ex_resolver world0).1.1 = Err (level_error T1 T0).
Proof.
  assert (is_Some (am_registry ex_created.1 !! ex_did)) as Hs.
  { apply not_eq_None_Some. intros Hn.
    assert (am_exists ex_created.1 ex_did = true) as He by (vm_compute; reflexivity).
    unfold am_exists in He. rewrite Hn in He. discriminate He. }
  destruct (am_registry ex_created.1 !! ex_did) as [d|] eqn:Ed; [|exfalso; by destruct Hs].
  refine (local_t1_unreachable "n" ex_did ex_resolver world0 d ex_created_reach Ed _ _).
  - apply rs_validate_ok.
    assert ((rs_validate <$> am_registry ex_created.1 !! ex_did) = Some (Ok tt)) as Hv by (vm_compute; reflexivity).
    rewrite Ed in Hv. injection Hv as Hv. exact Hv.
  - intros c Hc. discriminate Hc.
Defined.

(** The configured time to live has no effect: a service set to cache for no time
    still answers from the cache after the DID was deactivated. *)
Example cache_ttl_ignored :
  let s := rs_with_cache_ttl ex_resolver 0 in
  let '(_, s, w) := rs_resolve ex_did T0 s world0 in
  let s := mkResolver ex_deactivated.1 None None (rs_cache s) (rs_cache_ttl_seconds s) in
  (λ r : AjnaDocument * VerificationLevel, doc_is_deactivated r.1) <$>
    (match (rs_resolve ex_did T0 s w).1.1 with Ok r => Some r | _ => None end) = Some false.
Proof. vm_compute. reflexivity. Qed.

(** The document a DHT returns is not compared with the DID that was asked for. *)
Example dht_answers_another_did :
  (λ r : AjnaDocument * VerificationLevel, doc_id r.1) <$>
    (match (rs_resolve "did:ajna:asked" T0 (rs_with_dht (am_new "n") (λ _, Some (JString "did:ajna:other"))) world0).1.1 with
     | Ok r => Some r | _ => None end) = Some "did:ajna:other".
Proof. vm_compute. reflexivity. Qed.

(** Removing a method that is still referenced makes the DID unresolvable. *)
Example vm_remove_breaks_resolution :
  let d := set_authentication (Some (orset_add orset_new (vm_id ex_key) world0).1.2) ex_b in
  match doc_apply_delta_v2 d (VmRemove (vm_id ex_key)) world0 with
  | Ok (d', _) => rs_validate d = Ok tt ∧
      rs_validate d' = Err (InvalidReference "Authentication references non-existent VM: did:ajna:x#key-1")
  | _ => False
  end.
Proof. vm_compute. split; reflexivity. Qed.
End examples.
