(* ===== verification/MessageQueue.v ===== *)
(** The message queue of a pickup mediator, [InMemoryMessageQueueRepository] of
    [src/protocols/pickup/src/repository/message_queue.rs], and its messages,
    [src/protocols/pickup/src/domain/queued_message.rs].

    Every method holds the locks of both maps for its whole body, so a method is one
    step of the state. *)
From S2P Require Import Prelude.

(** [src/protocols/pickup/src/domain/queued_message.rs:6-17] QueuedMessageState *)
Inductive QueuedMessageState := Pending | Sending.
#[export] Instance QueuedMessageState_eq_dec : EqDecision QueuedMessageState.
Proof. solve_decision. Defined.

(** [src/protocols/pickup/src/domain/queued_message.rs:28-49] QueuedMessage *)
Record QueuedMessage := mkQueued {
  qm_id : string;
  qm_connection_id : string;
  qm_recipient_keys : list string;
  qm_encrypted_message : string;
  qm_received_at : Instant;
  qm_state : QueuedMessageState
}.

(** [src/protocols/pickup/src/domain/queued_message.rs:52-67] QueuedMessage::new *)
Definition qm_new `{UuidText} (connection_id : string) (recipient_keys : list string) (encrypted_message : string)
    (w : World) : QueuedMessage * World :=
  let '(u, w) := uuid_new_v4 w in
  let '(now, w) := utc_now w in
  (mkQueued (uuid_to_string u) connection_id recipient_keys encrypted_message now Pending, w).

(** [src/protocols/pickup/src/domain/queued_message.rs:69-73] QueuedMessage::with_id *)
Definition qm_with_id (self : QueuedMessage) (id : string) : QueuedMessage :=
  mkQueued id (qm_connection_id self) (qm_recipient_keys self) (qm_encrypted_message self)
    (qm_received_at self) (qm_state self).

Definition qm_set_state (st : QueuedMessageState) (self : QueuedMessage) : QueuedMessage :=
  mkQueued (qm_id self) (qm_connection_id self) (qm_recipient_keys self) (qm_encrypted_message self)
    (qm_received_at self) st.

(** [src/protocols/pickup/src/domain/queued_message.rs:75-78] QueuedMessage::mark_sending *)
Definition qm_mark_sending (self : QueuedMessage) : QueuedMessage := qm_set_state Sending self.

(** [src/protocols/pickup/src/domain/queued_message.rs:80-83] QueuedMessage::mark_pending *)
Definition qm_mark_pending (self : QueuedMessage) : QueuedMessage := qm_set_state Pending self.

(** [src/protocols/pickup/src/domain/queued_message.rs:85-91] QueuedMessage::matches_recipient_key *)
Definition qm_matches_recipient_key (self : QueuedMessage) (key : option string) : bool :=
  match key with
  | Some k => existsb (λ rk, bool_decide (rk = k)) (qm_recipient_keys self)
  | None => true
  end.

(** [src/protocols/pickup/src/domain/queued_message.rs:93-98] QueuedMessage::age_seconds *)
Definition qm_age_seconds (self : QueuedMessage) (w : World) : N * World :=
  let '(now, w) := utc_now w in
  (Z.to_N (Z.quot (now - qm_received_at self) 1000000000 `max` 0), w).

(** [src/protocols/pickup/src/domain/queued_message.rs:100-103] QueuedMessage::byte_size *)
Definition qm_byte_size (self : QueuedMessage) : N := N.of_nat (String.length (qm_encrypted_message self)).

(** [src/protocols/pickup/src/repository/message_queue.rs:85-91] InMemoryMessageQueueRepository *)
Record MessageQueue := mkQueue {
  mq_messages : gmap string QueuedMessage;
  mq_by_connection : gmap string (list string)
}.

(** [src/protocols/pickup/src/repository/message_queue.rs:93-101] InMemoryMessageQueueRepository::new *)
Definition mq_new : MessageQueue := mkQueue ∅ ∅.

(** [src/protocols/pickup/src/repository/message_queue.rs:111-126] InMemoryMessageQueueRepository::add_message *)
Definition mq_add_message (self : MessageQueue) (message : QueuedMessage) : string * MessageQueue :=
  let id := qm_id message in
  let connection_id := qm_connection_id message in
  (id, mkQueue (<[id := message]> (mq_messages self))
         (<[connection_id := default [] (mq_by_connection self !! connection_id) ++ [id]]> (mq_by_connection self))).

(** The messages a connection's index names, in its order. *)
Definition mq_indexed (self : MessageQueue) (connection_id : string) : list QueuedMessage :=
  omap (λ id, mq_messages self !! id) (default [] (mq_by_connection self !! connection_id)).

(** [src/protocols/pickup/src/repository/message_queue.rs:218-223] InMemoryMessageQueueRepository::take_from_queue (the filters of the pending messages) *)
Definition mq_pending (self : MessageQueue) (connection_id : string) (recipient_key : option string)
    : list QueuedMessage :=
  filter (λ m, qm_matches_recipient_key m recipient_key = true)
    (filter (λ m, qm_state m = Pending) (mq_indexed self connection_id)).

(** [src/protocols/pickup/src/repository/message_queue.rs:128-148] InMemoryMessageQueueRepository::get_pending_count *)
Definition mq_get_pending_count (self : MessageQueue) (connection_id : string) (recipient_key : option string) : N :=
  N.of_nat (length (mq_pending self connection_id recipient_key)).

(** [src/protocols/pickup/src/repository/message_queue.rs:150-171] InMemoryMessageQueueRepository::get_total_bytes *)
Definition mq_get_total_bytes (self : MessageQueue) (connection_id : string) (recipient_key : option string) : N :=
  foldl (λ n m, add64 n (qm_byte_size m)) 0%N (mq_pending self connection_id recipient_key).

(** [src/protocols/pickup/src/repository/message_queue.rs:173-191] InMemoryMessageQueueRepository::get_oldest_message_time *)
Definition mq_get_oldest_message_time (self : MessageQueue) (connection_id : string)
    (recipient_key : option string) : option Instant :=
  foldl (λ o m, Some (match o with Some t => t `min` qm_received_at m | None => qm_received_at m end)%Z)
    None (mq_pending self connection_id recipient_key).

(** [src/protocols/pickup/src/repository/message_queue.rs:193-228] InMemoryMessageQueueRepository::take_from_queue *)
Definition mq_take_from_queue (self : MessageQueue) (connection_id : string) (recipient_key : option string)
    (limit : N) : list QueuedMessage * MessageQueue :=
  match mq_by_connection self !! connection_id with
  | None => ([], self)
  | Some _ =>
      let pending := sort_by_key qm_received_at (mq_pending self connection_id recipient_key) in
      let taken := take (N.to_nat limit) pending in
      (taken,
       mkQueue (foldl (λ messages msg, alter qm_mark_sending (qm_id msg) messages) (mq_messages self) taken)
         (mq_by_connection self))
  end.

(** [src/protocols/pickup/src/repository/message_queue.rs:230-243] InMemoryMessageQueueRepository::remove_messages (one id) *)
Definition mq_remove_message (self : MessageQueue) (id : string) : MessageQueue :=
  match mq_messages self !! id with
  | Some msg =>
      mkQueue (delete id (mq_messages self))
        (alter (filter (λ i, i ≠ id)) (qm_connection_id msg) (mq_by_connection self))
  | None => self
  end.

(** [src/protocols/pickup/src/repository/message_queue.rs:230-243] InMemoryMessageQueueRepository::remove_messages *)
Definition mq_remove_messages (self : MessageQueue) (message_ids : list string) : MessageQueue :=
  foldl mq_remove_message self message_ids.

(** [src/protocols/pickup/src/repository/message_queue.rs:245-255] InMemoryMessageQueueRepository::return_to_pending *)
Definition mq_return_to_pending (self : MessageQueue) (message_ids : list string) : MessageQueue :=
  mkQueue (foldl (λ messages id, alter qm_mark_pending id messages) (mq_messages self) message_ids)
    (mq_by_connection self).

(** [src/protocols/pickup/src/repository/message_queue.rs:257-260] InMemoryMessageQueueRepository::find_by_id *)
Definition mq_find_by_id (self : MessageQueue) (message_id : string) : option QueuedMessage :=
  mq_messages self !! message_id.

(** [src/protocols/pickup/src/repository/message_queue.rs:262-277] InMemoryMessageQueueRepository::clear_connection *)
Definition mq_clear_connection (self : MessageQueue) (connection_id : string) : N * MessageQueue :=
  match mq_by_connection self !! connection_id with
  | Some ids =>
      (N.of_nat (length ids),
       mkQueue (foldl (λ messages id, delete id messages) (mq_messages self) ids)
         (delete connection_id (mq_by_connection self)))
  | None => (0%N, self)
  end.

(** The part of [chrono] that computes a cutoff: [Duration::from_std] of a number of
    nanoseconds, and the subtraction of a duration from an instant, which panics when
    it has no value. *)
Class ChronoCutoff := {
  duration_from_std : N → option Z;
  duration_from_std_spec ns d : duration_from_std ns = Some d → d = Z.of_N ns;
  instant_sub : Instant → Z → option Instant;
  instant_sub_spec t d t' : instant_sub t d = Some t' → t' = (t - d)%Z
}.

Section expiry.
Context `{ChronoCutoff} `{HashOrder}.

(** [src/protocols/pickup/src/repository/message_queue.rs:279-281] InMemoryMessageQueueRepository::delete_expired (the cutoff) *)
Definition expiry_cutoff (max_age : N) (w : World) : option Instant * World :=
  let '(now, w) := utc_now w in
  (instant_sub now (default (7 * 86400 * 1000000000)%Z (duration_from_std max_age)), w).

(** [src/protocols/pickup/src/repository/message_queue.rs:279-301] InMemoryMessageQueueRepository::delete_expired *)
Definition mq_delete_expired (self : MessageQueue) (max_age : N) (w : World)
    : outcome unit N * MessageQueue * World :=
  let '(cutoff, w) := expiry_cutoff max_age w in
  match cutoff with
  | None => (Panic, self, w)
  | Some cutoff =>
      let expired :=
        (λ m, (qm_id m, qm_connection_id m)) <$>
          filter (λ m, (qm_received_at m < cutoff)%Z) (map_iter (mq_messages self)).*2 in
      (Ok (N.of_nat (length expired)),
       foldl (λ s e, mkQueue (delete e.1 (mq_messages s))
                       (alter (filter (λ i, i ≠ e.1)) e.2 (mq_by_connection s))) self expired, w)
  end.

(** [src/protocols/pickup/src/repository/message_queue.rs:303-335] InMemoryMessageQueueRepository::delete_expired_for_connection *)
Definition mq_delete_expired_for_connection (self : MessageQueue) (connection_id : string) (max_age : N) (w : World)
    : outcome unit N * MessageQueue * World :=
  let '(cutoff, w) := expiry_cutoff max_age w in
  match cutoff with
  | None => (Panic, self, w)
  | Some cutoff =>
      match mq_by_connection self !! connection_id with
      | None => (Ok 0%N, self, w)
      | Some _ =>
          let expired_ids :=
            qm_id <$> filter (λ m, (qm_received_at m < cutoff)%Z) (mq_indexed self connection_id) in
          (Ok (N.of_nat (length expired_ids)),
           mkQueue (foldl (λ messages id, delete id messages) (mq_messages self) expired_ids)
             (alter (filter (λ i, i ∉ expired_ids)) connection_id (mq_by_connection self)), w)
      end
  end.
End expiry.

(** * The index agrees with the messages *)

Lemma foldl_alter_lookup {A} (f : QueuedMessage → QueuedMessage) (g : A → string) (l : list A)
    (m : gmap string QueuedMessage) i :
  (∀ x, f (f x) = f x) →
  foldl (λ m x, alter f (g x) m) m l !! i = if decide (i ∈ g <$> l) then f <$> m !! i else m !! i.
Proof.
  intros Hf. revert m. induction l as [|x l IH]; intros m; [done|]. cbn [foldl]. rewrite IH, fmap_cons.
  destruct (decide (i = g x)) as [->|Hne].
  - rewrite lookup_alter_eq. rewrite (decide_True (P := g x ∈ g x :: _)) by left.
    case_decide; [|done]. destruct (m !! g x); cbn; [by rewrite Hf|done].
  - rewrite lookup_alter_ne by done. apply decide_ext. rewrite elem_of_cons. naive_solver.
Qed.

Lemma foldl_delete_lookup (ids : list string) (m : gmap string QueuedMessage) i :
  foldl (λ m id, delete id m) m ids !! i = if decide (i ∈ ids) then None else m !! i.
Proof.
  revert m. induction ids as [|x ids IH]; intros m; [done|]. cbn [foldl]. rewrite IH.
  destruct (decide (i = x)) as [->|Hne].
  - rewrite lookup_delete_eq, (decide_True (P := x ∈ x :: ids)) by left. by case_decide.
  - rewrite lookup_delete_ne by done. apply decide_ext. rewrite elem_of_cons. naive_solver.
Qed.

Record mq_ok (s : MessageQueue) : Prop := {
  mqo_id id m : mq_messages s !! id = Some m → qm_id m = id;
  mqo_nodup c : NoDup (default [] (mq_by_connection s !! c));
  mqo_index c id :
    id ∈ default [] (mq_by_connection s !! c) ↔ ∃ m, mq_messages s !! id = Some m ∧ qm_connection_id m = c
}.

Lemma mq_new_ok : mq_ok mq_new.
Proof.
  split; cbn; intros *; rewrite ?lookup_empty; cbn; [done|constructor|].
  rewrite elem_of_nil. split; [done|]. by intros (m&Hm&_).
Qed.

Lemma mq_add_ok s m : mq_ok s → mq_messages s !! qm_id m = None → mq_ok (mq_add_message s m).2.
Proof.
  intros [Hid Hnd Hix] Hf. split; cbn.
  - intros id m'. rewrite lookup_insert_Some. intros [[<- <-]|[_ ?]]; [done|by apply Hid].
  - intros c. destruct (decide (c = qm_connection_id m)) as [->|Hne]; [|by rewrite lookup_insert_ne].
    rewrite lookup_insert_eq. cbn. apply NoDup_app. split_and!; [done| |apply NoDup_singleton].
    intros id (m'&Hm'&_)%Hix ->%list_elem_of_singleton. congruence.
  - intros c id. setoid_rewrite lookup_insert_Some. destruct (decide (c = qm_connection_id m)) as [->|Hne].
    + rewrite lookup_insert_eq. cbn. rewrite elem_of_app, Hix, list_elem_of_singleton. split.
      * intros [(m'&Hm'&Hc)| ->]; [|by eauto]. exists m'. split; [|done]. right. split; [congruence|done].
      * intros (m'&[[Heq <-]|[Hne Hm']]&Hc); [by right|left; eauto].
    + rewrite lookup_insert_ne, Hix by done. split.
      * intros (m'&Hm'&Hc). exists m'. split; [|done]. right. split; [congruence|done].
      * intros (m'&[[Heq <-]|[_ Hm']]&Hc); [congruence|eauto].
Qed.

(** A change of states only. *)
Lemma mq_states_ok s messages :
  mq_ok s →
  (∀ id, (λ m, (qm_id m, qm_connection_id m)) <$> messages !! id =
         (λ m, (qm_id m, qm_connection_id m)) <$> mq_messages s !! id) →
  mq_ok (mkQueue messages (mq_by_connection s)).
Proof.
  intros [Hid Hnd Hix] Heq. split; cbn; [|done|].
  - intros id m Hm. specialize (Heq id). rewrite Hm in Heq. cbn in Heq.
    destruct (mq_messages s !! id) as [m'|] eqn:Em; [|done]. injection Heq as -> _. by apply Hid.
  - intros c id. rewrite Hix. specialize (Heq id).
    destruct (messages !! id) as [m|], (mq_messages s !! id) as [m'|]; try done.
    injection Heq as _ Hc. split; intros (x&[= <-]&<-); eauto.
Qed.

Lemma mq_states_alter {A} (g : A → string) st l s :
  mq_ok s → mq_ok (mkQueue (foldl (λ m x, alter (qm_set_state st) (g x) m) (mq_messages s) l) (mq_by_connection s)).
Proof.
  intros Hs. apply mq_states_ok; [done|]. intros id. rewrite foldl_alter_lookup by done.
  case_decide; [|done]. by destruct (mq_messages s !! id).
Qed.

Definition mq_drop (s : MessageQueue) (id conn : string) : MessageQueue :=
  mkQueue (delete id (mq_messages s)) (alter (filter (λ i, i ≠ id)) conn (mq_by_connection s)).

Lemma default_alter_filter (P : string → Prop) `{∀ x, Decision (P x)} (b : gmap string (list string)) c c' :
  default [] (alter (filter P) c b !! c') =
    if decide (c' = c) then filter P (default [] (b !! c')) else default [] (b !! c').
Proof.
  destruct (decide (c' = c)) as [->|Hne]; [|by rewrite lookup_alter_ne].
  rewrite lookup_alter_eq. by destruct (b !! c).
Qed.

Lemma mq_drop_ok s id conn :
  mq_ok s → (∀ m, mq_messages s !! id = Some m → qm_connection_id m = conn) → mq_ok (mq_drop s id conn).
Proof.
  intros [Hid Hnd Hix] Hc. split; cbn.
  - intros i m [_ Hm]%lookup_delete_Some. by apply Hid.
  - intros c. rewrite default_alter_filter. case_decide; [by apply NoDup_filter|done].
  - intros c i. rewrite default_alter_filter. setoid_rewrite lookup_delete_Some.
    case_decide as Hcc.
    + rewrite list_elem_of_filter, Hix. naive_solver.
    + rewrite Hix. split; [|naive_solver]. intros (m&Hm&Hmc). exists m. split; [|done]. split; [|done].
      intros <-. apply Hc in Hm. congruence.
Qed.

Lemma mq_remove_message_ok s id : mq_ok s → mq_ok (mq_remove_message s id).
Proof.
  intros Hs. unfold mq_remove_message. destruct (mq_messages s !! id) as [m|] eqn:E; [|done].
  apply mq_drop_ok; [done|]. intros m' Hm'. congruence.
Qed.

Lemma mq_clear_ok s c : mq_ok s → mq_ok (mq_clear_connection s c).2.
Proof.
  intros [Hid Hnd Hix]. unfold mq_clear_connection. destruct (mq_by_connection s !! c) as [ids|] eqn:E; [|done].
  pose proof (Hix c) as Hc. rewrite E in Hc. cbn in Hc. split; cbn.
  - intros i m. rewrite foldl_delete_lookup. case_decide; [done|]. apply Hid.
  - intros c'. destruct (decide (c' = c)) as [->|Hne]; [rewrite lookup_delete_eq; constructor|].
    by rewrite lookup_delete_ne.
  - intros c' i. rewrite foldl_delete_lookup. destruct (decide (c' = c)) as [->|Hne].
    + rewrite lookup_delete_eq. cbn. rewrite elem_of_nil. split; [done|]. intros (m&Hm&Hmc).
      case_decide as Hi; [done|]. apply Hi, Hc. eauto.
    + rewrite lookup_delete_ne, Hix by done. case_decide as Hi; [|done].
      apply Hc in Hi as (m&Hm&Hmc). rewrite Hm. split; [|by intros (?&?&?)]. intros (m'&[= <-]&?). congruence.
Qed.

Section expiry.
Context `{ChronoCutoff} `{HashOrder}.

Lemma mq_delete_expired_ok s max_age w : mq_ok s → mq_ok (mq_delete_expired s max_age w).1.2.
Proof.
  intros Hs. unfold mq_delete_expired. destruct (expiry_cutoff max_age w) as [[cutoff|] w']; [|done]. cbn.
  set (expired := _ <$> _).
  assert (∀ e, e ∈ expired → ∀ m, mq_messages s !! e.1 = Some m → qm_connection_id m = e.2) as He.
  { intros e. unfold expired. rewrite list_elem_of_fmap. intros (m&->&Hm) m' Hm'. cbn in *.
    apply list_elem_of_filter in Hm as [_ Hm]. apply list_elem_of_fmap in Hm as ([i m2]&->&Hi).
    apply elem_of_map_iter in Hi. cbn in Hm'. rewrite (mqo_id s Hs i m2 Hi) in Hm'. cbn. congruence. }
  clearbody expired. revert s Hs He. induction expired as [|e expired IH]; intros s Hs He; [done|]. cbn [foldl].
  apply IH.
  - apply mq_drop_ok; [done|]. apply He. left.
  - intros e' He' m. cbn. intros [_ Hm]%lookup_delete_Some. apply (He e'); [by right|done].
Qed.

Lemma elem_of_mq_indexed s c m :
  mq_ok s → m ∈ mq_indexed s c ↔ mq_messages s !! qm_id m = Some m ∧ qm_connection_id m = c.
Proof.
  intros [Hid Hnd Hix]. unfold mq_indexed. rewrite list_elem_of_omap. setoid_rewrite Hix. split.
  - intros (id&(m'&Hm'&Hc)&Hm). assert (m' = m) as -> by congruence. by rewrite (Hid _ _ Hm).
  - intros [Hm Hc]. exists (qm_id m). split; [eauto|done].
Qed.

Lemma mq_delete_expired_for_connection_ok s c max_age w :
  mq_ok s → mq_ok (mq_delete_expired_for_connection s c max_age w).1.2.
Proof.
  intros Hs. unfold mq_delete_expired_for_connection. destruct (expiry_cutoff max_age w) as [[cutoff|] w']; [|done].
  destruct (mq_by_connection s !! c) as [ids|] eqn:E; [|done]. cbn. set (expired := _ <$> _).
  assert (∀ i, i ∈ expired → ∃ m, mq_messages s !! i = Some m ∧ qm_connection_id m = c) as He.
  { intros i. unfold expired. rewrite list_elem_of_fmap. intros (m&->&Hm). apply list_elem_of_filter in Hm as [_ Hm].
    apply elem_of_mq_indexed in Hm; [|done]. eauto. }
  clearbody expired. destruct Hs as [Hid Hnd Hix]. split; cbn.
  - intros i m. rewrite foldl_delete_lookup. case_decide; [done|]. apply Hid.
  - intros c'. rewrite default_alter_filter. case_decide; [by apply NoDup_filter|done].
  - intros c' i. rewrite default_alter_filter, foldl_delete_lookup. case_decide as Hcc.
    + rewrite list_elem_of_filter, Hix. case_decide; naive_solver.
    + rewrite Hix. case_decide as Hi; [|done]. apply He in Hi as (m&Hm&Hmc). rewrite Hm.
      split; [|by intros (?&?&?)]. intros (m'&[= <-]&?). congruence.
Qed.
End expiry.

(** * What a mediator can rely on *)

Section reliable.
Context `{ChronoCutoff} `{HashOrder}.

(** One call of the repository; ids of added messages are new. *)
Inductive mq_step : MessageQueue → MessageQueue → Prop :=
  | mq_step_add s m : mq_messages s !! qm_id m = None → mq_step s (mq_add_message s m).2
  | mq_step_take s c key limit : mq_step s (mq_take_from_queue s c key limit).2
  | mq_step_remove s ids : mq_step s (mq_remove_messages s ids)
  | mq_step_return s ids : mq_step s (mq_return_to_pending s ids)
  | mq_step_clear s c : mq_step s (mq_clear_connection s c).2
  | mq_step_expire s age w : mq_step s (mq_delete_expired s age w).1.2
  | mq_step_expire_conn s c age w : mq_step s (mq_delete_expired_for_connection s c age w).1.2.

Lemma mq_step_ok s s' : mq_ok s → mq_step s s' → mq_ok s'.
Proof.
  intros Hs Hstep. destruct Hstep as [s m Hf|s c key limit|s ids|s ids|s c|s age w|s c age w].
  - by apply mq_add_ok.
  - unfold mq_take_from_queue. destruct (mq_by_connection s !! c); [|done]. by apply (mq_states_alter qm_id Sending).
  - unfold mq_remove_messages. revert s Hs. induction ids as [|i ids IH]; intros s Hs; [done|].
    by apply IH, mq_remove_message_ok.
  - by apply (mq_states_alter id Pending).
  - by apply mq_clear_ok.
  - by apply mq_delete_expired_ok.
  - by apply mq_delete_expired_for_connection_ok.
Qed.

Lemma mq_reach_ok s : rtc mq_step mq_new s → mq_ok s.
Proof.
  assert (∀ s0 s, mq_ok s0 → rtc mq_step s0 s → mq_ok s) as Hgen.
  { intros s0 s1 H0' Hr. induction Hr; [done|]. eauto using mq_step_ok. }
  apply Hgen, mq_new_ok.
Qed.

Lemma elem_of_mq_pending s c key m :
  mq_ok s → m ∈ mq_pending s c key ↔
    mq_messages s !! qm_id m = Some m ∧ qm_connection_id m = c ∧ qm_state m = Pending ∧
    qm_matches_recipient_key m key = true.
Proof.
  intros Hs. unfold mq_pending. rewrite !list_elem_of_filter, elem_of_mq_indexed by done. tauto.
Qed.

Lemma NoDup_mq_pending s c key : mq_ok s → NoDup (qm_id <$> mq_pending s c key).
Proof.
  intros [Hid Hnd _].
  assert (NoDup (qm_id <$> mq_indexed s c)) as Hi.
  { specialize (Hnd c). unfold mq_indexed. induction Hnd as [|i ids Hi _ IH]; [constructor|]. cbn.
    destruct (mq_messages s !! i) as [m|] eqn:Em; [|done]. cbn. constructor; [|done].
    rewrite (Hid _ _ Em). intros Hin. apply Hi. apply list_elem_of_fmap in Hin as (m'&->&Hm').
    apply list_elem_of_omap in Hm' as (j&Hj&Hm'). by rewrite (Hid _ _ Hm'). }
  unfold mq_pending. eapply sublist_NoDup; [exact Hi|]. apply fmap_sublist. etrans; apply sublist_filter.
Qed.

(** In every reachable state the index of a connection names, once each, exactly the
    stored messages of that connection, so that a message is found by its id exactly
    when its connection's index names it, and the pending count of a connection is the
    number of stored pending messages of it that match the key. *)
Theorem queue_index_consistent (s : MessageQueue) (c : string) (key : option string) :
  rtc mq_step mq_new s →
  NoDup (default [] (mq_by_connection s !! c)) ∧
  (∀ id, id ∈ default [] (mq_by_connection s !! c) ↔
     ∃ m, mq_find_by_id s id = Some m ∧ qm_id m = id ∧ qm_connection_id m = c) ∧
  mq_get_pending_count s c key =
    N.of_nat (size (filter (λ im : string * QueuedMessage,
      qm_connection_id im.2 = c ∧ qm_state im.2 = Pending ∧ qm_matches_recipient_key im.2 key = true)
      (mq_messages s))).
Proof.
  intros Hs%mq_reach_ok. split_and!; [by apply mqo_nodup| |].
  - intros id. rewrite (mqo_index s Hs). unfold mq_find_by_id. split; [|naive_solver].
    intros (m&Hm&Hc). exists m. split_and!; [done|by apply (mqo_id s Hs)|done].
  - unfold mq_get_pending_count. f_equal. rewrite <- length_map_to_list, <- (length_fmap qm_id), <- (length_fmap fst).
    apply Permutation_length, NoDup_Permutation; [by apply NoDup_mq_pending|apply NoDup_fst_map_to_list|].
    intros i. rewrite !list_elem_of_fmap. split.
    + intros (m&->&Hm). apply elem_of_mq_pending in Hm as (Hm&Hrest); [|done]. exists (qm_id m, m).
      split; [done|]. by apply elem_of_map_to_list, map_lookup_filter_Some.
    + intros ([j m]&->&Hm). apply elem_of_map_to_list, map_lookup_filter_Some in Hm as [Hm Hrest].
      exists m. cbn in *. pose proof (mqo_id s Hs _ _ Hm) as Hj. split; [done|].
      apply elem_of_mq_pending; [done|]. by rewrite Hj.
Qed.

(** Taking from the queue, in every reachable state: the messages taken are stored,
    pending, of the connection and for the key, each once, the oldest first and none
    younger than one left behind, as many as the limit allows; they are then marked as
    being sent and nothing else changes, so that no later take returns one of them
    until it is returned to pending. *)
Theorem queue_take (s : MessageQueue) (c : string) (key key' : option string) (limit limit' : N) :
  rtc mq_step mq_new s →
  let '(taken, s') := mq_take_from_queue s c key limit in
  NoDup (qm_id <$> taken) ∧ StronglySorted (λ a b, qm_received_at a ≤ qm_received_at b)%Z taken ∧
  N.of_nat (length taken) = (limit `min` mq_get_pending_count s c key)%N ∧
  (∀ m, m ∈ taken → mq_find_by_id s (qm_id m) = Some m ∧ qm_state m = Pending ∧
     qm_connection_id m = c ∧ qm_matches_recipient_key m key = true) ∧
  (∀ m m', m ∈ taken → m' ∈ mq_pending s c key → m' ∉ taken → (qm_received_at m ≤ qm_received_at m')%Z) ∧
  (∀ id, mq_find_by_id s' id = if decide (id ∈ qm_id <$> taken) then qm_mark_sending <$> mq_find_by_id s id
                               else mq_find_by_id s id) ∧
  (∀ m, m ∈ (mq_take_from_queue s' c key' limit').1 → qm_id m ∉ qm_id <$> taken).
Proof.
  intros Hr. pose proof (mq_reach_ok s Hr) as Hs.
  assert (mq_ok (mq_take_from_queue s c key limit).2) as Hs' by (eapply mq_step_ok; [exact Hs|apply mq_step_take]).
  unfold mq_take_from_queue in *. unfold mq_get_pending_count, mq_find_by_id.
  destruct (mq_by_connection s !! c) as [ids|] eqn:Ec.
  2:{ assert (mq_pending s c key = []) as -> by (unfold mq_pending, mq_indexed; by rewrite Ec). cbn. rewrite Ec.
      split_and!; [constructor|constructor|by rewrite N.min_0_r|set_solver|set_solver|done|set_solver]. }
  set (pending := sort_by_key qm_received_at (mq_pending s c key)) in *.
  set (taken := take (N.to_nat limit) pending) in *. cbn in Hs' |- *.
  assert (pending ≡ₚ mq_pending s c key) as Hperm by apply sort_by_key_perm.
  assert (∀ m, m ∈ taken → m ∈ mq_pending s c key) as Hsub.
  { intros m Hm. rewrite <- Hperm. eapply elem_of_sublist; [exact Hm|apply sublist_take]. }
  assert (StronglySorted (λ a b, qm_received_at a ≤ qm_received_at b)%Z pending) as Hsort by apply sort_by_key_sorted.
  pose proof Hsort as Hsplit. rewrite <- (take_drop (N.to_nat limit) pending) in Hsplit.
  apply StronglySorted_app in Hsplit as (Hcross&Htaken&_).
  split_and!.
  - assert (NoDup (qm_id <$> pending)) as Hnd by (rewrite Hperm; by apply NoDup_mq_pending).
    eapply sublist_NoDup; [exact Hnd|]. apply fmap_sublist, sublist_take.
  - done.
  - unfold taken. rewrite length_take, (Permutation_length Hperm). lia.
  - intros m Hm%Hsub%elem_of_mq_pending; [|done]. naive_solver.
  - intros m m' Hm Hm' Hnot. apply Hcross; [done|]. rewrite <- Hperm in Hm'.
    rewrite <- (take_drop (N.to_nat limit) pending), elem_of_app in Hm'. by destruct Hm'.
  - intros id. by apply (foldl_alter_lookup qm_mark_sending qm_id).
  - intros m. rewrite Ec. cbn. intros Hm. eapply elem_of_sublist in Hm; [|apply sublist_take].
    rewrite sort_by_key_perm in Hm. apply elem_of_mq_pending in Hm as (Hm&_&Hp&_); [|done]. cbn in Hm.
    rewrite (foldl_alter_lookup qm_mark_sending qm_id) in Hm by done. intros Hin. rewrite decide_True in Hm by done.
    destruct (mq_messages s !! qm_id m) as [x|]; [|done]. injection Hm as <-. done.
Qed.
End reliable.

(** ** Witnesses and concrete runs *)

Definition wide_cutoff : ChronoCutoff.
Proof.
  refine {| duration_from_std ns := Some (Z.of_N ns); instant_sub t d := Some (t - d)%Z |}.
  - by intros ns d [= <-].
  - by intros t d t' [= <-].
Defined.

Section examples.
#[local] Existing Instance plain_order.
#[local] Existing Instance wide_cutoff.

Definition ex_msg (id : string) (t : Instant) : QueuedMessage := mkQueued id "conn" ["k"] "{}" t Pending.
Definition ex_queue : MessageQueue := (mq_add_message (mq_add_message mq_new (ex_msg "m1" 5)).2 (ex_msg "m2" 3)).2.

Lemma ex_queue_reach : rtc mq_step mq_new ex_queue.
Proof.
  eapply rtc_l; [apply (mq_step_add _ (ex_msg "m1" 5)); reflexivity|].
  eapply rtc_l; [apply (mq_step_add _ (ex_msg "m2" 3)); reflexivity|]. apply rtc_refl.
Qed.

Lemma queue_index_consistent_witness :
  mq_get_pending_count ex_queue "conn" (Some "k") = 2%N ∧ NoDup (default [] (mq_by_connection ex_queue !! "conn")).
Proof.
  destruct (queue_index_consistent ex_queue "conn" (Some "k") ex_queue_reach) as (H1&_&H3).
  split; [|exact H1]. rewrite H3. vm_compute. reflexivity.
Defined.

Lemma queue_take_witness :
  qm_id <$> (mq_take_from_queue ex_queue "conn" None 1).1 = ["m2"] ∧
  NoDup (qm_id <$> (mq_take_from_queue ex_queue "conn" None 1).1).
Proof.
  split; [vm_compute; reflexivity|].
  pose proof (queue_take ex_queue "conn" None None 1 5 ex_queue_reach) as Ht.
  destruct (mq_take_from_queue ex_queue "conn" None 1) as [taken s']. exact (proj1 Ht).
Defined.

(** A message added twice under one id is taken twice: the condition of new ids is
    what keeps delivery single. *)
Example duplicate_id_taken_twice :
  let q := (mq_add_message ex_queue (ex_msg "m1" 5)).2 in
  qm_id <$> (mq_take_from_queue q "conn" None 5).1 = ["m2"; "m1"; "m1"].
Proof. vm_compute. reflexivity. Qed.
End examples.
