(* ===== verification/Storage.v ===== *)
(** Record storage: the [StorageProvider] trait of
    [src/core/agent_core/src/traits/storage.rs] as an interface with laws, its errors,
    and the in-memory provider of [src/storage/src/memory.rs], which satisfies them.

    The components that persist records are defined and proved against the interface;
    the Askar and Kanon providers are databases behind external crates. *)
From S2P Require Import Prelude.

(** [src/core/agent_core/src/traits/storage.rs:12-29] Record *)
Record AgentRecord := mkRecord {
  rec_category : string;
  rec_name : string;
  rec_value : string;
  rec_tags : gmap string string
}.

(** [src/core/agent_core/src/traits/storage.rs:32-39] Record::new *)
Definition rec_new (category name value : string) : AgentRecord := mkRecord category name value ∅.

(** [src/core/agent_core/src/traits/storage.rs:41-44] Record::with_tags *)
Definition rec_with_tags (self : AgentRecord) (tags : gmap string string) : AgentRecord :=
  mkRecord (rec_category self) (rec_name self) (rec_value self) tags.

(** [src/core/agent_core/src/traits/storage.rs:46-49] Record::add_tag *)
Definition rec_add_tag (self : AgentRecord) (key value : string) : AgentRecord :=
  mkRecord (rec_category self) (rec_name self) (rec_value self) (<[key := value]> (rec_tags self)).

(** [src/core/agent_core/src/traits/storage.rs:53-63] Query *)
Record Query := mkQuery {
  q_tags : gmap string string;
  q_limit : option N;
  q_skip : option N
}.

(** [src/core/agent_core/src/traits/storage.rs:66-68] Query::new *)
Definition q_new : Query := mkQuery ∅ None None.

(** [src/core/agent_core/src/traits/storage.rs:70-73] Query::with_tag *)
Definition q_with_tag (self : Query) (key value : string) : Query :=
  mkQuery (<[key := value]> (q_tags self)) (q_limit self) (q_skip self).

(** [src/core/agent_core/src/traits/storage.rs:75-78] Query::with_limit *)
Definition q_with_limit (self : Query) (limit : N) : Query := mkQuery (q_tags self) (Some limit) (q_skip self).

(** [src/core/agent_core/src/traits/storage.rs:80-83] Query::with_skip *)
Definition q_with_skip (self : Query) (skip : N) : Query := mkQuery (q_tags self) (q_limit self) (Some skip).

(** [src/core/agent_core/src/error.rs:5-62] AgentError (an error of another crate is its text) *)
Inductive AgentError :=
  | AgStorage (s : string)
  | AgWallet (s : string)
  | AgDidResolution (s : string)
  | AgDidComm (s : string)
  | AgProtocol (s : string)
  | AgConnection (s : string)
  | AgConfig (s : string)
  | AgModuleInit (module : string) (source : AgentError)
  | AgModuleNotFound (s : string)
  | AgServiceNotRegistered (s : string)
  | AgSerialization (s : string)
  | AgIo (s : string)
  | AgOther (s : string)
  | AgExternal (s : string).

(** [src/core/agent_core/src/error.rs:5-62] AgentError::to_string (derived by thiserror from the [error] attributes) *)
Fixpoint ag_to_string (e : AgentError) : string :=
  match e with
  | AgStorage s => "Storage error: " +:+ s
  | AgWallet s => "Wallet error: " +:+ s
  | AgDidResolution s => "DID resolution error: " +:+ s
  | AgDidComm s => "DIDComm error: " +:+ s
  | AgProtocol s => "Protocol error: " +:+ s
  | AgConnection s => "Connection error: " +:+ s
  | AgConfig s => "Configuration error: " +:+ s
  | AgModuleInit m e => "Module '" +:+ m +:+ "' initialization failed: " +:+ ag_to_string e
  | AgModuleNotFound s => "Module not found: " +:+ s
  | AgServiceNotRegistered s => "Service not registered: " +:+ s
  | AgSerialization s => "Serialization error: " +:+ s
  | AgIo s => "I/O error: " +:+ s
  | AgOther s => s
  | AgExternal s => s
  end.

(** [src/core/agent_core/src/traits/storage.rs:113-137] StorageProvider *)
Class StorageProvider (S : Type) := {
  st_save : AgentRecord → eff AgentError S unit;
  st_find : string → string → eff AgentError S (option AgentRecord);
  st_find_all : string → Query → eff AgentError S (list AgentRecord);
  st_update : AgentRecord → eff AgentError S unit;
  st_delete : string → string → eff AgentError S unit;
  st_delete_all : string → eff AgentError S unit;
  st_count : string → Query → eff AgentError S N
}.

(** [src/core/agent_core/src/traits/storage.rs:133-136] StorageProvider::count (the provided body) *)
Definition st_count_default {ST : Type} `{StorageProvider ST} (category : string) (query : Query) : eff AgentError ST N :=
  records ← st_find_all category query; mret (N.of_nat (length records)).

(** A record carries all tags of a query. *)
Definition tags_match (q : Query) (r : AgentRecord) : Prop :=
  ∀ k v, q_tags q !! k = Some v → rec_tags r !! k = Some v.

(** What a caller of the trait relies on: a provider keeps one record per category and
    name; [save] only adds, [update] only replaces, a call that fails changes nothing. *)
Class StorageLaws (S : Type) `{StorageProvider S} := {
  st_view : S → string → string → option AgentRecord;
  st_find_law c n s w :
    match st_find c n s w with
    | (Ok o, s', _) => o = st_view s c n ∧ ∀ c' n', st_view s' c' n' = st_view s c' n'
    | (_, s', _) => ∀ c' n', st_view s' c' n' = st_view s c' n'
    end;
  st_save_law r s w :
    match st_save r s w with
    | (Ok _, s', _) => st_view s (rec_category r) (rec_name r) = None ∧
        ∀ c n, st_view s' c n = if decide (c = rec_category r ∧ n = rec_name r) then Some r else st_view s c n
    | (_, s', _) => ∀ c n, st_view s' c n = st_view s c n
    end;
  st_update_law r s w :
    match st_update r s w with
    | (Ok _, s', _) => is_Some (st_view s (rec_category r) (rec_name r)) ∧
        ∀ c n, st_view s' c n = if decide (c = rec_category r ∧ n = rec_name r) then Some r else st_view s c n
    | (_, s', _) => ∀ c n, st_view s' c n = st_view s c n
    end;
  st_find_all_law c q s w :
    match st_find_all c q s w with
    | (Ok l, s', _) => (∀ r, r ∈ l → tags_match q r ∧ ∃ n, st_view s c n = Some r) ∧
        (q_limit q = None → q_skip q = None → ∀ n r, st_view s c n = Some r → tags_match q r → r ∈ l) ∧
        ∀ c' n', st_view s' c' n' = st_view s c' n'
    | (_, s', _) => ∀ c' n', st_view s' c' n' = st_view s c' n'
    end;
  st_delete_law c n s w :
    match st_delete c n s w with
    | (Ok _, s', _) => ∀ c' n', st_view s' c' n' = if decide (c' = c ∧ n' = n) then None else st_view s c' n'
    | (_, s', _) => ∀ c' n', st_view s' c' n' = st_view s c' n'
    end;
  st_delete_all_law c s w :
    match st_delete_all c s w with
    | (Ok _, s', _) => ∀ c' n', st_view s' c' n' = if decide (c' = c) then None else st_view s c' n'
    | (_, s', _) => ∀ c' n', st_view s' c' n' = st_view s c' n'
    end
}.

(** A call of a component on a part of the state, its error converted ([map_err]). *)
Definition eff_zoom {E E' T S A} (get : S → T) (set : T → S → S) (err : E → E') (m : eff E T A) : eff E' S A :=
  λ s w, match m (get s) w with
         | (Ok a, t, w) => (Ok a, set t s, w)
         | (Err e, t, w) => (Err (err e), set t s, w)
         | (Panic, t, w) => (Panic, set t s, w)
         end.

(** * Upsert

    The fallback the repositories use: [update], and [save] when it fails. *)
Section upsert.
Context {S : Type} `{StorageLaws S}.

Definition st_upsert (r : AgentRecord) : eff AgentError S unit :=
  u ← eff_catch (st_update r);
  match u with inr _ => mret tt | inl _ => st_save r end.

Lemma st_upsert_law r s w :
  match st_upsert r s w with
  | (Ok _, s', _) =>
      ∀ c n, st_view s' c n = if decide (c = rec_category r ∧ n = rec_name r) then Some r else st_view s c n
  | (_, s', _) => ∀ c n, st_view s' c n = st_view s c n
  end.
Proof.
  unfold st_upsert, mbind, eff_bind, eff_catch.
  pose proof (st_update_law r s w) as Hu. destruct (st_update r s w) as [[[[]|e|] s1] w1]; [by destruct Hu| |done].
  pose proof (st_save_law r s1 w1) as Hs. destruct (st_save r s1 w1) as [[[[]|e'|] s2] w2].
  - destruct Hs as [_ Hs]. intros c n. by rewrite Hs, Hu.
  - intros c n. by rewrite Hs, Hu.
  - intros c n. by rewrite Hs, Hu.
Qed.
End upsert.

(** * The in-memory provider *)

(** The nested map of [MemoryStorage]: category, then name. *)
Abbreviation MemoryStorage := (gmap string (gmap string AgentRecord)) (only parsing).

(** [src/storage/src/memory.rs:65-70] MemoryStorage::new *)
Definition mem_new : MemoryStorage := ∅.

(** [src/storage/src/memory.rs:84-87] MemoryStorage::clear *)
Definition mem_clear (self : MemoryStorage) : MemoryStorage := ∅.

(** [src/storage/src/memory.rs:89-93] MemoryStorage::total_count *)
Definition mem_total_count (self : MemoryStorage) : nat := sum_list (size <$> (map_to_list self).*2).

(** [src/storage/src/memory.rs:106-122] MemoryStorage::save *)
Definition mem_save (record : AgentRecord) : eff AgentError MemoryStorage unit := λ data w,
  let category_map := default ∅ (data !! rec_category record) in
  let data := <[rec_category record := category_map]> data in
  match category_map !! rec_name record with
  | Some _ =>
      (Err (AgStorage ("Record already exists: " +:+ rec_category record +:+ "/" +:+ rec_name record)), data, w)
  | None => (Ok tt, <[rec_category record := <[rec_name record := record]> category_map]> data, w)
  end.

(** [src/storage/src/memory.rs:124-128] MemoryStorage::find *)
Definition mem_find (category name : string) : eff AgentError MemoryStorage (option AgentRecord) :=
  eff_gets (λ data, cat ← data !! category; cat !! name).

Section ordered.
Context `{HashOrder}.

(** [src/storage/src/memory.rs:139-145] MemoryStorage::find_all (the filter's predicate) *)
Definition mem_matches (query : Query) (record : AgentRecord) : bool :=
  forallb (λ kv, match rec_tags record !! kv.1 with Some v => bool_decide (v = kv.2) | None => false end)
    (map_iter (q_tags query)).

(** [src/storage/src/memory.rs:130-165] MemoryStorage::find_all *)
Definition mem_find_all (category : string) (query : Query) : eff AgentError MemoryStorage (list AgentRecord) :=
  eff_gets (λ data,
    match data !! category with
    | None => []
    | Some category_map =>
        let results := filter (λ r, mem_matches query r = true) (map_iter category_map).*2 in
        let limited (l : list AgentRecord) :=
          match q_limit query with Some limit => take (N.to_nat limit) l | None => l end in
        match q_skip query with
        | Some skip => if (N.to_nat skip <? length results)%nat then limited (drop (N.to_nat skip) results) else []
        | None => limited results
        end
    end).

(** [src/storage/src/memory.rs:167-188] MemoryStorage::update *)
Definition mem_update (record : AgentRecord) : eff AgentError MemoryStorage unit := λ data w,
  match cat ← data !! rec_category record; cat !! rec_name record with
  | Some _ => (Ok tt, alter (<[rec_name record := record]>) (rec_category record) data, w)
  | None =>
      (Err (AgStorage ("Record not found: " +:+ rec_category record +:+ "/" +:+ rec_name record)), data, w)
  end.

(** [src/storage/src/memory.rs:190-198] MemoryStorage::delete *)
Definition mem_delete (category name : string) : eff AgentError MemoryStorage unit :=
  eff_modify (alter (delete name) category).

(** [src/storage/src/memory.rs:200-204] MemoryStorage::delete_all *)
Definition mem_delete_all (category : string) : eff AgentError MemoryStorage unit :=
  eff_modify (delete category).

(** [src/storage/src/memory.rs:206-231] MemoryStorage::count *)
Definition mem_count (category : string) (query : Query) : eff AgentError MemoryStorage N :=
  eff_gets (λ data,
    match data !! category with
    | None => 0%N
    | Some category_map =>
        if decide (q_tags query = ∅) then N.of_nat (size category_map)
        else N.of_nat (length (filter (λ r, mem_matches query r = true) (map_iter category_map).*2))
    end).

#[export] Instance memory_provider : StorageProvider MemoryStorage := {|
  st_save := mem_save; st_find := mem_find; st_find_all := mem_find_all; st_update := mem_update;
  st_delete := mem_delete; st_delete_all := mem_delete_all; st_count := mem_count
|}.

Definition mem_view (data : MemoryStorage) (c n : string) : option AgentRecord := cat ← data !! c; cat !! n.

Lemma mem_matches_spec q r : mem_matches q r = true ↔ tags_match q r.
Proof.
  unfold mem_matches, tags_match. rewrite forallb_forall. split.
  - intros Hall k v Hk. apply elem_of_map_iter, list_elem_of_In in Hk. apply Hall in Hk. cbn in Hk.
    destruct (rec_tags r !! k); [|done]. apply bool_decide_eq_true in Hk. by subst.
  - intros Hm [k v] Hin%list_elem_of_In%elem_of_map_iter. cbn. rewrite (Hm _ _ Hin). by apply bool_decide_eq_true.
Qed.

Lemma mem_view_insert data c cat c' n' :
  mem_view (<[c := cat]> data) c' n' = if decide (c' = c) then cat !! n' else mem_view data c' n'.
Proof.
  unfold mem_view. case_decide as Hc; [subst; by rewrite lookup_insert_eq|by rewrite lookup_insert_ne].
Qed.

Lemma mem_view_default data c n : default ∅ (data !! c) !! n = mem_view data c n.
Proof. unfold mem_view. by destruct (data !! c). Qed.

Lemma mem_save_spec r data w :
  match mem_save r data w with
  | (Ok _, s', _) => mem_view data (rec_category r) (rec_name r) = None ∧
      ∀ c n, mem_view s' c n = if decide (c = rec_category r ∧ n = rec_name r) then Some r else mem_view data c n
  | (_, s', _) => ∀ c n, mem_view s' c n = mem_view data c n
  end.
Proof.
  unfold mem_save. rewrite mem_view_default. destruct (mem_view data _ _) as [r'|] eqn:E.
  - intros c n. rewrite mem_view_insert, mem_view_default. by case_decide; subst.
  - split; [done|]. intros c n. rewrite insert_insert_eq, mem_view_insert.
    destruct (decide (c = rec_category r)) as [->|Hc].
    + destruct (decide (n = rec_name r)) as [->|Hn].
      * by rewrite lookup_insert_eq, decide_True.
      * rewrite lookup_insert_ne, decide_False, mem_view_default by naive_solver. done.
    + by rewrite decide_False by naive_solver.
Qed.

Lemma mem_view_alter f data c c' n' :
  mem_view (alter f c data) c' n' = if decide (c' = c) then cat ← data !! c; f cat !! n' else mem_view data c' n'.
Proof.
  unfold mem_view. case_decide as Hc; [subst; rewrite lookup_alter_eq; by destruct (data !! c)|by rewrite lookup_alter_ne].
Qed.

Lemma mem_update_spec r data w :
  match mem_update r data w with
  | (Ok _, s', _) => is_Some (mem_view data (rec_category r) (rec_name r)) ∧
      ∀ c n, mem_view s' c n = if decide (c = rec_category r ∧ n = rec_name r) then Some r else mem_view data c n
  | (_, s', _) => ∀ c n, mem_view s' c n = mem_view data c n
  end.
Proof.
  unfold mem_update. change (cat ← data !! rec_category r; cat !! rec_name r)
    with (mem_view data (rec_category r) (rec_name r)).
  destruct (mem_view data _ _) as [r'|] eqn:E; [|done]. split; [done|]. intros c n. rewrite mem_view_alter.
  destruct (decide (c = rec_category r)) as [->|Hc]; [|by rewrite decide_False by naive_solver].
  unfold mem_view in *. destruct (data !! rec_category r) as [cat|]; [|done]. cbn.
  destruct (decide (n = rec_name r)) as [->|Hn].
  - by rewrite lookup_insert_eq, decide_True.
  - rewrite lookup_insert_ne, decide_False by naive_solver. done.
Qed.

Lemma elem_of_category_values (cat : gmap string AgentRecord) r :
  r ∈ (map_iter cat).*2 ↔ ∃ n, cat !! n = Some r.
Proof.
  rewrite list_elem_of_fmap. split.
  - intros ([n r']&->&Hn%elem_of_map_iter). eauto.
  - intros [n Hn%elem_of_map_iter]. by exists (n, r).
Qed.

Lemma mem_find_all_spec c q data w :
  match mem_find_all c q data w with
  | (Ok l, s', _) => (∀ r, r ∈ l → tags_match q r ∧ ∃ n, mem_view data c n = Some r) ∧
      (q_limit q = None → q_skip q = None → ∀ n r, mem_view data c n = Some r → tags_match q r → r ∈ l) ∧
      ∀ c' n', mem_view s' c' n' = mem_view data c' n'
  | (_, s', _) => ∀ c' n', mem_view s' c' n' = mem_view data c' n'
  end.
Proof.
  unfold mem_find_all, eff_gets, mem_view. destruct (data !! c) as [cat|] eqn:E; cbn -[Nat.ltb]; [|by split_and!; set_solver].
  assert (∀ r, r ∈ filter (λ r, mem_matches q r = true) (map_iter cat).*2 ↔ tags_match q r ∧ ∃ n, cat !! n = Some r) as Hf.
  { intros r. by rewrite list_elem_of_filter, mem_matches_spec, elem_of_category_values. }
  set (l := filter _ _) in *. clearbody l.
  assert (∀ (l' : list AgentRecord) r, r ∈ match q_limit q with Some limit => take (N.to_nat limit) l' | None => l' end → r ∈ l') as Hlim.
  { intros l' r. destruct (q_limit q) as [k|]; [|done]. intros Hr. by eapply subseteq_take. }
  split_and!; [| |done].
  - intros r Hr. apply Hf. destruct (q_skip q) as [k|]; [|by apply Hlim].
    destruct (_ <? _)%nat; [|by apply elem_of_nil in Hr]. apply Hlim in Hr. by eapply subseteq_drop.
  - intros -> -> n r Hn Ht. apply Hf. eauto.
Qed.

#[export] Instance memory_laws : StorageLaws MemoryStorage.
Proof.
  refine {| st_view := mem_view |}.
  - by intros c n s w.
  - apply mem_save_spec.
  - apply mem_update_spec.
  - apply mem_find_all_spec.
  - intros c n s w c' n'. rewrite mem_view_alter. destruct (decide (c' = c)) as [->|Hc]; [|by rewrite decide_False by naive_solver].
    unfold mem_view. destruct (s !! c) as [cat|]; cbn; [|by case_decide].
    destruct (decide (n' = n)) as [->|Hn]; [by rewrite lookup_delete_eq, decide_True|].
    rewrite lookup_delete_ne, decide_False by naive_solver. done.
  - intros c s w c' n'. unfold mem_view. cbn. case_decide as Hc; [subst; by rewrite lookup_delete_eq|by rewrite lookup_delete_ne].
Defined.
Lemma map_iter_empty {K V} `{Countable K} : map_iter (∅ : gmap K V) = [].
Proof. apply Permutation_nil_r. by rewrite map_iter_perm, map_to_list_empty. Qed.

Lemma mem_filter_untagged limit skip (l : list AgentRecord) :
  filter (λ r, mem_matches (mkQuery ∅ limit skip) r = true) l = l.
Proof.
  induction l as [|r l IH]; [done|]. rewrite filter_cons_True, IH; [done|].
  unfold mem_matches. cbn. by rewrite map_iter_empty.
Qed.

Lemma mem_find_all_all data c tags w :
  mem_find_all c (mkQuery tags None None) data w =
    (Ok (filter (λ r, mem_matches (mkQuery tags None None) r = true)
           (map_iter (default ∅ (data !! c))).*2), data, w).
Proof.
  unfold mem_find_all, eff_gets. destruct (data !! c) as [cat|]; [done|]. cbn.
  by rewrite map_iter_empty.
Qed.

(** A query of the in-memory provider without paging lists every record of the category
    that carries its tags, once; with a skip and a limit it lists that page of the same list;
    and [count] returns the number of all of them, whatever the skip and the limit. *)
Theorem memory_query_pages (data : MemoryStorage) (c : string) (tags : gmap string string) w :
  ∃ all,
    st_find_all c (mkQuery tags None None) data w = (Ok all, data, w) ∧
    all ≡ₚ filter (λ r, mem_matches (mkQuery tags None None) r = true) (map_to_list (default ∅ (data !! c))).*2 ∧
    ∀ limit skip,
      st_find_all c (mkQuery tags limit skip) data w =
        (Ok (match limit with Some k => take (N.to_nat k) | None => id end
               (drop (N.to_nat (default 0%N skip)) all)), data, w) ∧
      st_count c (mkQuery tags limit skip) data w = (Ok (N.of_nat (length all)), data, w).
Proof.
  eexists. split; [apply mem_find_all_all|]. split; [by rewrite map_iter_perm|]. intros limit skip. split.
  - cbn [st_find_all memory_provider]. unfold mem_find_all, eff_gets. destruct (data !! c) as [cat|] eqn:E.
    + f_equal. f_equal. f_equal. cbn -[Nat.ltb].
      change (mem_matches (mkQuery tags limit skip)) with (mem_matches (mkQuery tags None None)).
      set (l := filter _ _). destruct skip as [k|]; cbn -[Nat.ltb]; [|by destruct limit].
      destruct (Nat.ltb_spec (N.to_nat k) (length l)); [by destruct limit|].
      rewrite drop_ge by lia. destruct limit; cbn; by rewrite ?take_nil.
    + pose proof (mem_find_all_all data c tags w) as Ha. rewrite E in Ha.
      unfold mem_find_all, eff_gets in Ha. rewrite E in Ha. injection Ha as Ha. cbn in Ha |- *. rewrite <- Ha.
      rewrite drop_nil. destruct limit; cbn; by rewrite ?take_nil.
  - cbn [st_count memory_provider]. unfold mem_count, eff_gets. f_equal. f_equal. f_equal.
    destruct (data !! c) as [cat|] eqn:E; cbn.
    + case_decide as Ht; [|done]. subst. rewrite mem_filter_untagged, length_fmap, map_iter_perm.
      by rewrite length_map_to_list.
    + by rewrite map_iter_empty.
Qed.
End ordered.
