(* ===== verification/RecordRepo.v ===== *)
(** Repositories of protocol records: the interface that the protocol services are written
    against, the in-memory repository and the write-through repository over a storage
    provider.

    The credential and the proof protocol have the same two repositories, line by line, for
    their own record types: [src/protocols/credentials/src/repository] and
    [src/protocols/proofs/src/repository].  The bodies are given once, for a kind of record
    ([RecordKind]), with the lines of the credential protocol; the protocols' files give the
    kinds and the finders. *)
From S2P Require Import Prelude Storage.

(** What a record is kept under, and the errors of its repository. *)
Class RecordKey (R E : Type) := {
  rk_id : R → string;
  rk_already : string → E;
  rk_not_found : string → E
}.
(** What distinguishes one stored record type from another: its category and tags in the
    storage, its serializer, and the errors of the storage. *)
Class RecordKind (R E : Type) := {
  #[global] rk_key :: RecordKey R E;
  rk_category : string;
  rk_tags : R → gmap string string;
  rk_encode : R → outcome E string;
  rk_decode : string → option R;
  rk_load_failed : AgentError → E;
  rk_save_failed : AgentError → E;
  rk_update_failed : AgentError → E;
  rk_delete_failed : AgentError → E
}.
(** A record comes back from the storage with its id, maybe not all of it: [rk_reloaded] says
    as what.  What was read once is read again as it is. *)
Class RecordKindLaws (R E : Type) `{RecordKind R E} := {
  rk_reloaded : R → R;
  rk_reloaded_id x : rk_id (rk_reloaded x) = rk_id x;
  rk_decode_encode x v : rk_encode x = Ok v → rk_decode v = Some (rk_reloaded x);
  rk_decode_reloaded v x : rk_decode v = Some x → rk_reloaded x = x
}.
(** Records that come back as they are. *)
Definition exact_kind_laws {R E : Type} `{RecordKind R E} (Hexact : ∀ x v, rk_encode x = Ok v → rk_decode v = Some x) : RecordKindLaws R E :=
  {| rk_reloaded := id; rk_reloaded_id _ := eq_refl; rk_decode_encode := Hexact; rk_decode_reloaded _ _ _ := eq_refl |}.

(** [src/protocols/credentials/src/repository/credential_exchange.rs:146-182] CredentialExchangeRepositoryTrait *)
Class ExchangeRepo (S R E : Type) := {
  er_save : R → eff E S unit;
  er_update : R → eff E S unit;
  er_find_by_id : string → eff E S (option R);
  er_find : (R → bool) → eff E S (option R);
  er_filter : (R → bool) → eff E S (list R);
  er_delete : string → eff E S unit;
  er_get_all : eff E S (list R)
}.

(** A state with a repository in it. *)
Class HasRepo (T RS : Type) := {
  repo_of : T → RS;
  with_repo : RS → T → T;
  repo_of_with r s : repo_of (with_repo r s) = r
}.
(** A call of the repository, and a call that leaves it alone: of another part of the state. *)
Definition on_records {E T RS A} `{HasRepo T RS} (m : eff E RS A) : eff E T A := eff_zoom repo_of with_repo id m.

(** What a client relies on: one record per id, a call that fails changes nothing. *)
Class ExchangeRepoLaws (S R E : Type) `{RecordKey R E} `{ExchangeRepo S R E} := {
  er_ok : S → Prop;
  er_view : S → string → option R;
  er_keyed s id x : er_ok s → er_view s id = Some x → rk_id x = id;
  er_save_law x s w : er_ok s →
    match er_save x s w with
    | (Ok _, s', _) => er_ok s' ∧ er_view s (rk_id x) = None ∧
        ∀ id, er_view s' id = if decide (id = rk_id x) then Some x else er_view s id
    | (_, s', _) => er_ok s' ∧ ∀ id, er_view s' id = er_view s id
    end;
  er_update_law x s w : er_ok s →
    match er_update x s w with
    | (Ok _, s', _) => er_ok s' ∧ is_Some (er_view s (rk_id x)) ∧
        ∀ id, er_view s' id = if decide (id = rk_id x) then Some x else er_view s id
    | (_, s', _) => er_ok s' ∧ ∀ id, er_view s' id = er_view s id
    end;
  er_find_by_id_law i s w : er_ok s →
    match er_find_by_id i s w with
    | (Ok o, s', _) => er_ok s' ∧ o = er_view s i ∧ ∀ id, er_view s' id = er_view s id
    | (_, s', _) => er_ok s' ∧ ∀ id, er_view s' id = er_view s id
    end;
  er_find_law p s w : er_ok s →
    match er_find p s w with
    | (Ok o, s', _) => er_ok s' ∧ (∀ id, er_view s' id = er_view s id) ∧
        match o with
        | Some x => p x = true ∧ er_view s (rk_id x) = Some x
        | None => ∀ id x, er_view s id = Some x → p x = false
        end
    | (_, s', _) => er_ok s' ∧ ∀ id, er_view s' id = er_view s id
    end;
  er_filter_law p s w : er_ok s →
    match er_filter p s w with
    | (Ok l, s', _) => er_ok s' ∧ (∀ id, er_view s' id = er_view s id) ∧ ∀ x, x ∈ l ↔ p x = true ∧ er_view s (rk_id x) = Some x
    | (_, s', _) => er_ok s' ∧ ∀ id, er_view s' id = er_view s id
    end;
  er_get_all_law s w : er_ok s →
    match er_get_all s w with
    | (Ok l, s', _) => er_ok s' ∧ (∀ id, er_view s' id = er_view s id) ∧ ∀ x, x ∈ l ↔ er_view s (rk_id x) = Some x
    | (_, s', _) => er_ok s' ∧ ∀ id, er_view s' id = er_view s id
    end;
  er_delete_law i s w : er_ok s →
    match er_delete i s w with
    | (Ok _, s', _) => er_ok s' ∧ is_Some (er_view s i) ∧ ∀ id, er_view s' id = if decide (id = i) then None else er_view s id
    | (_, s', _) => er_ok s' ∧ ∀ id, er_view s' id = er_view s id
    end
}.

(** * In memory *)

Section memory.
Context `{HashOrder} {R E : Type} `{RecordKey R E}.
Abbreviation Records := (gmap string R).

Definition repo_record_values (m : Records) : list R := (map_iter m).*2.

(** [src/protocols/credentials/src/repository/credential_exchange.rs:205-214] CredentialExchangeRepository::save *)
Definition mr_save (record : R) : eff E Records unit := λ records w,
  match records !! rk_id record with
  | Some _ => (Err (rk_already (rk_id record)), records, w)
  | None => (Ok tt, <[rk_id record := record]> records, w)
  end.

(** [src/protocols/credentials/src/repository/credential_exchange.rs:216-225] CredentialExchangeRepository::update *)
Definition mr_update (record : R) : eff E Records unit := λ records w,
  match records !! rk_id record with
  | None => (Err (rk_not_found (rk_id record)), records, w)
  | Some _ => (Ok tt, <[rk_id record := record]> records, w)
  end.

(** [src/protocols/credentials/src/repository/credential_exchange.rs:227-230] CredentialExchangeRepository::find_by_id *)
Definition mr_find_by_id (id : string) : eff E Records (option R) := eff_gets (λ records, records !! id).

(** [src/protocols/credentials/src/repository/credential_exchange.rs:232-235] CredentialExchangeRepository::find_by_thread_id (the search) *)
Definition mr_find (p : R → bool) : eff E Records (option R) :=
  eff_gets (λ records, find_first (λ r, p r = true) (repo_record_values records)).

(** [src/protocols/credentials/src/repository/credential_exchange.rs:237-271] CredentialExchangeRepository::find_by_state, find_by_role, find_by_connection_id (the filter) *)
Definition mr_filter (p : R → bool) : eff E Records (list R) :=
  eff_gets (λ records, filter (λ r, p r = true) (repo_record_values records)).

(** [src/protocols/credentials/src/repository/credential_exchange.rs:273-281] CredentialExchangeRepository::delete *)
Definition mr_delete (id : string) : eff E Records unit := λ records w,
  match records !! id with
  | None => (Err (rk_not_found id), records, w)
  | Some _ => (Ok tt, delete id records, w)
  end.

(** [src/protocols/credentials/src/repository/credential_exchange.rs:283-286] CredentialExchangeRepository::get_all *)
Definition mr_get_all : eff E Records (list R) := eff_gets repo_record_values.

#[export] Instance memory_repo : ExchangeRepo Records R E := {|
  er_save := mr_save; er_update := mr_update; er_find_by_id := mr_find_by_id; er_find := mr_find;
  er_filter := mr_filter; er_delete := mr_delete; er_get_all := mr_get_all
|}.

Lemma elem_of_repo_records m x : x ∈ repo_record_values m ↔ ∃ id, m !! id = Some x.
Proof.
  unfold repo_record_values. rewrite list_elem_of_fmap. split.
  - intros ([id x']&->&Hin%elem_of_map_iter). eauto.
  - intros [id Hin%elem_of_map_iter]. by exists (id, x).
Qed.

Definition records_keyed (m : Records) : Prop := ∀ id x, m !! id = Some x → rk_id x = id.

Lemma records_keyed_insert m x : records_keyed m → records_keyed (<[rk_id x := x]> m).
Proof. intros Hm id y [[<- <-]|[_ Hy]]%lookup_insert_Some; [done|by apply Hm]. Qed.

Lemma keyed_record_values m x : records_keyed m → x ∈ repo_record_values m ↔ m !! rk_id x = Some x.
Proof.
  intros Hm. rewrite elem_of_repo_records. split; [|eauto]. intros [id Hid]. by rewrite (Hm _ _ Hid).
Qed.

#[export] Instance memory_repo_laws : ExchangeRepoLaws Records R E.
Proof.
  refine {| er_ok := records_keyed; er_view m id := m !! id |}.
  - intros s id x Hs Hx. by apply Hs.
  - intros x s w Hs. cbn. unfold mr_save. destruct (s !! rk_id x) eqn:Hx; [done|].
    split; [by apply records_keyed_insert|]. split; [done|]. intros id. case_decide as Hid; [subst; by rewrite lookup_insert_eq|by rewrite lookup_insert_ne].
  - intros x s w Hs. cbn. unfold mr_update. destruct (s !! rk_id x) eqn:Hx; [|done].
    split; [by apply records_keyed_insert|]. split; [done|]. intros id. case_decide as Hid; [subst; by rewrite lookup_insert_eq|by rewrite lookup_insert_ne].
  - intros i s w Hs. done.
  - intros p s w Hs. cbn. split; [done|]. split; [done|]. destruct (find_first _ _) as [x|] eqn:Hf.
    + apply find_first_Some in Hf as [[id Hid]%elem_of_repo_records Hp]. split; [done|]. by rewrite (Hs _ _ Hid).
    + rewrite find_first_None in Hf. intros id x Hx. apply not_true_is_false, Hf, elem_of_repo_records. eauto.
  - intros p s w Hs. cbn. split; [done|]. split; [done|]. intros x. by rewrite list_elem_of_filter, keyed_record_values.
  - intros s w Hs. cbn. split; [done|]. split; [done|]. intros x. by rewrite keyed_record_values.
  - intros i s w Hs. cbn. unfold mr_delete. destruct (s !! i) eqn:Hx; [|done]. split.
    + intros id x [_ Hin]%lookup_delete_Some. by apply Hs.
    + split; [done|]. intros id. case_decide; [subst; by rewrite lookup_delete_eq|by rewrite lookup_delete_ne].
Defined.
End memory.

(** * Over a storage provider, with a cache *)

(** [src/protocols/credentials/src/repository/storage_backed.rs:26-29] StorageBackedCredentialExchangeRepository *)
Record StorageBacked (ST R : Type) := mkStorageBacked {
  sb_storage : ST;
  sb_cache : option (gmap string R)
}.
Arguments mkStorageBacked {ST R} _ _.
Arguments sb_storage {ST R} _.
Arguments sb_cache {ST R} _.

Section backed.
Context `{HashOrder} {ST R E : Type} `{RecordKind R E} `{StorageProvider ST}.
Abbreviation SB := (StorageBacked ST R).

(** [src/protocols/credentials/src/repository/storage_backed.rs:32-37] StorageBackedCredentialExchangeRepository::new *)
Definition sb_new (storage : ST) : SB := mkStorageBacked storage None.

Definition sb_on_storage {A} (err : AgentError → E) (m : eff AgentError ST A) : eff E SB A :=
  eff_zoom sb_storage (λ st s, mkStorageBacked st (sb_cache s)) err m.

(** What a load puts into the cache: the records that can be read. *)
Definition sb_load (records : list AgentRecord) : gmap string R :=
  foldl (λ m r, match rk_decode (rec_value r) with Some x => <[rk_id x := x]> m | None => m end) ∅ records.

(** [src/protocols/credentials/src/repository/storage_backed.rs:40-75] StorageBackedCredentialExchangeRepository::ensure_cache *)
Definition sb_ensure_cache : eff E SB unit :=
  s ← eff_get;
  match sb_cache s with
  | Some _ => mret tt
  | None =>
      records ← sb_on_storage rk_load_failed (st_find_all rk_category q_new);
      eff_modify (λ s, mkStorageBacked (sb_storage s) (Some (sb_load records)))
  end.

(** [src/protocols/credentials/src/repository/storage_backed.rs:78-85] StorageBackedCredentialExchangeRepository::with_cache *)
Definition sb_with_cache {A} (f : gmap string R → A) : eff E SB A :=
  _ ← sb_ensure_cache;
  s ← eff_get;
  match sb_cache s with Some m => mret (f m) | None => eff_lift Panic end.

(** [src/protocols/credentials/src/repository/storage_backed.rs:88-112] StorageBackedCredentialExchangeRepository::to_storage_record *)
Definition sb_to_storage_record (record : R) : outcome E AgentRecord :=
  let? value := rk_encode record in
  Ok (mkRecord rk_category (rk_id record) value (rk_tags record)).

Definition sb_modify_cache (f : gmap string R → gmap string R) : eff E SB unit :=
  eff_modify (λ s, mkStorageBacked (sb_storage s) (f <$> sb_cache s)).

(** A record is written to the storage, then to the cache. *)
Definition sb_put (err : AgentError → E) (call : AgentRecord → eff AgentError ST unit) (record : R) : eff E SB unit :=
  storage_record ← eff_lift (sb_to_storage_record record);
  _ ← sb_on_storage err (call storage_record);
  sb_modify_cache <[rk_id record := record]>.

(** [src/protocols/credentials/src/repository/storage_backed.rs:117-142] StorageBackedCredentialExchangeRepository::save *)
Definition sb_save (record : R) : eff E SB unit :=
  found ← sb_with_cache (λ m, m !! rk_id record);
  match found with
  | Some _ => eff_throw (rk_already (rk_id record))
  | None => sb_put rk_save_failed st_save record
  end.

(** [src/protocols/credentials/src/repository/storage_backed.rs:144-169] StorageBackedCredentialExchangeRepository::update *)
Definition sb_update (record : R) : eff E SB unit :=
  found ← sb_with_cache (λ m, m !! rk_id record);
  match found with
  | None => eff_throw (rk_not_found (rk_id record))
  | Some _ => sb_put rk_update_failed st_update record
  end.

(** [src/protocols/credentials/src/repository/storage_backed.rs:171-173] StorageBackedCredentialExchangeRepository::find_by_id *)
Definition sb_find_by_id (id : string) : eff E SB (option R) := sb_with_cache (λ m, m !! id).

(** [src/protocols/credentials/src/repository/storage_backed.rs:175-178] StorageBackedCredentialExchangeRepository::find_by_thread_id (the search) *)
Definition sb_find (p : R → bool) : eff E SB (option R) :=
  sb_with_cache (λ m, find_first (λ r, p r = true) (repo_record_values m)).

(** [src/protocols/credentials/src/repository/storage_backed.rs:180-214] StorageBackedCredentialExchangeRepository::find_by_state, find_by_role, find_by_connection_id (the filter) *)
Definition sb_filter (p : R → bool) : eff E SB (list R) :=
  sb_with_cache (λ m, filter (λ r, p r = true) (repo_record_values m)).

(** [src/protocols/credentials/src/repository/storage_backed.rs:216-240] StorageBackedCredentialExchangeRepository::delete *)
Definition sb_delete (id : string) : eff E SB unit :=
  found ← sb_with_cache (λ m, m !! id);
  match found with
  | None => eff_throw (rk_not_found id)
  | Some _ =>
      _ ← sb_on_storage rk_delete_failed (st_delete rk_category id);
      sb_modify_cache (delete id)
  end.

(** [src/protocols/credentials/src/repository/storage_backed.rs:242-245] StorageBackedCredentialExchangeRepository::get_all *)
Definition sb_get_all : eff E SB (list R) := sb_with_cache repo_record_values.

#[export] Instance storage_backed_repo : ExchangeRepo SB R E := {|
  er_save := sb_save; er_update := sb_update; er_find_by_id := sb_find_by_id; er_find := sb_find;
  er_filter := sb_filter; er_delete := sb_delete; er_get_all := sb_get_all
|}.
End backed.

(** ** The invariant *)

Section backed_laws.
Context `{HashOrder} {ST R E : Type} `{RecordKindLaws R E} `{StorageLaws ST}.
Abbreviation SB := (StorageBacked ST R).

(** What the storage holds under an id. *)
Definition stored (st : ST) (id : string) : option R := r ← st_view st rk_category id; rk_decode (rec_value r).

(** Every readable record is stored under its own id, and the storage holds what a loaded cache
    comes back as. *)
Record sb_ok (s : SB) : Prop := {
  sbo_keyed id x : stored (sb_storage s) id = Some x → rk_id x = id;
  sbo_cache m : sb_cache s = Some m → ∀ id, stored (sb_storage s) id = rk_reloaded <$> m !! id
}.
Definition sb_view (s : SB) (id : string) : option R :=
  match sb_cache s with Some m => m !! id | None => stored (sb_storage s) id end.

Lemma stored_reloaded (st : ST) id : rk_reloaded <$> stored st id = stored st id.
Proof.
  unfold stored. destruct (st_view st rk_category id) as [r|]; [|done]. cbn.
  destruct (rk_decode (rec_value r)) as [x|] eqn:Hx; [|done]. cbn. f_equal. by eapply rk_decode_reloaded.
Qed.
Lemma sb_view_stored s id : sb_ok s → stored (sb_storage s) id = rk_reloaded <$> sb_view s id.
Proof. intros Hs. unfold sb_view. destruct (sb_cache s) as [m|] eqn:Hc; [by apply (sbo_cache _ Hs)|by rewrite stored_reloaded]. Qed.
Lemma sb_view_keyed s id x : sb_ok s → sb_view s id = Some x → rk_id x = id.
Proof. intros Hs Hx. rewrite <-rk_reloaded_id. apply (sbo_keyed _ Hs). by rewrite sb_view_stored, Hx by done. Qed.

Lemma sb_load_snoc l r :
  sb_load (l ++ [r]) = match rk_decode (rec_value r) with Some x => <[rk_id x := x]> (sb_load l) | None => sb_load l end.
Proof. unfold sb_load. by rewrite foldl_app. Qed.

Lemma sb_load_lookup (st : ST) l :
  (∀ id x, stored st id = Some x → rk_id x = id) → (∀ r, r ∈ l → ∃ n, st_view st rk_category n = Some r) →
  (∀ id x, sb_load l !! id = Some x → stored st id = Some x) ∧
  (∀ r x, r ∈ l → rk_decode (rec_value r) = Some x → is_Some (sb_load l !! rk_id x)).
Proof.
  intros Hkey. induction l as [|r l IH] using rev_ind; intros Hl.
  - split; [intros id x Hx; unfold sb_load in Hx; cbn in Hx; by rewrite lookup_empty in Hx|intros r x Hr; by apply elem_of_nil in Hr].
  - destruct IH as [IH1 IH2]; [intros r' Hr'; apply Hl; set_solver|]. rewrite sb_load_snoc.
    destruct (rk_decode (rec_value r)) as [y|] eqn:Hy.
    + destruct (Hl r) as [n Hn]; [set_solver|].
      assert (Hst : stored st n = Some y) by (unfold stored; by rewrite Hn).
      pose proof (Hkey _ _ Hst) as Hid. split.
      * intros id x [[<- <-]|[_ Hx]]%lookup_insert_Some; [by rewrite Hid|by apply IH1].
      * intros r' x [Hr'|Hr']%elem_of_app Hx.
        -- destruct (decide (rk_id y = rk_id x)) as [->|Hne]; [rewrite lookup_insert_eq; eauto|].
           rewrite lookup_insert_ne by done. by eapply IH2.
        -- apply list_elem_of_singleton in Hr' as ->. rewrite Hy in Hx. injection Hx as ->. rewrite lookup_insert_eq. eauto.
    + split; [done|]. intros r' x [Hr'|Hr']%elem_of_app Hx; [by eapply IH2|].
      apply list_elem_of_singleton in Hr' as ->. congruence.
Qed.

Lemma sb_load_complete (st : ST) l :
  (∀ id x, stored st id = Some x → rk_id x = id) → (∀ r, r ∈ l → ∃ n, st_view st rk_category n = Some r) →
  (∀ n r, st_view st rk_category n = Some r → r ∈ l) → ∀ id, sb_load l !! id = stored st id.
Proof.
  intros Hkey Hl Hall id. destruct (sb_load_lookup st l Hkey Hl) as [Hsound Hcomp].
  destruct (stored st id) as [x|] eqn:Hx.
  - pose proof (Hkey _ _ Hx) as Hid. revert Hx. unfold stored. intros (r & Hr & Hd)%bind_Some.
    destruct (Hcomp r x (Hall _ _ Hr) Hd) as [y Hy]. rewrite Hid in Hy. rewrite Hy. apply Hsound in Hy.
    revert Hy. unfold stored. rewrite Hr. cbn. congruence.
  - destruct (sb_load l !! id) as [y|] eqn:Hy; [|done]. apply Hsound in Hy. congruence.
Qed.

(** The cache is there after a load, and nothing else has changed. *)
Lemma ensure_spec s w :
  sb_ok s →
  match sb_ensure_cache (E:=E) s w with
  | (Ok _, s', _) => ∃ m, sb_cache s' = Some m ∧ sb_ok s' ∧ ∀ id, sb_view s' id = sb_view s id
  | (Err e, s', _) => (∃ a, e = rk_load_failed a) ∧ sb_ok s' ∧ ∀ id, sb_view s' id = sb_view s id
  | (Panic, s', _) => sb_ok s' ∧ ∀ id, sb_view s' id = sb_view s id
  end.
Proof.
  intros Hs. unfold sb_ensure_cache, mbind, eff_bind, eff_get. destruct (sb_cache s) as [m|] eqn:Hc; [by exists m|].
  unfold sb_on_storage, eff_zoom. pose proof (st_find_all_law rk_category q_new (sb_storage s) w) as Hf.
  destruct (st_find_all rk_category q_new (sb_storage s) w) as [[[l|e|] st'] w'].
  - destruct Hf as (Hin & Hall & Hv). unfold eff_modify. cbn. eexists. split; [done|].
    assert (Hst : ∀ id, stored st' id = stored (sb_storage s) id) by (intros id; unfold stored; by rewrite Hv).
    assert (Hl : ∀ id, sb_load l !! id = stored (sb_storage s) id).
    { intros id. apply sb_load_complete.
      - intros id' x Hx. by eapply sbo_keyed.
      - intros r Hr. by apply Hin.
      - intros n r Hn. apply (Hall eq_refl eq_refl n r Hn). by intros k v Hk. }
    split; [split; cbn|].
    + intros id x Hx. rewrite Hst in Hx. by eapply sbo_keyed.
    + intros m [= <-] id. by rewrite Hst, Hl, stored_reloaded.
    + intros id. unfold sb_view. cbn. by rewrite Hl, Hc.
  - assert (Hst : ∀ id, stored st' id = stored (sb_storage s) id) by (intros id; unfold stored; by rewrite Hf).
    split; [by exists e|]. split; [|intros id; unfold sb_view; cbn; rewrite Hc; apply Hst].
    destruct Hs as [Hk _]. split; cbn; [|by rewrite Hc]. intros id x Hx. rewrite Hst in Hx. by eapply Hk.
  - assert (Hst : ∀ id, stored st' id = stored (sb_storage s) id) by (intros id; unfold stored; by rewrite Hf).
    split; [|intros id; unfold sb_view; cbn; rewrite Hc; apply Hst].
    destruct Hs as [Hk _]. split; cbn; [|by rewrite Hc]. intros id x Hx. rewrite Hst in Hx. by eapply Hk.
Qed.

Lemma with_cache_spec {A} (f : gmap string R → A) s w :
  sb_ok s →
  match sb_with_cache (E:=E) f s w with
  | (Ok a, s', _) => ∃ m, sb_cache s' = Some m ∧ a = f m ∧ sb_ok s' ∧ (∀ id, m !! id = sb_view s id) ∧ ∀ id, sb_view s' id = sb_view s id
  | (Err e, s', _) => (∃ a, e = rk_load_failed a) ∧ sb_ok s' ∧ ∀ id, sb_view s' id = sb_view s id
  | (Panic, s', _) => sb_ok s' ∧ ∀ id, sb_view s' id = sb_view s id
  end.
Proof.
  intros Hs. pose proof (ensure_spec s w Hs) as He. unfold sb_with_cache, mbind, eff_bind, eff_get.
  destruct (sb_ensure_cache s w) as [[[[]|e|] s'] w']; [|done..]. destruct He as (m & Hm & Hs' & Hv). rewrite Hm.
  exists m. split_and!; try done. intros id. rewrite <-Hv. unfold sb_view. by rewrite Hm.
Qed.

(** A change of one id that the storage and the cache make together. *)
Lemma sb_write_ok s m st' f id o :
  sb_ok s → sb_cache s = Some m →
  (∀ i, stored st' i = if decide (i = id) then rk_reloaded <$> o else stored (sb_storage s) i) →
  (∀ i, f m !! i = if decide (i = id) then o else m !! i) → (∀ x, o = Some x → rk_id x = id) →
  let s' := mkStorageBacked st' (f <$> sb_cache s) in
  sb_ok s' ∧ (∀ i, sb_view s' i = if decide (i = id) then o else sb_view s i).
Proof.
  intros Hs Hc Hst Hf Ho s'. split.
  - split; unfold s'; cbn.
    + intros i x. rewrite Hst. case_decide as Hi; [|by apply (sbo_keyed _ Hs)].
      intros (y & -> & Hy)%fmap_Some. subst. rewrite rk_reloaded_id. by apply Ho.
    + rewrite Hc. intros m' [= <-] i. rewrite Hf, Hst. case_decide; [done|]. by apply (sbo_cache _ Hs).
  - intros i. unfold sb_view, s'. cbn. rewrite Hc. apply Hf.
Qed.

(** A storage call that changes nothing. *)
Lemma sb_same_ok s st' :
  sb_ok s → (∀ c n, st_view st' c n = st_view (sb_storage s) c n) →
  sb_ok (mkStorageBacked st' (sb_cache s)) ∧ ∀ i, sb_view (mkStorageBacked st' (sb_cache s)) i = sb_view s i.
Proof.
  intros [Hk Hc] Hv. assert (Hst : ∀ i, stored st' i = stored (sb_storage s) i) by (intros i; unfold stored; by rewrite Hv).
  split; [|intros i; unfold sb_view; cbn; destruct (sb_cache s); [done|apply Hst]]. split; cbn.
  - intros i x. rewrite Hst. apply Hk.
  - intros m Hm i. rewrite Hst. by apply Hc.
Qed.

Lemma stored_after st st' r x :
  rk_decode (rec_value r) = Some (rk_reloaded x) → rec_category r = rk_category → rec_name r = rk_id x →
  (∀ c n, st_view st' c n = if decide (c = rec_category r ∧ n = rec_name r) then Some r else st_view st c n) →
  ∀ i, stored st' i = if decide (i = rk_id x) then Some (rk_reloaded x) else stored st i.
Proof.
  intros Hd Hc Hn Hv i. unfold stored. rewrite Hv. case_decide as Ha; case_decide as Hb; [cbn|exfalso; destruct Ha; congruence|exfalso; apply Ha; split; congruence|done].
  done.
Qed.

(** The outcome of a call that writes one record ([save] or [update]) behind its check. *)
Lemma sb_put_spec (err : AgentError → E) (call : AgentRecord → eff AgentError ST unit) x s m w :
  sb_ok s → sb_cache s = Some m → (∀ i, m !! i = sb_view s i) →
  (∀ r st w, match call r st w with
    | (Ok _, st', _) => ∀ c n, st_view st' c n = if decide (c = rec_category r ∧ n = rec_name r) then Some r else st_view st c n
    | (_, st', _) => ∀ c n, st_view st' c n = st_view st c n
    end) →
  match sb_put err call x s w with
  | (Ok _, s', _) => sb_ok s' ∧ (∀ i, sb_view s' i = if decide (i = rk_id x) then Some x else sb_view s i) ∧
      sb_cache s' = Some (<[rk_id x := x]> m)
  | (Err e, s', _) => ((∃ a, e = err a) ∨ rk_encode x = Err e) ∧ sb_ok s' ∧ ∀ i, sb_view s' i = sb_view s i
  | (Panic, s', _) => sb_ok s' ∧ ∀ i, sb_view s' i = sb_view s i
  end.
Proof.
  intros Hs Hc Hm Hcall. unfold sb_put, mbind, eff_bind, eff_lift, sb_to_storage_record.
  destruct (rk_encode x) as [v|e|] eqn:He; [|by auto..]. unfold sb_on_storage, eff_zoom.
  set (r := mkRecord _ _ _ _). specialize (Hcall r (sb_storage s) w).
  destruct (call r (sb_storage s) w) as [[[[]|e|] st'] w'].
  - unfold sb_modify_cache, eff_modify. cbn [sb_storage sb_cache].
    destruct (sb_write_ok s m st' <[rk_id x := x]> (rk_id x) (Some x)) as [Hok Hv]; try done; cbn [fmap option_fmap option_map].
    + apply (stored_after (sb_storage s) st' r); [by apply (rk_decode_encode x v)|done..].
    + intros i. case_decide; [subst; by rewrite lookup_insert_eq|by rewrite lookup_insert_ne].
    + by intros y [= <-].
    + split_and!; [exact Hok|exact Hv|by rewrite Hc].
  - split; [left; by exists e|by apply sb_same_ok].
  - by apply sb_same_ok.
Qed.

Lemma save_call (r : AgentRecord) (st : ST) w :
  match st_save r st w with
  | (Ok _, st', _) => ∀ c n, st_view st' c n = if decide (c = rec_category r ∧ n = rec_name r) then Some r else st_view st c n
  | (_, st', _) => ∀ c n, st_view st' c n = st_view st c n
  end.
Proof. pose proof (st_save_law r st w) as Hl. by destruct (st_save r st w) as [[[]?]?]; [destruct Hl|..]. Qed.

Lemma update_call (r : AgentRecord) (st : ST) w :
  match st_update r st w with
  | (Ok _, st', _) => ∀ c n, st_view st' c n = if decide (c = rec_category r ∧ n = rec_name r) then Some r else st_view st c n
  | (_, st', _) => ∀ c n, st_view st' c n = st_view st c n
  end.
Proof. pose proof (st_update_law r st w) as Hl. by destruct (st_update r st w) as [[[]?]?]; [destruct Hl|..]. Qed.

Lemma sb_save_spec x s w :
  sb_ok s →
  match sb_save (E:=E) x s w with
  | (Ok _, s', _) => sb_ok s' ∧ sb_view s (rk_id x) = None ∧
      ∀ i, sb_view s' i = if decide (i = rk_id x) then Some x else sb_view s i
  | (Err e, s', _) => ((e = rk_already (rk_id x) ∧ is_Some (sb_view s (rk_id x))) ∨
        (∃ a, e = rk_load_failed a ∨ e = rk_save_failed a) ∨ rk_encode x = Err e) ∧
      sb_ok s' ∧ ∀ i, sb_view s' i = sb_view s i
  | (Panic, s', _) => sb_ok s' ∧ ∀ i, sb_view s' i = sb_view s i
  end.
Proof.
  intros Hs. unfold sb_save. pose proof (with_cache_spec (λ m, m !! rk_id x) s w Hs) as Hw.
  unfold mbind at 1, eff_bind at 1. destruct (sb_with_cache _ s w) as [[[o|e|] s1] w1]; [|naive_solver..].
  destruct Hw as (m & Hm & -> & Hs1 & Hmv & Hv). destruct (m !! rk_id x) as [y|] eqn:Hx.
  - split_and!; [left|done|done]. split; [done|]. rewrite <-Hmv. by eexists.
  - assert (Hp := sb_put_spec rk_save_failed st_save x s1 m w1 Hs1 Hm).
    destruct (sb_put rk_save_failed st_save x s1 w1) as [[[[]|e|] s2] w2].
    + destruct Hp as (Hs2 & Hv2 & _); [intros i; by rewrite Hmv, Hv|apply save_call|]. split; [done|].
      split; [by rewrite <-Hmv|]. intros i. by rewrite Hv2, Hv.
    + destruct Hp as (He & Hs2 & Hv2); [intros i; by rewrite Hmv, Hv|apply save_call|].
      split; [naive_solver|]. split; [done|]. intros i. by rewrite Hv2.
    + destruct Hp as (Hs2 & Hv2); [intros i; by rewrite Hmv, Hv|apply save_call|]. split; [done|]. intros i. by rewrite Hv2.
Qed.

Lemma sb_update_spec x s w :
  sb_ok s →
  match sb_update (E:=E) x s w with
  | (Ok _, s', _) => sb_ok s' ∧ is_Some (sb_view s (rk_id x)) ∧
      ∀ i, sb_view s' i = if decide (i = rk_id x) then Some x else sb_view s i
  | (Err e, s', _) => ((e = rk_not_found (rk_id x) ∧ sb_view s (rk_id x) = None) ∨
        (∃ a, e = rk_load_failed a ∨ e = rk_update_failed a) ∨ rk_encode x = Err e) ∧
      sb_ok s' ∧ ∀ i, sb_view s' i = sb_view s i
  | (Panic, s', _) => sb_ok s' ∧ ∀ i, sb_view s' i = sb_view s i
  end.
Proof.
  intros Hs. unfold sb_update. pose proof (with_cache_spec (λ m, m !! rk_id x) s w Hs) as Hw.
  unfold mbind at 1, eff_bind at 1. destruct (sb_with_cache _ s w) as [[[o|e|] s1] w1]; [|naive_solver..].
  destruct Hw as (m & Hm & -> & Hs1 & Hmv & Hv). destruct (m !! rk_id x) as [y|] eqn:Hx.
  - assert (Hp := sb_put_spec rk_update_failed st_update x s1 m w1 Hs1 Hm).
    destruct (sb_put rk_update_failed st_update x s1 w1) as [[[[]|e|] s2] w2].
    + destruct Hp as (Hs2 & Hv2 & _); [intros i; by rewrite Hmv, Hv|apply update_call|]. split; [done|].
      split; [rewrite <-Hmv; by eexists|]. intros i. by rewrite Hv2, Hv.
    + destruct Hp as (He & Hs2 & Hv2); [intros i; by rewrite Hmv, Hv|apply update_call|].
      split; [naive_solver|]. split; [done|]. intros i. by rewrite Hv2.
    + destruct Hp as (Hs2 & Hv2); [intros i; by rewrite Hmv, Hv|apply update_call|]. split; [done|]. intros i. by rewrite Hv2.
  - split_and!; [left|done|done]. split; [done|]. by rewrite <-Hmv.
Qed.

Lemma sb_delete_spec i s w :
  sb_ok s →
  match sb_delete (E:=E) i s w with
  | (Ok _, s', _) => sb_ok s' ∧ is_Some (sb_view s i) ∧ ∀ j, sb_view s' j = if decide (j = i) then None else sb_view s j
  | (Err e, s', _) => ((e = rk_not_found i ∧ sb_view s i = None) ∨ (∃ a, e = rk_load_failed a ∨ e = rk_delete_failed a)) ∧
      sb_ok s' ∧ ∀ j, sb_view s' j = sb_view s j
  | (Panic, s', _) => sb_ok s' ∧ ∀ j, sb_view s' j = sb_view s j
  end.
Proof.
  intros Hs. unfold sb_delete. pose proof (with_cache_spec (λ m, m !! i) s w Hs) as Hw.
  unfold mbind at 1, eff_bind at 1. destruct (sb_with_cache _ s w) as [[[o|e|] s1] w1]; [|naive_solver..].
  destruct Hw as (m & Hm & -> & Hs1 & Hmv & Hv). destruct (m !! i) as [y|] eqn:Hx.
  - unfold mbind, eff_bind, sb_on_storage, eff_zoom. pose proof (st_delete_law rk_category i (sb_storage s1) w1) as Hd.
    destruct (st_delete rk_category i (sb_storage s1) w1) as [[[[]|e|] st'] w2].
    + unfold sb_modify_cache, eff_modify. cbn [sb_storage sb_cache].
      destruct (sb_write_ok s1 m st' (delete i) i None) as [Hok Hv2]; try done.
      * intros j. unfold stored. rewrite Hd. case_decide as Ha; case_decide as Hb; [done|exfalso; naive_solver|exfalso; naive_solver|done].
      * intros j. case_decide; [subst; by rewrite lookup_delete_eq|by rewrite lookup_delete_ne].
      * split; [exact Hok|]. split; [rewrite <-Hmv; by eexists|]. intros j. by rewrite Hv2, Hv.
    + destruct (sb_same_ok s1 st' Hs1 Hd) as [Hok Hv2]. split; [right; exists e; by right|]. split; [done|]. intros j. by rewrite Hv2.
    + destruct (sb_same_ok s1 st' Hs1 Hd) as [Hok Hv2]. split; [done|]. intros j. by rewrite Hv2.
  - split_and!; [left|done|done]. split; [done|]. by rewrite <-Hmv.
Qed.

#[export] Instance storage_backed_laws : ExchangeRepoLaws SB R E.
Proof.
  refine {| er_ok := sb_ok; er_view := sb_view |}.
  - intros s id x Hs Hx. by eapply sb_view_keyed.
  - intros x s w Hs. pose proof (sb_save_spec x s w Hs) as Hp. cbn. destruct (sb_save x s w) as [[[]?]?]; naive_solver.
  - intros x s w Hs. pose proof (sb_update_spec x s w Hs) as Hp. cbn. destruct (sb_update x s w) as [[[]?]?]; naive_solver.
  - intros i s w Hs. pose proof (with_cache_spec (λ m, m !! i) s w Hs) as Hp. cbn. unfold sb_find_by_id.
    destruct (sb_with_cache _ s w) as [[[]?]?]; naive_solver.
  - intros p s w Hs. cbn. unfold sb_find.
    pose proof (with_cache_spec (λ m, find_first (λ r, p r = true) (repo_record_values m)) s w Hs) as Hp.
    destruct (sb_with_cache _ s w) as [[[o|e|] s'] w']; [|naive_solver..].
    destruct Hp as (m & Hm & -> & Hs' & Hmv & Hv). split; [done|]. split; [done|].
    destruct (find_first _ _) as [x|] eqn:Hf.
    + apply find_first_Some in Hf as [[id Hid]%elem_of_repo_records Hpx]. split; [done|]. rewrite Hmv in Hid.
      by rewrite (sb_view_keyed _ _ _ Hs Hid).
    + rewrite find_first_None in Hf. intros id x Hx. apply not_true_is_false, Hf, elem_of_repo_records. exists id. by rewrite Hmv.
  - intros p s w Hs. pose proof (with_cache_spec (λ m, filter (λ r, p r = true) (repo_record_values m)) s w Hs) as Hp. cbn. unfold sb_filter.
    destruct (sb_with_cache _ s w) as [[[l|e|] s'] w']; [|naive_solver..]. destruct Hp as (m & Hm & -> & Hs' & Hmv & Hv). split; [done|]. split; [done|].
    intros x. rewrite list_elem_of_filter, keyed_record_values, Hmv; [done|]. intros id y. rewrite Hmv. by apply sb_view_keyed.
  - intros s w Hs. pose proof (with_cache_spec repo_record_values s w Hs) as Hp. cbn. unfold sb_get_all.
    destruct (sb_with_cache _ s w) as [[[l|e|] s'] w']; [|naive_solver..]. destruct Hp as (m & Hm & -> & Hs' & Hmv & Hv). split; [done|]. split; [done|].
    intros x. rewrite keyed_record_values, Hmv; [done|]. intros id y. rewrite Hmv. by apply sb_view_keyed.
  - intros i s w Hs. pose proof (sb_delete_spec i s w Hs) as Hp. cbn. destruct (sb_delete i s w) as [[[]?]?]; naive_solver.
Defined.
End backed_laws.

(** * The write-through repository is the in-memory one, made durable *)

Section refinement.
Context `{HashOrder} {ST R E : Type} `{RecordKindLaws R E} `{StorageLaws ST}.
Abbreviation SB := (StorageBacked ST R).

(** A call of a repository, or a restart of the process. *)
Inductive repo_op :=
  | RoSave (x : R) | RoUpdate (x : R) | RoFindById (id : string) | RoFind (p : R → bool) | RoFilter (p : R → bool)
  | RoDelete (id : string) | RoGetAll | RoRestart.
Inductive repo_answer := RaUnit | RaRecord (o : option R) | RaRecords (l : list R).

Definition ro_call {S} `{ExchangeRepo S R E} (restart : S → S) (op : repo_op) : eff E S repo_answer :=
  match op with
  | RoSave x => _ ← er_save x; mret RaUnit
  | RoUpdate x => _ ← er_update x; mret RaUnit
  | RoFindById id => o ← er_find_by_id id; mret (RaRecord o)
  | RoFind p => o ← er_find p; mret (RaRecord o)
  | RoFilter p => l ← er_filter p; mret (RaRecords l)
  | RoDelete id => _ ← er_delete id; mret RaUnit
  | RoGetAll => l ← er_get_all; mret (RaRecords l)
  | RoRestart => _ ← eff_modify restart; mret RaUnit
  end.

(** The process comes back with the storage and without the cache. *)
Definition sb_restart (s : SB) : SB := sb_new (sb_storage s).

(** The answers of the calls of a run. *)
Fixpoint sb_run (ops : list repo_op) (s : SB) (w : World) : list (outcome E repo_answer) :=
  match ops with
  | [] => []
  | op :: ops => let '(o, s, w) := ro_call sb_restart op s w in o :: sb_run ops s w
  end.

(** What a call answers when the storage or the serializer fails. *)
Definition failed_below (o : outcome E repo_answer) : Prop :=
  match o with
  | Ok _ => False
  | Err e => (∃ a, e = rk_load_failed a ∨ e = rk_save_failed a ∨ e = rk_update_failed a ∨ e = rk_delete_failed a) ∨
      ∃ x : R, rk_encode x = Err e
  | Panic => True
  end.

(** The specification: a map of records, on which a call has the in-memory effect and answer, or fails
    below and has none; a restart leaves what the records come back as. *)
Definition mem_restart (m : gmap string R) : gmap string R := rk_reloaded <$> m.
Definition repo_spec_step (m : gmap string R) (op : repo_op) (o : outcome E repo_answer) (m' : gmap string R) : Prop :=
  (∀ w, ∃ w', ro_call mem_restart op m w = (o, m', w')) ∨ (failed_below o ∧ m' = m).
Fixpoint repo_spec_run (m : gmap string R) (ops : list repo_op) (os : list (outcome E repo_answer)) : Prop :=
  match ops, os with
  | [], [] => True
  | op :: ops, o :: os => ∃ m', repo_spec_step m op o m' ∧ repo_spec_run m' ops os
  | _, _ => False
  end.

Definition repo_abstracts (m : gmap string R) (s : SB) : Prop := sb_ok s ∧ ∀ id, m !! id = sb_view s id.

Lemma repo_abstracts_same m s s' : repo_abstracts m s → sb_ok s' → (∀ id, sb_view s' id = sb_view s id) → repo_abstracts m s'.
Proof. intros [_ Hm] Hs' Hv. split; [done|]. intros id. by rewrite Hv. Qed.

Lemma repo_abstracts_eq m m' s : repo_abstracts m s → (∀ id, m' !! id = sb_view s id) → m' = m.
Proof. intros [_ Hm] Hm'. apply map_eq. intros id. by rewrite Hm, Hm'. Qed.

(** Reading calls answer from the map. *)
Lemma read_refines {A} (f : gmap string R → A) (k : A → repo_answer) op m s w :
  repo_abstracts m s → ro_call (S:=gmap string R) mem_restart op = (a ← eff_gets f; mret (k a)) →
  ro_call sb_restart op = (a ← sb_with_cache f; mret (k a)) →
  ∃ m', repo_spec_step m op (ro_call sb_restart op s w).1.1 m' ∧ repo_abstracts m' (ro_call sb_restart op s w).1.2.
Proof.
  intros Hm Hmem Hsb. rewrite Hsb. exists m. pose proof (with_cache_spec (E:=E) f s w (proj1 Hm)) as Hw.
  unfold mbind, eff_bind, mret, eff_ret. destruct (sb_with_cache f s w) as [[[a|e|] s'] w']; cbn [fst snd].
  - destruct Hw as (m0 & _ & -> & Hs' & Hmv & Hv). pose proof (repo_abstracts_eq m m0 s Hm Hmv) as ->. split.
    + left. intros w0. exists w0. by rewrite Hmem.
    + by apply (repo_abstracts_same m s).
  - destruct Hw as ([a ->] & Hs' & Hv). split; [right; split; [left; eauto|done]|by apply (repo_abstracts_same m s)].
  - destruct Hw as (Hs' & Hv). split; [by right|by apply (repo_abstracts_same m s)].
Qed.

(** A call that ends without an effect. *)
Lemma failed_refines m op o s s' :
  repo_abstracts m s → sb_ok s' → (∀ id, sb_view s' id = sb_view s id) →
  failed_below o ∨ (∀ w, ∃ w', ro_call (S:=gmap string R) mem_restart op m w = (o, m, w')) →
  ∃ m', repo_spec_step m op o m' ∧ repo_abstracts m' s'.
Proof.
  intros Hm Hs' Hv Ho. exists m. split; [|by apply (repo_abstracts_same m s)].
  destruct Ho as [Ho|Ho]; [by right|by left].
Qed.

Lemma call_refines m op s w :
  repo_abstracts m s →
  ∃ m', repo_spec_step m op (ro_call sb_restart op s w).1.1 m' ∧ repo_abstracts m' (ro_call sb_restart op s w).1.2.
Proof.
  intros Hm. destruct op as [x|x|i|p|p|i| |]; try (eapply read_refines; [done|reflexivity|reflexivity]).
  - pose proof (sb_save_spec x s w (proj1 Hm)) as Hp. cbn [ro_call er_save storage_backed_repo].
    unfold mbind, eff_bind, mret, eff_ret. destruct (sb_save x s w) as [[[[]|e|] s'] w']; cbn [fst snd].
    + destruct Hp as (Hs' & Hn & Hv). exists (<[rk_id x := x]> m). split.
      * left. intros w0. exists w0. cbn. unfold mbind, eff_bind, mr_save. by rewrite (proj2 Hm), Hn.
      * split; [done|]. intros j. rewrite Hv. case_decide; [subst; by rewrite lookup_insert_eq|].
        rewrite lookup_insert_ne by done. apply Hm.
    + destruct Hp as (He & Hs' & Hv). apply (failed_refines m _ _ s); try done.
      destruct He as [[-> [y Hy]]|[[a He]|He]]; [right|left; left; exists a; naive_solver|left; right; by exists x].
      intros w0. exists w0. cbn. unfold mbind, eff_bind, mr_save. by rewrite (proj2 Hm), Hy.
    + destruct Hp as (Hs' & Hv). apply (failed_refines m _ _ s); try done. by left.
  - pose proof (sb_update_spec x s w (proj1 Hm)) as Hp. cbn [ro_call er_update storage_backed_repo].
    unfold mbind, eff_bind, mret, eff_ret. destruct (sb_update x s w) as [[[[]|e|] s'] w']; cbn [fst snd].
    + destruct Hp as (Hs' & [y Hy] & Hv). exists (<[rk_id x := x]> m). split.
      * left. intros w0. exists w0. cbn. unfold mbind, eff_bind, mr_update. by rewrite (proj2 Hm), Hy.
      * split; [done|]. intros j. rewrite Hv. case_decide; [subst; by rewrite lookup_insert_eq|].
        rewrite lookup_insert_ne by done. apply Hm.
    + destruct Hp as (He & Hs' & Hv). apply (failed_refines m _ _ s); try done.
      destruct He as [[-> Hy]|[[a He]|He]]; [right|left; left; exists a; naive_solver|left; right; by exists x].
      intros w0. exists w0. cbn. unfold mbind, eff_bind, mr_update. by rewrite (proj2 Hm), Hy.
    + destruct Hp as (Hs' & Hv). apply (failed_refines m _ _ s); try done. by left.
  - pose proof (sb_delete_spec i s w (proj1 Hm)) as Hp. cbn [ro_call er_delete storage_backed_repo].
    unfold mbind, eff_bind, mret, eff_ret. destruct (sb_delete i s w) as [[[[]|e|] s'] w']; cbn [fst snd].
    + destruct Hp as (Hs' & [y Hy] & Hv). exists (delete i m). split.
      * left. intros w0. exists w0. cbn. unfold mbind, eff_bind, mr_delete. by rewrite (proj2 Hm), Hy.
      * split; [done|]. intros j. rewrite Hv. case_decide; [subst; by rewrite lookup_delete_eq|].
        rewrite lookup_delete_ne by done. apply Hm.
    + destruct Hp as (He & Hs' & Hv). apply (failed_refines m _ _ s); try done.
      destruct He as [[-> Hy]|[a He]]; [right|left; left; exists a; naive_solver].
      intros w0. exists w0. cbn. unfold mbind, eff_bind, mr_delete. by rewrite (proj2 Hm), Hy.
    + destruct Hp as (Hs' & Hv). apply (failed_refines m _ _ s); try done. by left.
  - exists (mem_restart m). split; [left; intros w0; by exists w0|]. destruct Hm as [Hok Hm].
    split; [split; [apply (sbo_keyed _ Hok)|done]|]. intros i. unfold mem_restart. rewrite lookup_fmap, Hm.
    exact (eq_sym (sb_view_stored s i Hok)).
Qed.

(** C38: The write-through repository is a durable copy of the in-memory one: over any storage that keeps
    the trait's laws, through any sequence of calls and restarts, each call answers what the
    in-memory repository with the same records answers and has the same effect - or reports a
    failure of the storage or the serializer, and has no effect; a restart keeps every record,
    as what it comes back as. *)
Theorem write_through_refines (st : ST) (m : gmap string R) ops w :
  (∀ id, m !! id = stored st id) → (∀ id x, m !! id = Some x → rk_id x = id) →
  repo_spec_run m ops (sb_run ops (sb_new st) w).
Proof.
  intros Hm Hk. assert (Ha : repo_abstracts m (sb_new st)) by (split; [split; [intros id x Hx; apply Hk; by rewrite Hm|done]|exact Hm]).
  clear Hm Hk. revert m w Ha. generalize (sb_new (R:=R) st) as s. induction ops as [|op ops IH]; intros s m w Ha; [done|].
  cbn [sb_run]. destruct (call_refines m op s w Ha) as (m' & Hstep & Ha').
  destruct (ro_call sb_restart op s w) as [[o s'] w']. exists m'. split; [exact Hstep|]. by apply IH.
Qed.
End refinement.

(** * A run over the in-memory storage *)

(** Records that are their own text, keyed by it. *)
Definition toy_kind : RecordKind string string := {|
  rk_key := {| rk_id s := s; rk_already s := "already " +:+ s; rk_not_found s := "no " +:+ s |};
  rk_category := "toys"; rk_tags _ := ∅; rk_encode s := Ok s; rk_decode := Some; rk_load_failed := ag_to_string; rk_save_failed := ag_to_string;
  rk_update_failed := ag_to_string; rk_delete_failed := ag_to_string
|}.
#[local] Existing Instances plain_order toy_kind.
#[local] Instance toy_kind_laws : RecordKindLaws string string.
Proof. apply exact_kind_laws. by intros x v [= <-]. Defined.

Definition toy_ops : list (repo_op (R:=string)) :=
  [RoSave "a"; RoSave "a"; RoSave "b"; RoRestart; RoFindById "a"; RoDelete "a"; RoRestart; RoGetAll; RoUpdate "a"].
Abbreviation toy_run := (sb_run (R:=string) (E:=string) (ST:=gmap string (gmap string AgentRecord)) toy_ops (sb_new ∅) world0).

Example toy_answers :
  toy_run = [Ok RaUnit; Err "already a"; Ok RaUnit; Ok RaUnit; Ok (RaRecord (Some "a")); Ok RaUnit; Ok RaUnit; Ok (RaRecords ["b"]); Err "no a"].
Proof. vm_compute. reflexivity. Qed.

Lemma write_through_refines_witness : repo_spec_run (R:=string) (E:=string) ∅ toy_ops toy_run.
Proof. apply (write_through_refines (∅ : gmap string (gmap string AgentRecord)) ∅ toy_ops world0); by intros. Defined.
