(* ===== verification/RecordSpec.v ===== *)
(** Services over a repository of records: what a call does to the records, and runs of calls.

    A protocol is given by the records that may be created ([born]) and the changes a record
    may take ([step]).  The lemmas of this file take a service's methods apart, call by call:
    what does not touch the repository is quiet, a save must create a born record, an update
    must be a step.  A handler or a run of calls is a path of such changes. *)
From S2P Require Import Prelude Storage RecordRepo.

(** An answer that a component gave in some state of its own. *)
Definition answers {E T A} (m : eff E T A) (a : A) : Prop := ∃ t w t' w', m t w = (Ok a, t', w').

Section spec.
Context {RS R E : Type} `{RecordKey R E} `{!ExchangeRepo RS R E} `{!ExchangeRepoLaws RS R E}.
Abbreviation View := (string → option R).

(** What one call may do to the record under an id. *)
Inductive record_change (born : R → Prop) (step : R → R → Prop) (gone : R → Prop) : option R → option R → Prop :=
  | change_none o : record_change born step gone o o
  | change_born x : born x → record_change born step gone None (Some x)
  | change_step x y : step x y → record_change born step gone (Some x) (Some y)
  | change_gone x : gone x → record_change born step gone (Some x) None.
#[export] Instance record_change_refl born step gone : Reflexive (record_change born step gone).
Proof. intros o. constructor. Qed.

Section service.
Context {T : Type} `{!HasRepo T RS}.

Definition rs_ok (s : T) : Prop := er_ok (repo_of s).
Definition rs_view (s : T) : View := er_view (repo_of s).

(** From the records [v], a call changes each record by [Q] and answers as [F] says. *)
Definition from_view {E' A} (v : View) (m : eff E' T A) (F : A → Prop) (Q : option R → option R → Prop) : Prop :=
  ∀ s w, rs_ok s → (∀ id, rs_view s id = v id) →
    let '(r, s', _) := m s w in
    rs_ok s' ∧ (∀ id, Q (v id) (rs_view s' id)) ∧ ∀ a, r = Ok a → F a.
Definition quiet {E' A} (v : View) (m : eff E' T A) (F : A → Prop) : Prop := from_view v m F eq.

Lemma from_bind {E' A B} v (m : eff E' T A) (k : A → eff E' T B) F G Q :
  Reflexive Q → quiet v m F → (∀ a, F a → from_view v (k a) G Q) → from_view v (m ≫= k) G Q.
Proof.
  intros Hrefl Hm Hk s w Hs Hv. specialize (Hm s w Hs Hv). unfold mbind, eff_bind.
  destruct (m s w) as [[[a|e|] s1] w1]; destruct Hm as (Hs1 & Hv1 & HF).
  - specialize (Hk a (HF a eq_refl) s1 w1 Hs1). apply Hk. intros id. by rewrite <-Hv1.
  - split; [done|]. split; [|done]. intros id. rewrite <-Hv1. apply Hrefl.
  - split; [done|]. split; [|done]. intros id. rewrite <-Hv1. apply Hrefl.
Qed.

Lemma from_bind_quiet {E' A B} v (m : eff E' T A) (k : A → eff E' T B) F G Q :
  from_view v m F Q → (∀ a v', F a → quiet v' (k a) G) → from_view v (m ≫= k) G Q.
Proof.
  intros Hm Hk s w Hs Hv. specialize (Hm s w Hs Hv). unfold mbind, eff_bind.
  destruct (m s w) as [[[a|e|] s1] w1]; destruct Hm as (Hs1 & Hv1 & HF); [|by split_and!..].
  specialize (Hk a (rs_view s1) (HF a eq_refl) s1 w1 Hs1 (λ id, eq_refl)).
  destruct (k a s1 w1) as [[r s2] w2]. destruct Hk as (Hs2 & Hv2 & HG). split; [done|]. split; [|done].
  intros id. rewrite <-Hv2. apply Hv1.
Qed.

Lemma from_conseq {E' A} v (m : eff E' T A) F F' (Q Q' : option R → option R → Prop) :
  from_view v m F Q → (∀ a, F a → F' a) → (∀ o o', Q o o' → Q' o o') → from_view v m F' Q'.
Proof.
  intros Hm HF HQ s w Hs Hv. specialize (Hm s w Hs Hv). destruct (m s w) as [[r s1] w1]. destruct Hm as (Hs1 & Hv1 & HFa).
  split; [done|]. split; [|by intros a Ha; apply HF, HFa]. intros id. apply HQ, Hv1.
Qed.

Lemma quiet_from {E' A} v (m : eff E' T A) F Q : Reflexive Q → quiet v m F → from_view v m F Q.
Proof. intros HQ Hm. eapply from_conseq; [exact Hm|done|]. by intros o o' ->. Qed.

(** ** Quiet calls *)

(** What keeps the repository, whatever else it does. *)
Lemma quiet_any {E' A} v (m : eff E' T A) : (∀ s w, repo_of (m s w).1.2 = repo_of s) → quiet v m (λ a, ∃ s w s' w', m s w = (Ok a, s', w')).
Proof.
  intros Hm s w Hs Hv. specialize (Hm s w). destruct (m s w) as [[r s'] w'] eqn:Hr. cbn in Hm. unfold rs_ok, rs_view in *. rewrite Hm.
  split; [done|]. split; [by intros id; rewrite Hv|]. intros a ->. eauto.
Qed.
Lemma quiet_ret {E' A} v (a : A) : quiet v (mret (M:=eff E' T) a) (λ b, b = a).
Proof. intros s w Hs Hv. split; [done|]. split; [by intros id; rewrite Hv|]. by intros ? [= ->]. Qed.
Lemma quiet_throw {E' A} v (e : E') (F : A → Prop) : quiet v (eff_throw e) F.
Proof. intros s w Hs Hv. split; [done|]. split; [by intros id; rewrite Hv|done]. Qed.
Lemma quiet_lift {E' A} v (r : outcome E' A) : quiet v (eff_lift r) (λ a, r = Ok a).
Proof. intros s w Hs Hv. split; [done|]. split; [by intros id; rewrite Hv|done]. Qed.
Lemma quiet_world {E' A} v (f : World → A * World) : quiet v (eff_world (E:=E') f) (λ a, ∃ w w', f w = (a, w')).
Proof.
  intros s w Hs Hv. unfold eff_world. destruct (f w) as [a w'] eqn:Hf. split; [done|]. split; [by intros id; rewrite Hv|].
  intros b [= <-]. eauto.
Qed.
Lemma quiet_modify {E'} v (f : T → T) : (∀ s, repo_of (f s) = repo_of s) → quiet v (eff_modify (E:=E') f) (λ _, True).
Proof. intros Hf. eapply from_conseq; [apply quiet_any; intros; apply Hf|done|done]. Qed.

Lemma quiet_catch {E' A} v (m : eff E' T A) F : quiet v m F → quiet v (eff_catch m) (λ r, match r with inr a => F a | inl _ => True end).
Proof.
  intros Hm s w Hs Hv. specialize (Hm s w Hs Hv). unfold eff_catch.
  destruct (m s w) as [[[a|e|] s'] w']; destruct Hm as (Hs' & Hv' & HF); (split; [done|]; split; [done|]); intros ? [= <-]; auto.
Qed.

(** A call of another part of the state. *)
Lemma quiet_zoom {E1 E2 P A} v (get : T → P) (set : P → T → T) (err : E1 → E2) (m : eff E1 P A) :
  (∀ p s, repo_of (set p s) = repo_of s) → quiet v (eff_zoom get set err m) (answers m).
Proof.
  intros Hset s w Hs Hv. unfold eff_zoom, rs_ok, rs_view in *. destruct (m (get s) w) as [[[a|e|] p] w'] eqn:Hm;
    cbn; rewrite Hset; (split; [done|]; split; [by intros id; rewrite Hv|]); [|done..].
  intros b [= <-]. by exists (get s), w, p, w'.
Qed.

(** ** The repository *)

Ltac of_repo :=
  unfold on_records, eff_zoom, rs_ok, rs_view in *; cbn; rewrite ?repo_of_with.

Lemma quiet_find_by_id v i : quiet v (on_records (er_find_by_id i)) (λ o, o = v i).
Proof.
  intros s w Hs Hv. of_repo. pose proof (er_find_by_id_law i (repo_of s) w Hs) as Hl.
  destruct (er_find_by_id i (repo_of s) w) as [[[o|e|] r] w']; destruct Hl as (Hr & Hl); of_repo.
  - destruct Hl as [-> Hl]. split; [done|]. split; [intros id; by rewrite <-Hv; symmetry; apply Hl|]. intros ? [= <-]. by rewrite <-Hv.
  - split; [done|]. split; [intros id; by rewrite <-Hv; symmetry; apply Hl|done].
  - split; [done|]. split; [intros id; by rewrite <-Hv; symmetry; apply Hl|done].
Qed.

Lemma quiet_find v p :
  quiet v (on_records (er_find p))
    (λ o, match o with Some x => p x = true ∧ v (rk_id x) = Some x | None => ∀ id x, v id = Some x → p x = false end).
Proof.
  intros s w Hs Hv. of_repo. pose proof (er_find_law p (repo_of s) w Hs) as Hl.
  destruct (er_find p (repo_of s) w) as [[[o|e|] r] w']; destruct Hl as (Hr & Hl); of_repo.
  - destruct Hl as [Hl Ho]. split; [done|]. split; [intros id; by rewrite <-Hv; symmetry; apply Hl|]. intros ? [= <-].
    destruct o as [x|]; [by rewrite <-Hv|]. intros id x Hx. rewrite <-Hv in Hx. by eapply Ho.
  - split; [done|]. split; [intros id; by rewrite <-Hv; symmetry; apply Hl|done].
  - split; [done|]. split; [intros id; by rewrite <-Hv; symmetry; apply Hl|done].
Qed.

Lemma quiet_filter v p : quiet v (on_records (er_filter p)) (λ l, ∀ x, x ∈ l ↔ p x = true ∧ v (rk_id x) = Some x).
Proof.
  intros s w Hs Hv. of_repo. pose proof (er_filter_law p (repo_of s) w Hs) as Hl.
  destruct (er_filter p (repo_of s) w) as [[[l|e|] r] w']; destruct Hl as (Hr & Hl); of_repo;
    (split; [done|]); (split; [intros id; rewrite <-Hv; symmetry; first [apply Hl|apply (proj1 Hl)]|]); [|done..].
  intros ? [= <-] x. rewrite <-Hv. apply Hl.
Qed.
Lemma quiet_get_all v : quiet v (on_records er_get_all) (λ l, ∀ x, x ∈ l ↔ v (rk_id x) = Some x).
Proof.
  intros s w Hs Hv. of_repo. pose proof (er_get_all_law (repo_of s) w Hs) as Hl.
  destruct (er_get_all (repo_of s) w) as [[[l|e|] r] w']; destruct Hl as (Hr & Hl); of_repo;
    (split; [done|]); (split; [intros id; rewrite <-Hv; symmetry; first [apply Hl|apply (proj1 Hl)]|]); [|done..].
  intros ? [= <-] x. rewrite <-Hv. apply Hl.
Qed.

(** The records are kept under their ids. *)
Lemma quiet_keyed {E' A} v (m : eff E' T A) (F : A → Prop) :
  ((∀ i x, v i = Some x → rk_id x = i) → quiet v m F) → quiet v m F.
Proof.
  intros Hm s w Hs Hv. apply Hm; [|done|done]. intros i x Hx. rewrite <-Hv in Hx. by apply (er_keyed (repo_of s) i x).
Qed.

Context (born : R → Prop) (step : R → R → Prop) (gone : R → Prop).
Abbreviation change := (record_change born step gone).

Lemma from_update v r :
  (∀ x, v (rk_id r) = Some x → step x r) → from_view v (on_records (er_update r)) (λ _, True) change.
Proof.
  intros Hr s w Hs Hv. of_repo. pose proof (er_update_law r (repo_of s) w Hs) as Hl.
  destruct (er_update r (repo_of s) w) as [[[[]|e|] rs] w']; of_repo.
  - destruct Hl as (Hrs & [x Hx] & Hl). split; [done|]. split; [|done]. intros id. rewrite Hl.
    case_decide as Hid; [|rewrite <-Hv; constructor]. subst id. rewrite <-Hv, Hx. constructor. apply Hr. by rewrite <-Hv.
  - destruct Hl as (Hrs & Hl). split; [done|]. split; [|done]. intros id. rewrite Hl, <-Hv. constructor.
  - destruct Hl as (Hrs & Hl). split; [done|]. split; [|done]. intros id. rewrite Hl, <-Hv. constructor.
Qed.
Lemma from_save v r : born r → from_view v (on_records (er_save r)) (λ _, True) change.
Proof.
  intros Hr s w Hs Hv. of_repo. pose proof (er_save_law r (repo_of s) w Hs) as Hl.
  destruct (er_save r (repo_of s) w) as [[[[]|e|] rs] w']; of_repo.
  - destruct Hl as (Hrs & Hx & Hl). split; [done|]. split; [|done]. intros id. rewrite Hl.
    case_decide as Hid; [|rewrite <-Hv; constructor]. subst id. rewrite <-Hv, Hx. by constructor.
  - destruct Hl as (Hrs & Hl). split; [done|]. split; [|done]. intros id. rewrite Hl, <-Hv. constructor.
  - destruct Hl as (Hrs & Hl). split; [done|]. split; [|done]. intros id. rewrite Hl, <-Hv. constructor.
Qed.
Lemma from_delete v i : (∀ x, v i = Some x → gone x) → from_view v (on_records (er_delete i)) (λ _, True) change.
Proof.
  intros Hi s w Hs Hv. of_repo. pose proof (er_delete_law i (repo_of s) w Hs) as Hl.
  destruct (er_delete i (repo_of s) w) as [[[[]|e|] rs] w']; of_repo.
  - destruct Hl as (Hrs & [x Hx] & Hl). split; [done|]. split; [|done]. intros id. rewrite Hl.
    case_decide as Hid; [|rewrite <-Hv; constructor]. subst id. rewrite <-Hv, Hx. constructor. apply Hi. by rewrite <-Hv.
  - destruct Hl as (Hrs & Hl). split; [done|]. split; [|done]. intros id. rewrite Hl, <-Hv. constructor.
  - destruct Hl as (Hrs & Hl). split; [done|]. split; [|done]. intros id. rewrite Hl, <-Hv. constructor.
Qed.

(** ** Paths of changes *)

(** Between two states every record took steps of the machine. *)
Definition record_path (s s' : T) : Prop := rs_ok s' ∧ ∀ id, rtc change (rs_view s id) (rs_view s' id).
Definition paths {E' A} (m : eff E' T A) : Prop := ∀ s w, rs_ok s → record_path s (m s w).1.2.

Lemma record_path_refl s : rs_ok s → record_path s s.
Proof. by split. Qed.
Lemma record_path_trans s s1 s2 : record_path s s1 → record_path s1 s2 → record_path s s2.
Proof. intros [_ H1'] [Hok H2']. split; [done|]. intros id. by trans (rs_view s1 id). Qed.

Lemma paths_same {E' A} (m : eff E' T A) : (∀ s w, repo_of (m s w).1.2 = repo_of s) → paths m.
Proof. intros Hm s w Hs. unfold record_path, rs_ok, rs_view. rewrite Hm. by split. Qed.
Lemma paths_bind {E' A B} (m : eff E' T A) (k : A → eff E' T B) : paths m → (∀ a, paths (k a)) → paths (m ≫= k).
Proof.
  intros Hm Hk s w Hs. specialize (Hm s w Hs). unfold mbind, eff_bind.
  destruct (m s w) as [[[a|e|] s1] w1]; [|exact Hm..]. cbn in Hm. eapply record_path_trans; [exact Hm|]. by apply Hk, Hm.
Qed.
Lemma paths_catch {E' A} (m : eff E' T A) : paths m → paths (eff_catch m).
Proof. intros Hm s w Hs. specialize (Hm s w Hs). unfold eff_catch. by destruct (m s w) as [[[a|e|] s1] w1]. Qed.
Lemma paths_steps {E' A} (m : eff E' T A) : (∀ v, from_view v m (λ _, True) change) → paths m.
Proof.
  intros Hm s w Hs. specialize (Hm (rs_view s) s w Hs (λ id, eq_refl)).
  destruct (m s w) as [[r s'] w']. destruct Hm as (Hs' & Hv & _). split; [done|]. intros id. by apply rtc_once.
Qed.

(** ** Calls one after the other *)

(** From the records [v], a call takes every record along the machine, and leaves the answer
    and the records as [F] says; what is known of the records is known to the next call. *)
Definition evolves {E' A} (v : View) (m : eff E' T A) (F : A → View → Prop) : Prop :=
  ∀ s w, rs_ok s → (∀ id, rs_view s id = v id) →
    let '(r, s', _) := m s w in
    rs_ok s' ∧ (∀ id, rtc change (v id) (rs_view s' id)) ∧
    ∀ a, r = Ok a → ∃ v', (∀ id, rs_view s' id = v' id) ∧ F a v'.

Lemma evolves_bind {E' A B} v (m : eff E' T A) (k : A → eff E' T B) F G :
  evolves v m F → (∀ a v', F a v' → evolves v' (k a) G) → evolves v (m ≫= k) G.
Proof.
  intros Hm Hk s w Hs Hv. specialize (Hm s w Hs Hv). unfold mbind, eff_bind.
  destruct (m s w) as [[[a|e|] s1] w1]; destruct Hm as (Hs1 & Hv1 & HF); [|by split_and!..].
  destruct (HF a eq_refl) as (v1 & Hv1' & HFa). specialize (Hk a v1 HFa s1 w1 Hs1 Hv1').
  destruct (k a s1 w1) as [[r s2] w2]. destruct Hk as (Hs2 & Hv2 & HG). split; [done|]. split; [|done].
  intros id. etrans; [apply Hv1|]. rewrite Hv1'. apply Hv2.
Qed.
Lemma evolves_conseq {E' A} v (m : eff E' T A) F G : evolves v m F → (∀ a v', F a v' → G a v') → evolves v m G.
Proof.
  intros Hm HF s w Hs Hv. specialize (Hm s w Hs Hv). destruct (m s w) as [[r s1] w1]. destruct Hm as (Hs1 & Hv1 & HFa).
  split; [done|]. split; [done|]. intros a Ha. destruct (HFa a Ha) as (v' & Hv' & Hx). exists v'. auto.
Qed.
Lemma evolves_quiet {E' A} v (m : eff E' T A) F : quiet v m F → evolves v m (λ a v', F a ∧ v' = v).
Proof.
  intros Hm s w Hs Hv. specialize (Hm s w Hs Hv). destruct (m s w) as [[r s1] w1]. destruct Hm as (Hs1 & Hv1 & HFa).
  split; [done|]. split; [intros id; by rewrite <-Hv1|]. intros a Ha. exists v. split; [intros id; by rewrite <-Hv1|auto].
Qed.
(** One change. *)
Lemma evolves_from {E' A} v (m : eff E' T A) F : from_view v m F change → evolves v m (λ a _, F a).
Proof.
  intros Hm s w Hs Hv. specialize (Hm s w Hs Hv). destruct (m s w) as [[r s1] w1]. destruct Hm as (Hs1 & Hv1 & HF).
  split; [done|]. split; [intros id; by apply rtc_once|]. intros a Ha. exists (rs_view s1). auto.
Qed.
Lemma evolves_catch {E' A} v (m : eff E' T A) F : evolves v m F → evolves v (eff_catch m) (λ _ _, True).
Proof.
  intros Hm s w Hs Hv. specialize (Hm s w Hs Hv). unfold eff_catch.
  destruct (m s w) as [[[a|e|] s1] w1]; destruct Hm as (Hs1 & Hv1 & HF); (split; [done|]); (split; [done|]);
    intros ? [= <-]; by exists (rs_view s1).
Qed.
Lemma evolves_update v r x :
  v (rk_id r) = Some x → step x r → evolves v (on_records (er_update r)) (λ _ v', v' (rk_id r) = Some r).
Proof.
  intros Hx Hst s w Hs Hv. of_repo. pose proof (er_update_law r (repo_of s) w Hs) as Hl.
  destruct (er_update r (repo_of s) w) as [[[[]|e|] rs] w']; of_repo; (split; [apply Hl|]); (split; [|intros ? [=]]).
  - intros id. destruct Hl as (_ & _ & Hl). rewrite Hl. case_decide as Hid; [subst id; rewrite Hx; by apply rtc_once, change_step|by rewrite <-Hv].
  - exists (er_view rs). split; [done|]. destruct Hl as (_ & _ & Hl). by rewrite Hl, decide_True.
  - intros id. destruct Hl as (_ & Hl). by rewrite Hl, <-Hv.
  - intros id. destruct Hl as (_ & Hl). by rewrite Hl, <-Hv.
Qed.
Lemma evolves_save v r : born r → evolves v (on_records (er_save r)) (λ _ v', v' (rk_id r) = Some r).
Proof.
  intros Hr s w Hs Hv. of_repo. pose proof (er_save_law r (repo_of s) w Hs) as Hl.
  destruct (er_save r (repo_of s) w) as [[[[]|e|] rs] w']; of_repo; (split; [apply Hl|]); (split; [|intros ? [=]]).
  - intros id. destruct Hl as (_ & Hx & Hl). rewrite Hl. case_decide as Hid; [|by rewrite <-Hv].
    subst id. rewrite <-Hv, Hx. by apply rtc_once, change_born.
  - exists (er_view rs). split; [done|]. destruct Hl as (_ & _ & Hl). by rewrite Hl, decide_True.
  - intros id. destruct Hl as (_ & Hl). by rewrite Hl, <-Hv.
  - intros id. destruct Hl as (_ & Hl). by rewrite Hl, <-Hv.
Qed.
Lemma evolves_delete v i : (∀ x, v i = Some x → gone x) → evolves v (on_records (er_delete i)) (λ _ _, True).
Proof.
  intros Hi s w Hs Hv. pose proof (from_delete v i Hi s w Hs Hv) as Hd. destruct (on_records (er_delete i) s w) as [[r s1] w1].
  destruct Hd as (Hs1 & Hv1 & _). split; [done|]. split; [intros id; apply rtc_once, Hv1|]. intros a _. by exists (rs_view s1).
Qed.
Lemma paths_evolves {E' A} (m : eff E' T A) F : (∀ v, evolves v m F) → paths m.
Proof.
  intros Hm s w Hs. specialize (Hm (rs_view s) s w Hs (λ id, eq_refl)).
  destruct (m s w) as [[r s'] w']. destruct Hm as (Hs' & Hv & _). by split.
Qed.
End service.

(** A call of a part that has the repository: what it does there, the whole does. *)
Lemma evolves_zoom {T T'} `{!HasRepo T RS, !HasRepo T' RS} {E1 E2 A} born step gone (get : T' → T) (set : T → T' → T') (err : E1 → E2)
    v (m : eff E1 T A) F :
  (∀ s, repo_of (get s) = repo_of s) → (∀ t s, repo_of (set t s) = repo_of t) →
  evolves born step gone v m F → evolves born step gone v (eff_zoom get set err m) F.
Proof.
  intros Hget Hset Hm s w Hs Hv. specialize (Hm (get s) w). unfold rs_ok, rs_view in *. rewrite Hget in Hm. specialize (Hm Hs Hv).
  unfold eff_zoom. destruct (m (get s) w) as [[[a|e|] t] w']; destruct Hm as (Hs' & Hv' & HF); cbn; rewrite Hset; split_and!; try done.
  intros b [= ->]. apply HF. done.
Qed.

Lemma paths_zoom {T T'} `{!HasRepo T RS, !HasRepo T' RS} {E1 E2 A} born step gone (get : T' → T) (set : T → T' → T') (err : E1 → E2) (m : eff E1 T A) :
  (∀ s, repo_of (get s) = repo_of s) → (∀ t s, repo_of (set t s) = repo_of t) →
  paths born step gone m → paths born step gone (eff_zoom get set err m).
Proof.
  intros Hget Hset Hm s w Hs. specialize (Hm (get s) w). unfold rs_ok in *. rewrite Hget in Hm. specialize (Hm Hs).
  unfold record_path, rs_ok, rs_view, eff_zoom in *. rewrite Hget in Hm.
  destruct (m (get s) w) as [[[a|e|] t] w']; cbn in *; by rewrite Hset.
Qed.

(** What holds of born records and is kept by steps holds of all, and what orders steps orders the ends. *)
Lemma change_path_invariant born step gone (P : R → Prop) o o' :
  (∀ x, born x → P x) → (∀ x y, step x y → P x → P y) →
  rtc (record_change born step gone) o o' → (∀ x, o = Some x → P x) → ∀ y, o' = Some y → P y.
Proof.
  intros Hb Hs. induction 1 as [o|o o1 o2 Hc _ IH]; intros Ho; [done|]. apply IH. intros y ->.
  inversion Hc; subst; [by apply Ho|by apply Hb|]. eapply Hs; [done|by apply Ho].
Qed.
Lemma change_path_order born step (Le : R → R → Prop) o o' :
  Reflexive Le → Transitive Le → (∀ x y, step x y → Le x y) →
  rtc (record_change born step (λ _, False)) o o' → ∀ x, o = Some x → ∃ y, o' = Some y ∧ Le x y.
Proof.
  intros Hr Ht Hs. induction 1 as [o|o o1 o2 Hc _ IH]; intros x Hx; [by exists x|].
  inversion Hc; simplify_eq; [by apply IH| |done].
  edestruct IH as (z & Hz & Hl); [done|]. exists z. split; [done|]. etrans; [by apply Hs|done].
Qed.
End spec.

(** The next call of a method is quiet, with the given lemma for its answer. *)
Tactic Notation "quietly" uconstr(lem) := eapply from_bind; [typeclasses eauto|apply lem|cbv beta].

(** * Runs of calls *)

(** A later reading of the clock and the random source. *)
Definition world_le (w w' : World) : Prop := w_uuid w' = w_uuid w ∧ w_un w ≤ w_un w'.
#[export] Instance world_le_refl : Reflexive world_le.
Proof. by split. Qed.
#[export] Instance world_le_trans : Transitive world_le.
Proof. intros w1 w2 w3 [H1 L1] [H2 L2]. split; [by rewrite H2|lia]. Qed.

Section memory_runs.
Context `{HashOrder} `{UuidText} {R E : Type} `{RecordKey R E} (thread : R → string).
Implicit Types (m : gmap string R) (x y : R).

Definition uuid_text (w : World) (n : nat) : string := uuid_to_string (w_uuid w n).
Definition next_id (w : World) : string := uuid_text w (w_un w).

(** The only record of a thread. *)
Definition only_of m x : Prop :=
  m !! rk_id x = Some x ∧ ∀ i y, m !! i = Some y → thread y = thread x → i = rk_id x.
(** The ids that are drawn from now on are new to the repository. *)
Definition fresh_for m (w : World) : Prop :=
  ∀ n, w_un w ≤ n → m !! uuid_text w n = None ∧ ∀ k x, m !! k = Some x → thread x ≠ uuid_text w n.

Lemma fresh_for_later m w w' : world_le w w' → fresh_for m w → fresh_for m w'.
Proof. intros [Hu Hn] Hf n Hle. unfold uuid_text. rewrite Hu. apply Hf. lia. Qed.

(** A search that only records of the thread answer finds its only record. *)
Lemma find_only m p x :
  only_of m x → p x = true → (∀ y, p y = true → thread y = thread x) →
  find_first (λ r, p r = true) (repo_record_values m) = Some x.
Proof.
  intros [Hx Hu] Hp Hth. destruct (find_first_is_Some (λ r, p r = true) (repo_record_values m) x) as [y Hy]; [|done|].
  - apply elem_of_repo_records. eauto.
  - rewrite Hy. apply find_first_Some in Hy as [[k Hk]%elem_of_repo_records Ht]. pose proof (Hu k y Hk (Hth y Ht)) as ->. congruence.
Qed.

Lemma only_of_insert m x y : only_of m x → rk_id y = rk_id x → thread y = thread x → only_of (<[rk_id y := y]> m) y.
Proof.
  intros [Hx Hu] Hid Ht. split; [by rewrite lookup_insert_eq|]. intros k z [[<- _]|[Hne Hz]]%lookup_insert_Some Hzt; [done|].
  rewrite Hid. apply (Hu k z Hz). congruence.
Qed.
Lemma only_of_new m x : m !! rk_id x = None → (∀ k y, m !! k = Some y → thread y ≠ thread x) → only_of (<[rk_id x := x]> m) x.
Proof.
  intros Hid Ht. split; [by rewrite lookup_insert_eq|]. intros k y [[<- _]|[_ Hy]]%lookup_insert_Some Hyt; [done|].
  by destruct (Ht k y Hy).
Qed.

Lemma new_id_run {E' T} (s : T) w : ∃ w', new_id (E:=E') s w = (Ok (uuid_text w (w_un w)), s, w') ∧ world_le w w' ∧ w_un w' = S (w_un w).
Proof. eexists. split; [reflexivity|]. split; [split; [done|cbn; lia]|done]. Qed.
End memory_runs.
