(* ===== verification/SerdeJson.v ===== *)
(** The crates [serde_json] and [base64] as the protocols use them: values as text, the
    derived serializers of a type, and the standard base64 engine.

    A concrete text for JSON values, for witnesses: the bits of stdpp's code of the tree of the
    value.  It meets the laws that are asked of [serde_json]. *)
From Stdlib Require Import Ascii.
From stdpp Require Import countable.
From S2P Require Import Prelude AjnaTypes StdText.

(** [serde_json::to_string] and [serde_json::from_str] of a [Value]; an error is its text. *)
Class JsonText := {
  json_print : Json → string;
  json_parse : string → outcome string Json
}.

(** A value without floating-point numbers. *)
Fixpoint json_exact (v : Json) : Prop :=
  match v with
  | JFloat _ => False
  | JArray l => (fix go (l : list Json) := match l with [] => True | x :: l => json_exact x ∧ go l end) l
  | JObject l =>
      (fix go (l : list (string * Json)) := match l with [] => True | (_, x) :: l => json_exact x ∧ go l end) l
  | _ => True
  end.

(** A value that was read is read again from its text (a float may lose a bit). *)
Class JsonTextLaws `{JsonText} : Prop := {
  json_reparse s v : json_parse s = Ok v → json_exact v → json_parse (json_print v) = Ok v
}.

(** The serializer and the deserializer of a type, to and from values and text. *)
Class Serde (A : Type) := {
  sd_to_value : A → outcome string Json;
  sd_from_value : Json → outcome string A;
  sd_to_text : A → outcome string string;
  sd_from_text : string → outcome string A
}.

(** What is written is read back, also when the text passed through a [Value]. *)
Class SerdeLaws (A : Type) `{JsonText} `{Serde A} : Prop := {
  sd_value_back a v : sd_to_value a = Ok v → sd_from_value v = Ok a;
  sd_text_back a s : sd_to_text a = Ok s → sd_from_text s = Ok a;
  sd_value_text a v : sd_to_value a = Ok v → sd_from_text (json_print v) = Ok a;
  sd_text_value a s : sd_to_text a = Ok s →
    ∃ v, json_parse s = Ok v ∧ sd_from_text (json_print v) = Ok a
}.

(** [base64::engine::general_purpose::STANDARD]. *)
Class Base64Engine := {
  b64_encode : string → string;
  b64_decode : string → option string
}.
Class Base64EngineLaws `{Base64Engine} : Prop := { b64_decode_encode s : b64_decode (b64_encode s) = Some s }.

(** [Value::as_u64], [Value::as_bool], [Value::as_array]. *)
Definition json_as_u64 (v : Json) : option N := match v with JPosInt n => Some n | _ => None end.
Definition json_as_bool (v : Json) : option bool := match v with JBool b => Some b | _ => None end.
Definition json_as_array (v : Json) : option (list Json) := match v with JArray l => Some l | _ => None end.

(** [json!] of a string, an option and a list. *)
Definition json_of_option (o : option string) : Json := match o with Some s => JString s | None => JNull end.

(** * Derived deserializers of small types

    [serde_json::from_value] on a type with a derived [Deserialize]: a struct is read from
    an object, or from an array of its fields in order; a unit variant from its name, or
    from an object with the name as its only key and [null] as the value. *)
Definition sv_strings (v : Json) : option (list string) := l ← json_as_array v; mapM json_as_str l.

Definition sv_struct1 (k : string) (v : Json) : option string :=
  match v with
  | JObject _ => json_get k v ≫= json_as_str
  | JArray [x] => json_as_str x
  | _ => None
  end.
Definition sv_struct2 (k1 k2 : string) (v : Json) : option (string * string) :=
  match v with
  | JObject _ => x ← json_get k1 v ≫= json_as_str; y ← json_get k2 v ≫= json_as_str; Some (x, y)
  | JArray [x; y] => x ← json_as_str x; y ← json_as_str y; Some (x, y)
  | _ => None
  end.

Definition variant_of {A} (table : list (string * A)) (s : string) : option A :=
  snd <$> find_first (λ p, p.1 = s) table.
Definition sv_variant {A} (table : list (string * A)) (v : Json) : option A :=
  match v with
  | JString s => variant_of table s
  | JObject [(k, JNull)] => variant_of table k
  | _ => None
  end.

(** A string of bytes. *)
Definition string_of_bytes (l : list N) : string := String.string_of_list_ascii (Ascii.ascii_of_N <$> l).

(** Looking a key up, entry by entry. *)
Lemma json_get_cons k k' v l :
  json_get k (JObject ((k', v) :: l)) = if String.eqb k' k then Some v else json_get k (JObject l).
Proof.
  unfold json_get. cbn [list_find]. destruct (String.eqb_spec k' k) as [He|He].
  - by rewrite decide_True by exact He.
  - rewrite decide_False by exact He. by destruct (list_find _ l) as [[? ?]|].
Qed.
Ltac json_keys := repeat (rewrite json_get_cons; cbn [String.eqb Ascii.eqb Bool.eqb]).

(** * JSON objects *)

(** [serde_json::Map::insert]. *)
Fixpoint obj_insert (key : string) (value : Json) (o : list (string * Json)) : list (string * Json) :=
  match o with
  | [] => [(key, value)]
  | kv :: o => if decide (kv.1 = key) then (key, value) :: o else kv :: obj_insert key value o
  end.
Definition obj_insert_all (entries o : list (string * Json)) : list (string * Json) :=
  foldl (λ o kv, obj_insert kv.1 kv.2 o) o entries.

(** [obj.get_mut(key)], and a change of what is found. *)
Definition obj_alter (key : string) (f : Json → Json) (o : list (string * Json)) : list (string * Json) :=
  match json_get key (JObject o) with Some v => obj_insert key (f v) o | None => o end.
(** [json!] of a list of strings, and the strings of an array. *)
Definition json_strings (l : list string) : Json := JArray (JString <$> l).
Definition json_str_items (v : Json) : list string := match v with JArray l => omap json_as_str l | _ => [] end.
Definition json_str_at (key : string) (v : Json) : option string := json_get key v ≫= json_as_str.
Definition json_array_at (key : string) (v : Json) : option (list Json) := json_get key v ≫= json_as_array.

Lemma json_str_items_strings l : json_str_items (json_strings l) = l.
Proof. unfold json_strings, json_str_items. induction l as [|x l IH]; [done|]. cbn. by f_equal. Qed.
Lemma json_get_insert o key value key' :
  json_get key' (JObject (obj_insert key value o)) = if decide (key' = key) then Some value else json_get key' (JObject o).
Proof.
  unfold json_get. cbn -[decide]. induction o as [|[k v] o IH].
  - cbn. case_decide; subst; [by rewrite decide_True|by rewrite decide_False by congruence].
  - cbn -[decide list_find]. destruct (decide (k = key)) as [->|Hne].
    + cbn. repeat case_decide; subst; done.
    + cbn. destruct (decide (k = key')) as [->|Hne'].
      * by rewrite decide_False by congruence.
      * destruct (list_find _ (obj_insert _ _ _)) as [[? ?]|], (list_find _ o) as [[? ?]|]; exact IH.
Qed.

Abbreviation JsonLeaf := (string + (N + Z))%type.

Fixpoint json_tree (v : Json) : gen_tree JsonLeaf :=
  match v with
  | JNull => GenNode 0 []
  | JBool b => GenNode (if b then 1 else 2) []
  | JPosInt n => GenNode 3 [GenLeaf (inr (inl n))]
  | JNegInt z => GenNode 4 [GenLeaf (inr (inr z))]
  | JFloat z => GenNode 5 [GenLeaf (inr (inr z))]
  | JString s => GenLeaf (inl s)
  | JArray l => GenNode 6 (map json_tree l)
  | JObject l => GenNode 7 (map (λ kv, GenNode 8 [GenLeaf (inl kv.1); json_tree kv.2]) l)
  end.
Fixpoint tree_json (t : gen_tree JsonLeaf) : Json :=
  match t with
  | GenLeaf (inl s) => JString s
  | GenNode 1 [] => JBool true
  | GenNode 2 [] => JBool false
  | GenNode 3 [GenLeaf (inr (inl n))] => JPosInt n
  | GenNode 4 [GenLeaf (inr (inr z))] => JNegInt z
  | GenNode 5 [GenLeaf (inr (inr z))] => JFloat z
  | GenNode 6 l => JArray (map tree_json l)
  | GenNode 7 l => JObject (map (λ e, match e with GenNode 8 [GenLeaf (inl k); v] => (k, tree_json v) | _ => ("", JNull) end) l)
  | _ => JNull
  end.

Lemma tree_json_back v : tree_json (json_tree v) = v.
Proof.
  revert v. fix IH 1. intros [|[]|n|z|b|s|l|l]; try reflexivity; cbn; f_equal.
  - induction l as [|x l IHl]; [reflexivity|]. cbn. by rewrite IH, IHl.
  - induction l as [|[k x] l IHl]; [reflexivity|]. cbn. by rewrite IH, IHl.
Qed.

Fixpoint bits_of_pos (p : positive) : string :=
  match p with xH => "1" | xO p => String "0"%char (bits_of_pos p) | xI p => String "1"%char (bits_of_pos p) end.
Fixpoint pos_of_bits (s : string) : positive :=
  match s with
  | EmptyString => xH
  | String _ EmptyString => xH
  | String a s => if Ascii.eqb a "0"%char then xO (pos_of_bits s) else xI (pos_of_bits s)
  end.
Lemma bits_nonempty p : bits_of_pos p ≠ "".
Proof. by destruct p. Qed.
Lemma pos_of_bits_back p : pos_of_bits (bits_of_pos p) = p.
Proof.
  induction p as [p IH|p IH|]; [| |done]; cbn; pose proof (bits_nonempty p) as Hne;
    destruct (bits_of_pos p) eqn:Hb; [done| |done|]; by rewrite IH.
Qed.

Definition code_json : JsonText := {|
  json_print v := bits_of_pos (encode (json_tree v));
  json_parse s := match decode (pos_of_bits s) with Some t => Ok (tree_json t) | None => Err "not JSON" end
|}.

Lemma code_reparse v : json_parse (JsonText:=code_json) (json_print (JsonText:=code_json) v) = Ok v.
Proof. cbn. by rewrite pos_of_bits_back, decode_encode, tree_json_back. Qed.
Lemma code_json_laws : JsonTextLaws (H:=code_json).
Proof. constructor. intros s v _ _. apply code_reparse. Qed.

(** Any countable type is written so. *)
#[export] Instance json_tree_inj : Inj (=) (=) json_tree.
Proof. intros v v' He. rewrite <-(tree_json_back v), He. apply tree_json_back. Qed.
#[export] Instance Json_eq_dec : EqDecision Json.
Proof. intros v v'. destruct (decide (json_tree v = json_tree v')) as [He|He]; [left; by apply (inj json_tree)|right; congruence]. Defined.
#[export] Instance Json_countable : Countable Json := inj_countable' json_tree tree_json tree_json_back.

Section code_text.
Context {A : Type} `{Countable A}.

Definition code_text (a : A) : string := bits_of_pos (encode a).
Definition code_read (s : string) : outcome string A := match decode (pos_of_bits s) with Some a => Ok a | None => Err "not the code of a value" end.
Lemma code_back a : code_read (code_text a) = Ok a.
Proof. unfold code_read, code_text. by rewrite pos_of_bits_back, decode_encode. Qed.
End code_text.

(** The text of a value is the text of the JSON of it. *)
Section code_laws.
Context {A : Type} `{Countable A}.
#[local] Existing Instance code_json.
Definition read_back (o : outcome string Json) : outcome string A :=
  let? v := o in match v with JString s => code_read s | _ => Err "invalid type" end.
Definition code_serde : Serde A := {|
  sd_to_value a := Ok (JString (code_text a));
  sd_from_value v := match v with JString s => code_read s | _ => Err "invalid type" end;
  sd_to_text a := Ok (json_print (JString (code_text a)));
  sd_from_text s := read_back (json_parse s)
|}.
Lemma code_serde_laws : SerdeLaws A (H0:=code_serde).
Proof.
  assert (Hb : ∀ a, sd_from_text (Serde:=code_serde) (json_print (JString (code_text a))) = Ok a).
  { intros a. exact (eq_trans (f_equal read_back (code_reparse (JString (code_text a)))) (code_back a)). }
  constructor.
  - intros a v [= <-]. apply code_back.
  - intros a s Hs. change (Ok (json_print (JString (code_text a))) = Ok (E:=string) s) in Hs. replace s with (json_print (JString (code_text a))) by congruence. apply Hb.
  - intros a v Hv. change (Ok (JString (code_text a)) = Ok (E:=string) v) in Hv. replace v with (JString (code_text a)) by congruence. apply Hb.
  - intros a s Hs. change (Ok (json_print (JString (code_text a))) = Ok (E:=string) s) in Hs. exists (JString (code_text a)). split; [|apply Hb].
    replace s with (json_print (JString (code_text a))) by congruence. apply code_reparse.
Qed.
End code_laws.
