(* ===== verification/Attach64.v ===== *)
(** The two hand-written base64 decoders of message attachments: the streaming one of the
    credential protocol ([src/protocols/credentials/src/messages/offer.rs]) and the
    blockwise one of the proof protocol
    ([src/protocols/proofs/src/messages/request_presentation.rs]).  Both are compared with
    the standard encoding, written here as the reference.

    Characters and bytes are [ascii]; sextets are numbers. *)
From Stdlib Require Import Ascii.
From S2P Require Import Prelude.

Definition base64_table : list ascii :=
  String.list_ascii_of_string "ABCDEFGHIJKLMNOPQRSTUVWXYZabcdefghijklmnopqrstuvwxyz0123456789+/".

Definition b64_char (v : N) : ascii := nth (N.to_nat v) base64_table zero.
(** [iter().position(..)] in the table. *)
Definition b64_value (c : ascii) : option N := N.of_nat <$> (fst <$> list_find (λ t, t = c) base64_table).

(** [byte as char] in a message. *)
Definition byte_as_char (c : ascii) : string :=
  let n := N_of_ascii c in
  if decide (n < 128)%N then String c ""
  else String (ascii_of_N (192 + n / 64)) (String (ascii_of_N (128 + n mod 64)) "").

Definition b64_invalid (c : ascii) : string := "Invalid base64 character: " +:+ byte_as_char c.
Definition is_b64_space (c : ascii) : bool :=
  bool_decide (c = "010"%char ∨ c = "013"%char ∨ c = " "%char).

(** * The reference: RFC 4648 encoding *)

Fixpoint b64_reference (l : list N) : list ascii :=
  match l with
  | [] => []
  | [a] => [b64_char (a / 4); b64_char (a mod 4 * 16); "="%char; "="%char]
  | [a; b] => [b64_char (a / 4); b64_char (a mod 4 * 16 + b / 16); b64_char (b mod 16 * 4); "="%char]
  | a :: b :: c :: l =>
      [b64_char (a / 4); b64_char (a mod 4 * 16 + b / 16); b64_char (b mod 16 * 4 + c / 64); b64_char (c mod 64)] ++ b64_reference l
  end%N.

(** * The streaming decoder *)

(** [src/protocols/credentials/src/messages/offer.rs:229-240] base64_decode (one character) *)
Definition b64_stream_step (val buf bits : N) : N * N * option N :=
  let buf := N.lor (N.shiftl buf 6) val in
  let bits := (bits + 6)%N in
  if decide (8 ≤ bits)%N then
    let bits := (bits - 8)%N in
    (N.land buf (N.shiftl 1 bits - 1), bits, Some (N.shiftr buf bits mod 256)%N)
  else (buf, bits, None).

(** [src/protocols/credentials/src/messages/offer.rs:222-243] base64_decode (the loop) *)
Fixpoint b64_stream (input : list ascii) (buf bits : N) (output : list N) : outcome string (list N) :=
  match input with
  | [] => Ok output
  | byte :: input =>
      if decide (byte = "="%char) then Ok output
      else if is_b64_space byte then b64_stream input buf bits output
      else
        match b64_value byte with
        | None => Err (b64_invalid byte)
        | Some val =>
            let '(buf, bits, out) := b64_stream_step val buf bits in
            b64_stream input buf bits (match out with Some b => output ++ [b] | None => output end)
        end
  end.

(** [src/protocols/credentials/src/messages/offer.rs:212-244] base64_decode *)
Definition cred_base64_decode (input : list ascii) : outcome string (list N) := b64_stream input 0 0 [].

(** * The blockwise decoder *)

(** [src/protocols/proofs/src/messages/request_presentation.rs:180-186] base64_decode (decode_char) *)
Definition b64_decode_char (c : ascii) : outcome string N :=
  match b64_value c with Some v => Ok v | None => Err (b64_invalid c) end.

(** [src/protocols/proofs/src/messages/request_presentation.rs:188-210] base64_decode (the loop: four characters are taken at a time) *)
Fixpoint b64_blocks (chars : list ascii) (output : list N) : outcome string (list N) :=
  match chars with
  | [] => Ok output
  | [_] => Err "Invalid base64 input length"
  | c0 :: c1 :: rest =>
      let? b0 := b64_decode_char c0 in
      let? b1 := b64_decode_char c1 in
      let output := output ++ [N.lor (N.shiftl b0 2 mod 256) (N.shiftr b1 4)] in
      match rest with
      | [] => Ok output
      | c2 :: rest =>
          if decide (c2 = "="%char) then match rest with [] => Ok output | _ :: rest => b64_blocks rest output end
          else
            let? b2 := b64_decode_char c2 in
            let output := output ++ [N.lor (N.shiftl b1 4 mod 256) (N.shiftr b2 2)] in
            match rest with
            | [] => Ok output
            | c3 :: rest =>
                if decide (c3 = "="%char) then b64_blocks rest output
                else
                  let? b3 := b64_decode_char c3 in
                  b64_blocks rest (output ++ [N.lor (N.shiftl b2 6 mod 256) b3])
            end
      end
  end.

(** [src/protocols/proofs/src/messages/request_presentation.rs:168-213] base64_decode *)
Definition proof_base64_decode (input : list ascii) : outcome string (list N) :=
  b64_blocks (filter (λ c, is_b64_space c = false) input) [].

(** * Both decode the reference *)

(** Induction by three elements. *)
Lemma triple_ind {A} (P : list A → Prop) :
  P [] → (∀ a, P [a]) → (∀ a b, P [a; b]) → (∀ a b c l, P l → P (a :: b :: c :: l)) → ∀ l, P l.
Proof.
  intros H0 H1 H2 H3. fix IH 1. intros [|a [|b [|c l]]]; [done|apply H1|apply H2|]. apply H3, IH.
Qed.

Lemma all_sextets (P : N → bool) : forallb P (N.of_nat <$> seq 0 64) = true → ∀ v, (v < 64)%N → P v = true.
Proof.
  intros Hall v Hv. rewrite forallb_forall in Hall. apply Hall, list_elem_of_In, list_elem_of_fmap.
  exists (N.to_nat v). split; [lia|]. apply elem_of_seq. lia.
Qed.

(** What holds of the 64 characters of the table. *)
Definition b64_char_ok (v : N) : bool :=
  bool_decide (b64_value (b64_char v) = Some v) && bool_decide (b64_char v ≠ "="%char) && negb (is_b64_space (b64_char v)).
Lemma b64_chars v : (v < 64)%N → b64_value (b64_char v) = Some v ∧ b64_char v ≠ "="%char ∧ is_b64_space (b64_char v) = false.
Proof.
  intros Hv. pose proof (all_sextets b64_char_ok ltac:(vm_compute; reflexivity) v Hv) as Hok.
  unfold b64_char_ok in Hok. rewrite !andb_true_iff, !bool_decide_eq_true, negb_true_iff in Hok. naive_solver.
Qed.

Lemma lor_shift a k b : (b < 2 ^ k)%N → N.lor (N.shiftl a k) b = (a * 2 ^ k + b)%N.
Proof.
  intros Hb. assert (Hl : N.land (N.shiftl a k) b = 0%N).
  { apply N.bits_inj. intros n. rewrite N.land_spec, N.bits_0. destruct (decide (n < k)%N).
    - by rewrite N.shiftl_spec_low.
    - replace b with (b mod 2 ^ k)%N by (by apply N.mod_small). rewrite N.mod_pow2_bits_high by lia. apply andb_false_r. }
  by rewrite <-(N.lxor_lor _ _ Hl), <-(N.add_nocarry_lxor _ _ Hl), N.shiftl_mul_pow2.
Qed.

Lemma stream_step v buf bits :
  (v < 64)%N →
  b64_stream_step v buf bits =
    (let t := (buf * 64 + v)%N in
     if decide (2 ≤ bits)%N then (t mod 2 ^ (bits - 2), bits - 2, Some (t / 2 ^ (bits - 2) mod 256))%N else (t, bits + 6, None)%N).
Proof.
  intros Hv. unfold b64_stream_step. rewrite lor_shift by exact Hv.
  case_decide; case_decide; try lia; [|done]. replace (bits + 6 - 8)%N with (bits - 2)%N by lia.
  rewrite N.sub_1_r. change (N.pred (N.shiftl 1 (bits - 2))) with (N.ones (bits - 2)). by rewrite N.land_ones, N.shiftr_div_pow2.
Qed.

(** [lia] for divisions and remainders by constants. *)
Ltac dlia := zify; Z.to_euclidean_division_equations; lia.

(** A character of the encoding is consumed. *)
Lemma stream_char v rest buf bits out :
  (v < 64)%N →
  b64_stream (b64_char v :: rest) buf bits out =
    (let t := (buf * 64 + v)%N in
     if decide (2 ≤ bits)%N then b64_stream rest (t mod 2 ^ (bits - 2)) (bits - 2) (out ++ [t / 2 ^ (bits - 2) mod 256])
     else b64_stream rest t (bits + 6) out)%N.
Proof.
  intros Hv. destruct (b64_chars v Hv) as (Hval & Hne & Hsp). cbn [b64_stream]. rewrite decide_False by done.
  rewrite Hsp, Hval, stream_step by done. cbv zeta. by case_decide.
Qed.

Definition is_byte (b : N) : Prop := (b < 256)%N.

Lemma stream_0 v rest out : (v < 64)%N → b64_stream (b64_char v :: rest) 0 0 out = b64_stream rest v 6 out.
Proof. intros Hv. by rewrite stream_char. Qed.
Lemma stream_6 v rest buf out :
  (v < 64)%N →
  b64_stream (b64_char v :: rest) buf 6 out = b64_stream rest ((buf * 64 + v) mod 16) 4 (out ++ [(buf * 64 + v) / 16 mod 256])%N.
Proof. intros Hv. by rewrite stream_char. Qed.
Lemma stream_4 v rest buf out :
  (v < 64)%N →
  b64_stream (b64_char v :: rest) buf 4 out = b64_stream rest ((buf * 64 + v) mod 4) 2 (out ++ [(buf * 64 + v) / 4 mod 256])%N.
Proof. intros Hv. by rewrite stream_char. Qed.
Lemma stream_2 v rest buf out :
  (v < 64)%N → b64_stream (b64_char v :: rest) buf 2 out = b64_stream rest 0 0 (out ++ [(buf * 64 + v) mod 256])%N.
Proof. intros Hv. rewrite stream_char by done. cbn [N.sub]. by rewrite decide_True, N.mod_1_r, N.div_1_r. Qed.

Lemma stream_pad out buf bits rest : b64_stream ("="%char :: rest) buf bits out = Ok out.
Proof. cbn [b64_stream]. by rewrite decide_True. Qed.

Lemma stream_reference l out : Forall is_byte l → b64_stream (b64_reference l) 0 0 out = Ok (out ++ l).
Proof.
  unfold is_byte. revert out. induction l as [|a|a b|a b c l IH] using triple_ind; intros out Hl; cbn [b64_reference app].
  - by rewrite app_nil_r.
  - apply Forall_cons in Hl as [Ha _].
    rewrite stream_0, stream_6, stream_pad by dlia. do 3 f_equal. dlia.
  - apply Forall_cons in Hl as [Ha [Hb _]%Forall_cons].
    rewrite stream_0, stream_6, stream_4, stream_pad by dlia. rewrite <-app_assoc. cbn [app]. do 2 f_equal.
    f_equal; [dlia|]. f_equal. dlia.
  - apply Forall_cons in Hl as [Ha [Hb [Hc Hl]%Forall_cons]%Forall_cons].
    rewrite stream_0, stream_6, stream_4, stream_2, IH by first [exact Hl|dlia]. rewrite <-!app_assoc. cbn [app]. do 2 f_equal.
    f_equal; [dlia|]. f_equal; [dlia|]. f_equal. dlia.
Qed.

(** The blocks of the encoding. *)
Lemma decode_char_ok v : (v < 64)%N → b64_decode_char (b64_char v) = Ok v.
Proof. intros Hv. unfold b64_decode_char. by destruct (b64_chars v Hv) as (-> & _). Qed.

(** A byte put together from two sextets. *)
Lemma block_byte v k b :
  (v < 64)%N → (k = 2 ∨ k = 4 ∨ k = 6)%N → (b < 2 ^ k)%N →
  N.lor (N.shiftl v k mod 256) b = (v mod 2 ^ (8 - k) * 2 ^ k + b)%N.
Proof.
  intros Hv Hk Hb. rewrite <-(lor_shift (v mod 2 ^ (8 - k)) k b Hb). f_equal.
  set (P := λ v, bool_decide (N.shiftl v k mod 256 = N.shiftl (v mod 2 ^ (8 - k)) k)%N).
  apply (bool_decide_eq_true_1 _ : P v = true → _). by destruct Hk as [->|[->| ->]]; revert v Hv; apply all_sextets; vm_compute.
Qed.

Lemma blocks_4 v0 v1 v2 v3 rest out :
  (v0 < 64)%N → (v1 < 64)%N → (v2 < 64)%N → (v3 < 64)%N →
  b64_blocks (b64_char v0 :: b64_char v1 :: b64_char v2 :: b64_char v3 :: rest) out =
    b64_blocks rest (out ++ [v0 * 4 + v1 / 16; v1 mod 16 * 16 + v2 / 4; v2 mod 4 * 64 + v3])%N.
Proof.
  intros H0 H1 H2 H3. cbn [b64_blocks]. rewrite !decode_char_ok by done.
  destruct (b64_chars v2 H2) as (_ & Hn2 & _). destruct (b64_chars v3 H3) as (_ & Hn3 & _). rewrite !decide_False by done.
  rewrite !N.shiftr_div_pow2, !block_byte by (first [done|solve [auto]|cbn; dlia]). rewrite <-!app_assoc. cbn [app].
  change (8 - 2)%N with 6%N. change (2 ^ 6)%N with 64%N. by rewrite (N.mod_small v0) by exact H0.
Qed.

Lemma blocks_3 v0 v1 v2 out :
  (v0 < 64)%N → (v1 < 64)%N → (v2 < 64)%N →
  b64_blocks [b64_char v0; b64_char v1; b64_char v2; "="%char] out = Ok (out ++ [v0 * 4 + v1 / 16; v1 mod 16 * 16 + v2 / 4])%N.
Proof.
  intros H0 H1 H2. cbn [b64_blocks]. rewrite !decode_char_ok by done.
  destruct (b64_chars v2 H2) as (_ & Hn2 & _). rewrite decide_False, decide_True by done.
  rewrite !N.shiftr_div_pow2, !block_byte by (first [done|solve [auto]|cbn; dlia]). rewrite <-!app_assoc. cbn [app].
  change (8 - 2)%N with 6%N. change (2 ^ 6)%N with 64%N. by rewrite (N.mod_small v0) by exact H0.
Qed.

Lemma blocks_2 v0 v1 out :
  (v0 < 64)%N → (v1 < 64)%N → b64_blocks [b64_char v0; b64_char v1; "="%char; "="%char] out = Ok (out ++ [v0 * 4 + v1 / 16])%N.
Proof.
  intros H0 H1. cbn [b64_blocks]. rewrite !decode_char_ok by done. rewrite decide_True by done.
  rewrite !N.shiftr_div_pow2, !block_byte by (first [done|solve [auto]|cbn; dlia]).
  change (8 - 2)%N with 6%N. change (2 ^ 6)%N with 64%N. by rewrite (N.mod_small v0) by exact H0.
Qed.

Lemma blocks_reference l out : Forall is_byte l → b64_blocks (b64_reference l) out = Ok (out ++ l).
Proof.
  unfold is_byte. revert out. induction l as [|a|a b|a b c l IH] using triple_ind; intros out Hl; cbn [b64_reference app].
  - by rewrite app_nil_r.
  - apply Forall_cons in Hl as [Ha _]. rewrite blocks_2 by dlia. do 3 f_equal. dlia.
  - apply Forall_cons in Hl as [Ha [Hb _]%Forall_cons]. rewrite blocks_3 by dlia. do 2 f_equal. f_equal; [dlia|]. f_equal. dlia.
  - apply Forall_cons in Hl as [Ha [Hb [Hc Hl]%Forall_cons]%Forall_cons].
    rewrite blocks_4, IH by first [exact Hl|dlia]. rewrite <-app_assoc. cbn [app]. do 2 f_equal.
    f_equal; [dlia|]. f_equal; [dlia|]. f_equal. dlia.
Qed.

(** The encoding has no spaces. *)
Lemma reference_no_space l : Forall is_byte l → filter (λ c, is_b64_space c = false) (b64_reference l) = b64_reference l.
Proof.
  assert (Hf : ∀ v r, (v < 64)%N → filter (λ c, is_b64_space c = false) (b64_char v :: r) = b64_char v :: filter (λ c, is_b64_space c = false) r).
  { intros v r Hv. destruct (b64_chars v Hv) as (_ & _ & Hs). by rewrite filter_cons_True. }
  unfold is_byte. induction l as [|a|a b|a b c l IH] using triple_ind; intros Hl; cbn [b64_reference app].
  - done.
  - apply Forall_cons in Hl as [Ha _]. by rewrite !Hf by dlia.
  - apply Forall_cons in Hl as [Ha [Hb _]%Forall_cons]. by rewrite !Hf by dlia.
  - apply Forall_cons in Hl as [Ha [Hb [Hc Hl]%Forall_cons]%Forall_cons]. by rewrite !Hf, IH by first [exact Hl|dlia].
Qed.

(** Both hand-written base64 decoders invert the standard encoding: for every sequence of bytes, the
    streaming decoder of the credential protocol and the blockwise decoder of the proof
    protocol give back exactly the bytes from their padded RFC 4648 encoding. *)
Theorem base64_decoders_invert l :
  Forall is_byte l → cred_base64_decode (b64_reference l) = Ok l ∧ proof_base64_decode (b64_reference l) = Ok l.
Proof.
  intros Hl. unfold cred_base64_decode, proof_base64_decode. rewrite reference_no_space, stream_reference, blocks_reference by done.
  done.
Qed.

Lemma base64_decoders_invert_witness :
  cred_base64_decode (String.list_ascii_of_string "aGk=") = Ok [104; 105]%N ∧
  proof_base64_decode (String.list_ascii_of_string "aGk=") = Ok [104; 105]%N.
Proof. apply (base64_decoders_invert [104; 105]%N). repeat constructor. Defined.

(** Concatenated encodings: the one decoder stops at the first padding, the other goes on. *)
Example decoders_disagree :
  cred_base64_decode (String.list_ascii_of_string "QQ==Qg==") = Ok [65]%N ∧
  proof_base64_decode (String.list_ascii_of_string "QQ==Qg==") = Ok [65; 66]%N.
Proof. vm_compute. done. Qed.

(** A lone last character: the one drops it, the other refuses the input. *)
Example truncated_input :
  cred_base64_decode (String.list_ascii_of_string "QUJDR") = Ok [65; 66; 67]%N ∧
  proof_base64_decode (String.list_ascii_of_string "QUJDR") = Err "Invalid base64 input length".
Proof. vm_compute. done. Qed.
