(* ===== verification/Didcomm.v ===== *)
(** DIDComm messages and the interface of their handlers:
    [src/didcomm/src/core/models/message.rs] and
    [src/didcomm/src/messaging/handlers/traits.rs]. *)
From S2P Require Import Prelude AjnaTypes.

(** [src/didcomm/src/core/models/message.rs:86-103] Thread *)
Record Thread := mkThread {
  th_thid : option string;
  th_pthid : option string;
  th_sender_order : option N;
  th_received_orders : option (gmap string N)
}.

(** A thread that is only an id. *)
Definition thread_of (thid : string) : Thread := mkThread (Some thid) None None None.

(** [src/didcomm/src/core/models/message.rs:146-163] AttachmentData *)
Record AttachmentData := mkAttachmentData {
  ad_jws : option Json;
  ad_hash : option string;
  ad_base64 : option string;
  ad_json : option Json;
  ad_links : option (list string)
}.

(** [src/didcomm/src/core/models/message.rs:105-142] Attachment *)
Record Attachment := mkAttachment {
  at_id : option string;
  at_description : option string;
  at_filename : option string;
  at_media_type : option string;
  at_format : option string;
  at_lastmod_time : option string;
  at_byte_count : option N;
  at_data : AttachmentData
}.

(** [src/didcomm/src/core/models/message.rs:30-79] Message *)
Record Message := mkMessage {
  msg_id : string;
  msg_type : string;
  msg_body : Json;
  msg_from : option string;
  msg_to : option (list string);
  msg_thread : option Thread;
  msg_pthid : option string;
  msg_created_time : option Z;
  msg_expires_time : option Z;
  msg_attachments : option (list Attachment);
  msg_extra : gmap string Json
}.

(** [src/didcomm/src/core/models/message.rs:232-237] Message::thread_id *)
Definition msg_thread_id (self : Message) : string := default (msg_id self) (msg_thread self ≫= th_thid).

(** [src/didcomm/src/core/models/message.rs:240-242] Message::has_thread *)
Definition msg_has_thread (self : Message) : bool := bool_decide (is_Some (msg_thread self)).

(** [src/didcomm/src/core/models/message.rs:262-276] MessageBuilder::new *)
Definition mb_new `{UuidText} (type : string) (w : World) : Message * World :=
  let '(u, w) := uuid_new_v4 w in
  (mkMessage (uuid_to_string u) type (JObject []) None None None None None None None ∅, w).

(** [src/didcomm/src/core/models/message.rs:206-220] Message::new *)
Definition msg_new (id type : string) (body : Json) : Message := mkMessage id type body None None None None None None None ∅.

(** [src/didcomm/src/core/models/message.rs:175-180] AttachmentData::json *)
Definition ad_of_json (value : Json) : AttachmentData := mkAttachmentData None None None (Some value) None.

(** [src/didcomm/src/core/models/message.rs:199-201] AttachmentData::is_external *)
Definition ad_is_external (self : AttachmentData) : bool :=
  match ad_links self with Some (_ :: _) => true | _ => false end.

(** [src/didcomm/src/core/models/message.rs:279-282] MessageBuilder::id *)
Definition mb_id (id : string) (m : Message) : Message :=
  mkMessage id (msg_type m) (msg_body m) (msg_from m) (msg_to m) (msg_thread m) (msg_pthid m)
    (msg_created_time m) (msg_expires_time m) (msg_attachments m) (msg_extra m).

(** [src/didcomm/src/core/models/message.rs:349-354] MessageBuilder::add_attachment *)
Definition mb_add_attachment (attachment : Attachment) (m : Message) : Message :=
  mkMessage (msg_id m) (msg_type m) (msg_body m) (msg_from m) (msg_to m) (msg_thread m) (msg_pthid m)
    (msg_created_time m) (msg_expires_time m) (Some (default [] (msg_attachments m) ++ [attachment])) (msg_extra m).

(** [src/didcomm/src/core/models/message.rs:285-288] MessageBuilder::body *)
Definition mb_body (body : Json) (m : Message) : Message :=
  mkMessage (msg_id m) (msg_type m) body (msg_from m) (msg_to m) (msg_thread m) (msg_pthid m)
    (msg_created_time m) (msg_expires_time m) (msg_attachments m) (msg_extra m).

(** [src/didcomm/src/core/models/message.rs:291-294] MessageBuilder::from *)
Definition mb_from (from : string) (m : Message) : Message :=
  mkMessage (msg_id m) (msg_type m) (msg_body m) (Some from) (msg_to m) (msg_thread m) (msg_pthid m)
    (msg_created_time m) (msg_expires_time m) (msg_attachments m) (msg_extra m).

(** [src/didcomm/src/core/models/message.rs:309-317] MessageBuilder::thread *)
Definition mb_thread (thid : string) (m : Message) : Message :=
  mkMessage (msg_id m) (msg_type m) (msg_body m) (msg_from m) (msg_to m)
    (Some (mkThread (Some thid) None None None)) (msg_pthid m)
    (msg_created_time m) (msg_expires_time m) (msg_attachments m) (msg_extra m).

(** [src/didcomm/src/messaging/handlers/traits.rs:15-28] MessageHandlerError (a boxed error is its text) *)
Inductive MessageHandlerError :=
  | ProcessingFailed (s : string)
  | InvalidMessage (s : string)
  | HandlerNotFound (s : string)
  | MheOther (s : string).

(** [src/didcomm/src/messaging/handlers/traits.rs:49-73] MessageContext *)
Record MessageContext := mkContext {
  ctx_from : option string;
  ctx_to : option string;
  ctx_thread_id : option string;
  ctx_parent_thread_id : option string;
  ctx_connection_id : option string;
  ctx_encrypted : bool;
  ctx_authenticated : bool;
  ctx_sender_endpoint : option string;
  ctx_raw_plaintext : option string
}.

(** [src/didcomm/src/messaging/handlers/traits.rs:78-84] InboundMessage *)
Record InboundMessage := mkInbound {
  in_message : Message;
  in_context : MessageContext
}.

(** [src/didcomm/src/messaging/handlers/traits.rs:89-99] OutboundMessage *)
Record OutboundMessage := mkOutbound {
  out_message : Message;
  out_to : string;
  out_from : string;
  out_connection_id : option string
}.
