(* ===== verification/DcxFrame.v ===== *)
(** The binary frames of DCX, [src/didcomm/src/dcx/frame], with the nonce and the padding of
    [crypto/nonce.rs] and [padding.rs].

    Bytes are lists of [ascii]; a fixed-size array is a list whose length the well-formedness
    predicates state; a [String] is its UTF-8 bytes.  The AEAD cipher is a parameter. *)
From Stdlib Require Import Ascii.
From S2P Require Import Prelude StdText.

Abbreviation Bytes := (list ascii).

(** * Big-endian integers *)

(** [to_be_bytes] of an integer of [k] bytes and [from_be_bytes]. *)
Fixpoint be_bytes (k : nat) (v : N) : Bytes :=
  match k with
  | 0 => []
  | S k => be_bytes k (v / 256) ++ [ascii_of_N (v mod 256)]
  end.
Definition of_be (l : Bytes) : N := foldl (λ acc b, acc * 256 + N_of_ascii b)%N 0%N l.

Lemma be_bytes_length k v : length (be_bytes k v) = k.
Proof. revert v. induction k as [|k IH]; intros v; [done|]. cbn. rewrite length_app, IH. cbn. lia. Qed.

Lemma of_be_snoc l b : of_be (l ++ [b]) = (of_be l * 256 + N_of_ascii b)%N.
Proof. unfold of_be. by rewrite foldl_app. Qed.

Lemma of_be_bytes k v : (v < 256 ^ N.of_nat k)%N → of_be (be_bytes k v) = v.
Proof.
  revert v. induction k as [|k IH]; intros v Hv; [cbn in *; lia|]. cbn [be_bytes]. rewrite of_be_snoc.
  rewrite Nat2N.inj_succ, N.pow_succ_r' in Hv.
  rewrite IH by (apply N.Div0.div_lt_upper_bound; lia).
  rewrite N_ascii_embedding by (apply N.mod_lt; lia). pose proof (N.div_mod v 256 ltac:(lia)). lia.
Qed.

Lemma of_be_bound l : (of_be l < 256 ^ N.of_nat (length l))%N.
Proof.
  induction l as [|b l IH] using rev_ind; [cbn; lia|]. rewrite of_be_snoc, length_app. cbn [length].
  rewrite Nat.add_1_r, Nat2N.inj_succ, N.pow_succ_r'. pose proof (N_ascii_bounded b). lia.
Qed.

Lemma be_bytes_of_be l : be_bytes (length l) (of_be l) = l.
Proof.
  induction l as [|b l IH] using rev_ind; [done|]. rewrite length_app. cbn [length]. rewrite Nat.add_1_r. cbn [be_bytes].
  rewrite of_be_snoc. pose proof (N_ascii_bounded b).
  rewrite N.div_add_l, (N.div_small (N_of_ascii b)), N.add_0_r by lia.
  rewrite N.add_comm, N.Div0.mod_add, N.mod_small by lia. by rewrite IH, ascii_N_embedding.
Qed.

Lemma be_bytes_inj k v v' : (v < 256 ^ N.of_nat k)%N → (v' < 256 ^ N.of_nat k)%N → be_bytes k v = be_bytes k v' → v = v'.
Proof. intros Hv Hv' He. by rewrite <-(of_be_bytes k v Hv), <-(of_be_bytes k v' Hv'), He. Qed.

(** [&bytes[a..b]]. *)
Definition slice {A} (a b : nat) (l : list A) : list A := take (b - a) (drop a l).

Lemma slice_app {A} (pre mid post : list A) a b :
  a = length pre → b = length pre + length mid → slice a b (pre ++ mid ++ post) = mid.
Proof. intros -> ->. unfold slice. rewrite drop_app_length, take_app_length'; [done|lia]. Qed.

(** * Layout *)

(** [src/didcomm/src/dcx/frame/types.rs:7-16] HEADER_LEN, NONCE_LEN, TAG_LEN, MAX_FRAME_SIZE *)
Definition HEADER_LEN : nat := 42.
Definition NONCE_LEN : nat := 12.
Definition TAG_LEN : nat := 16.
Definition MAX_FRAME_SIZE : N := 1048576%N.

(** [src/didcomm/src/dcx/frame/types.rs:19-19] FRAME_VERSION *)
Definition FRAME_VERSION : N := 1%N.

(** [src/didcomm/src/dcx/frame/types.rs:47-70] FrameType *)
Inductive FrameType :=
  | FtData | FtDataForward | FtAck | FtPing | FtPong | FtRotateNotify | FtChannelClose | FtFlowWindow | FtError | FtChannelConfirm.

(** [src/didcomm/src/dcx/frame/types.rs:22-40] FRAME_TYPE_DATA to FRAME_TYPE_CHANNEL_CONFIRM *)
Definition ft_code (t : FrameType) : N :=
  match t with
  | FtData => 1 | FtDataForward => 2 | FtAck => 3 | FtPing => 4 | FtPong => 5 | FtRotateNotify => 6
  | FtChannelClose => 7 | FtFlowWindow => 8 | FtError => 9 | FtChannelConfirm => 10
  end%N.

(** [src/didcomm/src/dcx/frame/types.rs:75-89] FrameType::from_u8 *)
Definition ft_from_u8 (b : N) : option FrameType :=
  match b with
  | 1 => Some FtData | 2 => Some FtDataForward | 3 => Some FtAck | 4 => Some FtPing | 5 => Some FtPong
  | 6 => Some FtRotateNotify | 7 => Some FtChannelClose | 8 => Some FtFlowWindow | 9 => Some FtError
  | 10 => Some FtChannelConfirm
  | _ => None
  end%N.

(** [src/didcomm/src/dcx/errors.rs:10-50] FrameError *)
Inductive FrameError :=
  | TooShort (got need : N)
  | TooLarge (got : N)
  | UnknownType (b : N)
  | UnsupportedVersion (b : N)
  | NonceMismatch
  | MalformedPayload (s : string)
  | AeadFailed.

(** [src/didcomm/src/dcx/frame/mod.rs:56-68] FrameHeader *)
Record FrameHeader := mkHeader {
  fh_frame_type : N;
  fh_version : N;
  fh_channel_id : Bytes;
  fh_routing_prefix : Bytes;
  fh_msg_id : N
}.

(** [src/didcomm/src/dcx/frame/mod.rs:72-80] FrameHeader::encode_aad *)
Definition encode_aad (h : FrameHeader) : Bytes :=
  [ascii_of_N (fh_frame_type h)] ++ [ascii_of_N (fh_version h)] ++ fh_channel_id h ++ fh_routing_prefix h ++
    be_bytes 8 (fh_msg_id h).

(** [src/didcomm/src/dcx/frame/mod.rs:87-156] FrameBody *)
Inductive FrameBody :=
  | Data (application_payload padding : Bytes)
  | DataForward (inner_jwe : Bytes) (next_endpoint : string) (padding : Bytes)
  | FbAck (acked_msg_id status : N)
  | Ping (nonce_data : Bytes)
  | Pong (nonce_data : Bytes)
  | RotateNotify (old_generation new_generation : N) (new_channel_id : Bytes)
  | ChannelClose (reason_code : N) (message : string)
  | FlowWindow (window_credit : N)
  | FbError (error_code : N) (message : string)
  | ChannelConfirm (confirm_hash : Bytes).

Definition body_type (b : FrameBody) : FrameType :=
  match b with
  | Data _ _ => FtData | DataForward _ _ _ => FtDataForward | FbAck _ _ => FtAck | Ping _ => FtPing | Pong _ => FtPong
  | RotateNotify _ _ _ => FtRotateNotify | ChannelClose _ _ => FtChannelClose | FlowWindow _ => FtFlowWindow
  | FbError _ _ => FtError | ChannelConfirm _ => FtChannelConfirm
  end.

(** [src/didcomm/src/dcx/crypto/nonce.rs:16-21] nonce_for_msg_id *)
Definition nonce_for_msg_id (msg_id : N) : Bytes := replicate 4 zero ++ be_bytes 8 msg_id.

Definition str_bytes (s : string) : Bytes := String.list_ascii_of_string s.
Definition bytes_str (l : Bytes) : string := String.string_of_list_ascii l.

Definition len_N (l : Bytes) : N := N.of_nat (length l).
Definition u16_max : N := 65535%N.
Definition u32_max : N := 4294967295%N.

(** * Bodies *)

(** [src/didcomm/src/dcx/frame/encode.rs:40-138] encode_body *)
Definition encode_body (body : FrameBody) : outcome FrameError Bytes :=
  match body with
  | Data application_payload padding =>
      if decide (u16_max < len_N application_payload)%N then Err (MalformedPayload "application_payload exceeds u16::MAX")
      else if decide (u16_max < len_N padding)%N then Err (MalformedPayload "padding exceeds u16::MAX")
      else Ok (be_bytes 2 (len_N application_payload) ++ application_payload ++ be_bytes 2 (len_N padding) ++ padding)
  | DataForward inner_jwe next_endpoint padding =>
      if decide (u32_max < len_N inner_jwe)%N then Err (MalformedPayload "inner_jwe exceeds u32::MAX")
      else if decide (u16_max < len_N (str_bytes next_endpoint))%N then Err (MalformedPayload "next_endpoint exceeds u16::MAX")
      else Ok (be_bytes 4 (len_N inner_jwe) ++ inner_jwe ++ be_bytes 2 (len_N (str_bytes next_endpoint)) ++
                 str_bytes next_endpoint ++ be_bytes 2 (len_N padding) ++ padding)
  | FbAck acked_msg_id status => Ok (be_bytes 8 acked_msg_id ++ be_bytes 1 status)
  | Ping nonce_data => Ok nonce_data
  | Pong nonce_data => Ok nonce_data
  | RotateNotify old_generation new_generation new_channel_id =>
      Ok (be_bytes 4 old_generation ++ be_bytes 4 new_generation ++ new_channel_id)
  | ChannelClose reason_code message =>
      if decide (u16_max < len_N (str_bytes message))%N then Err (MalformedPayload "close message exceeds u16::MAX")
      else Ok (be_bytes 2 reason_code ++ be_bytes 2 (len_N (str_bytes message)) ++ str_bytes message)
  | FlowWindow window_credit => Ok (be_bytes 4 window_credit)
  | FbError error_code message =>
      if decide (u16_max < len_N (str_bytes message))%N then Err (MalformedPayload "error message exceeds u16::MAX")
      else Ok (be_bytes 2 error_code ++ be_bytes 2 (len_N (str_bytes message)) ++ str_bytes message)
  | ChannelConfirm confirm_hash => Ok confirm_hash
  end.

(** [std::str::from_utf8] with the error of a call site. *)
Definition read_utf8 (what : string) (l : Bytes) : outcome FrameError string :=
  match from_utf8 (bytes_str l) with
  | Ok s => Ok s
  | Err e => Err (MalformedPayload (what +:+ e))
  | Panic => Panic
  end.

Definition expected_bytes (name : string) (expected : N) (l : Bytes) : FrameError :=
  MalformedPayload (name +:+ ": expected " +:+ pretty expected +:+ " bytes, got " +:+ pretty (len_N l)).

(** [src/didcomm/src/dcx/frame/decode.rs:122-145] decode_data_body *)
Definition decode_data_body (pt : Bytes) : outcome FrameError FrameBody :=
  if decide (length pt < 4)%nat then Err (MalformedPayload "data: too short")
  else
    let payload_len := N.to_nat (of_be (slice 0 2 pt)) in
    if decide (length pt < 2 + payload_len + 2)%nat
    then Err (MalformedPayload "data: declared payload_length exceeds plaintext")
    else
      let payload_end := 2 + payload_len in
      let padding_len := N.to_nat (of_be (slice payload_end (payload_end + 2) pt)) in
      let padding_start := payload_end + 2 in
      if decide (length pt < padding_start + padding_len)%nat
      then Err (MalformedPayload "data: declared padding_length exceeds plaintext")
      else Ok (Data (slice 2 payload_end pt) (slice padding_start (padding_start + padding_len) pt)).

(** [src/didcomm/src/dcx/frame/decode.rs:147-184] decode_data_forward_body *)
Definition decode_data_forward_body (pt : Bytes) : outcome FrameError FrameBody :=
  if decide (length pt < 4)%nat then Err (MalformedPayload "data_forward: too short")
  else
    let jwe_len := N.to_nat (of_be (slice 0 4 pt)) in
    if decide (length pt < 4 + jwe_len + 2)%nat
    then Err (MalformedPayload "data_forward: declared jwe length exceeds plaintext")
    else
      let jwe_end := 4 + jwe_len in
      let endpoint_len := N.to_nat (of_be (slice jwe_end (jwe_end + 2) pt)) in
      let endpoint_start := jwe_end + 2 in
      if decide (length pt < endpoint_start + endpoint_len + 2)%nat
      then Err (MalformedPayload "data_forward: declared endpoint length exceeds plaintext")
      else
        let endpoint_end := endpoint_start + endpoint_len in
        let? next_endpoint := read_utf8 "next_endpoint not UTF-8: " (slice endpoint_start endpoint_end pt) in
        let padding_len := N.to_nat (of_be (slice endpoint_end (endpoint_end + 2) pt)) in
        let padding_start := endpoint_end + 2 in
        if decide (length pt < padding_start + padding_len)%nat
        then Err (MalformedPayload "data_forward: declared padding length exceeds plaintext")
        else Ok (DataForward (slice 4 jwe_end pt) next_endpoint (slice padding_start (padding_start + padding_len) pt)).

(** [src/didcomm/src/dcx/frame/decode.rs:186-199] decode_ack_body *)
Definition decode_ack_body (pt : Bytes) : outcome FrameError FrameBody :=
  if decide (length pt ≠ 9) then Err (expected_bytes "ack" 9 pt)
  else Ok (FbAck (of_be (slice 0 8 pt)) (of_be (slice 8 9 pt))).

(** [src/didcomm/src/dcx/frame/decode.rs:201-211] decode_ping_body *)
Definition decode_ping_body (pt : Bytes) : outcome FrameError FrameBody :=
  if decide (length pt ≠ 8) then Err (expected_bytes "ping" 8 pt) else Ok (Ping pt).

(** [src/didcomm/src/dcx/frame/decode.rs:213-223] decode_pong_body *)
Definition decode_pong_body (pt : Bytes) : outcome FrameError FrameBody :=
  if decide (length pt ≠ 8) then Err (expected_bytes "pong" 8 pt) else Ok (Pong pt).

(** [src/didcomm/src/dcx/frame/decode.rs:225-241] decode_rotate_notify_body *)
Definition decode_rotate_notify_body (pt : Bytes) : outcome FrameError FrameBody :=
  if decide (length pt ≠ 24) then Err (expected_bytes "rotate_notify" 24 pt)
  else Ok (RotateNotify (of_be (slice 0 4 pt)) (of_be (slice 4 8 pt)) (slice 8 24 pt)).

(** [src/didcomm/src/dcx/frame/decode.rs:243-263] decode_channel_close_body *)
Definition decode_channel_close_body (pt : Bytes) : outcome FrameError FrameBody :=
  if decide (length pt < 4)%nat then Err (MalformedPayload "channel_close: too short")
  else
    let msg_len := N.to_nat (of_be (slice 2 4 pt)) in
    if decide (length pt < 4 + msg_len)%nat
    then Err (MalformedPayload "channel_close: declared message length exceeds plaintext")
    else
      let? message := read_utf8 "close message not UTF-8: " (slice 4 (4 + msg_len) pt) in
      Ok (ChannelClose (of_be (slice 0 2 pt)) message).

(** [src/didcomm/src/dcx/frame/decode.rs:265-275] decode_flow_window_body *)
Definition decode_flow_window_body (pt : Bytes) : outcome FrameError FrameBody :=
  if decide (length pt ≠ 4) then Err (expected_bytes "flow_window" 4 pt) else Ok (FlowWindow (of_be pt)).

(** [src/didcomm/src/dcx/frame/decode.rs:277-295] decode_error_body *)
Definition decode_error_body (pt : Bytes) : outcome FrameError FrameBody :=
  if decide (length pt < 4)%nat then Err (MalformedPayload "error: too short")
  else
    let msg_len := N.to_nat (of_be (slice 2 4 pt)) in
    if decide (length pt < 4 + msg_len)%nat
    then Err (MalformedPayload "error: declared message length exceeds plaintext")
    else
      let? message := read_utf8 "error message not UTF-8: " (slice 4 (4 + msg_len) pt) in
      Ok (FbError (of_be (slice 0 2 pt)) message).

(** [src/didcomm/src/dcx/frame/decode.rs:297-307] decode_channel_confirm_body *)
Definition decode_channel_confirm_body (pt : Bytes) : outcome FrameError FrameBody :=
  if decide (length pt ≠ 32) then Err (expected_bytes "channel_confirm" 32 pt) else Ok (ChannelConfirm pt).

(** [src/didcomm/src/dcx/frame/decode.rs:106-120] decode_body *)
Definition decode_body (frame_type : N) (plaintext : Bytes) : outcome FrameError FrameBody :=
  match ft_from_u8 frame_type with
  | Some FtData => decode_data_body plaintext
  | Some FtDataForward => decode_data_forward_body plaintext
  | Some FtAck => decode_ack_body plaintext
  | Some FtPing => decode_ping_body plaintext
  | Some FtPong => decode_pong_body plaintext
  | Some FtRotateNotify => decode_rotate_notify_body plaintext
  | Some FtChannelClose => decode_channel_close_body plaintext
  | Some FtFlowWindow => decode_flow_window_body plaintext
  | Some FtError => decode_error_body plaintext
  | Some FtChannelConfirm => decode_channel_confirm_body plaintext
  | None => Err (UnknownType frame_type)
  end.

(** * Frames *)

(** ChaCha20-Poly1305: sealing appends a tag, opening accepts exactly what was sealed. *)
Class Aead := {
  aead_seal : Bytes → Bytes → Bytes → Bytes → option Bytes;
  aead_open : Bytes → Bytes → Bytes → Bytes → option Bytes
}.
Class AeadLaws `{Aead} : Prop := {
  aead_open_seal key nonce aad pt ct : aead_seal key nonce aad pt = Some ct → aead_open key nonce aad ct = Some pt;
  aead_seal_open key nonce aad pt ct : aead_open key nonce aad ct = Some pt → aead_seal key nonce aad pt = Some ct;
  aead_seal_length key nonce aad pt ct : aead_seal key nonce aad pt = Some ct → length ct = length pt + TAG_LEN
}.

(** [src/didcomm/src/dcx/frame/decode.rs:22-58] decode_header *)
Definition decode_header (bytes : Bytes) : outcome FrameError (FrameHeader * Bytes) :=
  if decide (MAX_FRAME_SIZE < len_N bytes)%N then Err (TooLarge (len_N bytes))
  else if decide (length bytes < HEADER_LEN + NONCE_LEN + TAG_LEN)%nat then
    Err (TooShort (len_N bytes) (N.of_nat (HEADER_LEN + NONCE_LEN + TAG_LEN)))
  else
    let frame_type := of_be (slice 0 1 bytes) in
    let version := of_be (slice 1 2 bytes) in
    match ft_from_u8 frame_type with
    | None => Err (UnknownType frame_type)
    | Some _ =>
        if decide (version ≠ FRAME_VERSION) then Err (UnsupportedVersion version)
        else Ok (mkHeader frame_type version (slice 2 18 bytes) (slice 18 34 bytes) (of_be (slice 34 42 bytes)),
                 drop HEADER_LEN bytes)
    end.

Section codec.
Context `{Aead}.

(** [src/didcomm/src/dcx/frame/encode.rs:15-36] pack *)
Definition pack (header : FrameHeader) (body : FrameBody) (k_send : Bytes) : outcome FrameError Bytes :=
  let aad := encode_aad header in
  let nonce := nonce_for_msg_id (fh_msg_id header) in
  let? plaintext := encode_body body in
  match aead_seal k_send nonce aad plaintext with
  | None => Err AeadFailed
  | Some ct =>
      let total_len := N.of_nat (HEADER_LEN + NONCE_LEN + length ct) in
      if decide (MAX_FRAME_SIZE < total_len)%N then Err (TooLarge total_len) else Ok (aad ++ nonce ++ ct)
  end.

(** [src/didcomm/src/dcx/frame/decode.rs:63-91] decode_and_verify *)
Definition decode_and_verify (header : FrameHeader) (tail : Bytes) (k_recv : Bytes) : outcome FrameError FrameBody :=
  if decide (length tail < NONCE_LEN + TAG_LEN)%nat then Err (TooShort (len_N tail) (N.of_nat (NONCE_LEN + TAG_LEN)))
  else
    let wire_nonce := slice 0 NONCE_LEN tail in
    if decide (wire_nonce ≠ nonce_for_msg_id (fh_msg_id header)) then Err NonceMismatch
    else
      match aead_open k_recv wire_nonce (encode_aad header) (drop NONCE_LEN tail) with
      | None => Err AeadFailed
      | Some plaintext => decode_body (fh_frame_type header) plaintext
      end.

(** [src/didcomm/src/dcx/frame/decode.rs:95-102] decode_full *)
Definition decode_full (bytes k_recv : Bytes) : outcome FrameError (FrameHeader * FrameBody) :=
  let? ' (header, tail) := decode_header bytes in
  let? body := decode_and_verify header tail k_recv in
  Ok (header, body).
End codec.

(** [src/didcomm/src/dcx/padding.rs:19-28] padding_length *)
Definition padding_length (payload_length boundary : N) : N :=
  let total := (42 + 12 + 2 + 2 + 16 + payload_length)%N in
  let remainder := (total mod boundary)%N in
  if decide (remainder = 0)%N then 0%N else (boundary - remainder)%N.

(** [src/didcomm/src/dcx/padding.rs:8-8] DEFAULT_PADDING_BOUNDARY *)
Definition DEFAULT_PADDING_BOUNDARY : N := 64%N.

(** * Well-formed frames

    What the types of the code guarantee of a header and a body, and the lengths that fit. *)
Record header_ok (h : FrameHeader) : Prop := {
  hok_type : is_Some (ft_from_u8 (fh_frame_type h));
  hok_version : fh_version h = FRAME_VERSION;
  hok_channel : length (fh_channel_id h) = 16;
  hok_prefix : length (fh_routing_prefix h) = 16;
  hok_msg_id : (fh_msg_id h < u64_modulus)%N
}.

Definition valid_utf8 (s : string) : Prop := from_utf8 s = Ok s.

Definition body_ok (b : FrameBody) : Prop :=
  match b with
  | Data _ _ => True
  | DataForward _ endpoint _ => valid_utf8 endpoint
  | FbAck id status => (id < u64_modulus)%N ∧ (status < 256)%N
  | Ping n | Pong n => length n = 8
  | RotateNotify o n c => (o < 4294967296)%N ∧ (n < 4294967296)%N ∧ length c = 16
  | ChannelClose code m | FbError code m => (code < 65536)%N ∧ valid_utf8 m
  | FlowWindow c => (c < 4294967296)%N
  | ChannelConfirm h => length h = 32
  end.

(** What the reader gets of a body: all of it, but of the padding of a forwarded message, whose
    length is written in two bytes and which nothing limits, only the first bytes, as many as
    its length is modulo 65536. *)
Definition as_read (b : FrameBody) : FrameBody :=
  match b with
  | DataForward jwe endpoint padding => DataForward jwe endpoint (take (N.to_nat (len_N padding mod 65536)) padding)
  | _ => b
  end.
Lemma as_read_same b : (∀ jwe endpoint padding, b = DataForward jwe endpoint padding → (len_N padding ≤ u16_max)%N) → as_read b = b.
Proof.
  destruct b; try done. intros Hp. specialize (Hp _ _ _ eq_refl). cbn. rewrite N.mod_small by (unfold u16_max in Hp; lia).
  unfold len_N. by rewrite Nat2N.id, firstn_all.
Qed.

Lemma bytes_str_bytes s : bytes_str (str_bytes s) = s.
Proof. apply String.string_of_list_ascii_of_string. Qed.

Lemma ft_from_code t : ft_from_u8 (ft_code t) = Some t.
Proof. by destruct t. Qed.
Lemma ft_code_of_u8 b t : ft_from_u8 b = Some t → b = ft_code t.
Proof. unfold ft_from_u8. intros Hb. repeat case_match; by simplify_eq. Qed.

Lemma encode_aad_length h : header_ok h → length (encode_aad h) = HEADER_LEN.
Proof. intros []. unfold encode_aad. rewrite !length_app, be_bytes_length. cbn. by rewrite hok_channel0, hok_prefix0. Qed.
Lemma nonce_length id : length (nonce_for_msg_id id) = NONCE_LEN.
Proof. unfold nonce_for_msg_id. by rewrite length_app, be_bytes_length. Qed.

(** ** Slices of concatenations *)

Lemma slice_skip {A} (p l : list A) n a b : length p = n → n ≤ a → slice a b (p ++ l) = slice (a - n) (b - n) l.
Proof. intros <- Ha. unfold slice. rewrite drop_app_ge by done. f_equal. lia. Qed.
Lemma slice_here {A} (p l : list A) n : length p = n → slice 0 n (p ++ l) = p.
Proof. intros <-. unfold slice. by rewrite drop_0, Nat.sub_0_r, take_app_length. Qed.
Lemma slice_all {A} (p : list A) n : length p = n → slice 0 n p = p.
Proof. intros <-. unfold slice. by rewrite drop_0, Nat.sub_0_r, take_ge. Qed.

Lemma be_len2 l : (len_N l ≤ u16_max)%N → N.to_nat (of_be (be_bytes 2 (len_N l))) = length l.
Proof. intros Hl. rewrite of_be_bytes by (unfold u16_max in Hl; cbn; lia). unfold len_N. lia. Qed.
Lemma be_len2_mod l : N.to_nat (of_be (be_bytes 2 (len_N l))) = N.to_nat (len_N l mod 65536).
Proof.
  replace (be_bytes 2 (len_N l)) with (be_bytes 2 (len_N l mod 65536)); [rewrite of_be_bytes; [done|]; apply N.mod_lt; lia|].
  cbn [be_bytes app]. generalize (len_N l). intros v.
  assert (H1 : (v mod 65536 mod 256 = v mod 256)%N) by (zify; Z.to_euclidean_division_equations; lia).
  assert (H2 : (v mod 65536 / 256 mod 256 = v / 256 mod 256)%N) by (zify; Z.to_euclidean_division_equations; lia).
  by rewrite H1, H2.
Qed.
Lemma be_len4 l : (len_N l ≤ u32_max)%N → N.to_nat (of_be (be_bytes 4 (len_N l))) = length l.
Proof. intros Hl. rewrite of_be_bytes by (unfold u32_max in Hl; cbn; lia). unfold len_N. lia. Qed.

(** A field behind a prefix of known length. *)
Lemma slice_field {A} (pre mid post l : list A) a b :
  l = pre ++ mid ++ post → length pre = a → a + length mid = b → slice a b l = mid.
Proof. intros -> <- <-. by apply slice_app. Qed.

Lemma read_utf8_ok what s : valid_utf8 s → read_utf8 what (str_bytes s) = Ok s.
Proof. intros Hs. unfold read_utf8. rewrite bytes_str_bytes. by rewrite Hs. Qed.

Lemma Ok_inj {E A} (a b : A) : @Ok E A a = Ok b → a = b.
Proof. congruence. Qed.

Lemma decode_data_encode payload padding pt :
  encode_body (Data payload padding) = Ok pt → decode_data_body pt = Ok (Data payload padding).
Proof.
  unfold encode_body. repeat case_decide; try done. intros <-%Ok_inj.
  set (pt := be_bytes 2 (len_N payload) ++ payload ++ be_bytes 2 (len_N padding) ++ padding).
  assert (Hlen : length pt = 2 + (length payload + (2 + length padding))) by (unfold pt; by rewrite !length_app, !be_bytes_length).
  assert (H1 : slice 0 2 pt = be_bytes 2 (len_N payload)) by (by apply slice_here, be_bytes_length).
  assert (H2 : N.to_nat (of_be (slice 0 2 pt)) = length payload) by (rewrite H1; apply be_len2; lia).
  assert (H3 : slice 2 (2 + length payload) pt = payload)
    by (eapply slice_field; [reflexivity|apply be_bytes_length|done]).
  assert (H4 : slice (2 + length payload) (2 + length payload + 2) pt = be_bytes 2 (len_N padding)).
  { eapply (slice_field (be_bytes 2 (len_N payload) ++ payload) _ padding).
    - unfold pt. by rewrite <-!app_assoc.
    - by rewrite length_app, be_bytes_length.
    - by rewrite be_bytes_length. }
  assert (H5 : slice (2 + length payload + 2) (2 + length payload + 2 + length padding) pt = padding).
  { eapply (slice_field (be_bytes 2 (len_N payload) ++ payload ++ be_bytes 2 (len_N padding)) _ []).
    - unfold pt. by rewrite app_nil_r, <-!app_assoc.
    - rewrite !length_app, !be_bytes_length. lia.
    - done. }
  clearbody pt. unfold decode_data_body. cbv zeta. rewrite H2, H3, H4, be_len2 by lia. rewrite H5.
  rewrite !decide_False by lia. done.
Qed.

Lemma decode_data_forward_encode jwe endpoint padding pt :
  body_ok (DataForward jwe endpoint padding) → encode_body (DataForward jwe endpoint padding) = Ok pt →
  decode_data_forward_body pt = Ok (as_read (DataForward jwe endpoint padding)).
Proof.
  intros Hu. unfold encode_body. repeat case_decide; try done. intros <-%Ok_inj.
  set (e := str_bytes endpoint) in *.
  set (pt := be_bytes 4 (len_N jwe) ++ jwe ++ be_bytes 2 (len_N e) ++ e ++ be_bytes 2 (len_N padding) ++ padding).
  assert (Hlen : length pt = 4 + (length jwe + (2 + (length e + (2 + length padding)))))
    by (unfold pt; by rewrite !length_app, !be_bytes_length).
  assert (H1 : slice 0 4 pt = be_bytes 4 (len_N jwe)) by (by apply slice_here, be_bytes_length).
  assert (H2 : N.to_nat (of_be (slice 0 4 pt)) = length jwe) by (rewrite H1; apply be_len4; lia).
  assert (H3 : slice 4 (4 + length jwe) pt = jwe) by (eapply slice_field; [reflexivity|apply be_bytes_length|done]).
  assert (H4 : slice (4 + length jwe) (4 + length jwe + 2) pt = be_bytes 2 (len_N e)).
  { eapply (slice_field (be_bytes 4 (len_N jwe) ++ jwe)).
    - unfold pt. by rewrite <-!app_assoc.
    - by rewrite length_app, be_bytes_length.
    - by rewrite be_bytes_length. }
  assert (H5 : slice (4 + length jwe + 2) (4 + length jwe + 2 + length e) pt = e).
  { eapply (slice_field (be_bytes 4 (len_N jwe) ++ jwe ++ be_bytes 2 (len_N e))).
    - unfold pt. by rewrite <-!app_assoc.
    - rewrite !length_app, !be_bytes_length. lia.
    - done. }
  assert (H6 : slice (4 + length jwe + 2 + length e) (4 + length jwe + 2 + length e + 2) pt = be_bytes 2 (len_N padding)).
  { eapply (slice_field (be_bytes 4 (len_N jwe) ++ jwe ++ be_bytes 2 (len_N e) ++ e)).
    - unfold pt. by rewrite <-!app_assoc.
    - rewrite !length_app, !be_bytes_length. lia.
    - by rewrite be_bytes_length. }
  set (k := N.to_nat (len_N padding mod 65536)).
  assert (Hk : k ≤ length padding).
  { assert (len_N padding mod 65536 ≤ len_N padding)%N by (apply N.Div0.mod_le). unfold k, len_N in *. lia. }
  assert (H7 : slice (4 + length jwe + 2 + length e + 2) (4 + length jwe + 2 + length e + 2 + k) pt = take k padding).
  { eapply (slice_field (be_bytes 4 (len_N jwe) ++ jwe ++ be_bytes 2 (len_N e) ++ e ++ be_bytes 2 (len_N padding)) _ (drop k padding)).
    - unfold pt. by rewrite <-!app_assoc, take_drop.
    - rewrite !length_app, !be_bytes_length. lia.
    - rewrite length_take. lia. }
  clearbody pt. unfold decode_data_forward_body. cbv zeta. rewrite H2, H3, H4, be_len2 by lia. rewrite H5, H6, be_len2_mod by lia. fold k. rewrite H7.
  rewrite !decide_False by lia. unfold e at 1. rewrite (read_utf8_ok _ endpoint Hu). rewrite decide_False by lia. done.
Qed.

(** A code, a length and a message: the bodies of close and error frames. *)
Lemma decode_coded_message code m pt :
  (code < 65536)%N → (len_N (str_bytes m) ≤ u16_max)%N →
  pt = be_bytes 2 code ++ be_bytes 2 (len_N (str_bytes m)) ++ str_bytes m →
  ¬ (length pt < 4)%nat ∧ of_be (slice 0 2 pt) = code ∧ N.to_nat (of_be (slice 2 4 pt)) = length (str_bytes m) ∧
  ¬ (length pt < 4 + length (str_bytes m))%nat ∧ slice 4 (4 + length (str_bytes m)) pt = str_bytes m.
Proof.
  intros Hc Hm ->. rewrite !length_app, !be_bytes_length. split_and!; [lia| | |lia|].
  - rewrite slice_here by apply be_bytes_length. by apply of_be_bytes.
  - rewrite (slice_field (be_bytes 2 code) (be_bytes 2 (len_N (str_bytes m))) (str_bytes m)); [by apply be_len2|done|apply be_bytes_length|].
    by rewrite be_bytes_length.
  - apply (slice_field (be_bytes 2 code ++ be_bytes 2 (len_N (str_bytes m))) _ []); [by rewrite app_nil_r, <-app_assoc| |done].
    by rewrite length_app, !be_bytes_length.
Qed.

Lemma body_roundtrip b pt : body_ok b → encode_body b = Ok pt → decode_body (ft_code (body_type b)) pt = Ok (as_read b).
Proof.
  intros Hb Henc. unfold decode_body. rewrite ft_from_code.
  destruct b as [payload padding|jwe endpoint padding|id status|n|n|o n c|code m|c|code m|h]; cbn [body_type].
  - by apply decode_data_encode.
  - by apply decode_data_forward_encode.
  - destruct Hb as [Hid Hst]. apply Ok_inj in Henc as <-. unfold decode_ack_body.
    rewrite decide_False by (rewrite length_app, !be_bytes_length; lia).
    rewrite slice_here by apply be_bytes_length. rewrite of_be_bytes by done.
    rewrite (slice_field (be_bytes 8 id) (be_bytes 1 status) []); [|by rewrite app_nil_r|apply be_bytes_length|by rewrite be_bytes_length].
    by rewrite of_be_bytes.
  - apply Ok_inj in Henc as <-. unfold decode_ping_body. by rewrite decide_False by (cbn in Hb; lia).
  - apply Ok_inj in Henc as <-. unfold decode_pong_body. by rewrite decide_False by (cbn in Hb; lia).
  - destruct Hb as (Ho & Hn & Hc). apply Ok_inj in Henc as <-. unfold decode_rotate_notify_body.
    rewrite decide_False by (rewrite !length_app, !be_bytes_length; lia).
    rewrite slice_here by apply be_bytes_length.
    rewrite (slice_field (be_bytes 4 o) (be_bytes 4 n) c); [|done|apply be_bytes_length|by rewrite be_bytes_length].
    rewrite (slice_field (be_bytes 4 o ++ be_bytes 4 n) c []);
      [|by rewrite app_nil_r, <-app_assoc|by rewrite length_app, !be_bytes_length|by rewrite Hc].
    by rewrite !of_be_bytes.
  - destruct Hb as (Hc & Hm). unfold encode_body in Henc. case_decide; [done|]. apply Ok_inj in Henc.
    edestruct (decode_coded_message code m pt) as (H1 & H2 & H3 & H4 & H5); [done|lia|done|].
    unfold decode_channel_close_body. rewrite decide_False by done. cbv zeta. rewrite H3, decide_False, H5, H2 by done.
    by rewrite (read_utf8_ok _ m Hm).
  - apply Ok_inj in Henc as <-. unfold decode_flow_window_body. rewrite decide_False by (rewrite be_bytes_length; lia).
    by rewrite of_be_bytes.
  - destruct Hb as (Hc & Hm). unfold encode_body in Henc. case_decide; [done|]. apply Ok_inj in Henc.
    edestruct (decode_coded_message code m pt) as (H1 & H2 & H3 & H4 & H5); [done|lia|done|].
    unfold decode_error_body. rewrite decide_False by done. cbv zeta. rewrite H3, decide_False, H5, H2 by done.
    by rewrite (read_utf8_ok _ m Hm).
  - apply Ok_inj in Henc as <-. unfold decode_channel_confirm_body. by rewrite decide_False by (cbn in Hb; lia).
Qed.

Lemma of_be_byte v : (v < 256)%N → of_be [ascii_of_N v] = v.
Proof. intros Hv. cbn -[N_of_ascii ascii_of_N]. by rewrite N_ascii_embedding. Qed.

Lemma ft_small b : is_Some (ft_from_u8 b) → (b < 256)%N.
Proof. intros [t ->%ft_code_of_u8]. destruct t; cbn; lia. Qed.

Lemma decode_header_encode h tail :
  header_ok h → NONCE_LEN + TAG_LEN ≤ length tail → (len_N (encode_aad h ++ tail) ≤ MAX_FRAME_SIZE)%N →
  decode_header (encode_aad h ++ tail) = Ok (h, tail).
Proof.
  intros Hh Ht Hmax. pose proof (encode_aad_length h Hh) as Hlen. destruct Hh as [Hty Hv Hc Hp Hid].
  unfold decode_header. rewrite decide_False by lia.
  rewrite decide_False by (rewrite length_app, Hlen; unfold HEADER_LEN, NONCE_LEN, TAG_LEN in *; lia).
  set (bytes := encode_aad h ++ tail).
  assert (Hb : bytes = [ascii_of_N (fh_frame_type h)] ++ [ascii_of_N (fh_version h)] ++ fh_channel_id h ++ fh_routing_prefix h ++
    be_bytes 8 (fh_msg_id h) ++ tail) by (unfold bytes, encode_aad; by rewrite <-!app_assoc).
  assert (S1 : slice 0 1 bytes = [ascii_of_N (fh_frame_type h)]) by (rewrite Hb; by apply slice_here).
  assert (S2 : slice 1 2 bytes = [ascii_of_N (fh_version h)]) by (by eapply slice_field; [exact Hb|..]).
  assert (S3 : slice 2 18 bytes = fh_channel_id h).
  { eapply (slice_field ([ascii_of_N (fh_frame_type h)] ++ [ascii_of_N (fh_version h)])); [|done|by rewrite Hc].
    rewrite Hb. by rewrite <-!app_assoc. }
  assert (S4 : slice 18 34 bytes = fh_routing_prefix h).
  { eapply (slice_field ([ascii_of_N (fh_frame_type h)] ++ [ascii_of_N (fh_version h)] ++ fh_channel_id h)); [| |by rewrite Hp].
    - rewrite Hb. by rewrite <-!app_assoc.
    - cbn. by rewrite Hc. }
  assert (S5 : slice 34 42 bytes = be_bytes 8 (fh_msg_id h)).
  { eapply (slice_field ([ascii_of_N (fh_frame_type h)] ++ [ascii_of_N (fh_version h)] ++ fh_channel_id h ++ fh_routing_prefix h)).
    - rewrite Hb. by rewrite <-!app_assoc.
    - cbn. by rewrite length_app, Hc, Hp.
    - by rewrite be_bytes_length. }
  assert (S6 : drop HEADER_LEN bytes = tail) by (unfold bytes; by rewrite <-Hlen, drop_app_length).
  clearbody bytes. rewrite S1, S2, S3, S4, S5, S6. rewrite !of_be_byte by (rewrite ?Hv; first [by apply ft_small|done]).
  destruct Hty as [t Hty]. rewrite Hty. rewrite decide_False by (by intros []). rewrite of_be_bytes by done. by destruct h.
Qed.

Lemma drop_nonce id ct : slice 0 NONCE_LEN (nonce_for_msg_id id ++ ct) = nonce_for_msg_id id ∧ drop NONCE_LEN (nonce_for_msg_id id ++ ct) = ct.
Proof. split; [apply slice_here, nonce_length|]. by rewrite <-(nonce_length id), drop_app_length. Qed.

Section frames.
Context `{AeadLaws}.

Lemma frame_decodes h b key bytes :
  header_ok h → body_ok b → fh_frame_type h = ft_code (body_type b) → pack h b key = Ok bytes →
  decode_full bytes key = Ok (h, as_read b).
Proof.
  intros Hh Hb Hty. unfold pack. destruct (encode_body b) as [pt|e|] eqn:Henc; [|done..].
  destruct (aead_seal _ _ _ _) as [ct|] eqn:Hct; [|done]. case_decide as Hmax; [done|]. intros <-%Ok_inj.
  pose proof (aead_seal_length _ _ _ _ _ Hct) as Hlen.
  unfold decode_full. rewrite decode_header_encode; [|done|rewrite length_app, nonce_length; lia|].
  2: { unfold len_N. rewrite !length_app, encode_aad_length, nonce_length by done. lia. }
  unfold decode_and_verify. destruct (drop_nonce (fh_msg_id h) ct) as [Hn Hd]. rewrite Hn, Hd.
  rewrite decide_False by (rewrite length_app, nonce_length; lia). rewrite decide_False by (by intros []).
  rewrite (aead_open_seal _ _ _ _ _ Hct), Hty. by rewrite (body_roundtrip b pt Hb Henc).
Qed.


Lemma encode_aad_slices bytes :
  HEADER_LEN ≤ length bytes →
  encode_aad (mkHeader (of_be (slice 0 1 bytes)) (of_be (slice 1 2 bytes)) (slice 2 18 bytes) (slice 18 34 bytes)
    (of_be (slice 34 42 bytes))) = take HEADER_LEN bytes.
Proof.
  intros Hlen. unfold encode_aad. cbn [fh_frame_type fh_version fh_channel_id fh_routing_prefix fh_msg_id].
  do 42 (destruct bytes as [|? bytes]; [cbn in Hlen; unfold HEADER_LEN in Hlen; lia|]). clear Hlen.
  cbn [slice take drop app Nat.sub HEADER_LEN]. unfold slice. cbn [take drop Nat.sub app].
  match goal with |- context [be_bytes 8 (of_be ?l)] => change 8 with (length l) end. rewrite be_bytes_of_be.
  unfold of_be. cbn [foldl]. by rewrite !N.mul_0_l, !N.add_0_l, !ascii_N_embedding.
Qed.

(** Only sealed frames are accepted: bytes that decode are at most a mebibyte and are a header, the
    nonce derived from the header's message number, and a ciphertext that was sealed under
    the receiver's key with exactly that header as associated data; so no field of the
    header can be changed in transit, and the body is what was sealed. *)
Theorem decoded_frame_was_sealed bytes key h b :
  decode_full bytes key = Ok (h, b) →
  (len_N bytes ≤ MAX_FRAME_SIZE)%N ∧ header_ok h ∧
  ∃ pt ct, bytes = encode_aad h ++ nonce_for_msg_id (fh_msg_id h) ++ ct ∧
    aead_seal key (nonce_for_msg_id (fh_msg_id h)) (encode_aad h) pt = Some ct ∧ decode_body (fh_frame_type h) pt = Ok b.
Proof.
  unfold decode_full. destruct (decode_header bytes) as [[h' tail]|e|] eqn:Hd; [|done..].
  destruct (decode_and_verify h' tail key) as [b'|e|] eqn:Hv; [|done..]. intros [= <- <-].
  revert Hd. unfold decode_header. case_decide as Hmax; [done|]. case_decide as Hlen; [done|].
  destruct (ft_from_u8 _) as [t|] eqn:Hty; [|done]. case_decide as Hver; [done|]. intros [= <- <-].
  assert (Hle : HEADER_LEN ≤ length bytes) by (unfold HEADER_LEN, NONCE_LEN, TAG_LEN in *; lia).
  split; [lia|]. set (h := mkHeader _ _ _ _ _) in *.
  assert (Haad : encode_aad h = take HEADER_LEN bytes) by (by apply encode_aad_slices).
  split.
  { unfold HEADER_LEN in Hle. split; cbn.
    - by eexists.
    - by destruct (decide (of_be (slice 1 2 bytes) = FRAME_VERSION)).
    - unfold slice. rewrite length_take, length_drop. lia.
    - unfold slice. rewrite length_take, length_drop. lia.
    - eapply N.lt_le_trans; [apply of_be_bound|]. unfold slice. rewrite length_take, length_drop.
      replace (_ `min` _) with 8 by lia. done. }
  revert Hv. unfold decode_and_verify. case_decide as Htl; [done|]. case_decide as Hn; [done|].
  rewrite Hn.
  destruct (aead_open _ _ _ _) as [pt|] eqn:Ho; [|done]. intros Hb.
  exists pt, (drop NONCE_LEN (drop HEADER_LEN bytes)). split_and!; [|by apply aead_seal_open|done].
  rewrite Haad, <-Hn. unfold slice. rewrite drop_0, Nat.sub_0_r. by rewrite take_drop, take_drop.
Qed.

(** A data frame padded by the default rule is a multiple of 64 bytes long, with less than 64 bytes
    of padding, whatever the payload. *)
Theorem padded_frame_length h payload key bytes :
  header_ok h →
  pack h (Data payload (replicate (N.to_nat (padding_length (len_N payload) DEFAULT_PADDING_BOUNDARY)) zero)) key = Ok bytes →
  (len_N bytes mod 64 = 0)%N ∧ (len_N bytes < len_N payload + 138)%N.
Proof.
  intros Hh. unfold pack. destruct (encode_body _) as [pt|e|] eqn:Henc; [|done..].
  destruct (aead_seal _ _ _ _) as [ct|] eqn:Hct; [|done]. case_decide as Hmax; [done|]. intros <-%Ok_inj.
  pose proof (aead_seal_length _ _ _ _ _ Hct) as Hlen.
  assert (Hpt : length pt = 4 + length payload + N.to_nat (padding_length (len_N payload) DEFAULT_PADDING_BOUNDARY)).
  { unfold encode_body in Henc. repeat case_decide; try done. apply Ok_inj in Henc as <-.
    rewrite !length_app, !be_bytes_length, length_replicate. lia. }
  unfold len_N. rewrite !length_app, encode_aad_length, nonce_length, Hlen, Hpt by done.
  unfold padding_length, DEFAULT_PADDING_BOUNDARY, HEADER_LEN, NONCE_LEN, TAG_LEN, len_N in *.
  set (p := N.of_nat (length payload)). replace (length payload) with (N.to_nat p) by (unfold p; lia).
  pose proof (N.mod_lt (42 + 12 + 2 + 2 + 16 + p) 64 ltac:(lia)) as Hr.
  pose proof (N.div_mod (42 + 12 + 2 + 2 + 16 + p) 64 ltac:(lia)) as Hdm. revert Hr Hdm.
  generalize ((42 + 12 + 2 + 2 + 16 + p) `mod` 64)%N ((42 + 12 + 2 + 2 + 16 + p) / 64)%N. clearbody p. intros r q Hr Hdm.
  destruct (decide (r = 0)%N) as [Hz|Hz].
  - split; [|lia]. replace (N.of_nat _) with (q * 64)%N by lia. by rewrite N.Div0.mod_mul.
  - split; [|lia]. replace (N.of_nat _) with ((q + 1) * 64)%N by lia. by rewrite N.Div0.mod_mul.
Qed.
End frames.
