(* ===== verification/DcxRuntime.v ===== *)
(** DCX channels, [src/didcomm/src/dcx]: key derivation and channel state
    ([crypto/kdf.rs], [routing.rs], [channel/]) and the classical session provider
    ([providers/classical.rs]).

    A channel is a shared object: the manager's maps hold addresses of a heap, so that who
    looked a channel up keeps it when another one takes its place.  The durable counter
    store is an interface with the laws that its documentation states; SHA-256, HKDF and
    X25519 are parameters.

    The DCX runtime, [src/didcomm/src/dcx/agent_integration.rs], with its two transports
    ([transports/outbound.rs] and [transports/inbound.rs]), and the sequences of calls,
    crashes and restarts it goes through.

    The runtime's state is what its shared parts hold: the channels, the classical provider,
    the optional stronger provider (a parameter), the durable store, and two logs - the
    frames handed to the wire, each with the key it was sealed under, and the bodies given
    to the dispatcher.  The logs and the store are what a restart keeps. *)
From Stdlib Require Import Ascii.
From S2P Require Import Prelude StdText DcxFrame.

(** * Keys *)

Class DcxCrates := {
  dc_sha256 : Bytes → Bytes;
  dc_hkdf : option Bytes → Bytes → Bytes → nat → Bytes;
  dc_x25519 : Bytes → Bytes → Bytes
}.

(** [src/didcomm/src/dcx/session.rs:14-42] SessionKeys *)
Record SessionKeys := mkSessionKeys {
  sk_kek : Bytes;
  sk_auth_key : Bytes;
  sk_generation : N;
  sk_peer_kid : string;
  sk_connection_id : string;
  sk_is_initiator : bool
}.

(** [src/didcomm/src/dcx/session.rs:58-85] SessionEvent *)
Inductive SessionEvent :=
  | Established (peer_did : string) (generation : N) (provider_id : string)
  | Rotated (peer_did : string) (old_gen new_gen : N)
  | Closed (peer_did reason : string).

(** [src/didcomm/src/dcx/errors.rs:53-82] ChannelError *)
Inductive ChannelError :=
  | UnknownChannel (id : Bytes)
  | Replay (got last : N)
  | FlowViolation (window : N)
  | DowngradeDetected
  | ChInvalidTransition (s : string).

(** [src/didcomm/src/dcx/errors.rs:85-110] ProviderError *)
Inductive ProviderError :=
  | NoSession (peer : string)
  | HandshakeTimeout
  | HandshakeRejected (s : string)
  | LowOrderX25519
  | PvInternal (s : string)
  | NotImplemented (s : string).

Section keys.
Context `{DcxCrates}.

(** [src/didcomm/src/dcx/crypto/kdf.rs:43-65] derive_directional_keys (the send and the receive key) *)
Definition derive_directional_keys (kek : Bytes) (is_initiator : bool) : Bytes * Bytes :=
  let out := dc_hkdf None kek (str_bytes "dcx/1.0/initiator-out") 32 in
  let inn := dc_hkdf None kek (str_bytes "dcx/1.0/initiator-in") 32 in
  if is_initiator then (out, inn) else (inn, out).

(** [src/didcomm/src/dcx/routing.rs:15-21] derive_routing_prefix *)
Definition derive_routing_prefix (recipient_kid : string) : Bytes := take 16 (dc_sha256 (str_bytes recipient_kid)).

(** [src/didcomm/src/dcx/routing.rs:33-43] derive_channel_id *)
Definition derive_channel_id (provider_id connection_id : string) (generation : N) : Bytes :=
  take 16 (dc_sha256 (str_bytes "dcx/1.0/channel_id" ++ str_bytes provider_id ++ str_bytes connection_id ++ be_bytes 4 generation)).
End keys.

(** * Channels *)

(** [src/didcomm/src/dcx/channel/state.rs:9-25] ChannelState *)
Inductive ChannelState := Inactive | Establishing | ActiveUnconfirmed | AwaitingConfirm | Confirmed | Rotating | Upgrading.

(** [src/didcomm/src/dcx/channel/state.rs:31-83] Channel *)
Record Channel := mkChannel {
  ch_channel_id : Bytes;
  ch_connection_id : string;
  ch_peer_did : string;
  ch_peer_kid : string;
  ch_peer_routing_prefix : Bytes;
  ch_provider_id : string;
  ch_generation : N;
  ch_k_send : Bytes;
  ch_k_recv : Bytes;
  ch_auth_key : Bytes;
  ch_msg_id_send : N;
  ch_send_reserved : N;
  ch_msg_id_recv : N;
  ch_received_any : bool;
  ch_state : ChannelState
}.

Definition ch_set_counters (send reserved recv : N) (any : bool) (c : Channel) : Channel :=
  mkChannel (ch_channel_id c) (ch_connection_id c) (ch_peer_did c) (ch_peer_kid c) (ch_peer_routing_prefix c)
    (ch_provider_id c) (ch_generation c) (ch_k_send c) (ch_k_recv c) (ch_auth_key c) send reserved recv any (ch_state c).

(** [src/didcomm/src/dcx/channel/persistence.rs:21-33] PersistedCounters *)
Record PersistedCounters := mkPersisted { pc_send_reserved : N; pc_msg_id_recv : N; pc_received_any : bool }.

Definition u64_max : N := 18446744073709551615%N.
(** [u64::saturating_add]. *)
Definition saturating_add (a b : N) : N := N.min (a + b) u64_max.

Section channel.
Context `{DcxCrates}.

(** [src/didcomm/src/dcx/channel/state.rs:90-120] Channel::from_session_keys *)
Definition ch_from_session_keys (session : SessionKeys) (peer_did provider_id : string) (is_initiator : bool) : Channel :=
  let dir := derive_directional_keys (sk_kek session) is_initiator in
  mkChannel (derive_channel_id provider_id (sk_connection_id session) (sk_generation session)) (sk_connection_id session)
    peer_did (sk_peer_kid session) (derive_routing_prefix (sk_peer_kid session)) provider_id (sk_generation session)
    dir.1 dir.2 (sk_auth_key session) 0 0 0 false ActiveUnconfirmed.

(** [src/didcomm/src/dcx/channel/state.rs:134-151] Channel::resume *)
Definition ch_resume (session : SessionKeys) (peer_did provider_id : string) (is_initiator : bool) (persisted : PersistedCounters)
    : Channel :=
  ch_set_counters (pc_send_reserved persisted) (pc_send_reserved persisted) (pc_msg_id_recv persisted)
    (pc_received_any persisted) (ch_from_session_keys session peer_did provider_id is_initiator).
End channel.

(** [src/didcomm/src/dcx/channel/state.rs:156-158] Channel::needs_send_reservation *)
Definition ch_needs_send_reservation (c : Channel) : bool := bool_decide (ch_send_reserved c ≤ ch_msg_id_send c)%N.

(** [src/didcomm/src/dcx/channel/state.rs:164-167] Channel::reserve_send *)
Definition ch_reserve_send (batch : N) (c : Channel) : Channel :=
  ch_set_counters (ch_msg_id_send c) (saturating_add (ch_msg_id_send c) (N.max batch 1)) (ch_msg_id_recv c) (ch_received_any c) c.

(** [src/didcomm/src/dcx/channel/state.rs:171-175] Channel::next_send_msg_id *)
Definition ch_next_send_msg_id (c : Channel) : N * Channel :=
  (ch_msg_id_send c,
   ch_set_counters (saturating_add (ch_msg_id_send c) 1) (ch_send_reserved c) (ch_msg_id_recv c) (ch_received_any c) c).

(** [src/didcomm/src/dcx/channel/state.rs:185-199] Channel::observe_recv *)
Definition ch_observe_recv (msg_id : N) (c : Channel) : outcome ChannelError Channel :=
  if ch_received_any c && bool_decide (msg_id ≤ ch_msg_id_recv c)%N then Err (Replay msg_id (ch_msg_id_recv c))
  else Ok (ch_set_counters (ch_msg_id_send c) (ch_send_reserved c) msg_id true c).

(** [src/didcomm/src/dcx/channel/state.rs:202-208] Channel::set_state *)
Definition ch_set_state (new_state : ChannelState) (c : Channel) : outcome ChannelError Channel :=
  Ok (mkChannel (ch_channel_id c) (ch_connection_id c) (ch_peer_did c) (ch_peer_kid c) (ch_peer_routing_prefix c)
        (ch_provider_id c) (ch_generation c) (ch_k_send c) (ch_k_recv c) (ch_auth_key c) (ch_msg_id_send c)
        (ch_send_reserved c) (ch_msg_id_recv c) (ch_received_any c) new_state).

(** * The durable store *)

(** [src/didcomm/src/dcx/channel/persistence.rs:48-63] ChannelCounterStore *)
Class ChannelCounterStore (ST : Type) := {
  cs_load : ST → Bytes → option PersistedCounters;
  cs_save_send_reserved : Bytes → N → ST → ST;
  cs_save_recv : Bytes → N → ST → ST
}.

(** The highest reservation a store has for a channel, and its inbound high-water mark. *)
Definition reserved_of `{ChannelCounterStore ST} (st : ST) (id : Bytes) : N :=
  match cs_load st id with Some p => pc_send_reserved p | None => 0%N end.
Definition received_of `{ChannelCounterStore ST} (st : ST) (id : Bytes) : option N :=
  match cs_load st id with Some p => if pc_received_any p then Some (pc_msg_id_recv p) else None | None => None end.

(** What the documentation of the trait asks of a store: the reservation is durable when the
    write returns, for its channel only, and the write of an inbound mark leaves it alone.  The
    mark itself may lag. *)
Class StoreLaws (ST : Type) `{ChannelCounterStore ST} : Prop := {
  reserved_save_send st id n id' : reserved_of (cs_save_send_reserved id n st) id' = if decide (id' = id) then n else reserved_of st id';
  reserved_save_recv st id n id' : reserved_of (cs_save_recv id n st) id' = reserved_of st id'
}.

(** A store whose inbound marks do not lag: each is the maximum of what was saved. *)
Class PromptStore (ST : Type) `{ChannelCounterStore ST} : Prop := {
  received_save_send st id n id' : received_of (cs_save_send_reserved id n st) id' = received_of st id';
  received_save_recv st id n id' :
    received_of (cs_save_recv id n st) id' =
      if decide (id' = id) then Some (match received_of st id with Some m => N.max m n | None => n end) else received_of st id'
}.

(** [src/didcomm/src/dcx/channel/persistence.rs:70-70] SEND_RESERVATION_BATCH *)
Definition SEND_RESERVATION_BATCH : N := 1024%N.

(** * The manager *)

(** [src/didcomm/src/dcx/channel/manager.rs:17-21] ChannelManager (a shared channel is an address of the heap) *)
Record ChannelManager := mkManager {
  mg_heap : list Channel;
  mg_by_channel_id : gmap Bytes nat;
  mg_by_peer_did : gmap string Bytes;
  mg_by_routing_prefix : gmap Bytes Bytes
}.

(** [src/didcomm/src/dcx/channel/manager.rs:25-31] ChannelManager::new *)
Definition mg_new : ChannelManager := mkManager [] ∅ ∅ ∅.

(** [src/didcomm/src/dcx/channel/manager.rs:35-46] ChannelManager::insert *)
Definition mg_insert (c : Channel) (m : ChannelManager) : ChannelManager :=
  mkManager (mg_heap m ++ [c]) (<[ch_channel_id c := length (mg_heap m)]> (mg_by_channel_id m))
    (<[ch_peer_did c := ch_channel_id c]> (mg_by_peer_did m))
    (<[ch_peer_routing_prefix c := ch_channel_id c]> (mg_by_routing_prefix m)).

(** [src/didcomm/src/dcx/channel/manager.rs:49-51] ChannelManager::get_by_channel_id *)
Definition mg_get_by_channel_id (channel_id : Bytes) (m : ChannelManager) : option nat := mg_by_channel_id m !! channel_id.

(** [src/didcomm/src/dcx/channel/manager.rs:54-57] ChannelManager::get_by_peer_did *)
Definition mg_get_by_peer_did (peer_did : string) (m : ChannelManager) : option nat :=
  id ← mg_by_peer_did m !! peer_did; mg_by_channel_id m !! id.

(** [src/didcomm/src/dcx/channel/manager.rs:60-66] ChannelManager::get_by_routing_prefix *)
Definition mg_get_by_routing_prefix (routing_prefix : Bytes) (m : ChannelManager) : option nat :=
  id ← mg_by_routing_prefix m !! routing_prefix; mg_by_channel_id m !! id.

(** [src/didcomm/src/dcx/channel/manager.rs:70-80] ChannelManager::remove *)
Definition mg_remove (channel_id : Bytes) (m : ChannelManager) : ChannelManager :=
  match mg_by_channel_id m !! channel_id ≫= λ a, mg_heap m !! a with
  | None => m
  | Some ch =>
      mkManager (mg_heap m) (delete channel_id (mg_by_channel_id m)) (delete (ch_peer_did ch) (mg_by_peer_did m))
        (delete (ch_peer_routing_prefix ch) (mg_by_routing_prefix m))
  end.

(** [src/didcomm/src/dcx/channel/manager.rs:83-85] ChannelManager::len *)
Definition mg_len (m : ChannelManager) : nat := size (mg_by_channel_id m).

(** [channel_arc.lock().await] and a write through the guard. *)
Definition mg_write (a : nat) (c : Channel) (m : ChannelManager) : ChannelManager :=
  mkManager (<[a := c]> (mg_heap m)) (mg_by_channel_id m) (mg_by_peer_did m) (mg_by_routing_prefix m).

(** * The classical provider *)

(** [src/didcomm/src/dcx/providers/classical.rs:30-44] ClassicalKeyMaterial *)
Record ClassicalKeyMaterial := mkMaterial {
  km_our_x25519_secret : Bytes;
  km_peer_x25519_public : Bytes;
  km_our_did : string;
  km_peer_did : string;
  km_peer_kid : string;
  km_connection_id : string
}.

(** [src/didcomm/src/dcx/providers/classical.rs:50-54] ClassicalX25519Provider *)
Record ClassicalX25519Provider := mkClassical {
  cl_sessions : gmap string SessionKeys;
  cl_pending : gmap string ClassicalKeyMaterial;
  cl_events : list SessionEvent
}.

(** [src/didcomm/src/dcx/providers/classical.rs:61-68] ClassicalX25519Provider::new *)
Definition cl_new : ClassicalX25519Provider := mkClassical ∅ ∅ [].

(** [src/didcomm/src/dcx/providers/classical.rs:20-20] PROVIDER_ID *)
Definition PROVIDER_ID : string := "classical-x25519/1.0".

(** [src/didcomm/src/dcx/providers/classical.rs:72-77] ClassicalX25519Provider::register_peer_material *)
Definition cl_register (material : ClassicalKeyMaterial) (p : ClassicalX25519Provider) : ClassicalX25519Provider :=
  mkClassical (cl_sessions p) (<[km_peer_did material := material]> (cl_pending p)) (cl_events p).

(** [src/didcomm/src/dcx/providers/classical.rs:80-113] ClassicalX25519Provider::derive_keys *)
Definition cl_derive_keys `{DcxCrates} (shared_secret : Bytes) (our_did peer_did : string) : outcome ProviderError (Bytes * Bytes) :=
  if forallb (λ b, bool_decide (b = zero)) shared_secret then Err LowOrderX25519
  else
    let '(a, b) := if str_le our_did peer_did then (our_did, peer_did) else (peer_did, our_did) in
    let salt := dc_sha256 (str_bytes "dcx/1.0/classical-x25519" ++ str_bytes a ++ str_bytes b) in
    let km := dc_hkdf (Some salt) shared_secret (str_bytes "dcx/1.0/classical-x25519/v1") 96 in
    Ok (slice 0 32 km, slice 32 64 km).

(** [src/didcomm/src/dcx/providers/classical.rs:126-128] ClassicalX25519Provider::get_keys *)
Definition cl_get_keys (peer_did : string) (p : ClassicalX25519Provider) : option SessionKeys := cl_sessions p !! peer_did.

(** [src/didcomm/src/dcx/providers/classical.rs:130-174] ClassicalX25519Provider::establish *)
Definition cl_establish `{DcxCrates} (peer_did : string) : eff ProviderError ClassicalX25519Provider SessionKeys :=
  p ← eff_get;
  match cl_sessions p !! peer_did with
  | Some existing => mret existing
  | None =>
      match cl_pending p !! peer_did with
      | None => eff_throw (NoSession peer_did)
      | Some material =>
          let shared := dc_x25519 (km_our_x25519_secret material) (km_peer_x25519_public material) in
          keys ← eff_lift (cl_derive_keys shared (km_our_did material) (km_peer_did material));
          let session :=
            mkSessionKeys keys.1 keys.2 0 (km_peer_kid material) (km_connection_id material)
              (str_lt (km_our_did material) (km_peer_did material)) in
          _ ← eff_modify (λ p, mkClassical (<[peer_did := session]> (cl_sessions p)) (cl_pending p)
                                 (cl_events p ++ [Established peer_did 0 PROVIDER_ID]));
          mret session
      end
  end.

(** [src/didcomm/src/dcx/providers/classical.rs:176-182] ClassicalX25519Provider::rotate *)
Definition cl_rotate (peer_did : string) : eff ProviderError ClassicalX25519Provider SessionKeys :=
  eff_throw (NotImplemented ("classical-x25519 rotation for " +:+ peer_did)).

(** [src/didcomm/src/dcx/providers/classical.rs:184-193] ClassicalX25519Provider::close *)
Definition cl_close (peer_did : string) (p : ClassicalX25519Provider) : ClassicalX25519Provider :=
  match cl_sessions p !! peer_did with
  | None => p
  | Some _ => mkClassical (delete peer_did (cl_sessions p)) (cl_pending p) (cl_events p ++ [Closed peer_did "user-requested"])
  end.

(** [src/didcomm/src/dcx/transports/outbound.rs:43-54] DcxOutboundError *)
Inductive DcxOutboundError :=
  | OeProvider (e : ProviderError)
  | OeFrame (e : FrameError)
  | WsUnavailable (s : string).

(** [src/didcomm/src/dcx/transports/inbound.rs:19-29] InboundOutcome *)
Inductive InboundOutcome :=
  | Handled
  | NotDcx
  | DcxError (e : FrameError).

(** The answers of a provider that the consumer injects. *)
Record PqProvider := mkPq {
  pq_provider_id : string;
  pq_get_keys : string → option SessionKeys;
  pq_establish : string → outcome ProviderError SessionKeys
}.

(** [src/didcomm/src/dcx/agent_integration.rs:25-44] DcxRuntime (with the logs of the wire and of the dispatcher) *)
Record DcxRuntime (ST : Type) := mkRt {
  rt_channels : ChannelManager;
  rt_classical : ClassicalX25519Provider;
  rt_pq : option PqProvider;
  rt_store : option ST;
  rt_open : bool;
  rt_sent : list (Bytes * FrameHeader * Bytes);
  rt_delivered : list (Bytes * N * FrameBody)
}.
Arguments mkRt {ST} _ _ _ _ _ _ _.
Arguments rt_channels {ST} _.
Arguments rt_classical {ST} _.
Arguments rt_pq {ST} _.
Arguments rt_store {ST} _.
Arguments rt_open {ST} _.
Arguments rt_sent {ST} _.
Arguments rt_delivered {ST} _.

Section runtime.
Context `{DcxCrates} `{Aead} {ST : Type} `{ChannelCounterStore ST}.
Abbreviation RT := (DcxRuntime ST).

Definition rt_set_channels (m : ChannelManager) (rt : RT) : RT :=
  mkRt m (rt_classical rt) (rt_pq rt) (rt_store rt) (rt_open rt) (rt_sent rt) (rt_delivered rt).
Definition rt_set_classical (cl : ClassicalX25519Provider) (rt : RT) : RT :=
  mkRt (rt_channels rt) cl (rt_pq rt) (rt_store rt) (rt_open rt) (rt_sent rt) (rt_delivered rt).
Definition rt_set_store (st : option ST) (rt : RT) : RT :=
  mkRt (rt_channels rt) (rt_classical rt) (rt_pq rt) st (rt_open rt) (rt_sent rt) (rt_delivered rt).
Definition rt_log_sent (k : Bytes) (h : FrameHeader) (bytes : Bytes) (rt : RT) : RT :=
  mkRt (rt_channels rt) (rt_classical rt) (rt_pq rt) (rt_store rt) (rt_open rt) (rt_sent rt ++ [(k, h, bytes)]) (rt_delivered rt).
Definition rt_deliver (id : Bytes) (msg_id : N) (b : FrameBody) (rt : RT) : RT :=
  mkRt (rt_channels rt) (rt_classical rt) (rt_pq rt) (rt_store rt) (rt_open rt) (rt_sent rt) (rt_delivered rt ++ [(id, msg_id, b)]).

(** [src/didcomm/src/dcx/agent_integration.rs:55-77] DcxRuntime::new *)
Definition rt_new (open : bool) : RT := mkRt mg_new cl_new None None open [] [].

(** [src/didcomm/src/dcx/agent_integration.rs:82-84] DcxRuntime::set_pq_provider *)
Definition set_pq_provider (provider : PqProvider) (rt : RT) : RT :=
  mkRt (rt_channels rt) (rt_classical rt) (match rt_pq rt with Some p => Some p | None => Some provider end)
    (rt_store rt) (rt_open rt) (rt_sent rt) (rt_delivered rt).

(** [src/didcomm/src/dcx/agent_integration.rs:91-95] DcxRuntime::set_counter_store *)
Definition set_counter_store (store : ST) (rt : RT) : RT :=
  rt_set_store (match rt_store rt with Some st => Some st | None => Some store end) rt.

(** [src/didcomm/src/dcx/agent_integration.rs:101-103] DcxRuntime::register_classical_peer *)
Definition register_classical_peer (material : ClassicalKeyMaterial) (rt : RT) : RT :=
  rt_set_classical (cl_register material (rt_classical rt)) rt.

(** A call of the classical provider. *)
Definition on_classical {A} (m : eff ProviderError ClassicalX25519Provider A) : eff DcxOutboundError RT A := λ rt w,
  let '(r, cl, w) := m (rt_classical rt) w in
  (match r with Ok a => Ok a | Err e => Err (OeProvider e) | Panic => Panic end, rt_set_classical cl rt, w).

(** * Sending *)

(** [src/didcomm/src/dcx/transports/outbound.rs:106-134] DcxOutboundTransport::send_to_peer (fresh or resumed) *)
Definition build_channel (keys : SessionKeys) (peer_did provider_id : string) (st : option ST) : Channel :=
  match st ≫= λ st, cs_load st (derive_channel_id provider_id (sk_connection_id keys) (sk_generation keys)) with
  | Some persisted => ch_resume keys peer_did provider_id (sk_is_initiator keys) persisted
  | None => ch_from_session_keys keys peer_did provider_id (sk_is_initiator keys)
  end.

(** [src/didcomm/src/dcx/transports/outbound.rs:90-134] DcxOutboundTransport::send_to_peer (find the channel or build one) *)
Definition send_lookup (peer_did : string) : eff DcxOutboundError RT (nat + Channel) :=
  rt ← eff_get;
  match mg_get_by_peer_did peer_did (rt_channels rt) with
  | Some a => mret (inl a)
  | None =>
      keys ← on_classical (cl_establish peer_did);
      rt ← eff_get;
      mret (inr (build_channel keys peer_did PROVIDER_ID (rt_store rt)))
  end.

(** [src/didcomm/src/dcx/transports/outbound.rs:135-141] DcxOutboundTransport::send_to_peer (register the channel) *)
Definition send_register (peer_did : string) (found : nat + Channel) : eff DcxOutboundError RT nat :=
  match found with
  | inl a => mret a
  | inr channel =>
      _ ← eff_modify (λ rt, rt_set_channels (mg_insert channel (rt_channels rt)) rt);
      rt ← eff_get;
      match mg_get_by_peer_did peer_did (rt_channels rt) with
      | Some a => mret a
      | None => eff_throw (WsUnavailable "channel registration race")
      end
  end.

(** The channel behind an address: a shared pointer always has one. *)
Definition read_channel (a : nat) : eff DcxOutboundError RT Channel :=
  rt ← eff_get;
  match mg_heap (rt_channels rt) !! a with Some c => mret c | None => eff_lift Panic end.
Definition write_channel (a : nat) (c : Channel) : eff DcxOutboundError RT unit :=
  eff_modify (λ rt, rt_set_channels (mg_write a c (rt_channels rt)) rt).

(** [src/didcomm/src/dcx/transports/outbound.rs:147-154] DcxOutboundTransport::send_to_peer (reserve and persist) *)
Definition send_reserve (a : nat) : eff DcxOutboundError RT unit :=
  channel ← read_channel a;
  if ch_needs_send_reservation channel then
    let channel' := ch_reserve_send SEND_RESERVATION_BATCH channel in
    _ ← write_channel a channel';
    eff_modify (λ rt, rt_set_store (cs_save_send_reserved (ch_channel_id channel) (ch_send_reserved channel') <$> rt_store rt) rt)
  else mret tt.

(** [src/didcomm/src/dcx/transports/outbound.rs:157-187] DcxOutboundTransport::send_to_peer (number, seal and push) *)
Definition send_frame (a : nat) (application_payload : Bytes) : eff DcxOutboundError RT unit :=
  channel ← read_channel a;
  let '(msg_id, channel') := ch_next_send_msg_id channel in
  _ ← write_channel a channel';
  let pad_len := padding_length (len_N application_payload) DEFAULT_PADDING_BOUNDARY in
  let body := Data application_payload (replicate (N.to_nat pad_len) zero) in
  let header := mkHeader (ft_code FtData) FRAME_VERSION (ch_channel_id channel) (ch_peer_routing_prefix channel) msg_id in
  bytes ← eff_lift (match pack header body (ch_k_send channel) with Ok b => Ok b | Err e => Err (OeFrame e) | Panic => Panic end);
  rt ← eff_get;
  if rt_open rt then eff_modify (rt_log_sent (ch_k_send channel) header bytes)
  else eff_throw (WsUnavailable "ws pickup loop closed").

(** [src/didcomm/src/dcx/transports/outbound.rs:84-188] DcxOutboundTransport::send_to_peer *)
Definition send_to_peer (peer_did : string) (application_payload : Bytes) : eff DcxOutboundError RT unit :=
  found ← send_lookup peer_did;
  a ← send_register peer_did found;
  _ ← send_reserve a;
  send_frame a application_payload.

(** [src/didcomm/src/dcx/agent_integration.rs:117-179] DcxRuntime::ensure_channel *)
Definition ensure_channel (peer_did : string) : eff DcxOutboundError RT unit :=
  rt ← eff_get;
  match mg_get_by_peer_did peer_did (rt_channels rt) with
  | Some _ => mret tt
  | None =>
      let pq := match rt_pq rt with Some pq => match pq_get_keys pq peer_did with Some _ => Some pq | None => None end | None => None end in
      r ← eff_catch (match pq with
                     | Some pq => eff_lift (match pq_establish pq peer_did with Ok k => Ok k | Err e => Err (OeProvider e) | Panic => Panic end)
                     | None => on_classical (cl_establish peer_did)
                     end);
      match r with
      | inl _ => mret tt
      | inr keys =>
          let provider_id := match pq with Some pq => pq_provider_id pq | None => PROVIDER_ID end in
          eff_modify (λ rt, rt_set_channels (mg_insert (build_channel keys peer_did provider_id (rt_store rt)) (rt_channels rt)) rt)
      end
  end.

(** * Receiving *)

(** [src/didcomm/src/dcx/transports/inbound.rs:72-161] DcxInboundExtension::try_handle *)
Definition try_handle (bytes : Bytes) (rt : RT) : InboundOutcome * RT :=
  match decode_header bytes with
  | Ok (header, tail) =>
      match mg_get_by_channel_id (fh_channel_id header) (rt_channels rt) with
      | None => (DcxError (MalformedPayload "unknown channel"), rt)
      | Some a =>
          match mg_heap (rt_channels rt) !! a with
          | None => (DcxError (MalformedPayload "unknown channel"), rt)
          | Some channel =>
              match decode_and_verify header tail (ch_k_recv channel) with
              | Err e => (DcxError e, rt)
              | Panic => (NotDcx, rt)
              | Ok body =>
                  match ch_observe_recv (fh_msg_id header) channel with
                  | Ok channel' =>
                      let rt := rt_set_channels (mg_write a channel' (rt_channels rt)) rt in
                      let rt := rt_set_store (cs_save_recv (fh_channel_id header) (fh_msg_id header) <$> rt_store rt) rt in
                      (Handled, rt_deliver (fh_channel_id header) (fh_msg_id header) body rt)
                  | _ => (DcxError (MalformedPayload "replay rejected"), rt)
                  end
              end
          end
      end
  | _ => (NotDcx, rt)
  end.

(** * Runs *)

(** What can happen to a wallet's runtime: its calls, a crash in the middle of a send, and a restart.
    The wire opens and closes, and the injected provider changes its answers. *)
Inductive dcx_event :=
  | EvRegister (material : ClassicalKeyMaterial)
  | EvEnsure (peer_did : string)
  | EvSend (peer_did : string) (application_payload : Bytes)
  | EvReceive (bytes : Bytes)
  | EvRemove (channel_id : Bytes)
  | EvClose (peer_did : string)
  | EvSetPq (provider : PqProvider)
  | EvPqAnswers (provider : PqProvider)
  | EvWire (open : bool)
  | EvCrashInSend (peer_did : string)
  | EvRestart.

(** What a send does before its frame is numbered. *)
Definition send_prefix (peer_did : string) : eff DcxOutboundError RT unit :=
  found ← send_lookup peer_did;
  a ← send_register peer_did found;
  send_reserve a.

(** The process starts again on the same store. *)
Definition restart (rt : RT) : RT := mkRt mg_new cl_new None (rt_store rt) (rt_open rt) (rt_sent rt) (rt_delivered rt).

Definition dcx_step (ev : dcx_event) (s : RT * World) : RT * World :=
  let '(rt, w) := s in
  match ev with
  | EvRegister m => (register_classical_peer m rt, w)
  | EvEnsure p => let '(_, rt, w) := ensure_channel p rt w in (rt, w)
  | EvSend p payload => let '(_, rt, w) := send_to_peer p payload rt w in (rt, w)
  | EvReceive bytes => ((try_handle bytes rt).2, w)
  | EvRemove id => (rt_set_channels (mg_remove id (rt_channels rt)) rt, w)
  | EvClose p => (rt_set_classical (cl_close p (rt_classical rt)) rt, w)
  | EvSetPq p => (set_pq_provider p rt, w)
  | EvPqAnswers p =>
      (mkRt (rt_channels rt) (rt_classical rt) (match rt_pq rt with Some _ => Some p | None => None end) (rt_store rt)
         (rt_open rt) (rt_sent rt) (rt_delivered rt), w)
  | EvWire open => (mkRt (rt_channels rt) (rt_classical rt) (rt_pq rt) (rt_store rt) open (rt_sent rt) (rt_delivered rt), w)
  | EvCrashInSend p =>
      let '(_, rt, w) := send_prefix p rt w in (restart rt, w)
  | EvRestart => (restart rt, w)
  end.

Definition dcx_run (evs : list dcx_event) (s : RT * World) : RT * World := foldl (λ s ev, dcx_step ev s) s evs.

(** A runtime that is given its store before any traffic. *)
Definition boot (st : ST) : RT := set_counter_store st (rt_new true).
End runtime.
