(* ===== verification/DcxSafety.v ===== *)
(** Safety of DCX across sends, receipts, crashes and restarts: no frame reuses the nonce of an
    earlier frame of its channel, no message is dispatched twice, and a rejected frame
    leaves no trace; with the symmetry of the two ends' keys and end-to-end delivery. *)
From Stdlib Require Import Ascii.
From S2P Require Import Prelude StdText DcxFrame DcxRuntime.

Lemma nonce_inj a b : (a < u64_modulus)%N → (b < u64_modulus)%N → nonce_for_msg_id a = nonce_for_msg_id b → a = b.
Proof. intros Ha Hb He%app_inv_head. by apply (be_bytes_inj 8). Qed.

Section invariant.
Context `{DcxCrates} `{Aead} {ST : Type} `{StoreLaws ST}.
Abbreviation RT := (DcxRuntime ST).
Abbreviation sent_entry := (Bytes * FrameHeader * Bytes)%type.

(** * The invariant *)

(** Every number logged for the channel is below [n], or the last of the counter's range. *)
Definition used_below (id : Bytes) (n : N) (log : list sent_entry) : Prop :=
  ∀ k h b, (k, h, b) ∈ log → fh_channel_id h = id → (fh_msg_id h < n)%N ∨ fh_msg_id h = u64_max.

(** The log is in order: along it the numbers of a channel increase, up to the last one. *)
Definition sent_ordered (log : list sent_entry) : Prop :=
  ∀ i j k h b k' h' b', i < j → log !! i = Some (k, h, b) → log !! j = Some (k', h', b') →
    fh_channel_id h = fh_channel_id h' → (fh_msg_id h < fh_msg_id h')%N ∨ fh_msg_id h = u64_max.

Definition delivered_ordered (log : list (Bytes * N * FrameBody)) : Prop :=
  ∀ i j id n b n' b', i < j → log !! i = Some (id, n, b) → log !! j = Some (id, n', b') → (n < n')%N.

Abbreviation delivery := (Bytes * N * FrameBody)%type.
(** Every number dispatched for the channel is within its mark. *)
Definition marked (mark : Bytes → option N) (log : list delivery) : Prop :=
  ∀ id n b, (id, n, b) ∈ log → ∃ m, mark id = Some m ∧ (n ≤ m)%N.
(** The marks of the store are not behind what was dispatched. *)
Definition caught_up (rt : RT) : Prop := ∀ st, rt_store rt = Some st → marked (received_of st) (rt_delivered rt).

Definition recv_mark (c : Channel) : option N := if ch_received_any c then Some (ch_msg_id_recv c) else None.

(** What is proved of deliveries is proved under [P]: that the store was not behind when a
    channel was built. *)
Variable P : Prop.

(** The counters of a live channel are those of the store, and ahead of what it sent and dispatched. *)
Record live (st : ST) (log : list sent_entry) (dl : list delivery) (c : Channel) : Prop := {
  live_reserved : ch_send_reserved c = reserved_of st (ch_channel_id c);
  live_next : (ch_msg_id_send c ≤ ch_send_reserved c)%N;
  live_used : used_below (ch_channel_id c) (ch_msg_id_send c) log;
  live_recv : P → ∀ n b, (ch_channel_id c, n, b) ∈ dl → ∃ m, recv_mark c = Some m ∧ (n ≤ m)%N
}.

Record inv_with (st : ST) (rt : RT) : Prop := {
  inv_store : rt_store rt = Some st;
  inv_bound id : (reserved_of st id ≤ u64_max)%N;
  inv_live id a : mg_by_channel_id (rt_channels rt) !! id = Some a →
    ∃ c, mg_heap (rt_channels rt) !! a = Some c ∧ ch_channel_id c = id ∧ live st (rt_sent rt) (rt_delivered rt) c;
  inv_used id : used_below id (reserved_of st id) (rt_sent rt);
  inv_u64 k h b : (k, h, b) ∈ rt_sent rt → (fh_msg_id h ≤ u64_max)%N;
  inv_sent : sent_ordered (rt_sent rt);
  inv_delivered : P → delivered_ordered (rt_delivered rt)
}.
Definition inv (rt : RT) : Prop := ∃ st, inv_with st rt.

Lemma used_mono id n m log : (n ≤ m)%N → used_below id n log → used_below id m log.
Proof. intros Hn Hu k h b He Hid. destruct (Hu k h b He Hid); [left; lia|by right]. Qed.

Lemma ordered_snoc log k h b :
  used_below (fh_channel_id h) (fh_msg_id h) log → sent_ordered log → sent_ordered (log ++ [(k, h, b)]).
Proof.
  intros Hu Ho i j k1 h1 b1 k2 h2 b2 Hij Hi Hj Hid.
  apply lookup_app_Some in Hj as [Hj|[Hlen Hj]].
  - rewrite lookup_app_l in Hi by (apply lookup_lt_Some in Hj; lia). by eapply Ho.
  - apply list_lookup_singleton_Some in Hj as [Hj [= <- <- <-]]. rewrite lookup_app_l in Hi by lia.
    apply list_elem_of_lookup_2 in Hi. by eapply Hu.
Qed.

Lemma delivered_snoc log id n b :
  (∀ m b', (id, m, b') ∈ log → (m < n)%N) → delivered_ordered log → delivered_ordered (log ++ [(id, n, b)]).
Proof.
  intros Hu Ho i j id' n1 b1 n2 b2 Hij Hi Hj.
  apply lookup_app_Some in Hj as [Hj|[Hlen Hj]].
  - rewrite lookup_app_l in Hi by (apply lookup_lt_Some in Hj; lia). by eapply Ho.
  - apply list_lookup_singleton_Some in Hj as [Hj [= <- <- <-]]. rewrite lookup_app_l in Hi by lia.
    apply list_elem_of_lookup_2 in Hi. by eapply Hu.
Qed.

Lemma used_snoc id n log k h b :
  used_below id n log → (fh_channel_id h = id → (fh_msg_id h < n)%N ∨ fh_msg_id h = u64_max) → used_below id n (log ++ [(k, h, b)]).
Proof.
  intros Hu Hn k' h' b' [He|He]%elem_of_app Hid; [by eapply Hu|].
  apply list_elem_of_singleton in He as [= -> -> ->]. by apply Hn.
Qed.

(** * Steps of the invariant *)

(** What only moves parts outside the invariant's view. *)
Lemma inv_frame rt rt' :
  inv rt → rt_store rt' = rt_store rt → rt_sent rt' = rt_sent rt → rt_delivered rt' = rt_delivered rt →
  mg_heap (rt_channels rt') = mg_heap (rt_channels rt) →
  mg_by_channel_id (rt_channels rt') ⊆ mg_by_channel_id (rt_channels rt) → inv rt'.
Proof.
  intros [st [Hs Hb Hl Hu H64 Ho Hd]] Es Ee Ed Eh Esub. exists st.
  split; rewrite ?Es, ?Ee, ?Ed, ?Eh; try done. intros id a Ha. apply Hl. by eapply lookup_weaken.
Qed.

Lemma remove_sub id m : mg_heap (mg_remove id m) = mg_heap m ∧ mg_by_channel_id (mg_remove id m) ⊆ mg_by_channel_id m.
Proof. unfold mg_remove. destruct (_ ≫= _); [|done]. split; [done|]. apply delete_subseteq. Qed.

Lemma build_live st log dl keys p pid :
  (∀ id, used_below id (reserved_of st id) log) → (P → marked (received_of st) dl) → live st log dl (build_channel keys p pid (Some st)).
Proof.
  intros Hu Hm. unfold build_channel. cbn. set (id := derive_channel_id _ _ _).
  assert (Hid : id = derive_channel_id pid (sk_connection_id keys) (sk_generation keys)) by done.
  specialize (Hu id). assert (Hr : P → ∀ n b, (id, n, b) ∈ dl → ∃ m, received_of st id = Some m ∧ (n ≤ m)%N).
  { intros HP n b. apply (Hm HP). }
  unfold reserved_of in Hu. unfold received_of in Hr.
  destruct (cs_load st id) as [pc|] eqn:Hload.
  - split; cbn; rewrite <-?Hid; [by unfold reserved_of; rewrite Hload|lia|done|exact Hr].
  - split; cbn; rewrite <-?Hid; [by unfold reserved_of; rewrite Hload|lia|done|exact Hr].
Qed.

Lemma insert_inv c rt st :
  inv_with st rt → live st (rt_sent rt) (rt_delivered rt) c → inv_with st (rt_set_channels (mg_insert c (rt_channels rt)) rt).
Proof.
  intros [Hs Hb Hl Hu H64 Ho Hd] Hc. split; try done. cbn. intros id a Ha.
  destruct (decide (id = ch_channel_id c)) as [->|Hne].
  - rewrite lookup_insert_eq in Ha. injection Ha as <-. exists c. split; [|done]. by apply list_lookup_middle.
  - rewrite lookup_insert_ne in Ha by done. destruct (Hl _ _ Ha) as (c' & Hc' & ?). exists c'. split; [|done].
    by apply lookup_app_l_Some.
Qed.

(** The address is that of a registered channel. *)
Definition registered (a : nat) (rt : RT) : Prop := ∃ id, mg_by_channel_id (rt_channels rt) !! id = Some a.

(** A live channel is overwritten in place: the rest of the heap is as it was. *)
Lemma write_live st st' log log' dl dl' m a c c' :
  (∀ id a, mg_by_channel_id m !! id = Some a → ∃ c, mg_heap m !! a = Some c ∧ ch_channel_id c = id ∧ live st log dl c) →
  mg_by_channel_id m !! ch_channel_id c = Some a → mg_heap m !! a = Some c →
  ch_channel_id c' = ch_channel_id c → live st' log' dl' c' →
  (∀ d, ch_channel_id d ≠ ch_channel_id c → live st log dl d → live st' log' dl' d) →
  ∀ id b, mg_by_channel_id (mg_write a c' m) !! id = Some b →
    ∃ d, mg_heap (mg_write a c' m) !! b = Some d ∧ ch_channel_id d = id ∧ live st' log' dl' d.
Proof.
  intros Hl Hr Ha Hid Hc' Hother id b Hb. cbn in *. destruct (Hl id b Hb) as (d & Hd & <- & Hld).
  destruct (decide (b = a)) as [->|Hne].
  - rewrite Ha in Hd. injection Hd as <-. exists c'. split; [|done]. apply list_lookup_insert_eq. by eapply lookup_lt_Some.
  - rewrite list_lookup_insert_ne by done. exists d. split; [done|]. split; [done|]. apply Hother; [|done].
    intros He. rewrite He, Hr in Hb. by injection Hb.
Qed.

Lemma registered_live rt st a :
  inv_with st rt → registered a rt →
  ∃ c, mg_heap (rt_channels rt) !! a = Some c ∧ mg_by_channel_id (rt_channels rt) !! ch_channel_id c = Some a ∧
    live st (rt_sent rt) (rt_delivered rt) c.
Proof. intros Hi [id Ha]. destruct (inv_live _ _ Hi _ _ Ha) as (c & Hc & <- & Hl). by exists c. Qed.

(** A reservation raises the ceiling of the channel and of the store together. *)
Lemma reserve_inv st rt a c :
  inv_with st rt → mg_heap (rt_channels rt) !! a = Some c → mg_by_channel_id (rt_channels rt) !! ch_channel_id c = Some a →
  live st (rt_sent rt) (rt_delivered rt) c → ch_needs_send_reservation c = true →
  let c' := ch_reserve_send SEND_RESERVATION_BATCH c in
  let st' := cs_save_send_reserved (ch_channel_id c) (ch_send_reserved c') st in
  inv_with st' (rt_set_store (Some st') (rt_set_channels (mg_write a c' (rt_channels rt)) rt)).
Proof.
  intros [Hs Hb Hl Hu H64 Ho Hd] Ha Hr Hlc Hneed c' st'. apply bool_decide_eq_true in Hneed.
  pose proof (Hb (ch_channel_id c)) as Hbc. pose proof (live_reserved _ _ _ _ Hlc) as Hres. pose proof (live_next _ _ _ _ Hlc) as Hnext.
  assert (Hc' : ch_send_reserved c' = saturating_add (ch_msg_id_send c) 1024) by done.
  unfold saturating_add in Hc'.
  assert (Hle : (reserved_of st (ch_channel_id c) ≤ ch_send_reserved c' ≤ u64_max)%N) by lia.
  assert (Hlive : live st' (rt_sent rt) (rt_delivered rt) c').
  { destruct Hlc. split; unfold st'; cbn.
    - by rewrite reserved_save_send, decide_True.
    - fold c'. cbn in Hc'. unfold saturating_add. lia.
    - done.
    - done. }
  split; cbn.
  - done.
  - intros id. unfold st'. rewrite reserved_save_send. case_decide; [lia|done].
  - apply (write_live st st' (rt_sent rt) (rt_sent rt) (rt_delivered rt) (rt_delivered rt) _ a c c'); try done.
    intros d Hne []. split; unfold st'; [by rewrite reserved_save_send, decide_False|done..].
  - intros id. unfold st'. rewrite reserved_save_send. case_decide as He; [|done]. subst id.
    eapply used_mono; [|apply Hu]. lia.
  - done.
  - done.
  - done.
Qed.

(** A reservation covers the channel's next number. *)
Definition covered (st : ST) (c : Channel) : Prop :=
  (ch_msg_id_send c < ch_send_reserved c)%N ∨ ch_send_reserved c = u64_max.

Lemma next_live st log dl c :
  (reserved_of st (ch_channel_id c) ≤ u64_max)%N → live st log dl c → covered st c → live st log dl (ch_next_send_msg_id c).2.
Proof.
  intros Hb [Hres Hnext Hused Hrecv] Hc. unfold covered in Hc. split; cbn; try done; unfold saturating_add; [lia|].
  eapply used_mono; [|exact Hused]. lia.
Qed.

(** The number is taken, whatever becomes of the frame. *)
Lemma number_inv st rt a c :
  inv_with st rt → mg_heap (rt_channels rt) !! a = Some c → mg_by_channel_id (rt_channels rt) !! ch_channel_id c = Some a →
  live st (rt_sent rt) (rt_delivered rt) c → covered st c →
  inv_with st (rt_set_channels (mg_write a (ch_next_send_msg_id c).2 (rt_channels rt)) rt).
Proof.
  intros Hi Ha Hr Hlc Hcov. pose proof (inv_bound _ _ Hi (ch_channel_id c)) as Hb.
  destruct Hi as [Hs Hbd Hl Hu H64 Ho Hd]. split; try done. cbn [rt_channels rt_set_channels rt_sent rt_delivered].
  apply (write_live st st (rt_sent rt) (rt_sent rt) (rt_delivered rt) (rt_delivered rt) _ a c); try done. by apply next_live.
Qed.

(** The frame is pushed. *)
Lemma push_inv st rt a c h k bytes :
  inv_with st rt → mg_heap (rt_channels rt) !! a = Some c → mg_by_channel_id (rt_channels rt) !! ch_channel_id c = Some a →
  live st (rt_sent rt) (rt_delivered rt) c → covered st c → fh_channel_id h = ch_channel_id c → fh_msg_id h = ch_msg_id_send c →
  inv_with st (rt_log_sent k h bytes (rt_set_channels (mg_write a (ch_next_send_msg_id c).2 (rt_channels rt)) rt)).
Proof.
  intros Hi Ha Hr Hlc Hcov Hid Hmsg. pose proof (inv_bound _ _ Hi (ch_channel_id c)) as Hb.
  pose proof (next_live _ _ _ _ Hb Hlc Hcov) as Hn. pose proof (live_reserved _ _ _ _ Hlc) as Hres.
  pose proof (live_next _ _ _ _ Hlc) as Hnext. unfold covered in Hcov.
  destruct Hi as [Hs Hbd Hl Hu H64 Ho Hd]. split; try done; cbn [rt_channels rt_set_channels rt_sent rt_log_sent rt_delivered].
  - apply (write_live st st (rt_sent rt) _ (rt_delivered rt) (rt_delivered rt) _ a c); try done.
    + destruct Hn as [? ? Hun ?]. split; try done. apply used_snoc; [done|]. intros _. cbn. unfold saturating_add. lia.
    + intros d Hne [? ? Hud ?]. split; try done. apply used_snoc; [done|]. intros He. congruence.
  - intros id. apply used_snoc; [done|]. intros He. rewrite <-He, Hid, Hmsg, <-Hres. lia.
  - intros k' h' b' [He|He]%elem_of_app; [by eapply H64|]. apply list_elem_of_singleton in He as [= -> -> ->]. lia.
  - apply ordered_snoc; [|done]. rewrite Hid, Hmsg. by destruct Hlc.
Qed.

(** A message is accepted: its number becomes the mark of the channel and of the store. *)
Lemma accept_inv st rt a c n c' b :
  inv_with st rt → mg_heap (rt_channels rt) !! a = Some c → mg_by_channel_id (rt_channels rt) !! ch_channel_id c = Some a →
  live st (rt_sent rt) (rt_delivered rt) c → ch_observe_recv n c = Ok c' →
  inv (rt_deliver (ch_channel_id c) n b
         (rt_set_store (cs_save_recv (ch_channel_id c) n <$> rt_store rt) (rt_set_channels (mg_write a c' (rt_channels rt)) rt))).
Proof.
  intros [Hs Hbd Hl Hu H64 Ho Hd] Ha Hr [Hres Hnext Hused Hrecv] Hobs.
  set (st' := cs_save_recv (ch_channel_id c) n st).
  assert (Hfresh : ∀ m, recv_mark c = Some m → (m < n)%N).
  { intros m. unfold recv_mark. revert Hobs. unfold ch_observe_recv.
    destruct (ch_received_any c); [|done]. cbn. case_bool_decide; [done|]. intros _ [= <-]. lia. }
  assert (Hc' : c' = ch_set_counters (ch_msg_id_send c) (ch_send_reserved c) n true c)
    by (revert Hobs; unfold ch_observe_recv; case_match; [done|by intros <-%Ok_inj]).
  assert (Hbelow : P → ∀ m b', (ch_channel_id c, m, b') ∈ rt_delivered rt → (m < n)%N).
  { intros HP m b' He. destruct (Hrecv HP _ _ He) as (m' & Hm' & Hle). specialize (Hfresh _ Hm'). lia. }
  exists st'. split; cbn [rt_channels rt_set_channels rt_sent rt_deliver rt_set_store rt_delivered rt_store].
  - by rewrite Hs.
  - intros id. unfold st'. by rewrite reserved_save_recv.
  - apply (write_live st st' (rt_sent rt) _ (rt_delivered rt) _ _ a c c'); subst c'; try done.
    + split; cbn; [by unfold st'; rewrite reserved_save_recv|done..|]. intros HP m b' [He|He]%elem_of_app; exists n; (split; [done|]).
      * specialize (Hbelow HP _ _ He). lia.
      * apply list_elem_of_singleton in He as [= -> ->]. lia.
    + intros d Hne [Hres' Hnext' Hused' Hrecv']. split; unfold st'; rewrite ?reserved_save_recv; [done..|].
      intros HP m b' [He|He]%elem_of_app; [by eapply Hrecv'|]. apply list_elem_of_singleton in He. congruence.
  - intros id. unfold st'. by rewrite reserved_save_recv.
  - done.
  - done.
  - intros HP. apply delivered_snoc; [|by apply Hd]. apply (Hbelow HP).
Qed.

(** * Calls *)

Abbreviation triple := (hoare (E:=DcxOutboundError) inv).

(** A channel can be built. *)
Definition may_build (rt : RT) : Prop := P → caught_up rt.

Lemma classical_triple {A} (m : eff ProviderError ClassicalX25519Provider A) :
  triple may_build (on_classical m) (λ _, may_build).
Proof.
  intros rt w Hi Hup. unfold on_classical. destruct (m _ w) as [[r cl] w'].
  assert (inv (rt_set_classical cl rt)) by (by apply (inv_frame rt)). by destruct r.
Qed.

(** What a lookup finds can be registered, and then has an address. *)
Definition found_ok (f : nat + Channel) (rt : RT) : Prop :=
  match f with inl a => registered a rt | inr c => ∃ st, rt_store rt = Some st ∧ live st (rt_sent rt) (rt_delivered rt) c end.

Lemma get_by_peer_registered p rt a : mg_get_by_peer_did p (rt_channels rt) = Some a → registered a rt.
Proof. unfold mg_get_by_peer_did. intros (id & _ & Ha)%bind_Some. by exists id. Qed.

Lemma lookup_triple p : triple may_build (send_lookup p) found_ok.
Proof.
  eapply hoare_bind; [apply hoare_get|]. intros rt. destruct (mg_get_by_peer_did p _) as [a|] eqn:Hp.
  - intros s w Hi [<- _]. split; [done|]. cbn. by eapply get_by_peer_registered.
  - eapply hoare_bind; [eapply hoare_pre; [|apply classical_triple]; by intros s [_ ?]|]. intros keys. eapply hoare_bind; [apply hoare_get|]. intros rt'.
    intros s w [st Hi] [<- Hup]. split; [by exists st|]. exists st. split; [apply Hi|].
    rewrite (inv_store _ _ Hi). apply build_live; [apply Hi|]. intros HP. apply (Hup HP), Hi.
Qed.

Lemma register_triple p f : triple (found_ok f) (send_register p f) registered.
Proof.
  destruct f as [a|c]; cbn [send_register].
  - by intros s w Hi Hf.
  - eapply hoare_bind with (R := λ _ _, True).
    { apply hoare_modify. intros s [st Hi] (st' & Hst & Hlc). rewrite (inv_store _ _ Hi) in Hst. injection Hst as <-.
      split; [|done]. exists st. by apply insert_inv. }
    intros []. eapply hoare_bind; [apply hoare_get|]. intros rt. destruct (mg_get_by_peer_did p _) as [a|] eqn:Hp.
    + intros s w Hi [<- _]. split; [done|]. by eapply get_by_peer_registered.
    + apply hoare_throw.
Qed.

(** The channel of a registered address, for a continuation that is given what [inv] knows of it. *)
Lemma read_step {A} a (k : Channel → eff DcxOutboundError RT A) rt w st c :
  inv_with st rt → mg_heap (rt_channels rt) !! a = Some c → (read_channel a ≫= k) rt w = k c rt w.
Proof. intros Hi Ha. unfold read_channel. eff_simpl. by rewrite Ha. Qed.

Definition covered_at (a : nat) (rt : RT) : Prop :=
  registered a rt ∧ ∀ st c, rt_store rt = Some st → mg_heap (rt_channels rt) !! a = Some c → covered st c.

Lemma reserve_triple a : triple (registered a) (send_reserve a) (λ _, covered_at a).
Proof.
  intros rt w [st Hi] Hreg. destruct (registered_live _ _ _ Hi Hreg) as (c & Ha & Hr & Hlc).
  unfold send_reserve. rewrite (read_step _ _ _ _ st c Hi Ha). destruct (ch_needs_send_reservation c) eqn:Hneed.
  - eff_simpl. pose proof (reserve_inv st rt a c Hi Ha Hr Hlc Hneed) as Hi'. cbn in Hi'. rewrite (inv_store _ _ Hi).
    split; [eexists; exact Hi'|]. split; [exact Hreg|]. intros st2 d _. cbn.
    rewrite list_lookup_insert_eq by (by eapply lookup_lt_Some). intros [= <-]. unfold covered. cbn. unfold saturating_add.
    pose proof (live_reserved _ _ _ _ Hlc). pose proof (inv_bound _ _ Hi (ch_channel_id c)). pose proof (live_next _ _ _ _ Hlc). lia.
  - split; [by exists st|]. split; [done|]. intros st2 d _ Hd. rewrite Ha in Hd. injection Hd as <-. left.
    unfold ch_needs_send_reservation in Hneed. apply bool_decide_eq_false in Hneed. lia.
Qed.

Lemma frame_triple a payload : triple (covered_at a) (send_frame a payload) (λ _ _, True).
Proof.
  intros rt w [st Hi] [Hreg Hcov]. destruct (registered_live _ _ _ Hi Hreg) as (c & Ha & Hr & Hlc).
  pose proof (Hcov st c (inv_store _ _ Hi) Ha) as Hc. unfold send_frame. rewrite (read_step _ _ _ _ st c Hi Ha).
  cbn [ch_next_send_msg_id].
  pose proof (number_inv st rt a c Hi Ha Hr Hlc Hc) as Hn. cbn [ch_next_send_msg_id snd] in Hn.
  set (h := mkHeader _ _ _ _ _).
  pose proof (λ bytes, push_inv st rt a c h (ch_k_send c) bytes Hi Ha Hr Hlc Hc eq_refl eq_refl) as Hp. cbn [ch_next_send_msg_id snd] in Hp.
  unfold mbind, eff_bind, write_channel, eff_modify, eff_lift, eff_get, eff_throw.
  destruct (pack h _ _) as [bytes|e|]; [|by exists st..]. cbn [rt_open rt_set_channels].
  destruct (rt_open rt); [|by exists st]. split; [|done]. exists st. apply Hp.
Qed.

Lemma send_triple p payload : triple may_build (send_to_peer p payload) (λ _ _, True).
Proof.
  eapply hoare_bind; [apply lookup_triple|]. intros f. eapply hoare_bind; [apply register_triple|]. intros a.
  eapply hoare_bind; [apply reserve_triple|]. intros []. apply frame_triple.
Qed.

Lemma crash_triple p : triple may_build (send_prefix p) (λ _ _, True).
Proof.
  eapply hoare_bind; [apply lookup_triple|]. intros f. eapply hoare_bind; [apply register_triple|]. intros a.
  eapply hoare_conseq; [| |apply reserve_triple]; done.
Qed.

Lemma ensure_triple p : triple may_build (ensure_channel p) (λ _ _, True).
Proof.
  eapply hoare_bind; [apply hoare_get|]. intros rt. destruct (mg_get_by_peer_did p _); [by intros s w Hi _|].
  cbv zeta. generalize (match rt_pq rt with Some pq => match pq_get_keys pq p with Some _ => Some pq | None => None end | None => None end).
  intros pq.
  eapply hoare_bind with (R := λ _, may_build).
  { intros s w Hs [_ Hup]. destruct pq as [pq|].
    - unfold eff_catch, eff_lift. destruct (pq_establish pq p); first [done|by split].
    - unfold eff_catch, on_classical. destruct (cl_establish p _ w) as [[r cl] w'].
      assert (inv (rt_set_classical cl s)) by (by apply (inv_frame s)). by destruct r. }
  intros [e|keys]; [by intros s w Hi _|]. apply hoare_modify. intros s [st Hi] Hup. split; [|done]. exists st.
  apply insert_inv; [done|]. rewrite (inv_store _ _ Hi). apply build_live; [apply Hi|]. intros HP. apply (Hup HP), Hi.
Qed.

Lemma handle_inv bytes rt : inv rt → inv (try_handle bytes rt).2.
Proof.
  intros [st Hi]. unfold try_handle. assert (inv rt) by (by exists st).
  destruct (decode_header bytes) as [[h tail]|e|]; [|done..]. destruct (mg_get_by_channel_id _ _) as [a|] eqn:Hg; [|done].
  destruct (inv_live _ _ Hi _ _ Hg) as (c & Ha & Hid & Hlc). rewrite Ha.
  destruct (decode_and_verify h tail _) as [b|e|]; [|done..].
  destruct (ch_observe_recv (fh_msg_id h) c) as [c'|e|] eqn:Hobs; [|done..]. cbn [snd]. rewrite <-Hid.
  apply (accept_inv st rt a c); try done. by rewrite Hid.
Qed.

Lemma restart_inv rt : inv rt → inv (restart rt).
Proof. intros [st []]. exists st. by split. Qed.

(** * Runs *)

(** The events that may build a channel. *)
Definition builds (ev : dcx_event) : bool :=
  match ev with EvEnsure _ | EvSend _ _ | EvCrashInSend _ => true | _ => false end.

Lemma triple_inv {A} Pre (m : eff DcxOutboundError RT A) Q rt w : triple Pre m Q → inv rt → Pre rt → inv (m rt w).1.2.
Proof. intros Hm Hi Hp. specialize (Hm rt w Hi Hp). destruct (m rt w) as [[[a|e|] rt'] w']; first [exact Hm|apply Hm]. Qed.

Lemma step_inv ev rt w : (builds ev = true → may_build rt) → inv rt → inv (dcx_step ev (rt, w)).1.
Proof.
  intros Hup Hi. destruct ev as [m|p|p payload|bytes|id|p|pq|pq|o|p|]; cbn [dcx_step].
  - by apply (inv_frame rt).
  - pose proof (triple_inv _ _ _ rt w (ensure_triple p) Hi (Hup eq_refl)) as H'. by destruct (ensure_channel p rt w) as [[? ?] ?].
  - pose proof (triple_inv _ _ _ rt w (send_triple p payload) Hi (Hup eq_refl)) as H'. by destruct (send_to_peer p payload rt w) as [[? ?] ?].
  - by apply handle_inv.
  - destruct (remove_sub id (rt_channels rt)). by apply (inv_frame rt).
  - by apply (inv_frame rt).
  - by apply (inv_frame rt).
  - by apply (inv_frame rt).
  - by apply (inv_frame rt).
  - pose proof (triple_inv _ _ _ rt w (crash_triple p) Hi (Hup eq_refl)) as H'. destruct (send_prefix p rt w) as [[? ?] ?]. by apply restart_inv.
  - by apply restart_inv.
Qed.

Definition caught_upb (rt : RT) : bool :=
  match rt_store rt with
  | Some st => forallb (λ '(id, n, _), match received_of st id with Some m => (n <=? m)%N | None => false end) (rt_delivered rt)
  | None => true
  end.
Lemma caught_upb_spec rt : caught_upb rt = true ↔ caught_up rt.
Proof.
  unfold caught_upb, caught_up, marked. destruct (rt_store rt) as [st|]; [|done]. rewrite forallb_forall. setoid_rewrite <-list_elem_of_In. split.
  - intros Hall st' [= <-] id n b He. specialize (Hall _ He). cbn in Hall. destruct (received_of st id) as [m|]; [|done].
    exists m. split; [done|]. by apply N.leb_le.
  - intros Hm [[id n] b] He. destruct (Hm st eq_refl id n b He) as (m & -> & Hle). by apply N.leb_le.
Qed.

(** A channel was built while the store was behind. *)
Fixpoint built_behind (evs : list dcx_event) (s : RT * World) : bool :=
  match evs with
  | [] => false
  | ev :: evs => (builds ev && negb (caught_upb s.1)) || built_behind evs (dcx_step ev s)
  end.

Lemma run_inv evs s : (P → built_behind evs s = false) → inv s.1 → inv (dcx_run evs s).1.
Proof.
  revert s. induction evs as [|ev evs IH]; intros [rt w] Hb Hi; [done|]. cbn in Hb. apply IH.
  - intros HP. by apply Hb, orb_false_iff in HP as [_ ?].
  - apply step_inv; [|done]. intros Hev HP. apply Hb, orb_false_iff in HP as [Hup _]. rewrite Hev in Hup. cbn in Hup.
    apply caught_upb_spec. by apply negb_false_iff.
Qed.

Lemma boot_inv st : (∀ id, (reserved_of st id ≤ u64_max)%N) → inv (boot st).
Proof.
  intros Hb. exists st. split; cbn; try done.
  - intros id k h b He. by apply elem_of_nil in He.
  - intros k h b He. by apply elem_of_nil in He.
Qed.
End invariant.

(** * A store whose marks do not lag *)

Section prompt.
Context `{DcxCrates} `{Aead} {ST : Type} `{PromptStore ST}.
Abbreviation RT := (DcxRuntime ST).

Lemma caught_frame (rt rt' : RT) : caught_up rt → rt_store rt' = rt_store rt → rt_delivered rt' = rt_delivered rt → caught_up rt'.
Proof. unfold caught_up. by intros ? -> ->. Qed.
Abbreviation keeps m := (hoare (E:=DcxOutboundError) (caught_up (ST:=ST)) (λ _, True) m (λ _ _, True)).

Lemma on_classical_keeps {A} (m : eff ProviderError ClassicalX25519Provider A) : keeps (on_classical m).
Proof. intros rt w Hc _. unfold on_classical. destruct (m _ w) as [[[a|e|] cl] w']; [split; [|done]|..]; by apply (caught_frame rt). Qed.
Lemma modify_keeps (f : RT → RT) : (∀ rt, caught_up rt → caught_up (f rt)) → keeps (eff_modify f).
Proof. intros Hf. apply hoare_modify. intros rt Hc _. split; [by apply Hf|done]. Qed.
Lemma get_keeps {A} (k : RT → eff DcxOutboundError RT A) : (∀ rt, keeps (k rt)) → keeps (eff_get ≫= k).
Proof. intros Hk. eapply hoare_bind; [apply hoare_get|]. intros rt. eapply hoare_pre; [|apply Hk]. done. Qed.
Lemma then_keeps {A B} (m : eff DcxOutboundError RT A) (k : A → eff DcxOutboundError RT B) :
  keeps m → (∀ a, keeps (k a)) → keeps (m ≫= k).
Proof. intros Hm Hk. eapply hoare_bind; [exact Hm|]. exact Hk. Qed.
Lemma ret_keeps {A} (a : A) : keeps (mret a).
Proof. by intros rt w. Qed.
Lemma throw_keeps {A} e : keeps (eff_throw e : eff DcxOutboundError RT A).
Proof. by intros rt w. Qed.
Lemma lift_keeps {A} (r : outcome DcxOutboundError A) : keeps (eff_lift r).
Proof. intros rt w. by destruct r. Qed.
Lemma catch_keeps {A} (m : eff DcxOutboundError RT A) : keeps m → keeps (eff_catch m).
Proof. intros Hm rt w Hc _. specialize (Hm rt w Hc I). unfold eff_catch. destruct (m rt w) as [[[a|e|] rt'] w']; [done|by split|done]. Qed.
Lemma read_keeps a : keeps (read_channel a).
Proof. apply get_keeps. intros rt. destruct (_ !! a); [apply ret_keeps|apply lift_keeps]. Qed.

Lemma prefix_keeps p : keeps (send_lookup p) ∧ (∀ f, keeps (send_register p f)) ∧ ∀ a, keeps (send_reserve a).
Proof.
  split_and!.
  - apply get_keeps. intros rt. destruct (mg_get_by_peer_did _ _); [apply ret_keeps|]. apply then_keeps; [apply on_classical_keeps|].
    intros keys. apply get_keeps. intros rt'. apply ret_keeps.
  - intros [a|c]; [apply ret_keeps|]. apply then_keeps; [apply modify_keeps; by intros ? ?|]. intros _. apply get_keeps. intros rt.
    destruct (mg_get_by_peer_did _ _); [apply ret_keeps|apply throw_keeps].
  - intros a. apply then_keeps; [apply read_keeps|]. intros c. destruct (ch_needs_send_reservation c); [|apply ret_keeps].
    apply then_keeps; [apply modify_keeps; by intros ? ?|]. intros _. apply modify_keeps. intros rt Hc st Hst id n b He. cbn in Hst, He.
    destruct (rt_store rt) as [st0|] eqn:Hs; [|done]. injection Hst as <-. rewrite received_save_send. by apply (Hc st0 Hs _ _ b).
Qed.
Lemma frame_keeps a payload : keeps (send_frame a payload).
Proof.
  apply then_keeps; [apply read_keeps|]. intros c. cbn [ch_next_send_msg_id]. apply then_keeps; [apply modify_keeps; by intros ? ?|]. intros _.
  apply then_keeps; [apply lift_keeps|]. intros bytes. apply get_keeps. intros rt. destruct (rt_open rt); [|apply throw_keeps].
  apply modify_keeps. by intros ? ?.
Qed.
Lemma ensure_keeps p : keeps (ensure_channel p).
Proof.
  apply get_keeps. intros rt. destruct (mg_get_by_peer_did _ _); [apply ret_keeps|]. cbv zeta. apply then_keeps.
  - apply catch_keeps. case_match; [apply lift_keeps|apply on_classical_keeps].
  - intros [e|keys]; [apply ret_keeps|]. apply modify_keeps. by intros ? ?.
Qed.
Lemma handle_keeps bytes (rt : RT) : caught_up rt → caught_up (try_handle bytes rt).2.
Proof.
  intros Hc. unfold try_handle. destruct (decode_header bytes) as [[h tail]|e|]; [|done..]. destruct (mg_get_by_channel_id _ _) as [a|]; [|done].
  destruct (_ !! a) as [c|]; [|done]. destruct (decode_and_verify h tail _) as [b|e|]; [|done..].
  destruct (ch_observe_recv _ _); [|done..]. intros st Hst id n b' He. cbn in Hst, He.
  destruct (rt_store rt) as [st0|] eqn:Hs; [|done]. injection Hst as <-. rewrite received_save_recv.
  apply elem_of_app in He as [He|He].
  - destruct (Hc st0 Hs _ _ _ He) as (m & Hm & Hle). case_decide as Hid; [|by exists m]. subst id. rewrite Hm. eexists. split; [done|]. lia.
  - apply list_elem_of_singleton in He as [= -> -> ->]. rewrite decide_True by done. eexists. split; [done|]. case_match; lia.
Qed.
Lemma keeps_run {A} (m : eff DcxOutboundError RT A) rt w : keeps m → caught_up rt → caught_up (m rt w).1.2.
Proof. intros Hm Hc. specialize (Hm rt w Hc I). destruct (m rt w) as [[[a|e|] rt'] w']; first [exact Hm|apply Hm]. Qed.

Lemma step_keeps ev rt w : caught_up rt → caught_up (dcx_step ev (rt, w)).1.
Proof.
  intros Hc. destruct (prefix_keeps (match ev with EvSend p _ | EvCrashInSend p => p | _ => "" end)) as (Hl & Hr & Hs).
  destruct ev as [m|p|p payload|bytes|id|p|pq|pq|o|p|]; cbn [dcx_step] in *; try done.
  - pose proof (keeps_run _ rt w (ensure_keeps p) Hc) as H'. by destruct (ensure_channel p rt w) as [[? ?] ?].
  - assert (Hm : keeps (send_to_peer p payload)) by (do 3 (apply then_keeps; [done|intros]; auto using frame_keeps)).
    pose proof (keeps_run _ rt w Hm Hc) as H'. by destruct (send_to_peer p payload rt w) as [[? ?] ?].
  - by apply handle_keeps.
  - assert (Hm : keeps (send_prefix p)) by (do 2 (apply then_keeps; [done|intros]; auto)).
    pose proof (keeps_run _ rt w Hm Hc) as H'. by destruct (send_prefix p rt w) as [[? ?] ?].
Qed.
Lemma prompt_never_behind evs rt w : caught_up rt → built_behind evs (rt, w) = false.
Proof.
  revert rt w. induction evs as [|ev evs IH]; intros rt w Hc; [done|]. cbn [built_behind fst].
  rewrite (proj2 (caught_upb_spec rt) Hc), andb_false_r. pose proof (step_keeps ev rt w Hc) as Hc'.
  destruct (dcx_step ev (rt, w)) as [rt' w']. by apply IH.
Qed.
End prompt.

(** * Safety *)

Section safety.
Context `{DcxCrates} `{Aead} {ST : Type} `{StoreLaws ST}.

(** C12: No nonce is used twice.  Take what a runtime goes through once it has its counter store, one
    call after the other - peers registered, channels established, removed and rebuilt, sends that fail
    or crash halfway, restarts that lose all memory, frames from anyone -, on a store whose
    reservations are durable, as the trait demands, whatever its inbound marks do.  Of two frames
    it put on the wire for one channel the later has the greater message number and another
    nonce, unless the counter had already reached the end of its range.  (Two sends of one
    peer that overlap, and two connection ids that share one key, are outside of this and do reuse
    a nonce: [overlapping_sends_reuse_nonce], [renamed_connection_reuses_nonce].) *)
Theorem nonce_never_reused st w evs i j k h b k' h' b' :
  (∀ id, (reserved_of st id ≤ u64_max)%N) →
  let rt := (dcx_run evs (boot st, w)).1 in
  i < j → rt_sent rt !! i = Some (k, h, b) → rt_sent rt !! j = Some (k', h', b') → fh_channel_id h = fh_channel_id h' →
  ((fh_msg_id h < fh_msg_id h')%N ∧ nonce_for_msg_id (fh_msg_id h) ≠ nonce_for_msg_id (fh_msg_id h')) ∨ fh_msg_id h = u64_max.
Proof.
  intros Hb rt Hij Hi Hj Hid. destruct (run_inv False evs (boot st, w) (λ F, match F with end) (boot_inv False st Hb)) as [st' Hinv]. fold rt in Hinv.
  destruct (inv_sent _ _ _ Hinv i j _ _ _ _ _ _ Hij Hi Hj Hid) as [Hlt|Hmax]; [left|by right]. split; [done|].
  apply list_elem_of_lookup_2 in Hi, Hj. apply (inv_u64 _ _ _ Hinv) in Hi, Hj.
  assert (u64_modulus = (u64_max + 1)%N) as Hm by done. intros He%nonce_inj; lia.
Qed.

(** C13: No message is dispatched twice.  Along the same runs, over any store with durable
    reservations, the message numbers that a channel hands to the dispatcher strictly increase,
    so a frame that was dispatched is never dispatched again, not even after a restart - unless
    a channel was built while the inbound marks of the store were behind what had been
    dispatched, which the trait allows.  Over a store whose marks do not lag that
    never happens, and the numbers strictly increase without exception. *)
Theorem replay_never_dispatched st w evs i j id n b n' b' :
  (∀ id, (reserved_of st id ≤ u64_max)%N) →
  let rt := (dcx_run evs (boot st, w)).1 in
  i < j → rt_delivered rt !! i = Some (id, n, b) → rt_delivered rt !! j = Some (id, n', b') →
  ((n < n')%N ∨ built_behind evs (boot st, w) = true) ∧ (PromptStore ST → (n < n')%N).
Proof.
  intros Hb rt Hij Hi Hj.
  assert (Hmain : built_behind evs (boot st, w) = false → (n < n')%N).
  { intros Hup. destruct (run_inv True evs (boot st, w) (λ _, Hup) (boot_inv True st Hb)) as [st' Hinv]. fold rt in Hinv.
    by apply (inv_delivered _ _ _ Hinv I i j _ _ _ _ _ Hij Hi Hj). }
  split.
  - destruct (built_behind evs _) eqn:Hup; [by right|left]. by apply Hmain.
  - intros Hp. apply Hmain. apply prompt_never_behind. intros st' _ id' m b0 He. by apply elem_of_nil in He.
Qed.
End safety.
