(* ===== verification/DcxDelivery.v ===== *)
(** Delivery in DCX: what [try_handle] does to a runtime on every outcome, and that a frame of one
    end is dispatched by the other, from fresh memory on both sides. *)
From Stdlib Require Import Ascii.
From S2P Require Import Prelude StdText DcxFrame DcxRuntime.

(** SHA-256 returns 32 bytes. *)
Class DcxCratesLaws `{DcxCrates} : Prop := { dc_sha256_length x : length (dc_sha256 x) = 32 }.

Section handle.
Context `{DcxCrates} `{Aead} {ST : Type} `{ChannelCounterStore ST}.
Abbreviation RT := (DcxRuntime ST).

(** A number is fresh for a channel. *)
Definition no_session_for (n : N) (c : Channel) : Prop := ch_received_any c = true → (ch_msg_id_recv c < n)%N.

Lemma observe_fresh n c :
  match ch_observe_recv n c with
  | Ok c' => no_session_for n c ∧ c' = ch_set_counters (ch_msg_id_send c) (ch_send_reserved c) n true c
  | _ => ¬ no_session_for n c
  end.
Proof.
  unfold ch_observe_recv, no_session_for. destruct (ch_received_any c); cbn; [case_bool_decide|]; [|split; [intros _; lia|done]..|].
  - intros Hf. specialize (Hf eq_refl). lia.
  - done.
Qed.

(** C14: A frame that is not accepted leaves the runtime exactly as it was - no counter moves, nothing is
    stored, nothing is dispatched - so nobody without the key can wedge a channel; and a
    frame is accepted only if its channel is registered, it decodes under the channel's
    receive key and its number is fresh, and then the one thing dispatched is its body under its
    own channel id and number, the channel's keys and send counters being untouched. *)
Theorem inbound_outcome bytes (rt : RT) :
  match try_handle bytes rt with
  | (Handled, rt') =>
      ∃ h body a c, decode_full bytes (ch_k_recv c) = Ok (h, body) ∧
        mg_by_channel_id (rt_channels rt) !! fh_channel_id h = Some a ∧ mg_heap (rt_channels rt) !! a = Some c ∧
        no_session_for (fh_msg_id h) c ∧
        rt_delivered rt' = rt_delivered rt ++ [(fh_channel_id h, fh_msg_id h, body)] ∧
        rt_channels rt' = mg_write a (ch_set_counters (ch_msg_id_send c) (ch_send_reserved c) (fh_msg_id h) true c) (rt_channels rt) ∧
        rt_store rt' = cs_save_recv (fh_channel_id h) (fh_msg_id h) <$> rt_store rt ∧ rt_sent rt' = rt_sent rt
  | (_, rt') => rt' = rt
  end.
Proof.
  unfold try_handle. destruct (decode_header bytes) as [[h tail]|e|] eqn:Hd; [|done..].
  destruct (mg_get_by_channel_id _ _) as [a|] eqn:Hg; [|done]. destruct (mg_heap _ !! a) as [c|] eqn:Ha; [|done].
  destruct (decode_and_verify h tail _) as [body|e|] eqn:Hv; [|done..].
  pose proof (observe_fresh (fh_msg_id h) c) as Hobs. destruct (ch_observe_recv _ _) as [c'|e|]; [|done..].
  destruct Hobs as [Hf ->]. exists h, body, a, c. split; [|done]. unfold decode_full. by rewrite Hd, Hv.
Qed.

Lemma handle_accepts bytes rt h body a c :
  decode_full bytes (ch_k_recv c) = Ok (h, body) → mg_by_channel_id (rt_channels rt) !! fh_channel_id h = Some a →
  mg_heap (rt_channels rt) !! a = Some c → no_session_for (fh_msg_id h) c →
  ∃ rt' : RT, try_handle bytes rt = (Handled, rt') ∧ rt_delivered rt' = rt_delivered rt ++ [(fh_channel_id h, fh_msg_id h, body)].
Proof.
  unfold decode_full, try_handle. destruct (decode_header bytes) as [[h' tail]|e|]; [|done..].
  destruct (decode_and_verify h' tail _) as [b|e|] eqn:Hv; [|done..]. intros [= -> ->] Hg Ha Hf.
  unfold mg_get_by_channel_id. rewrite Hg, Ha, Hv. pose proof (observe_fresh (fh_msg_id h) c) as Hobs.
  destruct (ch_observe_recv _ _) as [c'|e|]; [|done..]. eexists. by split.
Qed.
End handle.

(** * The two ends of a connection *)

Section ends.
Context `{DcxCrates}.

(** The key material of the two ends of one connection; the shared secrets agree, as
    Diffie-Hellman has it. *)
Record mirrored (ma mb : ClassicalKeyMaterial) : Prop := {
  mir_our : km_our_did mb = km_peer_did ma;
  mir_peer : km_peer_did mb = km_our_did ma;
  mir_ne : km_our_did ma ≠ km_peer_did ma;
  mir_conn : km_connection_id mb = km_connection_id ma;
  mir_dh : dc_x25519 (km_our_x25519_secret ma) (km_peer_x25519_public ma) =
             dc_x25519 (km_our_x25519_secret mb) (km_peer_x25519_public mb)
}.

(** What the provider derives from a peer's material, and the session it opens. *)
Definition material_keys (m : ClassicalKeyMaterial) : outcome ProviderError (Bytes * Bytes) :=
  cl_derive_keys (dc_x25519 (km_our_x25519_secret m) (km_peer_x25519_public m)) (km_our_did m) (km_peer_did m).
Definition material_session (m : ClassicalKeyMaterial) (keys : Bytes * Bytes) : SessionKeys :=
  mkSessionKeys keys.1 keys.2 0 (km_peer_kid m) (km_connection_id m) (str_lt (km_our_did m) (km_peer_did m)).

Lemma derive_keys_swap s a b : a ≠ b → cl_derive_keys s a b = cl_derive_keys s b a.
Proof.
  intros Hne. unfold cl_derive_keys. case_match; [done|]. unfold str_le.
  destruct (str_lt_total a b) as [->|[Hlt|Hlt]]; [done|..]; by rewrite Hlt, (str_lt_asym _ _ Hlt).
Qed.

Lemma mirrored_keys ma mb : mirrored ma mb → material_keys ma = material_keys mb.
Proof. intros [Ho Hp Hne Hc Hdh]. unfold material_keys. rewrite Hdh, Ho, Hp. by apply derive_keys_swap. Qed.

Lemma mirrored_role ma mb :
  mirrored ma mb → str_lt (km_our_did mb) (km_peer_did mb) = negb (str_lt (km_our_did ma) (km_peer_did ma)).
Proof.
  intros [Ho Hp Hne Hc Hdh]. rewrite Ho, Hp.
  destruct (str_lt_total (km_our_did ma) (km_peer_did ma)) as [|[Hlt|Hlt]]; [done|..]; by rewrite Hlt, (str_lt_asym _ _ Hlt).
Qed.

Lemma directional_swap kek i : (derive_directional_keys kek i).1 = (derive_directional_keys kek (negb i)).2.
Proof. by destruct i. Qed.

Lemma establish_pending m p w :
  cl_sessions p !! km_peer_did m = None → cl_pending p !! km_peer_did m = Some m →
  cl_establish (km_peer_did m) p w =
    match material_keys m with
    | Ok keys => (Ok (material_session m keys),
                  mkClassical (<[km_peer_did m := material_session m keys]> (cl_sessions p)) (cl_pending p)
                    (cl_events p ++ [Established (km_peer_did m) 0 PROVIDER_ID]), w)
    | Err e => (Err e, p, w)
    | Panic => (Panic, p, w)
    end.
Proof.
  intros Hs Hp. unfold cl_establish. eff_simpl. rewrite Hs, Hp. fold (material_keys m). by destruct (material_keys m).
Qed.
End ends.

Lemma take16 (l : Bytes) : length l = 32 → length (take 16 l) = 16.
Proof. intros Hl. rewrite length_take. lia. Qed.

Section delivery.
Context `{DcxCratesLaws} `{AeadLaws} {ST : Type} `{ChannelCounterStore ST}.
Abbreviation RT := (DcxRuntime ST).

Definition registered_only (m : ClassicalKeyMaterial) (st : ST) : RT := register_classical_peer m (boot st).
Definition connection_channel (m : ClassicalKeyMaterial) : Bytes := derive_channel_id PROVIDER_ID (km_connection_id m) 0.

(** The channel that is built first for a registered peer. *)
Definition first_channel (m : ClassicalKeyMaterial) (keys : Bytes * Bytes) (st : ST) : Channel :=
  build_channel (material_session m keys) (km_peer_did m) PROVIDER_ID (Some st).

Lemma first_channel_fields m keys st :
  let c := first_channel m keys st in
  let dir := derive_directional_keys keys.1 (str_lt (km_our_did m) (km_peer_did m)) in
  ch_channel_id c = connection_channel m ∧ ch_k_send c = dir.1 ∧ ch_k_recv c = dir.2 ∧
  ch_msg_id_send c = reserved_of st (connection_channel m) ∧ ch_send_reserved c = reserved_of st (connection_channel m) ∧
  ch_peer_routing_prefix c = derive_routing_prefix (km_peer_kid m) ∧ ch_peer_did c = km_peer_did m ∧
  (∀ n, (∀ k, received_of st (connection_channel m) = Some k → (k < n)%N) → no_session_for n c).
Proof.
  cbv zeta. unfold first_channel, build_channel, no_session_for, reserved_of, received_of. cbn.
  fold (connection_channel m). destruct (cs_load st _) as [pc|]; cbn; split_and!; try done.
  intros n Hn Hany. rewrite Hany in Hn. by apply Hn.
Qed.

Lemma register_new c (rt : RT) w :
  send_register (ch_peer_did c) (inr c) rt w =
    (Ok (length (mg_heap (rt_channels rt))), rt_set_channels (mg_insert c (rt_channels rt)) rt, w).
Proof.
  unfold send_register. unfold mbind, eff_bind, eff_modify, eff_get.
  assert (Hg : mg_get_by_peer_did (ch_peer_did c) (mg_insert c (rt_channels rt)) = Some (length (mg_heap (rt_channels rt)))).
  { unfold mg_get_by_peer_did, mg_insert. cbn. rewrite lookup_insert_eq. cbn. by rewrite lookup_insert_eq. }
  cbn [rt_channels rt_set_channels]. by rewrite Hg.
Qed.

Lemma reserve_channel a c (rt : RT) w :
  mg_heap (rt_channels rt) !! a = Some c →
  ∃ c' rt', send_reserve a rt w = (Ok tt, rt', w) ∧ mg_heap (rt_channels rt') !! a = Some c' ∧
    (∃ r, c' = ch_set_counters (ch_msg_id_send c) r (ch_msg_id_recv c) (ch_received_any c) c) ∧ rt_sent rt' = rt_sent rt.
Proof.
  intros Ha. unfold send_reserve, read_channel. eff_simpl. rewrite Ha. destruct (ch_needs_send_reservation c).
  - eexists _, _. split; [reflexivity|]. cbn. rewrite list_lookup_insert_eq by (by eapply lookup_lt_Some).
    split; [reflexivity|]. split; [|done]. by eexists.
  - exists c, rt. split_and!; try done. exists (ch_send_reserved c). by destruct c.
Qed.

Lemma frame_sent a c payload (rt : RT) w rt' w' :
  mg_heap (rt_channels rt) !! a = Some c → send_frame a payload rt w = (Ok tt, rt', w') →
  let h := mkHeader (ft_code FtData) FRAME_VERSION (ch_channel_id c) (ch_peer_routing_prefix c) (ch_msg_id_send c) in
  ∃ pad bytes, pack h (Data payload pad) (ch_k_send c) = Ok bytes ∧ rt_sent rt' = rt_sent rt ++ [(ch_k_send c, h, bytes)].
Proof.
  intros Ha. unfold send_frame, read_channel. cbn [ch_next_send_msg_id].
  unfold mbind, eff_bind, mret, eff_ret, eff_get, write_channel, eff_modify, eff_lift, eff_throw. rewrite Ha. cbv zeta.
  destruct (pack _ _ _) as [bytes|e|] eqn:Hp; [|done..]. cbn [rt_open rt_set_channels]. destruct (rt_open rt); [|done].
  intros [= <- <-]. eexists _, _. split; [exact Hp|done].
Qed.

(** The message of a fresh wallet, as it is sent. *)
Lemma first_send m st w payload rt' w' :
  send_to_peer (km_peer_did m) payload (registered_only m st) w = (Ok tt, rt', w') →
  ∃ keys, material_keys m = Ok keys ∧
    let c := first_channel m keys st in
    let h := mkHeader (ft_code FtData) FRAME_VERSION (ch_channel_id c) (ch_peer_routing_prefix c) (ch_msg_id_send c) in
    ∃ pad bytes, pack h (Data payload pad) (ch_k_send c) = Ok bytes ∧ rt_sent rt' = [(ch_k_send c, h, bytes)].
Proof.
  assert (Hl : send_lookup (km_peer_did m) (registered_only m st) w =
    match material_keys m with
    | Ok keys => (Ok (inr (first_channel m keys st)),
        rt_set_classical (mkClassical {[km_peer_did m := material_session m keys]} {[km_peer_did m := m]}
          [Established (km_peer_did m) 0 PROVIDER_ID]) (boot st), w)
    | Err e => (Err (OeProvider e), registered_only m st, w)
    | Panic => (Panic, registered_only m st, w)
    end).
  { unfold send_lookup, mbind, eff_bind, eff_get, on_classical.
    change (mg_get_by_peer_did _ _) with (@None nat). cbv beta iota.
    rewrite establish_pending; [|done|by apply lookup_insert_eq]. by destruct (material_keys m). }
  unfold send_to_peer. unfold mbind at 1, eff_bind at 1. rewrite Hl. destruct (material_keys m) as [keys|e|]; [|done..].
  intros Hs. exists keys. split; [done|]. set (c := first_channel m keys st) in *.
  assert (Hp : km_peer_did m = ch_peer_did c) by (symmetry; apply first_channel_fields). rewrite Hp in Hs.
  set (rt1 := rt_set_classical _ _) in Hs. unfold mbind at 1, eff_bind at 1 in Hs. rewrite register_new in Hs.
  set (rt2 := rt_set_channels _ rt1) in Hs.
  destruct (reserve_channel 0 c rt2 w eq_refl) as (c' & rt3 & Hr & Ha & [r ->] & Hsent).
  unfold mbind at 1, eff_bind at 1 in Hs. change (length (mg_heap (rt_channels rt1))) with 0 in Hs. rewrite Hr in Hs.
  destruct (frame_sent 0 _ payload rt3 w rt' w' Ha Hs) as (pad & bytes & Hpack & Hlog).
  exists pad, bytes. split; [exact Hpack|]. rewrite Hlog, Hsent. done.
Qed.

(** The channel of a fresh wallet that prepares for its peer. *)
Lemma first_ensure m st w keys :
  material_keys m = Ok keys →
  let rt := (ensure_channel (km_peer_did m) (registered_only m st) w).1.2 in
  mg_by_channel_id (rt_channels rt) !! ch_channel_id (first_channel m keys st) = Some 0 ∧
  mg_heap (rt_channels rt) !! 0 = Some (first_channel m keys st) ∧ rt_delivered rt = [].
Proof.
  intros Hk. unfold ensure_channel, mbind, eff_bind, eff_get, eff_catch, on_classical.
  change (mg_get_by_peer_did _ _) with (@None nat). cbv beta iota zeta.
  change (rt_pq (registered_only m st)) with (@None PqProvider). cbv beta iota.
  rewrite establish_pending; [|done|by apply lookup_insert_eq]. rewrite Hk. cbv beta iota zeta.
  unfold eff_modify. cbn [fst snd rt_channels rt_set_channels rt_delivered mg_by_channel_id mg_insert mg_heap].
  split; [apply lookup_insert_eq|done].
Qed.

(** C15: The two ends of a connection understand each other: with mirrored key material and fresh memory
    on both sides - a first start, or a restart on the kept stores, the receiver having seen no
    number that the sender has not reserved - every message the one end sends is accepted by
    the other once it has prepared its channel, and exactly its payload is dispatched, under
    the connection's channel. *)
Theorem dcx_delivers ma mb sta stb w w' wb payload rt :
  mirrored ma mb → (reserved_of sta (connection_channel ma) ≤ u64_max)%N →
  (∀ n, received_of stb (connection_channel ma) = Some n → (n < reserved_of sta (connection_channel ma))%N) →
  send_to_peer (km_peer_did ma) payload (registered_only ma sta) w = (Ok tt, rt, w') →
  let rtb := (ensure_channel (km_peer_did mb) (registered_only mb stb) wb).1.2 in
  ∃ k h bytes pad, rt_sent rt = [(k, h, bytes)] ∧ (try_handle bytes rtb).1 = Handled ∧
    rt_delivered (try_handle bytes rtb).2 = [(connection_channel ma, reserved_of sta (connection_channel ma), Data payload pad)].
Proof.
  intros Hm Hmax Hfresh Hs rtb. destruct (first_send _ _ _ _ _ _ Hs) as (keys & Hka & pad & bytes & Hpack & Hlog).
  set (ca := first_channel ma keys sta) in *. set (h := mkHeader _ _ _ _ _) in *.
  assert (Hkb : material_keys mb = Ok keys) by (by rewrite <-(mirrored_keys _ _ Hm)).
  destruct (first_ensure mb stb wb keys Hkb) as (Hid & Ha & Hdel). fold rtb in Hid, Ha, Hdel.
  destruct (first_channel_fields ma keys sta) as (Aid & Aks & _ & Amsg & _ & Apre & _). fold ca in Aid, Aks, Amsg, Apre.
  destruct (first_channel_fields mb keys stb) as (Bid & _ & Bkr & _ & _ & _ & _ & Bfresh).
  assert (Hconn : connection_channel mb = connection_channel ma) by (unfold connection_channel; by rewrite (mir_conn _ _ Hm)).
  rewrite Hconn in Bid, Bfresh. rewrite (mirrored_role _ _ Hm), <-directional_swap, <-Aks in Bkr.
  assert (Hdec : decode_full bytes (ch_k_recv (first_channel mb keys stb)) = Ok (h, Data payload pad)).
  { rewrite Bkr. apply (frame_decodes h (Data payload pad)); [|done..]. split; cbn; [by eexists|done|..].
    - rewrite Aid. apply take16, dc_sha256_length.
    - rewrite Apre. apply take16, dc_sha256_length.
    - rewrite Amsg. unfold u64_max, u64_modulus in *. lia. }
  destruct (handle_accepts bytes rtb h (Data payload pad) 0 (first_channel mb keys stb)) as (rt' & Ht & Hd); [done| |done| |].
  - cbn. by rewrite Aid, <-Bid.
  - apply Bfresh. cbn. by rewrite Amsg.
  - exists (ch_k_send ca), h, bytes, pad. rewrite Ht. cbn [fst snd]. rewrite Hd, Hdel. cbn. by rewrite Aid, Amsg.
Qed.
End delivery.
