(* ===== verification/DcxRuns.v ===== *)
(** Runs of DCX: concrete instances of its parameters, the witnesses of its theorems and the
    runs that show what happens where the guarantees end. *)
From Stdlib Require Import Ascii.
From S2P Require Import Prelude StdText DcxFrame DcxRuntime DcxSafety DcxDelivery.

(** * Instances *)

Definition toy_hash (n : nat) (l : Bytes) : Bytes := reverse (be_bytes n (foldl (λ acc b, acc * 257 + N_of_ascii b + 1)%N 7%N l)).
Lemma toy_hash_length n l : length (toy_hash n l) = n.
Proof. unfold toy_hash. by rewrite length_reverse, be_bytes_length. Qed.
Definition toy_dcx_crates : DcxCrates := {|
  dc_sha256 := toy_hash 32;
  dc_hkdf salt ikm info n := toy_hash n (default [] salt ++ ikm ++ info);
  dc_x25519 secret public := be_bytes 32 (of_be secret * of_be public)
|}.
#[local] Existing Instance toy_dcx_crates.
#[local] Instance toy_dcx_laws : DcxCratesLaws.
Proof. split. intros x. apply toy_hash_length. Qed.

Definition toy_tag (key nonce aad pt : Bytes) : Bytes := toy_hash TAG_LEN (key ++ nonce ++ aad ++ pt).
Definition toy_aead : Aead := {|
  aead_seal key nonce aad pt := Some (pt ++ toy_tag key nonce aad pt);
  aead_open key nonce aad ct :=
    let pt := take (length ct - TAG_LEN) ct in
    if decide (ct = pt ++ toy_tag key nonce aad pt) then Some pt else None
|}.
#[local] Existing Instance toy_aead.
#[local] Instance toy_aead_laws : AeadLaws.
Proof.
  assert (Hlen : ∀ key nonce aad pt, length (toy_tag key nonce aad pt) = TAG_LEN) by (intros; apply toy_hash_length).
  split; intros key nonce aad pt ct; unfold aead_seal, aead_open, toy_aead; generalize (Hlen key nonce aad pt);
    [| |intros Htag <-%(inj Some); by rewrite length_app, Htag].
  - intros Htag <-%(inj Some). rewrite length_app, Htag, Nat.add_sub, take_app_length. by rewrite decide_True.
  - intros _. case_decide as Hct; [|done]. intros Hpt%(inj Some). rewrite Hpt in Hct. by rewrite <-Hct.
Qed.

(** A store that keeps its counters in a map. *)
Abbreviation toy_store := (gmap Bytes PersistedCounters).
Definition entry_of (st : toy_store) (id : Bytes) : PersistedCounters := default (mkPersisted 0 0 false) (st !! id).
#[local] Instance toy_counter_store : ChannelCounterStore toy_store := {|
  cs_load st id := st !! id;
  cs_save_send_reserved id n st := <[id := mkPersisted n (pc_msg_id_recv (entry_of st id)) (pc_received_any (entry_of st id))]> st;
  cs_save_recv id n st :=
    <[id := mkPersisted (pc_send_reserved (entry_of st id))
              (if pc_received_any (entry_of st id) then N.max (pc_msg_id_recv (entry_of st id)) n else n) true]> st
|}.
Lemma toy_store_entries (st : toy_store) id n id' :
  (reserved_of (cs_save_send_reserved id n st) id' = (if decide (id' = id) then n else reserved_of st id') ∧
   reserved_of (cs_save_recv id n st) id' = reserved_of st id') ∧
  received_of (cs_save_send_reserved id n st) id' = received_of st id' ∧
  received_of (cs_save_recv id n st) id' =
    (if decide (id' = id) then Some (match received_of st id with Some m => N.max m n | None => n end) else received_of st id').
Proof.
  unfold reserved_of, received_of, entry_of; cbn. split_and!; try case_decide; simplify_map_eq;
    try (destruct (decide (id' = id)) as [->|Hne]; simplify_map_eq; [|done]);
    unfold entry_of; destruct (st !! id) as [[? ? []]|]; done.
Qed.
#[local] Instance toy_store_laws : StoreLaws toy_store.
Proof. split; apply toy_store_entries. Qed.
#[local] Instance toy_store_prompt : PromptStore toy_store.
Proof. split; apply toy_store_entries. Qed.

(** * A connection of two wallets *)

Definition alice_key : Bytes := replicate 31 zero ++ ["003"%char].
Definition bob_key : Bytes := replicate 31 zero ++ ["005"%char].
Definition alice : ClassicalKeyMaterial := mkMaterial alice_key bob_key "did:a" "did:b" "kid:b" "conn".
Definition bob : ClassicalKeyMaterial := mkMaterial bob_key alice_key "did:b" "did:a" "kid:a" "conn".
Definition hello : Bytes := str_bytes "hello".

Lemma alice_bob : mirrored alice bob.
Proof. split; vm_compute; done. Qed.

Definition empty_store : toy_store := ∅.

(** The frames of a log that show a number twice under one key. *)
Definition nonce_reused (log : list (Bytes * FrameHeader * Bytes)) : bool :=
  bool_decide (¬ NoDup ((λ e, (e.1.1, fh_msg_id e.1.2)) <$> log)).

(** Sends, a crash in one, a restart, and a send after it. *)
Definition alice_run : DcxRuntime toy_store :=
  (dcx_run [EvRegister alice; EvSend "did:b" hello; EvSend "did:b" hello; EvRestart; EvRegister alice; EvCrashInSend "did:b";
            EvRegister alice; EvSend "did:b" hello] (boot empty_store, world0)).1.
Example alice_numbers : (λ e, fh_msg_id e.1.2) <$> rt_sent alice_run = [0; 1; 2048]%N.
Proof. vm_compute. reflexivity. Qed.

(** What Alice sent reaches Bob once, in spite of replays and of his restart. *)
Definition wire (i : nat) : Bytes := match rt_sent alice_run !! i with Some e => e.2 | None => [] end.
Definition bob_run : DcxRuntime toy_store :=
  (dcx_run [EvRegister bob; EvEnsure "did:a"; EvReceive (wire 0); EvReceive (wire 0); EvReceive (wire 1); EvRestart;
            EvRegister bob; EvEnsure "did:a"; EvReceive (wire 1); EvReceive (wire 2)] (boot empty_store, world0)).1.
Example bob_numbers : (λ e, e.1.2) <$> rt_delivered bob_run = [0; 1; 2048]%N.
Proof. vm_compute. reflexivity. Qed.

(** * Witnesses *)

Definition ping_header : FrameHeader := mkHeader 4 1 (replicate 16 zero) (replicate 16 zero) 9.
Definition ping : FrameBody := Ping (str_bytes "12345678").
Definition ping_frame : Bytes := match pack ping_header ping alice_key with Ok b => b | _ => [] end.

Lemma ping_header_ok : header_ok ping_header.
Proof. split; [by eexists|done..]. Qed.


Lemma decoded_frame_was_sealed_witness :
  ∃ pt ct, ping_frame = encode_aad ping_header ++ nonce_for_msg_id 9 ++ ct ∧
    aead_seal alice_key (nonce_for_msg_id 9) (encode_aad ping_header) pt = Some ct ∧ decode_body 4 pt = Ok ping.
Proof.
  assert (Hd : decode_full ping_frame alice_key = Ok (ping_header, ping)) by (vm_compute; reflexivity).
  exact (proj2 (proj2 (decoded_frame_was_sealed _ _ _ _ Hd))).
Defined.

Lemma padded_frame_length_witness : ∃ bytes,
  pack ping_header (Data hello (replicate (N.to_nat (padding_length (len_N hello) DEFAULT_PADDING_BOUNDARY)) zero)) alice_key = Ok bytes ∧
  (len_N bytes mod 64 = 0)%N.
Proof.
  eexists. assert (Hp : pack ping_header (Data hello (replicate (N.to_nat (padding_length (len_N hello) DEFAULT_PADDING_BOUNDARY)) zero))
    alice_key = Ok _) by (vm_compute; reflexivity).
  split; [exact Hp|]. exact (proj1 (padded_frame_length _ _ _ _ ping_header_ok Hp)).
Defined.

Lemma empty_store_bound id : (reserved_of empty_store id ≤ u64_max)%N.
Proof. change (0 ≤ u64_max)%N. discriminate. Qed.

Definition alice_events : list dcx_event :=
  [EvRegister alice; EvSend "did:b" hello; EvRestart; EvRegister alice; EvSend "did:b" hello].
Definition alice_log : list (Bytes * FrameHeader * Bytes) := rt_sent (dcx_run alice_events (boot empty_store, world0)).1.

Lemma nonce_never_reused_witness :
  match alice_log with
  | [(k, h, b); (k', h', b')] => fh_channel_id h = fh_channel_id h' ∧ nonce_for_msg_id (fh_msg_id h) ≠ nonce_for_msg_id (fh_msg_id h')
  | _ => False
  end.
Proof.
  assert (Hb : match alice_log with
    | [e; e'] => bool_decide (fh_channel_id e.1.2 = fh_channel_id e'.1.2) && bool_decide (fh_msg_id e.1.2 = 0%N)
    | _ => false
    end = true) by (vm_compute; reflexivity).
  pose proof (nonce_never_reused empty_store world0 alice_events 0 1) as Hn. cbv zeta in Hn. fold alice_log in Hn.
  destruct alice_log as [|[[k h] b] [|[[k' h'] b'] [|]]]; try discriminate Hb.
  cbn [fst snd] in Hb. apply andb_true_iff in Hb as [Hid%bool_decide_eq_true H0%bool_decide_eq_true].
  split; [exact Hid|].
  destruct (Hn k h b k' h' b' empty_store_bound ltac:(lia) eq_refl eq_refl Hid) as [Hlt|Hmax]; [exact (proj2 Hlt)|].
  rewrite H0 in Hmax. discriminate Hmax.
Defined.

Lemma replay_never_dispatched_witness :
  match rt_delivered bob_run with
  | (id, n, _) :: (id', n', _) :: _ => id = id' ∧ (n < n')%N
  | _ => False
  end.
Proof.
  set (evs := [EvRegister bob; EvEnsure "did:a"; EvReceive (wire 0); EvReceive (wire 0); EvReceive (wire 1); EvRestart;
            EvRegister bob; EvEnsure "did:a"; EvReceive (wire 1); EvReceive (wire 2)]).
  assert (Hl : ∃ id n b n' b' l, rt_delivered bob_run = (id, n, b) :: (id, n', b') :: l)
    by (vm_compute; do 6 eexists; reflexivity).
  destruct Hl as (id & n & b & n' & b' & l & Hl).
  pose proof (replay_never_dispatched empty_store world0 evs 0 1 id n b n' b' empty_store_bound ltac:(lia)) as Hn.
  change (dcx_run evs (boot empty_store, world0)).1 with bob_run in Hn. cbv zeta in Hn. rewrite Hl in Hn |- *.
  split; [reflexivity|]. exact (proj2 (Hn eq_refl eq_refl) toy_store_prompt).
Defined.

Lemma dcx_delivers_witness : ∃ k h bytes pad,
  rt_sent (send_to_peer "did:b" hello (registered_only alice empty_store) world0).1.2 = [(k, h, bytes)] ∧
  rt_delivered (try_handle bytes (ensure_channel "did:a" (registered_only bob empty_store) world0).1.2).2 =
    [(connection_channel alice, 0%N, Data hello pad)].
Proof.
  assert (Hs : send_to_peer (km_peer_did alice) hello (registered_only alice empty_store) world0 =
    (Ok tt, (send_to_peer "did:b" hello (registered_only alice empty_store) world0).1.2, world0)) by (vm_compute; reflexivity).
  destruct (dcx_delivers alice bob empty_store empty_store world0 world0 world0 hello _ alice_bob (empty_store_bound _)
    ltac:(intros n Hn; discriminate Hn) Hs) as (k & h & bytes & pad & H1 & _ & H2).
  exists k, h, bytes, pad. split; [exact H1|exact H2].
Defined.

(** * Where the guarantees end *)

(** Two first sends that overlap: both find no channel and build one, and each numbers from zero
    under the same key, with a store and all. *)
Definition overlapping_sends : DcxRuntime toy_store :=
  let rt := register_classical_peer alice (boot empty_store) in
  match (f1 ← send_lookup "did:b"; f2 ← send_lookup "did:b";
         a1 ← send_register "did:b" f1; _ ← send_reserve a1; _ ← send_frame a1 hello;
         a2 ← send_register "did:b" f2; _ ← send_reserve a2; send_frame a2 (str_bytes "world")) rt world0 with
  | (_, rt, _) => rt
  end.
Example overlapping_sends_reuse_nonce : nonce_reused (rt_sent overlapping_sends) = true.
Proof. vm_compute. reflexivity. Qed.

(** Without a store, a restart starts again from zero under the same key. *)
Definition storeless_restart : DcxRuntime toy_store :=
  (dcx_run [EvRegister alice; EvSend "did:b" hello; EvRestart; EvRegister alice; EvSend "did:b" (str_bytes "world")]
    (rt_new true, world0)).1.
Example storeless_restart_reuses_nonce : nonce_reused (rt_sent storeless_restart) = true.
Proof. vm_compute. reflexivity. Qed.

(** A store that knows nothing of a channel: it is built from zero in the session's generation. *)
Lemma unknown_channel_starts_at_zero `{DcxCrates} `{ChannelCounterStore ST} keys p pid st :
  cs_load st (derive_channel_id pid (sk_connection_id keys) (sk_generation keys)) = None →
  let c := build_channel keys p pid (Some st) in ch_msg_id_send c = 0%N ∧ ch_generation c = sk_generation keys.
Proof. intros Hl. unfold build_channel. cbn. by rewrite Hl. Qed.

(** A peer that is registered again under another connection id after its session was closed: another
    channel, whose numbers start at zero, under the key of the first. *)
Definition renamed_connection : DcxRuntime toy_store :=
  let again := mkMaterial alice_key bob_key "did:a" "did:b" "kid:b" "conn2" in
  (dcx_run [EvRegister alice; EvSend "did:b" hello; EvClose "did:b"; EvRemove (connection_channel alice);
            EvRegister again; EvSend "did:b" (str_bytes "world")] (boot empty_store, world0)).1.
Example renamed_connection_reuses_nonce : nonce_reused (rt_sent renamed_connection) = true.
Proof. vm_compute. reflexivity. Qed.

(** Removing a channel that another one of its peer has replaced makes the newer one unreachable. *)
Definition two_generations : ChannelManager :=
  let channel g := ch_from_session_keys (mkSessionKeys alice_key [] g "kid:b" "conn" true) "did:b" PROVIDER_ID true in
  mg_remove (derive_channel_id PROVIDER_ID "conn" 0) (mg_insert (channel 1%N) (mg_insert (channel 0%N) mg_new)).
Example removal_hides_successor :
  mg_len two_generations = 1 ∧ mg_get_by_peer_did "did:b" two_generations = None ∧
  mg_get_by_channel_id (derive_channel_id PROVIDER_ID "conn" 1) two_generations = Some 1.
Proof. vm_compute. split_and!; reflexivity. Qed.

(** At the end of the counter's range the last number is given out again and again. *)
Lemma last_number_repeats c :
  ch_msg_id_send c = u64_max →
  (ch_next_send_msg_id c).1 = u64_max ∧ (ch_next_send_msg_id (ch_next_send_msg_id c).2).1 = u64_max.
Proof. intros Hc. cbn. rewrite Hc. done. Qed.

(** The padding of a forwarded message is not limited by the encoder: its length is cut to 16 bits. *)
Example long_padding_lost :
  match encode_body (DataForward [] "" (replicate (N.to_nat 65536) zero)) with
  | Ok pt => decode_data_forward_body pt
  | _ => Err AeadFailed
  end = Ok (DataForward [] "" []).
Proof. vm_compute. reflexivity. Qed.

(** Bytes after the declared padding are ignored. *)
Example trailing_bytes_ignored :
  decode_data_body (be_bytes 2 1 ++ ["a"%char] ++ be_bytes 2 0 ++ str_bytes "anything") = Ok (Data ["a"%char] []).
Proof. vm_compute. reflexivity. Qed.
