(* ===== verification/SigningCounter.v ===== *)
(** Replay protection of authorization tokens: [MonotonicCounterManager] of
    [src/protocols/signing/src/counter.rs], over any storage provider, with the errors of
    the signing protocol, [src/protocols/signing/src/errors.rs]. *)
From S2P Require Import Prelude Storage StdText.

(** [src/protocols/signing/src/errors.rs:9-58] SigningProtocolError *)
Inductive SigningProtocolError :=
  | InvalidMessageType (s : string)
  | InvalidBody (s : string)
  | SessionNotFound (s : string)
  | InvalidStateTransition (from to : string)
  | ThresholdNotMet (have need : N)
  | HpkeError (s : string)
  | CounterReplay (counter last_seen : N)
  | TokenVerificationFailed (s : string)
  | SignatureError (s : string)
  | StorageError (s : string)
  | SpSerializationError (s : string)
  | SessionExpired
  | SpUnauthorized (s : string)
  | DuplicateSigner (s : string)
  | UnknownSigner (s : string)
  | SpInternal (s : string).

(** [src/protocols/signing/src/counter.rs:15] COUNTER_CATEGORY *)
Definition COUNTER_CATEGORY : string := "signing_counter".

(** [src/protocols/signing/src/counter.rs:18-23] MonotonicCounterManager *)
Record CounterManager (ST : Type) := mkCounters {
  cm_storage : ST;
  cm_counters : gmap string N
}.
Arguments mkCounters {ST}.
Arguments cm_storage {ST}.
Arguments cm_counters {ST}.

(** [src/protocols/signing/src/counter.rs:27-32] MonotonicCounterManager::new *)
Definition cm_new {ST} (storage : ST) : CounterManager ST := mkCounters storage ∅.

(** [src/protocols/signing/src/counter.rs:35-37] MonotonicCounterManager::key *)
Definition cm_key (subject_did device_id : string) : string := subject_did +:+ ":" +:+ device_id.

Section manager.
Context {ST : Type} `{StorageProvider ST}.

Definition cm_set_counter (key : string) (v : N) (self : CounterManager ST) : CounterManager ST :=
  mkCounters (cm_storage self) (<[key := v]> (cm_counters self)).

(** A call of the storage. *)
Definition cm_store {A} (m : eff AgentError ST A) : eff SigningProtocolError (CounterManager ST) A :=
  eff_zoom cm_storage (λ st s, mkCounters st (cm_counters s)) (λ e, StorageError (ag_to_string e)) m.

(** [src/protocols/signing/src/counter.rs:58-62] MonotonicCounterManager::current (reading a record's value) *)
Definition counter_of_record (record : AgentRecord) : outcome SigningProtocolError N :=
  match from_utf8 (rec_value record) with
  | Ok s => match parse_u64 s with
            | Ok v => Ok v
            | Err e => Err (StorageError (int_error_text e))
            | Panic => Panic
            end
  | Err e => Err (StorageError e)
  | Panic => Panic
  end.

(** [src/protocols/signing/src/counter.rs:50-65] MonotonicCounterManager::current (the load from storage) *)
Definition cm_load (key : string) : eff SigningProtocolError (CounterManager ST) N :=
  record ← cm_store (st_find COUNTER_CATEGORY key);
  match record with
  | Some record => eff_lift (counter_of_record record)
  | None => mret 0%N
  end.

(** [src/protocols/signing/src/counter.rs:41-74] MonotonicCounterManager::current *)
Definition cm_current (subject_did device_id : string) : eff SigningProtocolError (CounterManager ST) N :=
  let key := cm_key subject_did device_id in
  cached ← eff_gets (λ s, cm_counters s !! key);
  match cached with
  | Some value => mret value
  | None =>
      value ← cm_load key;
      eff_modify (cm_set_counter key value);; mret value
  end.

(** [src/protocols/signing/src/counter.rs:140-161] MonotonicCounterManager::persist *)
Definition cm_persist (key : string) (value : N) (subject_did device_id : string)
    : eff SigningProtocolError (CounterManager ST) unit :=
  let record := rec_add_tag (rec_add_tag (rec_new COUNTER_CATEGORY key (u64_to_string value)) "did" subject_did)
                  "device_id" device_id in
  cm_store (st_upsert record).

(** [src/protocols/signing/src/counter.rs:78-103] MonotonicCounterManager::next *)
Definition cm_next (subject_did device_id : string) : eff SigningProtocolError (CounterManager ST) N :=
  let key := cm_key subject_did device_id in
  entry ← eff_gets (λ s, default 0%N (cm_counters s !! key));
  current ←
    (if (entry =? 0)%N then
       found ← eff_catch (cm_store (st_find COUNTER_CATEGORY key));
       mret (match found with
             | inr (Some record) => match counter_of_record record with Ok v => v | _ => entry end
             | _ => entry
             end)
     else mret entry);
  let value := add64 current 1 in
  eff_modify (cm_set_counter key value);;
  cm_persist key value subject_did device_id;;
  mret value.

(** [src/protocols/signing/src/counter.rs:106-109] MonotonicCounterManager::verify *)
Definition cm_verify (subject_did device_id : string) (counter : N) : eff SigningProtocolError (CounterManager ST) bool :=
  last_seen ← cm_current subject_did device_id;
  mret (last_seen <? counter)%N.

(** [src/protocols/signing/src/counter.rs:114-137] MonotonicCounterManager::accept *)
Definition cm_accept (subject_did device_id : string) (counter : N) : eff SigningProtocolError (CounterManager ST) unit :=
  let key := cm_key subject_did device_id in
  current ← eff_gets (λ s, default 0%N (cm_counters s !! key));
  eff_modify (cm_set_counter key current);;
  if (counter <=? current)%N then eff_throw (CounterReplay counter current)
  else
    eff_modify (cm_set_counter key counter);;
    cm_persist key counter subject_did device_id;;
    mret tt.
End manager.

(** * Replay protection *)

Section history.
Context {ST : Type} `{StorageLaws ST}.
Implicit Types (s : CounterManager ST) (w : World).

(** The uses that protect: a received counter is verified and, if it is fresh,
    accepted; a counter is issued; the process is restarted. *)
Inductive CounterOp :=
  | OpReceive (subject device : string) (counter : N)
  | OpVerify (subject device : string) (counter : N)
  | OpIssue (subject device : string)
  | OpRestart.

(** The counter an operation spent, if it succeeded, and for which key. *)
Definition cm_op (o : CounterOp) : eff SigningProtocolError (CounterManager ST) (option (string * N)) :=
  match o with
  | OpReceive sub dev c =>
      fresh ← cm_verify sub dev c;
      if fresh : bool then cm_accept sub dev c;; mret (Some (cm_key sub dev, c)) else mret None
  | OpVerify sub dev c => cm_verify sub dev c;; mret None
  | OpIssue sub dev => v ← cm_next sub dev; mret (Some (cm_key sub dev, v))
  | OpRestart => eff_modify (λ s, cm_new (cm_storage s));; mret None
  end.

(** A run of operations; the caller goes on after an error. *)
Fixpoint cm_run (ops : list CounterOp) s w : list (string * N) * CounterManager ST * World :=
  match ops with
  | [] => ([], s, w)
  | o :: ops =>
      let '(r, s, w) := cm_op o s w in
      let '(spent, s, w) := cm_run ops s w in
      (match r with Ok (Some x) => x :: spent | _ => spent end, s, w)
  end.

(** The value the storage keeps for a key. *)
Definition cm_stored s (key : string) : option N :=
  match st_view (cm_storage s) COUNTER_CATEGORY key with
  | None => Some 0%N
  | Some r => match counter_of_record r with Ok v => Some v | _ => None end
  end.

(** Every stored counter is readable, the cache is never behind it, and no value
    exceeds [B]. *)
Definition cm_ok (B : N) s : Prop :=
  ∀ key, ∃ v, cm_stored s key = Some v ∧ (v ≤ B)%N ∧
    ∀ c, cm_counters s !! key = Some c → (v ≤ c ≤ B)%N.

Lemma counter_record_round_trip r v :
  (v < u64_modulus)%N → rec_value r = u64_to_string v → counter_of_record r = Ok v.
Proof. intros Hv Hr. unfold counter_of_record. by rewrite Hr, from_utf8_u64, parse_u64_to_string. Qed.

(** Reads: the state is the same to every observer of the storage and the cache. *)
Lemma cm_find_spec key s w :
  match cm_store (st_find COUNTER_CATEGORY key) s w with
  | (Ok o, s', _) => o = st_view (cm_storage s) COUNTER_CATEGORY key ∧ cm_counters s' = cm_counters s ∧
      ∀ k, cm_stored s' k = cm_stored s k
  | (_, s', _) => cm_counters s' = cm_counters s ∧ ∀ k, cm_stored s' k = cm_stored s k
  end.
Proof.
  unfold cm_store, eff_zoom. pose proof (st_find_law COUNTER_CATEGORY key (cm_storage s) w) as Hf.
  unfold cm_stored. destruct (st_find _ _ _ _) as [[[o|e|] st] w']; cbn.
  - destruct Hf as [-> Hv]. split_and!; [done..|]. intros k. by rewrite Hv.
  - split; [done|]. intros k. by rewrite Hf.
  - split; [done|]. intros k. by rewrite Hf.
Qed.

Lemma cm_load_spec key s w :
  match cm_load key s w with
  | (Ok v, s', _) => cm_stored s key = Some v ∧ cm_counters s' = cm_counters s ∧ ∀ k, cm_stored s' k = cm_stored s k
  | (_, s', _) => cm_counters s' = cm_counters s ∧ ∀ k, cm_stored s' k = cm_stored s k
  end.
Proof.
  unfold cm_load, mbind, eff_bind. pose proof (cm_find_spec key s w) as Hf.
  destruct (cm_store _ s w) as [[[o|e|] s'] w']; [|done..]. destruct Hf as (->&Hc&Hs).
  destruct (st_view _ _ _) as [r|] eqn:E; cbn.
  - unfold eff_lift. destruct (counter_of_record r) eqn:Er; [|done..]. split_and!; [|done..].
    unfold cm_stored. by rewrite E, Er.
  - split_and!; [|done..]. unfold cm_stored. by rewrite E.
Qed.

Lemma cm_persist_spec key v sub dev s w :
  (v < u64_modulus)%N →
  match cm_persist key v sub dev s w with
  | (Ok _, s', _) => cm_counters s' = cm_counters s ∧
      ∀ k, cm_stored s' k = if decide (k = key) then Some v else cm_stored s k
  | (_, s', _) => cm_counters s' = cm_counters s ∧ ∀ k, cm_stored s' k = cm_stored s k
  end.
Proof.
  intros Hv. unfold cm_persist, cm_store, eff_zoom. set (r := rec_add_tag _ _ _).
  pose proof (st_upsert_law r (cm_storage s) w) as Hu. unfold cm_stored.
  destruct (st_upsert r (cm_storage s) w) as [[[[]|e|] st] w']; cbn.
  - split; [done|]. intros k. rewrite Hu. cbn. destruct (decide (k = key)) as [->|Hne].
    + rewrite decide_True by done. by rewrite (counter_record_round_trip _ v).
    + by rewrite decide_False by naive_solver.
  - split; [done|]. intros k. by rewrite Hu.
  - split; [done|]. intros k. by rewrite Hu.
Qed.

(** Reads keep [cm_ok]. *)
Lemma cm_ok_read B s s' :
  cm_ok B s → cm_counters s' = cm_counters s → (∀ k, cm_stored s' k = cm_stored s k) → cm_ok B s'.
Proof. intros Hok Hc Hs k. rewrite Hs, Hc. apply Hok. Qed.

Lemma cm_ok_weaken B B' s : cm_ok B s → (B ≤ B')%N → cm_ok B' s.
Proof.
  intros Hok HB k. destruct (Hok k) as (v&Hs&Hb&Hc). exists v. split_and!; [done|lia|]. intros c Hk.
  specialize (Hc c Hk). lia.
Qed.

(** Caching a value that is not behind the stored one keeps [cm_ok]. *)
Lemma cm_ok_cache B s key v :
  cm_ok B s → (v ≤ B)%N → (∀ v0, cm_stored s key = Some v0 → (v0 ≤ v)%N) → cm_ok B (cm_set_counter key v s).
Proof.
  intros Hok Hv Hle k. destruct (Hok k) as (v0&Hs&Hb&Hc). exists v0. split_and!; [done..|].
  intros c. cbn. rewrite lookup_insert_Some. intros [[<- <-]|[_ ?]]; [|by apply Hc]. split; [by apply Hle|done].
Qed.

(** Storing the cached value keeps [cm_ok]. *)
Lemma cm_ok_persist B s s' key v :
  cm_ok B s → cm_counters s !! key = Some v → cm_counters s' = cm_counters s →
  (∀ k, cm_stored s' k = if decide (k = key) then Some v else cm_stored s k) → cm_ok B s'.
Proof.
  intros Hok Hkey Hc Hs k. rewrite Hs, Hc. case_decide as Hk; [subst|apply Hok].
  destruct (Hok key) as (v0&_&_&Hcached). pose proof (Hcached _ Hkey). exists v. split_and!; [done|lia|].
  intros c Hc'. assert (c = v) by congruence. subst. lia.
Qed.

Lemma cm_current_spec B sub dev s w :
  cm_ok B s →
  match cm_current sub dev s w with
  | (Ok v, s', _) => cm_ok B s' ∧ (∀ k, cm_stored s' k = cm_stored s k) ∧ cm_counters s' !! cm_key sub dev = Some v
  | (_, s', _) => cm_ok B s' ∧ ∀ k, cm_stored s' k = cm_stored s k
  end.
Proof.
  intros Hok. unfold cm_current. generalize (cm_key sub dev). intros key. eff_simpl.
  destruct (cm_counters s !! key) as [v|] eqn:Ek; [done|].
  pose proof (cm_load_spec key s w) as Hl. destruct (cm_load key s w) as [[[v|e|] s1] w1].
  - destruct Hl as (Hv&Hc&Hs). split_and!; [|done|by cbn; rewrite lookup_insert_eq].
    pose proof (cm_ok_read _ _ _ Hok Hc Hs) as Hok1. destruct (Hok1 key) as (v0&Hv0&Hb&_).
    rewrite Hs, Hv in Hv0. injection Hv0 as <-. apply cm_ok_cache; [done..|]. intros v0. rewrite Hs, Hv. intros [= <-]. done.
  - destruct Hl as [Hc Hs]. split; [by eapply cm_ok_read|done].
  - destruct Hl as [Hc Hs]. split; [by eapply cm_ok_read|done].
Qed.

(** The value is cached, then stored. *)
Lemma cm_bump_spec B key v sub dev s w :
  cm_ok B s → (v ≤ B < u64_modulus)%N → (∀ v0, cm_stored s key = Some v0 → (v0 ≤ v)%N) →
  match cm_persist key v sub dev (cm_set_counter key v s) w with
  | (Ok _, s', _) => cm_ok B s' ∧ ∀ k, cm_stored s' k = if decide (k = key) then Some v else cm_stored s k
  | (_, s', _) => cm_ok B s' ∧ ∀ k, cm_stored s' k = cm_stored s k
  end.
Proof.
  intros Hok HvB Hv. assert (cm_ok B (cm_set_counter key v s)) as Hok1 by (apply cm_ok_cache; [done|lia|done]).
  pose proof (cm_persist_spec key v sub dev (cm_set_counter key v s) w ltac:(lia)) as Hp.
  destruct (cm_persist _ _ _ _ _ _) as [[[[]|e|] s1] w1]; destruct Hp as [Hc Hs].
  - split; [|done]. eapply cm_ok_persist; [exact Hok1| |done..]. cbn. by rewrite lookup_insert_eq.
  - split; [by eapply cm_ok_read|done].
  - split; [by eapply cm_ok_read|done].
Qed.

Lemma cm_accept_spec B sub dev c s w last :
  cm_ok B s → (c ≤ B < u64_modulus)%N → cm_counters s !! cm_key sub dev = Some last →
  match cm_accept sub dev c s w with
  | (Ok _, s', _) => cm_ok B s' ∧ (last < c)%N ∧
      ∀ k, cm_stored s' k = if decide (k = cm_key sub dev) then Some c else cm_stored s k
  | (_, s', _) => cm_ok B s' ∧ ∀ k, cm_stored s' k = cm_stored s k
  end.
Proof.
  intros Hok Hc Hk. unfold cm_accept. revert Hk. generalize (cm_key sub dev). intros key Hk.
  assert (cm_set_counter key last s = s) as Hid.
  { destruct s as [st cs]. unfold cm_set_counter. cbn in *. by rewrite insert_id. }
  eff_simpl. rewrite Hk. cbn. rewrite Hid. destruct (N.leb_spec c last); cbn; [done|].
  destruct (Hok key) as (v0&Hv0&_&Hcached). specialize (Hcached _ Hk).
  pose proof (cm_bump_spec B key c sub dev s w Hok Hc) as Hb.
  destruct (cm_persist _ _ _ _ _ _) as [[[[]|e|] s1] w1]; cbn.
  - destruct Hb as [? ?]; [intros v1; rewrite Hv0; intros [= <-]; lia|done].
  - apply Hb. rewrite Hv0. intros v1 [= <-]. lia.
  - apply Hb. rewrite Hv0. intros v1 [= <-]. lia.
Qed.

(** Reads of the storage do not fail. *)
Context (reads_ok : ∀ c n (st : ST) w, ∃ o st' w', st_find c n st w = (Ok o, st', w')).

Lemma cm_next_spec B sub dev s w :
  cm_ok B s → (B + 1 < u64_modulus)%N →
  match cm_next sub dev s w with
  | (Ok v, s', _) => cm_ok (B + 1) s' ∧ (∃ v0, cm_stored s (cm_key sub dev) = Some v0 ∧ (v0 < v)%N) ∧
      ∀ k, cm_stored s' k = if decide (k = cm_key sub dev) then Some v else cm_stored s k
  | (_, s', _) => cm_ok (B + 1) s' ∧ ∀ k, cm_stored s' k = cm_stored s k
  end.
Proof.
  intros Hok HB. unfold cm_next. generalize (cm_key sub dev). intros key.
  destruct (Hok key) as (v0&Hv0&Hb&Hc).
  assert (∀ cur s1 w1, cm_ok B s1 → (∀ k, cm_stored s1 k = cm_stored s k) → (v0 ≤ cur ≤ B)%N →
    match (let value := add64 cur 1 in
           eff_modify (cm_set_counter key value);; cm_persist key value sub dev;; mret value) s1 w1 with
    | (Ok v, s', _) => cm_ok (B + 1) s' ∧ (∃ v0, cm_stored s key = Some v0 ∧ (v0 < v)%N) ∧
        ∀ k, cm_stored s' k = if decide (k = key) then Some v else cm_stored s k
    | (_, s', _) => cm_ok (B + 1) s' ∧ ∀ k, cm_stored s' k = cm_stored s k
    end) as Hbump.
  { intros cur s1 w1 Hok1 Hs1 Hcur. assert (add64 cur 1 = cur + 1)%N as ->.
    { unfold add64, wrap64. apply N.mod_small. lia. }
    pose proof (cm_bump_spec (B + 1) key (cur + 1) sub dev s1 w1) as Hp. eff_simpl.
    destruct (cm_persist _ _ _ _ _ _) as [[[[]|e|] s2] w2];
      (destruct Hp as [Hp1 Hp2]; [by eapply cm_ok_weaken; [exact Hok1|lia]|lia| |]);
      try (intros v1; rewrite Hs1, Hv0; intros [= <-]; lia).
    - split_and!; [done|exists v0; split; [done|lia]|]. intros k. rewrite Hp2. by case_decide.
    - split; [done|]. intros k. by rewrite Hp2.
    - split; [done|]. intros k. by rewrite Hp2. }
  eff_simpl. destruct (N.eqb_spec (default 0%N (cm_counters s !! key)) 0%N) as [Hz|Hz].
  - eff_simpl. pose proof (cm_find_spec key s w) as Hf. unfold cm_store, eff_zoom in *.
    destruct (reads_ok COUNTER_CATEGORY key (cm_storage s) w) as (o&st'&w'&Hr). rewrite Hr in *. cbn.
    destruct Hf as (->&Hcs&Hs). rewrite Hz. eff_simpl.
    apply Hbump; [by eapply cm_ok_read|done|]. unfold cm_stored in Hv0.
    destruct (st_view _ _ _) as [r|]; [|by injection Hv0 as <-].
    destruct (counter_of_record r); [|done..]. by injection Hv0 as <-.
  - eff_simpl. apply Hbump; [done..|]. destruct (cm_counters s !! key) as [c|]; [|done]. cbn. by apply Hc.
Qed.

Definition op_bound (B : N) (o : CounterOp) : Prop :=
  match o with OpReceive _ _ c => (c ≤ B)%N | _ => True end.

Lemma cm_op_spec B o s w :
  cm_ok B s → (B + 1 < u64_modulus)%N → op_bound B o →
  match cm_op o s w with
  | (Ok (Some (key, v)), s', _) => cm_ok (B + 1) s' ∧ (∃ v0, cm_stored s key = Some v0 ∧ (v0 < v)%N) ∧
      ∀ k, cm_stored s' k = if decide (k = key) then Some v else cm_stored s k
  | (_, s', _) => cm_ok (B + 1) s' ∧ ∀ k, cm_stored s' k = cm_stored s k
  end.
Proof.
  intros Hok HB Ho. destruct o as [sub dev c|sub dev c|sub dev|].
  - cbn [cm_op]. unfold cm_verify. eff_simpl. pose proof (cm_current_spec B sub dev s w Hok) as Hc.
    destruct (cm_current sub dev s w) as [[[v|e|] s1] w1]; [|split; [eapply cm_ok_weaken; [apply Hc|lia]|apply Hc]..].
    destruct Hc as (Hok1&Hs1&Hk). destruct (v <? c)%N; [|split; [eapply cm_ok_weaken; [done|lia]|done]].
    pose proof (cm_accept_spec B sub dev c s1 w1 v Hok1 ltac:(cbn in Ho; lia) Hk) as Ha. eff_simpl.
    destruct (cm_accept sub dev c s1 w1) as [[[[]|e|] s2] w2].
    + destruct Ha as (Hok2&Hlt&Hs2). split_and!.
      * eapply cm_ok_weaken; [done|lia].
      * destruct (Hok1 (cm_key sub dev)) as (v0&Hv0&_&Hcv). specialize (Hcv _ Hk). exists v0.
        rewrite <- Hs1. split; [done|lia].
      * intros k. by rewrite Hs2, Hs1.
    + destruct Ha as [? Hs2]. split; [eapply cm_ok_weaken; [done|lia]|]. intros k. by rewrite Hs2.
    + destruct Ha as [? Hs2]. split; [eapply cm_ok_weaken; [done|lia]|]. intros k. by rewrite Hs2.
  - cbn [cm_op]. unfold cm_verify. eff_simpl. pose proof (cm_current_spec B sub dev s w Hok) as Hc.
    destruct (cm_current sub dev s w) as [[[v|e|] s1] w1]; (split; [eapply cm_ok_weaken; [apply Hc|lia]|apply Hc]).
  - cbn [cm_op]. eff_simpl. pose proof (cm_next_spec B sub dev s w Hok HB) as Hn.
    by destruct (cm_next sub dev s w) as [[[v|e|] s1] w1].
  - cbn. split; [|done]. intros k. destruct (Hok k) as (v0&Hv0&Hb&_). exists v0. split_and!; [done|lia|].
    intros c. cbn. by rewrite lookup_empty.
Qed.

(** The counters spent for a key, in order. *)
Definition spent_for (key : string) (spent : list (string * N)) : list N :=
  omap (λ x, if decide (x.1 = key) then Some x.2 else None) spent.

Lemma cm_run_increasing B ops s w key :
  cm_ok B s → Forall (op_bound B) ops → (B + N.of_nat (length ops) < u64_modulus)%N →
  StronglySorted N.lt (spent_for key (cm_run ops s w).1.1) ∧
  ∀ v0, cm_stored s key = Some v0 → Forall (N.lt v0) (spent_for key (cm_run ops s w).1.1).
Proof.
  revert B s w. induction ops as [|o ops IH]; intros B s w Hok Hops HB; [by repeat constructor|].
  apply Forall_cons in Hops as [Ho Hops]. cbn [length] in HB. cbn [cm_run].
  pose proof (cm_op_spec B o s w Hok ltac:(lia) Ho) as Hs. destruct (cm_op o s w) as [[r s1] w1].
  assert (cm_ok (B + 1) s1) as Hok1 by (destruct r as [[[]|]| |]; tauto).
  specialize (IH (B + 1)%N s1 w1 Hok1).
  destruct IH as [Hsorted Habove]; [eapply Forall_impl; [done|]; intros []; cbn; lia|lia|].
  destruct (cm_run ops s1 w1) as [[spent s2] w2]. cbn [fst] in *.
  destruct r as [[[k v]|]|e|]; [|destruct Hs as [_ Hs]; split; [done|]; intros v0 Hv0; apply Habove; by rewrite Hs..].
  destruct Hs as (_&(v0&Hv0&Hlt)&Hs). unfold spent_for in *. cbn [omap list_omap fst snd]. specialize (Hs key).
  destruct (decide (k = key)) as [->|Hne].
  - rewrite decide_True in Hs by done. specialize (Habove v Hs). split; [by constructor|].
    intros v1. rewrite Hv0. intros [= <-]. constructor; [done|]. eapply Forall_impl; [exact Habove|]. cbn. lia.
  - rewrite decide_False in Hs by done. split; [done|]. intros v1 Hv1. apply Habove. by rewrite Hs.
Qed.

(** Over every storage whose reads work, starting from any readable stored counters, in
    every sequence of verified receptions, issues and restarts the counters spent for a key
    are strictly increasing and above the one stored at the start: none is ever accepted or
    issued twice, also across restarts and failed writes. *)
Theorem counter_replay_protected (B : N) (st : ST) (ops : list CounterOp) w (key : string) :
  (∀ k, ∃ v, cm_stored (cm_new st) k = Some v ∧ (v ≤ B)%N) →
  Forall (op_bound B) ops → (B + N.of_nat (length ops) < u64_modulus)%N →
  let spent := spent_for key (cm_run ops (cm_new st) w).1.1 in
  StronglySorted N.lt spent ∧ ∀ v0, cm_stored (cm_new st) key = Some v0 → Forall (N.lt v0) spent.
Proof.
  intros Hst Hops HB spent. apply (cm_run_increasing B); [|done..]. intros k.
  destruct (Hst k) as (v&Hv&Hb). exists v. split_and!; [done..|]. intros c. cbn. by rewrite lookup_empty.
Qed.

End history.

Section accepted.
Context {ST : Type} `{StorageLaws ST}.

(** [accept] compares with the cached value alone, zero when nothing is cached: a counter
    not above it is refused and nothing but the cache is touched; a greater one is cached
    first, and it is accepted exactly when the storage took it, which then holds it. *)
Theorem counter_accept_outcome (sub dev : string) (c : N) (s : CounterManager ST) w :
  (c < u64_modulus)%N →
  let key := cm_key sub dev in
  let last := default 0%N (cm_counters s !! key) in
  ((c ≤ last)%N → cm_accept sub dev c s w = (Err (CounterReplay c last), cm_set_counter key last s, w)) ∧
  ((last < c)%N →
    let '(r, s', _) := cm_accept sub dev c s w in
    cm_counters s' = <[key := c]> (cm_counters s) ∧
    ∀ k, cm_stored s' k = match r with Ok _ => if decide (k = key) then Some c else cm_stored s k | _ => cm_stored s k end).
Proof.
  intros Hc key last. unfold cm_accept. fold key. eff_simpl. fold last. split; intros Hl.
  - by rewrite (proj2 (N.leb_le _ _) Hl).
  - rewrite (proj2 (N.leb_gt _ _) Hl). eff_simpl.
    set (s1 := cm_set_counter key c _).
    assert (cm_counters s1 = <[key := c]> (cm_counters s)) as Hs1 by (cbn; by rewrite insert_insert_eq).
    pose proof (cm_persist_spec key c sub dev s1 w Hc) as Hp.
    destruct (cm_persist _ _ _ _ _ _) as [[[[]|e|] s2] w2]; destruct Hp as [Hcs Hst]; (split; [congruence|done]).
Qed.
End accepted.

(** * What a restart forgets *)

Module CounterExamples.
#[local] Existing Instance plain_order.

Definition run {A} (m : eff SigningProtocolError (CounterManager (gmap string (gmap string AgentRecord))) A) s :=
  (m s world0).1.

Lemma memory_reads_ok c n (st : gmap string (gmap string AgentRecord)) w :
  ∃ o st' w', st_find c n st w = (Ok o, st', w').
Proof. repeat eexists. Qed.

Lemma counter_replay_protected_witness :
  StronglySorted N.lt
    (spent_for "s:d" (cm_run [OpReceive "s" "d" 5; OpReceive "s" "d" 5; OpRestart; OpReceive "s" "d" 3; OpIssue "s" "d"]
       (cm_new mem_new) world0).1.1).
Proof.
  apply (counter_replay_protected memory_reads_ok 5).
  - intros k. exists 0%N. split; [reflexivity|lia].
  - repeat constructor; cbn; lia.
  - vm_compute. reflexivity.
Defined.

Lemma counter_accept_outcome_witness :
  cm_accept "s" "d" 0 (cm_new mem_new) world0 =
    (Err (CounterReplay 0 0), cm_set_counter "s:d" 0 (cm_new mem_new), world0).
Proof. apply (counter_accept_outcome "s" "d" 0 (cm_new mem_new) world0); [reflexivity|cbn; lia]. Defined.

(** The run of the witness spends 5 and 6. *)
Example counter_run :
  (cm_run [OpReceive "s" "d" 5; OpReceive "s" "d" 5; OpRestart; OpReceive "s" "d" 3; OpIssue "s" "d"]
     (cm_new mem_new) world0).1.1 = [("s:d", 5%N); ("s:d", 6%N)].
Proof. vm_compute. done. Qed.

(** A counter is accepted again after a restart, and the stored value goes down:
    [accept] does not read the stored value. *)
Example accept_after_restart :
  let s1 := (run (cm_accept "did:key:z1" "device1" 10) (cm_new mem_new)).2 in
  let restarted := cm_new (cm_storage s1) in
  let r := run (cm_accept "did:key:z1" "device1" 5) restarted in
  r.1 = Ok tt ∧ rec_value <$> mem_view (cm_storage r.2) COUNTER_CATEGORY "did:key:z1:device1" = Some "5".
Proof. vm_compute. done. Qed.

(** A refused counter of zero leaves a zero in the cache, which [verify] then trusts. *)
Example refused_zero_hides_storage :
  let s1 := (run (cm_accept "did:key:z1" "device1" 10) (cm_new mem_new)).2 in
  let s2 := (run (cm_accept "did:key:z1" "device1" 0) (cm_new (cm_storage s1))).2 in
  (run (cm_verify "did:key:z1" "device1" 5) s2).1 = Ok true.
Proof. vm_compute. done. Qed.

(** [current] reads the storage and writes the cache under different locks: a counter
    accepted in between is forgotten by the cache. *)
Example current_races_accept :
  let r0 := run (cm_load "s:d") (cm_new mem_new) in
  let s1 := (run (cm_accept "s" "d" 10) r0.2).2 in
  let s2 := match r0.1 with Ok v => cm_set_counter "s:d" v s1 | _ => s1 end in
  (run (cm_accept "s" "d" 7) s2).1 = Ok tt.
Proof. vm_compute. done. Qed.

(** Two subject and device pairs with one counter. *)
Example key_collision : cm_key "did:web:h" "u:d" = cm_key "did:web:h:u" "d".
Proof. done. Qed.
End CounterExamples.
