(* ===== verification/Signing.v ===== *)
(** Signing sessions: the state machine of [src/protocols/signing/src/state.rs], the
    records of [models/session.rs], [models/signable_object.rs] and [models/token.rs], and
    [SigningCoordinator] of [coordinator.rs] over any storage provider.

    [serde_json] is a parameter; the event bus is the list of events handed to it. *)
From S2P Require Import Prelude AjnaTypes Hashing Storage StdText SigningCounter.

(** * The session state machine *)

(** [src/protocols/signing/src/state.rs:8-29] SigningSessionState *)
Inductive SigningSessionState :=
  | Proposed | Requested | Consented | Signing | Combining | Distributing
  | Completed | Declined | Failed | Abandoned.
#[export] Instance SigningSessionState_eq_dec : EqDecision SigningSessionState.
Proof. solve_decision. Defined.

(** [src/protocols/signing/src/state.rs:33-63] SigningSessionState::can_transition_to *)
Definition can_transition_to (self next : SigningSessionState) : bool :=
  match self, next with
  | Proposed, Requested
  | Requested, Consented
  | Consented, Signing
  | Signing, Combining
  | Combining, Distributing
  | Combining, Completed
  | Distributing, Completed
  | Proposed, Declined
  | Requested, Declined
  | Consented, Declined
  | Proposed, Failed
  | Requested, Failed
  | Consented, Failed
  | Signing, Failed
  | Combining, Failed
  | Distributing, Failed
  | Proposed, Abandoned
  | Requested, Abandoned
  | Consented, Abandoned
  | Signing, Abandoned => true
  | _, _ => false
  end.

(** [src/protocols/signing/src/state.rs:66-74] SigningSessionState::is_terminal *)
Definition is_terminal (self : SigningSessionState) : bool :=
  match self with Completed | Declined | Failed | Abandoned => true | _ => false end.

(** [src/protocols/signing/src/state.rs:77-79] SigningSessionState::is_active *)
Definition is_active (self : SigningSessionState) : bool := negb (is_terminal self).

(** [src/protocols/signing/src/state.rs:82-97] SigningSessionState::fmt *)
Definition state_to_string (self : SigningSessionState) : string :=
  match self with
  | Proposed => "proposed"
  | Requested => "requested"
  | Consented => "consented"
  | Signing => "signing"
  | Combining => "combining"
  | Distributing => "distributing"
  | Completed => "completed"
  | Declined => "declined"
  | Failed => "failed"
  | Abandoned => "abandoned"
  end.

(** * Sessions *)

(** [src/protocols/signing/src/models/signable_object.rs:23-28] Canonicalization *)
Record Canonicalization := mkCanonicalization {
  cn_method : string;
  cn_parameters : gmap string Json
}.

(** [src/protocols/signing/src/models/signable_object.rs:30-36] Digest *)
Record Digest := mkDigest {
  dg_alg : string;
  dg_value : string
}.

(** [src/protocols/signing/src/models/signable_object.rs:38-46] DisplayHints *)
Record DisplayHints := mkDisplayHints {
  dh_title : option string;
  dh_preview_links : list string
}.

(** [src/protocols/signing/src/models/signable_object.rs:7-21] SignableObject *)
Record SignableObject := mkSignableObject {
  so_id : string;
  so_media_type : string;
  so_canonicalization : option Canonicalization;
  so_digest : Digest;
  so_display_hints : option DisplayHints
}.

(** [src/protocols/signing/src/models/signable_object.rs:49-53] Suite *)
Record Suite := mkSuite { suite_id : string }.

(** [src/protocols/signing/src/models/signable_object.rs:56-62] KeyBinding *)
Record KeyBinding := mkKeyBinding {
  kb_controller : string;
  kb_proof_purpose : string
}.

(** [src/protocols/signing/src/models/signable_object.rs:66-79] Constraints *)
Record Constraints := mkConstraints {
  cs_not_before : option string;
  cs_expires_time : option string;
  cs_use_limit : option N;
  cs_policy_uri : option string
}.

(** [src/protocols/signing/src/models/session.rs:10-23] ThresholdConfig *)
Record ThresholdConfig := mkThreshold {
  tc_scheme : string;
  tc_n : N;
  tc_m : N;
  tc_signers : list string;
  tc_aggregation : string
}.

(** [src/protocols/signing/src/models/session.rs:30-35] SessionMode *)
Record SessionMode := mkSessionMode { mode_type : string }.

(** [src/protocols/signing/src/models/session.rs:38-57] SessionParticipant *)
Record SessionParticipant := mkParticipant {
  sp_did : string;
  sp_key_binding : option KeyBinding;
  sp_connection_id : option string;
  sp_consented : bool;
  sp_signed : bool;
  sp_signature : option string
}.

(** [src/protocols/signing/src/models/session.rs:60-94] SigningSession *)
Record SigningSession := mkSession {
  ss_session_id : string;
  ss_thread_id : string;
  ss_object : SignableObject;
  ss_suite : Suite;
  ss_constraints : option Constraints;
  ss_mode : SessionMode;
  ss_threshold : option ThresholdConfig;
  ss_state : SigningSessionState;
  ss_participants : list SessionParticipant;
  ss_coordinator_did : string;
  ss_created_at : string;
  ss_updated_at : string;
  ss_expires_at : option string;
  ss_combined_signature : option string
}.

Definition ss_set_state (st : SigningSessionState) (s : SigningSession) : SigningSession :=
  mkSession (ss_session_id s) (ss_thread_id s) (ss_object s) (ss_suite s) (ss_constraints s) (ss_mode s)
    (ss_threshold s) st (ss_participants s) (ss_coordinator_did s) (ss_created_at s) (ss_updated_at s)
    (ss_expires_at s) (ss_combined_signature s).
Definition ss_set_participants (ps : list SessionParticipant) (s : SigningSession) : SigningSession :=
  mkSession (ss_session_id s) (ss_thread_id s) (ss_object s) (ss_suite s) (ss_constraints s) (ss_mode s)
    (ss_threshold s) (ss_state s) ps (ss_coordinator_did s) (ss_created_at s) (ss_updated_at s)
    (ss_expires_at s) (ss_combined_signature s).
Definition ss_set_updated_at (t : string) (s : SigningSession) : SigningSession :=
  mkSession (ss_session_id s) (ss_thread_id s) (ss_object s) (ss_suite s) (ss_constraints s) (ss_mode s)
    (ss_threshold s) (ss_state s) (ss_participants s) (ss_coordinator_did s) (ss_created_at s) t
    (ss_expires_at s) (ss_combined_signature s).
Definition ss_set_combined (c : option string) (s : SigningSession) : SigningSession :=
  mkSession (ss_session_id s) (ss_thread_id s) (ss_object s) (ss_suite s) (ss_constraints s) (ss_mode s)
    (ss_threshold s) (ss_state s) (ss_participants s) (ss_coordinator_did s) (ss_created_at s) (ss_updated_at s)
    (ss_expires_at s) c.

(** [src/protocols/signing/src/models/token.rs:9-27] AuthorizationToken *)
Record AuthorizationToken := mkToken {
  tok_typ : string;
  tok_session_id : string;
  tok_scope : string;
  tok_device : string;
  tok_ctr : N;
  tok_exp : option string;
  tok_cap : N
}.

(** [src/protocols/signing/src/models/token.rs:33-42] TokenSignature *)
Record TokenSignature := mkTokenSignature {
  ts_suite : string;
  ts_kid : string;
  ts_value : string
}.

(** [src/protocols/signing/src/models/token.rs:46-51] SignedAuthorizationToken *)
Record SignedAuthorizationToken := mkSignedToken {
  sat_token : AuthorizationToken;
  sat_sig : TokenSignature
}.

(** [src/protocols/signing/src/events.rs:30-83] SigningStateChangedPayload, ConsentReceivedPayload, PartialSignatureReceivedPayload, ThresholdMetPayload, SessionCompletedPayload *)
Inductive SigningEvent :=
  | EvStateChanged (session : SigningSession) (previous_state : option SigningSessionState)
  | EvConsentReceived (session_id signer_did : string)
  | EvPartialSignatureReceived (session_id signer_did : string) (round : option N)
  | EvThresholdMet (session_id : string) (required_signatures received_signatures : N)
  | EvSessionCompleted (session : SigningSession) (final_signature : string).

(** The serializers of [serde_json] for sessions and for a list of strings; [inl] is the
    error's text. *)
Class SigningSerde := {
  session_to_vec : SigningSession → string + string;
  session_from_slice : string → string + SigningSession;
  session_round_trip s bytes : session_to_vec s = inr bytes → session_from_slice bytes = inr s;
  strings_to_string : list string → string + string
}.

(** [iter().filter(..).count() as u32]. *)
Definition count_u32 {A} (P : A → bool) (l : list A) : N := (N.of_nat (length (filter (λ x, P x = true) l)) mod 2 ^ 32)%N.

(** The participant that [iter().find] finds, and its change through [iter_mut().find]. *)
Definition find_participant (did : string) (l : list SessionParticipant) : option SessionParticipant :=
  snd <$> list_find (λ p, sp_did p = did) l.
Fixpoint update_participant (did : string) (f : SessionParticipant → SessionParticipant)
    (l : list SessionParticipant) : list SessionParticipant :=
  match l with
  | [] => []
  | p :: l => if decide (sp_did p = did) then f p :: l else p :: update_participant did f l
  end.

(** [src/protocols/signing/src/coordinator.rs:237-238] SigningCoordinator::accept_consent (the change of the participant) *)
Definition with_consent (key_binding : KeyBinding) (p : SessionParticipant) : SessionParticipant :=
  mkParticipant (sp_did p) (Some key_binding) (sp_connection_id p) true (sp_signed p) (sp_signature p).

(** [src/protocols/signing/src/coordinator.rs:284-285] SigningCoordinator::accept_partial_signature (the change of the participant) *)
Definition with_signature (signature : string) (p : SessionParticipant) : SessionParticipant :=
  mkParticipant (sp_did p) (sp_key_binding p) (sp_connection_id p) (sp_consented p) true (Some signature).

(** * The coordinator *)

(** [src/protocols/signing/src/coordinator.rs:24-37] SigningCoordinator *)
Record SigningCoordinator (ST : Type) := mkCoordinator {
  co_our_did : string;
  co_storage : ST;
  co_sessions : gmap string SigningSession;
  co_counters : gmap string N;
  co_event_bus : option (list SigningEvent)
}.
Arguments mkCoordinator {ST}.
Arguments co_our_did {ST}.
Arguments co_storage {ST}.
Arguments co_sessions {ST}.
Arguments co_counters {ST}.
Arguments co_event_bus {ST}.

(** [src/protocols/signing/src/coordinator.rs:41-50] SigningCoordinator::new *)
Definition co_new {ST} (our_did : string) (storage : ST) : SigningCoordinator ST :=
  mkCoordinator our_did storage ∅ ∅ None.

(** [src/protocols/signing/src/coordinator.rs:54-57] SigningCoordinator::with_event_bus *)
Definition co_with_event_bus {ST} (self : SigningCoordinator ST) : SigningCoordinator ST :=
  mkCoordinator (co_our_did self) (co_storage self) (co_sessions self) (co_counters self) (Some []).

(** [src/protocols/signing/src/storage.rs:7] CATEGORY_SESSION *)
Definition CATEGORY_SESSION : string := "signing_session".

Section coordinator.
Context {ST : Type} `{StorageProvider ST} `{SigningSerde} `{Base64Std} `{Rfc3339}.

Abbreviation Co := (eff SigningProtocolError (SigningCoordinator ST)).

Definition co_cache (id : string) (session : SigningSession) (c : SigningCoordinator ST) : SigningCoordinator ST :=
  mkCoordinator (co_our_did c) (co_storage c) (<[id := session]> (co_sessions c)) (co_counters c) (co_event_bus c).

Definition co_set_storage (st : ST) (c : SigningCoordinator ST) : SigningCoordinator ST :=
  mkCoordinator (co_our_did c) st (co_sessions c) (co_counters c) (co_event_bus c).

(** A call of the storage, and a call of the counter manager, which shares it. *)
Definition co_store {A} (m : eff AgentError ST A) : Co A :=
  eff_zoom co_storage co_set_storage (λ e, StorageError (ag_to_string e)) m.
Definition co_count {A} (m : eff SigningProtocolError (CounterManager ST) A) : Co A :=
  eff_zoom (λ c, mkCounters (co_storage c) (co_counters c))
    (λ m c, mkCoordinator (co_our_did c) (cm_storage m) (co_sessions c) (cm_counters m) (co_event_bus c)) id m.

(** A serde error becomes [SerializationError]. *)
Definition lift_serde {A} (r : string + A) : Co A :=
  eff_lift (match r with inr a => Ok a | inl e => Err (SpSerializationError e) end).

Definition now_rfc3339 : Co string := now ← eff_world utc_now; mret (to_rfc3339 now).

(** [src/protocols/signing/src/coordinator.rs:61-66] SigningCoordinator::emit *)
Definition co_emit (payload : SigningEvent) : Co unit :=
  eff_modify (λ c, mkCoordinator (co_our_did c) (co_storage c) (co_sessions c) (co_counters c)
                     ((λ l, l ++ [payload]) <$> co_event_bus c)).

(** [src/protocols/signing/src/coordinator.rs:476-482] SigningCoordinator::required_signatures *)
Definition required_signatures (session : SigningSession) : N :=
  match ss_threshold session with Some t => tc_n t | None => 1%N end.

(** [src/protocols/signing/src/coordinator.rs:484-501] SigningCoordinator::save_session *)
Definition save_session (session : SigningSession) : Co unit :=
  value ← lift_serde (session_to_vec session);
  let record := rec_add_tag (rec_add_tag (rec_add_tag (rec_new CATEGORY_SESSION (ss_session_id session) value)
                  "state" (state_to_string (ss_state session)))
                  "coordinator_did" (ss_coordinator_did session))
                  "thread_id" (ss_thread_id session) in
  co_store (st_upsert record).

(** [src/protocols/signing/src/coordinator.rs:83-123] SigningCoordinator::create_session *)
Definition create_session (session_id thread_id : string) (object : SignableObject) (suite : Suite)
    (constraints : option Constraints) (mode : SessionMode) (threshold : option ThresholdConfig)
    (participants : list SessionParticipant) : Co SigningSession :=
  now ← now_rfc3339;
  our_did ← eff_gets co_our_did;
  let session := mkSession session_id thread_id object suite constraints mode threshold Proposed participants
                   our_did now now None None in
  save_session session;;
  eff_modify (co_cache session_id session);;
  mret session.

(** [src/protocols/signing/src/coordinator.rs:126-153] SigningCoordinator::get_session *)
Definition get_session (session_id : string) : Co (option SigningSession) :=
  cached ← eff_gets (λ c, co_sessions c !! session_id);
  match cached with
  | Some session => mret (Some session)
  | None =>
      found ← co_store (st_find CATEGORY_SESSION session_id);
      match found with
      | Some record =>
          session ← lift_serde (session_from_slice (rec_value record));
          eff_modify (co_cache session_id session);;
          mret (Some session)
      | None => mret None
      end
  end.

(** [src/protocols/signing/src/coordinator.rs:156-160] SigningCoordinator::require_session *)
Definition require_session (session_id : string) : Co SigningSession :=
  found ← get_session session_id;
  match found with Some session => mret session | None => eff_throw (SessionNotFound session_id) end.

(** [src/protocols/signing/src/coordinator.rs:163-195] SigningCoordinator::transition_state *)
Definition transition_state (session_id : string) (new_state : SigningSessionState) : Co SigningSession :=
  session ← require_session session_id;
  if negb (can_transition_to (ss_state session) new_state) then
    eff_throw (InvalidStateTransition (state_to_string (ss_state session)) (state_to_string new_state))
  else
    let previous_state := ss_state session in
    now ← now_rfc3339;
    let session := ss_set_updated_at now (ss_set_state new_state session) in
    save_session session;;
    eff_modify (co_cache session_id session);;
    co_emit (EvStateChanged session (Some previous_state));;
    mret session.

(** [src/protocols/signing/src/coordinator.rs:206-213] SigningCoordinator::active_sessions (the loop) *)
Fixpoint active_of_records (records : list AgentRecord) : outcome SigningProtocolError (list SigningSession) :=
  match records with
  | [] => Ok []
  | record :: records =>
      match session_from_slice (rec_value record) with
      | inl e => Err (SpSerializationError e)
      | inr session =>
          let? sessions := active_of_records records in
          Ok (if is_active (ss_state session) then session :: sessions else sessions)
      end
  end.

(** [src/protocols/signing/src/coordinator.rs:198-214] SigningCoordinator::active_sessions *)
Definition active_sessions : Co (list SigningSession) :=
  records ← co_store (st_find_all CATEGORY_SESSION q_new);
  eff_lift (active_of_records records).

(** [src/protocols/signing/src/coordinator.rs:222-259] SigningCoordinator::accept_consent *)
Definition accept_consent (session_id signer_did : string) (key_binding : KeyBinding) : Co bool :=
  session ← require_session session_id;
  match find_participant signer_did (ss_participants session) with
  | None => eff_throw (UnknownSigner signer_did)
  | Some _ =>
      now ← now_rfc3339;
      let session := ss_set_updated_at now
        (ss_set_participants (update_participant signer_did (with_consent key_binding) (ss_participants session)) session) in
      save_session session;;
      eff_modify (co_cache session_id session);;
      co_emit (EvConsentReceived session_id signer_did);;
      let consented_count := count_u32 sp_consented (ss_participants session) in
      mret (required_signatures session <=? consented_count)%N
  end.

(** [src/protocols/signing/src/coordinator.rs:271-321] SigningCoordinator::accept_partial_signature (after the session is read) *)
Definition record_signature (session : SigningSession) (session_id signer_did signature : string) : Co bool :=
  match find_participant signer_did (ss_participants session) with
  | None => eff_throw (UnknownSigner signer_did)
  | Some participant =>
      if sp_signed participant then eff_throw (DuplicateSigner signer_did)
      else
        now ← now_rfc3339;
        let session := ss_set_updated_at now
          (ss_set_participants (update_participant signer_did (with_signature signature) (ss_participants session)) session) in
        save_session session;;
        eff_modify (co_cache session_id session);;
        co_emit (EvPartialSignatureReceived session_id signer_did None);;
        let signed_count := count_u32 sp_signed (ss_participants session) in
        let required := required_signatures session in
        (if (signed_count =? required)%N then co_emit (EvThresholdMet session_id required signed_count) else mret tt);;
        mret (required <=? signed_count)%N
  end.

(** [src/protocols/signing/src/coordinator.rs:263-321] SigningCoordinator::accept_partial_signature *)
Definition accept_partial_signature (session_id signer_did signature : string) : Co bool :=
  session ← require_session session_id;
  record_signature session session_id signer_did signature.

(** [src/protocols/signing/src/coordinator.rs:326-369] SigningCoordinator::combine_signatures *)
Definition combine_signatures (session_id : string) : Co string :=
  session ← require_session session_id;
  let signatures := omap sp_signature (ss_participants session) in
  match signatures with
  | [] => eff_throw (ThresholdNotMet 0 (required_signatures session))
  | _ =>
      combined ← lift_serde (strings_to_string signatures);
      let combined_b64 := b64_encode combined in
      now ← now_rfc3339;
      let session := ss_set_updated_at now (ss_set_combined (Some combined_b64) session) in
      save_session session;;
      eff_modify (co_cache session_id session);;
      co_emit (EvSessionCompleted session combined_b64);;
      mret combined_b64
  end.

(** [src/protocols/signing/src/coordinator.rs:450-470] SigningCoordinator::issue_token *)
Definition issue_token (session_id scope device subject_did : string) : Co AuthorizationToken :=
  ctr ← co_count (cm_next subject_did device);
  mret (mkToken "signing-ticket" session_id scope device ctr None 1).
End coordinator.
