(* ===== verification/SigningHandler.v ===== *)
(** The message handler of the signing protocol: [src/protocols/signing/src/handler.rs],
    the message bodies of [messages/] and the types of [types.rs].

    Deserialization of bodies is derived by [serde] and a parameter; so is the
    serialization of the two bodies the handler sends. *)
From S2P Require Import Prelude AjnaTypes Hashing Storage Didcomm SigningCounter Signing.

(** [src/protocols/signing/src/types.rs:4-34] PIURI_PROPOSE_SIGNING to PIURI_PROBLEM_REPORT *)
Definition PIURI (name : string) : string := "https://didcomm.org/signing/1.0/" +:+ name.

(** [src/protocols/signing/src/types.rs:36-48] SUPPORTED_TYPES *)
Definition SUPPORTED_TYPES : list string :=
  PIURI <$> ["propose-signing"; "request-signing"; "consent"; "partial-signature"; "combine";
             "provide-artifacts"; "issue-token"; "ack"; "decline"; "problem-report"].

(** [src/protocols/signing/src/models/sealed_secret.rs:9-19] HpkeEncParams *)
Record HpkeEncParams := mkHpkeEncParams { he_kem : string; he_kdf : string; he_aead : string; he_ek_pub : string }.

(** [src/protocols/signing/src/models/sealed_secret.rs:32-41] HpkeAad *)
Record HpkeAad := mkHpkeAad { ha_ticket_digest : string; ha_session_id : string; ha_device : string }.

(** [src/protocols/signing/src/models/sealed_secret.rs:43-60] SealedSecret *)
Record SealedSecret := mkSealedSecret {
  sec_envelope_type : string; sec_suite : string; sec_aad : HpkeAad; sec_ciphertext : string; sec_enc : HpkeEncParams
}.

(** [src/protocols/signing/src/messages/propose.rs:5-19] ProposeSigning *)
Record ProposeSigning := mkPropose {
  pr_session_id : string; pr_object : SignableObject; pr_suite : Suite; pr_key_binding : option KeyBinding;
  pr_constraints : option Constraints; pr_mode : option SessionMode; pr_threshold : option ThresholdConfig
}.

(** [src/protocols/signing/src/messages/request.rs:7-23] RequestSigning *)
Record RequestSigning := mkRequest {
  rq_session_id : string; rq_object : SignableObject; rq_suite : Suite; rq_key_binding : option KeyBinding;
  rq_constraints : option Constraints; rq_mode : SessionMode; rq_threshold : option ThresholdConfig;
  rq_sealed_secret : option SealedSecret
}.

(** [src/protocols/signing/src/messages/consent.rs:5-12] Consent *)
Record Consent := mkConsent {
  cn_session_id : string; cn_signer_did : string; cn_key_binding : KeyBinding; cn_accepted_suite : Suite
}.

(** [src/protocols/signing/src/messages/partial_signature.rs:5-17] PartialSignature *)
Record PartialSignature := mkPartial {
  ps_session_id : string; ps_signer_did : string; ps_signer_index : N; ps_signature : string;
  ps_suite : Suite; ps_object_digest : string
}.

(** [src/protocols/signing/src/messages/combine.rs:5-15] Combine *)
Record Combine := mkCombine {
  cb_session_id : string; cb_combined_signature : string; cb_suite : Suite; cb_object_digest : string;
  cb_participant_count : N
}.

(** [src/protocols/signing/src/messages/provide_artifacts.rs:5-14] ProvideArtifacts *)
Record ProvideArtifacts := mkProvide {
  pa_session_id : string; pa_combined_signature : string; pa_sealed_secrets : list SealedSecret
}.

(** [src/protocols/signing/src/messages/issue_token.rs:5-13] IssueToken *)
Record IssueToken := mkIssueToken {
  it_session_id : string; it_token : SignedAuthorizationToken; it_sealed_secret : option SealedSecret
}.

(** [src/protocols/signing/src/messages/ack.rs:4-10] Ack *)
Record Ack := mkAck { ack_session_id : string; ack_status : string }.

(** [src/protocols/signing/src/messages/decline.rs:4-11] Decline *)
Record Decline := mkDecline { dc_session_id : string; dc_decliner_did : string; dc_reason : option string }.

(** [src/protocols/signing/src/messages/problem_report.rs:4-16] ProblemReport *)
Record ProblemReport := mkProblem {
  pb_session_id : string; pb_reporter_did : string; pb_code : string; pb_description : string; pb_details : option Json
}.

(** The derived serializers of the bodies; [inl] is the error's text. *)
Class SigningBodies := {
  propose_from_value : Json → string + ProposeSigning;
  request_from_value : Json → string + RequestSigning;
  consent_from_value : Json → string + Consent;
  partial_from_value : Json → string + PartialSignature;
  combine_from_value : Json → string + Combine;
  provide_from_value : Json → string + ProvideArtifacts;
  issue_from_value : Json → string + IssueToken;
  ack_from_value : Json → string + Ack;
  decline_from_value : Json → string + Decline;
  problem_from_value : Json → string + ProblemReport;
  ack_to_value : Ack → string + Json;
  combine_to_value : Combine → string + Json;
  sp_error_text : SigningProtocolError → string
}.

Section handler.
Context {ST : Type} `{StorageProvider ST} `{SigningSerde} `{Base64Std} `{Rfc3339} `{UuidText} `{SigningBodies}.

Abbreviation Co := (eff SigningProtocolError (SigningCoordinator ST)).

(** [src/protocols/signing/src/handler.rs:38-57] SigningProtocolHandler::require_claimed_sender *)
Definition require_claimed_sender (inbound : InboundMessage) (claimed_did : string) : outcome SigningProtocolError string :=
  if negb (ctx_authenticated (in_context inbound)) then Err (SpUnauthorized "signing protocol requires authcrypt")
  else
    match ctx_from (in_context inbound) with
    | None => Err (SpUnauthorized "authenticated sender is missing")
    | Some sender =>
        if decide (sender ≠ claimed_did) then
          Err (SpUnauthorized ("claimed signer " +:+ claimed_did +:+ " does not match authenticated sender " +:+ sender))
        else Ok sender
    end.

(** [src/protocols/signing/src/handler.rs:407-430] SigningProtocolHandler::create_response *)
Definition create_response (request : Message) (msg_type : string) (body : string + Json) : Co Message :=
  body_value ← lift_serde body;
  m ← eff_world (mb_new msg_type);
  our_did ← eff_gets co_our_did;
  mret (mb_thread (msg_thread_id request) (mb_from our_did (mb_body body_value m))).

(** [src/protocols/signing/src/handler.rs:71-84] SigningProtocolHandler::handle_propose_signing (a participant) *)
Definition new_participant (did : string) (connection_id : option string) : SessionParticipant :=
  mkParticipant did None connection_id false false None.

(** [src/protocols/signing/src/handler.rs:63-127] SigningProtocolHandler::handle_propose_signing *)
Definition handle_propose_signing (inbound : InboundMessage) : Co (option Message) :=
  body ← lift_serde (propose_from_value (msg_body (in_message inbound)));
  let from := default "unknown" (ctx_from (in_context inbound)) in
  let participants :=
    match pr_threshold body with
    | Some threshold => (λ did, new_participant did None) <$> tc_signers threshold
    | None => [new_participant from (ctx_connection_id (in_context inbound))]
    end in
  let mode := default (mkSessionMode (match pr_threshold body with Some _ => "threshold" | None => "single" end))
                (pr_mode body) in
  create_session (pr_session_id body) (msg_thread_id (in_message inbound)) (pr_object body) (pr_suite body)
    (pr_constraints body) mode (pr_threshold body) participants;;
  response ← create_response (in_message inbound) (PIURI "ack") (ack_to_value (mkAck (pr_session_id body) "proposed"));
  mret (Some response).

(** [src/protocols/signing/src/handler.rs:129-181] SigningProtocolHandler::handle_request_signing *)
Definition handle_request_signing (inbound : InboundMessage) : Co (option Message) :=
  body ← lift_serde (request_from_value (msg_body (in_message inbound)));
  our_did ← eff_gets co_our_did;
  let participants :=
    match rq_threshold body with
    | Some threshold => (λ did, new_participant did None) <$> tc_signers threshold
    | None => [new_participant our_did (ctx_connection_id (in_context inbound))]
    end in
  create_session (rq_session_id body) (msg_thread_id (in_message inbound)) (rq_object body) (rq_suite body)
    (rq_constraints body) (rq_mode body) (rq_threshold body) participants;;
  transition_state (rq_session_id body) Requested;;
  mret None.

(** [src/protocols/signing/src/handler.rs:183-217] SigningProtocolHandler::handle_consent *)
Definition handle_consent (inbound : InboundMessage) : Co (option Message) :=
  body ← lift_serde (consent_from_value (msg_body (in_message inbound)));
  eff_lift (require_claimed_sender inbound (cn_signer_did body));;
  if decide (kb_controller (cn_key_binding body) ≠ cn_signer_did body) then
    eff_throw (SpUnauthorized "key binding controller does not match signer")
  else
    session ← require_session (cn_session_id body);
    if decide (suite_id (cn_accepted_suite body) ≠ suite_id (ss_suite session)) then
      eff_throw (SignatureError "accepted suite does not match signing session")
    else
      all_consented ← accept_consent (cn_session_id body) (cn_signer_did body) (cn_key_binding body);
      (if all_consented : bool then
         transition_state (cn_session_id body) Consented;;
         transition_state (cn_session_id body) Signing;;
         mret tt
       else mret tt);;
      mret None.

(** [src/protocols/signing/src/handler.rs:219-292] SigningProtocolHandler::handle_partial_signature *)
Definition handle_partial_signature (inbound : InboundMessage) : Co (option Message) :=
  body ← lift_serde (partial_from_value (msg_body (in_message inbound)));
  eff_lift (require_claimed_sender inbound (ps_signer_did body));;
  session ← require_session (ps_session_id body);
  if decide (suite_id (ps_suite body) ≠ suite_id (ss_suite session) ∨
             ps_object_digest body ≠ dg_value (so_digest (ss_object session))) then
    eff_throw (SignatureError "partial signature is not bound to this suite and object")
  else
    match fst <$> list_find (λ p, sp_did p = ps_signer_did body) (ss_participants session) with
    | None => eff_throw (UnknownSigner (ps_signer_did body))
    | Some index =>
        let expected_index := ((N.of_nat index mod 2 ^ 32 + 1) mod 2 ^ 32)%N in
        if decide (ps_signer_index body ≠ expected_index) then
          eff_throw (SignatureError "partial signature signer index does not match participant")
        else
          match b64_decode (ps_signature body) with
          | inl _ => eff_throw (SignatureError "invalid signature encoding")
          | inr signature_bytes =>
              if decide (signature_bytes = "") then eff_throw (SignatureError "empty partial signature")
              else
                threshold_reached ← accept_partial_signature (ps_session_id body) (ps_signer_did body) (ps_signature body);
                if threshold_reached : bool then
                  transition_state (ps_session_id body) Combining;;
                  combined ← combine_signatures (ps_session_id body);
                  session ← require_session (ps_session_id body);
                  let participant_count := count_u32 sp_signed (ss_participants session) in
                  let combine_body := mkCombine (ps_session_id body) combined (ss_suite session)
                                        (dg_value (so_digest (ss_object session))) participant_count in
                  transition_state (ps_session_id body) Distributing;;
                  response ← create_response (in_message inbound) (PIURI "combine") (combine_to_value combine_body);
                  mret (Some response)
                else mret None
          end
    end.

(** [src/protocols/signing/src/handler.rs:294-316] SigningProtocolHandler::handle_combine *)
Definition handle_combine (inbound : InboundMessage) : Co (option Message) :=
  body ← lift_serde (combine_from_value (msg_body (in_message inbound)));
  found ← get_session (cb_session_id body);
  (match found with
   | Some session =>
       now ← now_rfc3339;
       let session := ss_set_updated_at now (ss_set_combined (Some (cb_combined_signature body)) session) in
       mret tt
   | None => mret tt
   end);;
  response ← create_response (in_message inbound) (PIURI "ack") (ack_to_value (mkAck (cb_session_id body) "OK"));
  mret (Some response).

(** [src/protocols/signing/src/handler.rs:318-336] SigningProtocolHandler::handle_provide_artifacts *)
Definition handle_provide_artifacts (inbound : InboundMessage) : Co (option Message) :=
  body ← lift_serde (provide_from_value (msg_body (in_message inbound)));
  response ← create_response (in_message inbound) (PIURI "ack") (ack_to_value (mkAck (pa_session_id body) "OK"));
  mret (Some response).

(** [src/protocols/signing/src/handler.rs:338-350] SigningProtocolHandler::handle_issue_token *)
Definition handle_issue_token (inbound : InboundMessage) : Co (option Message) :=
  body ← lift_serde (issue_from_value (msg_body (in_message inbound)));
  eff_throw (TokenVerificationFailed "authorization-token signature verifier is not configured").

(** [src/protocols/signing/src/handler.rs:352-369] SigningProtocolHandler::handle_ack *)
Definition handle_ack (inbound : InboundMessage) : Co (option Message) :=
  body ← lift_serde (ack_from_value (msg_body (in_message inbound)));
  found ← get_session (ack_session_id body);
  (match found with
   | Some session =>
       if decide (ss_state session = Distributing) then
         eff_catch (transition_state (ack_session_id body) Completed);; mret tt
       else mret tt
   | None => mret tt
   end);;
  mret None.

(** [src/protocols/signing/src/handler.rs:371-382] SigningProtocolHandler::handle_decline *)
Definition handle_decline (inbound : InboundMessage) : Co (option Message) :=
  body ← lift_serde (decline_from_value (msg_body (in_message inbound)));
  eff_catch (transition_state (dc_session_id body) Declined);;
  mret None.

(** [src/protocols/signing/src/handler.rs:384-401] SigningProtocolHandler::handle_problem_report *)
Definition handle_problem_report (inbound : InboundMessage) : Co (option Message) :=
  body ← lift_serde (problem_from_value (msg_body (in_message inbound)));
  eff_catch (transition_state (pb_session_id body) Failed);;
  mret None.

(** [src/protocols/signing/src/handler.rs:460-472] SigningProtocolHandler::handle (the dispatch) *)
Definition dispatch (inbound : InboundMessage) : Co (option Message) :=
  let msg_type := msg_type (in_message inbound) in
  if decide (msg_type = PIURI "propose-signing") then handle_propose_signing inbound
  else if decide (msg_type = PIURI "request-signing") then handle_request_signing inbound
  else if decide (msg_type = PIURI "consent") then handle_consent inbound
  else if decide (msg_type = PIURI "partial-signature") then handle_partial_signature inbound
  else if decide (msg_type = PIURI "combine") then handle_combine inbound
  else if decide (msg_type = PIURI "provide-artifacts") then handle_provide_artifacts inbound
  else if decide (msg_type = PIURI "issue-token") then handle_issue_token inbound
  else if decide (msg_type = PIURI "ack") then handle_ack inbound
  else if decide (msg_type = PIURI "decline") then handle_decline inbound
  else if decide (msg_type = PIURI "problem-report") then handle_problem_report inbound
  else eff_throw (InvalidMessageType msg_type).

(** [src/protocols/signing/src/handler.rs:443-489] SigningProtocolHandler::handle *)
Definition handle (inbound : InboundMessage) : eff MessageHandlerError (SigningCoordinator ST) (option OutboundMessage) :=
  if decide (ctx_authenticated (in_context inbound) = false ∨ ctx_from (in_context inbound) = None) then
    eff_throw (ProcessingFailed "signing protocol requires an authenticated sender")
  else
    our_did ← eff_gets co_our_did;
    result ← eff_zoom id (λ s _, s) (λ e, ProcessingFailed (sp_error_text e)) (dispatch inbound);
    mret (match result with
          | Some response =>
              Some (mkOutbound response (default "" (ctx_from (in_context inbound))) our_did
                      (ctx_connection_id (in_context inbound)))
          | None => None
          end).
End handler.
