(* ===== verification/SigningSafety.v ===== *)
(** What the signing handler guarantees about the sessions it keeps.

    A predicate on sessions that is closed under the changes the handler makes holds of
    every session, cached or stored, after any message ([dispatch_preserves]); the
    theorems are instances of it. *)
From S2P Require Import Prelude AjnaTypes Hashing Storage Didcomm StdText SigningCounter Signing SigningHandler.

Section safety.
Context {ST : Type} `{StorageLaws ST} `{SigningSerde} `{Base64Std} `{Rfc3339} `{UuidText} `{SigningBodies}.
Implicit Types (c : SigningCoordinator ST) (s : SigningSession).

Abbreviation Co := (eff SigningProtocolError (SigningCoordinator ST)).

Definition signed_count (s : SigningSession) : nat :=
  length (filter (λ p, sp_signed p = true) (ss_participants s)).

(** The threshold of a session is reached, counted without a width. *)
Definition threshold_reached (s : SigningSession) : Prop := (required_signatures s ≤ N.of_nat (signed_count s))%N.

(** What the handler knows of a session when it moves it to a state. *)
Definition state_ready (s : SigningSession) (st : SigningSessionState) : Prop :=
  (st = Combining → threshold_reached s) ∧
  (st = Distributing → is_Some (ss_combined_signature s)) ∧
  (st = Completed → ss_state s = Distributing).

(** The message was authenticated as coming from [did]. *)
Definition sender (inb : InboundMessage) (did : string) : Prop :=
  ctx_authenticated (in_context inb) = true ∧ ctx_from (in_context inb) = Some did.

(** The message is one that creates a session. *)
Definition creates (inb : InboundMessage) : Prop :=
  msg_type (in_message inb) = PIURI "propose-signing" ∨ msg_type (in_message inb) = PIURI "request-signing".

Definition unsigned (p : SessionParticipant) : Prop :=
  sp_consented p = false ∧ sp_signed p = false ∧ sp_signature p = None.

(** Closure of a predicate under what a message can do to a session. *)
Record step_closed (inb : InboundMessage) (P : string → SigningSession → Prop) : Prop := {
  cl_id id s : P id s → ss_session_id s = id;
  cl_create id th ob su cs mo tc ps cd now : creates inb → Forall unsigned ps →
    P id (mkSession id th ob su cs mo tc Proposed ps cd now now None None);
  cl_state id s st t : P id s → can_transition_to (ss_state s) st = true → state_ready s st →
    P id (ss_set_updated_at t (ss_set_state st s));
  cl_consent id s did kb t : P id s → sender inb did → is_Some (find_participant did (ss_participants s)) →
    P id (ss_set_updated_at t (ss_set_participants (update_participant did (with_consent kb) (ss_participants s)) s));
  cl_sign id s did sig p t : P id s → sender inb did → find_participant did (ss_participants s) = Some p →
    sp_signed p = false →
    P id (ss_set_updated_at t (ss_set_participants (update_participant did (with_signature sig) (ss_participants s)) s));
  cl_combine id s combined t : P id s → ss_state s = Combining → threshold_reached s →
    strings_to_string (omap sp_signature (ss_participants s)) = inr combined →
    P id (ss_set_updated_at t (ss_set_combined (Some (b64_encode combined)) s))
}.

(** [P] holds of every session the coordinator keeps. *)
Definition co_all (P : string → SigningSession → Prop) c : Prop :=
  (∀ id s, co_sessions c !! id = Some s → P id s) ∧
  (∀ id r s, st_view (co_storage c) CATEGORY_SESSION id = Some r → session_from_slice (rec_value r) = inr s → P id s).

Definition cached (id : string) (φ : SigningSession → Prop) c : Prop :=
  ∃ s, co_sessions c !! id = Some s ∧ φ s.

Section preserved.
Context (inb : InboundMessage) (P : string → SigningSession → Prop) (HP : step_closed inb P).
Abbreviation triple := (hoare (E := SigningProtocolError) (co_all P)).
Abbreviation any := (λ _ : SigningCoordinator ST, True).

(** A computation that leaves sessions and the view of the storage alone. *)
Lemma triple_keeps {A} Pre (m : Co A) (Q : A → SigningCoordinator ST → Prop) :
  (∀ c w, let '(r, c', _) := m c w in
     co_sessions c' = co_sessions c ∧ (∀ k n, st_view (co_storage c') k n = st_view (co_storage c) k n) ∧
     match r with Ok a => Pre c → Q a c' | _ => True end) →
  triple Pre m Q.
Proof.
  intros Hm c w [Hc Hs] Hp. specialize (Hm c w). destruct (m c w) as [[r c'] w'].
  destruct Hm as (Hses&Hst&Hr).
  assert (co_all P c') as Hall.
  { split; [by rewrite Hses|]. intros id rec s. rewrite Hst. apply Hs. }
  destruct r; [split; [done|auto]|done|done].
Qed.

Lemma triple_lift_serde {A} Pre (r : string + A) : triple Pre (lift_serde r) (λ a c, r = inr a ∧ Pre c).
Proof. intros c w Hc Hp. unfold lift_serde, eff_lift. by destruct r. Qed.

Lemma triple_now Pre : triple Pre now_rfc3339 (λ _ c, Pre c).
Proof. intros c w Hc Hp. done. Qed.

Lemma triple_gets {A} Pre (f : SigningCoordinator ST → A) : triple Pre (eff_gets f) (λ a c, a = f c ∧ Pre c).
Proof. intros c w Hc Hp. done. Qed.

Lemma triple_emit ev id φ : triple (cached id φ) (co_emit ev) (λ _, cached id φ).
Proof. intros c w Hc Hp. done. Qed.

Lemma triple_save Pre s : P (ss_session_id s) s → triple Pre (save_session s) (λ _ _, True).
Proof.
  intros Hs. unfold save_session. eapply hoare_bind; [apply triple_lift_serde|]. intros bytes. cbn.
  intros c w [Hc Hst] [Hb _]. unfold co_store, eff_zoom.
  set (r := rec_add_tag _ _ _). pose proof (st_upsert_law r (co_storage c) w) as Hu.
  assert (session_from_slice (rec_value r) = inr s) as Hr by (cbn; by apply session_round_trip).
  destruct (st_upsert r (co_storage c) w) as [[[[]|e|] st] w']; cbn.
  - split; [|done]. split; [done|]. intros id rec s'. cbn. rewrite Hu. case_decide as Hd; [|apply Hst].
    destruct Hd as [_ ->]. intros [= <-]. rewrite Hr. by intros [= <-].
  - split; [done|]. intros id rec s'. cbn. rewrite Hu. apply Hst.
  - split; [done|]. intros id rec s'. cbn. rewrite Hu. apply Hst.
Qed.

Lemma triple_cache Pre id s : P id s → triple Pre (eff_modify (co_cache id s)) (λ _, cached id (.= s)).
Proof.
  intros Hs. apply hoare_modify. intros c [Hc Hst] _. split.
  - split; [|done]. intros i s'. cbn. rewrite lookup_insert_Some. intros [[<- <-]|[_ ?]]; [done|by apply Hc].
  - exists s. cbn. by rewrite lookup_insert_eq.
Qed.

Lemma triple_get id : triple any (get_session id) (λ o, match o with Some s => cached id (.= s) | None => any end).
Proof.
  unfold get_session. eapply hoare_bind; [apply triple_gets|]. intros [s|]; cbn.
  - intros c w Hc [Hs _]. split; [done|]. by exists s.
  - eapply (hoare_bind _ _ _ (λ o c, match o with Some r => st_view (co_storage c) CATEGORY_SESSION id = Some r | None => True end)).
    + intros c w [Hc Hst] _. unfold co_store, eff_zoom.
      pose proof (st_find_law CATEGORY_SESSION id (co_storage c) w) as Hf.
      destruct (st_find _ _ _ _) as [[[o|e|] st] w']; cbn.
      * destruct Hf as [-> Hv]. split; [split; [done|]|].
        -- intros i r s. cbn. rewrite Hv. apply Hst.
        -- destruct (st_view _ _ _) eqn:E; [|done]. by rewrite Hv.
      * split; [done|]. intros i r s. cbn. rewrite Hf. apply Hst.
      * split; [done|]. intros i r s. cbn. rewrite Hf. apply Hst.
    + intros [r|]; [|by intros c w]. cbn.
      eapply hoare_bind; [apply triple_lift_serde|]. intros s. cbn. intros c w Hc [Hr Hv].
      assert (P id s) as Hs by (destruct Hc as [_ Hst]; by eapply Hst).
      eapply (hoare_bind _ any); [by apply triple_cache| |done|done]. intros []. by intros c' w'.
Qed.

Lemma get_session_cached id s c w : co_sessions c !! id = Some s → get_session id c w = (Ok (Some s), c, w).
Proof. intros Hs. unfold get_session. eff_simpl. by rewrite Hs. Qed.

Lemma triple_require id : triple any (require_session id) (λ s, cached id (.= s)).
Proof.
  unfold require_session. eapply hoare_bind; [apply triple_get|]. intros [s|]; cbn; [by intros c w|apply hoare_throw].
Qed.

Lemma triple_require_cached id φ : triple (cached id φ) (require_session id) (λ s c, cached id (.= s) c ∧ φ s).
Proof.
  intros c w Hc (s&Hs&Hφ). unfold require_session, mbind, eff_bind. rewrite (get_session_cached id s) by done.
  split; [done|]. split; [by exists s|done].
Qed.

(** A cached session satisfies [P]. *)
Lemma cached_P id s c : co_all P c → cached id (.= s) c → P id s.
Proof. intros [Hc _] (s'&Hs&<-). by apply Hc. Qed.

Lemma triple_put {A} Pre id s (k : Co A) Q :
  P id s → triple (cached id (.= s)) k Q → triple Pre (save_session s;; eff_modify (co_cache id s);; k) Q.
Proof.
  intros Hs Hk. eapply hoare_bind; [apply triple_save; by rewrite (cl_id _ _ HP id s Hs)|]. intros [].
  eapply hoare_bind; [by apply triple_cache|]. intros []. exact Hk.
Qed.

(** What is known of the session a computation works on: it is the cached one. *)
Definition at_session (φ : SigningSession → Prop) (id : string) (s : SigningSession) c : Prop :=
  cached id (.= s) c ∧ φ s.

Lemma triple_require_any id : triple any (require_session id) (at_session (λ _, True) id).
Proof. eapply hoare_conseq; [| |apply triple_require]; [done|]. by intros a c' _ Hc. Qed.

Lemma triple_transition Pre id st φ :
  triple Pre (require_session id) (at_session φ id) → (∀ s, φ s → state_ready s st) →
  triple Pre (transition_state id st)
    (at_session (λ s', ∃ s t, φ s ∧ s' = ss_set_updated_at t (ss_set_state st s)) id).
Proof.
  intros Hreq Hready. unfold transition_state. eapply hoare_bind; [exact Hreq|]. intros s. cbn beta.
  destruct (can_transition_to (ss_state s) st) eqn:Et; cbn [negb]; [|apply hoare_throw].
  intros c w Hc [Hcached Hφ]. pose proof (cached_P id s c Hc Hcached) as Hs.
  assert (∀ now, P id (ss_set_updated_at now (ss_set_state st s))) as Hs' by (intros now; apply (cl_state _ _ HP); auto).
  eapply (hoare_bind _ any); [apply triple_now| |done|done]. intros now. cbn beta.
  apply triple_put; [done|]. eapply hoare_bind; [apply triple_emit|]. intros [].
  intros c' w' Hc' Hcached'. split; [done|]. split; [done|]. eauto.
Qed.

Lemma triple_transition_any Pre id st :
  (∀ s, state_ready s st) → triple Pre (transition_state id st) (λ _, any).
Proof.
  intros Hready. eapply hoare_conseq; [| |eapply (triple_transition any id st (λ _, True))]; [done|done| |done].
  apply triple_require_any.
Qed.

Lemma triple_create Pre id th ob su cs mo tc ps :
  creates inb → Forall unsigned ps → triple Pre (create_session id th ob su cs mo tc ps) (λ _, any).
Proof.
  intros Hcr Hps. unfold create_session. eapply hoare_bind; [apply triple_now|]. intros now.
  eapply hoare_bind; [apply triple_gets|]. intros our_did. cbn beta.
  apply triple_put; [by apply (cl_create _ _ HP)|]. by intros c w.
Qed.

Lemma triple_consent id did kb : sender inb did → triple any (accept_consent id did kb) (λ _, any).
Proof.
  intros Hd. unfold accept_consent. eapply hoare_bind; [apply triple_require_any|]. intros s. cbn beta.
  destruct (find_participant did (ss_participants s)) as [p|] eqn:Ep; [|apply hoare_throw].
  intros c w Hc [Hcached _]. pose proof (cached_P id s c Hc Hcached) as Hs.
  eapply (hoare_bind _ any); [apply triple_now| |done|done]. intros now. cbn beta.
  apply triple_put; [apply (cl_consent _ _ HP); [done..|by rewrite Ep]|].
  eapply hoare_bind; [apply triple_emit|]. intros []. by intros c' w'.
Qed.

(** [count_u32] never exceeds the count. *)
Lemma count_u32_le {A} (f : A → bool) l : (count_u32 f l ≤ N.of_nat (length (filter (λ x, f x = true) l)))%N.
Proof. unfold count_u32. apply N.Div0.mod_le. Qed.

Lemma triple_sign id did sig :
  sender inb did →
  triple any (accept_partial_signature id did sig) (λ b, if b : bool then cached id threshold_reached else any).
Proof.
  intros Hd. unfold accept_partial_signature. eapply hoare_bind; [apply triple_require_any|]. intros s.
  unfold record_signature.
  destruct (find_participant did (ss_participants s)) as [p|] eqn:Ep; [|apply hoare_throw].
  destruct (sp_signed p) eqn:Esp; [apply hoare_throw|].
  intros c w Hc [Hcached _]. pose proof (cached_P id s c Hc Hcached) as Hs.
  eapply (hoare_bind _ any); [apply triple_now| |done|done]. intros now. cbn beta.
  set (s' := ss_set_updated_at now _).
  assert (P id s') as Hs' by (by eapply (cl_sign _ _ HP)).
  apply triple_put; [done|]. eapply hoare_bind; [apply triple_emit|]. intros [].
  eapply (hoare_bind _ _ _ (λ _, cached id (.= s'))); [destruct (_ =? _)%N; [apply triple_emit|by intros c' w']|].
  intros [] c' w' Hc' Hcached'. split; [done|]. destruct (N.leb_spec (required_signatures s') (count_u32 sp_signed (ss_participants s'))); [|done].
  destruct Hcached' as (s''&Hs''&->). exists s'. split; [done|]. unfold threshold_reached, signed_count.
  pose proof (count_u32_le sp_signed (ss_participants s')). lia.
Qed.

Lemma triple_combine id :
  triple (cached id (λ s, ss_state s = Combining ∧ threshold_reached s)) (combine_signatures id)
    (λ _, cached id (λ s, is_Some (ss_combined_signature s))).
Proof.
  unfold combine_signatures. eapply hoare_bind; [apply triple_require_cached|]. intros s. cbn beta.
  destruct (omap sp_signature (ss_participants s)) as [|sig sigs] eqn:Es; [apply hoare_throw|]. rewrite <- Es.
  intros c w Hc (Hcached&Hst&Hth). pose proof (cached_P id s c Hc Hcached) as Hs.
  eapply (hoare_bind _ any); [apply triple_lift_serde| |done|done]. intros combined c1 w1 Hc1 [Hr _].
  assert (∀ now, P id (ss_set_updated_at now (ss_set_combined (Some (b64_encode combined)) s))) as Hs'.
  { intros now. by apply (cl_combine _ _ HP). }
  eapply (hoare_bind _ any); [apply triple_now| |done|done]. intros now. cbn beta.
  apply triple_put; [done|]. eapply hoare_bind; [apply triple_emit|]. intros [].
  intros c' w' Hc' (s'&Hs''&->). split; [done|]. eexists. split; [done|]. done.
Qed.

(** ** The handlers *)

Lemma triple_response Pre req ty body : triple Pre (create_response req ty body) (λ _, any).
Proof.
  apply triple_keeps. intros c w. unfold create_response, lift_serde. eff_simpl. by destruct body.
Qed.

Lemma claimed_sender did from : require_claimed_sender inb did = Ok from → sender inb did.
Proof.
  unfold require_claimed_sender, sender. destruct (ctx_authenticated _); [|done].
  destruct (ctx_from _) as [f|]; [|done]. cbn. case_decide as Hf; [done|]. intros _. split; [done|].
  f_equal. destruct (decide (f = did)); [done|]. by destruct Hf.
Qed.

Lemma triple_catch_transition {B} Pre id st (k : Co B) Q :
  (∀ s, state_ready s st) → triple any k Q →
  triple Pre (eff_catch (transition_state id st);; k) Q.
Proof.
  intros Hr Hk. eapply hoare_bind; [eapply hoare_catch, (triple_transition_any Pre id st Hr)|].
  intros r. eapply hoare_pre; [|exact Hk]. done.
Qed.

(** The value of a body is known; nothing else is. *)
Lemma triple_body {A B} (r : string + A) (k : A → Co B) Q : (∀ a, triple any (k a) Q) → triple any (lift_serde r ≫= k) Q.
Proof.
  intros Hk. eapply hoare_bind; [apply triple_lift_serde|]. intros a. eapply hoare_pre; [|apply Hk]. done.
Qed.

Lemma triple_claimed {B} did (k : Co B) Q :
  (sender inb did → triple any k Q) → triple any (eff_lift (require_claimed_sender inb did);; k) Q.
Proof.
  intros Hk. eapply hoare_bind; [apply hoare_lift|]. intros r c w Hc [Hr _].
  exact (Hk (claimed_sender _ _ Hr) c w Hc I).
Qed.

Lemma ready_plain st s : st ≠ Combining → st ≠ Distributing → st ≠ Completed → state_ready s st.
Proof. by intros ???. Qed.

Lemma unsigned_new ps conn : Forall unsigned ((λ did, new_participant did conn) <$> ps).
Proof. apply Forall_fmap, Forall_true. by intros did. Qed.

Lemma triple_tail {A B} Pre (m : Co A) (k : A → Co B) Q :
  triple Pre m (λ _, any) → (∀ a, triple any (k a) Q) → triple Pre (m ≫= k) Q.
Proof. intros Hm Hk. eapply hoare_bind; [exact Hm|exact Hk]. Qed.

Lemma propose_triple : creates inb → triple any (handle_propose_signing inb) (λ _, any).
Proof.
  intros Hcr. unfold handle_propose_signing. apply triple_body. intros body. cbn beta zeta. apply triple_tail.
  - apply triple_create; [done|]. destruct (pr_threshold body); [apply unsigned_new|by repeat constructor].
  - intros _. apply triple_tail; [apply triple_response|]. by intros r c w.
Qed.

Lemma request_triple : creates inb → triple any (handle_request_signing inb) (λ _, any).
Proof.
  intros Hcr. unfold handle_request_signing. apply triple_body. intros body. cbn beta zeta.
  eapply hoare_bind; [apply triple_gets|]. intros our. apply triple_tail.
  - apply triple_create; [done|]. destruct (rq_threshold body); [apply unsigned_new|by repeat constructor].
  - intros _. apply triple_tail; [apply triple_transition_any; intros s; by apply ready_plain|]. by intros r c w.
Qed.

Lemma consent_triple : triple any (handle_consent inb) (λ _, any).
Proof.
  unfold handle_consent. apply triple_body. intros body. apply triple_claimed. intros Hs. cbn beta.
  case_decide; [apply hoare_throw|]. apply triple_tail; [eapply hoare_conseq; [| |apply triple_require]; done|]. intros s.
  case_decide; [apply hoare_throw|]. apply triple_tail; [by apply triple_consent|]. intros [].
  - apply triple_tail; [|by intros r c w].
    apply triple_tail; [apply triple_transition_any; intros s'; by apply ready_plain|]. intros _.
    apply triple_tail; [apply triple_transition_any; intros s'; by apply ready_plain|]. by intros r c w.
  - apply triple_tail; [by intros c w|]. by intros r c w.
Qed.

(** After the threshold: combine, then distribute. *)
Lemma combine_triple id msg ty (body : string → SigningSession → string + Json) :
  triple (cached id threshold_reached)
    (transition_state id Combining;;
     combined ← combine_signatures id;
     session ← require_session id;
     transition_state id Distributing;;
     response ← create_response msg ty (body combined session);
     mret (Some response)) (λ _, any).
Proof.
  eapply hoare_bind.
  { apply (triple_transition _ id Combining threshold_reached); [apply triple_require_cached|].
    intros s Hs. by split_and!. }
  intros s. eapply hoare_bind.
  { eapply hoare_pre; [|apply triple_combine]. intros c [(s'&Hs'&->) (s0&t&Hth&->)].
    eexists. split; [exact Hs'|]. split; [done|]. exact Hth. }
  intros combined. eapply hoare_bind; [apply triple_require_cached|]. intros session. cbn beta.
  eapply hoare_bind.
  { apply (triple_transition _ id Distributing (λ s, is_Some (ss_combined_signature s))).
    - eapply hoare_pre; [|apply triple_require_cached]. intros c [(s'&Hs'&->) Hc]. by eexists.
    - intros s' Hs'. by split_and!. }
  intros s'. apply triple_tail; [apply triple_response|]. by intros r c w.
Qed.

Lemma partial_triple : triple any (handle_partial_signature inb) (λ _, any).
Proof.
  unfold handle_partial_signature. apply triple_body. intros body. apply triple_claimed. intros Hs. cbn beta.
  apply triple_tail; [eapply hoare_conseq; [| |apply triple_require]; done|]. intros s.
  case_decide; [apply hoare_throw|]. destruct (fst <$> _) as [index|]; [|apply hoare_throw]. cbn zeta.
  case_decide; [apply hoare_throw|]. destruct (b64_decode _) as [?|bytes]; [apply hoare_throw|].
  case_decide; [apply hoare_throw|]. eapply hoare_bind; [by apply triple_sign|]. intros [].
  - apply (combine_triple (ps_session_id body) (in_message inb) (PIURI "combine") (λ combined session,
      combine_to_value (mkCombine (ps_session_id body) combined (ss_suite session)
        (dg_value (so_digest (ss_object session))) (count_u32 sp_signed (ss_participants session))))).
  - by intros c w.
Qed.

Lemma handle_combine_triple : triple any (handle_combine inb) (λ _, any).
Proof.
  unfold handle_combine. apply triple_body. intros body. apply triple_tail; [eapply hoare_conseq; [| |apply triple_get]; done|].
  intros found. apply triple_tail; [destruct found; [apply triple_tail; [apply triple_now|by intros r c w]|by intros c w]|].
  intros _. apply triple_tail; [apply triple_response|]. by intros r c w.
Qed.

Lemma ack_triple : triple any (handle_ack inb) (λ _, any).
Proof.
  unfold handle_ack. apply triple_body. intros body. eapply hoare_bind; [apply triple_get|]. intros [s|].
  - apply triple_tail; [|by intros r c w]. case_decide as Hst; [|by intros c w].
    apply triple_tail; [|by intros r c w].
    eapply hoare_conseq;
      [| |eapply hoare_catch, (triple_transition (cached (ack_session_id body) (.= s)) _ _ (λ s, ss_state s = Distributing))].
    + done.
    + done.
    + eapply hoare_pre; [|apply triple_require_cached]. intros c (s'&Hs'&->). by eexists.
    + intros s' Hs'. by split_and!.
  - apply triple_tail; [by intros c w|]. by intros r c w.
Qed.

Lemma dispatch_triple : triple any (dispatch inb) (λ _, any).
Proof.
  unfold dispatch. cbn zeta.
  case_decide; [apply propose_triple; by left|]. case_decide; [apply request_triple; by right|].
  case_decide; [apply consent_triple|]. case_decide; [apply partial_triple|].
  case_decide; [apply handle_combine_triple|].
  case_decide; [unfold handle_provide_artifacts; apply triple_body; intros body; apply triple_tail;
    [apply triple_response|by intros r c w]|].
  case_decide; [unfold handle_issue_token; apply triple_body; intros body; apply hoare_throw|].
  case_decide; [apply ack_triple|].
  case_decide; [unfold handle_decline; apply triple_body; intros body;
    apply triple_catch_transition; [intros s; by apply ready_plain|by intros c w]|].
  case_decide; [unfold handle_problem_report; apply triple_body; intros body;
    apply triple_catch_transition; [intros s; by apply ready_plain|by intros c w]|].
  apply hoare_throw.
Qed.

(** Any message keeps [P], whatever the result. *)
Lemma handle_preserves c w : co_all P c → co_all P (handle inb c w).1.2.
Proof.
  intros Hc. unfold handle. case_decide; [done|]. eff_simpl. unfold eff_zoom, id.
  pose proof (dispatch_triple c w Hc I) as Hd.
  destruct (dispatch inb c w) as [[[o|e|] c'] w']; cbn; [by destruct Hd|done|done].
Qed.
End preserved.

(** ** Collected signatures *)

Lemma update_found did f l p :
  find_participant did l = Some p →
  ∃ l1 l2, l = l1 ++ p :: l2 ∧ sp_did p = did ∧ update_participant did f l = l1 ++ f p :: l2.
Proof.
  unfold find_participant. induction l as [|q l IH]; [done|]. cbn.
  case_decide as Hd; [intros [= <-]; by exists [], l|].
  intros Hf. destruct IH as (l1&l2&->&Hp&->); [by destruct (list_find _ l) as [[]|]|]. by exists (q :: l1), l2.
Qed.

Definition states_combined (st : SigningSessionState) : Prop := st = Combining ∨ st = Distributing ∨ st = Completed.

(** A combined signature holds, in the order of the participants, collected signatures, as
    many as required. *)
Definition combined_ok (s : SigningSession) : Prop :=
  ∀ b64, ss_combined_signature s = Some b64 →
    ∃ sigs combined, strings_to_string sigs = inr combined ∧ b64 = b64_encode combined ∧
      sigs `sublist_of` omap sp_signature (ss_participants s) ∧ (required_signatures s ≤ N.of_nat (length sigs))%N.

Record session_sound (id : string) (s : SigningSession) : Prop := {
  snd_id : ss_session_id s = id;
  snd_signed : Forall (λ p, sp_signed p = true ↔ is_Some (sp_signature p)) (ss_participants s);
  snd_threshold : states_combined (ss_state s) → threshold_reached s;
  snd_combined : ss_state s = Distributing ∨ ss_state s = Completed → is_Some (ss_combined_signature s);
  snd_combined_ok : combined_ok s
}.

Lemma signed_signatures l :
  Forall (λ p, sp_signed p = true ↔ is_Some (sp_signature p)) l →
  length (omap sp_signature l) = length (filter (λ p, sp_signed p = true) l).
Proof.
  induction 1 as [|p l Hp _ IH]; [done|]. rewrite filter_cons. cbn. destruct (sp_signature p) eqn:E.
  - rewrite decide_True by (apply Hp; eauto). cbn. by rewrite IH.
  - rewrite decide_False; [done|]. intros Hs. apply Hp in Hs as [? ?]. congruence.
Qed.

Lemma states_back a b : can_transition_to a b = true → states_combined b → b ≠ Combining → states_combined a.
Proof. unfold states_combined. by destruct a, b; try done; intros; naive_solver. Qed.

Lemma session_sound_closed inb : step_closed inb session_sound.
Proof.
  split.
  - by intros id s [].
  - intros id th ob su cs mo tc ps cd now _ Hps. split; cbn; [done| |intros [|[]]; done|intros []; done|done].
    eapply Forall_impl; [exact Hps|]. cbn. intros p (_&->&->). split; [done|by intros []].
  - intros id s st t [Hid Hsig Hth Hco Hok] Htr (Hc&Hd&He). split; cbn; [done..| | |].
    + intros Hst. destruct (decide (st = Combining)) as [->|Hne]; [by apply Hc|].
      apply Hth. by eapply states_back.
    + intros [->| ->]; [by apply Hd|]. apply Hco. left. by apply He.
    + exact Hok.
  - intros id s did kb t [Hid Hsig Hth Hco Hok] _ [p Hp].
    destruct (update_found did (with_consent kb) _ p Hp) as (l1&l2&Hl&_&Hu).
    assert (omap sp_signature (l1 ++ with_consent kb p :: l2) = omap sp_signature (ss_participants s)) as Ho.
    { rewrite Hl, !omap_app. done. }
    assert (length (filter (λ p, sp_signed p = true) (l1 ++ with_consent kb p :: l2)) =
            length (filter (λ p, sp_signed p = true) (ss_participants s))) as Hn.
    { rewrite Hl, !filter_app, !length_app. f_equal. rewrite !filter_cons. cbn. by destruct (sp_signed p). }
    split; unfold threshold_reached, signed_count, combined_ok in *; cbn; rewrite ?Hu, ?Ho, ?Hn; try done.
    rewrite Hl in Hsig. apply Forall_app in Hsig as [Hs1 Hs2]. apply Forall_cons in Hs2 as [Hsp Hs2].
    by apply Forall_app_2, Forall_cons_2.
  - intros id s did sig p t [Hid Hsig Hth Hco Hok] _ Hp Hns.
    destruct (update_found did (with_signature sig) _ p Hp) as (l1&l2&Hl&_&Hu).
    rewrite Hl in Hsig. apply Forall_app in Hsig as [Hs1 Hs2]. apply Forall_cons in Hs2 as [Hsp Hs2].
    assert (sp_signature p = None) as Hnone.
    { destruct (sp_signature p) eqn:E; [|done]. rewrite Hns in Hsp. destruct Hsp as [_ Hsp]. discriminate Hsp. eauto. }
    split; unfold threshold_reached, signed_count, combined_ok in *; cbn; rewrite ?Hu; try done.
    + apply Forall_app_2, Forall_cons_2; [done| |done]. cbn. split; [by eauto|done].
    + intros Hst. specialize (Hth Hst). rewrite Hl, filter_app, filter_cons_False in Hth by (by rewrite Hns).
      rewrite filter_app, filter_cons_True by done. rewrite !length_app in *. cbn.
      unfold required_signatures in *. cbn. lia.
    + intros b64 Hb. destruct (Hok b64 Hb) as (sigs&combined&Hs&->&Hsub&Hreq). exists sigs, combined.
      split_and!; [done..| |done]. etrans; [exact Hsub|]. rewrite Hl, !omap_app. cbn. rewrite Hnone.
      apply sublist_app; [done|]. by apply sublist_cons.
  - intros id s combined t [Hid Hsig Hth Hco Hok] Hst Hreach Hs. split; unfold combined_ok in *; cbn; try done.
    intros b64 [= <-]. exists (omap sp_signature (ss_participants s)), combined. split_and!; [done..|].
    rewrite signed_signatures by done. exact Hreach.
Qed.

(** A run: messages are handled one after the other; the caller goes on after an error. *)
Fixpoint handle_all (inbs : list InboundMessage) c w : SigningCoordinator ST :=
  match inbs with
  | [] => c
  | inb :: inbs => let '(_, c, w) := handle inb c w in handle_all inbs c w
  end.

Lemma handle_all_preserves P inbs c w :
  (∀ inb, inb ∈ inbs → step_closed inb P) → co_all P c → co_all P (handle_all inbs c w).
Proof.
  revert c w. induction inbs as [|inb inbs IH]; intros c w HP Hc; [done|]. cbn.
  pose proof (handle_preserves inb P (HP inb ltac:(left)) c w Hc) as Hh.
  destruct (handle inb c w) as [[r c'] w']. apply IH; [|done]. intros inb' Hi. apply HP. by right.
Qed.

(** A session the coordinator keeps, in its cache or in the storage. *)
Definition held c (id : string) (s : SigningSession) : Prop :=
  co_sessions c !! id = Some s ∨
  ∃ r, st_view (co_storage c) CATEGORY_SESSION id = Some r ∧ session_from_slice (rec_value r) = inr s.

Lemma co_all_held P c : co_all P c ↔ ∀ id s, held c id s → P id s.
Proof. unfold co_all, held. naive_solver. Qed.

(** C8: Whatever messages arrive, in whatever order and with whatever failures of the storage,
    every session that is being distributed or completed has as combined signature the
    encoding of signatures of its participants, as many as its threshold requires, in the
    order of the participants. *)
Theorem signing_threshold_safety (inbs : list InboundMessage) c w id s :
  (∀ id s, held c id s → session_sound id s) →
  held (handle_all inbs c w) id s →
  ss_state s = Distributing ∨ ss_state s = Completed →
  ∃ sigs combined,
    ss_combined_signature s = Some (b64_encode combined) ∧ strings_to_string sigs = inr combined ∧
    sigs `sublist_of` omap sp_signature (ss_participants s) ∧ (required_signatures s ≤ N.of_nat (length sigs))%N.
Proof.
  intros Hc Hs Hst. apply co_all_held in Hc.
  pose proof (handle_all_preserves session_sound inbs c w (λ inb _, session_sound_closed inb) Hc) as Hall.
  rewrite co_all_held in Hall. destruct (Hall id s Hs) as [_ _ _ Hco Hok]. destruct (Hco Hst) as [b64 Hb].
  destruct (Hok b64 Hb) as (sigs&combined&Hv&->&Hsub&Hreq). eauto 8.
Qed.

(** ** Where a change comes from *)

Definition transition (a b : SigningSessionState) : Prop := can_transition_to a b = true.

(** One participant between two moments of a session: what is set stays as it is, and
    what is new was sent by the participant. *)
Definition participant_progress (inb : InboundMessage) (p0 p : SessionParticipant) : Prop :=
  sp_did p = sp_did p0 ∧
  (sp_signed p = sp_signed p0 ∧ sp_signature p = sp_signature p0 ∨
   sp_signed p0 = false ∧ sp_signed p = true ∧ sender inb (sp_did p)) ∧
  (sp_consented p = sp_consented p0 ∧ sp_key_binding p = sp_key_binding p0 ∨
   sp_consented p = true ∧ sender inb (sp_did p)).

Definition session_progress (inb : InboundMessage) (s0 s : SigningSession) : Prop :=
  ss_session_id s = ss_session_id s0 ∧ ss_threshold s = ss_threshold s0 ∧ ss_object s = ss_object s0 ∧
  ss_suite s = ss_suite s0 ∧ rtc transition (ss_state s0) (ss_state s) ∧
  Forall2 (participant_progress inb) (ss_participants s0) (ss_participants s).

#[local] Instance participant_progress_refl inb : Reflexive (participant_progress inb).
Proof. intros p. unfold participant_progress. naive_solver. Qed.

Lemma progress_refl inb s : session_progress inb s s.
Proof. unfold session_progress. split_and!; try done. Qed.

Lemma progress_update inb s0 s did f t :
  session_progress inb s0 s →
  (∀ p p0, find_participant did (ss_participants s) = Some p → sp_did p = did →
     participant_progress inb p0 p → participant_progress inb p0 (f p)) →
  is_Some (find_participant did (ss_participants s)) →
  session_progress inb s0 (ss_set_updated_at t (ss_set_participants (update_participant did f (ss_participants s)) s)).
Proof.
  intros (?&?&?&?&?&Hps) Hf [p Hp]. destruct (update_found did f _ p Hp) as (l1&l2&Hl&Hd&Hu).
  split_and!; cbn; try done. rewrite Hu. rewrite Hl in Hps.
  apply Forall2_app_inv_r in Hps as (k1&k2&Hk1&Hk2&->).
  apply Forall2_cons_inv_r in Hk2 as (p0&k2'&Hp0&Hk2&->).
  apply Forall2_app; [done|]. constructor; [by apply Hf|done].
Qed.

Lemma progress_closed inb c0 :
  step_closed inb (λ id s, ss_session_id s = id ∧
    ∃ s0, (held c0 id s0 ∨ creates inb ∧ ss_state s0 = Proposed ∧ Forall unsigned (ss_participants s0)) ∧
          session_progress inb s0 s).
Proof.
  split.
  - by intros id s [].
  - intros id th ob su cs mo tc ps cd now Hcr Hps. split; [done|]. eexists. split; [right; split; [done|]|apply progress_refl]. done.
  - intros id s st t [Hid (s0&Hs0&(?&?&?&?&Hr&?))] Htr _. split; [done|]. exists s0. split; [done|].
    split_and!; cbn; try done. eapply rtc_r; [exact Hr|]. exact Htr.
  - intros id s did kb t [Hid (s0&Hs0&Hpr)] Hse Hf. split; [done|]. exists s0. split; [done|].
    apply progress_update; [done| |done]. intros p p0 _ Hd (?&?&?). split_and!; [done..|]. right. split; [done|]. cbn. by rewrite Hd.
  - intros id s did sig p t [Hid (s0&Hs0&Hpr)] Hse Hf Hns. split; [done|]. exists s0. split; [done|].
    apply progress_update; [done| |by rewrite Hf]. intros p' p0 Hf' Hd (?&Hsig&?). split_and!; [done| |done].
    right. rewrite Hf in Hf'. injection Hf' as <-. cbn. rewrite Hd. destruct Hsig as [[Hsig _]|(_&Hsig&_)]; [|congruence].
    split_and!; [congruence|done|done].
  - intros id s combined t [Hid (s0&Hs0&(?&?&?&?&?&?))] _ _ _. split; [done|]. exists s0. split; [done|].
    by split_and!.
Qed.

(** A message changes a session it finds only along the state machine and only in the part
    of its sender: a participant that is newly signed or newly consenting is the
    authenticated sender, signatures and keys of the others stay, and the object, the suite
    and the threshold never change. A session that does not come from an earlier one of
    its id was created, in state Proposed and unsigned, by a propose or request message. *)
Theorem signing_step_provenance inb c w id s :
  (∀ id s, held c id s → ss_session_id s = id) →
  held (handle inb c w).1.2 id s →
  ∃ s0, (held c id s0 ∨ creates inb ∧ ss_state s0 = Proposed ∧ Forall unsigned (ss_participants s0)) ∧
        session_progress inb s0 s.
Proof.
  intros Hc Hs.
  assert (co_all (λ id s, ss_session_id s = id ∧
    ∃ s0, (held c id s0 ∨ creates inb ∧ ss_state s0 = Proposed ∧ Forall unsigned (ss_participants s0)) ∧
          session_progress inb s0 s) (handle inb c w).1.2) as Hall.
  { apply (handle_preserves inb _ (progress_closed inb c)). apply co_all_held. intros id' s' Hs'.
    split; [by apply Hc|]. exists s'. split; [by left|apply progress_refl]. }
  rewrite co_all_held in Hall. by destruct (Hall id s Hs).
Qed.
End safety.

(** * The state machine *)

Definition state_rank (st : SigningSessionState) : nat :=
  match st with
  | Proposed => 6 | Requested => 5 | Consented => 4 | Signing => 3 | Combining => 2 | Distributing => 1
  | _ => 0
  end.

Lemma transition_rank a b : transition a b → state_rank b < state_rank a.
Proof. unfold transition. destruct a, b; cbn; try done; lia. Qed.

(** A session moves at most six times; the terminal states are exactly those without a
    successor; every other state can fail in one step; and completion is reached only from
    Combining, or from Distributing, itself reached only from Combining. *)
Theorem signing_lifecycle (a b : SigningSessionState) :
  (∀ n, nsteps transition n a b → n ≤ 6) ∧
  (is_terminal a = true ↔ ∀ b, ¬ transition a b) ∧
  (is_active a = true → transition a Failed) ∧
  (transition a Completed → a = Combining ∨ a = Distributing ∧ ∀ a', transition a' a → a' = Combining).
Proof.
  split_and!.
  - assert (∀ n a, nsteps transition n a b → n ≤ state_rank a) as Hn.
    { intros n. induction n as [|n IH]; intros a' Hs; [lia|]. inversion Hs as [|? ? c ? Hac Hcb]; subst.
      apply IH in Hcb. apply transition_rank in Hac. lia. }
    intros n Hs. apply Hn in Hs. destruct a; cbn in Hs; lia.
  - unfold transition. split; [by destruct a, b|]. intros Hb. destruct a; try done; by destruct (Hb Failed).
  - by destruct a.
  - unfold transition. destruct a; try done; [by left|]. right. split; [done|]. by intros [].
Qed.
