(* ===== verification/SigningRuns.v ===== *)
(** Concrete runs of the signing handler over the in-memory storage: the witnesses of the
    theorems of SigningSafety.v and what goes wrong.

    The serializer of the runs writes a session without canonicalization as the binary
    digits of its code. *)
From S2P Require Import Prelude AjnaTypes Hashing Storage Didcomm StdText SigningCounter Signing SigningHandler SigningSafety.

(** * A serializer *)

Fixpoint pos_text (p : positive) : string :=
  match p with xH => "" | xO p => String (Ascii.ascii_of_N 48) (pos_text p) | xI p => String (Ascii.ascii_of_N 49) (pos_text p) end.
Fixpoint text_pos (s : string) : positive :=
  match s with
  | EmptyString => xH
  | String c s => if decide (Ascii.N_of_ascii c = 48)%N then xO (text_pos s) else xI (text_pos s)
  end.
Lemma text_pos_text p : text_pos (pos_text p) = p.
Proof. induction p as [p IH|p IH|]; cbn [pos_text text_pos]; [|by rewrite decide_True, IH|done]. by rewrite decide_False, IH. Qed.

Definition state_code (st : SigningSessionState) : nat :=
  match st with
  | Proposed => 0 | Requested => 1 | Consented => 2 | Signing => 3 | Combining => 4 | Distributing => 5
  | Completed => 6 | Declined => 7 | Failed => 8 | Abandoned => 9
  end.
Definition code_state (n : nat) : SigningSessionState :=
  nth n [Proposed; Requested; Consented; Signing; Combining; Distributing; Completed; Declined; Failed; Abandoned] Proposed.

Abbreviation kb_code := (string * string)%type (only parsing).
Abbreviation part_code := ((string * option kb_code) * ((option string * bool) * (bool * option string)))%type (only parsing).
Abbreviation session_code :=
  (((string * string) * ((string * string) * (string * string))) *
   (((option (option string * list string)) * string) *
    (option ((option string * option string) * (option N * option string)) * string)) *
   ((option ((string * N) * (N * (list string * string))) * nat) * (list part_code * string)) *
   ((string * string) * (option string * option string)))%type (only parsing).

Definition code_of (s : SigningSession) : session_code :=
  (((ss_session_id s, ss_thread_id s),
    ((so_id (ss_object s), so_media_type (ss_object s)), (dg_alg (so_digest (ss_object s)), dg_value (so_digest (ss_object s))))),
   (((λ h, (dh_title h, dh_preview_links h)) <$> so_display_hints (ss_object s), suite_id (ss_suite s)),
    ((λ c, ((cs_not_before c, cs_expires_time c), (cs_use_limit c, cs_policy_uri c))) <$> ss_constraints s,
     mode_type (ss_mode s))),
   (((λ t, ((tc_scheme t, tc_n t), (tc_m t, (tc_signers t, tc_aggregation t)))) <$> ss_threshold s, state_code (ss_state s)),
    ((λ p, ((sp_did p, (λ k, (kb_controller k, kb_proof_purpose k)) <$> sp_key_binding p),
            ((sp_connection_id p, sp_consented p), (sp_signed p, sp_signature p)))) <$> ss_participants s,
     ss_coordinator_did s)),
   ((ss_created_at s, ss_updated_at s), (ss_expires_at s, ss_combined_signature s))).

Definition of_code (c : session_code) : SigningSession :=
  let '(((sid, thid), ((oid, media), (alg, value))),
        ((hints, suite), (csts, mode)), ((thr, st), (parts, cdid)), ((created, updated), (expires, combined))) := c in
  mkSession sid thid
    (mkSignableObject oid media None (mkDigest alg value) ((λ h : _ * _, mkDisplayHints h.1 h.2) <$> hints))
    (mkSuite suite) ((λ c, mkConstraints c.1.1 c.1.2 c.2.1 c.2.2) <$> csts) (mkSessionMode mode)
    ((λ t, mkThreshold t.1.1 t.1.2 t.2.1 t.2.2.1 t.2.2.2) <$> thr) (code_state st)
    ((λ p, mkParticipant p.1.1 ((λ k : _ * _, mkKeyBinding k.1 k.2) <$> p.1.2) p.2.1.1 p.2.1.2 p.2.2.1 p.2.2.2) <$> parts)
    cdid created updated expires combined.

Lemma of_code_of s : so_canonicalization (ss_object s) = None → of_code (code_of s) = s.
Proof.
  destruct s as [sid thid [oid media can [alg value] hints] [suite] csts [mode] thr st parts cdid created updated expires combined].
  cbn. intros ->. f_equal.
  - f_equal. by destruct hints as [[]|].
  - by destruct csts as [[]|].
  - by destruct thr as [[]|].
  - by destruct st.
  - rewrite <- list_fmap_compose. rewrite <- (list_fmap_id parts) at 2. apply list_fmap_ext.
    intros i [did [[]|] conn con sig sgn] _; done.
Qed.

Definition toy_session_to_vec (s : SigningSession) : string + string :=
  match so_canonicalization (ss_object s) with
  | None => inr (pos_text (encode (code_of s)))
  | Some _ => inl "unsupported"
  end.
Definition toy_session_from_slice (b : string) : string + SigningSession :=
  match decode (text_pos b) with Some c => inr (of_code c) | None => inl "invalid" end.

Lemma toy_session_round_trip s b : toy_session_to_vec s = inr b → toy_session_from_slice b = inr s.
Proof.
  unfold toy_session_to_vec, toy_session_from_slice. destruct (so_canonicalization _) eqn:E; [done|]. intros [= <-].
  by rewrite text_pos_text, decode_encode, of_code_of.
Qed.

Definition toy_signing_serde : SigningSerde := {|
  session_to_vec := toy_session_to_vec;
  session_from_slice := toy_session_from_slice;
  session_round_trip := toy_session_round_trip;
  strings_to_string l := inr ("[" +:+ String.concat "," l +:+ "]")
|}.

(** * Runs *)

Module SigningRun.
#[local] Existing Instance plain_order.
#[local] Existing Instance toy_signing_serde.
#[local] Existing Instance toy_base64_std.
#[local] Existing Instance toy_rfc3339.
#[local] Existing Instance toy_uuid_text.

Definition object0 : SignableObject := mkSignableObject "o" "text/plain" None (mkDigest "sha-256" "h") None.
Definition suite0 : Suite := mkSuite "e".

(** Bodies name what they carry: the body of a message is the text of one of them. *)
Definition threshold2 : ThresholdConfig := mkThreshold "n-of-m" 2 3 ["a"; "b"; "c"] "none".

Definition run_bodies (tc : option ThresholdConfig) : SigningBodies := {|
  propose_from_value _ := inr (mkPropose "s" object0 suite0 None None None tc);
  request_from_value _ := inr (mkRequest "s" object0 suite0 None None (mkSessionMode "m") tc None);
  consent_from_value v := inr (mkConsent "s" (default "" (json_as_str v)) (mkKeyBinding (default "" (json_as_str v)) "p") suite0);
  partial_from_value v :=
    let did := default "" (json_as_str v) in
    inr (mkPartial "s" did (if decide (did = "b") then 2%N else if decide (did = "c") then 3%N else 1%N)
           ("sig-" +:+ did) suite0 "h");
  combine_from_value _ := inr (mkCombine "s" "x" suite0 "h" 1);
  provide_from_value _ := inl "none";
  issue_from_value _ := inl "none";
  ack_from_value _ := inr (mkAck "s" "OK");
  decline_from_value _ := inr (mkDecline "s" "a" None);
  problem_from_value _ := inl "none";
  ack_to_value a := inr (JString (ack_status a));
  combine_to_value c := inr (JString (cb_combined_signature c));
  sp_error_text e := match e with InvalidStateTransition f t => f +:+ ">" +:+ t | DuplicateSigner d => "dup " +:+ d | _ => "" end
|}.

Definition message (type from : string) : InboundMessage :=
  mkInbound (mkMessage "i" (PIURI type) (JString from) None None None None None None None ∅)
    (mkContext (Some from) None None None None true true None None).

Abbreviation Memory := (gmap string (gmap string AgentRecord)).

Definition start : SigningCoordinator Memory := co_new "a" mem_new.

Definition run (tc : option ThresholdConfig) (inbs : list InboundMessage) : SigningCoordinator Memory :=
  @handle_all Memory _ _ _ _ _ (run_bodies tc) inbs start world0.

Definition state_of (c : SigningCoordinator Memory) : option SigningSessionState := ss_state <$> co_sessions c !! "s".
Definition combined_of (c : SigningCoordinator Memory) : option string := co_sessions c !! "s" ≫= ss_combined_signature.

Definition two_of_three : list InboundMessage :=
  [message "request-signing" "k"; message "consent" "a"; message "consent" "b";
   message "partial-signature" "a"; message "partial-signature" "b"; message "ack" "a"].

(** A two-of-three session runs to its end. *)
Example two_of_three_completes :
  state_of (run (Some threshold2) two_of_three) = Some Completed ∧
  combined_of (run (Some threshold2) two_of_three) = Some (b64_encode "[sig-a,sig-b]").
Proof. vm_compute. done. Qed.

(** A signature that arrives before its consent is recorded and then refused as a
    duplicate: the session has all its signatures and stays in state Signing. *)
Example early_signature_stalls :
  let c := run None [message "request-signing" "k"; message "partial-signature" "a"; message "consent" "a";
                     message "partial-signature" "a"; message "ack" "a"] in
  state_of c = Some Signing ∧ combined_of c = None ∧
  (map sp_signed ∘ ss_participants) <$> co_sessions c !! "s" = Some [true].
Proof. vm_compute. done. Qed.

(** A signer that never consented is counted. *)
Example unconsented_signature_counts :
  let c := run (Some threshold2) [message "request-signing" "k"; message "consent" "a"; message "consent" "b";
                                  message "partial-signature" "a"; message "partial-signature" "c"] in
  state_of c = Some Distributing ∧
  (map (λ p, (sp_consented p, sp_signed p)) ∘ ss_participants) <$> co_sessions c !! "s"
    = Some [(true, true); (true, false); (false, true)].
Proof. vm_compute. done. Qed.

(** Anybody declines a session: the sender and the claimed decliner are not compared. *)
Example stranger_declines :
  state_of (run (Some threshold2) [message "request-signing" "k"; message "consent" "a"; message "decline" "mallory"])
    = Some Declined.
Proof. vm_compute. done. Qed.

(** A proposal with the id of a completed session replaces it. *)
Example proposal_resets_completed :
  let c := run (Some threshold2) (two_of_three ++ [message "propose-signing" "mallory"]) in
  state_of c = Some Proposed ∧ combined_of c = None.
Proof. vm_compute. done. Qed.

(** The signer acknowledges a combined signature and does not keep it. *)
Example combine_is_not_stored :
  combined_of (run None [message "request-signing" "k"; message "combine" "k"]) = None.
Proof. vm_compute. done. Qed.

(** Two signatures handled at the same time: the second writer had read the session before
    the first wrote, and the first signature is lost. *)
Example concurrent_signatures_lost :
  let c := run (Some threshold2) [message "request-signing" "k"; message "consent" "a"; message "consent" "b"] in
  match co_sessions c !! "s" with
  | Some read_by_b =>
      let c1 := (accept_partial_signature "s" "a" "sig-a" c world0).1.2 in
      let c2 := (record_signature read_by_b "s" "b" "sig-b" c1 world0).1.2 in
      (map sp_signed ∘ ss_participants) <$> co_sessions c2 !! "s" = Some [false; true; false]
  | None => False
  end.
Proof. vm_compute. done. Qed.

(** ** Witnesses *)

Lemma start_holds_nothing id s : ¬ held start id s.
Proof.
  intros [Hs|(r&Hr&_)].
  - change ((∅ : gmap string SigningSession) !! id = Some s) in Hs. by rewrite lookup_empty in Hs.
  - change (mem_view ∅ CATEGORY_SESSION id = Some r) in Hr. unfold mem_view in Hr. by rewrite lookup_empty in Hr.
Qed.

Lemma signing_threshold_safety_witness :
  ∃ s, held (run (Some threshold2) two_of_three) "s" s ∧
  ∃ sigs combined,
    ss_combined_signature s = Some (b64_encode combined) ∧ strings_to_string sigs = inr combined ∧
    sigs `sublist_of` omap sp_signature (ss_participants s) ∧ (required_signatures s ≤ N.of_nat (length sigs))%N.
Proof.
  assert (state_of (run (Some threshold2) two_of_three) = Some Completed) as Hst by (vm_compute; reflexivity).
  unfold state_of in Hst. destruct (co_sessions (run (Some threshold2) two_of_three) !! "s") as [s|] eqn:Hs; [|discriminate Hst].
  injection Hst as Hst. exists s. split; [left; exact Hs|].
  apply (@signing_threshold_safety Memory _ _ _ _ _ _ (run_bodies (Some threshold2)) two_of_three start world0 "s" s).
  - intros id s' Hs'. destruct (start_holds_nothing id s' Hs').
  - left. exact Hs.
  - right. exact Hst.
Defined.

Lemma signing_step_provenance_witness :
  let inb := message "request-signing" "k" in
  ∃ s, held (@handle Memory _ _ _ _ _ (run_bodies None) inb start world0).1.2 "s" s ∧
  ∃ s0, (held start "s" s0 ∨ creates inb ∧ ss_state s0 = Proposed ∧ Forall unsigned (ss_participants s0)) ∧
        session_progress inb s0 s.
Proof.
  intros inb. set (c := (@handle Memory _ _ _ _ _ (run_bodies None) inb start world0).1.2).
  assert (state_of c = Some Requested) as Hst by (vm_compute; reflexivity).
  unfold state_of in Hst. destruct (co_sessions c !! "s") as [s|] eqn:Hs; [|discriminate Hst].
  exists s. split; [left; exact Hs|].
  apply (@signing_step_provenance Memory _ _ _ _ _ _ (run_bodies None) inb start world0 "s" s); [|left; exact Hs].
  intros id s' Hs'. destruct (start_holds_nothing id s' Hs').
Defined.

Lemma signing_lifecycle_witness : 6 ≤ 6 ∧ is_terminal Completed = true.
Proof.
  split; [|reflexivity]. apply (proj1 (signing_lifecycle Proposed Completed)).
  apply (nsteps_l _ _ _ Requested); [reflexivity|]. apply (nsteps_l _ _ _ Consented); [reflexivity|].
  apply (nsteps_l _ _ _ Signing); [reflexivity|]. apply (nsteps_l _ _ _ Combining); [reflexivity|].
  apply (nsteps_l _ _ _ Distributing); [reflexivity|]. apply (nsteps_l _ _ _ Completed); [reflexivity|]. constructor.
Defined.
End SigningRun.
