(* ===== verification/Workflow.v ===== *)
(** Workflow templates and instances, [src/protocols/workflow/src/domain], the errors of
    [lib.rs], the guard and the attribute planner of [engine/], and the actions of
    [actions/registry.rs].

    The JMESPath engine is a parameter.  A registered action handler is any function of
    its context and the world; [None] is a handler that exceeds the registry's timeout. *)
From S2P Require Import Prelude AjnaTypes SerdeJson.

(** * Templates *)

(** [src/protocols/workflow/src/domain/policy.rs:10-15] PolicyMode *)
Inductive PolicyMode := SingletonPerConnection | MultiPerConnection.
#[export] Instance PolicyMode_eq_dec : EqDecision PolicyMode.
Proof. solve_decision. Defined.

(** [src/protocols/workflow/src/domain/policy.rs:3-8] InstancePolicy *)
Record InstancePolicy := mkPolicy { ip_mode : PolicyMode; ip_multiplicity_key : option string }.

(** [src/protocols/workflow/src/domain/role.rs:3-8] WorkflowRole *)
Inductive WorkflowRole := Coordinator | Processor.

(** [src/protocols/workflow/src/domain/template.rs:61-67] StateType *)
Inductive StateType := StateStart | StateNormal | StateFinal.
#[export] Instance StateType_eq_dec : EqDecision StateType.
Proof. solve_decision. Defined.

(** [src/protocols/workflow/src/domain/template.rs:52-59] StateDef *)
Record StateDef := mkState { sd_name : string; sd_type : StateType; sd_section : option string }.

(** [src/protocols/workflow/src/domain/template.rs:79-88] TransitionDef *)
Record TransitionDef := mkTransition {
  td_from : string; td_to : string; td_on : string; td_guard : option string; td_action : option string
}.

(** [src/protocols/workflow/src/domain/template.rs:90-99] ActionDef *)
Record ActionDef := mkAction {
  acd_key : string; acd_type_uri : string; acd_profile_ref : option string; acd_static_input : option Json
}.

(** [src/protocols/workflow/src/domain/template.rs:101-108] SectionDef *)
Record SectionDef := mkSection { sec_name : string; sec_order : option Z; sec_icon : option string }.

(** [src/protocols/workflow/src/domain/template.rs:153-174] AttributeSpec *)
Inductive AttributeSpec :=
  | AttrContext (path : string) (required : bool)
  | AttrStatic (value : Json) (required : bool)
  | AttrCompute (expr : string) (required : bool).

(** [src/protocols/workflow/src/domain/template.rs:120-129] CredentialProfile *)
Record CredentialProfile := mkCredProfile {
  cp_cred_def_id : option string; cp_attribute_plan : gmap string AttributeSpec; cp_to_ref : string; cp_options : option Json
}.

(** [src/protocols/workflow/src/domain/template.rs:146-151] RequestedPredicate *)
Record RequestedPredicate := mkPredicate { rp_name : string; rp_p_type : string; rp_p_value : Json }.

(** [src/protocols/workflow/src/domain/template.rs:131-144] ProofProfile *)
Record ProofProfile := mkProofProfile {
  pp_cred_def_id : option string; pp_schema_id : option string; pp_requested_attributes : list string;
  pp_requested_predicates : list RequestedPredicate; pp_to_ref : string; pp_options : option Json
}.

(** [src/protocols/workflow/src/domain/template.rs:110-118] Catalog *)
Record Catalog := mkCatalog {
  cat_credential_profiles : gmap string CredentialProfile;
  cat_proof_profiles : gmap string ProofProfile;
  cat_defaults : option Json
}.

(** [src/protocols/workflow/src/domain/template.rs:182-188] UiItem *)
Record UiItem := mkUiItem { ui_item_type : string; ui_properties : Json }.

(** [src/protocols/workflow/src/domain/template.rs:7-23] WorkflowTemplate (the display hints are their map of items) *)
Record WorkflowTemplate := mkTemplate {
  wt_template_id : string;
  wt_version : string;
  wt_title : string;
  wt_instance_policy : InstancePolicy;
  wt_sections : list SectionDef;
  wt_states : list StateDef;
  wt_transitions : list TransitionDef;
  wt_catalog : Catalog;
  wt_actions : list ActionDef;
  wt_display_hints : option (gmap string (list UiItem))
}.

(** [src/protocols/workflow/src/domain/template.rs:27-31] WorkflowTemplate::start_state *)
Definition wt_start_state (self : WorkflowTemplate) : option StateDef :=
  find_first (λ s, sd_type s = StateStart) (wt_states self).

(** [src/protocols/workflow/src/domain/template.rs:34-36] WorkflowTemplate::find_state *)
Definition wt_find_state (self : WorkflowTemplate) (name : string) : option StateDef :=
  find_first (λ s, sd_name s = name) (wt_states self).

(** [src/protocols/workflow/src/domain/template.rs:39-41] WorkflowTemplate::find_action *)
Definition wt_find_action (self : WorkflowTemplate) (key : string) : option ActionDef :=
  find_first (λ a, acd_key a = key) (wt_actions self).

(** [src/protocols/workflow/src/domain/template.rs:44-49] WorkflowTemplate::transitions_from *)
Definition wt_transitions_from (self : WorkflowTemplate) (state event : string) : list TransitionDef :=
  filter (λ t, td_from t = state ∧ td_on t = event) (wt_transitions self).

(** * Instances *)

(** [src/protocols/workflow/src/domain/instance.rs:37-45] InstanceStatus *)
Inductive InstanceStatus := StActive | StPaused | StCanceled | StCompleted | StError.
#[export] Instance InstanceStatus_eq_dec : EqDecision InstanceStatus.
Proof. solve_decision. Defined.

(** [src/protocols/workflow/src/domain/instance.rs:59-69] InstanceHistoryItem *)
Record InstanceHistoryItem := mkHistoryItem {
  hi_ts : string; hi_event : string; hi_from : string; hi_to : string; hi_action_key : option string; hi_msg_id : option string
}.

(** [src/protocols/workflow/src/domain/instance.rs:71-74] Participant (its DID) *)
Record WfParticipant := mkWfParticipant { wp_did : string }.

(** [src/protocols/workflow/src/domain/instance.rs:5-31] WorkflowInstanceData *)
Record WorkflowInstanceData := mkInstance {
  wi_instance_id : string;
  wi_template_id : string;
  wi_template_version : string;
  wi_connection_id : option string;
  wi_participants : gmap string WfParticipant;
  wi_state : string;
  wi_section : option string;
  wi_context : Json;
  wi_artifacts : Json;
  wi_status : InstanceStatus;
  wi_history : list InstanceHistoryItem;
  wi_multiplicity_key_value : option string;
  wi_idempotency_keys : list string
}.

Definition wi_set_status (st : InstanceStatus) (d : WorkflowInstanceData) : WorkflowInstanceData :=
  mkInstance (wi_instance_id d) (wi_template_id d) (wi_template_version d) (wi_connection_id d) (wi_participants d)
    (wi_state d) (wi_section d) (wi_context d) (wi_artifacts d) st (wi_history d) (wi_multiplicity_key_value d)
    (wi_idempotency_keys d).
Definition wi_set_context (c : Json) (d : WorkflowInstanceData) : WorkflowInstanceData :=
  mkInstance (wi_instance_id d) (wi_template_id d) (wi_template_version d) (wi_connection_id d) (wi_participants d)
    (wi_state d) (wi_section d) c (wi_artifacts d) (wi_status d) (wi_history d) (wi_multiplicity_key_value d)
    (wi_idempotency_keys d).
Definition wi_set_artifacts (a : Json) (d : WorkflowInstanceData) : WorkflowInstanceData :=
  mkInstance (wi_instance_id d) (wi_template_id d) (wi_template_version d) (wi_connection_id d) (wi_participants d)
    (wi_state d) (wi_section d) (wi_context d) a (wi_status d) (wi_history d) (wi_multiplicity_key_value d)
    (wi_idempotency_keys d).

(** [src/protocols/workflow/src/lib.rs:65-116] WorkflowError (a duration in nanoseconds) *)
Inductive WorkflowError :=
  | InstanceNotFound (s : string)
  | TemplateNotFound (s : string)
  | InvalidTransition (from event : string)
  | InvalidStatus (status : InstanceStatus) (operation : string)
  | NoEnabledTransition (state event : string)
  | PolicyViolation (s : string)
  | ActionFailed (s : string)
  | ActionTimeout (d : N)
  | ActionHandlerNotFound (s : string)
  | ValidationFailed (s : string)
  | IdempotentDuplicate (s : string)
  | ConnectionMismatch (expected actual : string)
  | WfSerialization (s : string)
  | WfRepository (s : string)
  | WfInternal (s : string).

(** [src/protocols/workflow/src/services/workflow_service.rs:821-828] merge_json *)
Definition merge_json (target source : Json) : Json :=
  match target, source with
  | JObject target_obj, JObject source_obj => JObject (obj_insert_all source_obj target_obj)
  | _, _ => target
  end.

(** * Guards *)

(** A [jmespath::Variable]; a number is its value as [f64], by its bits, if it has one. *)
Inductive JmVariable :=
  | JmNull
  | JmBool (b : bool)
  | JmString (s : string)
  | JmNumber (bits : option Z)
  | JmArray (l : list JmVariable)
  | JmObject (l : list (string * JmVariable))
  | JmExpref.

(** The crate [jmespath] together with the conversions through JSON text: compilation,
    search, and the values of both crates in each other; [None] is an error. *)
Class Jmespath := {
  jm_expression : Type;
  jm_compile : string → option jm_expression;
  jm_search : jm_expression → JmVariable → option JmVariable;
  jm_from_json : Json → option JmVariable;
  jm_to_json : JmVariable → option Json
}.

(** [src/protocols/workflow/src/engine/guard.rs:66-80] is_truthy *)
Definition is_truthy (value : JmVariable) : bool :=
  match value with
  | JmNull => false
  | JmBool b => b
  | JmString s => negb (bool_decide (s = ""))
  | JmNumber (Some bits) => negb (bool_decide (bits = 0%Z ∨ bits = 9223372036854775808%Z))
  | JmNumber None => false
  | JmArray a => negb (bool_decide (length a = 0))
  | JmObject o => negb (bool_decide (length o = 0))
  | JmExpref => true
  end.

Section engine.
Context `{Jmespath} `{HashOrder}.

Definition json_of_participants (participants : gmap string WfParticipant) : Json :=
  JObject ((λ kv, (kv.1, JObject [("did", JString (wp_did kv.2))])) <$> map_iter participants).

Definition guard_env (context : Json) (participants : gmap string WfParticipant) (artifacts : Json) : Json :=
  JObject [("context", context); ("participants", json_of_participants participants); ("artifacts", artifacts)].

(** [src/protocols/workflow/src/engine/guard.rs:21-63] GuardEvaluator::eval *)
Definition guard_eval (expr : option string) (context : Json) (participants : gmap string WfParticipant)
    (artifacts : Json) : bool :=
  match expr with
  | None => true
  | Some expr =>
      if decide (expr = "") then true
      else
        let env := guard_env context participants artifacts in
        match jm_compile expr with
        | Some compiled =>
            let data := default JmNull (jm_from_json env) in
            match jm_search compiled data with
            | Some result => is_truthy result
            | None => false
            end
        | None => false
        end
  end.

(** [str::split('.')]. *)
Fixpoint split_dot (s : string) (acc : string) : list string :=
  match s with
  | EmptyString => [acc]
  | String c s => if decide (Ascii.N_of_ascii c = 46)%N then acc :: split_dot s "" else split_dot s (acc +:+ String c "")
  end.

(** [src/protocols/workflow/src/engine/attribute.rs:48-57] resolve_dot_path *)
Definition resolve_dot_path (value : Json) (path : string) : option Json :=
  foldl (λ current segment, v ← current; json_get segment v) (Some value) (split_dot path "").

(** [src/protocols/workflow/src/engine/attribute.rs:60-67] evaluate_jmespath *)
Definition evaluate_jmespath (expr : string) (env : Json) : option Json :=
  compiled ← jm_compile expr;
  data ← jm_from_json env;
  result ← jm_search compiled data;
  jm_to_json result.

(** [src/protocols/workflow/src/engine/attribute.rs:11-44] AttributePlanner::resolve *)
Definition planner_resolve (plan : gmap string AttributeSpec) (context : Json)
    (participants : gmap string WfParticipant) (artifacts : Json) : gmap string Json :=
  (λ spec,
     match spec with
     | AttrContext path _ => default JNull (resolve_dot_path context path)
     | AttrStatic value _ => value
     | AttrCompute expr _ => default JNull (evaluate_jmespath expr (guard_env context participants artifacts))
     end) <$> plan.
End engine.

(** * Actions *)

(** [src/protocols/workflow/src/actions/registry.rs:11-16] ActionContext *)
Record ActionContext := mkActionContext {
  ax_template : WorkflowTemplate; ax_instance : WorkflowInstanceData; ax_action : ActionDef; ax_input : option Json
}.

(** [src/protocols/workflow/src/actions/registry.rs:19-27] ActionResult *)
Record ActionResult := mkActionResult {
  ar_artifacts : option Json; ar_context_merge : option Json; ar_message_id : option string
}.
Definition action_result_default : ActionResult := mkActionResult None None None.

(** [src/protocols/workflow/src/actions/registry.rs:30-34] WorkflowActionHandler::execute *)
Definition ActionHandler : Type := ActionContext → World → option (outcome WorkflowError ActionResult) * World.

(** [src/protocols/workflow/src/actions/registry.rs:42-45] ActionRegistry *)
Record ActionRegistry := mkRegistry {
  reg_handlers : gmap string ActionHandler;
  reg_timeout : N
}.

(** [src/protocols/workflow/src/actions/registry.rs:105] LocalStateSetAction::TYPE_URI *)
Definition STATE_SET_URI : string := "https://didcomm.org/workflow/actions/state:set@1".

Definition json_entries (v : Json) : option (list (string * Json)) :=
  match v with JObject o => Some o | _ => None end.

(** [src/protocols/workflow/src/actions/registry.rs:114-158] LocalStateSetAction::execute *)
Definition state_set_execute (ctx : ActionContext) : ActionResult :=
  let merged :=
    match acd_static_input (ax_action ctx) with
    | Some static_input =>
        let base :=
          match json_get "merge" static_input with
          | Some m => if decide ((length <$> json_entries static_input) = Some 1) then m else static_input
          | None => static_input
          end in
        match json_entries base with Some obj => obj_insert_all obj [] | None => [] end
    | None => []
    end in
  let merged :=
    match ax_input ctx ≫= json_entries with Some obj => obj_insert_all obj merged | None => merged end in
  mkActionResult None (match merged with [] => None | _ => Some (JObject merged) end) None.

(** [src/protocols/workflow/src/actions/registry.rs:62-67] ActionRegistry::register *)
Definition reg_register (uri : string) (h : ActionHandler) (self : ActionRegistry) : ActionRegistry :=
  mkRegistry (<[uri := h]> (reg_handlers self)) (reg_timeout self).

(** [src/protocols/workflow/src/actions/registry.rs:48-55] ActionRegistry::new *)
Definition reg_new : ActionRegistry :=
  reg_register STATE_SET_URI (λ ctx w, (Some (Ok (state_set_execute ctx)), w)) (mkRegistry ∅ 15000000000).

(** [src/protocols/workflow/src/actions/registry.rs:57-60] ActionRegistry::with_timeout *)
Definition reg_with_timeout (self : ActionRegistry) (timeout : N) : ActionRegistry :=
  mkRegistry (reg_handlers self) timeout.

(** [src/protocols/workflow/src/actions/registry.rs:69-89] ActionRegistry::execute *)
Definition reg_execute (self : ActionRegistry) (action_def : ActionDef) (ctx : ActionContext) (w : World)
    : outcome WorkflowError ActionResult * World :=
  match reg_handlers self !! acd_type_uri action_def with
  | None => (Err (ActionHandlerNotFound (acd_type_uri action_def)), w)
  | Some handler =>
      match handler ctx w with
      | (Some result, w) => (result, w)
      | (None, w) => (Err (ActionTimeout (reg_timeout self)), w)
      end
  end.
