(* ===== verification/WorkflowService.v ===== *)
(** The workflow service, [src/protocols/workflow/src/services/workflow_service.rs], over the
    in-memory repositories of [repository/].

    A method is an effect on the service and the world.  [advance_inner] holds the
    instance's lock, which keeps other advances out but no other method; it is split into
    what it computes from the record it loaded ([advance_prepare]) and what it stores
    ([advance_commit]), so that a method can run between the two.  The event bus is the
    list of what was emitted. *)
From S2P Require Import Prelude AjnaTypes Workflow.

(** * Records *)

(** [serde_json::to_string] on a template, and the crates [sha2] and [hex]. *)
Class WorkflowCrates := {
  wc_template_to_string : WorkflowTemplate → option string;
  wc_sha256 : string → string;
  wc_hex_encode : string → string
}.

(** [src/protocols/workflow/src/repository/template_record.rs:9-18] WorkflowTemplateRecord *)
Record WorkflowTemplateRecord := mkTemplateRecord {
  wtr_id : string;
  wtr_template_id : string;
  wtr_version : string;
  wtr_title : string;
  wtr_hash : string;
  wtr_template : WorkflowTemplate;
  wtr_created_at : Instant;
  wtr_updated_at : Instant
}.

(** [src/protocols/workflow/src/repository/template_record.rs:39-44] compute_template_hash *)
Definition compute_template_hash `{WorkflowCrates} (template : WorkflowTemplate) : string :=
  wc_hex_encode (wc_sha256 (default "" (wc_template_to_string template))).

(** [src/protocols/workflow/src/repository/template_record.rs:21-35] WorkflowTemplateRecord::new *)
Definition wtr_new `{WorkflowCrates} `{UuidText} (template : WorkflowTemplate) (w : World)
    : WorkflowTemplateRecord * World :=
  let '(now, w) := utc_now w in
  let '(id, w) := uuid_new_v4 w in
  (mkTemplateRecord (uuid_to_string id) (wt_template_id template) (wt_version template) (wt_title template)
     (compute_template_hash template) template now now, w).

(** [src/protocols/workflow/src/repository/instance_record.rs:9-16] WorkflowInstanceRecord *)
Record WorkflowInstanceRecord := mkInstanceRecord {
  wir_id : string;
  wir_data : WorkflowInstanceData;
  wir_role : WorkflowRole;
  wir_created_at : Instant;
  wir_updated_at : Instant
}.

(** [src/protocols/workflow/src/repository/instance_record.rs:19-28] WorkflowInstanceRecord::new *)
Definition wir_new `{UuidText} (data : WorkflowInstanceData) (role : WorkflowRole) (w : World)
    : WorkflowInstanceRecord * World :=
  let '(now, w) := utc_now w in
  let '(id, w) := uuid_new_v4 w in
  (mkInstanceRecord (uuid_to_string id) data role now now, w).

Definition wir_set_data (d : WorkflowInstanceData) (now : Instant) (r : WorkflowInstanceRecord)
    : WorkflowInstanceRecord :=
  mkInstanceRecord (wir_id r) d (wir_role r) (wir_created_at r) now.

(** * Repositories *)

(** A stable sort by a boolean order, as [sort_by] does it. *)
Fixpoint insert_by_le {A} (le : A → A → bool) (x : A) (l : list A) : list A :=
  match l with
  | [] => [x]
  | y :: l' => if le x y then x :: y :: l' else y :: insert_by_le le x l'
  end.
Definition sort_by_le {A} (le : A → A → bool) (l : list A) : list A := foldr (insert_by_le le) [] l.

Section repositories.
Context `{HashOrder}.

Definition repo_values {V} (m : gmap string V) : list V := (map_iter m).*2.

(** [src/protocols/workflow/src/repository/template_repository.rs:44-48] WorkflowTemplateRepository::save *)
Definition trepo_save (r : WorkflowTemplateRecord) (m : gmap string WorkflowTemplateRecord)
    : gmap string WorkflowTemplateRecord := <[wtr_id r := r]> m.

(** [src/protocols/workflow/src/repository/template_repository.rs:50-57] WorkflowTemplateRepository::update *)
Definition trepo_update (r : WorkflowTemplateRecord) (m : gmap string WorkflowTemplateRecord)
    : outcome WorkflowError (gmap string WorkflowTemplateRecord) :=
  match m !! wtr_id r with
  | None => Err (TemplateNotFound (wtr_id r))
  | Some _ => Ok (<[wtr_id r := r]> m)
  end.

(** [src/protocols/workflow/src/repository/template_repository.rs:59-77] WorkflowTemplateRepository::find_by_template_id_and_version *)
Definition trepo_find (template_id : string) (version : option string) (m : gmap string WorkflowTemplateRecord)
    : option WorkflowTemplateRecord :=
  let matches := filter (λ r, wtr_template_id r = template_id) (repo_values m) in
  match version with
  | Some version => find_first (λ r, wtr_version r = version) matches
  | None => head (sort_by_le (λ a b, str_le (wtr_version b) (wtr_version a)) matches)
  end.

(** [src/protocols/workflow/src/repository/template_repository.rs:79-82] WorkflowTemplateRepository::find_all *)
Definition trepo_find_all (m : gmap string WorkflowTemplateRecord) : list WorkflowTemplateRecord := repo_values m.

(** [src/protocols/workflow/src/repository/template_repository.rs:84-88] WorkflowTemplateRepository::delete *)
Definition trepo_delete (id : string) (m : gmap string WorkflowTemplateRecord)
    : gmap string WorkflowTemplateRecord := delete id m.

(** [src/protocols/workflow/src/repository/instance_repository.rs:53-57] WorkflowInstanceRepository::save *)
Definition irepo_save (r : WorkflowInstanceRecord) (m : gmap string WorkflowInstanceRecord)
    : gmap string WorkflowInstanceRecord := <[wir_id r := r]> m.

(** [src/protocols/workflow/src/repository/instance_repository.rs:59-66] WorkflowInstanceRepository::update *)
Definition irepo_update (r : WorkflowInstanceRecord) (m : gmap string WorkflowInstanceRecord)
    : outcome WorkflowError (gmap string WorkflowInstanceRecord) :=
  match m !! wir_id r with
  | None => Err (InstanceNotFound (wir_id r))
  | Some _ => Ok (<[wir_id r := r]> m)
  end.

(** [src/protocols/workflow/src/repository/instance_repository.rs:68-77] WorkflowInstanceRepository::find_by_instance_id *)
Definition irepo_find (instance_id : string) (m : gmap string WorkflowInstanceRecord) : option WorkflowInstanceRecord :=
  find_first (λ r, wi_instance_id (wir_data r) = instance_id) (repo_values m).

(** [src/protocols/workflow/src/repository/instance_repository.rs:79-93] WorkflowInstanceRepository::find_by_template_and_connection *)
Definition irepo_find_by_template_and_connection (template_id : string) (connection_id : option string)
    (m : gmap string WorkflowInstanceRecord) : list WorkflowInstanceRecord :=
  filter (λ r, wi_template_id (wir_data r) = template_id ∧ wi_connection_id (wir_data r) = connection_id) (repo_values m).

(** [src/protocols/workflow/src/repository/instance_repository.rs:95-102] WorkflowInstanceRepository::find_by_connection *)
Definition irepo_find_by_connection (connection_id : string) (m : gmap string WorkflowInstanceRecord)
    : list WorkflowInstanceRecord :=
  filter (λ r, wi_connection_id (wir_data r) = Some connection_id) (repo_values m).

(** [src/protocols/workflow/src/repository/instance_repository.rs:104-114] WorkflowInstanceRepository::find_latest_by_connection *)
Definition irepo_find_latest_by_connection (connection_id : string) (m : gmap string WorkflowInstanceRecord)
    : option WorkflowInstanceRecord :=
  foldl (λ best r,
           match best with
           | None => Some r
           | Some b => Some (if decide (wir_created_at b ≤ wir_created_at r)%Z then r else b)
           end) None (irepo_find_by_connection connection_id m).

(** [src/protocols/workflow/src/repository/instance_repository.rs:116-119] WorkflowInstanceRepository::find_all *)
Definition irepo_find_all (m : gmap string WorkflowInstanceRecord) : list WorkflowInstanceRecord := repo_values m.

(** [src/protocols/workflow/src/repository/instance_repository.rs:121-125] WorkflowInstanceRepository::delete *)
Definition irepo_delete (id : string) (m : gmap string WorkflowInstanceRecord)
    : gmap string WorkflowInstanceRecord := delete id m.
End repositories.

(** * The service *)

(** [src/protocols/workflow/src/events.rs:27-66] WorkflowStateChangedPayload, WorkflowStatusChangedPayload, WorkflowCompletedPayload *)
Inductive WorkflowEvent :=
  | WorkflowStateChangedPayload (instance_id : string) (previous_state : option string) (new_state event template_id : string)
      (connection_id : option string)
  | WorkflowStatusChangedPayload (instance_id : string) (previous_status new_status : InstanceStatus) (template_id : string)
      (connection_id : option string)
  | WorkflowCompletedPayload (instance_id state : string) (section : option string) (template_id : string)
      (connection_id : option string).

(** [src/protocols/workflow/src/services/workflow_service.rs:62-77] WorkflowService (the bus is what it was given, if there is one) *)
Record WorkflowService := mkWorkflowService {
  ws_templates : gmap string WorkflowTemplateRecord;
  ws_instances : gmap string WorkflowInstanceRecord;
  ws_registry : ActionRegistry;
  ws_event_bus : option (list WorkflowEvent)
}.

(** [src/protocols/workflow/src/services/workflow_service.rs:80-95] WorkflowService::new *)
Definition ws_new (registry : ActionRegistry) : WorkflowService := mkWorkflowService ∅ ∅ registry None.

(** [src/protocols/workflow/src/services/workflow_service.rs:106-114] WorkflowService::with_event_bus *)
Definition ws_with_event_bus (s : WorkflowService) : WorkflowService :=
  mkWorkflowService (ws_templates s) (ws_instances s) (ws_registry s) (Some []).

(** [src/protocols/workflow/src/services/workflow_service.rs:25-34] StartOptions *)
Record StartOptions := mkStartOptions {
  so_template_id : string;
  so_template_version : option string;
  so_instance_id : option string;
  so_connection_id : option string;
  so_participants : option (gmap string WfParticipant);
  so_context : option Json;
  so_role : WorkflowRole
}.

(** [src/protocols/workflow/src/services/workflow_service.rs:37-43] AdvanceOptions *)
Record AdvanceOptions := mkAdvanceOptions {
  ao_instance_id : string;
  ao_event : string;
  ao_idempotency_key : option string;
  ao_input : option Json
}.

(** [src/protocols/workflow/src/services/workflow_service.rs:46-53] StatusOptions *)
Record StatusOptions := mkStatusOptions {
  sto_instance_id : string;
  sto_include_actions : bool;
  sto_include_ui : bool;
  sto_ui_profile : option string;
  sto_viewer : option string
}.

(** [src/protocols/workflow/src/messages/status.rs:24-42] StatusMessage *)
Record StatusMessage := mkStatusMessage {
  sm_instance_id : string;
  sm_state : string;
  sm_section : option string;
  sm_allowed_events : list string;
  sm_action_menu : list Json;
  sm_artifacts : Json;
  sm_ui : option Json;
  sm_ui_profile : option string;
  sm_assets : option Json
}.

(** [src/protocols/workflow/src/services/workflow_service.rs:22-22] IDEMPOTENCY_HISTORY_LIMIT *)
Definition IDEMPOTENCY_HISTORY_LIMIT : nat := 100.

Abbreviation wf := (eff WorkflowError WorkflowService).

Definition ws_set_templates (m : gmap string WorkflowTemplateRecord) (s : WorkflowService) : WorkflowService :=
  mkWorkflowService m (ws_instances s) (ws_registry s) (ws_event_bus s).
Definition ws_set_instances (m : gmap string WorkflowInstanceRecord) (s : WorkflowService) : WorkflowService :=
  mkWorkflowService (ws_templates s) m (ws_registry s) (ws_event_bus s).

Section service.
Context `{HashOrder} `{Jmespath} `{WorkflowCrates} `{UuidText} `{Rfc3339}.

(** ** Templates *)

(** [src/protocols/workflow/src/services/workflow_service.rs:671-715] WorkflowService::validate_template *)
Definition validate_template (template : WorkflowTemplate) : outcome WorkflowError unit :=
  let start_count := length (filter (λ s, sd_type s = StateStart) (wt_states template)) in
  if decide (start_count = 0) then Err (ValidationFailed "Template must have at least one start state")
  else if decide (1 < start_count)%nat then Err (ValidationFailed "Template must have exactly one start state")
  else
    let state_names := sd_name <$> wt_states template in
    foldl (λ r transition,
             let? _ := r in
             if decide (td_from transition ∈ state_names) then
               if decide (td_to transition ∈ state_names) then
                 match td_action transition with
                 | Some action_key =>
                     match wt_find_action template action_key with
                     | Some _ => Ok tt
                     | None =>
                         Err (ValidationFailed ("Transition action references unknown action key: '" +:+ action_key +:+ "'"))
                     end
                 | None => Ok tt
                 end
               else Err (ValidationFailed ("Transition 'to' references unknown state: '" +:+ td_to transition +:+ "'"))
             else Err (ValidationFailed ("Transition 'from' references unknown state: '" +:+ td_from transition +:+ "'")))
      (Ok tt) (wt_transitions template).

(** [self.template_repo.find_by_template_id_and_version(..).await?]. *)
Definition ws_find_template (template_id : string) (version : option string) : wf (option WorkflowTemplateRecord) :=
  eff_gets (λ s, trepo_find template_id version (ws_templates s)).

(** [self.template_repo.save(..).await?] and [update]. *)
Definition ws_save_template (r : WorkflowTemplateRecord) : wf unit :=
  eff_modify (λ s, ws_set_templates (trepo_save r (ws_templates s)) s).
Definition ws_update_template (r : WorkflowTemplateRecord) : wf unit := λ s w,
  match trepo_update r (ws_templates s) with
  | Ok m => (Ok tt, ws_set_templates m s, w)
  | Err e => (Err e, s, w)
  | Panic => (Panic, s, w)
  end.

(** [src/protocols/workflow/src/services/workflow_service.rs:130-154] WorkflowService::publish_template *)
Definition publish_template (template : WorkflowTemplate) : wf WorkflowTemplateRecord :=
  _ ← eff_lift (validate_template template);
  found ← ws_find_template (wt_template_id template) (Some (wt_version template));
  match found with
  | Some existing =>
      now ← eff_world utc_now;
      let existing :=
        mkTemplateRecord (wtr_id existing) (wtr_template_id existing) (wtr_version existing) (wt_title template)
          (compute_template_hash template) template (wtr_created_at existing) now in
      _ ← ws_update_template existing;
      mret existing
  | None =>
      record ← eff_world (wtr_new template);
      _ ← ws_save_template record;
      mret record
  end.

(** [src/protocols/workflow/src/services/workflow_service.rs:156-164] WorkflowService::get_template *)
Definition ws_get_template (template_id : string) (version : option string) : wf (option WorkflowTemplateRecord) :=
  ws_find_template template_id version.

(** [src/protocols/workflow/src/services/workflow_service.rs:166-168] WorkflowService::list_templates *)
Definition list_templates : wf (list WorkflowTemplateRecord) := eff_gets (λ s, trepo_find_all (ws_templates s)).

(** [src/protocols/workflow/src/services/workflow_service.rs:172-185] WorkflowService::delete_template *)
Definition delete_template (id : string) : wf nat :=
  all ← list_templates;
  let doomed := filter (λ rec, wtr_template_id rec = id ∨ wtr_id rec = id) all in
  _ ← eff_for doomed (λ rec, eff_modify (λ s, ws_set_templates (trepo_delete (wtr_id rec) (ws_templates s)) s));
  if decide (length doomed = 0) then eff_throw (TemplateNotFound id) else mret (length doomed).

(** ** Events *)

Definition ws_emit (e : WorkflowEvent) : wf unit :=
  eff_modify (λ s, mkWorkflowService (ws_templates s) (ws_instances s) (ws_registry s) ((λ l, l ++ [e]) <$> ws_event_bus s)).

(** [src/protocols/workflow/src/services/workflow_service.rs:751-784] WorkflowService::emit_state_changed *)
Definition emit_state_changed (record : WorkflowInstanceRecord) (previous_state : option string) (event : string) : wf unit :=
  let d := wir_data record in
  ws_emit (WorkflowStateChangedPayload (wi_instance_id d) previous_state (wi_state d) event (wi_template_id d)
             (wi_connection_id d)).

(** [src/protocols/workflow/src/services/workflow_service.rs:787-803] WorkflowService::emit_status_changed *)
Definition emit_status_changed (record : WorkflowInstanceRecord) (previous_status : InstanceStatus) : wf unit :=
  let d := wir_data record in
  ws_emit (WorkflowStatusChangedPayload (wi_instance_id d) previous_status (wi_status d) (wi_template_id d)
             (wi_connection_id d)).

(** [src/protocols/workflow/src/services/workflow_service.rs:806-818] WorkflowService::emit_completed *)
Definition emit_completed (record : WorkflowInstanceRecord) : wf unit :=
  let d := wir_data record in
  ws_emit (WorkflowCompletedPayload (wi_instance_id d) (wi_state d) (wi_section d) (wi_template_id d) (wi_connection_id d)).

(** ** Instances *)

Definition ws_find_instance (instance_id : string) : wf (option WorkflowInstanceRecord) :=
  eff_gets (λ s, irepo_find instance_id (ws_instances s)).
(** [find_by_instance_id(..).await?.ok_or_else(|| InstanceNotFound)]. *)
Definition ws_load (instance_id : string) : wf WorkflowInstanceRecord :=
  found ← ws_find_instance instance_id;
  match found with Some r => mret r | None => eff_throw (InstanceNotFound instance_id) end.
Definition ws_save_instance (r : WorkflowInstanceRecord) : wf unit :=
  eff_modify (λ s, ws_set_instances (irepo_save r (ws_instances s)) s).
Definition ws_update_instance (r : WorkflowInstanceRecord) : wf unit := λ s w,
  match irepo_update r (ws_instances s) with
  | Ok m => (Ok tt, ws_set_instances m s, w)
  | Err e => (Err e, s, w)
  | Panic => (Panic, s, w)
  end.

(** [src/protocols/workflow/src/services/workflow_service.rs:717-746] WorkflowService::check_instance_policy *)
Definition check_instance_policy (template : WorkflowTemplate) (connection_id : option string) : wf unit :=
  if decide (ip_mode (wt_instance_policy template) = SingletonPerConnection) then
    match connection_id with
    | Some conn_id =>
        existing ← eff_gets (λ s,
          irepo_find_by_template_and_connection (wt_template_id template) (Some conn_id) (ws_instances s));
        if decide (Exists (λ r, wi_status (wir_data r) = StActive ∨ wi_status (wir_data r) = StPaused) existing) then
          eff_throw (PolicyViolation ("Singleton policy: active instance already exists for template '" +:+
                       wt_template_id template +:+ "' on connection '" +:+ conn_id +:+ "'"))
        else mret tt
    | None => mret tt
    end
  else mret tt.

(** [src/protocols/workflow/src/services/workflow_service.rs:189-249] WorkflowService::start *)
Definition ws_start (opts : StartOptions) : wf WorkflowInstanceRecord :=
  existing ← match so_instance_id opts with
             | Some instance_id => ws_find_instance instance_id
             | None => mret None
             end;
  match existing with
  | Some existing => mret existing
  | None =>
      found ← ws_find_template (so_template_id opts) (so_template_version opts);
      match found with
      | None => eff_throw (TemplateNotFound (so_template_id opts))
      | Some template_record =>
          let template := wtr_template template_record in
          _ ← check_instance_policy template (so_connection_id opts);
          match wt_start_state template with
          | None => eff_throw (ValidationFailed "Template has no start state")
          | Some start_state =>
              instance_id ← match so_instance_id opts with
                            | Some instance_id => mret instance_id
                            | None => uuid_to_string <$> eff_world uuid_new_v4
                            end;
              let instance_data :=
                mkInstance instance_id (wt_template_id template) (wt_version template) (so_connection_id opts)
                  (default ∅ (so_participants opts)) (sd_name start_state) (sd_section start_state)
                  (default (JObject []) (so_context opts)) (JObject []) StActive [] None [] in
              record ← eff_world (wir_new instance_data (so_role opts));
              _ ← ws_save_instance record;
              _ ← emit_state_changed record None "start";
              mret record
          end
      end
  end.

(** [src/protocols/workflow/src/services/workflow_service.rs:348-375] WorkflowService::advance_inner (the action of a transition, if the template declares it) *)
Definition run_action (opts : AdvanceOptions) (lenient : bool) (template : WorkflowTemplate) (d : WorkflowInstanceData)
    (transition : TransitionDef) : wf ActionResult :=
  match td_action transition ≫= wt_find_action template with
  | None => mret action_result_default
  | Some action_def => λ s w,
      match reg_execute (ws_registry s) action_def (mkActionContext template d action_def (ao_input opts)) w with
      | (Err e, w) => if lenient then (Ok action_result_default, s, w) else (Err e, s, w)
      | (r, w) => (r, s, w)
      end
  end.

(** [src/protocols/workflow/src/services/workflow_service.rs:415-419] WorkflowService::advance_inner (is_final) *)
Definition state_is_final (template : WorkflowTemplate) (state : string) : bool :=
  match wt_find_state template state with Some sd => bool_decide (sd_type sd = StateFinal) | None => false end.

(** [src/protocols/workflow/src/services/workflow_service.rs:404-413] WorkflowService::advance_inner (track idempotency key) *)
Definition push_idempotency_key (key : option string) (keys : list string) : list string :=
  match key with
  | Some key => let keys := keys ++ [key] in drop (length keys - IDEMPOTENCY_HISTORY_LIMIT) keys
  | None => keys
  end.

(** [src/protocols/workflow/src/services/workflow_service.rs:377-424] WorkflowService::advance_inner (the new instance data) *)
Definition advance_data (opts : AdvanceOptions) (template : WorkflowTemplate) (transition : TransitionDef)
    (action_result : ActionResult) (ts : string) (d : WorkflowInstanceData) : WorkflowInstanceData :=
  let target_state := td_to transition in
  mkInstance (wi_instance_id d) (wi_template_id d) (wi_template_version d) (wi_connection_id d) (wi_participants d)
    target_state
    (match wt_find_state template target_state with Some sd => sd_section sd | None => wi_section d end)
    (match ar_context_merge action_result with Some c => merge_json (wi_context d) c | None => wi_context d end)
    (match ar_artifacts action_result with Some a => merge_json (wi_artifacts d) a | None => wi_artifacts d end)
    (if state_is_final template target_state then StCompleted else wi_status d)
    (wi_history d ++
       [mkHistoryItem ts (ao_event opts) (wi_state d) target_state (td_action transition) (ar_message_id action_result)])
    (wi_multiplicity_key_value d)
    (push_idempotency_key (ao_idempotency_key opts) (wi_idempotency_keys d)).

(** [src/protocols/workflow/src/services/workflow_service.rs:327-337] WorkflowService::advance_inner (enabled_transition) *)
Definition enabled_transition (template : WorkflowTemplate) (d : WorkflowInstanceData) (event : string) : option TransitionDef :=
  find_first (λ t, guard_eval (td_guard t) (wi_context d) (wi_participants d) (wi_artifacts d) = true)
    (wt_transitions_from template (wi_state d) event).

(** What an advance has computed before it stores: the record as it was, when its key was seen
    before, or the new record, the state before and whether the new state is final. *)
Inductive Prepared :=
  | Duplicate (record : WorkflowInstanceRecord)
  | Advanced (record : WorkflowInstanceRecord) (prev_state : string) (is_final : bool).

(** [src/protocols/workflow/src/services/workflow_service.rs:309-314] WorkflowService::advance_inner (idempotency check) *)
Definition key_seen (key : option string) (d : WorkflowInstanceData) : bool :=
  match key with Some key => bool_decide (key ∈ wi_idempotency_keys d) | None => false end.

(** [src/protocols/workflow/src/services/workflow_service.rs:280-425] WorkflowService::advance_inner (up to the update) *)
Definition advance_prepare (opts : AdvanceOptions) (lenient : bool) : wf Prepared :=
  record ← ws_load (ao_instance_id opts);
  let d := wir_data record in
  match wi_status d with
  | StPaused | StCanceled | StCompleted => eff_throw (InvalidStatus (wi_status d) "advance")
  | _ =>
      if key_seen (ao_idempotency_key opts) d then mret (Duplicate record)
      else
        found ← ws_find_template (wi_template_id d) (Some (wi_template_version d));
        match found with
        | None => eff_throw (TemplateNotFound (wi_template_id d))
        | Some template_record =>
            let template := wtr_template template_record in
            match enabled_transition template d (ao_event opts) with
            | None => eff_throw (NoEnabledTransition (wi_state d) (ao_event opts))
            | Some transition =>
                action_result ← run_action opts lenient template d transition;
                ts ← eff_world utc_now;
                now ← eff_world utc_now;
                mret (Advanced
                        (wir_set_data (advance_data opts template transition action_result (to_rfc3339 ts) d) now record)
                        (wi_state d) (state_is_final template (td_to transition)))
            end
        end
  end.

(** [src/protocols/workflow/src/services/workflow_service.rs:426-445] WorkflowService::advance_inner (the update and the events) *)
Definition advance_commit (opts : AdvanceOptions) (p : Prepared) : wf WorkflowInstanceRecord :=
  match p with
  | Duplicate record => mret record
  | Advanced record prev_state is_final =>
      _ ← ws_update_instance record;
      _ ← emit_state_changed record (Some prev_state) (ao_event opts);
      _ ← (if is_final : bool then emit_completed record else mret tt);
      mret record
  end.

(** [src/protocols/workflow/src/services/workflow_service.rs:267-279] WorkflowService::advance_inner *)
Definition advance_inner (opts : AdvanceOptions) (lenient : bool) : wf WorkflowInstanceRecord :=
  p ← advance_prepare opts lenient; advance_commit opts p.

(** [src/protocols/workflow/src/services/workflow_service.rs:253-255] WorkflowService::advance *)
Definition ws_advance (opts : AdvanceOptions) : wf WorkflowInstanceRecord := advance_inner opts false.

(** [src/protocols/workflow/src/services/workflow_service.rs:263-265] WorkflowService::advance_mirror *)
Definition advance_mirror (opts : AdvanceOptions) : wf WorkflowInstanceRecord := advance_inner opts true.

(** [src/protocols/workflow/src/services/workflow_service.rs:465-483] WorkflowService::status (allowed_events) *)
Definition allowed_events (template : WorkflowTemplate) (d : WorkflowInstanceData) : list string :=
  foldl (λ events transition,
           if decide (td_from transition = wi_state d) then
             if guard_eval (td_guard transition) (wi_context d) (wi_participants d) (wi_artifacts d) &&
                bool_decide (td_on transition ∉ events)
             then events ++ [td_on transition] else events
           else events) [] (wt_transitions template).

(** [src/protocols/workflow/src/services/workflow_service.rs:448-497] WorkflowService::status *)
Definition ws_status (opts : StatusOptions) : wf (StatusMessage * WorkflowInstanceRecord) :=
  record ← ws_load (sto_instance_id opts);
  let d := wir_data record in
  template_record ← ws_find_template (wi_template_id d) (Some (wi_template_version d));
  let events := match template_record with Some r => allowed_events (wtr_template r) d | None => [] end in
  mret (mkStatusMessage (wi_instance_id d) (wi_state d) (wi_section d) events [] (wi_artifacts d) None
          (sto_ui_profile opts) None, record).

(** Loads an instance, changes its data, stores it. *)
Definition ws_change (instance_id : string) (f : WorkflowInstanceData → WorkflowInstanceData) : wf (InstanceStatus * WorkflowInstanceRecord) :=
  record ← ws_load instance_id;
  now ← eff_world utc_now;
  let record' := wir_set_data (f (wir_data record)) now record in
  _ ← ws_update_instance record';
  mret (wi_status (wir_data record), record').

(** [src/protocols/workflow/src/services/workflow_service.rs:499-525] WorkflowService::pause *)
Definition ws_pause (instance_id : string) (reason : option string) : wf WorkflowInstanceRecord :=
  '(prev_status, record) ← ws_change instance_id (wi_set_status StPaused);
  _ ← emit_status_changed record prev_status;
  mret record.

(** [src/protocols/workflow/src/services/workflow_service.rs:527-553] WorkflowService::resume *)
Definition ws_resume (instance_id : string) (reason : option string) : wf WorkflowInstanceRecord :=
  '(prev_status, record) ← ws_change instance_id (wi_set_status StActive);
  _ ← emit_status_changed record prev_status;
  mret record.

(** [src/protocols/workflow/src/services/workflow_service.rs:555-581] WorkflowService::cancel *)
Definition ws_cancel (instance_id : string) (reason : option string) : wf WorkflowInstanceRecord :=
  '(prev_status, record) ← ws_change instance_id (wi_set_status StCanceled);
  _ ← emit_status_changed record prev_status;
  mret record.

(** [src/protocols/workflow/src/services/workflow_service.rs:583-622] WorkflowService::complete *)
Definition ws_complete (instance_id : string) (reason : option string) : wf WorkflowInstanceRecord :=
  record ← ws_load instance_id;
  let d := wir_data record in
  template_record ← ws_find_template (wi_template_id d) (Some (wi_template_version d));
  match template_record with
  | Some template_record =>
      if state_is_final (wtr_template template_record) (wi_state d) then mret record
      else eff_throw (InvalidStatus (wi_status d) ("complete (state '" +:+ wi_state d +:+ "' is not a final state)"))
  | None => mret record
  end.

(** [src/protocols/workflow/src/services/workflow_service.rs:624-626] WorkflowService::get_instance *)
Definition get_instance (instance_id : string) : wf (option WorkflowInstanceRecord) := ws_find_instance instance_id.

(** [src/protocols/workflow/src/services/workflow_service.rs:628-630] WorkflowService::list_instances *)
Definition list_instances : wf (list WorkflowInstanceRecord) := eff_gets (λ s, irepo_find_all (ws_instances s)).

(** [src/protocols/workflow/src/services/workflow_service.rs:635-649] WorkflowService::update_context *)
Definition update_context (instance_id : string) (patch : Json) : wf WorkflowInstanceRecord :=
  snd <$> ws_change instance_id (λ d, wi_set_context (merge_json (wi_context d) patch) d).

(** [src/protocols/workflow/src/services/workflow_service.rs:653-667] WorkflowService::append_artifacts *)
Definition append_artifacts (instance_id : string) (artifacts : Json) : wf WorkflowInstanceRecord :=
  snd <$> ws_change instance_id (λ d, wi_set_artifacts (merge_json (wi_artifacts d) artifacts) d).
End service.
