(* ===== verification/WorkflowSpec.v ===== *)
(** What the workflow service promises: an abstract machine whose state is a map of templates
    by identifier and version and a map of instances, the proof that every call of
    [WorkflowService] is at most one step of it, and the properties that follow. *)
From stdpp Require Import relations.
From S2P Require Import Prelude AjnaTypes Workflow WorkflowService.

(** * Lookup by an attribute

    The repositories are maps by record id that are searched by another attribute. *)
Section keyed.
Context `{HashOrder} {V A : Type} `{EqDecision A} (key : V → A).
Implicit Types m : gmap string V.

Definition keyed_find (a : A) (m : gmap string V) : option V := find_first (λ v, key v = a) (repo_values m).
Definition keyed_unique (m : gmap string V) : Prop :=
  ∀ i j v v', m !! i = Some v → m !! j = Some v' → key v = key v' → i = j.

Lemma elem_of_repo_values {W} (m : gmap string W) (v : W) : v ∈ repo_values m ↔ ∃ i, m !! i = Some v.
Proof.
  unfold repo_values. rewrite list_elem_of_fmap. split.
  - intros ([i v'] & -> & Hin%elem_of_map_iter). by exists i.
  - intros [i Hi]. exists (i, v). by rewrite elem_of_map_iter.
Qed.

Lemma keyed_find_None m a : keyed_find a m = None ↔ ∀ i v, m !! i = Some v → key v ≠ a.
Proof. unfold keyed_find. rewrite find_first_None. setoid_rewrite elem_of_repo_values. naive_solver. Qed.

Lemma keyed_find_elem m a v : keyed_find a m = Some v → ∃ i, m !! i = Some v ∧ key v = a.
Proof. intros [Hin Hk]%find_first_Some. apply elem_of_repo_values in Hin as [i Hi]. eauto. Qed.

Lemma keyed_find_Some m a v : keyed_unique m → keyed_find a m = Some v ↔ ∃ i, m !! i = Some v ∧ key v = a.
Proof.
  intros Hu. split; [apply keyed_find_elem|]. intros (i & Hi & Hk).
  destruct (keyed_find a m) as [v'|] eqn:E.
  - apply keyed_find_elem in E as (j & Hj & Hk'). assert (i = j) as -> by (eapply Hu; eauto; congruence). congruence.
  - by destruct (proj1 (keyed_find_None m a) E i v Hi).
Qed.

(** A write that keeps the attribute of the record it replaces, or is the first with it. *)
Lemma keyed_insert m i v :
  keyed_unique m → (∀ j v', m !! j = Some v' → key v' = key v → j = i) → (∀ v', m !! i = Some v' → key v' = key v) →
  keyed_unique (<[i := v]> m) ∧
  ∀ a, keyed_find a (<[i := v]> m) = if decide (key v = a) then Some v else keyed_find a m.
Proof.
  intros Hu Hother Hold.
  assert (Hu' : keyed_unique (<[i := v]> m)).
  { intros j k x y. rewrite !lookup_insert_Some. naive_solver. }
  split; [done|]. intros a. case_decide as Ha.
  - apply keyed_find_Some; [done|]. exists i. by rewrite lookup_insert_eq.
  - destruct (keyed_find a m) as [x|] eqn:E.
    + apply keyed_find_Some; [done|]. apply keyed_find_elem in E as (j & Hj & Hk).
      exists j. rewrite lookup_insert_ne; [done|]. intros ->. apply Ha. rewrite <-Hk. symmetry. by apply Hold.
    + apply keyed_find_None. intros j x. rewrite lookup_insert_Some.
      intros [[<- <-]|[_ Hj]]; [done|]. by apply (proj1 (keyed_find_None m a) E j).
Qed.

Lemma keyed_sub m m' :
  keyed_unique m → (∀ i v, m' !! i = Some v → m !! i = Some v) → keyed_unique m'.
Proof. intros Hu Hs i j v v' Hi%Hs Hj%Hs. by apply Hu. Qed.
End keyed.

Lemma find_first_filter {A} (P Q : A → Prop) `{∀ x, Decision (P x), ∀ x, Decision (Q x)} l :
  find_first P (filter Q l) = find_first (λ x, Q x ∧ P x) l.
Proof.
  unfold find_first. induction l as [|x l IH]; [done|]. rewrite filter_cons. cbn -[decide filter].
  destruct (decide (Q x)) as [HQ|HQ].
  - cbn. destruct (decide (P x)) as [HP|HP].
    + by rewrite decide_True by done.
    + rewrite decide_False by naive_solver. destruct (list_find P _) as [[? ?]|], (list_find _ l) as [[? ?]|]; exact IH.
  - rewrite decide_False by naive_solver. rewrite IH. by destruct (list_find _ l) as [[? ?]|].
Qed.

Lemma find_first_ext {A} (P Q : A → Prop) `{∀ x, Decision (P x), ∀ x, Decision (Q x)} l :
  (∀ x, P x ↔ Q x) → find_first P l = find_first Q l.
Proof.
  intros HPQ. unfold find_first. induction l as [|x l IH]; [done|]. cbn.
  destruct (decide (P x)), (decide (Q x)); try naive_solver.
  destruct (list_find P l) as [[? ?]|], (list_find Q l) as [[? ?]|]; exact IH.
Qed.

Definition wtr_key (r : WorkflowTemplateRecord) : string * string := (wtr_template_id r, wtr_version r).
Definition wir_key (r : WorkflowInstanceRecord) : string := wi_instance_id (wir_data r).

Lemma trepo_find_keyed `{HashOrder} tid ver m : trepo_find tid (Some ver) m = keyed_find wtr_key (tid, ver) m.
Proof.
  unfold trepo_find, keyed_find. rewrite find_first_filter. apply find_first_ext. unfold wtr_key. intros r. split; [|naive_solver].
  by intros [-> ->].
Qed.

Lemma insert_by_le_perm {A} (le : A → A → bool) x l : insert_by_le le x l ≡ₚ x :: l.
Proof. induction l as [|y l IH]; cbn; [done|]. destruct (le x y); [done|]. rewrite IH. apply Permutation_swap. Qed.
Lemma sort_by_le_perm {A} (le : A → A → bool) l : sort_by_le le l ≡ₚ l.
Proof. induction l as [|x l IH]; cbn; [done|]. by rewrite insert_by_le_perm, IH. Qed.

Lemma trepo_find_elem `{HashOrder} tid ver m r :
  trepo_find tid ver m = Some r → ∃ i, m !! i = Some r ∧ wtr_template_id r = tid.
Proof.
  unfold trepo_find. destruct ver as [v|].
  - intros [Hin _]%find_first_Some. apply list_elem_of_filter in Hin as [Ht Hin%elem_of_repo_values]. naive_solver.
  - intros Hh%head_Some_elem_of. rewrite sort_by_le_perm in Hh.
    apply list_elem_of_filter in Hh as [Ht Hin%elem_of_repo_values]. naive_solver.
Qed.

Lemma insert_by_le_sorted {A} (le : A → A → bool) x l :
  (∀ a b, le a b = true ∨ le b a = true) → StronglySorted (λ a b, le a b = true) l →
  (∀ a b c, le a b = true → le b c = true → le a c = true) → StronglySorted (λ a b, le a b = true) (insert_by_le le x l).
Proof.
  intros Htotal Hs Htrans. induction Hs as [|y l Hs IH Hy]; cbn; [repeat constructor|].
  destruct (le x y) eqn:Hxy.
  - constructor; [by constructor|]. constructor; [done|]. eapply Forall_impl; [exact Hy|]. intros z Hz. by eapply Htrans.
  - constructor; [done|]. rewrite insert_by_le_perm. constructor; [|done]. destruct (Htotal x y); congruence.
Qed.
(** Without a version the latest is found. *)
Lemma trepo_find_latest `{HashOrder} tid m r :
  trepo_find tid None m = Some r →
  ∀ i r', m !! i = Some r' → wtr_template_id r' = tid → str_le (wtr_version r') (wtr_version r) = true.
Proof.
  unfold trepo_find. set (le := λ a b, str_le (wtr_version b) (wtr_version a)). set (l := filter _ _). intros Hh i r' Hi Hr'.
  assert (Hin : r' ∈ sort_by_le le l).
  { rewrite sort_by_le_perm. apply list_elem_of_filter. split; [done|]. apply elem_of_repo_values. by exists i. }
  assert (Hs : StronglySorted (λ a b, le a b = true) (sort_by_le le l)).
  { induction l as [|x l' IH] in |- *; [constructor|]. apply insert_by_le_sorted; [|exact IH|].
    - intros a b. apply str_le_or.
    - intros a b c Hab Hbc. by eapply (transitivity (R:=str_ler)). }
  destruct (sort_by_le le l) as [|x l']; [done|]. injection Hh as ->. apply StronglySorted_cons in Hs as [Hs _].
  rewrite Forall_forall in Hs. apply elem_of_cons in Hin as [->|Hin]; [by destruct (str_le_or (wtr_version r) (wtr_version r))|by apply Hs].
Qed.
Lemma trepo_find_none `{HashOrder} tid ver m :
  trepo_find tid ver m = None → ∀ i r, m !! i = Some r → wtr_template_id r = tid → ∃ v, ver = Some v ∧ wtr_version r ≠ v.
Proof.
  unfold trepo_find. intros Hn i r Hi Hr.
  assert (Hin : r ∈ filter (λ r, wtr_template_id r = tid) (repo_values m)).
  { apply list_elem_of_filter. split; [done|]. apply elem_of_repo_values. by exists i. }
  destruct ver as [v|]; [exists v; split; [done|]; by apply (proj1 (find_first_None _ _) Hn)|].
  destruct (sort_by_le _ _) as [|x l] eqn:Hs; [|done]. rewrite <-(sort_by_le_perm (λ a b, str_le (wtr_version b) (wtr_version a))), Hs in Hin.
  by apply elem_of_nil in Hin.
Qed.

(** * Well-formed templates *)

Record template_ok (t : WorkflowTemplate) : Prop := {
  tok_start : ∃ s, wt_start_state t = Some s ∧ s ∈ wt_states t;
  tok_declared : ∀ tr, tr ∈ wt_transitions t → td_from tr ∈ sd_name <$> wt_states t ∧ td_to tr ∈ sd_name <$> wt_states t;
  tok_actions : ∀ tr k, tr ∈ wt_transitions t → td_action tr = Some k → is_Some (wt_find_action t k)
}.

Lemma foldl_outcome_not_ok {A E} (f : outcome E unit → A → outcome E unit) (l : list A) r :
  (∀ r x, is_ok r = false → is_ok (f r x) = false) → is_ok r = false → is_ok (foldl f r l) = false.
Proof. intros Hf. revert r. induction l as [|x l IH]; intros r Hr; [done|]. apply IH. by apply Hf. Qed.

Lemma foldl_outcome_ok {A E} (g : A → outcome E unit) (l : list A) :
  foldl (λ r x, let? _ := r in g x) (Ok tt) l = Ok tt → ∀ x, x ∈ l → g x = Ok tt.
Proof.
  induction l as [|y l IH]; intros Hl x Hx; [by apply elem_of_nil in Hx|]. cbn in Hl.
  destruct (g y) as [[]|e|] eqn:Hy.
  - apply elem_of_cons in Hx as [->|Hx]; [done|]. by apply IH.
  - exfalso. pose proof (foldl_outcome_not_ok (λ r x, let? _ := r in g x) l (Err e)) as Hn.
    rewrite Hl in Hn. cbn in Hn. enough (true = false) by done. apply Hn; [by intros [[]|?|]|done].
  - exfalso. pose proof (foldl_outcome_not_ok (λ r x, let? _ := r in g x) l Panic) as Hn.
    rewrite Hl in Hn. cbn in Hn. enough (true = false) by done. apply Hn; [by intros [[]|?|]|done].
Qed.

Lemma validate_template_ok t : validate_template t = Ok tt → template_ok t.
Proof.
  unfold validate_template. case_decide as Hn0; [done|]. case_decide as Hn1; [done|]. intros Hf.
  pose proof (foldl_outcome_ok _ _ Hf) as Htr. clear Hf. split.
  - destruct (wt_start_state t) as [s|] eqn:E; [by exists s; split; [|by apply find_first_Some in E as [? _]]|].
    exfalso. apply Hn0. unfold wt_start_state in E. rewrite find_first_None in E.
    destruct (filter _ _) as [|s l] eqn:Ef; [done|]. assert (Hs : s ∈ filter (λ s, sd_type s = StateStart) (wt_states t))
      by (rewrite Ef; left). apply list_elem_of_filter in Hs as [Hs Hin]. by destruct (E s Hin).
  - intros tr Hin. specialize (Htr tr Hin). cbn beta in Htr. repeat case_decide; done.
  - intros tr k Hin Hk. specialize (Htr tr Hin). cbn beta in Htr. rewrite Hk in Htr.
    repeat case_decide; try done. destruct (wt_find_action t k); [by eexists|done].
Qed.

#[export] Hint Resolve validate_template_ok : idiom.
#[local] Arguments trepo_find : simpl never.
#[local] Arguments irepo_find : simpl never.
#[local] Arguments validate_template : simpl never.
#[local] Arguments enabled_transition : simpl never.

(** * Outcomes of the calls

    Each lemma lists what a call can do to the service. *)
Section outcomes.
Context `{HashOrder} `{Jmespath} `{WorkflowCrates} `{UuidText} `{Rfc3339}.
Implicit Types (s : WorkflowService) (w : World).

Lemma publish_cases t s w res s' w' :
  publish_template t s w = (res, s', w') →
  (s' = s ∧ is_ok res = false ∧
     (validate_template t ≠ Ok tt ∨ ∃ i old, keyed_find wtr_key i (ws_templates s) = Some old ∧ ws_templates s !! wtr_id old = None)) ∨
  ∃ r, res = Ok r ∧ s' = ws_set_templates (<[wtr_id r := r]> (ws_templates s)) s ∧
    wtr_template r = t ∧ wtr_key r = (wt_template_id t, wt_version t) ∧ validate_template t = Ok tt ∧
    match trepo_find (wt_template_id t) (Some (wt_version t)) (ws_templates s) with
    | Some old => wtr_id r = wtr_id old ∧ is_Some (ws_templates s !! wtr_id old)
    | None => wtr_id r = uuid_to_string (w_uuid w (w_un w))
    end.
Proof.
  unfold publish_template, ws_find_template. eff_simpl.
  destruct (validate_template t) as [[]|e|] eqn:Hv; [|by intros [= <- <- <-]; left; eauto..].
  destruct (trepo_find _ _ _) as [old|] eqn:Hf.
  - cbn. unfold ws_update_template, trepo_update. cbn.
    destruct (ws_templates s !! wtr_id old) as [o|] eqn:Hl; intros [= <- <- <-]; [right|rewrite trepo_find_keyed in Hf; left; by eauto 10].
    rewrite trepo_find_keyed in Hf. apply keyed_find_elem in Hf as (i & _ & Hk).
    eexists; split_and!; try reflexivity; done.
  - cbn. unfold ws_save_template. eff_simpl. intros [= <- <- <-]. right. eexists; split_and!; reflexivity || done.
Qed.

Lemma eff_for_delete (l : list WorkflowTemplateRecord) s w :
  eff_for l (λ rec, eff_modify (E:=WorkflowError) (λ s, ws_set_templates (trepo_delete (wtr_id rec) (ws_templates s)) s)) s w =
    (Ok tt, ws_set_templates (foldl (λ m rec, delete (wtr_id rec) m) (ws_templates s) l) s, w).
Proof.
  revert s. induction l as [|r l IH]; intros s; [by destruct s|]. cbn [eff_for]. unfold mbind, eff_bind, eff_modify at 1.
  by rewrite IH.
Qed.

Lemma foldl_delete_template (l : list WorkflowTemplateRecord) (m : gmap string WorkflowTemplateRecord) i r :
  foldl (λ m rec, delete (wtr_id rec) m) m l !! i = Some r ↔ m !! i = Some r ∧ ∀ rec, rec ∈ l → wtr_id rec ≠ i.
Proof.
  revert m. induction l as [|x l IH]; intros m; cbn; [set_solver|]. rewrite IH, lookup_delete_Some. set_solver.
Qed.
Lemma delete_cases id s w res s' w' :
  delete_template id s w = (res, s', w') →
  ∃ m, s' = ws_set_templates m s ∧
    (∀ i r, m !! i = Some r ↔ ws_templates s !! i = Some r ∧
       ∀ j r', ws_templates s !! j = Some r' → wtr_template_id r' = id ∨ wtr_id r' = id → wtr_id r' ≠ i) ∧
    (is_ok res = true ↔ ∃ j r', ws_templates s !! j = Some r' ∧ (wtr_template_id r' = id ∨ wtr_id r' = id)).
Proof.
  unfold delete_template, list_templates. unfold mbind, eff_bind. unfold eff_gets at 1. cbv beta iota.
  rewrite eff_for_delete. set (doomed := filter _ _).
  assert (Hd : ∀ r, r ∈ doomed ↔ (wtr_template_id r = id ∨ wtr_id r = id) ∧ ∃ j, ws_templates s !! j = Some r).
  { intros r. unfold doomed, trepo_find_all. by rewrite list_elem_of_filter, elem_of_repo_values. }
  intros Heq. exists (foldl (λ m rec, delete (wtr_id rec) m) (ws_templates s) doomed). split_and!.
  - by case_decide; injection Heq as <- <- <-.
  - intros i r. rewrite foldl_delete_template. setoid_rewrite Hd. naive_solver.
  - case_decide as Hl; injection Heq as <- <- <-; cbn.
    + apply nil_length_inv in Hl. split; [done|]. intros (j & r' & Hj & Hr'). assert (r' ∈ doomed) as Hin by (apply Hd; eauto).
      by rewrite Hl in Hin; apply elem_of_nil in Hin.
    + split; [|done]. intros _. destruct doomed as [|r' l]; [done|]. destruct (proj1 (Hd r')) as [? [j ?]]; [by left|]. eauto.
Qed.

Lemma change_cases iid f s w res s' w' :
  ws_change iid f s w = (res, s', w') →
  (s' = s ∧ is_ok res = false ∧ ∀ r, irepo_find iid (ws_instances s) = Some r → ws_instances s !! wir_id r = None) ∨
  ∃ r now, irepo_find iid (ws_instances s) = Some r ∧
    res = Ok (wi_status (wir_data r), wir_set_data (f (wir_data r)) now r) ∧
    s' = ws_set_instances (<[wir_id r := wir_set_data (f (wir_data r)) now r]> (ws_instances s)) s ∧
    is_Some (ws_instances s !! wir_id r).
Proof.
  unfold ws_change, ws_load, ws_find_instance. eff_simpl. destruct (irepo_find iid (ws_instances s)) as [r|] eqn:Hf; cbn.
  - unfold ws_update_instance, irepo_update. cbn. destruct (ws_instances s !! wir_id r) eqn:Hl; intros [= <- <- <-].
    + right. eexists r, _. split_and!; reflexivity || done.
    + left. split_and!; [done..|]. by intros ? [= <-].
  - intros [= <- <- <-]. by left.
Qed.

Lemma run_action_state opts lenient t d tr s w res s' w' :
  run_action opts lenient t d tr s w = (res, s', w') → s' = s.
Proof.
  unfold run_action. destruct (_ ≫= _); [|by intros [= <- <- <-]].
  destruct (reg_execute _ _ _ _) as [[ar|e|] w1]; [|destruct lenient|]; by intros [= <- <- <-].
Qed.

Lemma prepare_cases opts lenient s w res s' w' :
  advance_prepare opts lenient s w = (res, s', w') →
  s' = s ∧
  match res with
  | Ok p => ∃ r, irepo_find (ao_instance_id opts) (ws_instances s) = Some r ∧
      (wi_status (wir_data r) = StActive ∨ wi_status (wir_data r) = StError) ∧
      match p with
      | Duplicate r' => r' = r ∧ key_seen (ao_idempotency_key opts) (wir_data r) = true
      | Advanced r' prev fin => key_seen (ao_idempotency_key opts) (wir_data r) = false ∧ ∃ t tr ar ts now,
          trepo_find (wi_template_id (wir_data r)) (Some (wi_template_version (wir_data r))) (ws_templates s) = Some t ∧
          enabled_transition (wtr_template t) (wir_data r) (ao_event opts) = Some tr ∧
          r' = wir_set_data (advance_data opts (wtr_template t) tr ar ts (wir_data r)) now r ∧
          prev = wi_state (wir_data r) ∧ fin = state_is_final (wtr_template t) (td_to tr)
      end
  | _ => True
  end.
Proof.
  unfold advance_prepare, ws_load, ws_find_instance, ws_find_template. eff_simpl.
  destruct (irepo_find _ (ws_instances s)) as [r|] eqn:Hr; [|by intros [= <- <- <-]]. cbn.
  destruct (wi_status (wir_data r)) eqn:Hst; try (by intros [= <- <- <-]);
    (destruct (key_seen _ _) eqn:Hk; [intros [= <- <- <-]; eauto 10|];
     destruct (trepo_find _ _ _) as [t|] eqn:Ht; [|by intros [= <- <- <-]]; cbn;
     destruct (enabled_transition _ _ _) as [tr|] eqn:Htr; [|by intros [= <- <- <-]];
     destruct (run_action _ _ _ _ _ _ _) as [[[ar|e|] s1] w1] eqn:Hra; apply run_action_state in Hra as ->; cbn;
     intros [= <- <- <-]; [|done..];
     split; [done|]; eexists; split_and!; [done|auto|done|]; eexists t, tr, _, _, _; split_and!; done || reflexivity).
Qed.

Definition with_bus s bus : WorkflowService := mkWorkflowService (ws_templates s) (ws_instances s) (ws_registry s) bus.

Lemma advance_cases opts lenient s w res s' w' :
  advance_inner opts lenient s w = (res, s', w') →
  (s' = s ∧ ∀ r', res = Ok r' → irepo_find (ao_instance_id opts) (ws_instances s) = Some r' ∧
     (wi_status (wir_data r') = StActive ∨ wi_status (wir_data r') = StError) ∧
     key_seen (ao_idempotency_key opts) (wir_data r') = true) ∨
  ∃ r r' t tr ar ts now bus, irepo_find (ao_instance_id opts) (ws_instances s) = Some r ∧ res = Ok r' ∧
    (wi_status (wir_data r) = StActive ∨ wi_status (wir_data r) = StError) ∧
    key_seen (ao_idempotency_key opts) (wir_data r) = false ∧
    trepo_find (wi_template_id (wir_data r)) (Some (wi_template_version (wir_data r))) (ws_templates s) = Some t ∧
    enabled_transition (wtr_template t) (wir_data r) (ao_event opts) = Some tr ∧
    r' = wir_set_data (advance_data opts (wtr_template t) tr ar ts (wir_data r)) now r ∧
    s' = with_bus (ws_set_instances (<[wir_id r := r']> (ws_instances s)) s) bus ∧
    is_Some (ws_instances s !! wir_id r).
Proof.
  unfold advance_inner, mbind at 1, eff_bind at 1.
  destruct (advance_prepare opts lenient s w) as [[[p|e|] s1] w1] eqn:Hp; apply prepare_cases in Hp as (-> & Hp);
    [|by intros [= <- <- <-]; left..].
  destruct Hp as (r & Hr & Hst & Hp). destruct p as [r'|r' prev fin]; cbn.
  - destruct Hp as [-> Hk]. intros [= <- <- <-]. left. split; [done|]. by intros ? [= <-].
  - destruct Hp as (Hk & t & tr & ar & ts & now & Ht & Htr & -> & -> & ->).
    unfold mbind, eff_bind. unfold ws_update_instance, irepo_update. cbn.
    destruct (ws_instances s !! wir_id r) eqn:Hl; [|by intros [= <- <- <-]; left].
    intros Heq. right. destruct (state_is_final _ _); unfold ws_emit in Heq; revert Heq; eff_simpl;
      intros [= <- <- <-]; eexists r, _, t, tr, ar, ts, now, _; split_and!; done || reflexivity.
Qed.

(** What [check_instance_policy] lets pass. *)
Definition policy_allows (t : WorkflowTemplate) (conn : option string) (m : gmap string WorkflowInstanceRecord) : Prop :=
  ip_mode (wt_instance_policy t) = SingletonPerConnection → ∀ c i r, conn = Some c → m !! i = Some r →
    wi_template_id (wir_data r) = wt_template_id t → wi_connection_id (wir_data r) = Some c →
    wi_status (wir_data r) ≠ StActive ∧ wi_status (wir_data r) ≠ StPaused.

Lemma policy_cases t conn s w res s' w' :
  check_instance_policy t conn s w = (res, s', w') →
  s' = s ∧ w' = w ∧ (res = Ok tt ↔ policy_allows t conn (ws_instances s)).
Proof.
  unfold check_instance_policy, policy_allows. case_decide as Hm; [|intros [= <- <- <-]; naive_solver].
  destruct conn as [c|]; [|intros [= <- <- <-]; naive_solver]. eff_simpl.
  case_decide as He; intros [= <- <- <-]; split_and!; try done.
  { split; [done|]. intros Hall. apply Exists_exists in He as (r & [[Ht Hc] (i & Hi)%elem_of_repo_values]%list_elem_of_filter & Hst).
    destruct (Hall Hm c i r) as [? ?]; try done. by destruct Hst. }
  split; [|done]. intros _ _ c' i r [= <-] Hi Ht Hc.
  apply not_Exists_Forall in He; [|intros r'; apply _]. rewrite Forall_forall in He.
  specialize (He r). cbn in He. apply Decidable.not_or, He. apply list_elem_of_filter. split; [done|].
  apply elem_of_repo_values. by exists i.
Qed.

Definition start_instance (opts : StartOptions) (t : WorkflowTemplate) (sd : StateDef) (iid : string) : WorkflowInstanceData :=
  mkInstance iid (wt_template_id t) (wt_version t) (so_connection_id opts) (default ∅ (so_participants opts))
    (sd_name sd) (sd_section sd) (default (JObject []) (so_context opts)) (JObject []) StActive [] None [].

Lemma start_cases opts s w res s' w' :
  ws_start opts s w = (res, s', w') →
  (s' = s ∧
     match res with
     | Ok r => ∃ i, so_instance_id opts = Some i ∧ irepo_find i (ws_instances s) = Some r
     | _ => (∀ i, so_instance_id opts = Some i → irepo_find i (ws_instances s) = None) ∧
         ∀ t, trepo_find (so_template_id opts) (so_template_version opts) (ws_templates s) = Some t →
           ¬ policy_allows (wtr_template t) (so_connection_id opts) (ws_instances s) ∨ wt_start_state (wtr_template t) = None
     end) ∨
  ∃ t sd iid r bus, res = Ok r ∧
    trepo_find (so_template_id opts) (so_template_version opts) (ws_templates s) = Some t ∧
    policy_allows (wtr_template t) (so_connection_id opts) (ws_instances s) ∧
    wt_start_state (wtr_template t) = Some sd ∧
    (∃ k, (k ≤ 1)%nat ∧ wir_id r = uuid_to_string (w_uuid w (w_un w + k))) ∧
    match so_instance_id opts with
    | Some i => iid = i ∧ irepo_find i (ws_instances s) = None
    | None => iid = uuid_to_string (w_uuid w (w_un w))
    end ∧
    wir_data r = start_instance opts (wtr_template t) sd iid ∧
    s' = with_bus (ws_set_instances (<[wir_id r := r]> (ws_instances s)) s) bus.
Proof.
  unfold ws_start, ws_find_instance, ws_find_template, ws_save_instance. eff_simpl.
  destruct (so_instance_id opts) as [i|] eqn:Hi; cbn.
  1: destruct (irepo_find i (ws_instances s)) as [r|] eqn:Hr; [by intros [= <- <- <-]; left; eauto|].
  all: destruct (trepo_find _ _ _) as [t|] eqn:Ht; [|by intros [= <- <- <-]; left; split_and!; [done|naive_solver|]].
  all: destruct (check_instance_policy _ _ _ _) as [[[[]|e|] s1] w1] eqn:Hp; apply policy_cases in Hp as (-> & -> & Hp);
    [|intros [= <- <- <-]; left; split_and!; [done|naive_solver|intros ? [= <-]; left; by intros ?%Hp]..].
  all: destruct (wt_start_state _) as [sd|] eqn:Hsd; [|intros [= <- <- <-]; left; split_and!; [done|naive_solver|intros ? [= <-]; by right]]; cbn.
  all: intros [= <- <- <-]; right; eexists t, sd, _, _, _; split_and!; try (done || reflexivity || by apply Hp).
  - exists 0. rewrite Nat.add_0_r. split; [lia|reflexivity].
  - exists 1. rewrite Nat.add_1_r. split; [lia|reflexivity].
Qed.
End outcomes.

(** * The abstract machine *)

Record AInstance := mkAInst {
  ai_key : string * string;
  ai_connection : option string;
  ai_state : string;
  ai_status : InstanceStatus;
  ai_trace : list (string * string * string)
}.

Record AWorkflow := mkAW {
  aw_templates : gmap (string * string) WorkflowTemplate;
  aw_instances : gmap string AInstance
}.

Definition template_key (t : WorkflowTemplate) : string * string := (wt_template_id t, wt_version t).

(** A singleton template has no live instance on a connection when one is started there. *)
Definition singleton_free (t : WorkflowTemplate) (conn : option string) (a : AWorkflow) : Prop :=
  ip_mode (wt_instance_policy t) = SingletonPerConnection → ∀ c i x, conn = Some c → aw_instances a !! i = Some x →
    (ai_key x).1 = wt_template_id t → ai_connection x = Some c → ai_status x ≠ StActive ∧ ai_status x ≠ StPaused.

Definition live (x : AInstance) : Prop := ai_status x = StActive ∨ ai_status x = StError.

(** One step of the machine: a template appears or some disappear, an instance starts in the
    start state of its template, takes a transition of its template, or is paused, resumed
    or canceled from whatever status it has.  The label is the template that is published. *)
Inductive astep (a : AWorkflow) : option WorkflowTemplate → AWorkflow → Prop :=
  | AS_publish t : template_ok t → astep a (Some t) (mkAW (<[template_key t := t]> (aw_templates a)) (aw_instances a))
  | AS_withdraw ts : ts ⊆ aw_templates a → astep a None (mkAW ts (aw_instances a))
  | AS_start i conn t sd :
      aw_instances a !! i = None → aw_templates a !! template_key t = Some t → wt_start_state t = Some sd →
      singleton_free t conn a →
      astep a None (mkAW (aw_templates a) (<[i := mkAInst (template_key t) conn (sd_name sd) StActive []]> (aw_instances a)))
  | AS_advance i x t tr :
      aw_instances a !! i = Some x → live x →
      aw_templates a !! ai_key x = Some t → tr ∈ wt_transitions t → td_from tr = ai_state x →
      astep a None (mkAW (aw_templates a)
        (<[i := mkAInst (ai_key x) (ai_connection x) (td_to tr)
                  (if state_is_final t (td_to tr) then StCompleted else ai_status x)
                  (ai_trace x ++ [(td_on tr, td_from tr, td_to tr)])]> (aw_instances a)))
  | AS_status i x st :
      aw_instances a !! i = Some x → st = StActive ∨ st = StPaused ∨ st = StCanceled →
      astep a None (mkAW (aw_templates a)
        (<[i := mkAInst (ai_key x) (ai_connection x) (ai_state x) st (ai_trace x)]> (aw_instances a))).

(** ** What each call does to the machine, by its answer *)

Inductive WfCall :=
  | CallPublish (t : WorkflowTemplate)
  | CallDelete (id : string)
  | CallStart (opts : StartOptions)
  | CallAdvance (opts : AdvanceOptions) (lenient : bool)
  | CallPause (iid : string) (reason : option string)
  | CallResume (iid : string) (reason : option string)
  | CallCancel (iid : string) (reason : option string)
  | CallComplete (iid : string) (reason : option string)
  | CallContext (iid : string) (patch : Json)
  | CallArtifacts (iid : string) (artifacts : Json)
  | CallStatus (opts : StatusOptions).

(** The template that a start asks for: the version it names, or the latest one. *)
Definition asked (opts : StartOptions) (a : AWorkflow) (t : WorkflowTemplate) : Prop :=
  aw_templates a !! template_key t = Some t ∧ wt_template_id t = so_template_id opts ∧
  match so_template_version opts with
  | Some v => wt_version t = v
  | None => ∀ t', aw_templates a !! template_key t' = Some t' → wt_template_id t' = so_template_id opts →
      str_le (wt_version t') (wt_version t) = true
  end.

(** The event leads somewhere from the state, under no guard and with no action. *)
Definition plain (t : WorkflowTemplate) (st ev : string) : Prop :=
  wt_transitions_from t st ev ≠ [] ∧ ∀ tr, tr ∈ wt_transitions_from t st ev → td_guard tr = None ∧ td_action tr = None.

(** The calls that write a status. *)
Definition writes_status (c : WfCall) : option (string * InstanceStatus) :=
  match c with
  | CallPause iid _ => Some (iid, StPaused)
  | CallResume iid _ => Some (iid, StActive)
  | CallCancel iid _ => Some (iid, StCanceled)
  | _ => None
  end.
(** The calls that change nothing the machine sees of the instance they name. *)
Definition looks_at (c : WfCall) : option string :=
  match c with
  | CallContext iid _ | CallArtifacts iid _ => Some iid
  | CallStatus opts => Some (sto_instance_id opts)
  | _ => None
  end.

(** [call_step a c ok a']: the call [c] on the state [a] answers with a result ([ok]) or an
    error and leaves [a'].  A call that is refused changes nothing, and is refused only when
    it cannot be granted. *)
Inductive call_step (a : AWorkflow) : WfCall → bool → AWorkflow → Prop :=
  | CS_publish t : validate_template t = Ok tt →
      call_step a (CallPublish t) true (mkAW (<[template_key t := t]> (aw_templates a)) (aw_instances a))
  | CS_publish_refused t : validate_template t ≠ Ok tt → call_step a (CallPublish t) false a
  | CS_delete id k0 :
      let ts := filter (λ kv, kv.1.1 ≠ id ∧ Some kv.1 ≠ k0) (aw_templates a) in
      ts ≠ aw_templates a → call_step a (CallDelete id) true (mkAW ts (aw_instances a))
  | CS_delete_refused id : (∀ k, k.1 = id → aw_templates a !! k = None) → call_step a (CallDelete id) false a
  | CS_start opts i t sd :
      aw_instances a !! i = None → (∀ j, so_instance_id opts = Some j → i = j) → asked opts a t →
      wt_start_state t = Some sd → singleton_free t (so_connection_id opts) a →
      call_step a (CallStart opts) true (mkAW (aw_templates a)
        (<[i := mkAInst (template_key t) (so_connection_id opts) (sd_name sd) StActive []]> (aw_instances a)))
  | CS_start_again opts i :
      so_instance_id opts = Some i → is_Some (aw_instances a !! i) → call_step a (CallStart opts) true a
  | CS_start_refused opts :
      (∀ i, so_instance_id opts = Some i → aw_instances a !! i = None) →
      ((∀ t, ¬ asked opts a t) ∨ ∃ t, asked opts a t ∧ ¬ singleton_free t (so_connection_id opts) a) →
      call_step a (CallStart opts) false a
  | CS_advance opts lenient x t tr :
      aw_instances a !! ao_instance_id opts = Some x → live x → aw_templates a !! ai_key x = Some t →
      tr ∈ wt_transitions_from t (ai_state x) (ao_event opts) →
      call_step a (CallAdvance opts lenient) true (mkAW (aw_templates a)
        (<[ao_instance_id opts := mkAInst (ai_key x) (ai_connection x) (td_to tr)
                  (if state_is_final t (td_to tr) then StCompleted else ai_status x)
                  (ai_trace x ++ [(td_on tr, td_from tr, td_to tr)])]> (aw_instances a)))
  | CS_advance_again opts lenient x :
      aw_instances a !! ao_instance_id opts = Some x → live x → is_Some (ao_idempotency_key opts) →
      call_step a (CallAdvance opts lenient) true a
  | CS_advance_refused opts lenient :
      (∀ x t, aw_instances a !! ao_instance_id opts = Some x → live x → aw_templates a !! ai_key x = Some t →
         ¬ plain t (ai_state x) (ao_event opts)) →
      call_step a (CallAdvance opts lenient) false a
  | CS_status c iid st x :
      writes_status c = Some (iid, st) → aw_instances a !! iid = Some x →
      call_step a c true (mkAW (aw_templates a)
        (<[iid := mkAInst (ai_key x) (ai_connection x) (ai_state x) st (ai_trace x)]> (aw_instances a)))
  | CS_status_refused c iid st : writes_status c = Some (iid, st) → aw_instances a !! iid = None → call_step a c false a
  | CS_complete iid reason ok :
      (ok = true ↔ ∃ x, aw_instances a !! iid = Some x ∧
         ∀ t, aw_templates a !! ai_key x = Some t → state_is_final t (ai_state x) = true) →
      call_step a (CallComplete iid reason) ok a
  | CS_look c iid ok : looks_at c = Some iid → (ok = true ↔ is_Some (aw_instances a !! iid)) → call_step a c ok a.

Definition call_label (c : WfCall) : option WorkflowTemplate :=
  match c with CallPublish t => Some t | _ => None end.

(** A call is at most one step of the machine. *)
Lemma call_step_astep a c ok a' : call_step a c ok a' → a' = a ∨ astep a (call_label c) a'.
Proof.
  intros [t Hv|t _|id k0 ts _|id _|opts i t sd Hi _ [Ht _] Hsd Hfree|opts i _ _|opts _ _|opts lenient x t tr Hx Hlive Ht Htr|
          opts lenient x _ _ _|opts lenient _|c' iid st x Hc Hx|c' iid st _ _|iid reason b _|c' iid b _ _]; try by left.
  - right. apply AS_publish. by apply validate_template_ok.
  - right. apply AS_withdraw, map_filter_subseteq.
  - right. by apply AS_start.
  - right. apply list_elem_of_filter in Htr as [[Hf _] Htr]. by eapply AS_advance.
  - right. destruct c'; try done; injection Hc as <- <-; apply AS_status; auto.
Qed.

(** The machine over a sequence of calls with their answers. *)
Inductive machine_run : AWorkflow → list (WfCall * bool) → AWorkflow → Prop :=
  | MR_done a : machine_run a [] a
  | MR_call a c ok a' l a'' : call_step a c ok a' → machine_run a' l a'' → machine_run a ((c, ok) :: l) a''.

(** What the machine sees of an instance. *)
Definition abs_instance (r : WorkflowInstanceRecord) : AInstance :=
  let d := wir_data r in
  mkAInst (wi_template_id d, wi_template_version d) (wi_connection_id d) (wi_state d) (wi_status d)
    ((λ h, (hi_event h, hi_from h, hi_to h)) <$> wi_history d).

Section refinement.
Context `{HashOrder} `{Jmespath} `{WorkflowCrates} `{UuidText} `{Rfc3339}.
Implicit Types (s : WorkflowService) (w : World) (a : AWorkflow).

(** Records are stored under their id, searched by distinct attributes, and a template
    record describes its template. *)
Record ws_ok s : Prop := {
  wok_templates_id : ∀ i r, ws_templates s !! i = Some r → wtr_id r = i;
  wok_templates : ∀ i r, ws_templates s !! i = Some r → wtr_key r = template_key (wtr_template r) ∧ template_ok (wtr_template r);
  wok_templates_unique : keyed_unique wtr_key (ws_templates s);
  wok_instances_id : ∀ i r, ws_instances s !! i = Some r → wir_id r = i;
  wok_instances_unique : keyed_unique wir_key (ws_instances s)
}.

Record abstracts s a : Prop := {
  abs_templates : ∀ k, aw_templates a !! k = wtr_template <$> keyed_find wtr_key k (ws_templates s);
  abs_instances : ∀ i, aw_instances a !! i = abs_instance <$> keyed_find wir_key i (ws_instances s)
}.

(** The random source does not repeat a text that is in use. *)
Definition uuid_fresh s w : Prop :=
  ∀ k, (k ≤ 1)%nat → let u := uuid_to_string (w_uuid w (w_un w + k)) in
    ws_templates s !! u = None ∧ ws_instances s !! u = None ∧ keyed_find wir_key u (ws_instances s) = None.

(** ** The calls *)

Definition wf_run {A} (m : eff WorkflowError WorkflowService A) s w : WorkflowService * World :=
  let '(_, s, w) := m s w in (s, w).

(** What a call leaves; its reply, an error included, is for the caller. *)
Definition wf_exec (c : WfCall) s w : WorkflowService * World :=
  match c with
  | CallPublish t => wf_run (publish_template t) s w
  | CallDelete id => wf_run (delete_template id) s w
  | CallStart opts => wf_run (ws_start opts) s w
  | CallAdvance opts lenient => wf_run (advance_inner opts lenient) s w
  | CallPause iid reason => wf_run (ws_pause iid reason) s w
  | CallResume iid reason => wf_run (ws_resume iid reason) s w
  | CallCancel iid reason => wf_run (ws_cancel iid reason) s w
  | CallComplete iid reason => wf_run (ws_complete iid reason) s w
  | CallContext iid patch => wf_run (update_context iid patch) s w
  | CallArtifacts iid artifacts => wf_run (append_artifacts iid artifacts) s w
  | CallStatus opts => wf_run (ws_status opts) s w
  end.

(** Whether a call answers with a result. *)
Definition wf_ok {A} (m : eff WorkflowError WorkflowService A) s w : bool := is_ok (m s w).1.1.
Definition wf_answer (c : WfCall) s w : bool :=
  match c with
  | CallPublish t => wf_ok (publish_template t) s w
  | CallDelete id => wf_ok (delete_template id) s w
  | CallStart opts => wf_ok (ws_start opts) s w
  | CallAdvance opts lenient => wf_ok (advance_inner opts lenient) s w
  | CallPause iid reason => wf_ok (ws_pause iid reason) s w
  | CallResume iid reason => wf_ok (ws_resume iid reason) s w
  | CallCancel iid reason => wf_ok (ws_cancel iid reason) s w
  | CallComplete iid reason => wf_ok (ws_complete iid reason) s w
  | CallContext iid patch => wf_ok (update_context iid patch) s w
  | CallArtifacts iid artifacts => wf_ok (append_artifacts iid artifacts) s w
  | CallStatus opts => wf_ok (ws_status opts) s w
  end.

(** ** Each call is a step of the machine with its answer *)

Definition refined c ok s' a : Prop := ∃ a', call_step a c ok a' ∧ abstracts s' a' ∧ ws_ok s'.

Lemma refined_same c ok s a : abstracts s a → ws_ok s → call_step a c ok a → refined c ok s a.
Proof. intros Ha Hs Hc. by exists a. Qed.

Lemma ws_ok_with_bus s bus : ws_ok s → ws_ok (with_bus s bus).
Proof. by intros []. Qed.
Lemma abstracts_with_bus s a bus : abstracts s a → abstracts (with_bus s bus) a.
Proof. by intros []. Qed.
Lemma refined_with_bus c ok s a bus : refined c ok s a → refined c ok (with_bus s bus) a.
Proof. intros (a' & ? & ? & ?). exists a'. eauto using ws_ok_with_bus, abstracts_with_bus. Qed.

(** Storing an instance record that is new or keeps the identifier of the one it replaces. *)
Lemma instance_written s a r :
  ws_ok s → abstracts s a →
  (∀ j r', ws_instances s !! j = Some r' → wir_key r' = wir_key r → j = wir_id r) →
  (∀ r', ws_instances s !! wir_id r = Some r' → wir_key r' = wir_key r) →
  let s' := ws_set_instances (<[wir_id r := r]> (ws_instances s)) s in
  ws_ok s' ∧ abstracts s' (mkAW (aw_templates a) (<[wir_key r := abs_instance r]> (aw_instances a))).
Proof.
  intros Hs Ha Hnew Hold s'. destruct (keyed_insert wir_key _ _ _ (wok_instances_unique s Hs) Hnew Hold) as [Hu Hf].
  split.
  - split; cbn; try apply Hs; [|done]. intros i r'. rewrite lookup_insert_Some.
    intros [[<- <-]|[_ Hi]]; [done|]. by apply Hs.
  - split; cbn; [apply Ha|]. intros i. rewrite Hf. case_decide as Hi.
    + subst i. by rewrite lookup_insert_eq.
    + rewrite lookup_insert_ne by done. apply Ha.
Qed.

Lemma loaded_facts s iid r :
  ws_ok s → irepo_find iid (ws_instances s) = Some r →
  wir_key r = iid ∧ ws_instances s !! wir_id r = Some r ∧
  (∀ j r', ws_instances s !! j = Some r' → wir_key r' = iid → j = wir_id r).
Proof.
  intros Hs Hr. pose proof Hr as (i & Hi & Hk)%(keyed_find_elem wir_key).
  pose proof (wok_instances_id s Hs _ _ Hi) as <-. split_and!; [done|done|].
  intros j r' Hj Hk'. eapply wok_instances_unique; [done|exact Hj|exact Hi|congruence].
Qed.

Lemma abs_find s a iid : abstracts s a → aw_instances a !! iid = abs_instance <$> irepo_find iid (ws_instances s).
Proof. intros Ha. by rewrite (abs_instances s a Ha). Qed.

Lemma template_facts s i r :
  ws_ok s → ws_templates s !! i = Some r →
  keyed_find wtr_key (template_key (wtr_template r)) (ws_templates s) = Some r.
Proof.
  intros Hs Hi. apply keyed_find_Some; [apply Hs|]. exists i. split; [done|]. by apply (wok_templates s Hs _ _ Hi).
Qed.

Lemma change_refined c iid f os s w res s' w' a :
  ws_ok s → abstracts s a → ws_change iid f s w = (res, s', w') →
  match os with Some st => writes_status c = Some (iid, st) | None => looks_at c = Some iid end →
  (∀ d, wi_instance_id (f d) = wi_instance_id d) →
  (∀ d r now, abs_instance (wir_set_data (f d) now r) =
     mkAInst (wi_template_id d, wi_template_version d) (wi_connection_id d) (wi_state d) (default (wi_status d) os)
       ((λ h, (hi_event h, hi_from h, hi_to h)) <$> wi_history d)) →
  refined c (is_ok res) s' a.
Proof.
  intros Hs Ha Hc Hcall Hid Hf. apply change_cases in Hc as [(-> & -> & Hnone)|(r & now & Hr & -> & -> & _)].
  - apply refined_same; [done..|]. assert (Hi : aw_instances a !! iid = None).
    { rewrite (abs_find s a iid Ha). destruct (irepo_find iid (ws_instances s)) as [r|] eqn:Hr; [|done].
      destruct (loaded_facts _ _ _ Hs Hr) as (_ & Hl & _). rewrite (Hnone r) in Hl; done. }
    destruct os as [st|]; [by eapply CS_status_refused|]. eapply CS_look; [done|]. rewrite Hi. split; [done|by intros []].
  - destruct (loaded_facts _ _ _ Hs Hr) as (Hk & Hl & Hu). pose proof (Hf (wir_data r) r now) as Heq.
    destruct (instance_written s a (wir_set_data (f (wir_data r)) now r)) as [Hs' Ha']; [done|done| | |].
    + unfold wir_key at 2. cbn. rewrite Hid. intros j r' Hj Hk'. apply (Hu j r'); [done|]. by rewrite <-Hk, Hk'.
    + unfold wir_key at 2. cbn. rewrite Hid. intros r' Hr'. by assert (r' = r) as -> by (cbn in Hr'; congruence).
    + unfold wir_key in Ha'. cbn in Ha'. rewrite Hid, Heq in Ha'. change (wi_instance_id (wir_data r)) with (wir_key r) in Ha'.
      rewrite Hk in Ha'. pose proof (abs_find s a iid Ha) as Hi. rewrite Hr in Hi. cbn [fmap option_fmap option_map] in Hi.
      eexists. split_and!; [|exact Ha'|exact Hs']. cbn [is_ok]. destruct os as [st|].
      * by apply (CS_status a c iid st (abs_instance r)).
      * replace (mkAW _ _) with a; [eapply CS_look; [done|]; rewrite Hi; split; eauto|].
        destruct a as [ts xs]. cbn in *. f_equal. symmetry. by apply insert_id.
Qed.

Lemma change_then_refined {A} c iid f os (k : InstanceStatus * WorkflowInstanceRecord → eff WorkflowError WorkflowService A) s w a :
  ws_ok s → abstracts s a →
  (∀ x s w, ∃ y bus w', k x s w = (Ok y, with_bus s bus, w')) →
  match os with Some st => writes_status c = Some (iid, st) | None => looks_at c = Some iid end →
  (∀ d, wi_instance_id (f d) = wi_instance_id d) →
  (∀ d r now, abs_instance (wir_set_data (f d) now r) =
     mkAInst (wi_template_id d, wi_template_version d) (wi_connection_id d) (wi_state d) (default (wi_status d) os)
       ((λ h, (hi_event h, hi_from h, hi_to h)) <$> wi_history d)) →
  refined c (wf_ok (ws_change iid f ≫= k) s w) (wf_run (ws_change iid f ≫= k) s w).1 a.
Proof.
  intros Hs Ha Hk Hcall Hid Hf. unfold wf_run, wf_ok, mbind, eff_bind.
  destruct (ws_change iid f s w) as [[[x|e|] s1] w1] eqn:Hc; pose proof (change_refined c _ _ os _ _ _ _ _ a Hs Ha Hc Hcall Hid Hf) as Hr;
    [|done..].
  destruct (Hk x s1 w1) as (y & bus & w2 & ->). cbn in *. by apply refined_with_bus.
Qed.

Lemma publish_refined t s w a :
  ws_ok s → abstracts s a → uuid_fresh s w →
  refined (CallPublish t) (wf_ok (publish_template t) s w) (wf_run (publish_template t) s w).1 a.
Proof.
  intros Hs Ha Hw. unfold wf_run, wf_ok. destruct (publish_template t s w) as [[res s'] w'] eqn:Hp. cbn.
  apply publish_cases in Hp as [(-> & -> & Hwhy)|(r & -> & -> & Ht & Hk & Hv & Hold)].
  { apply refined_same; [done..|]. apply CS_publish_refused. destruct Hwhy as [Hv|(i & old & Hf & Hl)]; [done|].
    apply keyed_find_elem in Hf as (j & Hj & _). pose proof (wok_templates_id s Hs _ _ Hj). congruence. }
  rewrite trepo_find_keyed in Hold.
  assert ((∀ j v', ws_templates s !! j = Some v' → wtr_key v' = wtr_key r → j = wtr_id r) ∧
          (∀ v', ws_templates s !! wtr_id r = Some v' → wtr_key v' = wtr_key r)) as [Hnew Hsame].
  { rewrite Hk. destruct (keyed_find _ _ _) as [old|] eqn:Hf.
    - destruct Hold as [-> _]. apply keyed_find_elem in Hf as (i & Hi & Hko).
      pose proof (wok_templates_id s Hs _ _ Hi) as ->. split; [|naive_solver].
      intros j v' Hj Hk'. eapply (wok_templates_unique s Hs); [exact Hj|exact Hi|congruence].
    - rewrite Hold. pose proof (Hw 0 ltac:(lia)) as [Hfr _]. rewrite Nat.add_0_r in Hfr. cbn in Hfr. split; [|naive_solver].
      intros j v' Hj Hk'. by destruct (proj1 (keyed_find_None _ _ _) Hf j v' Hj). }
  destruct (keyed_insert wtr_key _ _ _ (wok_templates_unique s Hs) Hnew Hsame) as [Hu Hf].
  exists (mkAW (<[template_key t := t]> (aw_templates a)) (aw_instances a)). split_and!.
  - by apply CS_publish.
  - split; cbn; [|apply Ha]. intros k. rewrite Hf, Hk. change (template_key t) with (wt_template_id t, wt_version t).
    case_decide as Hkk.
    + subst k. by rewrite lookup_insert_eq, <-Ht.
    + rewrite lookup_insert_ne by done. apply Ha.
  - split; cbn; try apply Hs; [| |done].
    + intros i r'. rewrite lookup_insert_Some. intros [[<- <-]|[_ Hi]]; [done|]. by apply Hs.
    + intros i r'. rewrite lookup_insert_Some. intros [[<- <-]|[_ Hi]]; [|by apply (wok_templates s Hs i)].
      rewrite Hk, Ht. split; [done|]. by apply validate_template_ok.
Qed.

Lemma delete_refined id s w a :
  ws_ok s → abstracts s a → refined (CallDelete id) (wf_ok (delete_template id) s w) (wf_run (delete_template id) s w).1 a.
Proof.
  intros Hs Ha. unfold wf_run, wf_ok. destruct (delete_template id s w) as [[res s'] w'] eqn:Hd. cbn.
  apply delete_cases in Hd as (m & -> & Hm & Hres).
  assert (Hkept : ∀ i r, m !! i = Some r ↔ ws_templates s !! i = Some r ∧ wtr_template_id r ≠ id ∧ i ≠ id).
  { intros i r. rewrite Hm. split.
    - intros [Hi Hall]. pose proof (wok_templates_id s Hs _ _ Hi) as Hid. split; [done|]. split.
      + intros Ht. by apply (Hall i r Hi (or_introl Ht)).
      + intros ->. by apply (Hall id r Hi (or_intror Hid)).
    - intros (Hi & Ht & Hne). split; [done|]. intros j r' Hj Hor Hid.
      pose proof (wok_templates_id s Hs _ _ Hj) as Hid'. assert (j = i) as -> by congruence.
      destruct Hor; [|congruence]. congruence. }
  assert (Hsub : ∀ i v, m !! i = Some v → ws_templates s !! i = Some v) by (intros i v Hi; by apply Hkept in Hi as [? _]).
  pose proof (keyed_sub wtr_key _ _ (wok_templates_unique s Hs) Hsub) as Hu.
  set (k0 := wtr_key <$> ws_templates s !! id).
  set (ts := filter (λ kv, kv.1.1 ≠ id ∧ Some kv.1 ≠ k0) (aw_templates a)).
  assert (Hstate : abstracts (ws_set_templates m s) (mkAW ts (aw_instances a))).
  { split; cbn; [|apply Ha]. intros k. apply option_eq. intros t.
    unfold ts. rewrite map_lookup_filter_Some, (abs_templates s a Ha), !fmap_Some. cbn. split.
    - intros ((r & Hr & ->) & Hk & Hk0). exists r. split; [|done]. apply keyed_find_elem in Hr as (i & Hi & <-).
      apply keyed_find_Some; [done|]. exists i. split; [|done]. apply Hkept. split_and!; [done..|].
      intros ->. apply Hk0. unfold k0. by rewrite Hi.
    - intros (r & Hr & ->). apply keyed_find_elem in Hr as (i & Hi & <-). apply Hkept in Hi as (Hi & Hk & Hne). split_and!; [|done|].
      + exists r. split; [|done]. apply keyed_find_Some; [apply Hs|]. eauto.
      + unfold k0. destruct (ws_templates s !! id) as [r0|] eqn:Hr0; [|done]. cbn. intros [= Heq Heq'].
        apply Hne. eapply (wok_templates_unique s Hs); [exact Hi|exact Hr0|]. unfold wtr_key. congruence. }
  assert (Hws : ws_ok (ws_set_templates m s)).
  { split; cbn; try apply Hs; [| |done]; eauto using wok_templates_id, wok_templates. }
  destruct (is_ok res) eqn:Hok.
  - eexists. split_and!; [|exact Hstate|exact Hws]. apply CS_delete.
    destruct Hres as [(j & r & Hj & Hor) _]; [done|]. fold ts. intros Heq.
    assert (Hr : aw_templates a !! wtr_key r = Some (wtr_template r)).
    { rewrite (abs_templates s a Ha). rewrite (proj2 (keyed_find_Some wtr_key _ _ r (wok_templates_unique s Hs))); [done|]. eauto. }
    rewrite <-Heq in Hr. apply map_lookup_filter_Some in Hr as (_ & Hk & Hk0). cbn in *. destruct Hor as [|Hid]; [done|].
    rewrite (wok_templates_id s Hs _ _ Hj) in Hid. subst j. apply Hk0. unfold k0. by rewrite Hj.
  - assert (Hnone : ∀ j r, ws_templates s !! j = Some r → wtr_template_id r ≠ id ∧ wtr_id r ≠ id).
    { intros j r Hj. split; intros Hid; enough (false = true) by done; apply Hres; eauto. }
    assert (m = ws_templates s) as ->.
    { apply map_eq. intros i. apply option_eq. intros r. rewrite Hkept. split; [by intros [? _]|]. intros Hi. split; [done|].
      destruct (Hnone i r Hi) as [? Hne]. by rewrite (wok_templates_id s Hs _ _ Hi) in Hne. }
    exists a. destruct s as [tm im reg bus]. split_and!; [|exact Ha|exact Hs]. apply CS_delete_refused. intros k Hk.
    rewrite (abs_templates _ a Ha). destruct (keyed_find wtr_key k _) as [r|] eqn:Hf; [|done].
    apply keyed_find_elem in Hf as (i & Hi & <-). by destruct (Hnone i r Hi).
Qed.

Lemma found_asked opts s a r :
  ws_ok s → abstracts s a → trepo_find (so_template_id opts) (so_template_version opts) (ws_templates s) = Some r →
  asked opts a (wtr_template r).
Proof.
  intros Hs Ha Hr. pose proof Hr as (i & Hi & Hid)%trepo_find_elem. pose proof (wok_templates s Hs i r Hi) as [Hk _].
  injection Hk as Hk1 Hk2. unfold asked. rewrite (abs_templates s a Ha), (template_facts s i r Hs Hi). cbn.
  split_and!; [done|congruence|]. destruct (so_template_version opts) as [v|].
  - rewrite trepo_find_keyed in Hr. apply keyed_find_elem in Hr as (j & _ & [= _ Hv]). congruence.
  - intros t' Ht' Hid'. rewrite (abs_templates s a Ha) in Ht'. apply fmap_Some in Ht' as (r' & Hr' & ->).
    apply keyed_find_elem in Hr' as (j & Hj & _). pose proof (wok_templates s Hs j r' Hj) as [[= Hk1' Hk2'] _].
    rewrite <-Hk2, <-Hk2'. eapply trepo_find_latest; [exact Hr|exact Hj|congruence].
Qed.
Lemma none_asked opts s a t :
  ws_ok s → abstracts s a → trepo_find (so_template_id opts) (so_template_version opts) (ws_templates s) = None → ¬ asked opts a t.
Proof.
  intros Hs Ha Hn (Ht & Hid & Hv). rewrite (abs_templates s a Ha) in Ht. apply fmap_Some in Ht as (r & Hr & ->).
  apply keyed_find_elem in Hr as (j & Hj & [= Hk1 Hk2]). destruct (trepo_find_none _ _ _ Hn j r Hj) as (v & Hver & Hne); [congruence|].
  rewrite Hver in Hv. congruence.
Qed.
Lemma policy_singleton t conn s a : ws_ok s → abstracts s a → policy_allows t conn (ws_instances s) ↔ singleton_free t conn a.
Proof.
  intros Hs Ha. split; intros Hp Hm c j.
  - intros x Hc Hj Htid Hconn. rewrite (abs_instances s a Ha) in Hj. apply fmap_Some in Hj as (r' & Hr' & ->).
    apply keyed_find_elem in Hr' as (i' & Hi' & _). by apply (Hp Hm c i' r').
  - intros r Hc Hj Htid Hconn. apply (Hp Hm c (wir_key r) (abs_instance r)); [done| |done..].
    rewrite (abs_instances s a Ha). by rewrite (proj2 (keyed_find_Some wir_key _ _ r (wok_instances_unique s Hs))) by eauto.
Qed.

Lemma start_refined opts s w a :
  ws_ok s → abstracts s a → uuid_fresh s w → refined (CallStart opts) (wf_ok (ws_start opts) s w) (wf_run (ws_start opts) s w).1 a.
Proof.
  intros Hs Ha Hw. unfold wf_run, wf_ok. destruct (ws_start opts s w) as [[res s'] w'] eqn:Hd. cbn.
  apply start_cases in Hd as [[-> Hres]|(t & sd & iid & r & bus & -> & Ht & Hpol & Hsd & (k & Hk & Hid) & Hiid & Hdata & ->)].
  { apply refined_same; [done..|]. destruct (is_ok res) eqn:Hok.
    - destruct res as [r|e|]; [|done..]. destruct Hres as (i & Hi & Hr). apply (CS_start_again a opts i Hi).
      rewrite (abs_find s a i Ha), Hr. by eexists.
    - assert (Hwhy : (∀ i, so_instance_id opts = Some i → irepo_find i (ws_instances s) = None) ∧ ∀ t,
        trepo_find (so_template_id opts) (so_template_version opts) (ws_templates s) = Some t →
        ¬ policy_allows (wtr_template t) (so_connection_id opts) (ws_instances s) ∨ wt_start_state (wtr_template t) = None)
        by by destruct res. clear Hres. destruct Hwhy as [Hnone Hwhy].
      apply CS_start_refused; [intros i Hi; by rewrite (abs_find s a i Ha), (Hnone i Hi)|].
      destruct (trepo_find _ _ _) as [t|] eqn:Ht; [right|left; intros t; by eapply none_asked].
      exists (wtr_template t). split; [by eapply found_asked|]. rewrite <-policy_singleton by done.
      destruct (Hwhy t eq_refl) as [|Hstart]; [done|]. pose proof Ht as (i & Hi & _)%trepo_find_elem.
      destruct (wok_templates s Hs i t Hi) as [_ Htok]. destruct (tok_start _ Htok) as (sd & ? & _). congruence. }
  assert (Hkey : wir_key r = iid) by (unfold wir_key; by rewrite Hdata).
  assert (Hnone : keyed_find wir_key iid (ws_instances s) = None).
  { destruct (so_instance_id opts); [by destruct Hiid as [-> Hn]|]. subst iid.
    pose proof (Hw 0 ltac:(lia)) as (_ & _ & Hn). by rewrite Nat.add_0_r in Hn. }
  destruct (Hw k Hk) as (_ & Hfresh & _). rewrite <-Hid in Hfresh.
  apply refined_with_bus.
  destruct (instance_written s a r Hs Ha) as [Hs' Ha'].
  - intros j r' Hj. rewrite Hkey. by intros ?%(proj1 (keyed_find_None _ _ _) Hnone j r').
  - intros r' Hr'. cbn in Hr'. congruence.
  - eexists. split_and!; [|exact Ha'|exact Hs']. rewrite Hkey. unfold abs_instance. rewrite Hdata.
    apply (CS_start a opts iid (wtr_template t) sd); [|intros j Hj|by apply (found_asked opts s)|done|by apply (policy_singleton _ _ s a Hs Ha)].
    + by rewrite (abs_instances s a Ha), Hnone.
    + rewrite Hj in Hiid. by destruct Hiid.
Qed.

Lemma enabled_transition_elem t d ev tr :
  enabled_transition t d ev = Some tr → tr ∈ wt_transitions t ∧ td_from tr = wi_state d ∧ td_on tr = ev.
Proof.
  intros [Hin _]%find_first_Some. unfold wt_transitions_from in Hin. apply list_elem_of_filter in Hin. naive_solver.
Qed.

(** What is neither guarded nor bound to an action is taken. *)
Lemma advance_plain opts lenient s w r t :
  irepo_find (ao_instance_id opts) (ws_instances s) = Some r → is_Some (ws_instances s !! wir_id r) →
  live (abs_instance r) →
  trepo_find (wi_template_id (wir_data r)) (Some (wi_template_version (wir_data r))) (ws_templates s) = Some t →
  plain (wtr_template t) (wi_state (wir_data r)) (ao_event opts) → wf_ok (advance_inner opts lenient) s w = true.
Proof.
  intros Hr [r0 Hl] Hlive Ht [Hne Hplain]. unfold wf_ok, advance_inner, advance_prepare, ws_load, ws_find_instance, ws_find_template. eff_simpl.
  rewrite Hr. cbn.
  assert (∃ tr, enabled_transition (wtr_template t) (wir_data r) (ao_event opts) = Some tr) as [tr Htr].
  { unfold enabled_transition. destruct (wt_transitions_from _ _ _) as [|tr l]; [done|].
    apply find_first_is_Some with tr; [by left|]. by destruct (Hplain tr ltac:(by left)) as [-> _]. }
  assert (td_action tr = None) as Hact by (apply find_first_Some in Htr as [Hin _]; by apply Hplain).
  unfold live in Hlive. cbn in Hlive.
  destruct (wi_status (wir_data r)); [|by destruct Hlive..|]; (destruct (key_seen _ _); [done|]; cbn;
    rewrite Ht; cbn; rewrite Htr; unfold run_action; rewrite Hact; cbn; unfold advance_commit, mbind, eff_bind, ws_update_instance, irepo_update; cbn;
    rewrite Hl; eff_simpl; by destruct (state_is_final _ _)).
Qed.

Lemma advance_refined opts lenient s w a :
  ws_ok s → abstracts s a →
  refined (CallAdvance opts lenient) (wf_ok (advance_inner opts lenient) s w) (wf_run (advance_inner opts lenient) s w).1 a.
Proof.
  intros Hs Ha. pose proof (advance_plain opts lenient s w) as Hplain. unfold wf_run, wf_ok in *.
  destruct (advance_inner opts lenient s w) as [[res s'] w'] eqn:Hd. cbn in *.
  apply advance_cases in Hd as [[-> Hagain]|(r & r' & t & tr & ar & ts & now & bus & Hr & -> & Hst & _ & Ht & Htr & Hr' & -> & _)].
  { apply refined_same; [done..|]. destruct (is_ok res) eqn:Hok.
    - destruct res as [r|e|]; [|done..]. destruct (Hagain r eq_refl) as (Hr & Hst & Hk).
      apply (CS_advance_again a opts lenient (abs_instance r)); [by rewrite (abs_find s a _ Ha), Hr|done|].
      unfold key_seen in Hk. by destruct (ao_idempotency_key opts).
    - apply CS_advance_refused. intros x t Hx Hlive Ht Hp. rewrite (abs_find s a _ Ha) in Hx.
      apply fmap_Some in Hx as (r & Hr & ->). destruct (loaded_facts _ _ _ Hs Hr) as (_ & Hl & _).
      rewrite (abs_templates s a Ha) in Ht. apply fmap_Some in Ht as (rt & Hrt & ->).
      enough (false = true) by done. eapply Hplain; eauto. by rewrite trepo_find_keyed. }
  destruct (loaded_facts _ _ _ Hs Hr) as (Hk & Hl & Hu). pose proof Htr as [Hin _]%find_first_Some.
  apply enabled_transition_elem in Htr as (Htr & Hfrom & Hon).
  assert (Hrid : wir_id r' = wir_id r) by by rewrite Hr'.
  assert (Hrk : wir_key r' = wir_key r) by by rewrite Hr'.
  apply refined_with_bus. rewrite <-Hrid.
  destruct (instance_written s a r' Hs Ha) as [Hs' Ha'].
  - rewrite Hrk, Hrid, Hk. exact Hu.
  - rewrite Hrk, Hrid. intros r0 Hr0. by assert (r0 = r) as -> by (cbn in Hr0; congruence).
  - eexists. split_and!; [|exact Ha'|exact Hs']. rewrite Hrk, Hk.
    pose proof (abs_find s a (ao_instance_id opts) Ha) as Hi. rewrite Hr in Hi.
    rewrite trepo_find_keyed in Ht.
    assert (Habs : abs_instance r' = mkAInst (ai_key (abs_instance r)) (ai_connection (abs_instance r)) (td_to tr)
              (if state_is_final (wtr_template t) (td_to tr) then StCompleted else ai_status (abs_instance r))
              (ai_trace (abs_instance r) ++ [(td_on tr, td_from tr, td_to tr)])).
    { rewrite Hr'. unfold abs_instance. cbn. by rewrite fmap_app, Hfrom, Hon. }
    rewrite Habs. eapply CS_advance; [done|done| |exact Hin]. rewrite (abs_templates s a Ha). cbn. by rewrite Ht.
Qed.

Lemma status_same opts s w : (wf_run (ws_status opts) s w).1 = s.
Proof.
  unfold wf_run, ws_status, ws_load, ws_find_instance, ws_find_template. eff_simpl.
  by destruct (irepo_find _ _).
Qed.
Lemma complete_same iid reason s w : (wf_run (ws_complete iid reason) s w).1 = s.
Proof.
  unfold wf_run, ws_complete, ws_load, ws_find_instance, ws_find_template. eff_simpl.
  destruct (irepo_find _ _) as [r|]; [|done]. cbn. destruct (trepo_find _ _ _) as [t|]; [|done]. by destruct (state_is_final _ _).
Qed.

Lemma status_refined opts s w a : ws_ok s → abstracts s a → refined (CallStatus opts) (wf_ok (ws_status opts) s w) s a.
Proof.
  intros Hs Ha. apply refined_same; [done..|]. eapply CS_look; [done|]. rewrite (abs_find s a _ Ha).
  unfold wf_ok, ws_status, ws_load, ws_find_instance, ws_find_template. eff_simpl.
  destruct (irepo_find _ _) as [r|]; cbn; [split; eauto|]. split; [done|by intros []].
Qed.
Lemma complete_refined iid reason s w a :
  ws_ok s → abstracts s a → refined (CallComplete iid reason) (wf_ok (ws_complete iid reason) s w) s a.
Proof.
  intros Hs Ha. apply refined_same; [done..|]. apply CS_complete. rewrite (abs_find s a _ Ha).
  unfold wf_ok, ws_complete, ws_load, ws_find_instance, ws_find_template. eff_simpl.
  destruct (irepo_find iid (ws_instances s)) as [r|]; cbn; [|split; [done|naive_solver]].
  rewrite trepo_find_keyed. pose proof (abs_templates s a Ha (wi_template_id (wir_data r), wi_template_version (wir_data r))) as Ht.
  destruct (keyed_find wtr_key _ _) as [t|]; cbn in *.
  - destruct (state_is_final _ _) eqn:Hf; cbn; (split; [try done; intros _|intros (x & [= <-] & Hall)]).
    + eexists. split; [reflexivity|]. cbn. intros t'. rewrite Ht. by intros [= <-].
    + done.
    + pose proof (Hall _ Ht) as Hf'. cbn in Hf'. congruence.
  - split; [|done]. intros _. eexists. split; [reflexivity|]. cbn. intros t'. by rewrite Ht.
Qed.

Lemma exec_refined c s w a : ws_ok s → abstracts s a → uuid_fresh s w → refined c (wf_answer c s w) (wf_exec c s w).1 a.
Proof.
  intros Hs Ha Hw.
  assert (Hemit : ∀ (x : InstanceStatus * WorkflowInstanceRecord) s w, ∃ y bus w',
    (let '(prev_status, record) := x in _ ← emit_status_changed record prev_status; mret record : wf WorkflowInstanceRecord) s w =
    (Ok y, with_bus s bus, w')) by (intros [prev r] s0 w0; by eexists _, _, _).
  destruct c; cbn [wf_answer wf_exec].
  - by apply publish_refined.
  - by apply delete_refined.
  - by apply start_refined.
  - by apply advance_refined.
  - by apply (change_then_refined _ _ _ (Some StPaused)).
  - by apply (change_then_refined _ _ _ (Some StActive)).
  - by apply (change_then_refined _ _ _ (Some StCanceled)).
  - rewrite complete_same. by apply complete_refined.
  - unfold update_context, wf_run, wf_ok, fmap, eff_fmap.
    destruct (ws_change _ _ s w) as [[[x|e|] s1] w1] eqn:Hc; cbn; by apply (change_refined _ _ _ None _ _ _ _ _ a Hs Ha Hc).
  - unfold append_artifacts, wf_run, wf_ok, fmap, eff_fmap.
    destruct (ws_change _ _ s w) as [[[x|e|] s1] w1] eqn:Hc; cbn; by apply (change_refined _ _ _ None _ _ _ _ _ a Hs Ha Hc).
  - rewrite status_same. by apply status_refined.
Qed.
End refinement.
