(* ===== verification/WorkflowProps.v ===== *)
(** The properties of the workflow service over any sequence of calls, and its runs on a
    concrete template. *)
From stdpp Require Import relations.
From S2P Require Import Prelude AjnaTypes Workflow WorkflowService WorkflowSpec.
#[local] Arguments trepo_find : simpl never.
#[local] Arguments irepo_find : simpl never.
#[local] Arguments enabled_transition : simpl never.

(** * Invariants of the machine *)

Definition state_names (t : WorkflowTemplate) : list string := sd_name <$> wt_states t.

(** An instance is in a state that its template declares. *)
Definition declared (a : AWorkflow) : Prop :=
  ∀ i x t, aw_instances a !! i = Some x → aw_templates a !! ai_key x = Some t → ai_state x ∈ state_names t.

(** Where a trace of transitions leads from a state; [None] if it is broken. *)
Definition trace_from (st : string) (tr : list (string * string * string)) : option string :=
  foldl (λ cur e, c ← cur; if decide (c = e.1.2) then Some e.2 else None) (Some st) tr.
Definition linked (a : AWorkflow) : Prop :=
  ∀ i x, aw_instances a !! i = Some x → ∃ st, trace_from st (ai_trace x) = Some (ai_state x).

(** A published template declares the states in which the instances of its key are. *)
Definition publish_safe (a : AWorkflow) (l : option WorkflowTemplate) : Prop :=
  ∀ t, l = Some t → ∀ i x, aw_instances a !! i = Some x → ai_key x = template_key t → ai_state x ∈ state_names t.

Definition templates_ok (a : AWorkflow) : Prop := ∀ k t, aw_templates a !! k = Some t → template_ok t.

Lemma declared_step a l a' : templates_ok a → declared a → publish_safe a l → astep a l a' → declared a'.
Proof.
  intros Hok Hd Hl Hst i x t. destruct Hst as [t0 Ht0|ts Hts|j conn t0 sd Hj Ht0 Hsd _|j y t0 tr Hj Hy Ht0 Htr Hfrom|j y st Hj _]; cbn.
  - intros Hi. rewrite lookup_insert_Some. intros [[Hk <-]|[_ Ht]]; [by eapply (Hl t0)|by eapply Hd].
  - intros Hi Ht. eapply Hd; [exact Hi|]. by eapply lookup_weaken.
  - rewrite lookup_insert_Some. intros [[_ <-]|[_ Hi]] Ht; [|by eapply Hd]. cbn in *.
    assert (t = t0) as -> by congruence. apply find_first_Some in Hsd as [Hin _]. by apply list_elem_of_fmap_2.
  - rewrite lookup_insert_Some. intros [[_ <-]|[_ Hi]] Ht; [|by eapply Hd]. cbn in *.
    assert (t = t0) as -> by congruence. by apply (tok_declared t0 (Hok _ _ Ht0) tr).
  - rewrite lookup_insert_Some. intros [[_ <-]|[_ Hi]] Ht; [|by eapply Hd]. by eapply (Hd j y).
Qed.

Lemma templates_ok_step a l a' : templates_ok a → astep a l a' → templates_ok a'.
Proof.
  intros Hok Hst k t. destruct Hst as [t0 Ht0|ts Hts| | |]; cbn; try apply Hok.
  - rewrite lookup_insert_Some. intros [[_ <-]|[_ Ht]]; [done|by eapply Hok].
  - intros Ht. eapply Hok. by eapply lookup_weaken.
Qed.

Lemma trace_from_snoc st tr e c : trace_from st tr = Some c → c = e.1.2 → trace_from st (tr ++ [e]) = Some e.2.
Proof. unfold trace_from. intros Htr ->. rewrite foldl_app, Htr. cbn. by rewrite decide_True. Qed.

Lemma linked_step a l a' : linked a → astep a l a' → linked a'.
Proof.
  intros Hd [t0 Ht0|ts Hts|j conn t0 sd Hj Ht0 Hsd _|j y t0 tr Hj Hy Ht0 Htr Hfrom|j y st Hj _] i x; cbn; try apply Hd.
  - rewrite lookup_insert_Some. intros [[_ <-]|[_ Hi]]; [|by eapply Hd]. by exists (sd_name sd).
  - rewrite lookup_insert_Some. intros [[_ <-]|[_ Hi]]; [|by eapply Hd]. cbn.
    destruct (Hd j y Hj) as [st Hst]. exists st. by eapply (trace_from_snoc _ _ (td_on tr, td_from tr, td_to tr)).
  - rewrite lookup_insert_Some. intros [[_ <-]|[_ Hi]]; [|by eapply Hd]. by apply (Hd j y).
Qed.

(** * Runs *)
Section runs.
Context `{HashOrder} `{Jmespath} `{WorkflowCrates} `{UuidText} `{Rfc3339}.
Implicit Types (s : WorkflowService) (w : World) (a : AWorkflow).

Fixpoint wf_execs (cs : list WfCall) s w : WorkflowService * World :=
  match cs with
  | [] => (s, w)
  | c :: cs => let '(s, w) := wf_exec c s w in wf_execs cs s w
  end.

(** A condition on every call of a run, on the service and the world it meets. *)
Fixpoint along (P : WfCall → WorkflowService → World → Prop) (cs : list WfCall) s w : Prop :=
  match cs with
  | [] => True
  | c :: cs => P c s w ∧ along P cs (wf_exec c s w).1 (wf_exec c s w).2
  end.

Definition call_fresh (c : WfCall) s w : Prop := uuid_fresh s w.

(** A template that replaces another declares the states its instances are in. *)
Definition call_compatible (c : WfCall) s w : Prop :=
  match c with
  | CallPublish t => ∀ i r, ws_instances s !! i = Some r →
      wi_template_id (wir_data r) = wt_template_id t → wi_template_version (wir_data r) = wt_version t →
      wi_state (wir_data r) ∈ state_names t
  | _ => True
  end.

Lemma along_execs (P : WfCall → WorkflowService → World → Prop) (I : WorkflowService → Prop) cs s w :
  (∀ c s w, I s → P c s w → I (wf_exec c s w).1) → I s → along P cs s w → I (wf_execs cs s w).1.
Proof.
  intros Hstep. revert s w. induction cs as [|c cs IH]; intros s w Hs; [done|]. cbn. intros [Hc Hcs].
  specialize (Hstep c s w Hs Hc). destruct (wf_exec c s w) as [s1 w1]. by apply IH.
Qed.

Definition aw_empty : AWorkflow := mkAW ∅ ∅.

Lemma ws_new_ok reg : ws_ok (ws_new reg).
Proof. split; cbn; try done; by intros ????. Qed.
Lemma ws_new_abstracts reg : abstracts (ws_new reg) aw_empty.
Proof.
  split; intros k; cbn; (destruct (keyed_find _ k ∅) as [r|] eqn:E; [|done]); by apply keyed_find_elem in E as (? & ? & _).
Qed.

(** The answers of the calls of a run, result or error. *)
Fixpoint wf_answers (cs : list WfCall) s w : list bool :=
  match cs with
  | [] => []
  | c :: cs => let '(s', w') := wf_exec c s w in wf_answer c s w :: wf_answers cs s' w'
  end.

Lemma execs_refined cs s w a :
  ws_ok s → abstracts s a → along call_fresh cs s w →
  ∃ a', machine_run a (zip cs (wf_answers cs s w)) a' ∧ abstracts (wf_execs cs s w).1 a' ∧ ws_ok (wf_execs cs s w).1.
Proof.
  revert s w a. induction cs as [|c cs IH]; intros s w a Hs Ha; cbn; [intros _; exists a; split; [apply MR_done|done]|].
  intros [Hw Hal]. destruct (exec_refined c s w a Hs Ha Hw) as (a1 & Hst & Ha1 & Hs1).
  destruct (wf_exec c s w) as [s1 w1]. destruct (IH s1 w1 a1 Hs1 Ha1 Hal) as (a' & Hrun & Ha' & Hs').
  exists a'. split; [by eapply MR_call|done].
Qed.

Lemma workflow_refined reg cs w :
  along call_fresh cs (ws_new reg) w →
  ∃ a, machine_run aw_empty (zip cs (wf_answers cs (ws_new reg) w)) a ∧
    abstracts (wf_execs cs (ws_new reg) w).1 a ∧ ws_ok (wf_execs cs (ws_new reg) w).1.
Proof. apply execs_refined; [apply ws_new_ok|apply ws_new_abstracts]. Qed.


Lemma abs_lookup s a i r : ws_ok s → abstracts s a → ws_instances s !! i = Some r → aw_instances a !! wir_key r = Some (abs_instance r).
Proof.
  intros Hs Ha Hi. rewrite (abs_instances s a Ha).
  rewrite (proj2 (keyed_find_Some wir_key _ (wir_key r) r (wok_instances_unique s Hs))) by eauto. done.
Qed.

Lemma compatible_safe c s w a : ws_ok s → abstracts s a → call_compatible c s w → publish_safe a (call_label c).
Proof.
  intros Hs Ha Hc t Hl i x Hi Hk. destruct c; try done. injection Hl as ->.
  rewrite (abs_instances s a Ha) in Hi. destruct (keyed_find wir_key i (ws_instances s)) as [r|] eqn:Hr; [|done].
  injection Hi as <-. apply keyed_find_elem in Hr as (j & Hj & _). injection Hk as Hk1 Hk2. by apply (Hc j r).
Qed.

(** The state of every instance is declared by its template, and its history is an unbroken
    chain of transitions that ends in it. *)
Definition well_typed s : Prop :=
  ∀ i r, ws_instances s !! i = Some r →
    (∀ t, trepo_find (wi_template_id (wir_data r)) (Some (wi_template_version (wir_data r))) (ws_templates s) = Some t →
       wi_state (wir_data r) ∈ state_names (wtr_template t)) ∧
    ∃ st, trace_from st ((λ h, (hi_event h, hi_from h, hi_to h)) <$> wi_history (wir_data r)) = Some (wi_state (wir_data r)).

(** C10: Type safety of instances: if no published template forgets a state in which an instance of
    the template it replaces is, then after any calls every instance is in a state declared
    by its template, and its recorded history is an unbroken chain of transitions from some
    state to the current one. *)
Theorem workflow_well_typed reg cs w :
  along (λ c s w, call_fresh c s w ∧ call_compatible c s w) cs (ws_new reg) w →
  well_typed (wf_execs cs (ws_new reg) w).1.
Proof.
  intros Hal.
  assert (∃ a, abstracts (wf_execs cs (ws_new reg) w).1 a ∧ ws_ok (wf_execs cs (ws_new reg) w).1 ∧
          templates_ok a ∧ declared a ∧ linked a) as (a & Ha & Hs & _ & Hd & Hl).
  { revert Hal. apply (along_execs _ (λ s, ∃ a, abstracts s a ∧ ws_ok s ∧ templates_ok a ∧ declared a ∧ linked a)).
    - clear. intros c s w (a & Ha & Hs & Ht & Hd & Hl) [Hw Hc].
      destruct (exec_refined c s w a Hs Ha Hw) as (a' & [->|Hst]%call_step_astep & Ha' & Hs'); [by exists a|].
      exists a'. pose proof (compatible_safe c s w a Hs Ha Hc).
      eauto 10 using declared_step, templates_ok_step, linked_step.
    - exists aw_empty. split_and!; [apply ws_new_abstracts|apply ws_new_ok|by intros ??|by intros ???|by intros ??]. }
  intros i r Hi. pose proof (abs_lookup _ _ _ _ Hs Ha Hi) as Hx. split.
  - intros t. rewrite trepo_find_keyed. intros Ht. eapply (Hd _ _ (wtr_template t) Hx). rewrite (abs_templates _ a Ha). cbn. by rewrite Ht.
  - by destruct (Hl _ _ Hx) as [st Hst]; exists st.
Qed.

(** ** What is offered can be taken *)

Definition guard_holds (d : WorkflowInstanceData) (tr : TransitionDef) : Prop :=
  td_from tr = wi_state d ∧ guard_eval (td_guard tr) (wi_context d) (wi_participants d) (wi_artifacts d) = true.

Lemma exists_elem_cons {A} (P : A → Prop) y l : (∃ x, x ∈ y :: l ∧ P x) ↔ P y ∨ ∃ x, x ∈ l ∧ P x.
Proof. setoid_rewrite elem_of_cons. naive_solver. Qed.

Lemma elem_of_allowed_events t d ev : ev ∈ allowed_events t d ↔ ∃ tr, tr ∈ wt_transitions t ∧ guard_holds d tr ∧ td_on tr = ev.
Proof.
  unfold allowed_events, guard_holds. set (f := λ events transition, _).
  enough (∀ l acc, ev ∈ foldl f acc l ↔ ev ∈ acc ∨ ∃ tr, tr ∈ l ∧ (td_from tr = wi_state d ∧
    guard_eval (td_guard tr) (wi_context d) (wi_participants d) (wi_artifacts d) = true) ∧ td_on tr = ev) as Hl.
  { rewrite Hl. set_solver. }
  induction l as [|tr l IH]; intros acc; cbn; [set_solver|]. rewrite IH, exists_elem_cons. unfold f at 1.
  case_decide as Hfrom; [|naive_solver].
  destruct (guard_eval (td_guard tr) _ _ _) eqn:Hg; cbn; [|naive_solver].
  case_bool_decide as Hin; cbn; [rewrite elem_of_app, list_elem_of_singleton|]; naive_solver.
Qed.

Lemma allowed_events_enabled t d ev : ev ∈ allowed_events t d ↔ is_Some (enabled_transition t d ev).
Proof.
  rewrite elem_of_allowed_events. unfold guard_holds. split.
  - intros (tr & Hin & [Hf Hg] & Hon). apply find_first_is_Some with tr; [|done].
    apply list_elem_of_filter. done.
  - intros [tr Htr]. pose proof (enabled_transition_elem _ _ _ _ Htr) as (Hin & Hf & Hon).
    apply find_first_Some in Htr as [_ Hg]. eauto 10.
Qed.

Definition no_panic (reg : ActionRegistry) : Prop :=
  ∀ uri h ctx w, reg_handlers reg !! uri = Some h → (h ctx w).1 ≠ Some Panic.

Lemma run_action_lenient opts t d tr s w :
  no_panic (ws_registry s) → ∃ ar w', run_action opts true t d tr s w = (Ok ar, s, w').
Proof.
  intros Hnp. unfold run_action. destruct (_ ≫= _) as [ad|]; [|by eexists _, _].
  unfold reg_execute. destruct (reg_handlers (ws_registry s) !! acd_type_uri ad) as [h|] eqn:Hh; [|by eexists _, _].
  pose proof (Hnp _ _ (mkActionContext t d ad (ao_input opts)) w Hh) as Hn.
  destruct (h _ w) as [[[ar|e|]|] w']; cbn in *; first [done | by eexists _, _].
Qed.

Lemma irepo_find_insert s r r' :
  ws_ok s → ws_instances s !! wir_id r = Some r → wir_key r' = wir_key r →
  irepo_find (wir_key r) (<[wir_id r := r']> (ws_instances s)) = Some r'.
Proof.
  intros Hs Hr Hk. change (keyed_find wir_key (wir_key r) (<[wir_id r:=r']> (ws_instances s)) = Some r').
  edestruct (keyed_insert wir_key (ws_instances s) (wir_id r) r') as [_ Hf]; [apply Hs| | |].
  - intros j v' Hj Hkj. eapply (wok_instances_unique s Hs); [exact Hj|exact Hr|congruence].
  - intros v' Hv'. congruence.
  - rewrite Hf. by rewrite decide_True.
Qed.

(** A peer's advance of a live instance by an event with an enabled transition takes it. *)
Lemma mirror_advances opts s w r t tr :
  ws_ok s → no_panic (ws_registry s) → irepo_find (ao_instance_id opts) (ws_instances s) = Some r →
  wi_status (wir_data r) = StActive ∨ wi_status (wir_data r) = StError → key_seen (ao_idempotency_key opts) (wir_data r) = false →
  trepo_find (wi_template_id (wir_data r)) (Some (wi_template_version (wir_data r))) (ws_templates s) = Some t →
  enabled_transition (wtr_template t) (wir_data r) (ao_event opts) = Some tr →
  ∃ ar ts now s' w', let r' := wir_set_data (advance_data opts (wtr_template t) tr ar ts (wir_data r)) now r in
    advance_mirror opts s w = (Ok r', s', w') ∧ irepo_find (ao_instance_id opts) (ws_instances s') = Some r'.
Proof.
  intros Hs Hnp Hr Hlive Hk Ht Htr. destruct (loaded_facts _ _ _ Hs Hr) as (Hkr & Hl & _).
  destruct (run_action_lenient opts (wtr_template t) (wir_data r) tr s w Hnp) as (ar & w1 & Hra).
  unfold advance_mirror, advance_inner, advance_prepare, ws_load, ws_find_instance, ws_find_template. eff_simpl.
  rewrite Hr. cbn. destruct Hlive as [-> | ->]; cbn; rewrite Hk; cbn; rewrite Ht; cbn; rewrite Htr, Hra; cbn;
    unfold advance_commit, mbind, eff_bind, ws_update_instance, irepo_update; cbn; rewrite Hl; eff_simpl;
    destruct (state_is_final _ _); cbn; eexists ar, _, _, _, _; (split; [reflexivity|]); cbn;
    rewrite <-Hkr; by apply irepo_find_insert.
Qed.

Lemma advance_seen opts lenient s w r :
  irepo_find (ao_instance_id opts) (ws_instances s) = Some r →
  wi_status (wir_data r) = StActive ∨ wi_status (wir_data r) = StError → key_seen (ao_idempotency_key opts) (wir_data r) = true →
  advance_inner opts lenient s w = (Ok r, s, w).
Proof.
  intros Hr Hlive Hk. unfold advance_inner, advance_prepare, ws_load, ws_find_instance. eff_simpl. rewrite Hr. cbn.
  by destruct Hlive as [-> | ->]; cbn; rewrite Hk.
Qed.

Lemma mirror_refuses opts s w r :
  irepo_find (ao_instance_id opts) (ws_instances s) = Some r → key_seen (ao_idempotency_key opts) (wir_data r) = false →
  (∀ t, trepo_find (wi_template_id (wir_data r)) (Some (wi_template_version (wir_data r))) (ws_templates s) = Some t →
     enabled_transition (wtr_template t) (wir_data r) (ao_event opts) = None) →
  ∃ e, advance_mirror opts s w = (Err e, s, w).
Proof.
  intros Hr Hk Ht. unfold advance_mirror, advance_inner, advance_prepare, ws_load, ws_find_instance, ws_find_template. eff_simpl.
  rewrite Hr. cbn. destruct (wi_status (wir_data r)); cbn; try (by eexists); rewrite Hk; cbn;
    (destruct (trepo_find _ _ _) as [t|]; cbn; [rewrite (Ht t eq_refl)|]; by eexists).
Qed.

(** [status] offers exactly the events that can be taken: for an active instance, a peer's advance
    by an offered event succeeds and stores the instance in the target of a declared
    transition by that event, whatever the actions reply; by any other event it fails and
    changes nothing. *)
Theorem status_offers_what_advances s w so msg r ev key input :
  ws_ok s → no_panic (ws_registry s) → (ws_status so s w).1.1 = Ok (msg, r) →
  wi_status (wir_data r) = StActive → key_seen key (wir_data r) = false →
  let opts := mkAdvanceOptions (sto_instance_id so) ev key input in
  if decide (ev ∈ sm_allowed_events msg)
  then ∃ r' s' w' t tr, advance_mirror opts s w = (Ok r', s', w') ∧ tr ∈ wt_transitions t ∧
         td_from tr = wi_state (wir_data r) ∧ td_on tr = ev ∧ wi_state (wir_data r') = td_to tr ∧
         irepo_find (sto_instance_id so) (ws_instances s') = Some r'
  else ∃ e, advance_mirror opts s w = (Err e, s, w).
Proof.
  intros Hs Hnp Hst Hact Hkey opts. revert Hst. unfold ws_status, ws_load, ws_find_instance, ws_find_template. eff_simpl.
  destruct (irepo_find (sto_instance_id so) (ws_instances s)) as [r0|] eqn:Hr; [|done]. cbn. intros [= <- ->]. cbn.
  destruct (trepo_find _ _ _) as [t|] eqn:Ht; cbn; case_decide as Hev.
  - apply allowed_events_enabled in Hev as [tr Htr].
    destruct (mirror_advances opts s w r t tr Hs Hnp Hr (or_introl Hact) Hkey Ht Htr) as (ar & ts & now & s' & w' & Hadv & Hget).
    apply enabled_transition_elem in Htr as (? & ? & ?). eexists _, s', w', (wtr_template t), tr. by split_and!.
  - apply (mirror_refuses opts s w r Hr Hkey). intros t'. rewrite Ht. intros [= <-].
    rewrite allowed_events_enabled in Hev. change (ao_event opts) with ev.
    destruct (enabled_transition _ _ _); [by destruct Hev; eexists|done].
  - by apply elem_of_nil in Hev.
  - apply (mirror_refuses opts s w r Hr Hkey). intros t'. by rewrite Ht.
Qed.

(** ** Idempotency keys *)

Lemma push_key_elem k keys : k ∈ push_idempotency_key (Some k) keys.
Proof.
  unfold push_idempotency_key, IDEMPOTENCY_HISTORY_LIMIT. rewrite length_app. cbn.
  rewrite drop_app_le by lia. apply elem_of_app. right. by left.
Qed.

Lemma push_key_nodup key d :
  NoDup (wi_idempotency_keys d) → key_seen key d = false → NoDup (push_idempotency_key key (wi_idempotency_keys d)).
Proof.
  unfold push_idempotency_key, key_seen. destruct key as [k|]; [|done]. intros Hnd Hk%bool_decide_eq_false.
  eapply sublist_NoDup; [|apply sublist_drop]. apply NoDup_app. split_and!; [done| |apply NoDup_singleton]. set_solver.
Qed.

Lemma push_key_length key keys :
  (length keys ≤ IDEMPOTENCY_HISTORY_LIMIT)%nat → (length (push_idempotency_key key keys) ≤ IDEMPOTENCY_HISTORY_LIMIT)%nat.
Proof. unfold push_idempotency_key. destruct key; [|done]. rewrite length_drop. intros. lia. Qed.

(** Advancing is idempotent: when an advance with a key has succeeded, any advance of the
    instance with the same key, whatever event, input or mode it carries, changes nothing; it
    returns the same record, or says that the instance is completed if the first one
    completed it. *)
Theorem advance_idempotent opts lenient s w r s1 w1 k opts' lenient' w2 :
  ws_ok s → advance_inner opts lenient s w = (Ok r, s1, w1) →
  ao_idempotency_key opts = Some k → ao_idempotency_key opts' = Some k → ao_instance_id opts' = ao_instance_id opts →
  advance_inner opts' lenient' s1 w2 =
    (if decide (wi_status (wir_data r) = StCompleted) then Err (InvalidStatus StCompleted "advance") else Ok r, s1, w2).
Proof.
  intros Hs Hadv Hk Hk' Hid.
  assert (irepo_find (ao_instance_id opts) (ws_instances s1) = Some r ∧ key_seen (Some k) (wir_data r) = true ∧
    (wi_status (wir_data r) ≠ StPaused ∧ wi_status (wir_data r) ≠ StCanceled)) as (Hr & Hseen & Hst).
  { pose proof Hadv as [[-> Hd]|(r0 & r' & t & tr & ar & ts & now & bus & Hr & [= <-] & Hst & _ & _ & _ & -> & -> & _)]%advance_cases.
    - destruct (Hd r eq_refl) as (Hr & Hst & Hseen). rewrite Hk in Hseen. split_and!; [done|done|by destruct Hst as [->| ->]..].
    - destruct (loaded_facts _ _ _ Hs Hr) as (Hkr & Hl & _). split_and!.
      + cbn. rewrite <-Hkr. by apply irepo_find_insert.
      + cbn. rewrite Hk. apply bool_decide_eq_true. apply push_key_elem.
      + cbn. destruct (state_is_final _ _); [done|]. by destruct Hst as [->| ->].
      + cbn. destruct (state_is_final _ _); [done|]. by destruct Hst as [->| ->]. }
  unfold advance_inner, advance_prepare, ws_load, ws_find_instance. eff_simpl. rewrite Hid, Hr. cbn. rewrite Hk', Hseen.
  by destruct (wi_status (wir_data r)); destruct Hst.
Qed.

(** What holds of the data of every instance: enough for the calls that build or change one. *)
Definition all_instances (P : WorkflowInstanceData → Prop) s : Prop := ∀ i r, ws_instances s !! i = Some r → P (wir_data r).

Lemma all_instances_insert (P : WorkflowInstanceData → Prop) s r bus :
  all_instances P s → P (wir_data r) → all_instances P (with_bus (ws_set_instances (<[wir_id r := r]> (ws_instances s)) s) bus).
Proof. intros Hs Hr i r'. cbn. rewrite lookup_insert_Some. intros [[_ <-]|[_ Hi]]; [done|by eapply Hs]. Qed.

Lemma change_all_instances (P : WorkflowInstanceData → Prop) iid f s w res s' w' :
  (∀ d, P d → P (f d)) → all_instances P s → ws_change iid f s w = (res, s', w') → all_instances P s'.
Proof.
  intros Hf Hs [(-> & _ & _)|(r & now & Hr & _ & -> & _)]%change_cases; [done|].
  apply (all_instances_insert P s (wir_set_data (f (wir_data r)) now r) (ws_event_bus s)); [done|]. cbn. apply Hf.
  apply keyed_find_elem in Hr as (i & Hi & _). by eapply Hs.
Qed.

Section data_invariant.
Context (P : WorkflowInstanceData → Prop).
Context (Pstart : ∀ opts t sd iid, P (start_instance opts t sd iid)).
Context (Padvance : ∀ opts t tr ar ts d, P d → key_seen (ao_idempotency_key opts) d = false → P (advance_data opts t tr ar ts d)).
Context (Pstatus : ∀ st d, P d → P (wi_set_status st d)).
Context (Pcontext : ∀ c d, P d → P (wi_set_context c d)).
Context (Partifacts : ∀ c d, P d → P (wi_set_artifacts c d)).

Lemma exec_all_instances c s w : all_instances P s → all_instances P (wf_exec c s w).1.
Proof.
  intros Hs. destruct c as [t|id|opts|opts lenient|iid reason|iid reason|iid reason|iid reason|iid patch|iid patch|opts]; cbn.
  - unfold wf_run. destruct (publish_template t s w) as [[res s'] w'] eqn:E.
    by apply publish_cases in E as [(-> & _ & _)|(r & _ & -> & _)].
  - unfold wf_run. destruct (delete_template id s w) as [[res s'] w'] eqn:E. by apply delete_cases in E as (m & -> & _ & _).
  - unfold wf_run. destruct (ws_start opts s w) as [[res s'] w'] eqn:E.
    apply start_cases in E as [[-> _]|(t & sd & iid & r & bus & _ & _ & _ & _ & _ & _ & Hd & ->)]; [done|].
    apply all_instances_insert; [done|]. by rewrite Hd.
  - unfold wf_run. destruct (advance_inner opts lenient s w) as [[res s'] w'] eqn:E.
    apply advance_cases in E as [[-> _]|(r & r' & t & tr & ar & ts & now & bus & Hr & _ & _ & Hk & _ & _ & Hr' & -> & _)]; [done|].
    replace (wir_id r) with (wir_id r') by by rewrite Hr'.
    apply all_instances_insert; [done|]. rewrite Hr'. cbn. apply Padvance; [|done].
    apply keyed_find_elem in Hr as (i & Hi & _). by eapply Hs.
  - unfold wf_run, ws_pause, mbind, eff_bind. destruct (ws_change _ _ s w) as [[[[st r]|e|] s'] w'] eqn:E;
      eapply change_all_instances in E; eauto; exact E.
  - unfold wf_run, ws_resume, mbind, eff_bind. destruct (ws_change _ _ s w) as [[[[st r]|e|] s'] w'] eqn:E;
      eapply change_all_instances in E; eauto; exact E.
  - unfold wf_run, ws_cancel, mbind, eff_bind. destruct (ws_change _ _ s w) as [[[[st r]|e|] s'] w'] eqn:E;
      eapply change_all_instances in E; eauto; exact E.
  - by rewrite complete_same.
  - unfold wf_run, update_context, fmap, eff_fmap. destruct (ws_change _ _ s w) as [[[[st r]|e|] s'] w'] eqn:E;
      eapply change_all_instances in E; eauto; exact E.
  - unfold wf_run, append_artifacts, fmap, eff_fmap. destruct (ws_change _ _ s w) as [[[[st r]|e|] s'] w'] eqn:E;
      eapply change_all_instances in E; eauto; exact E.
  - by rewrite status_same.
Qed.
End data_invariant.

(** Whatever is called, an instance remembers at most the last hundred idempotency keys, and no
    key twice. *)
Theorem idempotency_keys_bounded reg cs w i r :
  ws_instances (wf_execs cs (ws_new reg) w).1 !! i = Some r →
  (length (wi_idempotency_keys (wir_data r)) ≤ IDEMPOTENCY_HISTORY_LIMIT)%nat ∧ NoDup (wi_idempotency_keys (wir_data r)).
Proof.
  enough (Hall : all_instances (λ d, (length (wi_idempotency_keys d) ≤ IDEMPOTENCY_HISTORY_LIMIT)%nat ∧ NoDup (wi_idempotency_keys d))
    (wf_execs cs (ws_new reg) w).1) by apply Hall.
  apply (along_execs (λ _ _ _, True)).
  - clear. intros c s w Hs _. apply exec_all_instances; [| |done..|exact Hs].
    + intros. cbn. split; [lia|constructor].
    + intros opts t tr ar ts d [Hlen Hnd] Hk. split; [by apply push_key_length|by apply push_key_nodup].
  - by intros ??.
  - clear. generalize (ws_new reg). revert w. induction cs as [|c cs IH]; intros w s; [done|]. split; [done|apply IH].
Qed.
End runs.
