(* ===== verification/WorkflowQueue.v ===== *)
(** The command queue of the workflow protocol,
    [src/protocols/workflow/src/queue/command_queue.rs] over the in-memory
    [repository/command_repository.rs].

    The worker is one loop that polls, claims what it found one record after the other and
    spawns a task per claim; a task holds its own copy of the record and writes it back
    when the handler ends or times out.  The state of the step relation is the repository,
    the batch that is being claimed and the running tasks; every interleaving is a
    sequence of steps. *)
From stdpp Require Import relations.
From S2P Require Import Prelude AjnaTypes Workflow WorkflowService WorkflowSpec.

(** * Commands *)

(** [src/protocols/workflow/src/repository/command_record.rs:47-57] CommandType *)
Inductive CommandType := CmdStart | CmdAdvance | CmdPause | CmdResume | CmdCancel | CmdComplete.
#[export] Instance CommandType_eq_dec : EqDecision CommandType.
Proof. solve_decision. Defined.

(** [src/protocols/workflow/src/repository/command_record.rs:72-80] CommandStatus *)
Inductive CommandStatus := CsPending | CsProcessing | CsCompleted | CsFailed.
#[export] Instance CommandStatus_eq_dec : EqDecision CommandStatus.
Proof. solve_decision. Defined.

(** [src/protocols/workflow/src/repository/command_record.rs:6-23] WorkflowCommandRecord *)
Record WorkflowCommandRecord := mkCommandRecord {
  cr_id : string;
  cr_cmd : CommandType;
  cr_thid : string;
  cr_connection_id : option string;
  cr_idempotency_key : option string;
  cr_payload : Json;
  cr_status : CommandStatus;
  cr_attempts : N;
  cr_last_attempt_at : option Instant;
  cr_error : option string;
  cr_created_at : Instant
}.

(** [src/protocols/workflow/src/repository/command_record.rs:26-45] WorkflowCommandRecord::new *)
Definition cr_new `{UuidText} (cmd : CommandType) (thid : string) (connection_id idempotency_key : option string)
    (payload : Json) (w : World) : WorkflowCommandRecord * World :=
  let '(id, w) := uuid_new_v4 w in
  let '(now, w) := utc_now w in
  (mkCommandRecord (uuid_to_string id) cmd thid connection_id idempotency_key payload CsPending 0 None None now, w).

Definition cr_update (status : CommandStatus) (attempts : N) (last : option Instant) (error : option string)
    (r : WorkflowCommandRecord) : WorkflowCommandRecord :=
  mkCommandRecord (cr_id r) (cr_cmd r) (cr_thid r) (cr_connection_id r) (cr_idempotency_key r) (cr_payload r)
    status attempts last error (cr_created_at r).

Abbreviation Commands := (gmap string WorkflowCommandRecord).

Section repository.
Context `{HashOrder}.

(** [src/protocols/workflow/src/repository/command_repository.rs:50-60] WorkflowCommandRepository::save, update *)
Definition crepo_put (r : WorkflowCommandRecord) (m : Commands) : Commands := <[cr_id r := r]> m.

(** [src/protocols/workflow/src/repository/command_repository.rs:62-69] WorkflowCommandRepository::find_pending *)
Definition crepo_find_pending (m : Commands) : list WorkflowCommandRecord :=
  filter (λ r, cr_status r = CsPending) (repo_values m).

(** [src/protocols/workflow/src/repository/command_repository.rs:71-78] WorkflowCommandRepository::find_by_thid *)
Definition crepo_find_by_thid (thid : string) (m : Commands) : list WorkflowCommandRecord :=
  filter (λ r, cr_thid r = thid) (repo_values m).

(** [src/protocols/workflow/src/repository/command_repository.rs:80-94] WorkflowCommandRepository::find_by_cmd_and_thid_pending *)
Definition crepo_find_by_cmd_and_thid_pending (cmd : CommandType) (thid : string) (m : Commands) : option WorkflowCommandRecord :=
  find_first (λ r, cr_cmd r = cmd ∧ cr_thid r = thid ∧ (cr_status r = CsPending ∨ cr_status r = CsProcessing)) (repo_values m).

(** [src/protocols/workflow/src/repository/command_repository.rs:96-115] WorkflowCommandRepository::find_pending_starts_by_template *)
Definition crepo_find_pending_starts_by_template (template_id : string) (m : Commands) : list WorkflowCommandRecord :=
  filter (λ r, cr_cmd r = CmdStart ∧ cr_status r = CsPending ∧
            (json_get "template_id" (cr_payload r) ≫= json_as_str) = Some template_id) (repo_values m).

(** [src/protocols/workflow/src/repository/command_repository.rs:117-132] WorkflowCommandRepository::delete_completed_before *)
Definition crepo_delete_completed_before (before : Instant) (m : Commands) : nat * Commands :=
  let to_delete := cr_id <$>
    filter (λ r, (cr_status r = CsCompleted ∨ cr_status r = CsFailed) ∧ (cr_created_at r < before)%Z) (repo_values m) in
  (length to_delete, foldl (λ m id, delete id m) m to_delete).

(** [src/protocols/workflow/src/repository/command_repository.rs:134-138] WorkflowCommandRepository::delete *)
Definition crepo_delete (id : string) (m : Commands) : Commands := delete id m.
End repository.

(** * The queue *)

(** [src/protocols/workflow/src/queue/command_queue.rs:17-24] CommandQueueConfig (durations in nanoseconds) *)
Record CommandQueueConfig := mkQueueConfig {
  qc_poll_interval : Z;
  qc_concurrency : nat;
  qc_processing_timeout : Z;
  qc_max_attempts : N;
  qc_completed_retention : Z;
  qc_failed_retention : Z
}.

(** [src/protocols/workflow/src/queue/command_queue.rs:26-37] CommandQueueConfig::default *)
Definition queue_config_default : CommandQueueConfig :=
  mkQueueConfig 100000000 3 30000000000 3 3600000000000 86400000000000.

(** [src/protocols/workflow/src/queue/command_queue.rs:65-98] PersistentCommandQueue::enqueue *)
Definition cq_enqueue `{HashOrder} `{UuidText} (cmd : CommandType) (thid : string) (connection_id idempotency_key : option string)
    (payload : Json) : eff WorkflowError Commands unit :=
  existing ← eff_gets (crepo_find_by_cmd_and_thid_pending cmd thid);
  match existing with
  | Some _ => mret tt
  | None =>
      record ← eff_world (cr_new cmd thid connection_id idempotency_key payload);
      eff_modify (crepo_put record)
  end.

(** How a handler ends: in time with a result, or not in time. *)
Inductive JobResult := JobOk | JobErr (e : WorkflowError) | JobTimeout.

Definition u32_modulus : N := 4294967296%N.

(** [src/protocols/workflow/src/queue/command_queue.rs:126-132] PersistentCommandQueue::start_worker (mark as processing) *)
Definition claim_record (now : Instant) (r : WorkflowCommandRecord) : WorkflowCommandRecord :=
  cr_update CsProcessing ((cr_attempts r + 1) mod u32_modulus)%N (Some now) (cr_error r) r.

Definition give_up_or_retry (max_attempts : N) (error : string) (r : WorkflowCommandRecord) : WorkflowCommandRecord :=
  cr_update (if decide (max_attempts ≤ cr_attempts r)%N then CsFailed else CsPending) (cr_attempts r) (cr_last_attempt_at r)
    (Some error) r.

Section worker.
Context (config : CommandQueueConfig) (error_text : WorkflowError → string).

(** [src/protocols/workflow/src/queue/command_queue.rs:139-210] PersistentCommandQueue::start_worker (the end of a task) *)
Definition finish_record (result : JobResult) (r : WorkflowCommandRecord) : WorkflowCommandRecord :=
  match result with
  | JobOk => cr_update CsCompleted (cr_attempts r) (cr_last_attempt_at r) (cr_error r) r
  | JobErr (TemplateNotFound s) =>
      cr_update CsPending (N.pred (cr_attempts r)) (cr_last_attempt_at r) (Some (error_text (TemplateNotFound s))) r
  | JobErr e => give_up_or_retry (qc_max_attempts config) (error_text e) r
  | JobTimeout => give_up_or_retry (qc_max_attempts config) "Processing timeout" r
  end.

(** The worker: the repository, the rest of the batch of the last poll and the records of
    the running tasks. *)
Record Worker := mkWorker {
  wk_commands : Commands;
  wk_batch : list WorkflowCommandRecord;
  wk_tasks : list WorkflowCommandRecord
}.

Context `{HashOrder} `{UuidText}.

(** [src/protocols/workflow/src/queue/command_queue.rs:121-124] PersistentCommandQueue::start_worker (a poll) *)
Definition worker_poll (k : Worker) : Worker :=
  mkWorker (wk_commands k) (take (qc_concurrency config) (crepo_find_pending (wk_commands k))) (wk_tasks k).

(** [src/protocols/workflow/src/queue/command_queue.rs:126-142] PersistentCommandQueue::start_worker (a claim and its task) *)
Definition worker_claim (now : Instant) (k : Worker) : Worker :=
  match wk_batch k with
  | [] => k
  | r :: batch =>
      let r := claim_record now r in
      mkWorker (crepo_put r (wk_commands k)) batch (wk_tasks k ++ [r])
  end.

Definition worker_finish (i : nat) (result : JobResult) (k : Worker) : Worker :=
  match wk_tasks k !! i with
  | None => k
  | Some r => mkWorker (crepo_put (finish_record result r) (wk_commands k)) (wk_batch k) (delete i (wk_tasks k))
  end.

(** [src/protocols/workflow/src/queue/command_queue.rs:218-228] PersistentCommandQueue::start_worker (the periodic cleanup) *)
Definition worker_cleanup (now : Instant) (k : Worker) : Worker :=
  mkWorker (crepo_delete_completed_before (now - qc_completed_retention config)%Z (wk_commands k)).2 (wk_batch k) (wk_tasks k).

Definition is_deferral (result : JobResult) : bool :=
  match result with JobErr (TemplateNotFound _) => true | _ => false end.

(** The steps of the worker that work on commands: polls that find something, claims, and ends
    of tasks that are not deferrals. *)
Inductive work_step (k : Worker) : Worker → Prop :=
  | WS_poll : wk_batch k = [] → wk_batch (worker_poll k) ≠ [] → work_step k (worker_poll k)
  | WS_claim now : wk_batch k ≠ [] → work_step k (worker_claim now k)
  | WS_finish i result : is_Some (wk_tasks k !! i) → is_deferral result = false → work_step k (worker_finish i result k).

(** Every step: the former, deferrals, commands that arrive, cleanups between polls. *)
Inductive worker_step (k : Worker) : Worker → Prop :=
  | WK_work k' : work_step k k' → worker_step k k'
  | WK_defer i s : worker_step k (worker_finish i (JobErr (TemplateNotFound s)) k)
  | WK_enqueue cmd thid conn key payload w :
      wk_commands k !! uuid_to_string (uuid_new_v4 w).1 = None →
      worker_step k (mkWorker (cq_enqueue cmd thid conn key payload (wk_commands k) w).1.2 (wk_batch k) (wk_tasks k))
  | WK_cleanup now : wk_batch k = [] → worker_step k (worker_cleanup now k).
End worker.

(** * The invariant *)
Section invariant.
Context (config : CommandQueueConfig) (error_text : WorkflowError → string) `{HashOrder} `{UuidText}.
Context (Hmax0 : (0 < qc_max_attempts config)%N) (Hmax : (qc_max_attempts config < u32_modulus)%N).
#[local] Abbreviation max := (qc_max_attempts config).
Implicit Types (k : Worker) (r : WorkflowCommandRecord) (m : Commands).

(** The number of attempts a record may have in its status. *)
Definition attempts_ok r : Prop :=
  match cr_status r with
  | CsPending => (cr_attempts r < max)%N
  | CsProcessing => (0 < cr_attempts r ≤ max)%N
  | CsCompleted | CsFailed => (cr_attempts r ≤ max)%N
  end.

(** A running task holds the stored record, which is being processed; a record that is being
    processed has a task; the batch holds stored pending records; nothing is held twice. *)
Record worker_ok k : Prop := {
  kok_ids : ∀ i r, wk_commands k !! i = Some r → cr_id r = i ∧ attempts_ok r;
  kok_tasks : ∀ r, r ∈ wk_tasks k → wk_commands k !! cr_id r = Some r ∧ cr_status r = CsProcessing;
  kok_processing : ∀ i r, wk_commands k !! i = Some r → cr_status r = CsProcessing → r ∈ wk_tasks k;
  kok_tasks_nodup : NoDup (cr_id <$> wk_tasks k);
  kok_batch : ∀ r, r ∈ wk_batch k → wk_commands k !! cr_id r = Some r ∧ cr_status r = CsPending;
  kok_batch_nodup : NoDup (cr_id <$> wk_batch k)
}.

Lemma claim_status now r : cr_status (claim_record now r) = CsProcessing ∧ cr_id (claim_record now r) = cr_id r.
Proof. done. Qed.

Lemma claim_attempts now r : attempts_ok r → cr_status r = CsPending → cr_attempts (claim_record now r) = (cr_attempts r + 1)%N.
Proof. unfold attempts_ok. intros Hr Hs. rewrite Hs in Hr. cbn. apply N.mod_small. unfold u32_modulus in *. lia. Qed.

Lemma claim_ok now r : attempts_ok r → cr_status r = CsPending → attempts_ok (claim_record now r).
Proof.
  intros Hr Hs. pose proof (claim_attempts now r Hr Hs) as Ha. unfold attempts_ok in *. rewrite Hs in Hr.
  change (cr_status (claim_record now r)) with CsProcessing. cbn [cr_attempts] in *. rewrite Ha. lia.
Qed.

Lemma finish_facts result r :
  attempts_ok r → cr_status r = CsProcessing →
  let r' := finish_record config error_text result r in
  cr_id r' = cr_id r ∧ attempts_ok r' ∧ cr_status r' ≠ CsProcessing ∧
  (is_deferral result = false → cr_attempts r' = cr_attempts r).
Proof.
  unfold attempts_ok. intros Hr Hs. rewrite Hs in Hr.
  destruct result as [|[]|]; cbn -[N.pred]; unfold give_up_or_retry, cr_update; cbn -[N.pred]; repeat case_decide; cbn -[N.pred];
    split_and!; try done; lia.
Qed.

Lemma pending_elem m r : r ∈ crepo_find_pending m ↔ cr_status r = CsPending ∧ ∃ i, m !! i = Some r.
Proof. unfold crepo_find_pending. by rewrite list_elem_of_filter, elem_of_repo_values. Qed.

Lemma pending_nodup k : worker_ok k → NoDup (cr_id <$> crepo_find_pending (wk_commands k)).
Proof.
  intros Hk. unfold crepo_find_pending.
  assert (Hv : cr_id <$> repo_values (wk_commands k) = (map_iter (wk_commands k)).*1).
  { unfold repo_values. rewrite <-list_fmap_compose. apply list_fmap_ext. intros i [j r] Hj. cbn.
    apply list_elem_of_lookup_2, elem_of_map_iter in Hj. by apply (kok_ids k Hk). }
  apply (sublist_NoDup _ (cr_id <$> repo_values (wk_commands k))); [rewrite Hv; apply NoDup_fst_map_iter|].
  apply fmap_sublist, sublist_filter.
Qed.

Lemma poll_ok k : worker_ok k → worker_ok (worker_poll config k).
Proof.
  intros Hk. destruct Hk as [H1 H2 H3 H4 H5 H6] eqn:E. split; cbn; try done.
  - intros r Hr. apply elem_of_take in Hr as (j & Hp%list_elem_of_lookup_2 & _).
    apply pending_elem in Hp as [Hs [i Hi]]. destruct (H1 i r Hi) as [-> _]. done.
  - eapply sublist_NoDup; [by apply pending_nodup|]. apply fmap_sublist, sublist_take.
Qed.

Lemma claim_step_ok now k : worker_ok k → worker_ok (worker_claim now k).
Proof.
  intros Hk. unfold worker_claim. destruct (wk_batch k) as [|r batch] eqn:Hb; [done|].
  destruct (kok_batch k Hk r) as [Hr Hs]; [rewrite Hb; left|]. destruct (kok_ids k Hk _ _ Hr) as [_ Ha].
  assert (Hnot : ∀ t, t ∈ wk_tasks k → cr_id t ≠ cr_id r).
  { intros t Ht Heq. destruct (kok_tasks k Hk t Ht) as [Ht1 Ht2]. rewrite Heq, Hr in Ht1. congruence. }
  pose proof (kok_batch_nodup k Hk) as Hnd. rewrite Hb in Hnd. apply NoDup_cons in Hnd as [Hnr Hnd].
  split; cbn -[claim_record]; unfold crepo_put; change (cr_id (claim_record now r)) with (cr_id r).
  - intros i r'. rewrite lookup_insert_Some. intros [[<- <-]|[_ Hi]]; [|by apply (kok_ids k Hk)]. split; [done|by apply claim_ok].
  - intros t. rewrite elem_of_app, list_elem_of_singleton. intros [Ht| ->].
    + rewrite lookup_insert_ne; [by apply (kok_tasks k Hk)|]. intros Heq. by apply (Hnot t).
    + by rewrite lookup_insert_eq.
  - intros i t. rewrite lookup_insert_Some, elem_of_app, list_elem_of_singleton.
    intros [[_ <-]|[_ Hi]] Hst; [by right|]. left. by eapply (kok_processing k Hk).
  - rewrite fmap_app, NoDup_app. split_and!; [apply (kok_tasks_nodup k Hk)| |apply NoDup_singleton].
    intros x (t & -> & Ht)%list_elem_of_fmap. change (cr_id <$> [claim_record now r]) with [cr_id r].
    rewrite list_elem_of_singleton. by apply Hnot.
  - intros b Hbin. destruct (kok_batch k Hk b) as [? ?]; [rewrite Hb; by right|]. split; [|done].
    rewrite lookup_insert_ne; [done|]. intros Heq. apply Hnr. rewrite Heq. by apply list_elem_of_fmap_2.
  - done.
Qed.

Lemma finish_step_ok i result k : worker_ok k → worker_ok (worker_finish config error_text i result k).
Proof.
  intros Hk. unfold worker_finish. destruct (wk_tasks k !! i) as [r|] eqn:Hi; [|done].
  pose proof (list_elem_of_lookup_2 _ _ _ Hi) as Hin. destruct (kok_tasks k Hk r Hin) as [Hr Hs].
  destruct (kok_ids k Hk _ _ Hr) as [_ Ha].
  destruct (finish_facts result r Ha Hs) as (Hid & Hok & Hnp & _). revert Hid Hok Hnp.
  generalize (finish_record config error_text result r). intros r' Hid Hok Hnp.
  pose proof (delete_Permutation _ _ _ Hi) as Hp. pose proof (kok_tasks_nodup k Hk) as Hnd. rewrite Hp in Hnd.
  apply NoDup_cons in Hnd as [Hnr Hnd].
  split; cbn; unfold crepo_put; rewrite ?Hid.
  - intros j q. rewrite lookup_insert_Some. intros [[<- <-]|[_ Hj]]; [done|by apply (kok_ids k Hk)].
  - intros t Ht. rewrite lookup_insert_ne.
    + apply (kok_tasks k Hk). rewrite Hp. by right.
    + intros Heq. apply Hnr. rewrite Heq. by apply list_elem_of_fmap_2.
  - intros j t. rewrite lookup_insert_Some. intros [[_ <-]|[Hne Hj]] Hst; [done|].
    pose proof (kok_processing k Hk _ _ Hj Hst) as Ht. rewrite Hp in Ht. apply elem_of_cons in Ht as [->|Ht]; [|done].
    by destruct (kok_ids k Hk _ _ Hj) as [? _].
  - done.
  - intros b Hb. destruct (kok_batch k Hk b Hb) as [Hb1 Hb2]. split; [|done]. rewrite lookup_insert_ne; [done|].
    intros Heq. rewrite <-Heq, Hr in Hb1. congruence.
  - apply (kok_batch_nodup k Hk).
Qed.

Lemma enqueue_step_ok cmd thid conn key payload w k :
  wk_commands k !! uuid_to_string (uuid_new_v4 w).1 = None → worker_ok k →
  worker_ok (mkWorker (cq_enqueue cmd thid conn key payload (wk_commands k) w).1.2 (wk_batch k) (wk_tasks k)).
Proof.
  intros Hf Hk. unfold cq_enqueue. eff_simpl. destruct (crepo_find_by_cmd_and_thid_pending _ _ _); [by destruct k|]. cbn.
  unfold crepo_put. cbn in *.
  split; cbn; try apply Hk.
  - intros i r. rewrite lookup_insert_Some. intros [[<- <-]|[_ Hi]]; [|by apply (kok_ids k Hk)]. split; [done|]. done.
  - intros t Ht. destruct (kok_tasks k Hk t Ht) as [Ht1 ?]. rewrite lookup_insert_ne; [done|]. intros Heq. rewrite <-Heq in Ht1. congruence.
  - intros i t. rewrite lookup_insert_Some. intros [[_ <-]|[_ Hi]] Hst; [done|]. by eapply (kok_processing k Hk).
  - intros t Ht. destruct (kok_batch k Hk t Ht) as [Ht1 ?]. rewrite lookup_insert_ne; [done|]. intros Heq. rewrite <-Heq in Ht1. congruence.
Qed.

Lemma cleanup_lookup before m i r :
  (∀ i r, m !! i = Some r → cr_id r = i) →
  (crepo_delete_completed_before before m).2 !! i = Some r ↔
  m !! i = Some r ∧ ¬ ((cr_status r = CsCompleted ∨ cr_status r = CsFailed) ∧ (cr_created_at r < before)%Z).
Proof.
  intros Hids. unfold crepo_delete_completed_before. cbn -[decide].
  assert (Hdel : ∀ l m', foldl (λ m id, delete id m) m' l !! i = Some r ↔ m' !! i = Some r ∧ i ∉ l).
  { induction l as [|x l IH]; intros m'; cbn; [set_solver|]. rewrite IH, lookup_delete_Some. set_solver. }
  rewrite Hdel, list_elem_of_fmap. split; intros [Hi Hn]; (split; [done|]).
  - intros Hold. apply Hn. exists r. split; [by rewrite (Hids i r)|]. apply list_elem_of_filter. split; [done|].
    apply elem_of_repo_values. by exists i.
  - intros (r' & -> & [Hold [j Hj]%elem_of_repo_values]%list_elem_of_filter). apply Hn.
    pose proof (Hids j r' Hj) as <-. congruence.
Qed.

Lemma cleanup_step_ok now k : wk_batch k = [] → worker_ok k → worker_ok (worker_cleanup config now k).
Proof.
  intros Hb Hk. assert (Hids : ∀ i r, wk_commands k !! i = Some r → cr_id r = i) by (intros; by apply (kok_ids k Hk)).
  split; cbn -[crepo_delete_completed_before]; rewrite ?Hb; try apply Hk.
  - intros i r. rewrite cleanup_lookup by done. intros [Hi _]. by apply (kok_ids k Hk).
  - intros t Ht. destruct (kok_tasks k Hk t Ht) as [Ht1 Ht2]. rewrite cleanup_lookup by done. split; [|done]. split; [done|].
    rewrite Ht2. intros [[|] _]; done.
  - intros i t. rewrite cleanup_lookup by done. intros [Hi _]. by eapply (kok_processing k Hk).
  - intros t Ht. by apply elem_of_nil in Ht.
  - constructor.
Qed.

Lemma worker_step_ok k k' : worker_ok k → worker_step config error_text k k' → worker_ok k'.
Proof.
  intros Hk [? [Hb Hne|now Hb|i result Hi Hd]|i s|cmd thid conn key payload w Hf|now Hb].
  - by apply poll_ok.
  - by apply claim_step_ok.
  - by apply finish_step_ok.
  - by apply finish_step_ok.
  - by apply enqueue_step_ok.
  - by apply cleanup_step_ok.
Qed.

Definition worker_new : Worker := mkWorker ∅ [] [].

Lemma reachable_ok k : rtc (worker_step config error_text) worker_new k → worker_ok k.
Proof.
  intros Hr. enough (∀ k0, worker_ok k0 → rtc (worker_step config error_text) k0 k → worker_ok k) as Hgen.
  { apply (Hgen worker_new); [|done]. split; cbn; try done; try (intros ? Hin; by apply elem_of_nil in Hin); constructor. }
  clear Hr. intros k0 Hk0 Hr. induction Hr; eauto using worker_step_ok.
Qed.

(** C40: However the worker, arrivals, deferrals and cleanups interleave, under a configuration
    that allows at least one attempt, the attempt counter of a command - the attempts that were
    not given back by a deferral, after which a command is retried as if it had not been
    tried - is at most the configured maximum, and below it while the command waits for its turn;
    it is processing exactly when one of the running tasks is for it, and no two tasks are for the same
    command. *)
Theorem command_attempts_bounded k i r :
  rtc (worker_step config error_text) worker_new k → wk_commands k !! i = Some r →
  (cr_attempts r ≤ max)%N ∧ (cr_status r = CsPending → (cr_attempts r < max)%N) ∧
  (cr_status r = CsProcessing ↔ r ∈ wk_tasks k) ∧ NoDup (cr_id <$> wk_tasks k).
Proof.
  intros Hk%reachable_ok Hi. pose proof (proj2 (kok_ids k Hk i r Hi)) as Ha. unfold attempts_ok in Ha. split_and!.
  - destruct (cr_status r); lia.
  - intros Hs. by rewrite Hs in Ha.
  - split; [by eapply (kok_processing k Hk)|]. by intros [_ ?]%(kok_tasks k Hk).
  - apply (kok_tasks_nodup k Hk).
Qed.

(** ** Work left *)

(** Four steps for each attempt that a command may still make, two for the one that runs. *)
Definition weight r : nat :=
  match cr_status r with
  | CsPending => 4 * N.to_nat (max - cr_attempts r)
  | CsProcessing => 4 * N.to_nat (max - cr_attempts r) + 2
  | CsCompleted | CsFailed => 0
  end.
Definition total m : nat := map_fold (λ _ r n, weight r + n) 0 m.
Definition work_left k : nat := total (wk_commands k) - length (wk_batch k).

Lemma total_delete m i r : m !! i = Some r → total m = weight r + total (delete i m).
Proof. intros Hi. unfold total. rewrite (map_fold_delete_L _ _ i r m); [done|lia|done]. Qed.
Lemma total_insert m i r r' : m !! i = Some r → total (<[i := r']> m) + weight r = total m + weight r'.
Proof.
  intros Hi. rewrite (total_delete m i r Hi), (total_delete (<[i:=r']> m) i r') by by rewrite lookup_insert_eq.
  rewrite delete_insert_eq. lia.
Qed.
Lemma total_bound m b : (∀ i r, m !! i = Some r → weight r ≤ b) → total m ≤ b * size m.
Proof.
  unfold total. induction m as [|i r m Hi IH] using map_ind; intros Hb; [rewrite map_fold_empty; lia|].
  rewrite map_fold_insert_L by (lia || done). rewrite map_size_insert_None by done.
  pose proof (Hb i r ltac:(by rewrite lookup_insert_eq)).
  assert (map_fold (λ _ r n, weight r + n) 0 m ≤ b * size m); [|lia].
  apply IH. intros j q Hj. apply (Hb j). rewrite lookup_insert_ne; [done|]. congruence.
Qed.

Lemma total_held l m :
  NoDup (cr_id <$> l) → (∀ r, r ∈ l → m !! cr_id r = Some r ∧ 4 ≤ weight r) → 4 * length l ≤ total m.
Proof.
  revert m. induction l as [|r l IH]; intros m; cbn [length]; [lia|]. rewrite fmap_cons, NoDup_cons. intros [Hnr Hnd] Hl.
  destruct (Hl r ltac:(left)) as [Hr Hw]. rewrite (total_delete m _ r Hr).
  assert (4 * length l ≤ total (delete (cr_id r) m)); [|lia]. apply IH; [done|]. intros r' Hr'.
  destruct (Hl r' ltac:(by right)) as [? ?]. split; [|done]. rewrite lookup_delete_ne; [done|].
  intros Heq. apply Hnr. rewrite Heq. by apply list_elem_of_fmap_2.
Qed.

Lemma batch_held k : worker_ok k → 4 * length (wk_batch k) ≤ total (wk_commands k).
Proof.
  intros Hk. apply total_held; [apply (kok_batch_nodup k Hk)|]. intros r Hr. destruct (kok_batch k Hk r Hr) as [Hi Hs].
  split; [done|]. pose proof (proj2 (kok_ids k Hk _ _ Hi)) as Ha. unfold attempts_ok, weight in *. rewrite Hs in *. lia.
Qed.

Lemma work_step_decreases k k' : worker_ok k → work_step config error_text k k' → work_left k' < work_left k.
Proof.
  intros Hk Hst. assert (Hk' : worker_ok k') by (by eapply worker_step_ok; [|apply WK_work]).
  pose proof (batch_held k Hk) as Hb. pose proof (batch_held k' Hk') as Hb'. revert Hb'.
  unfold work_left. destruct Hst as [He Hne|now Hne|i result [r Hi] Hd].
  - rewrite He. change (wk_commands (worker_poll config k)) with (wk_commands k).
    destruct (wk_batch (worker_poll config k)); [done|]. cbn [length]. lia.
  - unfold worker_claim. destruct (wk_batch k) as [|r batch] eqn:Eb; [done|]. cbn -[claim_record].
    destruct (kok_batch k Hk r) as [Hr Hs]; [rewrite Eb; left|]. destruct (kok_ids k Hk _ _ Hr) as [_ Ha].
    pose proof (total_insert _ _ _ (claim_record now r) Hr) as Ht. unfold crepo_put.
    change (cr_id (claim_record now r)) with (cr_id r). unfold weight in Ht. rewrite (claim_attempts now r Ha Hs) in Ht.
    change (cr_status (claim_record now r)) with CsProcessing in Ht. unfold attempts_ok in Ha. rewrite Hs in Ha, Ht.
    cbn [length] in *. lia.
  - unfold worker_finish. rewrite Hi. cbn -[finish_record].
    destruct (kok_tasks k Hk r (list_elem_of_lookup_2 _ _ _ Hi)) as [Hr Hs]. destruct (kok_ids k Hk _ _ Hr) as [_ Ha].
    destruct (finish_facts result r Ha Hs) as (Hid & Hok & Hnp & Hsame). specialize (Hsame Hd).
    pose proof (total_insert _ _ _ (finish_record config error_text result r) Hr) as Ht. unfold crepo_put. rewrite Hid.
    unfold weight in Ht. rewrite Hsame, Hs in Ht. unfold attempts_ok in Ha. rewrite Hs in Ha.
    destruct (cr_status (finish_record config error_text result r)); lia || done.
Qed.

Definition settled k : Prop := ∀ i r, wk_commands k !! i = Some r → cr_status r = CsCompleted ∨ cr_status r = CsFailed.

Lemma stuck_settled k :
  0 < qc_concurrency config → worker_ok k → (∀ k', ¬ work_step config error_text k k') → settled k.
Proof.
  intros Hc Hk Hno.
  assert (Hb : wk_batch k = []). { destruct (wk_batch k) eqn:E; [done|]. destruct (Hno (worker_claim 0 k)). constructor. by rewrite E. }
  assert (Ht : wk_tasks k = []).
  { destruct (wk_tasks k) eqn:E; [done|]. destruct (Hno (worker_finish config error_text 0 JobOk k)). constructor; [rewrite E; by eexists|done]. }
  assert (Hp : crepo_find_pending (wk_commands k) = []).
  { destruct (crepo_find_pending (wk_commands k)) eqn:E; [done|]. destruct (Hno (worker_poll config k)). constructor; [done|].
    unfold worker_poll. cbn. rewrite E. destruct (qc_concurrency config); [lia|done]. }
  intros i r Hi. destruct (cr_status r) eqn:Hs; [| |by left|by right]; exfalso.
  - assert (Hr : r ∈ crepo_find_pending (wk_commands k)) by (apply pending_elem; eauto). rewrite Hp in Hr. by apply elem_of_nil in Hr.
  - pose proof (kok_processing k Hk i r Hi Hs) as Hr. rewrite Ht in Hr. by apply elem_of_nil in Hr.
Qed.

End invariant.
