(* ===== verification/WorkflowHandler.v ===== *)
(** The message handlers of the workflow protocol, [src/protocols/workflow/src/handlers], and the
    agent's module that composes service, queue and handlers,
    [src/agent/src/modules/workflow.rs].

    The derived serializers of the bodies and the Unicode lower-casing of [str] are
    parameters.  What is sent to a peer is the list of what the callback is given, with
    the delay after which it is sent; the callback's failures are only logged. *)
From S2P Require Import Prelude AjnaTypes Storage Didcomm Workflow WorkflowService WorkflowSpec WorkflowProps WorkflowQueue.

(** * Bodies *)

(** [src/protocols/workflow/src/messages/start.rs:7-23] StartMessage *)
Record StartMessage := mkStartMessage {
  stm_template_id : string;
  stm_template_version : option string;
  stm_instance_id : option string;
  stm_connection_id : option string;
  stm_participants : option (gmap string WfParticipant);
  stm_context : option Json;
  stm_allow_discover : option bool;
  stm_template_hash : option string
}.

(** [src/protocols/workflow/src/messages/advance.rs:3-11] AdvanceMessage *)
Record AdvanceMessage := mkAdvanceMessage {
  am_instance_id : string; am_event : string; am_idempotency_key : option string; am_input : option Json
}.

(** [src/protocols/workflow/src/messages/pause.rs:3-8] PauseMessage, ResumeMessage, CancelMessage, CompleteMessage *)
Record InstanceMessage := mkInstanceMessage { im_instance_id : string; im_reason : option string }.

(** [src/protocols/workflow/src/messages/status.rs:4-17] StatusRequestMessage *)
Record StatusRequestMessage := mkStatusRequest {
  srm_instance_id : string;
  srm_include_actions : bool;
  srm_include_ui : bool;
  srm_ui_profile : option string;
  srm_viewer : option string;
  srm_capabilities : option Json
}.

(** [src/protocols/workflow/src/messages/fetch_template.rs:3-10] FetchTemplateMessage *)
Record FetchTemplateMessage := mkFetchTemplate {
  ft_template_id : string; ft_template_version : option string; ft_prefer_hash : bool
}.

(** [src/protocols/workflow/src/messages/problem_report.rs:3-10] ProblemReportMessage *)
Record WfProblemReport := mkWfProblem { wpr_code : string; wpr_comment : option string; wpr_args : option (list string) }.

(** [src/protocols/workflow/src/messages/publish_template.rs:5-10] PublishTemplateMessage *)
Record PublishTemplateMessage := mkPublishTemplate { ptm_template : WorkflowTemplate; ptm_mode : option string }.

(** [src/protocols/workflow/src/messages/discover.rs:25-31] PagingParams *)
Record PagingParams := mkPaging { pg_offset : option nat; pg_limit : option nat }.

(** [src/protocols/workflow/src/messages/discover.rs:13-23] DiscoverFilters *)
Record DiscoverFilters := mkFilters {
  df_template_id : option string; df_version : option string; df_tag : option string; df_text : option string
}.

(** [src/protocols/workflow/src/messages/discover.rs:3-11] DiscoverMessage *)
Record DiscoverMessage := mkDiscover {
  dm_filters : option DiscoverFilters; dm_paging : option PagingParams; dm_include_hash : bool
}.

(** [src/protocols/workflow/src/messages/workflows_response.rs:12-20] WorkflowSummary *)
Record WorkflowSummary := mkSummary {
  wsm_template_id : string; wsm_versions : list string; wsm_title : option string; wsm_hash : option string
}.

(** The derived serializers; [inl] is the error's text. *)
Class WorkflowBodies := {
  wb_start_from : Json → string + StartMessage;
  wb_start_to : StartMessage → string + Json;
  wb_advance_from : Json → string + AdvanceMessage;
  wb_advance_to : AdvanceMessage → string + Json;
  wb_instance_from : Json → string + InstanceMessage;
  wb_instance_to : InstanceMessage → string + Json;
  wb_status_from : Json → string + StatusRequestMessage;
  wb_status_to : StatusMessage → string + Json;
  wb_fetch_from : Json → string + FetchTemplateMessage;
  wb_fetch_to : FetchTemplateMessage → string + Json;
  wb_problem_from : Json → string + WfProblemReport;
  wb_problem_to : WfProblemReport → string + Json;
  wb_publish_from : Json → string + PublishTemplateMessage;
  wb_publish_to : PublishTemplateMessage → string + Json;
  wb_template_from : Json → string + WorkflowTemplate;
  wb_template_to : WorkflowTemplate → string + Json;
  wb_discover_from : Json → string + DiscoverMessage;
  wb_workflows_to : list WorkflowSummary → option PagingParams → string + Json;
  wb_error_text : WorkflowError → string;
  wb_to_lowercase : string → string
}.

(** What was read from a body is read again from what it is written as. *)
Class WorkflowBodiesLaws `{WorkflowBodies} : Prop := {
  wb_start_round v0 m v : wb_start_from v0 = inr m → wb_start_to m = inr v → wb_start_from v = inr m;
  wb_advance_round v0 m v : wb_advance_from v0 = inr m → wb_advance_to m = inr v → wb_advance_from v = inr m;
  wb_instance_round v0 m v : wb_instance_from v0 = inr m → wb_instance_to m = inr v → wb_instance_from v = inr m
}.

Definition WFURI (name : string) : string := "https://didcomm.org/workflow/1.0/" +:+ name.

(** * The module *)

(** [src/agent/src/modules/workflow.rs:45-59] WorkflowModule (the callback is what it was given, if it is installed) *)
Record WorkflowModule := mkWorkflowModule {
  wm_service : WorkflowService;
  wm_commands : Commands;
  wm_sent : option (list (N * string * string * Json))
}.

Definition wm_set_service (s : WorkflowService) (m : WorkflowModule) : WorkflowModule :=
  mkWorkflowModule s (wm_commands m) (wm_sent m).
Definition wm_set_commands (c : Commands) (m : WorkflowModule) : WorkflowModule :=
  mkWorkflowModule (wm_service m) c (wm_sent m).

Section handlers.
Context `{HashOrder} `{Jmespath} `{WorkflowCrates} `{UuidText} `{Rfc3339} `{WorkflowBodies}.

Abbreviation wh := (eff MessageHandlerError WorkflowModule).

Definition wb_failed (e : WorkflowError) : MessageHandlerError := ProcessingFailed (wb_error_text e).
Definition wh_service {A} (m : eff WorkflowError WorkflowService A) : wh A := eff_zoom wm_service wm_set_service wb_failed m.
Definition wh_read {A} (r : string + A) : wh A :=
  match r with inr a => mret a | inl e => eff_throw (InvalidMessage e) end.
Definition wh_write {A} (r : string + A) : wh A :=
  match r with inr a => mret a | inl e => eff_throw (ProcessingFailed e) end.
Definition wh_enqueue (cmd : CommandType) (thid : string) (connection_id key : option string) (payload : string + Json) : wh unit :=
  payload ← wh_write payload;
  eff_zoom wm_commands wm_set_commands wb_failed (cq_enqueue cmd thid connection_id key payload).

(** The reply of a handler, when both ends of the inbound message are known. *)
Definition wh_reply (inbound : InboundMessage) (type : string) (body : Json) : wh (option OutboundMessage) :=
  id ← eff_world uuid_new_v4;
  mret (from ← ctx_to (in_context inbound); to ← ctx_from (in_context inbound);
        Some (mkOutbound (msg_new (uuid_to_string id) type body) to from (ctx_connection_id (in_context inbound)))).

(** [src/protocols/workflow/src/handlers/advance_handler.rs:28-50] AdvanceHandler::handle *)
Definition wf_handle_advance (inbound : InboundMessage) : wh (option OutboundMessage) :=
  m ← wh_read (wb_advance_from (msg_body (in_message inbound)));
  _ ← wh_enqueue CmdAdvance (am_instance_id m) (ctx_connection_id (in_context inbound)) (am_idempotency_key m) (wb_advance_to m);
  mret None.

(** The handlers of the messages that name an instance and a reason. *)
Definition wf_handle_instance (cmd : CommandType) (inbound : InboundMessage) : wh (option OutboundMessage) :=
  m ← wh_read (wb_instance_from (msg_body (in_message inbound)));
  _ ← wh_enqueue cmd (im_instance_id m) (ctx_connection_id (in_context inbound)) None (wb_instance_to m);
  mret None.

(** [src/protocols/workflow/src/handlers/pause_handler.rs:28-48] PauseHandler::handle *)
Definition wf_handle_pause : InboundMessage → wh (option OutboundMessage) := wf_handle_instance CmdPause.

(** [src/protocols/workflow/src/handlers/resume_handler.rs:28-48] ResumeHandler::handle *)
Definition wf_handle_resume : InboundMessage → wh (option OutboundMessage) := wf_handle_instance CmdResume.

(** [src/protocols/workflow/src/handlers/cancel_handler.rs:28-48] CancelHandler::handle *)
Definition wf_handle_cancel : InboundMessage → wh (option OutboundMessage) := wf_handle_instance CmdCancel.

(** [src/protocols/workflow/src/handlers/complete_handler.rs:28-48] CompleteHandler::handle *)
Definition wf_handle_complete : InboundMessage → wh (option OutboundMessage) := wf_handle_instance CmdComplete.

(** [src/protocols/workflow/src/handlers/start_handler.rs:35-113] StartHandler::handle *)
Definition wf_handle_start (inbound : InboundMessage) : wh (option OutboundMessage) :=
  m ← wh_read (wb_start_from (msg_body (in_message inbound)));
  instance_id ← match stm_instance_id m with
                | Some i => mret i
                | None => uuid_to_string <$> eff_world uuid_new_v4
                end;
  _ ← wh_enqueue CmdStart instance_id (ctx_connection_id (in_context inbound)) None (wb_start_to m);
  if default true (stm_allow_discover m) then
    found ← wh_service (ws_get_template (stm_template_id m) (stm_template_version m));
    match found with
    | Some _ => mret None
    | None =>
        match ctx_to (in_context inbound), ctx_from (in_context inbound) with
        | Some from, Some to =>
            body ← wh_write (wb_fetch_to (mkFetchTemplate (stm_template_id m) (stm_template_version m) false));
            wh_reply inbound (WFURI "fetch-template") body
        | _, _ => mret None
        end
    end
  else mret None.

(** [src/protocols/workflow/src/handlers/status_handler.rs:31-87] StatusHandler::handle *)
Definition wf_handle_status (inbound : InboundMessage) : wh (option OutboundMessage) :=
  match json_get "state" (msg_body (in_message inbound)) ≫= json_as_str with
  | Some _ => mret None
  | None =>
      m ← wh_read (wb_status_from (msg_body (in_message inbound)));
      response ← wh_service (ws_status (mkStatusOptions (srm_instance_id m) (srm_include_actions m) (srm_include_ui m)
                                          (srm_ui_profile m) (srm_viewer m)));
      body ← wh_write (wb_status_to response.1);
      wh_reply inbound (WFURI "status") body
  end.

(** [src/protocols/workflow/src/handlers/fetch_template_handler.rs:30-98] FetchTemplateHandler::handle *)
Definition wf_handle_fetch_template (inbound : InboundMessage) : wh (option OutboundMessage) :=
  m ← wh_read (wb_fetch_from (msg_body (in_message inbound)));
  found ← wh_service (ws_get_template (ft_template_id m) (ft_template_version m));
  match ctx_to (in_context inbound), ctx_from (in_context inbound) with
  | Some from, Some to =>
      match found with
      | Some record =>
          body ← wh_write (wb_template_to (wtr_template record));
          wh_reply inbound (WFURI "template") body
      | None =>
          body ← wh_write (wb_problem_to (mkWfProblem "invalid_template"
                             (Some ("Template '" +:+ ft_template_id m +:+ "' not found")) None));
          wh_reply inbound (WFURI "problem-report") body
      end
  | _, _ => mret None
  end.

(** [src/protocols/workflow/src/handlers/publish_template_handler.rs:27-41] PublishTemplateHandler::handle *)
Definition wf_handle_publish_template (inbound : InboundMessage) : wh (option OutboundMessage) :=
  m ← wh_read (wb_publish_from (msg_body (in_message inbound)));
  _ ← wh_service (publish_template (ptm_template m));
  mret None.

(** [src/protocols/workflow/src/handlers/template_handler.rs:30-50] TemplateHandler::handle *)
Definition wf_handle_template (inbound : InboundMessage) : wh (option OutboundMessage) :=
  t ← wh_read (wb_template_from (msg_body (in_message inbound)));
  _ ← wh_service (publish_template t);
  mret None.

(** [src/protocols/workflow/src/handlers/problem_report_handler.rs:29-44] ProblemReportHandler::handle *)
Definition wf_handle_problem_report (inbound : InboundMessage) : wh (option OutboundMessage) :=
  _ ← wh_read (wb_problem_from (msg_body (in_message inbound)));
  mret None.

(** ** Discovery *)

(** [src/protocols/workflow/src/handlers/discover_handler.rs:47-65] DiscoverHandler::handle (the filters) *)
Definition discover_matches (filters : option DiscoverFilters) (record : WorkflowTemplateRecord) : bool :=
  match filters with
  | None => true
  | Some f =>
      match df_template_id f with Some id => bool_decide (wtr_template_id record = id) | None => true end &&
      match df_text f with
      | Some text => str_contains (wb_to_lowercase (wtr_title record)) (wb_to_lowercase text)
      | None => true
      end
  end.

(** The three maps that the loop over the templates fills. *)
Record DiscoverMaps := mkDiscoverMaps {
  dgr_versions : gmap string (list string); dgr_titles : gmap string string; dgr_hashes : gmap string string
}.

(** [src/protocols/workflow/src/handlers/discover_handler.rs:42-73] DiscoverHandler::handle (group by template_id) *)
Definition discover_group (filters : option DiscoverFilters) (all : list WorkflowTemplateRecord) : DiscoverMaps :=
  foldl (λ g record,
           if discover_matches filters record then
             let id := wtr_template_id record in
             mkDiscoverMaps (<[id := default [] (dgr_versions g !! id) ++ [wtr_version record]]> (dgr_versions g))
               (<[id := wtr_title record]> (dgr_titles g)) (<[id := wtr_hash record]> (dgr_hashes g))
           else g) (mkDiscoverMaps ∅ ∅ ∅) all.

(** [src/protocols/workflow/src/handlers/discover_handler.rs:75-97] DiscoverHandler::handle (the page) *)
Definition discover_page (m : DiscoverMessage) (g : DiscoverMaps) : list WorkflowSummary :=
  let workflows := (λ kv, mkSummary kv.1 kv.2 (dgr_titles g !! kv.1)
                            (if dm_include_hash m then dgr_hashes g !! kv.1 else None)) <$> map_iter (dgr_versions g) in
  match dm_paging m with
  | None => workflows
  | Some paging =>
      let workflows := match pg_offset paging with Some offset => drop offset workflows | None => workflows end in
      match pg_limit paging with Some limit => take limit workflows | None => workflows end
  end.

(** [src/protocols/workflow/src/handlers/discover_handler.rs:30-123] DiscoverHandler::handle *)
Definition wf_handle_discover (inbound : InboundMessage) : wh (option OutboundMessage) :=
  m ← wh_read (wb_discover_from (msg_body (in_message inbound)));
  all ← wh_service list_templates;
  body ← wh_write (wb_workflows_to (discover_page m (discover_group (dm_filters m) all)) (dm_paging m));
  wh_reply inbound (WFURI "workflows") body.

(** ** The worker's job *)

Definition job_read {A} (r : string + A) : eff WorkflowError WorkflowService A :=
  match r with inr a => mret a | inl e => eff_throw (WfSerialization e) end.

(** [src/agent/src/modules/workflow.rs:188-258] WorkflowModule::start_worker (the job of a command) *)
Definition job_handler (record : WorkflowCommandRecord) : eff WorkflowError WorkflowService unit :=
  match cr_cmd record with
  | CmdStart =>
      m ← job_read (wb_start_from (cr_payload record));
      _ ← ws_start (mkStartOptions (stm_template_id m) (stm_template_version m) (stm_instance_id m) (cr_connection_id record)
                      (stm_participants m) (stm_context m) Processor);
      mret tt
  | CmdAdvance =>
      m ← job_read (wb_advance_from (cr_payload record));
      _ ← advance_mirror (mkAdvanceOptions (am_instance_id m) (am_event m) (am_idempotency_key m) (am_input m));
      mret tt
  | CmdPause => m ← job_read (wb_instance_from (cr_payload record)); _ ← ws_pause (im_instance_id m) (im_reason m); mret tt
  | CmdResume => m ← job_read (wb_instance_from (cr_payload record)); _ ← ws_resume (im_instance_id m) (im_reason m); mret tt
  | CmdCancel => m ← job_read (wb_instance_from (cr_payload record)); _ ← ws_cancel (im_instance_id m) (im_reason m); mret tt
  | CmdComplete => m ← job_read (wb_instance_from (cr_payload record)); _ ← ws_complete (im_instance_id m) (im_reason m); mret tt
  end.

(** ** The coordinator's side *)

Abbreviation wmod := (eff WorkflowError WorkflowModule).
Definition wm_lift {A} (m : eff WorkflowError WorkflowService A) : wmod A := eff_zoom wm_service wm_set_service id m.

Definition wm_push (delay : N) (connection_id type_uri : string) (body : Json) : wmod unit :=
  eff_modify (λ m, mkWorkflowModule (wm_service m) (wm_commands m)
                     ((λ l, l ++ [(delay, connection_id, type_uri, body)]) <$> wm_sent m)).

(** [src/agent/src/modules/workflow.rs:157-164] WorkflowModule::notify_peer *)
Definition notify_peer (connection_id type_uri : string) (body : Json) : wmod unit := wm_push 0 connection_id type_uri body.
Definition notify_value (connection_id type_uri : string) (body : string + Json) : wmod unit :=
  match body with inr body => notify_peer connection_id type_uri body | inl _ => mret tt end.

(** [src/agent/src/modules/workflow.rs:280-323] WorkflowModule::start *)
Definition wm_start (opts : StartOptions) : wmod WorkflowInstanceRecord :=
  rec ← wm_lift (ws_start opts);
  match so_role opts, so_connection_id opts with
  | Coordinator, Some conn_id =>
      let d := wir_data rec in
      trec ← wm_lift (ws_get_template (wi_template_id d) (Some (wi_template_version d)));
      _ ← match trec with
          | Some trec => notify_value conn_id (WFURI "publish-template") (wb_publish_to (mkPublishTemplate (wtr_template trec) None))
          | None => mret tt
          end;
      _ ← notify_value conn_id (WFURI "start")
            (wb_start_to (mkStartMessage (wi_template_id d) (Some (wi_template_version d)) (Some (wi_instance_id d))
                            (Some conn_id) (Some (wi_participants d)) (Some (wi_context d)) (Some true) None));
      mret rec
  | _, _ => mret rec
  end.

(** [src/agent/src/modules/workflow.rs:325-343] WorkflowModule::advance *)
Definition wm_advance (opts : AdvanceOptions) : wmod WorkflowInstanceRecord :=
  let body := wb_advance_to (mkAdvanceMessage (ao_instance_id opts) (ao_event opts) (ao_idempotency_key opts) (ao_input opts)) in
  rec ← wm_lift (ws_advance opts);
  _ ← match wi_connection_id (wir_data rec) with
      | Some conn_id => notify_value conn_id (WFURI "advance") body
      | None => mret tt
      end;
  mret rec.

(** [src/agent/src/modules/workflow.rs:29-29] AUTO_ADVANCE_RESEND_DELAYS_MS *)
Definition AUTO_ADVANCE_RESEND_DELAYS_MS : list N := [1500; 3500]%N.

(** [src/agent/src/modules/workflow.rs:374-437] WorkflowModule::advance_by_connection (one instance) *)
Definition auto_advance (event : string) (inst : WorkflowInstanceRecord) : wmod unit :=
  let instance_id := wi_instance_id (wir_data inst) in
  let idem := "auto:" +:+ event +:+ ":" +:+ instance_id in
  r ← eff_catch (wm_advance (mkAdvanceOptions instance_id event (Some idem) None));
  match r with
  | inl _ => mret tt
  | inr rec =>
      match wi_connection_id (wir_data rec), wb_advance_to (mkAdvanceMessage instance_id event (Some idem) None) with
      | Some conn_id, inr body =>
          eff_for AUTO_ADVANCE_RESEND_DELAYS_MS (λ delay_ms, wm_push delay_ms conn_id (WFURI "advance") body)
      | _, _ => mret tt
      end
  end.

(** [src/agent/src/modules/workflow.rs:359-437] WorkflowModule::advance_by_connection *)
Definition advance_by_connection (connection_id event : string) : wmod unit :=
  instances ← wm_lift (eff_gets (λ s, irepo_find_by_connection connection_id (ws_instances s)));
  eff_for instances (auto_advance event).

(** ** From a message to the service *)

(** What the job of a command does to the service, by the message that was read. *)
Definition command_call (cmd : CommandType) (connection_id : option string) (body : Json) : option WfCall :=
  match cmd with
  | CmdStart =>
      match wb_start_from body with
      | inr m => Some (CallStart (mkStartOptions (stm_template_id m) (stm_template_version m) (stm_instance_id m) connection_id
                                    (stm_participants m) (stm_context m) Processor))
      | inl _ => None
      end
  | CmdAdvance =>
      match wb_advance_from body with
      | inr m => Some (CallAdvance (mkAdvanceOptions (am_instance_id m) (am_event m) (am_idempotency_key m) (am_input m)) true)
      | inl _ => None
      end
  | CmdPause => match wb_instance_from body with inr m => Some (CallPause (im_instance_id m) (im_reason m)) | inl _ => None end
  | CmdResume => match wb_instance_from body with inr m => Some (CallResume (im_instance_id m) (im_reason m)) | inl _ => None end
  | CmdCancel => match wb_instance_from body with inr m => Some (CallCancel (im_instance_id m) (im_reason m)) | inl _ => None end
  | CmdComplete => match wb_instance_from body with inr m => Some (CallComplete (im_instance_id m) (im_reason m)) | inl _ => None end
  end.

Lemma wf_run_then {A} (m : eff WorkflowError WorkflowService A) s w :
  wf_run (_ ← m; mret tt) s w = wf_run m s w.
Proof. unfold wf_run. eff_simpl. by destruct (m s w) as [[[a|e|] s1] w1]. Qed.

Lemma job_runs_call record c s w :
  command_call (cr_cmd record) (cr_connection_id record) (cr_payload record) = Some c →
  wf_run (job_handler record) s w = wf_exec c s w.
Proof.
  unfold command_call, job_handler. destruct (cr_cmd record).
  - destruct (wb_start_from _) as [e|m]; [done|]. intros [= <-]. exact (wf_run_then (ws_start _) s w).
  - destruct (wb_advance_from _) as [e|m]; [done|]. intros [= <-]. exact (wf_run_then (advance_mirror _) s w).
  - destruct (wb_instance_from _) as [e|m]; [done|]. intros [= <-]. exact (wf_run_then (ws_pause (im_instance_id m) (im_reason m)) s w).
  - destruct (wb_instance_from _) as [e|m]; [done|]. intros [= <-]. exact (wf_run_then (ws_resume (im_instance_id m) (im_reason m)) s w).
  - destruct (wb_instance_from _) as [e|m]; [done|]. intros [= <-]. exact (wf_run_then (ws_cancel (im_instance_id m) (im_reason m)) s w).
  - destruct (wb_instance_from _) as [e|m]; [done|]. intros [= <-]. exact (wf_run_then (ws_complete (im_instance_id m) (im_reason m)) s w).
Qed.

Definition command_handler (cmd : CommandType) : InboundMessage → wh (option OutboundMessage) :=
  match cmd with
  | CmdStart => wf_handle_start
  | CmdAdvance => wf_handle_advance
  | _ => wf_handle_instance cmd
  end.

Definition command_thid (cmd : CommandType) (body : Json) (thid : string) : Prop :=
  match cmd with
  | CmdStart => ∃ m, wb_start_from body = inr m ∧ stm_instance_id m = Some thid
  | CmdAdvance => ∃ m, wb_advance_from body = inr m ∧ am_instance_id m = thid
  | _ => ∃ m, wb_instance_from body = inr m ∧ im_instance_id m = thid
  end.

Lemma enqueue_fresh cmd thid conn key payload m w :
  crepo_find_by_cmd_and_thid_pending cmd thid (wm_commands m) = None →
  ∃ r w', wh_enqueue cmd thid conn key (inr payload) m w =
            (Ok tt, wm_set_commands (<[cr_id r := r]> (wm_commands m)) m, w') ∧
    cr_cmd r = cmd ∧ cr_thid r = thid ∧ cr_payload r = payload ∧ cr_connection_id r = conn ∧ cr_status r = CsPending.
Proof.
  intros Hn. unfold wh_enqueue, eff_zoom, cq_enqueue, wh_write. eff_simpl. rewrite Hn. cbn.
  exists (cr_new cmd thid conn key payload w).1, (cr_new cmd thid conn key payload w).2. split_and!; reflexivity.
Qed.

(** What a command message names: the instance it is about and the body it is stored as. *)
Definition command_reads (cmd : CommandType) (body : Json) (thid : string) (payload : Json) : Prop :=
  match cmd with
  | CmdStart => ∃ m, wb_start_from body = inr m ∧ stm_instance_id m = Some thid ∧ wb_start_to m = inr payload
  | CmdAdvance => ∃ m, wb_advance_from body = inr m ∧ am_instance_id m = thid ∧ wb_advance_to m = inr payload
  | _ => ∃ m, wb_instance_from body = inr m ∧ im_instance_id m = thid ∧ wb_instance_to m = inr payload
  end.

Lemma command_reads_call `{!WorkflowBodiesLaws} cmd conn body thid payload :
  command_reads cmd body thid payload →
  is_Some (command_call cmd conn body) ∧ command_call cmd conn payload = command_call cmd conn body.
Proof.
  unfold command_reads, command_call. destruct cmd; intros (m & Hm & _ & Hv); rewrite Hm.
  - rewrite (wb_start_round _ _ _ Hm Hv). by split; [eexists|].
  - rewrite (wb_advance_round _ _ _ Hm Hv). by split; [eexists|].
  - rewrite (wb_instance_round _ _ _ Hm Hv). by split; [eexists|].
  - rewrite (wb_instance_round _ _ _ Hm Hv). by split; [eexists|].
  - rewrite (wb_instance_round _ _ _ Hm Hv). by split; [eexists|].
  - rewrite (wb_instance_round _ _ _ Hm Hv). by split; [eexists|].
Qed.

(** The handlers that queue a command: what they store when no such command waits or runs. *)
Lemma command_queued cmd inbound thid payload m w :
  command_reads cmd (msg_body (in_message inbound)) thid payload → cmd ≠ CmdStart →
  crepo_find_by_cmd_and_thid_pending cmd thid (wm_commands m) = None →
  ∃ r w', command_handler cmd inbound m w = (Ok None, wm_set_commands (<[cr_id r := r]> (wm_commands m)) m, w') ∧
    cr_cmd r = cmd ∧ cr_thid r = thid ∧ cr_payload r = payload ∧
    cr_connection_id r = ctx_connection_id (in_context inbound) ∧ cr_status r = CsPending.
Proof.
  unfold command_reads, command_handler. intros Hr Hne Hn.
  destruct cmd; [done| | | | |]; destruct Hr as (b & Hb & <- & Hp);
    unfold wf_handle_advance, wf_handle_instance, mbind, eff_bind; rewrite Hb; cbn -[wh_enqueue]; rewrite Hp;
    (edestruct enqueue_fresh as (r & w' & Hq & Hr); [exact Hn|]; rewrite Hq; exists r, w'; by split).
Qed.

(** A command message reaches the service: when no command of its kind waits or runs for its
    instance, its handler replies nothing, leaves the service alone and queues one pending
    command; whenever the worker claims that command, its job does to the service exactly the
    call the message asks for. *)
Theorem command_reaches_service `{!WorkflowBodiesLaws} cmd inbound thid payload m w :
  command_reads cmd (msg_body (in_message inbound)) thid payload → cmd ≠ CmdStart →
  crepo_find_by_cmd_and_thid_pending cmd thid (wm_commands m) = None →
  ∃ r w' c, command_handler cmd inbound m w = (Ok None, wm_set_commands (<[cr_id r := r]> (wm_commands m)) m, w') ∧
    cr_status r = CsPending ∧
    command_call cmd (ctx_connection_id (in_context inbound)) (msg_body (in_message inbound)) = Some c ∧
    ∀ now s w, wf_run (job_handler (claim_record now r)) s w = wf_exec c s w.
Proof.
  intros Hr Hne Hn.
  destruct (command_reads_call cmd (ctx_connection_id (in_context inbound)) _ _ _ Hr) as [[c Hc] Heq].
  destruct (command_queued cmd inbound thid payload m w Hr Hne Hn) as (r & w' & Hh & Hcmd & _ & Hp & Hconn & Hst).
  exists r, w', c. split_and!; [done..|]. intros now s w0. apply job_runs_call. cbn. by rewrite Hcmd, Hp, Hconn, Heq.
Qed.

(** ** Mirrors *)

(** Two copies of an instance that agree on what decides an advance. *)
Definition mirrors (d1 d2 : WorkflowInstanceData) : Prop :=
  wi_state d1 = wi_state d2 ∧ wi_status d1 = wi_status d2 ∧ wi_context d1 = wi_context d2 ∧
  wi_participants d1 = wi_participants d2 ∧ wi_artifacts d1 = wi_artifacts d2 ∧
  wi_idempotency_keys d1 = wi_idempotency_keys d2.

(** Mirrored instances stay in step: if the coordinator's strict advance succeeds, then the advance
    of the same event at a peer whose copy agrees and whose template is the same succeeds
    too, even if the peer cannot run the action, and both copies are again in the same state
    with the same status and the same idempotency keys. *)
Theorem advance_mirrored opts s1 w1 r1 r1' s1' w1' s2 w2 r2 t1 t2 :
  ws_ok s1 → ws_ok s2 → no_panic (ws_registry s2) →
  irepo_find (ao_instance_id opts) (ws_instances s1) = Some r1 →
  irepo_find (ao_instance_id opts) (ws_instances s2) = Some r2 →
  mirrors (wir_data r1) (wir_data r2) →
  trepo_find (wi_template_id (wir_data r1)) (Some (wi_template_version (wir_data r1))) (ws_templates s1) = Some t1 →
  trepo_find (wi_template_id (wir_data r2)) (Some (wi_template_version (wir_data r2))) (ws_templates s2) = Some t2 →
  wtr_template t1 = wtr_template t2 →
  ws_advance opts s1 w1 = (Ok r1', s1', w1') →
  ∃ r2' s2' w2', advance_mirror opts s2 w2 = (Ok r2', s2', w2') ∧
    irepo_find (ao_instance_id opts) (ws_instances s2') = Some r2' ∧
    wi_state (wir_data r2') = wi_state (wir_data r1') ∧ wi_status (wir_data r2') = wi_status (wir_data r1') ∧
    wi_idempotency_keys (wir_data r2') = wi_idempotency_keys (wir_data r1').
Proof.
  intros Hs1 Hs2 Hnp Hr1 Hr2 (Hst & Hstatus & Hctx & Hpart & Hart & Hkeys) Ht1 Ht2 Ht Hadv.
  assert (Hseen : key_seen (ao_idempotency_key opts) (wir_data r2) = key_seen (ao_idempotency_key opts) (wir_data r1))
    by (unfold key_seen; by rewrite Hkeys).
  assert (Hen : enabled_transition (wtr_template t2) (wir_data r2) (ao_event opts) =
                enabled_transition (wtr_template t1) (wir_data r1) (ao_event opts))
    by (unfold enabled_transition; by rewrite Ht, Hst, Hctx, Hpart, Hart).
  apply advance_cases in Hadv as [[-> Hd]|(r & r' & t & tr & ar & ts & now & bus & Hr & [= <-] & Hlive & Hk & Htt & Htr & -> & -> & _)].
  - destruct (Hd _ eq_refl) as (Hr & Hlive & Hk). assert (r1' = r1) as -> by congruence.
    exists r2, s2, w2. unfold advance_mirror. rewrite (advance_seen opts true s2 w2 r2); [|done|by rewrite <-Hstatus|by rewrite Hseen].
    by split_and!.
  - assert (r = r1) as -> by congruence. assert (t = t1) as -> by congruence. rewrite <-Hen in Htr.
    assert (Hlive2 : wi_status (wir_data r2) = StActive ∨ wi_status (wir_data r2) = StError) by (by rewrite <-Hstatus).
    rewrite <-Hseen in Hk.
    destruct (mirror_advances opts s2 w2 r2 t2 tr Hs2 Hnp Hr2 Hlive2 Hk Ht2 Htr) as (ar2 & ts2 & now2 & s2' & w2' & Ha & Hg).
    eexists _, s2', w2'. split_and!; [exact Ha|exact Hg|done| |]; cbn; [by rewrite Ht, Hstatus|by rewrite Hkeys].
Qed.
End handlers.
