(* ===== verification/WorkflowRuns.v ===== *)
(** Runs of the workflow service, queue and handlers on a small template: the witnesses of their
    properties, and the runs that show where they fall short. *)
From stdpp Require Import relations.
From S2P Require Import Prelude AjnaTypes Storage Didcomm Workflow WorkflowService WorkflowSpec WorkflowProps WorkflowQueue WorkflowHandler.

(** * A concrete environment *)

(** Two constant expressions. *)
Definition toy_jmespath : Jmespath := {|
  jm_expression := bool;
  jm_compile e := if decide (e = "true") then Some true else if decide (e = "false") then Some false else None;
  jm_search e _ := Some (JmBool e);
  jm_from_json _ := Some JmNull;
  jm_to_json _ := Some JNull
|}.
Definition toy_workflow_crates : WorkflowCrates := {|
  wc_template_to_string t := Some (wt_template_id t +:+ wt_version t); wc_sha256 s := s; wc_hex_encode s := s
|}.
Definition toy_uuids : UuidText := {| uuid_to_string u := "uuid-" +:+ pretty u |}.
#[local] Existing Instances plain_order toy_jmespath toy_workflow_crates toy_uuids toy_rfc3339.

Definition run_template : WorkflowTemplate :=
  mkTemplate "loan" "1" "Loan" (mkPolicy SingletonPerConnection None) []
    [mkState "draft" StateStart None; mkState "review" StateNormal (Some "office"); mkState "done" StateFinal None]
    [mkTransition "draft" "review" "submit" None (Some "note");
     mkTransition "review" "draft" "reject" (Some "false") None;
     mkTransition "review" "done" "approve" (Some "true") None]
    (mkCatalog ∅ ∅ None) [mkAction "note" STATE_SET_URI None (Some (JObject [("merge", JObject [("seen", JBool true)])]))] None.

Definition run_start (iid : string) : WfCall :=
  CallStart (mkStartOptions "loan" None (Some iid) (Some "conn") None None Coordinator).
Definition run_advance (iid ev : string) (key : option string) : WfCall :=
  CallAdvance (mkAdvanceOptions iid ev key None) false.

Definition run_new : WorkflowService := ws_new reg_new.
Definition run_calls : list WfCall :=
  [CallPublish run_template; run_start "i1"; run_advance "i1" "submit" (Some "k1"); run_advance "i1" "reject" None;
   CallPause "i1" None; run_advance "i1" "approve" None; CallResume "i1" None; run_advance "i1" "approve" (Some "k2")].

(** The state, the status and the keys of an instance after some calls. *)
Definition run_view (cs : list WfCall) (iid : string) : option (string * InstanceStatus * list string) :=
  (λ r, (wi_state (wir_data r), wi_status (wir_data r), wi_idempotency_keys (wir_data r)))
    <$> irepo_find iid (ws_instances (wf_execs cs run_new world0).1).

Example run_completes : run_view run_calls "i1" = Some ("done", StCompleted, ["k1"; "k2"]).
Proof. vm_compute. reflexivity. Qed.

(** The fresh texts of a run of [world0] are decided by evaluation. *)
Definition freshb (s : WorkflowService) (w : World) : bool :=
  forallb (λ k, let u := uuid_to_string (w_uuid w (w_un w + k)) in
    bool_decide (ws_templates s !! u = None ∧ ws_instances s !! u = None ∧ keyed_find wir_key u (ws_instances s) = None)) [0; 1].
Fixpoint freshb_run (cs : list WfCall) (s : WorkflowService) (w : World) : bool :=
  match cs with
  | [] => true
  | c :: cs => freshb s w && freshb_run cs (wf_exec c s w).1 (wf_exec c s w).2
  end.

Definition compatibleb (c : WfCall) (s : WorkflowService) : bool :=
  match c with
  | CallPublish t => bool_decide (map_Forall (λ _ r, wi_template_id (wir_data r) = wt_template_id t →
      wi_template_version (wir_data r) = wt_version t → wi_state (wir_data r) ∈ state_names t) (ws_instances s))
  | _ => true
  end.
Fixpoint compatibleb_run (cs : list WfCall) (s : WorkflowService) (w : World) : bool :=
  match cs with
  | [] => true
  | c :: cs => compatibleb c s && compatibleb_run cs (wf_exec c s w).1 (wf_exec c s w).2
  end.

Lemma freshb_spec s w : freshb s w = true → uuid_fresh s w.
Proof.
  unfold freshb. cbn [forallb]. rewrite !andb_true_iff, !bool_decide_eq_true. intros (H0 & H1 & _) k Hk.
  destruct k as [|[|k]]; [exact H0|exact H1|lia].
Qed.
Lemma freshb_run_spec cs s w : freshb_run cs s w = true → along call_fresh cs s w.
Proof.
  revert s w. induction cs as [|c cs IH]; intros s w; [done|]. cbn. rewrite andb_true_iff. intros [Hf Hr].
  split; [by apply freshb_spec|by apply IH].
Qed.
Lemma compatibleb_run_spec cs s w :
  freshb_run cs s w = true → compatibleb_run cs s w = true → along (λ c s w, call_fresh c s w ∧ call_compatible c s w) cs s w.
Proof.
  revert s w. induction cs as [|c cs IH]; intros s w; [done|]. cbn [along freshb_run compatibleb_run]. rewrite !andb_true_iff. intros [Hf Hr] [Hc Hcr].
  split; [|by apply IH]. split; [by apply freshb_spec|]. destruct c; try done. cbn in *.
  apply bool_decide_eq_true in Hc. intros i r Hi. by apply (Hc i r).
Qed.

(** * Witnesses *)


(** The template is published again, with one more state, while an instance is under review. *)
Definition run_template_more : WorkflowTemplate :=
  mkTemplate "loan" "1" "Loan" (wt_instance_policy run_template) [] (wt_states run_template ++ [mkState "held" StateNormal None])
    (wt_transitions run_template ++ [mkTransition "review" "held" "hold" None None]) (wt_catalog run_template)
    (wt_actions run_template) None.
Definition run_republish : list WfCall := take 3 run_calls ++ [CallPublish run_template_more; run_advance "i1" "hold" None].

Lemma workflow_well_typed_witness :
  run_view run_republish "i1" = Some ("held", StActive, ["k1"]) ∧ well_typed (wf_execs run_republish run_new world0).1.
Proof.
  split; [vm_compute; reflexivity|]. apply (workflow_well_typed reg_new run_republish world0).
  apply compatibleb_run_spec; vm_compute; reflexivity.
Defined.

Lemma run_refines cs : freshb_run cs run_new world0 = true → ws_ok (wf_execs cs run_new world0).1.
Proof. intros Hf%freshb_run_spec. by destruct (workflow_refined reg_new cs world0 Hf) as (a & _ & _ & Hs). Qed.

Lemma reg_new_no_panic : no_panic reg_new.
Proof.
  intros uri h ctx w. unfold reg_new, reg_register. cbn.
  rewrite lookup_insert_Some. by intros [[_ <-]|[_ ?]].
Qed.

Definition run_reviewed : WorkflowService * World := wf_execs (take 3 run_calls) run_new world0.

Lemma status_offers_what_advances_witness :
  ∃ msg r, (ws_status (mkStatusOptions "i1" false false None None) run_reviewed.1 run_reviewed.2).1.1 = Ok (msg, r) ∧
    sm_allowed_events msg = ["approve"] ∧
    ∃ r' s' w' t tr, advance_mirror (mkAdvanceOptions "i1" "approve" None None) run_reviewed.1 run_reviewed.2 = (Ok r', s', w') ∧
      tr ∈ wt_transitions t ∧ td_from tr = wi_state (wir_data r) ∧ td_on tr = "approve" ∧
      wi_state (wir_data r') = td_to tr ∧ irepo_find "i1" (ws_instances s') = Some r'.
Proof.
  destruct (ws_status (mkStatusOptions "i1" false false None None) run_reviewed.1 run_reviewed.2) as [[[[msg r]|e|] s'] w'] eqn:E;
    [|by vm_compute in E..].
  assert (Hm : sm_allowed_events msg = ["approve"] ∧ wi_status (wir_data r) = StActive)
    by (vm_compute in E; injection E as <- <- _ _; done).
  destruct Hm as [Hm Hr]. exists msg, r. split; [done|]. split; [done|].
  pose proof (status_offers_what_advances run_reviewed.1 run_reviewed.2 (mkStatusOptions "i1" false false None None) msg r
    "approve" None None (run_refines (take 3 run_calls) ltac:(vm_compute; reflexivity))) as Hs.
  rewrite Hm in Hs. rewrite decide_True in Hs by (left). cbn [sto_instance_id] in Hs. apply Hs; [|by rewrite E|done|done].
  replace (ws_registry run_reviewed.1) with reg_new by (vm_compute; reflexivity). apply reg_new_no_panic.
Defined.

Lemma advance_idempotent_witness :
  ∃ r s1 w1, advance_inner (mkAdvanceOptions "i1" "submit" (Some "k1") None) false (wf_execs (take 2 run_calls) run_new world0).1
               (wf_execs (take 2 run_calls) run_new world0).2 = (Ok r, s1, w1) ∧
    advance_inner (mkAdvanceOptions "i1" "approve" (Some "k1") None) true s1 w1 = (Ok r, s1, w1).
Proof.
  destruct (advance_inner (mkAdvanceOptions "i1" "submit" (Some "k1") None) false (wf_execs (take 2 run_calls) run_new world0).1
               (wf_execs (take 2 run_calls) run_new world0).2) as [[[r|e|] s1] w1] eqn:E; [|by vm_compute in E..].
  exists r, s1, w1. split; [done|].
  rewrite (advance_idempotent _ _ _ _ _ _ _ "k1" (mkAdvanceOptions "i1" "approve" (Some "k1") None) true w1
    (run_refines (take 2 run_calls) ltac:(vm_compute; reflexivity)) E) by done.
  rewrite decide_False; [done|]. vm_compute in E. injection E as <- _ _. done.
Defined.

Lemma idempotency_keys_bounded_witness :
  ∃ i r, ws_instances (wf_execs run_calls run_new world0).1 !! i = Some r ∧
    (length (wi_idempotency_keys (wir_data r)) ≤ IDEMPOTENCY_HISTORY_LIMIT)%nat ∧ NoDup (wi_idempotency_keys (wir_data r)).
Proof.
  destruct (ws_instances (wf_execs run_calls run_new world0).1 !! "uuid-1") as [r|] eqn:E; [|by vm_compute in E].
  exists "uuid-1", r. split; [done|]. exact (idempotency_keys_bounded reg_new run_calls world0 "uuid-1" r E).
Defined.

(** * Runs *)

(** A canceled instance is resumed, and then there are two live instances of a singleton
    template on the connection. *)
Example resume_breaks_singleton :
  let cs := [CallPublish run_template; run_start "i1"; CallCancel "i1" None; run_start "i2"; CallResume "i1" None] in
  run_view cs "i1" = Some ("draft", StActive, []) ∧ run_view cs "i2" = Some ("draft", StActive, []).
Proof. split; vm_compute; reflexivity. Qed.

(** A completed instance is resumed and is active in a final state. *)
Example resume_reopens_completed :
  run_view (run_calls ++ [CallResume "i1" None]) "i1" = Some ("done", StActive, ["k1"; "k2"]).
Proof. vm_compute. reflexivity. Qed.

(** A cancel that runs while an advance's action runs is undone by the advance's write. *)
Example advance_undoes_cancel :
  let '(s, w) := run_reviewed in
  let opts := mkAdvanceOptions "i1" "approve" None None in
  match advance_prepare opts false s w with
  | (Ok p, s, w) =>
      let '(s, w) := wf_exec (CallCancel "i1" None) s w in
      let '(_, s, _) := advance_commit opts p s w in
      (λ r, (wi_state (wir_data r), wi_status (wir_data r))) <$> irepo_find "i1" (ws_instances s)
  | _ => None
  end = Some ("done", StCompleted).
Proof. vm_compute. reflexivity. Qed.

(** The advance that completed an instance, delivered again with its key, is refused. *)
Example redelivered_final_advance_fails :
  let '(s, w) := wf_execs run_calls run_new world0 in
  (advance_mirror (mkAdvanceOptions "i1" "approve" (Some "k2") None) s w).1.1 = Err (InvalidStatus StCompleted "advance").
Proof. vm_compute. reflexivity. Qed.

(** A template published again without a state strands the instances that are in it. *)
Example republish_strands :
  let t := mkTemplate "loan" "1" "Loan" (wt_instance_policy run_template) [] [mkState "draft" StateStart None] []
             (wt_catalog run_template) [] None in
  let '(s, w) := wf_execs (take 3 run_calls ++ [CallPublish t]) run_new world0 in
  (advance_mirror (mkAdvanceOptions "i1" "approve" None None) s w).1.1 = Err (NoEnabledTransition "review" "approve").
Proof. vm_compute. reflexivity. Qed.

(** A context patch that is not an object changes nothing. *)
Example patch_not_object_ignored :
  let view cs := (λ r, wi_context (wir_data r)) <$> irepo_find "i1" (ws_instances (wf_execs cs run_new world0).1) in
  view (take 3 run_calls) = Some (JObject [("seen", JBool true)]) ∧
  view (take 3 run_calls ++ [CallContext "i1" (JString "new")]) = Some (JObject [("seen", JBool true)]).
Proof. split; vm_compute; reflexivity. Qed.

(** * Bodies, commands, mirrors *)

Definition enc (o : option string) : Json := match o with Some s => JString s | None => JNull end.
Definition dec (v : Json) : option (option string) :=
  match v with JString s => Some (Some s) | JNull => Some None | _ => None end.
Lemma dec_enc o : dec (enc o) = Some o.
Proof. by destruct o. Qed.

(** Bodies as arrays; the fields that the runs do not use are left out. *)
Definition toy_bodies : WorkflowBodies := {|
  wb_start_from v :=
    match v with
    | JArray [JString t; a; b; c] =>
        match dec a, dec b, dec c with
        | Some a, Some b, Some c => inr (mkStartMessage t a b c None None None None)
        | _, _, _ => inl "start"
        end
    | _ => inl "start"
    end;
  wb_start_to m := inr (JArray [JString (stm_template_id m); enc (stm_template_version m); enc (stm_instance_id m); enc (stm_connection_id m)]);
  wb_advance_from v :=
    match v with
    | JArray [JString i; JString e; k] =>
        match dec k with Some k => inr (mkAdvanceMessage i e k None) | None => inl "advance" end
    | _ => inl "advance"
    end;
  wb_advance_to m := inr (JArray [JString (am_instance_id m); JString (am_event m); enc (am_idempotency_key m)]);
  wb_instance_from v :=
    match v with
    | JArray [JString i; r] => match dec r with Some r => inr (mkInstanceMessage i r) | None => inl "instance" end
    | _ => inl "instance"
    end;
  wb_instance_to m := inr (JArray [JString (im_instance_id m); enc (im_reason m)]);
  wb_status_from v := match v with JString i => inr (mkStatusRequest i false false None None None) | _ => inl "status" end;
  wb_status_to m := inr (JArray (JString (sm_state m) :: (JString <$> sm_allowed_events m)));
  wb_fetch_from v := match v with JString i => inr (mkFetchTemplate i None false) | _ => inl "fetch" end;
  wb_fetch_to m := inr (JString (ft_template_id m));
  wb_problem_from v := match v with JString c => inr (mkWfProblem c None None) | _ => inl "problem" end;
  wb_problem_to m := inr (JString (wpr_code m));
  wb_publish_from v := match v with JString "loan" => inr (mkPublishTemplate run_template None) | _ => inl "publish" end;
  wb_publish_to m := inr (JString (wt_template_id (ptm_template m)));
  wb_template_from v := match v with JString "loan" => inr run_template | _ => inl "template" end;
  wb_template_to t := inr (JString (wt_template_id t));
  wb_discover_from v := inr (mkDiscover None None false);
  wb_workflows_to l p := inr (JArray ((λ x, JString (wsm_template_id x)) <$> l));
  wb_error_text e := match e with TemplateNotFound s => s | _ => "error" end;
  wb_to_lowercase s := s
|}.
#[local] Existing Instance toy_bodies.

#[local] Instance toy_bodies_laws : WorkflowBodiesLaws.
Proof.
  split; intros v0 m v Hm Hv; injection Hv as <-; cbn -[enc dec] in *;
    rewrite ?dec_enc; repeat case_match; by simplify_eq.
Defined.

Definition run_inbound (type : string) (body : Json) : InboundMessage :=
  mkInbound (msg_new "m" type body) (mkContext (Some "alice") (Some "bob") None None (Some "conn") true true None None).

Lemma command_reaches_service_witness :
  ∃ r w' c, wf_handle_advance (run_inbound (WFURI "advance") (JArray [JString "i1"; JString "submit"; JNull]))
      (mkWorkflowModule run_new ∅ None) world0 =
      (Ok None, wm_set_commands (<[cr_id r := r]> ∅) (mkWorkflowModule run_new ∅ None), w') ∧
    cr_status r = CsPending ∧ Some (CallAdvance (mkAdvanceOptions "i1" "submit" None None) true) = Some c ∧
    ∀ now s w, wf_run (job_handler (claim_record now r)) s w = wf_exec c s w.
Proof.
  destruct (command_reaches_service CmdAdvance (run_inbound (WFURI "advance") (JArray [JString "i1"; JString "submit"; JNull]))
    "i1" (JArray [JString "i1"; JString "submit"; JNull]) (mkWorkflowModule run_new ∅ None) world0)
    as (r & w' & c & Hh & Hs & Hc & Hj).
  - eexists. split_and!; reflexivity.
  - done.
  - vm_compute. reflexivity.
  - exists r, w', c. split; [exact Hh|]. split; [exact Hs|]. split; [by rewrite <-Hc|exact Hj].
Defined.

(** A peer that has started the same instance but has no handler for its action. *)
Definition run_peer : WorkflowService * World := wf_execs (take 2 run_calls) (ws_new (mkRegistry ∅ 0)) world0.
Definition run_coordinator : WorkflowService * World := wf_execs (take 2 run_calls) run_new world0.

Lemma run_peer_ok : ws_ok run_peer.1.
Proof.
  destruct (workflow_refined (mkRegistry ∅ 0) (take 2 run_calls) world0) as (a & _ & _ & Hs); [|exact Hs].
  apply freshb_run_spec. vm_compute. reflexivity.
Qed.

Lemma advance_mirrored_witness :
  ∃ r1' s1' w1', ws_advance (mkAdvanceOptions "i1" "submit" (Some "k1") None) run_coordinator.1 run_coordinator.2 = (Ok r1', s1', w1') ∧
    ∃ r2' s2' w2', advance_mirror (mkAdvanceOptions "i1" "submit" (Some "k1") None) run_peer.1 run_peer.2 = (Ok r2', s2', w2') ∧
      irepo_find "i1" (ws_instances s2') = Some r2' ∧
      wi_state (wir_data r2') = wi_state (wir_data r1') ∧ wi_status (wir_data r2') = wi_status (wir_data r1') ∧
      wi_idempotency_keys (wir_data r2') = wi_idempotency_keys (wir_data r1').
Proof.
  destruct (ws_advance (mkAdvanceOptions "i1" "submit" (Some "k1") None) run_coordinator.1 run_coordinator.2)
    as [[[r1'|e|] s1'] w1'] eqn:E; [|by vm_compute in E..].
  exists r1', s1', w1'. split; [done|].
  destruct (irepo_find "i1" (ws_instances run_coordinator.1)) as [r1|] eqn:E1; [|by vm_compute in E1].
  destruct (irepo_find "i1" (ws_instances run_peer.1)) as [r2|] eqn:E2; [|by vm_compute in E2].
  destruct (trepo_find "loan" (Some "1") (ws_templates run_coordinator.1)) as [t1|] eqn:T1; [|by vm_compute in T1].
  destruct (trepo_find "loan" (Some "1") (ws_templates run_peer.1)) as [t2|] eqn:T2; [|by vm_compute in T2].
  apply (advance_mirrored (mkAdvanceOptions "i1" "submit" (Some "k1") None) run_coordinator.1 run_coordinator.2 r1 r1' s1' w1'
    run_peer.1 run_peer.2 r2 t1 t2 (run_refines (take 2 run_calls) ltac:(vm_compute; reflexivity)) run_peer_ok).
  - replace (ws_registry run_peer.1) with (mkRegistry ∅ 0) by (vm_compute; reflexivity). by intros ????.
  - exact E1.
  - exact E2.
  - vm_compute in E1, E2. injection E1 as <-. injection E2 as <-. by split_and!.
  - replace (wi_template_id (wir_data r1)) with "loan" by (vm_compute in E1; by injection E1 as <-).
    replace (wi_template_version (wir_data r1)) with "1" by (vm_compute in E1; by injection E1 as <-). exact T1.
  - replace (wi_template_id (wir_data r2)) with "loan" by (vm_compute in E2; by injection E2 as <-).
    replace (wi_template_version (wir_data r2)) with "1" by (vm_compute in E2; by injection E2 as <-). exact T2.
  - vm_compute in T1, T2. injection T1 as <-. injection T2 as <-. done.
  - exact E.
Defined.

(** * The queue *)

Definition run_config : CommandQueueConfig := queue_config_default.
Definition run_command (cmd : CommandType) (thid : string) (m : Commands) (w : World) : Commands * World :=
  let '(_, m, w) := cq_enqueue cmd thid None None JNull m w in (m, w).

(** A worker that has claimed one of two commands. *)
Definition run_queued : Commands * World := let '(m, w) := run_command CmdPause "i1" ∅ world0 in run_command CmdAdvance "i2" m w.
Definition run_claimed : Worker := worker_claim 5 (worker_poll run_config (mkWorker run_queued.1 [] [])).

Lemma run_claimed_reachable : rtc (worker_step run_config wb_error_text) worker_new run_claimed.
Proof.
  eapply rtc_l; [apply (WK_enqueue run_config wb_error_text worker_new CmdPause "i1" None None JNull world0); reflexivity|].
  eapply rtc_l; [apply (WK_enqueue run_config wb_error_text _ CmdAdvance "i2" None None JNull (run_command CmdPause "i1" ∅ world0).2);
    vm_compute; reflexivity|].
  eapply rtc_l; [apply WK_work, WS_poll; [reflexivity|by vm_compute]|].
  apply rtc_once. apply WK_work, WS_claim. by vm_compute.
Qed.

Lemma command_attempts_bounded_witness :
  ∃ i r, wk_commands run_claimed !! i = Some r ∧ cr_status r = CsProcessing ∧
    (cr_attempts r ≤ 3)%N ∧ (cr_status r = CsPending → (cr_attempts r < 3)%N) ∧
    (cr_status r = CsProcessing ↔ r ∈ wk_tasks run_claimed) ∧ NoDup (cr_id <$> wk_tasks run_claimed).
Proof.
  destruct (wk_tasks run_claimed) as [|r l] eqn:E; [by vm_compute in E|]. rewrite <-E.
  assert (Hi : wk_commands run_claimed !! cr_id r = Some r ∧ cr_status r = CsProcessing)
    by (vm_compute in E; injection E as <- _; vm_compute; split; reflexivity).
  exists (cr_id r), r. split; [apply Hi|]. split; [apply Hi|].
  apply (command_attempts_bounded run_config wb_error_text eq_refl eq_refl run_claimed (cr_id r) r run_claimed_reachable).
  apply Hi.
Defined.


(** * Runs of the queue *)

(** A second, different advance of an instance is dropped while the first one waits. *)
Example second_advance_dropped :
  let body ev := JArray [JString "i1"; JString ev; JNull] in
  let '(_, m, w) := wf_handle_advance (run_inbound (WFURI "advance") (body "submit")) (mkWorkflowModule run_new ∅ None) world0 in
  let '(r, m, _) := wf_handle_advance (run_inbound (WFURI "advance") (body "approve")) m w in
  r = Ok None ∧ cr_payload <$> repo_values (wm_commands m) = [body "submit"].
Proof. vm_compute. split; reflexivity. Qed.

(** The process ends while a task runs: its command stays [Processing], no poll finds it, and a new
    command of its kind for the instance is dropped. *)
Example lost_task_blocks :
  let k := mkWorker (wk_commands run_claimed) [] [] in
  let k := worker_claim 6 (worker_poll run_config k) in
  let k := foldl (λ k _, worker_finish run_config wb_error_text 0 JobOk k) k [(); ()] in
  (λ r, (cr_cmd r, cr_thid r, cr_status r)) <$> repo_values (wk_commands k) =
    [(CmdAdvance, "i2", CsProcessing); (CmdPause, "i1", CsCompleted)] ∧
  wk_batch (worker_poll run_config k) = [] ∧ (run_command CmdAdvance "i2" (wk_commands k) run_queued.2).1 = wk_commands k.
Proof. vm_compute. split_and!; reflexivity. Qed.

(** A failed command is cleaned up after the retention time of completed ones. *)
Example failed_uses_completed_retention :
  let r := cr_update CsFailed 3 None None (cr_new CmdPause "i1" None None JNull world0).1 in
  let k := mkWorker {[cr_id r := r]} [] [] in
  wk_commands (worker_cleanup run_config (qc_completed_retention run_config + 1) k) = ∅ ∧
  (qc_completed_retention run_config < qc_failed_retention run_config)%Z.
Proof. vm_compute. split; reflexivity. Qed.

(** An automatic advance notifies the peer, at once and twice again. *)
Example auto_advance_is_sent :
  let m := mkWorkflowModule run_coordinator.1 ∅ (Some []) in
  let '(_, m, _) := advance_by_connection "conn" "submit" m run_coordinator.2 in
  option_map (map (λ '(delay, _, type, _), (delay, type))) (wm_sent m) =
    Some [(0%N, WFURI "advance"); (1500%N, WFURI "advance"); (3500%N, WFURI "advance")].
Proof. vm_compute. reflexivity. Qed.

(** A start without an instance id is queued under one generated id and started under another, so
    that the same message processed again starts a second instance. *)
Example start_without_id_twice :
  let body := JArray [JString "open"; JNull; JNull; JNull] in
  let t := mkTemplate "open" "1" "Open" (mkPolicy MultiPerConnection None) [] [mkState "s" StateStart None] []
             (mkCatalog ∅ ∅ None) [] None in
  let '(s, w) := wf_exec (CallPublish t) run_new world0 in
  let r := (cr_new CmdStart "thread" None None body w).1 in
  let '(_, s, w) := job_handler r s w in
  let '(_, s, w) := job_handler r s w in
  size (ws_instances s) = 2 ∧ irepo_find "thread" (ws_instances s) = None.
Proof. vm_compute. split; reflexivity. Qed.
