(* ===== verification/AnonCreds.v ===== *)
(** AnonCreds services over the crate [anoncreds]:
    [src/credentials/anoncreds_core/src].

    The crate's types and functions are parameters ([AnoncredsLib]): a function that draws
    randomness is given the world.  The registry and the store are interfaces, with the
    in-memory registry and the store over a storage provider as instances.  A lock is never
    poisoned. *)
From S2P Require Import Prelude AjnaTypes StdText Storage SerdeJson.

(** [src/credentials/anoncreds_core/src/error.rs:3-34] AnonCredsError *)
Inductive AnonCredsError :=
  | AceSchema (s : string)
  | AceCredentialDefinition (s : string)
  | AceCredential (s : string)
  | AcePresentation (s : string)
  | AceRegistry (s : string)
  | AceStorage (s : string)
  | AceInvalidInput (s : string)
  | AceNotFound (s : string)
  | AceAnoncredsLib (s : string)
  | AceUnsupported (s : string).

(** [src/credentials/anoncreds_core/src/error.rs:3-34] AnonCredsError::to_string (derived by thiserror) *)
Definition ace_to_string (e : AnonCredsError) : string :=
  match e with
  | AceSchema s => "Schema error: " +:+ s
  | AceCredentialDefinition s => "Credential definition error: " +:+ s
  | AceCredential s => "Credential error: " +:+ s
  | AcePresentation s => "Presentation error: " +:+ s
  | AceRegistry s => "Registry error: " +:+ s
  | AceStorage s => "Storage error: " +:+ s
  | AceInvalidInput s => "Invalid input: " +:+ s
  | AceNotFound s => "Not found: " +:+ s
  | AceAnoncredsLib s => "Anoncreds library error: " +:+ s
  | AceUnsupported s => "Operation not supported: " +:+ s
  end.

(** * The crate *)

(** An entry of [PresentCredentials]: the credential with its timestamp and revocation
    state, the referents it is used for, revealed or not, and the predicates. *)
Record PresentCredential (Cred Rev : Type) := mkPresent {
  pc_credential : Cred;
  pc_timestamp : option N;
  pc_rev_state : option Rev;
  pc_attributes : list (string * bool);
  pc_predicates : list string
}.
Arguments mkPresent {Cred Rev}.
Arguments pc_credential {Cred Rev}.
Arguments pc_timestamp {Cred Rev}.
Arguments pc_rev_state {Cred Rev}.
Arguments pc_attributes {Cred Rev}.
Arguments pc_predicates {Cred Rev}.

(** An [Identifier] of a presentation. *)
Record PresIdentifier := mkIdentifier {
  pid_schema_id : string; pid_cred_def_id : string; pid_rev_reg_id : option string; pid_timestamp : option N
}.

(** What the code uses of the crate's data: the types, some of their fields, their
    serializers, and the operations; an error is its text. *)
Class AnoncredsLib := {
  LinkSecret : Type;
  AcSchema : Type;
  CredentialDefinition : Type;
  CredentialDefinitionPrivate : Type;
  KeyCorrectnessProof : Type;
  CredentialOffer : Type;
  CredentialRequest : Type;
  RequestMetadata : Type;
  CredentialValues : Type;
  AcCredential : Type;
  Nonce : Type;
  AttributeInfo : Type;
  PredicateInfo : Type;
  NonRevokedInterval : Type;
  PresentationRequest : Type;
  Presentation : Type;
  RevRegDef : Type;
  RevRegDefPrivate : Type;
  RevStatusList : Type;
  RevocationState : Type;
  sc_name : AcSchema → string;
  sc_version : AcSchema → string;
  cd_schema_id : CredentialDefinition → string;
  cd_issuer_id : CredentialDefinition → string;
  cd_tag : CredentialDefinition → string;
  co_schema_id : CredentialOffer → string;
  co_cred_def_id : CredentialOffer → string;
  ac_schema_id : AcCredential → string;
  ac_rev_reg_id : AcCredential → option string;
  ac_values : AcCredential → gmap string (string * string);
  rr_cred_def_id : RevRegDef → string;
  rr_tag : RevRegDef → string;
  rr_tails_location : RevRegDef → string;
  ls_parse : string → outcome string LinkSecret;
  ls_print : LinkSecret → outcome string string;
  ls_try_clone : LinkSecret → outcome string LinkSecret;
  al_create_link_secret : World → outcome string LinkSecret * World;
  al_create_schema : string → string → string → list string → outcome string AcSchema;
  al_create_cred_def : string → AcSchema → string → string → bool → World →
    outcome string (CredentialDefinition * CredentialDefinitionPrivate * KeyCorrectnessProof) * World;
  al_create_offer : string → string → KeyCorrectnessProof → World → outcome string CredentialOffer * World;
  al_create_request : option string → CredentialDefinition → LinkSecret → string → CredentialOffer → World →
    outcome string (CredentialRequest * RequestMetadata) * World;
  cv_default : CredentialValues;
  cv_add_raw : string → string → CredentialValues → outcome string CredentialValues;
  al_create_credential : CredentialDefinition → CredentialDefinitionPrivate → CredentialOffer → CredentialRequest →
    CredentialValues → option (RevRegDef * RevRegDefPrivate * N * RevStatusList) → World → outcome string AcCredential * World;
  al_process_credential : AcCredential → RequestMetadata → LinkSecret → CredentialDefinition → option RevRegDef →
    World → outcome string AcCredential * World;
  al_serde_cred_def :: Serde CredentialDefinition;
  al_serde_cred_def_private :: Serde CredentialDefinitionPrivate;
  al_serde_proof :: Serde KeyCorrectnessProof;
  al_serde_schema :: Serde AcSchema;
  al_serde_offer :: Serde CredentialOffer;
  al_serde_request :: Serde CredentialRequest;
  al_serde_metadata :: Serde RequestMetadata;
  al_serde_credential :: Serde AcCredential;
  al_serde_rev_reg_def :: Serde RevRegDef;
  al_serde_status_list :: Serde RevStatusList;
  al_create_rev_reg_def : CredentialDefinition → string → string → N → option string → World →
    outcome string (RevRegDef * RevRegDefPrivate) * World;
  al_create_status_list : CredentialDefinition → string → RevRegDef → RevRegDefPrivate → bool → option N →
    outcome string RevStatusList;
  al_update_status_list : CredentialDefinition → RevRegDef → RevRegDefPrivate → RevStatusList → option (gset N) →
    option (gset N) → option N → outcome string RevStatusList;
  al_update_timestamp : N → RevStatusList → RevStatusList;
  al_rev_state : string → RevRegDef → RevStatusList → N → option RevocationState → option RevStatusList →
    outcome string RevocationState;
  al_generate_nonce : World → outcome string Nonce * World;
  at_name : AttributeInfo → option string;
  at_names : AttributeInfo → option (list string);
  pi_name : PredicateInfo → string;
  pr_v2 : Nonce → string → string → gmap string AttributeInfo → gmap string PredicateInfo → option NonRevokedInterval →
    PresentationRequest;
  pr_attributes : PresentationRequest → gmap string AttributeInfo;
  pr_predicates : PresentationRequest → gmap string PredicateInfo;
  pn_identifiers : Presentation → list PresIdentifier;
  pn_revealed : Presentation → gmap string string;
  pn_revealed_groups : Presentation → gmap string (gmap string string);
  pn_self_attested : Presentation → gmap string string;
  al_serde_pres_request :: Serde PresentationRequest;
  al_serde_presentation :: Serde Presentation;
  al_create_presentation : PresentationRequest → list (PresentCredential AcCredential RevocationState) →
    option (gmap string string) → LinkSecret → gmap string AcSchema → gmap string CredentialDefinition → World →
    outcome string Presentation * World;
  al_verify_presentation : Presentation → PresentationRequest → gmap string AcSchema → gmap string CredentialDefinition →
    option (gmap string RevRegDef) → option (list RevStatusList) → outcome string bool
}.

(** A call of the crate that draws randomness; [AnonCredsError::from] wraps its error. *)
Definition ac_map {A} (err : string → AnonCredsError) (r : outcome string A) : outcome AnonCredsError A :=
  match r with Ok a => Ok a | Err e => Err (err e) | Panic => Panic end.
Definition ac_lib {S A} (f : World → outcome string A * World) : eff AnonCredsError S A := λ s w,
  let '(r, w) := f w in (ac_map AceAnoncredsLib r, s, w).
Definition ac_lift {S A} (err : string → AnonCredsError) (r : outcome string A) : eff AnonCredsError S A :=
  eff_lift (ac_map err r).

(** A loop that carries a value. *)
Fixpoint eff_fold {E S A B} (f : B → A → eff E S B) (b : B) (l : list A) : eff E S B :=
  match l with
  | [] => mret b
  | a :: l => b ← f b a; eff_fold f b l
  end.

Section registry.
Context `{AnoncredsLib}.

(** [src/credentials/anoncreds_core/src/types.rs:37-42] SchemaRegistration *)
Record SchemaRegistration := mkSchemaReg { sr_schema_id : string; sr_schema : AcSchema }.

(** [src/credentials/anoncreds_core/src/types.rs:44-49] CredDefRegistration *)
Record CredDefRegistration := mkCredDefReg { cr_cred_def_id : string; cr_credential_definition : CredentialDefinition }.

(** [src/credentials/anoncreds_core/src/registry.rs:11-110] AnonCredsRegistry *)
Class AnonCredsRegistry (G : Type) := {
  rg_register_schema : string → AcSchema → eff AnonCredsError G SchemaRegistration;
  rg_get_schema : string → eff AnonCredsError G AcSchema;
  rg_register_cred_def : string → CredentialDefinition → option N → eff AnonCredsError G CredDefRegistration;
  rg_get_cred_def : string → eff AnonCredsError G CredentialDefinition;
  rg_register_rev_reg_def : string → RevRegDef → eff AnonCredsError G string;
  rg_get_rev_reg_def : string → eff AnonCredsError G RevRegDef;
  rg_register_status_list : string → RevStatusList → eff AnonCredsError G unit;
  rg_get_status_list : string → option N → eff AnonCredsError G RevStatusList
}.

(** [src/credentials/anoncreds_core/src/registry_memory.rs:13-20] InMemoryRegistry *)
Record InMemoryRegistry := mkMemRegistry {
  mg_schemas : gmap string Json;
  mg_cred_defs : gmap string Json;
  mg_rev_reg_defs : gmap string Json;
  mg_status_lists : gmap string (list Json)
}.

(** [src/credentials/anoncreds_core/src/registry_memory.rs:23-30] InMemoryRegistry::new *)
Definition mreg_new : InMemoryRegistry := mkMemRegistry ∅ ∅ ∅ ∅.

Abbreviation mg := (eff AnonCredsError InMemoryRegistry).

(** An object under its id. *)
Definition mg_fetch {A} `{Serde A} (sel : InMemoryRegistry → gmap string Json) (missing bad id : string) : mg A :=
  s ← eff_get;
  match sel s !! id with
  | Some json => ac_lift (λ e, AceStorage (bad +:+ e)) (sd_from_value json)
  | None => eff_throw (AceNotFound (missing +:+ id))
  end.

(** [src/credentials/anoncreds_core/src/registry_memory.rs:49-69] InMemoryRegistry::register_schema *)
Definition mg_register_schema (issuer_id : string) (schema : AcSchema) : mg SchemaRegistration :=
  let schema_id := issuer_id +:+ ":2:" +:+ sc_name schema +:+ ":" +:+ sc_version schema in
  json ← ac_lift (λ e, AceStorage ("Serialize schema: " +:+ e)) (sd_to_value schema);
  _ ← eff_modify (λ s, mkMemRegistry (<[schema_id := json]> (mg_schemas s)) (mg_cred_defs s) (mg_rev_reg_defs s) (mg_status_lists s));
  mret (mkSchemaReg schema_id schema).

(** [src/credentials/anoncreds_core/src/registry_memory.rs:71-83] InMemoryRegistry::get_schema *)
Definition mg_get_schema (schema_id : string) : mg AcSchema :=
  mg_fetch mg_schemas "Schema not found: " "Deserialize schema: " schema_id.

(** [src/credentials/anoncreds_core/src/registry_memory.rs:85-115] InMemoryRegistry::register_credential_definition *)
Definition mg_register_cred_def (issuer_id : string) (cred_def : CredentialDefinition) (_ : option N) : mg CredDefRegistration :=
  let cred_def_id := issuer_id +:+ ":3:CL:" +:+ cd_schema_id cred_def +:+ ":" +:+ cd_tag cred_def in
  json ← ac_lift (λ e, AceStorage ("Serialize cred_def: " +:+ e)) (sd_to_value cred_def);
  _ ← eff_modify (λ s, mkMemRegistry (mg_schemas s) (<[cred_def_id := json]> (mg_cred_defs s)) (mg_rev_reg_defs s) (mg_status_lists s));
  copy ← ac_lift (λ e, AceStorage ("Deserialize cred_def: " +:+ e)) (sd_from_value json);
  mret (mkCredDefReg cred_def_id copy).

(** [src/credentials/anoncreds_core/src/registry_memory.rs:117-132] InMemoryRegistry::get_credential_definition *)
Definition mg_get_cred_def (cred_def_id : string) : mg CredentialDefinition :=
  mg_fetch mg_cred_defs "Credential definition not found: " "Deserialize cred_def: " cred_def_id.

(** [src/credentials/anoncreds_core/src/registry_memory.rs:134-151] InMemoryRegistry::register_revocation_registry_def *)
Definition mg_register_rev_reg_def (issuer_id : string) (rev_reg_def : RevRegDef) : mg string :=
  let rev_reg_def_id := issuer_id +:+ ":4:" +:+ rr_cred_def_id rev_reg_def +:+ ":CL_ACCUM:" +:+ rr_tag rev_reg_def in
  json ← ac_lift (λ e, AceStorage ("Serialize rev_reg_def: " +:+ e)) (sd_to_value rev_reg_def);
  _ ← eff_modify (λ s, mkMemRegistry (mg_schemas s) (mg_cred_defs s) (<[rev_reg_def_id := json]> (mg_rev_reg_defs s)) (mg_status_lists s));
  mret rev_reg_def_id.

(** [src/credentials/anoncreds_core/src/registry_memory.rs:153-169] InMemoryRegistry::get_revocation_registry_def *)
Definition mg_get_rev_reg_def (rev_reg_def_id : string) : mg RevRegDef :=
  mg_fetch mg_rev_reg_defs "Revocation registry definition not found: " "Deserialize rev_reg_def: " rev_reg_def_id.

(** [src/credentials/anoncreds_core/src/registry_memory.rs:171-186] InMemoryRegistry::register_revocation_status_list *)
Definition mg_register_status_list (rev_reg_def_id : string) (status_list : RevStatusList) : mg unit :=
  json ← ac_lift (λ e, AceStorage ("Serialize status_list: " +:+ e)) (sd_to_value status_list);
  eff_modify (λ s, mkMemRegistry (mg_schemas s) (mg_cred_defs s) (mg_rev_reg_defs s)
    (<[rev_reg_def_id := default [] (mg_status_lists s !! rev_reg_def_id) ++ [json]]> (mg_status_lists s))).

(** The snapshot that is in force at a time. *)
Definition pick_status_list (timestamp : option N) (history : list Json) : option Json :=
  match timestamp with
  | Some ts_target =>
      find_first (λ entry, match json_get "timestamp" entry ≫= json_as_u64 with Some t => (t <=? ts_target)%N | None => true end = true)
        (reverse history)
  | None => last history
  end.

(** [src/credentials/anoncreds_core/src/registry_memory.rs:188-229] InMemoryRegistry::get_revocation_status_list *)
Definition mg_get_status_list (rev_reg_def_id : string) (timestamp : option N) : mg RevStatusList :=
  s ← eff_get;
  match mg_status_lists s !! rev_reg_def_id with
  | None => eff_throw (AceNotFound ("No revocation status lists registered for " +:+ rev_reg_def_id))
  | Some history =>
      match pick_status_list timestamp history with
      | None => eff_throw (AceNotFound ("No revocation status list matching timestamp constraint for " +:+ rev_reg_def_id))
      | Some json => ac_lift (λ e, AceStorage ("Deserialize status_list: " +:+ e)) (sd_from_value json)
      end
  end.

#[export] Instance memory_registry : AnonCredsRegistry InMemoryRegistry := {|
  rg_register_schema := mg_register_schema; rg_get_schema := mg_get_schema;
  rg_register_cred_def := mg_register_cred_def; rg_get_cred_def := mg_get_cred_def;
  rg_register_rev_reg_def := mg_register_rev_reg_def; rg_get_rev_reg_def := mg_get_rev_reg_def;
  rg_register_status_list := mg_register_status_list; rg_get_status_list := mg_get_status_list
|}.
End registry.

(** * The store *)

(** [src/credentials/anoncreds_core/src/store.rs:12-25] StoredCredentialRecord *)
Record StoredCredentialRecord := mkStoredCredential {
  scr_credential_id : string;
  scr_credential_json : Json;
  scr_schema_id : string;
  scr_cred_def_id : string;
  scr_attributes : gmap string string;
  scr_rev_reg_id : option string;
  scr_cred_rev_index : option N
}.

(** [src/credentials/anoncreds_core/src/store.rs:32-79] AnonCredsStore *)
Class AnonCredsStore (T : Type) := {
  as_load_link_secret : eff AnonCredsError T (option (string * string));
  as_save_link_secret : string → string → eff AnonCredsError T unit;
  as_save_credential : StoredCredentialRecord → eff AnonCredsError T unit;
  as_load_all_credentials : eff AnonCredsError T (list StoredCredentialRecord);
  as_delete_credential : string → eff AnonCredsError T unit;
  as_save_cred_def_private : string → string → eff AnonCredsError T unit;
  as_load_all_cred_def_privates : eff AnonCredsError T (list (string * string));
  as_save_proof : string → string → eff AnonCredsError T unit;
  as_load_all_proofs : eff AnonCredsError T (list (string * string));
  as_save_request_metadata : string → string → eff AnonCredsError T unit;
  as_load_request_metadata : string → eff AnonCredsError T (option string);
  as_delete_request_metadata : string → eff AnonCredsError T unit
}.

Section storage_store.
Context {ST : Type} `{StorageProvider ST} `{Serde StoredCredentialRecord} `{HashOrder}.

Definition LINK_SECRET_CATEGORY : string := "anoncreds_link_secret".
Definition LINK_SECRET_NAME : string := "default".
Definition CREDENTIAL_CATEGORY : string := "anoncreds_credential".
Definition CRED_DEF_PRIVATE_CATEGORY : string := "anoncreds_cred_def_private".
Definition KEY_CORRECTNESS_CATEGORY : string := "anoncreds_key_correctness".
Definition REQUEST_METADATA_CATEGORY : string := "anoncreds_request_metadata".

(** A call of the storage provider; its error is reported under a heading. *)
Definition ss_call {A} (what : string) (m : eff AgentError ST A) : eff AnonCredsError ST A :=
  eff_zoom id (λ t _, t) (λ e, AceStorage (what +:+ ag_to_string e)) m.

(** [src/credentials/anoncreds_core/src/store_storage.rs:37-57] StorageBackedAnonCredsStore::load_link_secret *)
Definition ss_load_link_secret : eff AnonCredsError ST (option (string * string)) :=
  record ← ss_call "Load link secret: " (st_find LINK_SECRET_CATEGORY LINK_SECRET_NAME);
  match record with
  | Some r =>
      secret_dec ← ac_lift (λ e, AceStorage ("Parse link secret: " +:+ e)) (from_utf8 (rec_value r));
      mret (Some (secret_dec, default "default" (rec_tags r !! "id")))
  | None => mret None
  end.

(** [src/credentials/anoncreds_core/src/store_storage.rs:59-79] StorageBackedAnonCredsStore::save_link_secret *)
Definition ss_save_link_secret (secret_dec id : string) : eff AnonCredsError ST unit :=
  let record := mkRecord LINK_SECRET_CATEGORY LINK_SECRET_NAME secret_dec {["id" := id]} in
  r ← eff_catch (ss_call "" (st_save record));
  match r with
  | inr _ => mret tt
  | inl _ => ss_call "Save link secret: " (st_update record)
  end.

(** [src/credentials/anoncreds_core/src/store_storage.rs:85-93] StorageBackedAnonCredsStore::save_credential (the tags) *)
Definition credential_tags (cred : StoredCredentialRecord) : gmap string string :=
  foldl (λ tags '(name, val),
           <[("attr::" +:+ name +:+ "::marker")%string := "1"%string]> (<[("attr::" +:+ name +:+ "::value")%string := val]> tags))
    (<["cred_def_id" := scr_cred_def_id cred]> {["schema_id" := scr_schema_id cred]})
    (map_iter (scr_attributes cred)).

(** [src/credentials/anoncreds_core/src/store_storage.rs:81-106] StorageBackedAnonCredsStore::save_credential *)
Definition ss_save_credential (cred : StoredCredentialRecord) : eff AnonCredsError ST unit :=
  value ← ac_lift (λ e, AceStorage ("Serialize credential: " +:+ e)) (sd_to_text cred);
  ss_call "Save credential: " (st_save (mkRecord CREDENTIAL_CATEGORY (scr_credential_id cred) value (credential_tags cred))).

(** [src/credentials/anoncreds_core/src/store_storage.rs:108-124] StorageBackedAnonCredsStore::load_all_credentials *)
Definition ss_load_all_credentials : eff AnonCredsError ST (list StoredCredentialRecord) :=
  records ← ss_call "Load credentials: " (st_find_all CREDENTIAL_CATEGORY q_new);
  mret (omap (λ r, match sd_from_text (rec_value r) with Ok cred => Some cred | _ => None end) records).

(** [src/credentials/anoncreds_core/src/store_storage.rs:126-131] StorageBackedAnonCredsStore::delete_credential *)
Definition ss_delete_credential (credential_id : string) : eff AnonCredsError ST unit :=
  ss_call "Delete credential: " (st_delete CREDENTIAL_CATEGORY credential_id).

(** [src/credentials/anoncreds_core/src/store_storage.rs:133-139] StorageBackedAnonCredsStore::save_cred_def_private *)
Definition ss_save_cred_def_private (cred_def_id json : string) : eff AnonCredsError ST unit :=
  ss_call "Save cred def private: " (st_save (rec_new CRED_DEF_PRIVATE_CATEGORY cred_def_id json)).

(** [src/credentials/anoncreds_core/src/store_storage.rs:141-149] StorageBackedAnonCredsStore::load_all_cred_def_privates *)
Definition ss_load_all_cred_def_privates : eff AnonCredsError ST (list (string * string)) :=
  records ← ss_call "Load cred def privates: " (st_find_all CRED_DEF_PRIVATE_CATEGORY q_new);
  mret ((λ r, (rec_name r, rec_value r)) <$> records).

(** [src/credentials/anoncreds_core/src/store_storage.rs:151-157] StorageBackedAnonCredsStore::save_key_correctness_proof *)
Definition ss_save_proof (cred_def_id json : string) : eff AnonCredsError ST unit :=
  ss_call "Save key correctness proof: " (st_save (rec_new KEY_CORRECTNESS_CATEGORY cred_def_id json)).

(** [src/credentials/anoncreds_core/src/store_storage.rs:159-167] StorageBackedAnonCredsStore::load_all_key_correctness_proofs *)
Definition ss_load_all_proofs : eff AnonCredsError ST (list (string * string)) :=
  records ← ss_call "Load key correctness proofs: " (st_find_all KEY_CORRECTNESS_CATEGORY q_new);
  mret ((λ r, (rec_name r, rec_value r)) <$> records).

(** [src/credentials/anoncreds_core/src/store_storage.rs:169-175] StorageBackedAnonCredsStore::save_request_metadata *)
Definition ss_save_request_metadata (thread_id json : string) : eff AnonCredsError ST unit :=
  ss_call "Save request metadata: " (st_save (rec_new REQUEST_METADATA_CATEGORY thread_id json)).

(** [src/credentials/anoncreds_core/src/store_storage.rs:177-184] StorageBackedAnonCredsStore::load_request_metadata *)
Definition ss_load_request_metadata (thread_id : string) : eff AnonCredsError ST (option string) :=
  record ← ss_call "Load request metadata: " (st_find REQUEST_METADATA_CATEGORY thread_id);
  mret (rec_value <$> record).

(** [src/credentials/anoncreds_core/src/store_storage.rs:186-191] StorageBackedAnonCredsStore::delete_request_metadata *)
Definition ss_delete_request_metadata (thread_id : string) : eff AnonCredsError ST unit :=
  ss_call "Delete request metadata: " (st_delete REQUEST_METADATA_CATEGORY thread_id).

#[export] Instance storage_store : AnonCredsStore ST := {|
  as_load_link_secret := ss_load_link_secret; as_save_link_secret := ss_save_link_secret;
  as_save_credential := ss_save_credential; as_load_all_credentials := ss_load_all_credentials;
  as_delete_credential := ss_delete_credential; as_save_cred_def_private := ss_save_cred_def_private;
  as_load_all_cred_def_privates := ss_load_all_cred_def_privates; as_save_proof := ss_save_proof;
  as_load_all_proofs := ss_load_all_proofs; as_save_request_metadata := ss_save_request_metadata;
  as_load_request_metadata := ss_load_request_metadata; as_delete_request_metadata := ss_delete_request_metadata
|}.
End storage_store.

(** * The holder *)

(** [src/credentials/anoncreds_core/src/holder.rs:19-26] CredentialRevocationContext *)
Record CredentialRevocationContext (Rev : Type) := mkRevContext {
  rcx_rev_reg_id : string; rcx_state : Rev; rcx_timestamp : N
}.
Arguments mkRevContext {Rev}.
Arguments rcx_rev_reg_id {Rev}.
Arguments rcx_state {Rev}.
Arguments rcx_timestamp {Rev}.

Section holder.
Context `{AnoncredsLib} `{HashOrder} `{JsonText} `{UuidText} {G T : Type} `{!AnonCredsRegistry G} `{!AnonCredsStore T}.

(** [src/credentials/anoncreds_core/src/holder.rs:29-41] AnonCredsHolderService *)
Record HolderService := mkHolder {
  hs_registry : G;
  hs_store : option T;
  hs_link_secret : option LinkSecret;
  hs_link_secret_id : string;
  hs_credentials : option (gmap string StoredCredentialRecord);
  hs_request_metadata : gmap string Json
}.

(** [src/credentials/anoncreds_core/src/holder.rs:45-54] AnonCredsHolderService::new *)
Definition hs_new (registry : G) : HolderService := mkHolder registry None None "default" (Some ∅) ∅.

(** [src/credentials/anoncreds_core/src/holder.rs:57-69] AnonCredsHolderService::new_with_store *)
Definition hs_new_with_store (registry : G) (store : T) : HolderService := mkHolder registry (Some store) None "default" None ∅.

Abbreviation hs := (eff AnonCredsError HolderService).

Definition hs_set_store (t : option T) (s : HolderService) : HolderService :=
  mkHolder (hs_registry s) t (hs_link_secret s) (hs_link_secret_id s) (hs_credentials s) (hs_request_metadata s).
Definition hs_set_link_secret (secret : LinkSecret) (s : HolderService) : HolderService :=
  mkHolder (hs_registry s) (hs_store s) (Some secret) (hs_link_secret_id s) (hs_credentials s) (hs_request_metadata s).
Definition hs_set_link_secret_id (id : string) (s : HolderService) : HolderService :=
  mkHolder (hs_registry s) (hs_store s) (hs_link_secret s) id (hs_credentials s) (hs_request_metadata s).
Definition hs_set_credentials (m : option (gmap string StoredCredentialRecord)) (s : HolderService) : HolderService :=
  mkHolder (hs_registry s) (hs_store s) (hs_link_secret s) (hs_link_secret_id s) m (hs_request_metadata s).
Definition hs_set_metadata (m : gmap string Json) (s : HolderService) : HolderService :=
  mkHolder (hs_registry s) (hs_store s) (hs_link_secret s) (hs_link_secret_id s) (hs_credentials s) m.

(** A call of the registry, and a call of the store if there is one. *)
Definition hs_on_registry {A} (m : eff AnonCredsError G A) : hs A :=
  eff_zoom hs_registry (λ g s, mkHolder g (hs_store s) (hs_link_secret s) (hs_link_secret_id s) (hs_credentials s) (hs_request_metadata s)) id m.
Definition hs_on_store {A} (d : A) (m : eff AnonCredsError T A) : hs A := λ s w,
  match hs_store s with
  | None => (Ok d, s, w)
  | Some t => let '(r, t, w) := m t w in (r, hs_set_store (Some t) s, w)
  end.

(** [src/credentials/anoncreds_core/src/holder.rs:72-111] AnonCredsHolderService::ensure_credentials_loaded *)
Definition hs_ensure_credentials_loaded : hs unit :=
  s ← eff_get;
  match hs_credentials s with
  | Some _ => mret tt
  | None =>
      records ← hs_on_store [] as_load_all_credentials;
      eff_modify (hs_set_credentials (Some (foldl (λ m r, <[scr_credential_id r := r]> m) ∅ records)))
  end.

(** [src/credentials/anoncreds_core/src/holder.rs:149-177] AnonCredsHolderService::ensure_link_secret (a new one) *)
Definition hs_create_link_secret : hs unit :=
  secret ← ac_lib al_create_link_secret;
  s ← eff_get;
  _ ← (match hs_store s with
       | None => mret tt
       | Some _ =>
           secret_for_store ← ac_lift (λ e, AceAnoncredsLib ("Clone link secret: " +:+ e)) (ls_try_clone secret);
           secret_dec ← ac_lift (λ e, AceStorage ("Serialize link secret: " +:+ e)) (ls_print secret_for_store);
           hs_on_store tt (as_save_link_secret secret_dec (hs_link_secret_id s))
       end);
  eff_modify (hs_set_link_secret secret).

(** [src/credentials/anoncreds_core/src/holder.rs:114-178] AnonCredsHolderService::ensure_link_secret *)
Definition hs_ensure_link_secret : hs unit :=
  s ← eff_get;
  match hs_link_secret s with
  | Some _ => mret tt
  | None =>
      stored ← hs_on_store None as_load_link_secret;
      match stored with
      | Some (secret_dec, id) =>
          secret ← ac_lift (λ e, AceStorage ("Parse link secret: " +:+ e)) (ls_parse secret_dec);
          _ ← eff_modify (hs_set_link_secret secret);
          eff_modify (hs_set_link_secret_id id)
      | None => hs_create_link_secret
      end
  end.

(** [src/credentials/anoncreds_core/src/holder.rs:181-195] AnonCredsHolderService::set_link_secret *)
Definition hs_install_link_secret (secret : LinkSecret) (id : string) : hs unit :=
  _ ← eff_modify (hs_set_link_secret secret);
  eff_modify (hs_set_link_secret_id id).

(** [src/credentials/anoncreds_core/src/holder.rs:197-208] AnonCredsHolderService::get_link_secret *)
Definition hs_get_link_secret : hs LinkSecret :=
  s ← eff_get;
  match hs_link_secret s with
  | None => eff_throw (AceInvalidInput "Link secret not initialized")
  | Some link_secret => ac_lift (λ e, AceAnoncredsLib ("Clone link secret: " +:+ e)) (ls_try_clone link_secret)
  end.

(** [src/credentials/anoncreds_core/src/holder.rs:219-263] AnonCredsHolderService::create_credential_request *)
Definition hs_create_credential_request (thread_id : string) (cred_offer : CredentialOffer) (cred_def_id entropy : string)
    : hs CredentialRequest :=
  _ ← hs_ensure_link_secret;
  cred_def ← hs_on_registry (rg_get_cred_def cred_def_id);
  link_secret ← hs_get_link_secret;
  link_secret_id ← eff_gets hs_link_secret_id;
  r ← ac_lib (al_create_request (Some entropy) cred_def link_secret link_secret_id cred_offer);
  let '(cred_request, cred_request_metadata) := r in
  metadata_json ← ac_lift (λ e, AceStorage ("Serialize metadata: " +:+ e)) (sd_to_value cred_request_metadata);
  _ ← eff_modify (λ s, hs_set_metadata (<[thread_id := metadata_json]> (hs_request_metadata s)) s);
  _ ← hs_on_store tt (as_save_request_metadata thread_id (json_print metadata_json));
  mret cred_request.

(** [src/credentials/anoncreds_core/src/holder.rs:275-304] AnonCredsHolderService::process_credential (the request metadata) *)
Definition hs_load_metadata (thread_id : string) : hs RequestMetadata :=
  s ← eff_get;
  match hs_request_metadata s !! thread_id with
  | Some metadata_json => ac_lift (λ e, AceStorage ("Deserialize metadata: " +:+ e)) (sd_from_value metadata_json)
  | None =>
      bytes ← hs_on_store None (as_load_request_metadata thread_id);
      match bytes with
      | Some bytes => ac_lift (λ e, AceStorage ("Deserialize metadata: " +:+ e)) (sd_from_text bytes)
      | None => eff_throw (AceNotFound ("Credential request metadata not found for thread: " +:+ thread_id))
      end
  end.

(** [src/credentials/anoncreds_core/src/holder.rs:327-371] AnonCredsHolderService::process_credential (the stored record) *)
Definition hs_store_credential (credential : AcCredential) (cred_def_id : string) : hs string :=
  _ ← hs_ensure_credentials_loaded;
  u ← eff_world uuid_new_v4;
  let credential_id := uuid_to_string u in
  credential_json ← ac_lift (λ e, AceStorage ("Serialize credential: " +:+ e)) (sd_to_value credential);
  let stored := mkStoredCredential credential_id credential_json (ac_schema_id credential) cred_def_id
                  (fst <$> ac_values credential) (ac_rev_reg_id credential) None in
  _ ← eff_modify (λ s, hs_set_credentials (<[credential_id := stored]> <$> hs_credentials s) s);
  _ ← hs_on_store tt (as_save_credential stored);
  mret credential_id.

(** [src/credentials/anoncreds_core/src/holder.rs:266-387] AnonCredsHolderService::process_credential *)
Definition hs_process_credential (thread_id : string) (credential : AcCredential) (cred_def_id : string) : hs string :=
  cred_def ← hs_on_registry (rg_get_cred_def cred_def_id);
  link_secret ← hs_get_link_secret;
  cred_request_metadata ← hs_load_metadata thread_id;
  rev_reg_def ← (match ac_rev_reg_id credential with
                 | Some rev_reg_id => d ← hs_on_registry (rg_get_rev_reg_def rev_reg_id); mret (Some d)
                 | None => mret None
                 end);
  credential ← ac_lib (al_process_credential credential cred_request_metadata link_secret cred_def rev_reg_def);
  credential_id ← hs_store_credential credential cred_def_id;
  _ ← eff_modify (λ s, hs_set_metadata (delete thread_id (hs_request_metadata s)) s);
  _ ← eff_catch (hs_on_store tt (as_delete_request_metadata thread_id));
  mret credential_id.

(** [src/credentials/anoncreds_core/src/holder.rs:400-421] AnonCredsHolderService::set_cred_rev_index *)
Definition hs_set_cred_rev_index (credential_id : string) (cred_rev_index : N) : hs unit :=
  _ ← hs_ensure_credentials_loaded;
  s ← eff_get;
  match hs_credentials s with
  | None => eff_lift Panic
  | Some creds =>
      match creds !! credential_id with
      | None => eff_throw (AceNotFound ("Credential not found: " +:+ credential_id))
      | Some c =>
          let updated := mkStoredCredential (scr_credential_id c) (scr_credential_json c) (scr_schema_id c) (scr_cred_def_id c)
                           (scr_attributes c) (scr_rev_reg_id c) (Some cred_rev_index) in
          _ ← eff_modify (hs_set_credentials (Some (<[credential_id := updated]> creds)));
          hs_on_store tt (as_save_credential updated)
      end
  end.

(** The cache of credentials, once loaded. *)
Definition hs_creds : hs (gmap string StoredCredentialRecord) :=
  s ← eff_get; match hs_credentials s with Some creds => mret creds | None => eff_lift Panic end.
Definition hs_stored (credential_id : string) : hs StoredCredentialRecord :=
  creds ← hs_creds;
  match creds !! credential_id with
  | Some stored => mret stored
  | None => eff_throw (AceNotFound ("Credential not found: " +:+ credential_id))
  end.

(** [src/credentials/anoncreds_core/src/holder.rs:429-489] AnonCredsHolderService::build_revocation_state *)
Definition hs_build_revocation_state `{Serde RevStatusList} (credential_id : string) (previous : option RevocationState)
    : hs (CredentialRevocationContext RevocationState) :=
  _ ← hs_ensure_credentials_loaded;
  stored ← hs_stored credential_id;
  match scr_rev_reg_id stored with
  | None => eff_throw (AceInvalidInput ("Credential " +:+ credential_id +:+ " has no rev_reg_id — issued without revocation"))
  | Some rev_reg_id =>
      match scr_cred_rev_index stored with
      | None =>
          eff_throw (AceInvalidInput ("Credential " +:+ credential_id +:+ " has no cred_rev_index — call set_cred_rev_index first"))
      | Some cred_rev_index =>
          rev_reg_def ← hs_on_registry (rg_get_rev_reg_def rev_reg_id);
          status_list ← hs_on_registry (rg_get_status_list rev_reg_id None);
          state ← ac_lift (λ e, AceAnoncredsLib ("create_or_update_revocation_state: " +:+ e))
                    (al_rev_state (rr_tails_location rev_reg_def) rev_reg_def status_list cred_rev_index previous None);
          let timestamp :=
            match sd_to_value status_list with Ok v => default 0%N (json_get "timestamp" v ≫= json_as_u64) | _ => 0%N end in
          mret (mkRevContext rev_reg_id state timestamp)
      end
  end.

(** [src/credentials/anoncreds_core/src/holder.rs:390-393] AnonCredsHolderService::load_credential *)
Definition hs_load_credential (stored : StoredCredentialRecord) : hs AcCredential :=
  ac_lift (λ e, AceStorage ("Deserialize credential: " +:+ e)) (sd_from_value (scr_credential_json stored)).

(** [src/credentials/anoncreds_core/src/holder.rs:503-510] AnonCredsHolderService::create_presentation (the referents of each credential) *)
Definition group_referents (credential_ids : gmap string (string * bool)) : gmap string (list (string * bool)) :=
  foldl (λ m '(referent, (cred_id, revealed)), <[cred_id := default [] (m !! cred_id) ++ [(referent, revealed)]]> m) ∅
    (map_iter credential_ids).

(** Schemas and credential definitions by their ids, each fetched once. *)
Definition fetch_once {S A} (get : string → eff AnonCredsError S A) (m : gmap string A) (id : string)
    : eff AnonCredsError S (gmap string A) :=
  match m !! id with Some _ => mret m | None => a ← get id; mret (<[id := a]> m) end.
Definition fetch_ids {S} (on : ∀ A, eff AnonCredsError G A → eff AnonCredsError S A)
    (acc : gmap string AcSchema * gmap string CredentialDefinition) (ids : string * string)
    : eff AnonCredsError S (gmap string AcSchema * gmap string CredentialDefinition) :=
  schemas ← fetch_once (λ id, on _ (rg_get_schema id)) acc.1 ids.1;
  cred_defs ← fetch_once (λ id, on _ (rg_get_cred_def id)) acc.2 ids.2;
  mret (schemas, cred_defs).

(** An entry of the presentation: a referent is an attribute or a predicate of the request. *)
Definition present_entry (pres_request : PresentationRequest) (credential : AcCredential)
    (rev_ctx : option (CredentialRevocationContext RevocationState)) (referents : list (string * bool))
    : PresentCredential AcCredential RevocationState :=
  mkPresent credential (rcx_timestamp <$> rev_ctx) (rcx_state <$> rev_ctx)
    (filter (λ r, is_Some (pr_attributes pres_request !! r.1)) referents)
    (fst <$> filter (λ r, pr_attributes pres_request !! r.1 = None ∧ is_Some (pr_predicates pres_request !! r.1)) referents).

(** [src/credentials/anoncreds_core/src/holder.rs:597-685] AnonCredsHolderService::create_presentation_with_revocation *)
Definition hs_create_presentation_with_revocation (pres_request : PresentationRequest)
    (credential_ids : gmap string (string * bool)) (self_attested : option (gmap string string))
    (revocation_contexts : gmap string (CredentialRevocationContext RevocationState)) : hs Presentation :=
  _ ← hs_ensure_link_secret;
  _ ← hs_ensure_credentials_loaded;
  link_secret ← hs_get_link_secret;
  let cred_referents := group_referents credential_ids in
  loaded ← eff_fold (λ m cred_id,
                       stored ← hs_stored cred_id;
                       credential ← hs_load_credential stored;
                       mret (<[cred_id := (credential, (scr_schema_id stored, scr_cred_def_id stored))]> m))
             (∅ : gmap string (AcCredential * (string * string))) (map_iter cred_referents).*1;
  maps ← eff_fold (fetch_ids (λ A, hs_on_registry)) (∅, ∅) (snd <$> (map_iter loaded).*2);
  let entries :=
    omap (λ '(cred_id, referents),
            (λ c, present_entry pres_request c.1 (revocation_contexts !! cred_id) referents) <$> loaded !! cred_id)
      (map_iter cred_referents) in
  ac_lib (al_create_presentation pres_request entries self_attested link_secret maps.1 maps.2).

(** [src/credentials/anoncreds_core/src/holder.rs:492-589] AnonCredsHolderService::create_presentation *)
Definition hs_create_presentation (pres_request : PresentationRequest) (credential_ids : gmap string (string * bool))
    (self_attested : option (gmap string string)) : hs Presentation :=
  hs_create_presentation_with_revocation pres_request credential_ids self_attested ∅.

(** [src/credentials/anoncreds_core/src/holder.rs:688-702] AnonCredsHolderService::get_credential_attributes *)
Definition hs_get_credential_attributes (credential_id : string) : hs (gmap string string) :=
  _ ← hs_ensure_credentials_loaded;
  stored ← hs_stored credential_id;
  mret (scr_attributes stored).

(** [src/credentials/anoncreds_core/src/holder.rs:705-724] AnonCredsHolderService::list_credentials *)
Definition hs_list_credentials : hs (list (string * string * string)) :=
  _ ← hs_ensure_credentials_loaded;
  creds ← hs_creds;
  mret ((λ s, (scr_credential_id s, scr_schema_id s, scr_cred_def_id s)) <$> (map_iter creds).*2).

(** The condition a requested attribute puts on a stored credential. *)
Definition attribute_matches (attr_info : AttributeInfo) (stored : StoredCredentialRecord) : bool :=
  match at_name attr_info with
  | Some name => bool_decide (is_Some (scr_attributes stored !! name))
  | None =>
      match at_names attr_info with
      | Some names => forallb (λ n, bool_decide (is_Some (scr_attributes stored !! n))) names
      | None => false
      end
  end.

(** [src/credentials/anoncreds_core/src/holder.rs:727-775] AnonCredsHolderService::find_credentials_for_request *)
Definition hs_find_credentials_for_request (pres_request : PresentationRequest) : hs (gmap string (list string)) :=
  _ ← hs_ensure_credentials_loaded;
  creds ← hs_creds;
  let matching (p : StoredCredentialRecord → bool) := (filter (λ kv, p kv.2 = true) (map_iter creds)).*1 in
  let result := (λ attr_info, matching (attribute_matches attr_info)) <$> pr_attributes pres_request in
  let preds :=
    (λ pred_info, matching (λ stored, bool_decide (is_Some (scr_attributes stored !! pi_name pred_info)))) <$>
      pr_predicates pres_request in
  mret (preds ∪ result).
End holder.

(** * The issuer *)

Section issuer.
Context `{AnoncredsLib} `{HashOrder} {G T : Type} `{!AnonCredsRegistry G} `{!AnonCredsStore T}.

(** [src/credentials/anoncreds_core/src/issuer.rs:21-29] AnonCredsIssuerService *)
Record IssuerService := mkIssuer {
  is_registry : G;
  is_store : option T;
  is_cred_def_privates : option (gmap string CredentialDefinitionPrivate);
  is_proofs : option (gmap string KeyCorrectnessProof)
}.

(** [src/credentials/anoncreds_core/src/issuer.rs:33-40] AnonCredsIssuerService::new *)
Definition is_new (registry : G) : IssuerService := mkIssuer registry None (Some ∅) (Some ∅).

(** [src/credentials/anoncreds_core/src/issuer.rs:43-53] AnonCredsIssuerService::new_with_store *)
Definition is_new_with_store (registry : G) (store : T) : IssuerService := mkIssuer registry (Some store) None None.

Abbreviation isu := (eff AnonCredsError IssuerService).

Definition is_set_privates (m : option (gmap string CredentialDefinitionPrivate)) (s : IssuerService) : IssuerService :=
  mkIssuer (is_registry s) (is_store s) m (is_proofs s).
Definition is_set_proofs (m : option (gmap string KeyCorrectnessProof)) (s : IssuerService) : IssuerService :=
  mkIssuer (is_registry s) (is_store s) (is_cred_def_privates s) m.
Definition is_on_registry {A} (m : eff AnonCredsError G A) : isu A :=
  eff_zoom is_registry (λ g s, mkIssuer g (is_store s) (is_cred_def_privates s) (is_proofs s)) id m.
Definition is_on_store {A} (d : A) (m : eff AnonCredsError T A) : isu A := λ s w,
  match is_store s with
  | None => (Ok d, s, w)
  | Some t => let '(r, t, w) := m t w in (r, mkIssuer (is_registry s) (Some t) (is_cred_def_privates s) (is_proofs s), w)
  end.

(** The entries of the store that can be read. *)
Definition load_entries {A} `{Serde A} (entries : list (string * string)) : gmap string A :=
  foldl (λ m e, match sd_from_text e.2 with Ok a => <[e.1 := a]> m | _ => m end) ∅ entries.

(** [src/credentials/anoncreds_core/src/issuer.rs:56-97] AnonCredsIssuerService::ensure_privates_loaded *)
Definition is_ensure_privates_loaded : isu unit :=
  s ← eff_get;
  match is_cred_def_privates s with
  | Some _ => mret tt
  | None =>
      entries ← is_on_store [] as_load_all_cred_def_privates;
      eff_modify (is_set_privates (Some (load_entries entries)))
  end.

(** [src/credentials/anoncreds_core/src/issuer.rs:100-141] AnonCredsIssuerService::ensure_proofs_loaded *)
Definition is_ensure_proofs_loaded : isu unit :=
  s ← eff_get;
  match is_proofs s with
  | Some _ => mret tt
  | None =>
      entries ← is_on_store [] as_load_all_proofs;
      eff_modify (is_set_proofs (Some (load_entries entries)))
  end.

(** [src/credentials/anoncreds_core/src/issuer.rs:144-161] AnonCredsIssuerService::create_schema *)
Definition is_create_schema (issuer_id name version : string) (attributes : list string) : isu SchemaRegistration :=
  schema ← ac_lift AceAnoncredsLib (al_create_schema name version issuer_id attributes);
  is_on_registry (rg_register_schema issuer_id schema).

(** [src/credentials/anoncreds_core/src/issuer.rs:184-262] AnonCredsIssuerService::create_credential_definition_with_policy *)
Definition is_create_cred_def_with_policy (issuer_id schema_id tag : string) (support_revocation : bool) (policy_mask : option N)
    : isu CredDefRegistration :=
  _ ← is_ensure_privates_loaded;
  _ ← is_ensure_proofs_loaded;
  schema ← is_on_registry (rg_get_schema schema_id);
  r ← ac_lib (al_create_cred_def schema_id schema issuer_id tag support_revocation);
  let '(cred_def, cred_def_private, key_correctness_proof) := r in
  registration ← is_on_registry (rg_register_cred_def issuer_id cred_def policy_mask);
  let cred_def_id := cr_cred_def_id registration in
  s ← eff_get;
  _ ← (match is_store s with
       | None => mret tt
       | Some _ =>
           private_bytes ← ac_lift (λ e, AceStorage ("Serialize cred def private: " +:+ e)) (sd_to_text cred_def_private);
           _ ← is_on_store tt (as_save_cred_def_private cred_def_id private_bytes);
           proof_bytes ← ac_lift (λ e, AceStorage ("Serialize key correctness proof: " +:+ e)) (sd_to_text key_correctness_proof);
           is_on_store tt (as_save_proof cred_def_id proof_bytes)
       end);
  _ ← eff_modify (λ s, is_set_privates (<[cred_def_id := cred_def_private]> <$> is_cred_def_privates s) s);
  _ ← eff_modify (λ s, is_set_proofs (<[cred_def_id := key_correctness_proof]> <$> is_proofs s) s);
  mret registration.

(** [src/credentials/anoncreds_core/src/issuer.rs:164-179] AnonCredsIssuerService::create_credential_definition *)
Definition is_create_credential_definition (issuer_id schema_id tag : string) (support_revocation : bool) : isu CredDefRegistration :=
  is_create_cred_def_with_policy issuer_id schema_id tag support_revocation None.

(** [src/credentials/anoncreds_core/src/issuer.rs:265-301] AnonCredsIssuerService::create_credential_offer *)
Definition is_create_credential_offer (schema_id cred_def_id : string) : isu CredentialOffer :=
  _ ← is_ensure_proofs_loaded;
  schema_id ← (if decide (schema_id = "") then
                 cred_def ← is_on_registry (rg_get_cred_def cred_def_id); mret (cd_schema_id cred_def)
               else mret schema_id);
  s ← eff_get;
  match is_proofs s with
  | None => eff_lift Panic
  | Some proofs =>
      match proofs !! cred_def_id with
      | None => eff_throw (AceNotFound ("Key correctness proof not found for cred_def: " +:+ cred_def_id))
      | Some key_correctness_proof => ac_lib (al_create_offer schema_id cred_def_id key_correctness_proof)
      end
  end.

(** The private key of a credential definition. *)
Definition is_private_key (cred_def_id : string) : isu CredentialDefinitionPrivate :=
  s ← eff_get;
  match is_cred_def_privates s with
  | None => eff_lift Panic
  | Some privates =>
      match privates !! cred_def_id with
      | None => eff_throw (AceNotFound ("Credential definition private key not found: " +:+ cred_def_id))
      | Some cred_def_private => mret cred_def_private
      end
  end.

(** The values of a credential, added one after the other. *)
Definition make_values (err : string → string → string) (attributes : gmap string string) : outcome AnonCredsError CredentialValues :=
  foldl (λ r '(name, value),
           let? values := r in
           match cv_add_raw name value values with
           | Ok values => Ok values
           | Err e => Err (AceCredential (err name e))
           | Panic => Panic
           end) (Ok cv_default) (map_iter attributes).

(** [src/credentials/anoncreds_core/src/issuer.rs:476-517] AnonCredsIssuerService::create_credential *)
Definition is_create_credential (cred_def_id : string) (cred_offer : CredentialOffer) (cred_request : CredentialRequest)
    (attributes : gmap string string) : isu AcCredential :=
  _ ← is_ensure_privates_loaded;
  cred_def ← is_on_registry (rg_get_cred_def cred_def_id);
  cred_def_private ← is_private_key cred_def_id;
  cred_values ← eff_lift (make_values (λ name e, "Failed to add attribute " +:+ name +:+ ": " +:+ e) attributes);
  ac_lib (al_create_credential cred_def cred_def_private cred_offer cred_request cred_values None).

(** [src/credentials/anoncreds_core/src/issuer.rs:414-473] AnonCredsIssuerService::create_credential_with_revocation *)
Definition is_create_credential_with_revocation (cred_def_id : string) (cred_offer : CredentialOffer)
    (cred_request : CredentialRequest) (attributes : gmap string string) (rev_reg_def_id : string) (rev_reg_def : RevRegDef)
    (rev_reg_priv : RevRegDefPrivate) (cred_rev_index : N) : isu (AcCredential * RevStatusList) :=
  _ ← is_ensure_privates_loaded;
  cred_def ← is_on_registry (rg_get_cred_def cred_def_id);
  current_status_list ← is_on_registry (rg_get_status_list rev_reg_def_id None);
  cred_values ← eff_lift (make_values (λ name e, "attr " +:+ name +:+ ": " +:+ e) attributes);
  cred_def_private ← is_private_key cred_def_id;
  credential ← ac_lib (al_create_credential cred_def cred_def_private cred_offer cred_request cred_values
                         (Some (rev_reg_def, rev_reg_priv, cred_rev_index, current_status_list)));
  mret (credential, current_status_list).

(** [SystemTime::now()] in seconds. *)
Definition unix_seconds : isu N := t ← eff_world utc_now; mret (Z.to_N (t / 1000000000)).

(** [src/credentials/anoncreds_core/src/issuer.rs:313-369] AnonCredsIssuerService::create_revocation_registry *)
Definition is_create_revocation_registry (cred_def_id tag : string) (max_cred_num : N) (tails_dir : option string)
    : isu (string * RevRegDef * RevRegDefPrivate * RevStatusList) :=
  cred_def ← is_on_registry (rg_get_cred_def cred_def_id);
  let issuer_id := cd_issuer_id cred_def in
  r ← (λ s w, let '(r, w) := al_create_rev_reg_def cred_def cred_def_id tag max_cred_num tails_dir w in
              (ac_map (λ e, AceAnoncredsLib ("create_revocation_registry_def: " +:+ e)) r, s, w));
  let '(rev_reg_def, rev_reg_def_priv) := r in
  rev_reg_def_id ← is_on_registry (rg_register_rev_reg_def issuer_id rev_reg_def);
  now ← unix_seconds;
  initial_status ← ac_lift (λ e, AceAnoncredsLib ("create_revocation_status_list: " +:+ e))
                     (al_create_status_list cred_def rev_reg_def_id rev_reg_def rev_reg_def_priv true (Some now));
  _ ← is_on_registry (rg_register_status_list rev_reg_def_id initial_status);
  mret (rev_reg_def_id, rev_reg_def, rev_reg_def_priv, initial_status).

(** [src/credentials/anoncreds_core/src/issuer.rs:374-408] AnonCredsIssuerService::update_status_list *)
Definition is_update_status_list (rev_reg_def_id : string) (rev_reg_def : RevRegDef) (rev_reg_priv : RevRegDefPrivate)
    (cred_def_id : string) (timestamp : option N) (issued revoked : option (gset N)) : isu RevStatusList :=
  cred_def ← is_on_registry (rg_get_cred_def cred_def_id);
  prev ← is_on_registry (rg_get_status_list rev_reg_def_id None);
  ts ← (match timestamp with Some t => mret (Some t) | None => Some <$> unix_seconds end);
  next ← ac_lift (λ e, AceAnoncredsLib ("update_revocation_status_list: " +:+ e))
           (al_update_status_list cred_def rev_reg_def rev_reg_priv prev issued revoked ts);
  _ ← is_on_registry (rg_register_status_list rev_reg_def_id next);
  mret next.
End issuer.

(** * The verifier *)

Section verifier.
Context `{AnoncredsLib} `{HashOrder} {G : Type} `{!AnonCredsRegistry G}.

Abbreviation vs := (eff AnonCredsError G).

(** [src/credentials/anoncreds_core/src/verifier.rs:26-29] AnonCredsVerifierService::generate_nonce *)
Definition vs_generate_nonce : vs Nonce := λ g w,
  let '(r, w) := al_generate_nonce w in (ac_map (λ e, AcePresentation ("Failed to generate nonce: " +:+ e)) r, g, w).

(** [src/credentials/anoncreds_core/src/verifier.rs:32-50] AnonCredsVerifierService::create_presentation_request *)
Definition vs_create_presentation_request (name version : string) (requested_attributes : gmap string AttributeInfo)
    (requested_predicates : gmap string PredicateInfo) : vs PresentationRequest :=
  nonce ← vs_generate_nonce;
  mret (pr_v2 nonce name version requested_attributes requested_predicates None).

(** [src/credentials/anoncreds_core/src/verifier.rs:53-90] AnonCredsVerifierService::verify_presentation *)
Definition vs_verify_presentation (presentation : Presentation) (pres_request : PresentationRequest) : vs bool :=
  maps ← eff_fold (fetch_ids (λ A (m : vs A), m)) (∅, ∅)
           ((λ i, (pid_schema_id i, pid_cred_def_id i)) <$> pn_identifiers presentation);
  ac_lift AceAnoncredsLib (al_verify_presentation presentation pres_request maps.1 maps.2 None None).

(** What an identifier adds: its schema and definition, and the registry and status list of a revocation id seen first. *)
Definition vs_resolve (acc : (gmap string AcSchema * gmap string CredentialDefinition) * gmap string RevRegDef * list RevStatusList)
    (identifier : PresIdentifier) : vs ((gmap string AcSchema * gmap string CredentialDefinition) * gmap string RevRegDef * list RevStatusList) :=
  let '(maps, rev_reg_defs, rev_status_lists) := acc in
  maps ← fetch_ids (λ A (m : vs A), m) maps (pid_schema_id identifier, pid_cred_def_id identifier);
  match pid_rev_reg_id identifier with
  | None => mret (maps, rev_reg_defs, rev_status_lists)
  | Some rev_reg_id =>
      match rev_reg_defs !! rev_reg_id with
      | Some _ => mret (maps, rev_reg_defs, rev_status_lists)
      | None =>
          rev_reg_def ← rg_get_rev_reg_def rev_reg_id;
          status_list ← rg_get_status_list rev_reg_id (pid_timestamp identifier);
          mret (maps, <[rev_reg_id := rev_reg_def]> rev_reg_defs, rev_status_lists ++ [status_list])
      end
  end.

(** [src/credentials/anoncreds_core/src/verifier.rs:100-167] AnonCredsVerifierService::verify_presentation_with_revocation *)
Definition vs_verify_presentation_with_revocation (presentation : Presentation) (pres_request : PresentationRequest) : vs bool :=
  r ← eff_fold vs_resolve ((∅, ∅), ∅, []) (pn_identifiers presentation);
  let '(maps, rev_reg_defs, rev_status_lists) := r in
  ac_lift AceAnoncredsLib
    (al_verify_presentation presentation pres_request maps.1 maps.2
       (if decide (size rev_reg_defs = 0) then None else Some rev_reg_defs)
       (match rev_status_lists with [] => None | _ => Some rev_status_lists end)).

(** [src/credentials/anoncreds_core/src/verifier.rs:170-190] AnonCredsVerifierService::extract_revealed_attributes *)
Definition extract_revealed_attributes (presentation : Presentation) : gmap string string :=
  let result := pn_revealed presentation in
  let result :=
    foldl (λ m '(referent, group), foldl (λ m '(name, value), <[referent +:+ ":" +:+ name := value]> m) m (map_iter group))
      result (map_iter (pn_revealed_groups presentation)) in
  pn_self_attested presentation ∪ result.
End verifier.
