(* ===== verification/Issuance.v ===== *)
(** Issue-credential: the exchange states, roles, records and errors, the DIDComm
    credential formats and the preview attributes ([domain], [repository], [formats],
    [messages/preview.rs] and [lib.rs] of [src/protocols/credentials/src]). *)
From S2P Require Import Prelude AjnaTypes StdText Storage SerdeJson RecordRepo.

(** * States and roles *)

(** [src/protocols/credentials/src/domain/state.rs:18-32] CredentialExchangeState *)
Inductive CredentialExchangeState :=
  | ProposalSent | ProposalReceived | OfferSent | OfferReceived | Declined | RequestSent | RequestReceived
  | CredentialIssued | CredentialReceived | Done | Abandoned.
#[export] Instance cex_state_eq_dec : EqDecision CredentialExchangeState.
Proof. solve_decision. Defined.

(** [src/protocols/credentials/src/domain/role.rs:8-13] CredentialExchangeRole *)
Inductive CredentialExchangeRole := Issuer | Holder.
#[export] Instance cex_role_eq_dec : EqDecision CredentialExchangeRole.
Proof. solve_decision. Defined.

(** [src/protocols/credentials/src/domain/state.rs:36-43] CredentialExchangeState::is_terminal *)
Definition cex_is_terminal (self : CredentialExchangeState) : bool := bool_decide (self = Done ∨ self = Abandoned ∨ self = Declined).

(** [src/protocols/credentials/src/domain/state.rs:46-48] CredentialExchangeState::is_active *)
Definition cex_is_active (self : CredentialExchangeState) : bool := negb (cex_is_terminal self).

(** [src/protocols/credentials/src/domain/state.rs:51-68] CredentialExchangeState::valid_next_states *)
Definition cex_valid_next_states (self : CredentialExchangeState) : list CredentialExchangeState :=
  match self with
  | ProposalSent => [OfferReceived; Declined; Abandoned]
  | ProposalReceived => [OfferSent; Declined; Abandoned]
  | OfferSent => [RequestReceived; Declined; Abandoned]
  | OfferReceived => [RequestSent; Declined; Abandoned]
  | RequestSent => [CredentialReceived; Abandoned]
  | RequestReceived => [CredentialIssued; Abandoned]
  | CredentialIssued => [Done; Abandoned]
  | CredentialReceived => [Done; Abandoned]
  | Done => []
  | Abandoned => []
  | Declined => []
  end.

(** [src/protocols/credentials/src/domain/state.rs:71-73] CredentialExchangeState::can_transition_to *)
Definition cex_can_transition_to (self next : CredentialExchangeState) : bool := bool_decide (next ∈ cex_valid_next_states self).

(** [src/protocols/credentials/src/domain/state.rs:77-92] CredentialExchangeState::fmt *)
Definition cex_state_to_string (self : CredentialExchangeState) : string :=
  match self with
  | ProposalSent => "proposal-sent"
  | ProposalReceived => "proposal-received"
  | OfferSent => "offer-sent"
  | OfferReceived => "offer-received"
  | Declined => "declined"
  | RequestSent => "request-sent"
  | RequestReceived => "request-received"
  | CredentialIssued => "credential-issued"
  | CredentialReceived => "credential-received"
  | Done => "done"
  | Abandoned => "abandoned"
  end.

(** [src/protocols/credentials/src/domain/role.rs:16-22] CredentialExchangeRole::fmt *)
Definition cex_role_to_string (self : CredentialExchangeRole) : string :=
  match self with Issuer => "issuer" | Holder => "holder" end.

(** The derived [Debug] texts. *)
Definition cex_state_debug (self : CredentialExchangeState) : string :=
  match self with
  | ProposalSent => "ProposalSent"
  | ProposalReceived => "ProposalReceived"
  | OfferSent => "OfferSent"
  | OfferReceived => "OfferReceived"
  | Declined => "Declined"
  | RequestSent => "RequestSent"
  | RequestReceived => "RequestReceived"
  | CredentialIssued => "CredentialIssued"
  | CredentialReceived => "CredentialReceived"
  | Done => "Done"
  | Abandoned => "Abandoned"
  end.
Definition cex_role_debug (self : CredentialExchangeRole) : string := match self with Issuer => "Issuer" | Holder => "Holder" end.

(** * Errors *)

(** [src/protocols/credentials/src/lib.rs:70-119] CredentialError (a serializer's error is its text) *)
Inductive CredentialError :=
  | CeNotFound (s : string)
  | CeAlreadyExists (s : string)
  | CeInvalidStateTransition (from to : CredentialExchangeState)
  | CeInvalidRole (expected actual : CredentialExchangeRole)
  | CeInvalidState (expected : list CredentialExchangeState) (actual : CredentialExchangeState)
  | CeMissingThreadId
  | CeMissingAttachment
  | CeInvalidAttachmentFormat (s : string)
  | CeAnonCreds (s : string)
  | CeUnsupportedFormat (s : string)
  | CeFormatService (s : string)
  | CeSerialization (s : string)
  | CeProtocol (s : string).

(** [src/protocols/credentials/src/lib.rs:70-119] CredentialError::to_string (derived by thiserror) *)
Definition ce_to_string (e : CredentialError) : string :=
  match e with
  | CeNotFound s => "Credential exchange not found: " +:+ s
  | CeAlreadyExists s => "Credential exchange already exists: " +:+ s
  | CeInvalidStateTransition from to =>
      "Invalid state transition: from " +:+ cex_state_debug from +:+ " to " +:+ cex_state_debug to
  | CeInvalidRole expected actual =>
      "Invalid role for operation: expected " +:+ cex_role_debug expected +:+ ", got " +:+ cex_role_debug actual
  | CeInvalidState expected actual =>
      "Invalid state for operation: expected one of " +:+ debug_list (cex_state_debug <$> expected) +:+ ", got " +:+ cex_state_debug actual
  | CeMissingThreadId => "Missing thread ID in message"
  | CeMissingAttachment => "Missing attachment in message"
  | CeInvalidAttachmentFormat s => "Invalid attachment format: " +:+ s
  | CeAnonCreds s => "AnonCreds error: " +:+ s
  | CeUnsupportedFormat s => "Unsupported credential format: " +:+ s
  | CeFormatService s => "Credential format service error: " +:+ s
  | CeSerialization s => "Serialization error: " +:+ s
  | CeProtocol s => "Protocol error: " +:+ s
  end.

(** * Records *)

(** [src/protocols/credentials/src/repository/credential_exchange.rs:13-83] CredentialExchangeRecord *)
Record CredentialExchangeRecord := mkCex {
  cx_id : string;
  cx_thread_id : string;
  cx_connection_id : option string;
  cx_role : CredentialExchangeRole;
  cx_state : CredentialExchangeState;
  cx_schema_id : option string;
  cx_cred_def_id : option string;
  cx_credential_format : option string;
  cx_proposal_json : option string;
  cx_offer_json : option string;
  cx_request_json : option string;
  cx_credential_json : option string;
  cx_credential_id : option string;
  cx_error_message : option string;
  cx_auto_issue_attributes : option (gmap string string);
  cx_created_at : Instant;
  cx_updated_at : Instant
}.

(** [src/protocols/credentials/src/repository/credential_exchange.rs:87-112] CredentialExchangeRecord::new *)
Definition cx_new `{UuidText} (role : CredentialExchangeRole) (state : CredentialExchangeState) (thread_id : string) (w : World)
    : CredentialExchangeRecord * World :=
  let '(now, w) := utc_now w in
  let '(u, w) := uuid_new_v4 w in
  (mkCex (uuid_to_string u) thread_id None role state None None None None None None None None None None now now, w).

(** The fields that the code assigns. *)
Definition cx_set_ids (schema_id cred_def_id : option string) (r : CredentialExchangeRecord) : CredentialExchangeRecord :=
  mkCex (cx_id r) (cx_thread_id r) (cx_connection_id r) (cx_role r) (cx_state r) schema_id cred_def_id (cx_credential_format r)
    (cx_proposal_json r) (cx_offer_json r) (cx_request_json r) (cx_credential_json r) (cx_credential_id r) (cx_error_message r)
    (cx_auto_issue_attributes r) (cx_created_at r) (cx_updated_at r).
Definition cx_set_format (f : string) (r : CredentialExchangeRecord) : CredentialExchangeRecord :=
  mkCex (cx_id r) (cx_thread_id r) (cx_connection_id r) (cx_role r) (cx_state r) (cx_schema_id r) (cx_cred_def_id r) (Some f)
    (cx_proposal_json r) (cx_offer_json r) (cx_request_json r) (cx_credential_json r) (cx_credential_id r) (cx_error_message r)
    (cx_auto_issue_attributes r) (cx_created_at r) (cx_updated_at r).
Definition cx_set_proposal (j : string) (r : CredentialExchangeRecord) : CredentialExchangeRecord :=
  mkCex (cx_id r) (cx_thread_id r) (cx_connection_id r) (cx_role r) (cx_state r) (cx_schema_id r) (cx_cred_def_id r) (cx_credential_format r)
    (Some j) (cx_offer_json r) (cx_request_json r) (cx_credential_json r) (cx_credential_id r) (cx_error_message r)
    (cx_auto_issue_attributes r) (cx_created_at r) (cx_updated_at r).
Definition cx_set_offer (j : string) (r : CredentialExchangeRecord) : CredentialExchangeRecord :=
  mkCex (cx_id r) (cx_thread_id r) (cx_connection_id r) (cx_role r) (cx_state r) (cx_schema_id r) (cx_cred_def_id r) (cx_credential_format r)
    (cx_proposal_json r) (Some j) (cx_request_json r) (cx_credential_json r) (cx_credential_id r) (cx_error_message r)
    (cx_auto_issue_attributes r) (cx_created_at r) (cx_updated_at r).
Definition cx_set_request (j : string) (r : CredentialExchangeRecord) : CredentialExchangeRecord :=
  mkCex (cx_id r) (cx_thread_id r) (cx_connection_id r) (cx_role r) (cx_state r) (cx_schema_id r) (cx_cred_def_id r) (cx_credential_format r)
    (cx_proposal_json r) (cx_offer_json r) (Some j) (cx_credential_json r) (cx_credential_id r) (cx_error_message r)
    (cx_auto_issue_attributes r) (cx_created_at r) (cx_updated_at r).
Definition cx_set_credential (j : string) (r : CredentialExchangeRecord) : CredentialExchangeRecord :=
  mkCex (cx_id r) (cx_thread_id r) (cx_connection_id r) (cx_role r) (cx_state r) (cx_schema_id r) (cx_cred_def_id r) (cx_credential_format r)
    (cx_proposal_json r) (cx_offer_json r) (cx_request_json r) (Some j) (cx_credential_id r) (cx_error_message r)
    (cx_auto_issue_attributes r) (cx_created_at r) (cx_updated_at r).
Definition cx_set_credential_id (i : string) (r : CredentialExchangeRecord) : CredentialExchangeRecord :=
  mkCex (cx_id r) (cx_thread_id r) (cx_connection_id r) (cx_role r) (cx_state r) (cx_schema_id r) (cx_cred_def_id r) (cx_credential_format r)
    (cx_proposal_json r) (cx_offer_json r) (cx_request_json r) (cx_credential_json r) (Some i) (cx_error_message r)
    (cx_auto_issue_attributes r) (cx_created_at r) (cx_updated_at r).
Definition cx_set_auto_issue (m : gmap string string) (now : Instant) (r : CredentialExchangeRecord) : CredentialExchangeRecord :=
  mkCex (cx_id r) (cx_thread_id r) (cx_connection_id r) (cx_role r) (cx_state r) (cx_schema_id r) (cx_cred_def_id r) (cx_credential_format r)
    (cx_proposal_json r) (cx_offer_json r) (cx_request_json r) (cx_credential_json r) (cx_credential_id r) (cx_error_message r)
    (Some m) (cx_created_at r) now.

(** [src/protocols/credentials/src/repository/credential_exchange.rs:115-118] CredentialExchangeRecord::update_state *)
Definition cx_update_state (new_state : CredentialExchangeState) (now : Instant) (r : CredentialExchangeRecord) : CredentialExchangeRecord :=
  mkCex (cx_id r) (cx_thread_id r) (cx_connection_id r) (cx_role r) new_state (cx_schema_id r) (cx_cred_def_id r) (cx_credential_format r)
    (cx_proposal_json r) (cx_offer_json r) (cx_request_json r) (cx_credential_json r) (cx_credential_id r) (cx_error_message r)
    (cx_auto_issue_attributes r) (cx_created_at r) now.

(** [src/protocols/credentials/src/repository/credential_exchange.rs:121-124] CredentialExchangeRecord::set_connection_id *)
Definition cx_set_connection_id (connection_id : string) (now : Instant) (r : CredentialExchangeRecord) : CredentialExchangeRecord :=
  mkCex (cx_id r) (cx_thread_id r) (Some connection_id) (cx_role r) (cx_state r) (cx_schema_id r) (cx_cred_def_id r) (cx_credential_format r)
    (cx_proposal_json r) (cx_offer_json r) (cx_request_json r) (cx_credential_json r) (cx_credential_id r) (cx_error_message r)
    (cx_auto_issue_attributes r) (cx_created_at r) now.

(** [src/protocols/credentials/src/repository/credential_exchange.rs:127-131] CredentialExchangeRecord::set_error *)
Definition cx_set_error (error : string) (now : Instant) (r : CredentialExchangeRecord) : CredentialExchangeRecord :=
  mkCex (cx_id r) (cx_thread_id r) (cx_connection_id r) (cx_role r) Abandoned (cx_schema_id r) (cx_cred_def_id r) (cx_credential_format r)
    (cx_proposal_json r) (cx_offer_json r) (cx_request_json r) (cx_credential_json r) (cx_credential_id r) (Some error)
    (cx_auto_issue_attributes r) (cx_created_at r) now.

(** [src/protocols/credentials/src/repository/credential_exchange.rs:134-136] CredentialExchangeRecord::is_done *)
Definition cx_is_done (r : CredentialExchangeRecord) : bool := bool_decide (cx_state r = Done).

(** [src/protocols/credentials/src/repository/credential_exchange.rs:139-141] CredentialExchangeRecord::is_active *)
Definition cx_is_active (r : CredentialExchangeRecord) : bool := cex_is_active (cx_state r).

(** [src/protocols/credentials/src/repository/storage_backed.rs:18-18] CREDENTIAL_EXCHANGE_CATEGORY *)
Definition CREDENTIAL_EXCHANGE_CATEGORY : string := "anoncreds_credential_exchange".

(** An optional tag. *)
Definition tag_opt (k : string) (v : option string) (m : gmap string string) : gmap string string :=
  match v with Some v => <[k := v]> m | None => m end.

(** [src/protocols/credentials/src/repository/storage_backed.rs:91-104] StorageBackedCredentialExchangeRepository::to_storage_record (the tags) *)
Definition cx_tags (r : CredentialExchangeRecord) : gmap string string :=
  tag_opt "cred_def_id" (cx_cred_def_id r) (tag_opt "schema_id" (cx_schema_id r) (tag_opt "connection_id" (cx_connection_id r)
    (<["role" := cex_role_debug (cx_role r)]> (<["state" := cex_state_debug (cx_state r)]> {["thread_id" := cx_thread_id r]})))).

(** [src/protocols/credentials/src/repository/storage_backed.rs:88-112] StorageBackedCredentialExchangeRepository::to_storage_record (the kind of record) *)
#[export] Instance cex_kind `{Serde CredentialExchangeRecord} : RecordKind CredentialExchangeRecord CredentialError := {|
  rk_key := {| rk_id := cx_id; rk_already := CeAlreadyExists; rk_not_found := CeNotFound |};
  rk_category := CREDENTIAL_EXCHANGE_CATEGORY;
  rk_tags := cx_tags;
  rk_encode r := match sd_to_text r with Ok s => Ok s | Err e => Err (CeSerialization e) | Panic => Panic end;
  rk_decode s := match sd_from_text s with Ok r => Some r | _ => None end;
  rk_load_failed e := CeProtocol ("Failed to load credential exchanges: " +:+ ag_to_string e);
  rk_save_failed e := CeProtocol ("Failed to save credential exchange: " +:+ ag_to_string e);
  rk_update_failed e := CeProtocol ("Failed to update credential exchange: " +:+ ag_to_string e);
  rk_delete_failed e := CeProtocol ("Failed to delete credential exchange: " +:+ ag_to_string e)
|}.
#[export] Instance cex_kind_laws `{JsonText} `{Serde CredentialExchangeRecord} `{!SerdeLaws CredentialExchangeRecord} :
  RecordKindLaws CredentialExchangeRecord CredentialError.
Proof.
  apply exact_kind_laws. intros x v Hv. cbn in *. destruct (sd_to_text x) as [s| |] eqn:Hs; try done. injection Hv as ->.
  by rewrite (sd_text_back _ _ Hs).
Defined.

(** [src/protocols/credentials/src/events.rs:32-39] CredentialStateChangedPayload *)
Record CredentialStateChangedPayload := mkStateChanged {
  csc_record : CredentialExchangeRecord;
  csc_previous_state : option CredentialExchangeState
}.

(** * Formats *)

(** [src/protocols/credentials/src/messages/mod.rs:52-52] formats::ANONCREDS_CREDENTIAL_OFFER *)
Definition ANONCREDS_CREDENTIAL_OFFER : string := "anoncreds/credential-offer@v1.0".
(** [src/protocols/credentials/src/messages/mod.rs:53-53] formats::ANONCREDS_CREDENTIAL_REQUEST *)
Definition ANONCREDS_CREDENTIAL_REQUEST : string := "anoncreds/credential-request@v1.0".
(** [src/protocols/credentials/src/messages/mod.rs:54-54] formats::ANONCREDS_CREDENTIAL *)
Definition ANONCREDS_CREDENTIAL : string := "anoncreds/credential@v1.0".
(** [src/protocols/credentials/src/messages/mod.rs:59-59] formats::JSONLD_LD_PROOF_VC_DETAIL *)
Definition JSONLD_LD_PROOF_VC_DETAIL : string := "aries/ld-proof-vc-detail@v1.0".
(** [src/protocols/credentials/src/messages/mod.rs:61-61] formats::JSONLD_LD_PROOF_VC *)
Definition JSONLD_LD_PROOF_VC : string := "aries/ld-proof-vc@v1.0".
(** [src/protocols/credentials/src/messages/mod.rs:64-64] formats::JWT_VC_DETAIL *)
Definition JWT_VC_DETAIL : string := "aries/jwt-vc-detail@v1.0".
(** [src/protocols/credentials/src/messages/mod.rs:65-65] formats::JWT_VC *)
Definition JWT_VC : string := "aries/jwt-vc@v1.0".
(** [src/protocols/credentials/src/messages/mod.rs:68-68] formats::SD_JWT_VC_DETAIL *)
Definition SD_JWT_VC_DETAIL : string := "vc+sd-jwt-detail@v1.0".
(** [src/protocols/credentials/src/messages/mod.rs:69-69] formats::SD_JWT_VC *)
Definition SD_JWT_VC : string := "vc+sd-jwt@v1.0".

(** [src/protocols/credentials/src/messages/mod.rs:72-74] is_anoncreds *)
Definition is_anoncreds (format_id : string) : bool := str_starts_with format_id "anoncreds/".

(** [src/protocols/credentials/src/messages/mod.rs:79-83] is_w3c *)
Definition is_w3c (format_id : string) : bool :=
  str_contains format_id "ld-proof-vc" || str_contains format_id "jwt-vc" || str_contains format_id "sd-jwt".

(** [src/protocols/credentials/src/formats/mod.rs:25-33] DidCommCredentialFormat *)
Inductive DidCommCredentialFormat := JsonLd | JwtVc | SdJwt.
#[export] Instance format_eq_dec : EqDecision DidCommCredentialFormat.
Proof. solve_decision. Defined.

(** [src/protocols/credentials/src/formats/mod.rs:48-54] DidCommCredentialFormat::detail_format_id *)
Definition detail_format_id (self : DidCommCredentialFormat) : string :=
  match self with
  | JsonLd => JSONLD_LD_PROOF_VC_DETAIL
  | JwtVc => JWT_VC_DETAIL
  | SdJwt => SD_JWT_VC_DETAIL
  end.

(** [src/protocols/credentials/src/formats/mod.rs:58-64] DidCommCredentialFormat::credential_format_id *)
Definition credential_format_id (self : DidCommCredentialFormat) : string :=
  match self with
  | JsonLd => JSONLD_LD_PROOF_VC
  | JwtVc => JWT_VC
  | SdJwt => SD_JWT_VC
  end.

(** [src/protocols/credentials/src/formats/mod.rs:68-74] DidCommCredentialFormat::default_algorithm *)
Definition default_algorithm (self : DidCommCredentialFormat) : option string :=
  match self with
  | JsonLd => Some "Ed25519Signature2020"
  | JwtVc => Some "EdDSA"
  | SdJwt => None
  end.

(** [src/protocols/credentials/src/formats/mod.rs:79-89] DidCommCredentialFormat::from_format_id *)
Definition from_format_id (format_id : string) : option DidCommCredentialFormat :=
  if str_contains format_id "ld-proof-vc" then Some JsonLd
  else if str_contains format_id "jwt-vc" then Some JwtVc
  else if str_contains format_id "sd-jwt" then Some SdJwt
  else None.

(** Every id a format puts on the wire is read as that format; the predicates agree. *)
Lemma format_ids_roundtrip f :
  from_format_id (detail_format_id f) = Some f ∧ from_format_id (credential_format_id f) = Some f.
Proof. by destruct f. Qed.
Lemma is_w3c_from_format_id s : is_w3c s = bool_decide (is_Some (from_format_id s)).
Proof. unfold is_w3c, from_format_id. by repeat case_match. Qed.

(** [src/protocols/credentials/src/formats/mod.rs:99-104] CredentialDetail *)
Record CredentialDetail := mkDetail { dt_credential : Json; dt_options : option Json }.

(** [src/protocols/credentials/src/formats/mod.rs:128-134] CredentialDetail::verification_method *)
Definition dt_verification_method (self : CredentialDetail) : option string :=
  o ← dt_options self; json_get "verificationMethod" o ≫= json_as_str.

(** [src/protocols/credentials/src/formats/mod.rs:137-143] CredentialDetail::proof_type *)
Definition dt_proof_type (self : CredentialDetail) : option string :=
  o ← dt_options self; json_get "proofType" o ≫= json_as_str.

(** The derived serializer: the options are left out when there are none. *)
Definition dt_to_json (self : CredentialDetail) : Json :=
  JObject (("credential", dt_credential self) :: match dt_options self with Some o => [("options", o)] | None => [] end).

(** [src/protocols/credentials/src/formats/mod.rs:118-125] CredentialDetail::from_json (an object with a credential is read field by field) *)
Definition dt_from_json `{JsonText} (s : string) : outcome string CredentialDetail :=
  let? value := json_parse s in
  match json_get "credential" value with
  | Some credential =>
      Ok (mkDetail credential (match json_get "options" value with Some JNull | None => None | Some o => Some o end))
  | None => Ok (mkDetail value None)
  end.

(** * Preview attributes *)

(** [src/protocols/credentials/src/messages/preview.rs:7-13] CredentialPreviewAttribute *)
Record CredentialPreviewAttribute := mkPreview { pv_name : string; pv_value : string; pv_mime_type : option string }.
#[export] Instance preview_eq_dec : EqDecision CredentialPreviewAttribute.
Proof. solve_decision. Defined.

(** The loop that rejects a repeated name. *)
Fixpoint names_distinct (seen : gset string) (l : list CredentialPreviewAttribute) : bool :=
  match l with
  | [] => true
  | attr :: l => if decide (pv_name attr ∈ seen) then false else names_distinct ({[pv_name attr]} ∪ seen) l
  end.

(** [src/protocols/credentials/src/messages/preview.rs:31-72] are_preview_attributes_equal *)
Definition are_preview_attributes_equal (a b : list CredentialPreviewAttribute) : bool :=
  if negb (length a =? length b) then false
  else if negb (names_distinct ∅ a) then false
  else if negb (names_distinct ∅ b) then false
  else
    let b_by_name := foldl (λ m attr, <[pv_name attr := attr]> m) (∅ : gmap string CredentialPreviewAttribute) b in
    forallb (λ attr, match b_by_name !! pv_name attr with Some other => bool_decide (attr = other) | None => false end) a.

Lemma names_distinct_spec seen l :
  names_distinct seen l = true ↔ NoDup (pv_name <$> l) ∧ ∀ x, x ∈ l → pv_name x ∉ seen.
Proof.
  revert seen. induction l as [|x l IH]; intros seen; cbn.
  - split; [intros _; split; [constructor|]; set_solver|done].
  - case_decide as Hx.
    + split; [done|]. intros [_ Hn]. exfalso. apply (Hn x); [left|done].
    + rewrite IH, NoDup_cons. split.
      * intros [Hnd Hn]. split_and!; [|done|].
        -- intros (y&Hy&Hin)%list_elem_of_fmap. apply (Hn y Hin). rewrite <-Hy. set_solver.
        -- intros y [->|Hy]%elem_of_cons; [done|]. specialize (Hn y Hy). set_solver.
      * intros [[Hnotin Hnd] Hn]. split; [done|]. intros y Hy [Heq%elem_of_singleton|Hs]%elem_of_union.
        -- apply Hnotin. rewrite <-Heq. by apply list_elem_of_fmap_2.
        -- apply (Hn y); [by right|done].
Qed.

Lemma by_name_lookup (l : list CredentialPreviewAttribute) (m : gmap string CredentialPreviewAttribute) n :
  NoDup (pv_name <$> l) →
  foldl (λ m attr, <[pv_name attr := attr]> m) m l !! n =
    match find_first (λ x, pv_name x = n) l with Some x => Some x | None => m !! n end.
Proof.
  revert m. induction l as [|x l IH]; intros m Hnd; [done|]. cbn [foldl]. apply NoDup_cons in Hnd as [Hx Hnd].
  rewrite IH by done. unfold find_first in *. cbn [list_find]. case_decide as Hn.
  - cbn. destruct (list_find _ l) as [[i y]|] eqn:Hf; cbn; [|by rewrite Hn, lookup_insert_eq].
    apply list_find_Some in Hf as (Hi & Hy & _). exfalso. apply Hx. rewrite Hn, <-Hy.
    apply list_elem_of_fmap_2. by eapply list_elem_of_lookup_2.
  - destruct (list_find _ l) as [[i y]|]; cbn; [done|]. by rewrite lookup_insert_ne.
Qed.

Lemma find_first_name (l : list CredentialPreviewAttribute) x :
  NoDup (pv_name <$> l) → find_first (λ y, pv_name y = pv_name x) l = Some x ↔ x ∈ l.
Proof.
  intros Hnd. split; [by intros [Hx _]%find_first_Some|]. intros Hx.
  destruct (find_first_is_Some (λ y, pv_name y = pv_name x) l x Hx eq_refl) as [y Hy]. rewrite Hy. f_equal.
  apply find_first_Some in Hy as [Hin Hname]. clear -Hnd Hin Hx Hname.
  induction l as [|z l IH]; [by apply elem_of_nil in Hx|]. apply NoDup_cons in Hnd as [Hz Hnd].
  apply elem_of_cons in Hx as [->|Hx], Hin as [->|Hin]; [done|..|by apply IH].
  - exfalso. apply Hz. rewrite <-Hname. by apply list_elem_of_fmap_2.
  - exfalso. apply Hz. rewrite Hname. by apply list_elem_of_fmap_2.
Qed.

(** Two previews are equal when neither repeats a name and one is a permutation of the other. *)
Theorem previews_equal_iff a b :
  are_preview_attributes_equal a b = true ↔ NoDup (pv_name <$> a) ∧ a ≡ₚ b.
Proof.
  unfold are_preview_attributes_equal. split.
  - destruct (Nat.eqb_spec (length a) (length b)) as [Hlen|]; [cbn|done].
    destruct (names_distinct ∅ a) eqn:Ha; [cbn|done]. destruct (names_distinct ∅ b) eqn:Hb; [cbn|done].
    apply names_distinct_spec in Ha as [Ha _], Hb as [Hb _]. intros Hall. split; [done|].
    assert (Hsub : a ⊆ b).
    { intros x Hx. rewrite forallb_forall in Hall. specialize (Hall x). rewrite <-list_elem_of_In in Hall.
      specialize (Hall Hx). rewrite by_name_lookup in Hall by done. rewrite lookup_empty in Hall.
      destruct (find_first _ b) as [y|] eqn:Hy; [|done]. apply bool_decide_eq_true in Hall as <-.
      by apply find_first_Some in Hy as [??]. }
    apply submseteq_length_Permutation; [|lia]. apply NoDup_submseteq; [by eapply NoDup_fmap_1|done].
  - intros [Ha Hp]. assert (Hb : NoDup (pv_name <$> b)) by (by rewrite <-Hp).
    rewrite (Permutation_length Hp), Nat.eqb_refl. cbn.
    rewrite (proj2 (names_distinct_spec ∅ a)) by (split; [done|set_solver]).
    rewrite (proj2 (names_distinct_spec ∅ b)) by (split; [done|set_solver]). cbn.
    apply forallb_forall. intros x Hx%list_elem_of_In. rewrite by_name_lookup by done.
    rewrite (proj2 (find_first_name b x Hb)) by (by rewrite <-Hp). by apply bool_decide_eq_true.
Qed.
