(* ===== verification/IssuanceMessages.v ===== *)
(** The messages of issue-credential: propose, offer, request, issue, ack and problem
    report, and their DIDComm forms ([src/protocols/credentials/src/messages]).

    A constructor draws its ids from the world, and so does the builder, which makes an id
    of its own before it is given one.  Taking the attachment id of a message without
    formats is a panic. *)
From S2P Require Import Prelude AjnaTypes StdText SerdeJson Attach64 Didcomm RecordRepo Storage Issuance.

(** [src/protocols/credentials/src/messages/mod.rs:87-93] AttachmentFormatDescriptor *)
Record AttachmentFormatDescriptor := mkFormat { fd_attach_id : string; fd_format : string }.

(** The derived serializers of the descriptors. *)
Definition fd_to_json (f : AttachmentFormatDescriptor) : Json :=
  JObject [("attach_id", JString (fd_attach_id f)); ("format", JString (fd_format f))].
Definition fd_from_json (v : Json) : option AttachmentFormatDescriptor :=
  p ← sv_struct2 "attach_id" "format" v; Some (mkFormat p.1 p.2).
Definition formats_to_json (l : list AttachmentFormatDescriptor) : Json := JArray (fd_to_json <$> l).

(** The descriptors and a text in the body of a message. *)
Definition body_formats (body : Json) : list AttachmentFormatDescriptor :=
  default [] (v ← json_get "formats" body; l ← json_as_array v; mapM fd_from_json l).
Definition body_text (key : string) (body : Json) : option string := json_get key body ≫= json_as_str.

Section messages.
Context `{JsonText} `{Base64Engine} `{UuidText}.

(** [src/protocols/credentials/src/messages/mod.rs:108-117] v2_attachment *)
Definition v2_attachment (attach_id format json_str : string) : Json :=
  JObject [("@id", JString attach_id); ("mime-type", JString "application/json"); ("format", JString format);
           ("data", JObject [("base64", JString (b64_encode json_str))])].

(** [src/protocols/credentials/src/messages/mod.rs:122-134] extract_v2_attach *)
Definition extract_v2_attach (body : Json) (decorator : string) : option string :=
  l ← json_get decorator body ≫= json_as_array;
  att ← head l;
  data ← json_get "data" att;
  match json_get "base64" data ≫= json_as_str with
  | Some b64 => bytes ← b64_decode b64; match from_utf8 bytes with Ok s => Some s | _ => None end
  | None => json_print <$> json_get "json" data
  end.

(** [src/protocols/credentials/src/messages/offer.rs:173-209] extract_attachment_json *)
Definition extract_attachment_json (message : Message) : outcome CredentialError string :=
  match msg_attachments message with
  | None | Some [] => Err CeMissingAttachment
  | Some (attachment :: _) =>
      let d := at_data attachment in
      match ad_json d, ad_base64 d with
      | Some json, _ => Ok (json_print json)
      | None, Some data =>
          match cred_base64_decode (String.list_ascii_of_string data) with
          | Ok decoded =>
              match from_utf8 (string_of_bytes decoded) with
              | Ok s => Ok s
              | Err e => Err (CeInvalidAttachmentFormat ("Base64 attachment is not valid UTF-8: " +:+ e))
              | Panic => Panic
              end
          | Err e => Err (CeInvalidAttachmentFormat ("Failed to decode base64 attachment: " +:+ e))
          | Panic => Panic
          end
      | None, None => Err (CeInvalidAttachmentFormat "Unsupported attachment data format")
      end
  end.

(** A payload that is attached as a value: text that does not parse becomes [null]. *)
Definition payload_value (json_str : string) : Json := match json_parse json_str with Ok v => v | _ => JNull end.
Definition json_attachment (attach_id format : string) (value : Json) : Attachment :=
  mkAttachment (Some attach_id) None None (Some "application/json") (Some format) None None (ad_of_json value).

(** The first attachment id of a message, [self.formats[0].attach_id]. *)
Definition first_attach_id {E S} (l : list AttachmentFormatDescriptor) : eff E S string :=
  match l with f :: _ => mret (fd_attach_id f) | [] => eff_lift Panic end.

(** The builder: [Message::builder(TYPE).id(..).body(..).thread(..)]. *)
Definition build_message {E S} (type id : string) (body : Json) (thread_id : string) : eff E S Message :=
  m ← eff_world (mb_new type); mret (mb_thread thread_id (mb_body body (mb_id id m))).

(** ** Offer *)

(** [src/protocols/credentials/src/messages/offer.rs:10-26] OfferCredentialMessage *)
Record OfferCredentialMessage := mkOffer {
  om_id : string; om_thread_id : string; om_formats : list AttachmentFormatDescriptor; om_comment : option string; om_json : string
}.

(** [src/protocols/credentials/src/messages/offer.rs:30-30] OfferCredentialMessage::TYPE *)
Definition OFFER_TYPE : string := "https://didcomm.org/issue-credential/2.0/offer-credential".

(** [src/protocols/credentials/src/messages/offer.rs:82-95] OfferCredentialMessage::new_with_format *)
Definition om_new_with_format {E S} (credential_offer_json format_id : string) : eff E S OfferCredentialMessage :=
  id ← new_id;
  attach_id ← new_id;
  mret (mkOffer id id [mkFormat attach_id format_id] None credential_offer_json).

(** [src/protocols/credentials/src/messages/offer.rs:62-76] OfferCredentialMessage::new *)
Definition om_new {E S} (credential_offer_json : string) : eff E S OfferCredentialMessage :=
  om_new_with_format credential_offer_json ANONCREDS_CREDENTIAL_OFFER.

(** [src/protocols/credentials/src/messages/offer.rs:99-101] OfferCredentialMessage::format_id *)
Definition om_format_id (self : OfferCredentialMessage) : option string := fd_format <$> head (om_formats self).

(** [src/protocols/credentials/src/messages/offer.rs:104-107] OfferCredentialMessage::with_comment *)
Definition om_with_comment (comment : string) (self : OfferCredentialMessage) : OfferCredentialMessage :=
  mkOffer (om_id self) (om_thread_id self) (om_formats self) (Some comment) (om_json self).

(** [src/protocols/credentials/src/messages/offer.rs:36-59] OfferCredentialMessage::to_aries_v2_value *)
Definition om_to_aries_v2_value {E S} (self : OfferCredentialMessage) (preview_attributes : list (string * string)) : eff E S Json :=
  attach_id ← first_attach_id (om_formats self);
  let attrs := (λ '(n, v), JObject [("name", JString n); ("value", JString v)]) <$> preview_attributes in
  mret (JObject
    [("@type", JString OFFER_TYPE); ("@id", JString (om_id self)); ("comment", json_of_option (om_comment self));
     ("credential_preview", JObject [("@type", JString "https://didcomm.org/issue-credential/2.0/credential-preview");
                                     ("attributes", JArray attrs)]);
     ("formats", formats_to_json (om_formats self));
     ("offers~attach", JArray [v2_attachment attach_id ANONCREDS_CREDENTIAL_OFFER (om_json self)])]).

(** [src/protocols/credentials/src/messages/offer.rs:110-142] OfferCredentialMessage::to_didcomm_message *)
Definition om_to_didcomm {E S} (self : OfferCredentialMessage) : eff E S Message :=
  attach_id ← first_attach_id (om_formats self);
  let body := JObject [("formats", formats_to_json (om_formats self)); ("comment", json_of_option (om_comment self))] in
  let attachment :=
    json_attachment attach_id (default ANONCREDS_CREDENTIAL_OFFER (om_format_id self)) (payload_value (om_json self)) in
  m ← build_message OFFER_TYPE (om_id self) body (om_thread_id self);
  mret (mb_add_attachment attachment m).

(** [src/protocols/credentials/src/messages/offer.rs:145-169] OfferCredentialMessage::from_didcomm_message *)
Definition om_from_didcomm (message : Message) : outcome CredentialError OfferCredentialMessage :=
  let? credential_offer_json := extract_attachment_json message in
  Ok (mkOffer (msg_id message) (msg_thread_id message) (body_formats (msg_body message)) (body_text "comment" (msg_body message))
        credential_offer_json).

(** ** Request *)

(** [src/protocols/credentials/src/messages/request.rs:10-27] RequestCredentialMessage *)
Record RequestCredentialMessage := mkRequest {
  rm_id : string; rm_thread_id : string; rm_formats : list AttachmentFormatDescriptor; rm_comment : option string; rm_json : string
}.

(** [src/protocols/credentials/src/messages/request.rs:31-31] RequestCredentialMessage::TYPE *)
Definition REQUEST_TYPE : string := "https://didcomm.org/issue-credential/2.0/request-credential".

(** [src/protocols/credentials/src/messages/request.rs:53-70] RequestCredentialMessage::new_with_format *)
Definition rm_new_with_format {E S} (thread_id credential_request_json format_id : string) : eff E S RequestCredentialMessage :=
  id ← new_id;
  attach_id ← new_id;
  mret (mkRequest id thread_id [mkFormat attach_id format_id] None credential_request_json).

(** [src/protocols/credentials/src/messages/request.rs:34-48] RequestCredentialMessage::new *)
Definition rm_new {E S} (thread_id credential_request_json : string) : eff E S RequestCredentialMessage :=
  rm_new_with_format thread_id credential_request_json ANONCREDS_CREDENTIAL_REQUEST.

(** [src/protocols/credentials/src/messages/request.rs:73-75] RequestCredentialMessage::format_id *)
Definition rm_format_id (self : RequestCredentialMessage) : option string := fd_format <$> head (rm_formats self).

(** [src/protocols/credentials/src/messages/request.rs:78-81] RequestCredentialMessage::with_comment *)
Definition rm_with_comment (comment : string) (self : RequestCredentialMessage) : RequestCredentialMessage :=
  mkRequest (rm_id self) (rm_thread_id self) (rm_formats self) (Some comment) (rm_json self).

(** [src/protocols/credentials/src/messages/request.rs:84-116] RequestCredentialMessage::to_didcomm_message *)
Definition rm_to_didcomm {E S} (self : RequestCredentialMessage) : eff E S Message :=
  attach_id ← first_attach_id (rm_formats self);
  let body := JObject [("formats", formats_to_json (rm_formats self)); ("comment", json_of_option (rm_comment self))] in
  let attachment :=
    json_attachment attach_id (default ANONCREDS_CREDENTIAL_REQUEST (rm_format_id self)) (payload_value (rm_json self)) in
  m ← build_message REQUEST_TYPE (rm_id self) body (rm_thread_id self);
  mret (mb_add_attachment attachment m).

(** [src/protocols/credentials/src/messages/request.rs:119-147] RequestCredentialMessage::from_didcomm_message *)
Definition rm_from_didcomm (message : Message) : outcome CredentialError RequestCredentialMessage :=
  let? credential_request_json :=
    match extract_v2_attach (msg_body message) "requests~attach" with
    | Some s => Ok s
    | None => extract_attachment_json message
    end in
  Ok (mkRequest (msg_id message) (msg_thread_id message) (body_formats (msg_body message)) (body_text "comment" (msg_body message))
        credential_request_json).

(** ** Issue *)

(** [src/protocols/credentials/src/messages/issue.rs:10-27] IssueCredentialMessage *)
Record IssueCredentialMessage := mkIssue {
  im_id : string; im_thread_id : string; im_formats : list AttachmentFormatDescriptor; im_comment : option string; im_json : string
}.

(** [src/protocols/credentials/src/messages/issue.rs:31-31] IssueCredentialMessage::TYPE *)
Definition ISSUE_TYPE : string := "https://didcomm.org/issue-credential/2.0/issue-credential".

(** [src/protocols/credentials/src/messages/issue.rs:53-66] IssueCredentialMessage::new_with_format *)
Definition im_new_with_format {E S} (thread_id credential_json format_id : string) : eff E S IssueCredentialMessage :=
  id ← new_id;
  attach_id ← new_id;
  mret (mkIssue id thread_id [mkFormat attach_id format_id] None credential_json).

(** [src/protocols/credentials/src/messages/issue.rs:34-48] IssueCredentialMessage::new *)
Definition im_new {E S} (thread_id credential_json : string) : eff E S IssueCredentialMessage :=
  im_new_with_format thread_id credential_json ANONCREDS_CREDENTIAL.

(** [src/protocols/credentials/src/messages/issue.rs:69-71] IssueCredentialMessage::format_id *)
Definition im_format_id (self : IssueCredentialMessage) : option string := fd_format <$> head (im_formats self).

(** [src/protocols/credentials/src/messages/issue.rs:74-77] IssueCredentialMessage::with_comment *)
Definition im_with_comment (comment : string) (self : IssueCredentialMessage) : IssueCredentialMessage :=
  mkIssue (im_id self) (im_thread_id self) (im_formats self) (Some comment) (im_json self).

(** [src/protocols/credentials/src/messages/issue.rs:82-110] IssueCredentialMessage::to_didcomm_message *)
Definition im_to_didcomm {E S} (self : IssueCredentialMessage) : eff E S Message :=
  attach_id ← first_attach_id (im_formats self);
  let body := JObject
    [("@type", JString ISSUE_TYPE); ("@id", JString (im_id self)); ("~thread", JObject [("thid", JString (im_thread_id self))]);
     ("formats", formats_to_json (im_formats self)); ("comment", json_of_option (im_comment self));
     ("credentials~attach", JArray [v2_attachment attach_id (default ANONCREDS_CREDENTIAL (im_format_id self)) (im_json self)])] in
  build_message ISSUE_TYPE (im_id self) body (im_thread_id self).

(** [src/protocols/credentials/src/messages/issue.rs:113-142] IssueCredentialMessage::from_didcomm_message *)
Definition im_from_didcomm (message : Message) : outcome CredentialError IssueCredentialMessage :=
  let? credential_json :=
    match extract_v2_attach (msg_body message) "credentials~attach" with
    | Some s => Ok s
    | None => extract_attachment_json message
    end in
  Ok (mkIssue (msg_id message) (msg_thread_id message) (body_formats (msg_body message)) (body_text "comment" (msg_body message))
        credential_json).

(** ** Ack *)

(** [src/protocols/credentials/src/messages/ack.rs:20-26] AckStatus *)
Inductive AckStatus := AckOk | AckFail | AckPending.

(** [src/protocols/credentials/src/messages/ack.rs:7-17] AckMessage *)
Record AckMessage := mkAck { am_id : string; am_thread_id : string; am_status : AckStatus }.

(** [src/protocols/credentials/src/messages/ack.rs:30-30] AckMessage::TYPE *)
Definition ACK_TYPE : string := "https://didcomm.org/issue-credential/2.0/ack".

Definition ack_statuses : list (string * AckStatus) := [("OK", AckOk); ("FAIL", AckFail); ("PENDING", AckPending)].
Definition ack_status_name (s : AckStatus) : string := match s with AckOk => "OK" | AckFail => "FAIL" | AckPending => "PENDING" end.

(** [src/protocols/credentials/src/messages/ack.rs:33-39] AckMessage::new *)
Definition ack_new {E S} (thread_id : string) (status : AckStatus) : eff E S AckMessage :=
  id ← new_id; mret (mkAck id thread_id status).

(** [src/protocols/credentials/src/messages/ack.rs:42-44] AckMessage::ok *)
Definition am_ok {E S} (thread_id : string) : eff E S AckMessage := ack_new thread_id AckOk.

(** [src/protocols/credentials/src/messages/ack.rs:47-57] AckMessage::to_didcomm_message *)
Definition am_to_didcomm {E S} (self : AckMessage) : eff E S Message :=
  build_message ACK_TYPE (am_id self) (JObject [("status", JString (ack_status_name (am_status self)))]) (am_thread_id self).

(** [src/protocols/credentials/src/messages/ack.rs:60-74] AckMessage::from_didcomm_message *)
Definition am_from_didcomm (message : Message) : outcome CredentialError AckMessage :=
  let status := default AckOk (json_get "status" (msg_body message) ≫= sv_variant ack_statuses) in
  Ok (mkAck (msg_id message) (msg_thread_id message) status).

(** ** Proposal *)

(** [src/protocols/credentials/src/messages/propose.rs:13-41] ProposeCredentialMessage *)
Record ProposeCredentialMessage := mkPropose {
  pm_id : string; pm_thread_id : string; pm_formats : list AttachmentFormatDescriptor; pm_comment : option string;
  pm_goal_code : option string; pm_goal : option string; pm_json : string
}.

(** [src/protocols/credentials/src/messages/propose.rs:45-45] ProposeCredentialMessage::TYPE *)
Definition PROPOSE_TYPE : string := "https://didcomm.org/issue-credential/3.0/propose-credential".

(** [src/protocols/credentials/src/messages/propose.rs:48-64] ProposeCredentialMessage::new *)
Definition pm_new {E S} (credential_proposal_json : string) : eff E S ProposeCredentialMessage :=
  id ← new_id;
  attach_id ← new_id;
  mret (mkPropose id id [mkFormat attach_id ANONCREDS_CREDENTIAL_OFFER] None None None credential_proposal_json).

(** [src/protocols/credentials/src/messages/propose.rs:66-69] ProposeCredentialMessage::with_comment *)
Definition pm_with_comment (comment : string) (self : ProposeCredentialMessage) : ProposeCredentialMessage :=
  mkPropose (pm_id self) (pm_thread_id self) (pm_formats self) (Some comment) (pm_goal_code self) (pm_goal self) (pm_json self).

(** [src/protocols/credentials/src/messages/propose.rs:71-74] ProposeCredentialMessage::with_goal_code *)
Definition pm_with_goal_code (goal_code : string) (self : ProposeCredentialMessage) : ProposeCredentialMessage :=
  mkPropose (pm_id self) (pm_thread_id self) (pm_formats self) (pm_comment self) (Some goal_code) (pm_goal self) (pm_json self).

(** [src/protocols/credentials/src/messages/propose.rs:76-79] ProposeCredentialMessage::with_goal *)
Definition pm_with_goal (goal : string) (self : ProposeCredentialMessage) : ProposeCredentialMessage :=
  mkPropose (pm_id self) (pm_thread_id self) (pm_formats self) (pm_comment self) (pm_goal_code self) (Some goal) (pm_json self).

(** An entry that is left out when there is no value. *)
Definition opt_entry (key : string) (o : option Json) : list (string * Json) :=
  match o with Some v => [(key, v)] | None => [] end.

(** [src/protocols/credentials/src/messages/propose.rs:81-116] ProposeCredentialMessage::to_didcomm_message *)
Definition pm_to_didcomm {E S} (self : ProposeCredentialMessage) : eff E S Message :=
  attach_id ← first_attach_id (pm_formats self);
  let body :=
    [("formats", formats_to_json (pm_formats self))] ++ opt_entry "comment" (JString <$> pm_comment self) ++
    opt_entry "goal_code" (JString <$> pm_goal_code self) ++ opt_entry "goal" (JString <$> pm_goal self) in
  let attachment := json_attachment attach_id ANONCREDS_CREDENTIAL_OFFER (payload_value (pm_json self)) in
  m ← build_message PROPOSE_TYPE (pm_id self) (JObject body) (pm_thread_id self);
  mret (mb_add_attachment attachment m).

(** [src/protocols/credentials/src/messages/propose.rs:118-153] ProposeCredentialMessage::from_didcomm_message *)
Definition pm_from_didcomm (message : Message) : outcome CredentialError ProposeCredentialMessage :=
  let body := msg_body message in
  let? credential_proposal_json := extract_attachment_json message in
  Ok (mkPropose (msg_id message) (msg_thread_id message) (body_formats body) (body_text "comment" body) (body_text "goal_code" body)
        (body_text "goal" body) credential_proposal_json).

(** ** Problem report *)

(** [src/protocols/credentials/src/messages/problem_report.rs:66-73] WhoRetries *)
Inductive WhoRetries := WhoYou | WhoMe | WhoBoth | WhoNone.
(** [src/protocols/credentials/src/messages/problem_report.rs:75-81] Impact *)
Inductive Impact := ImpactMessage | ImpactThread | ImpactConnection.
(** [src/protocols/credentials/src/messages/problem_report.rs:83-90] Where *)
Inductive Where := WhereCloud | WhereEdge | WhereWire | WhereAgency.

Definition who_names : list (string * WhoRetries) := [("YOU", WhoYou); ("ME", WhoMe); ("BOTH", WhoBoth); ("NONE", WhoNone)].
Definition who_name (w : WhoRetries) : string :=
  match w with WhoYou => "YOU" | WhoMe => "ME" | WhoBoth => "BOTH" | WhoNone => "NONE" end.
Definition impact_names : list (string * Impact) :=
  [("MESSAGE", ImpactMessage); ("THREAD", ImpactThread); ("CONNECTION", ImpactConnection)].
Definition impact_name (i : Impact) : string :=
  match i with ImpactMessage => "MESSAGE" | ImpactThread => "THREAD" | ImpactConnection => "CONNECTION" end.
Definition where_names : list (string * Where) :=
  [("CLOUD", WhereCloud); ("EDGE", WhereEdge); ("WIRE", WhereWire); ("AGENCY", WhereAgency)].
Definition where_name (w : Where) : string :=
  match w with WhereCloud => "CLOUD" | WhereEdge => "EDGE" | WhereWire => "WIRE" | WhereAgency => "AGENCY" end.

(** [src/protocols/credentials/src/messages/problem_report.rs:55-59] ProblemDescription *)
Record ProblemDescription := mkDescription { pd_code : string; pd_en : string }.

(** [src/protocols/credentials/src/messages/problem_report.rs:10-52] ProblemReportMessage (a fix hint is its English text) *)
Record ProblemReportMessage := mkReport {
  pr_id : string;
  pr_thread_id : string;
  pr_description : ProblemDescription;
  pr_problem_items : option (list string);
  pr_who_retries : option WhoRetries;
  pr_fix_hint : option string;
  pr_impact : option Impact;
  pr_where : option Where;
  pr_noticed_time : option string;
  pr_tracking_uri : option string;
  pr_escalation_uri : option string
}.

(** [src/protocols/credentials/src/messages/problem_report.rs:100-100] ProblemReportMessage::TYPE *)
Definition PROBLEM_REPORT_TYPE : string := "https://didcomm.org/issue-credential/3.0/problem-report".

(** [src/protocols/credentials/src/messages/problem_report.rs:104-121] ProblemReportMessage::new *)
Definition pr_new {E S} (thread_id code en : string) : eff E S ProblemReportMessage :=
  id ← new_id; mret (mkReport id thread_id (mkDescription code en) None None None None None None None None).

(** [src/protocols/credentials/src/messages/problem_report.rs:124-126] ProblemReportMessage::issuance_abandoned *)
Definition pr_issuance_abandoned {E S} (thread_id en : string) : eff E S ProblemReportMessage :=
  pr_new thread_id "issuance-abandoned" en.

(** The body of a report: the fields that are set. *)
Definition pr_body (self : ProblemReportMessage) : Json :=
  JObject
  ([("description", JObject [("code", JString (pd_code (pr_description self))); ("en", JString (pd_en (pr_description self)))])] ++
    opt_entry "problem_items" ((λ l, JArray (JString <$> l)) <$> pr_problem_items self) ++
    opt_entry "who_retries" ((JString ∘ who_name) <$> pr_who_retries self) ++
    opt_entry "fix_hint" ((λ en, JObject [("en", JString en)]) <$> pr_fix_hint self) ++
    opt_entry "impact" ((JString ∘ impact_name) <$> pr_impact self) ++
    opt_entry "where" ((JString ∘ where_name) <$> pr_where self) ++
    opt_entry "noticed_time" (JString <$> pr_noticed_time self) ++
    opt_entry "tracking_uri" (JString <$> pr_tracking_uri self) ++
    opt_entry "escalation_uri" (JString <$> pr_escalation_uri self)).

(** [src/protocols/credentials/src/messages/problem_report.rs:129-177] ProblemReportMessage::to_didcomm_message *)
Definition pr_to_didcomm {E S} (self : ProblemReportMessage) : eff E S Message :=
  build_message PROBLEM_REPORT_TYPE (pr_id self) (pr_body self) (pr_thread_id self).

(** [src/protocols/credentials/src/messages/problem_report.rs:180-244] ProblemReportMessage::from_didcomm_message *)
Definition pr_from_didcomm (message : Message) : outcome CredentialError ProblemReportMessage :=
  let body := msg_body message in
  match json_get "description" body ≫= sv_struct2 "code" "en" with
  | None => Err (CeProtocol "problem-report missing required description")
  | Some (code, en) =>
      Ok (mkReport (msg_id message) (msg_thread_id message) (mkDescription code en)
            (json_get "problem_items" body ≫= sv_strings)
            (json_get "who_retries" body ≫= sv_variant who_names)
            (json_get "fix_hint" body ≫= sv_struct1 "en")
            (json_get "impact" body ≫= sv_variant impact_names)
            (json_get "where" body ≫= sv_variant where_names)
            (body_text "noticed_time" body) (body_text "tracking_uri" body) (body_text "escalation_uri" body))
  end.
End messages.
