(* ===== verification/IssuanceService.v ===== *)
(** The issue-credential services: the AnonCreds one
    ([services/credential_service.rs]) and the one for W3C, JWT and SD-JWT credentials
    ([services/w3c_credential_service.rs]), which share a repository and an event bus.

    The AnonCreds issuer and holder are used through interfaces ([CredentialIssuer],
    [CredentialHolder]), which the services of [AnonCreds] implement; the repository through
    [ExchangeRepo].  The signing services of the [vc] crate are parameters.  The event bus
    is the list of what was emitted, if there is one. *)
From S2P Require Import Prelude AjnaTypes SerdeJson Storage Didcomm RecordRepo AnonCreds Issuance IssuanceMessages.

(** What the exchange service asks of an AnonCreds issuer and of a holder. *)
Class CredentialIssuer `{AnoncredsLib} (I : Type) := {
  ci_create_offer : string → string → eff AnonCredsError I CredentialOffer;
  ci_create_credential : string → CredentialOffer → CredentialRequest → gmap string string → eff AnonCredsError I AcCredential
}.
Class CredentialHolder `{AnoncredsLib} (HD : Type) := {
  ch_create_request : string → CredentialOffer → string → string → eff AnonCredsError HD CredentialRequest;
  ch_process_credential : string → AcCredential → string → eff AnonCredsError HD string
}.
#[export] Instance issuer_service_api `{AnoncredsLib} `{HashOrder} {G T} `{!AnonCredsRegistry G} `{!AnonCredsStore T} :
  CredentialIssuer (IssuerService (G:=G) (T:=T)) :=
  {| ci_create_offer := is_create_credential_offer; ci_create_credential := is_create_credential |}.
#[export] Instance holder_service_api `{AnoncredsLib} `{JsonText} `{UuidText} {G T} `{!AnonCredsRegistry G} `{!AnonCredsStore T} :
  CredentialHolder (HolderService (G:=G) (T:=T)) :=
  {| ch_create_request := hs_create_credential_request; ch_process_credential := hs_process_credential |}.

(** [src/protocols/credentials/src/services/credential_service.rs:17-27] CredentialExchangeService *)
Record CredentialService (S I H : Type) := mkService {
  ces_repository : S;
  ces_issuer : I;
  ces_holder : H;
  ces_event_bus : option (list CredentialStateChangedPayload)
}.
Arguments mkService {S I H}.
Arguments ces_repository {S I H}.
Arguments ces_issuer {S I H}.
Arguments ces_holder {S I H}.
Arguments ces_event_bus {S I H}.

#[export] Instance service_repo {RS IS HS} : HasRepo (CredentialService RS IS HS) RS := {|
  repo_of := ces_repository; with_repo r s := mkService r (ces_issuer s) (ces_holder s) (ces_event_bus s); repo_of_with _ _ := eq_refl
|}.

Section service.
Context `{AnoncredsLib} `{JsonText} `{Base64Engine} `{UuidText} `{Serde CredentialExchangeRecord}.
Context {RS IS HS : Type} `{!ExchangeRepo RS CredentialExchangeRecord CredentialError} `{!CredentialIssuer IS} `{!CredentialHolder HS}.
Abbreviation CES := (CredentialService RS IS HS).
Abbreviation ces := (eff CredentialError CES).

(** [src/protocols/credentials/src/services/credential_service.rs:30-44] CredentialExchangeService::new *)
Definition ces_new (issuer : IS) (holder : HS) (repository : RS) : CES := mkService repository issuer holder None.

(** [src/protocols/credentials/src/services/credential_service.rs:48-56] CredentialExchangeService::with_event_bus *)
Definition ces_with_event_bus (s : CES) : CES := mkService (ces_repository s) (ces_issuer s) (ces_holder s) (Some []).

Definition on_repo {A} (m : eff CredentialError RS A) : ces A := on_records m.
Definition on_issuer {A} (m : eff AnonCredsError IS A) : ces A :=
  eff_zoom ces_issuer (λ i s, mkService (ces_repository s) i (ces_holder s) (ces_event_bus s)) (λ e, CeAnonCreds (ace_to_string e)) m.
Definition on_holder {A} (m : eff AnonCredsError HS A) : ces A :=
  eff_zoom ces_holder (λ h s, mkService (ces_repository s) (ces_issuer s) h (ces_event_bus s)) (λ e, CeAnonCreds (ace_to_string e)) m.

(** [?] on a serializer's result. *)
Definition ce_serde {E A} (r : outcome string A) : eff CredentialError E A :=
  eff_lift (match r with Ok a => Ok a | Err e => Err (CeSerialization e) | Panic => Panic end).
Definition ok_or {E A} (e : CredentialError) (o : option A) : eff CredentialError E A :=
  match o with Some a => mret a | None => eff_throw e end.

(** [src/protocols/credentials/src/services/credential_service.rs:60-73] CredentialExchangeService::emit_exchange_changed *)
Definition emit_exchange_changed (record : CredentialExchangeRecord) (previous_state : option CredentialExchangeState) : ces unit :=
  eff_modify (λ s, mkService (ces_repository s) (ces_issuer s) (ces_holder s)
                     ((λ bus, bus ++ [mkStateChanged record previous_state]) <$> ces_event_bus s)).

(** [src/protocols/credentials/src/services/credential_service.rs:85-90] CredentialExchangeService::find_exchange_by_thread_id *)
Definition find_exchange_by_thread_id (thread_id : string) : ces (option CredentialExchangeRecord) :=
  on_repo (er_find (λ r, bool_decide (cx_thread_id r = thread_id))).

(** [src/protocols/credentials/src/services/credential_service.rs:93-98] CredentialExchangeService::find_exchange_by_id *)
Definition find_exchange_by_id (exchange_id : string) : ces (option CredentialExchangeRecord) := on_repo (er_find_by_id exchange_id).

(** [src/protocols/credentials/src/services/credential_service.rs:627-629] CredentialExchangeService::get_all_exchanges *)
Definition get_all_exchanges : ces (list CredentialExchangeRecord) := on_repo er_get_all.

(** The record of an exchange, or [NotFound]; its state and its role as required. *)
Definition get_exchange (exchange_id : string) : ces CredentialExchangeRecord :=
  o ← find_exchange_by_id exchange_id; ok_or (CeNotFound exchange_id) o.
Definition require_state (state : CredentialExchangeState) (r : CredentialExchangeRecord) : ces unit :=
  if decide (cx_state r = state) then mret tt else eff_throw (CeInvalidState [state] (cx_state r)).
Definition require_role (role : CredentialExchangeRole) (r : CredentialExchangeRecord) : ces unit :=
  if decide (cx_role r = role) then mret tt else eff_throw (CeInvalidRole role (cx_role r)).

(** A new record: created, filled in, bound to its connection, saved and announced. *)
Definition bind_connection (connection_id : option string) (r : CredentialExchangeRecord) : ces CredentialExchangeRecord :=
  match connection_id with
  | Some c => now ← eff_world utc_now; mret (cx_set_connection_id c now r)
  | None => mret r
  end.
Definition save_exchange (role : CredentialExchangeRole) (state : CredentialExchangeState) (thread_id : string)
    (connection_id : option string) (fill : CredentialExchangeRecord → CredentialExchangeRecord) : ces CredentialExchangeRecord :=
  r ← eff_world (cx_new role state thread_id);
  r ← bind_connection connection_id (fill r);
  _ ← on_repo (er_save r);
  mret r.
Definition open_exchange (role : CredentialExchangeRole) (state : CredentialExchangeState) (thread_id : string)
    (connection_id : option string) (fill : CredentialExchangeRecord → CredentialExchangeRecord) : ces CredentialExchangeRecord :=
  r ← save_exchange role state thread_id connection_id fill;
  _ ← emit_exchange_changed r None;
  mret r.

(** A record moves on: the new state is stored and announced. *)
Definition advance_exchange (state : CredentialExchangeState) (r : CredentialExchangeRecord) : ces CredentialExchangeRecord :=
  now ← eff_world utc_now;
  let r' := cx_update_state state now r in
  _ ← on_repo (er_update r');
  _ ← emit_exchange_changed r' (Some (cx_state r));
  mret r'.

(** ** Proposals *)

(** [src/protocols/credentials/src/services/credential_service.rs:105-143] CredentialExchangeService::create_proposal *)
Definition create_proposal (connection_id schema_id cred_def_id comment : option string)
    : ces (CredentialExchangeRecord * ProposeCredentialMessage) :=
  let proposal_json := json_print (JObject [("schema_id", json_of_option schema_id); ("cred_def_id", json_of_option cred_def_id)]) in
  propose_msg ← pm_new proposal_json;
  let propose_msg := match comment with Some c => pm_with_comment c propose_msg | None => propose_msg end in
  record ← open_exchange Holder ProposalSent (pm_thread_id propose_msg) connection_id
             (λ r, cx_set_proposal proposal_json (cx_set_ids schema_id cred_def_id r));
  mret (record, propose_msg).

(** [src/protocols/credentials/src/services/credential_service.rs:150-196] CredentialExchangeService::store_proposal *)
Definition store_proposal (connection_id : option string) (propose_msg : ProposeCredentialMessage) : ces CredentialExchangeRecord :=
  existing ← find_exchange_by_thread_id (pm_thread_id propose_msg);
  match existing with
  | Some existing => mret existing
  | None =>
      let parsed := payload_value (pm_json propose_msg) in
      open_exchange Issuer ProposalReceived (pm_thread_id propose_msg) connection_id
        (λ r, cx_set_proposal (pm_json propose_msg)
                (cx_set_ids (json_get "schema_id" parsed ≫= json_as_str) (json_get "cred_def_id" parsed ≫= json_as_str) r))
  end.

(** [src/protocols/credentials/src/services/credential_service.rs:204-253] CredentialExchangeService::accept_proposal *)
Definition accept_proposal (exchange_id schema_id cred_def_id : string) : ces OfferCredentialMessage :=
  record ← get_exchange exchange_id;
  _ ← require_state ProposalReceived record;
  _ ← require_role Issuer record;
  cred_offer ← on_issuer (ci_create_offer schema_id cred_def_id);
  offer_json ← ce_serde (sd_to_text cred_offer);
  offer_msg ← om_new offer_json;
  let offer_msg := mkOffer (om_id offer_msg) (cx_thread_id record) (om_formats offer_msg) (om_comment offer_msg) (om_json offer_msg) in
  _ ← advance_exchange OfferSent (cx_set_offer offer_json (cx_set_ids (Some schema_id) (Some cred_def_id) record));
  mret offer_msg.

(** ** Offers *)

(** [src/protocols/credentials/src/services/credential_service.rs:267-310] CredentialExchangeService::create_offer *)
Definition create_offer (connection_id : option string) (schema_id cred_def_id : string)
    : ces (CredentialExchangeRecord * OfferCredentialMessage) :=
  cred_offer ← on_issuer (ci_create_offer schema_id cred_def_id);
  offer_json ← ce_serde (sd_to_text cred_offer);
  offer_msg ← om_new offer_json;
  record ← open_exchange Issuer OfferSent (om_thread_id offer_msg) connection_id
             (λ r, cx_set_offer offer_json (cx_set_ids (Some schema_id) (Some cred_def_id) r));
  mret (record, offer_msg).

(** [src/protocols/credentials/src/services/credential_service.rs:323-386] CredentialExchangeService::accept_offer *)
Definition accept_offer (exchange_id entropy : string) : ces RequestCredentialMessage :=
  record ← get_exchange exchange_id;
  _ ← require_state OfferReceived record;
  _ ← require_role Holder record;
  offer_json ← ok_or (CeProtocol "No credential offer stored on exchange") (cx_offer_json record);
  cred_offer ← ce_serde (sd_from_text offer_json);
  cred_def_id ← ok_or (CeProtocol "No credential definition ID on exchange record") (cx_cred_def_id record);
  cred_request ← on_holder (ch_create_request (cx_thread_id record) cred_offer cred_def_id entropy);
  request_json ← ce_serde (sd_to_text cred_request);
  request_msg ← rm_new (cx_thread_id record) request_json;
  _ ← advance_exchange RequestSent (cx_set_request request_json record);
  mret request_msg.

(** ** Requests *)

(** [src/protocols/credentials/src/services/credential_service.rs:392-417] CredentialExchangeService::store_request *)
Definition store_request (exchange_id credential_request_json : string) : ces unit :=
  record ← get_exchange exchange_id;
  _ ← require_state OfferSent record;
  _ ← advance_exchange RequestReceived (cx_set_request credential_request_json record);
  mret tt.

(** [src/protocols/credentials/src/services/credential_service.rs:423-437] CredentialExchangeService::set_auto_issue_attributes *)
Definition set_auto_issue_attributes (exchange_id : string) (attributes : gmap string string) : ces unit :=
  record ← get_exchange exchange_id;
  now ← eff_world utc_now;
  on_repo (er_update (cx_set_auto_issue attributes now record)).

(** [src/protocols/credentials/src/services/credential_service.rs:450-523] CredentialExchangeService::accept_request *)
Definition accept_request (exchange_id : string) (attributes : gmap string string) : ces OutboundMessage :=
  record ← get_exchange exchange_id;
  _ ← require_state RequestReceived record;
  _ ← require_role Issuer record;
  offer_json ← ok_or (CeProtocol "No credential offer stored on exchange") (cx_offer_json record);
  request_json ← ok_or (CeProtocol "No credential request stored on exchange") (cx_request_json record);
  cred_def_id ← ok_or (CeProtocol "No credential definition ID on exchange record") (cx_cred_def_id record);
  cred_offer ← ce_serde (sd_from_text offer_json);
  cred_request ← ce_serde (sd_from_text request_json);
  credential ← on_issuer (ci_create_credential cred_def_id cred_offer cred_request attributes);
  credential_json ← ce_serde (sd_to_text credential);
  issue_msg ← im_new (cx_thread_id record) credential_json;
  didcomm_msg ← im_to_didcomm issue_msg;
  _ ← advance_exchange CredentialIssued (cx_set_credential credential_json record);
  mret (mkOutbound didcomm_msg "" "" (cx_connection_id record)).

(** ** Credentials *)

(** [src/protocols/credentials/src/services/credential_service.rs:536-591] CredentialExchangeService::process_credential *)
Definition process_credential (exchange_id credential_json : string) : ces string :=
  record ← get_exchange exchange_id;
  _ ← require_state RequestSent record;
  _ ← require_role Holder record;
  cred_def_id ← ok_or (CeProtocol "No credential definition ID on exchange record") (cx_cred_def_id record);
  credential ← ce_serde (sd_from_text credential_json);
  credential_id ← on_holder (ch_process_credential (cx_thread_id record) credential cred_def_id);
  _ ← advance_exchange Done (cx_set_credential_id credential_id (cx_set_credential credential_json record));
  mret credential_id.

(** [src/protocols/credentials/src/services/credential_service.rs:596-619] CredentialExchangeService::process_ack *)
Definition process_ack (thread_id : string) : ces CredentialExchangeRecord :=
  o ← find_exchange_by_thread_id thread_id;
  record ← ok_or (CeNotFound ("thread_id: " +:+ thread_id)) o;
  if decide (cx_state record = Done) then mret record else advance_exchange Done record.

(** [src/protocols/credentials/src/services/credential_service.rs:632-665] CredentialExchangeService::abandon_exchange *)
Definition abandon_exchange (exchange_id reason : string) : ces unit :=
  record ← get_exchange exchange_id;
  if cex_is_terminal (cx_state record) then
    eff_throw (CeInvalidState [OfferSent; OfferReceived; RequestSent; RequestReceived; CredentialIssued; CredentialReceived]
                 (cx_state record))
  else
    now ← eff_world utc_now;
    let r' := cx_set_error reason now record in
    _ ← on_repo (er_update r');
    emit_exchange_changed r' (Some (cx_state record)).
End service.

(** * W3C credentials *)

(** [src/vc/src/core/traits/credential_format.rs:24-35] SignCredentialOptions (no additional options are passed) *)
Record SignCredentialOptions := mkSignOptions {
  so_format : DidCommCredentialFormat;
  so_key_id : string;
  so_algorithm : option string;
  so_proof_purpose : option string
}.

(** The format services that were registered: whether there is one for a format, and its
    two operations; [W3cCredential] with its deserializer.  An error is its text. *)
Class FormatServices := {
  W3cCredential : Type;
  w3c_from_value : Json → outcome string W3cCredential;
  fs_registered : DidCommCredentialFormat → bool;
  fs_sign : DidCommCredentialFormat → W3cCredential → SignCredentialOptions → World → outcome string string * World;
  fs_verify : DidCommCredentialFormat → string → World → outcome string bool * World
}.

Section w3c.
Context `{JsonText} `{Base64Engine} `{UuidText} `{Serde CredentialExchangeRecord} `{FormatServices}.
Context {RS IS HS : Type} `{!ExchangeRepo RS CredentialExchangeRecord CredentialError}.
Abbreviation CES := (CredentialService RS IS HS).
Abbreviation ces := (eff CredentialError CES).

(** [src/protocols/credentials/src/services/w3c_credential_service.rs:96-100] W3cCredentialExchangeService::supports_format_id *)
Definition supports_format_id (format_id : string) : bool :=
  match from_format_id format_id with Some f => fs_registered f | None => false end.

(** [src/protocols/credentials/src/services/w3c_credential_service.rs:102-109] W3cCredentialExchangeService::service_for *)
Definition service_for (format : DidCommCredentialFormat) : ces unit :=
  if fs_registered format then mret tt else eff_throw (CeUnsupportedFormat (detail_format_id format)).

(** [src/protocols/credentials/src/services/w3c_credential_service.rs:111-124] W3cCredentialExchangeService::format_of *)
Definition format_of (record : CredentialExchangeRecord) : ces DidCommCredentialFormat :=
  ok_or (CeUnsupportedFormat (default "<none>" (cx_credential_format record))) (cx_credential_format record ≫= from_format_id).

(** [src/protocols/credentials/src/services/w3c_credential_service.rs:173-200] W3cCredentialExchangeService::create_offer *)
Definition w3c_create_offer (connection_id : option string) (format : DidCommCredentialFormat) (detail : CredentialDetail)
    : ces (CredentialExchangeRecord * OfferCredentialMessage) :=
  _ ← service_for format;
  let offer_json := json_print (dt_to_json detail) in
  offer_msg ← om_new_with_format offer_json (detail_format_id format);
  record ← open_exchange Issuer OfferSent (om_thread_id offer_msg) connection_id
             (λ r, cx_set_offer offer_json (cx_set_format (detail_format_id format) r));
  mret (record, offer_msg).

(** [src/protocols/credentials/src/services/w3c_credential_service.rs:206-232] W3cCredentialExchangeService::store_offer *)
Definition w3c_store_offer (connection_id : option string) (offer : OfferCredentialMessage) : ces CredentialExchangeRecord :=
  existing ← find_exchange_by_thread_id (om_thread_id offer);
  match existing with
  | Some existing => mret existing
  | None =>
      format_id ← ok_or (CeInvalidAttachmentFormat "missing format") (om_format_id offer);
      open_exchange Holder OfferReceived (om_thread_id offer) connection_id
        (λ r, cx_set_offer (om_json offer) (cx_set_format format_id r))
  end.

(** [src/protocols/credentials/src/services/w3c_credential_service.rs:236-273] W3cCredentialExchangeService::accept_offer *)
Definition w3c_accept_offer (exchange_id : string) : ces RequestCredentialMessage :=
  record ← get_exchange exchange_id;
  _ ← require_state OfferReceived record;
  _ ← require_role Holder record;
  format ← format_of record;
  offer_json ← ok_or (CeProtocol "No credential offer stored on exchange") (cx_offer_json record);
  request_msg ← rm_new_with_format (cx_thread_id record) offer_json (detail_format_id format);
  _ ← advance_exchange RequestSent (cx_set_request offer_json record);
  mret request_msg.

(** [src/protocols/credentials/src/services/w3c_credential_service.rs:278-302] W3cCredentialExchangeService::store_request *)
Definition w3c_store_request (exchange_id credential_request_json : string) : ces unit :=
  record ← get_exchange exchange_id;
  _ ← require_state OfferSent record;
  _ ← advance_exchange RequestReceived (cx_set_request credential_request_json record);
  mret tt.

(** [src/protocols/credentials/src/services/w3c_credential_service.rs:472-480] issuer_id *)
Definition issuer_id (credential : Json) : option string :=
  match json_get "issuer" credential with
  | Some (JString s) => Some s
  | Some (JObject o) => json_get "id" (JObject o) ≫= json_as_str
  | _ => None
  end.

(** What the issuer signs with: the key and the algorithm. *)
Definition signing_key (key_id : option string) (detail : CredentialDetail) : option string :=
  match key_id with
  | Some k => Some k
  | None => match dt_verification_method detail with Some k => Some k | None => issuer_id (dt_credential detail) end
  end.
Definition signing_algorithm (format : DidCommCredentialFormat) (detail : CredentialDetail) : option string :=
  match dt_proof_type detail with Some a => Some a | None => default_algorithm format end.

(** [src/protocols/credentials/src/services/w3c_credential_service.rs:310-395] W3cCredentialExchangeService::accept_request *)
Definition w3c_accept_request (exchange_id : string) (key_id : option string) : ces OutboundMessage :=
  record ← get_exchange exchange_id;
  _ ← require_state RequestReceived record;
  _ ← require_role Issuer record;
  format ← format_of record;
  _ ← service_for format;
  detail_json ← ok_or (CeProtocol "No credential offer stored on exchange") (cx_offer_json record);
  detail ← ce_serde (dt_from_json detail_json);
  credential ← eff_lift (match w3c_from_value (dt_credential detail) with
                         | Ok c => Ok c
                         | Err e => Err (CeProtocol ("offer credential is not a W3C VC: " +:+ e))
                         | Panic => Panic
                         end);
  key ← ok_or (CeProtocol "No signing key: pass key_id, or set options.verificationMethod / credential.issuer")
          (signing_key key_id detail);
  let sign_options := mkSignOptions format key (signing_algorithm format detail) (Some "assertionMethod") in
  signed ← (λ s w, let '(r, w) := fs_sign format credential sign_options w in
                   (match r with Ok a => Ok a | Err e => Err (CeFormatService e) | Panic => Panic end, s, w));
  issue_msg ← im_new_with_format (cx_thread_id record) signed (credential_format_id format);
  didcomm_msg ← im_to_didcomm issue_msg;
  _ ← advance_exchange CredentialIssued (cx_set_credential signed record);
  mret (mkOutbound didcomm_msg "" "" (cx_connection_id record)).

(** [src/protocols/credentials/src/services/w3c_credential_service.rs:401-452] W3cCredentialExchangeService::process_credential *)
Definition w3c_process_credential (exchange_id credential : string) : ces string :=
  record ← get_exchange exchange_id;
  _ ← require_state RequestSent record;
  _ ← require_role Holder record;
  format ← format_of record;
  _ ← (if fs_registered format then (λ s w, let '(r, w) := fs_verify format credential w in
                                            (match r with Panic => Panic | _ => Ok tt end, s, w))
       else mret tt);
  credential_id ← new_id;
  _ ← advance_exchange Done (cx_set_credential_id credential_id (cx_set_credential credential record));
  mret credential_id.

(** [src/protocols/credentials/src/services/w3c_credential_service.rs:455-469] W3cCredentialExchangeService::process_ack *)
Definition w3c_process_ack (thread_id : string) : ces CredentialExchangeRecord :=
  o ← find_exchange_by_thread_id thread_id;
  record ← ok_or (CeNotFound ("thread_id: " +:+ thread_id)) o;
  if decide (cx_state record = Done) then mret record else advance_exchange Done record.
End w3c.
