(* ===== verification/IssuanceHandler.v ===== *)
(** The handlers of issue-credential messages
    ([src/protocols/credentials/src/handlers]) and their composition in an agent: a handler
    for W3C formats in front of the AnonCreds handler of the same message type
    ([src/agent/src/agent/accessors.rs]). *)
From S2P Require Import Prelude AjnaTypes SerdeJson Storage Didcomm RecordRepo AnonCreds Issuance IssuanceMessages IssuanceService.

(** The service and the attributes registered with the request handler
    ([RequestCredentialHandler], handlers/request_handler.rs). *)
Record IssuanceAgent (RS IS HS : Type) := mkAgent {
  ia_service : CredentialService RS IS HS;
  ia_auto_issue : gmap string (gmap string string)
}.
Arguments mkAgent {RS IS HS}.
Arguments ia_service {RS IS HS}.
Arguments ia_auto_issue {RS IS HS}.

(** [src/protocols/credentials/src/handlers/offer_handler.rs:18-18] AUTO_ACCEPT_ENTROPY *)
Definition AUTO_ACCEPT_ENTROPY : string := "idiom-holder-entropy".

Section handlers.
Context `{AnoncredsLib} `{JsonText} `{Base64Engine} `{UuidText} `{Serde CredentialExchangeRecord} `{FormatServices}.
Context {RS IS HS : Type} `{!ExchangeRepo RS CredentialExchangeRecord CredentialError} `{!CredentialIssuer IS} `{!CredentialHolder HS}.
Abbreviation CES := (CredentialService RS IS HS).
Abbreviation ces := (eff CredentialError CES).
Abbreviation hd := (eff MessageHandlerError (IssuanceAgent RS IS HS)).
Abbreviation handler := (InboundMessage → hd (option OutboundMessage)).

(** A call of the service, with its error mapped. *)
Definition on_service {A} (err : CredentialError → MessageHandlerError) (m : ces A) : hd A :=
  eff_zoom ia_service (λ c s, mkAgent c (ia_auto_issue s)) err m.
Definition failed (what : string) (e : CredentialError) : MessageHandlerError := ProcessingFailed (what +:+ ce_to_string e).
Definition parsed {A} (err : string → MessageHandlerError) (r : outcome CredentialError A) : hd A :=
  eff_lift (match r with Ok a => Ok a | Err e => Err (err (ce_to_string e)) | Panic => Panic end).

(** An answer to the sender of a message, over its connection. *)
Definition reply (inbound : InboundMessage) (message : Message) : OutboundMessage :=
  mkOutbound message (default "" (ctx_from (in_context inbound))) (default "" (ctx_to (in_context inbound)))
    (ctx_connection_id (in_context inbound)).

(** The exchange of a thread, which must exist. *)
Definition exchange_of_thread (missing : string) (thread_id : string) (err : CredentialError → MessageHandlerError)
    : hd CredentialExchangeRecord :=
  o ← on_service err (find_exchange_by_thread_id thread_id);
  match o with Some r => mret r | None => eff_throw (ProcessingFailed (missing +:+ thread_id)) end.

(** ** Holder: offers *)

(** [src/protocols/credentials/src/handlers/offer_handler.rs:37-117] OfferCredentialHandler::handle_offer *)
Definition offer_handle (auto_accept : bool) : handler := λ inbound,
  offer ← parsed ProcessingFailed (om_from_didcomm (in_message inbound));
  offer_value ← eff_lift (match json_parse (om_json offer) with
                          | Ok v => Ok v
                          | Err e => Err (InvalidMessage ("Failed to parse credential offer JSON: " +:+ e))
                          | Panic => Panic
                          end);
  record ← on_service (failed "Failed to save credential exchange record: ")
             (save_exchange Holder OfferReceived (om_thread_id offer) (ctx_connection_id (in_context inbound))
                (λ r, cx_set_offer (om_json offer)
                        (cx_set_ids (json_get "schema_id" offer_value ≫= json_as_str)
                           (json_get "cred_def_id" offer_value ≫= json_as_str) r)));
  if negb auto_accept then mret None
  else
    request_msg ← on_service (failed "Auto-accept: failed to create credential request: ")
                    (accept_offer (cx_id record) AUTO_ACCEPT_ENTROPY);
    message ← rm_to_didcomm request_msg;
    mret (Some (reply inbound message)).

(** ** Issuer: requests *)

(** [src/protocols/credentials/src/handlers/request_handler.rs:35-42] RequestCredentialHandler::register_auto_issue_attributes *)
Definition register_auto_issue_attributes (exchange_id : string) (attributes : gmap string string) : hd unit :=
  eff_modify (λ s, mkAgent (ia_service s) (<[exchange_id := attributes]> (ia_auto_issue s))).

(** The request is stored on the exchange of its thread. *)
Definition receive_request (inbound : InboundMessage) : hd CredentialExchangeRecord :=
  request ← parsed ProcessingFailed (rm_from_didcomm (in_message inbound));
  record ← exchange_of_thread "No credential exchange found for thread: " (rm_thread_id request)
             (failed "Failed to find credential exchange: ");
  _ ← on_service (failed "Failed to store credential request: ") (store_request (cx_id record) (rm_json request));
  mret record.

(** [src/protocols/credentials/src/handlers/request_handler.rs:52-148] RequestCredentialHandler::handle *)
Definition request_handle : handler := λ inbound,
  record ← receive_request inbound;
  auto_attrs ← (match cx_auto_issue_attributes record with
                | Some attrs => mret (Some attrs)
                | None => eff_gets (λ s, ia_auto_issue s !! cx_id record)
                end);
  match auto_attrs with
  | Some attributes =>
      outbound ← on_service (failed "Failed to issue credential: ") (accept_request (cx_id record) attributes);
      _ ← eff_modify (λ s, mkAgent (ia_service s) (delete (cx_id record) (ia_auto_issue s)));
      mret (Some (mkOutbound (out_message outbound) (default "" (ctx_from (in_context inbound)))
                    (default "" (ctx_to (in_context inbound))) (out_connection_id outbound)))
  | None => mret None
  end.

(** [src/protocols/credentials/src/handlers/request_handler.rs:158-237] RequestCredentialHandler::handle (wasm32) *)
Definition request_handle_wasm : handler := λ inbound,
  record ← receive_request inbound;
  auto_attrs ← eff_gets (λ s, ia_auto_issue s !! cx_id record);
  match auto_attrs with
  | Some attributes =>
      outbound ← on_service (failed "Failed to issue credential: ") (accept_request (cx_id record) attributes);
      _ ← eff_modify (λ s, mkAgent (ia_service s) (delete (cx_id record) (ia_auto_issue s)));
      mret (Some outbound)
  | None => mret None
  end.

(** ** Holder: credentials *)

(** [src/protocols/credentials/src/handlers/issue_handler.rs:36-100] IssueCredentialHandler::handle *)
Definition issue_handle : handler := λ inbound,
  issue_msg ← parsed ProcessingFailed (im_from_didcomm (in_message inbound));
  record ← exchange_of_thread "No credential exchange found for thread: " (im_thread_id issue_msg)
             (failed "Failed to find credential exchange: ");
  _ ← on_service (failed "Failed to process credential: ") (process_credential (cx_id record) (im_json issue_msg));
  ack ← am_ok (im_thread_id issue_msg);
  message ← am_to_didcomm ack;
  mret (Some (reply inbound message)).

(** ** Issuer: acks and proposals; both: problem reports *)

(** [src/protocols/credentials/src/handlers/ack_handler.rs:32-57] CredentialAckHandler::handle *)
Definition ack_handle : handler := λ inbound,
  ack ← parsed InvalidMessage (am_from_didcomm (in_message inbound));
  _ ← eff_catch (on_service (failed "") (process_ack (am_thread_id ack)));
  mret None.

(** [src/protocols/credentials/src/handlers/propose_handler.rs:24-41] ProposeCredentialHandler::process *)
Definition propose_handle : handler := λ inbound,
  propose_msg ← parsed InvalidMessage (pm_from_didcomm (in_message inbound));
  _ ← on_service (failed "") (store_proposal (ctx_connection_id (in_context inbound)) propose_msg);
  mret None.

(** [src/protocols/credentials/src/handlers/problem_report_handler.rs:22-73] ProblemReportHandler::process *)
Definition problem_report_handle : handler := λ inbound,
  msg ← parsed ProcessingFailed (pr_from_didcomm (in_message inbound));
  record ← on_service (failed "failed to look up credential exchange: ") (find_exchange_by_thread_id (pr_thread_id msg));
  match record with
  | None => mret None
  | Some record =>
      if cex_is_terminal (cx_state record) then mret None
      else
        let reason := pd_code (pr_description msg) +:+ ": " +:+ pd_en (pr_description msg) in
        _ ← on_service (failed "failed to abandon credential exchange: ") (abandon_exchange (cx_id record) reason);
        mret None
  end.

(** ** W3C formats *)

(** [src/protocols/credentials/src/handlers/w3c_handlers.rs:29-45] first_format_id *)
Definition first_format_id (message : Message) : option string :=
  match (l ← json_get "formats" (msg_body message) ≫= json_as_array; f ← head l; json_get "format" f ≫= json_as_str) with
  | Some fmt => Some fmt
  | None => l ← msg_attachments message; att ← head l; at_format att
  end.

(** [src/protocols/credentials/src/handlers/w3c_handlers.rs:48-56] is_w3c_for *)
Definition is_w3c_for (message : Message) : bool :=
  match first_format_id message with
  | Some id => bool_decide (is_Some (from_format_id id)) && supports_format_id id
  | None => false
  end.

Definition delegate (fallback : option handler) : handler := λ inbound,
  match fallback with Some h => h inbound | None => mret None end.

(** [src/protocols/credentials/src/handlers/w3c_handlers.rs:83-119] W3cOfferCredentialHandler::handle_offer *)
Definition w3c_offer_handle (auto_accept : bool) (fallback : option handler) : handler := λ inbound,
  if negb (is_w3c_for (in_message inbound)) then delegate fallback inbound
  else
    offer ← parsed ProcessingFailed (om_from_didcomm (in_message inbound));
    record ← on_service (failed "") (w3c_store_offer (ctx_connection_id (in_context inbound)) offer);
    if negb auto_accept then mret None
    else
      request_msg ← on_service (failed "") (w3c_accept_offer (cx_id record));
      message ← rm_to_didcomm request_msg;
      mret (Some (reply inbound message)).

(** [src/protocols/credentials/src/handlers/w3c_handlers.rs:147-190] W3cRequestCredentialHandler::handle_request *)
Definition w3c_request_handle (auto_issue : bool) (fallback : option handler) : handler := λ inbound,
  if negb (is_w3c_for (in_message inbound)) then delegate fallback inbound
  else
    request ← parsed ProcessingFailed (rm_from_didcomm (in_message inbound));
    record ← exchange_of_thread "No credential exchange for thread: " (rm_thread_id request) (failed "");
    _ ← on_service (failed "") (w3c_store_request (cx_id record) (rm_json request));
    if negb auto_issue then mret None
    else
      outbound ← on_service (failed "") (w3c_accept_request (cx_id record) None);
      mret (Some (mkOutbound (out_message outbound) (default "" (ctx_from (in_context inbound)))
                    (default "" (ctx_to (in_context inbound))) (out_connection_id outbound))).

(** [src/protocols/credentials/src/handlers/w3c_handlers.rs:215-253] W3cIssueCredentialHandler::handle_issue *)
Definition w3c_issue_handle (fallback : option handler) : handler := λ inbound,
  if negb (is_w3c_for (in_message inbound)) then delegate fallback inbound
  else
    issue_msg ← parsed ProcessingFailed (im_from_didcomm (in_message inbound));
    record ← exchange_of_thread "No credential exchange for thread: " (im_thread_id issue_msg) (failed "");
    _ ← on_service (failed "") (w3c_process_credential (cx_id record) (im_json issue_msg));
    ack ← am_ok (im_thread_id issue_msg);
    message ← am_to_didcomm ack;
    mret (Some (reply inbound message)).

(** ** The handlers of an agent *)

(** [src/agent/src/agent/accessors.rs:180-213] Agent::setup_anoncreds_with_registry (the handlers by message type; [None] is a type of another module) *)
Definition credential_handler (auto_accept_offers : bool) (msg_type : string) : option handler :=
  if decide (msg_type = OFFER_TYPE) then Some (w3c_offer_handle auto_accept_offers (Some (offer_handle auto_accept_offers)))
  else if decide (msg_type = REQUEST_TYPE) then Some (w3c_request_handle true (Some request_handle))
  else if decide (msg_type = ISSUE_TYPE) then Some (w3c_issue_handle (Some issue_handle))
  else if decide (msg_type = ACK_TYPE) then Some ack_handle
  else None.
End handlers.
