(* ===== verification/IssuanceProps.v ===== *)
(** The issue-credential exchange as a state machine, and the proof that the services and
    handlers run it: over any repository that keeps its laws, every call leaves each record
    alone, creates it, or takes it along steps of the machine.

    A step carries its evidence: the call or the heard message that made it, and what the
    AnonCreds issuer or holder, or the signing service, answered. *)
From S2P Require Import Prelude AjnaTypes SerdeJson Storage Didcomm RecordRepo RecordSpec AnonCreds Issuance IssuanceMessages IssuanceService IssuanceHandler.

(** What can happen to an agent: a message for one of its handlers, with automatic
    acceptance of offers or without, or a call of one of its services. *)
Inductive issuance_call :=
  | IcMessage (auto_accept_offers : bool) (m : InboundMessage)
  | IcProposeMessage (m : InboundMessage)
  | IcProblemReport (m : InboundMessage)
  | IcRequestWasm (m : InboundMessage)
  | IcCreateProposal (connection_id schema_id cred_def_id comment : option string)
  | IcAcceptProposal (exchange_id schema_id cred_def_id : string)
  | IcCreateOffer (connection_id : option string) (schema_id cred_def_id : string)
  | IcAcceptOffer (exchange_id entropy : string)
  | IcAcceptRequest (exchange_id : string) (attributes : gmap string string)
  | IcSetAttributes (exchange_id : string) (attributes : gmap string string)
  | IcRegisterAttributes (exchange_id : string) (attributes : gmap string string)
  | IcAbandon (exchange_id reason : string)
  | IcW3cCreateOffer (connection_id : option string) (format : DidCommCredentialFormat) (detail : CredentialDetail)
  | IcW3cAcceptOffer (exchange_id : string)
  | IcW3cAcceptRequest (exchange_id : string) (key_id : option string)
  | IcW3cAck (thread_id : string).

Section spec.
Context `{AnoncredsLib} `{JsonText} `{Base64Engine} `{UuidText} `{Serde CredentialExchangeRecord} `{FormatServices}.
Context {RS IS HS : Type} `{!ExchangeRepo RS CredentialExchangeRecord CredentialError} `{!CredentialIssuer IS} `{!CredentialHolder HS}.

Abbreviation Rec := CredentialExchangeRecord.

(** * The machine *)

(** The call that makes the steps: a step carries what it takes of it. *)
Context (call : issuance_call).

(** The call brings a message of a type. *)
Definition brings (auto : bool) (ty : string) (i : InboundMessage) : Prop := call = IcMessage auto i ∧ msg_type (in_message i) = ty.

(** What is heard on a thread; an offer may be one that is accepted as it comes. *)
Definition heard_offer (auto : bool) (thread_id oj : string) : Prop :=
  ∃ i m, brings auto OFFER_TYPE i ∧ om_from_didcomm (in_message i) = Ok m ∧ om_thread_id m = thread_id ∧ om_json m = oj.
Definition heard_request (thread_id rj : string) : Prop :=
  ∃ i m, ((∃ auto, brings auto REQUEST_TYPE i) ∨ call = IcRequestWasm i) ∧ rm_from_didcomm (in_message i) = Ok m ∧
    rm_thread_id m = thread_id ∧ rm_json m = rj.
Definition heard_credential (thread_id j : string) : Prop :=
  ∃ auto i m, brings auto ISSUE_TYPE i ∧ im_from_didcomm (in_message i) = Ok m ∧ im_thread_id m = thread_id ∧ im_json m = j.
Definition heard_proposal (thread_id : string) : Prop :=
  ∃ i m, call = IcProposeMessage i ∧ pm_from_didcomm (in_message i) = Ok m ∧ pm_thread_id m = thread_id.
(** An ack of any status is heard, or the host calls for one. *)
Definition heard_ack (thread_id : string) : Prop :=
  (∃ auto i a, brings auto ACK_TYPE i ∧ am_from_didcomm (in_message i) = Ok a ∧ am_thread_id a = thread_id) ∨ call = IcW3cAck thread_id.
(** The exchange is given up, by a call or by the other side, for a reason. *)
Definition gives_up (x : Rec) (reason : string) : Prop :=
  call = IcAbandon (cx_id x) reason ∨
  ∃ i m, call = IcProblemReport i ∧ pr_from_didcomm (in_message i) = Ok m ∧ pr_thread_id m = cx_thread_id x ∧
    reason = pd_code (pr_description m) +:+ ": " +:+ pd_en (pr_description m).

(** An offer that the agent's issuer made for a call, and that for a W3C format. *)
Definition offer_made (schema_id cred_def_id j : string) : Prop :=
  ∃ offer, answers (ci_create_offer (I:=IS) schema_id cred_def_id) offer ∧ sd_to_text offer = Ok j.
Definition own_offer (x : Rec) (oj : string) : Prop :=
  (∃ sch cd, cx_schema_id x = Some sch ∧ cx_cred_def_id x = Some cd ∧ offer_made sch cd oj ∧
     (call = IcAcceptProposal (cx_id x) sch cd ∨ ∃ conn, call = IcCreateOffer conn sch cd)) ∨
  (∃ conn f detail, call = IcW3cCreateOffer conn f detail ∧ cx_credential_format x = Some (detail_format_id f) ∧
     oj = json_print (dt_to_json detail)).

(** The holder's request for the offer of the record. *)
Definition accepts (x : Rec) (entropy : string) : Prop :=
  call = IcAcceptOffer (cx_id x) entropy ∨ entropy = AUTO_ACCEPT_ENTROPY ∧ ∃ oj, heard_offer true (cx_thread_id x) oj.
Definition w3c_accepts (x : Rec) : Prop := call = IcW3cAcceptOffer (cx_id x) ∨ ∃ oj, heard_offer true (cx_thread_id x) oj.
Definition w3c_format (x : Rec) : Prop := ∃ fmt f, cx_credential_format x = Some fmt ∧ from_format_id fmt = Some f.
Definition own_request (x : Rec) (rj : string) : Prop :=
  ∃ oj, cx_offer_json x = Some oj ∧
    ((∃ cd offer req entropy, cx_cred_def_id x = Some cd ∧ accepts x entropy ∧ sd_from_text oj = Ok offer ∧
        answers (ch_create_request (HD:=HS) (cx_thread_id x) offer cd entropy) req ∧ sd_to_text req = Ok rj) ∨
     (w3c_accepts x ∧ w3c_format x ∧ rj = oj)).

(** The issuer's credential: made of the offer and the request of the record, or the offered
    one signed with a key that the caller, the offer or its issuer names. *)
Definition own_credential (x : Rec) (j : string) : Prop :=
  ∃ oj, cx_offer_json x = Some oj ∧
    ((∃ rj cd offer req attributes cred, cx_request_json x = Some rj ∧ cx_cred_def_id x = Some cd ∧
        (call = IcAcceptRequest (cx_id x) attributes ∨ ∃ rj', heard_request (cx_thread_id x) rj') ∧
        sd_from_text oj = Ok offer ∧ sd_from_text rj = Ok req ∧
        answers (ci_create_credential (I:=IS) cd offer req attributes) cred ∧ sd_to_text cred = Ok j) ∨
     (∃ fmt f detail cred key_id key w w', cx_credential_format x = Some fmt ∧ from_format_id fmt = Some f ∧
        (call = IcW3cAcceptRequest (cx_id x) key_id ∨ key_id = None ∧ ∃ rj', heard_request (cx_thread_id x) rj') ∧
        dt_from_json oj = Ok detail ∧ w3c_from_value (dt_credential detail) = Ok cred ∧ signing_key key_id detail = Some key ∧
        fs_sign f cred (mkSignOptions f key (signing_algorithm f detail) (Some "assertionMethod")) w = (Ok j, w'))).

(** The holder's AnonCreds service takes the credential for the thread and the definition. *)
Definition accepted (x : Rec) (j cid : string) : Prop :=
  ∃ cd cred, cx_cred_def_id x = Some cd ∧ sd_from_text j = Ok cred ∧ answers (ch_process_credential (HD:=HS) (cx_thread_id x) cred cd) cid.

(** Nothing was offered, requested or issued yet. *)
Definition empty_exchange (x : Rec) : Prop := cx_offer_json x = None ∧ cx_request_json x = None ∧ cx_credential_json x = None.
Definition only_offered (x : Rec) (oj : string) : Prop := cx_offer_json x = Some oj ∧ cx_request_json x = None ∧ cx_credential_json x = None.

Inductive cex_born : Rec → Prop :=
  | born_proposed x conn sch cd cm : cx_role x = Holder → cx_state x = ProposalSent → empty_exchange x →
      call = IcCreateProposal conn sch cd cm → cex_born x
  | born_proposal x : cx_role x = Issuer → cx_state x = ProposalReceived → empty_exchange x →
      heard_proposal (cx_thread_id x) → cex_born x
  | born_offer x oj : cx_role x = Issuer → cx_state x = OfferSent → only_offered x oj → own_offer x oj → cex_born x
  | born_offered x oj auto : cx_role x = Holder → cx_state x = OfferReceived → only_offered x oj →
      heard_offer auto (cx_thread_id x) oj → cex_born x.

Inductive cex_step : Rec → Rec → Prop :=
  | step_counter x sch cd oj now : cx_role x = Issuer → cx_state x = ProposalReceived →
      call = IcAcceptProposal (cx_id x) sch cd → offer_made sch cd oj →
      cex_step x (cx_update_state OfferSent now (cx_set_offer oj (cx_set_ids (Some sch) (Some cd) x)))
  | step_request x rj now : cx_role x = Holder → cx_state x = OfferReceived → own_request x rj →
      cex_step x (cx_update_state RequestSent now (cx_set_request rj x))
  | step_requested x rj now : cx_state x = OfferSent → heard_request (cx_thread_id x) rj →
      cex_step x (cx_update_state RequestReceived now (cx_set_request rj x))
  | step_issue x j now : cx_role x = Issuer → cx_state x = RequestReceived → own_credential x j →
      cex_step x (cx_update_state CredentialIssued now (cx_set_credential j x))
  | step_receive x j cid now : cx_role x = Holder → cx_state x = RequestSent → heard_credential (cx_thread_id x) j →
      accepted x j cid ∨ w3c_format x →
      cex_step x (cx_update_state Done now (cx_set_credential_id cid (cx_set_credential j x)))
  | step_ack x now : cx_state x ≠ Done → heard_ack (cx_thread_id x) → cex_step x (cx_update_state Done now x)
  | step_abandon x reason now : cex_is_terminal (cx_state x) = false → gives_up x reason → cex_step x (cx_set_error reason now x)
  | step_attributes x m now : call = IcSetAttributes (cx_id x) m → cex_step x (cx_set_auto_issue m now x).

(** What the call may do to the record under an id: records are never deleted. *)
Definition cex_change : option Rec → option Rec → Prop := record_change cex_born cex_step (λ _, False).
#[export] Instance cex_change_refl : Reflexive cex_change.
Proof. apply record_change_refl. Qed.

(** A record of a thread is under the id. *)
Definition on_thread (v : string → option Rec) (i t : string) : Prop := ∃ x, v i = Some x ∧ cx_thread_id x = t.

(** * Calls and their effect on the records *)

Context `{!ExchangeRepoLaws RS CredentialExchangeRecord CredentialError}.
Abbreviation CES := (CredentialService RS IS HS).
Abbreviation ces := (eff CredentialError CES).

Lemma quiet_serde {A} v (r : outcome string A) : quiet (T:=CES) v (ce_serde r) (λ a, r = Ok a).
Proof. eapply from_conseq; [apply quiet_lift| |done]. intros a Ha. destruct r; naive_solver. Qed.
Lemma quiet_ok_or {A} v e (o : option A) : quiet (T:=CES) v (ok_or e o) (λ a, o = Some a).
Proof. destruct o; [|apply quiet_throw]. eapply from_conseq; [apply quiet_ret| |done]. by intros ? ->. Qed.

(** Calls of the issuer and the holder leave the repository alone. *)
Lemma quiet_issuer {A} v (m : eff AnonCredsError IS A) : quiet (T:=CES) v (on_issuer m) (answers m).
Proof. by apply quiet_zoom. Qed.
Lemma quiet_holder {A} v (m : eff AnonCredsError HS A) : quiet (T:=CES) v (on_holder m) (answers m).
Proof. by apply quiet_zoom. Qed.
Lemma quiet_emit v r p : quiet (T:=CES) v (emit_exchange_changed r p) (λ _, True).
Proof. by apply quiet_modify. Qed.

(** Reading the repository. *)
Lemma quiet_find_by_thread v t :
  quiet (T:=CES) v (find_exchange_by_thread_id t)
    (λ o, match o with
          | Some x => cx_thread_id x = t ∧ v (cx_id x) = Some x
          | None => ∀ id x, v id = Some x → cx_thread_id x ≠ t
          end).
Proof.
  eapply from_conseq; [apply quiet_find| |done]. intros [x|].
  - intros [Hx%bool_decide_eq_true Hin]. done.
  - intros Hn id x Hx. by apply Hn, bool_decide_eq_false in Hx.
Qed.
Lemma quiet_get v i : quiet (T:=CES) v (get_exchange i) (λ x, v i = Some x ∧ cx_id x = i).
Proof.
  apply quiet_keyed. intros Hk. eapply from_bind; [typeclasses eauto|apply quiet_find_by_id|]. intros o ->.
  eapply from_conseq; [apply quiet_ok_or| |done]. intros x Hx. split; [done|]. by apply (Hk i x).
Qed.
Lemma quiet_require_state v st r : quiet (T:=CES) v (require_state st r) (λ _, cx_state r = st).
Proof. unfold require_state. case_decide; [|apply quiet_throw]. by eapply from_conseq; [apply quiet_ret| |]. Qed.
Lemma quiet_require_role v ro r : quiet (T:=CES) v (require_role ro r) (λ _, cx_role r = ro).
Proof. unfold require_role. case_decide; [|apply quiet_throw]. by eapply from_conseq; [apply quiet_ret| |]. Qed.

(** A record that the code moves on, and one that it opens. *)
Lemma from_advance v st x y :
  v (cx_id x) = Some x → cx_id y = cx_id x → (∀ now, cex_step x (cx_update_state st now y)) →
  from_view (T:=CES) v (advance_exchange st y) (λ _, True) cex_change.
Proof.
  intros Hx Hid Hstep. eapply from_bind; [typeclasses eauto|apply quiet_world|]. intros now _.
  eapply from_bind_quiet.
  - apply from_update. intros x' Hx'. cbn in Hx'. rewrite Hid, Hx in Hx'. injection Hx' as <-. apply Hstep.
  - intros [] v' _. eapply from_bind; [typeclasses eauto|apply quiet_emit|]. intros _ _.
    eapply from_conseq; [apply quiet_ret|done|done].
Qed.

Lemma born_connected x c now : cex_born x → cex_born (cx_set_connection_id c now x).
Proof. intros Hx. inversion Hx; [by eapply born_proposed|by apply born_proposal|by eapply born_offer|by eapply born_offered]. Qed.
Lemma from_save_exchange v role st t conn fill :
  (∀ w r w', cx_new role st t w = (r, w') → cex_born (fill r)) →
  from_view (T:=CES) v (save_exchange role st t conn fill) (λ _, True) cex_change.
Proof.
  intros Hborn. eapply from_bind; [typeclasses eauto|apply quiet_world|]. intros r (w & w' & Hr).
  apply (from_bind v _ _ cex_born); [typeclasses eauto| |].
  - destruct conn as [c|]; cbn [bind_connection].
    + eapply from_bind; [typeclasses eauto|apply quiet_world|]. intros now _.
      eapply from_conseq; [apply quiet_ret| |done]. intros ? ->. eapply born_connected, Hborn, Hr.
    + eapply from_conseq; [apply quiet_ret| |done]. intros ? ->. eapply Hborn, Hr.
  - intros x Hx. eapply from_bind_quiet; [by apply from_save|]. intros [] v' _.
    eapply from_conseq; [apply quiet_ret|done|done].
Qed.
Lemma from_open_exchange v role st t conn fill :
  (∀ w r w', cx_new role st t w = (r, w') → cex_born (fill r)) →
  from_view (T:=CES) v (open_exchange role st t conn fill) (λ _, True) cex_change.
Proof.
  intros Hborn. eapply from_bind_quiet; [by apply from_save_exchange|]. intros r v' _.
  eapply from_bind; [typeclasses eauto|apply quiet_emit|]. intros _ _. eapply from_conseq; [apply quiet_ret|done|done].
Qed.
(** A method that changes records by the machine. *)
Abbreviation steps m := (∀ v, from_view (T:=CES) v m (λ _, True) cex_change).

Lemma im_to_didcomm_state {E T} m (s : T) w : (im_to_didcomm (E:=E) m s w).1.2 = s.
Proof. unfold im_to_didcomm. by destruct (im_formats m). Qed.

Ltac finish :=
  first
    [ by apply quiet_throw
    | by apply quiet_from; [typeclasses eauto|apply quiet_throw]
    | by eapply from_conseq; [first [apply quiet_ret|apply quiet_emit]|done|intros ? ? ->; constructor] ].
Ltac new_record := let w := fresh in let r := fresh in let w' := fresh in let Hr := fresh in
  intros w r w' Hr; unfold cx_new in Hr; destruct (utc_now w) as [? ?]; destruct (uuid_new_v4 _) as [? ?]; injection Hr as <- <-.
Ltac message := eapply from_bind; [typeclasses eauto|apply quiet_any; intros; first [reflexivity|by rewrite im_to_didcomm_state]|intros ? _].

(** The start of a method: the record, its state, its role. *)
Lemma from_checked {A} v i st ro (k : CredentialExchangeRecord → ces A) F Q :
  Reflexive Q →
  (∀ x, v (cx_id x) = Some x → cx_id x = i → cx_state x = st → cx_role x = ro → from_view v (k x) F Q) →
  from_view (T:=CES) v (x ← get_exchange i; _ ← require_state st x; _ ← require_role ro x; k x) F Q.
Proof.
  intros HQ Hk. quietly quiet_get. intros x [Hx <-]. quietly quiet_require_state. intros [] Hst.
  quietly quiet_require_role. intros [] Hro. by apply Hk.
Qed.

Lemma create_proposal_steps c sch cd cm : call = IcCreateProposal c sch cd cm → steps (create_proposal c sch cd cm).
Proof.
  intros Hc v. unfold create_proposal. message. eapply from_bind_quiet; [apply from_open_exchange; new_record|].
  - by eapply born_proposed.
  - intros r v' _. finish.
Qed.

Lemma store_proposal_steps c m i :
  call = IcProposeMessage i → pm_from_didcomm (in_message i) = Ok m → steps (store_proposal c m).
Proof.
  intros Hc Hm v. unfold store_proposal. quietly quiet_find_by_thread. intros [x|] _; [finish|].
  apply from_open_exchange. new_record. apply born_proposal; [done..|]. by exists i, m.
Qed.

Lemma accept_proposal_steps i sch cd : call = IcAcceptProposal i sch cd → steps (accept_proposal i sch cd).
Proof.
  intros Hc v. unfold accept_proposal. apply from_checked; [typeclasses eauto|]. intros x Hx <- Hst Hro.
  quietly quiet_issuer. intros offer Hoffer. quietly quiet_serde. intros oj Hoj. message.
  eapply from_bind_quiet; [|intros ? ? _; finish]. eapply from_advance; [exact Hx|done|].
  intros now. apply step_counter; [done..|]. by exists offer.
Qed.

Lemma create_offer_steps c sch cd : call = IcCreateOffer c sch cd → steps (create_offer c sch cd).
Proof.
  intros Hc v. unfold create_offer. quietly quiet_issuer. intros offer Hoffer. quietly quiet_serde. intros oj Hoj. message.
  eapply from_bind_quiet; [|intros ? ? _; finish]. apply from_open_exchange. new_record.
  apply (born_offer _ oj); [done..|]. left. exists sch, cd. split_and!; [done..|by exists offer|eauto].
Qed.

Lemma from_accept_offer v i e : (∀ x, v i = Some x → cx_id x = i → accepts x e) → from_view (T:=CES) v (accept_offer i e) (λ _, True) cex_change.
Proof.
  intros Hc. unfold accept_offer. apply from_checked; [typeclasses eauto|]. intros x Hx <- Hst Hro.
  quietly quiet_ok_or. intros oj Hoj. quietly quiet_serde. intros offer Hoffer. quietly quiet_ok_or. intros cd Hcd.
  quietly quiet_holder. intros req Hreq. quietly quiet_serde. intros rj Hrj. message.
  eapply from_bind_quiet; [|intros ? ? _; finish]. eapply from_advance; [exact Hx|done|].
  intros now. apply step_request; [done..|]. exists oj. split; [done|]. left. exists cd, offer, req, e. split_and!; auto.
Qed.

Lemma from_store_request v i rj :
  (∀ x, v i = Some x → heard_request (cx_thread_id x) rj) → from_view (T:=CES) v (store_request i rj) (λ _, True) cex_change.
Proof.
  intros Hc. unfold store_request. quietly quiet_get. intros x [Hx <-]. quietly quiet_require_state. intros [] Hst.
  eapply from_bind_quiet; [|intros ? ? _; finish]. eapply from_advance; [exact Hx|done|]. intros now. apply step_requested; auto.
Qed.

Lemma set_auto_issue_attributes_steps i m : call = IcSetAttributes i m → steps (set_auto_issue_attributes i m).
Proof.
  intros Hc v. unfold set_auto_issue_attributes. quietly quiet_get. intros x [Hx <-]. quietly quiet_world. intros now _.
  apply from_update. cbn. intros x' Hx'. rewrite Hx in Hx'. injection Hx' as <-. by constructor.
Qed.

Lemma from_accept_request v i m :
  (∀ x, v i = Some x → cx_id x = i → call = IcAcceptRequest i m ∨ ∃ rj, heard_request (cx_thread_id x) rj) →
  from_view (T:=CES) v (accept_request i m) (λ _, True) cex_change.
Proof.
  intros Hc. unfold accept_request. apply from_checked; [typeclasses eauto|]. intros x Hx <- Hst Hro.
  quietly quiet_ok_or. intros oj Hoj. quietly quiet_ok_or. intros rj Hrj. quietly quiet_ok_or. intros cd Hcd.
  quietly quiet_serde. intros offer Hoffer. quietly quiet_serde. intros req Hreq.
  quietly quiet_issuer. intros cred Hcred. quietly quiet_serde. intros j Hj. message. message.
  eapply from_bind_quiet; [|intros ? ? _; finish]. eapply from_advance; [exact Hx|done|].
  intros now. apply step_issue; [done..|]. exists oj. split; [done|]. left. exists rj, cd, offer, req, m, cred. split_and!; auto.
Qed.

Lemma from_process_credential v i j :
  (∀ x, v i = Some x → heard_credential (cx_thread_id x) j) → from_view (T:=CES) v (process_credential i j) (λ _, True) cex_change.
Proof.
  intros Hc. unfold process_credential. apply from_checked; [typeclasses eauto|]. intros x Hx <- Hst Hro.
  quietly quiet_ok_or. intros cd Hcd. quietly quiet_serde. intros cred Hcred. quietly quiet_holder. intros cid Hcid.
  eapply from_bind_quiet; [|intros ? ? _; finish]. eapply from_advance; [exact Hx|done|].
  intros now. apply step_receive; [done|done|by apply Hc|]. left. by exists cd, cred.
Qed.

Lemma process_ack_steps t : heard_ack t → steps (process_ack t).
Proof.
  intros Hc v. unfold process_ack. quietly quiet_find_by_thread. intros o Ho. quietly quiet_ok_or. intros x ->. destruct Ho as [<- Hx].
  case_decide; [finish|]. eapply from_advance; [exact Hx|done|]. intros now. by constructor.
Qed.

Lemma from_abandon_exchange v i reason :
  (∀ x, v i = Some x → cx_id x = i → gives_up x reason) → from_view (T:=CES) v (abandon_exchange i reason) (λ _, True) cex_change.
Proof.
  intros Hc. unfold abandon_exchange. quietly quiet_get. intros x [Hx <-].
  destruct (cex_is_terminal (cx_state x)) eqn:Ht; [finish|]. quietly quiet_world. intros now _.
  eapply from_bind_quiet; [|intros ? ? _; apply quiet_emit]. apply from_update. cbn. intros x' Hx'. rewrite Hx in Hx'.
  injection Hx' as <-. constructor; auto.
Qed.

(** ** W3C formats *)

Lemma quiet_service_for v f : quiet (T:=CES) v (service_for f) (λ _, True).
Proof. unfold service_for. destruct (fs_registered f); finish. Qed.
Lemma quiet_format_of v x :
  quiet (T:=CES) v (format_of x) (λ f, ∃ fmt, cx_credential_format x = Some fmt ∧ from_format_id fmt = Some f).
Proof.
  eapply from_conseq; [apply quiet_ok_or| |done]. intros f Hf. by apply bind_Some in Hf.
Qed.

Lemma w3c_create_offer_steps c f d : call = IcW3cCreateOffer c f d → steps (w3c_create_offer c f d).
Proof.
  intros Hc v. unfold w3c_create_offer. quietly quiet_service_for. intros [] _. message.
  eapply from_bind_quiet; [|intros ? ? _; finish]. apply from_open_exchange. new_record.
  eapply born_offer; [done..|]. right. by exists c, f, d.
Qed.

Lemma from_w3c_accept_offer v i :
  (∀ x, v i = Some x → cx_id x = i → w3c_accepts x) → from_view (T:=CES) v (w3c_accept_offer i) (λ _, True) cex_change.
Proof.
  intros Hc. unfold w3c_accept_offer. apply from_checked; [typeclasses eauto|]. intros x Hx <- Hst Hro.
  quietly quiet_format_of. intros f (fmt & Hfmt & Hf). quietly quiet_ok_or. intros oj Hoj. message.
  eapply from_bind_quiet; [|intros ? ? _; finish]. eapply from_advance; [exact Hx|done|]. intros now.
  apply step_request; [done..|]. exists oj. split; [done|]. right. split_and!; [auto|by exists fmt, f|done].
Qed.

Lemma from_w3c_accept_request v i key :
  (∀ x, v i = Some x → cx_id x = i → call = IcW3cAcceptRequest i key ∨ key = None ∧ ∃ rj, heard_request (cx_thread_id x) rj) →
  from_view (T:=CES) v (w3c_accept_request i key) (λ _, True) cex_change.
Proof.
  intros Hc. unfold w3c_accept_request. apply from_checked; [typeclasses eauto|]. intros x Hx <- Hst Hro.
  quietly quiet_format_of. intros f (fmt & Hfmt & Hf). quietly quiet_service_for. intros [] _.
  quietly quiet_ok_or. intros oj Hoj. quietly quiet_serde. intros d Hd. quietly quiet_lift. intros cred Hcred.
  quietly quiet_ok_or. intros k Hk.
  apply (from_bind v _ _ (λ j, ∃ w w', fs_sign f cred (mkSignOptions f k (signing_algorithm f d) (Some "assertionMethod")) w = (Ok j, w')));
    [typeclasses eauto| |].
  - intros s w Hs Hv. destruct (fs_sign _ _ _ w) as [[j|e|] w'] eqn:Hsign; (split; [done|]; split; [by intros id; rewrite <-Hv|]); [|done..].
    intros ? [= <-]. eauto.
  - intros j (w & w' & Hsign). message. message. eapply from_bind_quiet; [|intros ? ? _; finish].
    eapply from_advance; [exact Hx|done|]. intros now. apply step_issue; [done..|].
    exists oj. split; [done|]. right. exists fmt, f, d, cred, key, k, w, w'. split_and!; auto.
    by destruct (w3c_from_value _); naive_solver.
Qed.

Lemma from_w3c_process_credential v i j :
  (∀ x, v i = Some x → heard_credential (cx_thread_id x) j) → from_view (T:=CES) v (w3c_process_credential i j) (λ _, True) cex_change.
Proof.
  intros Hc. unfold w3c_process_credential. apply from_checked; [typeclasses eauto|]. intros x Hx <- Hst Hro.
  quietly quiet_format_of. intros f (fmt & Hfmt & Hf).
  eapply from_bind; [typeclasses eauto|apply quiet_any|].
  { intros s w. destruct (fs_registered f); [|done]. by destruct (fs_verify f j w). }
  intros [] _. message. eapply from_bind_quiet; [|intros ? ? _; finish]. eapply from_advance; [exact Hx|done|].
  intros now. apply step_receive; [done|done|by apply Hc|]. right. by exists fmt, f.
Qed.
End spec.

(** * Handlers and runs *)

Section runs.
Context `{AnoncredsLib} `{JsonText} `{Base64Engine} `{UuidText} `{Serde CredentialExchangeRecord} `{FormatServices}.
Context {RS IS HS : Type} `{!ExchangeRepo RS CredentialExchangeRecord CredentialError} `{!CredentialIssuer IS} `{!CredentialHolder HS}.
Context `{!ExchangeRepoLaws RS CredentialExchangeRecord CredentialError}.
Abbreviation CES := (CredentialService RS IS HS).
Abbreviation ces := (eff CredentialError CES).
Abbreviation View := (string → option CredentialExchangeRecord).
Abbreviation Agent := (IssuanceAgent RS IS HS).
Abbreviation hd := (eff MessageHandlerError Agent).
Abbreviation change c := (cex_change (IS:=IS) (HS:=HS) c).
Implicit Types (v : View) (x y : CredentialExchangeRecord) (c : issuance_call) (past : list issuance_call).

#[export] Instance agent_repo : HasRepo Agent RS := {|
  repo_of s := ces_repository (ia_service s); with_repo r s := mkAgent (with_repo r (ia_service s)) (ia_auto_issue s);
  repo_of_with _ _ := eq_refl
|}.
Definition agent_ok (s : Agent) : Prop := rs_ok s.
Definition agent_view (s : Agent) : View := rs_view s.
(** From the records [v], a handler takes every record along steps of the call. *)
Abbreviation follows c v m F := (evolves (T:=Agent) (cex_born (IS:=IS) c) (cex_step (IS:=IS) (HS:=HS) c) (λ _, False) v m F).
Abbreviation runs c v m := (follows c v m (λ _ _, True)).

(** How far an exchange has come. *)
Definition cex_rank (s : CredentialExchangeState) : nat :=
  match s with
  | ProposalSent | ProposalReceived => 0
  | OfferSent | OfferReceived => 1
  | RequestSent | RequestReceived => 2
  | CredentialIssued | CredentialReceived => 3
  | Declined | Abandoned => 4
  | Done => 5
  end.

Record cex_later x y : Prop := {
  cl_id : cx_id y = cx_id x;
  cl_thread : cx_thread_id y = cx_thread_id x;
  cl_role : cx_role y = cx_role x;
  cl_connection : cx_connection_id y = cx_connection_id x;
  cl_created : cx_created_at y = cx_created_at x;
  cl_rank : cx_state y = cx_state x ∨ cex_rank (cx_state x) < cex_rank (cx_state y)
}.

Lemma cex_step_later c x y : cex_step (IS:=IS) (HS:=HS) c x y → cex_later x y.
Proof.
  destruct 1; constructor; try done; cbn; try (by right; match goal with H : cx_state _ = _ |- _ => rewrite H end; cbn; lia); [..|by left].
  - right. destruct (cx_state x); cbn; try lia; done.
  - right. destruct (cx_state x); cbn in *; try lia; done.
Qed.

#[export] Instance cex_later_trans : Transitive cex_later.
Proof.
  intros x y z [] []. constructor; try congruence.
  repeat match goal with H : _ ∨ _ |- _ => destruct H as [H|H] end; try (left; congruence); right; try congruence; lia.
Qed.
#[export] Instance cex_later_refl : Reflexive cex_later.
Proof. intros x. constructor; auto. Qed.

Lemma change_path_later c o o' : rtc (change c) o o' → ∀ x, o = Some x → ∃ y, o' = Some y ∧ cex_later x y.
Proof. apply change_path_order; [typeclasses eauto..|apply cex_step_later]. Qed.

(** ** Calls of the service *)

Lemma evolves_service {A} c v err (m : ces A) F :
  evolves (T:=CES) (cex_born (IS:=IS) c) (cex_step (IS:=IS) (HS:=HS) c) (λ _, False) v m F → follows c v (on_service err m) F.
Proof. by apply evolves_zoom. Qed.
Lemma evolves_call {A} c v err (m : ces A) F : from_view (T:=CES) v m F (change c) → follows c v (on_service err m) (λ a _, F a).
Proof. intros Hm. by apply evolves_service, evolves_from. Qed.
(** The thread of a record stays through a call. *)
Lemma evolves_on_thread {A} c v i t (m : hd A) F : on_thread v i t → follows c v m F → follows c v m (λ a v', F a v' ∧ on_thread v' i t).
Proof.
  intros (x & Hx & <-) Hm s w Hs Hv. specialize (Hm s w Hs Hv). destruct (m s w) as [[r s'] w']. destruct Hm as (Hs' & Hc & HF).
  split_and!; [done..|]. intros a Ha. destruct (HF a Ha) as (v' & Hv' & Hx'). exists v'. split_and!; [done..|].
  destruct (change_path_later c _ _ (Hc i) x Hx) as (y & Hy & Hl). exists y. rewrite <-Hv'. by split; [|apply Hl].
Qed.
(** What leaves the repository alone. *)
Lemma evolves_still {E' A} c v (m : eff E' Agent A) :
  (∀ s w, repo_of (m s w).1.2 = repo_of s) → evolves (T:=Agent) (cex_born (IS:=IS) c) (cex_step (IS:=IS) (HS:=HS) c) (λ _, False) v m (λ _ v', v' = v).
Proof. intros Hm. eapply evolves_conseq; [apply evolves_quiet, quiet_any, Hm|]. by intros a v' [_ ->]. Qed.
Lemma runs_still {A} c v (m : hd A) : (∀ s w, repo_of (m s w).1.2 = repo_of s) → runs c v m.
Proof. intros Hm. eapply evolves_conseq; [by apply evolves_still|done]. Qed.
Lemma runs_still_bind {A B} c v (m : hd A) (k : A → hd B) :
  (∀ s w, repo_of (m s w).1.2 = repo_of s) → (∀ a, runs c v (k a)) → runs c v (m ≫= k).
Proof. intros Hm Hk. eapply evolves_bind; [by apply evolves_still|]. intros a v' ->. apply Hk. Qed.
Lemma runs_parsed {A B} c v err (r : outcome CredentialError A) (k : A → hd B) :
  (∀ a, r = Ok a → runs c v (k a)) → runs c v (a ← parsed err r; k a).
Proof. intros Hk. unfold parsed. destruct r as [a|e|]; [by apply Hk|by apply runs_still..]. Qed.
(** The last call of a handler. *)
Lemma runs_call {A B} c v err (m : ces A) (k : A → hd B) :
  from_view (T:=CES) v m (λ _, True) (change c) → (∀ a s w, repo_of (k a s w).1.2 = repo_of s) → runs c v (a ← on_service err m; k a).
Proof. intros Hm Hk. eapply evolves_bind; [by apply evolves_call|]. intros a v' _. apply runs_still, Hk. Qed.

Lemma rm_to_didcomm_state {E T} m (s : T) w : (rm_to_didcomm (E:=E) m s w).1.2 = s.
Proof. unfold rm_to_didcomm. by destruct (rm_formats m). Qed.

(** A request is sent in answer. *)
Lemma request_sent {A} (k : Message → A) rm (s : Agent) w : repo_of ((message ← rm_to_didcomm (E:=MessageHandlerError) rm; mret (k message)) s w).1.2 = repo_of s.
Proof.
  unfold mbind, eff_bind. pose proof (rm_to_didcomm_state (E:=MessageHandlerError) rm s w) as Hr.
  by destruct (rm_to_didcomm rm s w) as [[[?|?|] ?] ?]; cbn in *; subst.
Qed.

(** The exchange of a thread. *)
Lemma evolves_exchange_of_thread c v what t err : follows c v (exchange_of_thread what t err) (λ r v', on_thread v' (cx_id r) t).
Proof.
  eapply evolves_bind; [apply evolves_service, evolves_quiet, quiet_find_by_thread|]. cbv beta. intros [r|] v' [Hr ->].
  - eapply evolves_conseq; [apply evolves_quiet, quiet_ret|]. intros ? ? [-> ->]. destruct Hr as [Ht Hr]. by exists r.
  - eapply evolves_conseq; [apply evolves_quiet, (quiet_throw _ _ (λ _, False))|]. by intros ? ? [[] _].
Qed.
Lemma at_thread v i t (P : string → Prop) : on_thread v i t → P t → ∀ x, v i = Some x → P (cx_thread_id x).
Proof. intros (x & Hx & <-) HP y Hy. by simplify_eq. Qed.

(** ** Handlers *)

(** A record of a heard offer is opened on its thread. *)
Definition opened t oj x : Prop := cx_role x = Holder ∧ cx_state x = OfferReceived ∧ only_offered x oj ∧ cx_thread_id x = t.
Lemma evolves_save_offer c v auto t conn oj fill :
  heard_offer c auto t oj →
  (∀ r, cx_role r = Holder → cx_state r = OfferReceived → empty_exchange r → cx_thread_id r = t → opened t oj (fill r)) →
  evolves (T:=CES) (cex_born (IS:=IS) c) (cex_step (IS:=IS) (HS:=HS) c) (λ _, False) v
    (save_exchange Holder OfferReceived t conn fill) (λ r v', on_thread v' (cx_id r) t).
Proof.
  intros Ho Hfill. assert (Hb : ∀ r, opened t oj r → cex_born (IS:=IS) c r) by (intros r (? & ? & ? & <-); by eapply born_offered).
  unfold save_exchange. eapply evolves_bind; [apply evolves_quiet, quiet_world|]. cbv beta. intros r0 v' [(w & w' & Hr0) ->].
  assert (Hf : opened t oj (fill r0)).
  { unfold cx_new in Hr0. destruct (utc_now w) as [? ?]; destruct (uuid_new_v4 _) as [? ?]; injection Hr0 as <- <-. by apply Hfill. }
  eapply (evolves_bind _ _ _ _ _ _ (λ r v', opened t oj r ∧ v' = v)).
  { destruct conn as [k|]; cbn [bind_connection].
    - eapply evolves_bind; [apply evolves_quiet, quiet_world|]. cbv beta. intros now v' [_ ->].
      eapply evolves_conseq; [apply evolves_quiet, quiet_ret|]. by intros ? ? [-> ->].
    - eapply evolves_conseq; [apply evolves_quiet, quiet_ret|]. by intros ? ? [-> ->]. }
  cbv beta. intros r v' [Hr ->]. eapply evolves_bind; [by apply evolves_save, Hb|]. cbv beta. intros [] v' Hv'.
  eapply evolves_conseq; [apply evolves_quiet, quiet_ret|]. intros ? ? [-> ->]. exists r. by split; [|apply Hr].
Qed.

Lemma offer_handle_runs c v auto m :
  brings c auto OFFER_TYPE m → runs c v (offer_handle auto m).
Proof.
  intros Hm. apply runs_parsed. intros offer Ho. apply runs_still_bind; [done|]. intros value.
  assert (Hh : heard_offer c auto (om_thread_id offer) (om_json offer)) by by exists m, offer.
  eapply evolves_bind; [eapply evolves_service, (evolves_save_offer _ _ auto); [done|by intros r ? ? (? & ? & ?) ?]|]. cbv beta. intros r v' Hr.
  destruct auto; cbn [negb]; [|by apply runs_still].
  apply runs_call; [|apply request_sent].
  apply from_accept_offer. intros x Hx _. right. split; [done|]. exists (om_json offer).
  by apply (at_thread _ _ _ (λ t, heard_offer c true t _) Hr Hh x).
Qed.

(** The request that was heard is stored on the exchange of its thread. *)
Definition requested_of c v i : Prop := ∃ t rj, heard_request c t rj ∧ on_thread v i t.
Lemma requested_record c v i : requested_of c v i → ∀ x, v i = Some x → ∃ rj, heard_request c (cx_thread_id x) rj.
Proof. intros (t & rj & Hh & Hi) x Hx. exists rj. by apply (at_thread _ _ _ (λ t, heard_request c t rj) Hi Hh x). Qed.
Lemma store_request_follows c v err i t rj :
  heard_request c t rj → on_thread v i t → follows c v (on_service err (store_request i rj)) (λ _ v', requested_of c v' i).
Proof.
  intros Hh Hi. eapply evolves_conseq.
  - apply (evolves_on_thread _ _ i t); [done|]. apply evolves_call, from_store_request. by apply (at_thread _ _ _ (λ t, heard_request c t rj) Hi Hh).
  - intros a v' [_ Hi']. by exists t, rj.
Qed.
Lemma receive_request_follows c v m :
  (∃ auto, brings c auto REQUEST_TYPE m) ∨ c = IcRequestWasm m → follows c v (receive_request m) (λ r v', requested_of c v' (cx_id r)).
Proof.
  intros Hm. unfold receive_request, parsed. destruct (rm_from_didcomm (in_message m)) as [rq|e|] eqn:Hrq; cbn [eff_lift].
  2,3: intros s w Hs Hv; split; [done|]; split; [intros id; by rewrite <-Hv|done].
  eapply evolves_bind; [apply evolves_quiet, quiet_ret|]. intros ? ? [-> ->].
  eapply evolves_bind; [apply evolves_exchange_of_thread|]. cbv beta. intros r v' Hr.
  eapply evolves_bind; [eapply store_request_follows; [|exact Hr]|].
  - by exists m, rq.
  - intros ? v2 Hv2. eapply evolves_conseq; [apply evolves_quiet, quiet_ret|]. by intros ? ? [-> ->].
Qed.
Lemma issue_now c v err i attrs (k : OutboundMessage → hd (option OutboundMessage)) :
  requested_of c v i → (∀ o s w, repo_of (k o s w).1.2 = repo_of s) → runs c v (o ← on_service err (accept_request i attrs); k o).
Proof. intros Hi Hk. apply runs_call; [|done]. apply from_accept_request. intros x Hx _. right. by eapply requested_record. Qed.
Lemma request_handle_runs c v auto m : brings c auto REQUEST_TYPE m → runs c v (request_handle m).
Proof.
  intros Hm. eapply evolves_bind; [apply receive_request_follows; left; by exists auto|]. cbv beta. intros r v' Hr.
  eapply (evolves_bind _ _ _ _ _ _ (λ _ v2, v2 = v')); [apply evolves_still; by destruct (cx_auto_issue_attributes r)|].
  intros [attrs|] ? ->; [|by apply runs_still]. by apply issue_now.
Qed.
Lemma request_handle_wasm_runs v m : runs (IcRequestWasm m) v (request_handle_wasm m).
Proof.
  eapply evolves_bind; [apply receive_request_follows; by right|]. cbv beta. intros r v' Hr.
  apply runs_still_bind; [done|]. intros [attrs|]; [|by apply runs_still]. by apply issue_now.
Qed.

(** The credential that was heard, for the exchange of its thread. *)
Lemma credential_runs c v auto m what err1 err2 (process : string → string → ces string) (k : string → hd (option OutboundMessage)) im :
  brings c auto ISSUE_TYPE m → im_from_didcomm (in_message m) = Ok im →
  (∀ v i j, (∀ x, v i = Some x → heard_credential c (cx_thread_id x) j) → from_view (T:=CES) v (process i j) (λ _, True) (change c)) →
  (∀ a s w, repo_of (k a s w).1.2 = repo_of s) →
  runs c v (r ← exchange_of_thread what (im_thread_id im) err1; a ← on_service err2 (process (cx_id r) (im_json im)); k a).
Proof.
  intros Hm Him Hp Hk. eapply evolves_bind; [apply evolves_exchange_of_thread|]. cbv beta. intros r v' Hr.
  apply runs_call; [|done]. apply Hp. apply (at_thread _ _ _ (λ t, heard_credential c t (im_json im)) Hr). by exists auto, m, im.
Qed.
Lemma issue_handle_runs c v auto m : brings c auto ISSUE_TYPE m → runs c v (issue_handle m).
Proof.
  intros Hm. apply runs_parsed. intros im Him. eapply credential_runs; [done..|by apply from_process_credential|done].
Qed.

Lemma ack_handle_runs c v auto m : brings c auto ACK_TYPE m → runs c v (ack_handle m).
Proof.
  intros Hm. apply runs_parsed. intros a Ha. eapply evolves_bind; [|intros ? ? _; by apply runs_still].
  eapply evolves_catch, evolves_call, process_ack_steps. left. by exists auto, m, a.
Qed.
Lemma propose_handle_runs v m : runs (IcProposeMessage m) v (propose_handle m).
Proof. apply runs_parsed. intros p Hp. apply runs_call; [|done]. by eapply store_proposal_steps. Qed.
Lemma problem_report_handle_runs v m : runs (IcProblemReport m) v (problem_report_handle m).
Proof.
  apply runs_parsed. intros p Hp. eapply evolves_bind; [apply evolves_service, evolves_quiet, quiet_find_by_thread|]. cbv beta.
  intros [r|] ? [Hr ->]; [|by apply runs_still]. destruct (cex_is_terminal (cx_state r)); [by apply runs_still|].
  apply runs_call; [|done]. apply from_abandon_exchange. intros x Hx _. destruct Hr as [Ht Hr]. right. exists m, p.
  assert (x = r) as -> by congruence. done.
Qed.

(** ** W3C handlers *)

Lemma w3c_store_offer_follows c v auto conn m offer :
  brings c auto OFFER_TYPE m → om_from_didcomm (in_message m) = Ok offer →
  evolves (T:=CES) (cex_born (IS:=IS) c) (cex_step (IS:=IS) (HS:=HS) c) (λ _, False) v (w3c_store_offer conn offer)
    (λ r v', on_thread v' (cx_id r) (om_thread_id offer)).
Proof.
  intros Hm Ho. unfold w3c_store_offer. eapply evolves_bind; [apply evolves_quiet, quiet_find_by_thread|]. cbv beta. intros [r|] ? [Hr ->].
  - eapply evolves_conseq; [apply evolves_quiet, quiet_ret|]. intros ? ? [-> ->]. destruct Hr as [Ht Hr]. by exists r.
  - eapply evolves_bind; [apply evolves_quiet, quiet_ok_or|]. cbv beta. intros fmt ? [_ ->].
    eapply evolves_bind; [eapply evolves_save_offer; [by exists m, offer|by intros r ? ? (? & ? & ?) ?]|]. cbv beta. intros r v' Hrv.
    eapply evolves_bind; [apply evolves_quiet, quiet_emit|]. cbv beta. intros _ ? [_ ->].
    eapply evolves_conseq; [apply evolves_quiet, quiet_ret|]. by intros ? ? [-> ->].
Qed.
Lemma w3c_offer_handle_runs c v auto m : brings c auto OFFER_TYPE m → runs c v (w3c_offer_handle auto (Some (offer_handle auto)) m).
Proof.
  intros Hm. unfold w3c_offer_handle. destruct (is_w3c_for _); cbn [negb]; [|by apply offer_handle_runs].
  apply runs_parsed. intros offer Ho. eapply evolves_bind; [by eapply evolves_service, w3c_store_offer_follows|]. cbv beta. intros r v' Hr.
  destruct auto; cbn [negb]; [|by apply runs_still]. apply runs_call; [|apply request_sent].
  apply from_w3c_accept_offer. intros x Hx _. right. exists (om_json offer).
  apply (at_thread _ _ _ (λ t, heard_offer c true t _) Hr); [by exists m, offer|done].
Qed.
Lemma w3c_request_handle_runs c v auto m : brings c auto REQUEST_TYPE m → runs c v (w3c_request_handle true (Some request_handle) m).
Proof.
  intros Hm. unfold w3c_request_handle. destruct (is_w3c_for _); cbn [negb]; [|by eapply request_handle_runs].
  apply runs_parsed. intros rq Hrq. eapply evolves_bind; [apply evolves_exchange_of_thread|]. cbv beta. intros r v' Hr.
  eapply evolves_bind; [eapply store_request_follows; [exists m, rq; eauto 10|exact Hr]|].
  cbv beta. intros _ v2 Hv2. apply runs_call; [|done]. apply from_w3c_accept_request. intros x Hx _. right. split; [done|].
  by eapply requested_record.
Qed.
Lemma w3c_issue_handle_runs c v auto m : brings c auto ISSUE_TYPE m → runs c v (w3c_issue_handle (Some issue_handle) m).
Proof.
  intros Hm. unfold w3c_issue_handle. destruct (is_w3c_for _); cbn [negb]; [|by eapply issue_handle_runs].
  apply runs_parsed. intros im Him. eapply credential_runs; [done..|by apply from_w3c_process_credential|done].
Qed.

(** ** Runs *)

Definition ignore {A} (m : hd A) : hd (option OutboundMessage) := _ ← m; mret None.
Definition issuance_step (c : issuance_call) : hd (option OutboundMessage) :=
  match c with
  | IcMessage auto m =>
      match credential_handler auto (msg_type (in_message m)) with Some h => h m | None => mret None end
  | IcProposeMessage m => propose_handle m
  | IcProblemReport m => problem_report_handle m
  | IcRequestWasm m => request_handle_wasm m
  | IcCreateProposal c sch cd cm => ignore (on_service (failed "") (create_proposal c sch cd cm))
  | IcAcceptProposal i sch cd => ignore (on_service (failed "") (accept_proposal i sch cd))
  | IcCreateOffer c sch cd => ignore (on_service (failed "") (create_offer c sch cd))
  | IcAcceptOffer i e => ignore (on_service (failed "") (accept_offer i e))
  | IcAcceptRequest i a => ignore (on_service (failed "") (accept_request i a))
  | IcSetAttributes i a => ignore (on_service (failed "") (set_auto_issue_attributes i a))
  | IcRegisterAttributes i a => ignore (register_auto_issue_attributes i a)
  | IcAbandon i r => ignore (on_service (failed "") (abandon_exchange i r))
  | IcW3cCreateOffer c f d => ignore (on_service (failed "") (w3c_create_offer c f d))
  | IcW3cAcceptOffer i => ignore (on_service (failed "") (w3c_accept_offer i))
  | IcW3cAcceptRequest i k => ignore (on_service (failed "") (w3c_accept_request i k))
  | IcW3cAck t => ignore (on_service (failed "") (w3c_process_ack t))
  end.

(** A run: the calls one after the other, whatever they answer. *)
Fixpoint issuance_run (calls : list issuance_call) (s : Agent) (w : World) : Agent * World :=
  match calls with
  | [] => (s, w)
  | c :: calls => let '(_, s, w) := issuance_step c s w in issuance_run calls s w
  end.
(** What becomes of the record under an id: each call takes it along steps of its own. *)
Fixpoint cex_path (calls : list issuance_call) (o o' : option CredentialExchangeRecord) : Prop :=
  match calls with
  | [] => o' = o
  | c :: calls => ∃ o1, rtc (change c) o o1 ∧ cex_path calls o1 o'
  end.

Lemma ignore_runs {A} c v (m : ces A) : from_view (T:=CES) v m (λ _, True) (change c) → runs c v (ignore (on_service (failed "") m)).
Proof. intros Hm. by apply runs_call. Qed.
Lemma issuance_step_runs c v : runs c v (issuance_step c).
Proof.
  destruct c; cbn [issuance_step]; try apply ignore_runs.
  - unfold credential_handler. repeat case_decide.
    + by apply w3c_offer_handle_runs.
    + by eapply w3c_request_handle_runs.
    + by eapply w3c_issue_handle_runs.
    + by eapply ack_handle_runs.
    + by apply runs_still.
  - apply propose_handle_runs.
  - apply problem_report_handle_runs.
  - apply request_handle_wasm_runs.
  - by apply create_proposal_steps.
  - by apply accept_proposal_steps.
  - by apply create_offer_steps.
  - apply from_accept_offer. intros x _ <-. by left.
  - apply from_accept_request. auto.
  - by apply set_auto_issue_attributes_steps.
  - by apply runs_still.
  - apply from_abandon_exchange. intros x _ <-. by left.
  - by apply w3c_create_offer_steps.
  - apply from_w3c_accept_offer. intros x _ <-. by left.
  - apply from_w3c_accept_request. auto.
  - apply process_ack_steps. by right.
Qed.

Lemma issuance_run_path calls s w :
  agent_ok s → agent_ok (issuance_run calls s w).1 ∧ ∀ id, cex_path calls (agent_view s id) (agent_view (issuance_run calls s w).1 id).
Proof.
  revert s w. induction calls as [|c calls IH]; intros s w Hs; cbn [issuance_run]; [by split|].
  destruct (paths_evolves _ _ _ _ _ (issuance_step_runs c) s w Hs) as [Hs1 Hv1]. destruct (issuance_step c s w) as [[r s1] w1]. cbn in Hs1, Hv1.
  destruct (IH s1 w1 Hs1) as [Hs' Hv']. split; [done|]. intros id. exists (agent_view s1 id). by split; [apply Hv1|].
Qed.
(** ** The records of an agent *)

(** The request was heard on the thread after the offer had been made by an earlier call. *)
Definition requested_after past x rj : Prop :=
  ∃ before c after d oj, past = before ++ c :: after ∧ heard_request c (cx_thread_id x) rj ∧
    cx_offer_json x = Some oj ∧ d ∈ before ∧ own_offer (IS:=IS) d x oj.
(** The credential was heard on the thread after the request had been made by an earlier call,
    and accepted, if it is not of a W3C format. *)
Definition received_after past x j : Prop :=
  ∃ before c after d rj cid, past = before ++ c :: after ∧ heard_credential c (cx_thread_id x) j ∧
    cx_request_json x = Some rj ∧ d ∈ before ∧ own_request (HS:=HS) d x rj ∧
    cx_credential_id x = Some cid ∧ (accepted (HS:=HS) x j cid ∨ w3c_format x).

(** What the record of an issuer says, and that of a holder, after the calls [past]. *)
Record issuer_wf past x : Prop := {
  iw_state : cx_state x ∈ [ProposalReceived; OfferSent; RequestReceived; CredentialIssued; Done; Abandoned];
  iw_offer oj : cx_offer_json x = Some oj → ∃ c, c ∈ past ∧ own_offer (IS:=IS) c x oj;
  iw_offered : cx_state x ∈ [OfferSent; RequestReceived; CredentialIssued] → is_Some (cx_offer_json x);
  iw_request rj : cx_request_json x = Some rj → requested_after past x rj;
  iw_requested : cx_state x ∈ [RequestReceived; CredentialIssued] → is_Some (cx_request_json x);
  iw_credential j : cx_credential_json x = Some j → is_Some (cx_request_json x) ∧ ∃ c, c ∈ past ∧ own_credential (IS:=IS) c x j;
  iw_issued : cx_state x = CredentialIssued → is_Some (cx_credential_json x);
  iw_open : cx_state x = ProposalReceived → cx_offer_json x = None;
  iw_unasked : cx_state x ∈ [ProposalReceived; OfferSent] → cx_request_json x = None;
  iw_unissued : cx_state x ∈ [ProposalReceived; OfferSent; RequestReceived] → cx_credential_json x = None
}.
Record holder_wf past x : Prop := {
  hw_state : cx_state x ∈ [ProposalSent; OfferReceived; RequestSent; Done; Abandoned];
  hw_offer oj : cx_offer_json x = Some oj → ∃ c auto, c ∈ past ∧ heard_offer c auto (cx_thread_id x) oj;
  hw_offered : cx_state x ∈ [OfferReceived; RequestSent] → is_Some (cx_offer_json x);
  hw_request rj : cx_request_json x = Some rj → ∃ c, c ∈ past ∧ own_request (HS:=HS) c x rj;
  hw_requested : cx_state x = RequestSent → is_Some (cx_request_json x);
  hw_credential j : cx_credential_json x = Some j → received_after past x j;
  hw_unheld : cx_state x ∈ [ProposalSent; OfferReceived; RequestSent] → cx_credential_json x = None
}.
Definition cex_wf past x : Prop := match cx_role x with Issuer => issuer_wf past x | Holder => holder_wf past x end.

(** What was said of a record stays said when calls follow. *)
Lemma cex_wf_mono past c x : cex_wf past x → cex_wf (past ++ [c]) x.
Proof.
  assert (Hin : ∀ d, d ∈ past → d ∈ past ++ [c]) by set_solver. unfold cex_wf. destruct (cx_role x).
  - intros [? Ho ? Hq ? Hc ? ? ? ?]. constructor; [done|..|done|done|done|done]; [|done| |done|].
    + intros oj Hoj. destruct (Ho oj Hoj) as (d & ? & ?). exists d. auto.
    + intros rj Hrj. destruct (Hq rj Hrj) as (b & c' & a & d & oj & -> & Hx). exists b, c', (a ++ [c]), d, oj. by rewrite <-app_assoc.
    + intros j Hj. destruct (Hc j Hj) as (? & d & ? & ?). split; [done|]. exists d. auto.
  - intros [? Ho ? Hq ? Hc ?]. constructor; [done|..|done]; [|done| |done|].
    + intros oj Hoj. destruct (Ho oj Hoj) as (d & auto & ? & ?). exists d, auto. auto.
    + intros rj Hrj. destruct (Hq rj Hrj) as (d & ? & ?). exists d. auto.
    + intros j Hj. destruct (Hc j Hj) as (b & c' & a & d & rj & cid & -> & Hx). exists b, c', (a ++ [c]), d, rj, cid. by rewrite <-app_assoc.
Qed.

Lemma cex_born_wf past c x : cex_born (IS:=IS) c x → cex_wf (past ++ [c]) x.
Proof.
  assert (Hc : c ∈ past ++ [c]) by set_solver.
  unfold cex_wf. destruct 1 as [x conn sch cd cm Hr Hst (Ho & Hq & Hj)|x Hr Hst (Ho & Hq & Hj)|x oj Hr Hst (Ho & Hq & Hj) Hm|x oj auto Hr Hst (Ho & Hq & Hj) Hm];
    rewrite Hr; constructor; rewrite ?Hst, ?Ho, ?Hq, ?Hj; try set_solver; try done; intros ? [= <-]; eauto.
Qed.

(** A message is not a call that makes an offer, and brings one thing. *)
Lemma offer_before past c x rj oj :
  (∃ d, d ∈ past ++ [c] ∧ own_offer (IS:=IS) d x oj) → cx_offer_json x = Some oj → heard_request c (cx_thread_id x) rj →
  requested_after (past ++ [c]) x rj.
Proof.
  intros (d & Hd & Ho) Hoj Hc. exists past, c, [], d, oj. split_and!; try done. apply elem_of_app in Hd as [Hd|Hd%list_elem_of_singleton]; [done|subst d].
  destruct Hc as (i & m & Hi & _). unfold brings in Hi. destruct Ho as [(? & ? & ? & ? & ? & Hc)|(? & ? & ? & ? & _)]; naive_solver.
Qed.
Lemma not_an_offer c auto i t oj : brings c auto ISSUE_TYPE i → ¬ heard_offer c true t oj.
Proof. intros [Hc Hi] (i' & m & [Hc' Hi'] & _). assert (i = i') as -> by congruence. rewrite Hi in Hi'. discriminate. Qed.
Lemma request_before past c x j :
  holder_wf (past ++ [c]) x → cx_state x = RequestSent → heard_credential c (cx_thread_id x) j →
  ∃ d rj, cx_request_json x = Some rj ∧ d ∈ past ∧ own_request (HS:=HS) d x rj.
Proof.
  intros Hx Hst Hc. destruct (hw_requested _ _ Hx Hst) as [rj Hrj]. destruct (hw_request _ _ Hx rj Hrj) as (d & Hd & Hr).
  exists d, rj. split_and!; try done. apply elem_of_app in Hd as [Hd|Hd%list_elem_of_singleton]; [done|subst d].
  destruct Hc as (auto & i & m & Hi & _). pose proof (λ t oj, not_an_offer c auto i t oj Hi) as Hno. destruct Hi as [Hi _].
  destruct Hr as (oj & _ & [(? & ? & ? & ? & _ & [Hc|(_ & ? & Hc)] & _)|([Hc|(? & Hc)] & _)]); first [congruence|by destruct (Hno _ _ Hc)].
Qed.

(** The fields that a step left are as before; its state is one of a list, or none of it. *)
Ltac in_states := apply (bool_decide_unpack _); vm_compute; exact I.
Ltac wf_fields :=
  constructor; try assumption; cbn;
  try (clear; in_states);
  try (let H := fresh in intros H; exfalso; first [discriminate H|revert H; clear; in_states]);
  try (intros _; assumption);
  try (let H := fresh in intros ? H; exfalso; congruence);
  try (intros _; eauto; fail).
(** What a state says of the record. *)
Ltac by_state lem Hst := eapply lem; [eassumption|rewrite Hst; clear; in_states].

Lemma cex_step_wf past c x y : cex_step (IS:=IS) (HS:=HS) c x y → cex_wf (past ++ [c]) x → cex_wf (past ++ [c]) y.
Proof.
  assert (Hin : c ∈ past ++ [c]) by set_solver.
  unfold cex_wf. destruct 1 as [x sch cd oj now Hr Hst Hc Hm|x rj now Hr Hst Hm|x rj now Hst Hm|x j now Hr Hst Hm|x j cid now Hr Hst Hm Ha
    |x now Hne Ha|x reason now Ht Ha|x m now Hm]; cbn; try rewrite Hr; intros Hx.
  - (* an offer for a proposal *)
    assert (cx_request_json x = None) by by_state iw_unasked Hst. assert (cx_credential_json x = None) by by_state iw_unissued Hst.
    destruct Hx. wf_fields. intros ? [= <-]. exists c. split; [done|]. left. exists sch, cd. auto.
  - (* a request *)
    assert (is_Some (cx_offer_json x)) by by_state hw_offered Hst. assert (cx_credential_json x = None) by by_state hw_unheld Hst.
    destruct Hx. wf_fields. intros ? [= <-]. by exists c.
  - (* a request received *)
    destruct (cx_role x) eqn:Hr.
    2:{ pose proof (hw_state _ _ Hx) as Hs. rewrite Hst in Hs. exfalso. revert Hs. clear. in_states. }
    assert (is_Some (cx_offer_json x)) as [oj Hoj] by by_state iw_offered Hst. assert (cx_credential_json x = None) by by_state iw_unissued Hst.
    destruct Hx. wf_fields. intros ? [= <-]. by eapply offer_before; [apply iw_offer0|..].
  - (* a credential issued *)
    assert (is_Some (cx_offer_json x)) by by_state iw_offered Hst. assert (is_Some (cx_request_json x)) by by_state iw_requested Hst.
    destruct Hx. wf_fields. intros ? [= <-]. split; [done|]. by exists c.
  - (* a credential received *)
    destruct (request_before _ _ _ _ Hx Hst Hm) as (d & rj & Hrj & Hd & Hq). destruct Hx. wf_fields. intros ? [= <-].
    by exists past, c, [], d, rj, cid.
  - destruct (cx_role x); destruct Hx; wf_fields.
  - destruct (cx_role x); destruct Hx; wf_fields.
  - destruct (cx_role x); destruct Hx; wf_fields.
Qed.

(** Through any calls from an empty repository. *)
Lemma cex_path_wf past calls o o' :
  cex_path calls o o' → (∀ x, o = Some x → cex_wf past x) → ∀ x, o' = Some x → cex_wf (past ++ calls) x.
Proof.
  revert past o. induction calls as [|c calls IH]; intros past o; cbn [cex_path]; [intros ->; by rewrite app_nil_r|].
  intros (o1 & Hc & Hp) Ho. change (c :: calls) with ([c] ++ calls). rewrite app_assoc. apply (IH (past ++ [c]) o1 Hp).
  eapply change_path_invariant; [by apply cex_born_wf|by apply cex_step_wf|exact Hc|]. intros x Hx. by apply cex_wf_mono, Ho.
Qed.
(** C27: The services and handlers of issue-credential run the exchange state machine: over any repository
    that keeps its laws, through any sequence of messages and calls - answered or refused -,
    each call takes each record along steps that are its own, and none deletes a record.  A record
    appears by the call that proposes or offers, or by the proposal or offer message that is heard;
    it becomes offered by the call that accepts the proposal, with what the agent's issuer made;
    requested, for a holder, by the call that accepts the offer or by the offer message that is
    accepted as it comes, with what the agent's holder made, and for an issuer by the request heard
    on its thread; issued by the call for it or by the request message that is answered as it
    comes, with what the issuer made of the stored offer and request or what the format service
    signed; received by the credential heard on its thread, which the holder's AnonCreds service
    accepted unless the record is of a W3C format; given up by the call for it or a problem report
    on its thread.  The machine is that of the code, and wider than the table of
    domain/state.rs: an ack on its thread, or the host's call for one, takes a record in any state
    but Done to Done. *)
Theorem issuance_follows_machine calls (s : Agent) w :
  agent_ok s →
  agent_ok (issuance_run calls s w).1 ∧
  ∀ id, cex_path calls (agent_view s id) (agent_view (issuance_run calls s w).1 id).
Proof. apply issuance_run_path. Qed.

(** Exchanges never go back: through any sequence of messages and calls, a record keeps its
    id, thread, role, connection and creation time, and its state is the same or strictly
    further on - so no exchange makes more than five transitions, and none issues, requests or
    stores a credential twice. *)
Theorem exchange_moves_on calls (s : Agent) w id x :
  agent_ok s → agent_view s id = Some x →
  ∃ y, agent_view (issuance_run calls s w).1 id = Some y ∧ cex_later x y.
Proof.
  intros Hs. destruct (issuance_run_path calls s w Hs) as [_ Hp]. specialize (Hp id). revert Hp.
  generalize (agent_view s id). generalize (agent_view (issuance_run calls s w).1 id). intros o' o Hp. revert o x Hp.
  induction calls as [|c calls IH]; intros o x; cbn [cex_path]; [intros -> ->; by exists x|].
  intros (o1 & Hc & Hp) Hx. destruct (change_path_later c _ _ Hc x Hx) as (y & Hy & Hl).
  destruct (IH o1 y Hp Hy) as (z & Hz & Hl'). exists z. split; [done|]. by trans y.
Qed.

(** C26: Every record of an agent that started without records has a history of calls.  What an
    issuer's record offers was made by one call, by the agent's AnonCreds issuer for the schema
    and definition of the record or from the detail of a W3C call; what it says was requested was heard in a message on its
    thread, at a call after the one that made the offer; and the credential that it says was issued was made by the
    agent's AnonCreds issuer of exactly that offer and that request, under the record's
    credential definition, or was signed by its format service over the offered credential.  What a
    holder's record says was offered was heard on its thread; its request was made by one call, by the
    agent's AnonCreds holder for that offer (for a W3C format it repeats the offer); and the
    credential that it holds was heard on its thread, at a call after the one that made the request, and its AnonCreds
    holder accepted it for the record's thread and credential definition (for a W3C format
    nothing else is required). *)
Theorem credential_provenance calls (s : Agent) w id x :
  agent_ok s → (∀ i, agent_view s i = None) → agent_view (issuance_run calls s w).1 id = Some x →
  match cx_role x with Issuer => issuer_wf calls x | Holder => holder_wf calls x end.
Proof.
  intros Hs He Hx. destruct (issuance_run_path calls s w Hs) as [_ Hp]. change (cex_wf ([] ++ calls) x).
  eapply cex_path_wf; [apply (Hp id)| |exact Hx]. intros x' Hx'. by rewrite He in Hx'.
Qed.
End runs.
