(* ===== verification/IssuanceFlow.v ===== *)
(** Issuing a credential, end to end: an issuer and a holder with in-memory repositories,
    each running its handlers, from the offer to the ack.

    The AnonCreds services of the two agents are any that answer; the messages travel as
    they are.  The credential that the holder stores is the text that the issuer made. *)
From S2P Require Import Prelude AjnaTypes StdText SerdeJson Storage Didcomm RecordRepo RecordSpec AnonCreds Issuance IssuanceMessages IssuanceService IssuanceHandler.

(** * The messages carry their payloads *)

Section transport.
Context `{JsonText} `{Base64Engine} `{UuidText}.

Lemma body_formats_json l body : json_get "formats" body = Some (formats_to_json l) → body_formats body = l.
Proof.
  intros Hg. unfold body_formats. rewrite Hg. change (default [] (mapM fd_from_json (fd_to_json <$> l)) = l).
  rewrite (mapM_fmap_Some fd_from_json fd_to_json); [done|]. by intros [].
Qed.

(** An offer or a request arrives with its payload read and printed again. *)
Lemma offer_transport {E S} om v f (s : S) w m s' w' :
  om_formats om = [f] → json_parse (om_json om) = Ok v → om_to_didcomm (E:=E) om s w = (Ok m, s', w') →
  om_from_didcomm m = Ok (mkOffer (om_id om) (om_thread_id om) [f] (om_comment om) (json_print v)) ∧
  s' = s ∧ world_le w w' ∧ msg_type m = OFFER_TYPE ∧ first_format_id m = Some (fd_format f).
Proof.
  intros Hf Hv. unfold om_to_didcomm, om_format_id. rewrite Hf. cbn. unfold payload_value. rewrite Hv.
  intros [= <- <- <-]. unfold om_from_didcomm. rewrite (body_formats_json [f]) by done. split_and!; try done.
  - cbn. f_equal. f_equal. by destruct (om_comment om).
  - split; [done|cbn; lia].
Qed.
Lemma request_transport {E S} rm v f (s : S) w m s' w' :
  rm_formats rm = [f] → json_parse (rm_json rm) = Ok v → rm_to_didcomm (E:=E) rm s w = (Ok m, s', w') →
  rm_from_didcomm m = Ok (mkRequest (rm_id rm) (rm_thread_id rm) [f] (rm_comment rm) (json_print v)) ∧
  s' = s ∧ world_le w w' ∧ msg_type m = REQUEST_TYPE ∧ first_format_id m = Some (fd_format f).
Proof.
  intros Hf Hv. unfold rm_to_didcomm, rm_format_id. rewrite Hf. cbn. unfold payload_value. rewrite Hv.
  intros [= <- <- <-]. unfold rm_from_didcomm. rewrite (body_formats_json [f]) by done. split_and!; try done.
  - cbn. f_equal. f_equal. by destruct (rm_comment rm).
  - split; [done|cbn; lia].
Qed.

(** A credential arrives as the text that was sent. *)
Lemma issue_transport `{!Base64EngineLaws} {E S} im f (s : S) w m s' w' :
  im_formats im = [f] → from_utf8 (im_json im) = Ok (im_json im) → im_to_didcomm (E:=E) im s w = (Ok m, s', w') →
  im_from_didcomm m = Ok (mkIssue (im_id im) (im_thread_id im) [f] (im_comment im) (im_json im)) ∧
  s' = s ∧ world_le w w' ∧ msg_type m = ISSUE_TYPE ∧ first_format_id m = Some (fd_format f).
Proof.
  intros Hf Hu. unfold im_to_didcomm. rewrite Hf. cbn. intros [= <- <- <-]. unfold im_from_didcomm. rewrite (body_formats_json [f]) by done. split_and!; try done.
  - unfold extract_v2_attach, body_text. cbn [msg_body mb_thread mb_body mb_id]. json_keys. cbn [mbind option_bind json_as_array head].
    unfold v2_attachment. json_keys. cbn [mbind option_bind json_as_str]. json_keys. cbn [mbind option_bind json_as_str]. rewrite b64_decode_encode. cbn. rewrite Hu. f_equal. f_equal. by destruct (im_comment im).
  - split; [done|cbn; lia].
Qed.
End transport.

(** * Calls over the in-memory repository *)

(** The only exchange of a thread. *)
Abbreviation only_of_thread := (only_of (E:=CredentialError) cx_thread_id).
Abbreviation fresh_in := (fresh_for cx_thread_id).

Section memory_runs.
Context `{HashOrder} `{AnoncredsLib} `{JsonText} `{Base64Engine} `{UuidText} `{Serde CredentialExchangeRecord}.
Context {IS HS : Type} `{!CredentialIssuer IS} `{!CredentialHolder HS}.
Abbreviation Rec := CredentialExchangeRecord.
Abbreviation Mem := (gmap string Rec).
Abbreviation CES := (CredentialService Mem IS HS).
Implicit Types (m : Mem) (x : Rec).

Lemma find_run m i h bus w x :
  only_of_thread m x →
  find_exchange_by_thread_id (cx_thread_id x) (mkService (I:=IS) (H:=HS) m i h bus) w = (Ok (Some x), mkService m i h bus, w).
Proof.
  intros Ho. unfold find_exchange_by_thread_id, on_repo, on_records, eff_zoom. cbn.
  rewrite (find_only cx_thread_id m _ x Ho); [done|by apply bool_decide_eq_true|by intros y Hy%bool_decide_eq_true].
Qed.
Lemma get_run m i h bus w x :
  m !! cx_id x = Some x → get_exchange (cx_id x) (mkService (I:=IS) (H:=HS) m i h bus) w = (Ok x, mkService m i h bus, w).
Proof. intros Hx. unfold get_exchange, mbind, eff_bind, find_exchange_by_id, on_repo, on_records, eff_zoom. cbn. by rewrite Hx. Qed.

(** A checked start of a method. *)
Lemma checked_run {A} m i h bus w x (k : Rec → eff CredentialError CES A) :
  m !! cx_id x = Some x →
  (r ← get_exchange (cx_id x); _ ← require_state (cx_state x) r; _ ← require_role (cx_role x) r; k r) (mkService m i h bus) w =
  k x (mkService m i h bus) w.
Proof.
  intros Hx. rewrite (eff_bind_run _ _ _ _ _ _ _ (get_run m i h bus w x Hx)). unfold require_state, require_role.
  rewrite !decide_True by done. done.
Qed.

Definition opened role st t conn (fill : Rec → Rec) w : Rec :=
  let r := fill (cx_new role st t w).1 in
  match conn with Some c => cx_set_connection_id c (utc_now (cx_new role st t w).2).1 r | None => r end.

Lemma save_run m i h bus w role st t conn fill :
  (∀ r, cx_id (fill r) = cx_id r) → m !! next_id w = None →
  ∃ w', save_exchange role st t conn fill (mkService (I:=IS) (H:=HS) m i h bus) w =
          (Ok (opened role st t conn fill w), mkService (<[next_id w := opened role st t conn fill w]> m) i h bus, w') ∧
        w_uuid w' = w_uuid w ∧ w_un w' = S (w_un w).
Proof.
  intros Hfill Hm. unfold save_exchange, opened, on_repo, on_records, eff_zoom, mbind, eff_bind.
  destruct conn as [c|]; unfold bind_connection, mbind, eff_bind, eff_world, mret, eff_ret; cbn; unfold mr_save; cbn;
    rewrite !Hfill; cbn; unfold next_id, uuid_text in *; rewrite Hm; by eexists.
Qed.

Lemma advance_run m i h bus w st x y :
  m !! cx_id y = Some x →
  ∃ y' bus' w', advance_exchange st y (mkService (I:=IS) (H:=HS) m i h bus) w =
      (Ok y', mkService (<[cx_id y := y']> m) i h bus', w') ∧ world_le w w' ∧ y' = cx_update_state st (utc_now w).1 y.
Proof.
  intros Hy. unfold advance_exchange, on_repo, on_records, eff_zoom, emit_exchange_changed, mbind, eff_bind, eff_world, mret, eff_ret. cbn.
  unfold mr_update. cbn. rewrite Hy. cbn.
  eexists _, _, _. split; [done|]. by split.
Qed.

(** ** The methods on the way of an issuance *)

Lemma save_fresh m i h bus w role st t conn fill :
  (∀ r, cx_id (fill r) = cx_id r ∧ cx_thread_id (fill r) = cx_thread_id r) → fresh_in m w →
  (∀ k y, m !! k = Some y → cx_thread_id y ≠ t) →
  ∃ x w', save_exchange role st t conn fill (mkService (I:=IS) (H:=HS) m i h bus) w =
      (Ok x, mkService (<[cx_id x := x]> m) i h bus, w') ∧ world_le w w' ∧ only_of_thread (<[cx_id x := x]> m) x ∧
      x = opened role st t conn fill w.
Proof.
  intros Hfill Hf Ht. destruct (save_run m i h bus w role st t conn fill) as (w' & Hrun & Hu & Hn);
    [intros r; apply Hfill|apply Hf; lia|].
  assert (Hid : cx_id (opened role st t conn fill w) = next_id w) by (unfold opened; destruct conn; cbn; apply Hfill).
  assert (Hth : cx_thread_id (opened role st t conn fill w) = t) by (unfold opened; destruct conn; cbn; apply Hfill).
  exists (opened role st t conn fill w), w'. rewrite Hid. split; [exact Hrun|]. split; [split; [done|lia]|]. split; [|done].
  rewrite <-Hid. refine (only_of_new (E:=CredentialError) cx_thread_id m (opened role st t conn fill w) _ _); [cbn; rewrite Hid; apply Hf; lia|by rewrite Hth].
Qed.

Lemma advance_only m i h bus w st x y :
  only_of_thread m x → cx_id y = cx_id x → cx_thread_id y = cx_thread_id x →
  ∃ now bus' w', let z := cx_update_state st now y in
    advance_exchange st y (mkService (I:=IS) (H:=HS) m i h bus) w = (Ok z, mkService (<[cx_id x := z]> m) i h bus', w') ∧
    world_le w w' ∧ only_of_thread (<[cx_id x := z]> m) z.
Proof.
  intros Ho Hid Ht. destruct (advance_run m i h bus w st x y) as (z & bus' & w' & Hrun & Hle & ->); [rewrite Hid; apply Ho|].
  exists (utc_now w).1, bus', w'. cbn zeta. rewrite <-Hid. split; [exact Hrun|]. split; [done|].
  by refine (only_of_insert (E:=CredentialError) cx_thread_id m x (cx_update_state st (utc_now w).1 y) _ _ _).
Qed.

Lemma create_offer_run m i h bus w sch cd conn o oj i' w1 :
  ci_create_offer sch cd i w = (Ok o, i', w1) → world_le w w1 → sd_to_text o = Ok oj → fresh_in m w →
  ∃ x msg f bus' w', create_offer conn sch cd (mkService m i h bus) w = (Ok (x, msg), mkService (H:=HS) (<[cx_id x := x]> m) i' h bus', w') ∧
    world_le w w' ∧ only_of_thread (<[cx_id x := x]> m) x ∧ cx_role x = Issuer ∧ cx_state x = OfferSent ∧ cx_cred_def_id x = Some cd ∧
    cx_offer_json x = Some oj ∧ om_thread_id msg = cx_thread_id x ∧ om_json msg = oj ∧ om_formats msg = [f] ∧
    fd_format f = ANONCREDS_CREDENTIAL_OFFER ∧ ∃ n, w_un w ≤ n ∧ cx_thread_id x = uuid_text w n.
Proof.
  intros Hoff Hle1 Hoj Hf. unfold create_offer, om_new, om_new_with_format.
  rewrite (eff_bind_run _ _ _ _ o (mkService m i' h bus) w1) by (unfold on_issuer, eff_zoom; cbn; by rewrite Hoff).
  rewrite Hoj. rewrite (eff_bind_run (ce_serde (Ok oj)) _ _ _ oj (mkService m i' h bus) w1) by done.
  set (w2 := (uuid_new_v4 (uuid_new_v4 w1).2).2).
  assert (Hle2 : world_le w w2) by (etrans; [exact Hle1|split; [done|cbn; lia]]).
  erewrite (eff_bind_run _ _ _ _ _ (mkService m i' h bus) w2) by reflexivity. cbn [om_thread_id].
  set (t := uuid_to_string (uuid_new_v4 w1).1).
  assert (Ht : t = uuid_text w (w_un w1)) by (unfold t, uuid_text; cbn; by rewrite (proj1 Hle1)).
  destruct (save_fresh m i' h bus w2 Issuer OfferSent t conn (λ r, cx_set_offer oj (cx_set_ids (Some sch) (Some cd) r)))
    as (x & w' & Hrun & Hle & Honly & Hx); [done|by eapply fresh_for_later|rewrite Ht; apply Hf, Hle1|].
  assert (Hx' : cx_role x = Issuer ∧ cx_state x = OfferSent ∧ cx_cred_def_id x = Some cd ∧ cx_offer_json x = Some oj ∧ cx_thread_id x = t)
    by (subst x; unfold opened; by destruct conn).
  destruct Hx' as (Hr & Hst & Hcd & Hxo & Hxt).
  assert (Hopen : open_exchange Issuer OfferSent t conn (λ r, cx_set_offer oj (cx_set_ids (Some sch) (Some cd) r)) (mkService m i' h bus) w2 =
    (Ok x, mkService (<[cx_id x := x]> m) i' h ((λ l, l ++ [mkStateChanged x None]) <$> bus), w')).
  { unfold open_exchange. by rewrite (eff_bind_run _ _ _ _ _ _ _ Hrun). }
  eexists x, _, _, _, w'. split; [exact (eq_trans (eff_bind_run _ _ _ _ _ _ _ Hopen) eq_refl)|].
  cbn. split_and!; try done; [by etrans|]. exists (w_un w1). split; [apply Hle1|by rewrite Hxt].
Qed.

Lemma set_attributes_run m i h bus w x attrs :
  only_of_thread m x →
  ∃ w', let z := cx_set_auto_issue attrs (utc_now w).1 x in
    set_auto_issue_attributes (cx_id x) attrs (mkService m i h bus) w = (Ok tt, mkService (I:=IS) (H:=HS) (<[cx_id x := z]> m) i h bus, w') ∧
    world_le w w' ∧ only_of_thread (<[cx_id x := z]> m) z.
Proof.
  intros Ho. eexists. cbn zeta. split; [|split].
  - unfold set_auto_issue_attributes. rewrite (eff_bind_run _ _ _ _ _ _ _ (get_run m i h bus w x (proj1 Ho))).
    erewrite eff_bind_run by reflexivity. unfold on_repo, on_records, eff_zoom. cbn. unfold mr_update. cbn. rewrite (proj1 Ho : m !! cx_id x = Some x). reflexivity.
  - by split.
  - by refine (only_of_insert (E:=CredentialError) cx_thread_id m x (cx_set_auto_issue attrs (utc_now w).1 x) _ _ _).
Qed.

Lemma issuer_call {A} m i h bus w (call : eff AnonCredsError IS A) a i' w' :
  call i w = (Ok a, i', w') → on_issuer call (mkService (S:=Mem) (H:=HS) m i h bus) w = (Ok a, mkService m i' h bus, w').
Proof. intros Hc. unfold on_issuer, eff_zoom. cbn. by rewrite Hc. Qed.
Lemma holder_call {A} m i h bus w (call : eff AnonCredsError HS A) a h' w' :
  call h w = (Ok a, h', w') → on_holder call (mkService (S:=Mem) (I:=IS) m i h bus) w = (Ok a, mkService m i h' bus, w').
Proof. intros Hc. unfold on_holder, eff_zoom. cbn. by rewrite Hc. Qed.

(** The record that an advance leaves, and the answer after it. *)
Lemma advance_then {A} m i h bus w st x y (k : Rec → A) :
  only_of_thread m x → cx_id y = cx_id x → cx_thread_id y = cx_thread_id x →
  ∃ now bus' w', let z := cx_update_state st now y in
    (r ← advance_exchange st y; mret (k r)) (mkService (I:=IS) (H:=HS) m i h bus) w =
      (Ok (k z), mkService (<[cx_id x := z]> m) i h bus', w') ∧ world_le w w' ∧ only_of_thread (<[cx_id x := z]> m) z.
Proof.
  intros Ho Hid Ht. destruct (advance_only m i h bus w st x y Ho Hid Ht) as (now & bus' & w' & Hrun & Hle & Honly).
  exists now, bus', w'. split; [|done]. by rewrite (eff_bind_run _ _ _ _ _ _ _ Hrun).
Qed.

Lemma accept_offer_run m i h bus w x e oj o cd rq rj h' w1 :
  only_of_thread m x → cx_state x = OfferReceived → cx_role x = Holder → cx_offer_json x = Some oj → sd_from_text oj = Ok o →
  cx_cred_def_id x = Some cd → ch_create_request (cx_thread_id x) o cd e h w = (Ok rq, h', w1) → world_le w w1 → sd_to_text rq = Ok rj →
  ∃ now msg f bus' w', let z := cx_update_state RequestSent now (cx_set_request rj x) in
    accept_offer (cx_id x) e (mkService m i h bus) w = (Ok msg, mkService (I:=IS) (<[cx_id x := z]> m) i h' bus', w') ∧
    world_le w w' ∧ only_of_thread (<[cx_id x := z]> m) z ∧
    rm_thread_id msg = cx_thread_id x ∧ rm_json msg = rj ∧ rm_formats msg = [f] ∧ fd_format f = ANONCREDS_CREDENTIAL_REQUEST.
Proof.
  intros Ho Hst Hro Hoj Hof Hcd Hrq Hle1 Hrj. unfold accept_offer. rewrite <-Hst, <-Hro, (checked_run _ _ _ _ _ x) by apply Ho.
  rewrite Hoj. change (ok_or _ (Some oj)) with (mret (M:=eff CredentialError CES) oj).
  rewrite (eff_bind_run (mret oj) _ _ _ oj (mkService m i h bus) w eq_refl), Hof, Hcd.
  rewrite (eff_bind_run (ce_serde (Ok o)) _ _ _ o (mkService m i h bus) w eq_refl).
  rewrite (eff_bind_run (ok_or _ (Some cd)) _ _ _ cd (mkService m i h bus) w eq_refl).
  rewrite (eff_bind_run _ _ _ _ _ _ _ (holder_call m i h bus w _ _ _ _ Hrq)), Hrj.
  rewrite (eff_bind_run (ce_serde (Ok rj)) _ _ _ rj (mkService m i h' bus) w1 eq_refl).
  set (w2 := (uuid_new_v4 (uuid_new_v4 w1).2).2).
  set (f := mkFormat (uuid_to_string (uuid_new_v4 (uuid_new_v4 w1).2).1) ANONCREDS_CREDENTIAL_REQUEST).
  set (msg := mkRequest (uuid_to_string (uuid_new_v4 w1).1) (cx_thread_id x) [f] None rj).
  destruct (advance_then m i h' bus w2 RequestSent x (cx_set_request rj x) (λ _, msg) Ho eq_refl eq_refl) as (now & bus' & w' & Hrun & Hle & Honly).
  exists now, msg, f, bus', w'. split; [exact Hrun|]. split_and!; try done. etrans; [exact Hle1|]. etrans; [|exact Hle]. split; [done|cbn; lia].
Qed.

Lemma store_request_run m i h bus w x rj :
  only_of_thread m x → cx_state x = OfferSent →
  ∃ now bus' w', let z := cx_update_state RequestReceived now (cx_set_request rj x) in
    store_request (cx_id x) rj (mkService m i h bus) w = (Ok tt, mkService (I:=IS) (H:=HS) (<[cx_id x := z]> m) i h bus', w') ∧
    world_le w w' ∧ only_of_thread (<[cx_id x := z]> m) z.
Proof.
  intros Ho Hst. unfold store_request. rewrite (eff_bind_run _ _ _ _ _ _ _ (get_run m i h bus w x (proj1 Ho))).
  unfold require_state. rewrite decide_True by done. rewrite (eff_bind_run (mret tt) _ _ _ tt (mkService m i h bus) w eq_refl).
  by apply (advance_then m i h bus w RequestReceived x (cx_set_request rj x) (λ _, tt)).
Qed.

Lemma accept_request_run m i h bus w x attrs oj o rj rq cd c j i' w1 :
  only_of_thread m x → cx_state x = RequestReceived → cx_role x = Issuer → cx_offer_json x = Some oj → sd_from_text oj = Ok o →
  cx_request_json x = Some rj → sd_from_text rj = Ok rq → cx_cred_def_id x = Some cd →
  ci_create_credential cd o rq attrs i w = (Ok c, i', w1) → world_le w w1 → sd_to_text c = Ok j →
  ∃ now im f msg bus' w2 w3 w', let z := cx_update_state CredentialIssued now (cx_set_credential j x) in
    accept_request (cx_id x) attrs (mkService m i h bus) w =
      (Ok (mkOutbound msg "" "" (cx_connection_id x)), mkService (H:=HS) (<[cx_id x := z]> m) i' h bus', w') ∧
    world_le w w' ∧ only_of_thread (<[cx_id x := z]> m) z ∧
    im_to_didcomm (E:=CredentialError) im (mkService m i' h bus) w2 = (Ok msg, mkService m i' h bus, w3) ∧ im_thread_id im = cx_thread_id x ∧ im_json im = j ∧
    im_formats im = [f] ∧ fd_format f = ANONCREDS_CREDENTIAL.
Proof.
  intros Ho Hst Hro Hoj Hof Hrj Hrq Hcd Hc Hle1 Hj. unfold accept_request. rewrite <-Hst, <-Hro, (checked_run _ _ _ _ _ x) by apply Ho.
  rewrite Hoj, Hrj, Hcd.
  rewrite (eff_bind_run (ok_or _ (Some oj)) _ _ _ oj (mkService m i h bus) w eq_refl), (eff_bind_run (ok_or _ (Some rj)) _ _ _ rj (mkService m i h bus) w eq_refl).
  rewrite (eff_bind_run (ok_or _ (Some cd)) _ _ _ cd (mkService m i h bus) w eq_refl).
  rewrite Hof, (eff_bind_run (ce_serde (Ok o)) _ _ _ o (mkService m i h bus) w eq_refl), Hrq.
  rewrite (eff_bind_run (ce_serde (Ok rq)) _ _ _ rq (mkService m i h bus) w eq_refl).
  rewrite (eff_bind_run _ _ _ _ _ _ _ (issuer_call m i h bus w _ _ _ _ Hc)), Hj.
  rewrite (eff_bind_run (ce_serde (Ok j)) _ _ _ j (mkService m i' h bus) w1 eq_refl).
  set (w2 := (uuid_new_v4 (uuid_new_v4 w1).2).2).
  set (f := mkFormat (uuid_to_string (uuid_new_v4 (uuid_new_v4 w1).2).1) ANONCREDS_CREDENTIAL).
  set (im := mkIssue (uuid_to_string (uuid_new_v4 w1).1) (cx_thread_id x) [f] None j).
  destruct (im_to_didcomm (E:=CredentialError) im (mkService m i' h bus) w2) as [[[msg|e|] s3] w3] eqn:Hmsg; [|done..].
  assert (s3 = mkService m i' h bus ∧ world_le w2 w3) as [-> Hle3] by (injection Hmsg as _ <- <-; split; [done|split; [done|cbn; lia]]).
  destruct (advance_then m i' h bus w3 CredentialIssued x (cx_set_credential j x) (λ _, mkOutbound msg "" "" (cx_connection_id x)) Ho eq_refl eq_refl)
    as (now & bus' & w' & Hrun & Hle & Honly).
  exists now, im, f, msg, bus', w2, w3, w'. split.
  - rewrite <-Hrun. exact (eff_bind_run _ _ _ _ _ _ _ Hmsg).
  - split_and!; try done. etrans; [exact Hle1|]. etrans; [|exact Hle]. etrans; [|exact Hle3]. split; [done|cbn; lia].
Qed.

Lemma process_credential_run m i h bus w x cd j c cid h' w1 :
  only_of_thread m x → cx_state x = RequestSent → cx_role x = Holder → cx_cred_def_id x = Some cd → sd_from_text j = Ok c →
  ch_process_credential (cx_thread_id x) c cd h w = (Ok cid, h', w1) → world_le w w1 →
  ∃ now bus' w', let z := cx_update_state Done now (cx_set_credential_id cid (cx_set_credential j x)) in
    process_credential (cx_id x) j (mkService m i h bus) w = (Ok cid, mkService (I:=IS) (<[cx_id x := z]> m) i h' bus', w') ∧
    world_le w w' ∧ only_of_thread (<[cx_id x := z]> m) z.
Proof.
  intros Ho Hst Hro Hcd Hj Hc Hle1. unfold process_credential. rewrite <-Hst, <-Hro, (checked_run _ _ _ _ _ x) by apply Ho. rewrite Hcd, Hj.
  rewrite (eff_bind_run (ok_or _ (Some cd)) _ _ _ cd (mkService m i h bus) w eq_refl).
  rewrite (eff_bind_run (ce_serde (Ok c)) _ _ _ c (mkService m i h bus) w eq_refl).
  rewrite (eff_bind_run _ _ _ _ _ _ _ (holder_call m i h bus w _ _ _ _ Hc)).
  destruct (advance_then m i h' bus w1 Done x (cx_set_credential_id cid (cx_set_credential j x)) (λ _, cid) Ho eq_refl eq_refl)
    as (now & bus' & w' & Hrun & Hle & Honly).
  exists now, bus', w'. split; [exact Hrun|]. split; [by etrans|exact Honly].
Qed.

Lemma process_ack_run m i h bus w x :
  only_of_thread m x → cx_state x ≠ Done →
  ∃ now bus' w', let z := cx_update_state Done now x in
    process_ack (cx_thread_id x) (mkService m i h bus) w = (Ok z, mkService (I:=IS) (H:=HS) (<[cx_id x := z]> m) i h bus', w') ∧
    world_le w w' ∧ only_of_thread (<[cx_id x := z]> m) z.
Proof.
  intros Ho Hst. unfold process_ack. rewrite (eff_bind_run _ _ _ _ _ _ _ (find_run m i h bus w x Ho)).
  rewrite (eff_bind_run (ok_or _ (Some x)) _ _ _ x (mkService m i h bus) w eq_refl). rewrite decide_False by done.
  by apply (advance_only m i h bus w Done x x).
Qed.
End memory_runs.

(** * The handlers on the way of an issuance *)

Section receiving.
Context `{HashOrder} `{AnoncredsLib} `{JsonText} `{Base64Engine} `{UuidText} `{FormatServices} `{Serde CredentialExchangeRecord}.
Context {IS HS : Type} `{!CredentialIssuer IS} `{!CredentialHolder HS}.
Abbreviation Rec := CredentialExchangeRecord.
Abbreviation Mem := (gmap string Rec).
Implicit Types (m : Mem) (x : Rec).

Definition over (conn : string) (msg : Message) : InboundMessage :=
  mkInbound msg (mkContext None None None None (Some conn) true true None None).
(** A message arrives over a connection, at an agent that accepts offers by itself. *)
Definition receive (conn : string) (msg : Message) : eff MessageHandlerError (IssuanceAgent Mem IS HS) (option OutboundMessage) :=
  match credential_handler true (msg_type msg) with Some h => h (over conn msg) | None => mret None end.

Lemma on_service_run {A} err (call : eff CredentialError (CredentialService Mem IS HS) A) c ai w a c' w' :
  call c w = (Ok a, c', w') → on_service err call (mkAgent c ai) w = (Ok a, mkAgent c' ai, w').
Proof. intros Hc. unfold on_service, eff_zoom. cbn. by rewrite Hc. Qed.

Lemma parsed_run {A T} err (r : outcome CredentialError A) a (s : T) w :
  r = Ok a → eff_lift (match r with Ok a => Ok a | Err e => Err (err (ce_to_string e)) | Panic => Panic end : outcome MessageHandlerError A) s w = (Ok a, s, w).
Proof. by intros ->. Qed.

(** A message in the AnonCreds format goes to the AnonCreds handler. *)
Lemma not_w3c msg f : first_format_id msg = Some f → from_format_id f = None → is_w3c_for msg = false.
Proof. intros Hf Hn. unfold is_w3c_for. by rewrite Hf, Hn. Qed.

Lemma receive_offer conn msg off v t cd o m i h bus ai w (Asked : HS → Prop) (Requested : CredentialRequest → Prop) :
  msg_type msg = OFFER_TYPE → first_format_id msg = Some ANONCREDS_CREDENTIAL_OFFER → om_from_didcomm msg = Ok off →
  om_thread_id off = t → json_parse (om_json off) = Ok v → json_get "cred_def_id" v ≫= json_as_str = Some cd →
  sd_from_text (om_json off) = Ok o → fresh_in m w → (∀ k x, m !! k = Some x → cx_thread_id x ≠ t) →
  (∀ w, ∃ rq rj h' w', ch_create_request t o cd AUTO_ACCEPT_ENTROPY h w = (Ok rq, h', w') ∧ world_le w w' ∧ Asked h' ∧
     Requested rq ∧ sd_to_text rq = Ok rj) →
  ∃ rq rj m' y h' bus' w' out rm f w2 w3,
    receive conn msg (mkAgent (mkService m i h bus) ai) w = (Ok (Some out), mkAgent (mkService m' i h' bus') ai, w') ∧ world_le w w' ∧
    Asked h' ∧ Requested rq ∧ sd_to_text rq = Ok rj ∧ only_of_thread m' y ∧ cx_thread_id y = t ∧ cx_role y = Holder ∧ cx_state y = RequestSent ∧ cx_cred_def_id y = Some cd ∧
    rm_to_didcomm (E:=MessageHandlerError) rm tt w2 = (Ok (out_message out), tt, w3) ∧ rm_thread_id rm = t ∧ rm_json rm = rj ∧
    rm_formats rm = [f] ∧ fd_format f = ANONCREDS_CREDENTIAL_REQUEST.
Proof.
  intros Hty Hff Hoff Ht Hv Hcd Ho Hfresh Hnot Hask. unfold receive. rewrite Hty. cbn [credential_handler].
  change (credential_handler true OFFER_TYPE) with (Some (w3c_offer_handle (RS:=Mem) (IS:=IS) (HS:=HS) true (Some (offer_handle true)))).
  cbn beta iota. unfold w3c_offer_handle. cbn [in_message over]. rewrite (not_w3c _ _ Hff eq_refl). cbn [negb delegate].
  unfold offer_handle, parsed. cbn [in_message over in_context ctx_connection_id negb].
  rewrite (eff_bind_run _ _ _ _ _ _ _ (parsed_run ProcessingFailed _ _ _ w Hoff)).
  rewrite Hv. rewrite (eff_bind_run (eff_lift (Ok v)) _ _ _ v (mkAgent (mkService m i h bus) ai) w eq_refl). rewrite Hcd.
  destruct (save_fresh m i h bus w Holder OfferReceived t (Some conn)
              (λ r, cx_set_offer (om_json off) (cx_set_ids (json_get "schema_id" v ≫= json_as_str) (Some cd) r)))
    as (x & w1 & Hsave & Hle1 & Honly & Hx); [done..|]. rewrite Ht.
  rewrite (eff_bind_run _ _ _ _ _ _ _ (on_service_run _ _ _ ai _ _ _ _ Hsave)).
  assert (Hxf : cx_thread_id x = t ∧ cx_role x = Holder ∧ cx_state x = OfferReceived ∧ cx_offer_json x = Some (om_json off) ∧ cx_cred_def_id x = Some cd)
    by (by subst x). destruct Hxf as (Hxt & Hxr & Hxs & Hxo & Hxc).
  destruct (Hask w1) as (rq & rj & h' & w2 & Hrq & Hle2 & Ha & Hreq & Hrj). rewrite <-Hxt in Hrq.
  destruct (accept_offer_run _ i h bus w1 x _ _ _ _ _ _ _ _ Honly Hxs Hxr Hxo Ho Hxc Hrq Hle2 Hrj)
    as (now & rm & f & bus' & w3 & Hacc & Hle3 & Honly' & Hrt & Hrjs & Hfs & Hf).
  rewrite (eff_bind_run _ _ _ _ _ _ _ (on_service_run _ _ _ ai _ _ _ _ Hacc)).
  destruct (rm_to_didcomm (E:=MessageHandlerError) rm tt w3) as [[[rmsg|e|] s4] w4] eqn:Hmsg;
    [|by unfold rm_to_didcomm in Hmsg; rewrite Hfs in Hmsg..]. destruct s4.
  eexists rq, rj, _, _, h', bus', w4, (reply (over conn msg) rmsg), rm, f, w3, w4.
  assert (Hmsg' : rm_to_didcomm (E:=MessageHandlerError) rm (mkAgent (mkService (<[cx_id x := cx_update_state RequestSent now (cx_set_request rj x)]> (<[cx_id x := x]> m)) i h' bus') ai) w3
     = (Ok rmsg, mkAgent (mkService (<[cx_id x := cx_update_state RequestSent now (cx_set_request rj x)]> (<[cx_id x := x]> m)) i h' bus') ai, w4) ∧ world_le w3 w4).
  { unfold rm_to_didcomm in *. rewrite Hfs in *. injection Hmsg as <- <-. split; [done|split; [done|cbn; lia]]. }
  destruct Hmsg' as [Hmsg' Hle4]. rewrite (eff_bind_run _ _ _ _ _ _ _ Hmsg'). split; [reflexivity|]. split_and!; try done.
  - etrans; [exact Hle1|]. by etrans.
  - by rewrite Hrt.
Qed.

Lemma exchange_run m i h bus ai w x what err :
  only_of_thread m x →
  exchange_of_thread what (cx_thread_id x) err (mkAgent (mkService (I:=IS) (H:=HS) m i h bus) ai) w = (Ok x, mkAgent (mkService m i h bus) ai, w).
Proof.
  intros Ho. unfold exchange_of_thread. by rewrite (eff_bind_run _ _ _ _ _ _ _ (on_service_run _ _ _ ai _ _ _ _ (find_run m i h bus w x Ho))).
Qed.

Lemma receive_request_run conn msg req x attrs oj o rq cd m i h bus ai w (Issued : AcCredential → Prop) :
  msg_type msg = REQUEST_TYPE → first_format_id msg = Some ANONCREDS_CREDENTIAL_REQUEST → rm_from_didcomm msg = Ok req →
  rm_thread_id req = cx_thread_id x → sd_from_text (rm_json req) = Ok rq → only_of_thread m x → cx_state x = OfferSent → cx_role x = Issuer →
  cx_auto_issue_attributes x = Some attrs → cx_offer_json x = Some oj → sd_from_text oj = Ok o → cx_cred_def_id x = Some cd →
  (∀ w, ∃ c j i' w', ci_create_credential cd o rq attrs i w = (Ok c, i', w') ∧ world_le w w' ∧ Issued c ∧ sd_to_text c = Ok j ∧ from_utf8 j = Ok j) →
  ∃ c j m' y i' bus' ai' w' out im f s w2 w3,
    receive conn msg (mkAgent (mkService m i h bus) ai) w = (Ok (Some out), mkAgent (mkService m' i' h bus') ai', w') ∧ world_le w w' ∧
    Issued c ∧ sd_to_text c = Ok j ∧ from_utf8 j = Ok j ∧ only_of_thread m' y ∧ cx_thread_id y = cx_thread_id x ∧ cx_role y = Issuer ∧ cx_state y = CredentialIssued ∧
    cx_credential_json y = Some j ∧ im_to_didcomm (E:=CredentialError) (S:=CredentialService Mem IS HS) im s w2 = (Ok (out_message out), s, w3) ∧
    im_thread_id im = cx_thread_id x ∧ im_json im = j ∧ im_formats im = [f] ∧ fd_format f = ANONCREDS_CREDENTIAL.
Proof.
  intros Hty Hff Hreq Ht Hrq Ho Hst Hro Hattrs Hoj Hof Hcd Hmake. unfold receive. rewrite Hty.
  change (credential_handler true REQUEST_TYPE) with (Some (w3c_request_handle (RS:=Mem) (IS:=IS) (HS:=HS) true (Some request_handle))).
  cbn beta iota. unfold w3c_request_handle. cbn [in_message over]. rewrite (not_w3c _ _ Hff eq_refl). cbn [negb delegate].
  destruct (store_request_run m i h bus w x (rm_json req) Ho Hst) as (now & bus1 & w1 & Hstore & Hle1 & Ho1).
  set (x1 := cx_update_state _ _ _) in *. set (m1 := <[cx_id x := x1]> m) in *.
  destruct (Hmake w1) as (c & j & i' & wc & Hc & Hlec & Hiss & Hj & Hutf).
  destruct (accept_request_run m1 i h bus1 w1 x1 attrs oj o _ rq cd c j i' wc Ho1 eq_refl Hro Hoj Hof eq_refl Hrq Hcd Hc Hlec Hj)
    as (now' & im & f & amsg & bus' & w2 & w3 & w' & Hacc & Hle' & Ho' & Him & Himt & Himj & Hfs & Hf).
  unfold request_handle, receive_request, parsed. cbn [in_message over in_context ctx_connection_id].
  erewrite eff_bind_run. 2:{
    rewrite (eff_bind_run _ _ _ _ _ _ _ (parsed_run ProcessingFailed _ _ _ w Hreq)), Ht.
    rewrite (eff_bind_run _ _ _ _ _ _ _ (exchange_run m i h bus ai w x _ _ Ho)).
    rewrite (eff_bind_run _ _ _ _ _ _ _ (on_service_run _ _ _ ai _ _ _ _ Hstore)). reflexivity. }
  rewrite Hattrs. rewrite (eff_bind_run (mret (Some attrs)) _ _ _ (Some attrs) (mkAgent (mkService m1 i h bus1) ai) w1 eq_refl).
  change (cx_id x) with (cx_id x1) at 1. rewrite (eff_bind_run _ _ _ _ _ _ _ (on_service_run _ _ _ ai _ _ _ _ Hacc)).
  eexists c, j, _, _, i', bus', _, w', _, im, f, _, w2, w3. split; [reflexivity|]. split_and!; try done. by etrans.
Qed.

Lemma receive_credential conn msg iss x c cd m i h bus ai w :
  msg_type msg = ISSUE_TYPE → first_format_id msg = Some ANONCREDS_CREDENTIAL → im_from_didcomm msg = Ok iss →
  im_thread_id iss = cx_thread_id x → sd_from_text (im_json iss) = Ok c → only_of_thread m x → cx_state x = RequestSent → cx_role x = Holder →
  cx_cred_def_id x = Some cd →
  (∀ w, ∃ cid h' w', ch_process_credential (cx_thread_id x) c cd h w = (Ok cid, h', w') ∧ world_le w w') →
  ∃ m' y h' bus' w' out,
    receive conn msg (mkAgent (mkService m i h bus) ai) w = (Ok (Some out), mkAgent (mkService m' i h' bus') ai, w') ∧ world_le w w' ∧
    only_of_thread m' y ∧ cx_thread_id y = cx_thread_id x ∧ cx_role y = Holder ∧ cx_state y = Done ∧ cx_credential_json y = Some (im_json iss) ∧
    msg_type (out_message out) = ACK_TYPE ∧ ∃ a, am_from_didcomm (out_message out) = Ok a ∧ am_thread_id a = cx_thread_id x.
Proof.
  intros Hty Hff Hiss Ht Hc Ho Hst Hro Hcd Hacc. unfold receive. rewrite Hty.
  change (credential_handler true ISSUE_TYPE) with (Some (w3c_issue_handle (RS:=Mem) (IS:=IS) (HS:=HS) (Some issue_handle))).
  cbn beta iota. unfold w3c_issue_handle. cbn [in_message over]. rewrite (not_w3c _ _ Hff eq_refl). cbn [negb delegate].
  unfold issue_handle, parsed. cbn [in_message over].
  rewrite (eff_bind_run _ _ _ _ _ _ _ (parsed_run ProcessingFailed _ _ _ w Hiss)), Ht.
  rewrite (eff_bind_run _ _ _ _ _ _ _ (exchange_run m i h bus ai w x _ _ Ho)).
  destruct (Hacc w) as (cid & h' & w1 & Hcall & Hle1).
  destruct (process_credential_run m i h bus w x cd _ c cid h' w1 Ho Hst Hro Hcd Hc Hcall Hle1) as (now & bus' & w2 & Hproc & Hle2 & Ho').
  rewrite (eff_bind_run _ _ _ _ _ _ _ (on_service_run _ _ _ ai _ _ _ _ Hproc)).
  eexists _, _, h', bus', _, _. split; [reflexivity|]. split; [etrans; [exact Hle2|split; [done|cbn; lia]]|].
  split; [exact Ho'|]. split_and!; try done. eexists. split; [reflexivity|done].
Qed.

Lemma receive_ack conn msg a x m i h bus ai w :
  msg_type msg = ACK_TYPE → am_from_didcomm msg = Ok a → am_thread_id a = cx_thread_id x → only_of_thread m x → cx_state x ≠ Done →
  ∃ m' y bus' w', receive conn msg (mkAgent (mkService m i h bus) ai) w = (Ok None, mkAgent (mkService m' i h bus') ai, w') ∧ world_le w w' ∧
    only_of_thread m' y ∧ cx_thread_id y = cx_thread_id x ∧ cx_role y = cx_role x ∧ cx_state y = Done ∧ cx_credential_json y = cx_credential_json x.
Proof.
  intros Hty Ha Ht Ho Hst. unfold receive. rewrite Hty.
  change (credential_handler true ACK_TYPE) with (Some (ack_handle (RS:=Mem) (IS:=IS) (HS:=HS))).
  cbn beta iota. unfold ack_handle, parsed. cbn [in_message over].
  rewrite (eff_bind_run _ _ _ _ _ _ _ (parsed_run InvalidMessage _ _ _ w Ha)), Ht.
  destruct (process_ack_run m i h bus w x Ho Hst) as (now & bus' & w' & Hack & Hle & Ho').
  eexists _, _, bus', w'. split; [|by split_and!]. unfold eff_catch, mbind, eff_bind.
  by rewrite (on_service_run _ _ _ ai _ _ _ _ Hack).
Qed.
End receiving.

(** * The exchange *)

(** What the two AnonCreds services must do, in whatever order the agents are busy: the issuer
    makes an offer for the credential definition, the holder asks for it, the issuer makes the
    credential and the holder accepts it; what they make can be written as text and the offer
    names its credential definition. *)
Section exchange.
Context `{HashOrder} `{AnoncredsLib} `{JsonText} `{!JsonTextLaws} `{Base64Engine} `{!Base64EngineLaws} `{UuidText} `{FormatServices}.
Context `{Serde CredentialExchangeRecord} `{!SerdeLaws CredentialOffer} `{!SerdeLaws CredentialRequest} `{!SerdeLaws AcCredential}.
Context {IA HA IB HB : Type} `{!CredentialIssuer IA} `{!CredentialHolder HA} `{!CredentialIssuer IB} `{!CredentialHolder HB}.
Abbreviation Rec := CredentialExchangeRecord.
Abbreviation Mem := (gmap string Rec).
Abbreviation AgentA := (IssuanceAgent Mem IA HA).
Abbreviation AgentB := (IssuanceAgent Mem IB HB).
Abbreviation both := (eff MessageHandlerError (AgentA * AgentB)).

Record AnonCredsWorks (schema_id cred_def_id : string) (attributes : gmap string string)
    (issuer_ready issuer_offered : IA → Prop) (holder_ready : HB → Prop) (holder_asked : string → HB → Prop) := {
  aw_offered : CredentialOffer → Prop;
  aw_requested : CredentialRequest → Prop;
  aw_issued : AcCredential → Prop;
  aw_offer i w : issuer_ready i → ∃ o oj v i' w', ci_create_offer schema_id cred_def_id i w = (Ok o, i', w') ∧ world_le w w' ∧
    issuer_offered i' ∧ aw_offered o ∧ sd_to_text o = Ok oj ∧ json_parse oj = Ok v ∧ json_exact v ∧
    json_get "cred_def_id" v ≫= json_as_str = Some cred_def_id;
  aw_request h w t o e : holder_ready h → aw_offered o → ∃ rq rj h' w', ch_create_request t o cred_def_id e h w = (Ok rq, h', w') ∧
    world_le w w' ∧ holder_asked t h' ∧ aw_requested rq ∧ sd_to_text rq = Ok rj;
  aw_credential i w o rq : issuer_offered i → aw_offered o → aw_requested rq → ∃ c j i' w',
    ci_create_credential cred_def_id o rq attributes i w = (Ok c, i', w') ∧ world_le w w' ∧ aw_issued c ∧
    sd_to_text c = Ok j ∧ from_utf8 j = Ok j;
  aw_accept h w t c : holder_asked t h → aw_issued c → ∃ cid h' w', ch_process_credential t c cred_def_id h w = (Ok cid, h', w') ∧
    world_le w w'
}.

(** A step of one of the two agents; what an agent sends is what the other receives. *)
Definition at_issuer {X} (m : eff MessageHandlerError AgentA X) : both X := eff_zoom fst (λ a s, (a, s.2)) id m.
Definition at_holder {X} (m : eff MessageHandlerError AgentB X) : both X := eff_zoom snd (λ b s, (s.1, b)) id m.
Definition sent {T} (o : option OutboundMessage) : eff MessageHandlerError T Message :=
  match o with Some out => mret (out_message out) | None => eff_throw (MheOther "nothing was sent") end.

(** The issuer offers a credential with prepared attributes; the agents do the rest. *)
Definition issue_to_holder (schema_id cred_def_id : string) (attributes : gmap string string) : both string :=
  p ← at_issuer (on_service (failed "") (create_offer (Some "to-holder") schema_id cred_def_id));
  _ ← at_issuer (on_service (failed "") (set_auto_issue_attributes (cx_id p.1) attributes));
  offer ← om_to_didcomm p.2;
  o ← at_holder (receive "to-issuer" offer); request ← sent o;
  o ← at_issuer (receive "to-holder" request); credential ← sent o;
  o ← at_holder (receive "to-issuer" credential); ack ← sent o;
  _ ← at_issuer (receive "to-holder" ack);
  mret (om_thread_id p.2).

Lemma at_issuer_run {X} (call : eff MessageHandlerError AgentA X) a b w x a' w' :
  call a w = (Ok x, a', w') → at_issuer call (a, b) w = (Ok x, (a', b), w').
Proof. intros Hc. unfold at_issuer, eff_zoom. cbn. by rewrite Hc. Qed.
Lemma at_holder_run {X} (call : eff MessageHandlerError AgentB X) a b w x b' w' :
  call b w = (Ok x, b', w') → at_holder call (a, b) w = (Ok x, (a, b'), w').
Proof. intros Hc. unfold at_holder, eff_zoom. cbn. by rewrite Hc. Qed.

(** Where an exchange of a thread has come to at an agent. *)
Definition stands {I_ H_} (s : IssuanceAgent Mem I_ H_) (t : string) (role : CredentialExchangeRole) (st : CredentialExchangeState)
    (j : option string) : Prop :=
  ∃ x, only_of_thread (ces_repository (ia_service s)) x ∧ cx_thread_id x = t ∧ cx_role x = role ∧ cx_state x = st ∧ cx_credential_json x = j.

(** The second half: from the credential on the wire to the ack. *)
Lemma credential_to_ack sch cd attrs P1 P2 P3 P4 (aw : AnonCredsWorks sch cd attrs P1 P2 P3 P4)
    im f (s0 : CredentialService Mem IA HA) w0 w1 cmsg x y c ma ia ha busa aia mb ib hb busb aib w :
  im_to_didcomm (E:=CredentialError) im s0 w0 = (Ok cmsg, s0, w1) → im_thread_id im = cx_thread_id x → sd_to_text c = Ok (im_json im) →
  from_utf8 (im_json im) = Ok (im_json im) → im_formats im = [f] → fd_format f = ANONCREDS_CREDENTIAL → aw_issued _ _ _ _ _ _ _ aw c →
  only_of_thread ma x → cx_role x = Issuer → cx_state x = CredentialIssued → cx_credential_json x = Some (im_json im) →
  only_of_thread mb y → cx_thread_id y = cx_thread_id x → cx_role y = Holder → cx_state y = RequestSent → cx_cred_def_id y = Some cd →
  P4 (cx_thread_id y) hb →
  ∃ a' b' w',
    (o ← at_holder (receive "to-issuer" cmsg); ack ← sent o; _ ← at_issuer (receive "to-holder" ack); mret (cx_thread_id x))
      (mkAgent (mkService ma ia ha busa) aia, mkAgent (mkService mb ib hb busb) aib) w = (Ok (cx_thread_id x), (a', b'), w') ∧
    stands a' (cx_thread_id x) Issuer Done (Some (im_json im)) ∧ stands b' (cx_thread_id x) Holder Done (Some (im_json im)).
Proof.
  intros Him Hit Hj Hutf Hfs Hf Hiss Hoa Hra Hsa Hja Hob Htb Hrb Hsb Hcb Hasked.
  destruct (issue_transport im f s0 w0 cmsg s0 w1 Hfs Hutf Him) as (Hfrom & _ & _ & Hty & Hff). rewrite Hf in Hff.
  destruct (receive_credential "to-issuer" cmsg _ y c cd mb ib hb busb aib w Hty Hff Hfrom) as (mb' & y' & hb' & busb' & w2 & out & Hrun & Hle & Hob' & Hty' & Hry' & Hsy' & Hjy' & Hoty & a & Ha & Hat);
    try done; [by rewrite Htb|by apply sd_text_back|intros w'; by apply (aw_accept _ _ _ _ _ _ _ aw)|].
  destruct (receive_ack "to-holder" (out_message out) a x ma ia ha busa aia w2) as (ma' & x' & busa' & w3 & Hrun' & Hle' & Hoa' & Htx' & Hrx' & Hsx' & Hjx');
    try done; [by rewrite Hat, Htb|by rewrite Hsa|].
  eexists _, _, w3. rewrite (eff_bind_run _ _ _ _ _ _ _ (at_holder_run _ _ _ _ _ _ _ Hrun)). cbn [sent].
  rewrite (eff_bind_run (mret _) _ _ _ _ _ _ eq_refl), (eff_bind_run _ _ _ _ _ _ _ (at_issuer_run _ _ _ _ _ _ _ Hrun')).
  split; [reflexivity|]. split; [exists x'|exists y']; split_and!; try done; cbn in *; congruence.
Qed.

(** C25: A credential reaches its holder: when the two AnonCreds services work for the offered
    credential, then from any two agents with any exchanges of their own, after the offer with
    prepared attributes, the messages that the handlers send each other - offer, request,
    credential, ack, each through the wire form and the dispatch of its message type - bring
    both exchanges to [Done], and the holder has stored exactly the credential text that the
    issuer made. *)
Theorem issuance_completes sch cd attrs P1 P2 P3 P4 ma ia ha busa aia mb ib hb busb aib w :
  AnonCredsWorks sch cd attrs P1 P2 P3 P4 → P1 ia → P3 hb → fresh_in ma w → fresh_in mb w →
  ∃ t j a' b' w',
    issue_to_holder sch cd attrs (mkAgent (mkService ma ia ha busa) aia, mkAgent (mkService mb ib hb busb) aib) w = (Ok t, (a', b'), w') ∧
    stands a' t Issuer Done (Some j) ∧ stands b' t Holder Done (Some j).
Proof.
  intros aw Hia Hhb Hfa Hfb.
  destruct (aw_offer _ _ _ _ _ _ _ aw ia w Hia) as (o & oj & v & ia1 & w1 & Hoff & Hle1 & Hia1 & Hofd & Hoj & Hv & Hex & Hcdv).
  destruct (create_offer_run ma ia ha busa w sch cd (Some "to-holder") o oj ia1 w1 Hoff Hle1 Hoj Hfa)
    as (x & offer & f & busa1 & w2 & Hcreate & Hle2 & Hox & Hrx & Hsx & Hcx & Hxo & Hot & Hoo & Hof & Hff & n & Hn & Htn).
  destruct (set_attributes_run _ ia1 ha busa1 w2 x attrs Hox) as (w3 & Hset & Hle3 & Hox1).
  destruct (om_to_didcomm (E:=MessageHandlerError) offer
    (mkAgent (mkService (<[cx_id x := cx_set_auto_issue attrs (utc_now w2).1 x]> (<[cx_id x := x]> ma)) ia1 ha busa1) aia,
     mkAgent (mkService mb ib hb busb) aib) w3) as [[[msg|e|] s4] w4] eqn:Hmsg; [|by unfold om_to_didcomm in Hmsg; rewrite Hof in Hmsg..].
  rewrite <-Hoo in Hv. destruct (offer_transport offer v f _ w3 msg s4 w4 Hof Hv Hmsg) as (Hfrom & -> & Hle4 & Hty & Hfmt). rewrite Hff in Hfmt.
  assert (Hle : world_le w w4) by (etrans; [exact Hle2|]; by etrans).
  destruct (sd_text_value o oj Hoj) as (v' & Hv' & Hof').
  assert (v' = v) as -> by congruence.
  destruct (receive_offer "to-issuer" msg _ v (cx_thread_id x) cd o mb ib hb busb aib w4 (P4 (cx_thread_id x)) (aw_requested _ _ _ _ _ _ _ aw) Hty Hfmt Hfrom)
    as (rq & rj & mb' & y & hb' & busb' & w5 & out & rm & rf & w6 & w7 & Hrecv & Hle5 & Hasked & Hreq & Hrj & Hoy & Hty1 & Hry & Hsy & Hcy & Hrm & Hrmt & Hrmj & Hrmf & Hrff);
    [exact Hot|by apply (json_reparse oj)|done|done|by eapply fresh_for_later| | |].
  { intros k z Hz Hzt. by apply (proj2 (Hfb n Hn) k z Hz); rewrite Hzt. }
  { intros w'. destruct (aw_request _ _ _ _ _ _ _ aw hb w' (cx_thread_id x) o AUTO_ACCEPT_ENTROPY Hhb Hofd) as (rq & rj & h' & w'' & ?). by exists rq, rj, h', w''. }
  destruct (sd_text_value rq rj Hrj) as (rv & Hrv & Hrq). rewrite <-Hrmj in Hrv.
  destruct (request_transport rm rv rf tt w6 (out_message out) tt w7 Hrmf Hrv Hrm) as (Hrfrom & _ & _ & Hrty & Hrfmt). rewrite Hrff in Hrfmt.
  destruct (receive_request_run "to-holder" (out_message out) _ (cx_set_auto_issue attrs (utc_now w2).1 x) attrs oj o rq cd
              _ ia1 ha busa1 aia w5 (aw_issued _ _ _ _ _ _ _ aw) Hrty Hrfmt Hrfrom Hrmt Hrq Hox1 Hsx Hrx eq_refl Hxo (sd_text_back _ _ Hoj) Hcx)
    as (c & j & ma' & x' & ia' & busa' & aia' & w8 & out' & im & imf & sv & w9 & w10 & Hiss & Hle8 & Hci & Hcj & Hutf & Hox' & Htx' & Hrx' & Hsx' & Hjx' & Him & Himt & Himj & Himf & Himff).
  { intros w'. by apply (aw_credential _ _ _ _ _ _ _ aw). }
  subst j. cbn [cx_thread_id cx_set_auto_issue] in Htx', Himt.
  destruct (credential_to_ack sch cd attrs P1 P2 P3 P4 aw im imf sv w9 w10 (out_message out') x' y c ma' ia' ha busa' aia' mb' ib hb' busb' aib w8)
    as (a' & b' & w' & Hrest & Ha & Hb); try done; [by rewrite Htx'|by rewrite Htx'|by rewrite Hty1|].
  exists (cx_thread_id x'), (im_json im), a', b', w'. split; [|done]. rewrite Htx' in *. rewrite <-Hot.
  unfold issue_to_holder. rewrite (eff_bind_run _ _ _ _ _ _ _ (at_issuer_run _ _ _ _ _ _ _ (on_service_run _ _ _ aia _ _ _ _ Hcreate))). cbn [fst snd].
  rewrite (eff_bind_run _ _ _ _ _ _ _ (at_issuer_run _ _ _ _ _ _ _ (on_service_run _ _ _ aia _ _ _ _ Hset))).
  rewrite (eff_bind_run _ _ _ _ _ _ _ Hmsg), (eff_bind_run _ _ _ _ _ _ _ (at_holder_run _ _ _ _ _ _ _ Hrecv)).
  rewrite (eff_bind_run (sent (Some out)) _ _ _ (out_message out) _ w5 eq_refl), (eff_bind_run _ _ _ _ _ _ _ (at_issuer_run _ _ _ _ _ _ _ Hiss)).
  rewrite (eff_bind_run (sent (Some out')) _ _ _ (out_message out') _ w8 eq_refl), Hot. exact Hrest.
Qed.
End exchange.
