(* ===== verification/IssuanceRuns.v ===== *)
(** Runs of issue-credential with the AnonCreds services over a small stand-in for the crate:
    the witnesses of its properties, and the runs that show where the code falls short. *)
From S2P Require Import Prelude AjnaTypes StdText SerdeJson Storage Didcomm RecordRepo RecordSpec AnonCreds Issuance IssuanceMessages IssuanceService IssuanceHandler IssuanceProps IssuanceFlow.

(** * A concrete environment *)

Definition run_cred_def : string := "iss:3:CL:sch:tag".

(** Everything that the crate makes is a text; a value of it names the schema and the definition. *)
Definition text_value (s : string) : Json :=
  JObject [("schema_id", JString "sch"); ("cred_def_id", JString run_cred_def); ("text", JString s)].
Definition value_text (v : Json) : string := default "" (json_get "text" v ≫= json_as_str).
Definition iss_json : JsonText := {| json_print := value_text; json_parse s := Ok (text_value s) |}.
Definition toy_serde : Serde string :=
  {| sd_to_value s := Ok (text_value s); sd_from_value v := Ok (value_text v); sd_to_text s := Ok s; sd_from_text s := Ok s |}.
Definition toy_records : Serde CredentialExchangeRecord :=
  {| sd_to_value _ := Err ""; sd_from_value _ := Err ""; sd_to_text _ := Err ""; sd_from_text _ := Err "" |}.
Definition toy_stored : Serde StoredCredentialRecord :=
  {| sd_to_value _ := Err ""; sd_from_value _ := Err ""; sd_to_text c := Ok (scr_credential_id c);
     sd_from_text i := Ok (mkStoredCredential i (text_value i) "sch" run_cred_def ∅ None None) |}.
Definition iss_base64 : Base64Engine := {| b64_encode s := s; b64_decode s := Some s |}.
Definition toy_formats : FormatServices := {|
  W3cCredential := string; w3c_from_value v := Ok (value_text v); fs_registered _ := true;
  fs_sign _ c _ w := (Ok ("signed " +:+ c), w); fs_verify _ _ w := (Ok true, w)
|}.

(** The request and its metadata carry the link secret, the credential the request and the values. *)
Definition toy_anoncreds : AnoncredsLib := {|
  LinkSecret := string; AcSchema := string; CredentialDefinition := string; CredentialDefinitionPrivate := string;
  KeyCorrectnessProof := string; CredentialOffer := string; CredentialRequest := string; RequestMetadata := string;
  CredentialValues := string; AcCredential := string; Nonce := string; AttributeInfo := string; PredicateInfo := string;
  NonRevokedInterval := string; PresentationRequest := string; Presentation := string; RevRegDef := string;
  RevRegDefPrivate := string; RevStatusList := string; RevocationState := string;
  sc_name s := s; sc_version _ := "1"; cd_schema_id _ := "sch"; cd_issuer_id _ := "iss"; cd_tag _ := "tag";
  co_schema_id _ := "sch"; co_cred_def_id _ := run_cred_def; ac_schema_id _ := "sch"; ac_rev_reg_id _ := None;
  ac_values c := {["name" := (c, c)]}; rr_cred_def_id _ := run_cred_def; rr_tag _ := "tag"; rr_tails_location _ := "";
  ls_parse s := Ok s; ls_print s := Ok s; ls_try_clone s := Ok s;
  al_create_link_secret w := (Ok "secret", w);
  al_create_schema n _ _ _ := Ok n;
  al_create_cred_def _ _ _ _ _ w := (Ok ("def", "private", "proof"), w);
  al_create_offer _ _ p w := (Ok ("offer of " +:+ p), w);
  al_create_request e _ ls _ o w := (Ok ("request for " +:+ o, ls), w);
  cv_default := ""; cv_add_raw n v s := Ok (s +:+ n +:+ "=" +:+ v +:+ ";");
  al_create_credential _ p _ r v _ w := (Ok (v +:+ " on " +:+ r), w);
  al_process_credential c m ls _ _ w := (if decide (m = ls) then Ok c else Err "other link secret", w);
  al_serde_cred_def := toy_serde; al_serde_cred_def_private := toy_serde; al_serde_proof := toy_serde; al_serde_schema := toy_serde;
  al_serde_offer := toy_serde; al_serde_request := toy_serde; al_serde_metadata := toy_serde; al_serde_credential := toy_serde;
  al_serde_rev_reg_def := toy_serde; al_serde_status_list := toy_serde;
  al_create_rev_reg_def _ _ _ _ _ w := (Ok ("", ""), w); al_create_status_list _ _ _ _ _ _ := Ok "";
  al_update_status_list _ _ _ s _ _ _ := Ok s; al_update_timestamp _ s := s; al_rev_state _ _ _ _ _ _ := Ok "";
  al_generate_nonce w := (Ok "nonce", w);
  at_name a := Some a; at_names _ := None; pi_name p := p; pr_v2 _ n _ _ _ _ := n; pr_attributes _ := ∅; pr_predicates _ := ∅;
  pn_identifiers _ := []; pn_revealed _ := ∅; pn_revealed_groups _ := ∅; pn_self_attested _ := ∅;
  al_serde_pres_request := toy_serde; al_serde_presentation := toy_serde;
  al_create_presentation q _ _ ls _ _ w := (Ok (ls +:+ " for " +:+ q), w);
  al_verify_presentation p q _ _ _ _ := Ok (bool_decide (p = "secret for " +:+ q))
|}.
#[local] Existing Instances plain_order iss_json toy_serde toy_records toy_stored iss_base64 toy_formats toy_anoncreds toy_uuid_text.

(** An issuer with a credential definition, and a holder that shares its registry. *)
Abbreviation RunIssuer := (IssuerService (G:=InMemoryRegistry) (T:=gmap string (gmap string AgentRecord))).
Abbreviation RunHolder := (HolderService (G:=InMemoryRegistry) (T:=gmap string (gmap string AgentRecord))).
Abbreviation RunAgent := (IssuanceAgent (gmap string CredentialExchangeRecord) RunIssuer RunHolder).

Definition run_registry : InMemoryRegistry := mkMemRegistry ∅ {[run_cred_def := text_value "def"]} ∅ ∅.
Definition run_issuer : RunIssuer :=
  mkIssuer run_registry None (Some {[run_cred_def := "private"]}) (Some {[run_cred_def := "proof"]}).
Definition run_agent : RunAgent := mkAgent (ces_with_event_bus (ces_new run_issuer (hs_new run_registry) ∅)) ∅.

Definition run_attributes : gmap string string := {["name" := "Ann"]}.

(** Role, state and credential of the records of an agent. *)
Definition iss_view (s : RunAgent) : list (CredentialExchangeRole * CredentialExchangeState * option string) :=
  (λ x, (cx_role x, cx_state x, cx_credential_json x)) <$> repo_record_values (ces_repository (ia_service s)).

Example run_issues :
  let '(r, s, _) := issue_to_holder "sch" run_cred_def run_attributes (run_agent, run_agent) world0 in
  r = Ok "0" ∧
  iss_view s.1 = [(Issuer, Done, Some "name=Ann; on request for offer of proof")] ∧
  iss_view s.2 = [(Holder, Done, Some "name=Ann; on request for offer of proof")].
Proof. vm_compute. repeat split. Qed.

(** * The witnesses *)

(** What a text says is read back from it. *)
Lemma text_laws : JsonTextLaws.
Proof. constructor. by intros s v [= <-] _. Qed.
Lemma text_serde_laws : SerdeLaws string.
Proof.
  constructor; cbn.
  - by intros a v [= <-].
  - congruence.
  - by intros a v [= <-].
  - intros a s [= <-]. by exists (text_value a).
Qed.
Lemma text_base64_laws : Base64EngineLaws.
Proof. by constructor. Qed.

(** The services of the stand-in work. *)
Definition run_asked (t : string) : RunHolder :=
  mkHolder run_registry None (Some "secret") "default" (Some ∅) (<[t := text_value "secret"]> ∅).
Lemma run_works :
  AnonCredsWorks (IA:=RunIssuer) (HB:=RunHolder) "sch" run_cred_def run_attributes (eq run_issuer) (eq run_issuer) (eq (hs_new run_registry))
    (λ t h, h = run_asked t).
Proof.
  refine {| aw_offered := eq "offer of proof"; aw_requested := eq "request for offer of proof";
            aw_issued := eq "name=Ann; on request for offer of proof" |}; cbv beta.
  - intros i w <-. eexists _, _, _, _, _. split; [reflexivity|]. by split_and!.
  - intros h w t o e <- <-. eexists _, _, _, _. split; [reflexivity|]. by split_and!.
  - intros i w o rq <- <- <-. eexists _, _, _, _. split; [reflexivity|]. by split_and!.
  - intros h w t c -> <-.
    assert (Hm : hs_load_metadata t (run_asked t) w = (Ok "secret", run_asked t, w)).
    { unfold hs_load_metadata, run_asked, eff_get, mbind, eff_bind. cbn [hs_request_metadata]. by rewrite lookup_insert_eq. }
    eexists _, _, _. cbn [ch_process_credential holder_service_api]. unfold hs_process_credential. split.
    { erewrite eff_bind_run by reflexivity. erewrite eff_bind_run by reflexivity.
      rewrite (eff_bind_run _ _ _ _ _ _ _ Hm). reflexivity. }
    split; [done|cbn; lia].
Qed.
#[local] Instance run_offer_laws : SerdeLaws CredentialOffer := text_serde_laws.
#[local] Instance run_request_laws : SerdeLaws CredentialRequest := text_serde_laws.
#[local] Instance run_credential_laws : SerdeLaws AcCredential := text_serde_laws.
#[local] Existing Instances text_laws text_base64_laws.

Lemma run_agent_ok : agent_ok run_agent.
Proof. by intros id x. Qed.

Lemma issuance_completes_witness :
  ∃ t j a' b' w',
    issue_to_holder "sch" run_cred_def run_attributes (run_agent, run_agent) world0 = (Ok t, (a', b'), w') ∧
    stands a' t Issuer Done (Some j) ∧ stands b' t Holder Done (Some j).
Proof. apply (issuance_completes _ _ _ _ _ _ _ _ _ _ _ _ _ _ _ _ _ _ run_works); done. Defined.

(** The holder's request for the first offer, and the issuer's calls up to the credential. *)
Definition run_request : Message :=
  match rm_to_didcomm (E:=string) (mkRequest "r" "0" [mkFormat "a" ANONCREDS_CREDENTIAL_REQUEST] None "request for offer of proof") tt world0 with
  | (Ok m, _, _) => m
  | _ => msg_new "" "" JNull
  end.
Definition iss_calls : list issuance_call :=
  [IcCreateOffer (Some "to-holder") "sch" run_cred_def; IcSetAttributes "2" run_attributes; IcMessage true (over "to-holder" run_request)].
Definition run_offered : RunAgent := (issuance_run (take 1 iss_calls) run_agent world0).1.
Definition run_done : RunAgent := (issuance_run iss_calls run_agent world0).1.

Example run_issued : iss_view run_done = [(Issuer, CredentialIssued, Some "name=Ann; on request for offer of proof")].
Proof. vm_compute. reflexivity. Qed.

Lemma issuance_follows_machine_witness :
  agent_ok run_done ∧ ∀ id, cex_path (IS:=RunIssuer) (HS:=RunHolder) iss_calls (agent_view run_agent id) (agent_view run_done id).
Proof. apply (issuance_follows_machine iss_calls run_agent world0 run_agent_ok). Defined.

Lemma run_offered_ok : agent_ok run_offered.
Proof. apply (issuance_run_path (IS:=RunIssuer) (HS:=RunHolder) (take 1 iss_calls) run_agent world0 run_agent_ok). Qed.

Lemma run_offered_record : ∃ x, agent_view run_offered "2" = Some x ∧ cx_state x = OfferSent.
Proof. eexists. vm_compute. split; reflexivity. Qed.
Lemma run_done_record :
  ∃ x, agent_view run_done "2" = Some x ∧ cx_role x = Issuer ∧ cx_credential_json x = Some "name=Ann; on request for offer of proof".
Proof. eexists. vm_compute. repeat split; reflexivity. Qed.

Lemma exchange_moves_on_witness :
  ∃ x y, agent_view run_offered "2" = Some x ∧ cx_state x = OfferSent ∧
    agent_view (issuance_run (drop 1 iss_calls) run_offered world0).1 "2" = Some y ∧ cex_later x y.
Proof.
  destruct run_offered_record as (x & Hx & Hst).
  destruct (exchange_moves_on (drop 1 iss_calls) run_offered world0 "2" x run_offered_ok Hx) as (y & Hy & Hl).
  exists x, y. split; [exact Hx|]. split; [exact Hst|]. split; [exact Hy|exact Hl].
Defined.

Lemma credential_provenance_witness :
  ∃ x, agent_view run_done "2" = Some x ∧ cx_credential_json x = Some "name=Ann; on request for offer of proof" ∧
    ∃ c, c ∈ iss_calls ∧ own_credential (IS:=RunIssuer) c x "name=Ann; on request for offer of proof".
Proof.
  destruct run_done_record as (x & Hx & Hr & Hj). exists x. split; [exact Hx|]. split; [exact Hj|].
  pose proof (credential_provenance iss_calls run_agent world0 "2" x run_agent_ok (λ i, eq_refl) Hx) as Hp.
  rewrite Hr in Hp. exact (proj2 (iw_credential _ _ Hp _ Hj)).
Defined.

(** * Where the code falls short *)

Definition run_of (calls : list issuance_call) : RunAgent := (issuance_run calls run_agent world0).1.
Definition ack_message (status thread_id : string) : InboundMessage :=
  over "peer" (mb_thread thread_id (msg_new "ack" ACK_TYPE (JObject [("status", JString status)]))).
Definition run_formats (format : string) : Json := JObject [("formats", formats_to_json [mkFormat "a" format])].
Definition offer_message (format thread_id : string) : InboundMessage :=
  over "peer" (mb_add_attachment (json_attachment "a" format (text_value "offer of proof")) (mb_thread thread_id (msg_new "o" OFFER_TYPE (run_formats format)))).
Definition request_message (format thread_id : string) : InboundMessage :=
  over "peer" (mb_add_attachment (json_attachment "a" format (text_value "request")) (mb_thread thread_id (msg_new "r" REQUEST_TYPE (run_formats format)))).

(** An ack of anybody - also one that reports a failure - completes any exchange of its thread:
    an offer that was never answered, an exchange that was abandoned. *)
Example ack_completes_offer :
  iss_view (run_of [IcCreateOffer None "sch" run_cred_def; IcMessage true (ack_message "FAIL" "0")]) = [(Issuer, Done, None)].
Proof. vm_compute. reflexivity. Qed.
Example ack_revives_abandoned :
  iss_view (run_of [IcCreateOffer None "sch" run_cred_def; IcAbandon "2" "changed my mind"]) = [(Issuer, Abandoned, None)] ∧
  iss_view (run_of [IcCreateOffer None "sch" run_cred_def; IcAbandon "2" "changed my mind"; IcMessage true (ack_message "OK" "0")]) =
    [(Issuer, Done, None)].
Proof. vm_compute. split; reflexivity. Qed.

(** The handler does not consult the table of transitions: a received credential goes from
    [RequestSent] to [Done], which the table does not allow, and [CredentialReceived] is skipped. *)
Example table_forbids_done : cex_can_transition_to RequestSent Done = false ∧ cex_can_transition_to Abandoned Done = false.
Proof. vm_compute. split; reflexivity. Qed.

(** An offer that arrives twice opens two exchanges on one thread (the W3C handler answers with the existing one). *)
Example repeated_offer_opens_two :
  (λ x, (cx_thread_id x, cx_state x)) <$>
    repo_record_values (ces_repository (ia_service (run_of
      [IcMessage false (offer_message ANONCREDS_CREDENTIAL_OFFER "t"); IcMessage false (offer_message ANONCREDS_CREDENTIAL_OFFER "t")]))) =
    [("t", OfferReceived); ("t", OfferReceived)] ∧
  iss_view (run_of [IcMessage false (offer_message JSONLD_LD_PROOF_VC_DETAIL "t"); IcMessage false (offer_message JSONLD_LD_PROOF_VC_DETAIL "t")]) =
    [(Holder, OfferReceived, None)].
Proof. vm_compute. split; reflexivity. Qed.

(** An AnonCreds offer that is stored is not announced on the event bus; a W3C offer is. *)
Definition announced (s : RunAgent) : option nat := length <$> ces_event_bus (ia_service s).
Example offer_not_announced :
  announced (run_of [IcMessage false (offer_message ANONCREDS_CREDENTIAL_OFFER "t")]) = Some 0 ∧
  announced (run_of [IcMessage false (offer_message JSONLD_LD_PROOF_VC_DETAIL "t")]) = Some 1.
Proof. vm_compute. split; reflexivity. Qed.

(** The handler of the wasm build does not look at the attributes that were stored with the
    exchange: the request waits, where the native build issues. *)
Example wasm_ignores_stored_attributes :
  iss_view (run_of [IcCreateOffer None "sch" run_cred_def; IcSetAttributes "2" run_attributes; IcRequestWasm (over "peer" run_request)]) =
    [(Issuer, RequestReceived, None)] ∧
  iss_view (run_of [IcCreateOffer None "sch" run_cred_def; IcSetAttributes "2" run_attributes; IcMessage true (over "peer" run_request)]) =
    [(Issuer, CredentialIssued, Some "name=Ann; on request for offer of proof")].
Proof. vm_compute. split; reflexivity. Qed.

(** A request in a W3C format for an AnonCreds offer is stored before its format is looked at:
    it fails, and the real request that follows is refused. *)
Example w3c_request_blocks_exchange :
  let calls := [IcCreateOffer None "sch" run_cred_def; IcSetAttributes "2" run_attributes; IcMessage true (request_message JSONLD_LD_PROOF_VC_DETAIL "0")] in
  iss_view (run_of calls) = [(Issuer, RequestReceived, None)] ∧
  iss_view (run_of (calls ++ [IcMessage true (over "peer" run_request)])) = [(Issuer, RequestReceived, None)].
Proof. vm_compute. split; reflexivity. Qed.
