(* ===== verification/Proofs.v ===== *)
(** The present-proof protocol: states, roles, errors, records and messages
    ([src/protocols/proofs/src]).

    The repositories of the protocol are those of [RecordRepo] for the record type of this
    file.  The wire helpers for attachments ([v2_attachment], [extract_v2_attach]) and the
    fields of acks and problem reports are those of the credential protocol, which the crate
    repeats word for word. *)
From S2P Require Import Prelude AjnaTypes StdText SerdeJson Attach64 Storage Didcomm RecordRepo Issuance IssuanceMessages.

(** * States and roles *)

(** [src/protocols/proofs/src/domain/state.rs:17-27] ProofExchangeState *)
Inductive ProofExchangeState :=
  | PsProposalSent | PsProposalReceived | PsRequestSent | PsRequestReceived | PsPresentationSent | PsPresentationReceived
  | PsDeclined | PsDone | PsAbandoned.
#[export] Instance ProofExchangeState_eq_dec : EqDecision ProofExchangeState.
Proof. solve_decision. Defined.

(** [src/protocols/proofs/src/domain/role.rs:10-13] ProofExchangeRole *)
Inductive ProofExchangeRole := Prover | Verifier.
#[export] Instance ProofExchangeRole_eq_dec : EqDecision ProofExchangeRole.
Proof. solve_decision. Defined.

(** [src/protocols/proofs/src/domain/state.rs:31-36] ProofExchangeState::is_terminal *)
Definition ps_is_terminal (self : ProofExchangeState) : bool := bool_decide (self = PsDone ∨ self = PsAbandoned ∨ self = PsDeclined).

(** [src/protocols/proofs/src/domain/state.rs:39-41] ProofExchangeState::is_active *)
Definition ps_is_active (self : ProofExchangeState) : bool := negb (ps_is_terminal self).

(** [src/protocols/proofs/src/domain/state.rs:44-57] ProofExchangeState::valid_next_states *)
Definition ps_valid_next_states (self : ProofExchangeState) : list ProofExchangeState :=
  match self with
  | PsProposalSent => [PsRequestReceived; PsDeclined; PsAbandoned]
  | PsProposalReceived => [PsRequestSent; PsDeclined; PsAbandoned]
  | PsRequestSent => [PsPresentationReceived; PsDeclined; PsAbandoned]
  | PsRequestReceived => [PsPresentationSent; PsDeclined; PsAbandoned]
  | PsPresentationSent => [PsDone; PsAbandoned]
  | PsPresentationReceived => [PsDone; PsAbandoned]
  | PsDone | PsAbandoned | PsDeclined => []
  end.

(** [src/protocols/proofs/src/domain/state.rs:60-62] ProofExchangeState::can_transition_to *)
Definition ps_can_transition_to (self next : ProofExchangeState) : bool := bool_decide (next ∈ ps_valid_next_states self).

(** [src/protocols/proofs/src/domain/state.rs:66-79] ProofExchangeState::fmt *)
Definition ps_to_string (self : ProofExchangeState) : string :=
  match self with
  | PsProposalSent => "proposal-sent"
  | PsProposalReceived => "proposal-received"
  | PsRequestSent => "request-sent"
  | PsRequestReceived => "request-received"
  | PsPresentationSent => "presentation-sent"
  | PsPresentationReceived => "presentation-received"
  | PsDeclined => "declined"
  | PsDone => "done"
  | PsAbandoned => "abandoned"
  end.

(** [src/protocols/proofs/src/domain/role.rs:16-22] ProofExchangeRole::fmt *)
Definition pr_role_to_string (self : ProofExchangeRole) : string := match self with Prover => "prover" | Verifier => "verifier" end.

(** The derived [Debug] texts. *)
Definition ps_debug (self : ProofExchangeState) : string :=
  match self with
  | PsProposalSent => "ProposalSent"
  | PsProposalReceived => "ProposalReceived"
  | PsRequestSent => "RequestSent"
  | PsRequestReceived => "RequestReceived"
  | PsPresentationSent => "PresentationSent"
  | PsPresentationReceived => "PresentationReceived"
  | PsDeclined => "Declined"
  | PsDone => "Done"
  | PsAbandoned => "Abandoned"
  end.
Definition pr_role_debug (self : ProofExchangeRole) : string := match self with Prover => "Prover" | Verifier => "Verifier" end.

(** * Errors *)

(** [src/protocols/proofs/src/lib.rs:58-100] ProofError (a serializer's error is its text) *)
Inductive ProofError :=
  | PeNotFound (s : string)
  | PeAlreadyExists (s : string)
  | PeInvalidStateTransition (from to : ProofExchangeState)
  | PeInvalidRole (expected actual : ProofExchangeRole)
  | PeInvalidState (expected : list ProofExchangeState) (actual : ProofExchangeState)
  | PeMissingThreadId
  | PeMissingAttachment
  | PeVerificationFailed (s : string)
  | PeAnonCreds (s : string)
  | PeSerialization (s : string)
  | PeProtocol (s : string).

(** [src/protocols/proofs/src/lib.rs:58-100] ProofError::to_string (derived by thiserror) *)
Definition pe_to_string (e : ProofError) : string :=
  match e with
  | PeNotFound s => "Proof exchange not found: " +:+ s
  | PeAlreadyExists s => "Proof exchange already exists: " +:+ s
  | PeInvalidStateTransition from to => "Invalid state transition: from " +:+ ps_debug from +:+ " to " +:+ ps_debug to
  | PeInvalidRole expected actual =>
      "Invalid role for operation: expected " +:+ pr_role_debug expected +:+ ", got " +:+ pr_role_debug actual
  | PeInvalidState expected actual =>
      "Invalid state for operation: expected one of " +:+ debug_list (ps_debug <$> expected) +:+ ", got " +:+ ps_debug actual
  | PeMissingThreadId => "Missing thread ID in message"
  | PeMissingAttachment => "Missing attachment in message"
  | PeVerificationFailed s => "Presentation verification failed: " +:+ s
  | PeAnonCreds s => "AnonCreds error: " +:+ s
  | PeSerialization s => "Serialization error: " +:+ s
  | PeProtocol s => "Protocol error: " +:+ s
  end.

(** * Records *)

(** [src/protocols/proofs/src/repository/proof_exchange.rs:9-53] ProofExchangeRecord *)
Record ProofExchangeRecord := mkProof {
  px_id : string;
  px_thread_id : string;
  px_connection_id : option string;
  px_role : ProofExchangeRole;
  px_state : ProofExchangeState;
  px_request_json : option string;
  px_presentation_json : option string;
  px_verified : option bool;
  px_error_message : option string;
  px_created_at : Instant;
  px_updated_at : Instant
}.

(** [src/protocols/proofs/src/repository/proof_exchange.rs:57-72] ProofExchangeRecord::new *)
Definition px_new `{UuidText} (role : ProofExchangeRole) (state : ProofExchangeState) (thread_id : string) (w : World)
    : ProofExchangeRecord * World :=
  let '(now, w) := utc_now w in
  let '(u, w) := uuid_new_v4 w in
  (mkProof (uuid_to_string u) thread_id None role state None None None None now now, w).

(** [src/protocols/proofs/src/repository/proof_exchange.rs:75-78] ProofExchangeRecord::set_connection_id *)
Definition px_set_connection_id (connection_id : string) (now : Instant) (r : ProofExchangeRecord) : ProofExchangeRecord :=
  mkProof (px_id r) (px_thread_id r) (Some connection_id) (px_role r) (px_state r) (px_request_json r) (px_presentation_json r)
    (px_verified r) (px_error_message r) (px_created_at r) now.

(** [src/protocols/proofs/src/repository/proof_exchange.rs:81-84] ProofExchangeRecord::set_presentation_request *)
Definition px_set_request (json : string) (now : Instant) (r : ProofExchangeRecord) : ProofExchangeRecord :=
  mkProof (px_id r) (px_thread_id r) (px_connection_id r) (px_role r) (px_state r) (Some json) (px_presentation_json r)
    (px_verified r) (px_error_message r) (px_created_at r) now.

(** [src/protocols/proofs/src/repository/proof_exchange.rs:87-90] ProofExchangeRecord::set_presentation *)
Definition px_set_presentation (json : string) (now : Instant) (r : ProofExchangeRecord) : ProofExchangeRecord :=
  mkProof (px_id r) (px_thread_id r) (px_connection_id r) (px_role r) (px_state r) (px_request_json r) (Some json)
    (px_verified r) (px_error_message r) (px_created_at r) now.

(** [src/protocols/proofs/src/repository/proof_exchange.rs:93-96] ProofExchangeRecord::set_verified *)
Definition px_set_verified (verified : bool) (now : Instant) (r : ProofExchangeRecord) : ProofExchangeRecord :=
  mkProof (px_id r) (px_thread_id r) (px_connection_id r) (px_role r) (px_state r) (px_request_json r) (px_presentation_json r)
    (Some verified) (px_error_message r) (px_created_at r) now.

(** [src/protocols/proofs/src/repository/proof_exchange.rs:99-102] ProofExchangeRecord::update_state *)
Definition px_update_state (new_state : ProofExchangeState) (now : Instant) (r : ProofExchangeRecord) : ProofExchangeRecord :=
  mkProof (px_id r) (px_thread_id r) (px_connection_id r) (px_role r) new_state (px_request_json r) (px_presentation_json r)
    (px_verified r) (px_error_message r) (px_created_at r) now.

(** [src/protocols/proofs/src/repository/proof_exchange.rs:105-109] ProofExchangeRecord::set_error *)
Definition px_set_error (error : string) (now : Instant) (r : ProofExchangeRecord) : ProofExchangeRecord :=
  mkProof (px_id r) (px_thread_id r) (px_connection_id r) (px_role r) PsAbandoned (px_request_json r) (px_presentation_json r)
    (px_verified r) (Some error) (px_created_at r) now.

(** [src/protocols/proofs/src/repository/proof_exchange.rs:112-114] ProofExchangeRecord::is_done *)
Definition px_is_done (r : ProofExchangeRecord) : bool := bool_decide (px_state r = PsDone).

(** [src/protocols/proofs/src/repository/proof_exchange.rs:117-119] ProofExchangeRecord::is_active *)
Definition px_is_active (r : ProofExchangeRecord) : bool := ps_is_active (px_state r).

(** [src/protocols/proofs/src/repository/storage_backed.rs:17-17] PROOF_EXCHANGE_CATEGORY *)
Definition PROOF_EXCHANGE_CATEGORY : string := "anoncreds_proof_exchange".

(** [src/protocols/proofs/src/repository/storage_backed.rs:87-105] StorageBackedProofExchangeRepository::to_storage_record (the kind of record) *)
#[export] Instance proof_kind `{Serde ProofExchangeRecord} : RecordKind ProofExchangeRecord ProofError := {|
  rk_key := {| rk_id := px_id; rk_already := PeAlreadyExists; rk_not_found := PeNotFound |};
  rk_category := PROOF_EXCHANGE_CATEGORY;
  rk_tags r := tag_opt "connection_id" (px_connection_id r)
    (<["role" := pr_role_debug (px_role r)]> (<["state" := ps_debug (px_state r)]> {["thread_id" := px_thread_id r]}));
  rk_encode r := match sd_to_text r with Ok s => Ok s | Err e => Err (PeSerialization e) | Panic => Panic end;
  rk_decode s := match sd_from_text s with Ok r => Some r | _ => None end;
  rk_load_failed e := PeProtocol ("Failed to load proof exchanges: " +:+ ag_to_string e);
  rk_save_failed e := PeProtocol ("Failed to save proof exchange: " +:+ ag_to_string e);
  rk_update_failed e := PeProtocol ("Failed to update proof exchange: " +:+ ag_to_string e);
  rk_delete_failed e := PeProtocol ("Failed to delete proof exchange: " +:+ ag_to_string e)
|}.
#[export] Instance proof_kind_laws `{JsonText} `{Serde ProofExchangeRecord} `{!SerdeLaws ProofExchangeRecord} :
  RecordKindLaws ProofExchangeRecord ProofError.
Proof.
  apply exact_kind_laws. intros x v Hv. cbn in *. destruct (sd_to_text x) as [s| |] eqn:Hs; try done. injection Hv as ->.
  by rewrite (sd_text_back _ _ Hs).
Defined.

(** [src/protocols/proofs/src/events.rs:33-39] ProofStateChangedPayload *)
Record ProofStateChangedPayload := mkProofChanged {
  pcp_record : ProofExchangeRecord;
  pcp_previous_state : option ProofExchangeState
}.

(** * Messages *)

(** [src/protocols/proofs/src/messages/mod.rs:17-17] ANONCREDS_PROOF_REQUEST *)
Definition ANONCREDS_PROOF_REQUEST : string := "anoncreds/proof-request@v1.0".
(** [src/protocols/proofs/src/messages/mod.rs:20-20] ANONCREDS_PROOF *)
Definition ANONCREDS_PROOF : string := "anoncreds/proof@v1.0".

(** A message whose thread is set by hand. *)
Definition msg_on_thread (thread_id : string) (m : Message) : Message := mb_thread thread_id m.

Section messages.
Context `{JsonText} `{Base64Engine} `{UuidText}.

(** A payload that is attached as a value: text that does not parse is attached as a string. *)
Definition text_or_value (json_str : string) : Json := match json_parse json_str with Ok v => v | _ => JString json_str end.

(** The first attachment of a format, or the first one, as text. *)
Definition attached_text (format what links_error : string) (msg : Message) (missing none : string) : outcome string string :=
  match msg_attachments msg with
  | None => Err missing
  | Some l =>
      match (match find_first (λ a, at_format a = Some format) l with Some a => Some a | None => head l end) with
      | None => Err none
      | Some attachment =>
          let d := at_data attachment in
          match ad_json d, ad_base64 d with
          | Some json, _ => Ok (json_print json)
          | None, Some data =>
              match proof_base64_decode (String.list_ascii_of_string data) with
              | Ok decoded =>
                  match from_utf8 (string_of_bytes decoded) with
                  | Ok s => Ok s
                  | Err e => Err ("Invalid UTF-8 in " +:+ what +:+ ": " +:+ e)
                  | Panic => Panic
                  end
              | Err e => Err ("Failed to decode base64 attachment: " +:+ e)
              | Panic => Panic
              end
          | None, None => if ad_is_external d then Err links_error else Err "Attachment carries no data"
          end
      end
  end.

(** ** Request *)

(** [src/protocols/proofs/src/messages/request_presentation.rs:11-25] RequestPresentationMessage *)
Record RequestPresentationMessage := mkProofRequest {
  rpm_id : string; rpm_comment : option string; rpm_will_confirm : bool; rpm_json : string
}.

(** [src/protocols/proofs/src/messages/request_presentation.rs:29-29] RequestPresentationMessage::TYPE *)
Definition PROOF_REQUEST_TYPE : string := "https://didcomm.org/present-proof/2.0/request-presentation".

(** [src/protocols/proofs/src/messages/request_presentation.rs:32-39] RequestPresentationMessage::new *)
Definition rpm_new {E S} (proof_request_json : string) : eff E S RequestPresentationMessage :=
  id ← new_id; mret (mkProofRequest id None true proof_request_json).

(** [src/protocols/proofs/src/messages/request_presentation.rs:42-45] RequestPresentationMessage::with_comment *)
Definition rpm_with_comment (comment : string) (self : RequestPresentationMessage) : RequestPresentationMessage :=
  mkProofRequest (rpm_id self) (Some comment) (rpm_will_confirm self) (rpm_json self).

(** [src/protocols/proofs/src/messages/request_presentation.rs:48-50] RequestPresentationMessage::with_id *)
Definition rpm_with_id (id : string) (self : RequestPresentationMessage) : RequestPresentationMessage :=
  mkProofRequest id (rpm_comment self) (rpm_will_confirm self) (rpm_json self).

(** [src/protocols/proofs/src/messages/request_presentation.rs:58-70] RequestPresentationMessage::to_aries_v2_value *)
Definition rpm_to_aries_v2_value {E S} (self : RequestPresentationMessage) : eff E S Json :=
  attach_id ← new_id;
  mret (JObject
    [("@type", JString PROOF_REQUEST_TYPE); ("@id", JString (rpm_id self)); ("comment", json_of_option (rpm_comment self));
     ("will_confirm", JBool (rpm_will_confirm self));
     ("formats", JArray [JObject [("attach_id", JString attach_id); ("format", JString ANONCREDS_PROOF_REQUEST)]]);
     ("request_presentations~attach", JArray [v2_attachment attach_id ANONCREDS_PROOF_REQUEST (rpm_json self)])]).

(** An attachment with a value, under a new id. *)
Definition new_attachment {E S} (format json_str : string) : eff E S Attachment :=
  attach_id ← new_id; mret (json_attachment attach_id format (text_or_value json_str)).
Definition with_attachments (l : list Attachment) (m : Message) : Message :=
  mkMessage (msg_id m) (msg_type m) (msg_body m) (msg_from m) (msg_to m) (msg_thread m) (msg_pthid m)
    (msg_created_time m) (msg_expires_time m) (Some l) (msg_extra m).

(** [src/protocols/proofs/src/messages/request_presentation.rs:73-97] RequestPresentationMessage::to_didcomm_message *)
Definition rpm_to_didcomm {E S} (self : RequestPresentationMessage) : eff E S Message :=
  let body := JObject [("comment", json_of_option (rpm_comment self)); ("will_confirm", JBool (rpm_will_confirm self))] in
  attachment ← new_attachment ANONCREDS_PROOF_REQUEST (rpm_json self);
  mret (with_attachments [attachment] (msg_new (rpm_id self) PROOF_REQUEST_TYPE body)).


(** [src/protocols/proofs/src/messages/request_presentation.rs:100-164] RequestPresentationMessage::from_didcomm_message *)
Definition rpm_from_didcomm (msg : Message) : outcome string RequestPresentationMessage :=
  let comment := body_text "comment" (msg_body msg) in
  let will_confirm := default true (json_get "will_confirm" (msg_body msg) ≫= json_as_bool) in
  let? proof_request_json :=
    match extract_v2_attach (msg_body msg) "request_presentations~attach" with
    | Some s => Ok s
    | None => attached_text ANONCREDS_PROOF_REQUEST "proof request" "Links attachments are not supported for proof requests" msg
                "Missing attachments in request-presentation message" "No proof request attachment found"
    end in
  Ok (mkProofRequest (msg_id msg) comment will_confirm proof_request_json).

(** ** Presentation *)

(** [src/protocols/proofs/src/messages/presentation.rs:11-24] PresentationMessage *)
Record PresentationMessage := mkPresentation {
  prm_id : string; prm_thread_id : string; prm_comment : option string; prm_json : string
}.

(** [src/protocols/proofs/src/messages/presentation.rs:28-28] PresentationMessage::TYPE *)
Definition PRESENTATION_TYPE : string := "https://didcomm.org/present-proof/2.0/presentation".

(** [src/protocols/proofs/src/messages/presentation.rs:31-38] PresentationMessage::new *)
Definition prm_new {E S} (thread_id presentation_json : string) : eff E S PresentationMessage :=
  id ← new_id; mret (mkPresentation id thread_id None presentation_json).

(** [src/protocols/proofs/src/messages/presentation.rs:41-44] PresentationMessage::with_comment *)
Definition prm_with_comment (comment : string) (self : PresentationMessage) : PresentationMessage :=
  mkPresentation (prm_id self) (prm_thread_id self) (Some comment) (prm_json self).

(** [src/protocols/proofs/src/messages/presentation.rs:47-50] PresentationMessage::with_id *)
Definition prm_with_id (id : string) (self : PresentationMessage) : PresentationMessage :=
  mkPresentation id (prm_thread_id self) (prm_comment self) (prm_json self).

(** [src/protocols/proofs/src/messages/presentation.rs:53-84] PresentationMessage::to_didcomm_message *)
Definition prm_to_didcomm {E S} (self : PresentationMessage) : eff E S Message :=
  let body := JObject [("comment", json_of_option (prm_comment self))] in
  attachment ← new_attachment ANONCREDS_PROOF (prm_json self);
  mret (with_attachments [attachment] (msg_on_thread (prm_thread_id self) (msg_new (prm_id self) PRESENTATION_TYPE body))).

(** [src/protocols/proofs/src/messages/presentation.rs:87-150] PresentationMessage::from_didcomm_message *)
Definition prm_from_didcomm (msg : Message) : outcome string PresentationMessage :=
  let comment := body_text "comment" (msg_body msg) in
  let? presentation_json :=
    match extract_v2_attach (msg_body msg) "presentations~attach" with
    | Some s => Ok s
    | None => attached_text ANONCREDS_PROOF "presentation" "Links attachments are not supported for presentations" msg
                "Missing attachments in presentation message" "No presentation attachment found"
    end in
  Ok (mkPresentation (msg_id msg) (msg_thread_id msg) comment presentation_json).

(** ** Ack *)

(** [src/protocols/proofs/src/messages/ack.rs:31-31] AckMessage::TYPE *)
Definition PROOF_ACK_TYPE : string := "https://didcomm.org/present-proof/2.0/ack".

(** [src/protocols/proofs/src/messages/ack.rs:34-40] AckMessage::new *)
Definition proof_ack_new {E S} (thread_id : string) (status : AckStatus) : eff E S AckMessage :=
  id ← new_id; mret (mkAck id thread_id status).

(** [src/protocols/proofs/src/messages/ack.rs:51-69] AckMessage::to_didcomm_message *)
Definition proof_ack_to_didcomm (self : AckMessage) : Message :=
  msg_on_thread (am_thread_id self)
    (msg_new (am_id self) PROOF_ACK_TYPE
       (JObject [("@type", JString PROOF_ACK_TYPE); ("@id", JString (am_id self));
                 ("~thread", JObject [("thid", JString (am_thread_id self))]); ("status", JString (ack_status_name (am_status self)))])).

(** [src/protocols/proofs/src/messages/ack.rs:72-91] AckMessage::from_didcomm_message *)
Definition proof_ack_from_didcomm (msg : Message) : outcome string AckMessage :=
  Ok (mkAck (msg_id msg) (msg_thread_id msg) (default AckOk (json_get "status" (msg_body msg) ≫= sv_variant ack_statuses))).

(** ** Problem report *)

(** [src/protocols/proofs/src/messages/problem_report.rs:88-88] ProblemReportMessage::TYPE *)
Definition PROOF_PROBLEM_TYPE : string := "https://didcomm.org/present-proof/3.0/problem-report".

(** [src/protocols/proofs/src/messages/problem_report.rs:109-111] ProblemReportMessage::abandoned *)
Definition proof_abandoned {E S} (thread_id en : string) : eff E S ProblemReportMessage := pr_new thread_id "abandoned" en.
(** [src/protocols/proofs/src/messages/problem_report.rs:113-115] ProblemReportMessage::verification_failed *)
Definition proof_verification_failed {E S} (thread_id en : string) : eff E S ProblemReportMessage :=
  pr_new thread_id "presentation-verification-failed" en.
(** [src/protocols/proofs/src/messages/problem_report.rs:117-119] ProblemReportMessage::rejected *)
Definition proof_rejected {E S} (thread_id en : string) : eff E S ProblemReportMessage := pr_new thread_id "presentation-rejected" en.

(** [src/protocols/proofs/src/messages/problem_report.rs:121-174] ProblemReportMessage::to_didcomm_message *)
Definition proof_problem_to_didcomm (self : ProblemReportMessage) : Message :=
  msg_on_thread (pr_thread_id self) (msg_new (pr_id self) PROOF_PROBLEM_TYPE (pr_body self)).

(** [src/protocols/proofs/src/messages/problem_report.rs:176-233] ProblemReportMessage::from_didcomm_message *)
Definition proof_problem_from_didcomm (message : Message) : outcome ProofError ProblemReportMessage :=
  match pr_from_didcomm message with
  | Ok r => Ok r
  | _ => Err (PeProtocol "problem-report missing required description")
  end.
End messages.
