(* ===== verification/ProofService.v ===== *)
(** The present-proof service ([services/proof_service.rs]) and its handlers
    ([src/protocols/proofs/src/handlers]).

    The AnonCreds holder and verifier are used through interfaces ([PresentationProver],
    [PresentationVerifier]), which the services of [AnonCreds] implement; the repository through
    [ExchangeRepo]; the event bus is the list of what was emitted, if there is one. *)
From S2P Require Import Prelude AjnaTypes SerdeJson Storage Didcomm RecordRepo AnonCreds Issuance IssuanceMessages Proofs.

(** What the service asks of a verifier and of a prover. *)
Class PresentationVerifier `{AnoncredsLib} (G : Type) := {
  pv_create_request : string → string → gmap string AttributeInfo → gmap string PredicateInfo → eff AnonCredsError G PresentationRequest;
  pv_verify : Presentation → PresentationRequest → eff AnonCredsError G bool
}.
Class PresentationProver `{AnoncredsLib} (HD : Type) := {
  pp_create_presentation : PresentationRequest → gmap string (string * bool) → option (gmap string string) →
    eff AnonCredsError HD Presentation;
  pp_find_credentials : PresentationRequest → eff AnonCredsError HD (gmap string (list string))
}.
#[export] Instance verifier_service_api `{AnoncredsLib} {G} `{!AnonCredsRegistry G} : PresentationVerifier G :=
  {| pv_create_request := vs_create_presentation_request; pv_verify := vs_verify_presentation |}.
#[export] Instance prover_service_api `{AnoncredsLib} `{HashOrder} {G T} `{!AnonCredsRegistry G} `{!AnonCredsStore T} :
  PresentationProver (HolderService (G:=G) (T:=T)) :=
  {| pp_create_presentation := hs_create_presentation; pp_find_credentials := hs_find_credentials_for_request |}.

(** [src/protocols/proofs/src/services/proof_service.rs:16-29] ProofExchangeService *)
Record ProofService (S V H : Type) := mkProofService {
  pxs_repository : S;
  pxs_verifier : V;
  pxs_holder : H;
  pxs_event_bus : option (list ProofStateChangedPayload)
}.
Arguments mkProofService {S V H}.
Arguments pxs_repository {S V H}.
Arguments pxs_verifier {S V H}.
Arguments pxs_holder {S V H}.
Arguments pxs_event_bus {S V H}.

#[export] Instance proof_service_repo {RS VS HS} : HasRepo (ProofService RS VS HS) RS := {|
  repo_of := pxs_repository; with_repo r s := mkProofService r (pxs_verifier s) (pxs_holder s) (pxs_event_bus s); repo_of_with _ _ := eq_refl
|}.

Section service.
Context `{AnoncredsLib} `{HashOrder} `{JsonText} `{Base64Engine} `{UuidText} `{Serde ProofExchangeRecord}.
Context {RS VS HS : Type} `{!ExchangeRepo RS ProofExchangeRecord ProofError} `{!PresentationVerifier VS} `{!PresentationProver HS}.
Abbreviation PXS := (ProofService RS VS HS).
Abbreviation pxs := (eff ProofError PXS).

(** [src/protocols/proofs/src/services/proof_service.rs:33-47] ProofExchangeService::new *)
Definition pxs_new (holder : HS) (verifier : VS) (repository : RS) : PXS := mkProofService repository verifier holder None.

(** [src/protocols/proofs/src/services/proof_service.rs:51-59] ProofExchangeService::with_event_bus *)
Definition pxs_with_event_bus (s : PXS) : PXS := mkProofService (pxs_repository s) (pxs_verifier s) (pxs_holder s) (Some []).

Definition on_verifier {A} (err : string → ProofError) (m : eff AnonCredsError VS A) : pxs A :=
  eff_zoom pxs_verifier (λ v s, mkProofService (pxs_repository s) v (pxs_holder s) (pxs_event_bus s)) (λ e, err (ace_to_string e)) m.
Definition on_prover {A} (m : eff AnonCredsError HS A) : pxs A :=
  eff_zoom pxs_holder (λ h s, mkProofService (pxs_repository s) (pxs_verifier s) h (pxs_event_bus s)) (λ e, PeAnonCreds (ace_to_string e)) m.

(** [?] on a serializer's result, and on an option. *)
Definition pe_serde {A} (r : outcome string A) : pxs A :=
  eff_lift (match r with Ok a => Ok a | Err e => Err (PeSerialization e) | Panic => Panic end).
Definition pe_ok_or {A} (e : ProofError) (o : option A) : pxs A :=
  match o with Some a => mret a | None => eff_throw e end.

(** A setter of the record, which reads the clock. *)
Definition stamped (f : Instant → ProofExchangeRecord → ProofExchangeRecord) (r : ProofExchangeRecord) : pxs ProofExchangeRecord :=
  now ← eff_world utc_now; mret (f now r).

(** [src/protocols/proofs/src/services/proof_service.rs:63-76] ProofExchangeService::emit_state_changed *)
Definition emit_proof_changed (record : ProofExchangeRecord) (previous_state : option ProofExchangeState) : pxs unit :=
  eff_modify (λ s, mkProofService (pxs_repository s) (pxs_verifier s) (pxs_holder s)
                     ((λ bus, bus ++ [mkProofChanged record previous_state]) <$> pxs_event_bus s)).

(** A record is stored under its changes and announced. *)
Definition put_proof (record : ProofExchangeRecord) (previous_state : ProofExchangeState) : pxs unit :=
  _ ← on_records (er_update record);
  emit_proof_changed record (Some previous_state).

(** A new record: the request, the connection; stored and announced. *)
Definition open_proof (role : ProofExchangeRole) (state : ProofExchangeState) (thread_id request_json : string) (connection_id : option string)
    : pxs ProofExchangeRecord :=
  record ← eff_world (px_new role state thread_id);
  record ← stamped (px_set_request request_json) record;
  record ← (match connection_id with Some c => stamped (px_set_connection_id c) record | None => mret record end);
  _ ← on_records (er_save record);
  _ ← emit_proof_changed record None;
  mret record.

(** The record of an exchange; its role and its state as required. *)
Definition get_proof (exchange_id : string) : pxs ProofExchangeRecord :=
  o ← on_records (er_find_by_id exchange_id); pe_ok_or (PeNotFound exchange_id) o.
Definition find_by_role_and_thread (role : ProofExchangeRole) (thread_id : string) : pxs (option ProofExchangeRecord) :=
  on_records (er_find (λ r, bool_decide (px_role r = role ∧ px_thread_id r = thread_id))).
Definition need_role (role : ProofExchangeRole) (r : ProofExchangeRecord) : pxs unit :=
  if decide (px_role r = role) then mret tt else eff_throw (PeInvalidRole role (px_role r)).
Definition need_state (state : ProofExchangeState) (r : ProofExchangeRecord) : pxs unit :=
  if decide (px_state r = state) then mret tt else eff_throw (PeInvalidState [state] (px_state r)).

(** ** Verifier *)

(** [src/protocols/proofs/src/services/proof_service.rs:96-144] ProofExchangeService::create_request *)
Definition create_request (name version : string) (requested_attributes : gmap string AttributeInfo)
    (requested_predicates : gmap string PredicateInfo) (connection_id : option string)
    : pxs (ProofExchangeRecord * RequestPresentationMessage) :=
  pres_request ← on_verifier PeAnonCreds (pv_create_request name version requested_attributes requested_predicates);
  pres_request_json ← pe_serde (sd_to_text pres_request);
  request_msg ← rpm_new pres_request_json;
  record ← open_proof Verifier PsRequestSent (rpm_id request_msg) pres_request_json connection_id;
  mret (record, request_msg).

(** [src/protocols/proofs/src/services/proof_service.rs:149-189] ProofExchangeService::process_presentation *)
Definition process_presentation (presentation_msg : PresentationMessage) : pxs ProofExchangeRecord :=
  o ← find_by_role_and_thread Verifier (prm_thread_id presentation_msg);
  record ← pe_ok_or (PeNotFound ("thread_id: " +:+ prm_thread_id presentation_msg +:+ " (verifier)")) o;
  _ ← need_state PsRequestSent record;
  record ← stamped (px_set_presentation (prm_json presentation_msg)) record;
  record ← stamped (px_update_state PsPresentationReceived) record;
  _ ← put_proof record PsRequestSent;
  mret record.

(** [src/protocols/proofs/src/services/proof_service.rs:195-253] ProofExchangeService::verify_presentation *)
Definition verify_presentation (exchange_id : string) : pxs bool :=
  record ← get_proof exchange_id;
  _ ← need_role Verifier record;
  _ ← need_state PsPresentationReceived record;
  pres_request_json ← pe_ok_or (PeProtocol "Missing presentation request") (px_request_json record);
  pres_request ← pe_serde (sd_from_text pres_request_json);
  presentation_json ← pe_ok_or (PeProtocol "Missing presentation") (px_presentation_json record);
  presentation ← pe_serde (sd_from_text presentation_json);
  verified ← on_verifier PeVerificationFailed (pv_verify presentation pres_request);
  record ← stamped (px_set_verified verified) record;
  record ← stamped (px_update_state PsDone) record;
  _ ← put_proof record PsPresentationReceived;
  mret verified.

(** [src/protocols/proofs/src/services/proof_service.rs:256-269] ProofExchangeService::get_revealed_attributes *)
Definition get_revealed_attributes (record : ProofExchangeRecord) : pxs (gmap string string) :=
  presentation_json ← pe_ok_or (PeProtocol "Missing presentation") (px_presentation_json record);
  presentation ← pe_serde (sd_from_text presentation_json);
  mret (extract_revealed_attributes presentation).

(** ** Prover *)

(** [src/protocols/proofs/src/services/proof_service.rs:278-308] ProofExchangeService::process_request *)
Definition process_request (request_msg : RequestPresentationMessage) (thread_id : string) (connection_id : option string)
    : pxs ProofExchangeRecord :=
  open_proof Prover PsRequestReceived thread_id (rpm_json request_msg) connection_id.

(** [src/protocols/proofs/src/services/proof_service.rs:319-382] ProofExchangeService::accept_request *)
Definition accept_proof_request (exchange_id : string) (credential_map : gmap string (string * bool))
    (self_attested : option (gmap string string)) : pxs (ProofExchangeRecord * PresentationMessage) :=
  record ← get_proof exchange_id;
  _ ← need_role Prover record;
  _ ← need_state PsRequestReceived record;
  pres_request_json ← pe_ok_or (PeProtocol "Missing presentation request") (px_request_json record);
  pres_request ← pe_serde (sd_from_text pres_request_json);
  presentation ← on_prover (pp_create_presentation pres_request credential_map self_attested);
  presentation_json ← pe_serde (sd_to_text presentation);
  presentation_msg ← prm_new (px_thread_id record) presentation_json;
  record ← stamped (px_set_presentation presentation_json) record;
  record ← stamped (px_update_state PsPresentationSent) record;
  _ ← put_proof record PsRequestReceived;
  mret (record, presentation_msg).

(** [src/protocols/proofs/src/services/proof_service.rs:387-435] ProofExchangeService::process_ack *)
Definition process_proof_ack (ack : AckMessage) : pxs ProofExchangeRecord :=
  o ← find_by_role_and_thread Prover (am_thread_id ack);
  record ← pe_ok_or (PeNotFound ("thread_id: " +:+ am_thread_id ack +:+ " (prover)")) o;
  _ ← need_state PsPresentationSent record;
  match am_status ack with
  | AckPending => mret record
  | AckOk =>
      record ← stamped (px_set_verified true) record;
      record ← stamped (px_update_state PsDone) record;
      _ ← put_proof record PsPresentationSent;
      mret record
  | AckFail =>
      record ← stamped (px_set_verified false) record;
      record ← stamped (px_set_error "Verifier rejected the presentation") record;
      _ ← put_proof record PsPresentationSent;
      mret record
  end.

(** ** Queries and the rest *)

(** [src/protocols/proofs/src/services/proof_service.rs:442-444] ProofExchangeService::get_by_id *)
Definition pxs_get_by_id (id : string) : pxs (option ProofExchangeRecord) := on_records (er_find_by_id id).
(** [src/protocols/proofs/src/services/proof_service.rs:447-449] ProofExchangeService::get_by_thread_id *)
Definition pxs_get_by_thread_id (thread_id : string) : pxs (option ProofExchangeRecord) :=
  on_records (er_find (λ r, bool_decide (px_thread_id r = thread_id))).
(** [src/protocols/proofs/src/services/proof_service.rs:452-454] ProofExchangeService::get_all *)
Definition pxs_get_all : pxs (list ProofExchangeRecord) := on_records er_get_all.
(** [src/protocols/proofs/src/services/proof_service.rs:457-462] ProofExchangeService::get_by_connection_id *)
Definition pxs_get_by_connection_id (connection_id : string) : pxs (list ProofExchangeRecord) :=
  on_records (er_filter (λ r, bool_decide (px_connection_id r = Some connection_id))).
(** [src/protocols/proofs/src/services/proof_service.rs:465-467] ProofExchangeService::delete *)
Definition pxs_delete (id : string) : pxs unit := on_records (er_delete id).

(** [src/protocols/proofs/src/services/proof_service.rs:471-488] ProofExchangeService::abandon_exchange *)
Definition abandon_proof (exchange_id reason : string) : pxs unit :=
  record ← get_proof exchange_id;
  if ps_is_terminal (px_state record) then mret tt
  else
    record' ← stamped (px_set_error reason) record;
    put_proof record' (px_state record).

(** [src/protocols/proofs/src/services/proof_service.rs:494-504] ProofExchangeService::find_credentials_for_request *)
Definition find_credentials_for_request (presentation_request_json : string) : pxs (gmap string (list string)) :=
  pres_request ← pe_serde (sd_from_text presentation_request_json);
  on_prover (pp_find_credentials pres_request).

(** [src/protocols/proofs/src/services/proof_service.rs:510-526] ProofExchangeService::find_credentials_for_exchange *)
Definition find_credentials_for_exchange (exchange_id : string) : pxs (gmap string (list string)) :=
  record ← get_proof exchange_id;
  pres_request_json ← pe_ok_or (PeProtocol "Missing presentation request") (px_request_json record);
  find_credentials_for_request pres_request_json.

(** * Handlers *)

Abbreviation hd := (eff MessageHandlerError PXS).
Abbreviation handler := (InboundMessage → hd (option OutboundMessage)).

(** A call of the service; its error is a failed processing. *)
Definition processed {A} (m : pxs A) : hd A := λ s w,
  let '(r, s, w) := m s w in
  (match r with Ok a => Ok a | Err e => Err (ProcessingFailed (pe_to_string e)) | Panic => Panic end, s, w).
Definition read_message {A} (r : outcome string A) : hd A :=
  eff_lift (match r with Ok a => Ok a | Err e => Err (InvalidMessage e) | Panic => Panic end).

(** [src/protocols/proofs/src/handlers/request_presentation_handler.rs:40-80] RequestPresentationHandler::handle *)
Definition proof_request_handle : handler := λ inbound,
  request ← read_message (rpm_from_didcomm (in_message inbound));
  _ ← processed (process_request request (msg_thread_id (in_message inbound)) (ctx_connection_id (in_context inbound)));
  mret None.

(** [src/protocols/proofs/src/handlers/presentation_handler.rs:46-117] PresentationHandler::handle *)
Definition presentation_handle (auto_verify : bool) : handler := λ inbound,
  presentation ← read_message (prm_from_didcomm (in_message inbound));
  record ← processed (process_presentation presentation);
  if negb auto_verify then mret None
  else
    verified ← processed (verify_presentation (px_id record));
    ack ← proof_ack_new (prm_thread_id presentation) (if (verified : bool) then AckOk else AckFail);
    mret ((λ from, mkOutbound (proof_ack_to_didcomm ack) from (default "" (ctx_to (in_context inbound)))
                     (ctx_connection_id (in_context inbound))) <$> ctx_from (in_context inbound)).

(** [src/protocols/proofs/src/handlers/ack_handler.rs:39-72] AckHandler::handle *)
Definition proof_ack_handle : handler := λ inbound,
  ack ← read_message (proof_ack_from_didcomm (in_message inbound));
  _ ← processed (process_proof_ack ack);
  mret None.

(** [src/protocols/proofs/src/handlers/problem_report_handler.rs:30-63] ProblemReportHandler::handle *)
Definition proof_problem_handle : handler := λ inbound,
  msg ← read_message (match proof_problem_from_didcomm (in_message inbound) with
                      | Ok m => Ok m | Err e => Err (pe_to_string e) | Panic => Panic end);
  record ← processed (pxs_get_by_thread_id (pr_thread_id msg));
  match record with
  | None => mret None
  | Some record =>
      _ ← processed (abandon_proof (px_id record) (pd_code (pr_description msg) +:+ ": " +:+ pd_en (pr_description msg)));
      mret None
  end.

(** [src/agent/src/modules/anoncreds_module.rs:168-195] AnonCredsModule::create_handlers (the handlers of present-proof by message type) *)
Definition proof_handler (auto_verify : bool) (msg_type : string) : option handler :=
  if decide (msg_type = PROOF_REQUEST_TYPE) then Some proof_request_handle
  else if decide (msg_type = PRESENTATION_TYPE) then Some (presentation_handle auto_verify)
  else if decide (msg_type = PROOF_ACK_TYPE) then Some proof_ack_handle
  else None.
End service.
