(* ===== verification/ProofProps.v ===== *)
(** The present-proof exchange as a state machine, the proof that the service and its handlers
    run it, and what follows for what an agent calls verified.

    A step carries its evidence: what the AnonCreds verifier or prover answered, and the
    message that was heard. *)
From S2P Require Import Prelude AjnaTypes SerdeJson Storage Didcomm RecordRepo RecordSpec AnonCreds Issuance IssuanceMessages Proofs ProofService.

(** What an agent does with the protocol: a message goes to its handler, with automatic
    verification of presentations or without, or a method of the service is called. *)
Inductive proof_call `{AnoncredsLib} :=
  | PcMessage (auto_verify : bool) (m : InboundMessage)
  | PcProblemReport (m : InboundMessage)
  | PcCreateRequest (name version : string) (requested_attributes : gmap string AttributeInfo)
      (requested_predicates : gmap string PredicateInfo) (connection_id : option string)
  | PcAccept (exchange_id : string) (credential_map : gmap string (string * bool)) (self_attested : option (gmap string string))
  | PcVerify (exchange_id : string)
  | PcAbandon (exchange_id reason : string)
  | PcDelete (exchange_id : string).

Section spec.
Context `{AnoncredsLib} `{HashOrder} `{JsonText} `{Base64Engine} `{UuidText} `{Serde ProofExchangeRecord}.
Context {RS VS HS : Type} `{!ExchangeRepo RS ProofExchangeRecord ProofError} `{!PresentationVerifier VS} `{!PresentationProver HS}.
Abbreviation Rec := ProofExchangeRecord.

(** * The machine *)

(** The call that makes the steps: a step carries what it takes of it. *)
Context (call : proof_call).

(** The call brings a message of a type. *)
Definition brings (auto : bool) (ty : string) (i : InboundMessage) : Prop := call = PcMessage auto i ∧ msg_type (in_message i) = ty.

(** A request that the agent's verifier makes, and its answer for a presentation. *)
Definition own_request (rj : string) : Prop :=
  ∃ name version attrs preds conn pr, call = PcCreateRequest name version attrs preds conn ∧
    answers (pv_create_request (G:=VS) name version attrs preds) pr ∧ sd_to_text pr = Ok rj.
Definition checked (rj pj : string) (b : bool) : Prop :=
  ∃ pr p, sd_from_text rj = Ok pr ∧ sd_from_text pj = Ok p ∧ answers (pv_verify (G:=VS) p pr) b.
(** A presentation that the agent's prover makes for a request. *)
Definition presented (id rj pj : string) : Prop :=
  ∃ pr cm sa p, call = PcAccept id cm sa ∧ sd_from_text rj = Ok pr ∧ answers (pp_create_presentation (HD:=HS) pr cm sa) p ∧ sd_to_text p = Ok pj.
(** What is heard on a thread. *)
Definition heard_request (thread_id rj : string) : Prop :=
  ∃ auto i p, brings auto PROOF_REQUEST_TYPE i ∧ rpm_from_didcomm (in_message i) = Ok p ∧ msg_thread_id (in_message i) = thread_id ∧ rpm_json p = rj.
Definition heard_presentation (thread_id pj : string) : Prop :=
  ∃ auto i p, brings auto PRESENTATION_TYPE i ∧ prm_from_didcomm (in_message i) = Ok p ∧ prm_thread_id p = thread_id ∧ prm_json p = pj.
Definition heard_ack (thread_id : string) (status : AckStatus) : Prop :=
  ∃ auto i a, brings auto PROOF_ACK_TYPE i ∧ proof_ack_from_didcomm (in_message i) = Ok a ∧ am_thread_id a = thread_id ∧ am_status a = status.
(** A verification is asked for, by a call or by a presentation that is verified as it comes. *)
Definition asks_verdict (id : string) : Prop := call = PcVerify id ∨ ∃ i, brings true PRESENTATION_TYPE i.
(** The exchange is given up, by a call or by the other side. *)
Definition gives_up (x : Rec) : Prop :=
  (∃ reason, call = PcAbandon (px_id x) reason) ∨
  ∃ i m, call = PcProblemReport i ∧ proof_problem_from_didcomm (in_message i) = Ok m ∧ pr_thread_id m = px_thread_id x.

Inductive px_born : Rec → Prop :=
  | born_asked x rj : px_role x = Verifier → px_state x = PsRequestSent → px_request_json x = Some rj → own_request rj →
      px_presentation_json x = None → px_verified x = None → px_born x
  | born_questioned x rj : px_role x = Prover → px_state x = PsRequestReceived → px_request_json x = Some rj →
      heard_request (px_thread_id x) rj → px_presentation_json x = None → px_verified x = None → px_born x.

Inductive px_step : Rec → Rec → Prop :=
  | step_present x rj pj t1 t2 : px_role x = Prover → px_state x = PsRequestReceived → px_request_json x = Some rj → presented (px_id x) rj pj →
      px_step x (px_update_state PsPresentationSent t2 (px_set_presentation pj t1 x))
  | step_presented x pj t1 t2 : px_role x = Verifier → px_state x = PsRequestSent → heard_presentation (px_thread_id x) pj →
      px_step x (px_update_state PsPresentationReceived t2 (px_set_presentation pj t1 x))
  | step_verified x rj pj b t1 t2 : px_role x = Verifier → px_state x = PsPresentationReceived → px_request_json x = Some rj →
      px_presentation_json x = Some pj → asks_verdict (px_id x) → checked rj pj b →
      px_step x (px_update_state PsDone t2 (px_set_verified b t1 x))
  | step_acked x t1 t2 : px_role x = Prover → px_state x = PsPresentationSent → heard_ack (px_thread_id x) AckOk →
      px_step x (px_update_state PsDone t2 (px_set_verified true t1 x))
  | step_rejected x e t1 t2 : px_role x = Prover → px_state x = PsPresentationSent → heard_ack (px_thread_id x) AckFail →
      px_step x (px_set_error e t2 (px_set_verified false t1 x))
  | step_given_up x e t : ps_is_terminal (px_state x) = false → gives_up x → px_step x (px_set_error e t x).

(** A record leaves by the call that deletes it. *)
Definition px_gone (x : Rec) : Prop := call = PcDelete (px_id x).

(** What the call may do to the record under an id. *)
Definition px_change : option Rec → option Rec → Prop := record_change px_born px_step px_gone.
#[export] Instance px_change_refl : Reflexive px_change.
Proof. apply record_change_refl. Qed.

(** * The calls *)

Context `{!ExchangeRepoLaws RS ProofExchangeRecord ProofError}.
Abbreviation PXS := (ProofService RS VS HS).
Abbreviation pxs := (eff ProofError PXS).
Abbreviation steps m := (∀ v, from_view (T:=PXS) v m (λ _, True) px_change).

Lemma quiet_pe_serde {A} v (r : outcome string A) : quiet (T:=PXS) v (pe_serde r) (λ a, r = Ok a).
Proof. eapply from_conseq; [apply quiet_lift| |done]. intros a Ha. destruct r; naive_solver. Qed.
Lemma quiet_pe_ok_or {A} v e (o : option A) : quiet (T:=PXS) v (pe_ok_or e o) (λ a, o = Some a).
Proof. destruct o; [|apply quiet_throw]. eapply from_conseq; [apply quiet_ret| |done]. by intros ? ->. Qed.
Lemma quiet_verifier {A} v err (m : eff AnonCredsError VS A) : quiet (T:=PXS) v (on_verifier err m) (answers m).
Proof. by apply quiet_zoom. Qed.
Lemma quiet_prover {A} v (m : eff AnonCredsError HS A) : quiet (T:=PXS) v (on_prover m) (answers m).
Proof. by apply quiet_zoom. Qed.
Lemma quiet_stamped v f r : quiet (T:=PXS) v (stamped f r) (λ r', ∃ t, r' = f t r).
Proof.
  eapply from_bind; [typeclasses eauto|apply quiet_world|]. intros now _. eapply from_conseq; [apply quiet_ret| |done]. intros ? ->. eauto.
Qed.
Lemma quiet_emit_proof v r p : quiet (T:=PXS) v (emit_proof_changed r p) (λ _, True).
Proof. by apply quiet_modify. Qed.
Lemma quiet_get_proof v i : quiet (T:=PXS) v (get_proof i) (λ x, v i = Some x ∧ px_id x = i).
Proof.
  apply quiet_keyed. intros Hk. quietly quiet_find_by_id. intros o ->.
  eapply from_conseq; [apply quiet_pe_ok_or| |done]. intros x Hx. split; [done|]. by apply (Hk i x).
Qed.
Lemma quiet_find_proof v ro t :
  quiet (T:=PXS) v (find_by_role_and_thread ro t)
    (λ o, ∀ x, o = Some x → px_role x = ro ∧ px_thread_id x = t ∧ v (px_id x) = Some x).
Proof.
  eapply from_conseq; [apply quiet_find| |done]. intros o Ho x ->. destruct Ho as [[Hr Ht]%bool_decide_eq_true Hv]. done.
Qed.
Lemma quiet_need_role v ro r : quiet (T:=PXS) v (need_role ro r) (λ _, px_role r = ro).
Proof. unfold need_role. case_decide; [|apply quiet_throw]. by eapply from_conseq; [apply quiet_ret| |]. Qed.
Lemma quiet_need_state v st r : quiet (T:=PXS) v (need_state st r) (λ _, px_state r = st).
Proof. unfold need_state. case_decide; [|apply quiet_throw]. by eapply from_conseq; [apply quiet_ret| |]. Qed.

Lemma from_put v x y p :
  v (px_id x) = Some x → px_id y = px_id x → px_step x y → from_view (T:=PXS) v (put_proof y p) (λ _, True) px_change.
Proof.
  intros Hx Hid Hstep. eapply from_bind_quiet; [|intros [] v' _; apply quiet_emit_proof].
  apply from_update. cbn. rewrite Hid, Hx. by intros ? [= <-].
Qed.
(** A record is stored and the method answers. *)
Lemma from_put_ret {A} v x y p (a : A) :
  v (px_id x) = Some x → px_id y = px_id x → px_step x y →
  from_view (T:=PXS) v (_ ← put_proof y p; mret a) (λ _, True) px_change.
Proof.
  intros Hx Hid Hstep. eapply from_bind_quiet; [by eapply from_put|]. intros [] v' _. eapply from_conseq; [apply quiet_ret|done|done].
Qed.

Lemma born_on_connection x c t : px_born x → px_born (px_set_connection_id c t x).
Proof. intros Hx. inversion Hx; [by eapply born_asked|by eapply born_questioned]. Qed.
Lemma from_open_proof v role st t rj conn :
  (∀ w t1, px_born (px_set_request rj t1 (px_new role st t w).1)) →
  from_view (T:=PXS) v (open_proof role st t rj conn) (λ _, True) px_change.
Proof.
  intros Hborn. quietly quiet_world. intros r (w & w' & Hr). quietly quiet_stamped. intros r1 (t1 & ->).
  assert (Hb : px_born (px_set_request rj t1 r)) by (specialize (Hborn w t1); by rewrite Hr in Hborn).
  apply (from_bind v _ _ px_born); [typeclasses eauto| |].
  - destruct conn as [c|]; [|eapply from_conseq; [apply quiet_ret|by intros ? ->|done]].
    eapply from_conseq; [apply quiet_stamped| |done]. intros ? (t2 & ->). by apply born_on_connection.
  - intros x Hx. eapply from_bind_quiet; [by apply from_save|]. intros [] v' _. quietly quiet_emit_proof. intros [] _.
    eapply from_conseq; [apply quiet_ret|done|done].
Qed.

(** ** Methods *)

Lemma create_request_steps n ver attrs preds conn :
  call = PcCreateRequest n ver attrs preds conn → steps (create_request n ver attrs preds conn).
Proof.
  intros Hc v. quietly quiet_verifier. intros pr Hpr. quietly quiet_pe_serde. intros rj Hrj.
  quietly (quiet_any v (rpm_new rj) (λ _ _, eq_refl)). intros m _.
  eapply from_bind_quiet; [|intros ? ? _; eapply from_conseq; [apply quiet_ret|done|done]].
  apply from_open_proof. intros w t1. eapply born_asked; try done. by exists n, ver, attrs, preds, conn, pr.
Qed.

Lemma process_request_steps auto i rm conn :
  brings auto PROOF_REQUEST_TYPE i → rpm_from_didcomm (in_message i) = Ok rm → steps (process_request rm (msg_thread_id (in_message i)) conn).
Proof. intros Hm Hrm v. apply from_open_proof. intros w t1. eapply born_questioned; try done. by exists auto, i, rm. Qed.

Lemma process_presentation_steps auto i p :
  brings auto PRESENTATION_TYPE i → prm_from_didcomm (in_message i) = Ok p → steps (process_presentation p).
Proof.
  intros Hm Hp v. quietly quiet_find_proof. intros o Ho. quietly quiet_pe_ok_or. intros x ->. destruct (Ho x eq_refl) as (Hr & Ht & Hx).
  quietly quiet_need_state. intros [] Hst. quietly quiet_stamped. intros ? (t1 & ->). quietly quiet_stamped. intros ? (t2 & ->).
  eapply from_put_ret; [exact Hx|done|]. apply step_presented; [done..|]. by exists auto, i, p.
Qed.

Lemma verify_presentation_steps i : asks_verdict i → steps (verify_presentation i).
Proof.
  intros Hc v. quietly quiet_get_proof. intros x [Hx <-]. quietly quiet_need_role. intros [] Hr. quietly quiet_need_state. intros [] Hst.
  quietly quiet_pe_ok_or. intros rj Hrj. quietly quiet_pe_serde. intros pr Hpr. quietly quiet_pe_ok_or. intros pj Hpj.
  quietly quiet_pe_serde. intros p Hp. quietly quiet_verifier. intros b Hb. quietly quiet_stamped. intros ? (t1 & ->).
  quietly quiet_stamped. intros ? (t2 & ->). eapply from_put_ret; [exact Hx|done|]. eapply step_verified; eauto. by exists pr, p.
Qed.

Lemma accept_proof_request_steps i cm sa : call = PcAccept i cm sa → steps (accept_proof_request i cm sa).
Proof.
  intros Hc v. quietly quiet_get_proof. intros x [Hx <-]. quietly quiet_need_role. intros [] Hr. quietly quiet_need_state. intros [] Hst.
  quietly quiet_pe_ok_or. intros rj Hrj. quietly quiet_pe_serde. intros pr Hpr. quietly quiet_prover. intros p Hp.
  quietly quiet_pe_serde. intros pj Hpj. quietly (quiet_any v (prm_new (px_thread_id x) pj) (λ _ _, eq_refl)). intros m _.
  quietly quiet_stamped. intros ? (t1 & ->). quietly quiet_stamped. intros ? (t2 & ->).
  eapply from_put_ret; [exact Hx|done|]. eapply step_present; eauto. by exists pr, cm, sa, p.
Qed.

Lemma process_proof_ack_steps auto i a :
  brings auto PROOF_ACK_TYPE i → proof_ack_from_didcomm (in_message i) = Ok a → steps (process_proof_ack a).
Proof.
  intros Hm Ha v. quietly quiet_find_proof. intros o Ho. quietly quiet_pe_ok_or. intros x ->. destruct (Ho x eq_refl) as (Hr & Ht & Hx).
  quietly quiet_need_state. intros [] Hst. destruct (am_status a) eqn:Hs.
  1,2: quietly quiet_stamped; intros ? (t1 & ->); quietly quiet_stamped; intros ? (t2 & ->); eapply from_put_ret; [exact Hx|done|];
    constructor; [done..|]; by exists auto, i, a.
  by apply quiet_from; [typeclasses eauto|]; eapply from_conseq; [apply quiet_ret|done|done].
Qed.

Lemma from_abandon v i reason : (∀ x, v i = Some x → px_id x = i → gives_up x) → from_view (T:=PXS) v (abandon_proof i reason) (λ _, True) px_change.
Proof.
  intros Hc. quietly quiet_get_proof. intros x [Hx <-]. destruct (ps_is_terminal (px_state x)) eqn:Ht.
  - apply quiet_from; [typeclasses eauto|]. eapply from_conseq; [apply quiet_ret|done|done].
  - quietly quiet_stamped. intros ? (t1 & ->). eapply from_put; [exact Hx|done|]. apply step_given_up; [done|by apply Hc].
Qed.
Lemma from_keyed v (m : pxs unit) : ((∀ i x, v i = Some x → px_id x = i) → from_view (T:=PXS) v m (λ _, True) px_change) →
  from_view (T:=PXS) v m (λ _, True) px_change.
Proof.
  intros Hm s w Hs Hv. apply Hm; [|done|done]. intros i x Hx. rewrite <-Hv in Hx. exact (er_keyed (repo_of s) i x Hs Hx).
Qed.
Lemma pxs_delete_steps i : call = PcDelete i → steps (pxs_delete i).
Proof. intros Hc v. apply from_keyed. intros Hk. apply from_delete. intros x Hx. unfold px_gone. by rewrite (Hk i x Hx). Qed.
End spec.

(** * Runs of an agent *)

Section runs.
Context `{AnoncredsLib} `{HashOrder} `{JsonText} `{Base64Engine} `{UuidText} `{Serde ProofExchangeRecord}.
Context {RS VS HS : Type} `{!ExchangeRepo RS ProofExchangeRecord ProofError} `{!PresentationVerifier VS} `{!PresentationProver HS}.
Context `{!ExchangeRepoLaws RS ProofExchangeRecord ProofError}.
Abbreviation PXS := (ProofService RS VS HS).
Abbreviation hd := (eff MessageHandlerError PXS).
Implicit Types (x y : ProofExchangeRecord) (c : proof_call) (past : list proof_call).
Abbreviation follows c m := (paths (T:=PXS) (px_born (VS:=VS) c) (px_step (VS:=VS) (HS:=HS) c) (px_gone c) m).

(** ** Handlers *)

Lemma processed_paths {A} c (m : eff ProofError PXS A) : follows c m → follows c (processed m).
Proof. intros Hm s w Hs. specialize (Hm s w Hs). unfold processed. by destruct (m s w) as [[[a|e|] s'] w']. Qed.
Lemma from_processed {A} v (m : eff ProofError PXS A) F Q : from_view (T:=PXS) v m F Q → from_view (T:=PXS) v (processed m) F Q.
Proof.
  intros Hm s w Hs Hv. specialize (Hm s w Hs Hv). unfold processed. destruct (m s w) as [[[a|e|] s'] w']; destruct Hm as (? & ? & HF);
    (split; [done|split; [done|]]); [|done..]. intros b [= <-]. by apply HF.
Qed.
Lemma read_message_paths {A B} c (r : outcome string A) (k : A → hd B) :
  (∀ a, r = Ok a → follows c (k a)) → follows c (a ← read_message r; k a).
Proof. intros Hk. unfold read_message. destruct r as [a|e|]; [by apply Hk|by apply paths_same..]. Qed.

Lemma proof_request_handle_paths c auto m : brings c auto PROOF_REQUEST_TYPE m → follows c (proof_request_handle m).
Proof.
  intros Hm. apply read_message_paths. intros rm Hrm. apply paths_bind; [|intros ?; by apply paths_same].
  by eapply processed_paths, paths_steps, process_request_steps.
Qed.
Lemma presentation_handle_paths c auto m : brings c auto PRESENTATION_TYPE m → follows c (presentation_handle auto m).
Proof.
  intros Hm. apply read_message_paths. intros p Hp. apply paths_bind.
  { by eapply processed_paths, paths_steps, process_presentation_steps. }
  intros x. destruct auto; cbn [negb]; [|by apply paths_same].
  apply paths_bind; [|intros b; by apply paths_same]. apply processed_paths, paths_steps, verify_presentation_steps. right. by exists m.
Qed.
Lemma proof_ack_handle_paths c auto m : brings c auto PROOF_ACK_TYPE m → follows c (proof_ack_handle m).
Proof.
  intros Hm. apply read_message_paths. intros a Ha. apply paths_bind; [|intros ?; by apply paths_same].
  by eapply processed_paths, paths_steps, process_proof_ack_steps.
Qed.
Lemma proof_problem_handle_paths m : follows (PcProblemReport m) (proof_problem_handle m).
Proof.
  apply read_message_paths. intros pr Hpr. apply paths_steps. intros v.
  eapply from_bind; [typeclasses eauto|apply from_processed, quiet_find|]. cbv beta. intros [x|] Hx.
  2:{ apply quiet_from; [typeclasses eauto|]. eapply from_conseq; [apply quiet_ret|done|done]. }
  destruct Hx as [Ht%bool_decide_eq_true Hx].
  eapply from_bind_quiet; [|intros ? ? _; eapply from_conseq; [apply quiet_ret|done|done]]. apply from_processed, from_abandon.
  intros x' Hx' _. change (v (px_id x) = Some x) in Hx. assert (x' = x) as -> by congruence. right. exists m, pr. split; [done|].
  split; [|done]. destruct (proof_problem_from_didcomm (in_message m)) as [?|?|]; [congruence|done..].
Qed.

(** ** Runs *)

Definition proof_step (c : proof_call) : hd (option OutboundMessage) :=
  match c with
  | PcMessage auto m => match proof_handler auto (msg_type (in_message m)) with Some h => h m | None => mret None end
  | PcProblemReport m => proof_problem_handle m
  | PcCreateRequest n v attrs preds c => _ ← processed (create_request n v attrs preds c); mret None
  | PcAccept i cm sa => _ ← processed (accept_proof_request i cm sa); mret None
  | PcVerify i => _ ← processed (verify_presentation i); mret None
  | PcAbandon i r => _ ← processed (abandon_proof i r); mret None
  | PcDelete i => _ ← processed (pxs_delete i); mret None
  end.

(** A run: the calls one after the other, whatever they answer. *)
Fixpoint proof_run (calls : list proof_call) (s : PXS) (w : World) : PXS * World :=
  match calls with
  | [] => (s, w)
  | c :: calls => let '(_, s, w) := proof_step c s w in proof_run calls s w
  end.
(** What becomes of the record under an id: each call takes it along steps of its own. *)
Fixpoint px_path (calls : list proof_call) (o o' : option ProofExchangeRecord) : Prop :=
  match calls with
  | [] => o' = o
  | c :: calls => ∃ o1, rtc (px_change (VS:=VS) (HS:=HS) c) o o1 ∧ px_path calls o1 o'
  end.

Lemma proof_step_paths c : follows c (proof_step c).
Proof.
  destruct c as [auto m|m|n ver attrs preds conn|i cm sa|i|i r|i]; cbn [proof_step];
    try (apply paths_bind; [|intros ?; by apply paths_same]; apply processed_paths, paths_steps).
  - unfold proof_handler. repeat case_decide.
    + by apply (proof_request_handle_paths _ auto).
    + by apply presentation_handle_paths.
    + by apply (proof_ack_handle_paths _ auto).
    + by apply paths_same.
  - apply proof_problem_handle_paths.
  - by apply create_request_steps.
  - by apply accept_proof_request_steps.
  - apply verify_presentation_steps. by left.
  - intros v. apply from_abandon. intros x _ <-. left. by exists r.
  - by apply pxs_delete_steps.
Qed.

Lemma proof_run_path calls s w :
  rs_ok s → rs_ok (proof_run calls s w).1 ∧ ∀ id, px_path calls (rs_view s id) (rs_view (proof_run calls s w).1 id).
Proof.
  revert s w. induction calls as [|c calls IH]; intros s w Hs; cbn [proof_run]; [by split|].
  destruct (proof_step_paths c s w Hs) as [Hs1 Hv1]. destruct (proof_step c s w) as [[r s1] w1]. cbn in Hs1, Hv1.
  destruct (IH s1 w1 Hs1) as [Hs' Hv']. split; [done|]. intros id. exists (rs_view s1 id). by split; [apply Hv1|].
Qed.

(** ** The records of an agent *)

(** What the record of a verifier says, and that of a prover, after the calls [past]. *)
Record verifier_wf past x : Prop := {
  vw_state : px_state x ∈ [PsRequestSent; PsPresentationReceived; PsDone; PsAbandoned];
  vw_request : ∃ rj c, px_request_json x = Some rj ∧ c ∈ past ∧ own_request (VS:=VS) c rj;
  vw_presentation pj : px_presentation_json x = Some pj → ∃ c, c ∈ past ∧ heard_presentation c (px_thread_id x) pj;
  vw_received : px_state x = PsPresentationReceived → is_Some (px_presentation_json x);
  vw_verdict : px_state x = PsDone ↔ is_Some (px_verified x);
  vw_verified b : px_verified x = Some b →
    ∃ rj pj, px_request_json x = Some rj ∧ px_presentation_json x = Some pj ∧ checked (VS:=VS) rj pj b
}.
(** The presentation that the record holds was made by one of the calls, for its request. *)
Definition made_by past x pj : Prop := ∃ rj c, px_request_json x = Some rj ∧ c ∈ past ∧ presented (HS:=HS) c (px_id x) rj pj.
(** The presentation was made, and at a later call an ack was heard. *)
Definition acked_after past x (status : AckStatus) : Prop :=
  ∃ before c after pj, past = before ++ c :: after ∧ heard_ack c (px_thread_id x) status ∧
    px_presentation_json x = Some pj ∧ made_by before x pj.
Record prover_wf past x : Prop := {
  pw_state : px_state x ∈ [PsRequestReceived; PsPresentationSent; PsDone; PsAbandoned];
  pw_request : ∃ rj c, px_request_json x = Some rj ∧ c ∈ past ∧ heard_request c (px_thread_id x) rj;
  pw_presentation pj : px_presentation_json x = Some pj → made_by past x pj;
  pw_sent : px_state x = PsPresentationSent → is_Some (px_presentation_json x);
  pw_done : px_state x = PsDone ↔ px_verified x = Some true;
  pw_rejected : px_verified x = Some false → px_state x = PsAbandoned;
  pw_ack b : px_verified x = Some b → acked_after past x (if b then AckOk else AckFail)
}.
Definition px_wf past x : Prop :=
  match px_role x with Verifier => verifier_wf past x | Prover => prover_wf past x end.

Lemma made_by_mono past past' x pj : past ⊆ past' → made_by past x pj → made_by past' x pj.
Proof. intros Hsub (rj & c & ? & Hc & ?). exists rj, c. split_and!; [done|by apply Hsub|done]. Qed.
Lemma acked_mono past c x st : acked_after past x st → acked_after (past ++ [c]) x st.
Proof.
  intros (b & c' & a & pj & -> & Hh & Hpj & Hm). exists b, c', (a ++ [c]), pj. by rewrite <-app_assoc.
Qed.
Lemma px_wf_mono past c x : px_wf past x → px_wf (past ++ [c]) x.
Proof.
  assert (Hin : ∀ d, d ∈ past → d ∈ past ++ [c]) by set_solver. unfold px_wf. destruct (px_role x).
  - intros [Hs (rj & d & ? & ? & ?) Hp ? ? ? Ha]. split; [done|exists rj, d; split_and!; auto| |done..|].
    + intros pj Hpj. eapply made_by_mono; [exact Hin|by apply Hp].
    + intros b Hb. by apply acked_mono, Ha.
  - intros [Hs (rj & d & ? & ? & ?) Hp ? ? ?]. split; [done|exists rj, d; split_and!; auto| |done..].
    intros pj Hpj. destruct (Hp pj Hpj) as (d' & ? & ?). exists d'. auto.
Qed.

Lemma px_born_wf past c x : px_born (VS:=VS) c x → px_wf (past ++ [c]) x.
Proof.
  assert (Hc : c ∈ past ++ [c]) by set_solver.
  unfold px_wf. destruct 1 as [x rj Hr Hst Hq Ho Hp Hv|x rj Hr Hst Hq Ho Hp Hv]; rewrite Hr;
    constructor; rewrite ?Hst, ?Hp, ?Hv; try set_solver; try done; eauto 10; try (split; [done|by intros []]).
Qed.

(** A verdict that is out is out of the way of the other states. *)
Lemma verifier_undecided past x : verifier_wf past x → px_state x ≠ PsDone → px_verified x = None.
Proof. intros Hx Hst. destruct (px_verified x) eqn:Hv; [|done]. destruct Hst. apply (vw_verdict _ _ Hx). by rewrite Hv. Qed.
Lemma prover_undecided past x : prover_wf past x → px_state x ≠ PsDone → px_state x ≠ PsAbandoned → px_verified x = None.
Proof.
  intros Hx Hd Ha. destruct (px_verified x) as [[]|] eqn:Hv; [|by destruct Ha; apply (pw_rejected _ _ Hx)|done].
  destruct Hd. by apply (pw_done _ _ Hx).
Qed.
(** A message does not make a presentation: it was made before. *)
Lemma ack_after past c x st :
  prover_wf (past ++ [c]) x → px_state x = PsPresentationSent → heard_ack c (px_thread_id x) st → acked_after (past ++ [c]) x st.
Proof.
  intros Hx Hst Ha. destruct (pw_sent _ _ Hx Hst) as [pj Hpj]. exists past, c, [], pj. split_and!; [done..|].
  destruct (pw_presentation _ _ Hx pj Hpj) as (rj & d & Hrj & Hd & Hpr). exists rj, d. split_and!; [done| |done].
  apply elem_of_app in Hd as [Hd|Hd%list_elem_of_singleton]; [done|subst d].
  destruct Ha as (auto & i & a & [Hc _] & _). destruct Hpr as (? & ? & ? & ? & Hc' & _). congruence.
Qed.

(** The fields that a step left, and the states that cannot be. *)
Ltac px_fields := constructor; cbn; repeat match goal with H : px_verified _ = None |- _ => rewrite !H in *; clear H end; try done; try set_solver; try (split; [done|by intros []]); try (by intros [|[]]).

Lemma px_step_wf past c x y : px_step (VS:=VS) (HS:=HS) c x y → px_wf (past ++ [c]) x → px_wf (past ++ [c]) y.
Proof.
  assert (Hin : c ∈ past ++ [c]) by set_solver.
  unfold px_wf. destruct 1 as [x rj pj t1 t2 Hr Hst Hq Hm|x pj t1 t2 Hr Hst Hm|x rj pj b t1 t2 Hr Hst Hq Hp _ Hc|x t1 t2 Hr Hst Ha
    |x e t1 t2 Hr Hst Ha|x e t Ht _]; cbn; try rewrite Hr; intros Hx.
  - pose proof (prover_undecided _ _ Hx ltac:(by rewrite Hst) ltac:(by rewrite Hst)) as Hv.
    destruct Hx. px_fields. intros pj' [= <-]. by exists rj, c.
  - pose proof (verifier_undecided _ _ Hx ltac:(by rewrite Hst)) as Hv. destruct Hx. px_fields.
  - destruct Hx. px_fields.
  - pose proof (ack_after _ _ _ _ Hx Hst Ha) as Hack. destruct Hx. px_fields.
  - pose proof (ack_after _ _ _ _ Hx Hst Ha) as Hack. destruct Hx. px_fields.
  - assert (Hd : px_state x ≠ PsDone ∧ px_state x ≠ PsAbandoned) by (split; intros Hs; by rewrite Hs in Ht). destruct Hd as [Hd Ha].
    destruct (px_role x).
    + pose proof (prover_undecided _ _ Hx Hd Ha) as Hv. destruct Hx. px_fields.
    + pose proof (verifier_undecided _ _ Hx Hd) as Hv. destruct Hx. px_fields.
Qed.

Lemma px_path_wf past calls o o' :
  px_path calls o o' → (∀ x, o = Some x → px_wf past x) → ∀ x, o' = Some x → px_wf (past ++ calls) x.
Proof.
  revert past o. induction calls as [|c calls IH]; intros past o; cbn [px_path]; [intros ->; by rewrite app_nil_r|].
  intros (o1 & Hc & Hp) Ho. change (c :: calls) with ([c] ++ calls). rewrite app_assoc. apply (IH (past ++ [c]) o1 Hp).
  eapply change_path_invariant; [by apply px_born_wf|by apply px_step_wf|exact Hc|]. intros x Hx. by apply px_wf_mono, Ho.
Qed.

(** C22: The present-proof service and its handlers run the exchange state machine: over any
    repository that keeps its laws, through any sequence of messages and calls - answered or
    refused -, each call takes each record along steps that are its own.  A record appears by the
    call that asks, with the request which the agent's verifier made for it, or by the request message that
    is heard; it becomes presented by the call that accepts, with what the agent's prover made, or by the presentation
    heard on its thread; verified by the call for it or by the message that is verified as it
    comes, with the verdict of the agent's verifier; done or rejected by the ack heard on
    its thread; given up by the call for it or a problem report on its thread; and it disappears
    by the call that deletes it, and never otherwise. *)
Theorem proof_follows_machine calls (s : PXS) w :
  rs_ok s →
  rs_ok (proof_run calls s w).1 ∧ ∀ id, px_path calls (rs_view s id) (rs_view (proof_run calls s w).1 id).
Proof. apply proof_run_path. Qed.

(** C23: What an agent calls verified has a history, through any sequence of messages and calls
    from an empty repository.  A verifier's record has a verdict exactly when it is done, and
    then the agent's own AnonCreds verifier gave that verdict on the presentation that was
    received on the record's thread, for a request which the agent made itself.  A prover's
    record is done exactly when it is verified, and then one call made the presentation that it
    holds, by the agent's own AnonCreds prover and for the request heard on the record's thread,
    and a later one brought an ack on that thread that does not say FAIL or PENDING (a status that is missing
    or unknown counts as OK); one that was rejected is abandoned, and the later ack
    says FAIL. *)
Theorem verified_provenance calls (s : PXS) w id x :
  rs_ok s → (∀ i, rs_view s i = None) → rs_view (proof_run calls s w).1 id = Some x →
  match px_role x with Verifier => verifier_wf calls x | Prover => prover_wf calls x end.
Proof.
  intros Hs He Hx. destruct (proof_run_path calls s w Hs) as [_ Hp]. change (px_wf ([] ++ calls) x).
  eapply px_path_wf; [apply (Hp id)| |exact Hx]. intros x' Hx'. by rewrite He in Hx'.
Qed.
End runs.
