(* ===== verification/ProofFlow.v ===== *)
(** Proving to a verifier, end to end: a verifier and a prover with in-memory repositories,
    each running its handlers, from the request to the ack.

    The AnonCreds services of the two agents are any that answer.  What the verifier's service
    says about the presentation is what both records say at the end.

    Runs of present-proof with the AnonCreds services over the stand-in of [IssuanceRuns]: the
    witnesses of its properties, and the runs that show where the code falls short. *)
From S2P Require Import Prelude AjnaTypes StdText SerdeJson Storage Didcomm RecordRepo RecordSpec AnonCreds Issuance IssuanceMessages IssuanceService IssuanceHandler IssuanceFlow Proofs ProofService IssuanceRuns ProofProps.

(** * The messages carry their payloads *)

Section transport.
Context `{JsonText} `{Base64Engine} `{UuidText}.

Lemma proof_request_transport {E T} rm v (s : T) w m s' w' :
  json_parse (rpm_json rm) = Ok v → rpm_to_didcomm (E:=E) rm s w = (Ok m, s', w') →
  rpm_from_didcomm m = Ok (mkProofRequest (rpm_id rm) (rpm_comment rm) (rpm_will_confirm rm) (json_print v)) ∧
  s' = s ∧ world_le w w' ∧ msg_type m = PROOF_REQUEST_TYPE ∧ msg_thread_id m = rpm_id rm.
Proof.
  intros Hv. unfold rpm_to_didcomm, new_attachment, text_or_value. rewrite Hv. intros [= <- <- <-].
  split_and!; try done; [|split; [done|cbn; lia]]. unfold rpm_from_didcomm. cbn. by destruct (rpm_comment rm).
Qed.
Lemma presentation_transport {E T} pm v (s : T) w m s' w' :
  json_parse (prm_json pm) = Ok v → prm_to_didcomm (E:=E) pm s w = (Ok m, s', w') →
  prm_from_didcomm m = Ok (mkPresentation (prm_id pm) (prm_thread_id pm) (prm_comment pm) (json_print v)) ∧
  s' = s ∧ world_le w w' ∧ msg_type m = PRESENTATION_TYPE.
Proof.
  intros Hv. unfold prm_to_didcomm, new_attachment, text_or_value. rewrite Hv. intros [= <- <- <-].
  split_and!; try done; [|split; [done|cbn; lia]]. unfold prm_from_didcomm. cbn. by destruct (prm_comment pm).
Qed.
Lemma proof_ack_transport a : proof_ack_from_didcomm (proof_ack_to_didcomm a) = Ok a.
Proof. by destruct a as [i t []]. Qed.
End transport.

(** * Calls over the in-memory repository *)

(** The only exchange of a thread, and ids that are new. *)
Abbreviation only_proof := (only_of (E:=ProofError) px_thread_id).
Abbreviation fresh_proofs := (fresh_for px_thread_id).

Section memory_runs.
Context `{HashOrder} `{AnoncredsLib} `{JsonText} `{Base64Engine} `{UuidText} `{Serde ProofExchangeRecord}.
Context {VS HS : Type} `{!PresentationVerifier VS} `{!PresentationProver HS}.
Abbreviation Rec := ProofExchangeRecord.
Abbreviation Mem := (gmap string Rec).
Abbreviation PXS := (ProofService Mem VS HS).
Implicit Types (m : Mem) (x : Rec).

Lemma find_proof_run m v h bus w x :
  only_proof m x →
  find_by_role_and_thread (px_role x) (px_thread_id x) (mkProofService (V:=VS) (H:=HS) m v h bus) w =
    (Ok (Some x), mkProofService m v h bus, w).
Proof.
  intros Ho. unfold find_by_role_and_thread, on_records, eff_zoom. cbn.
  rewrite (find_only px_thread_id m _ x Ho); [done|by apply bool_decide_eq_true|by intros y [_ Hy]%bool_decide_eq_true].
Qed.
Lemma by_thread_run m v h bus w x :
  only_proof m x →
  pxs_get_by_thread_id (px_thread_id x) (mkProofService (V:=VS) (H:=HS) m v h bus) w = (Ok (Some x), mkProofService m v h bus, w).
Proof.
  intros Ho. unfold pxs_get_by_thread_id, on_records, eff_zoom. cbn.
  rewrite (find_only px_thread_id m _ x Ho); [done|by apply bool_decide_eq_true|by intros y Hy%bool_decide_eq_true].
Qed.
Lemma get_proof_run m v h bus w x :
  only_proof m x → get_proof (px_id x) (mkProofService (V:=VS) (H:=HS) m v h bus) w = (Ok x, mkProofService m v h bus, w).
Proof.
  intros [Hx _]. cbn in Hx. unfold get_proof, mbind, eff_bind, on_records, eff_zoom. cbn. by rewrite Hx.
Qed.

(** The record is put, and the method answers. *)
Lemma put_then {A} m v h bus w x y p (a : A) :
  only_proof m x → px_id y = px_id x → px_thread_id y = px_thread_id x →
  ∃ bus', (_ ← put_proof y p; mret a) (mkProofService (V:=VS) (H:=HS) m v h bus) w =
      (Ok a, mkProofService (<[px_id x := y]> m) v h bus', w) ∧ only_proof (<[px_id x := y]> m) y.
Proof.
  intros Ho Hid Ht. eexists. split.
  - unfold put_proof, on_records, eff_zoom, emit_proof_changed, mbind, eff_bind, eff_modify, mret, eff_ret. cbn.
    unfold mr_update. cbn. rewrite Hid, (proj1 Ho : m !! px_id x = Some x). reflexivity.
  - rewrite <-Hid. by refine (only_of_insert (E:=ProofError) px_thread_id m x y _ _ _).
Qed.

(** A new exchange. *)
Definition new_proof role st t rj conn w : Rec :=
  let r := px_set_request rj (utc_now (px_new role st t w).2).1 (px_new role st t w).1 in
  match conn with Some c => px_set_connection_id c (utc_now (utc_now (px_new role st t w).2).2).1 r | None => r end.
Lemma open_proof_run m v h bus w role st t rj conn :
  fresh_proofs m w → (∀ k y, m !! k = Some y → px_thread_id y ≠ t) →
  ∃ x bus' w', open_proof role st t rj conn (mkProofService m v h bus) w = (Ok x, mkProofService (V:=VS) (H:=HS) (<[px_id x := x]> m) v h bus', w') ∧
    world_le w w' ∧ only_proof (<[px_id x := x]> m) x ∧ px_role x = role ∧ px_state x = st ∧ px_thread_id x = t ∧
    px_request_json x = Some rj ∧ px_presentation_json x = None ∧ px_verified x = None.
Proof.
  intros Hf Ht.
  assert (Hx : ∀ x, x = new_proof role st t rj conn w → px_id x = next_id w ∧ px_role x = role ∧ px_state x = st ∧ px_thread_id x = t ∧
    px_request_json x = Some rj ∧ px_presentation_json x = None ∧ px_verified x = None) by (intros x ->; unfold new_proof; by destruct conn).
  assert (Hrun : ∃ bus' w', open_proof role st t rj conn (mkProofService m v h bus) w =
    (Ok (new_proof role st t rj conn w), mkProofService (V:=VS) (H:=HS) (<[next_id w := new_proof role st t rj conn w]> m) v h bus', w') ∧ world_le w w').
  { unfold open_proof, stamped, on_records, eff_zoom, emit_proof_changed, mbind, eff_bind, eff_world, eff_modify, mret, eff_ret.
    pose proof (proj1 (Hf (w_un w) (le_n _))) as Hfree. unfold next_id, uuid_text in *.
    destruct conn as [c|]; cbn in *; unfold mr_save; cbn; rewrite Hfree; (eexists _, _; split; [reflexivity|split; [done|cbn; lia]]). }
  destruct Hrun as (bus' & w' & Hrun & Hle). destruct (Hx _ eq_refl) as (Hid & Hr & Hst & Hxt & Hrest). clear Hx.
  exists (new_proof role st t rj conn w), bus', w'. rewrite Hid. split_and!; try apply Hrest; try done.
  rewrite <-Hid. refine (only_of_new (E:=ProofError) px_thread_id m _ _ _); [cbn; rewrite Hid; apply Hf; lia|by rewrite Hxt].
Qed.

(** ** The methods on the way of a proof *)

Lemma ask_run m v h bus w n ver attrs preds conn pr rj v' w1 :
  pv_create_request n ver attrs preds v w = (Ok pr, v', w1) → world_le w w1 → sd_to_text pr = Ok rj → fresh_proofs m w →
  ∃ x msg bus' w', create_request n ver attrs preds conn (mkProofService m v h bus) w =
      (Ok (x, msg), mkProofService (H:=HS) (<[px_id x := x]> m) v' h bus', w') ∧
    world_le w w' ∧ only_proof (<[px_id x := x]> m) x ∧ px_role x = Verifier ∧ px_state x = PsRequestSent ∧ px_thread_id x = rpm_id msg ∧
    px_request_json x = Some rj ∧ rpm_json msg = rj ∧ ∃ i, w_un w ≤ i ∧ rpm_id msg = uuid_text w i.
Proof.
  intros Hpr Hle1 Hrj Hf. unfold create_request.
  rewrite (eff_bind_run _ _ _ _ pr (mkProofService m v' h bus) w1) by (unfold on_verifier, eff_zoom; cbn; by rewrite Hpr).
  rewrite Hrj. rewrite (eff_bind_run (pe_serde (Ok rj)) _ _ _ rj (mkProofService m v' h bus) w1) by done.
  set (w2 := (uuid_new_v4 w1).2). set (msg := mkProofRequest (uuid_text w (w_un w1)) None true rj).
  assert (Hmsg : rpm_new rj (mkProofService m v' h bus) w1 = (Ok (A:=RequestPresentationMessage) (E:=ProofError) msg, mkProofService m v' h bus, w2)).
  { unfold msg, uuid_text. by rewrite <-(proj1 Hle1). }
  assert (Hle2 : world_le w w2) by (etrans; [exact Hle1|split; [done|cbn; lia]]).
  rewrite (eff_bind_run _ _ _ _ _ _ _ Hmsg).
  destruct (open_proof_run m v' h bus w2 Verifier PsRequestSent (rpm_id msg) rj conn)
    as (x & bus' & w' & Hrun & Hle & Ho & Hr & Hst & Ht & Hq & _); [by eapply fresh_for_later|apply Hf, Hle1|].
  exists x, msg, bus', w'. rewrite (eff_bind_run _ _ _ _ _ _ _ Hrun). split; [done|].
  split; [by etrans|]. split_and!; try done. exists (w_un w1). split; [apply Hle1|done].
Qed.

Lemma present_run m v h bus w x cm sa rj pr p pj h' w1 :
  only_proof m x → px_role x = Prover → px_state x = PsRequestReceived → px_request_json x = Some rj → sd_from_text rj = Ok pr →
  pp_create_presentation pr cm sa h w = (Ok p, h', w1) → world_le w w1 → sd_to_text p = Ok pj →
  ∃ y msg bus' w', accept_proof_request (px_id x) cm sa (mkProofService m v h bus) w =
      (Ok (y, msg), mkProofService (V:=VS) (<[px_id x := y]> m) v h' bus', w') ∧
    world_le w w' ∧ only_proof (<[px_id x := y]> m) y ∧ px_role y = Prover ∧ px_state y = PsPresentationSent ∧
    px_thread_id y = px_thread_id x ∧ prm_thread_id msg = px_thread_id x ∧ prm_json msg = pj.
Proof.
  intros Ho Hr Hst Hq Hpr Hp Hle Hpj. unfold accept_proof_request.
  rewrite (eff_bind_run _ _ _ _ _ _ _ (get_proof_run m v h bus w x Ho)). unfold need_role, need_state. rewrite !decide_True by done.
  rewrite !(eff_bind_run (mret tt) _ _ _ tt (mkProofService m v h bus) w eq_refl), Hq.
  rewrite (eff_bind_run (pe_ok_or _ (Some rj)) _ _ _ rj (mkProofService m v h bus) w eq_refl), Hpr.
  rewrite (eff_bind_run (pe_serde (Ok pr)) _ _ _ pr (mkProofService m v h bus) w eq_refl).
  rewrite (eff_bind_run _ _ _ _ p (mkProofService m v h' bus) w1) by (unfold on_prover, eff_zoom; cbn; by rewrite Hp).
  rewrite Hpj, (eff_bind_run (pe_serde (Ok pj)) _ _ _ pj (mkProofService m v h' bus) w1 eq_refl).
  set (w2 := (uuid_new_v4 w1).2).
  set (msg := mkPresentation (uuid_to_string (uuid_new_v4 w1).1) (px_thread_id x) None pj).
  rewrite (eff_bind_run (prm_new _ _) _ _ _ msg (mkProofService m v h' bus) w2 eq_refl). unfold stamped.
  set (w4 := (utc_now (utc_now w2).2).2).
  set (y := px_update_state PsPresentationSent (utc_now (utc_now w2).2).1 (px_set_presentation pj (utc_now w2).1 x)).
  destruct (put_then m v h' bus w4 x y PsRequestReceived (y, msg) Ho eq_refl eq_refl) as (bus' & Hput & Ho').
  exists y, msg, bus', w4. split; [exact Hput|]. split; [etrans; [exact Hle|split; [done|cbn; lia]]|]. by split_and!.
Qed.

Lemma store_presentation_run m v h bus w x p :
  only_proof m x → px_role x = Verifier → px_state x = PsRequestSent → prm_thread_id p = px_thread_id x →
  ∃ y bus' w', process_presentation p (mkProofService m v h bus) w = (Ok y, mkProofService (V:=VS) (H:=HS) (<[px_id x := y]> m) v h bus', w') ∧
    world_le w w' ∧ only_proof (<[px_id x := y]> m) y ∧ px_role y = Verifier ∧ px_state y = PsPresentationReceived ∧ px_id y = px_id x ∧
    px_thread_id y = px_thread_id x ∧ px_request_json y = px_request_json x ∧ px_presentation_json y = Some (prm_json p).
Proof.
  intros Ho Hr Hst Ht. unfold process_presentation. rewrite Ht. pose proof (find_proof_run m v h bus w x Ho) as Hf. rewrite Hr in Hf.
  rewrite (eff_bind_run _ _ _ _ _ _ _ Hf).
  rewrite (eff_bind_run (pe_ok_or _ (Some x)) _ _ _ x (mkProofService m v h bus) w eq_refl). unfold need_state. rewrite decide_True by done.
  rewrite (eff_bind_run (mret tt) _ _ _ tt (mkProofService m v h bus) w eq_refl). unfold stamped.
  set (w2 := (utc_now (utc_now w).2).2).
  set (y := px_update_state PsPresentationReceived (utc_now (utc_now w).2).1 (px_set_presentation (prm_json p) (utc_now w).1 x)).
  destruct (put_then m v h bus w2 x y PsRequestSent y Ho eq_refl eq_refl) as (bus' & Hput & Ho').
  exists y, bus', w2. split; [exact Hput|]. by split_and!.
Qed.

Lemma verify_run m v h bus w x rj pj pr p b v' w1 :
  only_proof m x → px_role x = Verifier → px_state x = PsPresentationReceived → px_request_json x = Some rj → sd_from_text rj = Ok pr →
  px_presentation_json x = Some pj → sd_from_text pj = Ok p → pv_verify p pr v w = (Ok b, v', w1) → world_le w w1 →
  ∃ y bus' w', verify_presentation (px_id x) (mkProofService m v h bus) w = (Ok b, mkProofService (H:=HS) (<[px_id x := y]> m) v' h bus', w') ∧
    world_le w w' ∧ only_proof (<[px_id x := y]> m) y ∧ px_role y = Verifier ∧ px_state y = PsDone ∧ px_thread_id y = px_thread_id x ∧
    px_verified y = Some b.
Proof.
  intros Ho Hr Hst Hq Hpr Hj Hp Hb Hle. unfold verify_presentation.
  rewrite (eff_bind_run _ _ _ _ _ _ _ (get_proof_run m v h bus w x Ho)). unfold need_role, need_state. rewrite !decide_True by done.
  rewrite !(eff_bind_run (mret tt) _ _ _ tt (mkProofService m v h bus) w eq_refl), Hq, Hj.
  rewrite (eff_bind_run (pe_ok_or _ (Some rj)) _ _ _ rj (mkProofService m v h bus) w eq_refl), Hpr.
  rewrite (eff_bind_run (pe_serde (Ok pr)) _ _ _ pr (mkProofService m v h bus) w eq_refl).
  rewrite (eff_bind_run (pe_ok_or _ (Some pj)) _ _ _ pj (mkProofService m v h bus) w eq_refl), Hp.
  rewrite (eff_bind_run (pe_serde (Ok p)) _ _ _ p (mkProofService m v h bus) w eq_refl).
  rewrite (eff_bind_run _ _ _ _ b (mkProofService m v' h bus) w1) by (unfold on_verifier, eff_zoom; cbn; by rewrite Hb). unfold stamped.
  set (w2 := (utc_now (utc_now w1).2).2).
  set (y := px_update_state PsDone (utc_now (utc_now w1).2).1 (px_set_verified b (utc_now w1).1 x)).
  destruct (put_then m v' h bus w2 x y PsPresentationReceived b Ho eq_refl eq_refl) as (bus' & Hput & Ho').
  exists y, bus', w2. split; [exact Hput|]. split; [etrans; [exact Hle|done]|]. by split_and!.
Qed.

Lemma proof_ack_run m v h bus w x a (b : bool) :
  only_proof m x → px_role x = Prover → px_state x = PsPresentationSent → am_thread_id a = px_thread_id x →
  am_status a = (if b then AckOk else AckFail) →
  ∃ y bus' w', process_proof_ack a (mkProofService m v h bus) w = (Ok y, mkProofService (V:=VS) (H:=HS) (<[px_id x := y]> m) v h bus', w') ∧
    only_proof (<[px_id x := y]> m) y ∧ px_role y = Prover ∧ px_state y = (if b then PsDone else PsAbandoned) ∧
    px_thread_id y = px_thread_id x ∧ px_verified y = Some b.
Proof.
  intros Ho Hr Hst Ht Ha. unfold process_proof_ack. rewrite Ht. pose proof (find_proof_run m v h bus w x Ho) as Hf. rewrite Hr in Hf.
  rewrite (eff_bind_run _ _ _ _ _ _ _ Hf).
  rewrite (eff_bind_run (pe_ok_or _ (Some x)) _ _ _ x (mkProofService m v h bus) w eq_refl). unfold need_state. rewrite decide_True by done.
  rewrite (eff_bind_run (mret tt) _ _ _ tt (mkProofService m v h bus) w eq_refl). unfold stamped.
  set (w2 := (utc_now (utc_now w).2).2).
  set (y := if b then px_update_state PsDone (utc_now (utc_now w).2).1 (px_set_verified true (utc_now w).1 x)
            else px_set_error "Verifier rejected the presentation" (utc_now (utc_now w).2).1 (px_set_verified false (utc_now w).1 x)).
  destruct (put_then m v h bus w2 x y PsPresentationSent y Ho) as (bus' & Hput & Ho'); [by destruct b..|].
  exists y, bus', w2. split; [rewrite Ha; destruct b; exact Hput|]. split; [done|]. by destruct b.
Qed.
End memory_runs.

(** * The handlers on the way of a proof *)

Section hearing.
Context `{HashOrder} `{AnoncredsLib} `{JsonText} `{Base64Engine} `{UuidText} `{Serde ProofExchangeRecord}.
Context {VS HS : Type} `{!PresentationVerifier VS} `{!PresentationProver HS}.
Abbreviation Mem := (gmap string ProofExchangeRecord).
Implicit Types (m : Mem) (x : ProofExchangeRecord).

(** A message between two parties arrives over a connection, at an agent that verifies by itself. *)
Definition between (from conn : string) (msg : Message) : InboundMessage :=
  mkInbound msg (mkContext (Some from) None None None (Some conn) true true None None).
Definition hear (from conn : string) (msg : Message) : eff MessageHandlerError (ProofService Mem VS HS) (option OutboundMessage) :=
  match proof_handler true (msg_type msg) with Some h => h (between from conn msg) | None => mret None end.

Lemma processed_run {A} (call : eff ProofError (ProofService Mem VS HS) A) s w a s' w' :
  call s w = (Ok a, s', w') → processed call s w = (Ok a, s', w').
Proof. intros Hc. unfold processed. by rewrite Hc. Qed.

Lemma hear_request from conn msg rm m v h bus w :
  msg_type msg = PROOF_REQUEST_TYPE → rpm_from_didcomm msg = Ok rm → fresh_proofs m w →
  (∀ k y, m !! k = Some y → px_thread_id y ≠ msg_thread_id msg) →
  ∃ x m' bus' w', hear from conn msg (mkProofService m v h bus) w = (Ok None, mkProofService m' v h bus', w') ∧ world_le w w' ∧
    only_proof m' x ∧ px_role x = Prover ∧ px_state x = PsRequestReceived ∧ px_thread_id x = msg_thread_id msg ∧
    px_request_json x = Some (rpm_json rm).
Proof.
  intros Hty Hrm Hf Ht. unfold hear. rewrite Hty.
  change (proof_handler true PROOF_REQUEST_TYPE) with (Some (proof_request_handle (RS:=Mem) (VS:=VS) (HS:=HS))). cbn beta iota.
  unfold proof_request_handle. cbn [in_message between]. rewrite Hrm.
  rewrite (eff_bind_run (read_message (Ok rm)) _ _ _ rm (mkProofService m v h bus) w eq_refl).
  destruct (open_proof_run m v h bus w Prover PsRequestReceived (msg_thread_id msg) (rpm_json rm) (Some conn) Hf Ht)
    as (x & bus' & w' & Hrun & Hle & Ho & Hr & Hst & Hxt & Hq & _).
  pose proof (processed_run (process_request rm (msg_thread_id msg) (Some conn)) _ _ _ _ _ Hrun) as Hproc.
  eexists x, _, bus', w'. split; [exact (eff_bind_run _ _ _ _ _ _ _ Hproc)|]. by split_and!.
Qed.

Lemma hear_presentation from conn msg pm m v h bus w x rj pr p b v' :
  msg_type msg = PRESENTATION_TYPE → prm_from_didcomm msg = Ok pm → only_proof m x → px_role x = Verifier → px_state x = PsRequestSent →
  prm_thread_id pm = px_thread_id x → px_request_json x = Some rj → sd_from_text rj = Ok pr → sd_from_text (prm_json pm) = Ok p →
  (∀ w, ∃ w', pv_verify p pr v w = (Ok b, v', w') ∧ world_le w w') →
  ∃ y m' bus' w' out a, hear from conn msg (mkProofService m v h bus) w = (Ok (Some out), mkProofService m' v' h bus', w') ∧
    out_message out = proof_ack_to_didcomm a ∧ am_thread_id a = px_thread_id x ∧ am_status a = (if b then AckOk else AckFail) ∧
    only_proof m' y ∧ px_role y = Verifier ∧ px_state y = PsDone ∧ px_thread_id y = px_thread_id x ∧ px_verified y = Some b.
Proof.
  intros Hty Hpm Ho Hr Hst Ht Hq Hpr Hp Hb. unfold hear. rewrite Hty.
  change (proof_handler true PRESENTATION_TYPE) with (Some (presentation_handle (RS:=Mem) (VS:=VS) (HS:=HS) true)). cbn beta iota.
  unfold presentation_handle. cbn [in_message between]. rewrite Hpm.
  rewrite (eff_bind_run (read_message (Ok pm)) _ _ _ pm (mkProofService m v h bus) w eq_refl).
  destruct (store_presentation_run m v h bus w x pm Ho Hr Hst Ht) as (y & bus1 & w1 & Hrun & Hle & Ho1 & Hr1 & Hst1 & Hid & Ht1 & Hq1 & Hj1).
  rewrite (eff_bind_run _ _ _ _ _ _ _ (processed_run _ _ _ _ _ _ Hrun)). cbn [negb].
  destruct (Hb w1) as (w2 & Hv & Hle2). rewrite Hq in Hq1.
  destruct (verify_run _ v h bus1 w1 y rj (prm_json pm) pr p b v' w2 Ho1 Hr1 Hst1 Hq1 Hpr Hj1 Hp Hv Hle2)
    as (z & bus2 & w3 & Hver & Hle3 & Ho2 & Hr2 & Hst2 & Ht2 & Hv2).
  rewrite (eff_bind_run _ _ _ _ _ _ _ (processed_run _ _ _ _ _ _ Hver)).
  eexists z, _, bus2, _, _, _. split; [reflexivity|]. split; [reflexivity|]. cbn. split_and!; try done. by rewrite Ht2.
Qed.

Lemma hear_ack from conn a m v h bus w x (b : bool) :
  only_proof m x → px_role x = Prover → px_state x = PsPresentationSent → am_thread_id a = px_thread_id x →
  am_status a = (if b then AckOk else AckFail) →
  ∃ y m' bus' w', hear from conn (proof_ack_to_didcomm a) (mkProofService m v h bus) w = (Ok None, mkProofService m' v h bus', w') ∧
    only_proof m' y ∧ px_role y = Prover ∧ px_state y = (if b then PsDone else PsAbandoned) ∧ px_thread_id y = px_thread_id x ∧
    px_verified y = Some b.
Proof.
  intros Ho Hr Hst Ht Ha. unfold hear.
  change (proof_handler true (msg_type (proof_ack_to_didcomm a))) with (Some (proof_ack_handle (RS:=Mem) (VS:=VS) (HS:=HS))). cbn beta iota.
  unfold proof_ack_handle. cbn [in_message between]. rewrite proof_ack_transport.
  rewrite (eff_bind_run (read_message (Ok a)) _ _ _ a (mkProofService m v h bus) w eq_refl).
  destruct (proof_ack_run m v h bus w x a b Ho Hr Hst Ht Ha) as (y & bus' & w' & Hrun & Ho' & Hrest).
  eexists y, _, bus', w'. split; [exact (eff_bind_run _ _ _ _ _ _ _ (processed_run _ _ _ _ _ _ Hrun))|done].
Qed.
End hearing.

(** * The exchange *)

(** What the two AnonCreds services must do: the verifier makes the request, the prover a
    presentation for it, and the verifier gives a verdict; what they make can be written as
    text. *)
Section exchange.
Context `{HashOrder} `{AnoncredsLib} `{JsonText} `{Base64Engine} `{UuidText} `{Serde ProofExchangeRecord}.
Context `{!SerdeLaws PresentationRequest} `{!SerdeLaws Presentation}.
Context {VA HA VB HB : Type} `{!PresentationVerifier VA} `{!PresentationProver HA} `{!PresentationVerifier VB} `{!PresentationProver HB}.
Abbreviation Mem := (gmap string ProofExchangeRecord).
Abbreviation AgentA := (ProofService Mem VA HA).
Abbreviation AgentB := (ProofService Mem VB HB).
Abbreviation both := (eff MessageHandlerError (AgentA * AgentB)).
Context (name version : string) (attrs : gmap string AttributeInfo) (preds : gmap string PredicateInfo).
Context (credential_map : gmap string (string * bool)) (self_attested : option (gmap string string)).

Record PresentationWorks (verdict : bool) (verifier_ready verifier_asked : VA → Prop) (prover_ready : HB → Prop) := {
  pw_asked : PresentationRequest → Prop;
  pw_made : Presentation → Prop;
  pw_ask v w : verifier_ready v → ∃ pr rj v' w', pv_create_request name version attrs preds v w = (Ok pr, v', w') ∧ world_le w w' ∧
    verifier_asked v' ∧ pw_asked pr ∧ sd_to_text pr = Ok rj;
  pw_present h w pr : prover_ready h → pw_asked pr → ∃ p pj h' w',
    pp_create_presentation pr credential_map self_attested h w = (Ok p, h', w') ∧ world_le w w' ∧ pw_made p ∧ sd_to_text p = Ok pj;
  pw_verify v pr p : verifier_asked v → pw_asked pr → pw_made p →
    ∃ v', ∀ w, ∃ w', pv_verify p pr v w = (Ok verdict, v', w') ∧ world_le w w'
}.

Definition at_verifier {X} (m : eff MessageHandlerError AgentA X) : both X := eff_zoom fst (λ a s, (a, s.2)) id m.
Definition at_prover {X} (m : eff MessageHandlerError AgentB X) : both X := eff_zoom snd (λ b s, (s.1, b)) id m.
Definition found {T A} (o : option A) : eff MessageHandlerError T A :=
  match o with Some a => mret a | None => eff_throw (MheOther "not found") end.

(** The verifier asks; the prover's owner accepts with chosen credentials; the handlers do the rest. *)
Definition prove_to_verifier : both string :=
  p ← at_verifier (processed (create_request name version attrs preds (Some "to-prover")));
  request ← rpm_to_didcomm p.2;
  _ ← at_prover (hear "verifier" "to-verifier" request);
  o ← at_prover (processed (pxs_get_by_thread_id (rpm_id p.2)));
  x ← found o;
  q ← at_prover (processed (accept_proof_request (px_id x) credential_map self_attested));
  presentation ← prm_to_didcomm q.2;
  o ← at_verifier (hear "prover" "to-prover" presentation);
  ack ← sent o;
  _ ← at_prover (hear "verifier" "to-verifier" ack);
  mret (rpm_id p.2).

Lemma at_verifier_run {X} (call : eff MessageHandlerError AgentA X) a b w x a' w' :
  call a w = (Ok x, a', w') → at_verifier call (a, b) w = (Ok x, (a', b), w').
Proof. intros Hc. unfold at_verifier, eff_zoom. cbn. by rewrite Hc. Qed.
Lemma at_prover_run {X} (call : eff MessageHandlerError AgentB X) a b w x b' w' :
  call b w = (Ok x, b', w') → at_prover call (a, b) w = (Ok x, (a, b'), w').
Proof. intros Hc. unfold at_prover, eff_zoom. cbn. by rewrite Hc. Qed.

(** Where an exchange of a thread has come to at an agent. *)
Definition proof_stands {V_ H_} (s : ProofService Mem V_ H_) (t : string) (role : ProofExchangeRole) (st : ProofExchangeState)
    (verdict : option bool) : Prop :=
  ∃ x, only_proof (pxs_repository s) x ∧ px_thread_id x = t ∧ px_role x = role ∧ px_state x = st ∧ px_verified x = verdict.

(** C24: A proof comes to the same verdict on both sides: when the two AnonCreds services work
    for the request, then from any two agents with any exchanges of their own, after the
    request and its acceptance, the messages that the services and handlers send each other -
    request, presentation, ack, each through its wire form and the dispatch of its type -
    bring the verifier's exchange to [Done] with the verdict of its AnonCreds service, and the
    prover's exchange to [Done] and verified if the verdict was positive, to [Abandoned] and
    not verified if it was negative. *)
Theorem proof_completes verdict P1 P2 P3 ma va ha busa mb vb hb busb w :
  PresentationWorks verdict P1 P2 P3 → P1 va → P3 hb → fresh_proofs ma w → fresh_proofs mb w →
  ∃ t a' b' w',
    prove_to_verifier (mkProofService ma va ha busa, mkProofService mb vb hb busb) w = (Ok t, (a', b'), w') ∧
    proof_stands a' t Verifier PsDone (Some verdict) ∧
    proof_stands b' t Prover (if verdict then PsDone else PsAbandoned) (Some verdict).
Proof.
  intros pw Hva Hhb Hfa Hfb.
  destruct (pw_ask _ _ _ _ pw va w Hva) as (pr & rj & va1 & w1 & Hpr & Hle1 & Hva1 & Hasked & Hrj).
  destruct (ask_run ma va ha busa w name version attrs preds (Some "to-prover") pr rj va1 w1 Hpr Hle1 Hrj Hfa)
    as (x & rm & busa1 & w2 & Hask & Hle2 & Hox & Hrx & Hsx & Htx & Hqx & Hrm & i & Hi & Hti).
  destruct (sd_text_value pr rj Hrj) as (rv & Hrv & Hprv). rewrite <-Hrm in Hrv.
  set (sa := mkProofService (<[px_id x:=x]> ma) va1 ha busa1). set (sb := mkProofService mb vb hb busb).
  destruct (rpm_to_didcomm (E:=MessageHandlerError) rm (sa, sb) w2) as [[[m1|e|] s3] w3] eqn:Hm1; [|done..].
  destruct (proof_request_transport rm rv (sa, sb) w2 m1 s3 w3 Hrv Hm1) as (Hf1 & -> & Hle3 & Hty1 & Hth1).
  assert (Hle : world_le w w3) by (etrans; [exact Hle2|exact Hle3]).
  destruct (hear_request "verifier" "to-verifier" m1 _ mb vb hb busb w3 Hty1 Hf1) as (y & mb1 & busb1 & w4 & Hhear1 & Hle4 & Hoy & Hry & Hsy & Hty & Hqy);
    [by eapply fresh_for_later|rewrite Hth1, Hti; apply (Hfb i Hi)|]. cbn [rpm_json] in Hqy. rewrite Hth1 in Hty.
  pose proof (by_thread_run mb1 vb hb busb1 w4 y Hoy) as Hfind. rewrite Hty in Hfind.
  destruct (pw_present _ _ _ _ pw hb w4 pr Hhb Hasked) as (p & pj & hb1 & w5 & Hp & Hle5 & Hmade & Hpj).
  destruct (present_run mb1 vb hb busb1 w4 y credential_map self_attested (json_print rv) pr p pj hb1 w5 Hoy Hry Hsy Hqy Hprv Hp Hle5 Hpj)
    as (y' & pm & busb2 & w6 & Hpres & Hle6 & Hoy' & Hry' & Hsy' & Hty' & Hpmt & Hpmj).
  destruct (sd_text_value p pj Hpj) as (jv & Hjv & Hpv). rewrite <-Hpmj in Hjv.
  set (sb' := mkProofService (<[px_id y:=y']> mb1) vb hb1 busb2).
  destruct (prm_to_didcomm (E:=MessageHandlerError) pm (sa, sb') w6) as [[[m2|e|] s7] w7] eqn:Hm2; [|done..].
  destruct (presentation_transport pm jv (sa, sb') w6 m2 s7 w7 Hjv Hm2) as (Hf2 & -> & Hle7 & Hty2).
  destruct (pw_verify _ _ _ _ pw va1 pr p Hva1 Hasked Hmade) as (va2 & Hver).
  destruct (hear_presentation "prover" "to-prover" m2 _ _ va1 ha busa1 w7 x rj pr p verdict va2 Hty2 Hf2 Hox Hrx Hsx)
    as (x' & ma2 & busa2 & w8 & out & a & Hhear2 & Hout & Hat & Has & Hox' & Hrx' & Hsx' & Htx' & Hvx');
    [cbn [prm_thread_id]; by rewrite Hpmt, Hty, Htx|done|by apply sd_text_back|done|done|].
  destruct (hear_ack "verifier" "to-verifier" a _ vb hb1 busb2 w8 y' verdict Hoy' Hry' Hsy') as (y2 & mb3 & busb3 & w9 & Hhear3 & Hoy2 & Hry2 & Hsy2 & Hty2' & Hvy2);
    [by rewrite Hat, Htx, Hty', Hty|done|].
  eexists _, _, _, w9. unfold prove_to_verifier.
  rewrite (eff_bind_run _ _ _ _ _ _ _ (at_verifier_run _ _ sb _ _ _ _ (processed_run _ _ _ _ _ _ Hask))). cbn [snd].
  rewrite (eff_bind_run _ _ _ _ _ _ _ Hm1), (eff_bind_run _ _ _ _ _ _ _ (at_prover_run _ sa _ _ _ _ _ Hhear1)).
  rewrite (eff_bind_run _ _ _ _ _ _ _ (at_prover_run _ sa _ _ _ _ _ (processed_run _ _ _ _ _ _ Hfind))).
  rewrite (eff_bind_run (found (Some y)) _ _ _ y _ w4 eq_refl).
  rewrite (eff_bind_run _ _ _ _ _ _ _ (at_prover_run _ sa _ _ _ _ _ (processed_run _ _ _ _ _ _ Hpres))). cbn [snd].
  rewrite (eff_bind_run _ _ _ _ _ _ _ Hm2), (eff_bind_run _ _ _ _ _ _ _ (at_verifier_run _ _ sb' _ _ _ _ Hhear2)).
  rewrite (eff_bind_run (sent (Some out)) _ _ _ (out_message out) _ w8 eq_refl), Hout.
  rewrite (eff_bind_run _ _ _ _ _ _ _ (at_prover_run _ _ _ _ _ _ _ Hhear3)).
  split; [reflexivity|]. split; [exists x'|exists y2]; split_and!; try done; congruence.
Qed.
End exchange.

Definition toy_proofs : Serde ProofExchangeRecord :=
  {| sd_to_value _ := Err ""; sd_from_value _ := Err ""; sd_to_text _ := Err ""; sd_from_text _ := Err "" |}.
#[local] Existing Instances plain_order iss_json toy_serde toy_proofs toy_stored iss_base64 toy_anoncreds toy_uuid_text.

Abbreviation RunProver := (HolderService (G:=InMemoryRegistry) (T:=gmap string (gmap string AgentRecord))).
Abbreviation PxAgent := (ProofService (gmap string ProofExchangeRecord) InMemoryRegistry RunProver).
Definition run_prover : RunProver := mkHolder run_registry None (Some "secret") "default" (Some ∅) ∅.
Definition px_agent : PxAgent := pxs_with_event_bus (pxs_new run_prover run_registry ∅).

(** Role, state and verdict of the records of an agent. *)
Definition px_view (s : PxAgent) : list (ProofExchangeRole * ProofExchangeState * option bool) :=
  (λ x, (px_role x, px_state x, px_verified x)) <$> repo_record_values (pxs_repository s).

Example run_proves :
  let '(r, s, _) := prove_to_verifier "age" "1" ∅ ∅ ∅ None (px_agent, px_agent) world0 in
  r = Ok "0" ∧ px_view s.1 = [(Verifier, PsDone, Some true)] ∧ px_view s.2 = [(Prover, PsDone, Some true)].
Proof. vm_compute. repeat split. Qed.

(** * The witnesses *)

#[local] Instance run_pres_request_laws : SerdeLaws PresentationRequest := text_serde_laws.
#[local] Instance run_presentation_laws : SerdeLaws Presentation := text_serde_laws.

Lemma run_proof_works :
  PresentationWorks (VA:=InMemoryRegistry) (HB:=RunProver) "age" "1" ∅ ∅ ∅ None true (eq run_registry) (eq run_registry) (eq run_prover).
Proof.
  refine {| pw_asked := eq "age"; pw_made := eq "secret for age" |}; cbv beta.
  - intros v w <-. eexists _, _, _, _. split; [reflexivity|]. by split_and!.
  - intros h w pr <- <-. exists "secret for age", "secret for age", run_prover, w. split; [vm_compute; reflexivity|]. by split_and!.
  - intros v pr p <- <- <-. eexists. intros w. eexists. split; [reflexivity|done].
Qed.

Lemma proof_completes_witness :
  ∃ t a' b' w',
    prove_to_verifier "age" "1" ∅ ∅ ∅ None (px_agent, px_agent) world0 = (Ok t, (a', b'), w') ∧
    proof_stands a' t Verifier PsDone (Some true) ∧ proof_stands b' t Prover PsDone (Some true).
Proof. apply (proof_completes "age" "1" ∅ ∅ ∅ None true _ _ _ _ _ _ _ _ _ _ _ _ run_proof_works); done. Defined.

Definition px_request_message (id text : string) : InboundMessage :=
  between "verifier" "to-verifier"
    (mb_add_attachment (json_attachment "a" ANONCREDS_PROOF_REQUEST (text_value text)) (msg_new id PROOF_REQUEST_TYPE (JObject []))).
Definition px_presentation_message (thread_id text : string) : InboundMessage :=
  between "prover" "to-prover"
    (mb_add_attachment (json_attachment "a" ANONCREDS_PROOF (text_value text)) (mb_thread thread_id (msg_new "p" PRESENTATION_TYPE (JObject [])))).
Definition px_ack_message (thread_id status : string) : InboundMessage :=
  between "anybody" "somewhere" (mb_thread thread_id (msg_new "k" PROOF_ACK_TYPE (JObject [("status", JString status)]))).
Definition px_run_of (calls : list proof_call) : PxAgent := (proof_run calls px_agent world0).1.

(** A verifier that asks and hears a good presentation. *)
Definition px_calls : list proof_call :=
  [PcCreateRequest "age" "1" ∅ ∅ None; PcMessage true (px_presentation_message "0" "secret for age")].
Lemma px_agent_ok : rs_ok px_agent.
Proof. by intros id x. Qed.
Lemma px_done_record : ∃ x, rs_view (px_run_of px_calls) "1" = Some x ∧ px_role x = Verifier ∧ px_verified x = Some true.
Proof. eexists. vm_compute. repeat split; reflexivity. Qed.

Lemma proof_follows_machine_witness :
  rs_ok (px_run_of px_calls) ∧
  ∀ id, px_path (VS:=InMemoryRegistry) (HS:=RunProver) px_calls (rs_view px_agent id) (rs_view (px_run_of px_calls) id).
Proof. apply (proof_follows_machine px_calls px_agent world0 px_agent_ok). Defined.

Lemma verified_provenance_witness :
  ∃ x, rs_view (px_run_of px_calls) "1" = Some x ∧ px_verified x = Some true ∧ verifier_wf (VS:=InMemoryRegistry) px_calls x.
Proof.
  destruct px_done_record as (x & Hx & Hr & Hv). exists x. split; [exact Hx|]. split; [exact Hv|].
  pose proof (verified_provenance px_calls px_agent world0 "1" x px_agent_ok (λ i, eq_refl) Hx) as Hp. rewrite Hr in Hp. exact Hp.
Defined.

(** * Where the code falls short *)

(** A presentation that does not verify ends the exchange as done for the verifier and as
    abandoned for the prover. *)
Example rejected_differs :
  px_view (px_run_of [PcCreateRequest "age" "1" ∅ ∅ None; PcMessage true (px_presentation_message "0" "a lie")]) =
    [(Verifier, PsDone, Some false)] ∧
  px_view (px_run_of [PcMessage true (px_request_message "t" "age"); PcAccept "0" ∅ None; PcMessage true (px_ack_message "t" "FAIL")]) =
    [(Prover, PsAbandoned, Some false)].
Proof. vm_compute. split; reflexivity. Qed.

(** An ack whose status nobody knows counts as OK; nobody asks who sent it. *)
Example unknown_status_is_ok :
  px_view (px_run_of [PcMessage true (px_request_message "t" "age"); PcAccept "0" ∅ None; PcMessage true (px_ack_message "t" "NO WAY")]) =
    [(Prover, PsDone, Some true)].
Proof. vm_compute. reflexivity. Qed.

(** A request that arrives twice opens two exchanges on one thread; of two that were answered
    the ack completes one. *)
Example repeated_request_opens_two :
  px_view (px_run_of [PcMessage true (px_request_message "t" "age"); PcMessage true (px_request_message "t" "age")]) =
    [(Prover, PsRequestReceived, None); (Prover, PsRequestReceived, None)] ∧
  px_view (px_run_of [PcMessage true (px_request_message "t" "age"); PcMessage true (px_request_message "t" "age");
                      PcAccept "0" ∅ None; PcAccept "1" ∅ None; PcMessage true (px_ack_message "t" "OK")]) =
    [(Prover, PsDone, Some true); (Prover, PsPresentationSent, None)].
Proof. vm_compute. split; reflexivity. Qed.

(** The handler for problem reports is not among the registered ones, and its type is of another version. *)
Example problem_reports_not_routed :
  proof_handler (RS:=gmap string ProofExchangeRecord) (VS:=InMemoryRegistry) (HS:=RunProver) true PROOF_PROBLEM_TYPE = None ∧
  PROOF_PROBLEM_TYPE ≠ "https://didcomm.org/present-proof/2.0/problem-report".
Proof. split; [reflexivity|discriminate]. Qed.
