(* ===== verification/QueueRepo.v ===== *)
(** The message queue repositories of a pickup mediator: the trait
    [MessageQueueRepositoryTrait] as a family of calls, the in-memory repository of
    [MessageQueue] and the storage-backed one of
    [src/protocols/pickup/src/repository/storage_backed_message_queue.rs], and the proof that
    the second runs the first - also across restarts. *)
From S2P Require Import Prelude AjnaTypes SerdeJson Storage MessageQueue AnonCreds.

(** [src/protocols/pickup/src/lib.rs:108-126] PickupError (a serializer's error is its text) *)
Inductive PickupError :=
  | PkNotFound (s : string)
  | PkQueueError (s : string)
  | PkProtocol (s : string)
  | PkStorage (s : string)
  | PkSerialization (s : string).

(** [src/protocols/pickup/src/lib.rs:108-126] PickupError::to_string (derived by thiserror) *)
Definition pk_to_string (e : PickupError) : string :=
  match e with
  | PkNotFound s => "Message not found: " +:+ s
  | PkQueueError s => "Queue operation failed: " +:+ s
  | PkProtocol s => "Protocol error: " +:+ s
  | PkStorage s => "Storage error: " +:+ s
  | PkSerialization s => "Serialization error: " +:+ s
  end.

(** [src/protocols/pickup/src/repository/message_queue.rs:16-83] MessageQueueRepositoryTrait *)
Variant queueE : Type → Type :=
  | QAdd (message : QueuedMessage) : queueE string
  | QPendingCount (connection_id : string) (recipient_key : option string) : queueE N
  | QTotalBytes (connection_id : string) (recipient_key : option string) : queueE N
  | QOldest (connection_id : string) (recipient_key : option string) : queueE (option Instant)
  | QTake (connection_id : string) (recipient_key : option string) (limit : N) : queueE (list QueuedMessage)
  | QRemove (message_ids : list string) : queueE unit
  | QReturn (message_ids : list string) : queueE unit
  | QFind (message_id : string) : queueE (option QueuedMessage)
  | QClear (connection_id : string) : queueE N
  | QExpire (max_age : N) : queueE N
  | QExpireFor (connection_id : string) (max_age : N) : queueE N.

Class MessageQueueRepo (Q : Type) := { queue_call : ∀ {A}, queueE A → eff PickupError Q A }.

(** A queue changes by a pure operation. *)
Definition mq_run {E A} (f : MessageQueue → A * MessageQueue) : eff E MessageQueue A :=
  λ s w, let '(a, s) := f s in (Ok a, s, w).
Definition mq_mod (f : MessageQueue → MessageQueue) : eff PickupError MessageQueue unit := eff_modify f.
(** An expiry panics when the cutoff cannot be computed. *)
Definition mq_expiry (f : MessageQueue → World → outcome unit N * MessageQueue * World) : eff PickupError MessageQueue N :=
  λ s w, match f s w with (Ok n, s, w) => (Ok n, s, w) | (_, s, w) => (Panic, s, w) end.

Section memory.
Context `{ChronoCutoff} `{HashOrder}.

(** [src/protocols/pickup/src/repository/message_queue.rs:109-336] InMemoryMessageQueueRepository (as MessageQueueRepositoryTrait) *)
#[export] Instance memory_queue : MessageQueueRepo MessageQueue := {|
  queue_call A c :=
    match c with
    | QAdd m => mq_run (λ s, mq_add_message s m)
    | QPendingCount c k => eff_gets (λ s, mq_get_pending_count s c k)
    | QTotalBytes c k => eff_gets (λ s, mq_get_total_bytes s c k)
    | QOldest c k => eff_gets (λ s, mq_get_oldest_message_time s c k)
    | QTake c k n => mq_run (λ s, mq_take_from_queue s c k n)
    | QRemove ids => mq_mod (λ s, mq_remove_messages s ids)
    | QReturn ids => mq_mod (λ s, mq_return_to_pending s ids)
    | QFind i => eff_gets (λ s, mq_find_by_id s i)
    | QClear c => mq_run (λ s, mq_clear_connection s c)
    | QExpire age => mq_expiry (λ s, mq_delete_expired s age)
    | QExpireFor c age => mq_expiry (λ s, mq_delete_expired_for_connection s c age)
    end
|}.
End memory.

(** * Over a storage provider *)

(** [src/protocols/pickup/src/repository/storage_backed_message_queue.rs:18-18] MESSAGE_QUEUE_CATEGORY *)
Definition MESSAGE_QUEUE_CATEGORY : string := "message_queue".

(** [src/protocols/pickup/src/domain/queued_message.rs:19-26] QueuedMessageState::fmt *)
Definition qms_to_string (s : QueuedMessageState) : string := match s with Pending => "pending" | Sending => "sending" end.

(** [src/protocols/pickup/src/repository/storage_backed_message_queue.rs:27-34] StorageBackedMessageQueueRepository *)
Record StorageQueue (ST : Type) := mkStorageQueue {
  sq_storage : ST;
  sq_messages : option (gmap string QueuedMessage);
  sq_by_connection : option (gmap string (list string))
}.
Arguments mkStorageQueue {ST}.
Arguments sq_storage {ST}.
Arguments sq_messages {ST}.
Arguments sq_by_connection {ST}.

Section backed.
Context `{ChronoCutoff} `{HashOrder} `{Serde QueuedMessage} {ST : Type} `{StorageProvider ST}.
Abbreviation SQ := (StorageQueue ST).
Abbreviation sq := (eff PickupError SQ).

(** [src/protocols/pickup/src/repository/storage_backed_message_queue.rs:38-44] StorageBackedMessageQueueRepository::new *)
Definition sq_new (storage : ST) : SQ := mkStorageQueue storage None None.

Definition sq_on_storage {A} (what : string) (m : eff AgentError ST A) : sq A :=
  eff_zoom sq_storage (λ st s, mkStorageQueue st (sq_messages s) (sq_by_connection s)) (λ e, PkStorage (what +:+ ag_to_string e)) m.
(** A call whose error is only logged. *)
Definition logged {E T} (m : eff E T unit) : eff E T unit := _ ← eff_catch m; mret tt.
Definition each {E T A} (f : A → eff E T unit) (l : list A) : eff E T unit := eff_fold (λ _ a, f a) tt l.

(** [src/protocols/pickup/src/repository/storage_backed_message_queue.rs:171-176] StorageBackedMessageQueueRepository::build_tags *)
Definition sq_build_tags (msg : QueuedMessage) : gmap string string :=
  <["state" := qms_to_string (qm_state msg)]> {["connection_id" := qm_connection_id msg]}.

(** A message as a record of the storage. *)
Definition sq_record (msg : QueuedMessage) : outcome PickupError AgentRecord :=
  match sd_to_text msg with
  | Ok value => Ok (mkRecord MESSAGE_QUEUE_CATEGORY (qm_id msg) value (sq_build_tags msg))
  | Err e => Err (PkStorage ("Failed to serialize message: " +:+ e))
  | Panic => Panic
  end.

(** [src/protocols/pickup/src/repository/storage_backed_message_queue.rs:179-192] StorageBackedMessageQueueRepository::persist *)
Definition sq_persist (msg : QueuedMessage) : sq unit :=
  storage_record ← eff_lift (sq_record msg);
  sq_on_storage "Failed to store queued message: " (st_save storage_record).

(** [src/protocols/pickup/src/repository/storage_backed_message_queue.rs:195-208] StorageBackedMessageQueueRepository::update_in_storage *)
Definition sq_update_in_storage (msg : QueuedMessage) : sq unit :=
  storage_record ← eff_lift (sq_record msg);
  sq_on_storage "Failed to update queued message: " (st_update storage_record).

(** [src/protocols/pickup/src/repository/storage_backed_message_queue.rs:211-217] StorageBackedMessageQueueRepository::delete_from_storage *)
Definition sq_delete_from_storage (id : string) : sq unit :=
  sq_on_storage "Failed to delete queued message: " (st_delete MESSAGE_QUEUE_CATEGORY id).

(** A record that is read joins the messages and the index. *)
Definition sq_load_record (q : MessageQueue) (record : AgentRecord) : MessageQueue :=
  match sd_from_text (rec_value record) with
  | Ok queued =>
      mkQueue (<[qm_id queued := queued]> (mq_messages q))
        (<[qm_connection_id queued := default [] (mq_by_connection q !! qm_connection_id queued) ++ [qm_id queued]]> (mq_by_connection q))
  | _ => q
  end.
Definition sq_loaded (records : list AgentRecord) : MessageQueue := foldl sq_load_record mq_new records.

(** [src/protocols/pickup/src/repository/storage_backed_message_queue.rs:94-168] StorageBackedMessageQueueRepository::ensure_loaded *)
Definition sq_ensure_loaded : sq unit :=
  s ← eff_get;
  match sq_messages s with
  | Some _ => mret tt
  | None =>
      records ← sq_on_storage "Failed to load message queue records: " (st_find_all MESSAGE_QUEUE_CATEGORY q_new);
      let q := sq_loaded records in
      let orphans := filter (λ kv, qm_state kv.2 = Sending) (map_iter (mq_messages q)) in
      let msg_map := foldl (λ m id, alter qm_mark_pending id m) (mq_messages q) orphans.*1 in
      _ ← each (λ id, match msg_map !! id with Some msg => logged (sq_update_in_storage msg) | None => mret tt end) orphans.*1;
      _ ← eff_modify (λ s, mkStorageQueue (sq_storage s) (Some msg_map) (sq_by_connection s));
      eff_modify (λ s, mkStorageQueue (sq_storage s) (sq_messages s) (Some (mq_by_connection q)))
  end.

(** The maps, which must be there ([unwrap]), and what an operation leaves in them. *)
Definition sq_cached : sq MessageQueue :=
  s ← eff_get;
  match sq_messages s, sq_by_connection s with
  | Some m, Some b => mret (mkQueue m b)
  | _, _ => eff_lift Panic
  end.
Definition sq_cache (q : MessageQueue) : sq unit :=
  eff_modify (λ s, mkStorageQueue (sq_storage s) (Some (mq_messages q)) (Some (mq_by_connection q))).
Definition sq_read {A} (f : MessageQueue → A) : sq A := _ ← sq_ensure_loaded; q ← sq_cached; mret (f q).

(** [src/protocols/pickup/src/repository/storage_backed_message_queue.rs:49-53] StorageBackedMessageQueueRepository::warm_up *)
Definition sq_warm_up : sq N :=
  _ ← sq_ensure_loaded;
  s ← eff_get;
  mret (match sq_messages s with Some m => N.of_nat (size m) | None => 0%N end).

(** [src/protocols/pickup/src/repository/storage_backed_message_queue.rs:222-254] StorageBackedMessageQueueRepository::add_message *)
Definition sq_add_message (message : QueuedMessage) : sq string :=
  _ ← sq_ensure_loaded;
  _ ← sq_persist message;
  q ← sq_cached;
  let '(id, q) := mq_add_message q message in
  _ ← sq_cache q;
  mret id.

(** [src/protocols/pickup/src/repository/storage_backed_message_queue.rs:256-280] StorageBackedMessageQueueRepository::get_pending_count *)
Definition sq_get_pending_count (connection_id : string) (recipient_key : option string) : sq N :=
  sq_read (λ q, mq_get_pending_count q connection_id recipient_key).

(** [src/protocols/pickup/src/repository/storage_backed_message_queue.rs:282-307] StorageBackedMessageQueueRepository::get_total_bytes *)
Definition sq_get_total_bytes (connection_id : string) (recipient_key : option string) : sq N :=
  sq_read (λ q, mq_get_total_bytes q connection_id recipient_key).

(** [src/protocols/pickup/src/repository/storage_backed_message_queue.rs:309-331] StorageBackedMessageQueueRepository::get_oldest_message_time *)
Definition sq_get_oldest_message_time (connection_id : string) (recipient_key : option string) : sq (option Instant) :=
  sq_read (λ q, mq_get_oldest_message_time q connection_id recipient_key).

(** [src/protocols/pickup/src/repository/storage_backed_message_queue.rs:333-396] StorageBackedMessageQueueRepository::take_from_queue *)
Definition sq_take_from_queue (connection_id : string) (recipient_key : option string) (limit : N) : sq (list QueuedMessage) :=
  _ ← sq_ensure_loaded;
  q ← sq_cached;
  let '(taken, q') := mq_take_from_queue q connection_id recipient_key limit in
  let ids_to_persist := omap (λ msg, mq_messages q' !! qm_id msg) taken in
  _ ← sq_cache q';
  _ ← each (λ msg, logged (sq_update_in_storage msg)) ids_to_persist;
  mret taken.

(** [src/protocols/pickup/src/repository/storage_backed_message_queue.rs:398-421] StorageBackedMessageQueueRepository::remove_messages *)
Definition sq_remove_messages (message_ids : list string) : sq unit :=
  _ ← sq_ensure_loaded;
  _ ← sq_cached;
  each (λ id,
    _ ← logged (sq_delete_from_storage id);
    q ← sq_cached;
    sq_cache (mq_remove_message q id)) message_ids.

(** [src/protocols/pickup/src/repository/storage_backed_message_queue.rs:423-440] StorageBackedMessageQueueRepository::return_to_pending *)
Definition sq_return_to_pending (message_ids : list string) : sq unit :=
  _ ← sq_ensure_loaded;
  each (λ id,
    s ← eff_get;
    match sq_messages s with
    | None => eff_lift Panic
    | Some msg_map =>
        match msg_map !! id with
        | None => mret tt
        | Some msg =>
            let msg := qm_mark_pending msg in
            _ ← eff_modify (λ s, mkStorageQueue (sq_storage s) (Some (<[id := msg]> msg_map)) (sq_by_connection s));
            logged (sq_update_in_storage msg)
        end
    end) message_ids.

(** [src/protocols/pickup/src/repository/storage_backed_message_queue.rs:442-446] StorageBackedMessageQueueRepository::find_by_id *)
Definition sq_find_by_id (message_id : string) : sq (option QueuedMessage) :=
  _ ← sq_ensure_loaded;
  s ← eff_get;
  match sq_messages s with Some m => mret (m !! message_id) | None => eff_lift Panic end.

(** [src/protocols/pickup/src/repository/storage_backed_message_queue.rs:448-472] StorageBackedMessageQueueRepository::clear_connection *)
Definition sq_clear_connection (connection_id : string) : sq N :=
  _ ← sq_ensure_loaded;
  q ← sq_cached;
  let ids := default [] (mq_by_connection q !! connection_id) in
  let '(count, q') := mq_clear_connection q connection_id in
  _ ← each (λ id, logged (sq_delete_from_storage id)) ids;
  _ ← sq_cache q';
  mret count.

(** [now - Duration::from_std(max_age).unwrap_or(7 days)], which panics out of range. *)
Definition sq_cutoff (max_age : N) : sq Instant :=
  c ← eff_world (expiry_cutoff max_age);
  match c with Some cutoff => mret cutoff | None => eff_lift Panic end.
Definition sq_expired (cutoff : Instant) (l : list QueuedMessage) : list string :=
  qm_id <$> filter (λ m, (qm_received_at m < cutoff)%Z) l.

(** [src/protocols/pickup/src/repository/storage_backed_message_queue.rs:57-91] StorageBackedMessageQueueRepository::delete_expired *)
Definition sq_delete_expired (max_age : N) : sq N :=
  _ ← sq_ensure_loaded;
  cutoff ← sq_cutoff max_age;
  s ← eff_get;
  let expired_ids := match sq_messages s with Some m => sq_expired cutoff (map_iter m).*2 | None => [] end in
  if decide (expired_ids = []) then mret 0%N
  else
    q ← sq_cached;
    _ ← each (λ id, logged (sq_delete_from_storage id)) expired_ids;
    _ ← sq_cache (foldl mq_remove_message q expired_ids);
    mret (N.of_nat (length expired_ids)).

(** [src/protocols/pickup/src/repository/storage_backed_message_queue.rs:482-531] StorageBackedMessageQueueRepository::delete_expired_for_connection *)
Definition sq_delete_expired_for_connection (connection_id : string) (max_age : N) : sq N :=
  _ ← sq_ensure_loaded;
  cutoff ← sq_cutoff max_age;
  s ← eff_get;
  match sq_by_connection s ≫= (.!! connection_id) with
  | None => mret 0%N
  | Some ids =>
      let expired_ids := sq_expired cutoff (omap (λ id, sq_messages s ≫= (.!! id)) ids) in
      if decide (expired_ids = []) then mret 0%N
      else
        q ← sq_cached;
        _ ← each (λ id, logged (sq_delete_from_storage id)) expired_ids;
        _ ← sq_cache (mkQueue (foldl (λ m id, delete id m) (mq_messages q) expired_ids)
                        (alter (filter (λ i, i ∉ expired_ids)) connection_id (mq_by_connection q)));
        mret (N.of_nat (length expired_ids))
  end.

(** [src/protocols/pickup/src/repository/storage_backed_message_queue.rs:221-480] StorageBackedMessageQueueRepository (as MessageQueueRepositoryTrait) *)
#[export] Instance storage_queue : MessageQueueRepo SQ := {|
  queue_call A c :=
    match c with
    | QAdd m => sq_add_message m
    | QPendingCount c k => sq_get_pending_count c k
    | QTotalBytes c k => sq_get_total_bytes c k
    | QOldest c k => sq_get_oldest_message_time c k
    | QTake c k n => sq_take_from_queue c k n
    | QRemove ids => sq_remove_messages ids
    | QReturn ids => sq_return_to_pending ids
    | QFind i => sq_find_by_id i
    | QClear c => sq_clear_connection c
    | QExpire age => sq_delete_expired age
    | QExpireFor c age => sq_delete_expired_for_connection c age
    end
|}.
End backed.
