(* ===== verification/QueueStore.v ===== *)
(** What a message queue repository promises ([MessageQueueLaws]): every call does what the
    in-memory queue does.  The storage-backed repository keeps the promise over any storage
    that keeps its laws, whatever storage calls fail, and a restart loses no message. *)
From S2P Require Import Prelude AjnaTypes SerdeJson Storage MessageQueue AnonCreds RecordSpec QueueRepo.

(** Two queues with the same messages; the indices may list them in another order. *)
Definition q_same (q q' : MessageQueue) : Prop := mq_messages q' = mq_messages q ∧ mq_ok q'.

(** A call that adds brings a new id. *)
Definition call_new {A} (c : queueE A) (q : MessageQueue) : Prop :=
  match c with QAdd m => mq_messages q !! qm_id m = None | _ => True end.

Class MessageQueueLaws (Q : Type) `{ChronoCutoff} `{HashOrder} `{!MessageQueueRepo Q} := {
  qr_runs : Q → MessageQueue → Prop;
  qr_runs_ok s q : qr_runs s q → mq_ok q;
  qr_simulates {A} (c : queueE A) s q w : qr_runs s q → call_new c q →
    match queue_call c s w with
    | (Ok a, s', _) => ∃ q0 w0 q' w1, q_same q q0 ∧ queue_call c q0 w0 = (Ok a, q', w1) ∧ qr_runs s' q'
    | (_, s', _) => ∃ q0, q_same q q0 ∧ qr_runs s' q0
    end
}.

Section memory.
Context `{ChronoCutoff} `{HashOrder}.

Lemma q_same_refl q : mq_ok q → q_same q q.
Proof. done. Qed.

(** A call on the in-memory queue keeps it consistent. *)
Lemma queue_call_ok {A} (c : queueE A) q w : mq_ok q → call_new c q → mq_ok (queue_call c q w).1.2.
Proof.
  intros Hq Hn. destruct c as [m|c k|c k|c k|c k n|ids|ids|i|c|age|c age]; cbn; try done.
  - by apply mq_add_ok.
  - unfold mq_run. pose proof (mq_step_ok q _ Hq (mq_step_take q c k n)) as Hok. by destruct (mq_take_from_queue q c k n).
  - apply (mq_step_ok q _ Hq (mq_step_remove q ids)).
  - apply (mq_step_ok q _ Hq (mq_step_return q ids)).
  - unfold mq_run. pose proof (mq_step_ok q _ Hq (mq_step_clear q c)) as Hok. by destruct (mq_clear_connection q c).
  - unfold mq_expiry. pose proof (mq_step_ok q _ Hq (mq_step_expire q age w)) as Hok. by destruct (mq_delete_expired q age w) as [[[] ?] ?].
  - unfold mq_expiry. pose proof (mq_step_ok q _ Hq (mq_step_expire_conn q c age w)) as Hok.
    by destruct (mq_delete_expired_for_connection q c age w) as [[[] ?] ?].
Qed.

(** A call on the in-memory queue that does not answer changes nothing. *)
Lemma queue_call_refused {A} (c : queueE A) q w : (∀ a, (queue_call c q w).1.1 ≠ Ok a) → (queue_call c q w).1.2 = q.
Proof.
  destruct c as [m|c k|c k|c k|c k n|ids|ids|i|c|age|c age]; cbn; intros Hn; try done; unfold mq_run, mq_mod, mq_expiry in *.
  - by destruct (Hn (qm_id m)).
  - destruct (mq_take_from_queue q c k n) as [l s]. by destruct (Hn l).
  - by destruct (Hn tt).
  - by destruct (Hn tt).
  - destruct (mq_clear_connection q c) as [num s]. by destruct (Hn num).
  - revert Hn. unfold mq_delete_expired. destruct (expiry_cutoff age w) as [[cut|] w']; [|done]. cbn. intros Hn. by edestruct Hn.
  - revert Hn. unfold mq_delete_expired_for_connection. destruct (expiry_cutoff age w) as [[cut|] w']; [|done].
    destruct (mq_by_connection q !! c); cbn; intros Hn; by edestruct Hn.
Qed.

#[export] Instance memory_queue_laws : MessageQueueLaws MessageQueue.
Proof.
  refine {| qr_runs s q := s = q ∧ mq_ok q |}.
  - by intros s q [_ Hq].
  - intros A c s q w [-> Hq] Hn. pose proof (queue_call_ok c q w Hq Hn) as Hok. pose proof (queue_call_refused c q w) as Href.
    destruct (queue_call c q w) as [[[a|e|] s'] w'] eqn:Hc; cbn in Hok.
    + exists q, w, s', w'. by split_and!.
    + exists q. cbn in Href. split; [done|]. split; [by apply Href|done].
    + exists q. cbn in Href. split; [done|]. split; [by apply Href|done].
Defined.
End memory.

(** * The storage-backed repository *)

Lemma filter_everything {A} (P : A → Prop) `{∀ a, Decision (P a)} (l : list A) : (∀ a, a ∈ l → P a) → filter P l = l.
Proof.
  intros Hl. induction l as [|a l IH]; [done|]. rewrite filter_cons_True by (apply Hl; by left). f_equal. apply IH. intros b Hb. apply Hl. by right.
Qed.
Lemma filter_snd {A B} (P : B → Prop) `{∀ b, Decision (P b)} (l : list (A * B)) : filter P l.*2 = (filter (λ kv, P kv.2) l).*2.
Proof. induction l as [|[a b] l IH]; [done|]. rewrite fmap_cons, !filter_cons. cbn. case_decide; cbn; by rewrite IH. Qed.

(** A storage whose calls answer, with a result or an error, and that lists a record once. *)
Class StorageSteady (ST : Type) `{StorageLaws ST} : Prop := {
  ss_save r s w : (st_save r s w).1.1 ≠ Panic;
  ss_update r s w : (st_update r s w).1.1 ≠ Panic;
  ss_delete c n s w : (st_delete c n s w).1.1 ≠ Panic;
  ss_find_all c q s w : (st_find_all c q s w).1.1 ≠ Panic;
  ss_once c q s w l s' w' : q_limit q = None → q_skip q = None → st_find_all c q s w = (Ok l, s', w') →
    ∃ names, NoDup names ∧ Forall2 (λ n r, st_view s c n = Some r) names l;
  ss_finite s c : ∃ names : list string, ∀ n, is_Some (st_view s c n) → n ∈ names
}.
#[export] Instance memory_storage_steady `{HashOrder} : StorageSteady (gmap string (gmap string AgentRecord)).
Proof.
  constructor; intros; cbn; try done.
  - unfold mem_save. by destruct (_ !! rec_name r).
  - unfold mem_update. by destruct (_ ≫= _).
  - match goal with Hl : q_limit _ = None, Hs : q_skip _ = None, Hr : st_find_all _ _ _ _ = _ |- _ => rename Hl into Hlim, Hs into Hskip, Hr into Hrun end.
    cbn in Hrun. unfold mem_find_all, eff_gets in Hrun. injection Hrun as Hrun _ _.
    unfold st_view; cbn; unfold mem_view. destruct (s !! c) as [cat|]; [|exists []; subst; split; constructor].
    rewrite Hlim, Hskip in Hrun. subst l. cbn. set (f := λ r, mem_matches q r = true).
    exists (filter (λ kv, f kv.2) (map_iter cat)).*1. split.
    + eapply sublist_NoDup; [apply (NoDup_fst_map_iter cat)|]. apply fmap_sublist, sublist_filter.
    + rewrite filter_snd. apply Forall2_fmap_2, Forall_Forall2_diag, Forall_forall. intros [n r] [_ Hin]%list_elem_of_filter.
      by apply elem_of_map_iter.
  - unfold st_view; cbn; unfold mem_view. destruct (s !! c) as [cat|]; [|exists []; cbn; by intros n []].
    exists (map_iter cat).*1. intros n [r Hr]. cbn in Hr. apply elem_of_map_iter_fst. eauto.
Qed.

(** A serializer that answers, with a text or an error. *)
Class SerdeSteady (A : Type) `{Serde A} : Prop := { sd_steady (a : A) : sd_to_text a ≠ Panic }.

Section backed.
Context `{ChronoCutoff} `{HashOrder} `{JsonText} `{Serde QueuedMessage} `{!SerdeLaws QueuedMessage} `{!SerdeSteady QueuedMessage}.
Context {ST : Type} `{!StorageProvider ST} `{!StorageLaws ST} `{!StorageSteady ST}.
Abbreviation SQ := (StorageQueue ST).
Abbreviation sq := (eff PickupError SQ).
Implicit Types (st : ST) (s : SQ) (q : MessageQueue) (x : QueuedMessage).

(** The message that the storage holds under an id; its state does not matter. *)
Definition sq_stored st (id : string) : option QueuedMessage :=
  r ← st_view st MESSAGE_QUEUE_CATEGORY id; match sd_from_text (rec_value r) with Ok m => Some m | _ => None end.
Definition held_message st (id : string) : option QueuedMessage := qm_mark_pending <$> sq_stored st id.
Definition keyed st : Prop := ∀ id x, sq_stored st id = Some x → qm_id x = id.
(** Every message of a queue is stored. *)
Definition durable st (m : gmap string QueuedMessage) : Prop := ∀ id x, m !! id = Some x → held_message st id = Some (qm_mark_pending x).

(** A deletion from the storage succeeds, always. *)
Definition deletes_succeed : Prop := ∀ c n st w, is_Some (st_view st c n) → (st_delete c n st w).1.1 = Ok tt.
(** Then nothing is stored that is not in the queue. *)
Definition tidy st (m : gmap string QueuedMessage) : Prop := deletes_succeed → ∀ id, m !! id = None → held_message st id = None.

(** The queue that a repository runs: what is cached, or what a load will bring. *)
Inductive sq_runs : SQ → MessageQueue → Prop :=
  | runs_unloaded st q : keyed st → mq_ok q → (∀ id, mq_messages q !! id = held_message st id) → sq_runs (mkStorageQueue st None None) q
  | runs_loaded st m b : keyed st → mq_ok (mkQueue m b) → durable st m → tidy st m → sq_runs (mkStorageQueue st (Some m) (Some b)) (mkQueue m b).

Definition loaded st q : SQ := mkStorageQueue st (Some (mq_messages q)) (Some (mq_by_connection q)).
Lemma loaded_runs st q : keyed st → mq_ok q → durable st (mq_messages q) → tidy st (mq_messages q) → sq_runs (loaded st q) q.
Proof. destruct q. apply runs_loaded. Qed.

(** ** Storage calls *)

Lemma stored_write st st' r x :
  sd_from_text (rec_value r) = Ok x → rec_category r = MESSAGE_QUEUE_CATEGORY → rec_name r = qm_id x →
  (∀ c n, st_view st' c n = if decide (c = rec_category r ∧ n = rec_name r) then Some r else st_view st c n) →
  ∀ id, sq_stored st' id = if decide (id = qm_id x) then Some x else sq_stored st id.
Proof.
  intros Hd Hc Hn Hv id. unfold sq_stored. rewrite Hv, Hc, Hn. case_decide as Ha; case_decide as Hb; cbn; try naive_solver. by rewrite Hd.
Qed.

(** What a run of storage calls keeps: messages are stored under their ids, and what is held
    is as before, apart from ids that may have been deleted. *)
Definition st_keeps (gone : string → Prop) st st' : Prop :=
  keyed st' ∧ ∀ id, held_message st' id = held_message st id ∨ (gone id ∧ held_message st' id = None).
Lemma st_keeps_refl gone st : keyed st → st_keeps gone st st.
Proof. intros Hk. split; [done|]. by left. Qed.
Lemma st_keeps_trans gone st st1 st2 : st_keeps gone st st1 → st_keeps gone st1 st2 → st_keeps gone st st2.
Proof. intros [_ H1'] [Hk H2']. split; [done|]. intros id. destruct (H2' id) as [->|]; [|by right]. apply H1'. Qed.
Lemma st_keeps_view gone st st' : keyed st → (∀ c n, st_view st' c n = st_view st c n) → st_keeps gone st st'.
Proof.
  intros Hk Hv. assert (Hs : ∀ id, sq_stored st' id = sq_stored st id) by (intros id; unfold sq_stored; by rewrite Hv).
  split; [intros id x; rewrite Hs; apply Hk|]. intros id. left. unfold held_message. by rewrite Hs.
Qed.

(** What is held after was held before, or is a message that a granted call added. *)
Definition grows st st' : Prop := ∀ id x, held_message st' id = Some x → held_message st id = Some x.
Definition brought {A} (c : queueE A) (x : QueuedMessage) : Prop := match c with QAdd m => x = qm_mark_pending m | _ => False end.
Definition grows_by {A} (c : queueE A) st st' : Prop := ∀ id x, held_message st' id = Some x → held_message st id = Some x ∨ brought c x.
Lemma keeps_grows gone st st' : st_keeps gone st st' → grows st st'.
Proof. intros [_ Hv] id x Hx. destruct (Hv id) as [<-|[_ Hn]]; [done|congruence]. Qed.
Lemma grows_then {A} (c : queueE A) st st' : grows st st' → grows_by c st st'.
Proof. intros Hg id x Hx. left. by apply Hg. Qed.
Lemma grows_trans st st1 st2 : grows st st1 → grows st1 st2 → grows st st2.
Proof. intros H1' H2' id x Hx. by apply H1', H2'. Qed.

Lemma tidy_keeps (gone : string → Prop) st st' m m' :
  tidy st m → st_keeps gone st st' → (∀ id, m' !! id = None → m !! id = None ∨ (deletes_succeed → held_message st' id = None)) → tidy st' m'.
Proof.
  intros Ht [_ Hv] Hm HD id Hid. destruct (Hm id Hid) as [Hn|Hn]; [|by apply Hn].
  destruct (Hv id) as [->|[_ Hgone]]; [by apply Ht|done].
Qed.
Lemma durable_keeps (gone : string → Prop) st st' m m' :
  durable st m → st_keeps gone st st' → m' ⊆ m → (∀ id x, m' !! id = Some x → ¬ gone id) → durable st' m'.
Proof.
  intros Hd [_ Hv] Hsub Hg id x Hx. destruct (Hv id) as [->|[Hgone _]]; [|by destruct (Hg id x Hx)].
  apply Hd. by eapply lookup_weaken.
Qed.

(** An update of a stored message, and a deletion, with their errors logged. *)
Lemma update_held gone st mo bo x w :
  keyed st → held_message st (qm_id x) = Some (qm_mark_pending x) →
  ∃ st' w', logged (sq_update_in_storage x) (mkStorageQueue st mo bo) w = (Ok tt, mkStorageQueue st' mo bo, w') ∧ st_keeps gone st st'.
Proof.
  intros Hk Hx. unfold logged, sq_update_in_storage, sq_record, eff_catch, mbind, eff_bind, eff_lift.
  destruct (sd_to_text x) as [v|e|] eqn:Hv; [|by exists st, w; split; [|apply st_keeps_refl]|by destruct (sd_steady x)].
  unfold sq_on_storage, eff_zoom. cbn [sq_storage sq_messages sq_by_connection]. set (r := mkRecord _ _ _ _).
  pose proof (st_update_law r st w) as Hu. pose proof (ss_update r st w) as Hp. destruct (st_update r st w) as [[[[]|e|] st'] w']; [| |by destruct Hp].
  - exists st', w'. split; [done|]. destruct Hu as [_ Hu].
    assert (Hs := stored_write st st' r x (sd_text_back _ _ Hv) eq_refl eq_refl Hu). split.
    + intros id y. rewrite Hs. case_decide; [by intros [= <-]|apply Hk].
    + intros id. left. unfold held_message. rewrite Hs. case_decide as Hid; [|done]. subst. symmetry. exact Hx.
  - exists st', w'. split; [done|]. by apply st_keeps_view.
Qed.
Lemma delete_held (gone : string → Prop) st mo bo i w :
  keyed st → gone i →
  ∃ st' w', logged (sq_delete_from_storage i) (mkStorageQueue st mo bo) w = (Ok tt, mkStorageQueue st' mo bo, w') ∧ st_keeps gone st st' ∧
    (deletes_succeed → held_message st' i = None).
Proof.
  intros Hk Hi. unfold logged, sq_delete_from_storage, eff_catch, mbind, eff_bind, sq_on_storage, eff_zoom.
  cbn [sq_storage sq_messages sq_by_connection].
  pose proof (st_delete_law MESSAGE_QUEUE_CATEGORY i st w) as Hd. pose proof (ss_delete MESSAGE_QUEUE_CATEGORY i st w) as Hp.
  destruct (st_delete MESSAGE_QUEUE_CATEGORY i st w) as [[[[]|e|] st'] w'] eqn:Hrun; [| |by destruct Hp].
  - exists st', w'. split; [done|].
    assert (Hs : ∀ id, sq_stored st' id = if decide (id = i) then None else sq_stored st id).
    { intros id. unfold sq_stored. rewrite Hd. case_decide as Ha; case_decide as Hb; naive_solver. }
    split; [split; [intros id x; rewrite Hs; case_decide; [done|apply Hk]|]; intros id; unfold held_message; rewrite Hs; case_decide; subst; auto|].
    intros _. unfold held_message. by rewrite Hs, decide_True.
  - exists st', w'. split; [done|]. split; [by apply st_keeps_view|]. intros HD. specialize (HD MESSAGE_QUEUE_CATEGORY i st w).
    unfold held_message, sq_stored. rewrite Hd. destruct (st_view st MESSAGE_QUEUE_CATEGORY i) as [r|]; [|done].
    rewrite Hrun in HD. by specialize (HD ltac:(by eexists)).
Qed.

(** The same for a list. *)
Lemma each_keeps {A} (gone : string → Prop) (f : A → sq unit) (ok : A → Prop) st0 mo bo l w :
  (∀ st a w, keyed st → st_keeps gone st0 st → ok a →
     ∃ st' w', f a (mkStorageQueue st mo bo) w = (Ok tt, mkStorageQueue st' mo bo, w') ∧ st_keeps gone st st') →
  keyed st0 → Forall ok l →
  ∃ st' w', each f l (mkStorageQueue st0 mo bo) w = (Ok tt, mkStorageQueue st' mo bo, w') ∧ st_keeps gone st0 st'.
Proof.
  intros Hf Hk Hl. assert (Hgen : ∀ l st w, Forall ok l → st_keeps gone st0 st →
    ∃ st' w', each f l (mkStorageQueue st mo bo) w = (Ok tt, mkStorageQueue st' mo bo, w') ∧ st_keeps gone st0 st').
  { clear l w Hl. induction l as [|a l IH]; intros st w Hl Hst; [by exists st, w|]. inversion Hl as [|? ? Ha Hl']; subst.
    destruct (Hf st a w (proj1 Hst) Hst Ha) as (st1 & w1 & Hrun & Hk1).
    destruct (IH st1 w1 Hl') as (st2 & w2 & Hrun2 & Hk2); [by eapply st_keeps_trans|].
    exists st2, w2. split; [|done]. unfold each. cbn [eff_fold]. rewrite (eff_bind_run _ _ _ _ _ _ _ Hrun). exact Hrun2. }
  apply Hgen; [done|by apply st_keeps_refl].
Qed.
Lemma updates_held st m mo bo l w :
  keyed st → durable st m → Forall (λ x, m !! qm_id x = Some x) l →
  ∃ st' w', each (λ x, logged (sq_update_in_storage x)) l (mkStorageQueue st mo bo) w = (Ok tt, mkStorageQueue st' mo bo, w') ∧
    st_keeps (λ _, False) st st'.
Proof.
  intros Hk Hd. apply each_keeps; [|done]. intros st1 x w1 Hk1 [_ Hkeep] Hx. apply update_held; [done|].
  destruct (Hkeep (qm_id x)) as [->|[[] _]]. by apply Hd.
Qed.
Lemma deletes_held st mo bo ids w :
  keyed st → ∃ st' w', each (λ id, logged (sq_delete_from_storage id)) ids (mkStorageQueue st mo bo) w = (Ok tt, mkStorageQueue st' mo bo, w') ∧
    st_keeps (λ id, id ∈ ids) st st' ∧ (deletes_succeed → ∀ id, id ∈ ids → held_message st' id = None).
Proof.
  revert st w. induction ids as [|i ids IH]; intros st w Hk.
  { exists st, w. split; [done|]. split; [by apply st_keeps_refl|]. by intros _ id []%elem_of_nil. }
  destruct (delete_held (λ id, id ∈ i :: ids) st mo bo i w Hk) as (st1 & w1 & Hrun & Hk1 & Hi); [by left|].
  destruct (IH st1 w1 (proj1 Hk1)) as (st2 & w2 & Hrun2 & [Hk2 Hv2] & Hids). exists st2, w2. split; [|split].
  - unfold each. cbn [eff_fold]. rewrite (eff_bind_run _ _ _ _ _ _ _ Hrun). exact Hrun2.
  - eapply st_keeps_trans; [exact Hk1|]. split; [done|]. intros id. destruct (Hv2 id) as [?|[? ?]]; [by left|right]. split; [by right|done].
  - intros HD id [->|Hin]%elem_of_cons; [|by apply Hids]. destruct (Hv2 i) as [->|[_ ?]]; [by apply Hi|done].
Qed.

(** ** Loading *)

Lemma mark_pending_idem x : qm_mark_pending (qm_mark_pending x) = qm_mark_pending x.
Proof. done. Qed.
Lemma mark_pending_pending x : qm_state x ≠ Sending → qm_mark_pending x = x.
Proof. destruct x as [? ? ? ? ? []]; [done|]. by intros []. Qed.

Lemma sq_loaded_spec st names l :
  keyed st → NoDup names → Forall2 (λ n r, st_view st MESSAGE_QUEUE_CATEGORY n = Some r) names l →
  mq_ok (sq_loaded l) ∧ ∀ id, mq_messages (sq_loaded l) !! id = if decide (id ∈ names) then sq_stored st id else None.
Proof.
  intros Hk Hnd Hl. revert names Hnd Hl. induction l as [|r l IH] using rev_ind; intros names Hnd Hl.
  { apply Forall2_nil_inv_r in Hl as ->. split; [apply mq_new_ok|]. intros id. cbn. by rewrite lookup_empty. }
  apply Forall2_app_inv_r in Hl as (ns & nr & Hl & Hr & ->). apply Forall2_cons_inv_r in Hr as (n & ns' & Hr & ->%Forall2_nil_inv_r & ->).
  apply NoDup_app in Hnd as (Hnd & Hdis & _). destruct (IH ns Hnd Hl) as [Hok Hm]. unfold sq_loaded in *. rewrite foldl_app. cbn [foldl].
  set (q := foldl sq_load_record mq_new l) in *.
  assert (Hst : sq_stored st n = match sd_from_text (rec_value r) with Ok x => Some x | _ => None end) by (unfold sq_stored; by rewrite Hr).
  assert (Hn : n ∉ ns) by (intros Hin; apply (Hdis n Hin); set_solver).
  unfold sq_load_record. destruct (sd_from_text (rec_value r)) as [x|e|].
  - assert (Hid : qm_id x = n) by by apply Hk. split.
    + apply (mq_add_ok q x Hok). rewrite Hm, decide_False; [done|by rewrite Hid].
    + intros id. cbn. rewrite Hid. destruct (decide (id = n)) as [->|Hne].
      * rewrite lookup_insert_eq, decide_True by set_solver. done.
      * rewrite lookup_insert_ne, Hm by done. apply decide_ext. set_solver.
  - split; [done|]. intros id. rewrite Hm. destruct (decide (id = n)) as [->|Hne]; [|apply decide_ext; set_solver].
    rewrite Hst. by repeat case_decide.
  - split; [done|]. intros id. rewrite Hm. destruct (decide (id = n)) as [->|Hne]; [|apply decide_ext; set_solver].
    rewrite Hst. by repeat case_decide.
Qed.

(** A load brings the stored messages, all of them pending. *)
Lemma ensure_loaded_spec s q w :
  sq_runs s q →
  match sq_ensure_loaded s w with
  | (Ok _, s', _) => ∃ st' q', s' = loaded st' q' ∧ q_same q q' ∧ grows (sq_storage s) st' ∧ keyed st' ∧ durable st' (mq_messages q') ∧
      tidy st' (mq_messages q')
  | (Err e, s', _) => sq_runs s' q ∧ grows (sq_storage s) (sq_storage s')
  | (Panic, _, _) => False
  end.
Proof.
  intros Hs. unfold sq_ensure_loaded, mbind, eff_bind, eff_get. destruct Hs as [st q Hk Hok Hm|st m b Hk Hok Hd Ht].
  2:{ cbn. exists st, (mkQueue m b). do 2 (split; [done|]). split; [by intros id x|done]. }
  cbn [sq_messages]. unfold sq_on_storage, eff_zoom. cbn [sq_storage sq_messages sq_by_connection].
  pose proof (st_find_all_law MESSAGE_QUEUE_CATEGORY q_new st w) as Hf. pose proof (ss_find_all MESSAGE_QUEUE_CATEGORY q_new st w) as Hp.
  pose proof (ss_once MESSAGE_QUEUE_CATEGORY q_new st w) as Hone.
  destruct (st_find_all MESSAGE_QUEUE_CATEGORY q_new st w) as [[[l|e|] st1] w1]; [| |by destruct Hp].
  2:{ pose proof (st_keeps_view (λ _, False) st st1 Hk Hf) as Hkeep. split; [|by eapply keeps_grows]. destruct Hkeep as [Hk1 Hv].
      apply runs_unloaded; [done|done|]. intros id. by destruct (Hv id) as [->|[[] _]]. }
  destruct Hf as (Hin & Hall & Hview). destruct (Hone l st1 w1 eq_refl eq_refl eq_refl) as (names & Hnd & Hnames).
  destruct (st_keeps_view (λ _, False) st st1 Hk Hview) as [Hk1 Hv1].
  destruct (sq_loaded_spec st names l Hk Hnd Hnames) as [Hqok Hqm]. set (q0 := sq_loaded l) in *.
  assert (Hstored : ∀ id, mq_messages q0 !! id = sq_stored st id).
  { intros id. rewrite Hqm. case_decide as Hid; [done|]. destruct (sq_stored st id) as [x|] eqn:Hx; [|done]. exfalso. apply Hid.
    pose proof (Hk _ _ Hx) as Hxid. revert Hx. unfold sq_stored. intros (r & Hr & Hdec)%bind_Some.
    assert (Hrl : r ∈ l) by (apply (Hall eq_refl eq_refl id r Hr); by intros k v).
    apply list_elem_of_lookup in Hrl as [i Hi]. destruct (Forall2_lookup_r _ _ _ _ _ Hnames Hi) as (n & Hni & Hnr).
    assert (Hn : sq_stored st n = Some x) by (unfold sq_stored; by rewrite Hnr). rewrite <-Hxid, (Hk _ _ Hn). by eapply list_elem_of_lookup_2. }
  set (orphans := filter _ _). set (msg_map := foldl _ _ _).
  assert (Hmap : ∀ id, msg_map !! id = held_message st1 id).
  { intros id. unfold msg_map. rewrite (foldl_alter_lookup qm_mark_pending (λ i : string, i)) by done. rewrite list_fmap_id, Hstored.
    destruct (Hv1 id) as [->|[[] _]]. unfold held_message. case_decide as Hid; [done|]. destruct (sq_stored st id) as [x|] eqn:Hx; [|done]. cbn.
    rewrite mark_pending_pending; [done|]. intros Hsend. apply Hid, list_elem_of_fmap. exists (id, x). split; [done|].
    apply list_elem_of_filter. split; [done|]. apply elem_of_map_iter. by rewrite Hstored. }
  destruct (each_keeps (λ _, False) (λ id, match msg_map !! id with Some msg => logged (sq_update_in_storage msg) | None => mret tt end)
    (λ _, True) st1 None None orphans.*1 w1) as (st2 & w2 & Hrun & Hk2 & Hv2); [|done|by apply Forall_forall|].
  { intros st2 id w2 Hk2 [_ Hkeep] _. destruct (msg_map !! id) as [x|] eqn:Hx; [|by exists st2, w2; split; [|apply st_keeps_refl]].
    apply update_held; [done|]. rewrite Hmap in Hx. pose proof Hx as Hheld. unfold held_message in Hx.
    destruct (sq_stored st1 id) as [y|] eqn:Hy; [|done]. injection Hx as <-. cbn. rewrite (Hk1 _ _ Hy).
    destruct (Hkeep id) as [->|[[] _]]. done. }
  rewrite Hrun. unfold eff_modify. cbn.
  assert (Hd : durable st2 msg_map).
  { intros id x Hx. rewrite Hmap in Hx. destruct (Hv2 id) as [->|[[] _]]. rewrite Hx. unfold held_message in Hx.
    destruct (sq_stored st1 id) as [y|]; [|done]. by injection Hx as <-. }
  assert (Hok' : mq_ok (mkQueue msg_map (mq_by_connection q0))).
  { unfold msg_map. apply (mq_states_alter (λ i : string, i) Pending). done. }
  exists st2, (mkQueue msg_map (mq_by_connection q0)). split_and!; try done.
  - split; [|done]. cbn. apply map_eq. intros id. rewrite Hm, Hmap. by destruct (Hv1 id) as [->|[[] _]].
  - eapply (grows_trans _ st1); [by apply (keeps_grows (λ _, False))|]. apply (keeps_grows (λ _, False)). by split.
  - intros _ id Hid. cbn in Hid. rewrite Hmap in Hid. by destruct (Hv2 id) as [->|[[] _]].
Qed.

(** ** Every call does what the in-memory queue does *)

(** From a loaded repository. *)
Definition does {A} (c : queueE A) (k : sq A) st q w : Prop :=
  match k (loaded st q) w with
  | (Ok a, s', _) => (∃ w0 q' w1, queue_call c q w0 = (Ok a, q', w1) ∧ sq_runs s' q') ∧ grows_by c st (sq_storage s')
  | (_, s', _) => sq_runs s' q ∧ grows st (sq_storage s')
  end.
Definition stands_loaded st q : Prop := keyed st ∧ mq_ok q ∧ durable st (mq_messages q) ∧ tidy st (mq_messages q).
Lemma stands_runs st q : stands_loaded st q → sq_runs (loaded st q) q.
Proof. intros (Hk & Hok & Hd & Ht). by apply loaded_runs. Qed.
Lemma grows_refl st : grows st st.
Proof. by intros id x. Qed.

Lemma cached_run st q w : sq_cached (loaded st q) w = (Ok q, loaded st q, w).
Proof. by destruct q. Qed.
Lemma cache_run st q q' w : sq_cache q' (loaded st q) w = (Ok tt, loaded st q', w).
Proof. done. Qed.
Lemma cached_then {A} (k : MessageQueue → sq A) st q w : (q ← sq_cached; k q) (loaded st q) w = k q (loaded st q) w.
Proof. by rewrite (eff_bind_run _ _ _ _ _ _ _ (cached_run st q w)). Qed.

Lemma reads_do {A} (c : queueE A) (f : MessageQueue → A) st q w :
  stands_loaded st q → (∀ w0, queue_call c q w0 = (Ok (f q), q, w0)) → does c (q ← sq_cached; mret (f q)) st q w.
Proof.
  intros Hst Hc. unfold does. rewrite cached_then. cbn. split; [|by apply grows_then, grows_refl].
  exists w, q, w. split; [by rewrite Hc|by apply stands_runs].
Qed.

Lemma stands_keeps (gone : string → Prop) st st' q m b :
  stands_loaded st q → st_keeps gone st st' → mq_ok (mkQueue m b) →
  (∀ id x, m !! id = Some x → ¬ gone id ∧ ∃ y, mq_messages q !! id = Some y ∧ qm_mark_pending y = qm_mark_pending x) →
  (∀ id, m !! id = None → mq_messages q !! id = None ∨ (deletes_succeed → held_message st' id = None)) →
  stands_loaded st' (mkQueue m b).
Proof.
  intros (Hk & Hok & Hd & Ht) Hkeep Hok' Hm Hn. split_and!; [apply Hkeep|done| |by eapply tidy_keeps].
  intros id x Hx. destruct (Hm id x Hx) as (Hg & y & Hy & Hyx).
  destruct (proj2 Hkeep id) as [->|[Hgone _]]; [|done]. by rewrite (Hd id y Hy), Hyx.
Qed.

Lemma add_does m st q w : stands_loaded st q →
  does (QAdd m) (_ ← sq_persist m; q ← sq_cached; let '(id, q') := mq_add_message q m in _ ← sq_cache q'; mret id) st q w.
Proof.
  intros Hst. pose proof Hst as (Hk & Hok & Hd & Ht). unfold does, sq_persist, sq_record.
  destruct (sd_to_text m) as [v|e|] eqn:Hv; [|by split; [apply stands_runs|apply grows_refl]|by destruct (sd_steady m)].
  unfold mbind, eff_bind, eff_lift, sq_on_storage, eff_zoom. cbn [sq_storage sq_messages sq_by_connection loaded]. set (r := mkRecord _ _ _ _).
  pose proof (st_save_law r st w) as Hs. pose proof (ss_save r st w) as Hp. destruct (st_save r st w) as [[[[]|e|] st'] w']; [| |by destruct Hp].
  - destruct Hs as [Hfree Hs]. cbn. assert (Hw := stored_write st st' r m (sd_text_back _ _ Hv) eq_refl eq_refl Hs).
    assert (Hnew : mq_messages q !! qm_id m = None).
    { destruct (mq_messages q !! qm_id m) as [x|] eqn:Hx; [|done]. apply Hd in Hx. unfold held_message, sq_stored in Hx. cbn in Hfree. by rewrite Hfree in Hx. }
    split.
    2:{ intros id x. unfold held_message. rewrite Hw. case_decide; [|by left]. intros [= <-]. by right. }
    exists w, (mq_add_message q m).2, w. split; [done|]. destruct q as [ms b]. cbn. apply runs_loaded.
    + intros id x. rewrite Hw. case_decide; [by intros [= <-]|apply Hk].
    + by apply (mq_add_ok (mkQueue ms b) m).
    + intros id x. unfold held_message. rewrite Hw. intros [[<- <-]|[Hne Hx]]%lookup_insert_Some; [by rewrite decide_True|].
      rewrite decide_False by done. by apply Hd.
    + intros HD id. unfold held_message. rewrite Hw. intros [Hid Hne]%lookup_insert_None. rewrite decide_False by done. by apply Ht.
  - pose proof (st_keeps_view (λ _, False) st st' Hk Hs) as Hkeep. split; [|by eapply keeps_grows].
    apply (loaded_runs st' q); [apply Hkeep|done| |].
    + eapply (durable_keeps (λ _, False)); [done|exact Hkeep|done|naive_solver].
    + eapply (tidy_keeps (λ _, False)); [exact Ht|exact Hkeep|by left].
Qed.

Lemma take_does c k n st q w : stands_loaded st q →
  does (QTake c k n)
    (q ← sq_cached; let '(taken, q') := mq_take_from_queue q c k n in
     _ ← sq_cache q'; _ ← each (λ msg, logged (sq_update_in_storage msg)) (omap (λ msg, mq_messages q' !! qm_id msg) taken); mret taken) st q w.
Proof.
  intros Hst. pose proof Hst as (Hk & Hok & Hd & Ht). unfold does. rewrite cached_then.
  pose proof (mq_step_ok q _ Hok (mq_step_take q c k n)) as Hok'.
  assert (Hstates : ∀ id x, mq_messages (mq_take_from_queue q c k n).2 !! id = Some x → ∃ y, mq_messages q !! id = Some y ∧ qm_mark_pending y = qm_mark_pending x).
  { unfold mq_take_from_queue. destruct (mq_by_connection q !! c); [|by eauto]. cbn. intros id x.
    rewrite (foldl_alter_lookup qm_mark_sending qm_id) by done. case_decide; [|by eauto].
    destruct (mq_messages q !! id) as [y|]; [|done]. cbn. intros [= <-]. by exists y. }
  assert (Hnone : ∀ id, mq_messages (mq_take_from_queue q c k n).2 !! id = None → mq_messages q !! id = None).
  { unfold mq_take_from_queue. destruct (mq_by_connection q !! c); [|done]. cbn. intros id.
    rewrite (foldl_alter_lookup qm_mark_sending qm_id) by done. case_decide; [by intros ?%fmap_None|done]. }
  destruct (mq_take_from_queue q c k n) as [taken q'] eqn:Htake. cbn in Hok', Hstates, Hnone.
  rewrite (eff_bind_run _ _ _ _ _ _ _ (cache_run st q q' w)).
  assert (Hst' : stands_loaded st q').
  { destruct q' as [m b]. apply (stands_keeps (λ _, False) st st q); [done|by apply st_keeps_refl|done| |].
    - intros id x Hx. split; [naive_solver|]. by apply Hstates.
    - intros id Hid. left. by apply Hnone. }
  destruct (updates_held st (mq_messages q') (Some (mq_messages q')) (Some (mq_by_connection q')) (omap (λ msg, mq_messages q' !! qm_id msg) taken) w)
    as (st' & w' & Hrun & Hkeep); [done|apply Hst'|apply Forall_forall|].
  { intros x (y & _ & Hy)%list_elem_of_omap. by rewrite (mqo_id q' Hok' _ _ Hy). }
  rewrite (eff_bind_run _ _ _ _ _ _ _ Hrun). cbn. split; [|by eapply grows_then, keeps_grows].
  exists w, q', w. unfold mq_run. rewrite Htake. split; [done|].
  apply stands_runs. destruct q' as [m b]. apply (stands_keeps (λ _, False) st st' (mkQueue m b)); [done..| |by left].
  intros id x Hx. split; [naive_solver|]. by exists x.
Qed.

(** A step of a loop on a loaded repository. *)
Lemma each_loaded {A} (f : A → sq unit) (g : MessageQueue → A → MessageQueue) l st q w :
  (∀ st q a w, stands_loaded st q →
     ∃ st' w', f a (loaded st q) w = (Ok tt, loaded st' (g q a), w') ∧ stands_loaded st' (g q a) ∧ grows st st') →
  stands_loaded st q →
  ∃ st' w', each f l (loaded st q) w = (Ok tt, loaded st' (foldl g q l), w') ∧ stands_loaded st' (foldl g q l) ∧ grows st st'.
Proof.
  intros Hf. revert st q w. induction l as [|a l IH]; intros st q w Hst; [exists st, w; split; [done|split; [done|apply grows_refl]]|].
  destruct (Hf st q a w Hst) as (st1 & w1 & Hrun & Hst1 & Hg1). destruct (IH st1 (g q a) w1 Hst1) as (st2 & w2 & Hrun2 & Hst2 & Hg2).
  exists st2, w2. split; [|split; [done|by eapply grows_trans]]. unfold each. cbn [eff_fold]. rewrite (eff_bind_run _ _ _ _ _ _ _ Hrun). exact Hrun2.
Qed.

Lemma stands_delete (gone : string → Prop) st st' q q' :
  stands_loaded st q → st_keeps gone st st' → mq_ok q' → mq_messages q' ⊆ mq_messages q →
  (∀ id, gone id → mq_messages q' !! id = None) → (∀ id, mq_messages q' !! id = None → gone id ∨ mq_messages q !! id = None) →
  (deletes_succeed → ∀ id, gone id → held_message st' id = None) → stands_loaded st' q'.
Proof.
  intros Hst Hkeep Hok' Hsub Hgone Hleft Hdel. destruct q' as [m b]. apply (stands_keeps gone st st' q); [done..| |].
  - intros id x Hx. split.
    + intros Hg. specialize (Hgone id Hg). cbn in Hgone. congruence.
    + exists x. split; [|done]. by eapply lookup_weaken.
  - intros id Hid. destruct (Hleft id Hid) as [Hg|Hn]; [right|by left]. intros HD. by apply (Hdel HD).
Qed.

Lemma remove_lookup q i id : mq_messages (mq_remove_message q i) !! id = if decide (id = i) then None else mq_messages q !! id.
Proof.
  unfold mq_remove_message. destruct (mq_messages q !! i) as [x|] eqn:Hx; cbn.
  - case_decide; [subst; by rewrite lookup_delete_eq|by rewrite lookup_delete_ne].
  - case_decide; by subst.
Qed.
Lemma remove_does ids st q w : stands_loaded st q →
  does (QRemove ids)
    (_ ← sq_cached; each (λ id, _ ← logged (sq_delete_from_storage id); q ← sq_cached; sq_cache (mq_remove_message q id)) ids) st q w.
Proof.
  intros Hst. unfold does. rewrite (cached_then (λ _, _)).
  destruct (each_loaded (λ id, _ ← logged (sq_delete_from_storage id); q ← sq_cached; sq_cache (mq_remove_message q id))
    mq_remove_message ids st q w) as (st' & w' & Hrun & Hst' & Hg); [|done|].
  - clear st q w Hst. intros st q i w Hst. pose proof Hst as (Hk & Hok & Hd & Ht).
    destruct (delete_held (λ id, id = i) st (Some (mq_messages q)) (Some (mq_by_connection q)) i w Hk eq_refl) as (st1 & w1 & Hrun & Hkeep & Hdel).
    exists st1, w1. rewrite (eff_bind_run _ _ _ _ _ _ _ Hrun). split.
    { change (mkStorageQueue st1 (Some (mq_messages q)) (Some (mq_by_connection q))) with (loaded st1 q). by rewrite cached_then. }
    split; [|by eapply keeps_grows].
    eapply (stands_delete (λ id, id = i)); [done|done|by apply mq_remove_message_ok| | | |].
    + apply map_subseteq_spec. intros id x. rewrite remove_lookup. by case_decide.
    + intros id ->. by rewrite remove_lookup, decide_True.
    + intros id. rewrite remove_lookup. case_decide; auto.
    + by intros HD id ->; apply Hdel.
  - rewrite Hrun. split; [|by apply grows_then]. exists w, (mq_remove_messages q ids), w. split; [done|by apply stands_runs].
Qed.

Lemma return_does ids st q w : stands_loaded st q →
  does (QReturn ids)
    (each (λ id,
      s ← eff_get;
      match sq_messages s with
      | None => eff_lift Panic
      | Some msg_map =>
          match msg_map !! id with
          | None => mret tt
          | Some msg =>
              let msg := qm_mark_pending msg in
              _ ← eff_modify (λ s, mkStorageQueue (sq_storage s) (Some (<[id := msg]> msg_map)) (sq_by_connection s));
              logged (sq_update_in_storage msg)
          end
      end) ids) st q w.
Proof.
  intros Hst. unfold does. set (f := λ id : string, _).
  destruct (each_loaded f (λ q id, mkQueue (alter qm_mark_pending id (mq_messages q)) (mq_by_connection q)) ids st q w)
    as (st' & w' & Hrun & Hst' & Hg); [|done|].
  - clear st q w Hst. intros st q i w Hst. pose proof Hst as (Hk & Hok & Hd & Ht). unfold f. rewrite (eff_bind_run eff_get _ _ _ (loaded st q) _ _ eq_refl).
    cbn [loaded sq_messages]. destruct (mq_messages q !! i) as [x|] eqn:Hx.
    + set (m' := <[i := qm_mark_pending x]> (mq_messages q)).
      assert (Hm' : alter qm_mark_pending i (mq_messages q) = m').
      { apply map_eq. intros id. unfold m'. destruct (decide (id = i)) as [->|Hne].
        - by rewrite lookup_alter_eq, Hx, lookup_insert_eq.
        - by rewrite lookup_alter_ne, lookup_insert_ne. }
      rewrite Hm'. assert (Hok' : mq_ok (mkQueue m' (mq_by_connection q))).
      { rewrite <-Hm'. apply (mq_states_alter (λ i : string, i) Pending [i] q Hok). }
      change (∃ st' w', logged (sq_update_in_storage (qm_mark_pending x)) (mkStorageQueue st (Some m') (Some (mq_by_connection q))) w =
        (Ok tt, loaded st' (mkQueue m' (mq_by_connection q)), w') ∧ stands_loaded st' (mkQueue m' (mq_by_connection q)) ∧ grows st st').
      destruct (update_held (λ _, False) st (Some m') (Some (mq_by_connection q)) (qm_mark_pending x) w Hk) as (st' & w' & Hrun & Hkeep).
      { cbn. rewrite (mqo_id q Hok i x Hx). exact (Hd i x Hx). }
      exists st', w'. split; [exact Hrun|]. split; [|by eapply keeps_grows].
      apply (stands_keeps (λ _, False) st st' q m'); [exact Hst|exact Hkeep|exact Hok'| |].
      * intros id y Hy. split; [naive_solver|]. unfold m' in Hy. apply lookup_insert_Some in Hy as [[<- <-]|[_ Hy]]; [by exists x|by exists y].
      * intros id [Hid _]%lookup_insert_None. by left.
    + exists st, w. replace (alter qm_mark_pending i (mq_messages q)) with (mq_messages q).
      2:{ apply map_eq. intros id. destruct (decide (id = i)) as [->|Hne]; [by rewrite lookup_alter_eq, Hx|by rewrite lookup_alter_ne]. }
      destruct q. split; [done|]. split; [done|apply grows_refl].
  - rewrite Hrun. split; [|by apply grows_then]. exists w, (mq_return_to_pending q ids), w. split; [done|].
    assert (Heq : foldl (λ q id, mkQueue (alter qm_mark_pending id (mq_messages q)) (mq_by_connection q)) q ids = mq_return_to_pending q ids).
    { clear. revert q. induction ids as [|i ids IH]; intros q; [by destruct q|]. cbn [foldl]. by rewrite IH. }
    rewrite Heq in *. by apply stands_runs.
Qed.

Lemma clear_does c st q w : stands_loaded st q →
  does (QClear c)
    (q ← sq_cached;
     let ids := default [] (mq_by_connection q !! c) in
     let '(count, q') := mq_clear_connection q c in
     _ ← each (λ id, logged (sq_delete_from_storage id)) ids; _ ← sq_cache q'; mret count) st q w.
Proof.
  intros Hst. pose proof Hst as (Hk & Hok & Hd & Ht). unfold does. rewrite cached_then. cbv zeta.
  pose proof (mq_clear_ok q c Hok) as Hok'.
  assert (Hm : ∀ id, mq_messages (mq_clear_connection q c).2 !! id =
    if decide (id ∈ default [] (mq_by_connection q !! c)) then None else mq_messages q !! id).
  { intros id. unfold mq_clear_connection. destruct (mq_by_connection q !! c); cbn; [apply foldl_delete_lookup|]. by rewrite decide_False by set_solver. }
  destruct (mq_clear_connection q c) as [count q'] eqn:Hc. cbn in Hok', Hm.
  destruct (deletes_held st (Some (mq_messages q)) (Some (mq_by_connection q)) (default [] (mq_by_connection q !! c)) w Hk) as (st' & w' & Hrun & Hkeep & Hdel).
  rewrite (eff_bind_run _ _ _ _ _ _ _ Hrun). cbn. split; [|by eapply grows_then, keeps_grows].
  exists w, q', w. unfold mq_run. rewrite Hc. split; [done|].
  change (sq_runs (loaded st' q') q'). apply stands_runs.
  eapply (stands_delete (λ id, id ∈ default [] (mq_by_connection q !! c))); [done|done|done| | | |done].
  - apply map_subseteq_spec. intros id x. rewrite Hm. by case_decide.
  - intros id Hid. by rewrite Hm, decide_True.
  - intros id. rewrite Hm. case_decide; auto.
Qed.

(** Expired messages leave one by one. *)
Lemma foldl_remove_lookup ids q id :
  mq_messages (foldl mq_remove_message q ids) !! id = if decide (id ∈ ids) then None else mq_messages q !! id.
Proof.
  revert q. induction ids as [|i ids IH]; intros q; cbn [foldl]; [done|]. rewrite IH, remove_lookup.
  destruct (decide (id = i)) as [->|Hne].
  - rewrite (decide_True (P := i ∈ i :: ids)) by left. by case_decide.
  - apply decide_ext. rewrite elem_of_cons. naive_solver.
Qed.
Lemma foldl_remove_ok ids q : mq_ok q → mq_ok (foldl mq_remove_message q ids).
Proof. revert q. induction ids as [|i ids IH]; intros q Hq; [done|]. by apply IH, mq_remove_message_ok. Qed.
Lemma expired_remove (l : list QueuedMessage) q :
  NoDup (qm_id <$> l) → (∀ x, x ∈ l → mq_messages q !! qm_id x = Some x) →
  foldl (λ r e, mkQueue (delete e.1 (mq_messages r)) (alter (filter (λ i, i ≠ e.1)) e.2 (mq_by_connection r))) q
    ((λ m, (qm_id m, qm_connection_id m)) <$> l) = foldl mq_remove_message q (qm_id <$> l).
Proof.
  revert q. induction l as [|x l IH]; intros q Hnd Hl; [done|]. rewrite !fmap_cons. cbn [foldl fst snd]. rewrite fmap_cons in Hnd.
  apply NoDup_cons in Hnd as [Hx Hnd].
  assert (Hrm : mq_remove_message q (qm_id x) = mkQueue (delete (qm_id x) (mq_messages q)) (alter (filter (λ i, i ≠ qm_id x)) (qm_connection_id x) (mq_by_connection q))).
  { unfold mq_remove_message. by rewrite (Hl x) by left. }
  rewrite Hrm. apply IH; [done|]. intros y Hy. cbn. rewrite lookup_delete_ne; [apply Hl; by right|]. intros Heq. apply Hx. rewrite Heq. by apply list_elem_of_fmap_2.
Qed.

(** The cutoff is there, or the call panics. *)
Lemma cutoff_then {A} age (k : Instant → sq A) s w :
  (cutoff ← sq_cutoff age; k cutoff) s w =
    match expiry_cutoff age w with (Some cut, w1) => k cut s w1 | (None, w1) => (Panic, s, w1) end.
Proof. unfold sq_cutoff, eff_world, mbind, eff_bind. by destruct (expiry_cutoff age w) as [[cut|] w1]. Qed.

Lemma expire_does age st q w : stands_loaded st q →
  does (QExpire age)
    (cutoff ← sq_cutoff age;
     s ← eff_get;
     let expired_ids := match sq_messages s with Some m => sq_expired cutoff (map_iter m).*2 | None => [] end in
     if decide (expired_ids = []) then mret 0%N
     else
       q ← sq_cached;
       _ ← each (λ id, logged (sq_delete_from_storage id)) expired_ids;
       _ ← sq_cache (foldl mq_remove_message q expired_ids);
       mret (N.of_nat (length expired_ids))) st q w.
Proof.
  intros Hst. pose proof Hst as (Hk & Hok & Hd & Ht). unfold does.
  assert (Hmem : queue_call (QExpire age) q w = match expiry_cutoff age w with (Some cut, w') =>
    (Ok (N.of_nat (length (sq_expired cut (map_iter (mq_messages q)).*2))), foldl mq_remove_message q (sq_expired cut (map_iter (mq_messages q)).*2), w')
    | (None, w') => (Panic, q, w') end).
  { unfold queue_call, memory_queue, mq_expiry, mq_delete_expired. destruct (expiry_cutoff age w) as [[cut|] w']; [|done].
    unfold sq_expired. rewrite <-expired_remove; [by rewrite !length_fmap| |].
    - eapply sublist_NoDup; [|apply fmap_sublist, sublist_filter]. rewrite <-list_fmap_compose.
      assert (Hids : (qm_id ∘ snd) <$> map_iter (mq_messages q) = (map_iter (mq_messages q)).*1).
      { apply list_fmap_ext. intros i [id x] Hi. apply list_elem_of_lookup_2, elem_of_map_iter in Hi. cbn. by apply (mqo_id q Hok). }
      rewrite Hids. apply NoDup_fst_map_iter.
    - intros x [_ Hx]%list_elem_of_filter. apply list_elem_of_fmap in Hx as ([id y] & -> & Hy%elem_of_map_iter). cbn. by rewrite (mqo_id q Hok _ _ Hy). }
  rewrite cutoff_then. destruct (expiry_cutoff age w) as [[cut|] w1] eqn:Hcut; [|by split; [apply stands_runs|apply grows_refl]].
  rewrite (eff_bind_run eff_get _ _ _ _ _ _ eq_refl). cbn [loaded sq_messages].
  set (ids := sq_expired cut (map_iter (mq_messages q)).*2) in *. case_decide as He.
  - split; [|by apply grows_then, grows_refl]. exists w, q, w1. rewrite Hmem, He. split; [done|by apply stands_runs].
  - rewrite cached_then.
    destruct (deletes_held st (Some (mq_messages q)) (Some (mq_by_connection q)) ids w1 Hk) as (st' & w' & Hrun & Hkeep & Hdel).
    rewrite (eff_bind_run _ _ _ _ _ _ _ Hrun). cbn. split; [|by eapply grows_then, keeps_grows].
    exists w, (foldl mq_remove_message q ids), w1. split; [exact Hmem|].
    change (sq_runs (loaded st' (foldl mq_remove_message q ids)) (foldl mq_remove_message q ids)). apply stands_runs.
    eapply (stands_delete (λ id, id ∈ ids)); [done|done|by apply foldl_remove_ok| | | |done].
    + apply map_subseteq_spec. intros id x. rewrite foldl_remove_lookup. by case_decide.
    + intros id Hid. by rewrite foldl_remove_lookup, decide_True.
    + intros id. rewrite foldl_remove_lookup. case_decide; auto.
Qed.

Lemma expire_for_does c age st q w : stands_loaded st q →
  does (QExpireFor c age)
    (cutoff ← sq_cutoff age;
     s ← eff_get;
     match sq_by_connection s ≫= (.!! c) with
     | None => mret 0%N
     | Some ids =>
         let expired_ids := sq_expired cutoff (omap (λ id, sq_messages s ≫= (.!! id)) ids) in
         if decide (expired_ids = []) then mret 0%N
         else
           q ← sq_cached;
           _ ← each (λ id, logged (sq_delete_from_storage id)) expired_ids;
           _ ← sq_cache (mkQueue (foldl (λ m id, delete id m) (mq_messages q) expired_ids)
                           (alter (filter (λ i, i ∉ expired_ids)) c (mq_by_connection q)));
           mret (N.of_nat (length expired_ids))
     end) st q w.
Proof.
  intros Hst. pose proof Hst as (Hk & Hok & Hd & Ht). unfold does.
  pose proof (mq_delete_expired_for_connection_ok q c age w Hok) as Hok'.
  assert (Hmem : queue_call (QExpireFor c age) q w = mq_expiry (λ r, mq_delete_expired_for_connection r c age) q w) by done.
  unfold mq_expiry, mq_delete_expired_for_connection in Hmem.
  unfold mq_delete_expired_for_connection in Hok'.
  rewrite cutoff_then. destruct (expiry_cutoff age w) as [[cut|] w1] eqn:Hcut; [|by split; [apply stands_runs|apply grows_refl]].
  rewrite (eff_bind_run eff_get _ _ _ _ _ _ eq_refl).
  cbn [loaded sq_messages sq_by_connection]. change (Some (mq_by_connection q) ≫= (.!! c)) with (mq_by_connection q !! c).
  destruct (mq_by_connection q !! c) as [ids0|] eqn:Hc.
  2:{ split; [|by apply grows_then, grows_refl]. exists w, q, w1. split; [exact Hmem|by apply stands_runs]. }
  cbn in Hok'. change (omap (λ id, Some (mq_messages q) ≫= (.!! id)) ids0) with (omap (λ id, mq_messages q !! id) ids0).
  assert (Hix : mq_indexed q c = omap (λ id, mq_messages q !! id) ids0) by (unfold mq_indexed; by rewrite Hc).
  rewrite Hix in Hmem, Hok'. fold (sq_expired cut (omap (λ id, mq_messages q !! id) ids0)) in Hmem, Hok'.
  set (ids := sq_expired cut (omap (λ id, mq_messages q !! id) ids0)) in *. cbv zeta. case_decide as He.
  - split; [|by apply grows_then, grows_refl]. exists w, q, w1. split; [|by apply stands_runs]. rewrite Hmem, He. f_equal. f_equal. cbn [foldl].
    destruct q as [m b]. cbn in *. f_equal. apply map_eq. intros i. destruct (decide (i = c)) as [->|Hne]; [|by rewrite lookup_alter_ne].
    rewrite lookup_alter_eq, Hc. cbn. f_equal. apply filter_everything. intros; set_solver.
  - rewrite cached_then.
    destruct (deletes_held st (Some (mq_messages q)) (Some (mq_by_connection q)) ids w1 Hk) as (st' & w' & Hrun & Hkeep & Hdel).
    rewrite (eff_bind_run _ _ _ _ _ _ _ Hrun). cbn. split; [|by eapply grows_then, keeps_grows]. eexists w, _, w1. split; [exact Hmem|].
    match goal with |- sq_runs _ ?q' => change (sq_runs (loaded st' q') q') end. apply stands_runs.
    eapply (stands_delete (λ id, id ∈ ids)); [done|done|done| | | |done]; cbn.
    + apply map_subseteq_spec. intros id x. rewrite foldl_delete_lookup. by case_decide.
    + intros id Hid. by rewrite foldl_delete_lookup, decide_True.
    + intros id. rewrite foldl_delete_lookup. case_decide; auto.
Qed.

(** ** The promise *)

Lemma sq_runs_ok s q : sq_runs s q → mq_ok q.
Proof. by destruct 1. Qed.

(** What a call does to the queue that is run, and to what the storage holds. *)
Definition simulated {A} (c : queueE A) s q w : Prop :=
  match queue_call c s w with
  | (Ok a, s', _) => (∃ q0 w0 q' w1, q_same q q0 ∧ queue_call c q0 w0 = (Ok a, q', w1) ∧ sq_runs s' q') ∧
      grows_by c (sq_storage s) (sq_storage s')
  | (_, s', _) => (∃ q0, q_same q q0 ∧ sq_runs s' q0) ∧ grows (sq_storage s) (sq_storage s')
  end.

Lemma load_then {A} (c : queueE A) (k : sq A) s q w :
  sq_runs s q → queue_call c s w = (_ ← sq_ensure_loaded; k) s w →
  (∀ st q0 w1, stands_loaded st q0 → does c k st q0 w1) → simulated c s q w.
Proof.
  intros Hs Hcall Hk. unfold simulated. rewrite Hcall. pose proof (ensure_loaded_spec s q w Hs) as Hload. unfold mbind, eff_bind.
  destruct (sq_ensure_loaded s w) as [[[[]|e|] s1] w1]; [| |done].
  2:{ destruct Hload as [Hs1 Hg]. split; [|done]. exists q. split; [apply q_same_refl; by eapply sq_runs_ok|done]. }
  destruct Hload as (st & q0 & -> & [Hsame Hok0] & Hg1 & Hk1 & Hd1 & Ht1).
  specialize (Hk st q0 w1 (conj Hk1 (conj Hok0 (conj Hd1 Ht1)))). unfold does in Hk. destruct (k (loaded st q0) w1) as [[[a|e|] s'] w'].
  - destruct Hk as [(w0 & q' & w2 & Hq' & Hs') Hg]. split; [exists q0, w0, q', w2; by split_and!|].
    intros id x Hx. destruct (Hg id x Hx) as [Hx'|]; [left; by apply Hg1|by right].
  - destruct Hk as [Hs' Hg]. split; [by exists q0|by eapply grows_trans].
  - destruct Hk as [Hs' Hg]. split; [by exists q0|by eapply grows_trans].
Qed.

Lemma sq_simulates {A} (c : queueE A) s q w : sq_runs s q → simulated c s q w.
Proof.
  intros Hs. destruct c as [m|c k|c k|c k|c k n|ids|ids|i|c|age|c age];
    (eapply (load_then _ _ s q w); [exact Hs|reflexivity|]; intros st q0 w1 Hst).
  - by apply add_does.
  - by apply (reads_do (QPendingCount c k) (λ q, mq_get_pending_count q c k)).
  - by apply (reads_do (QTotalBytes c k) (λ q, mq_get_total_bytes q c k)).
  - by apply (reads_do (QOldest c k) (λ q, mq_get_oldest_message_time q c k)).
  - by apply take_does.
  - by apply remove_does.
  - by apply return_does.
  - unfold does, mbind, eff_bind, eff_get. cbn. split; [|by apply grows_then, grows_refl]. exists w1, q0, w1. split; [done|by apply stands_runs].
  - by apply clear_does.
  - by apply expire_does.
  - by apply expire_for_does.
Qed.
#[export] Instance storage_queue_laws : MessageQueueLaws SQ.
Proof.
  refine {| qr_runs := sq_runs; qr_runs_ok := sq_runs_ok |}. intros A c s q w Hs _. pose proof (sq_simulates c s q w Hs) as Hsim.
  unfold simulated in Hsim. destruct (queue_call c s w) as [[[a|e|] s'] w']; apply Hsim.
Defined.

(** ** Runs with restarts *)

(** What happens to a repository: a call, or a restart of the process, which leaves it the storage. *)
Inductive queue_event := QeCall (A : Type) (c : queueE A) | QeRestart.
(** What is seen of it: the answer of a call, a refusal, a restart. *)
Inductive queue_answer := QaAnswer (A : Type) (c : queueE A) (a : A) | QaRefused | QaRestarted.

Fixpoint sq_history (es : list queue_event) s (w : World) : list queue_answer * SQ :=
  match es with
  | [] => ([], s)
  | QeRestart :: es => let '(l, s) := sq_history es (sq_new (sq_storage s)) w in (QaRestarted :: l, s)
  | QeCall A c :: es =>
      let '(r, s, w) := queue_call c s w in
      let '(l, s) := sq_history es s w in
      (match r with Ok a => QaAnswer A c a | _ => QaRefused end :: l, s)
  end.

(** The promise: the in-memory queue, which may refuse a call, and which comes back from a
    restart with all its messages, all of them pending, and with no other message than what
    was [past]: what the storage held at the start, or what a granted call has added since.
    If the deletions from the storage succeed it comes back with its messages exactly. *)
Inductive queue_history : (QueuedMessage → Prop) → MessageQueue → list queue_answer → MessageQueue → Prop :=
  | qh_done past q : queue_history past q [] q
  | qh_answer past A (c : queueE A) a q q0 w q1 w1 l q' :
      q_same q q0 → queue_call c q0 w = (Ok a, q1, w1) → queue_history (λ x, past x ∨ brought c x) q1 l q' →
      queue_history past q (QaAnswer A c a :: l) q'
  | qh_refused past q q0 l q' : q_same q q0 → queue_history past q0 l q' → queue_history past q (QaRefused :: l) q'
  | qh_restart past q q0 l q' :
      qm_mark_pending <$> mq_messages q ⊆ mq_messages q0 → mq_ok q0 → (∀ id x, mq_messages q0 !! id = Some x → past x) →
      (deletes_succeed → mq_messages q0 = qm_mark_pending <$> mq_messages q) →
      queue_history past q0 l q' → queue_history past q (QaRestarted :: l) q'.

(** What is held makes a queue. *)
Lemma held_queue st : keyed st → ∃ q, mq_ok q ∧ ∀ id, mq_messages q !! id = held_message st id.
Proof.
  intros Hk. destruct (ss_finite st MESSAGE_QUEUE_CATEGORY) as [names Hnames].
  assert (Hgen : ∀ ns, NoDup ns → ∃ q, mq_ok q ∧ ∀ id, mq_messages q !! id = if decide (id ∈ ns) then held_message st id else None).
  { induction ns as [|n ns IH]; intros Hnd; [exists mq_new; split; [apply mq_new_ok|done]|].
    apply NoDup_cons in Hnd as [Hn Hnd]. destruct (IH Hnd) as (q & Hok & Hq). destruct (held_message st n) as [x|] eqn:Hx.
    - assert (Hxn : qm_id x = n).
      { unfold held_message in Hx. destruct (sq_stored st n) as [y|] eqn:Hy; [|done]. injection Hx as <-. cbn. exact (Hk _ _ Hy). }
      exists (mq_add_message q x).2. split; [apply mq_add_ok; [done|]; by rewrite Hxn, Hq, decide_False|]. intros id. cbn. rewrite Hxn.
      destruct (decide (id = n)) as [->|Hne]; [rewrite lookup_insert_eq, decide_True by set_solver; done|].
      rewrite lookup_insert_ne, Hq by done. apply decide_ext. rewrite elem_of_cons. naive_solver.
    - exists q. split; [done|]. intros id. rewrite Hq. destruct (decide (id = n)) as [->|Hne].
      + rewrite Hx. by repeat case_decide.
      + apply decide_ext. rewrite elem_of_cons. naive_solver. }
  destruct (Hgen (remove_dups names) (NoDup_remove_dups _)) as (q & Hok & Hq). exists q. split; [done|]. intros id. rewrite Hq.
  case_decide as Hid; [done|]. destruct (held_message st id) as [x|] eqn:Hx; [|done]. exfalso. apply Hid, elem_of_remove_dups, Hnames.
  unfold held_message, sq_stored in Hx. by destruct (st_view st MESSAGE_QUEUE_CATEGORY id).
Qed.

Lemma restart_runs s q :
  sq_runs s q → ∃ q0, sq_runs (sq_new (sq_storage s)) q0 ∧ mq_ok q0 ∧ qm_mark_pending <$> mq_messages q ⊆ mq_messages q0 ∧
    (∀ id, mq_messages q0 !! id = held_message (sq_storage s) id) ∧ (deletes_succeed → mq_messages q0 = qm_mark_pending <$> mq_messages q).
Proof.
  assert (Hgen : ∀ st m, keyed st → durable st m → tidy st m → ∃ q0, sq_runs (sq_new st) q0 ∧ mq_ok q0 ∧ qm_mark_pending <$> m ⊆ mq_messages q0 ∧
    (∀ id, mq_messages q0 !! id = held_message st id) ∧ (deletes_succeed → mq_messages q0 = qm_mark_pending <$> m)).
  { intros st m Hk Hd Ht. destruct (held_queue st Hk) as (q0 & Hok & Hq). exists q0. split; [by apply runs_unloaded|]. split; [done|].
    split; [|split; [done|]].
    - apply map_subseteq_spec. intros id x. rewrite lookup_fmap. intros (y & Hy & ->)%fmap_Some. rewrite Hq. by apply Hd.
    - intros HD. apply map_eq. intros id. rewrite Hq, lookup_fmap. destruct (m !! id) as [x|] eqn:Hx; [by apply Hd|by apply Ht]. }
  destruct 1 as [st q Hk Hok Hm|st m b Hk Hok Hd Ht]; cbn; apply Hgen; try done.
  - intros id x Hx. rewrite <-Hm, Hx. rewrite Hm in Hx. unfold held_message in Hx. destruct (sq_stored st id); [|done]. by injection Hx as <-.
  - intros _ id Hid. by rewrite <-Hm.
Qed.

Lemma history_refines es s q w (past : QueuedMessage → Prop) :
  sq_runs s q → (∀ id x, held_message (sq_storage s) id = Some x → past x) →
  ∃ q', queue_history past q (sq_history es s w).1 q' ∧ sq_runs (sq_history es s w).2 q'.
Proof.
  revert s q w past. induction es as [|[A c|] es IH]; intros s q w past Hs Hp; cbn [sq_history].
  - exists q. by split; [constructor|].
  - pose proof (sq_simulates c s q w Hs) as Hsim. unfold simulated in Hsim. destruct (queue_call c s w) as [[[a|e|] s1] w1].
    + destruct Hsim as [(q0 & w0 & q1 & w2 & Hsame & Hcall & Hs1) Hg].
      destruct (IH s1 q1 w1 (λ x, past x ∨ brought c x) Hs1) as (q' & Hh & Hs').
      { intros id x Hx. destruct (Hg id x Hx); [left; by eapply Hp|by right]. }
      destruct (sq_history es s1 w1) as [l s']. exists q'. split; [by eapply qh_answer|done].
    + destruct Hsim as [(q0 & Hsame & Hs1) Hg]. destruct (IH s1 q0 w1 past Hs1) as (q' & Hh & Hs'); [intros id x Hx; by eapply Hp, Hg|].
      destruct (sq_history es s1 w1) as [l s']. exists q'. split; [by eapply qh_refused|done].
    + destruct Hsim as [(q0 & Hsame & Hs1) Hg]. destruct (IH s1 q0 w1 past Hs1) as (q' & Hh & Hs'); [intros id x Hx; by eapply Hp, Hg|].
      destruct (sq_history es s1 w1) as [l s']. exists q'. split; [by eapply qh_refused|done].
  - destruct (restart_runs s q Hs) as (q0 & Hs0 & Hok0 & Hsub & Hheld & Hexact).
    destruct (IH (sq_new (sq_storage s)) q0 w past Hs0 Hp) as (q' & Hh & Hs').
    destruct (sq_history es (sq_new (sq_storage s)) w) as [l s']. exists q'. split; [|done].
    eapply qh_restart; [exact Hsub|exact Hok0| |exact Hexact|exact Hh]. intros id x. rewrite Hheld. apply Hp.
Qed.

(** C21: The storage-backed message queue keeps the promise of the in-memory queue over any storage
    that keeps its laws: through any sequence of calls and restarts, whatever calls of the
    storage fail, the answers are those of an in-memory queue that sometimes refuses a call and
    changes nothing.  A restart loses no message: every message of the queue is there
    after it, and pending, also those whose delivery was under way.  It brings nothing back but
    what the storage held at the start or an answered call added, and if the deletions from
    the storage succeed it brings back exactly the queue: a message that was acknowledged,
    cleared or expired stays away. *)
Theorem storage_queue_refines es s q w :
  sq_runs s q →
  ∃ q', queue_history (λ x, ∃ id, held_message (sq_storage s) id = Some x) q (sq_history es s w).1 q' ∧ sq_runs (sq_history es s w).2 q'.
Proof. intros Hs. apply history_refines; [done|]. intros id x Hx. by exists id. Qed.
End backed.
