(* ===== verification/Wp.v ===== *)
(** Weakest preconditions of the effects of [Prelude]: what has to hold before a computation,
    so that one thing holds when it answers and another when it does not.  The lemmas follow
    the combinators; [wp_step] applies them.  Also: computations that only read the world
    forward ([keeps_time]), and the repositories whose calls are such. *)
From S2P Require Import Prelude AjnaTypes SerdeJson Storage RecordRepo RecordSpec MessageQueue AnonCreds QueueRepo.

Definition wp {E S A} (m : eff E S A) (Q : A → S → World → Prop) (F : S → World → Prop) (s : S) (w : World) : Prop :=
  match m s w with
  | (Ok a, s', w') => Q a s' w'
  | (_, s', w') => F s' w'
  end.

Section rules.
Context {E S : Type}.
Implicit Types (F : S → World → Prop) (s : S) (w : World).

Lemma wp_bind {A B} (m : eff E S A) (k : A → eff E S B) Q F s w :
  wp m (λ a, wp (k a) Q F) F s w → wp (m ≫= k) Q F s w.
Proof. unfold wp, mbind, eff_bind. by destruct (m s w) as [[[a|e|] s'] w']. Qed.
Lemma wp_mono {A} (m : eff E S A) Q Q' F F' s w :
  wp m Q' F' s w → (∀ a s w, Q' a s w → Q a s w) → (∀ s w, F' s w → F s w) → wp m Q F s w.
Proof. unfold wp. destruct (m s w) as [[[a|e|] s'] w']; auto. Qed.
Lemma wp_ret {A} (a : A) Q F s w : Q a s w → wp (E:=E) (mret a) Q F s w.
Proof. done. Qed.
Lemma wp_throw {A} (e : E) (Q : A → S → World → Prop) F s w : F s w → wp (eff_throw e) Q F s w.
Proof. done. Qed.
Lemma wp_get (Q : S → S → World → Prop) F s w : Q s s w → wp (E:=E) eff_get Q F s w.
Proof. done. Qed.
Lemma wp_gets {A} (f : S → A) Q F s w : Q (f s) s w → wp (E:=E) (eff_gets f) Q F s w.
Proof. done. Qed.
Lemma wp_modify (f : S → S) Q F s w : Q tt (f s) w → wp (E:=E) (eff_modify f) Q F s w.
Proof. done. Qed.
Lemma wp_world {A} (f : World → A * World) Q F s w : Q (f w).1 s (f w).2 → wp (E:=E) (eff_world f) Q F s w.
Proof. unfold wp, eff_world. by destruct (f w). Qed.
Lemma wp_lift {A} (r : outcome E A) Q F s w : (∀ a, r = Ok a → Q a s w) → F s w → wp (eff_lift r) Q F s w.
Proof. unfold wp, eff_lift. destruct r; auto. Qed.
Lemma wp_catch {A} (m : eff E S A) Q F s w :
  wp m (λ a, Q (inr a)) (λ s w, F s w ∧ ∀ e, Q (inl e) s w) s w → wp (eff_catch m) Q F s w.
Proof. unfold wp, eff_catch. destruct (m s w) as [[[a|e|] s'] w']; naive_solver. Qed.
Lemma wp_zoom {E' T A} (get : S → T) (set : T → S → S) (err : E' → E) (m : eff E' T A) Q F s w :
  wp m (λ a t, Q a (set t s)) (λ t, F (set t s)) (get s) w → wp (eff_zoom get set err m) Q F s w.
Proof. unfold wp, eff_zoom. by destruct (m (get s) w) as [[[a|e|] t] w']. Qed.
Lemma wp_fold {A B} (f : B → A → eff E S B) (P : list A → B → S → World → Prop) F b l s w :
  P l b s w → (∀ b a l s w, P (a :: l) b s w → wp (f b a) (P l) F s w) →
  wp (eff_fold f b l) (P []) F s w.
Proof.
  intros HP Hf. revert b s w HP. induction l as [|a l IH]; intros b s w HP; [done|]. cbn [eff_fold]. apply wp_bind.
  eapply wp_mono; [by apply Hf|intros b' s' w'; apply IH|done].
Qed.
Lemma wp_each {A} (f : A → eff E S unit) (P : list A → S → World → Prop) F l s w :
  P l s w → (∀ a l s w, P (a :: l) s w → wp (f a) (λ _, P l) F s w) → wp (each f l) (λ _, P []) F s w.
Proof.
  intros HP Hf. unfold each. eapply wp_mono; [apply (wp_fold _ (λ l (_ : unit), P l) F); [exact HP|]|done|done].
  intros [] a l0 s0 w0 H0. by apply Hf.
Qed.
End rules.

(** A run that answered. *)
Lemma wp_run {E S A} (m : eff E S A) Q F s w a s' w' : wp m Q F s w → m s w = (Ok a, s', w') → Q a s' w'.
Proof. unfold wp. intros Hm Hr. by rewrite Hr in Hm. Qed.
Lemma wp_state {E S A} (m : eff E S A) (I : S → World → Prop) s w : wp m (λ _, I) I s w → I (m s w).1.2 (m s w).2.
Proof. unfold wp. by destruct (m s w) as [[[a|e|] s'] w']. Qed.

Ltac wp_step :=
  first [apply wp_bind | apply wp_ret | apply wp_throw | apply wp_get | apply wp_gets | apply wp_modify | apply wp_world |
         apply wp_lift | apply wp_catch | apply wp_zoom]; cbv beta.

(** * Time goes on *)

Definition keeps_time {E S A} (m : eff E S A) : Prop := ∀ s w, world_le w (m s w).2.

Create HintDb keeps_time.

Section time.
Context {E S : Type}.

Lemma time_ret {A} (a : A) : keeps_time (E:=E) (S:=S) (mret a).
Proof. by intros s w. Qed.
Lemma time_bind {A B} (m : eff E S A) (k : A → eff E S B) : keeps_time m → (∀ a, keeps_time (k a)) → keeps_time (m ≫= k).
Proof.
  intros Hm Hk s w. specialize (Hm s w). unfold mbind, eff_bind. destruct (m s w) as [[[a|e|] s'] w']; [|done..].
  etrans; [exact Hm|apply Hk].
Qed.
Lemma time_catch {A} (m : eff E S A) : keeps_time m → keeps_time (eff_catch m).
Proof. intros Hm s w. specialize (Hm s w). unfold eff_catch. by destruct (m s w) as [[[a|e|] s'] w']. Qed.
Lemma time_zoom {E' T A} (get : S → T) (set : T → S → S) (err : E' → E) (m : eff E' T A) : keeps_time m → keeps_time (eff_zoom get set err m).
Proof. intros Hm s w. specialize (Hm (get s) w). unfold eff_zoom. by destruct (m (get s) w) as [[[a|e|] t] w']. Qed.
Lemma time_modify (f : S → S) : keeps_time (E:=E) (eff_modify f).
Proof. by intros s w. Qed.
Lemma time_get : keeps_time (E:=E) (S:=S) eff_get.
Proof. by intros s w. Qed.
Lemma time_lift {A} (r : outcome E A) : keeps_time (S:=S) (eff_lift r).
Proof. by intros s w. Qed.
Lemma time_throw {A} (e : E) : keeps_time (S:=S) (A:=A) (eff_throw e).
Proof. by intros s w. Qed.
Lemma time_fold {A B} (f : B → A → eff E S B) b l : (∀ b a, keeps_time (f b a)) → keeps_time (eff_fold f b l).
Proof. intros Hf. revert b. induction l as [|a l IH]; intros b; [apply time_ret|]. apply time_bind; [done|exact IH]. Qed.
Lemma time_each {A} (f : A → eff E S unit) l : (∀ a, keeps_time (f a)) → keeps_time (each f l).
Proof. intros Hf. apply time_fold. intros _ a. apply Hf. Qed.
End time.
#[export] Hint Resolve time_ret time_bind time_catch time_zoom time_modify time_get time_lift time_throw time_fold time_each : keeps_time.

Lemma time_world {E S A} (f : World → A * World) : (∀ w, world_le w (f w).2) → keeps_time (E:=E) (S:=S) (eff_world f).
Proof. intros Hf s w. specialize (Hf w). unfold eff_world. by destruct (f w). Qed.

(** A storage, and repositories, that do not turn time back. *)
Class StorageTime (ST : Type) `{StorageProvider ST} : Prop := {
  stt_save r : keeps_time (st_save r);
  stt_update r : keeps_time (st_update r);
  stt_find_all c q : keeps_time (st_find_all c q);
  stt_delete c n : keeps_time (st_delete c n)
}.
#[export] Instance memory_storage_time `{HashOrder} : StorageTime (gmap string (gmap string AgentRecord)).
Proof.
  constructor; intros; intros s w; cbn; try done.
  - unfold mem_save. by destruct (_ !! rec_name r).
  - unfold mem_update. by destruct (_ ≫= _).
Qed.

Class RepoTime (RS R E : Type) `{ExchangeRepo RS R E} : Prop := {
  rt_save (x : R) : keeps_time (er_save x);
  rt_update (x : R) : keeps_time (er_update x);
  rt_find_by_id i : keeps_time (er_find_by_id i);
  rt_find p : keeps_time (er_find p)
}.
#[export] Instance memory_repo_time `{HashOrder} `{RecordKey R E} : RepoTime (gmap string R) R E.
Proof.
  constructor; intros; intros s w; cbn; try done.
  - unfold mr_save. by destruct (_ !! _).
  - unfold mr_update. by destruct (_ !! _).
Qed.

Section backed.
Context `{HashOrder} `{RecordKind R E} {ST : Type} `{StorageTime ST}.

Lemma sb_cache_time {A} (f : gmap string R → A) : keeps_time (sb_with_cache (ST:=ST) (E:=E) f).
Proof.
  apply time_bind; [|intros _; apply time_bind; [apply time_get|]; intros s; destruct (sb_cache s); [apply time_ret|apply time_lift]].
  apply time_bind; [apply time_get|]. intros s. destruct (sb_cache s); [apply time_ret|].
  apply time_bind; [apply time_zoom, stt_find_all|]. intros l. apply time_modify.
Qed.
Lemma sb_put_time err call (x : R) : (∀ r, keeps_time (call r)) → keeps_time (sb_put (ST:=ST) (E:=E) err call x).
Proof.
  intros Hc. apply time_bind; [apply time_lift|]. intros r. apply time_bind; [apply time_zoom, Hc|]. intros _. apply time_modify.
Qed.
#[export] Instance storage_repo_time : RepoTime (StorageBacked ST R) R E.
Proof.
  constructor; cbn; intros.
  - apply time_bind; [apply sb_cache_time|]. intros [|]; [apply time_throw|]. apply sb_put_time, stt_save.
  - apply time_bind; [apply sb_cache_time|]. intros [|]; [|apply time_throw]. apply sb_put_time, stt_update.
  - apply sb_cache_time.
  - apply sb_cache_time.
Qed.
End backed.

(** ** Message queues *)

Ltac keep_time :=
  repeat first
    [ apply time_ret | apply time_get | apply time_modify | apply time_lift | apply time_throw
    | apply stt_save | apply stt_update | apply stt_find_all | apply stt_delete | apply time_catch | apply time_zoom | apply time_bind; [|intros ?] | apply time_each; intros ? | assumption
    | match goal with
      | |- keeps_time (match ?x with _ => _ end) => destruct x
      | |- keeps_time (let _ := _ in _) => cbv zeta
      end ].

Class QueueTime (Q : Type) `{MessageQueueRepo Q} : Prop := { qt_call {A} (c : queueE A) : keeps_time (queue_call c) }.

Lemma expiry_cutoff_time `{ChronoCutoff} age w : world_le w (expiry_cutoff age w).2.
Proof. unfold expiry_cutoff. cbn. by repeat case_match. Qed.
#[export] Instance memory_queue_time `{ChronoCutoff} `{HashOrder} : QueueTime MessageQueue.
Proof.
  constructor. intros A c q w. pose proof expiry_cutoff_time as Hcut.
  destruct c as [m|c k|c k|c k|c k n|ids|ids|i|c|age|c age]; cbn; try done; unfold mq_run, mq_mod, mq_expiry.
  - by destruct (mq_take_from_queue q c k n).
  - by destruct (mq_clear_connection q c).
  - unfold mq_delete_expired. specialize (Hcut age w). destruct (expiry_cutoff age w) as [[cut|] w']; by cbn in *.
  - unfold mq_delete_expired_for_connection. specialize (Hcut age w). destruct (expiry_cutoff age w) as [[cut|] w']; [|by cbn in *].
    destruct (mq_by_connection q !! c); by cbn in *.
Qed.

Section queue.
Context `{ChronoCutoff} `{HashOrder} `{Serde QueuedMessage} {ST : Type} `{StorageTime ST}.
Abbreviation SQ := (StorageQueue ST).

#[export] Instance storage_queue_time : QueueTime SQ.
Proof.
  constructor. intros A c. destruct c; cbn; keep_time; apply time_world, expiry_cutoff_time.
Qed.
End queue.
