(* ===== verification/Pickup.v ===== *)
(** Message pickup ([src/protocols/pickup/src]): its messages, the service of the mediator over
    a message queue, the service of the recipient, and the handlers of the mediator.

    The mediator's service is its repository, so its methods are calls on the state of the
    repository ([QueueRepo]).  A text that is not base64 is refused with the text of the
    crate's error, which is a parameter ([Base64Errors]). *)
From S2P Require Import Prelude AjnaTypes SerdeJson Storage Didcomm AnonCreds Issuance IssuanceMessages MessageQueue QueueRepo.

(** [DecodeError::to_string] of the base64 crate, for a text that it refuses. *)
Class Base64Errors := { b64_error : string → string }.

(** * Messages *)

(** [src/protocols/pickup/src/messages/mod.rs:22-29] types *)
Definition STATUS_REQUEST : string := "https://didcomm.org/messagepickup/2.0/status-request".
Definition STATUS : string := "https://didcomm.org/messagepickup/2.0/status".
Definition DELIVERY_REQUEST : string := "https://didcomm.org/messagepickup/2.0/delivery-request".
Definition DELIVERY : string := "https://didcomm.org/messagepickup/2.0/delivery".
Definition MESSAGES_RECEIVED : string := "https://didcomm.org/messagepickup/2.0/messages-received".
Definition LIVE_DELIVERY_CHANGE : string := "https://didcomm.org/messagepickup/2.0/live-delivery-change".

(** [src/protocols/pickup/src/messages/status_request.rs:8-21] StatusRequestMessage *)
Record PickupStatusRequest := mkStatusRequest { srq_type : string; srq_id : string; srq_recipient_key : option string }.

(** [src/protocols/pickup/src/messages/status.rs:9-45] StatusMessage *)
Record PickupStatusMessage := mkStatus {
  stm_type : string;
  stm_id : string;
  stm_thread : Thread;
  stm_message_count : N;
  stm_recipient_key : option string;
  stm_longest_waited_seconds : option N;
  stm_total_bytes : option N;
  stm_live_delivery : option bool
}.

(** [src/protocols/pickup/src/messages/delivery_request.rs:8-24] DeliveryRequestMessage *)
Record DeliveryRequestMessage := mkDeliveryRequest {
  drq_type : string; drq_id : string; drq_limit : N; drq_recipient_key : option string
}.

(** [src/protocols/pickup/src/messages/delivery.rs:9-31] MessageDeliveryMessage *)
Record MessageDeliveryMessage := mkDelivery {
  mdm_type : string; mdm_id : string; mdm_thread : option Thread; mdm_recipient_key : option string; mdm_attachments : list Attachment
}.

(** [src/protocols/pickup/src/messages/messages_received.rs:12-27] MessagesReceivedMessage *)
Record MessagesReceivedMessage := mkReceived {
  mrm_type : string; mrm_id : string; mrm_thread : option Thread; mrm_message_id_list : list string
}.

(** [src/protocols/pickup/src/messages/live_delivery_change.rs:10-22] LiveDeliveryChangeMessage *)
Record LiveDeliveryChangeMessage := mkLiveChange { ldc_type : string; ldc_id : string; ldc_live_delivery : bool }.

(** [src/protocols/pickup/src/messages/status.rs:77-80] StatusMessage::with_recipient_key *)
Definition stm_with_recipient_key (k : string) (s : PickupStatusMessage) : PickupStatusMessage :=
  mkStatus (stm_type s) (stm_id s) (stm_thread s) (stm_message_count s) (Some k) (stm_longest_waited_seconds s) (stm_total_bytes s)
    (stm_live_delivery s).

(** [src/protocols/pickup/src/messages/status.rs:83-86] StatusMessage::with_longest_waited_seconds *)
Definition stm_with_longest_waited_seconds (n : N) (s : PickupStatusMessage) : PickupStatusMessage :=
  mkStatus (stm_type s) (stm_id s) (stm_thread s) (stm_message_count s) (stm_recipient_key s) (Some n) (stm_total_bytes s) (stm_live_delivery s).

(** [src/protocols/pickup/src/messages/status.rs:89-92] StatusMessage::with_total_bytes *)
Definition stm_with_total_bytes (n : N) (s : PickupStatusMessage) : PickupStatusMessage :=
  mkStatus (stm_type s) (stm_id s) (stm_thread s) (stm_message_count s) (stm_recipient_key s) (stm_longest_waited_seconds s) (Some n)
    (stm_live_delivery s).

(** [src/protocols/pickup/src/messages/status.rs:95-98] StatusMessage::with_live_delivery *)
Definition stm_with_live_delivery (b : bool) (s : PickupStatusMessage) : PickupStatusMessage :=
  mkStatus (stm_type s) (stm_id s) (stm_thread s) (stm_message_count s) (stm_recipient_key s) (stm_longest_waited_seconds s) (stm_total_bytes s)
    (Some b).

(** [src/protocols/pickup/src/messages/status.rs:101-103] StatusMessage::thread_id *)
Definition stm_thread_id (s : PickupStatusMessage) : option string := th_thid (stm_thread s).

(** [src/protocols/pickup/src/messages/delivery.rs:71-74] MessageDeliveryMessage::with_recipient_key *)
Definition mdm_with_recipient_key (k : string) (m : MessageDeliveryMessage) : MessageDeliveryMessage :=
  mkDelivery (mdm_type m) (mdm_id m) (mdm_thread m) (Some k) (mdm_attachments m).

(** [src/protocols/pickup/src/messages/delivery.rs:77-79] MessageDeliveryMessage::thread_id *)
Definition mdm_thread_id (m : MessageDeliveryMessage) : option string := mdm_thread m ≫= th_thid.

(** [src/protocols/pickup/src/messages/delivery.rs:82-87] MessageDeliveryMessage::message_ids *)
Definition mdm_message_ids (m : MessageDeliveryMessage) : list string := omap at_id (mdm_attachments m).

(** [src/protocols/pickup/src/messages/messages_received.rs:76-78] MessagesReceivedMessage::thread_id *)
Definition mrm_thread_id (m : MessagesReceivedMessage) : option string := mrm_thread m ≫= th_thid.

Section constructors.
Context `{UuidText} {E S : Type}.

(** [src/protocols/pickup/src/messages/status_request.rs:28-34] StatusRequestMessage::new *)
Definition srq_new : eff E S PickupStatusRequest := id ← new_id; mret (mkStatusRequest STATUS_REQUEST id None).

(** [src/protocols/pickup/src/messages/status.rs:52-68] StatusMessage::new *)
Definition stm_new (thread_id : string) (message_count : N) : eff E S PickupStatusMessage :=
  id ← new_id; mret (mkStatus STATUS id (thread_of thread_id) message_count None None None None).

(** [src/protocols/pickup/src/messages/delivery_request.rs:31-38] DeliveryRequestMessage::new *)
Definition drq_new (limit : N) : eff E S DeliveryRequestMessage := id ← new_id; mret (mkDeliveryRequest DELIVERY_REQUEST id limit None).

(** [src/protocols/pickup/src/messages/delivery.rs:38-51] MessageDeliveryMessage::new *)
Definition mdm_new (thread_id : string) (attachments : list Attachment) : eff E S MessageDeliveryMessage :=
  id ← new_id; mret (mkDelivery DELIVERY id (Some (thread_of thread_id)) None attachments).

(** [src/protocols/pickup/src/messages/delivery.rs:54-62] MessageDeliveryMessage::new_without_thread *)
Definition mdm_new_without_thread (attachments : list Attachment) : eff E S MessageDeliveryMessage :=
  id ← new_id; mret (mkDelivery DELIVERY id None None attachments).

(** [src/protocols/pickup/src/messages/messages_received.rs:34-41] MessagesReceivedMessage::new *)
Definition mrm_new (message_id_list : list string) : eff E S MessagesReceivedMessage :=
  id ← new_id; mret (mkReceived MESSAGES_RECEIVED id None message_id_list).

(** [src/protocols/pickup/src/messages/messages_received.rs:44-56] MessagesReceivedMessage::new_with_thread *)
Definition mrm_new_with_thread (thread_id : string) (message_id_list : list string) : eff E S MessagesReceivedMessage :=
  id ← new_id; mret (mkReceived MESSAGES_RECEIVED id (Some (thread_of thread_id)) message_id_list).

(** [src/protocols/pickup/src/messages/live_delivery_change.rs:29-35] LiveDeliveryChangeMessage::enable *)
Definition ldc_enable : eff E S LiveDeliveryChangeMessage := id ← new_id; mret (mkLiveChange LIVE_DELIVERY_CHANGE id true).

(** [src/protocols/pickup/src/messages/live_delivery_change.rs:38-44] LiveDeliveryChangeMessage::disable *)
Definition ldc_disable : eff E S LiveDeliveryChangeMessage := id ← new_id; mret (mkLiveChange LIVE_DELIVERY_CHANGE id false).
End constructors.

(** * The mediator's service *)

Section mediator.
Context `{Base64Engine} `{UuidText} {Q : Type} `{!MessageQueueRepo Q}.
Abbreviation pk := (eff PickupError Q).

(** [src/protocols/pickup/src/services/pickup_mediator.rs:29-31] PickupMediatorService::remove_messages *)
Definition pm_remove_messages (message_ids : list string) : pk unit := queue_call (QRemove message_ids).

(** [src/protocols/pickup/src/services/pickup_mediator.rs:34-36] PickupMediatorService::pending_count *)
Definition pm_pending_count (connection_id : string) : pk N := queue_call (QPendingCount connection_id None).

(** [src/protocols/pickup/src/services/pickup_mediator.rs:39-51] PickupMediatorService::queue_message *)
Definition queue_message (connection_id : string) (recipient_keys : list string) (encrypted_message : string) : pk string :=
  message ← eff_world (qm_new connection_id recipient_keys encrypted_message);
  queue_call (QAdd message).

(** [now.signed_duration_since(t).num_seconds().max(0) as u64]. *)
Definition waited (now t : Instant) : N := Z.to_N (Z.quot (now - t) 1000000000 `max` 0).

(** [src/protocols/pickup/src/services/pickup_mediator.rs:54-97] PickupMediatorService::process_status_request *)
Definition process_status_request (request : PickupStatusRequest) (connection_id : string) : pk PickupStatusMessage :=
  let recipient_key := srq_recipient_key request in
  message_count ← queue_call (QPendingCount connection_id recipient_key);
  total_bytes ← queue_call (QTotalBytes connection_id recipient_key);
  oldest_time ← queue_call (QOldest connection_id recipient_key);
  longest_waited_seconds ← (match oldest_time with
                            | Some t => now ← eff_world utc_now; mret (Some (waited now t))
                            | None => mret None
                            end);
  response ← stm_new (srq_id request) message_count;
  let response := match recipient_key with Some key => stm_with_recipient_key key response | None => response end in
  let response := match longest_waited_seconds with Some n => stm_with_longest_waited_seconds n response | None => response end in
  mret (if decide (0 < total_bytes)%N then stm_with_total_bytes total_bytes response else response).

(** [src/didcomm/src/core/models/message.rs:168-173] AttachmentData::base64 *)
Definition ad_of_base64 (data : string) : AttachmentData := mkAttachmentData None None (Some data) None None.

(** [src/protocols/pickup/src/services/pickup_mediator.rs:114-129] PickupMediatorService::process_delivery_request (the attachment of a message) *)
Definition message_attachment (msg : QueuedMessage) : Attachment :=
  mkAttachment (Some (qm_id msg)) None None (Some "application/didcomm-encrypted+json") None None
    (Some (qm_byte_size msg)) (ad_of_base64 (b64_encode (qm_encrypted_message msg))).

(** [src/protocols/pickup/src/services/pickup_mediator.rs:100-139] PickupMediatorService::process_delivery_request *)
Definition process_delivery_request (request : DeliveryRequestMessage) (connection_id : string) : pk MessageDeliveryMessage :=
  messages ← queue_call (QTake connection_id (drq_recipient_key request) (drq_limit request));
  response ← mdm_new (drq_id request) (message_attachment <$> messages);
  mret (match drq_recipient_key request with Some key => mdm_with_recipient_key key response | None => response end).

(** [src/protocols/pickup/src/services/pickup_mediator.rs:143-166] PickupMediatorService::process_messages_received *)
Definition process_messages_received (ack : MessagesReceivedMessage) (connection_id : string) : pk PickupStatusMessage :=
  _ ← queue_call (QRemove (mrm_message_id_list ack));
  message_count ← queue_call (QPendingCount connection_id None);
  stm_new (default (mrm_id ack) (mrm_thread_id ack)) message_count.

(** [src/protocols/pickup/src/services/pickup_mediator.rs:169-171] PickupMediatorService::return_messages_to_pending *)
Definition return_messages_to_pending (message_ids : list string) : pk unit := queue_call (QReturn message_ids).

(** [src/protocols/pickup/src/services/pickup_mediator.rs:174-176] PickupMediatorService::clear_queue *)
Definition clear_queue (connection_id : string) : pk N := queue_call (QClear connection_id).

(** [src/protocols/pickup/src/services/pickup_mediator.rs:179-181] PickupMediatorService::get_queue_count *)
Definition get_queue_count (connection_id : string) : pk N := queue_call (QPendingCount connection_id None).

(** [src/protocols/pickup/src/services/pickup_mediator.rs:188-190] PickupMediatorService::delete_expired *)
Definition pm_delete_expired (max_age : N) : pk N := queue_call (QExpire max_age).

(** [src/protocols/pickup/src/services/pickup_mediator.rs:197-205] PickupMediatorService::delete_expired_for_connection *)
Definition pm_delete_expired_for_connection (connection_id : string) (max_age : N) : pk N := queue_call (QExpireFor connection_id max_age).

(** * The mediator's handlers *)

Abbreviation hd := (eff MessageHandlerError Q).
Abbreviation handler := (InboundMessage → hd (option OutboundMessage)).

(** A field of the body, or else of the message. *)
Definition body_or_extra (key : string) (msg : Message) : option Json :=
  match json_get key (msg_body msg) with Some v => Some v | None => msg_extra msg !! key end.

(** The connection of a message, which must be there; a call of the service; the answer. *)
Definition need_connection (inbound : InboundMessage) : hd string :=
  match ctx_connection_id (in_context inbound) with Some c => mret c | None => eff_throw (InvalidMessage "Missing connection ID") end.
Definition serviced {A} (m : pk A) : hd A := eff_zoom id (λ q _, q) (λ e, ProcessingFailed (pk_to_string e)) m.
Definition answer (inbound : InboundMessage) (connection_id : string) (message : Message) : OutboundMessage :=
  mkOutbound message (default "" (ctx_from (in_context inbound))) (default "" (ctx_to (in_context inbound))) (Some connection_id).

(** The body of a status. *)
Definition status_body (response : PickupStatusMessage) : Json :=
  JObject ([("message_count", JPosInt (stm_message_count response))] ++
    opt_entry "recipient_key" (JString <$> stm_recipient_key response) ++
    opt_entry "longest_waited_seconds" (JPosInt <$> stm_longest_waited_seconds response) ++
    opt_entry "total_bytes" (JPosInt <$> stm_total_bytes response) ++
    opt_entry "live_delivery" (JBool <$> stm_live_delivery response)).

(** [src/protocols/pickup/src/handlers/status_request_handler.rs:83-97] parse_status_request *)
Definition parse_status_request (msg : Message) : PickupStatusRequest :=
  mkStatusRequest (msg_type msg) (msg_id msg) (body_or_extra "recipient_key" msg ≫= json_as_str).

(** [src/protocols/pickup/src/handlers/status_request_handler.rs:100-128] build_status_response *)
Definition build_status_response (response : PickupStatusMessage) : hd Message :=
  m ← eff_world (mb_new STATUS);
  let m := mb_body (status_body response) (mb_id (stm_id response) m) in
  mret (match th_thid (stm_thread response) with Some t => mb_thread t m | None => m end).

(** [src/protocols/pickup/src/handlers/status_request_handler.rs:36-79] StatusRequestHandler::handle *)
Definition status_request_handle : handler := λ inbound,
  let request := parse_status_request (in_message inbound) in
  connection_id ← need_connection inbound;
  response ← serviced (process_status_request request connection_id);
  didcomm_msg ← build_status_response response;
  mret (Some (answer inbound connection_id didcomm_msg)).

(** [src/protocols/pickup/src/handlers/delivery_request_handler.rs:85-107] parse_delivery_request *)
Definition parse_delivery_request (msg : Message) : DeliveryRequestMessage :=
  let limit := match body_or_extra "limit" msg ≫= json_as_u64 with Some l => (l mod 2 ^ 32)%N | None => 10%N end in
  mkDeliveryRequest (msg_type msg) (msg_id msg) limit (body_or_extra "recipient_key" msg ≫= json_as_str).

(** [src/protocols/pickup/src/handlers/delivery_request_handler.rs:110-131] build_delivery_response *)
Definition build_delivery_response (response : MessageDeliveryMessage) (thread_id : string) : hd Message :=
  m ← eff_world (mb_new DELIVERY);
  let m := mb_body (JObject (opt_entry "recipient_key" (JString <$> mdm_recipient_key response))) (mb_id (mdm_id response) m) in
  mret (foldl (λ m attachment, mb_add_attachment attachment m) (mb_thread thread_id m) (mdm_attachments response)).

(** [src/protocols/pickup/src/handlers/delivery_request_handler.rs:36-81] DeliveryRequestHandler::handle *)
Definition delivery_request_handle : handler := λ inbound,
  let request := parse_delivery_request (in_message inbound) in
  connection_id ← need_connection inbound;
  response ← serviced (process_delivery_request request connection_id);
  didcomm_msg ← build_delivery_response response (msg_id (in_message inbound));
  mret (Some (answer inbound connection_id didcomm_msg)).

(** [src/protocols/pickup/src/handlers/messages_received_handler.rs:84-108] parse_messages_received *)
Definition parse_messages_received (msg : Message) : MessagesReceivedMessage :=
  mkReceived (msg_type msg) (msg_id msg) (msg_thread msg)
    (match body_or_extra "message_id_list" msg ≫= json_as_array with Some arr => omap json_as_str arr | None => [] end).

(** [src/protocols/pickup/src/handlers/messages_received_handler.rs:111-139] build_status_response *)
Definition build_received_response (response : PickupStatusMessage) : hd Message :=
  m ← eff_world (mb_new STATUS);
  let m := mb_body (status_body response) (mb_id (stm_id response) m) in
  mret (match th_thid (stm_thread response) with Some t => mb_thread t m | None => m end).

(** [src/protocols/pickup/src/handlers/messages_received_handler.rs:37-80] MessagesReceivedHandler::handle *)
Definition messages_received_handle : handler := λ inbound,
  let ack := parse_messages_received (in_message inbound) in
  connection_id ← need_connection inbound;
  response ← serviced (process_messages_received ack connection_id);
  didcomm_msg ← build_received_response response;
  mret (Some (answer inbound connection_id didcomm_msg)).

(** [src/protocols/pickup/src/handlers/live_delivery_change_handler.rs:83-106] build_status_response *)
Definition build_live_response (response : PickupStatusMessage) : hd Message :=
  m ← eff_world (mb_new STATUS);
  mret (mb_body (status_body response) (mb_id (stm_id response) m)).

(** [src/protocols/pickup/src/handlers/live_delivery_change_handler.rs:36-80] LiveDeliveryChangeHandler::handle *)
Definition live_delivery_change_handle : handler := λ inbound,
  let live_delivery := default false (body_or_extra "live_delivery" (in_message inbound) ≫= json_as_bool) in
  connection_id ← need_connection inbound;
  counted ← eff_catch (serviced (get_queue_count connection_id));
  let message_count := match counted with inr n => n | inl _ => 0%N end in
  status ← stm_new (msg_id (in_message inbound)) message_count;
  didcomm_msg ← build_live_response (stm_with_live_delivery live_delivery status);
  mret (Some (answer inbound connection_id didcomm_msg)).
End mediator.

(** * The recipient's service *)

(** [src/protocols/pickup/src/services/pickup_recipient.rs:13-16] PickupRecipientService *)
Record PickupRecipientService := mkRecipientService { prs_last_message_count : N }.

(** [src/protocols/pickup/src/services/pickup_recipient.rs:130-142] PickupStatus *)
Record PickupStatus := mkPickupStatus {
  pst_message_count : N;
  pst_recipient_key : option string;
  pst_longest_waited_seconds : option N;
  pst_total_bytes : option N;
  pst_live_delivery : bool
}.

(** [src/protocols/pickup/src/services/pickup_recipient.rs:145-151] DeliveredMessage *)
Record DeliveredMessage := mkDelivered { dm_id : string; dm_encrypted_message : string }.

(** [src/protocols/pickup/src/services/pickup_recipient.rs:20-24] PickupRecipientService::new *)
Definition prs_new : PickupRecipientService := mkRecipientService 0.

Section recipient.
Context `{JsonText} `{Base64Engine} `{Base64Errors} `{UuidText}.
Abbreviation pr := (eff PickupError PickupRecipientService).

(** [src/protocols/pickup/src/services/pickup_recipient.rs:27-33] PickupRecipientService::create_status_request *)
Definition create_status_request (recipient_key : option string) : pr PickupStatusRequest :=
  msg ← srq_new;
  mret (match recipient_key with Some key => mkStatusRequest (srq_type msg) (srq_id msg) (Some key) | None => msg end).

(** [src/protocols/pickup/src/services/pickup_recipient.rs:36-46] PickupRecipientService::create_delivery_request *)
Definition create_delivery_request (limit : N) (recipient_key : option string) : pr DeliveryRequestMessage :=
  msg ← drq_new limit;
  mret (match recipient_key with
        | Some key => mkDeliveryRequest (drq_type msg) (drq_id msg) (drq_limit msg) (Some key)
        | None => msg
        end).

(** [src/protocols/pickup/src/services/pickup_recipient.rs:49-58] PickupRecipientService::create_messages_received *)
Definition create_messages_received (message_ids : list string) (thread_id : option string) : pr MessagesReceivedMessage :=
  match thread_id with Some tid => mrm_new_with_thread tid message_ids | None => mrm_new message_ids end.

(** [src/protocols/pickup/src/services/pickup_recipient.rs:61-72] PickupRecipientService::process_status *)
Definition process_status (msg : PickupStatusMessage) : pr PickupStatus :=
  _ ← eff_modify (λ _, mkRecipientService (stm_message_count msg));
  mret (mkPickupStatus (stm_message_count msg) (stm_recipient_key msg) (stm_longest_waited_seconds msg) (stm_total_bytes msg)
          (default false (stm_live_delivery msg))).

(** [src/protocols/pickup/src/services/pickup_recipient.rs:82-111] PickupRecipientService::process_delivery (one attachment) *)
Definition delivered_message (attachment : Attachment) : outcome PickupError DeliveredMessage :=
  let id := default "" (at_id attachment) in
  let d := at_data attachment in
  match ad_base64 d with
  | Some base64 =>
      match b64_decode base64 with
      | Some encrypted_message => Ok (mkDelivered id encrypted_message)
      | None => Err (PkProtocol ("Invalid base64: " +:+ b64_error base64))
      end
  | None =>
      match ad_json d with
      | Some json => Ok (mkDelivered id (json_print json))
      | None =>
          Err (PkProtocol (if ad_is_external d then "Link attachments not supported for message delivery"
                           else "Attachment carries no data"))
      end
  end.

(** [src/protocols/pickup/src/services/pickup_recipient.rs:80-114] PickupRecipientService::process_delivery (the loop) *)
Fixpoint delivered_messages (attachments : list Attachment) : outcome PickupError (list DeliveredMessage) :=
  match attachments with
  | [] => Ok []
  | attachment :: attachments =>
      let? message := delivered_message attachment in
      let? messages := delivered_messages attachments in
      Ok (message :: messages)
  end.

(** [src/protocols/pickup/src/services/pickup_recipient.rs:76-115] PickupRecipientService::process_delivery *)
Definition process_delivery (msg : MessageDeliveryMessage) : pr (list DeliveredMessage) :=
  eff_lift (delivered_messages (mdm_attachments msg)).

(** [src/protocols/pickup/src/services/pickup_recipient.rs:118-120] PickupRecipientService::last_message_count *)
Definition last_message_count : pr N := eff_gets prs_last_message_count.
End recipient.
