(* ===== verification/Keys.v ===== *)
(** Keys of the agent framework: their types and purposes and the wallet interface
    ([src/core/agent_core/src/traits/wallet.rs]), and the texts of public keys - base58,
    multibase and [did:key] ([src/did/src/methods/key.rs], [x25519.rs]).

    The crates [bs58], [multibase] and [curve25519_dalek] are parameters with laws.  Bytes are
    strings. *)
From Stdlib Require Import Ascii.
From S2P Require Import Prelude StdText Storage Hashing.

(** * The crates *)

(** The crate [bs58]: bytes to text and back; its alphabet has letters and digits only. *)
Class Bs58 := { bs58_encode : string → string; bs58_decode : string → option string }.
Class Bs58Laws `{Bs58} : Prop := {
  bs58_decode_encode s : bs58_decode (bs58_encode s) = Some s;
  bs58_alnum s : str_alnum (bs58_encode s) = true
}.

(** [multibase::encode] in base58btc, and [multibase::decode] of any base; [inl] is the error's text. *)
Class Multibase := { mb_decode : string → string + string }.
Definition mb_encode58 `{Bs58} (bytes : string) : string := "z" +:+ bs58_encode bytes.
Class MultibaseLaws `{Bs58} `{Multibase} : Prop := { mb_decode_58 s : mb_decode (mb_encode58 s) = inr s }.

(** [CompressedEdwardsY(k).decompress().to_montgomery().to_bytes()] for 32 bytes [k]: there are
    bytes that are no point. *)
Class Curve25519 := { ed_montgomery : string → option string }.
Class Curve25519Laws `{Curve25519} : Prop := {
  ed_montgomery_length k x : ed_montgomery k = Some x → String.length x = 32;
  ed_montgomery_from k : is_Some (ed_montgomery k) → String.length k = 32
}.

Lemma bs58_avoids `{Bs58Laws} c s : is_alnum c = false → str_avoids c (bs58_encode s) = true.
Proof. intros Hc. by apply alnum_avoids, bs58_alnum. Qed.
Lemma bs58_plain `{Bs58Laws} s p : str_starts_with (bs58_encode s) ("did:" +:+ p) = false.
Proof.
  destruct (str_starts_with _ _) eqn:Hp; [|done]. rewrite starts_with_strip, bool_decide_eq_true in Hp.
  destruct Hp as [t Ht]. apply strip_prefix_some in Ht. pose proof (bs58_avoids ":"%char s eq_refl) as Hav. by rewrite Ht in Hav.
Qed.
Lemma bs58_inj `{Bs58Laws} s t : bs58_encode s = bs58_encode t → s = t.
Proof. intros He. pose proof (bs58_decode_encode s) as Hs. rewrite He, bs58_decode_encode in Hs. by injection Hs. Qed.

(** * Types and purposes *)

(** [src/core/agent_core/src/traits/wallet.rs:14-87] KeyType *)
Inductive KeyType := SLHDSA | MLDSA65 | Ed25519 | X25519 | P256 | EcdsaSecp256r1 | Bls12381G1 | Bls12381G2.
#[export] Instance KeyType_eq_dec : EqDecision KeyType.
Proof. solve_decision. Defined.

(** [src/core/agent_core/src/traits/wallet.rs:116-139] KeyPurpose *)
Inductive KeyPurpose := BlockchainConsensus | BlockchainUser | AgentMessaging | AgentDID | General.
#[export] Instance KeyPurpose_eq_dec : EqDecision KeyPurpose.
Proof. solve_decision. Defined.

(** [src/core/agent_core/src/traits/wallet.rs:91-93] KeyType::is_quantum *)
Definition kt_is_quantum (self : KeyType) : bool := bool_decide (self = SLHDSA ∨ self = MLDSA65).

(** [src/core/agent_core/src/traits/wallet.rs:96-106] KeyType::is_classical *)
Definition kt_is_classical (self : KeyType) : bool :=
  match self with Ed25519 | X25519 | P256 | EcdsaSecp256r1 | Bls12381G1 | Bls12381G2 => true | _ => false end.

(** [src/core/agent_core/src/traits/wallet.rs:109-111] KeyType::can_sign *)
Definition kt_can_sign (self : KeyType) : bool := negb (bool_decide (self = X25519)).

(** [src/core/agent_core/src/traits/wallet.rs:145-150] KeyPurpose::requires_quantum *)
Definition kp_requires_quantum (self : KeyPurpose) : bool := match self with BlockchainConsensus | BlockchainUser => true | _ => false end.

(** [src/core/agent_core/src/traits/wallet.rs:153-158] KeyPurpose::allows_classical *)
Definition kp_allows_classical (self : KeyPurpose) : bool := match self with AgentMessaging | AgentDID | General => true | _ => false end.

(** [src/core/agent_core/src/traits/wallet.rs:161-180] KeyPurpose::validate_key_type *)
Definition kp_validate_key_type (self : KeyPurpose) (key_type : KeyType) : bool :=
  match self with
  | BlockchainConsensus => bool_decide (key_type = MLDSA65)
  | BlockchainUser => bool_decide (key_type = SLHDSA)
  | AgentMessaging => match key_type with Ed25519 | X25519 | P256 | EcdsaSecp256r1 => true | _ => false end
  | AgentDID => match key_type with Ed25519 | P256 | EcdsaSecp256r1 => true | _ => false end
  | General => true
  end.

(** [src/core/agent_core/src/traits/wallet.rs:185-202] Key *)
Record Key := mkKey {
  key_id : string;
  key_type : KeyType;
  key_purpose : KeyPurpose;
  key_public : string;
  key_metadata : gmap string string
}.

(** [src/core/agent_core/src/traits/wallet.rs:209-217] Key::new *)
Definition key_new (id : string) (type : KeyType) (public_key : string) : Key := mkKey id type General public_key ∅.

(** [src/core/agent_core/src/traits/wallet.rs:219-222] Key::with_purpose *)
Definition key_with_purpose (purpose : KeyPurpose) (k : Key) : Key := mkKey (key_id k) (key_type k) purpose (key_public k) (key_metadata k).

(** [src/core/agent_core/src/traits/wallet.rs:230-232] Key::validate_purpose *)
Definition key_validate_purpose (self : Key) (purpose : KeyPurpose) : bool := kp_validate_key_type purpose (key_type self).

(** [src/core/agent_core/src/traits/wallet.rs:237-243] Signature *)
Record WalletSignature := mkWalletSignature { wsg_bytes : string; wsg_key_id : string }.

(** [src/core/agent_core/src/traits/wallet.rs:272-294] WalletProvider (the calls that the modelled components make) *)
Class Wallet (WT : Type) := {
  wa_create_key : KeyType → KeyPurpose → eff AgentError WT Key;
  wa_get_key : string → eff AgentError WT (option Key);
  wa_sign : string → string → eff AgentError WT WalletSignature
}.

(** [src/core/agent_core/src/traits/wallet.rs:320-329] WalletProvider::create_key_for_purpose *)
Definition wa_create_key_for_purpose {WT} `{Wallet WT} (purpose : KeyPurpose) : eff AgentError WT Key :=
  wa_create_key (match purpose with
                 | BlockchainConsensus => MLDSA65 | BlockchainUser => SLHDSA
                 | AgentMessaging => Ed25519 | AgentDID => Ed25519 | General => SLHDSA
                 end) purpose.

Lemma purpose_types p t : kp_validate_key_type p t = true → kp_requires_quantum p = true → kt_is_quantum t = true.
Proof. by destruct p, t. Qed.

(** * The texts of public keys *)

(** A key behind the two bytes of its multicodec. *)
Definition multicodec (b0 b1 : N) (key : string) : string := String (ascii_of_N b0) (String (ascii_of_N b1) key).
Abbreviation ed25519_codec := (multicodec 237 1).
Abbreviation x25519_codec := (multicodec 236 1).

Section texts.
Context `{Bs58} `{Curve25519}.

(** [src/did/src/methods/key.rs:30-37] multibase_to_base58_verkey *)
Definition multibase_to_base58_verkey (multibase : string) : option string :=
  body ← str_strip_prefix "z" multibase;
  decoded ← bs58_decode body;
  match decoded with String _ (String _ (String a rest)) => Some (bs58_encode (String a rest)) | _ => None end.

(** [src/did/src/methods/key.rs:42-46] did_key_to_base58_verkey *)
Definition did_key_to_base58_verkey (did_key : string) : option string :=
  multibase ← str_strip_prefix "did:key:" (str_before "#"%char did_key);
  multibase_to_base58_verkey multibase.

(** [src/did/src/methods/x25519.rs:65-79] ed25519_public_to_x25519 *)
Definition ed25519_public_to_x25519 (ed25519_public : string) : outcome string string :=
  if negb (bool_decide (String.length ed25519_public = 32))
  then Err ("Ed25519 public key must be 32 bytes, got " +:+ pretty (String.length ed25519_public))
  else match ed_montgomery ed25519_public with
       | Some x => Ok x
       | None => Err "Failed to decompress Ed25519 public key"
       end.

(** The bytes of an Ed25519 key behind its multicodec. *)
Definition strip_ed25519_codec (decoded : string) : option string :=
  match decoded with
  | String b0 (String b1 rest) =>
      if decide (String.length decoded = 34 ∧ N_of_ascii b0 = 237%N ∧ N_of_ascii b1 = 1%N) then Some rest else None
  | _ => None
  end.

(** [src/did/src/methods/x25519.rs:84-96] ed25519_pubkey_from_did_key *)
Definition ed25519_pubkey_from_did_key (did_key : string) : option string :=
  stripped ← str_strip_prefix "did:key:z" did_key;
  decoded ← bs58_decode (str_before "#"%char stripped);
  strip_ed25519_codec decoded.

(** [src/did/src/methods/x25519.rs:120-127] DidKeyAliases *)
Record DidKeyAliases := mkAliases { dka_ed25519_base58 : string; dka_x25519_base58 : string }.

(** [src/did/src/methods/x25519.rs:111-118] verkey_aliases_for_did_key *)
Definition verkey_aliases_for_did_key (did_key : string) : option DidKeyAliases :=
  ed ← ed25519_pubkey_from_did_key did_key;
  match ed25519_public_to_x25519 ed with
  | Ok x => Some (mkAliases (bs58_encode ed) (bs58_encode x))
  | _ => None
  end.

(** The [did:key] of an Ed25519 key. *)
Definition did_key (key : string) : string := "did:key:z" +:+ bs58_encode (ed25519_codec key).

(** [src/did/src/methods/x25519.rs:143-157] ensure_did_key_form *)
Definition ensure_did_key_form (input : string) : string :=
  if str_starts_with input "did:" then input
  else match bs58_decode input with
       | Some decoded => if decide (String.length decoded = 32) then did_key decoded else input
       | None => input
       end.
End texts.

Section texts_back.
Context `{Bs58Laws} `{Curve25519}.

Lemma multibase_verkey b0 b1 key : key ≠ "" → multibase_to_base58_verkey (mb_encode58 (multicodec b0 b1 key)) = Some (bs58_encode key).
Proof.
  intros Hk. unfold multibase_to_base58_verkey, mb_encode58. rewrite strip_prefix_app. cbn. rewrite bs58_decode_encode. cbn.
  by destruct key.
Qed.

(** The fragment of a [did:key] is dropped. *)
Lemma did_key_verkey key frag :
  key ≠ "" → did_key_to_base58_verkey (did_key key) = Some (bs58_encode key) ∧
  did_key_to_base58_verkey (did_key key +:+ "#" +:+ frag) = Some (bs58_encode key).
Proof.
  intros Hk. assert (Hav : str_avoids "#"%char (did_key key) = true) by (unfold did_key; rewrite str_avoids_app; by apply bs58_avoids).
  assert (Hs : str_strip_prefix "did:key:" (did_key key) = Some (mb_encode58 (ed25519_codec key))).
  { unfold did_key. change "did:key:z" with ("did:key:" +:+ "z"). rewrite string_app_assoc. apply strip_prefix_app. }
  unfold did_key_to_base58_verkey. split.
  - rewrite str_before_none, Hs by done. by apply multibase_verkey.
  - change ("#" +:+ frag) with (String "#"%char frag). rewrite str_before_app, Hs by done. by apply multibase_verkey.
Qed.
Lemma did_key_pubkey key : String.length key = 32 → ed25519_pubkey_from_did_key (did_key key) = Some key.
Proof.
  intros Hl. unfold ed25519_pubkey_from_did_key, did_key. rewrite strip_prefix_app. cbn [mbind option_bind].
  rewrite str_before_none by by apply bs58_avoids. rewrite bs58_decode_encode. unfold multicodec. cbn [mbind option_bind strip_ed25519_codec].
  rewrite decide_True; [done|]. split; [|done]. cbn. by rewrite Hl.
Qed.
Lemma ensured_did_key key : String.length key = 32 →
  ensure_did_key_form (bs58_encode key) = did_key key ∧ ensure_did_key_form (did_key key) = did_key key.
Proof.
  intros Hl. unfold ensure_did_key_form. split.
  - rewrite (bs58_plain key "" : str_starts_with _ "did:" = false), bs58_decode_encode. by rewrite decide_True.
  - unfold did_key. change "did:key:z" with ("did:" +:+ "key:z"). by rewrite string_app_assoc, starts_with_app.
Qed.
End texts_back.

(** * A concrete codec: two letters for each byte *)

Definition nibble (n : N) : ascii := ascii_of_N (97 + n).
Fixpoint letters_encode (s : string) : string :=
  match s with
  | EmptyString => EmptyString
  | String a s => String (nibble (N_of_ascii a / 16)) (String (nibble (N_of_ascii a mod 16)) (letters_encode s))
  end.
Fixpoint letters_decode (s : string) : option string :=
  match s with
  | EmptyString => Some EmptyString
  | String a (String b s) =>
      let x := N_of_ascii a in let y := N_of_ascii b in
      if decide (97 <= x <= 112 ∧ 97 <= y <= 112)%N then String (ascii_of_N ((x - 97) * 16 + (y - 97))) <$> letters_decode s else None
  | _ => None
  end.

Lemma nibble_code n : (n < 16)%N → N_of_ascii (nibble n) = (97 + n)%N.
Proof. intros Hn. apply N_ascii_embedding. lia. Qed.
Lemma nibble_range n : (n < 16)%N → (97 <= 97 + n <= 112)%N.
Proof. lia. Qed.
Lemma byte_nibbles a : (N_of_ascii a / 16 < 16 ∧ N_of_ascii a mod 16 < 16)%N.
Proof. pose proof (N_ascii_bounded a). split; [apply N.Div0.div_lt_upper_bound|apply N.mod_lt]; lia. Qed.
Lemma letters_back s : letters_decode (letters_encode s) = Some s.
Proof.
  induction s as [|a s IH]; [done|]. destruct (byte_nibbles a) as [Hx Hy]. cbn [letters_encode letters_decode]. cbv zeta. rewrite !nibble_code by done.
  rewrite decide_True by (split; by apply nibble_range).
  rewrite IH. unfold fmap, option_fmap, option_map. do 2 f_equal. rewrite <-(ascii_N_embedding a) at 3. f_equal.
  rewrite !(N.add_comm 97), !N.add_sub. rewrite N.mul_comm. symmetry. by apply N.div_mod.
Qed.
Lemma nibble_alnum n : (n < 16)%N → is_alnum (nibble n) = true.
Proof.
  intros Hn. unfold is_alnum. rewrite nibble_code by done. pose proof (nibble_range n Hn) as [Hl Hu].
  rewrite !orb_true_iff, !andb_true_iff, !N.leb_le. right. lia.
Qed.
Lemma letters_alnum s : str_alnum (letters_encode s) = true.
Proof.
  induction s as [|a s IH]; [done|]. destruct (byte_nibbles a) as [Hx Hy]. unfold str_alnum.
  cbn [letters_encode String.list_ascii_of_string forallb]. rewrite !nibble_alnum by done. exact IH.
Qed.

Definition toy_bs58 : Bs58 := {| bs58_encode := letters_encode; bs58_decode := letters_decode |}.
Lemma toy_bs58_laws : Bs58Laws (H:=toy_bs58).
Proof. constructor; [apply letters_back|apply letters_alnum]. Qed.

Definition letters_or_error (s : string) : string + string := match letters_decode s with Some t => inr t | None => inl "Invalid byte" end.
Lemma letters_or_error_back s : letters_or_error (letters_encode s) = inr s.
Proof. unfold letters_or_error. by rewrite letters_back. Qed.
Definition letters_base64 : Base64 := {|
  b64url_encode := letters_encode; b64url_decode := letters_or_error; b64url_decode_encode := letters_or_error_back
|}.
Lemma letters_b64url s : forallb is_b64url (String.list_ascii_of_string (letters_encode s)) = true.
Proof.
  apply forallb_forall. intros a Ha. unfold is_b64url. pose proof (letters_alnum s) as Hs. unfold str_alnum in Hs.
  rewrite forallb_forall in Hs. by rewrite Hs.
Qed.
Lemma letters_base64_chars : Base64UrlChars (H:=letters_base64).
Proof. split; [apply letters_b64url|]. by intros [|a s]. Qed.
