(* ===== verification/Dids.v ===== *)
(** DIDs, their documents and records ([src/did/src/core]), and the repository of the agent's
    DIDs ([did_repository.rs]).

    A [DID] is its text.  The repository's two locks are taken and released within a method;
    [store_received_did] reads under one lock and writes under another, so its two halves are
    also given apart.  The channel to the persistence task is the list of what was sent. *)
From Stdlib Require Import Ascii.
From S2P Require Import Prelude AjnaTypes StdText SerdeJson Storage Keys.

(** * DIDs *)

(** [src/did/src/core/did.rs:10-23] DidError *)
Inductive DidError :=
  | DeInvalidFormat (s : string)
  | DeMissingMethod (s : string)
  | DeMissingMethodSpecificId (s : string)
  | DeInvalidUrl (s : string).

(** [src/did/src/core/did.rs:10-23] DidError::to_string (derived by thiserror) *)
Definition de_to_string (e : DidError) : string :=
  match e with
  | DeInvalidFormat s => "Invalid DID format: " +:+ s
  | DeMissingMethod s => "Missing DID method: " +:+ s
  | DeMissingMethodSpecificId s => "Missing method-specific ID: " +:+ s
  | DeInvalidUrl s => "Invalid DID URL: " +:+ s
  end.

(** [did.splitn(3, ':')]. *)
Definition did_parts (did : string) : list string := str_splitn 3 ":"%char did.

(** [src/did/src/core/did.rs:56-87] DID::parse *)
Definition did_parse (did : string) : outcome DidError string :=
  if negb (str_starts_with did "did:") then Err (DeInvalidFormat ("DID must start with 'did:', got: " +:+ did))
  else match did_parts did with
       | [_; method; id] =>
           if decide (method = "") then Err (DeMissingMethod did)
           else if decide (id = "") then Err (DeMissingMethodSpecificId did)
           else Ok did
       | _ => Err (DeInvalidFormat ("DID must have format 'did:method:id', got: " +:+ did))
       end.

(** [src/did/src/core/did.rs:106-109] DID::method *)
Definition did_method (self : string) : string := default "" (did_parts self !! 1).

(** [src/did/src/core/did.rs:121-124] DID::method_specific_id *)
Definition did_method_specific_id (self : string) : string := default "" (did_parts self !! 2).

(** A DID is the three parts; the first colon after the method ends it. *)
Definition did_of (method id : string) : string := "did:" +:+ method +:+ ":" +:+ id.
Lemma did_of_parts m i : str_avoids ":"%char m = true → did_parts (did_of m i) = ["did"; m; i].
Proof.
  intros Hm. unfold did_parts, did_of. change ("did:" +:+ m +:+ ":" +:+ i) with ("did" +:+ String ":"%char (m +:+ String ":"%char i)).
  cbn [str_splitn]. rewrite str_split_once_app by done. by rewrite str_split_once_app.
Qed.
Lemma did_parse_ok d : did_parse d = Ok d ↔ ∃ m i, d = did_of m i ∧ m ≠ "" ∧ i ≠ "" ∧ str_avoids ":"%char m = true.
Proof.
  unfold did_parse. split.
  - destruct (str_starts_with d "did:") eqn:Hd; [|done]. cbn [negb]. rewrite starts_with_strip, bool_decide_eq_true in Hd.
    destruct Hd as [t Ht]. apply strip_prefix_some in Ht as ->.
    unfold did_parts. change ("did:" +:+ t) with ("did" +:+ String ":"%char t). cbn [str_splitn].
    rewrite str_split_once_app by done. destruct (str_split_once ":"%char t) as [[m i]|] eqn:Hs; [|done].
    apply str_split_once_Some in Hs as [-> Hm]. repeat case_decide; [done..|]. intros _. exists m, i. by split_and!.
  - intros (m & i & -> & Hm & Hi & Hc). rewrite did_of_parts by done. unfold did_of. rewrite starts_with_app. cbn [negb].
    by rewrite !decide_False.
Qed.
Lemma did_parse_same d d' : did_parse d = Ok d' → d' = d.
Proof. unfold did_parse. repeat case_match; congruence. Qed.

(** * Documents *)

(** [src/did/src/core/document.rs:178-193] DidDocument::new *)
Definition dd_new (id : string) : DidDocument := mkDidDocument id [] [] [] [] [] [] [] None [] None.

(** [src/did/src/core/document.rs:196-198] DidDocument::add_verification_method *)
Definition dd_add_verification_method (method : CoreVerificationMethod) (d : DidDocument) : DidDocument :=
  mkDidDocument (dd_id d) (dd_verification_method d ++ [method]) (dd_authentication d) (dd_assertion_method d) (dd_key_agreement d)
    (dd_capability_invocation d) (dd_capability_delegation d) (dd_service d) (dd_context d) (dd_also_known_as d) (dd_controller d).

(** [src/did/src/core/document.rs:201-203] DidDocument::add_authentication *)
Definition dd_add_authentication (relationship : VerificationRelationship) (d : DidDocument) : DidDocument :=
  mkDidDocument (dd_id d) (dd_verification_method d) (dd_authentication d ++ [relationship]) (dd_assertion_method d) (dd_key_agreement d)
    (dd_capability_invocation d) (dd_capability_delegation d) (dd_service d) (dd_context d) (dd_also_known_as d) (dd_controller d).

(** [src/did/src/core/document.rs:206-208] DidDocument::add_key_agreement *)
Definition dd_add_key_agreement (relationship : VerificationRelationship) (d : DidDocument) : DidDocument :=
  mkDidDocument (dd_id d) (dd_verification_method d) (dd_authentication d) (dd_assertion_method d) (dd_key_agreement d ++ [relationship])
    (dd_capability_invocation d) (dd_capability_delegation d) (dd_service d) (dd_context d) (dd_also_known_as d) (dd_controller d).

(** [src/did/src/core/document.rs:211-213] DidDocument::add_service *)
Definition dd_add_service (service : CoreService) (d : DidDocument) : DidDocument :=
  mkDidDocument (dd_id d) (dd_verification_method d) (dd_authentication d) (dd_assertion_method d) (dd_key_agreement d)
    (dd_capability_invocation d) (dd_capability_delegation d) (dd_service d ++ [service]) (dd_context d) (dd_also_known_as d) (dd_controller d).

Definition dd_with_context (context : Json) (d : DidDocument) : DidDocument :=
  mkDidDocument (dd_id d) (dd_verification_method d) (dd_authentication d) (dd_assertion_method d) (dd_key_agreement d)
    (dd_capability_invocation d) (dd_capability_delegation d) (dd_service d) (Some context) (dd_also_known_as d) (dd_controller d).

(** [src/did/src/core/document.rs:218-227] VerificationMethod::new *)
Definition cvm_new (id type controller : string) : CoreVerificationMethod := mkCoreVM id type controller None None None.

(** [src/did/src/core/document.rs:230-233] VerificationMethod::with_public_key_base58 *)
Definition cvm_with_base58 (key : string) (m : CoreVerificationMethod) : CoreVerificationMethod :=
  mkCoreVM (cvm_id m) (cvm_type m) (cvm_controller m) (Some key) (cvm_public_key_multibase m) (cvm_public_key_jwk m).

(** [src/did/src/core/document.rs:236-239] VerificationMethod::with_public_key_multibase *)
Definition cvm_with_multibase (key : string) (m : CoreVerificationMethod) : CoreVerificationMethod :=
  mkCoreVM (cvm_id m) (cvm_type m) (cvm_controller m) (cvm_public_key_base58 m) (Some key) (cvm_public_key_jwk m).

(** [src/did/src/core/document.rs:250-257] Service::new *)
Definition csvc_new (id type : string) (service_endpoint : Json) : CoreService := mkCoreService id type service_endpoint ∅.

(** [src/did/src/core/document.rs:260-263] Service::with_property *)
Definition csvc_with_property (key : string) (value : Json) (s : CoreService) : CoreService :=
  mkCoreService (csvc_id s) (csvc_type s) (csvc_endpoint s) (<[key := value]> (csvc_properties s)).

(** * Records *)

(** [src/did/src/core/record.rs:45-54] DidDocumentKey *)
Record DidDocumentKey := mkDdk { ddk_kms_key_id : string; ddk_relative_key_id : string }.

(** [src/did/src/core/record.rs:57-64] DidRole *)
Inductive DidRole := DrCreated | DrReceived.
#[export] Instance DidRole_eq_dec : EqDecision DidRole.
Proof. solve_decision. Defined.

(** [src/did/src/core/record.rs:191-196] DidRole::as_str *)
Definition dr_as_str (self : DidRole) : string := match self with DrCreated => "created" | DrReceived => "received" end.
(** The derived [Debug] text. *)
Definition dr_debug (self : DidRole) : string := match self with DrCreated => "Created" | DrReceived => "Received" end.

(** [src/did/src/core/record.rs:16-40] DidRecord *)
Record DidRecord := mkDidRecord {
  dr_id : string;
  dr_did : string;
  dr_role : DidRole;
  dr_document : option DidDocument;
  dr_keys : list DidDocumentKey;
  dr_created_at : Instant;
  dr_updated_at : option Instant
}.

(** [src/did/src/core/record.rs:82-92] DidRecord::new *)
Definition dr_new (id did : string) (role : DidRole) (w : World) : DidRecord * World :=
  let '(now, w) := utc_now w in (mkDidRecord id did role None [] now None, w).

(** [src/did/src/core/record.rs:100-103] DidRecord::add_key *)
Definition dr_add_key (key : DidDocumentKey) (now : Instant) (r : DidRecord) : DidRecord :=
  mkDidRecord (dr_id r) (dr_did r) (dr_role r) (dr_document r) (dr_keys r ++ [key]) (dr_created_at r) (Some now).

(** [src/did/src/core/record.rs:106-109] DidRecord::set_document *)
Definition dr_set_document (document : DidDocument) (now : Instant) (r : DidRecord) : DidRecord :=
  mkDidRecord (dr_id r) (dr_did r) (dr_role r) (Some document) (dr_keys r) (dr_created_at r) (Some now).

(** [src/did/src/core/record.rs:112-114] DidRecord::kms_key_ids *)
Definition dr_kms_key_ids (r : DidRecord) : list string := ddk_kms_key_id <$> dr_keys r.

(** [src/did/src/core/record.rs:117-121] DidRecord::method *)
Definition dr_method (r : DidRecord) : string := did_method (dr_did r).

(** [src/did/src/core/record.rs:124-128] DidRecord::method_specific_id *)
Definition dr_method_specific_id (r : DidRecord) : string := did_method_specific_id (dr_did r).

(** [src/did/src/core/record.rs:132-138] DidRecordBuilder *)
Record DidRecordBuilder := mkDidBuilder {
  drb_id : string; drb_did : string; drb_role : DidRole; drb_document : option DidDocument; drb_keys : list DidDocumentKey
}.

(** [src/did/src/core/record.rs:141-149] DidRecordBuilder::new *)
Definition drb_new (id did : string) (role : DidRole) : DidRecordBuilder := mkDidBuilder id did role None [].

(** [src/did/src/core/record.rs:151-154] DidRecordBuilder::document *)
Definition drb_with_document (document : DidDocument) (b : DidRecordBuilder) : DidRecordBuilder :=
  mkDidBuilder (drb_id b) (drb_did b) (drb_role b) (Some document) (drb_keys b).

(** [src/did/src/core/record.rs:156-159] DidRecordBuilder::keys *)
Definition drb_with_keys (keys : list DidDocumentKey) (b : DidRecordBuilder) : DidRecordBuilder :=
  mkDidBuilder (drb_id b) (drb_did b) (drb_role b) (drb_document b) keys.

(** [src/did/src/core/record.rs:161-164] DidRecordBuilder::add_key *)
Definition drb_add_key (key : DidDocumentKey) (b : DidRecordBuilder) : DidRecordBuilder :=
  mkDidBuilder (drb_id b) (drb_did b) (drb_role b) (drb_document b) (drb_keys b ++ [key]).

(** [src/did/src/core/record.rs:166-176] DidRecordBuilder::build *)
Definition drb_build (b : DidRecordBuilder) (w : World) : DidRecord * World :=
  let '(now, w) := utc_now w in (mkDidRecord (drb_id b) (drb_did b) (drb_role b) (drb_document b) (drb_keys b) now None, w).

(** * The repository *)

(** [src/did/src/core/did_repository.rs:22-26] DidRepository *)
Record DidRepository := mkDidRepo {
  drp_records : gmap string DidRecord;
  drp_persist_sender : option (list DidRecord)
}.

(** [src/did/src/core/did_repository.rs:29-34] DidRepository::new *)
Definition drp_new : DidRepository := mkDidRepo ∅ None.

(** [src/did/src/core/did_repository.rs:40-43] DidRepository::set_persist_sender *)
Definition drp_set_persist_sender (s : DidRepository) : DidRepository := mkDidRepo (drp_records s) (Some []).

Section repository.
Context `{UuidText}.
Abbreviation drp := (eff string DidRepository).

(** [src/did/src/core/did_repository.rs:46-53] DidRepository::persist_record *)
Definition persist_record (record : DidRecord) (s : DidRepository) : DidRepository :=
  mkDidRepo (drp_records s) ((λ sent, sent ++ [record]) <$> drp_persist_sender s).

(** A record of now is put under its DID and sent to the persistence task. *)
Definition put_did (did : string) (role : DidRole) (document : option DidDocument) (keys : list DidDocumentKey) : drp DidRecord :=
  id ← new_id;
  now ← eff_world utc_now;
  let record := mkDidRecord id did role document keys now None in
  _ ← eff_modify (λ s, mkDidRepo (<[did := record]> (drp_records s)) (drp_persist_sender s));
  _ ← eff_modify (persist_record record);
  mret record.

(** [src/did/src/core/did_repository.rs:76-83] DidRepository::store_received_did (the check, under the read lock) *)
Definition created_already (did : string) : drp (option DidRecord) :=
  eff_gets (λ s, match drp_records s !! did with
                 | Some existing => if decide (dr_role existing = DrCreated) then Some existing else None
                 | None => None
                 end).

(** [src/did/src/core/did_repository.rs:60-103] DidRepository::store_received_did *)
Definition store_received_did (did : string) (document : option DidDocument) (keys : list DidDocumentKey) : drp DidRecord :=
  found ← created_already did;
  match found with
  | Some existing => mret existing
  | None => put_did did DrReceived document keys
  end.

(** [src/did/src/core/did_repository.rs:109-133] DidRepository::store_created_did *)
Definition store_created_did (did : string) (document : option DidDocument) (keys : list DidDocumentKey) : drp DidRecord :=
  put_did did DrCreated document keys.

(** [src/did/src/core/did_repository.rs:146-155] DidRepository::insert_loaded_record *)
Definition insert_loaded_record (record : DidRecord) : drp unit :=
  eff_modify (λ s,
    let put := mkDidRepo (<[dr_did record := record]> (drp_records s)) (drp_persist_sender s) in
    match drp_records s !! dr_did record with
    | Some existing => if decide (dr_role existing = DrCreated ∧ dr_role record = DrReceived) then s else put
    | None => put
    end).

(** [src/did/src/core/did_repository.rs:158-161] DidRepository::get_all *)
Definition drp_get_all `{HashOrder} : drp (list DidRecord) := eff_gets (λ s, (map_iter (drp_records s)).*2).

(** [src/did/src/core/did_repository.rs:166-188] DidRepository::find_by_did *)
Definition drp_find_by_did (did : string) : drp (option DidRecord) := eff_gets (λ s, drp_records s !! did).
End repository.

(** ** Created records stay *)

(** The calls of the repository that write. *)
Inductive did_call :=
  | DcReceived (did : string) (document : option DidDocument) (keys : list DidDocumentKey)
  | DcCreated (did : string) (document : option DidDocument) (keys : list DidDocumentKey)
  | DcLoaded (record : DidRecord).
Definition did_run1 `{UuidText} (c : did_call) : eff string DidRepository unit :=
  match c with
  | DcReceived d doc k => store_received_did d doc k;; mret tt
  | DcCreated d doc k => store_created_did d doc k;; mret tt
  | DcLoaded r => insert_loaded_record r
  end.

(** The keys that bind a DID to the wallet change only when the agent creates or loads it anew. *)
Definition rebinds (d : string) (c : did_call) : Prop :=
  match c with DcReceived _ _ _ => False | DcCreated d' _ _ => d' = d | DcLoaded r => dr_did r = d ∧ dr_role r = DrCreated end.

Lemma put_did_run `{UuidText} d role doc k s w :
  ∃ r w', put_did d role doc k s w = (Ok r, persist_record r (mkDidRepo (<[d := r]> (drp_records s)) (drp_persist_sender s)), w') ∧
    dr_role r = role ∧ dr_did r = d ∧ dr_document r = doc ∧ dr_keys r = k.
Proof.
  exists (mkDidRecord (uuid_to_string (uuid_new_v4 w).1) d role doc k (utc_now (uuid_new_v4 w).2).1 None), (utc_now (uuid_new_v4 w).2).2.
  by split_and!.
Qed.
Lemma did_call_keeps `{UuidText} c s w d r :
  drp_records s !! d = Some r → dr_role r = DrCreated → ¬ rebinds d c → drp_records (did_run1 c s w).1.2 !! d = Some r.
Proof.
  intros Hr Hc Hn. destruct c as [d' doc k|d' doc k|r']; cbn in Hn.
  - unfold did_run1, store_received_did, created_already, mbind, eff_bind, eff_gets.
    destruct (put_did_run d' DrReceived doc k s w) as (x & w' & Hput & _).
    destruct (drp_records s !! d') as [r'|] eqn:Hr'; [case_decide; [done|]|]; rewrite Hput; cbn;
      (rewrite lookup_insert_ne; [done|]; intros ->; congruence).
  - unfold did_run1, store_created_did, mbind, eff_bind. destruct (put_did_run d' DrCreated doc k s w) as (x & w' & Hput & _).
    rewrite Hput. cbn. by rewrite lookup_insert_ne.
  - cbn. destruct (decide (dr_did r' = d)) as [<-|Hne].
    + rewrite Hr. rewrite decide_True; [done|]. split; [done|]. destruct (dr_role r') eqn:Hr'; [|done]. by destruct Hn.
    + by repeat case_match; cbn; rewrite ?lookup_insert_ne.
Qed.
