(* ===== verification/PeerDid.v ===== *)
(** did:peer ([src/did/src/methods/peer.rs]): the decoders of numalgo 2 and 4, the resolver and
    the creator, with the types of resolution ([src/did/src/core/resolver.rs]).

    [str::split_at] panics inside a character: a part of a did:peer:2 is split after its first
    byte, so a part that begins with a character of several bytes is a panic.  The crates
    [sha2] and [did_peer] are parameters; the base64 engine is [URL_SAFE_NO_PAD]. *)
From Stdlib Require Import Ascii.
From S2P Require Import Prelude AjnaTypes StdText SerdeJson Storage Hashing Keys Dids.

(** * Resolution *)

(** [src/did/src/core/resolver.rs:12-28] ResolutionError *)
Inductive ResolutionError :=
  | ReNotFound (s : string)
  | ReUnsupportedMethod (s : string)
  | ReInvalidDid (s : string)
  | ReResolutionFailed (s : string)
  | ReInternalError (s : string).

(** [src/did/src/core/resolver.rs:61-70] CreateDidOptions *)
Record CreateDidOptions := mkCreateOptions {
  cdo_key_type : option string;
  cdo_service_endpoints : list string;
  cdo_options : gmap string Json
}.

(** [src/did/src/core/resolver.rs:90-92] CreateDidOptions::new *)
Definition cdo_new : CreateDidOptions := mkCreateOptions None [] ∅.

(** [src/did/src/core/resolver.rs:95-98] CreateDidOptions::with_key_type *)
Definition cdo_with_key_type (key_type : string) (o : CreateDidOptions) : CreateDidOptions :=
  mkCreateOptions (Some key_type) (cdo_service_endpoints o) (cdo_options o).

(** [src/did/src/core/resolver.rs:101-104] CreateDidOptions::with_service_endpoint *)
Definition cdo_with_service_endpoint (endpoint : string) (o : CreateDidOptions) : CreateDidOptions :=
  mkCreateOptions (cdo_key_type o) (cdo_service_endpoints o ++ [endpoint]) (cdo_options o).

(** [src/did/src/core/resolver.rs:107-110] CreateDidOptions::with_option *)
Definition cdo_with_option (key : string) (value : Json) (o : CreateDidOptions) : CreateDidOptions :=
  mkCreateOptions (cdo_key_type o) (cdo_service_endpoints o) (<[key := value]> (cdo_options o)).

(** [src/did/src/core/resolver.rs:74-86] CreateDidResult *)
Record CreateDidResult := mkCreateResult {
  cdr_did : string;
  cdr_document : DidDocument;
  cdr_record : DidRecord;
  cdr_metadata : gmap string Json
}.

(** [src/did/src/core/resolver.rs:115-122] CreateDidResult::new *)
Definition cdr_new (did : string) (document : DidDocument) (record : DidRecord) : CreateDidResult := mkCreateResult did document record ∅.

(** [src/did/src/core/resolver.rs:125-128] CreateDidResult::with_metadata *)
Definition cdr_with_metadata (key : string) (value : Json) (r : CreateDidResult) : CreateDidResult :=
  mkCreateResult (cdr_did r) (cdr_document r) (cdr_record r) (<[key := value]> (cdr_metadata r)).

(** * The crates *)

(** [sha2::Sha256::digest]. *)
Class Sha256 := { sha256 : string → string }.

(** The crate [did_peer]: resolution of the numalgos 0 and 2, and its document as a value. *)
Class DidPeerCrate := {
  dpc_document : Type;
  dpc_resolve : string → outcome string dpc_document;
  dpc_to_value : dpc_document → outcome string Json
}.

(** * Numalgo 2 *)

(** [src/did/src/methods/peer.rs:610-626] Peer2Service *)
Record Peer2Service := mkPeer2 {
  p2_service_endpoint : option string;
  p2_service_type : option string;
  p2_routing_keys : list string;
  p2_authentication_key : option string;
  p2_key_agreement_key : option string;
  p2_recipient_keys : list string
}.
Definition p2_default : Peer2Service := mkPeer2 None None [] None None [].

(** A byte in the middle of a character. *)
Definition continuation_byte (a : ascii) : bool := (128 <=? N_of_ascii a)%N && (N_of_ascii a <=? 191)%N.

Section peer2.
Context `{Bs58} `{Base64} `{JsonText}.

(** A [.V] or [.E] part: the first of each is the key of its kind, all are recipient keys. *)
Definition p2_add_key (auth : bool) (b58 : string) (out : Peer2Service) : Peer2Service :=
  mkPeer2 (p2_service_endpoint out) (p2_service_type out) (p2_routing_keys out)
    (if auth && bool_decide (p2_authentication_key out = None) then Some b58 else p2_authentication_key out)
    (if negb auth && bool_decide (p2_key_agreement_key out = None) then Some b58 else p2_key_agreement_key out)
    (p2_recipient_keys out ++ [b58]).

(** An [.S] part. *)
Definition p2_set_service (svc : Json) (out : Peer2Service) : Peer2Service :=
  mkPeer2 (match json_str_at "s" svc with Some s => Some s | None => json_str_at "serviceEndpoint" svc end)
    (match json_str_at "t" svc with Some t => Some t | None => json_str_at "type" svc end)
    (default [] (json_str_items <$> (match json_get "r" svc with Some v => Some v | None => json_get "routingKeys" svc end)))
    (p2_authentication_key out) (p2_key_agreement_key out) (p2_recipient_keys out).

Definition p2_part {E} (out : Peer2Service) (part : string) : outcome E Peer2Service :=
  match part with
  | String tag (String b rest) =>
      if continuation_byte b then Panic
      else
        let rest := String b rest in
        if Ascii.eqb tag "V"%char then
          Ok (match multibase_to_base58_verkey rest with Some b58 => p2_add_key true b58 out | None => out end)
        else if Ascii.eqb tag "E"%char then
          Ok (match multibase_to_base58_verkey rest with Some b58 => p2_add_key false b58 out | None => out end)
        else if Ascii.eqb tag "S"%char then
          Ok (match b64url_decode rest with
              | inr decoded => match json_parse decoded with Ok svc => p2_set_service svc out | _ => out end
              | inl _ => out
              end)
        else Ok out
  | _ => Ok out
  end.
Fixpoint p2_parts {E} (out : Peer2Service) (parts : list string) : outcome E Peer2Service :=
  match parts with
  | [] => Ok out
  | part :: parts => let? out := p2_part out part in p2_parts out parts
  end.

(** [src/did/src/methods/peer.rs:632-691] parse_peer2 *)
Definition parse_peer2 {E} (did : string) : outcome E (option Peer2Service) :=
  match str_strip_prefix "did:peer:2" did with
  | None | Some EmptyString => Ok None
  | Some rest => let? out := p2_parts p2_default (str_split "."%char rest) in Ok (Some out)
  end.

(** [src/did/src/methods/peer.rs:695-700] parse_peer2_verkeys *)
Definition parse_peer2_verkeys {E} (did : string) : outcome E (option string * option string) :=
  let? p := parse_peer2 did in
  Ok (match p with Some p => (p2_authentication_key p, p2_key_agreement_key p) | None => (None, None) end).
End peer2.

(** * Numalgo 4 *)

(** [src/did/src/methods/peer.rs:276-290] read_uvarint *)
Fixpoint read_uvarint_go (value : N) (shift : N) (data : string) : option (N * string) :=
  match data with
  | EmptyString => None
  | String byte data =>
      let b := N_of_ascii byte in
      let value := N.lor value (wrap64 (N.shiftl (N.land b 127) shift)) in
      if (N.land b 128 =? 0)%N then Some (value, data)
      else if (64 <=? shift + 7)%N then None
      else read_uvarint_go value (shift + 7) data
  end.
Definition read_uvarint (data : string) : option (N * string) := read_uvarint_go 0 0 data.

(** [src/did/src/methods/peer.rs:154-158] split_peer4_long *)
Definition split_peer4_long (did : string) : option string :=
  body ← str_strip_prefix "did:peer:4" did;
  '(hash, encoded) ← str_split_once ":"%char body;
  if decide (hash ≠ "" ∧ encoded ≠ "") then Some encoded else None.

Definition RELATIONSHIPS : list string := ["authentication"; "keyAgreement"; "assertionMethod"; "capabilityDelegation"; "capabilityInvocation"].

Section peer4.
Context `{Bs58} `{Multibase} `{Sha256} `{JsonText}.

(** [src/did/src/methods/peer.rs:246-254] hash_encoded_document *)
Definition hash_encoded_document (encoded : string) : string := mb_encode58 (multicodec 18 32 (sha256 encoded)).

(** [src/did/src/methods/peer.rs:264-273] encode_did_peer4 *)
Definition encode_did_peer4 (document_json : string) : string * string * string :=
  let encoded := mb_encode58 (multicodec 128 4 document_json) in
  let hash := hash_encoded_document encoded in
  let short_form := "did:peer:4" +:+ hash in
  let long_form := short_form +:+ ":" +:+ encoded in
  (short_form, long_form, encoded).

(** The controller of an embedded method is the DID itself, unless it names one. *)
Definition p4_controlled (did : string) (item : Json) : Json :=
  match item with
  | JObject m => JObject (match json_get "controller" item with Some _ => m | None => obj_insert "controller" (JString did) m end)
  | _ => item
  end.
Definition p4_controllers (did : string) (field : string) (obj : list (string * Json)) : list (string * Json) :=
  obj_alter field (λ v, match v with JArray l => JArray (p4_controlled did <$> l) | _ => v end) obj.

(** The embedded methods of a relationship whose ids are new. *)
Fixpoint p4_collect (items : list Json) (acc : list Json * gset string) : list Json * gset string :=
  match items with
  | [] => acc
  | item :: items =>
      p4_collect items
        (match json_str_at "id" item with
         | Some id => if decide (id ∈ acc.2) then acc else (acc.1 ++ [item], {[id]} ∪ acc.2)
         | None => acc
         end)
  end.

(** What the encoding stripped is put back. *)
Definition p4_complete (did short : string) (obj : list (string * Json)) : list (string * Json) :=
  let obj := obj_insert "alsoKnownAs" (json_strings [short]) (obj_insert "id" (JString did) obj) in
  let obj := foldl (λ obj field, p4_controllers did field obj) obj ("verificationMethod" :: RELATIONSHIPS) in
  let vms := default [] (json_array_at "verificationMethod" (JObject obj)) in
  let ids : gset string := list_to_set (omap (json_str_at "id") vms) in
  let vms := (foldl (λ acc field, p4_collect (default [] (json_array_at field (JObject obj))) acc) (vms, ids) RELATIONSHIPS).1 in
  match vms with [] => obj | _ => obj_insert "verificationMethod" (JArray vms) obj end.

(** [did[..did.len() - encoded.len() - 1]]. *)
Definition p4_short (did encoded : string) : string := String.substring 0 (String.length did - String.length encoded - 1) did.

(** [src/did/src/methods/peer.rs:164-242] decode_peer4_long *)
Definition decode_peer4_long `{Serde DidDocument} (did encoded : string) : outcome ResolutionError DidDocument :=
  let short := p4_short did encoded in
  let got_hash := default "" (str_strip_prefix "did:peer:4" short) in
  if negb (bool_decide (got_hash = hash_encoded_document encoded))
  then Err (ReResolutionFailed ("did:peer:4 self-certifying hash mismatch: " +:+ did))
  else match mb_decode encoded with
  | inl e => Err (ReResolutionFailed ("did:peer:4 multibase decode: " +:+ e))
  | inr data =>
      match read_uvarint data with
      | None => Err (ReResolutionFailed "did:peer:4 truncated multicodec")
      | Some (codec, rest) =>
          if negb (codec =? 512)%N then Err (ReResolutionFailed "did:peer:4 unexpected multicodec")
          else match json_parse rest with
          | Err e => Err (ReResolutionFailed ("did:peer:4 document JSON: " +:+ e))
          | Panic => Panic
          | Ok doc =>
              let doc := match doc with JObject obj => JObject (p4_complete did short obj) | _ => doc end in
              match sd_from_value doc with
              | Ok d => Ok d
              | Err e => Err (ReInternalError ("did:peer:4 -> DidDocument: " +:+ e))
              | Panic => Panic
              end
          end
      end
  end.

(** The base58 key of a ["#id"] reference, in the first array that has the id. *)
Fixpoint p4_key_by_ref (doc : Json) (id_ref : string) (fields : list string) : option string :=
  match fields with
  | [] => None
  | field :: fields =>
      match (arr ← json_array_at field doc;
             find_first (λ m, (match json_str_at "id" m with Some i => str_ends_with i id_ref | None => false end) = true) arr) with
      | Some m => json_str_at "publicKeyBase58" m
      | None => p4_key_by_ref doc id_ref fields
      end
  end.
Definition p4_first_base58 (doc : Json) (field : string) : option string :=
  arr ← json_array_at field doc; m ← head arr; json_str_at "publicKeyBase58" m.

(** [src/did/src/methods/peer.rs:304-386] parse_peer4 *)
Definition parse_peer4 (did : string) : option Peer2Service :=
  encoded ← split_peer4_long did;
  data ← (match mb_decode encoded with inr d => Some d | inl _ => None end);
  '(codec, rest) ← read_uvarint data;
  if negb (codec =? 512)%N then None
  else
    doc ← (match json_parse rest with Ok d => Some d | _ => None end);
    services ← json_array_at "service" doc;
    service ← head services;
    let authentication_key :=
      match (a ← json_array_at "recipientKeys" service; k ← head a; json_as_str k) with
      | Some r => if str_starts_with r "#" then p4_key_by_ref doc r ["authentication"; "keyAgreement"; "verificationMethod"] else Some r
      | None => p4_first_base58 doc "authentication"
      end in
    let key_agreement_key := p4_first_base58 doc "keyAgreement" in
    Some (mkPeer2 (json_str_at "serviceEndpoint" service) (json_str_at "type" service)
            (default [] (json_str_items <$> json_get "routingKeys" service))
            authentication_key key_agreement_key (omap id [authentication_key; key_agreement_key])).
End peer4.

(** * The resolver *)

(** [src/did/src/methods/peer.rs:35-39] PeerDidResolver *)
Record PeerDidResolver := mkPeerResolver {
  pdr_did_repository : DidRepository;
  pdr_fallback_repository : option DidRepository
}.

(** [src/did/src/methods/peer.rs:42-48] PeerDidResolver::new *)
Definition pdr_new (did_repository : DidRepository) : PeerDidResolver := mkPeerResolver did_repository None.

(** [src/did/src/methods/peer.rs:55-58] PeerDidResolver::with_fallback *)
Definition pdr_with_fallback (fallback : DidRepository) (r : PeerDidResolver) : PeerDidResolver :=
  mkPeerResolver (pdr_did_repository r) (Some fallback).

(** [src/did/src/methods/peer.rs:82-99] PeerDidResolver::resolve_stored *)
Definition resolve_stored (self : PeerDidResolver) (did : string) : outcome ResolutionError DidDocument :=
  let not_found := Err (ReNotFound ("No did record found for " +:+ did +:+ " - short-form did:peer resolution requires the genesis document")) in
  match drp_records (pdr_did_repository self) !! did with
  | Some rec =>
      match dr_document rec with
      | Some doc => Ok doc
      | None => Err (ReInternalError ("DidRecord found for " +:+ did +:+ " but didDocument is missing"))
      end
  | None =>
      match (fallback ← pdr_fallback_repository self; rec ← drp_records fallback !! did; dr_document rec) with
      | Some doc => Ok doc
      | None => not_found
      end
  end.

Section resolver.
Context `{Bs58} `{Multibase} `{Sha256} `{JsonText} `{Serde DidDocument} `{DidPeerCrate}.

(** [src/did/src/methods/peer.rs:61-76] PeerDidResolver::convert_document *)
Definition convert_document (peer_doc : dpc_document) : outcome ResolutionError DidDocument :=
  match dpc_to_value peer_doc with
  | Err e => Err (ReInternalError ("Failed to serialize peer doc: " +:+ e))
  | Panic => Panic
  | Ok json =>
      match sd_from_value json with
      | Ok d => Ok d
      | Err e => Err (ReInternalError ("Failed to convert peer doc: " +:+ e))
      | Panic => Panic
      end
  end.

(** [src/did/src/methods/peer.rs:112-143] PeerDidResolver::resolve *)
Definition peer_resolve (self : PeerDidResolver) (did : string) : outcome ResolutionError DidDocument :=
  match str_strip_prefix "did:peer:" did with
  | Some (String numalgo _) =>
      if Ascii.eqb numalgo "1"%char then resolve_stored self did
      else if Ascii.eqb numalgo "4"%char then
        match split_peer4_long did with
        | Some encoded => decode_peer4_long did encoded
        | None => resolve_stored self did
        end
      else if Ascii.eqb numalgo "0"%char || Ascii.eqb numalgo "2"%char then
        match dpc_resolve did with
        | Err e => Err (ReResolutionFailed ("did:peer resolution failed: " +:+ e))
        | Panic => Panic
        | Ok result => convert_document result
        end
      else Err (ReResolutionFailed ("unsupported did:peer numalgo: " +:+ did))
  | _ => Err (ReResolutionFailed ("unsupported did:peer numalgo: " +:+ did))
  end.
End resolver.

(** * The creator *)

(** [src/did/src/methods/peer.rs:394-397] PeerDidCreator *)
Record PeerDidCreator (WT : Type) := mkPeerCreator { pcr_wallet : WT; pcr_did_repository : DidRepository }.
Arguments mkPeerCreator {WT}.
Arguments pcr_wallet {WT}.
Arguments pcr_did_repository {WT}.

(** The text of a did:peer:2. *)
Definition peer2_did `{Bs58} `{Base64} (ed25519 x25519 service_str : string) : string :=
  "did:peer:2.V" +:+ mb_encode58 (ed25519_codec ed25519) +:+ ".E" +:+ mb_encode58 (x25519_codec x25519) +:+ ".S" +:+ b64url_encode service_str.

Section creator.
Context `{UuidText} `{Bs58} `{Base64} `{JsonText} `{Curve25519} {WT : Type} `{!Wallet WT}.
Abbreviation PC := (PeerDidCreator WT).
Abbreviation pc := (eff ResolutionError PC).

Definition on_wallet {A} (m : eff AgentError WT A) : pc A :=
  eff_zoom pcr_wallet (λ x s, mkPeerCreator x (pcr_did_repository s)) (λ e, ReInternalError ("Failed to create key: " +:+ ag_to_string e)) m.
Definition on_dids {A} (m : eff string DidRepository A) : pc A :=
  eff_zoom pcr_did_repository (λ x s, mkPeerCreator (pcr_wallet s) x) (λ e, ReInternalError ("Failed to store DID: " +:+ e)) m.

(** A list of strings among the options. *)
Definition option_strings (o : CreateDidOptions) (key : string) : option (list string) := v ← cdo_options o !! key; sv_strings v.

(** The Aries profiles of DIDComm v1. *)
Definition is_didcomm_v1 (accept : list string) : bool :=
  existsb (λ a, str_contains a "aip" || str_contains a "rfc19" || str_contains a "rfc0") accept.

(** The service block of the DID, and the service of the document. *)
Definition peer2_service_json (v1 : bool) (endpoint : string) (routing_keys accept : list string) : Json :=
  if v1 then JObject [("t", JString "did-communication"); ("s", JString endpoint); ("priority", JPosInt 0);
                      ("recipientKeys", json_strings ["#key-1"]); ("r", json_strings routing_keys)]
  else JObject [("t", JString "dm"); ("s", JString endpoint); ("r", json_strings routing_keys); ("a", json_strings accept)].
Definition peer2_service (v1 : bool) (did endpoint : string) (routing_keys accept : list string) : CoreService :=
  if v1 then
    csvc_with_property "routingKeys" (json_strings routing_keys)
      (csvc_with_property "recipientKeys" (json_strings [did +:+ "#key-1"])
         (csvc_with_property "priority" (JPosInt 0) (csvc_new "#didcomm" "did-communication" (JString endpoint))))
  else
    csvc_with_property "routingKeys" (json_strings routing_keys)
      (csvc_with_property "accept" (json_strings accept) (csvc_new "#didcomm" "DIDCommMessaging" (JString endpoint))).

(** The document of a created did:peer:2. *)
Definition peer2_document (did auth_key agreement_key : string) (service : CoreService) : DidDocument :=
  dd_add_service service
    (dd_add_key_agreement (Reference (did +:+ "#key-2"))
      (dd_add_authentication (Reference (did +:+ "#key-1"))
        (dd_add_verification_method (cvm_with_multibase agreement_key (cvm_new (did +:+ "#key-2") "X25519KeyAgreementKey2020" did))
          (dd_add_verification_method (cvm_with_multibase auth_key (cvm_new (did +:+ "#key-1") "Ed25519VerificationKey2020" did))
            (dd_with_context (json_strings ["https://www.w3.org/ns/did/v1"; "https://w3id.org/security/suites/ed25519-2020/v1";
                                            "https://w3id.org/security/suites/x25519-2020/v1"])
               (dd_new did)))))).

(** [CompressedEdwardsY::from_slice(..)?.decompress()?.to_montgomery().to_bytes()], with the
    texts of the two errors. *)
Definition to_x25519 {E} (bad_length bad_point : E) (ed25519 : string) : outcome E string :=
  if negb (bool_decide (String.length ed25519 = 32)) then Err bad_length
  else match ed_montgomery ed25519 with Some x => Ok x | None => Err bad_point end.

(** [src/did/src/methods/peer.rs:410-593] PeerDidCreator::create *)
Definition peer_create (options : CreateDidOptions) : pc CreateDidResult :=
  match cdo_service_endpoints options with
  | [] => eff_throw (ReInvalidDid "did:peer:2 requires at least one service endpoint")
  | service_endpoint :: _ =>
      let routing_keys := default [] (option_strings options "routing_keys") in
      let accept := default ["didcomm/v2"] (option_strings options "accept") in
      key ← on_wallet (wa_create_key Ed25519 AgentDID);
      x25519 ← eff_lift (to_x25519 (ReInternalError "Invalid Ed25519 key: TryFromSliceError(())")
                                    (ReInternalError "Failed to decompress Ed25519 key") (key_public key));
      let v1 := is_didcomm_v1 accept in
      let peer_did := peer2_did (key_public key) x25519 (json_print (peer2_service_json v1 service_endpoint routing_keys accept)) in
      let did_document :=
        peer2_document peer_did (mb_encode58 (ed25519_codec (key_public key))) (mb_encode58 (x25519_codec x25519))
          (peer2_service v1 peer_did service_endpoint routing_keys accept) in
      let keys := [mkDdk (key_id key) (peer_did +:+ "#key-1"); mkDdk (key_id key) (peer_did +:+ "#key-2")] in
      did_record ← on_dids (store_created_did peer_did (Some did_document) keys);
      did ← eff_lift (match did_parse peer_did with
                      | Ok d => Ok d
                      | Err e => Err (ReInternalError ("Failed to parse created DID: " +:+ de_to_string e))
                      | Panic => Panic
                      end);
      mret (cdr_with_metadata "key_id" (JString (key_id key)) (cdr_new did did_document did_record))
  end.
End creator.
