(* ===== verification/PeerProps.v ===== *)
(** What did:peer promises ([PeerDid.v]): a DID of numalgo 2 decodes to the keys and the service
    it was made from, one of numalgo 4 to its document, and the creator stores what it returns. *)
From Stdlib Require Import Ascii.
From S2P Require Import Prelude AjnaTypes StdText SerdeJson Storage Hashing Keys Dids PeerDid.

(** * Numalgo 2 *)

(** [serde_json] prints an object as a text that parses to an object with the same members,
    in whatever order the map keeps them. *)
Class JsonMembers `{JsonText} : Prop := {
  json_members l : NoDup l.*1 → ∃ v, json_parse (json_print (JObject l)) = Ok v ∧ ∀ k, json_get k v = json_get k (JObject l);
  json_print_nonempty v : json_print v ≠ ""
}.

Lemma b64url_ascii a : is_b64url a = true → continuation_byte a = false.
Proof. by destruct a as [[] [] [] [] [] [] [] []]. Qed.

Section numalgo2.
Context `{Bs58Laws} `{Base64UrlChars} `{JsonText}.

Lemma mb58_avoids c b : is_alnum c = false → str_avoids c (mb_encode58 b) = true.
Proof.
  intros Hc. unfold mb_encode58. rewrite str_avoids_app, bs58_avoids by done.
  rewrite str_avoids_cons, !andb_true_r, negb_true_iff. apply Ascii.eqb_neq. by intros <-.
Qed.

Lemma p2_key_part {E} (tag : ascii) b0 b1 key (out : Peer2Service) :
  key ≠ "" → tag = "V"%char ∨ tag = "E"%char →
  p2_part (E:=E) out (String tag (mb_encode58 (multicodec b0 b1 key))) = Ok (p2_add_key (Ascii.eqb tag "V"%char) (bs58_encode key) out).
Proof.
  intros Hk Ht. pose proof (multibase_verkey b0 b1 key Hk) as Hm. unfold p2_part.
  change (mb_encode58 ?b) with (String "z"%char (bs58_encode b)) in *. cbv beta iota zeta. rewrite Hm. by destruct Ht as [-> | ->].
Qed.
Lemma p2_service_part {E} text svc (out : Peer2Service) :
  text ≠ "" → json_parse text = Ok svc → p2_part (E:=E) out (String "S"%char (b64url_encode text)) = Ok (p2_set_service svc out).
Proof.
  intros Hne Hj. unfold p2_part. pose proof (b64url_nonempty text Hne). pose proof (b64url_chars text) as Hc.
  pose proof (b64url_decode_encode text) as Hd. destruct (b64url_encode text) as [|b rest]; [done|].
  cbn in Hc. apply andb_true_iff in Hc as [Hb _]. rewrite b64url_ascii by done. by rewrite Hd, Hj.
Qed.

(** The parts of a created DID. *)
Lemma peer2_parts ed x text :
  ∃ parts, str_strip_prefix "did:peer:2" (peer2_did ed x text) = Some (String "."%char parts) ∧
    str_split "."%char (String "."%char parts) =
      [""; String "V"%char (mb_encode58 (ed25519_codec ed)); String "E"%char (mb_encode58 (x25519_codec x)); String "S"%char (b64url_encode text)].
Proof.
  eexists. split.
  - unfold peer2_did. change "did:peer:2.V" with ("did:peer:2" +:+ ".V"). rewrite string_app_assoc. apply strip_prefix_app.
  - change (String "."%char ?t) with ("" +:+ String "."%char t). rewrite str_split_app by done. f_equal.
    change ("V" +:+ ?t) with (String "V"%char t).
    change (".E" +:+ ?t) with (String "."%char (String "E"%char t)). change (".S" +:+ ?t) with (String "."%char (String "S"%char t)).
    rewrite <-(string_app_cons "V"), str_split_app by (rewrite str_avoids_cons; by apply mb58_avoids). f_equal.
    rewrite <-(string_app_cons "E"), str_split_app by (rewrite str_avoids_cons; by apply mb58_avoids). f_equal.
    apply str_split_none. rewrite str_avoids_cons. by apply b64url_plain.
Qed.

Lemma parse_peer2_created {E} ed x text svc :
  ed ≠ "" → x ≠ "" → text ≠ "" → json_parse text = Ok svc →
  parse_peer2 (E:=E) (peer2_did ed x text) =
    Ok (Some (p2_set_service svc (mkPeer2 None None [] (Some (bs58_encode ed)) (Some (bs58_encode x)) [bs58_encode ed; bs58_encode x]))).
Proof.
  intros Hed Hx Ht Hj. unfold parse_peer2. destruct (peer2_parts ed x text) as (parts & -> & ->).
  cbn [p2_parts]. unfold p2_part at 1. rewrite p2_key_part by auto. cbn [Ascii.eqb Bool.eqb]. rewrite p2_key_part by auto.
  rewrite (p2_service_part text svc) by done. done.
Qed.
End numalgo2.

(** * Numalgo 4 *)

Section numalgo4.
Context `{Bs58Laws} `{Multibase} `{!MultibaseLaws} `{Sha256} `{JsonText} `{Serde DidDocument}.

(** The long form is the short one, a colon and the document. *)
Definition long_form (hash encoded : string) : string := "did:peer:4" +:+ hash +:+ ":" +:+ encoded.

Lemma split_long hash encoded : hash ≠ "" → encoded ≠ "" → str_avoids ":"%char hash = true → split_peer4_long (long_form hash encoded) = Some encoded.
Proof.
  intros Hh He Ha. unfold split_peer4_long, long_form. rewrite strip_prefix_app. cbn [mbind option_bind].
  change (":" +:+ encoded) with (String ":"%char encoded). rewrite str_split_once_app by done. cbn. by rewrite decide_True.
Qed.
Lemma split_long_inv did encoded : split_peer4_long did = Some encoded → ∃ hash, did = long_form hash encoded ∧ hash ≠ "".
Proof.
  unfold split_peer4_long. destruct (str_strip_prefix "did:peer:4" did) as [body|] eqn:Hs; [|done]. cbn.
  destruct (str_split_once ":"%char body) as [[hash e]|] eqn:Hb; [|done]. cbn. case_decide as Hd; [|done]. intros [= ->].
  apply strip_prefix_some in Hs as ->. apply str_split_once_Some in Hb as [-> _]. exists hash. by destruct Hd.
Qed.
Lemma short_of_long hash encoded : p4_short (long_form hash encoded) encoded = "did:peer:4" +:+ hash.
Proof.
  unfold p4_short, long_form. rewrite <-(string_app_assoc "did:peer:4"), (string_length_app _ (":" +:+ encoded)).
  replace (_ + String.length (":" +:+ encoded) - String.length encoded - 1) with (String.length ("did:peer:4" +:+ hash))
    by (change (String.length (":" +:+ encoded)) with (S (String.length encoded)); lia).
  by apply substring_app_l.
Qed.

(** The varint of the codec of JSON. *)
Lemma json_codec text : read_uvarint (multicodec 128 4 text) = Some (512%N, text).
Proof. done. Qed.

Lemma hash_avoids encoded : str_avoids ":"%char (hash_encoded_document encoded) = true.
Proof. unfold hash_encoded_document, mb_encode58. rewrite str_avoids_app. by rewrite bs58_avoids. Qed.

(** What the completion writes under [id] and [alsoKnownAs] stays. *)
Lemma json_get_alter key f o key' : key' ≠ key → json_get key' (JObject (obj_alter key f o)) = json_get key' (JObject o).
Proof. intros Hne. unfold obj_alter. destruct (json_get key (JObject o)); [|done]. rewrite json_get_insert. by rewrite decide_False. Qed.
Lemma p4_complete_get did short obj key :
  key = "id" ∨ key = "alsoKnownAs" →
  json_get key (JObject (p4_complete did short obj)) = Some (if decide (key = "id") then JString did else json_strings [short]).
Proof.
  intros Hk. unfold p4_complete. cbv zeta.
  set (base := obj_insert "alsoKnownAs" _ _). set (done_ := foldl _ base _).
  assert (Hd : json_get key (JObject done_) = json_get key (JObject base)).
  { subst done_. unfold RELATIONSHIPS. cbn [foldl]. unfold p4_controllers. rewrite !json_get_alter; [done|by destruct Hk as [-> | ->]..]. }
  assert (Hb : json_get key (JObject base) = Some (if decide (key = "id") then JString did else json_strings [short])).
  { subst base. rewrite !json_get_insert. by destruct Hk as [-> | ->]. }
  destruct (foldl _ _ RELATIONSHIPS).1; [by rewrite Hd|]. rewrite json_get_insert, decide_False by (by destruct Hk as [-> | ->]). by rewrite Hd.
Qed.

Lemma decoded_long text encoded :
  encoded = mb_encode58 (multicodec 128 4 text) →
  decode_peer4_long (long_form (hash_encoded_document encoded) encoded) encoded =
    match json_parse text with
    | Err e => Err (ReResolutionFailed ("did:peer:4 document JSON: " +:+ e))
    | Panic => Panic
    | Ok doc =>
        match sd_from_value (match doc with
                             | JObject obj => JObject (p4_complete (long_form (hash_encoded_document encoded) encoded) ("did:peer:4" +:+ hash_encoded_document encoded) obj)
                             | _ => doc end) with
        | Ok d => Ok d
        | Err e => Err (ReInternalError ("did:peer:4 -> DidDocument: " +:+ e))
        | Panic => Panic
        end
    end.
Proof.
  intros ->. unfold decode_peer4_long. rewrite short_of_long, strip_prefix_app. cbn [default from_option].
  rewrite bool_decide_eq_true_2 by done. cbn [negb]. rewrite mb_decode_58, json_codec. done.
Qed.
End numalgo4.

Section resolution.
Context `{Bs58Laws} `{Multibase} `{!MultibaseLaws} `{Sha256} `{JsonText} `{Serde DidDocument} `{DidPeerCrate}.

(** The long form that [encode_did_peer4] gives for the text of a document resolves without
    any record: the resolver reads that document, with the DID as its [id] and the short form
    as its only alias. *)
Theorem peer4_resolves self text obj short long encoded :
  encode_did_peer4 text = (short, long, encoded) → json_parse text = Ok (JObject obj) →
  split_peer4_long long = Some encoded ∧
  ∃ doc, json_get "id" (JObject doc) = Some (JString long) ∧ json_get "alsoKnownAs" (JObject doc) = Some (json_strings [short]) ∧
    doc = p4_complete long short obj ∧
    peer_resolve self long = match sd_from_value (JObject doc) with
                             | Ok d => Ok d
                             | Err e => Err (ReInternalError ("did:peer:4 -> DidDocument: " +:+ e))
                             | Panic => Panic
                             end.
Proof.
  intros He Hj. unfold encode_did_peer4 in He. injection He as <- Hl <-.
  set (encoded := mb_encode58 (multicodec 128 4 text)) in *. set (hash := hash_encoded_document encoded) in *.
  assert (Hlong : long = long_form hash encoded) by (unfold long_form; rewrite <-Hl; apply string_app_assoc). subst long.
  assert (Hs : split_peer4_long (long_form hash encoded) = Some encoded) by (apply split_long; [done|done|apply hash_avoids]).
  rewrite Hlong. split; [done|]. exists (p4_complete (long_form hash encoded) ("did:peer:4" +:+ hash) obj).
  split_and!; [rewrite p4_complete_get; by auto..|done|].
  assert (Hr : peer_resolve self (long_form hash encoded) = decode_peer4_long (long_form hash encoded) encoded).
  { unfold peer_resolve. replace (str_strip_prefix "did:peer:" (long_form hash encoded)) with (Some (String "4"%char (hash +:+ ":" +:+ encoded))).
    - cbn [Ascii.eqb Bool.eqb]. by rewrite Hs.
    - symmetry. apply (strip_prefix_app "did:peer:" (String "4"%char _)). }
  rewrite Hr. pose proof (decoded_long text encoded eq_refl) as Hd. fold hash in Hd. by rewrite Hd, Hj.
Qed.

(** C37: A long-form did:peer:4 certifies itself: when the resolver gives a document for one, the
    DID carries the hash of exactly the encoded document that the answer was read from, whatever
    the repository holds. *)
Theorem peer4_self_certifying self did encoded d :
  split_peer4_long did = Some encoded → peer_resolve self did = Ok d →
  did = long_form (hash_encoded_document encoded) encoded.
Proof.
  intros Hs Hr. apply split_long_inv in Hs as Hl. destruct Hl as (hash & -> & Hne). unfold peer_resolve in Hr.
  rewrite (strip_prefix_app "did:peer:" (String "4"%char _) : str_strip_prefix "did:peer:" (long_form hash encoded) = _) in Hr.
  cbn [Ascii.eqb Bool.eqb] in Hr. rewrite Hs in Hr. unfold decode_peer4_long in Hr. rewrite short_of_long, strip_prefix_app in Hr.
  destruct (decide (hash = hash_encoded_document encoded)) as [->|Hn]; [done|]. by rewrite bool_decide_eq_false_2 in Hr.
Qed.
End resolution.

(** * Creation *)

Section creation.
Context `{UuidText} `{Bs58Laws} `{Base64UrlChars} `{JsonMembers} `{Curve25519Laws} {WT : Type} `{!Wallet WT}.

Lemma peer2_did_parses ed x text : did_parse (peer2_did ed x text) = Ok (peer2_did ed x text).
Proof.
  apply did_parse_ok. exists "peer", ("2.V" +:+ mb_encode58 (ed25519_codec ed) +:+ ".E" +:+ mb_encode58 (x25519_codec x) +:+ ".S" +:+ b64url_encode text).
  by split_and!.
Qed.

(** The service that a DID carries is the one it was created with. *)
Lemma peer2_service_read v1 endpoint routing accept auth ka keys :
  ∃ svc, json_parse (json_print (peer2_service_json v1 endpoint routing accept)) = Ok svc ∧
    p2_set_service svc (mkPeer2 None None [] auth ka keys) =
      mkPeer2 (Some endpoint) (Some (if v1 : bool then "did-communication" else "dm")) routing auth ka keys.
Proof.
  unfold peer2_service_json. destruct v1.
  all: match goal with |- context [json_print (JObject ?l)] => destruct (json_members l) as (svc & Hp & Hg) end;
    [cbn; repeat constructor; set_solver|]; exists svc; split; [done|].
  all: unfold p2_set_service, json_str_at; rewrite !Hg; json_keys; cbn [mbind option_bind json_as_str fmap option_fmap option_map default from_option];
    by rewrite json_str_items_strings.
Qed.

(** C36: Creating a did:peer:2 succeeds whenever the wallet gives an Ed25519 key that is a point of
    the curve; the DID decodes, with nothing but itself, to the key, its X25519 form, the first
    endpoint, the routing keys and the dialect that [accept] chose; and the repository holds, as
    created, the document that was returned, with the wallet's key behind both its keys. *)
Theorem created_peer_decodes o endpoint rest key wt1 w1 c w :
  cdo_service_endpoints o = endpoint :: rest →
  wa_create_key Ed25519 AgentDID (pcr_wallet c) w = (Ok key, wt1, w1) →
  is_Some (ed_montgomery (key_public key)) →
  ∃ x r c1 w2, ed_montgomery (key_public key) = Some x ∧ peer_create o c w = (Ok r, c1, w2) ∧
    parse_peer2 (E:=string) (cdr_did r) =
      Ok (Some (mkPeer2 (Some endpoint)
                  (Some (if is_didcomm_v1 (default ["didcomm/v2"] (option_strings o "accept")) then "did-communication" else "dm"))
                  (default [] (option_strings o "routing_keys"))
                  (Some (bs58_encode (key_public key))) (Some (bs58_encode x)) [bs58_encode (key_public key); bs58_encode x])) ∧
    drp_records (pcr_did_repository c1) !! cdr_did r = Some (cdr_record r) ∧
    dr_role (cdr_record r) = DrCreated ∧ dr_document (cdr_record r) = Some (cdr_document r) ∧
    dd_id (cdr_document r) = cdr_did r ∧ dr_kms_key_ids (cdr_record r) = [key_id key; key_id key].
Proof.
  intros Ho Hk [x Hx]. exists x.
  assert (Hlen : String.length (key_public key) = 32) by (apply ed_montgomery_from; eauto).
  assert (Hlx : String.length x = 32) by (by eapply ed_montgomery_length).
  unfold peer_create. rewrite Ho. set (v1 := is_didcomm_v1 _).
  set (routing := default [] (option_strings o "routing_keys")). set (accept := default ["didcomm/v2"] _).
  destruct (peer2_service_read v1 endpoint routing accept (Some (bs58_encode (key_public key))) (Some (bs58_encode x))
              [bs58_encode (key_public key); bs58_encode x]) as (svc & Hj & Hsvc).
  set (text := json_print _) in *. set (did := peer2_did (key_public key) x text).
  set (doc := peer2_document did (mb_encode58 (ed25519_codec (key_public key))) (mb_encode58 (x25519_codec x)) (peer2_service v1 did endpoint routing accept)).
  set (keys := [mkDdk (key_id key) (did +:+ "#key-1"); mkDdk (key_id key) (did +:+ "#key-2")]).
  destruct (put_did_run did DrCreated (Some doc) keys (pcr_did_repository c) w1) as (rec & w2 & Hput & Hrole & Hdid & Hdoc & Hkeys).
  set (s1 := persist_record _ _) in Hput.
  exists (cdr_with_metadata "key_id" (JString (key_id key)) (cdr_new did doc rec)), (mkPeerCreator wt1 s1), w2.
  split_and!; [done| | |by apply lookup_insert_eq|done|done|done|by unfold dr_kms_key_ids; cbn; rewrite Hkeys].
  - rewrite (eff_bind_run _ _ _ _ key (mkPeerCreator wt1 (pcr_did_repository c)) w1) by (unfold on_wallet, eff_zoom; by rewrite Hk).
    rewrite (eff_bind_run _ _ _ _ x (mkPeerCreator wt1 (pcr_did_repository c)) w1)
      by (unfold eff_lift, to_x25519; rewrite bool_decide_eq_true_2 by done; cbn; by rewrite Hx).
    fold v1 text did doc keys. erewrite eff_bind_run by (unfold on_dids, eff_zoom, store_created_did; cbn [pcr_did_repository]; rewrite Hput; reflexivity).
    unfold eff_lift, did. rewrite peer2_did_parses. done.
  - change (cdr_did _) with did. unfold did. rewrite (parse_peer2_created _ _ _ svc); [by rewrite Hsvc|..|by apply json_print_nonempty|done].
    + intros He. by rewrite He in Hlen.
    + intros He. by rewrite He in Hlx.
Qed.
End creation.

(** * A concrete environment *)

Lemma code_json_members : JsonMembers (H:=code_json).
Proof. split; [intros l _; exists (JObject l); split; [apply code_reparse|done]|intros v; apply bits_nonempty]. Qed.

Definition toy_multibase : Multibase := {|
  mb_decode s := match str_strip_prefix "z" s ≫= letters_decode with Some t => inr t | None => inl "Unknown base code" end
|}.
Lemma toy_multibase_laws : MultibaseLaws (H:=toy_bs58) (H0:=toy_multibase).
Proof. constructor. intros s. unfold mb_encode58. cbn [mb_decode toy_multibase]. rewrite strip_prefix_app. cbn. by rewrite letters_back. Qed.
Definition toy_sha256 : Sha256 := {| sha256 s := s |}.

Definition toy_curve : Curve25519 := {| ed_montgomery k := if decide (String.length k = 32) then Some k else None |}.
Lemma toy_curve_laws : Curve25519Laws (H:=toy_curve).
Proof. split; cbn; intros k; case_decide; [by intros ? [= <-]|done|done|by intros []]. Qed.

(** A wallet that numbers its keys. *)
Definition toy_public (n : nat) : string := String.string_of_list_ascii (replicate 31 "k"%char) +:+ pretty (n mod 10).
Definition toy_wallet : Wallet nat := {|
  wa_create_key t p := λ n w, (Ok (mkKey (pretty n) t p (toy_public n) ∅), S n, w);
  wa_get_key i := λ n w, (Ok (Some (mkKey i Ed25519 AgentDID (toy_public 0) ∅)), n, w);
  wa_sign i s := λ n w, (Ok (mkWalletSignature s i), n, w)
|}.
Definition toy_options : CreateDidOptions := cdo_with_service_endpoint "https://agent" cdo_new.

Section peer_runs.
#[local] Existing Instances code_json code_json_members toy_bs58 toy_bs58_laws letters_base64 letters_base64_chars toy_multibase toy_multibase_laws
  toy_sha256 toy_curve toy_curve_laws toy_wallet toy_uuid_text.

(** The documents of the runs are read by their [id]. *)
Definition toy_documents : Serde DidDocument := {|
  sd_to_value d := Ok (JObject [("id", JString (dd_id d))]);
  sd_from_value v := match json_str_at "id" v with Some i => Ok (dd_new i) | None => Err "missing field `id`" end;
  sd_to_text d := Ok (dd_id d); sd_from_text s := Ok (dd_new s)
|}.
Definition toy_did_peer : DidPeerCrate := {| dpc_document := unit; dpc_resolve _ := Err "not used"; dpc_to_value _ := Err "not used" |}.
#[local] Existing Instances toy_documents toy_did_peer.

Theorem created_peer_decodes_witness :
  ∃ x r c1 w2, ed_montgomery (toy_public 0) = Some x ∧
    peer_create toy_options (mkPeerCreator 0 drp_new) world0 = (Ok r, c1, w2) ∧
    parse_peer2 (E:=string) (cdr_did r) =
      Ok (Some (mkPeer2 (Some "https://agent") (Some "dm") [] (Some (bs58_encode (toy_public 0))) (Some (bs58_encode x))
                  [bs58_encode (toy_public 0); bs58_encode x])) ∧
    drp_records (pcr_did_repository c1) !! cdr_did r = Some (cdr_record r) ∧
    dr_role (cdr_record r) = DrCreated ∧ dr_document (cdr_record r) = Some (cdr_document r) ∧
    dd_id (cdr_document r) = cdr_did r ∧ dr_kms_key_ids (cdr_record r) = ["0"; "0"].
Proof.
  apply (created_peer_decodes toy_options "https://agent" [] (mkKey "0" Ed25519 AgentDID (toy_public 0) ∅) 1 world0 (mkPeerCreator 0 drp_new) world0).
  - reflexivity.
  - reflexivity.
  - by eexists.
Defined.

(** The text of a small document, and its DID. *)
Definition toy_text : string := json_print (JObject [("service", JArray [])]).
Definition toy_long : string := (encode_did_peer4 toy_text).1.2.
Definition toy_encoded : string := (encode_did_peer4 toy_text).2.
Definition toy_resolver : PeerDidResolver := pdr_new drp_new.

Theorem peer4_resolves_witness :
  split_peer4_long toy_long = Some toy_encoded ∧
  ∃ doc, json_get "id" (JObject doc) = Some (JString toy_long) ∧
    json_get "alsoKnownAs" (JObject doc) = Some (json_strings [(encode_did_peer4 toy_text).1.1]) ∧
    doc = p4_complete toy_long (encode_did_peer4 toy_text).1.1 [("service", JArray [])] ∧
    peer_resolve toy_resolver toy_long = match sd_from_value (JObject doc) with
                                         | Ok d => Ok d
                                         | Err e => Err (ReInternalError ("did:peer:4 -> DidDocument: " +:+ e))
                                         | Panic => Panic
                                         end.
Proof.
  apply (peer4_resolves toy_resolver toy_text [("service", JArray [])] (encode_did_peer4 toy_text).1.1 toy_long toy_encoded).
  - reflexivity.
  - apply code_reparse.
Defined.

Theorem peer4_self_certifying_witness : toy_long = long_form (hash_encoded_document toy_encoded) toy_encoded.
Proof.
  apply (peer4_self_certifying toy_resolver toy_long toy_encoded (dd_new toy_long)); vm_compute; reflexivity.
Defined.
End peer_runs.
