(* ===== verification/Oob.v ===== *)
(** Out-of-band invitations (RFC 0434, [src/protocols/oob/src]): invitations, their records and
    the service that creates, receives and reuses them.

    The repository is the in-memory one of [RecordRepo], for the record type of this file; the
    service holds it as such.  The crate [url] and the serializer of invitations are parameters;
    the event bus is the list of what was emitted, if there is one. *)
From S2P Require Import Prelude AjnaTypes StdText SerdeJson Storage Hashing RecordRepo.

(** * Roles, states, errors *)

(** [src/protocols/oob/src/domain/invitation_type.rs:7-19] InvitationType *)
Inductive InvitationType := ItOutOfBand | ItConnection | ItConnectionless.

(** [src/protocols/oob/src/domain/invitation_type.rs:21-29] InvitationType::fmt *)
Definition it_to_string (self : InvitationType) : string :=
  match self with ItOutOfBand => "out-of-band/1.x" | ItConnection => "connections/1.x" | ItConnectionless => "connectionless" end.

(** [src/protocols/oob/src/domain/role.rs:6-12] OutOfBandRole *)
Inductive OutOfBandRole := ObSender | ObReceiver.
#[export] Instance OutOfBandRole_eq_dec : EqDecision OutOfBandRole.
Proof. solve_decision. Defined.

(** [src/protocols/oob/src/domain/state.rs:10-24] OutOfBandState *)
Inductive OutOfBandState := ObInitial | ObAwaitResponse | ObPrepareResponse | ObDone.
#[export] Instance OutOfBandState_eq_dec : EqDecision OutOfBandState.
Proof. solve_decision. Defined.

(** [src/protocols/oob/src/domain/role.rs:14-21] OutOfBandRole::fmt *)
Definition ob_role_to_string (self : OutOfBandRole) : string := match self with ObSender => "sender" | ObReceiver => "receiver" end.

(** [src/protocols/oob/src/domain/state.rs:28-30] OutOfBandState::is_terminal *)
Definition ob_is_terminal (self : OutOfBandState) : bool := bool_decide (self = ObDone).

(** [src/protocols/oob/src/domain/state.rs:33-35] OutOfBandState::can_receive_requests *)
Definition ob_can_receive_requests (self : OutOfBandState) : bool := bool_decide (self = ObAwaitResponse).

(** [src/protocols/oob/src/domain/state.rs:38-47] OutOfBandState::fmt *)
Definition ob_to_string (self : OutOfBandState) : string :=
  match self with
  | ObInitial => "initial" | ObAwaitResponse => "await-response" | ObPrepareResponse => "prepare-response" | ObDone => "done"
  end.
(** The derived [Debug] text. *)
Definition ob_debug (self : OutOfBandState) : string :=
  match self with
  | ObInitial => "Initial" | ObAwaitResponse => "AwaitResponse" | ObPrepareResponse => "PrepareResponse" | ObDone => "Done"
  end.

(** [src/protocols/oob/src/lib.rs:77-126] OutOfBandError (the errors of other crates are their texts) *)
Inductive OutOfBandError :=
  | ObInvalidInvitationUrl (s : string)
  | ObRecordNotFound (s : string)
  | ObRecordAlreadyExists (s : string)
  | ObInvalidRole (expected actual : OutOfBandRole)
  | ObInvalidState (expected : list OutOfBandState) (actual : OutOfBandState)
  | ObMissingParentThreadId
  | ObParentThreadIdMismatch
  | ObConnectionAlreadyExists
  | ObNoHandshakeOrRequests
  | ObMultiUseWithMessages
  | ObStorage (s : string)
  | ObSerialization (s : string)
  | ObBase64Decode (s : string)
  | ObUrlParse (s : string).

(** [src/protocols/oob/src/lib.rs:77-126] OutOfBandError::to_string (derived by thiserror) *)
Definition obe_to_string (e : OutOfBandError) : string :=
  match e with
  | ObInvalidInvitationUrl s => "Invalid invitation URL: " +:+ s
  | ObRecordNotFound s => "Out-of-band record not found: " +:+ s
  | ObRecordAlreadyExists s => "Out-of-band record already exists: " +:+ s
  | ObInvalidRole expected actual =>
      "Invalid role for operation: expected " +:+ ob_role_to_string expected +:+ ", got " +:+ ob_role_to_string actual
  | ObInvalidState expected actual =>
      "Invalid state for operation: expected one of " +:+ debug_list (ob_debug <$> expected) +:+ ", got " +:+ ob_debug actual
  | ObMissingParentThreadId => "Missing parent thread ID"
  | ObParentThreadIdMismatch => "Parent thread ID mismatch"
  | ObConnectionAlreadyExists => "Connection already exists for non-reusable invitation"
  | ObNoHandshakeOrRequests => "Invitation must have either handshake protocols or requests"
  | ObMultiUseWithMessages => "Multi-use invitations cannot have attached messages"
  | ObStorage s => "Storage error: " +:+ s
  | ObSerialization s => "Serialization error: " +:+ s
  | ObBase64Decode s => "Base64 decode error: " +:+ s
  | ObUrlParse s => "URL parse error: " +:+ s
  end.

(** * Messages *)

(** [src/protocols/oob/src/messages/service.rs:20-39] InlineService *)
Record InlineService := mkInline {
  ins_id : string;
  ins_service_type : string;
  ins_recipient_keys : list string;
  ins_routing_keys : list string;
  ins_service_endpoint : string
}.

(** [src/protocols/oob/src/messages/service.rs:43-56] InlineService::new *)
Definition ins_new (id : string) (recipient_keys routing_keys : list string) (service_endpoint : string) : InlineService :=
  mkInline id "did-communication" recipient_keys routing_keys service_endpoint.

(** [src/protocols/oob/src/messages/service.rs:59-62] InlineService::with_type *)
Definition ins_with_type (service_type : string) (s : InlineService) : InlineService :=
  mkInline (ins_id s) service_type (ins_recipient_keys s) (ins_routing_keys s) (ins_service_endpoint s).

(** [src/protocols/oob/src/messages/service.rs:8-14] OutOfBandService (the services of an invitation) *)
Inductive InvitationService := SvDid (did : string) | SvInline (service : InlineService).

(** [src/protocols/oob/src/messages/invitation.rs:15-57] OutOfBandInvitation *)
Record OutOfBandInvitation := mkInvitation {
  inv_type : string;
  inv_id : string;
  inv_label : option string;
  inv_goal_code : option string;
  inv_goal : option string;
  inv_accept : option (list string);
  inv_handshake_protocols : option (list string);
  inv_requests : option (list Json);
  inv_services : list InvitationService;
  inv_image_url : option string
}.

Definition INVITATION_TYPE : string := "https://didcomm.org/out-of-band/1.1/invitation".
Definition DEFAULT_ACCEPT : list string := ["didcomm/aip2;env=rfc19"].

(** [src/protocols/oob/src/messages/invitation.rs:67-80] OutOfBandInvitation::new *)
Definition inv_new `{UuidText} (services : list InvitationService) (w : World) : OutOfBandInvitation * World :=
  let '(u, w) := uuid_new_v4 w in
  (mkInvitation INVITATION_TYPE (uuid_to_string u) None None None (Some DEFAULT_ACCEPT) None None services None, w).

(** [src/protocols/oob/src/messages/invitation.rs:83-86] OutOfBandInvitation::with_label *)
Definition inv_with_label (label : string) (i : OutOfBandInvitation) : OutOfBandInvitation :=
  mkInvitation (inv_type i) (inv_id i) (Some label) (inv_goal_code i) (inv_goal i) (inv_accept i) (inv_handshake_protocols i)
    (inv_requests i) (inv_services i) (inv_image_url i).

(** [src/protocols/oob/src/messages/invitation.rs:89-93] OutOfBandInvitation::with_goal *)
Definition inv_with_goal (goal_code goal : string) (i : OutOfBandInvitation) : OutOfBandInvitation :=
  mkInvitation (inv_type i) (inv_id i) (inv_label i) (Some goal_code) (Some goal) (inv_accept i) (inv_handshake_protocols i)
    (inv_requests i) (inv_services i) (inv_image_url i).

(** [src/protocols/oob/src/messages/invitation.rs:96-99] OutOfBandInvitation::with_handshake_protocols *)
Definition inv_with_handshake_protocols (protocols : list string) (i : OutOfBandInvitation) : OutOfBandInvitation :=
  mkInvitation (inv_type i) (inv_id i) (inv_label i) (inv_goal_code i) (inv_goal i) (inv_accept i) (Some protocols)
    (inv_requests i) (inv_services i) (inv_image_url i).

(** [src/protocols/oob/src/messages/invitation.rs:102-105] OutOfBandInvitation::with_image_url *)
Definition inv_with_image_url (url : string) (i : OutOfBandInvitation) : OutOfBandInvitation :=
  mkInvitation (inv_type i) (inv_id i) (inv_label i) (inv_goal_code i) (inv_goal i) (inv_accept i) (inv_handshake_protocols i)
    (inv_requests i) (inv_services i) (Some url).

(** [src/protocols/oob/src/messages/invitation.rs:163-171] OutOfBandInvitation::get_invitation_dids *)
Definition inv_get_invitation_dids (i : OutOfBandInvitation) : list string :=
  omap (λ s, match s with SvDid did => Some did | SvInline _ => None end) (inv_services i).

(** [src/protocols/oob/src/messages/invitation.rs:174-182] OutOfBandInvitation::get_inline_services *)
Definition inv_get_inline_services (i : OutOfBandInvitation) : list InlineService :=
  omap (λ s, match s with SvInline inline => Some inline | SvDid _ => None end) (inv_services i).

(** [src/protocols/oob/src/messages/invitation.rs:185-193] OutOfBandInvitation::get_did_services *)
Definition inv_get_did_services (i : OutOfBandInvitation) : list string :=
  omap (λ s, match s with SvDid did => Some did | SvInline _ => None end) (inv_services i).

(** [src/protocols/oob/src/messages/invitation.rs:196-201] OutOfBandInvitation::has_handshake *)
Definition inv_has_handshake (i : OutOfBandInvitation) : bool := match inv_handshake_protocols i with Some (_ :: _) => true | _ => false end.

(** [src/protocols/oob/src/messages/invitation.rs:204-209] OutOfBandInvitation::has_requests *)
Definition inv_has_requests (i : OutOfBandInvitation) : bool := match inv_requests i with Some (_ :: _) => true | _ => false end.

(** The crate [url]: the pairs of the query of a URL, decoded. *)
Class UrlCrate := { url_query_pairs : string → outcome string (list (string * string)) }.

Section invitation_urls.
Context `{Base64} `{Serde OutOfBandInvitation} `{UrlCrate}.

(** [src/protocols/oob/src/messages/invitation.rs:108-112] OutOfBandInvitation::to_url *)
Definition inv_to_url (self : OutOfBandInvitation) (domain : string) : outcome string string :=
  let? json := sd_to_text self in
  Ok (domain +:+ "?oob=" +:+ b64url_encode json).

(** [src/protocols/oob/src/messages/invitation.rs:115-157] OutOfBandInvitation::from_url *)
Definition inv_from_url (url : string) : outcome string OutOfBandInvitation :=
  let? pairs := url_query_pairs url in
  match find_first (λ p : string * string, p.1 = "oob") pairs with
  | None => Err "Missing 'oob' parameter in URL"
  | Some (_, value) =>
      match b64url_decode value with
      | inl e => Err e
      | inr json => sd_from_text json
      end
  end.
End invitation_urls.

(** [src/protocols/oob/src/messages/handshake_reuse.rs:6-14] Thread *)
Record ReuseThread := mkReuseThread { ht_thread_id : string; ht_parent_thread_id : option string }.

(** [src/protocols/oob/src/messages/handshake_reuse.rs:23-35] HandshakeReuseMessage *)
Record HandshakeReuseMessage := mkReuse { hrm_type : string; hrm_id : string; hrm_thread : ReuseThread }.

(** [src/protocols/oob/src/messages/handshake_reuse.rs:61-73] HandshakeReuseAcceptedMessage *)
Record HandshakeReuseAcceptedMessage := mkReuseAccepted { hra_type : string; hra_id : string; hra_thread : ReuseThread }.

(** [src/protocols/oob/src/messages/handshake_reuse.rs:42-51] HandshakeReuseMessage::new *)
Definition hrm_new `{UuidText} {E T} (parent_thread_id : string) : eff E T HandshakeReuseMessage :=
  id ← new_id; thread_id ← new_id;
  mret (mkReuse "https://didcomm.org/out-of-band/1.1/handshake-reuse" id (mkReuseThread thread_id (Some parent_thread_id))).

(** [src/protocols/oob/src/messages/handshake_reuse.rs:81-90] HandshakeReuseAcceptedMessage::new *)
Definition hra_new `{UuidText} {E T} (thread_id parent_thread_id : string) : eff E T HandshakeReuseAcceptedMessage :=
  id ← new_id;
  mret (mkReuseAccepted "https://didcomm.org/out-of-band/1.1/handshake-reuse-accepted" id (mkReuseThread thread_id (Some parent_thread_id))).

(** * Records *)

(** [src/protocols/oob/src/repository/oob_record.rs:11-29] InlineServiceKey *)
Record InlineServiceKey := mkInlineKey { ik_kms_key_id : string; ik_recipient_key_fingerprint : string }.

(** [src/protocols/oob/src/repository/oob_record.rs:33-51] OutOfBandTags *)
Record OutOfBandTags := mkObTags {
  obt_role : OutOfBandRole;
  obt_state : OutOfBandState;
  obt_invitation_id : string;
  obt_recipient_key_fingerprints : list string;
  obt_thread_id : option string
}.

(** [src/protocols/oob/src/repository/oob_record.rs:55-67] OutOfBandTags::from_invitation *)
Definition obt_from_invitation (invitation : OutOfBandInvitation) (role : OutOfBandRole) (state : OutOfBandState) : OutOfBandTags :=
  mkObTags role state (inv_id invitation) [] None.

(** [src/protocols/oob/src/repository/oob_record.rs:70-74] OutOfBandTags::add_recipient_key_fingerprint *)
Definition obt_add_recipient_key_fingerprint (fingerprint : string) (t : OutOfBandTags) : OutOfBandTags :=
  if decide (fingerprint ∈ obt_recipient_key_fingerprints t) then t
  else mkObTags (obt_role t) (obt_state t) (obt_invitation_id t) (obt_recipient_key_fingerprints t ++ [fingerprint]) (obt_thread_id t).
Definition obt_with_state (state : OutOfBandState) (t : OutOfBandTags) : OutOfBandTags :=
  mkObTags (obt_role t) state (obt_invitation_id t) (obt_recipient_key_fingerprints t) (obt_thread_id t).

(** [src/protocols/oob/src/repository/oob_record.rs:94-144] OutOfBandRecord *)
Record OutOfBandRecord := mkOob {
  ob_id : string;
  ob_invitation : OutOfBandInvitation;
  ob_role : OutOfBandRole;
  ob_state : OutOfBandState;
  ob_reusable : bool;
  ob_auto_accept_connection : option bool;
  ob_mediator_id : option string;
  ob_alias : option string;
  ob_reuse_connection_id : option string;
  ob_inline_service_keys : list InlineServiceKey;
  ob_created_at : Instant;
  ob_updated_at : Instant;
  ob_tags : OutOfBandTags
}.

(** The fingerprints of a record: the recipient keys of its inline services. *)
Definition inv_fingerprints (invitation : OutOfBandInvitation) (t : OutOfBandTags) : OutOfBandTags :=
  foldl (λ t key, obt_add_recipient_key_fingerprint key t) t (inv_get_inline_services invitation ≫= ins_recipient_keys).

(** [src/protocols/oob/src/repository/oob_record.rs:148-175] OutOfBandRecord::new *)
Definition ob_new `{UuidText} (invitation : OutOfBandInvitation) (role : OutOfBandRole) (w : World) : OutOfBandRecord * World :=
  let '(now, w) := utc_now w in
  let tags := inv_fingerprints invitation (obt_from_invitation invitation role ObInitial) in
  let '(u, w) := uuid_new_v4 w in
  (mkOob (uuid_to_string u) invitation role ObInitial false None None None None [] now now tags, w).

(** [src/protocols/oob/src/repository/oob_record.rs:178-181] OutOfBandRecord::with_id *)
Definition ob_with_id (id : string) (r : OutOfBandRecord) : OutOfBandRecord :=
  mkOob id (ob_invitation r) (ob_role r) (ob_state r) (ob_reusable r) (ob_auto_accept_connection r) (ob_mediator_id r) (ob_alias r)
    (ob_reuse_connection_id r) (ob_inline_service_keys r) (ob_created_at r) (ob_updated_at r) (ob_tags r).

(** [src/protocols/oob/src/repository/oob_record.rs:184-188] OutOfBandRecord::with_state *)
Definition ob_with_state (state : OutOfBandState) (r : OutOfBandRecord) : OutOfBandRecord :=
  mkOob (ob_id r) (ob_invitation r) (ob_role r) state (ob_reusable r) (ob_auto_accept_connection r) (ob_mediator_id r) (ob_alias r)
    (ob_reuse_connection_id r) (ob_inline_service_keys r) (ob_created_at r) (ob_updated_at r) (obt_with_state state (ob_tags r)).

(** [src/protocols/oob/src/repository/oob_record.rs:191-194] OutOfBandRecord::with_reusable *)
Definition ob_with_reusable (reusable : bool) (r : OutOfBandRecord) : OutOfBandRecord :=
  mkOob (ob_id r) (ob_invitation r) (ob_role r) (ob_state r) reusable (ob_auto_accept_connection r) (ob_mediator_id r) (ob_alias r)
    (ob_reuse_connection_id r) (ob_inline_service_keys r) (ob_created_at r) (ob_updated_at r) (ob_tags r).

(** [src/protocols/oob/src/repository/oob_record.rs:197-200] OutOfBandRecord::with_auto_accept_connection *)
Definition ob_with_auto_accept_connection (auto_accept : bool) (r : OutOfBandRecord) : OutOfBandRecord :=
  mkOob (ob_id r) (ob_invitation r) (ob_role r) (ob_state r) (ob_reusable r) (Some auto_accept) (ob_mediator_id r) (ob_alias r)
    (ob_reuse_connection_id r) (ob_inline_service_keys r) (ob_created_at r) (ob_updated_at r) (ob_tags r).

(** [src/protocols/oob/src/repository/oob_record.rs:203-206] OutOfBandRecord::with_mediator_id *)
Definition ob_with_mediator_id (mediator_id : string) (r : OutOfBandRecord) : OutOfBandRecord :=
  mkOob (ob_id r) (ob_invitation r) (ob_role r) (ob_state r) (ob_reusable r) (ob_auto_accept_connection r) (Some mediator_id) (ob_alias r)
    (ob_reuse_connection_id r) (ob_inline_service_keys r) (ob_created_at r) (ob_updated_at r) (ob_tags r).

(** [src/protocols/oob/src/repository/oob_record.rs:209-212] OutOfBandRecord::with_alias *)
Definition ob_with_alias (alias : string) (r : OutOfBandRecord) : OutOfBandRecord :=
  mkOob (ob_id r) (ob_invitation r) (ob_role r) (ob_state r) (ob_reusable r) (ob_auto_accept_connection r) (ob_mediator_id r) (Some alias)
    (ob_reuse_connection_id r) (ob_inline_service_keys r) (ob_created_at r) (ob_updated_at r) (ob_tags r).

(** [src/protocols/oob/src/repository/oob_record.rs:215-219] OutOfBandRecord::add_inline_service_key *)
Definition ob_add_inline_service_key (key : InlineServiceKey) (r : OutOfBandRecord) : OutOfBandRecord :=
  mkOob (ob_id r) (ob_invitation r) (ob_role r) (ob_state r) (ob_reusable r) (ob_auto_accept_connection r) (ob_mediator_id r) (ob_alias r)
    (ob_reuse_connection_id r) (ob_inline_service_keys r ++ [key]) (ob_created_at r) (ob_updated_at r)
    (obt_add_recipient_key_fingerprint (ik_recipient_key_fingerprint key) (ob_tags r)).

(** [record.reuse_connection_id = Some(..)]. *)
Definition ob_set_reuse_connection (connection_id : string) (r : OutOfBandRecord) : OutOfBandRecord :=
  mkOob (ob_id r) (ob_invitation r) (ob_role r) (ob_state r) (ob_reusable r) (ob_auto_accept_connection r) (ob_mediator_id r) (ob_alias r)
    (Some connection_id) (ob_inline_service_keys r) (ob_created_at r) (ob_updated_at r) (ob_tags r).

(** [src/protocols/oob/src/repository/oob_record.rs:222-230] OutOfBandRecord::assert_role *)
Definition ob_assert_role (expected : OutOfBandRole) (self : OutOfBandRecord) : outcome OutOfBandError unit :=
  if decide (ob_role self = expected) then Ok tt else Err (ObInvalidRole expected (ob_role self)).

(** [src/protocols/oob/src/repository/oob_record.rs:233-241] OutOfBandRecord::assert_state *)
Definition ob_assert_state (expected : list OutOfBandState) (self : OutOfBandRecord) : outcome OutOfBandError unit :=
  if decide (ob_state self ∈ expected) then Ok tt else Err (ObInvalidState expected (ob_state self)).

(** [src/protocols/oob/src/repository/oob_record.rs:244-248] OutOfBandRecord::update_state *)
Definition ob_update_state (new_state : OutOfBandState) (now : Instant) (r : OutOfBandRecord) : OutOfBandRecord :=
  mkOob (ob_id r) (ob_invitation r) (ob_role r) new_state (ob_reusable r) (ob_auto_accept_connection r) (ob_mediator_id r) (ob_alias r)
    (ob_reuse_connection_id r) (ob_inline_service_keys r) (ob_created_at r) now (obt_with_state new_state (ob_tags r)).

(** * The repository *)

#[export] Instance oob_key : RecordKey OutOfBandRecord OutOfBandError :=
  {| rk_id := ob_id; rk_already := ObRecordAlreadyExists; rk_not_found := ObRecordNotFound |}.

(** [src/protocols/oob/src/repository/oob_repository.rs:75-115] OutOfBandRepository::matches_tags *)
Definition ob_matches_tags `{HashOrder} (record : OutOfBandRecord) (tags : gmap string string) : bool :=
  forallb (λ '(key, value),
    if decide (key = "role") then bool_decide (ob_role_to_string (ob_role record) = value)
    else if decide (key = "state") then bool_decide (ob_to_string (ob_state record) = value)
    else if decide (key = "invitationId") then bool_decide (obt_invitation_id (ob_tags record) = value)
    else if decide (key = "threadId") then bool_decide (obt_thread_id (ob_tags record) = Some value)
    else false) (map_iter tags).

(** * The service *)

(** [src/protocols/oob/src/events.rs:26-53] OutOfBandStateChangedPayload, HandshakeReusedPayload *)
Inductive OobEvent :=
  | ObStateChanged (record : OutOfBandRecord) (previous_state : option OutOfBandState)
  | ObHandshakeReused (reuse_thread_id : string) (record : OutOfBandRecord) (connection_id : string).

(** [src/protocols/oob/src/services/oob_service.rs:16-22] OutOfBandService *)
Record OobService := mkOobService {
  obs_repository : gmap string OutOfBandRecord;
  obs_event_bus : option (list OobEvent)
}.
#[export] Instance oob_service_repo : HasRepo OobService (gmap string OutOfBandRecord) := {|
  repo_of := obs_repository; with_repo r s := mkOobService r (obs_event_bus s); repo_of_with _ _ := eq_refl
|}.

(** [src/protocols/oob/src/services/oob_service.rs:26-34] OutOfBandService::new *)
Definition obs_new (repository : gmap string OutOfBandRecord) : OobService := mkOobService repository None.

(** [src/protocols/oob/src/services/oob_service.rs:40-48] OutOfBandService::with_event_bus *)
Definition obs_with_event_bus (s : OobService) : OobService := mkOobService (obs_repository s) (Some []).

Section service.
Context `{HashOrder} `{UuidText}.
Abbreviation obs := (eff OutOfBandError OobService).

(** [src/protocols/oob/src/repository/oob_repository.rs:175-188] OutOfBandRepository::find_by_invitation_id *)
Definition ob_find_by_invitation_id (invitation_id : string) (role : OutOfBandRole) : eff OutOfBandError (gmap string OutOfBandRecord) (option OutOfBandRecord) :=
  er_find (λ r, bool_decide (obt_invitation_id (ob_tags r) = invitation_id ∧ ob_role r = role)).

(** [src/protocols/oob/src/repository/oob_repository.rs:190-208] OutOfBandRepository::find_by_recipient_key *)
Definition ob_find_by_recipient_key (fingerprint : string) : eff OutOfBandError (gmap string OutOfBandRecord) (list OutOfBandRecord) :=
  er_filter (λ r, bool_decide (fingerprint ∈ obt_recipient_key_fingerprints (ob_tags r))).

(** [src/protocols/oob/src/repository/oob_repository.rs:163-173] OutOfBandRepository::find_by_tags *)
Definition ob_find_by_tags (tags : gmap string string) : eff OutOfBandError (gmap string OutOfBandRecord) (list OutOfBandRecord) :=
  er_filter (λ r, ob_matches_tags r tags).

(** [src/protocols/oob/src/repository/oob_repository.rs:210-227] OutOfBandRepository::find_by_thread_id *)
Definition ob_find_by_thread_id (thread_id : string) : eff OutOfBandError (gmap string OutOfBandRecord) (list OutOfBandRecord) :=
  er_filter (λ r, bool_decide (obt_thread_id (ob_tags r) = Some thread_id)).

(** [src/protocols/oob/src/repository/oob_repository.rs:229-251] OutOfBandRepository::find_by_state, find_by_role *)
Definition ob_find_by_state_and_role (p : OutOfBandState + OutOfBandRole) : eff OutOfBandError (gmap string OutOfBandRecord) (list OutOfBandRecord) :=
  er_filter (λ r, match p with inl state => bool_decide (ob_state r = state) | inr role => bool_decide (ob_role r = role) end).

(** [src/protocols/oob/src/services/oob_service.rs:53-66] OutOfBandService::emit_state_changed *)
Definition emit_oob_changed (record : OutOfBandRecord) (previous_state : option OutOfBandState) : obs unit :=
  eff_modify (λ s, mkOobService (obs_repository s) ((λ bus, bus ++ [ObStateChanged record previous_state]) <$> obs_event_bus s)).

(** [src/protocols/oob/src/services/oob_service.rs:80-95] OutOfBandService::emit_handshake_reused *)
Definition emit_handshake_reused (record : OutOfBandRecord) (reuse_thread_id connection_id : string) : obs unit :=
  eff_modify (λ s, mkOobService (obs_repository s) ((λ bus, bus ++ [ObHandshakeReused reuse_thread_id record connection_id]) <$> obs_event_bus s)).

(** [src/protocols/oob/src/services/oob_service.rs:304-312] OutOfBandService::find_by_invitation_id *)
Definition obs_find_by_invitation_id (invitation_id : string) (role : OutOfBandRole) : obs (option OutOfBandRecord) :=
  on_records (ob_find_by_invitation_id invitation_id role).

(** The record of an invitation, or the error. *)
Definition obs_the_invitation (invitation_id : string) (role : OutOfBandRole) : obs OutOfBandRecord :=
  o ← obs_find_by_invitation_id invitation_id role;
  match o with Some r => mret r | None => eff_throw (ObRecordNotFound invitation_id) end.

(** What was given is set. *)
Definition given {A B} (set : A → B → B) (o : option A) (b : B) : B := match o with Some a => set a b | None => b end.

(** [src/protocols/oob/src/services/oob_service.rs:118-162] OutOfBandService::create_invitation *)
Definition create_invitation (services : list InvitationService) (label goal_code goal : option string)
    (handshake_protocols : option (list string)) (multi_use : bool) : obs OutOfBandRecord :=
  match handshake_protocols with
  | None => eff_throw ObNoHandshakeOrRequests
  | Some protocols =>
      invitation ← eff_world (inv_new services);
      let invitation := given inv_with_label label invitation in
      let invitation := match goal_code, goal with Some c, Some g => inv_with_goal c g invitation | _, _ => invitation end in
      let invitation := inv_with_handshake_protocols protocols invitation in
      record ← eff_world (ob_new invitation ObSender);
      let record := ob_with_reusable multi_use (ob_with_state ObAwaitResponse record) in
      _ ← on_records (er_save record);
      _ ← emit_oob_changed record None;
      mret record
  end.

(** [src/protocols/oob/src/services/oob_service.rs:172-201] OutOfBandService::receive_invitation *)
Definition receive_invitation (invitation : OutOfBandInvitation) (auto_accept : option bool) : obs OutOfBandRecord :=
  existing ← obs_find_by_invitation_id (inv_id invitation) ObReceiver;
  match existing with
  | Some existing => mret existing
  | None =>
      record ← eff_world (ob_new invitation ObReceiver);
      let record := given ob_with_auto_accept_connection auto_accept (ob_with_state ObPrepareResponse record) in
      _ ← on_records (er_save record);
      _ ← emit_oob_changed record None;
      mret record
  end.

(** [src/protocols/oob/src/services/oob_service.rs:210-228] OutOfBandService::create_handshake_reuse *)
Definition create_handshake_reuse (invitation_id : string) : obs HandshakeReuseMessage :=
  record ← obs_the_invitation invitation_id ObReceiver;
  _ ← eff_lift (ob_assert_state [ObPrepareResponse] record);
  hrm_new (inv_id (ob_invitation record)).

(** [src/protocols/oob/src/services/oob_service.rs:238-296] OutOfBandService::process_handshake_reuse *)
Definition process_handshake_reuse (message : HandshakeReuseMessage) (connection_id : string) : obs HandshakeReuseAcceptedMessage :=
  match ht_parent_thread_id (hrm_thread message) with
  | None => eff_throw ObMissingParentThreadId
  | Some parent_thread_id =>
      record ← obs_the_invitation parent_thread_id ObSender;
      _ ← (if negb (ob_reusable record) && bool_decide (is_Some (ob_reuse_connection_id record))
           then eff_throw ObConnectionAlreadyExists else mret tt);
      _ ← eff_lift (ob_assert_state [ObAwaitResponse] record);
      let previous_state := Some (ob_state record) in
      let record := ob_set_reuse_connection connection_id record in
      let transitioned := negb (ob_reusable record) in
      record ← (if transitioned then now ← eff_world utc_now; mret (ob_update_state ObDone now record) else mret record);
      _ ← on_records (er_update record);
      _ ← (if transitioned then emit_oob_changed record previous_state else mret tt);
      _ ← emit_handshake_reused record (ht_thread_id (hrm_thread message)) connection_id;
      hra_new (ht_thread_id (hrm_thread message)) parent_thread_id
  end.

(** [src/protocols/oob/src/services/oob_service.rs:299-301] OutOfBandService::find_by_id *)
Definition obs_find_by_id (id : string) : obs (option OutOfBandRecord) := on_records (er_find_by_id id).

(** [src/protocols/oob/src/services/oob_service.rs:315-322] OutOfBandService::find_by_recipient_key *)
Definition obs_find_by_recipient_key (fingerprint : string) : obs (list OutOfBandRecord) := on_records (ob_find_by_recipient_key fingerprint).

(** [src/protocols/oob/src/services/oob_service.rs:325-327] OutOfBandService::get_all *)
Definition obs_get_all : obs (list OutOfBandRecord) := on_records er_get_all.

(** [src/protocols/oob/src/services/oob_service.rs:330-332] OutOfBandService::delete *)
Definition obs_delete (id : string) : obs unit := on_records (er_delete id).

(** [src/protocols/oob/src/services/oob_service.rs:335-349] OutOfBandService::mark_done *)
Definition mark_done (invitation_id : string) (role : OutOfBandRole) : obs unit :=
  record ← obs_the_invitation invitation_id role;
  let previous_state := Some (ob_state record) in
  now ← eff_world utc_now;
  let record := ob_update_state ObDone now record in
  _ ← on_records (er_update record);
  emit_oob_changed record previous_state.

(** ** The API *)

(** [src/protocols/oob/src/api/mod.rs:41-50] OutOfBandApi::create_invitation *)
Definition api_create_invitation (services : list InvitationService) (label : option string) (protocols : option (list string)) : obs OutOfBandRecord :=
  create_invitation services label None None protocols false.

(** [src/protocols/oob/src/api/mod.rs:61-70] OutOfBandApi::create_multi_use_invitation *)
Definition api_create_multi_use_invitation (services : list InvitationService) (label : option string) (protocols : option (list string)) : obs OutOfBandRecord :=
  create_invitation services label None None protocols true.

(** [src/protocols/oob/src/api/mod.rs:83-101] OutOfBandApi::create_invitation_with_goal *)
Definition api_create_invitation_with_goal (services : list InvitationService) (label : option string) (goal_code goal : string)
    (protocols : option (list string)) : obs OutOfBandRecord :=
  create_invitation services label (Some goal_code) (Some goal) protocols false.

(** [src/protocols/oob/src/api/mod.rs:142-146] OutOfBandApi::receive_invitation_from_url *)
Definition api_receive_invitation_from_url `{Base64} `{Serde OutOfBandInvitation} `{UrlCrate} (url : string) : obs OutOfBandRecord :=
  invitation ← eff_lift (match inv_from_url url with Ok i => Ok i | Err e => Err (ObInvalidInvitationUrl e) | Panic => Panic end);
  receive_invitation invitation None.

(** [src/protocols/oob/src/api/mod.rs:229-234] OutOfBandApi::get_invitation_url *)
Definition api_get_invitation_url `{Base64} `{Serde OutOfBandInvitation} (record : OutOfBandRecord) (domain : string) : outcome OutOfBandError string :=
  match inv_to_url (ob_invitation record) domain with Ok u => Ok u | Err e => Err (ObInvalidInvitationUrl e) | Panic => Panic end.
End service.
