(* ===== verification/OobProps.v ===== *)
(** What the out-of-band service promises ([Oob.v]): its records run a machine in which a
    single-use invitation is reused once; an invitation survives its URL; and an invitation that
    is sent over a URL is reused by its receiver.

    Runs of the out-of-band service: the witnesses of its properties, and the runs that show
    where the code falls short. *)
From Stdlib Require Import Ascii.
From stdpp Require Import countable.
From S2P Require Import Prelude AjnaTypes StdText SerdeJson Storage Hashing RecordRepo RecordSpec Oob Keys.

(** * The machine *)

(** A record's tags repeat its fields. *)
Definition ob_tagged (x : OutOfBandRecord) : Prop :=
  obt_state (ob_tags x) = ob_state x ∧ obt_role (ob_tags x) = ob_role x ∧ obt_invitation_id (ob_tags x) = inv_id (ob_invitation x).

Inductive ob_born : OutOfBandRecord → Prop :=
  | ob_born_created x : ob_role x = ObSender → ob_state x = ObAwaitResponse → inv_handshake_protocols (ob_invitation x) ≠ None → ob_tagged x →
      ob_reuse_connection_id x = None → ob_born x
  | ob_born_received x : ob_role x = ObReceiver → ob_state x = ObPrepareResponse → ob_reusable x = false → ob_tagged x →
      ob_reuse_connection_id x = None → ob_born x.

Inductive ob_step : OutOfBandRecord → OutOfBandRecord → Prop :=
  | ob_step_used x c t : ob_role x = ObSender → ob_state x = ObAwaitResponse → ob_reusable x = false → ob_reuse_connection_id x = None →
      ob_step x (ob_update_state ObDone t (ob_set_reuse_connection c x))
  | ob_step_reused x c : ob_role x = ObSender → ob_state x = ObAwaitResponse → ob_reusable x = true →
      ob_step x (ob_set_reuse_connection c x)
  | ob_step_done x t : ob_step x (ob_update_state ObDone t x).

Definition ob_change (gone : OutOfBandRecord → Prop) : option OutOfBandRecord → option OutOfBandRecord → Prop := record_change ob_born ob_step gone.
#[export] Instance ob_change_refl gone : Reflexive (ob_change gone).
Proof. apply record_change_refl. Qed.

Lemma inv_fingerprints_same i t :
  obt_role (inv_fingerprints i t) = obt_role t ∧ obt_state (inv_fingerprints i t) = obt_state t ∧
  obt_invitation_id (inv_fingerprints i t) = obt_invitation_id t.
Proof.
  unfold inv_fingerprints. generalize (inv_get_inline_services i ≫= ins_recipient_keys). intros l.
  revert t. induction l as [|k l IH]; intros t; [done|]. cbn. destruct (IH (obt_add_recipient_key_fingerprint k t)) as (-> & -> & ->).
  unfold obt_add_recipient_key_fingerprint. by case_decide.
Qed.

(** * The calls *)

(** The calls of the service that can write. *)
Inductive oob_call :=
  | OcCreate (services : list InvitationService) (label goal_code goal : option string) (protocols : option (list string)) (multi_use : bool)
  | OcReceive (invitation : OutOfBandInvitation) (auto_accept : option bool)
  | OcCreateReuse (invitation_id : string)
  | OcProcessReuse (message : HandshakeReuseMessage) (connection_id : string)
  | OcMarkDone (invitation_id : string) (role : OutOfBandRole)
  | OcDelete (id : string).
Definition is_delete (c : oob_call) : bool := match c with OcDelete _ => true | _ => false end.

Section oob_runs.
Context `{HashOrder} `{UuidText}.

Definition oob_run1 (c : oob_call) : eff OutOfBandError OobService unit :=
  match c with
  | OcCreate services label goal_code goal protocols multi => create_invitation services label goal_code goal protocols multi;; mret tt
  | OcReceive invitation auto => receive_invitation invitation auto;; mret tt
  | OcCreateReuse i => create_handshake_reuse i;; mret tt
  | OcProcessReuse m c => process_handshake_reuse m c;; mret tt
  | OcMarkDone i role => mark_done i role
  | OcDelete i => obs_delete i
  end.

(** Answered or refused, the next call is made. *)
Fixpoint oob_run (calls : list oob_call) (s : OobService) (w : World) : OobService * World :=
  match calls with
  | [] => (s, w)
  | c :: calls => let '(_, s, w) := oob_run1 c s w in oob_run calls s w
  end.

End oob_runs.

Section calls.
Context `{HashOrder} `{UuidText} (gone : OutOfBandRecord → Prop).
Abbreviation obs := (eff OutOfBandError OobService).
Abbreviation steps m := (∀ v, from_view (T:=OobService) v m (λ _, True) (ob_change gone)).

Lemma quiet_emit_oob v r p : quiet (T:=OobService) v (emit_oob_changed r p) (λ _, True).
Proof. by apply quiet_modify. Qed.
Lemma quiet_emit_reused v r t c : quiet (T:=OobService) v (emit_handshake_reused r t c) (λ _, True).
Proof. by apply quiet_modify. Qed.
Lemma quiet_the_invitation v i ro :
  quiet (T:=OobService) v (obs_the_invitation i ro) (λ x, v (ob_id x) = Some x ∧ ob_role x = ro ∧ obt_invitation_id (ob_tags x) = i).
Proof.
  quietly quiet_find. intros o Ho. destruct o as [x|]; [|apply quiet_throw]. destruct Ho as [[Hi Hr]%bool_decide_eq_true Hv].
  eapply from_conseq; [apply quiet_ret| |done]. by intros ? ->.
Qed.
Lemma quiet_assert v st x : quiet (T:=OobService) v (eff_lift (ob_assert_state [st] x)) (λ _, ob_state x = st).
Proof.
  eapply from_conseq; [apply quiet_lift| |done]. intros a. unfold ob_assert_state. case_decide as Hs; [|done]. set_solver.
Qed.
Lemma quiet_ignored {A} v (m : obs A) : from_view v m (λ _, True) (ob_change gone) → from_view v (m;; mret tt) (λ _, True) (ob_change gone).
Proof. intros Hm. eapply from_bind_quiet; [exact Hm|]. intros a v' _. eapply from_conseq; [apply quiet_ret|done|done]. Qed.

(** A record is made, stored and announced. *)
Lemma from_opened {A} v x p (a : A) :
  ob_born x → from_view (T:=OobService) v (_ ← on_records (er_save x); _ ← emit_oob_changed x p; mret a) (λ _, True) (ob_change gone).
Proof.
  intros Hx. eapply from_bind_quiet; [by apply from_save|]. intros [] v' _. quietly quiet_emit_oob. intros [] _.
  eapply from_conseq; [apply quiet_ret|done|done].
Qed.

Lemma create_invitation_steps services label goal_code goal protocols multi : steps (create_invitation services label goal_code goal protocols multi).
Proof.
  intros v. unfold create_invitation. destruct protocols as [protocols|]; [|apply quiet_from; [typeclasses eauto|]; apply quiet_throw].
  quietly quiet_world. intros inv _. cbv zeta. set (i := inv_with_handshake_protocols protocols _).
  quietly quiet_world. intros r (w1 & w2 & Hr). apply from_opened. unfold ob_new in Hr. cbn in Hr. injection Hr as <- _.
  destruct (inv_fingerprints_same i (obt_from_invitation i ObSender ObInitial)) as (Hro & _ & Hi).
  by apply ob_born_created.
Qed.
Lemma receive_invitation_steps invitation auto : steps (receive_invitation invitation auto).
Proof.
  intros v. unfold receive_invitation. quietly quiet_find. intros o _.
  destruct o as [x|]; [apply quiet_from; [typeclasses eauto|]; eapply from_conseq; [apply quiet_ret|done|done]|].
  quietly quiet_world. intros r (w1 & w2 & Hr). apply from_opened. unfold ob_new in Hr. cbn in Hr. injection Hr as <- _.
  destruct (inv_fingerprints_same invitation (obt_from_invitation invitation ObReceiver ObInitial)) as (Hro & _ & Hi).
  by destruct auto; apply ob_born_received; cbn; split_and?.
Qed.
Lemma create_reuse_steps i : steps (create_handshake_reuse i).
Proof.
  intros v. unfold create_handshake_reuse. quietly quiet_the_invitation. intros x _. quietly quiet_assert. intros [] _.
  apply quiet_from; [typeclasses eauto|]. eapply from_conseq; [apply quiet_any; done|done|done].
Qed.
Lemma process_reuse_steps m c : steps (process_handshake_reuse m c).
Proof.
  intros v. unfold process_handshake_reuse. destruct (ht_parent_thread_id _) as [p|]; [|apply quiet_from; [typeclasses eauto|]; apply quiet_throw].
  apply from_bind with (F := λ x, v (ob_id x) = Some x ∧ ob_role x = ObSender ∧ obt_invitation_id (ob_tags x) = p);
    [typeclasses eauto|apply quiet_the_invitation|]. intros x (Hx & Hro & _).
  apply from_bind with (F := λ _, ob_reusable x = false → ob_reuse_connection_id x = None); [typeclasses eauto| |].
  { destruct (negb (ob_reusable x) && _) eqn:Hb; [apply quiet_throw|]. eapply from_conseq; [apply quiet_ret| |done].
    intros _ _ Hf. rewrite Hf in Hb. cbn in Hb. apply bool_decide_eq_false in Hb. by apply eq_None_not_Some. }
  intros [] Hfirst. quietly quiet_assert. intros [] Hst. cbv zeta. change (ob_reusable (ob_set_reuse_connection c x)) with (ob_reusable x).
  apply from_bind with (F := λ y, ob_id y = ob_id x ∧ ob_step x y); [typeclasses eauto| |].
  { destruct (ob_reusable x) eqn:Hre; cbn [negb].
    - eapply from_conseq; [apply quiet_ret| |done]. intros y ->. split; [done|]. by constructor.
    - quietly quiet_world. intros now _. eapply from_conseq; [apply quiet_ret| |done]. intros y ->. split; [done|]. constructor; auto. }
  intros y (Hid & Hstep). eapply from_bind_quiet; [apply from_update; cbn; rewrite Hid, Hx; by intros ? [= <-]|].
  intros [] v' _. apply from_bind with (F := λ _, True); [typeclasses eauto| |].
  { destruct (negb _); [apply quiet_emit_oob|]. eapply from_conseq; [apply quiet_ret|done|done]. }
  intros [] _. quietly quiet_emit_reused. intros [] _. eapply from_conseq; [apply quiet_any; done|done|done].
Qed.
Lemma mark_done_steps i role : steps (mark_done i role).
Proof.
  intros v. unfold mark_done. quietly quiet_the_invitation. intros x (Hx & _). quietly quiet_world. intros now _.
  eapply from_bind_quiet; [|intros [] v' _; apply quiet_emit_oob]. apply from_update. cbn. rewrite Hx. intros ? [= <-]. constructor.
Qed.

Lemma oob_run1_steps c : is_delete c = false ∨ (∀ x, gone x) → steps (oob_run1 c).
Proof.
  intros Hg v. destruct c; cbn [oob_run1]; try apply quiet_ignored.
  - apply create_invitation_steps.
  - apply receive_invitation_steps.
  - apply create_reuse_steps.
  - apply process_reuse_steps.
  - apply mark_done_steps.
  - apply from_delete. destruct Hg as [|Hg]; [done|]. intros x _. apply Hg.
Qed.

Lemma oob_run_path calls s w :
  (∀ x, gone x) ∨ Forall (λ c, is_delete c = false) calls → rs_ok s → record_path ob_born ob_step gone s (oob_run calls s w).1.
Proof.
  revert s w. induction calls as [|c calls IH]; intros s w Hg Hs; cbn [oob_run]; [by apply record_path_refl|].
  assert (Hc : is_delete c = false ∨ ∀ x, gone x) by (destruct Hg as [|Hg]; [auto|left; by inversion Hg]).
  pose proof (paths_steps ob_born ob_step gone (oob_run1 c) (oob_run1_steps c Hc) s w Hs) as Hp.
  destruct (oob_run1 c s w) as [[r s1] w1]. cbn in Hp. eapply record_path_trans; [exact Hp|]. apply IH; [|apply Hp].
  destruct Hg as [|Hg]; [by left|right; by inversion Hg].
Qed.
End calls.

(** * The records of a service *)

Record ob_wf (x : OutOfBandRecord) : Prop := {
  obw_tagged : ob_tagged x;
  obw_sender : ob_role x = ObSender → (ob_state x = ObAwaitResponse ∨ ob_state x = ObDone) ∧ inv_handshake_protocols (ob_invitation x) ≠ None;
  obw_receiver : ob_role x = ObReceiver → (ob_state x = ObPrepareResponse ∨ ob_state x = ObDone) ∧ ob_reuse_connection_id x = None;
  obw_single : ob_reusable x = false → is_Some (ob_reuse_connection_id x) → ob_state x = ObDone
}.
Lemma ob_born_wf x : ob_born x → ob_wf x.
Proof. by destruct 1 as [x Hr Hs Hp Ht Hn|x Hr Hs Hre Ht Hn]; constructor; rewrite ?Hr, ?Hs, ?Hn; auto; try done; intros _ []. Qed.
Lemma ob_step_wf x y : ob_step x y → ob_wf x → ob_wf y.
Proof.
  intros Hxy [(Ht1 & Ht2 & Ht3) Hs Hr Hu]. destruct Hxy; (constructor; cbn; [by split_and!|intros Hx|intros Hx|intros Hx]);
    try congruence; try (destruct (Hs Hx); auto; done); try (destruct (Hr Hx); auto; done); auto.
Qed.

(** What a record keeps: its invitation and, once it is used, the use of a single-use one. *)
Definition ob_le (x y : OutOfBandRecord) : Prop :=
  ob_id y = ob_id x ∧ ob_invitation y = ob_invitation x ∧ ob_role y = ob_role x ∧ ob_reusable y = ob_reusable x ∧
  (ob_state x = ObDone → ob_state y = ObDone) ∧
  (ob_reusable x = false → is_Some (ob_reuse_connection_id x) → ob_reuse_connection_id y = ob_reuse_connection_id x).
#[export] Instance ob_le_refl : Reflexive ob_le.
Proof. intros x. by split_and!. Qed.
#[export] Instance ob_le_trans : Transitive ob_le.
Proof.
  intros x y z (A1 & A2 & A3 & A4 & A5 & A6) (B1 & B2 & B3 & B4 & B5 & B6). split_and!; try congruence; [auto|].
  intros Hr Hs. rewrite <-(A6 Hr Hs). apply B6; [congruence|]. by rewrite (A6 Hr Hs).
Qed.
Lemma ob_step_le x y : ob_step x y → ob_le x y.
Proof. intros []; split_and!; try done; cbn; try congruence. intros _ []; congruence. Qed.

(** * The properties *)

Section oob_properties.
Context `{HashOrder} `{UuidText}.

(** Through any sequence of calls of the out-of-band service from an empty repository,
    answered or refused, a record says of its invitation what the protocol allows: the tags it
    is found by repeat its fields; a sender's invitation names handshake protocols - if only an
    empty list - and awaits a response or is done; a receiver's prepares one or is done and is never reused from there;
    and a single-use invitation that was reused is done. *)
Theorem oob_records_wf calls s w id x :
  rs_ok s → (∀ i, rs_view s i = None) → rs_view (oob_run calls s w).1 id = Some x → ob_wf x ∧ ob_id x = id.
Proof.
  intros Hs He Hx. destruct (oob_run_path (λ _, True) calls s w (or_introl (λ _, I)) Hs) as [Hok Hp]. split.
  - eapply change_path_invariant; [apply ob_born_wf|apply ob_step_wf|apply (Hp id)| |exact Hx]. intros x' Hx'. by rewrite He in Hx'.
  - exact (er_keyed _ _ _ Hok Hx).
Qed.

(** C35: A single-use invitation is used once: when its record names the connection that reused
    it, then through whatever calls follow, short of deleting records, the record stays, keeps
    its invitation and its role, and names that connection; and a record that is done stays
    done. *)
Theorem single_use_once calls s w id x :
  rs_ok s → Forall (λ c, is_delete c = false) calls → rs_view s id = Some x →
  ∃ y, rs_view (oob_run calls s w).1 id = Some y ∧ ob_invitation y = ob_invitation x ∧ ob_role y = ob_role x ∧
    (ob_state x = ObDone → ob_state y = ObDone) ∧
    (ob_reusable x = false → is_Some (ob_reuse_connection_id x) → ob_reuse_connection_id y = ob_reuse_connection_id x).
Proof.
  intros Hs Hd Hx. destruct (oob_run_path (λ _, False) calls s w (or_intror Hd) Hs) as [_ Hp].
  destruct (change_path_order ob_born ob_step ob_le _ _ _ _ ob_step_le (Hp id) x Hx) as (y & Hy & Hle). exists y.
  split; [done|]. by destruct Hle as (_ & ? & ? & _ & ? & ?).
Qed.
End oob_properties.

(** * An invitation over a URL *)

(** The query of a base URL with the one parameter [oob], whose value needs no escapes. *)
Class UrlLaws `{UrlCrate} := {
  url_base : string → Prop;
  url_oob_parameter base value : url_base base → forallb is_b64url (String.list_ascii_of_string value) = true →
    url_query_pairs (base +:+ "?oob=" +:+ value) = Ok [("oob", value)]
}.

Section over_url.
Context `{Base64UrlChars} `{JsonText} `{Serde OutOfBandInvitation} `{!SerdeLaws OutOfBandInvitation} `{UrlLaws}.

Lemma to_url_from_url invitation domain url : url_base domain → inv_to_url invitation domain = Ok url → inv_from_url url = Ok invitation.
Proof.
  intros Hd. unfold inv_to_url. destruct (sd_to_text invitation) as [text| |] eqn:Ht; [|done..]. intros [= <-].
  unfold inv_from_url. rewrite url_oob_parameter by (done || apply b64url_chars).
  change (match b64url_decode (b64url_encode text) with inl e => Err e | inr json => sd_from_text json end = Ok invitation).
  rewrite b64url_decode_encode. by apply sd_text_back.
Qed.

(** An invitation survives its URL: behind a base URL that the library's parser takes apart as it
    documents, the URL can be made when the invitation can be written, and the receiver reads from it the invitation that was
    sent. *)
Theorem invitation_url_roundtrip (record : OutOfBandRecord) domain text :
  url_base domain → sd_to_text (ob_invitation record) = Ok text →
  ∃ url, api_get_invitation_url record domain = Ok url ∧ inv_from_url url = Ok (ob_invitation record).
Proof.
  intros Hd Ht. exists (domain +:+ "?oob=" +:+ b64url_encode text).
  assert (Hu : inv_to_url (ob_invitation record) domain = Ok (domain +:+ "?oob=" +:+ b64url_encode text)) by (unfold inv_to_url; by rewrite Ht).
  split; [unfold api_get_invitation_url; by rewrite Hu|by eapply to_url_from_url].
Qed.
End over_url.

Section reuse_flow.
Context `{HashOrder} `{UuidText} `{Base64UrlChars} `{JsonText} `{Serde OutOfBandInvitation} `{!SerdeLaws OutOfBandInvitation} `{UrlLaws}.
Abbreviation Mem := (gmap string OutOfBandRecord).
Implicit Types (m : Mem) (x : OutOfBandRecord).

(** Records are found by the invitation in their tags. *)
Definition ob_thread x : string := obt_invitation_id (ob_tags x).

Lemma the_invitation_run m bus w x role :
  only_of ob_thread m x → ob_role x = role →
  obs_the_invitation (ob_thread x) role (mkOobService m bus) w = (Ok x, mkOobService m bus, w).
Proof.
  intros Ho Hr. unfold obs_the_invitation, obs_find_by_invitation_id, ob_find_by_invitation_id.
  rewrite (eff_bind_run _ _ _ _ (Some x) (mkOobService m bus) w); [done|].
  unfold on_records, eff_zoom. cbn. unfold mr_find, eff_gets.
  rewrite (find_only ob_thread m _ x Ho); [done|by apply bool_decide_eq_true_2|].
  by intros y [Hy _]%bool_decide_eq_true.
Qed.

Lemma create_run m bus w services label goal_code goal protocols multi :
  fresh_for ob_thread m w →
  ∃ x bus' w', create_invitation services label goal_code goal (Some protocols) multi (mkOobService m bus) w =
      (Ok x, mkOobService (<[ob_id x := x]> m) bus', w') ∧ world_le w w' ∧
    only_of ob_thread (<[ob_id x := x]> m) x ∧ ob_role x = ObSender ∧ ob_state x = ObAwaitResponse ∧ ob_reusable x = multi ∧
    ob_reuse_connection_id x = None ∧ ob_thread x = inv_id (ob_invitation x) ∧ inv_id (ob_invitation x) = uuid_text w (w_un w).
Proof.
  intros Hf. unfold create_invitation.
  erewrite eff_bind_run by reflexivity. cbv zeta. set (i := inv_with_handshake_protocols protocols _).
  assert (Hi : inv_id i = uuid_text w (w_un w)) by (subst i; by destruct label, goal_code, goal).
  clearbody i. erewrite eff_bind_run by reflexivity.
  match goal with |- context [on_records (er_save ?r)] => set (x := r) end.
  destruct (inv_fingerprints_same i (obt_from_invitation i ObSender ObInitial)) as (_ & _ & Ht). cbn in Ht.
  assert (Hth : ob_thread x = inv_id i) by exact Ht.
  match goal with |- context [_ (mkOobService m bus) ?w2] => assert (Hle : world_le w w2) by (split; [done|cbn; lia]); set (w' := w2) in * end.
  destruct (Hf (S (w_un w)) ltac:(lia)) as [Hnew _]. assert (Hid : m !! ob_id x = None) by exact Hnew.
  exists x. eexists _, w'. split; [|split; [done|]].
  - erewrite eff_bind_run by (unfold on_records, eff_zoom; cbn; unfold mr_save; cbn [rk_id oob_key]; rewrite Hid; reflexivity). reflexivity.
  - split; [|by split_and!].
    assert (Ho : ∀ k y, m !! k = Some y → ob_thread y ≠ ob_thread x).
    { intros k y Hy. rewrite Hth, Hi. by apply (proj2 (Hf (w_un w) (le_n _)) k). }
    exact (only_of_new ob_thread m x Hid Ho).
Qed.

Lemma receive_run m bus w invitation :
  fresh_for ob_thread m w → (∀ k y, m !! k = Some y → ob_thread y ≠ inv_id invitation) →
  ∃ x bus' w', receive_invitation invitation None (mkOobService m bus) w = (Ok x, mkOobService (<[ob_id x := x]> m) bus', w') ∧ world_le w w' ∧
    only_of ob_thread (<[ob_id x := x]> m) x ∧ ob_role x = ObReceiver ∧ ob_state x = ObPrepareResponse ∧
    ob_invitation x = invitation ∧ ob_thread x = inv_id invitation.
Proof.
  intros Hf Hnone. unfold receive_invitation.
  assert (Hfind : obs_find_by_invitation_id (inv_id invitation) ObReceiver (mkOobService m bus) w = (Ok None, mkOobService m bus, w)).
  { unfold obs_find_by_invitation_id, ob_find_by_invitation_id, on_records, eff_zoom. cbn. unfold mr_find, eff_gets.
    rewrite (proj2 (find_first_None _ _)); [done|]. intros y [k Hk]%elem_of_repo_records [Hy _]%bool_decide_eq_true. by apply (Hnone k y Hk). }
  rewrite (eff_bind_run _ _ _ _ _ _ _ Hfind). erewrite eff_bind_run by reflexivity. cbn [given].
  match goal with |- context [on_records (er_save ?r)] => set (x := r) end.
  destruct (inv_fingerprints_same invitation (obt_from_invitation invitation ObReceiver ObInitial)) as (_ & _ & Ht). cbn in Ht.
  assert (Hth : ob_thread x = inv_id invitation) by exact Ht.
  match goal with |- context [_ (mkOobService m bus) ?w2] => assert (Hle : world_le w w2) by (split; [done|cbn; lia]); set (w' := w2) in * end.
  destruct (Hf (w_un w) ltac:(lia)) as [Hnew _]. assert (Hid : m !! ob_id x = None) by exact Hnew.
  exists x. eexists _, w'. split; [|split; [done|]].
  - erewrite eff_bind_run by (unfold on_records, eff_zoom; cbn; unfold mr_save; cbn [rk_id oob_key]; rewrite Hid; reflexivity). reflexivity.
  - split; [|by split_and!].
    assert (Ho : ∀ k y, m !! k = Some y → ob_thread y ≠ ob_thread x) by (intros k y Hy; rewrite Hth; by apply (Hnone k y)).
    exact (only_of_new ob_thread m x Hid Ho).
Qed.

(** The sender answers a reuse. *)
Lemma reuse_run m bus w x msg c :
  only_of ob_thread m x → ob_role x = ObSender → ob_state x = ObAwaitResponse → ob_reuse_connection_id x = None →
  ht_parent_thread_id (hrm_thread msg) = Some (ob_thread x) →
  ∃ y bus' w' acc, process_handshake_reuse msg c (mkOobService m bus) w = (Ok acc, mkOobService (<[ob_id y := y]> m) bus', w') ∧
    only_of ob_thread (<[ob_id y := y]> m) y ∧ ob_id y = ob_id x ∧ ob_role y = ObSender ∧ ob_reuse_connection_id y = Some c ∧
    ob_state y = (if ob_reusable x then ObAwaitResponse else ObDone) ∧ ob_invitation y = ob_invitation x ∧ ob_reusable y = ob_reusable x ∧
    ob_thread y = ob_thread x ∧ hra_thread acc = mkReuseThread (ht_thread_id (hrm_thread msg)) (Some (ob_thread x)).
Proof.
  intros Ho Hr Hst Hn Hp. unfold process_handshake_reuse. rewrite Hp. rewrite (eff_bind_run _ _ _ _ _ _ _ (the_invitation_run m bus w x _ Ho Hr)).
  rewrite Hn. replace (bool_decide (is_Some (None (A:=string)))) with false by done. rewrite andb_false_r.
  erewrite eff_bind_run by reflexivity.
  rewrite (eff_bind_run (eff_lift (ob_assert_state [ObAwaitResponse] x)) _ _ _ tt (mkOobService m bus) w)
    by (unfold eff_lift, ob_assert_state; by rewrite decide_True by set_solver).
  cbv zeta. change (ob_reusable (ob_set_reuse_connection c x)) with (ob_reusable x).
  set (y := if ob_reusable x then ob_set_reuse_connection c x else ob_update_state ObDone (utc_now w).1 (ob_set_reuse_connection c x)).
  assert (Hrun : ∃ w1, (if negb (ob_reusable x) then now ← eff_world utc_now; mret (ob_update_state ObDone now (ob_set_reuse_connection c x))
                        else mret (ob_set_reuse_connection c x) : eff OutOfBandError OobService _) (mkOobService m bus) w = (Ok y, mkOobService m bus, w1)).
  { subst y. destruct (ob_reusable x); eexists; reflexivity. }
  destruct Hrun as [w1 Hrun]. rewrite (eff_bind_run _ _ _ _ _ _ _ Hrun). clear Hrun.
  assert (Hid : ob_id y = ob_id x) by (subst y; by destruct (ob_reusable x)).
  assert (Hth : ob_thread y = ob_thread x) by (subst y; by destruct (ob_reusable x)).
  assert (Hy : ob_role y = ObSender ∧ ob_reuse_connection_id y = Some c ∧ ob_state y = (if ob_reusable x then ObAwaitResponse else ObDone) ∧
               ob_invitation y = ob_invitation x ∧ ob_reusable y = ob_reusable x) by (subst y; destruct (ob_reusable x) eqn:He; by split_and!).
  clearbody y. destruct Hy as (Hy1 & Hy2 & Hy3 & Hy4 & Hy5).
  rewrite (eff_bind_run (on_records (er_update y)) _ _ _ tt (mkOobService (<[ob_id y := y]> m) bus) w1)
    by (unfold on_records, eff_zoom; cbn; unfold mr_update; cbn [rk_id oob_key]; rewrite Hid, (proj1 Ho : m !! ob_id x = Some x); reflexivity).
  pose proof (only_of_insert ob_thread m x y Ho Hid Hth) as Ho'.
  exists y. destruct (ob_reusable x); do 3 eexists; (split; [reflexivity|]); by split_and!.
Qed.

(** The receiver asks. *)
Lemma reuse_ask_run m bus w y :
  only_of ob_thread m y → ob_role y = ObReceiver → ob_state y = ObPrepareResponse →
  ∃ reuse w', create_handshake_reuse (ob_thread y) (mkOobService m bus) w = (Ok reuse, mkOobService m bus, w') ∧
    ht_parent_thread_id (hrm_thread reuse) = Some (inv_id (ob_invitation y)).
Proof.
  intros Ho Hr Hst. unfold create_handshake_reuse. do 2 eexists. rewrite (eff_bind_run _ _ _ _ _ _ _ (the_invitation_run _ bus w y ObReceiver Ho Hr)).
  rewrite (eff_bind_run (eff_lift (ob_assert_state [ObPrepareResponse] y)) _ _ _ tt (mkOobService m bus) w)
    by (unfold eff_lift, ob_assert_state; by rewrite decide_True by set_solver).
  split; reflexivity.
Qed.

(** A single-use invitation that was reused refuses the next. *)
Lemma reuse_refused m bus w x msg c :
  only_of ob_thread m x → ob_role x = ObSender → ob_reusable x = false → is_Some (ob_reuse_connection_id x) →
  ht_parent_thread_id (hrm_thread msg) = Some (ob_thread x) →
  process_handshake_reuse msg c (mkOobService m bus) w = (Err ObConnectionAlreadyExists, mkOobService m bus, w).
Proof.
  intros Ho Hr Hu Hs Hp. unfold process_handshake_reuse. rewrite Hp, (eff_bind_run _ _ _ _ _ _ _ (the_invitation_run m bus w x _ Ho Hr)).
  by rewrite Hu, bool_decide_eq_true_2.
Qed.

(** A sender invites over a URL; the receiver, who has a connection already, reuses it. *)
Definition at_sender {X} (m : eff OutOfBandError OobService X) : eff OutOfBandError (OobService * OobService) X := eff_zoom fst (λ a s, (a, s.2)) id m.
Definition at_receiver {X} (m : eff OutOfBandError OobService X) : eff OutOfBandError (OobService * OobService) X := eff_zoom snd (λ b s, (s.1, b)) id m.
Definition reuse_over_url (services : list InvitationService) (label : option string) (protocols : list string) (multi : bool) (domain connection_id : string)
    : eff OutOfBandError (OobService * OobService) (HandshakeReuseMessage * HandshakeReuseAcceptedMessage) :=
  record ← at_sender (create_invitation services label None None (Some protocols) multi);
  url ← eff_lift (api_get_invitation_url record domain);
  got ← at_receiver (api_receive_invitation_from_url url);
  reuse ← at_receiver (create_handshake_reuse (inv_id (ob_invitation got)));
  accepted ← at_sender (process_handshake_reuse reuse connection_id);
  mret (reuse, accepted).
Lemma at_sender_run {X} (call : eff OutOfBandError OobService X) a b w r a' w' :
  call a w = (Ok r, a', w') → at_sender call (a, b) w = (Ok r, (a', b), w').
Proof. intros Hc. unfold at_sender, eff_zoom. cbn. by rewrite Hc. Qed.
Lemma at_receiver_run {X} (call : eff OutOfBandError OobService X) a b w r b' w' :
  call b w = (Ok r, b', w') → at_receiver call (a, b) w = (Ok r, (a, b'), w').
Proof. intros Hc. unfold at_receiver, eff_zoom. cbn. by rewrite Hc. Qed.

(** C31: Invitations work from end to end: a sender creates one and puts it in a URL, the receiver
    reads it from there and asks to reuse the connection it has, and the sender accepts, on the
    thread of the request and under the invitation.  The sender's record then names the
    connection; a single-use invitation is done, and the next request to reuse it is refused
    and changes nothing; a multi-use one still awaits responses. *)
Theorem invitation_reused services label protocols multi domain c ma busa mb busb w :
  (∀ i, ∃ text, sd_to_text (A:=OutOfBandInvitation) i = Ok text) → url_base domain →
  fresh_for ob_thread ma w → fresh_for ob_thread mb w →
  ∃ reuse acc ma' busa' mb' busb' w' x y,
    reuse_over_url services label protocols multi domain c (mkOobService ma busa, mkOobService mb busb) w =
      (Ok (reuse, acc), (mkOobService ma' busa', mkOobService mb' busb'), w') ∧
    ht_parent_thread_id (hra_thread acc) = Some (inv_id (ob_invitation x)) ∧ ht_thread_id (hra_thread acc) = ht_thread_id (hrm_thread reuse) ∧
    ma' !! ob_id x = Some x ∧ ob_role x = ObSender ∧ ob_state x = (if multi then ObAwaitResponse else ObDone) ∧ ob_reuse_connection_id x = Some c ∧
    mb' !! ob_id y = Some y ∧ ob_role y = ObReceiver ∧ ob_state y = ObPrepareResponse ∧ ob_invitation y = ob_invitation x ∧
    (multi = false → ∀ c' w2, process_handshake_reuse reuse c' (mkOobService ma' busa') w2 =
                                (Err ObConnectionAlreadyExists, mkOobService ma' busa', w2)).
Proof.
  intros Htext Hd Hfa Hfb. unfold reuse_over_url.
  destruct (create_run ma busa w services label None None protocols multi Hfa) as (x & busa1 & w1 & Hc & Hle & Ho & Hr & Hst & Hre & Hn & Hth & Hinv).
  rewrite (eff_bind_run _ _ _ _ _ _ _ (at_sender_run _ _ (mkOobService mb busb) _ _ _ _ Hc)).
  destruct (Htext (ob_invitation x)) as [text Ht].
  assert (Hu : inv_to_url (ob_invitation x) domain = Ok (domain +:+ "?oob=" +:+ b64url_encode text)) by (unfold inv_to_url; by rewrite Ht).
  pose proof (to_url_from_url _ _ _ Hd Hu) as Hback.
  unfold api_get_invitation_url. rewrite Hu. erewrite eff_bind_run by reflexivity.
  destruct (receive_run mb busb w1 (ob_invitation x)) as (y & busb1 & w2 & Hrec & Hle2 & Hoy & Hry & Hsty & Hiy & Hty).
  { by eapply fresh_for_later. }
  { intros k z Hz. rewrite Hinv. by apply (proj2 (Hfb (w_un w) (le_n _)) k). }
  rewrite (eff_bind_run _ _ _ _ y (mkOobService (<[ob_id x:=x]> ma) busa1, mkOobService (<[ob_id y:=y]> mb) busb1) w2)
    by (apply at_receiver_run; unfold api_receive_invitation_from_url; rewrite Hback; erewrite eff_bind_run by reflexivity; exact Hrec).
  destruct (reuse_ask_run _ busb1 w2 y Hoy Hry Hsty) as (reuse & w3 & Hreuse & Hpar). rewrite Hty in Hreuse. rewrite Hiy in *.
  rewrite (eff_bind_run _ _ _ _ _ _ _ (at_receiver_run _ _ _ _ _ _ _ Hreuse)).
  rewrite <-Hth in Hpar. destruct (reuse_run _ busa1 w3 x reuse c Ho Hr Hst Hn Hpar) as
    (x' & busa2 & w4 & acc & Hacc & Ho' & Hid & Hr' & Hc' & Hst' & Hi' & Hre' & Hth' & Hthr).
  rewrite (eff_bind_run _ _ _ _ _ _ _ (at_sender_run _ _ _ _ _ _ _ Hacc)).
  exists reuse, acc. do 5 eexists. exists x', y. split; [reflexivity|]. rewrite Hthr, Hi', <-Hth, Hiy. rewrite Hre in Hst'.
  split_and!; try done.
  - exact (proj1 Ho').
  - exact (proj1 Hoy).
  - intros Hm c' w5. apply (reuse_refused _ _ _ x'); [done|done|by rewrite Hre', Hre|by eexists|by rewrite Hth'].
Qed.
End reuse_flow.

(** * A concrete environment *)

(** The text of an invitation: the code of its fields. *)
#[local] Instance InlineService_eq_dec : EqDecision InlineService.
Proof. solve_decision. Defined.
#[local] Instance InvitationService_eq_dec : EqDecision InvitationService.
Proof. solve_decision. Defined.
#[local] Instance OutOfBandInvitation_eq_dec : EqDecision OutOfBandInvitation.
Proof. solve_decision. Defined.
#[local] Instance InlineService_countable : Countable InlineService.
Proof.
  apply (inj_countable' (λ s, (ins_id s, ins_service_type s, ins_recipient_keys s, ins_routing_keys s, ins_service_endpoint s))
    (λ '(a, b, c, d, e), mkInline a b c d e)). by intros [].
Defined.
#[local] Instance InvitationService_countable : Countable InvitationService.
Proof.
  apply (inj_countable' (λ s, match s with SvDid d => inl d | SvInline i => inr i end)
    (λ s, match s with inl d => SvDid d | inr i => SvInline i end)). by intros [].
Defined.
#[local] Instance OutOfBandInvitation_countable : Countable OutOfBandInvitation.
Proof.
  apply (inj_countable'
    (λ i, (inv_type i, inv_id i, inv_label i, inv_goal_code i, inv_goal i, (inv_accept i, inv_handshake_protocols i, inv_requests i, inv_services i, inv_image_url i)))
    (λ '(a, b, c, d, e, (f, g, h, i, j)), mkInvitation a b c d e f g h i j)). by intros [].
Defined.

(** Everything before the first question mark is the base; the rest is one parameter. *)
Definition toy_url : UrlCrate := {|
  url_query_pairs s :=
    match str_split_once "?"%char s with
    | Some (_, q) => match str_split_once "="%char q with Some kv => Ok [kv] | None => Ok [(q, "")] end
    | None => Ok []
    end
|}.
#[local] Existing Instances plain_order toy_uuid_text code_json letters_base64 letters_base64_chars code_serde code_serde_laws toy_url.

Lemma toy_url_one base value : str_avoids "?"%char base = true → url_query_pairs (base +:+ "?oob=" +:+ value) = Ok [("oob", value)].
Proof.
  intros Hb. cbn [url_query_pairs toy_url]. change ("?oob=" +:+ value) with (String "?"%char ("oob" +:+ String "="%char value)).
  by rewrite str_split_once_app, str_split_once_app.
Qed.
#[local] Instance toy_url_laws : UrlLaws := {| url_base b := str_avoids "?"%char b = true; url_oob_parameter b v Hb _ := toy_url_one b v Hb |}.

(** * The witnesses *)

Definition run_services : list InvitationService := [SvInline (ins_new "#inline-0" ["did:key:z6"] [] "https://faber")].
Definition run_created : OobService := (create_invitation run_services (Some "Faber") None None (Some ["didexchange"]) false (obs_new ∅) world0).1.2.
Definition run_message : HandshakeReuseMessage := mkReuse "" "m" (mkReuseThread "t" (Some "0")).
Definition oob_calls : list oob_call :=
  [OcCreate run_services (Some "Faber") None None (Some ["didexchange"]) false; OcProcessReuse run_message "conn"; OcProcessReuse run_message "other"].
Definition oob_state_of (calls : list oob_call) : OobService := (oob_run calls (obs_new ∅) world0).1.
(** State and connection of the records. *)
Definition oob_view (s : OobService) : list (OutOfBandRole * OutOfBandState * option string) :=
  (λ x, (ob_role x, ob_state x, ob_reuse_connection_id x)) <$> repo_record_values (obs_repository s).

Lemma oob_new_ok : rs_ok (obs_new ∅).
Proof. by intros i x. Qed.
Lemma oob_used : ∃ x, rs_view (oob_state_of oob_calls) "1" = Some x ∧ ob_reusable x = false ∧ ob_reuse_connection_id x = Some "conn".
Proof. eexists. vm_compute. repeat split; reflexivity. Qed.

Lemma oob_records_wf_witness : ∃ x, rs_view (oob_state_of oob_calls) "1" = Some x ∧ ob_wf x ∧ ob_state x = ObDone.
Proof.
  destruct oob_used as (x & Hx & Hr & Hc). exists x. split; [exact Hx|].
  destruct (oob_records_wf oob_calls (obs_new ∅) world0 "1" x oob_new_ok (λ i, eq_refl) Hx) as [Hwf _].
  split; [exact Hwf|]. apply (obw_single x Hwf Hr). rewrite Hc. by eexists.
Defined.

Lemma single_use_once_witness :
  ∃ y, rs_view (oob_run [OcProcessReuse run_message "other"; OcMarkDone "0" ObSender] (oob_state_of oob_calls) world0).1 "1" = Some y ∧
    ob_reuse_connection_id y = Some "conn".
Proof.
  destruct oob_used as (x & Hx & Hr & Hc).
  assert (Hok : rs_ok (oob_state_of oob_calls)) by (apply (oob_run_path (λ _, True) oob_calls (obs_new ∅) world0 (or_introl (λ _, I)) oob_new_ok)).
  destruct (single_use_once [OcProcessReuse run_message "other"; OcMarkDone "0" ObSender] (oob_state_of oob_calls) world0 "1" x) as (y & Hy & _ & _ & _ & Hsame).
  - exact Hok.
  - by repeat constructor.
  - exact Hx.
  - exists y. split; [exact Hy|]. rewrite <-Hc. apply Hsame; [exact Hr|]. rewrite Hc. by eexists.
Defined.

Lemma invitation_url_roundtrip_witness :
  ∃ x, rs_view run_created "1" = Some x ∧
  ∃ url, api_get_invitation_url x "https://faber" = Ok url ∧ inv_from_url url = Ok (ob_invitation x).
Proof.
  destruct (rs_view run_created "1") as [x|] eqn:Hx; [|vm_compute in Hx; discriminate]. exists x. split; [reflexivity|].
  eapply (invitation_url_roundtrip x "https://faber"); [reflexivity|reflexivity].
Defined.

Lemma fresh_empty w : fresh_for (R:=OutOfBandRecord) ob_thread ∅ w.
Proof. by intros n _. Qed.
Lemma invitation_reused_witness :
  ∃ reuse acc ma' busa' mb' busb' w' x y,
    reuse_over_url run_services (Some "Faber") ["didexchange"] false "https://faber" "conn" (mkOobService ∅ None, mkOobService ∅ None) world0 =
      (Ok (reuse, acc), (mkOobService ma' busa', mkOobService mb' busb'), w') ∧
    ht_parent_thread_id (hra_thread acc) = Some (inv_id (ob_invitation x)) ∧ ht_thread_id (hra_thread acc) = ht_thread_id (hrm_thread reuse) ∧
    ma' !! ob_id x = Some x ∧ ob_role x = ObSender ∧ ob_state x = ObDone ∧ ob_reuse_connection_id x = Some "conn" ∧
    mb' !! ob_id y = Some y ∧ ob_role y = ObReceiver ∧ ob_state y = ObPrepareResponse ∧ ob_invitation y = ob_invitation x ∧
    (false = false → ∀ c' w2, process_handshake_reuse reuse c' (mkOobService ma' busa') w2 =
                                (Err ObConnectionAlreadyExists, mkOobService ma' busa', w2)).
Proof.
  apply (invitation_reused run_services (Some "Faber") ["didexchange"] false "https://faber" "conn" ∅ None ∅ None world0).
  - intros i. by eexists.
  - reflexivity.
  - apply fresh_empty.
  - apply fresh_empty.
Defined.

(** * Where the code falls short *)

(** An invitation that offers nothing is created all the same: only the absence of a list of
    protocols is refused, not an empty one. *)
Example empty_protocols_accepted :
  (oob_run1 (OcCreate run_services None None None (Some []) false) (obs_new ∅) world0).1.1 = Ok tt ∧
  (oob_run1 (OcCreate run_services None None None None false) (obs_new ∅) world0).1.1 = Err ObNoHandshakeOrRequests.
Proof. vm_compute. split; reflexivity. Qed.

(** A goal without a goal code is dropped. *)
Example goal_dropped :
  match (create_invitation run_services None None (Some "to talk") (Some ["didexchange"]) false (obs_new ∅) world0).1.1 with
  | Ok x => inv_goal (ob_invitation x) = None
  | _ => False
  end.
Proof. reflexivity. Qed.

(** A multi-use invitation that is marked done refuses what it promised to accept. *)
Example marked_done_multi_use :
  (oob_run1 (OcProcessReuse run_message "conn")
     (oob_state_of [OcCreate run_services None None None (Some ["didexchange"]) true; OcMarkDone "0" ObSender]) world0).1.1 =
  Err (ObInvalidState [ObAwaitResponse] ObDone).
Proof. vm_compute. reflexivity. Qed.
