(* ===== verification/Connections.v ===== *)
(** DID exchange, the data ([src/protocols/connections/src]): states and roles
    ([domain]), errors ([lib.rs]), connection records ([repository/connection_record.rs]) and
    the three messages ([messages]).

    A setter that reads the clock takes the instant; the builder reads the clock for every
    field that is given, as the code does.

    The connection service ([services/connection_service.rs]) over any repository of
    connection records, and the in-memory repository's finders
    ([repository/connection_repository.rs]; its other methods are those of [RecordRepo]).

    The [Notify] that the service wakes is the number of times it was woken; the event bus is
    the list of what was emitted, if there is one. *)
From S2P Require Import Prelude AjnaTypes StdText SerdeJson Storage Didcomm RecordRepo Oob.

(** * States and roles *)

(** [src/protocols/connections/src/domain/state.rs:17-28] DidExchangeState *)
Inductive DidExchangeState :=
  | DxStart | DxInvitationSent | DxInvitationReceived | DxRequestSent | DxRequestReceived | DxResponseSent | DxResponseReceived
  | DxCompleted | DxAbandoned.
#[export] Instance DidExchangeState_eq_dec : EqDecision DidExchangeState.
Proof. solve_decision. Defined.

(** [src/protocols/connections/src/domain/state.rs:32-37] DidExchangeState::is_terminal *)
Definition dx_is_terminal (self : DidExchangeState) : bool := match self with DxCompleted | DxAbandoned => true | _ => false end.

(** [src/protocols/connections/src/domain/state.rs:40-42] DidExchangeState::is_active *)
Definition dx_is_active (self : DidExchangeState) : bool := negb (dx_is_terminal self).

(** [src/protocols/connections/src/domain/state.rs:45-58] DidExchangeState::valid_next_states *)
Definition dx_valid_next_states (self : DidExchangeState) : list DidExchangeState :=
  match self with
  | DxStart => [DxInvitationSent; DxInvitationReceived]
  | DxInvitationSent => [DxRequestReceived; DxAbandoned]
  | DxInvitationReceived => [DxRequestSent; DxAbandoned]
  | DxRequestSent => [DxResponseReceived; DxAbandoned]
  | DxRequestReceived => [DxResponseSent; DxAbandoned]
  | DxResponseSent => [DxCompleted; DxAbandoned]
  | DxResponseReceived => [DxCompleted; DxAbandoned]
  | DxCompleted => []
  | DxAbandoned => []
  end.

(** [src/protocols/connections/src/domain/state.rs:61-63] DidExchangeState::can_transition_to *)
Definition dx_can_transition_to (self next : DidExchangeState) : bool := bool_decide (next ∈ dx_valid_next_states self).

(** [src/protocols/connections/src/domain/state.rs:87-94] ConnectionState *)
Inductive ConnectionState := CsNull | CsInvited | CsRequested | CsResponded | CsComplete.

(** [src/protocols/connections/src/domain/state.rs:68-82] DidExchangeState::rfc0160_state *)
Definition dx_rfc0160_state (self : DidExchangeState) : ConnectionState :=
  match self with
  | DxStart | DxAbandoned => CsNull
  | DxInvitationSent | DxInvitationReceived => CsInvited
  | DxRequestSent | DxRequestReceived => CsRequested
  | DxResponseSent | DxResponseReceived => CsResponded
  | DxCompleted => CsComplete
  end.

(** [src/protocols/connections/src/domain/state.rs:96-107] ConnectionState::fmt *)
Definition cs_to_string (self : ConnectionState) : string :=
  match self with CsNull => "null" | CsInvited => "invited" | CsRequested => "requested" | CsResponded => "responded" | CsComplete => "complete" end.

(** [src/protocols/connections/src/domain/state.rs:109-124] DidExchangeState::fmt *)
Definition dx_to_string (self : DidExchangeState) : string :=
  match self with
  | DxStart => "start" | DxInvitationSent => "invitation-sent" | DxInvitationReceived => "invitation-received"
  | DxRequestSent => "request-sent" | DxRequestReceived => "request-received" | DxResponseSent => "response-sent"
  | DxResponseReceived => "response-received" | DxCompleted => "completed" | DxAbandoned => "abandoned"
  end.
(** The derived [Debug] text. *)
Definition dx_debug (self : DidExchangeState) : string :=
  match self with
  | DxStart => "Start" | DxInvitationSent => "InvitationSent" | DxInvitationReceived => "InvitationReceived"
  | DxRequestSent => "RequestSent" | DxRequestReceived => "RequestReceived" | DxResponseSent => "ResponseSent"
  | DxResponseReceived => "ResponseReceived" | DxCompleted => "Completed" | DxAbandoned => "Abandoned"
  end.

(** [src/protocols/connections/src/domain/role.rs:8-13] DidExchangeRole *)
Inductive DidExchangeRole := DxRequester | DxResponder.
#[export] Instance DidExchangeRole_eq_dec : EqDecision DidExchangeRole.
Proof. solve_decision. Defined.

(** [src/protocols/connections/src/domain/role.rs:15-23] DidExchangeRole::fmt *)
Definition dxr_to_string (self : DidExchangeRole) : string := match self with DxRequester => "requester" | DxResponder => "responder" end.
(** The derived [Debug] text. *)
Definition dxr_debug (self : DidExchangeRole) : string := match self with DxRequester => "Requester" | DxResponder => "Responder" end.

(** [src/protocols/connections/src/lib.rs:54-103] ConnectionError (the error of serde_json is its text) *)
Inductive ConnectionError :=
  | CeNotFound (s : string)
  | CeAlreadyExists (s : string)
  | CeInvalidStateTransition (from to : DidExchangeState)
  | CeInvalidRole (expected actual : DidExchangeRole)
  | CeInvalidState (expected : list DidExchangeState) (actual : DidExchangeState)
  | CeMissingParentThreadId
  | CeMissingThreadId
  | CeOutOfBandNotFound (s : string)
  | CeInvalidDid (s : string)
  | CeDidResolutionFailed (s : string)
  | CeStorage (s : string)
  | CeSerialization (s : string)
  | CeProtocol (s : string).
(** The derived [Display] text. *)
Definition cne_to_string (e : ConnectionError) : string :=
  match e with
  | CeNotFound s => "Connection not found: " +:+ s
  | CeAlreadyExists s => "Connection already exists: " +:+ s
  | CeInvalidStateTransition f t => "Invalid state transition: from " +:+ dx_debug f +:+ " to " +:+ dx_debug t
  | CeInvalidRole e a => "Invalid role for operation: expected " +:+ dxr_to_string e +:+ ", got " +:+ dxr_to_string a
  | CeInvalidState e a => "Invalid state for operation: expected one of " +:+ debug_list (dx_debug <$> e) +:+ ", got " +:+ dx_debug a
  | CeMissingParentThreadId => "Missing parent thread ID in request message"
  | CeMissingThreadId => "Missing thread ID in message"
  | CeOutOfBandNotFound s => "Out-of-band invitation not found: " +:+ s
  | CeInvalidDid s => "Invalid DID: " +:+ s
  | CeDidResolutionFailed s => "DID resolution failed: " +:+ s
  | CeStorage s => "Storage error: " +:+ s
  | CeSerialization s => "Serialization error: " +:+ s
  | CeProtocol s => "Protocol error: " +:+ s
  end.

(** * Records *)

(** [src/protocols/connections/src/repository/connection_record.rs:123-130] ConnectionTags *)
Record ConnectionTags := mkCnTags {
  cnt_role : DidExchangeRole;
  cnt_state : DidExchangeState;
  cnt_thread_id : string;
  cnt_out_of_band_id : string;
  cnt_did : string;
  cnt_their_did : option string
}.

(** [src/protocols/connections/src/repository/connection_record.rs:132-143] ConnectionTags::default *)
Definition cnt_default : ConnectionTags := mkCnTags DxRequester DxStart "" "" "" None.

Definition cnt_with_state (state : DidExchangeState) (t : ConnectionTags) : ConnectionTags :=
  mkCnTags (cnt_role t) state (cnt_thread_id t) (cnt_out_of_band_id t) (cnt_did t) (cnt_their_did t).
Definition cnt_with_thread_id (thread_id : string) (t : ConnectionTags) : ConnectionTags :=
  mkCnTags (cnt_role t) (cnt_state t) thread_id (cnt_out_of_band_id t) (cnt_did t) (cnt_their_did t).
Definition cnt_with_did (did : string) (t : ConnectionTags) : ConnectionTags :=
  mkCnTags (cnt_role t) (cnt_state t) (cnt_thread_id t) (cnt_out_of_band_id t) did (cnt_their_did t).
Definition cnt_with_their_did (their_did : string) (t : ConnectionTags) : ConnectionTags :=
  mkCnTags (cnt_role t) (cnt_state t) (cnt_thread_id t) (cnt_out_of_band_id t) (cnt_did t) (Some their_did).

(** [src/protocols/connections/src/repository/connection_record.rs:9-119] ConnectionRecord *)
Record ConnectionRecord := mkConn {
  cn_id : string;
  cn_state : DidExchangeState;
  cn_role : DidExchangeRole;
  cn_thread_id : string;
  cn_out_of_band_id : string;
  cn_did : string;
  cn_their_did : option string;
  cn_their_authentication_key : option string;
  cn_their_key_agreement_key : option string;
  cn_our_label : option string;
  cn_their_label : option string;
  cn_previous_dids : list string;
  cn_previous_their_dids : list string;
  cn_auto_accept_connection : option bool;
  cn_image_url : option string;
  cn_error_message : option string;
  cn_metadata : option Json;
  cn_didcomm_version : option string;
  cn_protocol : string;
  cn_created_at : Instant;
  cn_updated_at : Instant;
  cn_tags : ConnectionTags
}.

(** Assignments to single fields, and to a field with its tag. *)
Definition cn_touch (now : Instant) (r : ConnectionRecord) : ConnectionRecord :=
  mkConn (cn_id r) (cn_state r) (cn_role r) (cn_thread_id r) (cn_out_of_band_id r) (cn_did r) (cn_their_did r) (cn_their_authentication_key r)
    (cn_their_key_agreement_key r) (cn_our_label r) (cn_their_label r) (cn_previous_dids r) (cn_previous_their_dids r) (cn_auto_accept_connection r)
    (cn_image_url r) (cn_error_message r) (cn_metadata r) (cn_didcomm_version r) (cn_protocol r) (cn_created_at r) now (cn_tags r).
Definition cn_with_tags (tags : ConnectionTags) (r : ConnectionRecord) : ConnectionRecord :=
  mkConn (cn_id r) (cn_state r) (cn_role r) (cn_thread_id r) (cn_out_of_band_id r) (cn_did r) (cn_their_did r) (cn_their_authentication_key r)
    (cn_their_key_agreement_key r) (cn_our_label r) (cn_their_label r) (cn_previous_dids r) (cn_previous_their_dids r) (cn_auto_accept_connection r)
    (cn_image_url r) (cn_error_message r) (cn_metadata r) (cn_didcomm_version r) (cn_protocol r) (cn_created_at r) (cn_updated_at r) tags.
Definition cn_with_state (state : DidExchangeState) (r : ConnectionRecord) : ConnectionRecord :=
  mkConn (cn_id r) state (cn_role r) (cn_thread_id r) (cn_out_of_band_id r) (cn_did r) (cn_their_did r) (cn_their_authentication_key r)
    (cn_their_key_agreement_key r) (cn_our_label r) (cn_their_label r) (cn_previous_dids r) (cn_previous_their_dids r) (cn_auto_accept_connection r)
    (cn_image_url r) (cn_error_message r) (cn_metadata r) (cn_didcomm_version r) (cn_protocol r) (cn_created_at r) (cn_updated_at r)
    (cnt_with_state state (cn_tags r)).
Definition cn_with_thread_id (thread_id : string) (r : ConnectionRecord) : ConnectionRecord :=
  mkConn (cn_id r) (cn_state r) (cn_role r) thread_id (cn_out_of_band_id r) (cn_did r) (cn_their_did r) (cn_their_authentication_key r)
    (cn_their_key_agreement_key r) (cn_our_label r) (cn_their_label r) (cn_previous_dids r) (cn_previous_their_dids r) (cn_auto_accept_connection r)
    (cn_image_url r) (cn_error_message r) (cn_metadata r) (cn_didcomm_version r) (cn_protocol r) (cn_created_at r) (cn_updated_at r)
    (cnt_with_thread_id thread_id (cn_tags r)).
Definition cn_with_their_did (their_did : string) (r : ConnectionRecord) : ConnectionRecord :=
  mkConn (cn_id r) (cn_state r) (cn_role r) (cn_thread_id r) (cn_out_of_band_id r) (cn_did r) (Some their_did) (cn_their_authentication_key r)
    (cn_their_key_agreement_key r) (cn_our_label r) (cn_their_label r) (cn_previous_dids r) (cn_previous_their_dids r) (cn_auto_accept_connection r)
    (cn_image_url r) (cn_error_message r) (cn_metadata r) (cn_didcomm_version r) (cn_protocol r) (cn_created_at r) (cn_updated_at r)
    (cnt_with_their_did their_did (cn_tags r)).
Definition cn_with_did (did : string) (r : ConnectionRecord) : ConnectionRecord :=
  mkConn (cn_id r) (cn_state r) (cn_role r) (cn_thread_id r) (cn_out_of_band_id r) did (cn_their_did r) (cn_their_authentication_key r)
    (cn_their_key_agreement_key r) (cn_our_label r) (cn_their_label r) (cn_previous_dids r) (cn_previous_their_dids r) (cn_auto_accept_connection r)
    (cn_image_url r) (cn_error_message r) (cn_metadata r) (cn_didcomm_version r) (cn_protocol r) (cn_created_at r) (cn_updated_at r) (cn_tags r).
Definition cn_with_authentication_key (key : string) (r : ConnectionRecord) : ConnectionRecord :=
  mkConn (cn_id r) (cn_state r) (cn_role r) (cn_thread_id r) (cn_out_of_band_id r) (cn_did r) (cn_their_did r) (Some key)
    (cn_their_key_agreement_key r) (cn_our_label r) (cn_their_label r) (cn_previous_dids r) (cn_previous_their_dids r) (cn_auto_accept_connection r)
    (cn_image_url r) (cn_error_message r) (cn_metadata r) (cn_didcomm_version r) (cn_protocol r) (cn_created_at r) (cn_updated_at r) (cn_tags r).
Definition cn_with_key_agreement_key (key : string) (r : ConnectionRecord) : ConnectionRecord :=
  mkConn (cn_id r) (cn_state r) (cn_role r) (cn_thread_id r) (cn_out_of_band_id r) (cn_did r) (cn_their_did r) (cn_their_authentication_key r)
    (Some key) (cn_our_label r) (cn_their_label r) (cn_previous_dids r) (cn_previous_their_dids r) (cn_auto_accept_connection r) (cn_image_url r)
    (cn_error_message r) (cn_metadata r) (cn_didcomm_version r) (cn_protocol r) (cn_created_at r) (cn_updated_at r) (cn_tags r).
Definition cn_with_labels (ours theirs : option string) (r : ConnectionRecord) : ConnectionRecord :=
  mkConn (cn_id r) (cn_state r) (cn_role r) (cn_thread_id r) (cn_out_of_band_id r) (cn_did r) (cn_their_did r) (cn_their_authentication_key r)
    (cn_their_key_agreement_key r) ours theirs (cn_previous_dids r) (cn_previous_their_dids r) (cn_auto_accept_connection r) (cn_image_url r)
    (cn_error_message r) (cn_metadata r) (cn_didcomm_version r) (cn_protocol r) (cn_created_at r) (cn_updated_at r) (cn_tags r).
Definition cn_with_previous (ours theirs : list string) (r : ConnectionRecord) : ConnectionRecord :=
  mkConn (cn_id r) (cn_state r) (cn_role r) (cn_thread_id r) (cn_out_of_band_id r) (cn_did r) (cn_their_did r) (cn_their_authentication_key r)
    (cn_their_key_agreement_key r) (cn_our_label r) (cn_their_label r) ours theirs (cn_auto_accept_connection r) (cn_image_url r) (cn_error_message r)
    (cn_metadata r) (cn_didcomm_version r) (cn_protocol r) (cn_created_at r) (cn_updated_at r) (cn_tags r).
Definition cn_with_settings (auto_accept : option bool) (image_url : option string) (r : ConnectionRecord) : ConnectionRecord :=
  mkConn (cn_id r) (cn_state r) (cn_role r) (cn_thread_id r) (cn_out_of_band_id r) (cn_did r) (cn_their_did r) (cn_their_authentication_key r)
    (cn_their_key_agreement_key r) (cn_our_label r) (cn_their_label r) (cn_previous_dids r) (cn_previous_their_dids r) auto_accept image_url
    (cn_error_message r) (cn_metadata r) (cn_didcomm_version r) (cn_protocol r) (cn_created_at r) (cn_updated_at r) (cn_tags r).
Definition cn_with_error (error : string) (r : ConnectionRecord) : ConnectionRecord :=
  mkConn (cn_id r) (cn_state r) (cn_role r) (cn_thread_id r) (cn_out_of_band_id r) (cn_did r) (cn_their_did r) (cn_their_authentication_key r)
    (cn_their_key_agreement_key r) (cn_our_label r) (cn_their_label r) (cn_previous_dids r) (cn_previous_their_dids r) (cn_auto_accept_connection r)
    (cn_image_url r) (Some error) (cn_metadata r) (cn_didcomm_version r) (cn_protocol r) (cn_created_at r) (cn_updated_at r) (cn_tags r).
Definition cn_with_metadata (metadata : option Json) (r : ConnectionRecord) : ConnectionRecord :=
  mkConn (cn_id r) (cn_state r) (cn_role r) (cn_thread_id r) (cn_out_of_band_id r) (cn_did r) (cn_their_did r) (cn_their_authentication_key r)
    (cn_their_key_agreement_key r) (cn_our_label r) (cn_their_label r) (cn_previous_dids r) (cn_previous_their_dids r) (cn_auto_accept_connection r)
    (cn_image_url r) (cn_error_message r) metadata (cn_didcomm_version r) (cn_protocol r) (cn_created_at r) (cn_updated_at r) (cn_tags r).
Definition cn_with_version (version : string) (r : ConnectionRecord) : ConnectionRecord :=
  mkConn (cn_id r) (cn_state r) (cn_role r) (cn_thread_id r) (cn_out_of_band_id r) (cn_did r) (cn_their_did r) (cn_their_authentication_key r)
    (cn_their_key_agreement_key r) (cn_our_label r) (cn_their_label r) (cn_previous_dids r) (cn_previous_their_dids r) (cn_auto_accept_connection r)
    (cn_image_url r) (cn_error_message r) (cn_metadata r) (Some version) (cn_protocol r) (cn_created_at r) (cn_updated_at r) (cn_tags r).


(** [src/protocols/connections/src/repository/connection_record.rs:150-193] ConnectionRecord::new *)
Definition cn_new `{UuidText} (role : DidExchangeRole) (state : DidExchangeState) (thread_id out_of_band_id did : string) (w : World)
    : ConnectionRecord * World :=
  let '(now, w) := utc_now w in
  let '(u, w) := uuid_new_v4 w in
  (mkConn (uuid_to_string u) state role thread_id out_of_band_id did None None None None None [] [] None None None None None
     "connections/1.0" now now (mkCnTags role state thread_id out_of_band_id did None), w).

(** [src/protocols/connections/src/repository/connection_record.rs:196-198] ConnectionRecord::is_v2 *)
Definition cn_is_v2 (self : ConnectionRecord) : bool := bool_decide (cn_didcomm_version self = Some "2").

(** [src/protocols/connections/src/repository/connection_record.rs:206-209] ConnectionRecord::set_metadata *)
Definition cn_set_metadata (metadata : Json) (now : Instant) (r : ConnectionRecord) : ConnectionRecord :=
  cn_touch now (cn_with_metadata (Some metadata) r).

(** [src/protocols/connections/src/repository/connection_record.rs:215-232] ConnectionRecord::update_metadata *)
Definition cn_update_metadata (new_metadata : Json) (now : Instant) (r : ConnectionRecord) : ConnectionRecord :=
  cn_touch now (cn_with_metadata (Some
    match cn_metadata r, new_metadata with
    | Some (JObject existing), JObject new => JObject (obj_insert_all new existing)
    | _, _ => new_metadata
    end) r).

(** [src/protocols/connections/src/repository/connection_record.rs:235-237] ConnectionRecord::get_metadata *)
Definition cn_get_metadata (self : ConnectionRecord) : option Json := cn_metadata self.

(** [src/protocols/connections/src/repository/connection_record.rs:240-243] ConnectionRecord::clear_metadata *)
Definition cn_clear_metadata (now : Instant) (r : ConnectionRecord) : ConnectionRecord := cn_touch now (cn_with_metadata None r).

(** [src/protocols/connections/src/repository/connection_record.rs:246-250] ConnectionRecord::update_state *)
Definition cn_update_state (new_state : DidExchangeState) (now : Instant) (r : ConnectionRecord) : ConnectionRecord :=
  cn_touch now (cn_with_state new_state r).

(** [src/protocols/connections/src/repository/connection_record.rs:253-257] ConnectionRecord::set_their_did *)
Definition cn_set_their_did (their_did : string) (now : Instant) (r : ConnectionRecord) : ConnectionRecord :=
  cn_touch now (cn_with_their_did their_did r).

(** [src/protocols/connections/src/repository/connection_record.rs:260-263] ConnectionRecord::set_their_authentication_key *)
Definition cn_set_their_authentication_key (key : string) (now : Instant) (r : ConnectionRecord) : ConnectionRecord :=
  cn_touch now (cn_with_authentication_key key r).

(** [src/protocols/connections/src/repository/connection_record.rs:266-269] ConnectionRecord::set_their_key_agreement_key *)
Definition cn_set_their_key_agreement_key (key : string) (now : Instant) (r : ConnectionRecord) : ConnectionRecord :=
  cn_touch now (cn_with_key_agreement_key key r).

(** [src/protocols/connections/src/repository/connection_record.rs:272-275] ConnectionRecord::set_their_label *)
Definition cn_set_their_label (label : string) (now : Instant) (r : ConnectionRecord) : ConnectionRecord :=
  cn_touch now (cn_with_labels (cn_our_label r) (Some label) r).

(** [src/protocols/connections/src/repository/connection_record.rs:278-281] ConnectionRecord::set_our_label *)
Definition cn_set_our_label (label : string) (now : Instant) (r : ConnectionRecord) : ConnectionRecord :=
  cn_touch now (cn_with_labels (Some label) (cn_their_label r) r).

(** [src/protocols/connections/src/repository/connection_record.rs:284-289] ConnectionRecord::rotate_did *)
Definition cn_rotate_did (new_did : string) (now : Instant) (r : ConnectionRecord) : ConnectionRecord :=
  let r := cn_with_previous (cn_previous_dids r ++ [cn_did r]) (cn_previous_their_dids r) r in
  cn_touch now (cn_with_tags (cnt_with_did new_did (cn_tags r)) (cn_with_did new_did r)).

(** [src/protocols/connections/src/repository/connection_record.rs:292-297] ConnectionRecord::rotate_their_did *)
Definition cn_rotate_their_did (new_did : string) (now : Instant) (r : ConnectionRecord) : ConnectionRecord :=
  cn_set_their_did new_did now
    (match cn_their_did r with
     | Some current => cn_with_previous (cn_previous_dids r) (cn_previous_their_dids r ++ [current]) r
     | None => r
     end).

(** [src/protocols/connections/src/repository/connection_record.rs:300-305] ConnectionRecord::set_error *)
Definition cn_set_error (error : string) (now : Instant) (r : ConnectionRecord) : ConnectionRecord :=
  cn_touch now (cn_with_state DxAbandoned (cn_with_error error r)).

(** [src/protocols/connections/src/repository/connection_record.rs:308-310] ConnectionRecord::is_completed *)
Definition cn_is_completed (self : ConnectionRecord) : bool := bool_decide (cn_state self = DxCompleted).

(** [src/protocols/connections/src/repository/connection_record.rs:313-315] ConnectionRecord::is_active *)
Definition cn_is_active (self : ConnectionRecord) : bool := dx_is_active (cn_state self).

(** [src/protocols/connections/src/repository/connection_record.rs:319-331] ConnectionRecordBuilder *)
Record ConnectionRecordBuilder := mkCnBuilder {
  cnb_role : DidExchangeRole;
  cnb_state : DidExchangeState;
  cnb_thread_id : string;
  cnb_out_of_band_id : string;
  cnb_did : string;
  cnb_their_did : option string;
  cnb_our_label : option string;
  cnb_their_label : option string;
  cnb_auto_accept_connection : option bool;
  cnb_image_url : option string;
  cnb_metadata : option Json
}.

(** [src/protocols/connections/src/repository/connection_record.rs:334-354] ConnectionRecordBuilder::new *)
Definition cnb_new (role : DidExchangeRole) (state : DidExchangeState) (thread_id out_of_band_id did : string) : ConnectionRecordBuilder :=
  mkCnBuilder role state thread_id out_of_band_id did None None None None None None.

(** [src/protocols/connections/src/repository/connection_record.rs:356-369] ConnectionRecordBuilder::their_did, our_label, their_label *)
Definition cnb_with_names (their_did our_label their_label : option string) (b : ConnectionRecordBuilder) : ConnectionRecordBuilder :=
  mkCnBuilder (cnb_role b) (cnb_state b) (cnb_thread_id b) (cnb_out_of_band_id b) (cnb_did b)
    (their_did ∪ cnb_their_did b) (our_label ∪ cnb_our_label b) (their_label ∪ cnb_their_label b)
    (cnb_auto_accept_connection b) (cnb_image_url b) (cnb_metadata b).

(** [src/protocols/connections/src/repository/connection_record.rs:371-384] ConnectionRecordBuilder::auto_accept_connection, image_url, metadata *)
Definition cnb_with_settings (auto_accept : option bool) (url : option string) (metadata : option Json) (b : ConnectionRecordBuilder)
    : ConnectionRecordBuilder :=
  mkCnBuilder (cnb_role b) (cnb_state b) (cnb_thread_id b) (cnb_out_of_band_id b) (cnb_did b) (cnb_their_did b) (cnb_our_label b)
    (cnb_their_label b) (auto_accept ∪ cnb_auto_accept_connection b) (url ∪ cnb_image_url b) (metadata ∪ cnb_metadata b).

(** A field that is given is set, at an instant of its own. *)
Definition cn_given {A} (set : A → Instant → ConnectionRecord → ConnectionRecord) (o : option A) (rw : ConnectionRecord * World)
    : ConnectionRecord * World :=
  match o with
  | Some a => let '(now, w) := utc_now rw.2 in (set a now rw.1, w)
  | None => rw
  end.

(** [src/protocols/connections/src/repository/connection_record.rs:386-409] ConnectionRecordBuilder::build *)
Definition cnb_build `{UuidText} (b : ConnectionRecordBuilder) (w : World) : ConnectionRecord * World :=
  let rw := cn_new (cnb_role b) (cnb_state b) (cnb_thread_id b) (cnb_out_of_band_id b) (cnb_did b) w in
  let rw := cn_given cn_set_their_did (cnb_their_did b) rw in
  let rw := cn_given cn_set_our_label (cnb_our_label b) rw in
  let '(record, w) := cn_given cn_set_their_label (cnb_their_label b) rw in
  (cn_with_metadata (cnb_metadata b) (cn_with_settings (cnb_auto_accept_connection b) (cnb_image_url b) record), w).

#[export] Instance conn_key : RecordKey ConnectionRecord ConnectionError :=
  {| rk_id := cn_id; rk_already := CeAlreadyExists; rk_not_found := CeNotFound |}.

(** * Messages *)

(** [src/protocols/connections/src/messages/request.rs:10-32] DidExchangeRequestMessage *)
Record DidExchangeRequestMessage := mkDxRequest {
  dxq_msg_type : string;
  dxq_id : string;
  dxq_label : string;
  dxq_did : string;
  dxq_thread : Thread;
  dxq_did_doc_attach : option Json
}.

(** [src/protocols/connections/src/messages/request.rs:36-36] DidExchangeRequestMessage::TYPE *)
Definition DX_REQUEST_TYPE : string := "https://didcomm.org/didexchange/1.1/request".

(** [src/protocols/connections/src/messages/request.rs:39-53] DidExchangeRequestMessage::new *)
Definition dxq_new `{UuidText} (label did parent_thread_id : string) (w : World) : DidExchangeRequestMessage * World :=
  let '(u1, w) := uuid_new_v4 w in
  let '(u2, w) := uuid_new_v4 w in
  (mkDxRequest DX_REQUEST_TYPE (uuid_to_string u1) label did
     (mkThread (Some (uuid_to_string u2)) (Some parent_thread_id) None None) None, w).

(** [src/protocols/connections/src/messages/request.rs:56-59] DidExchangeRequestMessage::with_id *)
Definition dxq_with_id (id : string) (m : DidExchangeRequestMessage) : DidExchangeRequestMessage :=
  mkDxRequest (dxq_msg_type m) id (dxq_label m) (dxq_did m) (dxq_thread m) (dxq_did_doc_attach m).

(** [src/protocols/connections/src/messages/request.rs:62-65] DidExchangeRequestMessage::with_did_doc_attach *)
Definition dxq_with_did_doc_attach (did_doc : Json) (m : DidExchangeRequestMessage) : DidExchangeRequestMessage :=
  mkDxRequest (dxq_msg_type m) (dxq_id m) (dxq_label m) (dxq_did m) (dxq_thread m) (Some did_doc).

(** [src/protocols/connections/src/messages/request.rs:68-70] DidExchangeRequestMessage::parent_thread_id *)
Definition dxq_parent_thread_id (self : DidExchangeRequestMessage) : option string := th_pthid (dxq_thread self).

(** [src/protocols/connections/src/messages/request.rs:75-77] DidExchangeRequestMessage::thread_id *)
Definition dxq_thread_id (self : DidExchangeRequestMessage) : string := default (dxq_id self) (th_thid (dxq_thread self)).

(** [src/protocols/connections/src/messages/response.rs:10-33] DidExchangeResponseMessage *)
Record DidExchangeResponseMessage := mkDxResponse {
  dxp_msg_type : string;
  dxp_id : string;
  dxp_did : string;
  dxp_thread : Thread;
  dxp_did_doc_attach : option Json;
  dxp_did_rotate_attach : option Json
}.

(** [src/protocols/connections/src/messages/response.rs:37-37] DidExchangeResponseMessage::TYPE *)
Definition DX_RESPONSE_TYPE : string := "https://didcomm.org/didexchange/1.1/response".

(** [src/protocols/connections/src/messages/response.rs:40-54] DidExchangeResponseMessage::new *)
Definition dxp_new `{UuidText} (did request_thread_id : string) (w : World) : DidExchangeResponseMessage * World :=
  let '(u, w) := uuid_new_v4 w in
  (mkDxResponse DX_RESPONSE_TYPE (uuid_to_string u) did (thread_of request_thread_id) None None, w).

(** [src/protocols/connections/src/messages/response.rs:57-60] DidExchangeResponseMessage::with_id *)
Definition dxp_with_id (id : string) (m : DidExchangeResponseMessage) : DidExchangeResponseMessage :=
  mkDxResponse (dxp_msg_type m) id (dxp_did m) (dxp_thread m) (dxp_did_doc_attach m) (dxp_did_rotate_attach m).

(** [src/protocols/connections/src/messages/response.rs:63-66] DidExchangeResponseMessage::with_did_doc_attach *)
Definition dxp_with_did_doc_attach (did_doc : Json) (m : DidExchangeResponseMessage) : DidExchangeResponseMessage :=
  mkDxResponse (dxp_msg_type m) (dxp_id m) (dxp_did m) (dxp_thread m) (Some did_doc) (dxp_did_rotate_attach m).

(** [src/protocols/connections/src/messages/response.rs:69-72] DidExchangeResponseMessage::with_did_rotate_attach *)
Definition dxp_with_did_rotate_attach (did_rotate : Json) (m : DidExchangeResponseMessage) : DidExchangeResponseMessage :=
  mkDxResponse (dxp_msg_type m) (dxp_id m) (dxp_did m) (dxp_thread m) (dxp_did_doc_attach m) (Some did_rotate).

(** [response_msg.did = did]. *)
Definition dxp_with_did (did : string) (m : DidExchangeResponseMessage) : DidExchangeResponseMessage :=
  mkDxResponse (dxp_msg_type m) (dxp_id m) did (dxp_thread m) (dxp_did_doc_attach m) (dxp_did_rotate_attach m).

(** [src/protocols/connections/src/messages/response.rs:77-79] DidExchangeResponseMessage::thread_id *)
Definition dxp_thread_id (self : DidExchangeResponseMessage) : string := default (dxp_id self) (th_thid (dxp_thread self)).

(** [src/protocols/connections/src/messages/complete.rs:9-21] DidExchangeCompleteMessage *)
Record DidExchangeCompleteMessage := mkDxComplete {
  dxc_msg_type : string;
  dxc_id : string;
  dxc_thread : Thread
}.

(** [src/protocols/connections/src/messages/complete.rs:25-25] DidExchangeCompleteMessage::TYPE *)
Definition DX_COMPLETE_TYPE : string := "https://didcomm.org/didexchange/1.1/complete".

(** [src/protocols/connections/src/messages/complete.rs:32-43] DidExchangeCompleteMessage::new *)
Definition dxc_new `{UuidText} (request_thread_id parent_thread_id : string) (w : World) : DidExchangeCompleteMessage * World :=
  let '(u, w) := uuid_new_v4 w in
  (mkDxComplete DX_COMPLETE_TYPE (uuid_to_string u) (mkThread (Some request_thread_id) (Some parent_thread_id) None None), w).

(** [src/protocols/connections/src/messages/complete.rs:46-49] DidExchangeCompleteMessage::with_id *)
Definition dxc_with_id (id : string) (m : DidExchangeCompleteMessage) : DidExchangeCompleteMessage :=
  mkDxComplete (dxc_msg_type m) id (dxc_thread m).

(** [src/protocols/connections/src/messages/complete.rs:54-56] DidExchangeCompleteMessage::thread_id *)
Definition dxc_thread_id (self : DidExchangeCompleteMessage) : string := default (dxc_id self) (th_thid (dxc_thread self)).

(** [src/protocols/connections/src/messages/complete.rs:59-61] DidExchangeCompleteMessage::parent_thread_id *)
Definition dxc_parent_thread_id (self : DidExchangeCompleteMessage) : option string := th_pthid (dxc_thread self).

(** [src/protocols/connections/src/events.rs:32-39] ConnectionStateChangedPayload *)
Record ConnectionStateChangedPayload := mkConnChanged {
  cnp_connection_record : ConnectionRecord;
  cnp_previous_state : option DidExchangeState
}.

(** * Finders *)

Section finders.
Context {RS : Type} `{!ExchangeRepo RS ConnectionRecord ConnectionError}.
Abbreviation crep := (eff ConnectionError RS).

(** [src/protocols/connections/src/repository/connection_repository.rs:122-128] ConnectionRepository::find_by_thread_id *)
Definition cn_find_by_thread_id (thread_id : string) : crep (option ConnectionRecord) :=
  er_find (λ r, bool_decide (cnt_thread_id (cn_tags r) = thread_id)).

(** [src/protocols/connections/src/repository/connection_repository.rs:130-140] ConnectionRepository::find_by_role_and_thread_id *)
Definition cn_find_by_role_and_thread_id (role : DidExchangeRole) (thread_id : string) : crep (option ConnectionRecord) :=
  er_find (λ r, bool_decide (cnt_role (cn_tags r) = role ∧ cnt_thread_id (cn_tags r) = thread_id)).

(** [src/protocols/connections/src/repository/connection_repository.rs:142-149] ConnectionRepository::find_by_out_of_band_id *)
Definition cn_find_by_out_of_band_id (oob_id : string) : crep (list ConnectionRecord) :=
  er_filter (λ r, bool_decide (cnt_out_of_band_id (cn_tags r) = oob_id)).

(** [src/protocols/connections/src/repository/connection_repository.rs:151-158] ConnectionRepository::find_by_did *)
Definition cn_find_by_did (did : string) : crep (list ConnectionRecord) :=
  er_filter (λ r, bool_decide (cnt_did (cn_tags r) = did)).

(** [src/protocols/connections/src/repository/connection_repository.rs:160-167] ConnectionRepository::find_by_their_did *)
Definition cn_find_by_their_did (their_did : string) : crep (list ConnectionRecord) :=
  er_filter (λ r, bool_decide (cnt_their_did (cn_tags r) = Some their_did)).

(** [src/protocols/connections/src/repository/connection_repository.rs:169-176] ConnectionRepository::find_by_state *)
Definition cn_find_by_state (state : DidExchangeState) : crep (list ConnectionRecord) :=
  er_filter (λ r, bool_decide (cnt_state (cn_tags r) = state)).

(** [src/protocols/connections/src/repository/connection_repository.rs:178-185] ConnectionRepository::find_by_role *)
Definition cn_find_by_role (role : DidExchangeRole) : crep (list ConnectionRecord) :=
  er_filter (λ r, bool_decide (cnt_role (cn_tags r) = role)).

(** [src/protocols/connections/src/repository/connection_repository.rs:187-189] ConnectionRepository::find_all_completed *)
Definition cn_find_all_completed : crep (list ConnectionRecord) := cn_find_by_state DxCompleted.

(** [src/protocols/connections/src/repository/connection_repository.rs:57-63] ConnectionRepositoryTrait::find_by_auth_key *)
Definition cn_find_by_auth_key (key : string) : crep (option ConnectionRecord) :=
  all ← er_get_all; mret (find_first (λ r, bool_decide (cn_their_authentication_key r = Some key) = true) all).

(** [src/protocols/connections/src/repository/connection_repository.rs:66-71] ConnectionRepositoryTrait::find_by_ka_key *)
Definition cn_find_by_ka_key (key : string) : crep (option ConnectionRecord) :=
  all ← er_get_all; mret (find_first (λ r, bool_decide (cn_their_key_agreement_key r = Some key) = true) all).
End finders.

(** * The service *)

(** [src/protocols/connections/src/services/connection_service.rs:17-30] ConnectionService *)
Record ConnectionService (RS : Type) := mkConnService {
  cns_repository : RS;
  cns_woken : nat;
  cns_event_bus : option (list ConnectionStateChangedPayload)
}.
Arguments mkConnService {RS}.
Arguments cns_repository {RS}.
Arguments cns_woken {RS}.
Arguments cns_event_bus {RS}.

#[export] Instance conn_service_repo {RS} : HasRepo (ConnectionService RS) RS := {|
  repo_of := cns_repository; with_repo r s := mkConnService r (cns_woken s) (cns_event_bus s); repo_of_with _ _ := eq_refl
|}.

Section service.
Context `{UuidText} {RS : Type} `{!ExchangeRepo RS ConnectionRecord ConnectionError}.
Abbreviation CNS := (ConnectionService RS).
Abbreviation cns := (eff ConnectionError CNS).

(** [src/protocols/connections/src/services/connection_service.rs:33-42] ConnectionService::new *)
Definition cns_new (repository : RS) : CNS := mkConnService repository 0 None.

(** [src/protocols/connections/src/services/connection_service.rs:67-75] ConnectionService::with_event_bus *)
Definition cns_with_event_bus (s : CNS) : CNS := mkConnService (cns_repository s) (cns_woken s) (Some []).

(** [src/protocols/connections/src/services/connection_service.rs:61-63] ConnectionService::wake_waiters *)
Definition wake_waiters : cns unit := eff_modify (λ s, mkConnService (cns_repository s) (S (cns_woken s)) (cns_event_bus s)).

(** [src/protocols/connections/src/services/connection_service.rs:86-109] ConnectionService::emit_state_changed *)
Definition emit_conn_changed (record : ConnectionRecord) (previous_state : option DidExchangeState) : cns unit :=
  eff_modify (λ s, mkConnService (cns_repository s) (cns_woken s) ((λ bus, bus ++ [mkConnChanged record previous_state]) <$> cns_event_bus s)).

(** A setter that reads the clock, and one for a field that may be given. *)
Definition cn_stamped (f : Instant → ConnectionRecord → ConnectionRecord) (r : ConnectionRecord) : cns ConnectionRecord :=
  now ← eff_world utc_now; mret (f now r).
Definition cn_set_given {A} (set : A → Instant → ConnectionRecord → ConnectionRecord) (o : option A) (r : ConnectionRecord) : cns ConnectionRecord :=
  match o with Some a => cn_stamped (set a) r | None => mret r end.

(** A record is written, the waiters are woken, the change is announced. *)
Definition open_connection (record : ConnectionRecord) (previous_state : option DidExchangeState) : cns unit :=
  _ ← on_records (er_save record); _ ← wake_waiters; emit_conn_changed record previous_state.
Definition put_connection (record : ConnectionRecord) (previous_state : DidExchangeState) : cns unit :=
  _ ← on_records (er_update record); _ ← wake_waiters; emit_conn_changed record (Some previous_state).

(** The record of an id or of a thread; its state and its role as required. *)
Definition the_connection (connection_id : string) : cns ConnectionRecord :=
  o ← on_records (er_find_by_id connection_id);
  match o with Some r => mret r | None => eff_throw (CeNotFound connection_id) end.
Definition the_thread (role : DidExchangeRole) (thread_id : string) : cns ConnectionRecord :=
  o ← on_records (cn_find_by_role_and_thread_id role thread_id);
  match o with Some r => mret r | None => eff_throw (CeNotFound ("thread_id: " +:+ thread_id +:+ " (" +:+ dxr_to_string role +:+ ")")) end.
Definition in_state (state : DidExchangeState) (r : ConnectionRecord) : cns unit :=
  if decide (cn_state r = state) then mret tt else eff_throw (CeInvalidState [state] (cn_state r)).
Definition in_role (role : DidExchangeRole) (r : ConnectionRecord) : cns unit :=
  if decide (cn_role r = role) then mret tt else eff_throw (CeInvalidRole role (cn_role r)).

(** The parent thread of a message is the invitation. *)
Definition under_invitation (parent_thread_id : option string) (invitation_id : string) : cns unit :=
  match parent_thread_id with
  | None => eff_throw CeMissingParentThreadId
  | Some p => if decide (p = invitation_id) then mret tt
              else eff_throw (CeProtocol ("Parent thread ID mismatch: expected " +:+ invitation_id +:+ ", got " +:+ p))
  end.

(** [src/protocols/connections/src/services/connection_service.rs:114-162] ConnectionService::create_request *)
Definition cns_create_request (oob_record : OutOfBandRecord) (our_did : string) (our_label : option string)
    : cns (ConnectionRecord * DidExchangeRequestMessage) :=
  let invitation := ob_invitation oob_record in
  thread_id ← new_id;
  record ← eff_world (cnb_build (cnb_new DxRequester DxInvitationReceived thread_id (inv_id invitation) our_did));
  record ← cn_set_given cn_set_our_label our_label record;
  record ← cn_set_given cn_set_their_label (inv_label invitation) record;
  request ← eff_world (dxq_new (default "Agent" our_label) our_did (inv_id invitation));
  record ← cn_stamped (cn_update_state DxRequestSent) (cn_with_thread_id (dxq_thread_id request) record);
  _ ← open_connection record (Some DxInvitationReceived);
  mret (record, request).

(** [src/protocols/connections/src/services/connection_service.rs:170-247] ConnectionService::process_request *)
Definition cns_process_request (request : DidExchangeRequestMessage) (oob_record : OutOfBandRecord) (our_did : string)
    (their_authentication_key their_key_agreement_key : option string) : cns ConnectionRecord :=
  let invitation := ob_invitation oob_record in
  _ ← under_invitation (dxq_parent_thread_id request) (inv_id invitation);
  found ← eff_catch (on_records (cn_find_by_role_and_thread_id DxResponder (dxq_thread_id request)));
  match found with
  | inr (Some existing) => mret existing
  | _ =>
      record ← eff_world (cnb_build (cnb_with_names (Some (dxq_did request)) None (Some (dxq_label request))
                 (cnb_new DxResponder DxRequestReceived (dxq_thread_id request) (inv_id invitation) our_did)));
      record ← cn_set_given cn_set_our_label (inv_label invitation) record;
      record ← cn_set_given cn_set_their_authentication_key their_authentication_key record;
      record ← cn_set_given cn_set_their_key_agreement_key their_key_agreement_key record;
      _ ← open_connection record None;
      mret record
  end.

(** [src/protocols/connections/src/services/connection_service.rs:252-302] ConnectionService::create_response *)
Definition cns_create_response (connection_id : string) : cns (ConnectionRecord * DidExchangeResponseMessage) :=
  record ← the_connection connection_id;
  _ ← in_state DxRequestReceived record;
  _ ← in_role DxResponder record;
  response ← eff_world (dxp_new (cn_did record) (cn_thread_id record));
  record ← cn_stamped (cn_update_state DxResponseSent) record;
  _ ← put_connection record DxRequestReceived;
  mret (record, response).

(** [src/protocols/connections/src/services/connection_service.rs:307-355] ConnectionService::process_response *)
Definition cns_process_response (response : DidExchangeResponseMessage) (their_authentication_key their_key_agreement_key : option string)
    : cns ConnectionRecord :=
  record ← the_thread DxRequester (dxp_thread_id response);
  _ ← in_state DxRequestSent record;
  record ← cn_stamped (cn_set_their_did (dxp_did response)) record;
  let record := given cn_with_authentication_key their_authentication_key record in
  let record := given cn_with_key_agreement_key their_key_agreement_key record in
  record ← cn_stamped (cn_update_state DxResponseReceived) record;
  _ ← put_connection record DxRequestSent;
  mret record.

(** [src/protocols/connections/src/services/connection_service.rs:360-412] ConnectionService::create_complete *)
Definition cns_create_complete (connection_id : string) : cns (ConnectionRecord * DidExchangeCompleteMessage) :=
  record ← the_connection connection_id;
  _ ← in_role DxRequester record;
  _ ← in_state DxResponseReceived record;
  complete ← eff_world (dxc_new (cn_thread_id record) (cn_out_of_band_id record));
  record ← cn_stamped (cn_update_state DxCompleted) record;
  _ ← put_connection record DxResponseReceived;
  mret (record, complete).

(** [src/protocols/connections/src/services/connection_service.rs:417-464] ConnectionService::process_complete *)
Definition cns_process_complete (complete : DidExchangeCompleteMessage) : cns ConnectionRecord :=
  record ← the_thread DxResponder (dxc_thread_id complete);
  _ ← in_state DxResponseSent record;
  _ ← under_invitation (dxc_parent_thread_id complete) (cn_out_of_band_id record);
  record ← cn_stamped (cn_update_state DxCompleted) record;
  _ ← put_connection record DxResponseSent;
  mret record.

(** [src/protocols/connections/src/services/connection_service.rs:467-469] ConnectionService::get_by_id *)
Definition cns_get_by_id (id : string) : cns (option ConnectionRecord) := on_records (er_find_by_id id).

(** [src/protocols/connections/src/services/connection_service.rs:472-476] ConnectionService::update *)
Definition cns_update (record : ConnectionRecord) : cns unit := _ ← on_records (er_update record); wake_waiters.

(** [src/protocols/connections/src/services/connection_service.rs:479-481] ConnectionService::get_by_thread_id *)
Definition cns_get_by_thread_id (thread_id : string) : cns (option ConnectionRecord) := on_records (cn_find_by_thread_id thread_id).

(** [src/protocols/connections/src/services/connection_service.rs:484-486] ConnectionService::get_all_completed *)
Definition cns_get_all_completed : cns (list ConnectionRecord) := on_records cn_find_all_completed.

(** [src/protocols/connections/src/services/connection_service.rs:489-491] ConnectionService::get_all *)
Definition cns_get_all : cns (list ConnectionRecord) := on_records er_get_all.

(** [src/protocols/connections/src/services/connection_service.rs:494-496] ConnectionService::delete *)
Definition cns_delete (id : string) : cns unit := on_records (er_delete id).

(** ** The module of an agent *)

(** A call of the service by the module, whose error is its text. *)
Definition module_call {A} (m : cns A) : eff string CNS A := eff_zoom id (λ s _, s) cne_to_string m.
Definition module_connection (connection_id : string) : eff string CNS ConnectionRecord :=
  o ← module_call (cns_get_by_id connection_id);
  match o with Some c => mret c | None => eff_throw ("Connection not found: " +:+ connection_id) end.
Definition write_metadata (f : Instant → ConnectionRecord → ConnectionRecord) (connection_id : string) : eff string CNS unit :=
  connection ← module_connection connection_id;
  now ← eff_world utc_now;
  module_call (cns_update (f now connection)).

(** [src/agent/src/modules/connections.rs:245-250] ConnectionsModule::is_connected *)
Definition is_connected (connection_id : string) : eff string CNS bool :=
  o ← module_call (cns_get_by_id connection_id);
  mret (match o with Some record => cn_is_completed record | None => false end).

(** [src/agent/src/modules/connections.rs:305-323] ConnectionsModule::set_connection_metadata *)
Definition set_connection_metadata (connection_id : string) (metadata : Json) : eff string CNS unit :=
  write_metadata (cn_set_metadata metadata) connection_id.

(** [src/agent/src/modules/connections.rs:345-363] ConnectionsModule::update_connection_metadata *)
Definition update_connection_metadata (connection_id : string) (metadata : Json) : eff string CNS unit :=
  write_metadata (cn_update_metadata metadata) connection_id.

(** [src/agent/src/modules/connections.rs:372-385] ConnectionsModule::get_connection_metadata *)
Definition get_connection_metadata (connection_id : string) : eff string CNS (option Json) :=
  connection ← module_connection connection_id; mret (cn_get_metadata connection).

(** [src/agent/src/modules/connections.rs:391-405] ConnectionsModule::clear_connection_metadata *)
Definition clear_connection_metadata (connection_id : string) : eff string CNS unit := write_metadata cn_clear_metadata connection_id.

(** [src/agent/src/modules/connections.rs:427-437] ConnectionsModule::query_by_metadata *)
Definition query_by_metadata (predicate : Json → bool) : eff string CNS (list ConnectionRecord) :=
  all_connections ← module_call cns_get_all;
  mret (filter (λ c, from_option predicate false (cn_get_metadata c) = true) all_connections).
End service.
