(* ===== verification/ConnStore.v ===== *)
(** The storage-backed repository of connections
    ([src/protocols/connections/src/repository/storage_backed_repository.rs]): the write-through
    repository of [RecordRepo] with three indexes, and with the migrations of its load.

    Records come back from the storage with their tags rebuilt from their fields and migrated;
    a search by a key of the other side goes through an index.  The repository keeps the laws of
    the interface, so what the service and its handlers promise holds over it. *)
From Stdlib Require Import Ascii.
From S2P Require Import Prelude AjnaTypes StdText SerdeJson Storage RecordRepo Oob Connections.

(** * What comes back *)

(** The tags of a record as they are rebuilt. *)
Definition cn_retag (r : ConnectionRecord) : ConnectionRecord :=
  cn_with_tags (mkCnTags (cn_role r) (cn_state r) (cn_thread_id r) (cn_out_of_band_id r) (cn_did r) (cn_their_did r)) r.

(** [src/protocols/connections/src/repository/storage_backed_repository.rs:110-126] StorageBackedConnectionRepository::ensure_cache (migration 1) *)
Definition cn_strip_fragment (r : ConnectionRecord) : ConnectionRecord :=
  match d ← cn_their_did r; str_split_once "#"%char d with
  | Some (clean_did, _) => cn_with_their_did clean_did r
  | None => r
  end.

(** [src/protocols/connections/src/repository/storage_backed_repository.rs:128-141] StorageBackedConnectionRepository::ensure_cache (migration 2) *)
Definition cn_complete_validator (r : ConnectionRecord) : ConnectionRecord :=
  if str_starts_with (cn_id r) "validator-" && negb (bool_decide (cn_state r = DxCompleted)) then cn_with_state DxCompleted r else r.

(** [src/protocols/connections/src/repository/storage_backed_repository.rs:97-147] StorageBackedConnectionRepository::ensure_cache (a record that is read) *)
Definition cn_loaded (conn : ConnectionRecord) : ConnectionRecord := cn_complete_validator (cn_strip_fragment (cn_retag conn)).

(** [serde] leaves the tags out, and a metadata of [null] is none. *)
Definition not_null (o : option Json) : option Json := match o with Some JNull => None | _ => o end.
Definition cn_saved (r : ConnectionRecord) : ConnectionRecord := cn_with_tags cnt_default (cn_with_metadata (not_null (cn_metadata r)) r).
Class ConnSerdeLaws `{Serde ConnectionRecord} : Prop := {
  cn_text_back x s : sd_to_text x = Ok s → sd_from_text s = Ok (cn_saved x);
  cn_text_read s x : sd_from_text s = Ok x → not_null (cn_metadata x) = cn_metadata x
}.

(** [src/protocols/connections/src/repository/storage_backed_repository.rs:191-206] StorageBackedConnectionRepository::to_storage_record (the tags) *)
Definition cn_storage_tags (conn : ConnectionRecord) : gmap string string :=
  let tags := <["thread_id" := cn_thread_id conn]> (<["state" := dx_debug (cn_state conn)]> (<["role" := dxr_debug (cn_role conn)]>
                (<["did" := cn_did conn]> (<["out_of_band_id" := cn_out_of_band_id conn]> ∅)))) in
  let tags := given (λ d, <["their_did" := d]>) (cn_their_did conn) tags in
  let tags := given (λ k, <["their_auth_key" := k]>) (cn_their_authentication_key conn) tags in
  given (λ k, <["their_ka_key" := k]>) (cn_their_key_agreement_key conn) tags.

(** [src/protocols/connections/src/repository/storage_backed_repository.rs:17-17] CONNECTION_CATEGORY *)
Definition CONNECTION_CATEGORY : string := "connection".

(** [src/protocols/connections/src/repository/storage_backed_repository.rs:186-214] StorageBackedConnectionRepository::to_storage_record (the kind of record) *)
#[export] Instance conn_kind `{Serde ConnectionRecord} : RecordKind ConnectionRecord ConnectionError := {|
  rk_key := conn_key;
  rk_category := CONNECTION_CATEGORY;
  rk_tags := cn_storage_tags;
  rk_encode r := match sd_to_text r with Ok s => Ok s | Err e => Err (CeStorage ("Failed to serialize connection: " +:+ e)) | Panic => Panic end;
  rk_decode s := match sd_from_text s with Ok r => Some (cn_loaded r) | _ => None end;
  rk_load_failed e := CeStorage ("Failed to load connections: " +:+ ag_to_string e);
  rk_save_failed e := CeStorage ("Failed to save connection: " +:+ ag_to_string e);
  rk_update_failed e := CeStorage ("Failed to update connection: " +:+ ag_to_string e);
  rk_delete_failed e := CeStorage ("Failed to delete connection: " +:+ ag_to_string e)
|}.

(** * The repository *)

(** The three indexes: by the authentication key of the other side, by its key agreement key,
    and by its DID. *)
Record ConnIndexes := mkCnIndexes {
  ci_auth_key : gmap string string;
  ci_ka_key : gmap string string;
  ci_their_did : gmap string string
}.

(** [src/protocols/connections/src/repository/storage_backed_repository.rs:26-37] StorageBackedConnectionRepository *)
Record StorageBackedConnections (ST : Type) := mkSbc {
  sbc_records : StorageBacked ST ConnectionRecord;
  sbc_indexes : ConnIndexes
}.
Arguments mkSbc {ST}.
Arguments sbc_records {ST}.
Arguments sbc_indexes {ST}.

(** [src/protocols/connections/src/repository/storage_backed_repository.rs:52-67] StorageBackedConnectionRepository::index_record *)
Definition index_record (idx : ConnIndexes) (record : ConnectionRecord) : ConnIndexes :=
  mkCnIndexes (given (λ k, <[k := cn_id record]>) (cn_their_authentication_key record) (ci_auth_key idx))
              (given (λ k, <[k := cn_id record]>) (cn_their_key_agreement_key record) (ci_ka_key idx))
              (given (λ d, <[d := cn_id record]>) (cn_their_did record) (ci_their_did idx)).

Section repository.
Context `{HashOrder} {ST : Type} `{StorageProvider ST} `{Serde ConnectionRecord}.
Abbreviation SBC := (StorageBackedConnections ST).
Abbreviation sbc := (eff ConnectionError SBC).

(** [src/protocols/connections/src/repository/storage_backed_repository.rs:41-49] StorageBackedConnectionRepository::new *)
Definition sbc_new (storage : ST) : SBC := mkSbc (sb_new storage) (mkCnIndexes ∅ ∅ ∅).

Definition sbc_on {A} (m : eff ConnectionError (StorageBacked ST ConnectionRecord) A) : sbc A :=
  eff_zoom sbc_records (λ r s, mkSbc r (sbc_indexes s)) id m.
Definition sbc_cached (s : SBC) : gmap string ConnectionRecord := default ∅ (sb_cache (sbc_records s)).
Definition sbc_index (record : ConnectionRecord) : sbc unit := eff_modify (λ s, mkSbc (sbc_records s) (index_record (sbc_indexes s) record)).

(** [src/protocols/connections/src/repository/storage_backed_repository.rs:70-173] StorageBackedConnectionRepository::ensure_cache *)
Definition sbc_ensure_cache : sbc unit :=
  s ← eff_get;
  match sb_cache (sbc_records s) with
  | Some _ => mret tt
  | None =>
      _ ← sbc_on sb_ensure_cache;
      eff_modify (λ s, mkSbc (sbc_records s) (foldl index_record (mkCnIndexes ∅ ∅ ∅) (repo_record_values (sbc_cached s))))
  end.

(** A call of the write-through repository. *)
Definition sbc_call {A} (m : eff ConnectionError (StorageBacked ST ConnectionRecord) A) : sbc A := _ ← sbc_ensure_cache; sbc_on m.

(** [src/protocols/connections/src/repository/storage_backed_repository.rs:219-251] StorageBackedConnectionRepository::save *)
Definition sbc_save (record : ConnectionRecord) : sbc unit := _ ← sbc_call (sb_save record); sbc_index record.

(** [src/protocols/connections/src/repository/storage_backed_repository.rs:253-285] StorageBackedConnectionRepository::update *)
Definition sbc_update (record : ConnectionRecord) : sbc unit := _ ← sbc_call (sb_update record); sbc_index record.

(** [src/protocols/connections/src/repository/storage_backed_repository.rs:287-289] StorageBackedConnectionRepository::find_by_id *)
Definition sbc_find_by_id (id : string) : sbc (option ConnectionRecord) := sbc_call (sb_find_by_id id).

(** [src/protocols/connections/src/repository/storage_backed_repository.rs:291-313] StorageBackedConnectionRepository::find_by_thread_id, find_by_role_and_thread_id (the search) *)
Definition sbc_find (p : ConnectionRecord → bool) : sbc (option ConnectionRecord) := sbc_call (sb_find p).

(** [src/protocols/connections/src/repository/storage_backed_repository.rs:315-370] StorageBackedConnectionRepository::find_by_out_of_band_id, find_by_did, find_by_state, find_by_role (the filter) *)
Definition sbc_filter (p : ConnectionRecord → bool) : sbc (list ConnectionRecord) := sbc_call (sb_filter p).

(** [src/protocols/connections/src/repository/storage_backed_repository.rs:397-419] StorageBackedConnectionRepository::delete *)
Definition sbc_delete (id : string) : sbc unit := sbc_call (sb_delete id).

(** [src/protocols/connections/src/repository/storage_backed_repository.rs:421-424] StorageBackedConnectionRepository::get_all *)
Definition sbc_get_all : sbc (list ConnectionRecord) := sbc_call sb_get_all.

#[export] Instance stored_connections : ExchangeRepo SBC ConnectionRecord ConnectionError := {|
  er_save := sbc_save; er_update := sbc_update; er_find_by_id := sbc_find_by_id; er_find := sbc_find;
  er_filter := sbc_filter; er_delete := sbc_delete; er_get_all := sbc_get_all
|}.

(** [src/protocols/connections/src/repository/storage_backed_repository.rs:337-348] StorageBackedConnectionRepository::find_by_their_did *)
Definition sbc_find_by_their_did (their_did : string) : sbc (list ConnectionRecord) :=
  _ ← sbc_ensure_cache;
  eff_gets (λ s, match ci_their_did (sbc_indexes s) !! their_did ≫= (sbc_cached s !!.) with Some record => [record] | None => [] end).

(** A search by a key: in its index, and after a miss in the storage, by a tag. *)
Definition sbc_find_by_key (index : ConnIndexes → gmap string string) (tag what key : string) : sbc (option ConnectionRecord) :=
  _ ← sbc_ensure_cache;
  conn_id ← eff_gets (λ s, index (sbc_indexes s) !! key);
  match conn_id with
  | Some id => eff_gets (λ s, sbc_cached s !! id)
  | None =>
      records ← sbc_on (sb_on_storage (λ e, CeStorage ("Failed to query by " +:+ what +:+ " key: " +:+ ag_to_string e))
                          (st_find_all CONNECTION_CATEGORY (q_with_tag q_new tag key)));
      match head records with
      | Some record =>
          conn ← eff_lift (match sd_from_text (rec_value record) with
                           | Ok conn => Ok conn | Err e => Err (CeStorage ("Failed to deserialize: " +:+ e)) | Panic => Panic end);
          _ ← sbc_index conn;
          mret (Some conn)
      | None => mret None
      end
  end.

(** [src/protocols/connections/src/repository/storage_backed_repository.rs:427-454] StorageBackedConnectionRepository::find_by_auth_key *)
Definition sbc_find_by_auth_key : string → sbc (option ConnectionRecord) := sbc_find_by_key ci_auth_key "their_auth_key" "auth".

(** [src/protocols/connections/src/repository/storage_backed_repository.rs:457-481] StorageBackedConnectionRepository::find_by_ka_key *)
Definition sbc_find_by_ka_key : string → sbc (option ConnectionRecord) := sbc_find_by_key ci_ka_key "their_ka_key" "KA".
End repository.

(** * Records come back as they should *)

Lemma strip_fragment_tagged r : cn_retag (cn_strip_fragment (cn_retag r)) = cn_strip_fragment (cn_retag r).
Proof. unfold cn_strip_fragment. cbn. destruct (cn_their_did r) as [d|]; cbn; [|done]. by destruct (str_split_once _ d) as [[c ?]|]. Qed.
Lemma complete_validator_tagged r : cn_retag r = r → cn_retag (cn_complete_validator r) = cn_complete_validator r.
Proof. intros Hr. unfold cn_complete_validator. destruct (_ && _); [|done]. rewrite <-Hr at 2. done. Qed.
Lemma cn_loaded_tagged r : cn_retag (cn_loaded r) = cn_loaded r.
Proof. apply complete_validator_tagged, strip_fragment_tagged. Qed.

Lemma strip_fragment_idem r : cn_strip_fragment (cn_strip_fragment r) = cn_strip_fragment r.
Proof.
  unfold cn_strip_fragment at 2 3. destruct (cn_their_did r) as [d|] eqn:Hd; cbn [mbind option_bind].
  - destruct (str_split_once "#"%char d) as [[c rest]|] eqn:Hs.
    + unfold cn_strip_fragment. cbn. apply str_split_once_Some in Hs as [_ Hc]. by rewrite str_split_once_none.
    + unfold cn_strip_fragment. by rewrite Hd; cbn; rewrite Hs.
  - unfold cn_strip_fragment. by rewrite Hd.
Qed.
Lemma strip_validator r : cn_strip_fragment (cn_complete_validator r) = cn_complete_validator (cn_strip_fragment r).
Proof.
  unfold cn_strip_fragment, cn_complete_validator. destruct (cn_their_did r) as [d|] eqn:Hd; cbn [mbind option_bind].
  - destruct (str_split_once "#"%char d) as [[c rest]|] eqn:Hs; cbn; destruct (_ && _); cbn; rewrite ?Hd; cbn; by rewrite ?Hs.
  - destruct (_ && _); cbn; by rewrite Hd.
Qed.
Lemma complete_validator_idem r : cn_complete_validator (cn_complete_validator r) = cn_complete_validator r.
Proof.
  unfold cn_complete_validator at 2 3. destruct (str_starts_with (cn_id r) "validator-" && negb (bool_decide (cn_state r = DxCompleted))) eqn:Hc.
  - unfold cn_complete_validator. cbn. by rewrite bool_decide_eq_true_2, andb_false_r.
  - unfold cn_complete_validator. by rewrite Hc.
Qed.
Lemma cn_loaded_idem r : cn_loaded (cn_loaded r) = cn_loaded r.
Proof.
  unfold cn_loaded at 1. rewrite cn_loaded_tagged. unfold cn_loaded. by rewrite strip_validator, strip_fragment_idem, complete_validator_idem.
Qed.
Lemma cn_loaded_metadata r : cn_metadata (cn_loaded r) = cn_metadata r.
Proof.
  unfold cn_loaded, cn_complete_validator, cn_strip_fragment. destruct (cn_their_did (cn_retag r)) as [d|]; cbn [mbind option_bind].
  - destruct (str_split_once _ d) as [[c rest]|]; by destruct (_ && _).
  - by destruct (_ && _).
Qed.
Lemma cn_loaded_id r : cn_id (cn_loaded r) = cn_id r.
Proof.
  unfold cn_loaded, cn_complete_validator, cn_strip_fragment. destruct (cn_their_did (cn_retag r)) as [d|]; cbn [mbind option_bind].
  - destruct (str_split_once _ d) as [[c rest]|]; by destruct (_ && _).
  - by destruct (_ && _).
Qed.

Lemma cn_loaded_saved r : not_null (cn_metadata r) = cn_metadata r → cn_loaded (cn_saved r) = cn_loaded r.
Proof. intros Hm. unfold cn_loaded. f_equal. f_equal. unfold cn_retag, cn_saved. cbn. rewrite Hm. by destruct r. Qed.
#[export] Instance conn_kind_laws `{ConnSerdeLaws} : RecordKindLaws ConnectionRecord ConnectionError.
Proof.
  refine {| rk_reloaded x := cn_loaded (cn_saved x) |}.
  - intros x. apply (cn_loaded_id (cn_saved x)).
  - intros x v. cbn. destruct (sd_to_text x) as [s| |] eqn:Hs; [|done..]. intros [= ->]. by rewrite (cn_text_back _ _ Hs).
  - intros v x. cbn. destruct (sd_from_text v) as [y| |] eqn:Hy; [|done..]. intros [= <-].
    rewrite cn_loaded_saved; [apply cn_loaded_idem|]. rewrite cn_loaded_metadata. by eapply cn_text_read.
Defined.

(** * A repository that runs another one keeps its laws *)

Section projected.
Context {S T R E : Type} `{RecordKey R E} `{ExchangeRepo S R E} `{!ExchangeRepo T R E} `{!ExchangeRepoLaws T R E} (proj : S → T).
Definition projects {A} (m : eff E S A) (n : eff E T A) : Prop :=
  ∀ s w, let '(r, s', w') := m s w in n (proj s) w = (r, proj s', w').
Context (Hsave : ∀ x, projects (er_save x) (er_save x)) (Hupdate : ∀ x, projects (er_update x) (er_update x))
  (Hid : ∀ i, projects (er_find_by_id i) (er_find_by_id i)) (Hfind : ∀ p, projects (er_find p) (er_find p))
  (Hfilter : ∀ p, projects (er_filter p) (er_filter p)) (Hall : projects er_get_all er_get_all) (Hdelete : ∀ i, projects (er_delete i) (er_delete i)).
Definition projected_laws : ExchangeRepoLaws S R E.
Proof.
  refine {| er_ok s := er_ok (proj s); er_view s := er_view (proj s) |}.
  - intros s id x. apply er_keyed.
  - intros x s w Hs. pose proof (er_save_law x (proj s) w Hs) as Hl. specialize (Hsave x s w).
    destruct (er_save x s w) as [[r s'] w']. by rewrite Hsave in Hl.
  - intros x s w Hs. pose proof (er_update_law x (proj s) w Hs) as Hl. specialize (Hupdate x s w).
    destruct (er_update x s w) as [[r s'] w']. by rewrite Hupdate in Hl.
  - intros i s w Hs. pose proof (er_find_by_id_law i (proj s) w Hs) as Hl. specialize (Hid i s w).
    destruct (er_find_by_id i s w) as [[r s'] w']. by rewrite Hid in Hl.
  - intros p s w Hs. pose proof (er_find_law p (proj s) w Hs) as Hl. specialize (Hfind p s w).
    destruct (er_find p s w) as [[r s'] w']. by rewrite Hfind in Hl.
  - intros p s w Hs. pose proof (er_filter_law p (proj s) w Hs) as Hl. specialize (Hfilter p s w).
    destruct (er_filter p s w) as [[r s'] w']. by rewrite Hfilter in Hl.
  - intros s w Hs. pose proof (er_get_all_law (proj s) w Hs) as Hl. specialize (Hall s w).
    destruct (er_get_all s w) as [[r s'] w']. by rewrite Hall in Hl.
  - intros i s w Hs. pose proof (er_delete_law i (proj s) w Hs) as Hl. specialize (Hdelete i s w).
    destruct (er_delete i s w) as [[r s'] w']. by rewrite Hdelete in Hl.
Defined.
End projected.

Section laws.
Context `{HashOrder} {ST : Type} `{StorageLaws ST} `{ConnSerdeLaws}.
Abbreviation SBC := (StorageBackedConnections ST).
Abbreviation sbc := (eff ConnectionError SBC).
Abbreviation SB := (StorageBacked ST ConnectionRecord).

(** A second load does nothing. *)
Lemma ensure_with {A} (f : gmap string ConnectionRecord → A) (s : SB) w :
  (_ ← sb_ensure_cache (E:=ConnectionError); sb_with_cache f) s w = sb_with_cache f s w.
Proof.
  unfold sb_with_cache, mbind, eff_bind. destruct (sb_ensure_cache s w) as [[[[]|e|] s1] w1] eqn:He; [|done..].
  assert (is_Some (sb_cache s1)) as [m Hm].
  { unfold sb_ensure_cache, mbind, eff_bind, eff_get in He. destruct (sb_cache s) as [m|] eqn:Hc; [injection He as <- <-; by eexists|].
    destruct (sb_on_storage _ _ s w) as [[[l|e|] s2] w2]; [|done..]. injection He as <- <-. by eexists. }
  unfold sb_ensure_cache, mbind, eff_bind, eff_get. rewrite Hm. unfold mret, eff_ret. by rewrite Hm.
Qed.
Lemma projects_bind {A B} (m : sbc A) n (k : A → sbc B) l :
  projects sbc_records m n → (∀ a, projects sbc_records (k a) (l a)) → projects sbc_records (a ← m; k a) (a ← n; l a).
Proof.
  intros Hm Hk s w. specialize (Hm s w). unfold mbind, eff_bind. destruct (m s w) as [[[a|e|] s1] w1]; rewrite Hm; [apply Hk|done..].
Qed.
Lemma on_projects {A} (m : eff ConnectionError SB A) : projects sbc_records (sbc_on m) m.
Proof. intros s w. unfold sbc_on, eff_zoom. by destruct (m (sbc_records s) w) as [[[]?]?]. Qed.
Lemma ensure_projects : projects sbc_records sbc_ensure_cache sb_ensure_cache.
Proof.
  intros s w. pose proof (on_projects sb_ensure_cache s w) as Ho. unfold sbc_ensure_cache, mbind, eff_bind, eff_get.
  destruct (sb_cache (sbc_records s)) as [m|] eqn:Hc; [unfold sb_ensure_cache, mbind, eff_bind, eff_get; by rewrite Hc|].
  destruct (sbc_on sb_ensure_cache s w) as [[[[]|e|] s1] w1]; exact Ho.
Qed.
Lemma ensured_projects {A} (m : eff ConnectionError SB A) : projects sbc_records (sbc_call m) (_ ← sb_ensure_cache; m).
Proof. apply (projects_bind _ _ _ _ ensure_projects (λ _, on_projects m)). Qed.
(** A call that looks into the cache first. *)
Lemma call_projects {A B} (f : gmap string ConnectionRecord → A) (k : A → eff ConnectionError SB B) :
  projects sbc_records (sbc_call (a ← sb_with_cache f; k a)) (a ← sb_with_cache f; k a).
Proof.
  intros s w. pose proof (ensured_projects (a ← sb_with_cache f; k a) s w) as Hp. destruct (sbc_call _ s w) as [[r s'] w']. rewrite <-Hp.
  pose proof (ensure_with f (sbc_records s) w) as Hw. unfold mbind, eff_bind in *.
  destruct (sb_ensure_cache (sbc_records s) w) as [[[[]|e|] s1] w1]; by rewrite <-Hw.
Qed.
Lemma call_projects_ret {A} (f : gmap string ConnectionRecord → A) : projects sbc_records (sbc_call (sb_with_cache f)) (sb_with_cache f).
Proof.
  intros s w. pose proof (ensured_projects (sb_with_cache f) s w) as Hp. destruct (sbc_call _ s w) as [[r s'] w']. rewrite <-Hp. by rewrite ensure_with.
Qed.
Lemma index_projects (m : sbc unit) (n : eff ConnectionError SB unit) x : projects sbc_records m n → projects sbc_records (_ ← m; sbc_index x) n.
Proof. intros Hm s w. specialize (Hm s w). unfold mbind, eff_bind. by destruct (m s w) as [[[[]|e|] s'] w']. Qed.

(** The repository keeps the laws of the interface. *)
#[export] Instance stored_connections_laws : ExchangeRepoLaws SBC ConnectionRecord ConnectionError.
Proof.
  refine (projected_laws (T:=SB) sbc_records _ _ _ _ _ _ _); [exact storage_backed_laws|..].
  - intros x. apply index_projects, call_projects.
  - intros x. apply index_projects, call_projects.
  - intros i. apply call_projects_ret.
  - intros p. apply call_projects_ret.
  - intros p. apply call_projects_ret.
  - apply call_projects_ret.
  - intros i. apply call_projects.
Defined.
End laws.

(** * Searches by a key *)

(** The three keys of a record, and their indexes. *)
Inductive cn_key := CkAuth | CkAgreement | CkDid.
Definition ck_of (c : cn_key) (x : ConnectionRecord) : option string :=
  match c with CkAuth => cn_their_authentication_key x | CkAgreement => cn_their_key_agreement_key x | CkDid => cn_their_did x end.
Definition ck_index (c : cn_key) (idx : ConnIndexes) : gmap string string :=
  match c with CkAuth => ci_auth_key idx | CkAgreement => ci_ka_key idx | CkDid => ci_their_did idx end.
Definition ck_tag (c : cn_key) : string :=
  match c with CkAuth => "their_auth_key" | CkAgreement => "their_ka_key" | CkDid => "their_did" end.

Lemma index_record_at c idx x :
  ck_index c (index_record idx x) = match ck_of c x with Some k => <[k := cn_id x]> (ck_index c idx) | None => ck_index c idx end.
Proof. destruct c; cbn; by destruct (_ x). Qed.

(** The indexes of a list of records: every key is there, and leads to a record that has it. *)
Definition indexed (idx : ConnIndexes) (has : ConnectionRecord → Prop) : Prop :=
  ∀ c k, (∀ x, has x → ck_of c x = Some k → is_Some (ck_index c idx !! k)) ∧
         (∀ id, ck_index c idx !! k = Some id → ∃ x, has x ∧ cn_id x = id ∧ ck_of c x = Some k).
Lemma indexed_record idx (has has' : ConnectionRecord → Prop) x :
  indexed idx has → has' x → (∀ y, has' y → y = x ∨ has y) →
  (∀ y, has y → has' y ∨ cn_id y = cn_id x ∧ ∀ c, ck_of c y = None ∨ ck_of c x = ck_of c y) → indexed (index_record idx x) has'.
Proof.
  intros Hi Hx Hnew Hold c k. rewrite index_record_at. destruct (Hi c k) as [Hc Hs]. split.
  - intros y [->|Hy]%Hnew Hk.
    + rewrite Hk, lookup_insert_eq. by eexists.
    + destruct (ck_of c x) as [k'|]; [|by eapply Hc]. destruct (decide (k' = k)) as [->|Hne]; [rewrite lookup_insert_eq; by eexists|].
      rewrite lookup_insert_ne by done. by eapply Hc.
  - assert (Hkeep : ∀ id, ck_index c idx !! k = Some id → ∃ y, has' y ∧ cn_id y = id ∧ ck_of c y = Some k).
    { intros id Hid. destruct (Hs id Hid) as (y & Hy & Hyid & Hk). destruct (Hold y Hy) as [Hy'|[Hsame Hkeys]]; [by exists y|].
      exists x. split; [done|]. split; [congruence|]. destruct (Hkeys c) as [Hn|Hn]; congruence. }
    intros id. destruct (ck_of c x) as [k'|] eqn:Hkx; [|apply Hkeep].
    intros [[-> <-]|[_ Hid]]%lookup_insert_Some; [by exists x|by apply Hkeep].
Qed.
Lemma indexed_list l : NoDup (cn_id <$> l) → indexed (foldl index_record (mkCnIndexes ∅ ∅ ∅) l) (λ x, x ∈ l).
Proof.
  induction l as [|x l IH] using rev_ind; intros Hnd.
  - intros c k. split; [intros x Hx; by apply elem_of_nil in Hx|]. intros id Hid. destruct c; cbn in Hid; by rewrite lookup_empty in Hid.
  - rewrite foldl_app. cbn. rewrite fmap_app in Hnd. apply NoDup_app in Hnd as (Hl & _ & _).
    apply (indexed_record _ (λ x, x ∈ l)); [by apply IH|set_solver..].
Qed.

Section keyed.
Context `{HashOrder} {ST : Type} `{StorageLaws ST} `{ConnSerdeLaws}.
Abbreviation SBC := (StorageBackedConnections ST).
Abbreviation SB := (StorageBacked ST ConnectionRecord).

(** What is stored carries its keys as tags. *)
Definition key_tagged (r : AgentRecord) : Prop :=
  ∀ x, sd_from_text (rec_value r) = Ok x → ∀ c, c ≠ CkDid → rec_tags r !! ck_tag c = ck_of c x.
Definition all_key_tagged (st : ST) : Prop := ∀ n r, st_view st CONNECTION_CATEGORY n = Some r → key_tagged r.

Lemma stored_tagged x v : sd_to_text x = Ok v → key_tagged (mkRecord CONNECTION_CATEGORY (cn_id x) v (cn_storage_tags x)).
Proof.
  intros Hv y Hy c Hc. cbn in Hy. rewrite (cn_text_back _ _ Hv) in Hy. injection Hy as <-. cbn [rec_tags]. unfold cn_storage_tags.
  set (base := <["thread_id" := _]> _). assert (Hb : base !! ck_tag c = None).
  { unfold base. destruct c; try done; cbn [ck_tag]; rewrite !lookup_insert_ne by done; apply lookup_empty. }
  clearbody base. destruct c; [..|done]; cbn [ck_tag ck_of cn_saved] in *; unfold given; cbn.
  all: destruct (cn_their_did x), (cn_their_authentication_key x), (cn_their_key_agreement_key x);
    repeat first [rewrite lookup_insert_eq | rewrite lookup_insert_ne by done]; done.
Qed.

(** Every call keeps that. *)
Definition keeps_tags {E T A} (storage : T → ST) (m : eff E T A) : Prop :=
  ∀ s w, all_key_tagged (storage s) → all_key_tagged (storage (m s w).1.2).
Lemma keeps_tags_bind {E T A B} (storage : T → ST) (m : eff E T A) (k : A → eff E T B) :
  keeps_tags storage m → (∀ a, keeps_tags storage (k a)) → keeps_tags storage (a ← m; k a).
Proof.
  intros Hm Hk s w Hs. specialize (Hm s w Hs). unfold mbind, eff_bind. destruct (m s w) as [[[a|e|] s1] w1]; [by apply Hk|done..].
Qed.
Lemma keeps_tags_same {E T A} (storage : T → ST) (m : eff E T A) : (∀ s w, storage (m s w).1.2 = storage s) → keeps_tags storage m.
Proof. intros Hm s w. by rewrite Hm. Qed.
Lemma keeps_tags_storage {A} err (m : eff AgentError ST A) : keeps_tags id m → keeps_tags (T:=SB) sb_storage (sb_on_storage (E:=ConnectionError) err m).
Proof. intros Hm s w Hs. specialize (Hm (sb_storage s) w Hs). unfold sb_on_storage, eff_zoom. by destruct (m (sb_storage s) w) as [[[]?]?]. Qed.
Lemma keeps_tags_view (st st' : ST) : (∀ c n, st_view st' c n = st_view st c n) → all_key_tagged st → all_key_tagged st'.
Proof. intros Hv Ht n r. rewrite Hv. apply Ht. Qed.
Lemma keeps_tags_put (st st' : ST) r :
  key_tagged r → (∀ c n, st_view st' c n = if decide (c = rec_category r ∧ n = rec_name r) then Some r else st_view st c n) →
  all_key_tagged st → all_key_tagged st'.
Proof. intros Hr Hv Ht n r'. rewrite Hv. case_decide; [by intros [= <-]|apply Ht]. Qed.

Lemma keeps_tags_find_all c q : keeps_tags (E:=AgentError) id (st_find_all (S:=ST) c q).
Proof.
  intros s w Hs. pose proof (st_find_all_law c q s w) as Hl. destruct (st_find_all c q s w) as [[[]?]?]; cbn; [destruct Hl as (_ & _ & Hl)|..];
    by eapply keeps_tags_view.
Qed.
Lemma keeps_tags_ensure : keeps_tags (T:=SB) sb_storage (sb_ensure_cache (E:=ConnectionError)).
Proof.
  unfold sb_ensure_cache. apply keeps_tags_bind; [by apply keeps_tags_same|]. intros s. destruct (sb_cache s); [by apply keeps_tags_same|].
  apply keeps_tags_bind; [apply keeps_tags_storage, keeps_tags_find_all|]. intros l. by apply keeps_tags_same.
Qed.
Lemma keeps_tags_cached {A B} (f : gmap string ConnectionRecord → A) (k : A → eff ConnectionError SB B) :
  (∀ a, keeps_tags sb_storage (k a)) → keeps_tags sb_storage (a ← sb_with_cache f; k a).
Proof.
  intros Hk. apply keeps_tags_bind; [|done]. unfold sb_with_cache. apply keeps_tags_bind; [apply keeps_tags_ensure|]. intros _.
  apply keeps_tags_same. intros s w. unfold mbind, eff_bind, eff_get. cbn. by destruct (sb_cache s).
Qed.
Lemma keeps_tags_write err (call : AgentRecord → eff AgentError ST unit) x :
  (∀ r st w, match call r st w with
    | (Ok _, st', _) => ∀ c n, st_view st' c n = if decide (c = rec_category r ∧ n = rec_name r) then Some r else st_view st c n
    | (_, st', _) => ∀ c n, st_view st' c n = st_view st c n
    end) →
  keeps_tags (T:=SB) sb_storage (sb_put (E:=ConnectionError) err call x).
Proof.
  intros Hcall s w Hs. unfold sb_put, sb_to_storage_record, mbind, eff_bind, eff_lift. cbn [rk_encode conn_kind].
  destruct (sd_to_text x) as [v| |] eqn:Hv; [|done..]. cbn. unfold sb_on_storage, eff_zoom.
  match goal with |- context [call ?r] => set (r0 := r) end. specialize (Hcall r0 (sb_storage s) w).
  destruct (call r0 (sb_storage s) w) as [[[[]| |] st'] w']; cbn in *; [|by eapply keeps_tags_view..].
  by eapply (keeps_tags_put _ _ r0); [apply stored_tagged| |].
Qed.

Lemma keeps_tags_save x : keeps_tags (T:=SB) sb_storage (sb_save (E:=ConnectionError) x).
Proof. apply keeps_tags_cached. intros [y|]; [by apply keeps_tags_same|apply keeps_tags_write, save_call]. Qed.
Lemma keeps_tags_update x : keeps_tags (T:=SB) sb_storage (sb_update (E:=ConnectionError) x).
Proof. apply keeps_tags_cached. intros [y|]; [apply keeps_tags_write, update_call|by apply keeps_tags_same]. Qed.

Lemma indexed_ext idx (has has' : ConnectionRecord → Prop) : (∀ x, has' x ↔ has x) → indexed idx has → indexed idx has'.
Proof. intros He Hi c k. destruct (Hi c k) as [Hc Hs]. split; [intros x Hx; by apply Hc, He|]. intros id Hid. destruct (Hs id Hid) as (x & Hx & ?). exists x. by rewrite He. Qed.

(** The records by their ids, and the invariant. *)
Definition sbc_has (s : SBC) (x : ConnectionRecord) : Prop := er_view s (cn_id x) = Some x.
Record keyed_ok (s : SBC) : Prop := {
  ko_repo : er_ok s;
  ko_tagged : all_key_tagged (sb_storage (sbc_records s));
  ko_indexed : is_Some (sb_cache (sbc_records s)) → indexed (sbc_indexes s) (sbc_has s)
}.

Lemma ensure_failed (s : SB) w r s1 w1 :
  sb_cache s = None → sb_ensure_cache (E:=ConnectionError) s w = (r, s1, w1) → r ≠ Ok tt → sb_cache s1 = None.
Proof.
  intros Hc. unfold sb_ensure_cache, mbind, eff_bind, eff_get. rewrite Hc. unfold sb_on_storage, eff_zoom.
  destruct (st_find_all _ _ _ _) as [[[l|e|] st'] w']; cbn; by intros [= <- <- <-].
Qed.
(** A load builds the indexes. *)
Lemma keyed_ensure s w :
  keyed_ok s →
  let '(r, s1, _) := sbc_ensure_cache s w in
  keyed_ok s1 ∧ (∀ id, er_view s1 id = er_view s id) ∧ (r = Ok tt → is_Some (sb_cache (sbc_records s1))).
Proof.
  intros Hok0. pose proof Hok0 as [Hr Ht _]. unfold sbc_ensure_cache, mbind, eff_bind, eff_get. destruct (sb_cache (sbc_records s)) as [m|] eqn:Hc.
  { split; [exact Hok0|]. split; [done|]. intros _. by rewrite Hc. }
  unfold sbc_on, eff_zoom. pose proof (ensure_spec (sbc_records s) w Hr) as He. pose proof (keeps_tags_ensure (sbc_records s) w Ht) as Hte.
  destruct (sb_ensure_cache (sbc_records s) w) as [[[[]|e|] s1] w1] eqn:Hens; cbn in Hte |- *.
  - destruct He as (m & Hm & Hok & Hv). split; [|split; [exact Hv|intros _; by rewrite Hm]]. constructor; [done|done|]. intros _. cbn.
    unfold sbc_cached. cbn. rewrite Hm. cbn [default from_option id]. apply (indexed_ext _ (λ x, x ∈ repo_record_values m)).
    + intros x. rewrite elem_of_repo_records. unfold sbc_has. cbn. unfold sb_view. rewrite Hm. split; [eauto|]. intros [id Hx].
      pose proof (sb_view_keyed s1 id x Hok) as Hk. unfold sb_view in Hk. rewrite Hm in Hk. specialize (Hk Hx). cbn in Hk. by rewrite Hk.
    + apply indexed_list. unfold repo_record_values. rewrite <-list_fmap_compose.
      assert (Hids : (cn_id ∘ snd) <$> map_iter m = (map_iter m).*1).
      { apply list_fmap_ext. intros i [id x] Hi. apply list_elem_of_lookup_2, elem_of_map_iter in Hi. cbn.
        apply (sb_view_keyed s1 id x Hok). unfold sb_view. by rewrite Hm. }
      rewrite Hids. apply NoDup_fst_map_iter.
  - destruct He as (_ & Hok & Hv). split; [|done]. constructor; [done|done|]. cbn. by rewrite (ensure_failed _ _ _ _ _ Hc Hens) by done; intros [].
  - destruct He as (Hok & Hv). split; [|done]. constructor; [done|done|]. cbn. by rewrite (ensure_failed _ _ _ _ _ Hc Hens) by done; intros [].
Qed.

(** A call of the write-through repository: after the load, on a repository that holds the same. *)
Lemma keyed_call {A} (m : eff ConnectionError SB A) s w :
  keyed_ok s →
  let '(r, s', w') := sbc_call m s w in
  (∃ s1 w1, keyed_ok s1 ∧ (∀ id, er_view s1 id = er_view s id) ∧ is_Some (sb_cache (sbc_records s1)) ∧
    m (sbc_records s1) w1 = (r, sbc_records s', w') ∧ sbc_indexes s' = sbc_indexes s1) ∨
  ((∀ a, r ≠ Ok a) ∧ keyed_ok s' ∧ ∀ id, er_view s' id = er_view s id).
Proof.
  intros Hok. pose proof (keyed_ensure s w Hok) as He. unfold sbc_call, mbind, eff_bind. destruct (sbc_ensure_cache s w) as [[[[]|e|] s1] w1].
  - destruct He as (Hok1 & Hv & Hc). unfold sbc_on, eff_zoom. destruct (m (sbc_records s1) w1) as [[r s2] w2] eqn:Hm.
    destruct r as [a|e|]; left; exists s1, w1; cbn; by repeat (split; [by auto|]).
  - right. destruct He as (Hok1 & Hv & _). done.
  - right. destruct He as (Hok1 & Hv & _). done.
Qed.

Lemma keyed_same (s1 s' : SBC) :
  keyed_ok s1 → is_Some (sb_cache (sbc_records s1)) → er_ok s' → all_key_tagged (sb_storage (sbc_records s')) →
  sbc_indexes s' = sbc_indexes s1 → (∀ id, er_view s' id = er_view s1 id) → keyed_ok s'.
Proof.
  intros [_ _ Hi] Hc Hok Ht Hx Hv. constructor; [done|done|]. intros _. rewrite Hx. apply (indexed_ext _ (sbc_has s1)); [|by apply Hi].
  intros x. unfold sbc_has. by rewrite Hv.
Qed.

(** A reading call. *)
Lemma keyed_read {A} (f : gmap string ConnectionRecord → A) s w :
  keyed_ok s → let '(r, s', _) := sbc_call (sb_with_cache f) s w in keyed_ok s' ∧ ∀ id, er_view s' id = er_view s id.
Proof.
  intros Hok. pose proof (keyed_call (sb_with_cache f) s w Hok) as Hc. destruct (sbc_call _ s w) as [[r s'] w'].
  destruct Hc as [(s1 & w1 & Hok1 & Hv & Hc & Hm & Hx)|(_ & Hok' & Hv)]; [|done].
  pose proof (with_cache_spec (E:=ConnectionError) f (sbc_records s1) w1 (ko_repo _ Hok1)) as Hs. rewrite Hm in Hs.
  assert (Ht : all_key_tagged (sb_storage (sbc_records s'))).
  { assert (Hret : ∀ a, keeps_tags sb_storage (mret a : eff ConnectionError SB A)) by (intros a; by apply keeps_tags_same).
    pose proof (keeps_tags_cached f mret Hret (sbc_records s1) w1 (ko_tagged _ Hok1)) as Hk.
    unfold mbind, eff_bind in Hk. rewrite Hm in Hk. by destruct r. }
  assert (sb_ok (sbc_records s') ∧ ∀ id, sb_view (sbc_records s') id = sb_view (sbc_records s1) id) as [Hok2 Hv2]
    by (destruct r; [destruct Hs as (m & _ & _ & ? & _ & ?)|destruct Hs as (_ & ? & ?)|destruct Hs]; done).
  split; [by apply (keyed_same s1)|]. intros id. etrans; [apply Hv2|apply Hv].
Qed.

(** An update that takes no key away. *)
Definition keeps_keys (s : SBC) (x : ConnectionRecord) : Prop :=
  ∀ y, er_view s (cn_id x) = Some y → ∀ c, ck_of c y = None ∨ ck_of c x = ck_of c y.

Lemma keyed_index (s1 s2 : SBC) x :
  keyed_ok s1 → is_Some (sb_cache (sbc_records s1)) → er_ok s2 → all_key_tagged (sb_storage (sbc_records s2)) →
  sbc_indexes s2 = sbc_indexes s1 → (∀ id, er_view s2 id = if decide (id = cn_id x) then Some x else er_view s1 id) → keeps_keys s1 x →
  keyed_ok (mkSbc (sbc_records s2) (index_record (sbc_indexes s2) x)).
Proof.
  intros [_ _ Hi] Hc Hok Ht Hx Hv Hk. constructor; [done|done|]. intros _. cbn [sbc_indexes]. rewrite Hx.
  apply (indexed_record _ (sbc_has s1)); [by apply Hi| | |]; unfold sbc_has;
    change (er_view (mkSbc (sbc_records s2) (index_record (sbc_indexes s1) x))) with (er_view s2).
  - by rewrite Hv, decide_True.
  - intros y. rewrite Hv. case_decide; [intros [= ->]; by left|by right].
  - intros y Hy. rewrite Hv. case_decide as Hid; [right|by left]. split; [done|]. rewrite Hid in Hy. by apply Hk.
Qed.
Lemma keyed_save x s w : keyed_ok s → keyed_ok (sbc_save x s w).1.2.
Proof.
  intros Hok. pose proof (keyed_call (sb_save x) s w Hok) as Hc. unfold sbc_save, mbind at 1, eff_bind at 1.
  destruct (sbc_call (sb_save x) s w) as [[r s2] w2].
  destruct Hc as [(s1 & w1 & Hok1 & Hv & Hc & Hm & Hx)|(Hn & Hok' & Hv)]; [|destruct r; [by destruct (Hn a)|done..]].
  pose proof (sb_save_spec x (sbc_records s1) w1 (ko_repo _ Hok1)) as Hs. pose proof (keeps_tags_save x (sbc_records s1) w1 (ko_tagged _ Hok1)) as Ht.
  rewrite Hm in Hs, Ht. cbn in Ht. destruct r as [[]|e|]; cbn.
  - destruct Hs as (Hok2 & Hnone & Hv2). apply (keyed_index s1); try done. intros y Hy. cbn in Hy, Hnone. congruence.
  - destruct Hs as (_ & Hok2 & Hv2). by apply (keyed_same s1).
  - destruct Hs as (Hok2 & Hv2). by apply (keyed_same s1).
Qed.
Lemma keyed_update x s w : keyed_ok s → keeps_keys s x → keyed_ok (sbc_update x s w).1.2.
Proof.
  intros Hok Hk. pose proof (keyed_call (sb_update x) s w Hok) as Hc. unfold sbc_update, mbind at 1, eff_bind at 1.
  destruct (sbc_call (sb_update x) s w) as [[r s2] w2].
  destruct Hc as [(s1 & w1 & Hok1 & Hv & Hc & Hm & Hx)|(Hn & Hok' & Hv)]; [|destruct r; [by destruct (Hn a)|done..]].
  pose proof (sb_update_spec x (sbc_records s1) w1 (ko_repo _ Hok1)) as Hs. pose proof (keeps_tags_update x (sbc_records s1) w1 (ko_tagged _ Hok1)) as Ht.
  rewrite Hm in Hs, Ht. cbn in Ht. destruct r as [[]|e|]; cbn.
  - destruct Hs as (Hok2 & _ & Hv2). apply (keyed_index s1); try done. intros y Hy. apply Hk. by rewrite <-Hv.
  - destruct Hs as (_ & Hok2 & Hv2). by apply (keyed_same s1).
  - destruct Hs as (Hok2 & Hv2). by apply (keyed_same s1).
Qed.

(** The three searches. *)
Definition sbc_search (c : cn_key) (k : string) : eff ConnectionError SBC (list ConnectionRecord) :=
  match c with
  | CkAuth => option_list <$> sbc_find_by_auth_key k
  | CkAgreement => option_list <$> sbc_find_by_ka_key k
  | CkDid => sbc_find_by_their_did k
  end.
(** Every answer has the key, and there is one if a record has it. *)
Definition found_exactly (s : SBC) (c : cn_key) (k : string) (l : list ConnectionRecord) : Prop :=
  (∀ x, x ∈ l → er_view s (cn_id x) = Some x ∧ ck_of c x = Some k) ∧ (l = [] → ∀ id x, er_view s id = Some x → ck_of c x ≠ Some k).

Lemma ck_reloaded c x : c ≠ CkDid → ck_of c (rk_reloaded x) = ck_of c x.
Proof.
  intros Hc. cbn [rk_reloaded conn_kind_laws]. unfold cn_loaded, cn_complete_validator, cn_strip_fragment.
  destruct (cn_their_did (cn_retag (cn_saved x))) as [d|]; cbn [mbind option_bind]; [destruct (str_split_once _ d) as [[? ?]|]|];
    destruct (_ && _); by destruct c.
Qed.
Lemma ck_loaded c x : c ≠ CkDid → ck_of c (cn_loaded x) = ck_of c x.
Proof.
  intros Hc. unfold cn_loaded, cn_complete_validator, cn_strip_fragment.
  destruct (cn_their_did (cn_retag x)) as [d|]; cbn [mbind option_bind]; [destruct (str_split_once _ d) as [[? ?]|]|]; destruct (_ && _); by destruct c.
Qed.

(** What the index says. *)
Lemma view_cached (s : SBC) id : is_Some (sb_cache (sbc_records s)) → sbc_cached s !! id = er_view s id.
Proof. intros [m Hm]. unfold sbc_cached. cbn. unfold sb_view. by rewrite Hm. Qed.
Lemma index_hit s c k id :
  keyed_ok s → is_Some (sb_cache (sbc_records s)) → ck_index c (sbc_indexes s) !! k = Some id →
  ∃ x, sbc_cached s !! id = Some x ∧ er_view s (cn_id x) = Some x ∧ ck_of c x = Some k.
Proof.
  intros [_ _ Hi] Hc Hid. destruct (proj2 (Hi Hc c k) id Hid) as (x & Hx & <- & Hk). exists x. by rewrite view_cached.
Qed.
Lemma index_miss s c k :
  keyed_ok s → is_Some (sb_cache (sbc_records s)) → ck_index c (sbc_indexes s) !! k = None →
  ∀ id x, er_view s id = Some x → ck_of c x ≠ Some k.
Proof.
  intros [Hok _ Hi] Hc Hn id x Hx Hk. pose proof (er_keyed _ _ _ Hok Hx) as Hid. cbn in Hid. subst id.
  destruct (proj1 (Hi Hc c k) x Hx Hk) as [i Hi']. congruence.
Qed.
(** A record of the storage that carries the key is a record with the key. *)
Lemma tagged_record s c k n r y :
  keyed_ok s → c ≠ CkDid → st_view (sb_storage (sbc_records s)) CONNECTION_CATEGORY n = Some r → rec_tags r !! ck_tag c = Some k →
  sd_from_text (rec_value r) = Ok y → ∃ x, er_view s n = Some x ∧ ck_of c x = Some k.
Proof.
  intros [Hok Ht _] Hc Hr Hk Hy. pose proof (Ht n r Hr y Hy c Hc) as Hyk. rewrite Hk in Hyk.
  pose proof (sb_view_stored (sbc_records s) n Hok) as Hv. unfold stored in Hv. cbn [rk_category conn_kind] in Hv. rewrite Hr in Hv.
  cbn [mbind option_bind rk_decode conn_kind] in Hv. rewrite Hy in Hv. symmetry in Hv. apply fmap_Some in Hv as (x & Hx & Hl).
  exists x. split; [exact Hx|]. rewrite <-(ck_reloaded c x Hc), <-Hl. by rewrite ck_loaded.
Qed.

(** The storage was asked, and holds what it held. *)
Lemma keyed_asked s1 st' :
  keyed_ok s1 → is_Some (sb_cache (sbc_records s1)) → (∀ c n, st_view st' c n = st_view (sb_storage (sbc_records s1)) c n) →
  let s2 := mkSbc (mkStorageBacked st' (sb_cache (sbc_records s1))) (sbc_indexes s1) in keyed_ok s2 ∧ ∀ id, er_view s2 id = er_view s1 id.
Proof.
  intros Hok Hc Hv s2. destruct (sb_same_ok (sbc_records s1) st' (ko_repo _ Hok) Hv) as [Hok2 Hv2]. split; [|exact Hv2].
  apply (keyed_same s1); [done|done|exact Hok2| |done|exact Hv2]. by eapply keeps_tags_view; [|apply (ko_tagged _ Hok)].
Qed.
Lemma find_by_key_spec c what k s w :
  keyed_ok s → c ≠ CkDid →
  let '(r, s', _) := sbc_find_by_key (ck_index c) (ck_tag c) what k s w in
  keyed_ok s' ∧ (∀ id, er_view s' id = er_view s id) ∧ match r with Ok o => found_exactly s c k (option_list o) | _ => True end.
Proof.
  intros Hok Hc. pose proof (keyed_ensure s w Hok) as He. unfold sbc_find_by_key, mbind, eff_bind.
  destruct (sbc_ensure_cache s w) as [[[[]|e|] s1] w1]; [|by destruct He as (? & ? & _)..].
  destruct He as (Hok1 & Hv & Hc1); specialize (Hc1 eq_refl). unfold eff_gets at 1.
  destruct (ck_index c (sbc_indexes s1) !! k) as [id|] eqn:Hidx.
  - destruct (index_hit s1 c k id Hok1 Hc1 Hidx) as (x & Hx & Hxv & Hxk). unfold eff_gets. rewrite Hx. split; [done|]. split; [done|].
    split; [intros y ->%list_elem_of_singleton; by rewrite <-Hv|done].
  - assert (Hmiss : ∀ id x, er_view s id = Some x → ck_of c x ≠ Some k) by (intros id x; rewrite <-Hv; by apply index_miss).
    unfold sbc_on, sb_on_storage, eff_zoom.
    pose proof (st_find_all_law CONNECTION_CATEGORY (q_with_tag q_new (ck_tag c) k) (sb_storage (sbc_records s1)) w1) as Hl.
    destruct (st_find_all _ _ _ w1) as [[[l|e|] st'] w2]; cbn [id fst snd].
    + destruct Hl as (Hin & _ & Hst). destruct (keyed_asked s1 st' Hok1 Hc1 Hst) as [Hok2 Hv2].
      destruct (head l) as [r|] eqn:Hr; [|split; [done|]; split; [intros i; by rewrite Hv2, Hv|]; split; [intros y Hy; by apply elem_of_nil in Hy|done]].
      destruct (Hin r) as [Hm [n Hn]]; [destruct l; [done|]; injection Hr as ->; by left|]. unfold eff_lift.
      destruct (sd_from_text (rec_value r)) as [y|e|] eqn:Hy; [|split; [done|]; split; [intros i; by rewrite Hv2, Hv|done]..].
      exfalso. destruct (tagged_record s1 c k n r y Hok1 Hc Hn) as (x & Hx & Hk); [|done|].
      * apply Hm. cbn. by rewrite lookup_insert_eq.
      * rewrite Hv in Hx. by apply (Hmiss n x Hx).
    + destruct (keyed_asked s1 st' Hok1 Hc1 Hl) as [Hok2 Hv2]. split; [done|]. split; [intros i; by rewrite Hv2, Hv|done].
    + destruct (keyed_asked s1 st' Hok1 Hc1 Hl) as [Hok2 Hv2]. split; [done|]. split; [intros i; by rewrite Hv2, Hv|done].
Qed.
Lemma find_by_their_did_spec k s w :
  keyed_ok s →
  let '(r, s', _) := sbc_find_by_their_did k s w in
  keyed_ok s' ∧ (∀ id, er_view s' id = er_view s id) ∧ match r with Ok l => found_exactly s CkDid k l | _ => True end.
Proof.
  intros Hok. pose proof (keyed_ensure s w Hok) as He. unfold sbc_find_by_their_did, mbind, eff_bind.
  destruct (sbc_ensure_cache s w) as [[[[]|e|] s1] w1]; [|by destruct He as (? & ? & _)..].
  destruct He as (Hok1 & Hv & Hc1); specialize (Hc1 eq_refl). unfold eff_gets. split; [done|]. split; [done|].
  destruct (ci_their_did (sbc_indexes s1) !! k) as [id|] eqn:Hidx; cbn [mbind option_bind].
  - destruct (index_hit s1 CkDid k id Hok1 Hc1 Hidx) as (x & Hx & Hxv & Hxk). rewrite Hx.
    split; [intros y ->%list_elem_of_singleton; by rewrite <-Hv|done].
  - split; [intros y Hy; by apply elem_of_nil in Hy|]. intros _ id x. rewrite <-Hv. by apply (index_miss s1 CkDid k).
Qed.
Lemma search_spec c k s w :
  keyed_ok s →
  let '(r, s', _) := sbc_search c k s w in
  keyed_ok s' ∧ (∀ id, er_view s' id = er_view s id) ∧ match r with Ok l => found_exactly s c k l | _ => True end.
Proof.
  intros Hok. destruct c; cbn [sbc_search]; [..|by apply find_by_their_did_spec].
  - pose proof (find_by_key_spec CkAuth "auth" k s w Hok) as Hs. change (sbc_find_by_auth_key k) with (sbc_find_by_key (ck_index CkAuth) (ck_tag CkAuth) "auth" k).
    unfold fmap, eff_fmap. destruct (sbc_find_by_key _ _ _ k s w) as [[[]?]?]; by apply Hs.
  - pose proof (find_by_key_spec CkAgreement "KA" k s w Hok) as Hs. change (sbc_find_by_ka_key k) with (sbc_find_by_key (ck_index CkAgreement) (ck_tag CkAgreement) "KA" k).
    unfold fmap, eff_fmap. destruct (sbc_find_by_key _ _ _ k s w) as [[[]?]?]; by apply Hs.
Qed.

(** ** Runs *)

(** A call of the repository, or a restart of the process. *)
Inductive sbc_op :=
  | SoSave (x : ConnectionRecord) | SoUpdate (x : ConnectionRecord) | SoFindById (id : string) | SoFind (p : ConnectionRecord → bool)
  | SoFilter (p : ConnectionRecord → bool) | SoGetAll | SoSearch (c : cn_key) (k : string) | SoRestart.
Definition sbc_restart (s : SBC) : SBC := sbc_new (sb_storage (sbc_records s)).
Definition so_run1 (o : sbc_op) (s : SBC) (w : World) : SBC * World :=
  match o with
  | SoSave x => let '(_, s, w) := sbc_save x s w in (s, w)
  | SoUpdate x => let '(_, s, w) := sbc_update x s w in (s, w)
  | SoFindById i => let '(_, s, w) := sbc_find_by_id i s w in (s, w)
  | SoFind p => let '(_, s, w) := sbc_find p s w in (s, w)
  | SoFilter p => let '(_, s, w) := sbc_filter p s w in (s, w)
  | SoGetAll => let '(_, s, w) := sbc_get_all s w in (s, w)
  | SoSearch c k => let '(_, s, w) := sbc_search c k s w in (s, w)
  | SoRestart => (sbc_restart s, w)
  end.
Fixpoint so_run (ops : list sbc_op) (s : SBC) (w : World) : SBC * World :=
  match ops with [] => (s, w) | o :: ops => let '(s, w) := so_run1 o s w in so_run ops s w end.
(** No update of the run takes a key away. *)
Fixpoint keys_kept (ops : list sbc_op) (s : SBC) (w : World) : Prop :=
  match ops with
  | [] => True
  | o :: ops => match o with SoUpdate x => keeps_keys s x | _ => True end ∧ let '(s, w) := so_run1 o s w in keys_kept ops s w
  end.

Lemma keyed_new st : all_key_tagged st → (∀ id x, stored st id = Some x → cn_id x = id) → keyed_ok (sbc_new st).
Proof. intros Ht Hk. constructor; [by split|done|by intros []]. Qed.
Lemma keyed_run1 o s w : keyed_ok s → match o with SoUpdate x => keeps_keys s x | _ => True end → keyed_ok (so_run1 o s w).1.
Proof.
  intros Hok Hk. destruct o as [x|x|i|p|p| |c k|]; cbn [so_run1].
  - pose proof (keyed_save x s w Hok). by destruct (sbc_save x s w) as [[??]?].
  - pose proof (keyed_update x s w Hok Hk). by destruct (sbc_update x s w) as [[??]?].
  - pose proof (keyed_read (λ m, m !! i) s w Hok) as Hr. unfold sbc_find_by_id, sb_find_by_id. by destruct (sbc_call _ s w) as [[??]?]; destruct Hr.
  - pose proof (keyed_read (λ m, find_first (λ r, p r = true) (repo_record_values m)) s w Hok) as Hr. unfold sbc_find, sb_find.
    by destruct (sbc_call _ s w) as [[??]?]; destruct Hr.
  - pose proof (keyed_read (λ m, filter (λ r, p r = true) (repo_record_values m)) s w Hok) as Hr. unfold sbc_filter, sb_filter.
    by destruct (sbc_call _ s w) as [[??]?]; destruct Hr.
  - pose proof (keyed_read repo_record_values s w Hok) as Hr. unfold sbc_get_all, sb_get_all. by destruct (sbc_call _ s w) as [[??]?]; destruct Hr.
  - pose proof (search_spec c k s w Hok) as Hr. by destruct (sbc_search c k s w) as [[??]?]; destruct Hr.
  - cbn. apply keyed_new; [apply (ko_tagged _ Hok)|]. intros id x Hx. exact (sbo_keyed _ (ko_repo _ Hok) id x Hx).
Qed.
Lemma keyed_run ops s w : keyed_ok s → keys_kept ops s w → keyed_ok (so_run ops s w).1.
Proof.
  revert s w. induction ops as [|o ops IH]; intros s w Hok Hk; [done|]. cbn [so_run keys_kept] in *. destruct Hk as [Hk Hrest].
  pose proof (keyed_run1 o s w Hok Hk) as Hok1. destruct (so_run1 o s w) as [s1 w1]. by apply IH.
Qed.

(** C32: A search by a key of the other side through an index finds what a scan of the records
    would: over any storage that keeps its laws, after any saves, updates that take no key
    away, reads, searches and restarts, a search by authentication key, key agreement key or
    DID that answers gives only records of the repository that have the key, and none only if
    no record has it; it changes no record.  Once the records are loaded, a search for a key
    that a record has always answers. *)
Theorem key_search_exact (st : ST) ops w c k :
  all_key_tagged st → (∀ id x, stored st id = Some x → cn_id x = id) → keys_kept ops (sbc_new st) w →
  let '(s, w') := so_run ops (sbc_new st) w in
  let '(r, s', _) := sbc_search c k s w' in
  match r with Ok l => found_exactly s c k l | _ => True end ∧ (∀ id, er_view s' id = er_view s id) ∧
  (is_Some (sb_cache (sbc_records s)) → ∀ id x, er_view s id = Some x → ck_of c x = Some k → ∃ y, r = Ok [y]).
Proof.
  intros Ht Hst Hk. pose proof (keyed_run ops (sbc_new st) w (keyed_new st Ht Hst) Hk) as Hok.
  destruct (so_run ops (sbc_new st) w) as [s w'] eqn:Hrun. cbn in Hok. pose proof (search_spec c k s w' Hok) as Hs.
  destruct (sbc_search c k s w') as [[r s'] w''] eqn:Hr. destruct Hs as (_ & Hv & Hf). split; [done|]. split; [done|].
  intros Hc id x Hx Hxk. pose proof (er_keyed _ _ _ (ko_repo _ Hok) Hx) as Hid. cbn in Hid. subst id.
  destruct (proj1 (ko_indexed _ Hok Hc c k) x Hx Hxk) as [id Hid]. destruct (index_hit s c k id Hok Hc Hid) as (y & Hy & _).
  exists y. revert Hr. destruct Hc as [m Hm].
  destruct c; cbn [sbc_search ck_index] in *; unfold sbc_find_by_auth_key, sbc_find_by_ka_key, sbc_find_by_key, sbc_find_by_their_did, fmap, eff_fmap,
    sbc_ensure_cache, mbind, eff_bind, eff_get, eff_gets, mret, eff_ret; rewrite Hm, Hid; cbn [option_bind]; rewrite Hy; by intros [= <- _ _].
Qed.
End keyed.

(** * Runs *)

#[local] Instance DidExchangeState_countable : Countable DidExchangeState.
Proof.
  apply (inj_countable' (λ s, match s with DxStart => 0 | DxInvitationSent => 1 | DxInvitationReceived => 2 | DxRequestSent => 3 | DxRequestReceived => 4
      | DxResponseSent => 5 | DxResponseReceived => 6 | DxCompleted => 7 | DxAbandoned => 8 end)
    (λ n, match n with 0 => DxStart | 1 => DxInvitationSent | 2 => DxInvitationReceived | 3 => DxRequestSent | 4 => DxRequestReceived
      | 5 => DxResponseSent | 6 => DxResponseReceived | 7 => DxCompleted | _ => DxAbandoned end)). by intros [].
Defined.
#[local] Instance DidExchangeRole_countable : Countable DidExchangeRole.
Proof.
  apply (inj_countable' (λ r, match r with DxRequester => true | DxResponder => false end) (λ b : bool, if b then DxRequester else DxResponder)).
  by intros [].
Defined.
#[local] Instance ConnectionTags_eq_dec : EqDecision ConnectionTags.
Proof. solve_decision. Defined.
#[local] Instance ConnectionTags_countable : Countable ConnectionTags.
Proof.
  apply (inj_countable' (λ t, (cnt_role t, cnt_state t, cnt_thread_id t, cnt_out_of_band_id t, cnt_did t, cnt_their_did t))
    (λ '(a, b, c, d, e, f), mkCnTags a b c d e f)). by intros [].
Defined.
#[local] Instance ConnectionRecord_eq_dec : EqDecision ConnectionRecord.
Proof. solve_decision. Defined.
#[local] Instance ConnectionRecord_countable : Countable ConnectionRecord.
Proof.
  apply (inj_countable' (λ r, ((cn_id r, cn_state r, cn_role r, cn_thread_id r, cn_out_of_band_id r, cn_did r, cn_their_did r),
      (cn_their_authentication_key r, cn_their_key_agreement_key r, cn_our_label r, cn_their_label r, cn_previous_dids r, cn_previous_their_dids r),
      (cn_auto_accept_connection r, cn_image_url r, cn_error_message r, cn_metadata r, cn_didcomm_version r, cn_protocol r, cn_created_at r),
      (cn_updated_at r, cn_tags r)))
    (λ '((a, b, c, d, e, f, g), (h, i, j, k, l, m), (n, o, p, q, r, s, t), (u, v)), mkConn a b c d e f g h i j k l m n o p q r s t u v)). by intros [].
Defined.

(** A serializer that leaves out what [serde] leaves out. *)
Definition toy_read_connection (s : string) : outcome string ConnectionRecord := let? r := code_read s in Ok (cn_saved r).
Definition toy_connections : Serde ConnectionRecord := {|
  sd_to_value r := Ok (JString (code_text (cn_saved r)));
  sd_from_value v := match v with JString s => toy_read_connection s | _ => Err "invalid type" end;
  sd_to_text r := Ok (code_text (cn_saved r));
  sd_from_text := toy_read_connection
|}.
#[local] Existing Instances plain_order toy_connections.
Lemma cn_saved_idem r : cn_saved (cn_saved r) = cn_saved r.
Proof. unfold cn_saved. cbn. by destruct (cn_metadata r) as [[]|]. Qed.
#[local] Instance toy_connections_laws : ConnSerdeLaws.
Proof.
  constructor.
  - intros x s [= <-]. cbn. unfold toy_read_connection. rewrite code_back. by rewrite cn_saved_idem.
  - intros s x. cbn. unfold toy_read_connection. destruct (code_read s) as [y| |]; [|done..]. intros [= <-]. cbn. by destruct (cn_metadata y) as [[]|].
Qed.

(** Records with their other side's DID and keys. *)
Definition toy_connection (id : string) (their_did key : option string) : ConnectionRecord :=
  mkConn id DxCompleted DxResponder ("thread-" +:+ id) "inv" "did:peer:me" their_did key key None None [] [] None None None None (Some "2") "connections"
    0 0 (mkCnTags DxResponder DxCompleted ("thread-" +:+ id) "inv" "did:peer:me" their_did).
Abbreviation ToySbc := (StorageBackedConnections (gmap string (gmap string AgentRecord))).
Definition search_ids (c : cn_key) (k : string) (ops : list sbc_op) : outcome ConnectionError (list string) :=
  let '(s, w) := so_run ops (sbc_new (∅ : gmap string (gmap string AgentRecord))) world0 in
  match (sbc_search c k s w).1.1 with Ok l => Ok (cn_id <$> l) | Err e => Err e | Panic => Panic end.
Definition toy_saves : list sbc_op :=
  [SoSave (toy_connection "a" (Some "did:peer:a#key-2") (Some "ka")); SoSave (toy_connection "b" (Some "did:peer:b") None);
   SoUpdate (toy_connection "b" (Some "did:peer:b") (Some "kb"))].

Definition toy_restarted : list sbc_op := toy_saves ++ [SoRestart].
Definition toy_state : ToySbc := (so_run toy_restarted (sbc_new ∅) world0).1.

Lemma toy_run_state : so_run toy_restarted (sbc_new (∅ : gmap string (gmap string AgentRecord))) world0 = (toy_state, world0).
Proof. vm_compute. reflexivity. Qed.
Lemma keys_kept_cons o ops s w s1 w1 :
  so_run1 o s w = (s1, w1) → match o with SoUpdate x => keeps_keys s x | _ => True end → keys_kept ops s1 w1 → keys_kept (o :: ops) s w.
Proof. intros H1 Hk Hr. cbn [keys_kept]. by rewrite H1. Qed.
Lemma toy_kept : keys_kept toy_restarted (sbc_new (∅ : gmap string (gmap string AgentRecord))) world0.
Proof.
  eapply keys_kept_cons; [vm_compute; reflexivity|exact I|]. eapply keys_kept_cons; [vm_compute; reflexivity|exact I|].
  eapply keys_kept_cons; [vm_compute; reflexivity| |].
  { intros y Hy c. vm_compute in Hy. injection Hy as <-. destruct c; [by left|by left|by right]. }
  eapply keys_kept_cons; [vm_compute; reflexivity|exact I|exact I].
Qed.
Theorem key_search_exact_witness :
  ∃ l, (sbc_search CkAuth "kb" toy_state world0).1.1 = Ok l ∧ found_exactly toy_state CkAuth "kb" l ∧ cn_id <$> l = ["b"].
Proof.
  assert (Hs : let '(s, w') := so_run toy_restarted (sbc_new (∅ : gmap string (gmap string AgentRecord))) world0 in
    let '(r, _, _) := sbc_search CkAuth "kb" s w' in match r with Ok l => found_exactly s CkAuth "kb" l | _ => True end).
  { pose proof (key_search_exact (∅ : gmap string (gmap string AgentRecord)) toy_restarted world0 CkAuth "kb") as Hs.
    destruct (so_run _ _ _) as [s w']. destruct (sbc_search _ _ s w') as [[r s'] w'']. apply Hs; [| |exact toy_kept].
    - intros n x Hx. vm_compute in Hx. discriminate.
    - intros i x Hx. vm_compute in Hx. discriminate. }
  rewrite toy_run_state in Hs. cbv beta iota in Hs.
  assert (Hl : match (sbc_search CkAuth "kb" toy_state world0).1.1 with Ok l => cn_id <$> l = ["b"] | _ => False end) by (vm_compute; reflexivity).
  destruct (sbc_search CkAuth "kb" toy_state world0) as [[[l|e|] s'] w']; [|done..]. by exists l.
Defined.

Example searched_after_restart : search_ids CkDid "did:peer:a" toy_restarted = Ok ["a"] ∧ search_ids CkDid "did:peer:a" toy_saves = Ok [].
Proof. by vm_compute. Qed.

(** ** Where the code falls short *)

(** Of two connections with one DID only the later one is found, where the in-memory repository
    gives both. *)
Definition toy_twice : list sbc_op := [SoSave (toy_connection "a" (Some "did:peer:x") (Some "k")); SoSave (toy_connection "b" (Some "did:peer:x") (Some "k"))].
Example one_of_two : search_ids CkDid "did:peer:x" toy_twice = Ok ["b"].
Proof. by vm_compute. Qed.
Example both_of_two :
  (er_filter (S:=gmap string ConnectionRecord) (E:=ConnectionError) (λ r, bool_decide (cnt_their_did (cn_tags r) = Some "did:peer:x"))
     (<["a" := toy_connection "a" (Some "did:peer:x") None]> {["b" := toy_connection "b" (Some "did:peer:x") None]}) world0).1.1 =
  Ok [toy_connection "a" (Some "did:peer:x") None; toy_connection "b" (Some "did:peer:x") None].
Proof. by vm_compute. Qed.

(** The index still leads to a connection that was deleted: the other one with its key is not
    found until the process restarts. *)
Example deleted_hides_other :
  let '(s, w) := so_run toy_twice (sbc_new (∅ : gmap string (gmap string AgentRecord))) world0 in
  let s := (sbc_delete "b" s w).1.2 in
  (sbc_find_by_auth_key "k" s w).1.1 = Ok None ∧ cn_id <$> option_list (sbc_cached s !! "a") = ["a"].
Proof. by vm_compute. Qed.

(** A connection is found under the key that an update replaced. *)
Example replaced_key_found :
  search_ids CkAuth "k" [SoSave (toy_connection "a" None (Some "k")); SoUpdate (toy_connection "a" None (Some "k2"))] = Ok ["a"].
Proof. by vm_compute. Qed.
