(* ===== verification/BasicMessages.v ===== *)
(** Basic messages ([src/protocols/basic_messages/src]): the messages, their records and
    repositories, the service and the handlers for messages, edits and deletions.

    The event bus is the list of what was emitted.  The repositories of messages and of
    connections are behind the interface of [RecordRepo]. *)
From S2P Require Import Prelude AjnaTypes StdText SerdeJson Storage Didcomm RecordRepo Oob Connections.

(** * Messages *)

(** [src/protocols/basic_messages/src/messages/basic_message.rs:11-11] BASIC_MESSAGE_TYPE *)
Definition BASIC_MESSAGE_TYPE : string := "https://didcomm.org/basicmessage/1.0/message".

(** [src/protocols/basic_messages/src/messages/basic_message.rs:52-60] Thread *)
Record BmThread := mkBmThread { bmt_thid : option string; bmt_pthid : option string }.

(** [src/protocols/basic_messages/src/messages/basic_message.rs:18-48] BasicMessage, L10n *)
Record BasicMessage := mkBasicMessage {
  bmg_id : string;
  bmg_msg_type : string;
  bmg_content : string;
  bmg_sent_time : string;
  bmg_locale : option string;
  bmg_thread : option BmThread
}.

(** [src/protocols/basic_messages/src/messages/edit_message.rs:11-11] EDIT_MESSAGE_TYPE *)
Definition EDIT_MESSAGE_TYPE : string := "https://didcomm.org/basicmessage/1.0/edit".

(** [src/protocols/basic_messages/src/messages/edit_message.rs:18-35] EditMessage *)
Record EditMessage := mkEdit { edm_id : string; edm_msg_type : string; edm_message_id : string; edm_content : string; edm_edited_time : string }.

(** [src/protocols/basic_messages/src/messages/delete_message.rs:11-11] DELETE_MESSAGE_TYPE *)
Definition DELETE_MESSAGE_TYPE : string := "https://didcomm.org/basicmessage/1.0/delete".

(** [src/protocols/basic_messages/src/messages/delete_message.rs:18-32] DeleteMessage *)
Record DeleteMessage := mkDeleteMsg { dlm_id : string; dlm_msg_type : string; dlm_message_id : string; dlm_deleted_time : string }.

Section messages.
Context `{UuidText} `{Rfc3339}.

(** [src/protocols/basic_messages/src/messages/basic_message.rs:81-92] BasicMessage::with_id *)
Definition bmg_with_id (id content : string) (w : World) : BasicMessage * World :=
  let '(now, w) := utc_now w in (mkBasicMessage id BASIC_MESSAGE_TYPE content (to_rfc3339 now) (Some "en") None, w).

(** [src/protocols/basic_messages/src/messages/basic_message.rs:67-78] BasicMessage::new *)
Definition bmg_new (content : string) (w : World) : BasicMessage * World :=
  let '(u, w) := uuid_new_v4 w in bmg_with_id (uuid_to_string u) content w.

(** [src/protocols/basic_messages/src/messages/basic_message.rs:95-100] BasicMessage::with_locale *)
Definition bmg_with_locale (locale : string) (m : BasicMessage) : BasicMessage :=
  mkBasicMessage (bmg_id m) (bmg_msg_type m) (bmg_content m) (bmg_sent_time m) (Some locale) (bmg_thread m).

(** [src/protocols/basic_messages/src/messages/basic_message.rs:103-110] BasicMessage::with_thread *)
Definition bmg_with_thread (parent_thread_id : string) (m : BasicMessage) (w : World) : BasicMessage * World :=
  let '(u, w) := uuid_new_v4 w in
  (mkBasicMessage (bmg_id m) (bmg_msg_type m) (bmg_content m) (bmg_sent_time m) (bmg_locale m)
     (Some (mkBmThread (Some (uuid_to_string u)) (Some parent_thread_id))), w).

(** [src/protocols/basic_messages/src/messages/basic_message.rs:113-115] BasicMessage::thread_id *)
Definition bmg_thread_id (m : BasicMessage) : option string := bmg_thread m ≫= bmt_thid.

(** [src/protocols/basic_messages/src/messages/basic_message.rs:118-120] BasicMessage::parent_thread_id *)
Definition bmg_parent_thread_id (m : BasicMessage) : option string := bmg_thread m ≫= bmt_pthid.

(** [src/protocols/basic_messages/src/messages/edit_message.rs:54-66] EditMessage::with_id *)
Definition edm_with_id (id message_id content : string) (w : World) : EditMessage * World :=
  let '(now, w) := utc_now w in (mkEdit id EDIT_MESSAGE_TYPE message_id content (to_rfc3339 now), w).

(** [src/protocols/basic_messages/src/messages/edit_message.rs:43-51] EditMessage::new *)
Definition edm_new (message_id content : string) (w : World) : EditMessage * World :=
  let '(u, w) := uuid_new_v4 w in edm_with_id (uuid_to_string u) message_id content w.

(** [src/protocols/basic_messages/src/messages/delete_message.rs:49-56] DeleteMessage::with_id *)
Definition dlm_with_id (id message_id : string) (w : World) : DeleteMessage * World :=
  let '(now, w) := utc_now w in (mkDeleteMsg id DELETE_MESSAGE_TYPE message_id (to_rfc3339 now), w).

(** [src/protocols/basic_messages/src/messages/delete_message.rs:39-46] DeleteMessage::new *)
Definition dlm_new (message_id : string) (w : World) : DeleteMessage * World :=
  let '(u, w) := uuid_new_v4 w in dlm_with_id (uuid_to_string u) message_id w.
End messages.

(** * Records *)

(** [src/protocols/basic_messages/src/repository/basic_message_record.rs:11-16] BasicMessageRole *)
Inductive BasicMessageRole := BmSender | BmReceiver.
#[export] Instance BasicMessageRole_eq_dec : EqDecision BasicMessageRole.
Proof. solve_decision. Defined.
Definition bm_role_str (role : BasicMessageRole) : string := match role with BmSender => "sender" | BmReceiver => "receiver" end.

(** [src/protocols/basic_messages/src/repository/basic_message_record.rs:57-73] BasicMessageTags *)
Record BasicMessageTags := mkBmTags {
  bmtg_connection_id : option string;
  bmtg_role : option string;
  bmtg_thread_id : option string;
  bmtg_parent_thread_id : option string
}.

(** [src/protocols/basic_messages/src/repository/basic_message_record.rs:23-53] BasicMessageRecord *)
Record BasicMessageRecord := mkBmr {
  bmr_id : string;
  bmr_connection_id : string;
  bmr_role : BasicMessageRole;
  bmr_content : string;
  bmr_sent_time : string;
  bmr_thread_id : option string;
  bmr_parent_thread_id : option string;
  bmr_created_at : string;
  bmr_tags : BasicMessageTags
}.

(** [src/protocols/basic_messages/src/repository/basic_message_record.rs:77-106] BasicMessageRecord::new *)
Definition bmr_new `{Rfc3339} (id connection_id : string) (role : BasicMessageRole) (content sent_time : string) (w : World) : BasicMessageRecord * World :=
  let '(now, w) := utc_now w in
  (mkBmr id connection_id role content sent_time None None (to_rfc3339 now) (mkBmTags (Some connection_id) (Some (bm_role_str role)) None None), w).

(** [src/protocols/basic_messages/src/repository/basic_message_record.rs:109-120] BasicMessageRecord::with_thread *)
Definition bmr_with_thread (thread_id : string) (parent_thread_id : option string) (r : BasicMessageRecord) : BasicMessageRecord :=
  mkBmr (bmr_id r) (bmr_connection_id r) (bmr_role r) (bmr_content r) (bmr_sent_time r) (Some thread_id) parent_thread_id (bmr_created_at r)
    (mkBmTags (bmtg_connection_id (bmr_tags r)) (bmtg_role (bmr_tags r)) (Some thread_id) parent_thread_id).

Definition bmr_with_content (content : string) (r : BasicMessageRecord) : BasicMessageRecord :=
  mkBmr (bmr_id r) (bmr_connection_id r) (bmr_role r) content (bmr_sent_time r) (bmr_thread_id r) (bmr_parent_thread_id r) (bmr_created_at r) (bmr_tags r).

(** * Repositories *)

(** [src/protocols/basic_messages/src/repository/basic_message_repository.rs:16-25] BasicMessageError *)
Inductive BasicMessageError := BmeNotFound (s : string) | BmeAlreadyExists (s : string) | BmeStorage (s : string).
(** The derived [Display] text. *)
Definition bme_to_string (e : BasicMessageError) : string :=
  match e with
  | BmeNotFound s => "Basic message not found: " +:+ s
  | BmeAlreadyExists s => "Basic message already exists: " +:+ s
  | BmeStorage s => "Storage error: " +:+ s
  end.

(** [src/protocols/basic_messages/src/repository/basic_message_repository.rs:91-179] BasicMessageRepository (its calls are those of [RecordRepo]) *)
#[export] Instance bm_key : RecordKey BasicMessageRecord BasicMessageError :=
  {| rk_id := bmr_id; rk_already := BmeAlreadyExists; rk_not_found := BmeNotFound |}.

(** [src/protocols/basic_messages/src/repository/basic_message_repository.rs:29-41] BasicMessageQuery *)
Record BasicMessageQuery := mkBmQuery {
  bmq_connection_id : option string;
  bmq_role : option BasicMessageRole;
  bmq_thread_id : option string;
  bmq_parent_thread_id : option string
}.
(** What is asked for, if anything. *)
Definition asked_for {A} `{EqDecision A} (o : option A) (a : option A) : bool := match o with Some x => bool_decide (a = Some x) | None => true end.

(** [src/protocols/basic_messages/src/repository/basic_message_repository.rs:142-160] BasicMessageRepository::find_by_query (the four filters) *)
Definition bmq_matches (q : BasicMessageQuery) (r : BasicMessageRecord) : bool :=
  asked_for (bmq_connection_id q) (Some (bmr_connection_id r)) && asked_for (bmq_role q) (Some (bmr_role r)) &&
  asked_for (bmq_thread_id q) (bmr_thread_id r) && asked_for (bmq_parent_thread_id q) (bmr_parent_thread_id r).

(** A stable sort by a text. *)
Fixpoint insert_by_text {A} (f : A → string) (x : A) (l : list A) : list A :=
  match l with [] => [x] | y :: l' => if str_le (f x) (f y) then x :: l else y :: insert_by_text f x l' end.
Definition sort_by_text {A} (f : A → string) (l : list A) : list A := foldr (insert_by_text f) [] l.

Section finders.
Context {S : Type} `{!ExchangeRepo S BasicMessageRecord BasicMessageError}.

(** [src/protocols/basic_messages/src/repository/basic_message_repository.rs:120-128] BasicMessageRepository::find_by_connection_id *)
Definition bm_find_by_connection_id (connection_id : string) : eff BasicMessageError S (list BasicMessageRecord) :=
  er_filter (λ r, bool_decide (bmr_connection_id r = connection_id)).

(** [src/protocols/basic_messages/src/repository/basic_message_repository.rs:130-136] BasicMessageRepository::find_by_thread_id *)
Definition bm_find_by_thread_id (thread_id : string) : eff BasicMessageError S (option BasicMessageRecord) :=
  er_find (λ r, bool_decide (bmr_thread_id r = Some thread_id)).

(** [src/protocols/basic_messages/src/repository/basic_message_repository.rs:138-163] BasicMessageRepository::find_by_query *)
Definition bm_find_by_query (query : BasicMessageQuery) : eff BasicMessageError S (list BasicMessageRecord) := er_filter (bmq_matches query).

(** [src/protocols/basic_messages/src/repository/storage_backed_repository.rs:197-210] StorageBackedBasicMessageRepository::find_by_connection_id *)
Definition sbm_find_by_connection_id (connection_id : string) : eff BasicMessageError S (list BasicMessageRecord) :=
  sort_by_text bmr_sent_time <$> bm_find_by_connection_id connection_id.

(** [src/protocols/basic_messages/src/repository/storage_backed_repository.rs:222-251] StorageBackedBasicMessageRepository::find_by_query *)
Definition sbm_find_by_query (query : BasicMessageQuery) : eff BasicMessageError S (list BasicMessageRecord) :=
  sort_by_text bmr_sent_time <$> bm_find_by_query query.

(** [src/protocols/basic_messages/src/repository/storage_backed_repository.rs:277-284] StorageBackedBasicMessageRepository::get_all *)
Definition sbm_get_all : eff BasicMessageError S (list BasicMessageRecord) := sort_by_text bmr_sent_time <$> er_get_all.
End finders.

(** [src/protocols/basic_messages/src/repository/storage_backed_repository.rs:62-74] StorageBackedBasicMessageRepository::ensure_cache (a record that is read) *)
Definition bmr_retag (r : BasicMessageRecord) : BasicMessageRecord :=
  mkBmr (bmr_id r) (bmr_connection_id r) (bmr_role r) (bmr_content r) (bmr_sent_time r) (bmr_thread_id r) (bmr_parent_thread_id r) (bmr_created_at r)
    (mkBmTags (Some (bmr_connection_id r)) (Some (bm_role_str (bmr_role r))) (bmr_thread_id r) (bmr_parent_thread_id r)).

(** [src/protocols/basic_messages/src/repository/storage_backed_repository.rs:102-118] StorageBackedBasicMessageRepository::to_storage_record (the tags) *)
Definition bmr_storage_tags (r : BasicMessageRecord) : gmap string string :=
  let tags := <["role" := bm_role_str (bmr_role r)]> (<["sent_time" := bmr_sent_time r]> (<["connection_id" := bmr_connection_id r]> ∅)) in
  given (λ t, <["parent_thread_id" := t]>) (bmr_parent_thread_id r) (given (λ t, <["thread_id" := t]>) (bmr_thread_id r) tags).

(** [src/protocols/basic_messages/src/repository/storage_backed_repository.rs:19-19] BASIC_MESSAGE_CATEGORY *)
Definition BASIC_MESSAGE_CATEGORY : string := "basic_message".

(** [src/protocols/basic_messages/src/repository/storage_backed_repository.rs:45-191] StorageBackedBasicMessageRepository (the kind of record; its calls are those of [RecordRepo]) *)
#[export] Instance bm_kind `{Serde BasicMessageRecord} : RecordKind BasicMessageRecord BasicMessageError := {|
  rk_key := bm_key;
  rk_category := BASIC_MESSAGE_CATEGORY;
  rk_tags := bmr_storage_tags;
  rk_encode r := match sd_to_text r with Ok s => Ok s | Err e => Err (BmeStorage ("Failed to serialize message: " +:+ e)) | Panic => Panic end;
  rk_decode s := match sd_from_text s with Ok r => Some (bmr_retag r) | _ => None end;
  rk_load_failed e := BmeStorage ("Failed to load messages: " +:+ ag_to_string e);
  rk_save_failed e := BmeStorage ("Failed to save message: " +:+ ag_to_string e);
  rk_update_failed e := BmeStorage ("Failed to update message: " +:+ ag_to_string e);
  rk_delete_failed e := BmeStorage ("Failed to delete message: " +:+ ag_to_string e)
|}.
#[export] Instance bm_kind_laws `{JsonText} `{Serde BasicMessageRecord} `{!SerdeLaws BasicMessageRecord} : RecordKindLaws BasicMessageRecord BasicMessageError.
Proof.
  refine {| rk_reloaded := bmr_retag |}; [done| |].
  - intros x v. cbn. destruct (sd_to_text x) as [s| |] eqn:Hs; [|done..]. intros [= ->]. by rewrite (sd_text_back _ _ Hs).
  - intros v x. cbn. destruct (sd_from_text v); [|done..]. by intros [= <-].
Defined.

(** * The service *)

(** [src/protocols/basic_messages/src/events.rs:31-72] BasicMessageStateChangedPayload, BasicMessageEditedPayload, BasicMessageDeletedPayload *)
Inductive BasicMessageEvent :=
  | BmStateChanged (record : BasicMessageRecord) (message : BasicMessage)
  | BmEdited (message_id new_content edited_time connection_id : string)
  | BmDeleted (message_id deleted_time connection_id : string).

(** [src/protocols/basic_messages/src/services/basic_message_service.rs:17-26] BasicMessageServiceError *)
Inductive BasicMessageServiceError := BmsRepository (e : BasicMessageError) | BmsConnectionNotFound | BmsInvalidMessage (s : string).
(** The derived [Display] text. *)
Definition bms_to_string (e : BasicMessageServiceError) : string :=
  match e with
  | BmsRepository e => "Repository error: " +:+ bme_to_string e
  | BmsConnectionNotFound => "Connection not found"
  | BmsInvalidMessage s => "Invalid message: " +:+ s
  end.

(** What the service and the handlers share.
    [src/protocols/basic_messages/src/services/basic_message_service.rs:31-39] *)
Record BasicMessages (RS CR : Type) := mkBasicMessages {
  bmx_repository : RS;
  bmx_connections : CR;
  bmx_event_bus : list BasicMessageEvent
}.
Arguments mkBasicMessages {RS CR}.
Arguments bmx_repository {RS CR}.
Arguments bmx_connections {RS CR}.
Arguments bmx_event_bus {RS CR}.
#[export] Instance basic_messages_repo {RS CR} : HasRepo (BasicMessages RS CR) RS := {|
  repo_of := bmx_repository; with_repo r s := mkBasicMessages r (bmx_connections s) (bmx_event_bus s); repo_of_with _ _ := eq_refl
|}.

(** What a handler asks the repository of connections for. *)
Class ConnectionLookup (CR : Type) := {
  clk_find_by_id : string → eff ConnectionError CR (option ConnectionRecord);
  clk_find_by_their_did : string → eff ConnectionError CR (list ConnectionRecord);
  clk_get_all : eff ConnectionError CR (list ConnectionRecord)
}.
#[export] Instance repository_lookup {CR} `{!ExchangeRepo CR ConnectionRecord ConnectionError} : ConnectionLookup CR :=
  {| clk_find_by_id := er_find_by_id; clk_find_by_their_did := cn_find_by_their_did; clk_get_all := er_get_all |}.

Section service.
Context `{HashOrder} `{UuidText} `{Rfc3339} {RS CR : Type} `{!ExchangeRepo RS BasicMessageRecord BasicMessageError} `{!ConnectionLookup CR}.
Abbreviation BMX := (BasicMessages RS CR).
Abbreviation bms := (eff BasicMessageServiceError BMX).

(** A call of the repository of messages. *)
Definition bm_records {E A} (err : BasicMessageError → E) (m : eff BasicMessageError RS A) : eff E BMX A :=
  eff_zoom bmx_repository (λ r s, mkBasicMessages r (bmx_connections s) (bmx_event_bus s)) err m.
Definition bm_emit {E} (event : BasicMessageEvent) : eff E BMX unit :=
  eff_modify (λ s, mkBasicMessages (bmx_repository s) (bmx_connections s) (bmx_event_bus s ++ [event])).

(** [src/protocols/basic_messages/src/services/basic_message_service.rs:71-113] BasicMessageService::create_message *)
Definition bm_create_message (content : string) (connection : ConnectionRecord) (parent_thread_id : option string)
    : bms (BasicMessage * BasicMessageRecord) :=
  message ← eff_world (bmg_new content);
  message ← match parent_thread_id with Some ptid => eff_world (bmg_with_thread ptid message) | None => mret message end;
  record ← eff_world (bmr_new (bmg_id message) (cn_id connection) BmSender content (bmg_sent_time message));
  let record := match bmg_thread_id message with Some t => bmr_with_thread t parent_thread_id record | None => record end in
  _ ← bm_records BmsRepository (er_save record);
  _ ← bm_emit (BmStateChanged record message);
  mret (message, record).

(** [src/protocols/basic_messages/src/services/basic_message_service.rs:119-161] BasicMessageService::create_edit *)
Definition bm_create_edit (message_id new_content connection_id : string) : bms (EditMessage * BasicMessageRecord) :=
  o ← bm_records BmsRepository (er_find_by_id message_id);
  match o with
  | None => eff_throw (BmsInvalidMessage ("message not found: " +:+ message_id))
  | Some original =>
      edit ← eff_world (edm_new message_id new_content);
      let updated := bmr_with_content new_content original in
      _ ← bm_records BmsRepository (er_update updated);
      _ ← bm_emit (BmEdited message_id new_content (edm_edited_time edit) connection_id);
      mret (edit, updated)
  end.

(** [src/protocols/basic_messages/src/services/basic_message_service.rs:171-212] BasicMessageService::save_incoming *)
Definition bm_save_incoming (message : BasicMessage) (connection : ConnectionRecord) : bms BasicMessageRecord :=
  record ← eff_world (bmr_new (bmg_id message) (cn_id connection) BmReceiver (bmg_content message) (bmg_sent_time message));
  let record := match bmg_thread_id message with Some t => bmr_with_thread t (bmg_parent_thread_id message) record | None => record end in
  _ ← bm_records BmsRepository (er_save record);
  _ ← bm_emit (BmStateChanged record message);
  mret record.

(** * The handlers *)

Context `{Serde BasicMessage} `{Serde EditMessage} `{Serde DeleteMessage}.
Abbreviation bmh := (eff MessageHandlerError BMX).

(** What a lookup answers, its error included: it does not end the handler. *)
Definition bm_lookup {A} (m : eff ConnectionError CR A) : bmh (ConnectionError + A) :=
  eff_zoom bmx_connections (λ c s, mkBasicMessages (bmx_repository s) c (bmx_event_bus s))
    (λ e, MheOther (cne_to_string e)) (eff_catch m).
Definition bm_body {A} `{Serde A} (what : string) (inbound : InboundMessage) : bmh A :=
  eff_lift (match sd_from_value (msg_body (in_message inbound)) with
            | Ok a => Ok a | Err e => Err (InvalidMessage ("Failed to parse " +:+ what +:+ " message: " +:+ e)) | Panic => Panic end).
Definition no_connection : MessageHandlerError := ProcessingFailed "Failed to get connection: Connection not found".

(** The connection of the context, if it is known. *)
Definition context_connection (inbound : InboundMessage) : bmh (option ConnectionRecord) :=
  match ctx_connection_id (in_context inbound) with
  | Some connection_id => r ← bm_lookup (clk_find_by_id connection_id); mret (match r with inr o => o | inl _ => None end)
  | None => mret None
  end.
(** The first connection of the sender's DID. *)
Definition sender_connection (from : string) : bmh (option ConnectionRecord) :=
  r ← bm_lookup (clk_find_by_their_did from); mret (match r with inr l => head l | inl _ => None end).

(** [src/protocols/basic_messages/src/handlers/basic_message_handler.rs:60-115] BasicMessageHandler::get_connection *)
Definition message_connection (inbound : InboundMessage) : bmh ConnectionRecord :=
  o ← context_connection inbound;
  match o with
  | Some conn => mret conn
  | None =>
      match msg_from (in_message inbound) with
      | None => eff_throw no_connection
      | Some from =>
          o ← sender_connection from;
          match o with
          | Some conn => mret conn
          | None =>
              r ← bm_lookup clk_get_all;
              match r with
              | inr all =>
                  match find_first (λ c, bool_decide (cn_their_authentication_key c = Some from ∨ cn_their_key_agreement_key c = Some from) = true) all with
                  | Some conn => mret conn
                  | None => eff_throw no_connection
                  end
              | inl _ => eff_throw no_connection
              end
          end
      end
  end.

(** [src/protocols/basic_messages/src/handlers/edit_handler.rs:77-98] EditHandler::get_connection (and that of the delete handler) *)
Definition change_connection (inbound : InboundMessage) : bmh ConnectionRecord :=
  o ← context_connection inbound;
  match o with
  | Some conn => mret conn
  | None =>
      match msg_from (in_message inbound) with
      | None => eff_throw no_connection
      | Some from => o ← sender_connection from; match o with Some conn => mret conn | None => eff_throw no_connection end
      end
  end.

(** [src/protocols/basic_messages/src/handlers/basic_message_handler.rs:127-185] BasicMessageHandler::handle *)
Definition basic_message_handle (inbound : InboundMessage) : bmh (option OutboundMessage) :=
  message ← bm_body (A:=BasicMessage) "basic" inbound;
  connection ← message_connection inbound;
  _ ← eff_zoom id (λ s _, s) (λ e, ProcessingFailed ("Failed to save message: " +:+ bms_to_string e)) (bm_save_incoming message connection);
  mret None.

(** The record a change is for, of the connection it came on. *)
Definition original_message (what message_id : string) (connection : ConnectionRecord) : bmh BasicMessageRecord :=
  o ← bm_records (λ e, ProcessingFailed ("Repository error: " +:+ bme_to_string e)) (er_find_by_id message_id);
  match o with
  | None => eff_throw (ProcessingFailed ("Original message not found: " +:+ message_id))
  | Some original =>
      if decide (bmr_connection_id original = cn_id connection) then mret original
      else eff_throw (ProcessingFailed ("Sender mismatch: " +:+ what +:+ " sender does not match original message connection"))
  end.

(** [src/protocols/basic_messages/src/handlers/edit_handler.rs:110-197] EditHandler::handle *)
Definition edit_handle (inbound : InboundMessage) : bmh (option OutboundMessage) :=
  edit_msg ← bm_body (A:=EditMessage) "edit" inbound;
  connection ← change_connection inbound;
  original ← original_message "edit" (edm_message_id edit_msg) connection;
  _ ← bm_records (λ e, ProcessingFailed ("Failed to update message: " +:+ bme_to_string e)) (er_update (bmr_with_content (edm_content edit_msg) original));
  _ ← bm_emit (BmEdited (edm_message_id edit_msg) (edm_content edit_msg) (edm_edited_time edit_msg) (cn_id connection));
  mret None.

(** [src/protocols/basic_messages/src/handlers/delete_handler.rs:110-195] DeleteHandler::handle *)
Definition delete_handle (inbound : InboundMessage) : bmh (option OutboundMessage) :=
  delete_msg ← bm_body (A:=DeleteMessage) "delete" inbound;
  connection ← change_connection inbound;
  _ ← original_message "delete" (dlm_message_id delete_msg) connection;
  _ ← bm_records (λ e, ProcessingFailed ("Failed to delete message: " +:+ bme_to_string e)) (er_delete (dlm_message_id delete_msg));
  _ ← bm_emit (BmDeleted (dlm_message_id delete_msg) (dlm_deleted_time delete_msg) (cn_id connection));
  mret None.
End service.
