(* ===== verification/BasicMessageProps.v ===== *)
(** What a conversation promises: a record of a message is made by the two parties of its
    connection, only they change it, and what one sends the other has. *)
From stdpp Require Import countable.
From S2P Require Import Prelude AjnaTypes StdText SerdeJson Storage Didcomm RecordRepo RecordSpec Oob Connections ConnStore BasicMessages.

Section parties.
Context `{UuidText} `{Rfc3339} `{Serde BasicMessage} `{Serde EditMessage} `{Serde DeleteMessage}.
Context {RS CR : Type} `{!ExchangeRepo RS BasicMessageRecord BasicMessageError} `{!ExchangeRepoLaws RS BasicMessageRecord BasicMessageError}
  `{!ExchangeRepo CR ConnectionRecord ConnectionError} `{!ExchangeRepoLaws CR ConnectionRecord ConnectionError}.
Abbreviation BMX := (BasicMessages RS CR).
Abbreviation bmh := (eff MessageHandlerError BMX).
Implicit Types (x y r : BasicMessageRecord) (v : string → option BasicMessageRecord) (cv : string → option ConnectionRecord).

(** * Runs *)

(** What happens to the messages of an agent: it sends, edits or removes one, or a message
    arrives, at a time when the connections are the given ones. *)
Inductive bm_call :=
  | BcSend (content : string) (connection : ConnectionRecord) (parent_thread_id : option string)
  | BcEdit (message_id new_content connection_id : string)
  | BcRemove (message_id : string)
  | BcMessage (connections : CR) (m : InboundMessage)
  | BcEdited (connections : CR) (m : InboundMessage)
  | BcDeleted (connections : CR) (m : InboundMessage).

Definition bm_with_connections (c : CR) (s : BMX) : BMX := mkBasicMessages (bmx_repository s) c (bmx_event_bus s).
Definition bm_service {A} (m : eff BasicMessageServiceError BMX A) : bmh A := eff_zoom id (λ s _, s) (λ e, ProcessingFailed (bms_to_string e)) m.
Definition bm_run1 (c : bm_call) : bmh unit :=
  match c with
  | BcSend content conn ptid => bm_service (bm_create_message content conn ptid);; mret tt
  | BcEdit i content c => bm_service (bm_create_edit i content c);; mret tt
  | BcRemove i => bm_records (λ e, ProcessingFailed (bme_to_string e)) (er_delete i)
  | BcMessage cs m => eff_modify (bm_with_connections cs);; basic_message_handle m;; mret tt
  | BcEdited cs m => eff_modify (bm_with_connections cs);; edit_handle m;; mret tt
  | BcDeleted cs m => eff_modify (bm_with_connections cs);; delete_handle m;; mret tt
  end.
(** A run: the calls one after the other, whatever they answer. *)
Fixpoint bm_run (calls : list bm_call) (s : BMX) (w : World) : BMX * World :=
  match calls with
  | [] => (s, w)
  | c :: calls => let '(_, s, w) := bm_run1 c s w in bm_run calls s w
  end.
Definition call_connections (c : bm_call) : option CR :=
  match c with BcMessage cs _ | BcEdited cs _ | BcDeleted cs _ => Some cs | _ => None end.
Definition connections_ok (calls : list bm_call) : Prop := ∀ c cs, c ∈ calls → call_connections c = Some cs → er_ok cs.

(** * Who says what *)

(** A message speaks for a connection when it came in on it, or from its DID or one of its keys. *)
Definition speaks_for cv (inbound : InboundMessage) (c : ConnectionRecord) : Prop :=
  cv (cn_id c) = Some c ∧
  (ctx_connection_id (in_context inbound) = Some (cn_id c) ∨
   ∃ from, msg_from (in_message inbound) = Some from ∧
     (cnt_their_did (cn_tags c) = Some from ∨ cn_their_authentication_key c = Some from ∨ cn_their_key_agreement_key c = Some from)).

Section evidence.
Context (calls : list bm_call).
Definition peer_wrote (c : string) (m : BasicMessage) : Prop :=
  ∃ cs i (x : ConnectionRecord), BcMessage cs i ∈ calls ∧ sd_from_value (msg_body (in_message i)) = Ok m ∧ speaks_for (er_view cs) i x ∧ cn_id x = c.
Definition peer_changed (c message_id content : string) : Prop :=
  ∃ cs i (x : ConnectionRecord) (e : EditMessage), BcEdited cs i ∈ calls ∧ sd_from_value (msg_body (in_message i)) = Ok e ∧ edm_message_id e = message_id ∧
    edm_content e = content ∧ speaks_for (er_view cs) i x ∧ cn_id x = c.
Definition peer_withdrew (c message_id : string) : Prop :=
  ∃ cs i (x : ConnectionRecord) (d : DeleteMessage), BcDeleted cs i ∈ calls ∧ sd_from_value (msg_body (in_message i)) = Ok d ∧ dlm_message_id d = message_id ∧
    speaks_for (er_view cs) i x ∧ cn_id x = c.
Definition we_sent (c content : string) (parent : option string) : Prop := ∃ x : ConnectionRecord, BcSend content x parent ∈ calls ∧ cn_id x = c.
Definition we_changed (message_id content : string) : Prop := ∃ c, BcEdit message_id content c ∈ calls.
Definition we_removed (message_id : string) : Prop := BcRemove message_id ∈ calls.

(** ** The machine of a record *)

Inductive bm_born : BasicMessageRecord → Prop :=
  | born_sent r parent : bmr_role r = BmSender → we_sent (bmr_connection_id r) (bmr_content r) parent →
      bmr_parent_thread_id r = parent → bmr_retag r = r → bm_born r
  | born_received r m : bmr_role r = BmReceiver → peer_wrote (bmr_connection_id r) m →
      bmr_id r = bmg_id m → bmr_content r = bmg_content m → bmr_sent_time r = bmg_sent_time m → bmr_thread_id r = bmg_thread_id m →
      (bmr_thread_id r ≠ None → bmr_parent_thread_id r = bmg_parent_thread_id m) → bmr_retag r = r → bm_born r.
Inductive bm_step : BasicMessageRecord → BasicMessageRecord → Prop :=
  | step_rewritten x content : we_changed (bmr_id x) content ∨ peer_changed (bmr_connection_id x) (bmr_id x) content → bm_step x (bmr_with_content content x).
Definition bm_gone x : Prop := we_removed (bmr_id x) ∨ peer_withdrew (bmr_connection_id x) (bmr_id x).

(** The same message, whatever it says by now. *)
Definition same_message x y : Prop := bmr_with_content (bmr_content y) x = y.
#[export] Instance same_message_refl : Reflexive same_message.
Proof. by intros []. Qed.
#[export] Instance same_message_trans : Transitive same_message.
Proof. intros x y z Hxy <-. unfold same_message in *. rewrite <-Hxy. by destruct x. Qed.

(** Where a record comes from, and what it says. *)
Definition bm_story v r : Prop :=
  ∃ x, (v (bmr_id r) = Some x ∨ bm_born x) ∧ same_message x r ∧
    (bmr_content r = bmr_content x ∨ we_changed (bmr_id r) (bmr_content r) ∨ peer_changed (bmr_connection_id r) (bmr_id r) (bmr_content r)).
Lemma story_born v r : bm_born r → bm_story v r.
Proof. exists r. split; [by right|]. split; [reflexivity|by left]. Qed.
Lemma story_step v x y : bm_step x y → bm_story v x → bm_story v y.
Proof.
  destruct 1 as [x content Hc]. intros (z & Hz & Hsame & _). exists z. split; [exact Hz|].
  split; [by trans x; [exact Hsame|destruct x]|]. destruct Hc as [Hc|Hc]; [right; by left|right; by right].
Qed.
End evidence.

(** * The handlers take the records along the machine *)

Section calls.
Context (calls : list bm_call).
Abbreviation ev v m F := (evolves (T:=BMX) (RS:=RS) (bm_born calls) (bm_step calls) (bm_gone calls) v m F).
(** The connections of the state, as the part that is looked up. *)
#[local] Instance connections_repo : HasRepo BMX CR := {|
  repo_of := bmx_connections; with_repo c s := mkBasicMessages (bmx_repository s) c (bmx_event_bus s); repo_of_with _ _ := eq_refl
|}.
Abbreviation looks_up cv m F := (quiet (T:=BMX) (RS:=CR) cv m F).

Lemma lookup_as {A} (m : eff ConnectionError CR A) cv F : looks_up cv (eff_catch (on_records m)) F → looks_up cv (bm_lookup m) F.
Proof.
  intros Hm s w Hs Hv. specialize (Hm s w Hs Hv). revert Hm. unfold bm_lookup, eff_zoom, eff_catch, on_records, eff_zoom. cbn.
  destruct (m (bmx_connections s) w) as [[[a|e|] c] w0]; cbn; intros (Hok & Hvs & HF); (split; [exact Hok|split; [exact Hvs|]]); intros b Hb;
    apply HF; congruence.
Qed.
Lemma context_looks cv inbound : looks_up cv (context_connection inbound) (λ o, ∀ c, o = Some c → speaks_for cv inbound c).
Proof.
  unfold context_connection. destruct (ctx_connection_id _) as [i|] eqn:Hi; [|eapply from_conseq; [apply quiet_ret|by intros ? ->|done]].
  apply quiet_keyed. intros Hk. quietly (lookup_as (er_find_by_id i) cv _ (quiet_catch _ _ _ (quiet_find_by_id cv i))).
  intros r Hr. eapply from_conseq; [apply quiet_ret| |done]. intros ? -> c Hc. destruct r as [|o]; [done|]. subst o.
  pose proof (Hk i c Hc : cn_id c = i) as <-. split; [done|by left].
Qed.
Lemma sender_looks cv inbound from :
  msg_from (in_message inbound) = Some from → looks_up cv (sender_connection from) (λ o, ∀ c, o = Some c → speaks_for cv inbound c).
Proof.
  intros Hf. unfold sender_connection. quietly (lookup_as (cn_find_by_their_did from) cv _ (quiet_catch _ _ _ (quiet_filter cv _))).
  intros r Hr. eapply from_conseq; [apply quiet_ret| |done]. intros ? -> c Hc. destruct r as [|l]; [done|].
  destruct l as [|c' l]; [done|]. injection Hc as ->. destruct (proj1 (Hr c) ltac:(set_solver)) as [Hd%bool_decide_eq_true Hv].
  split; [done|]. right. exists from. auto.
Qed.
Lemma change_looks cv inbound : looks_up cv (change_connection inbound) (speaks_for cv inbound).
Proof.
  unfold change_connection. quietly context_looks. intros [c|] Hc; [eapply from_conseq; [apply quiet_ret|intros ? ->; auto|done]|].
  destruct (msg_from _) as [from|] eqn:Hf; [|apply quiet_throw]. quietly (sender_looks cv inbound from Hf).
  intros [c|] Hc2; [eapply from_conseq; [apply quiet_ret|intros ? ->; auto|done]|apply quiet_throw].
Qed.
Lemma message_looks cv inbound : looks_up cv (message_connection inbound) (speaks_for cv inbound).
Proof.
  unfold message_connection. quietly context_looks. intros [c|] Hc; [eapply from_conseq; [apply quiet_ret|intros ? ->; auto|done]|].
  destruct (msg_from _) as [from|] eqn:Hf; [|apply quiet_throw]. quietly (sender_looks cv inbound from Hf).
  intros [c|] Hc2; [eapply from_conseq; [apply quiet_ret|intros ? ->; auto|done]|].
  quietly (lookup_as er_get_all cv _ (quiet_catch _ _ _ (quiet_get_all cv))). intros [e|l] Hl; [apply quiet_throw|].
  destruct (find_first _ l) as [c|] eqn:Hfind; [|apply quiet_throw]. apply find_first_Some in Hfind as [Hin Hp%bool_decide_eq_true].
  eapply from_conseq; [apply quiet_ret| |done]. intros ? ->. split; [by apply Hl|]. right. exists from. tauto.
Qed.

(** They leave the messages alone. *)
Lemma quiet_lookup {A} v (m : eff ConnectionError CR A) : quiet (T:=BMX) (RS:=RS) v (bm_lookup m) (λ _, True).
Proof. eapply from_conseq; [by apply quiet_zoom|done|done]. Qed.
Lemma quiet_context v inbound : quiet (T:=BMX) (RS:=RS) v (context_connection inbound) (λ _, True).
Proof.
  unfold context_connection. destruct (ctx_connection_id _) as [i|]; [quietly quiet_lookup; intros r _|];
    eapply from_conseq; [apply quiet_ret|done|done|apply quiet_ret|done|done].
Qed.
Lemma quiet_sender v from : quiet (T:=BMX) (RS:=RS) v (sender_connection from) (λ _, True).
Proof. unfold sender_connection. quietly quiet_lookup. intros r _. eapply from_conseq; [apply quiet_ret|done|done]. Qed.
Lemma quiet_found {A} v (a : A) : quiet (T:=BMX) (RS:=RS) v (mret (M:=bmh) a) (λ _, True).
Proof. by eapply from_conseq; [apply quiet_ret| |]. Qed.
Lemma quiet_change v inbound : quiet (T:=BMX) (RS:=RS) v (change_connection inbound) (λ _, True).
Proof.
  unfold change_connection. quietly quiet_context. intros [c|] _; [apply quiet_found|]. destruct (msg_from _); [|apply quiet_throw].
  quietly quiet_sender. intros [c|] _; [apply quiet_found|apply quiet_throw].
Qed.
Lemma quiet_message v inbound : quiet (T:=BMX) (RS:=RS) v (message_connection inbound) (λ _, True).
Proof.
  unfold message_connection. quietly quiet_context. intros [c|] _; [apply quiet_found|]. destruct (msg_from _); [|apply quiet_throw].
  quietly quiet_sender. intros [c|] _; [apply quiet_found|]. quietly quiet_lookup. intros [e|l] _; [apply quiet_throw|].
  destruct (find_first _ l); [apply quiet_found|apply quiet_throw].
Qed.

(** ** The service *)

Lemma ev_quiet_bm {E A B} v (m : eff E BMX A) (k : A → eff E BMX B) F G : quiet (RS:=RS) v m F → (∀ a, F a → ev v (k a) G) → ev v (m ≫= k) G.
Proof. intros Hm Hk. eapply evolves_bind; [by apply evolves_quiet|]. intros a v' [HF ->]. by apply Hk. Qed.
Lemma ev_end {E A} v (m : eff E BMX A) F : quiet (RS:=RS) v m F → ev v m (λ _ _, True).
Proof. intros Hm. eapply evolves_conseq; [by apply evolves_quiet|done]. Qed.
Lemma ev_emit {E A} v event (a : A) : ev v (_ ← bm_emit (E:=E) event; mret a) (λ _ _, True).
Proof. eapply ev_quiet_bm; [by apply quiet_modify|]. intros [] _. eapply ev_end, quiet_ret. Qed.
(** A call of the repository, with the error of its caller. *)
Lemma bm_records_as {E A} v (err : BasicMessageError → E) (m : eff BasicMessageError RS A) F : ev v (on_records m) F → ev v (bm_records err m) F.
Proof.
  intros Hm s w Hs Hv. specialize (Hm s w Hs Hv). revert Hm. unfold bm_records, on_records, eff_zoom. cbn.
  destruct (m (bmx_repository s) w) as [[[a|e|] r] w']; cbn; intros (Hok & Hvs & HF); (split; [exact Hok|split; [exact Hvs|]]); intros b Hb;
    apply HF; congruence.
Qed.
Lemma find_ev {E} v (err : BasicMessageError → E) i : ev v (bm_records err (er_find_by_id i)) (λ o v', o = v i ∧ v' = v).
Proof. by apply bm_records_as, evolves_quiet, quiet_find_by_id. Qed.
Lemma ev_keyed {E A} v (m : eff E BMX A) (F : A → _ → Prop) : ((∀ i x, v i = Some x → bmr_id x = i) → ev v m F) → ev v m F.
Proof. intros Hm s w Hs Hv. apply Hm; [|done|done]. intros i x Hx. rewrite <-Hv in Hx. exact (er_keyed (repo_of s) i x Hs Hx). Qed.

Lemma save_ev {E A} v (err : BasicMessageError → E) r event (a : A) :
  bm_born calls r → ev v (_ ← bm_records err (er_save r); _ ← bm_emit event; mret a) (λ _ _, True).
Proof. intros Hr. eapply evolves_bind; [by apply bm_records_as, evolves_save|]. intros [] v' _. apply ev_emit. Qed.
Lemma rewrite_ev {E A} v (err : BasicMessageError → E) x content event (a : A) :
  v (bmr_id x) = Some x → we_changed calls (bmr_id x) content ∨ peer_changed calls (bmr_connection_id x) (bmr_id x) content →
  ev v (_ ← bm_records err (er_update (bmr_with_content content x)); _ ← bm_emit event; mret a) (λ _ _, True).
Proof.
  intros Hx Hc. eapply evolves_bind; [eapply bm_records_as, evolves_update; [exact Hx|by constructor]|]. intros [] v' _. apply ev_emit.
Qed.

Lemma create_message_ev v content connection parent :
  we_sent calls (cn_id connection) content parent → ev v (bm_create_message content connection parent) (λ _ _, True).
Proof.
  intros Hs. unfold bm_create_message. eapply ev_quiet_bm; [apply quiet_world|]. intros m0 (w1 & w2 & Hm0).
  assert (Hth0 : bmg_thread m0 = None) by (unfold bmg_new, bmg_with_id in Hm0; cbn in Hm0; by injection Hm0 as <- _).
  eapply ev_quiet_bm with (F := λ m, bmg_thread_id m = None ∧ parent = None ∨ ∃ t, bmg_thread_id m = Some t).
  { destruct parent as [p|].
    - eapply from_conseq; [apply quiet_world| |done]. intros m (w3 & w4 & Hm). cbn in Hm. injection Hm as <- _. right. by eexists.
    - eapply from_conseq; [apply quiet_ret| |done]. intros m ->. left. unfold bmg_thread_id. by rewrite Hth0. }
  intros m Hm. eapply ev_quiet_bm; [apply quiet_world|]. intros r (w3 & w4 & Hr). cbn in Hr. injection Hr as <- _. cbv zeta. apply save_ev.
  destruct Hm as [[-> ->]|[t ->]]; by eapply born_sent.
Qed.
Lemma save_incoming_ev v message connection :
  peer_wrote calls (cn_id connection) message → ev v (bm_save_incoming message connection) (λ _ _, True).
Proof.
  intros Hm. unfold bm_save_incoming. eapply ev_quiet_bm; [apply quiet_world|]. intros r (w3 & w4 & Hr). cbn in Hr. injection Hr as <- _. cbv zeta.
  apply save_ev. destruct (bmg_thread_id message) as [t|] eqn:Ht; by eapply born_received.
Qed.
Lemma create_edit_ev v i content c : we_changed calls i content → ev v (bm_create_edit i content c) (λ _ _, True).
Proof.
  intros Hc. apply ev_keyed. intros Hk. unfold bm_create_edit. eapply evolves_bind; [apply find_ev|]. intros o v' [-> ->].
  destruct (v i) as [x|] eqn:Hx; [|eapply ev_end, (quiet_throw _ _ (λ _, True))]. pose proof (Hk i x Hx) as <-.
  eapply ev_quiet_bm; [apply quiet_world|]. intros e _. cbv zeta. apply rewrite_ev; [done|by left].
Qed.

(** ** The handlers *)

Lemma quiet_body {A} `{Serde A} v what inbound : quiet (T:=BMX) (RS:=RS) v (bm_body (A:=A) what inbound) (λ a, sd_from_value (msg_body (in_message inbound)) = Ok a).
Proof. unfold bm_body. eapply from_conseq; [apply quiet_lift| |done]. intros a Ha. destruct (sd_from_value _); naive_solver. Qed.
Lemma original_ev v what i connection :
  ev v (original_message what i connection) (λ x v', v' = v ∧ v i = Some x ∧ bmr_id x = i ∧ bmr_connection_id x = cn_id connection).
Proof.
  apply ev_keyed. intros Hk. unfold original_message. eapply evolves_bind; [apply find_ev|]. intros o v' [-> ->].
  destruct (v i) as [x|] eqn:Hx; [|eapply evolves_conseq; [apply evolves_quiet, (quiet_throw _ _ (λ _, False))|by intros ?? []]].
  case_decide as Hc; [|eapply evolves_conseq; [apply evolves_quiet, (quiet_throw _ _ (λ _, False))|by intros ?? []]].
  eapply evolves_conseq; [apply evolves_quiet, quiet_ret|]. intros ? v' [-> ->]. eauto.
Qed.

Abbreviation path := (record_path (T:=BMX) (RS:=RS) (bm_born calls) (bm_step calls) (bm_gone calls)).
Lemma ev_path {E A} (m : eff E BMX A) F s w : rs_ok (RS:=RS) s → ev (rs_view s) m F → path s (m s w).1.2.
Proof. intros Hs Hm. specialize (Hm s w Hs (λ _, eq_refl)). destruct (m s w) as [[r s'] w']. by destruct Hm as (? & ? & _). Qed.

(** A handler reads its message, and finds the connection among those that it sees. *)
Lemma seeing {A B C} `{Serde A} what inbound (look : bmh B) (P : B → Prop) (k : A → B → bmh C) (s : BMX) w :
  er_ok (bmx_connections s) → rs_ok (RS:=RS) s →
  looks_up (er_view (bmx_connections s)) look P → (∀ v, quiet (T:=BMX) (RS:=RS) v look (λ _, True)) →
  (∀ v a b, sd_from_value (msg_body (in_message inbound)) = Ok a → P b → ev v (k a b) (λ _ _, True)) →
  path s ((a ← bm_body what inbound; b ← look; k a b) s w).1.2.
Proof.
  intros Hc Hs Hlook Hq Hk. unfold bm_body. destruct (sd_from_value _) as [a|e|] eqn:Ha; [|by apply record_path_refl..].
  rewrite (eff_bind_run _ _ _ _ a s w) by done. specialize (Hlook s w Hc (λ _, eq_refl)). specialize (Hq (rs_view s) s w Hs (λ _, eq_refl)).
  unfold mbind, eff_bind. destruct (look s w) as [[[b|e|] s1] w1]; destruct Hq as (Hs1 & Hv1 & _);
    [|split; [done|intros i; cbn; by rewrite Hv1]..].
  destruct (ev_path (k a b) _ s1 w1 Hs1 (Hk _ a b eq_refl (proj2 (proj2 Hlook) b eq_refl))) as [Hs2 Hp].
  split; [done|]. intros i. rewrite Hv1. apply Hp.
Qed.

Lemma heard_message cs inbound (s : BMX) w :
  BcMessage cs inbound ∈ calls → er_ok cs → bmx_connections s = cs → rs_ok (RS:=RS) s → path s (basic_message_handle inbound s w).1.2.
Proof.
  intros Hin Hcs <- Hs. eapply seeing; [done..|apply message_looks|intros; apply quiet_message|]. intros v m c Hm Hc.
  eapply evolves_bind with (F := λ _ _, True); [|intros ?? _; eapply ev_end, quiet_ret].
  eapply evolves_zoom; [done..|]. apply save_incoming_ev. by exists (bmx_connections s), inbound, c.
Qed.
Lemma heard_edit cs inbound (s : BMX) w :
  BcEdited cs inbound ∈ calls → er_ok cs → bmx_connections s = cs → rs_ok (RS:=RS) s → path s (edit_handle inbound s w).1.2.
Proof.
  intros Hin Hcs <- Hs. eapply seeing; [done..|apply change_looks|intros; apply quiet_change|]. intros v e c He Hc.
  eapply evolves_bind; [apply original_ev|]. intros x v' (-> & Hx & Hi & Hxc). apply rewrite_ev; [by rewrite Hi|]. right.
  by exists (bmx_connections s), inbound, c, e.
Qed.
Lemma heard_delete cs inbound (s : BMX) w :
  BcDeleted cs inbound ∈ calls → er_ok cs → bmx_connections s = cs → rs_ok (RS:=RS) s → path s (delete_handle inbound s w).1.2.
Proof.
  intros Hin Hcs <- Hs. eapply seeing; [done..|apply change_looks|intros; apply quiet_change|]. intros v d c Hd Hc.
  eapply evolves_bind; [apply original_ev|]. intros x v' (-> & Hx & Hi & Hxc).
  eapply evolves_bind with (F := λ _ _, True); [|intros [] ? _; apply ev_emit]. apply bm_records_as, evolves_delete.
  intros y Hy. rewrite Hx in Hy. injection Hy as <-. right. rewrite Hi. by exists (bmx_connections s), inbound, c, d.
Qed.

Lemma bm_run1_path c (s : BMX) w :
  c ∈ calls → (∀ cs, call_connections c = Some cs → er_ok cs) → rs_ok (RS:=RS) s → path s (bm_run1 c s w).1.2.
Proof.
  intros Hin Hcs Hs.
  assert (Hthen : ∀ (h : InboundMessage → bmh (option OutboundMessage)) cs inbound,
    path (bm_with_connections cs s) (h inbound (bm_with_connections cs s) w).1.2 →
    path s ((eff_modify (bm_with_connections cs);; h inbound;; mret tt) s w).1.2).
  { intros h cs inbound. unfold mbind, eff_bind, eff_modify. by destruct (h inbound _ w) as [[[a|e|] s'] w']. }
  assert (Hown : ∀ A (m : eff BasicMessageServiceError BMX A), ev (rs_view s) m (λ _ _, True) → path s ((bm_service m;; mret tt) s w).1.2).
  { intros A m Hm. eapply ev_path; [done|]. eapply evolves_bind; [by eapply evolves_zoom|]. intros a v' _. eapply ev_end, quiet_ret. }
  destruct c as [content conn parent|i content c|i|cs m|cs m|cs m]; cbn [bm_run1].
  - apply Hown, create_message_ev. by exists conn.
  - apply Hown, create_edit_ev. by exists c.
  - apply ev_path with (F := λ _ _, True); [done|]. apply bm_records_as, ev_keyed. intros Hk. apply evolves_delete.
    intros x Hx. left. by rewrite (Hk i x Hx).
  - eapply Hthen, heard_message; [done|by apply Hcs|done..].
  - eapply Hthen, heard_edit; [done|by apply Hcs|done..].
  - eapply Hthen, heard_delete; [done|by apply Hcs|done..].
Qed.
Lemma bm_run_path rest (s : BMX) w :
  (∀ c, c ∈ rest → c ∈ calls) → connections_ok rest → rs_ok (RS:=RS) s → path s (bm_run rest s w).1.
Proof.
  revert s w. induction rest as [|c rest IH]; intros s w Hin Hcs Hs; cbn [bm_run]; [by apply record_path_refl|].
  pose proof (bm_run1_path c s w (Hin c ltac:(set_solver)) (λ cs Hc, Hcs c cs ltac:(set_solver) Hc) Hs) as Hp.
  destruct (bm_run1 c s w) as [[r s1] w1]. eapply record_path_trans; [exact Hp|]. apply IH; [|intros c' cs Hc; apply Hcs; set_solver|apply Hp].
  intros c' Hc. apply Hin. set_solver.
Qed.
End calls.

(** * The two parties of a connection *)

(** C33: Only the two parties of a connection make and change its messages, through any sequence of
    sent, edited, removed and received messages, over any repositories that keep their laws.  A
    record that is there at the end was there before or was made in the run: by the agent,
    which sent it over the record's connection, or from a message that arrived on that
    connection or from its DID or keys, with that message's id, text, time and thread; and its
    text is the one it was made with, one the agent edited in, or one of an edit that arrived on
    the record's own connection.  A record that neither the agent nor a message on its own
    connection edits or removes is still there at the end, unchanged: nothing that arrives on
    other connections touches it. *)
Theorem messages_of_the_parties calls (s : BMX) w id :
  rs_ok (RS:=RS) s → connections_ok calls →
  (∀ r, rs_view (RS:=RS) (bm_run calls s w).1 id = Some r → bm_story calls (rs_view (RS:=RS) s) r) ∧
  (∀ x, rs_view (RS:=RS) s id = Some x →
    (∀ content, ¬ we_changed calls id content ∧ ¬ peer_changed calls (bmr_connection_id x) id content) →
    ¬ we_removed calls id ∧ ¬ peer_withdrew calls (bmr_connection_id x) id →
    rs_view (RS:=RS) (bm_run calls s w).1 id = Some x).
Proof.
  intros Hs Hcs. destruct (bm_run_path calls calls s w) as [_ Hp]; [done..|]. specialize (Hp id). split.
  - intros r Hr. eapply change_path_invariant; [apply story_born|apply story_step|exact Hp| |exact Hr].
    intros x Hx. exists x. split; [left|by split; [|left]]. by rewrite (er_keyed (repo_of s) id x Hs Hx : bmr_id x = id).
  - intros x Hx Hc Hg. pose proof (er_keyed (repo_of s) id x Hs Hx : bmr_id x = id) as Hi. remember (rs_view s id) as o eqn:Ho. clear Ho.
    induction Hp as [o|o o1 o2 Hch _ IH]; [done|]. apply IH. subst o. inversion Hch as [|y|y z Hst|y Hgone]; subst; [done| |].
    + destruct Hst as [y content Hst]. destruct (Hc content) as [Hn1 Hn2]. by destruct Hst.
    + by destruct Hgone, Hg.
Qed.
End parties.

(** * Two agents *)

Section talk.
Context `{HashOrder} `{UuidText} `{Rfc3339} `{JsonText} `{Serde BasicMessage} `{!SerdeLaws BasicMessage} `{Serde EditMessage} `{!SerdeLaws EditMessage}
  `{Serde DeleteMessage} `{!SerdeLaws DeleteMessage}.
Abbreviation MemB := (BasicMessages (gmap string BasicMessageRecord) (gmap string ConnectionRecord)).
Abbreviation both := (eff MessageHandlerError (MemB * MemB)).

Definition at_writer {X} (c : eff BasicMessageServiceError MemB X) : both X := eff_zoom fst (λ a s, (a, s.2)) (λ e, ProcessingFailed (bms_to_string e)) c.
Definition at_reader {X} (c : eff MessageHandlerError MemB X) : both X := eff_zoom snd (λ b s, (s.1, b)) id c.
(** A message that goes through the serializer to the other side. *)
Definition delivered {A} `{Serde A} (id type : string) (a : A) (ctx : MessageContext) (h : InboundMessage → eff MessageHandlerError MemB (option OutboundMessage))
    : both (option OutboundMessage) :=
  match sd_to_value a with Ok v => at_reader (h (mkInbound (msg_new id type v) ctx)) | _ => eff_throw (ProcessingFailed "not serialized") end.

(** The sender writes over its connection, and then edits what it wrote. *)
Definition talk (ca : ConnectionRecord) (ctx : MessageContext) (content content2 : string) (parent : option string) : both BasicMessageRecord :=
  '(m, ra) ← at_writer (bm_create_message content ca parent);
  _ ← delivered (bmg_id m) (bmg_msg_type m) m ctx basic_message_handle;
  '(e, ra) ← at_writer (bm_create_edit (bmr_id ra) content2 (cn_id ca));
  _ ← delivered (edm_id e) (edm_msg_type e) e ctx edit_handle;
  mret ra.

(** The receiver's record of a message is the sender's, seen from its own connection. *)
Record copy_of (c : ConnectionRecord) (x y : BasicMessageRecord) : Prop := {
  cp_id : bmr_id y = bmr_id x;
  cp_content : bmr_content y = bmr_content x;
  cp_time : bmr_sent_time y = bmr_sent_time x;
  cp_thread : bmr_thread_id y = bmr_thread_id x ∧ bmr_parent_thread_id y = bmr_parent_thread_id x;
  cp_role : bmr_role x = BmSender ∧ bmr_role y = BmReceiver;
  cp_connection : bmr_connection_id y = cn_id c
}.
Lemma copy_content c x y content : copy_of c x y → copy_of c (bmr_with_content content x) (bmr_with_content content y).
Proof. intros []. by constructor. Qed.

Implicit Types (s sa sb : MemB).
Lemma at_writer_run {X} (c : eff BasicMessageServiceError MemB X) a b w r a' w' : c a w = (Ok r, a', w') → at_writer c (a, b) w = (Ok r, (a', b), w').
Proof. intros Hc. unfold at_writer, eff_zoom. cbn. by rewrite Hc. Qed.
Lemma delivered_run {A} `{JsonText} `{Serde A} id type (x : A) v ctx h a b w r b' w' :
  sd_to_value x = Ok v → h (mkInbound (msg_new id type v) ctx) b w = (Ok r, b', w') → delivered id type x ctx h (a, b) w = (Ok r, (a, b'), w').
Proof. intros Hv Hh. unfold delivered, at_reader, eff_zoom. rewrite Hv. cbn. by rewrite Hh. Qed.

(** What happens to the repository of one side. *)
Definition bm_put_record (r : BasicMessageRecord) (event : BasicMessageEvent) s : MemB :=
  mkBasicMessages (<[bmr_id r := r]> (bmx_repository s)) (bmx_connections s) (bmx_event_bus s ++ [event]).

(** The answer first, then the state that is told by it. *)
Ltac by_parts := apply pair_equal_spec; split; [apply pair_equal_spec; split; reflexivity|reflexivity].
Lemma create_message_run s w content ca parent :
  bmx_repository s !! next_id w = None →
  ∃ m r w', bm_create_message content ca parent s w = (Ok (m, r), bm_put_record r (BmStateChanged r m) s, w') ∧ world_le w w' ∧
    bmr_id r = next_id w ∧ bmg_id m = bmr_id r ∧ bmg_content m = content ∧ bmr_content r = content ∧ bmr_sent_time r = bmg_sent_time m ∧
    bmr_thread_id r = bmg_thread_id m ∧ bmr_parent_thread_id r = (match bmg_thread_id m with Some _ => bmg_parent_thread_id m | None => None end) ∧
    bmr_parent_thread_id r = parent ∧ bmr_role r = BmSender ∧ bmr_connection_id r = cn_id ca.
Proof.
  unfold next_id, uuid_text. intros Hn. destruct parent as [p|]; do 3 eexists; (split; [unfold bm_create_message, bm_records, eff_zoom, mbind, eff_bind; cbn; unfold mr_save; cbn;
    rewrite Hn; by_parts|]); (split; [split; [done|cbn; lia]|]); by split_and!.
Qed.
Lemma context_found inbound s w c : ctx_connection_id (in_context inbound) = Some (cn_id c) → bmx_connections s !! cn_id c = Some c →
  context_connection inbound s w = (Ok (Some c), s, w).
Proof.
  intros Hi Hc. unfold context_connection. rewrite Hi. unfold bm_lookup, eff_zoom, eff_catch, mbind, eff_bind. cbn.
  unfold mr_find_by_id, eff_gets. rewrite Hc. by destruct s.
Qed.
Lemma body_read {A} `{Serde A} what inbound s w (a : A) :
  sd_from_value (msg_body (in_message inbound)) = Ok a → bm_body what inbound s w = (Ok a, s, w).
Proof. intros Ha. unfold bm_body. by rewrite Ha. Qed.

Lemma save_incoming_run s w c m :
  bmx_repository s !! bmg_id m = None →
  ∃ r w', bm_save_incoming m c s w = (Ok r, bm_put_record r (BmStateChanged r m) s, w') ∧ world_le w w' ∧
    bmr_id r = bmg_id m ∧ bmr_content r = bmg_content m ∧ bmr_sent_time r = bmg_sent_time m ∧ bmr_thread_id r = bmg_thread_id m ∧
    bmr_parent_thread_id r = (match bmg_thread_id m with Some _ => bmg_parent_thread_id m | None => None end) ∧
    bmr_role r = BmReceiver ∧ bmr_connection_id r = cn_id c.
Proof.
  intros Hn. unfold bm_save_incoming, bm_records, eff_zoom, mbind, eff_bind. cbn. destruct (bmg_thread_id m) as [t|]; cbn; unfold mr_save; cbn; rewrite Hn;
    do 2 eexists; (split; [by_parts|]);
    (split; [split; [done|cbn; lia]|]); by split_and!.
Qed.
Lemma message_run inbound s w c m :
  ctx_connection_id (in_context inbound) = Some (cn_id c) → bmx_connections s !! cn_id c = Some c →
  sd_from_value (msg_body (in_message inbound)) = Ok m → bmx_repository s !! bmg_id m = None →
  ∃ r w', basic_message_handle inbound s w = (Ok None, bm_put_record r (BmStateChanged r m) s, w') ∧ world_le w w' ∧
    bmr_id r = bmg_id m ∧ bmr_content r = bmg_content m ∧ bmr_sent_time r = bmg_sent_time m ∧ bmr_thread_id r = bmg_thread_id m ∧
    bmr_parent_thread_id r = (match bmg_thread_id m with Some _ => bmg_parent_thread_id m | None => None end) ∧
    bmr_role r = BmReceiver ∧ bmr_connection_id r = cn_id c.
Proof.
  intros Hi Hc Hm Hn. unfold basic_message_handle. rewrite (eff_bind_run _ _ _ _ _ _ _ (body_read _ inbound s w m Hm)).
  rewrite (eff_bind_run (message_connection inbound) _ s w c s w)
    by (unfold message_connection; by rewrite (eff_bind_run _ _ _ _ _ _ _ (context_found inbound s w c Hi Hc))).
  destruct (save_incoming_run s w c m Hn) as (r & w' & Hr & Hw). exists r, w'. split; [|exact Hw].
  rewrite (eff_bind_run _ _ _ _ r (bm_put_record r (BmStateChanged r m) s) w'); [done|]. unfold eff_zoom. cbn. by rewrite Hr.
Qed.
Lemma edit_made s w x content c :
  bmx_repository s !! bmr_id x = Some x →
  ∃ e w', bm_create_edit (bmr_id x) content c s w =
      (Ok (e, bmr_with_content content x), bm_put_record (bmr_with_content content x) (BmEdited (bmr_id x) content (edm_edited_time e) c) s, w') ∧
    world_le w w' ∧ edm_message_id e = bmr_id x ∧ edm_content e = content.
Proof.
  intros Hx. do 2 eexists. split.
  - unfold bm_create_edit, bm_records, eff_zoom, mbind, eff_bind. cbn. unfold mr_find_by_id, eff_gets. rewrite Hx. cbn. unfold mr_update. cbn.
    rewrite Hx. by_parts.
  - split; [split; [done|cbn; lia]|]. by split.
Qed.
Lemma original_run what s w x c :
  bmx_repository s !! bmr_id x = Some x → bmr_connection_id x = cn_id c → original_message what (bmr_id x) c s w = (Ok x, s, w).
Proof.
  intros Hx Hc. unfold original_message, bm_records, eff_zoom, mbind, eff_bind. cbn. unfold mr_find_by_id, eff_gets. rewrite Hx, decide_True by done.
  by destruct s.
Qed.
Lemma change_found inbound s w c : ctx_connection_id (in_context inbound) = Some (cn_id c) → bmx_connections s !! cn_id c = Some c →
  change_connection inbound s w = (Ok c, s, w).
Proof. intros Hi Hc. unfold change_connection. by rewrite (eff_bind_run _ _ _ _ _ _ _ (context_found inbound s w c Hi Hc)). Qed.
Lemma edit_run inbound s w c x e :
  ctx_connection_id (in_context inbound) = Some (cn_id c) → bmx_connections s !! cn_id c = Some c →
  sd_from_value (msg_body (in_message inbound)) = Ok e → edm_message_id e = bmr_id x →
  bmx_repository s !! bmr_id x = Some x → bmr_connection_id x = cn_id c →
  edit_handle inbound s w = (Ok None, bm_put_record (bmr_with_content (edm_content e) x)
    (BmEdited (bmr_id x) (edm_content e) (edm_edited_time e) (cn_id c)) s, w).
Proof.
  intros Hi Hc He Hid Hx Hxc. unfold edit_handle. rewrite (eff_bind_run _ _ _ _ _ _ _ (body_read _ inbound s w e He)).
  rewrite (eff_bind_run _ _ _ _ _ _ _ (change_found inbound s w c Hi Hc)), Hid.
  rewrite (eff_bind_run _ _ _ _ _ _ _ (original_run _ s w x c Hx Hxc)).
  unfold bm_records, eff_zoom, mbind, eff_bind. cbn. unfold mr_update. cbn. by rewrite Hx.
Qed.
Lemma delete_run inbound s w c x d :
  ctx_connection_id (in_context inbound) = Some (cn_id c) → bmx_connections s !! cn_id c = Some c →
  sd_from_value (msg_body (in_message inbound)) = Ok d → dlm_message_id d = bmr_id x →
  bmx_repository s !! bmr_id x = Some x → bmr_connection_id x = cn_id c →
  delete_handle inbound s w = (Ok None, mkBasicMessages (delete (bmr_id x) (bmx_repository s)) (bmx_connections s)
    (bmx_event_bus s ++ [BmDeleted (bmr_id x) (dlm_deleted_time d) (cn_id c)]), w).
Proof.
  intros Hi Hc Hd Hid Hx Hxc. unfold delete_handle. rewrite (eff_bind_run _ _ _ _ _ _ _ (body_read _ inbound s w d Hd)).
  rewrite (eff_bind_run _ _ _ _ _ _ _ (change_found inbound s w c Hi Hc)), Hid.
  rewrite (eff_bind_run _ _ _ _ _ _ _ (original_run _ s w x c Hx Hxc)).
  unfold bm_records, eff_zoom, mbind, eff_bind. cbn. unfold mr_delete. cbn. by rewrite Hx.
Qed.

(** C34: What is said arrives, and stays what its author makes of it.  The agent sends a message over
    a connection, as an answer or not, and edits it; both go through the serializers to the
    handlers of the other side, on its connection.  Then each side has one record of the
    message, with the same id, time and threads and with the edited text, the sender's as sent
    and the receiver's as received on its own connection; every other record of both sides is
    as it was.  A deletion that follows removes the receiver's record, and only that. *)
Theorem message_arrives sa sb w ca cb ctx content content2 parent :
  bmx_repository sa !! next_id w = None → bmx_repository sb !! next_id w = None →
  ctx_connection_id ctx = Some (cn_id cb) → bmx_connections sb !! cn_id cb = Some cb →
  (∀ m : BasicMessage, ∃ v, sd_to_value m = Ok v) → (∀ e : EditMessage, ∃ v, sd_to_value e = Ok v) →
  (∀ d : DeleteMessage, ∃ v, sd_to_value d = Ok v) →
  ∃ x y sa' sb' w', talk ca ctx content content2 parent (sa, sb) w = (Ok x, (sa', sb'), w') ∧
    copy_of cb x y ∧ bmr_content x = content2 ∧ bmr_parent_thread_id x = parent ∧ bmr_connection_id x = cn_id ca ∧
    bmx_repository sa' = <[bmr_id x := x]> (bmx_repository sa) ∧ bmx_repository sb' = <[bmr_id x := y]> (bmx_repository sb) ∧
    let '(d, w2) := dlm_new (bmr_id x) w' in
    ∃ s2 w3, delivered (dlm_id d) (dlm_msg_type d) d ctx delete_handle (sa', sb') w2 = (Ok None, (sa', s2), w3) ∧
      bmx_repository s2 = bmx_repository sb.
Proof.
  intros Hna Hnb Hi Hc Hw1 Hw2 Hw3.
  destruct (create_message_run sa w content ca parent Hna) as (m & x0 & w1 & Hr1 & Hle1 & Hxn & Hmi & Hmc & Hx0c & Ht & Hth & Hpth & Hxp & Hro & Hxc).
  unfold talk. rewrite (eff_bind_run _ _ _ _ _ _ _ (at_writer_run _ sa sb w _ _ _ Hr1)). destruct (Hw1 m) as [vm Hvm].
  destruct (message_run (mkInbound (msg_new (bmg_id m) (bmg_msg_type m) vm) ctx) sb w1 cb m) as (y0 & w2 & Hr2 & Hle2 & Hyi & Hyc & Hyt & Hyth & Hyp & Hyr & Hycn);
    [done|done|by apply sd_value_back|by rewrite Hmi, Hxn|].
  rewrite (eff_bind_run _ _ _ _ _ _ _ (delivered_run _ _ m vm ctx _ _ sb w1 _ _ _ Hvm Hr2)).
  set (sa1 := bm_put_record x0 _ sa). set (sb1 := bm_put_record y0 _ sb).
  assert (Hcopy : copy_of cb x0 y0) by (constructor; try congruence; split; congruence).
  destruct (edit_made sa1 w2 x0 content2 (cn_id ca)) as (e & w3 & Hr3 & Hle3 & Hei & Hec); [cbn; by rewrite lookup_insert_eq|].
  rewrite (eff_bind_run _ _ _ _ _ _ _ (at_writer_run _ sa1 sb1 w2 _ _ _ Hr3)). destruct (Hw2 e) as [ve Hve].
  assert (Hid : bmr_id y0 = bmr_id x0) by apply Hcopy.
  pose proof (edit_run (mkInbound (msg_new (edm_id e) (edm_msg_type e) ve) ctx) sb1 w3 cb y0 e Hi Hc (sd_value_back _ _ Hve)
    ltac:(congruence) ltac:(cbn; by rewrite lookup_insert_eq) Hycn) as Hr4. rewrite Hec in Hr4.
  set (sa2 := bm_put_record (bmr_with_content content2 x0) _ sa1) in *. set (sb2 := bm_put_record (bmr_with_content content2 y0) _ sb1) in *.
  rewrite (eff_bind_run _ _ _ _ _ _ _ (delivered_run _ _ e ve ctx _ sa2 sb1 w3 _ _ _ Hve Hr4)).
  exists (bmr_with_content content2 x0), (bmr_with_content content2 y0), sa2, sb2, w3. split; [reflexivity|]. split; [by apply copy_content|].
  split; [done|]. split; [done|]. split; [done|]. split; [cbn; by rewrite insert_insert_eq|]. split; [cbn; by rewrite Hid, insert_insert_eq|].
  destruct (dlm_new (bmr_id (bmr_with_content content2 x0)) w3) as [d w4] eqn:Hd. cbn in Hd. injection Hd as <- <-. set (d := mkDeleteMsg _ _ _ _).
  destruct (Hw3 d) as [vd Hvd]. set (y := bmr_with_content content2 y0) in *. set (w4 := mkWorld _ _ _ _).
  pose proof (delete_run (mkInbound (msg_new (dlm_id d) (dlm_msg_type d) vd) ctx) sb2 w4 cb y d Hi Hc (sd_value_back _ _ Hvd)
    (eq_sym Hid) ltac:(cbn; by rewrite Hid, lookup_insert_eq) Hycn) as Hr5.
  do 2 eexists. split; [by apply (delivered_run _ _ d vd ctx)|]. cbn. rewrite insert_insert_eq. apply delete_insert_id. by rewrite Hid, Hxn.
Qed.
End talk.

(** * Concrete conversations *)

#[local] Instance BmThread_eq_dec : EqDecision BmThread.
Proof. solve_decision. Defined.
#[local] Instance BmThread_countable : Countable BmThread.
Proof. apply (inj_countable' (λ t, (bmt_thid t, bmt_pthid t)) (λ '(a, b), mkBmThread a b)). by intros []. Defined.
#[local] Instance BasicMessage_eq_dec : EqDecision BasicMessage.
Proof. solve_decision. Defined.
#[local] Instance BasicMessage_countable : Countable BasicMessage.
Proof.
  apply (inj_countable' (λ m, (bmg_id m, bmg_msg_type m, bmg_content m, bmg_sent_time m, bmg_locale m, bmg_thread m))
    (λ '(a, b, c, d, e, f), mkBasicMessage a b c d e f)). by intros [].
Defined.
#[local] Instance EditMessage_eq_dec : EqDecision EditMessage.
Proof. solve_decision. Defined.
#[local] Instance EditMessage_countable : Countable EditMessage.
Proof.
  apply (inj_countable' (λ m, (edm_id m, edm_msg_type m, edm_message_id m, edm_content m, edm_edited_time m)) (λ '(a, b, c, d, e), mkEdit a b c d e)). by intros [].
Defined.
#[local] Instance DeleteMessage_eq_dec : EqDecision DeleteMessage.
Proof. solve_decision. Defined.
#[local] Instance DeleteMessage_countable : Countable DeleteMessage.
Proof. apply (inj_countable' (λ m, (dlm_id m, dlm_msg_type m, dlm_message_id m, dlm_deleted_time m)) (λ '(a, b, c, d), mkDeleteMsg a b c d)). by intros []. Defined.

#[local] Existing Instances plain_order toy_uuid_text toy_rfc3339 code_json code_serde code_serde_laws.
Abbreviation ToyBm := (BasicMessages (gmap string BasicMessageRecord) (gmap string ConnectionRecord)).

(** Connections to two others; that of the second is also known by its key. *)
Definition bm_alice : ConnectionRecord := toy_connection "a" (Some "did:peer:a") None.
Definition bm_bob : ConnectionRecord := toy_connection "b" (Some "did:peer:b") (Some "kb").
Definition bm_connections : gmap string ConnectionRecord := <["a" := bm_alice]> (<["b" := bm_bob]> ∅).
Definition bm_empty : ToyBm := mkBasicMessages ∅ bm_connections [].
Definition bm_context (connection_id : option string) : MessageContext := mkContext None None None None connection_id true true None None.
Definition bm_from (from : option string) (connection_id : option string) {A} `{Serde A} (a : A) : InboundMessage :=
  mkInbound (mkMessage "m" "t" (match sd_to_value a with Ok v => v | _ => JNull end) from None None None None None None ∅) (bm_context connection_id).
Abbreviation BmCall := (bm_call (CR:=gmap string ConnectionRecord)).
Definition hears (from connection_id : option string) (id content : string) : BmCall :=
  BcMessage bm_connections (bm_from from connection_id (mkBasicMessage id BASIC_MESSAGE_TYPE content "t0" None None)).
Definition hears_edit (from connection_id : option string) (id content : string) : BmCall :=
  BcEdited bm_connections (bm_from from connection_id (mkEdit "e" EDIT_MESSAGE_TYPE id content "t1")).
Definition bm_after (calls : list BmCall) : ToyBm := (bm_run calls bm_empty world0).1.
Definition bm_texts (s : ToyBm) : list (string * string * BasicMessageRole * string) :=
  (λ r, (bmr_id r, bmr_connection_id r, bmr_role r, bmr_content r)) <$> repo_record_values (bmx_repository s).

(** Alice writes and edits, Bob tries to edit. *)
Definition run_two : list BmCall :=
  [hears None (Some "a") "m1" "hello"; hears (Some "did:peer:b") None "m2" "hi"; hears_edit None (Some "b") "m1" "forged"; hears_edit (Some "did:peer:a") None "m1" "hello!"].
Example two_speak : bm_texts (bm_after run_two) = [("m1", "a", BmReceiver, "hello!"); ("m2", "b", BmReceiver, "hi")].
Proof. vm_compute. reflexivity. Qed.

Lemma bm_connections_ok calls : Forall (λ c : BmCall, ∀ cs, call_connections c = Some cs → cs = bm_connections) calls → connections_ok calls.
Proof.
  intros Hall c cs Hc Hcs. rewrite (proj1 (Forall_forall _ _) Hall c Hc cs Hcs). intros i x. unfold bm_connections.
  rewrite !lookup_insert_Some, lookup_empty. by intros [[<- <-]|[_ [[<- <-]|[_ ?]]]].
Qed.
Lemma bm_empty_ok : rs_ok (RS:=gmap string BasicMessageRecord) bm_empty.
Proof. by intros i x. Qed.

Theorem messages_of_the_parties_witness :
  ∃ r, rs_view (RS:=gmap string BasicMessageRecord) (bm_after run_two) "m2" = Some r ∧ bmr_content r = "hi" ∧
    bm_story run_two (λ _, None) r.
Proof.
  destruct (rs_view (RS:=gmap string BasicMessageRecord) (bm_after run_two) "m2") as [r|] eqn:Hr; [|vm_compute in Hr; discriminate].
  exists r. split; [reflexivity|]. split; [vm_compute in Hr; by injection Hr as <-|].
  apply (proj1 (messages_of_the_parties run_two bm_empty world0 "m2" bm_empty_ok
    (bm_connections_ok run_two ltac:(repeat constructor; by intros cs [= <-]))) r Hr).
Defined.

Theorem message_arrives_witness :
  ∃ x y sa' sb' w', talk bm_alice (bm_context (Some "b")) "hello" "hello!" (Some "parent") (bm_empty, bm_empty) world0 = (Ok x, (sa', sb'), w') ∧
    copy_of bm_bob x y ∧ bmr_content x = "hello!" ∧ bmr_parent_thread_id x = Some "parent".
Proof.
  destruct (message_arrives bm_empty bm_empty world0 bm_alice bm_bob (bm_context (Some "b")) "hello" "hello!" (Some "parent"))
    as (x & y & sa' & sb' & w' & Hr & Hc & Hx & Hp & _); [reflexivity|reflexivity|reflexivity|vm_compute; reflexivity|by eexists..|].
  by exists x, y, sa', sb', w'.
Defined.

(** ** Where the code falls short *)

(** An edit and a deletion are checked against the connection, not against the author: Alice
    rewrites, and then removes, what the agent itself sent her. *)
Definition bm_run_sent : list BmCall := [BcSend "I owe you nothing" bm_alice None].
Definition bm_deletes (connection_id id : string) : BmCall :=
  BcDeleted bm_connections (bm_from None (Some connection_id) (mkDeleteMsg "d" DELETE_MESSAGE_TYPE id "t2")).
Example peer_edits_ours :
  bm_texts (bm_after bm_run_sent) = [("0", "a", BmSender, "I owe you nothing")] ∧
  bm_texts (bm_after (bm_run_sent ++ [hears_edit None (Some "a") "0" "I owe you 100"])) = [("0", "a", BmSender, "I owe you 100")] ∧
  bm_texts (bm_after (bm_run_sent ++ [bm_deletes "a" "0"])) = [].
Proof. vm_compute. by split_and!. Qed.

(** A message from a key is filed under its connection, an edit from the key is refused. *)
Example key_cannot_edit :
  bm_texts (bm_after [hears (Some "kb") None "m" "hi"]) = [("m", "b", BmReceiver, "hi")] ∧
  bm_texts (bm_after [hears (Some "kb") None "m" "hi"; hears_edit (Some "kb") None "m" "hi!"]) = [("m", "b", BmReceiver, "hi")] ∧
  (bm_run1 (hears_edit (Some "kb") None "m" "hi!") (bm_after [hears (Some "kb") None "m" "hi"]) world0).1.1 = Err no_connection.
Proof. vm_compute. by split_and!. Qed.

(** The ids are the senders': one who uses an id first keeps the other's message out. *)
Example taken_id :
  bm_texts (bm_after [hears None (Some "b") "m" "first"; hears None (Some "a") "m" "lost"]) = [("m", "b", BmReceiver, "first")].
Proof. vm_compute. reflexivity. Qed.
