(* ===== verification/MessageProcessor.v ===== *)
(** Messages in and out of the agent ([src/agent/src/messaging], [src/didcomm/src/messaging]):
    the registry of handlers, the parser of plaintexts, the context of a message, the
    processor that finds the sender's connection and calls the handler, and what packs the
    answer.

    The handlers share a state, which holds the connections.  What encrypts, decrypts and posts
    is behind the interface [Envelopes]. *)
From Stdlib Require Import Ascii.
From S2P Require Import Prelude AjnaTypes StdText SerdeJson Storage Hashing Didcomm RecordRepo Keys Dids PeerDid Oob Connections.

(** * Errors *)

(** [src/agent/src/error.rs:10-104] AgentError (of the agent; what the processor and the sender raise) *)
Inductive AgtError :=
  | AgtModule (s : string)
  | AgtTransport (s : string)
  | AgtDidResolution (s : string)
  | AgtEncryption (s : string)
  | AgtConnections (s : string)
  | AgtStorage (s : string)
  | AgtConfiguration (s : string)
  | AgtSerialization (s : string)
  | AgtOther (s : string).
Definition agt_to_string (e : AgtError) : string :=
  match e with
  | AgtModule s => "Module error: " +:+ s
  | AgtTransport s => "Transport error: " +:+ s
  | AgtDidResolution s => "DID resolution error: " +:+ s
  | AgtEncryption s => "Encryption error: " +:+ s
  | AgtConnections s => "Connections protocol error: " +:+ s
  | AgtStorage s => "Storage error: " +:+ s
  | AgtConfiguration s => "Configuration error: " +:+ s
  | AgtSerialization s => "Serialization error: " +:+ s
  | AgtOther s => s
  end.

(** [src/didcomm/src/messaging/handlers/traits.rs:30-39] MessageHandlerError::fmt *)
Definition mhe_to_string (e : MessageHandlerError) : string :=
  match e with
  | ProcessingFailed s => "Handler processing failed: " +:+ s
  | InvalidMessage s => "Invalid message: " +:+ s
  | HandlerNotFound s => "Handler not found: " +:+ s
  | MheOther s => "Handler error: " +:+ s
  end.

(** * The registry of handlers *)

Section registry.
Context {S : Type}.

(** [src/didcomm/src/messaging/handlers/traits.rs:136-154] MessageHandler *)
Record MessageHandler := mkHandler {
  hd_supported_types : list string;
  hd_handle : InboundMessage → eff MessageHandlerError S (option OutboundMessage)
}.

(** [src/didcomm/src/messaging/handlers/handler_registry.rs:25-27] HandlerRegistry *)
Definition HandlerRegistry := gmap string MessageHandler.

(** [src/didcomm/src/messaging/handlers/handler_registry.rs:31-35] HandlerRegistry::new *)
Definition hr_new : HandlerRegistry := ∅.

(** [src/didcomm/src/messaging/handlers/handler_registry.rs:58-62] HandlerRegistry::register *)
Definition hr_register (handler : MessageHandler) (r : HandlerRegistry) : HandlerRegistry :=
  foldl (λ r msg_type, <[msg_type := handler]> r) r (hd_supported_types handler).

(** [src/didcomm/src/messaging/handlers/handler_registry.rs:71-73] HandlerRegistry::get_handler *)
Definition hr_get_handler (msg_type : string) (r : HandlerRegistry) : option MessageHandler := r !! msg_type.

(** [src/didcomm/src/messaging/handlers/handler_registry.rs:82-84] HandlerRegistry::has_handler *)
Definition hr_has_handler (msg_type : string) (r : HandlerRegistry) : bool := bool_decide (is_Some (r !! msg_type)).

(** [src/didcomm/src/messaging/handlers/handler_registry.rs:87-89] HandlerRegistry::registered_types *)
Definition hr_registered_types `{HashOrder} (r : HandlerRegistry) : list string := (map_iter r).*1.

(** [src/didcomm/src/messaging/handlers/handler_registry.rs:92-94] HandlerRegistry::count *)
Definition hr_count (r : HandlerRegistry) : nat := size r.

(** The last handler registered for a type has it. *)
Lemma get_registered h r t :
  hr_get_handler t (hr_register h r) = if decide (t ∈ hd_supported_types h) then Some h else hr_get_handler t r.
Proof.
  unfold hr_get_handler, hr_register. generalize (hd_supported_types h) as ts. intros ts. revert r. unfold HandlerRegistry.
  induction ts as [|t' ts IH]; intros r; cbn [foldl]; [by rewrite decide_False by set_solver|]. rewrite IH.
  destruct (decide (t ∈ ts)); [by rewrite decide_True by set_solver|]. destruct (decide (t = t')) as [->|Hne].
  - by rewrite lookup_insert_eq, decide_True by set_solver.
  - by rewrite lookup_insert_ne, decide_False by set_solver.
Qed.
End registry.
Arguments MessageHandler : clear implicits.
Arguments HandlerRegistry : clear implicits.

(** * The context of a message *)

(** [src/agent/src/messaging/context.rs:24-36] MessageContextBuilder::new (the builder's fields are those of the context) *)
Definition ctb_new : MessageContext := mkContext None None None None None false false None None.

(** [src/agent/src/messaging/context.rs:39-51] MessageContextBuilder::from_plaintext_message *)
Definition ctb_from_plaintext_message (msg : Message) : MessageContext :=
  mkContext None None (msg_thread msg ≫= th_thid) (msg_pthid msg) None false false None None.

(** [src/agent/src/messaging/context.rs:54-66] MessageContextBuilder::from_decrypted_message *)
Definition ctb_from_decrypted_message (msg : Message) : MessageContext :=
  mkContext None None (msg_thread msg ≫= th_thid) (msg_pthid msg) None true true None None.

(** [src/agent/src/messaging/context.rs:69-72] MessageContextBuilder::with_from *)
Definition ctb_with_from (from : option string) (c : MessageContext) : MessageContext :=
  mkContext from (ctx_to c) (ctx_thread_id c) (ctx_parent_thread_id c) (ctx_connection_id c) (ctx_encrypted c) (ctx_authenticated c)
    (ctx_sender_endpoint c) (ctx_raw_plaintext c).

(** [src/agent/src/messaging/context.rs:75-78] MessageContextBuilder::with_to *)
Definition ctb_with_to (to : option string) (c : MessageContext) : MessageContext :=
  mkContext (ctx_from c) to (ctx_thread_id c) (ctx_parent_thread_id c) (ctx_connection_id c) (ctx_encrypted c) (ctx_authenticated c)
    (ctx_sender_endpoint c) (ctx_raw_plaintext c).

(** [src/agent/src/messaging/context.rs:93-96] MessageContextBuilder::with_connection_id *)
Definition ctb_with_connection_id (connection_id : option string) (c : MessageContext) : MessageContext :=
  mkContext (ctx_from c) (ctx_to c) (ctx_thread_id c) (ctx_parent_thread_id c) connection_id (ctx_encrypted c) (ctx_authenticated c)
    (ctx_sender_endpoint c) (ctx_raw_plaintext c).

(** [src/agent/src/messaging/context.rs:111-114] MessageContextBuilder::with_sender_endpoint *)
Definition ctb_with_sender_endpoint (endpoint : option string) (c : MessageContext) : MessageContext :=
  mkContext (ctx_from c) (ctx_to c) (ctx_thread_id c) (ctx_parent_thread_id c) (ctx_connection_id c) (ctx_encrypted c) (ctx_authenticated c)
    endpoint (ctx_raw_plaintext c).

(** [src/agent/src/messaging/context.rs:117-120] MessageContextBuilder::with_raw_plaintext *)
Definition ctb_with_raw_plaintext (raw_plaintext : option string) (c : MessageContext) : MessageContext :=
  mkContext (ctx_from c) (ctx_to c) (ctx_thread_id c) (ctx_parent_thread_id c) (ctx_connection_id c) (ctx_encrypted c) (ctx_authenticated c)
    (ctx_sender_endpoint c) raw_plaintext.

(** * The parser of plaintexts *)

Section parser.
Context `{Serde Message}.

(** The first of two members that is there. *)
Definition json_either (a b : string) (v : Json) : option Json := match json_get a v with Some x => Some x | None => json_get b v end.

(** [src/agent/src/messaging/parser.rs:52-66] parse_message_to_didcomm (the attachments) *)
Definition parsed_attachments (obj : list (string * Json)) : option Json :=
  match json_get "attachments" (JObject obj) with
  | Some (JArray l) => Some (JArray l)
  | _ => snd <$> find_first (λ kv : string * Json, str_ends_with kv.1 "~attach" && (match kv.2 with JArray _ => true | _ => false end) = true) obj
  end.
(** A member under its name with a decorator's mark, when it has none. *)
Definition decorated (name marked : string) (obj : list (string * Json)) : list (string * Json) :=
  match json_get name (JObject obj), json_get marked (JObject obj) with
  | Some v, None => obj_insert marked v obj
  | _, _ => obj
  end.

(** [src/agent/src/messaging/parser.rs:71-109] parse_message_to_didcomm (the body) *)
Definition parsed_body (obj : list (string * Json)) : Json :=
  match json_get "body" (JObject obj) with
  | Some body => body
  | None => JObject (decorated "thread" "~thread" (decorated "id" "@id" (decorated "type" "@type" obj)))
  end.

(** The members of the message that is read. *)
Definition parsed_members (obj : list (string * Json)) : list (string * Json) :=
  let entry name v := match v with Some x => [(name, x)] | None => [] end in
  entry "id" (json_either "@id" "id" (JObject obj)) ++ entry "type" (json_either "@type" "type" (JObject obj)) ++
  entry "thread" (json_either "~thread" "thread" (JObject obj)) ++ entry "from" (json_get "from" (JObject obj)) ++
  entry "to" (json_get "to" (JObject obj)) ++ entry "attachments" (parsed_attachments obj) ++ [("body", parsed_body obj)].

(** [src/agent/src/messaging/parser.rs:9-113] parse_message_to_didcomm *)
Definition parse_message_to_didcomm (message : Json) : outcome AgtError Message :=
  let members := match message with JObject obj => parsed_members obj | _ => [] end in
  match sd_from_value (JObject members) with
  | Ok m => Ok m
  | Err e => Err (AgtTransport ("Failed to parse DIDComm message: " +:+ e))
  | Panic => Panic
  end.
End parser.

(** * The wire form of an answer *)

(** [src/agent/src/messaging/processor.rs:828-842] v1_attach_field *)
Definition v1_attach_field (msg_type : string) : string :=
  if str_ends_with msg_type "/offer-credential" then "offers~attach"
  else if str_ends_with msg_type "/request-credential" then "requests~attach"
  else if str_ends_with msg_type "/issue-credential" then "credentials~attach"
  else if str_ends_with msg_type "/request-presentation" then "request_presentations~attach"
  else if str_ends_with msg_type "/presentation" then "presentations~attach"
  else "~attach".

Section wire.
Context `{Serde Thread} `{Serde (list Attachment)}.

(** A member that is left out when it cannot be written. *)
Definition insert_written {A} `{Serde A} (key : string) (a : A) (o : list (string * Json)) : list (string * Json) :=
  match sd_to_value a with Ok v => obj_insert key v o | _ => o end.

(** [src/agent/src/messaging/processor.rs:796-824] message_to_v1_wire *)
Definition message_to_v1_wire (message : Message) : list (string * Json) :=
  let v1 := [("@type", JString (msg_type message)); ("@id", JString (msg_id message))] in
  let v1 := match msg_body message with JObject body => obj_insert_all body v1 | _ => v1 end in
  let v1 := match msg_thread message with Some t => insert_written "~thread" t v1 | None => v1 end in
  match msg_attachments message with
  | Some (a :: l) => insert_written (v1_attach_field (msg_type message)) (a :: l) v1
  | _ => v1
  end.
End wire.

(** [src/agent/src/messaging/processor.rs:848-857] extract_verkey_from_did_key *)
Definition extract_verkey_from_did_key `{Bs58} (did : string) : option string :=
  multibase_value ← str_strip_prefix "did:key:z" did;
  decoded ← bs58_decode multibase_value;
  match decoded with
  | String a (String b key) =>
      if decide (N_of_ascii a = 237%N ∧ N_of_ascii b = 1%N ∧ String.length key = 32) then Some (bs58_encode key) else None
  | _ => None
  end.

(** [src/agent/src/messaging/processor.rs:903-911] recipient_advertises_v1_service *)
Definition recipient_advertises_v1_service {E} `{Bs58} `{Base64} `{JsonText} `{Multibase} (did : string) : outcome E bool :=
  let? p := parse_peer2 did in
  let p := match p with Some p => Some p | None => parse_peer4 did end in
  Ok (match p ≫= p2_service_type with Some t => bool_decide (t = "did-communication" ∨ t = "IndyAgent") | None => false end).

(** * The processor *)

(** What an agent asks of its envelopes, its DID resolution and its transports. *)
Class Envelopes (ES : Type) := {
  (** [EnvelopeService::pack_encrypted_with_version] with [PackOptions::with_fallback()], when the service is set. *)
  ev_pack : Message → string → string → eff string ES string;
  (** [didcomm::v1::pack_message] for one recipient, as text. *)
  ev_pack_v1 : list (string * Json) → string * string → string → eff string ES string;
  (** [KeyExtractor::extract_public_key_from_did], [extract_key_agreement_from_did], [find_key_for_did]. *)
  ev_auth_key : string → eff AgtError ES string;
  ev_encryption_key : string → eff AgtError ES string;
  ev_own_key : string → eff AgtError ES string;
  (** [DidCommDocumentService::extract_service_endpoint]. *)
  ev_endpoint : string → eff string ES string;
  (** [http_client.post]: endpoint, content type and body. *)
  ev_post : string → string → string → eff string ES unit
}.

(** [src/didcomm/src/core/services/envelope_service.rs:19-45] UnpackMetadata *)
Record UnpackMetadata := mkUnpack {
  um_authenticated : bool;
  um_anonymous : bool;
  um_from : option string;
  um_to : option string;
  um_encrypted : bool;
  um_signed : bool;
  um_raw_plaintext : option string
}.
(** [EnvelopeService::unpack], and [MessageEncryption::decrypt_message] for a text of DIDComm v1. *)
Class Unpacking (ES : Type) := {
  ev_unpack : string → eff string ES (Message * UnpackMetadata);
  ev_decrypt : string → eff string ES string
}.

(** [src/agent/src/events.rs:27-33] DidCommMessageReceivedPayload *)
Record MessageReceived := mkReceived { mrv_type : string; mrv_sender : option string; mrv_encrypted : bool; mrv_authenticated : bool }.

(** The state: what the handlers share, the DIDs, what packs, the sends that were spawned and
    the events of received messages. *)
Record AgentState (S ES : Type) := mkAgentState {
  as_shared : S;
  as_dids : DidRepository;
  as_envelopes : ES;
  as_spawned : list OutboundMessage;
  as_events : list MessageReceived
}.
Arguments mkAgentState {S ES}.
Arguments as_shared {S ES}.
Arguments as_dids {S ES}.
Arguments as_envelopes {S ES}.
Arguments as_spawned {S ES}.
Arguments as_events {S ES}.

(** [src/agent/src/messaging/processor.rs:21-37] MessageProcessor (what does not change while it runs) *)
Record MessageProcessor (S : Type) := mkProcessor {
  mp_handler_registry : HandlerRegistry S;
  mp_agent_did : option string;
  mp_agent_key_id : option string;
  mp_envelope_service : bool
}.
Arguments mkProcessor {S}.
Arguments mp_handler_registry {S}.
Arguments mp_agent_did {S}.
Arguments mp_agent_key_id {S}.
Arguments mp_envelope_service {S}.

Section processor.
Context `{HashOrder} `{Bs58} `{Hashing.Base64} `{JsonText} `{Multibase} `{Serde Message} `{Serde Thread} `{Serde (list Attachment)}.
Context {S ES CR : Type} `{!ExchangeRepo CR ConnectionRecord ConnectionError} `{!HasRepo S CR} `{!Envelopes ES}.
Abbreviation AS := (AgentState S ES).
Abbreviation agt := (eff AgtError AS).
Implicit Types (self : MessageProcessor S).

(** A call of the connections; of the handlers' state; of what packs. *)
Definition on_conns {A} (m : eff ConnectionError CR A) : agt (ConnectionError + A) :=
  eff_zoom (λ s, repo_of (as_shared s)) (λ c s, mkAgentState (with_repo c (as_shared s)) (as_dids s) (as_envelopes s) (as_spawned s) (as_events s))
    (λ e, AgtTransport (cne_to_string e)) (eff_catch m).
Definition on_shared {E A} (err : E → AgtError) (m : eff E S A) : agt A :=
  eff_zoom as_shared (λ t s, mkAgentState t (as_dids s) (as_envelopes s) (as_spawned s) (as_events s)) err m.
Definition on_envelopes {E E' A} (err : E → E') (m : eff E ES A) : eff E' AS A :=
  eff_zoom as_envelopes (λ e s, mkAgentState (as_shared s) (as_dids s) e (as_spawned s) (as_events s)) err m.
Definition transport_error (what : string) (e : string) : AgtError := AgtTransport (what +:+ e).

(** ** In *)

(** [src/agent/src/messaging/processor.rs:157-209] MessageProcessor::process_message_with_raw (the connection of a sender) *)
Definition sender_connection_id (sender : string) : agt (option string) :=
  r ← on_conns (cn_find_by_their_did sender);
  match r with
  | inr (c :: _) => mret (Some (cn_id c))
  | _ =>
      let sender_verkey := default sender (extract_verkey_from_did_key sender) in
      r ← on_conns er_get_all;
      mret (match r with
            | inr all => cn_id <$> find_first (λ c, bool_decide (cn_their_authentication_key c = Some sender_verkey) = true) all
            | inl _ => None
            end)
  end.

(** [src/agent/src/messaging/processor.rs:139-151] MessageProcessor::process_message_with_raw (the sender: the envelope's, the message's, the text's) *)
Definition effective_sender (sender_did : option string) (m : Message) (v : Json) : option string :=
  match sender_did with Some d => Some d | None => match msg_from m with Some f => Some f | None => json_str_at "from" v end end.

(** [src/agent/src/messaging/processor.rs:211-221] MessageProcessor::process_message_with_raw (the context) *)
Definition inbound_context self (m : Message) (from connection_id sender_endpoint : option string) (raw : string) : MessageContext :=
  ctb_with_raw_plaintext (Some raw) (ctb_with_sender_endpoint sender_endpoint (ctb_with_connection_id connection_id
    (ctb_with_to (mp_agent_did self) (ctb_with_from from (ctb_from_decrypted_message m))))).

(** What is read of a text: its value, its message and the handler for its type. *)
Definition read_message self (message_json : string) : outcome AgtError (Json * Message * MessageHandler S) :=
  let? message := match json_parse message_json with Ok v => Ok v | Err e => Err (transport_error "Failed to parse message: " e) | Panic => Panic end in
  match json_either "@type" "type" message ≫= json_as_str with
  | None => Err (AgtTransport "Message missing @type or type field")
  | Some message_type =>
      match hr_get_handler message_type (mp_handler_registry self) with
      | None => Err (AgtTransport ("No handler registered for message type: " +:+ message_type))
      | Some handler => let? m := parse_message_to_didcomm message in Ok (message, m, handler)
      end
  end.

(** [src/agent/src/messaging/processor.rs:102-240] MessageProcessor::process_message_with_raw (up to the handler's answer) *)
Definition handle_message self (message_json : string) (sender_endpoint sender_did raw_plaintext : option string) : agt (option OutboundMessage) :=
  '(message, m, handler) ← eff_lift (read_message self message_json);
  let from := effective_sender sender_did m message in
  connection_id ← (match from with Some sender => sender_connection_id sender | None => mret None end);
  let context := inbound_context self m from connection_id sender_endpoint (default message_json raw_plaintext) in
  on_shared (λ e, transport_error "Handler failed: " (mhe_to_string e)) (hd_handle handler (mkInbound m context)).

(** ** Out *)

(** [src/agent/src/messaging/processor.rs:699-732] MessageProcessor::extract_recipient_keys *)
Definition processor_recipient_keys (recipient_did : string) (connection_id : option string) : agt (string * string) :=
  stored ← (match connection_id with
            | Some conn_id => r ← on_conns (er_find_by_id conn_id); mret (match r with inr o => o | inl _ => None end)
            | None => mret None
            end);
  match (c ← stored; a ← cn_their_authentication_key c; k ← cn_their_key_agreement_key c; Some (a, k)) with
  | Some keys => mret keys
  | None =>
      auth_key ← on_envelopes id (ev_auth_key recipient_did);
      encryption_key ← on_envelopes id (ev_encryption_key recipient_did);
      mret (auth_key, encryption_key)
  end.

(** [src/agent/src/messaging/processor.rs:735-760] MessageProcessor::find_sender_key *)
Definition find_sender_key self (sender_did : string) : agt string :=
  match (if decide (mp_agent_did self = Some sender_did) then mp_agent_key_id self else None) with
  | Some key_id => mret key_id
  | None => on_envelopes id (ev_own_key sender_did)
  end.

(** [src/agent/src/messaging/processor.rs:765-786] pack_message_v1 *)
Definition pack_message_v1 (message_map : list (string * Json)) (keys : string * string) (sender_key_id : string) : agt string :=
  on_envelopes (transport_error "Failed to pack v1 message: ") (ev_pack_v1 message_map keys sender_key_id).

(** [src/agent/src/messaging/processor.rs:666-696] MessageProcessor::pack_with_v1 *)
Definition pack_with_v1 self (message : list (string * Json)) (recipient_did sender_did : string) (connection_id : option string) : agt string :=
  keys ← processor_recipient_keys recipient_did connection_id;
  sender_key_id ← find_sender_key self sender_did;
  pack_message_v1 message keys sender_key_id.

(** The message that the envelope service gets: the body with the attachments and the thread. *)
Definition envelope_message (m : Message) (from to : string) : Message :=
  mkMessage (msg_id m) (msg_type m) (msg_body m) (Some from) (Some [to]) (msg_thread m) None None None
    (match msg_attachments m with Some (a :: l) => Some (a :: l) | _ => None end) ∅.
Definition pack_with_envelope (what : string) (m : Message) (recipient_did sender_did : string) : agt string :=
  on_envelopes (transport_error what) (ev_pack (envelope_message m sender_did recipient_did) recipient_did sender_did).

(** What the connection of an answer says about packing it. *)
Record ReplyRoute := mkRoute {
  rt_recipient : string;
  rt_sender : string;
  rt_is_v2 : bool;
  rt_negotiated_v1 : bool;
  rt_has_keys : bool
}.

(** [src/agent/src/messaging/processor.rs:460-496] MessageProcessor::pack_response (the connection's route) *)
Definition reply_route (outbound : OutboundMessage) : agt ReplyRoute :=
  let recipient_did := str_before "#"%char (out_to outbound) in
  let plain := mkRoute recipient_did (out_from outbound) false false false in
  match out_connection_id outbound with
  | None => mret plain
  | Some conn_id =>
      r ← on_conns (er_find_by_id conn_id);
      mret (match r with
            | inr (Some c) =>
                mkRoute (match cn_their_did c with Some their => str_before "#"%char their | None => recipient_did end)
                  (if decide (cn_did c = "") then out_from outbound else cn_did c)
                  (cn_is_v2 c) (bool_decide (cn_didcomm_version c = Some "1"))
                  (bool_decide (is_Some (cn_their_authentication_key c) ∧ is_Some (cn_their_key_agreement_key c)))
            | _ => plain
            end)
  end.

(** [src/agent/src/messaging/processor.rs:455-662] MessageProcessor::pack_response *)
Definition pack_response self (outbound : OutboundMessage) : agt string :=
  route ← reply_route outbound;
  let v1 := pack_with_v1 self (message_to_v1_wire (out_message outbound)) (rt_recipient route) (rt_sender route) (out_connection_id outbound) in
  if rt_negotiated_v1 route then v1
  else
    advertises_v1 ← eff_lift (recipient_advertises_v1_service (rt_recipient route));
    if (advertises_v1 : bool) then v1
    else
      let recipient_is_v2 := str_starts_with (rt_recipient route) "did:peer:2" || str_starts_with (rt_recipient route) "did:key" in
      if rt_has_keys route && negb recipient_is_v2 then v1
      else if rt_is_v2 route then
        if mp_envelope_service self then pack_with_envelope "EnvelopeService v2 pack failed: " (out_message outbound) (rt_recipient route) (rt_sender route)
        else eff_throw (AgtTransport "V2 connection requires EnvelopeService but it is not set")
      else if rt_has_keys route then v1
      else if mp_envelope_service self then pack_with_envelope "EnvelopeService pack failed: " (out_message outbound) (rt_recipient route) (rt_sender route)
      else v1.

(** [src/agent/src/messaging/processor.rs:254-261] MessageProcessor::process_outbound_response (whether it is sent by itself) *)
Definition sends_async (outbound : OutboundMessage) : bool :=
  bool_decide ((t ← msg_extra (out_message outbound) !! "~transport"; r ← json_get "return_route" t; json_as_str r) = Some "none").

(** [src/agent/src/messaging/processor.rs:277-313] MessageProcessor::send_async *)
Definition send_async (outbound : OutboundMessage) : agt unit :=
  eff_modify (λ s, mkAgentState (as_shared s) (as_dids s) (as_envelopes s) (as_spawned s ++ [outbound]) (as_events s)).

(** [src/agent/src/messaging/processor.rs:252-274] MessageProcessor::process_outbound_response *)
Definition process_outbound_response self (outbound : OutboundMessage) : agt (option string) :=
  if sends_async outbound then _ ← send_async outbound; mret None
  else packed ← pack_response self outbound; mret (Some packed).

(** [src/agent/src/messaging/processor.rs:102-249] MessageProcessor::process_message_with_raw *)
Definition process_message_with_raw self (message_json : string) (sender_endpoint sender_did raw_plaintext : option string) : agt (option string) :=
  response ← handle_message self message_json sender_endpoint sender_did raw_plaintext;
  match response with Some outbound => process_outbound_response self outbound | None => mret None end.

(** [src/agent/src/messaging/processor.rs:88-96] MessageProcessor::process_message *)
Definition process_message self (message_json : string) (sender_endpoint sender_did : option string) : agt (option string) :=
  process_message_with_raw self message_json sender_endpoint sender_did None.

(** ** The spawned send *)

Context `{Serde (gmap string Json)}.
Definition need {A} (what : string) (o : option A) : agt A := match o with Some a => mret a | None => eff_throw (AgtTransport what) end.

(** [src/agent/src/messaging/processor.rs:318-452] MessageProcessor::send_async_static *)
Definition send_async_static self (outbound : OutboundMessage) : agt unit :=
  conn_id ← need "Complete message missing connection_id" (out_connection_id outbound);
  r ← on_conns (er_find_by_id conn_id);
  found ← eff_lift (match r with inr o => Ok o | inl e => Err (transport_error "Failed to find connection: " (cne_to_string e)) end);
  conn_record ← need ("Connection not found: " +:+ conn_id) found;
  their_did ← need "Connection missing their_did" (cn_their_did conn_record);
  endpoint ← on_envelopes (transport_error "Failed to extract endpoint: ") (ev_endpoint their_did);
  '(packed_json, content_type) ←
    (if cn_is_v2 conn_record then
       _ ← need "V2 connection requires EnvelopeService but it is not set" (if mp_envelope_service self then Some tt else None);
       let m := out_message outbound in
       let didcomm_msg := mkMessage (msg_id m) (msg_type m) (msg_body m) (Some (out_from outbound)) (Some [their_did]) None None None None None ∅ in
       packed ← on_envelopes (transport_error "EnvelopeService v2 pack failed: ") (ev_pack didcomm_msg their_did (out_from outbound));
       mret (packed, "application/didcomm-encrypted+json")
     else
       message_map ← eff_lift (match sd_from_value (A:=gmap string Json) (msg_body (out_message outbound)) with
                               | Ok m => Ok m | Err e => Err (transport_error "Failed to convert message: " e) | Panic => Panic end);
       recipient_auth_key ← need "No stored auth key in connection" (cn_their_authentication_key conn_record);
       recipient_encryption_key ← need "No stored encryption key in connection" (cn_their_key_agreement_key conn_record);
       dids ← eff_gets as_dids;
       sender_key_id ← need ("Connection DID not found in repository: " +:+ cn_did conn_record)
         (record ← drp_records dids !! cn_did conn_record; key ← head (dr_keys record); Some (ddk_kms_key_id key));
       packed ← pack_message_v1 (map_iter message_map) (recipient_auth_key, recipient_encryption_key) sender_key_id;
       mret (packed, "application/ssi-agent-wire"));
  on_envelopes (transport_error "HTTP POST failed: ") (ev_post endpoint content_type packed_json).

(** A spawned send runs: what it fails with is logged. *)
Definition run_spawned self : agt unit := λ s w,
  match as_spawned s with
  | [] => (Ok tt, s, w)
  | outbound :: rest =>
      let s := mkAgentState (as_shared s) (as_dids s) (as_envelopes s) rest (as_events s) in
      match send_async_static self outbound s w with (_, s, w) => (Ok tt, s, w) end
  end.

(** * The HTTP ingress *)

Context `{!Unpacking ES}.

(** [TransportError::ProcessingFailed]. *)
Inductive TransportError := TeProcessingFailed (s : string).
Abbreviation ingress := (eff TransportError AS).

(** [src/agent/src/agent/messaging.rs:377-384] Agent::process_inbound_http (the shape of an envelope) *)
Definition is_encrypted_envelope (packed : string) : bool :=
  match json_parse packed with
  | Ok v => forallb (λ k, bool_decide (is_Some (json_str_at k v))) ["protected"; "iv"; "ciphertext"; "tag"]
  | _ => false
  end.

(** [src/agent/src/agent/messaging.rs:468-487] Agent::process_inbound_http (the sender as a DID) *)
Definition sender_as_did (from_val : string) : string :=
  if str_starts_with from_val "did:" then from_val
  else match bs58_decode from_val with
       | Some key_bytes => if decide (String.length key_bytes = 32) then did_key key_bytes else from_val
       | None => from_val
       end.

(** A plaintext with its sender and its text before normalization. *)
Record Plaintext := mkPlaintext { pt_text : string; pt_sender : option string; pt_raw : option string }.
Definition written (what : string) (m : Message) : ingress string :=
  eff_lift (match sd_to_text m with Ok t => Ok t | Err e => Err (TeProcessingFailed (what +:+ e)) | Panic => Panic end).

(** [src/agent/src/agent/messaging.rs:406-504] Agent::process_inbound_http (the envelope) *)
Definition unpack_envelope (packed : string) : ingress Plaintext :=
  r ← on_envelopes TeProcessingFailed (eff_catch (ev_unpack packed));
  match r with
  | inr (message, metadata) =>
      if negb (um_encrypted metadata) then eff_throw (TeProcessingFailed "DIDComm unpack did not produce an encrypted envelope")
      else
        _ ← eff_modify (λ s, mkAgentState (as_shared s) (as_dids s) (as_envelopes s) (as_spawned s)
              (as_events s ++ [mkReceived (msg_type message) (um_from metadata) (um_encrypted metadata) (um_authenticated metadata)]));
        text ← written "Failed to serialize unpacked message: " message;
        mret (mkPlaintext text (sender_as_did <$> um_from metadata) (um_raw_plaintext metadata))
  | inl v2_error =>
      text ← on_envelopes (λ v1_error, TeProcessingFailed ("DIDComm decryption failed.
  V2 error (primary): " +:+ v2_error +:+ "
  V1 error (fallback): " +:+ v1_error)) (ev_decrypt packed);
      mret (mkPlaintext text None None)
  end.

(** [src/agent/src/agent/messaging.rs:506-598] Agent::process_inbound_http (the message in a forward) *)
Definition unwrap_forward (p : Plaintext) : ingress Plaintext :=
  let parsed := match json_parse (pt_text p) with Ok v => v | _ => JNull end in
  let msg_type := default "" (json_either "@type" "type" parsed ≫= json_as_str) in
  if negb (str_contains msg_type "routing/1.0/forward") then mret p
  else
    inner_jwe ← eff_lift (match json_get "msg" parsed with
                          | Some (JString s) => Ok s
                          | Some (JObject l) => Ok (json_print (JObject l))
                          | Some _ => Err (TeProcessingFailed "Forward message 'msg' field has unexpected type")
                          | None => Err (TeProcessingFailed "Forward message missing 'msg' field")
                          end);
    r ← on_envelopes TeProcessingFailed (eff_catch (ev_unpack inner_jwe));
    match r with
    | inr (inner_message, inner_metadata) =>
        text ← written "Failed to serialize inner message: " inner_message;
        mret (mkPlaintext text (um_from inner_metadata) (um_raw_plaintext inner_metadata))
    | inl v2_err =>
        text ← on_envelopes (λ v1_err, TeProcessingFailed ("Forward inner JWE decrypt failed. V2: " +:+ v2_err +:+ ", V1: " +:+ v1_err)) (ev_decrypt inner_jwe);
        mret (mkPlaintext text None None)
    end.

(** [src/agent/src/agent/messaging.rs:366-636] Agent::process_inbound_http (with the envelope service, if there is one) *)
Definition process_inbound_http self (service : bool) (packed_message : string) (sender_endpoint : option string) : ingress (option string) :=
  if negb (is_encrypted_envelope packed_message) then eff_throw (TeProcessingFailed "Plaintext DIDComm is not accepted on encrypted HTTP ingress")
  else if negb service then eff_throw (TeProcessingFailed "EnvelopeService not initialized")
  else
    p ← unpack_envelope packed_message;
    p ← unwrap_forward p;
    eff_zoom id (λ s _, s) (λ e, TeProcessingFailed (agt_to_string e))
      (process_message_with_raw self (pt_text p) sender_endpoint (pt_sender p) (pt_raw p)).

(** * The dispatcher of the DIDComm crate *)

(** [src/didcomm/src/messaging/services/dispatcher.rs:45-89] MessageDispatcher::process_inbound (an error is its text) *)
Definition process_inbound (registry : HandlerRegistry S) (packed_message : string) : eff string AS (option OutboundMessage) :=
  '(message, metadata) ← on_envelopes id (ev_unpack packed_message);
  let context := mkContext (um_from metadata) (um_to metadata) (msg_thread message ≫= th_thid) (msg_pthid message) None
    (um_encrypted metadata) (um_authenticated metadata) None (um_raw_plaintext metadata) in
  match hr_get_handler (msg_type message) registry with
  | None => eff_throw ("DIDComm error: No handler for message type: " +:+ msg_type message)
  | Some handler =>
      eff_zoom as_shared (λ t s, mkAgentState t (as_dids s) (as_envelopes s) (as_spawned s) (as_events s))
        (λ e, "DIDComm error: " +:+ mhe_to_string e) (hd_handle handler (mkInbound message context))
  end.
End processor.
