(* ===== verification/Mediation.v ===== *)
(** Coordinate-mediation ([src/protocols/coordinate_mediation/src]): the states, the records,
    the messages and the repositories.

    The repositories of mediations are the two repositories of [RecordRepo], for the kind of
    record given here.  The repositories of keylists are an interface of their own
    ([KeylistRepo]), with the in-memory and the storage-backed one, and the laws that the
    services rely on. *)
From S2P Require Import Prelude AjnaTypes StdText SerdeJson Storage Didcomm RecordRepo Issuance.

(** * States and errors *)

(** [src/protocols/coordinate_mediation/src/domain/role.rs:5-12] MediationRole *)
Inductive MediationRole := MrRecipient | MrMediator.
#[export] Instance MediationRole_eq_dec : EqDecision MediationRole.
Proof. solve_decision. Defined.

(** [src/protocols/coordinate_mediation/src/domain/role.rs:16-18] MediationRole::is_recipient *)
Definition mr_is_recipient (self : MediationRole) : bool := bool_decide (self = MrRecipient).

(** [src/protocols/coordinate_mediation/src/domain/role.rs:21-23] MediationRole::is_mediator *)
Definition mr_is_mediator (self : MediationRole) : bool := bool_decide (self = MrMediator).

(** [src/protocols/coordinate_mediation/src/domain/role.rs:27-32] MediationRole::fmt *)
Definition mr_display (self : MediationRole) : string := match self with MrRecipient => "recipient" | MrMediator => "mediator" end.

(** [src/protocols/coordinate_mediation/src/domain/state.rs:5-14] MediationState *)
Inductive MediationState := MsRequested | MsGranted | MsDenied.
#[export] Instance MediationState_eq_dec : EqDecision MediationState.
Proof. solve_decision. Defined.

(** [src/protocols/coordinate_mediation/src/domain/state.rs:18-20] MediationState::is_active *)
Definition ms_is_active (self : MediationState) : bool := bool_decide (self = MsGranted).

(** [src/protocols/coordinate_mediation/src/domain/state.rs:23-25] MediationState::is_pending *)
Definition ms_is_pending (self : MediationState) : bool := bool_decide (self = MsRequested).

(** [src/protocols/coordinate_mediation/src/domain/state.rs:28-30] MediationState::is_denied *)
Definition ms_is_denied (self : MediationState) : bool := bool_decide (self = MsDenied).

(** [src/protocols/coordinate_mediation/src/domain/state.rs:33-45] MediationState::is_valid_transition_from *)
Definition ms_is_valid_transition_from (self from : MediationState) : bool :=
  if decide (from = self) then true
  else match from, self with
       | MsRequested, MsGranted => true
       | MsRequested, MsDenied => true
       | MsGranted, _ => false
       | MsDenied, _ => false
       | _, _ => false
       end.

(** [src/protocols/coordinate_mediation/src/domain/state.rs:49-55] MediationState::fmt *)
Definition ms_display (self : MediationState) : string :=
  match self with MsRequested => "requested" | MsGranted => "granted" | MsDenied => "denied" end.

(** [src/protocols/coordinate_mediation/src/domain/keylist_action.rs:5-12] KeylistAction *)
Inductive KeylistAction := KaAdd | KaRemove.
#[export] Instance KeylistAction_eq_dec : EqDecision KeylistAction.
Proof. solve_decision. Defined.

(** [src/protocols/coordinate_mediation/src/domain/keylist_action.rs:15-20] KeylistAction::fmt *)
Definition ka_display (self : KeylistAction) : string := match self with KaAdd => "add" | KaRemove => "remove" end.

(** [src/protocols/coordinate_mediation/src/domain/keylist_action.rs:24-35] KeylistResult *)
Inductive KeylistResult := KrSuccess | KrClientError | KrServerError | KrNoChange.
#[export] Instance KeylistResult_eq_dec : EqDecision KeylistResult.
Proof. solve_decision. Defined.

(** [src/protocols/coordinate_mediation/src/domain/keylist_action.rs:38-46] KeylistResult::fmt *)
Definition kr_display (self : KeylistResult) : string :=
  match self with KrSuccess => "success" | KrClientError => "client_error" | KrServerError => "server_error" | KrNoChange => "no_change" end.

(** [src/protocols/coordinate_mediation/src/lib.rs:51-51] MAX_FORWARDED_MESSAGE_SIZE_BYTES *)
Definition MAX_FORWARDED_MESSAGE_SIZE_BYTES : N := 524288.

(** [src/protocols/coordinate_mediation/src/lib.rs:78-127] MediationError (a serializer's error is its text) *)
Inductive MediationError :=
  | MeNotFound (s : string)
  | MeAlreadyExists (s : string)
  | MeInvalidStateTransition (from to : MediationState)
  | MeInvalidRole (expected actual : MediationRole)
  | MeInvalidState (expected : list MediationState) (actual : MediationState)
  | MeMissingThreadId
  | MeConnectionNotFound (s : string)
  | MeKeylistUpdateFailed (s : string)
  | MeNoMediationGranted (s : string)
  | MeStorage (s : string)
  | MeSerialization (s : string)
  | MeProtocol (s : string)
  | MeDIDComm (s : string).

(** The derived [Debug] texts. *)
Definition mr_debug (r : MediationRole) : string := match r with MrRecipient => "Recipient" | MrMediator => "Mediator" end.
Definition ms_debug (s : MediationState) : string := match s with MsRequested => "Requested" | MsGranted => "Granted" | MsDenied => "Denied" end.

(** [src/protocols/coordinate_mediation/src/lib.rs:78-127] MediationError::to_string (derived by thiserror) *)
Definition me_to_string (e : MediationError) : string :=
  match e with
  | MeNotFound s => "Mediation not found: " +:+ s
  | MeAlreadyExists s => "Mediation already exists: " +:+ s
  | MeInvalidStateTransition from to => "Invalid state transition: from " +:+ ms_debug from +:+ " to " +:+ ms_debug to
  | MeInvalidRole expected actual => "Invalid role for operation: expected " +:+ mr_debug expected +:+ ", got " +:+ mr_debug actual
  | MeInvalidState expected actual =>
      "Invalid state for operation: expected one of " +:+ debug_list (ms_debug <$> expected) +:+ ", got " +:+ ms_debug actual
  | MeMissingThreadId => "Missing thread ID in message"
  | MeConnectionNotFound s => "Connection not found: " +:+ s
  | MeKeylistUpdateFailed s => "Keylist update failed: " +:+ s
  | MeNoMediationGranted s => "No mediation granted for connection: " +:+ s
  | MeStorage s => "Storage error: " +:+ s
  | MeSerialization s => "Serialization error: " +:+ s
  | MeProtocol s => "Protocol error: " +:+ s
  | MeDIDComm s => "DIDComm error: " +:+ s
  end.

(** * Records *)

(** [src/protocols/coordinate_mediation/src/repository/mediation_record.rs:6-21] MediationRecord *)
Record MediationRecord := mkMediation {
  md_id : string;
  md_connection_id : string;
  md_state : MediationState;
  md_role : MediationRole;
  md_endpoint : option string;
  md_routing_keys : list string;
  md_registered_recipient_key : option string;
  md_created_at : Instant;
  md_updated_at : Instant
}.

(** [src/protocols/coordinate_mediation/src/repository/mediation_record.rs:24-32] MediationRecordBuilder *)
Record MediationRecordBuilder := mkMediationBuilder {
  mdb_id : option string;
  mdb_connection_id : string;
  mdb_state : MediationState;
  mdb_role : MediationRole;
  mdb_endpoint : option string;
  mdb_routing_keys : list string;
  mdb_registered_recipient_key : option string
}.

(** [src/protocols/coordinate_mediation/src/repository/mediation_record.rs:35-45] MediationRecordBuilder::new *)
Definition mdb_new (connection_id : string) (role : MediationRole) : MediationRecordBuilder :=
  mkMediationBuilder None connection_id MsRequested role None [] None.

(** [src/protocols/coordinate_mediation/src/repository/mediation_record.rs:47-50] MediationRecordBuilder::id *)
Definition mdb_with_id (id : string) (b : MediationRecordBuilder) : MediationRecordBuilder :=
  mkMediationBuilder (Some id) (mdb_connection_id b) (mdb_state b) (mdb_role b) (mdb_endpoint b) (mdb_routing_keys b) (mdb_registered_recipient_key b).

(** [src/protocols/coordinate_mediation/src/repository/mediation_record.rs:52-55] MediationRecordBuilder::state *)
Definition mdb_with_state (st : MediationState) (b : MediationRecordBuilder) : MediationRecordBuilder :=
  mkMediationBuilder (mdb_id b) (mdb_connection_id b) st (mdb_role b) (mdb_endpoint b) (mdb_routing_keys b) (mdb_registered_recipient_key b).

(** [src/protocols/coordinate_mediation/src/repository/mediation_record.rs:57-60] MediationRecordBuilder::endpoint *)
Definition mdb_with_endpoint (endpoint : string) (b : MediationRecordBuilder) : MediationRecordBuilder :=
  mkMediationBuilder (mdb_id b) (mdb_connection_id b) (mdb_state b) (mdb_role b) (Some endpoint) (mdb_routing_keys b) (mdb_registered_recipient_key b).

(** [src/protocols/coordinate_mediation/src/repository/mediation_record.rs:62-65] MediationRecordBuilder::routing_keys *)
Definition mdb_with_routing_keys (keys : list string) (b : MediationRecordBuilder) : MediationRecordBuilder :=
  mkMediationBuilder (mdb_id b) (mdb_connection_id b) (mdb_state b) (mdb_role b) (mdb_endpoint b) keys (mdb_registered_recipient_key b).

(** [src/protocols/coordinate_mediation/src/repository/mediation_record.rs:67-70] MediationRecordBuilder::registered_recipient_key *)
Definition mdb_with_registered_recipient_key (key : string) (b : MediationRecordBuilder) : MediationRecordBuilder :=
  mkMediationBuilder (mdb_id b) (mdb_connection_id b) (mdb_state b) (mdb_role b) (mdb_endpoint b) (mdb_routing_keys b) (Some key).

(** [src/protocols/coordinate_mediation/src/repository/mediation_record.rs:72-85] MediationRecordBuilder::build *)
Definition mdb_build `{UuidText} (self : MediationRecordBuilder) (w : World) : MediationRecord * World :=
  let '(now, w) := utc_now w in
  let '(id, w) := match mdb_id self with Some id => (id, w) | None => let '(u, w) := uuid_new_v4 w in (uuid_to_string u, w) end in
  (mkMediation id (mdb_connection_id self) (mdb_state self) (mdb_role self) (mdb_endpoint self) (mdb_routing_keys self)
     (mdb_registered_recipient_key self) now now, w).

Definition md_set_state (st : MediationState) (r : MediationRecord) : MediationRecord :=
  mkMediation (md_id r) (md_connection_id r) st (md_role r) (md_endpoint r) (md_routing_keys r) (md_registered_recipient_key r)
    (md_created_at r) (md_updated_at r).
Definition md_set_routing (endpoint : string) (keys : list string) (r : MediationRecord) : MediationRecord :=
  mkMediation (md_id r) (md_connection_id r) (md_state r) (md_role r) (Some endpoint) keys (md_registered_recipient_key r)
    (md_created_at r) (md_updated_at r).

(** [src/protocols/coordinate_mediation/src/repository/keylist_record.rs:6-14] KeylistRecord *)
Record KeylistRecord := mkKeylist {
  kl_id : string;
  kl_mediation_id : string;
  kl_recipient_key : string;
  kl_action : KeylistAction;
  kl_result : KeylistResult;
  kl_created_at : Instant
}.

(** [src/protocols/coordinate_mediation/src/repository/keylist_record.rs:17-31] KeylistRecord::new *)
Definition kl_new `{UuidText} (mediation_id recipient_key : string) (action : KeylistAction) (result : KeylistResult) (w : World)
    : KeylistRecord * World :=
  let '(u, w) := uuid_new_v4 w in
  let '(now, w) := utc_now w in
  (mkKeylist (uuid_to_string u) mediation_id recipient_key action result now, w).

(** * Messages *)

(** [src/protocols/coordinate_mediation/src/messages/request.rs:7-15] MediationRequestMessage *)
Record MediationRequestMessage := mkMediationRequest { mrq_type : string; mrq_id : string }.

(** [src/protocols/coordinate_mediation/src/messages/grant.rs:7-26] MediationGrantMessage *)
Record MediationGrantMessage := mkGrant {
  mg_type : string; mg_id : string; mg_thread : Thread; mg_endpoint : string; mg_routing_keys : list string
}.

(** [src/protocols/coordinate_mediation/src/messages/deny.rs:7-20] MediationDenyMessage *)
Record MediationDenyMessage := mkDeny { mdn_type : string; mdn_id : string; mdn_thread : Thread }.

(** [src/protocols/coordinate_mediation/src/messages/keylist_update.rs:5-12] KeylistUpdate *)
Record KeylistUpdate := mkKeylistUpdate { ku_recipient_key : string; ku_action : KeylistAction }.

(** [src/protocols/coordinate_mediation/src/messages/keylist_update.rs:24-26] KeylistUpdate::add *)
Definition ku_add (recipient_key : string) : KeylistUpdate := mkKeylistUpdate recipient_key KaAdd.

(** [src/protocols/coordinate_mediation/src/messages/keylist_update.rs:29-31] KeylistUpdate::remove *)
Definition ku_remove (recipient_key : string) : KeylistUpdate := mkKeylistUpdate recipient_key KaRemove.

(** [src/protocols/coordinate_mediation/src/messages/keylist_update.rs:37-49] KeylistUpdateMessage *)
Record KeylistUpdateMessage := mkKeylistUpdateMessage { kum_type : string; kum_id : string; kum_updates : list KeylistUpdate }.

(** [src/protocols/coordinate_mediation/src/messages/keylist_update_response.rs:6-16] KeylistUpdated *)
Record KeylistUpdated := mkKeylistUpdated { kd_recipient_key : string; kd_action : KeylistAction; kd_result : KeylistResult }.

(** [src/protocols/coordinate_mediation/src/messages/keylist_update_response.rs:29-31] KeylistUpdated::success *)
Definition kd_success (recipient_key : string) (action : KeylistAction) : KeylistUpdated := mkKeylistUpdated recipient_key action KrSuccess.

(** [src/protocols/coordinate_mediation/src/messages/keylist_update_response.rs:34-36] KeylistUpdated::client_error *)
Definition kd_client_error (recipient_key : string) (action : KeylistAction) : KeylistUpdated := mkKeylistUpdated recipient_key action KrClientError.

(** [src/protocols/coordinate_mediation/src/messages/keylist_update_response.rs:39-41] KeylistUpdated::server_error *)
Definition kd_server_error (recipient_key : string) (action : KeylistAction) : KeylistUpdated := mkKeylistUpdated recipient_key action KrServerError.

(** [src/protocols/coordinate_mediation/src/messages/keylist_update_response.rs:44-46] KeylistUpdated::no_change *)
Definition kd_no_change (recipient_key : string) (action : KeylistAction) : KeylistUpdated := mkKeylistUpdated recipient_key action KrNoChange.

(** [src/protocols/coordinate_mediation/src/messages/keylist_update_response.rs:52-68] KeylistUpdateResponseMessage *)
Record KeylistUpdateResponseMessage := mkKeylistResponse {
  kur_type : string; kur_id : string; kur_thread : Thread; kur_updated : list KeylistUpdated
}.

(** [src/protocols/coordinate_mediation/src/messages/forward.rs:30-47] ForwardMessage *)
Record ForwardMessage := mkForward { fw_type : string; fw_id : string; fw_to : string; fw_message : Json }.

(** [src/protocols/coordinate_mediation/src/messages/request.rs:19-19] MediationRequestMessage::TYPE *)
Definition MEDIATE_REQUEST : string := "https://didcomm.org/coordinate-mediation/1.0/mediate-request".
(** [src/protocols/coordinate_mediation/src/messages/grant.rs:30-30] MediationGrantMessage::TYPE *)
Definition MEDIATE_GRANT : string := "https://didcomm.org/coordinate-mediation/1.0/mediate-grant".
(** [src/protocols/coordinate_mediation/src/messages/deny.rs:24-24] MediationDenyMessage::TYPE *)
Definition MEDIATE_DENY : string := "https://didcomm.org/coordinate-mediation/1.0/mediate-deny".
(** [src/protocols/coordinate_mediation/src/messages/keylist_update.rs:53-53] KeylistUpdateMessage::TYPE *)
Definition KEYLIST_UPDATE : string := "https://didcomm.org/coordinate-mediation/1.0/keylist-update".
(** [src/protocols/coordinate_mediation/src/messages/keylist_update_response.rs:72-73] KeylistUpdateResponseMessage::TYPE *)
Definition KEYLIST_UPDATE_RESPONSE : string := "https://didcomm.org/coordinate-mediation/1.0/keylist-update-response".
(** [src/protocols/coordinate_mediation/src/messages/forward.rs:51-51] ForwardMessage::TYPE *)
Definition FORWARD : string := "https://didcomm.org/routing/1.0/forward".

Section constructors.
Context `{UuidText} {E S : Type}.

(** [src/protocols/coordinate_mediation/src/messages/request.rs:22-27] MediationRequestMessage::new *)
Definition mrq_new : eff E S MediationRequestMessage := id ← new_id; mret (mkMediationRequest MEDIATE_REQUEST id).

(** [src/protocols/coordinate_mediation/src/messages/grant.rs:33-46] MediationGrantMessage::new *)
Definition grant_new (thread_id endpoint : string) (routing_keys : list string) : eff E S MediationGrantMessage :=
  id ← new_id; mret (mkGrant MEDIATE_GRANT id (thread_of thread_id) endpoint routing_keys).

(** [src/protocols/coordinate_mediation/src/messages/deny.rs:27-38] MediationDenyMessage::new *)
Definition mdn_new (thread_id : string) : eff E S MediationDenyMessage := id ← new_id; mret (mkDeny MEDIATE_DENY id (thread_of thread_id)).

(** [src/protocols/coordinate_mediation/src/messages/keylist_update.rs:56-62] KeylistUpdateMessage::new *)
Definition kum_new (updates : list KeylistUpdate) : eff E S KeylistUpdateMessage :=
  id ← new_id; mret (mkKeylistUpdateMessage KEYLIST_UPDATE id updates).

(** [src/protocols/coordinate_mediation/src/messages/keylist_update_response.rs:76-88] KeylistUpdateResponseMessage::new *)
Definition kur_new (thread_id : string) (updated : list KeylistUpdated) : eff E S KeylistUpdateResponseMessage :=
  id ← new_id; mret (mkKeylistResponse KEYLIST_UPDATE_RESPONSE id (thread_of thread_id) updated).

(** [src/protocols/coordinate_mediation/src/messages/forward.rs:54-61] ForwardMessage::new *)
Definition fw_new (to : string) (message : Json) : eff E S ForwardMessage := id ← new_id; mret (mkForward FORWARD id to message).
End constructors.

(** [src/protocols/coordinate_mediation/src/events.rs:51-94] MediationStateChangedPayload, KeylistUpdatedPayload, RoutingCreatedPayload *)
Inductive MediationEvent :=
  | EvStateChanged (record : MediationRecord) (previous_state : option MediationState)
  | EvKeylistUpdated (mediation_id : string) (keys_added keys_removed : list string)
  | EvRoutingCreated (record : MediationRecord).

(** * Repositories of mediations *)

(** [src/protocols/coordinate_mediation/src/repository/storage_backed_repository.rs:16-16] MEDIATION_CATEGORY *)
Definition MEDIATION_CATEGORY : string := "mediation".

(** [src/protocols/coordinate_mediation/src/repository/storage_backed_repository.rs:69-87] StorageBackedMediationRepository::persist (the kind of record) *)
#[export] Instance mediation_kind `{Serde MediationRecord} : RecordKind MediationRecord MediationError := {|
  rk_key := {| rk_id := md_id; rk_already := MeAlreadyExists; rk_not_found := MeNotFound |};
  rk_category := MEDIATION_CATEGORY;
  rk_tags r := <["connection_id" := md_connection_id r]> (<["state" := ms_display (md_state r)]> {["role" := mr_display (md_role r)]});
  rk_encode r := match sd_to_text r with
                 | Ok s => Ok s
                 | Err e => Err (MeStorage ("Failed to serialize mediation record: " +:+ e))
                 | Panic => Panic
                 end;
  rk_decode s := match sd_from_text s with Ok r => Some r | _ => None end;
  rk_load_failed e := MeStorage ("Failed to load mediation records: " +:+ ag_to_string e);
  rk_save_failed e := MeStorage ("Failed to store mediation record: " +:+ ag_to_string e);
  rk_update_failed e := MeStorage ("Failed to update mediation record: " +:+ ag_to_string e);
  rk_delete_failed e := MeStorage ("Failed to delete mediation record: " +:+ ag_to_string e)
|}.
#[export] Instance mediation_kind_laws `{JsonText} `{Serde MediationRecord} `{!SerdeLaws MediationRecord} :
  RecordKindLaws MediationRecord MediationError.
Proof.
  apply exact_kind_laws. intros x v Hv. cbn in *. destruct (sd_to_text x) as [s| |] eqn:Hs; try done. injection Hv as ->.
  by rewrite (sd_text_back _ _ Hs).
Defined.

Section finders.
Context {RS : Type} `{!ExchangeRepo RS MediationRecord MediationError}.

(** [src/protocols/coordinate_mediation/src/repository/mediation_repository.rs:86-92] MediationRepository::find_by_connection_id *)
Definition mrepo_find_by_connection_id (connection_id : string) : eff MediationError RS (option MediationRecord) :=
  er_find (λ r, bool_decide (md_connection_id r = connection_id)).

(** [src/protocols/coordinate_mediation/src/repository/mediation_repository.rs:94-101] MediationRepository::find_by_state *)
Definition mrepo_find_by_state (state : MediationState) : eff MediationError RS (list MediationRecord) :=
  er_filter (λ r, bool_decide (md_state r = state)).

(** [src/protocols/coordinate_mediation/src/repository/mediation_repository.rs:103-110] MediationRepository::find_by_role *)
Definition mrepo_find_by_role (role : MediationRole) : eff MediationError RS (list MediationRecord) :=
  er_filter (λ r, bool_decide (md_role r = role)).

(** [src/protocols/coordinate_mediation/src/repository/mediation_repository.rs:112-114] MediationRepository::find_all_granted *)
Definition mrepo_find_all_granted : eff MediationError RS (list MediationRecord) := mrepo_find_by_state MsGranted.
End finders.
