(* ===== verification/Sender.v ===== *)
(** Messages on their way out ([src/agent/src/messaging/sender.rs]): a recipient's DID is resolved
    to an endpoint and routing keys, the message is sealed, wrapped in a forward for every
    routing key, and sent.

    What seals and transports is behind the interface [Sending]. *)
From Stdlib Require Import Ascii.
From S2P Require Import Prelude AjnaTypes StdText SerdeJson Storage Hashing Didcomm RecordRepo RecordSpec Keys Dids PeerDid Oob Connections Mediation MessageProcessor.

(** [src/agent/src/transport/mod.rs:33-64] EncryptedMessage *)
Record EncryptedMessage := mkEncrypted {
  em_protected : string;
  em_iv : string;
  em_ciphertext : string;
  em_tag : string;
  em_sender_endpoint : option string
}.

(** What a sender asks of its encryption, its transports and its DCX runtime. *)
Class Sending (TS : Type) := {
  (** [DcxOutboundTransport::send_to_peer]: peer and payload. *)
  sn_dcx : string → string → eff string TS unit;
  (** [MessageEncryption::pack_encrypted_message]: message, recipient, sender. *)
  sn_pack {A} `{Serde A} : A → string → string → eff AgtError TS string;
  (** [MessageEncryption::pack_anon_message]: for a key. *)
  sn_pack_anon : ForwardMessage → string → eff AgtError TS string;
  (** [TransportManager::send_message] and [send_to_endpoint]: the answer that came back. *)
  sn_send : EncryptedMessage → string → eff string TS (option string);
  sn_post : string → string → eff string TS (option string)
}.

(** [src/agent/src/messaging/sender.rs:30-40] DidCommSender (the DCX runtime, if it is enabled) *)
Record DidCommSender (TS : Type) := mkSender {
  ds_transport : TS;
  ds_did_repository : DidRepository;
  ds_dcx : bool
}.
Arguments mkSender {TS}.
Arguments ds_transport {TS}.
Arguments ds_did_repository {TS}.
Arguments ds_dcx {TS}.

(** [src/agent/src/messaging/sender.rs:58-61] DidCommSender::with_dcx *)
Definition ds_with_dcx {TS} (s : DidCommSender TS) : DidCommSender TS := mkSender (ds_transport s) (ds_did_repository s) true.

(** * Where to *)

Section resolve.
Context `{Bs58} `{Hashing.Base64} `{JsonText} `{Multibase}.

(** [src/agent/src/messaging/sender.rs:391-397] ensure_base58_verkey *)
Definition ensure_base58_verkey (key : string) : outcome AgtError string :=
  if str_starts_with key "did:key:z" then
    match did_key_to_base58_verkey key with Some v => Ok v | None => Err (AgtModule ("Failed to decode did:key: " +:+ key)) end
  else Ok key.

(** Endpoint, routing keys and the key of the recipient. *)
Definition Route : Type := string * list string * option string.
Definition peer_route (p : Peer2Service) : option Route :=
  endpoint ← p2_service_endpoint p; Some (endpoint, p2_routing_keys p, p2_authentication_key p).

(** [src/agent/src/messaging/sender.rs:404-408] resolve_did_peer2_service *)
Definition resolve_did_peer2_service (did : string) : outcome AgtError (option Route) :=
  let? p := parse_peer2 did in Ok (p ≫= peer_route).

(** [src/agent/src/messaging/sender.rs:415-419] resolve_did_peer4_service *)
Definition resolve_did_peer4_service (did : string) : option Route := parse_peer4 did ≫= peer_route.

(** A property of a service that may be spelled in two ways. *)
Definition service_property (a b : string) (svc : CoreService) : option Json :=
  match csvc_properties svc !! a with Some v => Some v | None => csvc_properties svc !! b end.
Definition service_routing_keys (svc : CoreService) : list string := default [] (json_str_items <$> service_property "routingKeys" "routing_keys" svc).

(** [src/agent/src/messaging/sender.rs:154-172] DidCommSender::send (the recipient's key) *)
Definition service_recipient_key (doc : DidDocument) (svc : CoreService) : option string :=
  v ← service_property "recipientKeys" "recipient_keys" svc;
  l ← json_as_array v;
  k ← head l;
  key_ref ← json_as_str k;
  Some (if str_starts_with key_ref "#" then
          default key_ref (vm ← find_first (λ vm, str_ends_with (cvm_id vm) key_ref || str_contains (cvm_id vm) key_ref = true) (dd_verification_method doc);
                           cvm_public_key_base58 vm)
        else key_ref).

(** [src/agent/src/messaging/sender.rs:118-183] DidCommSender::send (endpoint, routing keys and recipient key) *)
Definition resolve_recipient (dids : DidRepository) (recipient_did : string) : outcome AgtError Route :=
  match (r ← drp_records dids !! recipient_did; dr_document r) with
  | Some did_doc =>
      match head (dd_service did_doc) with
      | None => Err (AgtDidResolution ("DID document has no services: " +:+ recipient_did))
      | Some service =>
          match json_as_str (csvc_endpoint service) with
          | None => Err (AgtDidResolution "Service endpoint is not a string")
          | Some endpoint => Ok (endpoint, service_routing_keys service, service_recipient_key did_doc service)
          end
      end
  | None =>
      let? r := resolve_did_peer2_service recipient_did in
      match r with
      | Some route => Ok route
      | None =>
          match resolve_did_peer4_service recipient_did with
          | Some route => Ok route
          | None => Err (AgtDidResolution ("Cannot resolve DID: " +:+ recipient_did))
          end
      end
  end.
End resolve.

(** * Sending *)

Section sender.
Context `{UuidText} `{Bs58} `{Hashing.Base64} `{JsonText} `{Multibase} {TS : Type} `{!Sending TS}.
Abbreviation snd_eff := (eff AgtError (DidCommSender TS)).

Definition on_transport {E A} (err : E → AgtError) (m : eff E TS A) : snd_eff A :=
  eff_zoom ds_transport (λ t s, mkSender t (ds_did_repository s) (ds_dcx s)) err m.

(** The forwards, from the recipient outwards. *)
Fixpoint wrap_forwards (keys : list string) (current_to current_packed : string) : snd_eff string :=
  match keys with
  | [] => mret current_packed
  | routing_key :: keys =>
      v ← eff_lift (match json_parse current_packed with Ok v => Ok v | Err e => Err (AgtModule ("Failed to parse JWE: " +:+ e)) | Panic => Panic end);
      forward_msg ← fw_new current_to v;
      packed ← on_transport (λ e, AgtModule ("Failed to pack Forward: " +:+ agt_to_string e)) (sn_pack_anon forward_msg routing_key);
      to ← eff_lift (ensure_base58_verkey routing_key);
      wrap_forwards keys to packed
  end.

(** [src/agent/src/messaging/sender.rs:241-262] DidCommSender::send (the layers of forwards) *)
Definition forward_layers (routing_keys : list string) (recipient_key : option string) (recipient_did packed_jwe : string) : snd_eff string :=
  match routing_keys with
  | [] => mret packed_jwe
  | _ =>
      to ← eff_lift (ensure_base58_verkey (default recipient_did recipient_key));
      wrap_forwards (reverse routing_keys) to packed_jwe
  end.

(** [src/agent/src/messaging/sender.rs:90-117] DidCommSender::send (over DCX) *)
Definition send_over_dcx {A} `{Serde A} (recipient_did : string) (message : A) : snd_eff bool :=
  s ← eff_get;
  if negb (ds_dcx s) then mret false
  else
    match sd_to_text message with
    | Ok payload =>
        r ← on_transport (λ e : string, AgtOther e) (eff_catch (sn_dcx recipient_did payload));
        mret (match r with inr _ => true | inl _ => false end)
    | Err _ => mret false
    | Panic => eff_lift Panic
    end.

(** [src/agent/src/messaging/sender.rs:71-275] DidCommSender::send *)
Definition ds_send {A} `{Serde A} (sender_did recipient_did : string) (message : A) : snd_eff (option string) :=
  sent ← send_over_dcx recipient_did message;
  if (sent : bool) then mret None
  else
    dids ← eff_gets ds_did_repository;
    '(endpoint, routing_keys, recipient_key) ← eff_lift (resolve_recipient dids recipient_did);
    packed_jwe ← on_transport id (sn_pack message recipient_did sender_did);
    final_packed ← forward_layers routing_keys recipient_key recipient_did packed_jwe;
    on_transport (λ e, AgtTransport e) (sn_send (mkEncrypted "jwe" "jwe" final_packed "jwe" None) endpoint).

(** [src/agent/src/messaging/sender.rs:280-290] DidCommSender::send_via_connection *)
Definition send_via_connection {A} `{Serde A} (connection : ConnectionRecord) (message : A) : snd_eff (option string) :=
  match cn_their_did connection with
  | None => eff_throw (AgtConnections "Connection not yet completed")
  | Some their_did => ds_send (cn_did connection) their_did message
  end.

(** [src/agent/src/messaging/sender.rs:302-363] DidCommSender::send_prepacked_via_connection *)
Definition send_prepacked_via_connection (connection : ConnectionRecord) (packed : string) : snd_eff (option string) :=
  match cn_their_did connection with
  | None => eff_throw (AgtConnections "Connection not yet completed")
  | Some recipient_did =>
      dids ← eff_gets ds_did_repository;
      '(endpoint, _, _) ← eff_lift (resolve_recipient dids recipient_did);
      on_transport (λ e, AgtTransport e) (sn_post endpoint packed)
  end.

(** [src/agent/src/messaging/sender.rs:370-385] DidCommSender::pack_and_send_to_endpoint *)
Definition pack_and_send_to_endpoint {A} `{Serde A} (sender_did recipient_did : string) (message : A) (endpoint : string) : snd_eff (option string) :=
  packed ← on_transport id (sn_pack message recipient_did sender_did);
  on_transport (λ e, AgtTransport e) (sn_post endpoint packed).
End sender.

(** * What goes out *)

Section layers.
Context `{UuidText} `{Bs58} `{Hashing.Base64} `{JsonText} `{Multibase} {TS : Type} `{!Sending TS}.

(** Who holds a key opens what was packed for it, and finds the forward. *)
Class OpensForwards (opens : string → Json → option ForwardMessage) : Prop := {
  opens_packed f k t w p t' w' : sn_pack_anon (TS:=TS) f k t w = (Ok p, t', w') → ∃ v, json_parse p = Ok v ∧ opens k v = Some f
}.
Context (opens : string → Json → option ForwardMessage) `{!OpensForwards opens}.

(** The holders of the keys open one layer each, from the outside: whom each is told to pass the
    rest to, and what is left. *)
Fixpoint carried (keys : list string) (packed : Json) : option (list string * Json) :=
  match keys with
  | [] => Some ([], packed)
  | k :: keys => f ← opens k packed; '(hops, inner) ← carried keys (fw_message f); Some (fw_to f :: hops, inner)
  end.
Lemma carried_app ks ks' v : carried (ks ++ ks') v = '(hops, inner) ← carried ks v; '(hops', inner') ← carried ks' inner; Some (hops ++ hops', inner').
Proof.
  revert v. induction ks as [|k ks IH]; intros v; cbn; [by destruct (carried ks' v) as [[]|]|].
  destruct (opens k v) as [f|]; cbn; [|done]. rewrite IH. destruct (carried ks (fw_message f)) as [[hops inner]|]; cbn; [|done].
  by destruct (carried ks' inner) as [[hops' inner']|].
Qed.

(** The keys as the mediators know them. *)
Definition verkeys (keys ids : list string) : Prop := Forall2 (λ k i, ensure_base58_verkey k = Ok i) keys ids.

Lemma on_transport_answers {E A} (err : E → AgtError) (m : eff E TS A) (s : DidCommSender TS) w a s' w' :
  on_transport err m s w = (Ok a, s', w') → answers m a.
Proof. unfold on_transport, eff_zoom. destruct (m (ds_transport s) w) as [[[a'|e|] t] w1] eqn:Hm; [|done..]. intros [= -> _ _]. by exists (ds_transport s), w, t, w1. Qed.

(** Each holder is told the next one, and the last one the recipient. *)
Lemma wrapped_carried keys to packed inner (s : DidCommSender TS) w final s' w' :
  wrap_forwards (reverse keys) to packed s w = (Ok final, s', w') → json_parse packed = Ok inner →
  ∃ v ids, json_parse final = Ok v ∧ verkeys keys ids ∧ carried keys v = Some (tail (ids ++ [to]), inner).
Proof.
  revert to packed inner s w. induction keys as [|k keys IH] using rev_ind; intros to packed inner s w.
  - cbn. unfold mret, eff_ret. intros [= -> _ _] Hp. exists inner, []. by split_and!; [|constructor|].
  - rewrite reverse_app. cbn [reverse rev_append app wrap_forwards]. intros Hw Hp. rewrite Hp in Hw.
    rewrite (eff_bind_run _ _ _ _ inner s w) in Hw by done.
    apply eff_bind_ok in Hw as (f & s1 & w1 & Hf & Hw). apply eff_bind_ok in Hw as (p & s2 & w2 & Ha & Hw).
    apply eff_bind_ok in Hw as (i & s3 & w3 & Hi & Hw).
    assert (Hfw : fw_to f = to ∧ fw_message f = inner) by (unfold fw_new, mbind, eff_bind, new_id, eff_world in Hf; cbn in Hf; by injection Hf as <- _ _).
    apply on_transport_answers in Ha as (t & wt & t' & wt' & Ha). destruct (opens_packed _ _ _ _ _ _ _ Ha) as (vp & Hvp & Hop).
    destruct (IH i p vp s3 w3 Hw Hvp) as (v & ids & Hv & Hids & Hc). exists v, (ids ++ [i]).
    assert (Hk : ensure_base58_verkey k = Ok i) by (unfold eff_lift in Hi; by destruct (ensure_base58_verkey k); inversion Hi).
    split; [done|]. split; [by apply Forall2_app; [|constructor]|]. rewrite carried_app, Hc. cbn. rewrite Hop. cbn [mbind option_bind]. destruct Hfw as [-> ->]. cbn [mbind option_bind].
    f_equal. f_equal. by destruct ids.
Qed.

Lemma wrapped_parses keys to packed (s : DidCommSender TS) w final s' w' :
  keys ≠ [] → wrap_forwards keys to packed s w = (Ok final, s', w') → ∃ inner, json_parse packed = Ok inner.
Proof. destruct keys as [|k keys]; [done|]. intros _. cbn [wrap_forwards]. destruct (json_parse packed) as [v|e|]; [by exists v|done..]. Qed.
Lemma reverse_nil_inv (l : list string) : reverse l = [] → l = [].
Proof. intros Hl. rewrite <-(reverse_involutive l), Hl. done. Qed.
Lemma dcx_keeps_dids {A} `{Serde A} theirs (message : A) (s : DidCommSender TS) w r s' w' :
  send_over_dcx theirs message s w = (r, s', w') → ds_did_repository s' = ds_did_repository s.
Proof.
  unfold send_over_dcx. rewrite (eff_bind_run eff_get _ s w s s w) by done. destruct (ds_dcx s); cbn [negb]; [|by intros [= _ <- _]].
  destruct (sd_to_text message) as [payload|e|]; [|by intros [= _ <- _]..].
  unfold mbind, eff_bind, on_transport, eff_zoom. by destruct (eff_catch _ _ _) as [[[a|e|] t] w1]; intros [= _ <- _].
Qed.

(** C20: A message is routed to its recipient, hop by hop.  When a message was sent and not over a
    DCX channel, the recipient's DID was resolved to an endpoint, the message was sealed for the
    recipient, and what the endpoint got is the sealed message itself when there are no routing
    keys.  Otherwise it can be opened by the holder of the first routing key, who finds the
    verification key of the second one and the rest, and so on; the last one finds the
    recipient's key and the sealed message. *)
Theorem routed_hop_by_hop {A} `{Serde A} ours theirs (message : A) (s : DidCommSender TS) w r s' w' :
  ds_send ours theirs message s w = (Ok r, s', w') →
  (∃ payload, sd_to_text message = Ok payload ∧ ds_dcx s = true ∧ answers (sn_dcx (TS:=TS) theirs payload) tt ∧ r = None) ∨
  ∃ endpoint keys recipient packed final,
    resolve_recipient (ds_did_repository s) theirs = Ok (endpoint, keys, recipient) ∧
    answers (sn_pack (TS:=TS) message theirs ours) packed ∧ answers (sn_send (TS:=TS) (mkEncrypted "jwe" "jwe" final "jwe" None) endpoint) r ∧
    match keys with
    | [] => final = packed
    | _ => ∃ inner v ids to, json_parse packed = Ok inner ∧ json_parse final = Ok v ∧ verkeys keys ids ∧
        ensure_base58_verkey (default theirs recipient) = Ok to ∧ carried keys v = Some (tail (ids ++ [to]), inner)
    end.
Proof.
  intros (sent & s1 & w1 & Hsent & Hrest)%eff_bind_ok. destruct sent.
  - left. unfold mret, eff_ret in Hrest. injection Hrest as <- _ _. revert Hsent. unfold send_over_dcx.
    rewrite (eff_bind_run eff_get _ s w s s w) by done. destruct (ds_dcx s); [|done]. cbn [negb].
    destruct (sd_to_text message) as [payload|e|] eqn:Ht; [|done..].
    intros (x & s2 & w2 & (t & wt & t' & wt' & Hx)%on_transport_answers & Hr)%eff_bind_ok. exists payload.
    unfold mret, eff_ret in Hr. destruct x as [e|[]]; [done|]. split_and!; [done..| |done]. unfold eff_catch in Hx.
    destruct (sn_dcx theirs payload t wt) as [[[[]|e|] t2] wt2] eqn:Hd; [|done..]. by exists t, wt, t2, wt2.
  - right. rewrite (eff_bind_run (eff_gets _) _ s1 w1 (ds_did_repository s1) s1 w1) in Hrest by done.
    apply eff_bind_ok in Hrest as ([[endpoint keys] recipient] & s2 & w2 & Hres & Hrest).
    apply eff_bind_ok in Hrest as (packed & s3 & w3 & Hpack%on_transport_answers & Hrest).
    apply eff_bind_ok in Hrest as (final & s4 & w4 & Hfw & Hsend%on_transport_answers).
    exists endpoint, keys, recipient, packed, final. split; [|split; [exact Hpack|split; [exact Hsend|]]].
    { rewrite <-(dcx_keeps_dids _ _ _ _ _ _ _ Hsent). unfold eff_lift in Hres. by destruct (resolve_recipient _ _); inversion Hres. }
    unfold forward_layers in Hfw. destruct keys as [|k keys]; [unfold mret, eff_ret in Hfw; by injection Hfw|].
    apply eff_bind_ok in Hfw as (to & s5 & w5 & Hto & Hw). destruct (wrapped_parses (reverse (k :: keys)) _ _ _ _ _ _ _ ltac:(by intros ?%reverse_nil_inv) Hw) as [inner Hin].
    destruct (wrapped_carried (k :: keys) to packed inner s5 w5 final s4 w4 Hw Hin) as (v & ids & Hv & Hids & Hc).
    exists inner, v, ids, to. split_and!; try done. unfold eff_lift in Hto. by destruct (ensure_base58_verkey _); inversion Hto.
Qed.
End layers.

(** ** A route of two mediators *)

Section route_run.
Definition toy_layer (f : ForwardMessage) (k : string) : Json :=
  JObject [("key", JString k); ("type", JString (fw_type f)); ("id", JString (fw_id f)); ("to", JString (fw_to f)); ("msg", fw_message f)].
Definition toy_opens (k : string) (v : Json) : option ForwardMessage :=
  k' ← json_str_at "key" v; t ← json_str_at "type" v; i ← json_str_at "id" v; to ← json_str_at "to" v; m ← json_get "msg" v;
  if decide (k' = k) then Some (mkForward t i to m) else None.
#[local] Existing Instances plain_order toy_uuid_text code_json toy_bs58 toy_base64.
Definition toy_multibase_sender : Multibase := {| mb_decode _ := inl "not used" |}.
#[local] Existing Instance toy_multibase_sender.
Definition toy_text_serde : Serde string := {| sd_to_value s := Ok (JString s); sd_from_value _ := Err "not used"; sd_to_text s := Ok s; sd_from_text _ := Err "not used" |}.
#[local] Existing Instance toy_text_serde.

(** The transport keeps what it was given. *)
#[local] Instance toy_sending : Sending (list (string * string)) := {|
  sn_dcx _ _ t w := (Err "no channel", t, w);
  sn_pack A _ a their ours t w := (match sd_to_value a with Ok v => Ok (json_print (JObject [("for", JString their); ("sealed", v)])) | _ => Err (AgtEncryption "") end, t, w);
  sn_pack_anon f k t w := (Ok (json_print (toy_layer f k)), t, w);
  sn_send m endpoint t w := (Ok None, t ++ [(endpoint, em_ciphertext m)], w);
  sn_post endpoint m t w := (Ok None, t ++ [(endpoint, m)], w)
|}.
#[local] Instance toy_opens_forwards : OpensForwards (TS:=list (string * string)) toy_opens.
Proof.
  constructor. intros f k t w p t' w' He. change ((Ok (json_print (toy_layer f k)), t, w) = (Ok (E:=AgtError) p, t', w')) in He.
  assert (Hp : p = json_print (toy_layer f k)) by congruence. exists (toy_layer f k). split; [rewrite Hp; exact (code_reparse (toy_layer f k))|].
  unfold toy_opens, toy_layer, json_str_at. json_keys. cbn [mbind option_bind json_as_str]. rewrite decide_True by done. by destruct f.
Qed.
Definition bob_document : DidDocument :=
  mkDidDocument "did:x:bob" [] [] [] [] [] [] [mkCoreService "#s" "did-communication" (JString "https://m1")
    (<["routingKeys" := json_strings ["k1"; "k2"]]> (<["recipientKeys" := json_strings ["kb"]]> ∅))] None [] None.
Definition toy_sender : DidCommSender (list (string * string)) :=
  mkSender [] (mkDidRepo {[ "did:x:bob" := mkDidRecord "r" "did:x:bob" DrReceived (Some bob_document) [] 0 None ]} None) false.
Theorem routed_hop_by_hop_witness :
  ∃ s' w', ds_send "did:x:me" "did:x:bob" "hello" toy_sender world0 = (Ok None, s', w') ∧
    ∃ endpoint keys recipient packed final, answers (sn_pack (TS:=list (string * string)) "hello" "did:x:bob" "did:x:me") packed ∧
      answers (sn_send (TS:=list (string * string)) (mkEncrypted "jwe" "jwe" final "jwe" None) endpoint) None ∧
      match keys with
      | [] => final = packed
      | _ => ∃ inner v ids to, json_parse packed = Ok inner ∧ json_parse final = Ok v ∧ verkeys keys ids ∧ ensure_base58_verkey (default "did:x:bob" recipient) = Ok to ∧
            carried toy_opens keys v = Some (tail (ids ++ [to]), inner)
      end.
Proof.
  assert (Hok : (ds_send "did:x:me" "did:x:bob" "hello" toy_sender world0).1.1 = Ok None) by (vm_compute; reflexivity).
  destruct (ds_send "did:x:me" "did:x:bob" "hello" toy_sender world0) as [[o s'] w'] eqn:Hr. cbn [fst] in Hok. subst o.
  exists s', w'. split; [reflexivity|].
  destruct (routed_hop_by_hop toy_opens "did:x:me" "did:x:bob" "hello" toy_sender world0 None s' w' Hr)
    as [(payload & _ & Hd & _)|(endpoint & keys & recipient & packed & final & _ & Hp & Hs & Hk)]; [discriminate|].
  by exists endpoint, keys, recipient, packed, final.
Defined.

(** What the first mediator gets says: pass on to the second; and what that one gets: to Bob. *)
Example two_hops :
  match ds_send "did:x:me" "did:x:bob" "hello" toy_sender world0 with
  | (Ok _, s, _) => match ds_transport s with
                    | [(endpoint, text)] => match json_parse text with Ok v => (endpoint, fst <$> carried toy_opens ["k1"; "k2"] v) | _ => ("", None) end
                    | _ => ("", None) end
  | _ => ("", None)
  end = ("https://m1", Some ["k2"; "kb"]).
Proof. vm_compute. reflexivity. Qed.
End route_run.
