(* ===== verification/BasicModule.v ===== *)
(** The module of basic messages of the agent ([src/agent/src/modules/basic_messages.rs]): the
    service of messages, the connections and the sender, put together. *)
From S2P Require Import Prelude AjnaTypes StdText SerdeJson Storage Hashing Didcomm RecordRepo RecordSpec Keys Dids PeerDid Oob Connections Mediation BasicMessages MessageProcessor Sender.

(** [src/protocols/basic_messages/src/handlers/basic_message_handler.rs:123-125] BasicMessageHandler::supported_types *)
Definition bm_handler `{UuidText} `{Rfc3339} `{Serde BasicMessage} {RS CR} `{!ExchangeRepo RS BasicMessageRecord BasicMessageError}
    `{!ConnectionLookup CR} : MessageHandler (BasicMessages RS CR) :=
  mkHandler [BASIC_MESSAGE_TYPE] basic_message_handle.

(** [src/agent/src/modules/basic_messages.rs:354-401] BasicMessagesModule::register (the handlers that are registered) *)
Definition bmo_register `{UuidText} `{Rfc3339} `{Serde BasicMessage} {RS CR} `{!ExchangeRepo RS BasicMessageRecord BasicMessageError}
    `{!ConnectionLookup CR} (r : HandlerRegistry (BasicMessages RS CR)) : HandlerRegistry (BasicMessages RS CR) := hr_register bm_handler r.

(** Edits and deletions have no handler. *)
Lemma changes_have_no_handler `{UuidText} `{Rfc3339} `{Serde BasicMessage} {RS CR} `{!ExchangeRepo RS BasicMessageRecord BasicMessageError}
    `{!ConnectionLookup CR} :
  hr_get_handler EDIT_MESSAGE_TYPE (bmo_register (RS:=RS) (CR:=CR) hr_new) = None ∧
  hr_get_handler DELETE_MESSAGE_TYPE (bmo_register (RS:=RS) (CR:=CR) hr_new) = None.
Proof. unfold bmo_register. rewrite !get_registered. split; (rewrite decide_False; [done|by intros [? | []%elem_of_nil]%elem_of_cons]). Qed.

(** [src/agent/src/modules/basic_messages.rs:19-31] BasicMessagesInner *)
Record BasicModule (RS CR TS : Type) := mkBasicModule {
  bmo_messages : BasicMessages RS CR;
  bmo_sender : DidCommSender TS
}.
Arguments mkBasicModule {RS CR TS}.
Arguments bmo_messages {RS CR TS}.
Arguments bmo_sender {RS CR TS}.

Section module.
Context `{UuidText} `{Rfc3339} `{Bs58} `{Hashing.Base64} `{JsonText} `{Multibase} `{Serde BasicMessage} `{Serde EditMessage}.
Context {RS CR TS : Type} `{!ExchangeRepo RS BasicMessageRecord BasicMessageError} `{!ExchangeRepo CR ConnectionRecord ConnectionError} `{!Sending TS}.
Abbreviation BMO := (BasicModule RS CR TS).
Abbreviation bmo := (eff AgtError BMO).

Definition on_service {A} (what : string) (m : eff BasicMessageServiceError (BasicMessages RS CR) A) : bmo A :=
  eff_zoom bmo_messages (λ t s, mkBasicModule t (bmo_sender s)) (λ e, AgtModule (what +:+ bms_to_string e)) m.
Definition on_messages {A} (m : eff BasicMessageError RS A) : bmo A :=
  eff_zoom (λ s, bmx_repository (bmo_messages s))
    (λ r s, mkBasicModule (mkBasicMessages r (bmx_connections (bmo_messages s)) (bmx_event_bus (bmo_messages s))) (bmo_sender s))
    (λ e, AgtStorage (bme_to_string e)) m.
Definition on_peers {A} (m : eff ConnectionError CR A) : bmo A :=
  eff_zoom (λ s, bmx_connections (bmo_messages s))
    (λ c s, mkBasicModule (mkBasicMessages (bmx_repository (bmo_messages s)) c (bmx_event_bus (bmo_messages s))) (bmo_sender s))
    (λ e, AgtConnections (cne_to_string e)) m.
Definition on_sender {A} (m : eff AgtError (DidCommSender TS) A) : bmo A :=
  eff_zoom bmo_sender (λ t s, mkBasicModule (bmo_messages s) t) id m.

Definition peer_connection (connection_id : string) : bmo ConnectionRecord :=
  o ← on_peers (er_find_by_id connection_id);
  match o with Some c => mret c | None => eff_throw (AgtConnections ("Connection not found: " +:+ connection_id)) end.

(** [src/agent/src/modules/basic_messages.rs:90-101] BasicMessagesModule::send_message (the mesh endpoint) *)
Definition mesh_endpoint (connection : ConnectionRecord) : option string :=
  t ← cn_get_metadata connection ≫= json_get "transport";
  preferred ← json_str_at "preferred" t;
  if decide (preferred = "mesh") then json_str_at "selected_endpoint" t else None.

(** [src/agent/src/modules/basic_messages.rs:114-146] BasicMessagesModule::send_message (over the mesh) *)
Definition send_over_mesh (connection : ConnectionRecord) (message : BasicMessage) : bmo bool :=
  match mesh_endpoint connection with
  | None => mret false
  | Some mesh_ep =>
      match cn_their_did connection with
      | None => eff_throw (AgtConnections "Connection not yet completed")
      | Some their_did =>
          packed ← on_sender (on_transport id (sn_pack message their_did (cn_did connection)));
          r ← on_sender (on_transport AgtTransport (eff_catch (sn_send (mkEncrypted "jwe" "jwe" packed "jwe" None) mesh_ep)));
          mret (match r with inr _ => true | inl _ => false end)
      end
  end.

(** [src/agent/src/modules/basic_messages.rs:67-160] BasicMessagesModule::send_message *)
Definition bmo_send_message (connection_id content : string) (parent_thread_id : option string) : bmo BasicMessageRecord :=
  connection ← peer_connection connection_id;
  '(message, record) ← on_service "Basic message service error: " (bm_create_message content connection parent_thread_id);
  sent ← send_over_mesh connection message;
  if (sent : bool) then mret record
  else _ ← on_sender (send_via_connection connection message); mret record.

(** [src/agent/src/modules/basic_messages.rs:166-196] BasicMessagesModule::send_edit *)
Definition bmo_send_edit (connection_id message_id new_content : string) : bmo BasicMessageRecord :=
  connection ← peer_connection connection_id;
  '(edit_message, record) ← on_service "Basic message edit error: " (bm_create_edit message_id new_content connection_id);
  _ ← on_sender (send_via_connection connection edit_message);
  mret record.

(** [src/agent/src/modules/basic_messages.rs:199-208] BasicMessagesModule::find_by_connection_id *)
Definition bmo_find_by_connection_id (connection_id : string) : bmo (list BasicMessageRecord) := on_messages (sbm_find_by_connection_id connection_id).

(** [src/agent/src/modules/basic_messages.rs:211-217] BasicMessagesModule::get_all *)
Definition bmo_get_all : bmo (list BasicMessageRecord) := on_messages sbm_get_all.

(** [src/agent/src/modules/basic_messages.rs:220-226] BasicMessagesModule::get_by_id *)
Definition bmo_get_by_id (id : string) : bmo (option BasicMessageRecord) := on_messages (er_find_by_id id).

(** [src/agent/src/modules/basic_messages.rs:229-235] BasicMessagesModule::find_by_query *)
Definition bmo_find_by_query (query : BasicMessageQuery) : bmo (list BasicMessageRecord) := on_messages (sbm_find_by_query query).

(** [src/agent/src/modules/basic_messages.rs:238-245] BasicMessagesModule::find_sent_messages *)
Definition bmo_find_sent_messages (connection_id : string) : bmo (list BasicMessageRecord) :=
  bmo_find_by_query (mkBmQuery (Some connection_id) (Some BmSender) None None).

(** [src/agent/src/modules/basic_messages.rs:248-258] BasicMessagesModule::find_received_messages *)
Definition bmo_find_received_messages (connection_id : string) : bmo (list BasicMessageRecord) :=
  bmo_find_by_query (mkBmQuery (Some connection_id) (Some BmReceiver) None None).

(** [src/agent/src/modules/basic_messages.rs:261-267] BasicMessagesModule::delete_by_id *)
Definition bmo_delete_by_id (id : string) : bmo unit := on_messages (er_delete id).

(** [src/agent/src/modules/basic_messages.rs:274-313] BasicMessagesModule::send_message_to_multiple *)
Fixpoint send_message_to_multiple (connection_ids : list string) (content : string) (parent_thread_id : option string) : bmo (list BasicMessageRecord) :=
  match connection_ids with
  | [] => mret []
  | connection_id :: connection_ids =>
      connection ← peer_connection connection_id;
      '(message, record) ← on_service "Basic message service error: " (bm_create_message content connection parent_thread_id);
      _ ← on_sender (send_via_connection connection message);
      records ← send_message_to_multiple connection_ids content parent_thread_id;
      mret (record :: records)
  end.

(** [src/agent/src/modules/basic_messages.rs:316-337] BasicMessagesModule::broadcast_message *)
Definition broadcast_message (content : string) (parent_thread_id : option string) : bmo (list BasicMessageRecord) :=
  connections ← on_peers cn_find_all_completed;
  send_message_to_multiple (cn_id <$> connections) content parent_thread_id.
End module.
