(* ===== verification/MessageProps.v ===== *)
(** What the processor of messages promises: a message is handled for the connection of its
    sender, an answer is sealed for the connection that it is for, and what goes out in the form
    of DIDComm v1 is read back. *)
From Stdlib Require Import Ascii.
From stdpp Require Import countable.
From S2P Require Import Prelude AjnaTypes StdText SerdeJson Storage Hashing Didcomm RecordRepo RecordSpec Keys Dids PeerDid PeerProps Oob Connections ConnStore BasicMessages BasicMessageProps MessageProcessor BasicModule.

(** * The connection of a sender *)

(** A sender is known by its DID or by its key. *)
Definition known_as `{Bs58} (sender : string) (c : ConnectionRecord) : Prop :=
  cnt_their_did (cn_tags c) = Some sender ∨ cn_their_authentication_key c = Some (default sender (extract_verkey_from_did_key sender)).

Section sender.
Context `{HashOrder} `{Bs58} {S ES CR : Type} `{!ExchangeRepo CR ConnectionRecord ConnectionError} `{!ExchangeRepoLaws CR ConnectionRecord ConnectionError}
  `{!HasRepo S CR}.
Abbreviation AS := (AgentState S ES).
Implicit Types (cv : string → option ConnectionRecord).

(** The connections of the whole state. *)
#[export] Instance agent_connections : HasRepo AS CR := {|
  repo_of s := repo_of (as_shared s);
  with_repo c s := mkAgentState (with_repo c (as_shared s)) (as_dids s) (as_envelopes s) (as_spawned s) (as_events s);
  repo_of_with c s := repo_of_with c (as_shared s)
|}.
Lemma on_conns_as {A} (m : eff ConnectionError CR A) cv F :
  quiet (T:=AS) cv (eff_catch (on_records m)) F → quiet (T:=AS) cv (on_conns m) F.
Proof.
  intros Hm s w Hs Hv. specialize (Hm s w Hs Hv). revert Hm. unfold on_conns, eff_zoom, eff_catch, on_records, eff_zoom. cbn.
  destruct (m (repo_of (as_shared s)) w) as [[[a|e|] c] w0]; cbn; intros (Hok & Hvs & HF); (split; [exact Hok|split; [exact Hvs|]]); intros b Hb;
    apply HF; congruence.
Qed.
Lemma sender_known cv sender :
  quiet (T:=AS) cv (sender_connection_id sender) (λ o, ∀ i, o = Some i → ∃ c, cv i = Some c ∧ cn_id c = i ∧ known_as sender c).
Proof.
  unfold sender_connection_id. quietly (on_conns_as (cn_find_by_their_did sender) cv _ (quiet_catch _ _ _ (quiet_filter cv _))). intros r Hr.
  assert (Hkeys : quiet (T:=AS) cv (r ← on_conns er_get_all;
      mret (match r with
            | inr all => cn_id <$> find_first (λ c, bool_decide (cn_their_authentication_key c = Some (default sender (extract_verkey_from_did_key sender))) = true) all
            | inl _ => None
            end)) (λ o, ∀ i, o = Some i → ∃ c, cv i = Some c ∧ cn_id c = i ∧ known_as sender c)).
  { quietly (on_conns_as er_get_all cv _ (quiet_catch _ _ _ (quiet_get_all cv))). intros r' Hr'.
    eapply from_conseq; [apply quiet_ret| |done]. intros ? -> i Hi. destruct r' as [|l]; [done|].
    destruct (find_first _ l) as [c|] eqn:Hf; [|done]. injection Hi as <-. apply find_first_Some in Hf as [Hin Hk%bool_decide_eq_true].
    exists c. split; [by apply Hr'|]. split; [done|]. by right. }
  destruct r as [e|[|c l]]; [exact Hkeys..|]. eapply from_conseq; [apply quiet_ret| |done]. intros ? -> i [= <-].
  destruct (proj1 (Hr c) ltac:(set_solver)) as [Hd%bool_decide_eq_true Hc]. exists c. split; [done|]. split; [done|by left].
Qed.
End sender.

(** * Basic messages through the processor *)

#[export] Existing Instance connections_repo.

Section filed.
Context `{HashOrder} `{UuidText} `{Rfc3339} `{Bs58} `{Hashing.Base64} `{JsonText} `{Multibase} `{Serde Message} `{Serde Thread} `{Serde (list Attachment)}.
Context `{Serde BasicMessage} `{Serde EditMessage} `{Serde DeleteMessage}.
Context {RS CR ES : Type} `{!ExchangeRepo RS BasicMessageRecord BasicMessageError} `{!ExchangeRepoLaws RS BasicMessageRecord BasicMessageError}
  `{!ExchangeRepo CR ConnectionRecord ConnectionError} `{!ExchangeRepoLaws CR ConnectionRecord ConnectionError} `{!Envelopes ES}.
Abbreviation BMX := (BasicMessages RS CR).
Abbreviation AS := (AgentState BMX ES).
Implicit Types (self : MessageProcessor BMX) (s : AS).

Definition messages_of (s : AS) : string → option BasicMessageRecord := rs_view (RS:=RS) (as_shared s).
Definition connections_of (s : AS) : string → option ConnectionRecord := er_view (bmx_connections (as_shared s)).

Lemma on_conns_messages {A} (m : eff ConnectionError CR A) s w : bmx_repository (as_shared (on_conns m s w).1.2) = bmx_repository (as_shared s).
Proof. unfold on_conns, eff_zoom. by destruct (eff_catch m _ w) as [[[a|e|] c] w']. Qed.
Lemma sender_messages sender s w : bmx_repository (as_shared (sender_connection_id sender s w).1.2) = bmx_repository (as_shared s).
Proof.
  unfold sender_connection_id, mbind, eff_bind. pose proof (on_conns_messages (cn_find_by_their_did sender) s w) as H1'.
  destruct (on_conns (cn_find_by_their_did sender) s w) as [[[r|e|] s1] w1]; cbn in H1'; [|exact H1'..].
  assert (Hall : ∀ k, bmx_repository (as_shared ((r ← on_conns er_get_all; mret (M:=eff AgtError AS) (A:=option string) (k r)) s1 w1).1.2) = bmx_repository (as_shared s)).
  { intros k. unfold mbind, eff_bind. pose proof (on_conns_messages er_get_all s1 w1) as H2'.
    destruct (on_conns er_get_all s1 w1) as [[[r'|e|] s2] w2]; cbn in *; congruence. }
  destruct r as [e|[|c l]]; [apply Hall|apply Hall|exact H1'].
Qed.

(** The handler gives no answer. *)
Lemma basic_no_answer inbound (s : BMX) w o (s' : BMX) w' : basic_message_handle inbound s w = (Ok o, s', w') → o = None.
Proof.
  unfold basic_message_handle, mbind, eff_bind. destruct (bm_body _ _ s w) as [[[m|e|] s1] w1]; [|done..].
  destruct (message_connection inbound s1 w1) as [[[c|e|] s2] w2]; [|done..].
  destruct (eff_zoom _ _ _ _ s2 w2) as [[[r|e|] s3] w3]; [|done..]. by intros [= <- _ _].
Qed.

(** A message is filed with its sender.  Whatever a text says that reaches the processor with
    the basic message handler registered, over any repositories that keep their laws: a record
    that is there afterwards and was not before is the received message that the text holds,
    filed under a connection of the agent that the sender is known by, by its DID or by its
    key; the sender is that of the envelope and only when the envelope names none the one that
    the message names.  Otherwise the message itself names the DID or a key of that
    connection: nothing else vouches for it then. *)
Theorem message_filed_with_sender self text ep sender_did raw v m s w id r :
  read_message self text = Ok (v, m, bm_handler) → rs_ok (RS:=RS) (as_shared s) → er_ok (bmx_connections (as_shared s)) →
  messages_of s id = None → messages_of (process_message_with_raw self text ep sender_did raw s w).1.2 id = Some r →
  ∃ b c, sd_from_value (msg_body m) = Ok b ∧ bmr_role r = BmReceiver ∧ bmr_id r = bmg_id b ∧ bmr_content r = bmg_content b ∧
    connections_of s (bmr_connection_id r) = Some c ∧
    ((∃ sender, effective_sender sender_did m v = Some sender ∧ known_as sender c) ∨
     (∃ from, msg_from m = Some from ∧
        (cnt_their_did (cn_tags c) = Some from ∨ cn_their_authentication_key c = Some from ∨ cn_their_key_agreement_key c = Some from))).
Proof.
  intros Hread Hs Hc Hnew. unfold process_message_with_raw, handle_message. rewrite Hread.
  set (from := effective_sender sender_did m v).
  set (look := match from with Some sender => sender_connection_id sender | None => mret None end : eff AgtError AS (option string)).
  assert (Hlook : quiet (T:=AS) (RS:=CR) (connections_of s) look (λ o, ∀ i, o = Some i → ∃ c sender, connections_of s i = Some c ∧ cn_id c = i ∧ from = Some sender ∧ known_as sender c)).
  { unfold look. destruct from as [sender|]; [|eapply from_conseq; [apply quiet_ret|by intros ? ->|done]].
    eapply from_conseq; [apply sender_known| |done]. intros o Ho i Hi. destruct (Ho i Hi) as (c & ? & ? & ?). by exists c, sender. }
  assert (Hmsgs : bmx_repository (as_shared (look s w).1.2) = bmx_repository (as_shared s)) by (unfold look; destruct from; [apply sender_messages|done]).
  specialize (Hlook s w Hc (λ _, eq_refl)).
  set (rest := λ o, on_shared (λ e, transport_error "Handler failed: " (mhe_to_string e))
    (hd_handle bm_handler (mkInbound m (inbound_context self m from o ep (default text raw)))) : eff AgtError AS (option OutboundMessage)).
  set (answer := λ o : option OutboundMessage, match o with Some outbound => process_outbound_response self outbound | None => mret None end : eff AgtError AS (option string)).
  intros Hr. assert (Hview : messages_of (((look ≫= rest) ≫= answer) s w).1.2 id = Some r) by exact Hr. clear Hr.
  unfold mbind, eff_bind in Hview. destruct (look s w) as [[[o|e|] s1] w1]; cbn in Hmsgs, Hview;
    [|unfold messages_of, rs_view in *; cbn in *; congruence..].
  destruct Hlook as (Hc1 & Hv1 & Ho). specialize (Ho o eq_refl).
  set (inbound := mkInbound m (inbound_context self m from o ep (default text raw))).
  set (cs := bmx_connections (as_shared s1)).
  destruct (heard_message [BcMessage cs inbound] cs inbound (as_shared s1) w1) as [_ Hp]; [set_solver|exact Hc1|done|by unfold rs_ok in *; cbn in *; rewrite Hmsgs|].
  specialize (Hp id). unfold rest, on_shared, eff_zoom in Hview. cbn [hd_handle bm_handler] in Hview. fold inbound in Hview.
  pose proof (basic_no_answer inbound (as_shared s1) w1) as Hno.
  destruct (basic_message_handle inbound (as_shared s1) w1) as [[a s2] w2]. cbn [fst snd] in Hp.
  assert (Hr : rs_view (RS:=RS) s2 id = Some r).
  { destruct a as [o'|e|]; [rewrite (Hno o' s2 w2 eq_refl) in Hview|..]; exact Hview. }
  rewrite Hr in Hp. replace (rs_view (as_shared s1) id) with (@None BasicMessageRecord) in Hp
    by (unfold messages_of, rs_view in *; cbn in *; by rewrite Hmsgs).
  assert (Hone : ∀ c : bm_call (CR:=CR), c ∈ [BcMessage cs inbound] → c = BcMessage cs inbound) by set_solver.
  assert (Hborn : bm_born [BcMessage cs inbound] r).
  { eapply (change_path_invariant _ _ _ (bm_born [BcMessage cs inbound])); [by intros ?| |exact Hp|done|done].
    intros x y [z content [[c Hc']|(c1 & i & x' & e & Hc' & _)]] _; by specialize (Hone _ Hc'). }
  destruct Hborn as [r parent Hro (c & Hin & _)|r b Hro (cs' & i & c & Hin & Hb & [Hcv Hspeak] & Hcid) Hid Hcon Htime _ _ _]; [by specialize (Hone _ Hin)|].
  pose proof (Hone _ Hin) as [= -> ->]. exists b, c. split_and!; [done..| |].
  - rewrite <-Hcid, <-Hcv. apply Hv1.
  - destruct Hspeak as [Hctx|Hfrom]; [left|by right]. destruct (Ho (cn_id c) Hctx) as (c' & sender & Hcv' & _ & Hs' & Hk).
    exists sender. split; [done|]. rewrite Hv1 in Hcv'. unfold rs_view in Hcv'. cbn in Hcv', Hcv. fold cs in Hcv'. rewrite Hcv in Hcv'. by injection Hcv' as <-.
Qed.
End filed.

(** * A message from the network *)

Section key.
Context `{Bs58} `{!Bs58Laws}.
(** The key of an envelope of DIDComm v1 becomes a DID, and is read out of it again. *)
Lemma sender_of_key key : String.length key = 32 → sender_as_did (bs58_encode key) = did_key key.
Proof.
  intros Hl. unfold sender_as_did. rewrite (bs58_plain key "" : str_starts_with (bs58_encode key) "did:" = false).
  by rewrite bs58_decode_encode, decide_True.
Qed.
Lemma key_of_sender key : String.length key = 32 → extract_verkey_from_did_key (did_key key) = Some (bs58_encode key).
Proof.
  intros Hl. unfold extract_verkey_from_did_key, did_key. rewrite strip_prefix_app. cbn [mbind option_bind]. rewrite bs58_decode_encode.
  unfold multicodec. cbn [mbind option_bind]. by rewrite decide_True.
Qed.
End key.

Section network.
Context `{HashOrder} `{UuidText} `{Rfc3339} `{Bs58} `{!Bs58Laws} `{Hashing.Base64} `{JsonText} `{Multibase} `{Serde Message} `{Serde Thread} `{Serde (list Attachment)}.
Context `{Serde BasicMessage} `{Serde EditMessage} `{Serde DeleteMessage} {ES : Type} `{!Envelopes ES} `{!Unpacking ES}.
Abbreviation MemB := (BasicMessages (gmap string BasicMessageRecord) (gmap string ConnectionRecord)).
Abbreviation AS := (AgentState MemB ES).
Implicit Types (self : MessageProcessor MemB) (s : AS).

Lemma on_conns_run {A} (m : eff ConnectionError (gmap string ConnectionRecord) A) s w a :
  m (bmx_connections (as_shared s)) w = (Ok a, bmx_connections (as_shared s), w) → on_conns m s w = (Ok (inr a), s, w).
Proof. intros Hm. unfold on_conns, eff_zoom, eff_catch. cbn. rewrite Hm. by destruct s as [[]]. Qed.
(** A sender that is known by its key alone. *)
Lemma sender_by_key s w key c :
  String.length key = 32 → bmx_connections (as_shared s) !! cn_id c = Some c → cn_their_authentication_key c = Some (bs58_encode key) →
  (∀ i x, bmx_connections (as_shared s) !! i = Some x → cnt_their_did (cn_tags x) ≠ Some (did_key key)) →
  (∀ i x, bmx_connections (as_shared s) !! i = Some x → cn_their_authentication_key x = Some (bs58_encode key) → x = c) →
  sender_connection_id (did_key key) s w = (Ok (Some (cn_id c)), s, w).
Proof.
  intros Hl Hc Hk Hno Huniq. unfold sender_connection_id.
  rewrite (eff_bind_run _ _ _ _ (inr []) s w).
  2: { apply on_conns_run. unfold cn_find_by_their_did. cbn. unfold mr_filter, eff_gets. destruct (filter _ _) as [|x l] eqn:Hf; [done|].
       assert (Hin : x ∈ x :: l) by set_solver. rewrite <-Hf in Hin. apply list_elem_of_filter in Hin as [Hd%bool_decide_eq_true [i Hx]%elem_of_repo_records].
       by destruct (Hno i x Hx). }
  rewrite key_of_sender by done. cbn [default from_option]. set (p := λ x : ConnectionRecord, bool_decide (cn_their_authentication_key x = Some (bs58_encode key)) = true).
  rewrite (eff_bind_run _ _ _ _ (inr (repo_record_values (bmx_connections (as_shared s)))) s w) by by apply on_conns_run.
  destruct (find_first_is_Some p (repo_record_values (bmx_connections (as_shared s))) c) as [x Hx].
  { apply elem_of_repo_records. eauto. }
  { by apply bool_decide_eq_true. }
  unfold mret, eff_ret. change (find_first _ _) with (find_first p (repo_record_values (bmx_connections (as_shared s)))). rewrite Hx.
  apply find_first_Some in Hx as [[i Hin]%elem_of_repo_records Hp%bool_decide_eq_true]. by rewrite (Huniq i x Hin Hp).
Qed.

Definition seen (m : Message) (meta : UnpackMetadata) (es : ES) s : AS :=
  mkAgentState (as_shared s) (as_dids s) es (as_spawned s) (as_events s ++ [mkReceived (msg_type m) (um_from meta) (um_encrypted meta) (um_authenticated meta)]).
Lemma unpack_run s w packed m0 meta es w1 text :
  ev_unpack packed (as_envelopes s) w = (Ok (m0, meta), es, w1) → um_encrypted meta = true → sd_to_text m0 = Ok text →
  unpack_envelope packed s w = (Ok (mkPlaintext text (sender_as_did <$> um_from meta) (um_raw_plaintext meta)), seen m0 meta es s, w1).
Proof.
  intros Hu He Ht. unfold unpack_envelope, on_envelopes, eff_zoom, eff_catch, written, mbind, eff_bind. rewrite Hu. cbn. unfold seen. rewrite He. cbn. rewrite Ht. reflexivity.
Qed.
(** A plaintext that is no forward. *)
Lemma unwrap_run p v t s w :
  json_parse (pt_text p) = Ok v → json_either "@type" "type" v ≫= json_as_str = Some t → str_contains t "routing/1.0/forward" = false →
  unwrap_forward p s w = (Ok p, s, w).
Proof. intros Hv Ht Hf. unfold unwrap_forward. rewrite Hv, Ht. cbn [default from_option id]. by rewrite Hf. Qed.

(** A message from the network reaches the conversation it belongs to.  An envelope that unpacks
    to a basic message from a key that the agent has a connection with is accepted at the HTTP
    ingress: its sender's key becomes a DID, the key is read out of the DID again, the connection
    is found by it, the message is parsed and the handler files it.  There is one new record,
    with the id, the text and the time of the message, received on that connection, no answer is
    sent, and what is stored otherwise is as it was. *)
Theorem envelope_is_filed self packed ep s w m0 meta es w1 text v m b key c :
  is_encrypted_envelope packed = true → ev_unpack packed (as_envelopes s) w = (Ok (m0, meta), es, w1) → um_encrypted meta = true →
  um_from meta = Some (bs58_encode key) → String.length key = 32 → sd_to_text m0 = Ok text → json_parse text = Ok v →
  json_either "@type" "type" v ≫= json_as_str = Some BASIC_MESSAGE_TYPE →
  hr_get_handler BASIC_MESSAGE_TYPE (mp_handler_registry self) = Some bm_handler → parse_message_to_didcomm v = Ok m →
  sd_from_value (msg_body m) = Ok b → bmx_repository (as_shared s) !! bmg_id b = None →
  bmx_connections (as_shared s) !! cn_id c = Some c → cn_their_authentication_key c = Some (bs58_encode key) →
  (∀ i x, bmx_connections (as_shared s) !! i = Some x → cnt_their_did (cn_tags x) ≠ Some (did_key key)) →
  (∀ i x, bmx_connections (as_shared s) !! i = Some x → cn_their_authentication_key x = Some (bs58_encode key) → x = c) →
  ∃ r s' w', process_inbound_http self true packed ep s w = (Ok None, s', w') ∧
    bmx_repository (as_shared s') = <[bmr_id r := r]> (bmx_repository (as_shared s)) ∧ bmx_connections (as_shared s') = bmx_connections (as_shared s) ∧
    bmr_id r = bmg_id b ∧ bmr_content r = bmg_content b ∧ bmr_sent_time r = bmg_sent_time b ∧ bmr_role r = BmReceiver ∧ bmr_connection_id r = cn_id c ∧
    as_spawned s' = as_spawned s.
Proof.
  intros Henc Hu He Hfrom Hl Ht Hv Hty Hh Hm Hb Hn Hc Hk Hno Huniq.
  set (p := mkPlaintext text (Some (did_key key)) (um_raw_plaintext meta)). set (s1 := seen m0 meta es s).
  assert (Hp : unpack_envelope packed s w = (Ok p, s1, w1)).
  { rewrite (unpack_run s w packed m0 meta es w1 text Hu He Ht), Hfrom. cbn [fmap option_fmap option_map]. by rewrite sender_of_key. }
  set (inbound := mkInbound m (inbound_context self m (Some (did_key key)) (Some (cn_id c)) ep (default text (um_raw_plaintext meta)))).
  destruct (message_run inbound (as_shared s) w1 c b) as (r & w' & Hr & _ & Hid & Hcon & Htime & _ & _ & Hro & Hrc); [done..|by rewrite Hn|].
  exists r, (mkAgentState (bm_put_record r (BmStateChanged r b) (as_shared s)) (as_dids s) es (as_spawned s) (as_events s1)), w'.
  split; [|by split_and!]. unfold process_inbound_http. rewrite Henc. cbn [negb].
  rewrite (eff_bind_run _ _ _ _ _ _ _ Hp), (eff_bind_run _ _ _ _ _ _ _ (unwrap_run p v _ s1 w1 Hv Hty eq_refl)).
  assert (Hread : read_message self text = Ok (v, m, bm_handler)) by (unfold read_message; by rewrite Hv; cbn; rewrite Hty, Hh, Hm).
  assert (Hlook : sender_connection_id (did_key key) s1 w1 = (Ok (Some (cn_id c)), s1, w1)) by by apply sender_by_key.
  unfold eff_zoom, process_message_with_raw, handle_message. change (pt_text p) with text. rewrite Hread.
  unfold mbind, eff_bind, eff_lift. cbn [id effective_sender pt_sender p]. rewrite Hlook. unfold on_shared, eff_zoom. cbn [hd_handle bm_handler as_shared s1 seen].
  change (pt_raw p) with (um_raw_plaintext meta). fold inbound. rewrite Hr. reflexivity.
Qed.
End network.

(** * Answers *)

Section answers.
Context `{HashOrder} `{Bs58} `{Hashing.Base64} `{JsonText} `{Multibase} `{Serde Thread} `{Serde (list Attachment)}.
Context {S ES : Type} `{!HasRepo S (gmap string ConnectionRecord)} `{!Envelopes ES}.
Abbreviation AS := (AgentState S ES).
Implicit Types (self : MessageProcessor S) (s : AS) (c : ConnectionRecord).

(** Who an answer over a connection goes to, and as whom. *)
Definition reply_to (outbound : OutboundMessage) c : string :=
  match cn_their_did c with Some their => str_before "#"%char their | None => str_before "#"%char (out_to outbound) end.
Definition reply_as (outbound : OutboundMessage) c : string := if decide (cn_did c = "") then out_from outbound else cn_did c.
Definition has_keys c : bool := bool_decide (is_Some (cn_their_authentication_key c) ∧ is_Some (cn_their_key_agreement_key c)).

(** Sealed in DIDComm v1 for the keys of the connection or, when it has none, of the other side's DID. *)
Definition sealed_v1 self (outbound : OutboundMessage) c (packed : string) : Prop :=
  ∃ a k key, answers (ev_pack_v1 (ES:=ES) (message_to_v1_wire (out_message outbound)) (a, k) key) packed ∧
    (cn_their_authentication_key c = Some a ∧ cn_their_key_agreement_key c = Some k ∨
     has_keys c = false ∧ answers (ev_auth_key (ES:=ES) (reply_to outbound c)) a ∧ answers (ev_encryption_key (ES:=ES) (reply_to outbound c)) k) ∧
    (mp_agent_did self = Some (reply_as outbound c) ∧ mp_agent_key_id self = Some key ∨ answers (ev_own_key (ES:=ES) (reply_as outbound c)) key).
Definition sealed_v2 (outbound : OutboundMessage) c (packed : string) : Prop :=
  answers (ev_pack (ES:=ES) (envelope_message (out_message outbound) (reply_as outbound c) (reply_to outbound c)) (reply_to outbound c) (reply_as outbound c)) packed.

Lemma envelopes_answer {E A} (err : E → AgtError) (m : eff E ES A) s w a s' w' :
  on_envelopes err m s w = (Ok a, s', w') → answers m a ∧ as_shared s' = as_shared s.
Proof.
  unfold on_envelopes, eff_zoom. destruct (m (as_envelopes s) w) as [[[a'|e|] es] w1] eqn:Hm; [|done..]. intros [= -> <- <-].
  split; [by exists (as_envelopes s), w, es, w1|done].
Qed.
Definition conns_of (s : AS) : gmap string ConnectionRecord := repo_of (as_shared s).
Lemma found_connection i s w :
  ∃ s', on_conns (ES:=ES) (er_find_by_id i) s w = (Ok (inr (conns_of s !! i)), s', w) ∧ conns_of s' = conns_of s.
Proof. eexists. split; [reflexivity|]. unfold conns_of. cbn. apply repo_of_with. Qed.

Lemma recipient_keys_of recipient i c s w a k s' w' :
  conns_of s !! i = Some c → processor_recipient_keys recipient (Some i) s w = (Ok (a, k), s', w') →
  cn_their_authentication_key c = Some a ∧ cn_their_key_agreement_key c = Some k ∨
  has_keys c = false ∧ answers (ev_auth_key (ES:=ES) recipient) a ∧ answers (ev_encryption_key (ES:=ES) recipient) k.
Proof.
  intros Hc. unfold processor_recipient_keys. destruct (found_connection i s w) as (s1 & Hf & _). rewrite Hc in Hf.
  rewrite (eff_bind_run _ _ _ _ (Some c) s1 w) by by rewrite (eff_bind_run _ _ _ _ _ _ _ Hf).
  assert (Hresolved : ∀ s w, (auth_key ← on_envelopes (E:=AgtError) (E':=AgtError) id (ev_auth_key recipient); encryption_key ← on_envelopes id (ev_encryption_key recipient);
    mret (M:=eff AgtError AS) (auth_key, encryption_key)) s w = (Ok (a, k), s', w') →
    answers (ev_auth_key (ES:=ES) recipient) a ∧ answers (ev_encryption_key (ES:=ES) recipient) k).
  { intros s2 w2 (a' & s3 & w3 & [Ha _]%envelopes_answer & (k' & s4 & w4 & [Hk _]%envelopes_answer & Hr)%eff_bind_ok)%eff_bind_ok.
    unfold mret, eff_ret in Hr. by injection Hr as -> -> _ _. }
  unfold has_keys. cbn [mbind option_bind]. destruct (cn_their_authentication_key c) as [a'|]; cbn [mbind option_bind].
  2: { intros Hr. right. split; [by rewrite bool_decide_eq_false; intros [[? ?] _]|]. by eapply Hresolved. }
  destruct (cn_their_key_agreement_key c) as [k'|]; cbn [mbind option_bind].
  - unfold mret, eff_ret. intros [= -> -> _ _]. by left.
  - intros Hr. right. split; [by rewrite bool_decide_eq_false; intros [_ [? ?]]|]. by eapply Hresolved.
Qed.
Lemma sender_key_of self sender s w key s' w' :
  find_sender_key self sender s w = (Ok key, s', w') →
  mp_agent_did self = Some sender ∧ mp_agent_key_id self = Some key ∨ answers (ev_own_key (ES:=ES) sender) key.
Proof.
  unfold find_sender_key. case_decide as Hd; [|by intros [? _]%envelopes_answer; right].
  destruct (mp_agent_key_id self) as [k|]; [|by intros [? _]%envelopes_answer; right]. unfold mret, eff_ret. intros [= -> _ _]. by left.
Qed.
Lemma packed_v1 self outbound i c s w packed s' w' :
  conns_of s !! i = Some c →
  pack_with_v1 self (message_to_v1_wire (out_message outbound)) (reply_to outbound c) (reply_as outbound c) (Some i) s w = (Ok packed, s', w') →
  sealed_v1 self outbound c packed.
Proof.
  intros Hc ([a k] & s1 & w1 & Hkeys & (key & s2 & w2 & Hkey & [Hp _]%envelopes_answer)%eff_bind_ok)%eff_bind_ok.
  exists a, k, key. split; [exact Hp|]. split; [by eapply recipient_keys_of|by eapply sender_key_of].
Qed.

(** C19: An answer is sealed for the connection that it is for.  When a handler answers over a
    connection, what goes out is the answer of a packing call for the other side of that
    connection: in DIDComm v1 the whole wire message is sealed for the keys that the connection
    has stored, or for those of the other side's DID when it has none, with the key of the agent's
    own DID for that connection; in DIDComm v2 the message goes from the connection's own DID to
    the other side's.  The v2 form is never used for a connection that agreed on v1 or for a DID
    that advertises a v1 service, nor over stored keys unless the DID is of a v2 method. *)
Theorem answer_sealed_for_connection self outbound s w i c packed s' w' :
  out_connection_id outbound = Some i → conns_of s !! i = Some c → pack_response self outbound s w = (Ok packed, s', w') →
  sealed_v1 self outbound c packed ∨
  sealed_v2 outbound c packed ∧ cn_didcomm_version c ≠ Some "1" ∧ recipient_advertises_v1_service (E:=AgtError) (reply_to outbound c) = Ok false ∧
    (has_keys c = true → str_starts_with (reply_to outbound c) "did:peer:2" || str_starts_with (reply_to outbound c) "did:key" = true).
Proof.
  intros Hi Hc. unfold pack_response, reply_route. rewrite Hi. destruct (found_connection i s w) as (s1 & Hf & Hs1). rewrite Hc in Hf. rewrite <-Hs1 in Hc.
  rewrite (eff_bind_run _ _ _ _ (mkRoute (reply_to outbound c) (reply_as outbound c) (cn_is_v2 c) (bool_decide (cn_didcomm_version c = Some "1")) (has_keys c)) s1 w)
    by by rewrite (eff_bind_run _ _ _ _ _ _ _ Hf).
  cbn [rt_recipient rt_sender rt_is_v2 rt_negotiated_v1 rt_has_keys]. cbv zeta.
  case_bool_decide as Hv1; [intros Hp; left; by eapply packed_v1|].
  destruct (recipient_advertises_v1_service (reply_to outbound c)) as [adv|e|] eqn:Hadv; [|done..].
  rewrite (eff_bind_run _ _ _ _ adv s1 w) by done. destruct adv; [intros Hp; left; by eapply packed_v1|].
  set (v2 := str_starts_with (reply_to outbound c) "did:peer:2" || str_starts_with (reply_to outbound c) "did:key").
  assert (Hv2 : ∀ what, has_keys c = false ∨ v2 = true → pack_with_envelope what (out_message outbound) (reply_to outbound c) (reply_as outbound c) s1 w = (Ok packed, s', w') →
    sealed_v1 self outbound c packed ∨ sealed_v2 outbound c packed ∧ cn_didcomm_version c ≠ Some "1" ∧ Ok (E:=AgtError) false = Ok false ∧ (has_keys c = true → v2 = true)).
  { intros what Hk [Hp _]%envelopes_answer. right. split_and!; [done..|]. intros Hk'. destruct Hk; congruence. }
  destruct (has_keys c) eqn:Hk, v2 eqn:Hv; cbn [andb negb].
  all: try (intros Hp; left; by eapply packed_v1).
  all: destruct (cn_is_v2 c); try (intros Hp; left; by eapply packed_v1).
  all: destruct (mp_envelope_service self); try done; try (intros Hp; left; by eapply packed_v1).
  all: apply Hv2; auto.
Qed.
End answers.

(** * The bridge to DIDComm v1 *)

Lemma insert_all_get entries o k :
  NoDup entries.*1 → json_get k (JObject (obj_insert_all entries o)) = match json_get k (JObject entries) with Some v => Some v | None => json_get k (JObject o) end.
Proof.
  unfold obj_insert_all. revert o. induction entries as [|[k' v'] l IH]; intros o Hnd; [done|]. apply NoDup_cons in Hnd as [Hnot Hnd]. cbn [foldl fst snd].
  rewrite IH by done. rewrite json_get_insert, json_get_cons. destruct (String.eqb_spec k' k) as [->|Hne].
  - rewrite decide_True by done. destruct (json_get k (JObject l)) as [v|] eqn:Hl; [|done]. exfalso. apply Hnot.
    unfold json_get in Hl. destruct (list_find _ l) as [[n [k2 v2]]|] eqn:Hf; [|done]. apply list_find_Some in Hf as (Hn & Hk & _). cbn in Hk. subst k2.
    apply list_elem_of_fmap. exists (k, v2). split; [done|]. by eapply list_elem_of_lookup_2.
  - by rewrite decide_False by congruence.
Qed.
Lemma insert_elem k v o kv : kv ∈ obj_insert k v o → kv = (k, v) ∨ kv ∈ o.
Proof.
  induction o as [|kv' o IH]; cbn; [set_solver|]. case_decide; [set_solver|]. intros [->|Hin]%elem_of_cons; [right; set_solver|].
  destruct (IH Hin); [by left|right; set_solver].
Qed.
Lemma insert_all_elem entries o kv : kv ∈ obj_insert_all entries o → kv ∈ entries ∨ kv ∈ o.
Proof.
  unfold obj_insert_all. revert o. induction entries as [|[k v] l IH]; intros o; [by right|]. cbn [foldl fst snd].
  intros [Hin|[->|Hin]%insert_elem]%IH; set_solver.
Qed.
Lemma insert_there k v o : (k, v) ∈ obj_insert k v o.
Proof. induction o as [|kv o IH]; cbn; [set_solver|]. case_decide; set_solver. Qed.
Lemma attach_field_suffix t : str_ends_with (v1_attach_field t) "~attach" = true.
Proof. unfold v1_attach_field. by repeat destruct (str_ends_with t _). Qed.

Lemma json_get_elem k v l : json_get k (JObject l) = Some v → (k, v) ∈ l.
Proof.
  unfold json_get. destruct (list_find _ l) as [[n [k' v']]|] eqn:Hf; [|done]. cbn. intros [= ->].
  apply list_find_Some in Hf as (Hn & Hk & _). cbn in Hk. subst. by eapply list_elem_of_lookup_2.
Qed.

Section bridge.
Context `{Serde Message} `{Serde Thread} `{Serde (list Attachment)}.

(** What a body may hold beside the message: its members have names of their own, its type and
    id are the message's, and none is a thread, a body or a list of attachments. *)
Record plain_body (m : Message) (body : list (string * Json)) : Prop := {
  pb_body : msg_body m = JObject body;
  pb_names : NoDup body.*1;
  pb_type v : json_get "@type" (JObject body) = Some v → v = JString (msg_type m);
  pb_id v : json_get "@id" (JObject body) = Some v → v = JString (msg_id m);
  pb_free k v : (k, v) ∈ body → k ∉ ["body"; "attachments"; "thread"; "~thread"; "from"; "to"] ∧ str_ends_with k "~attach" = false
}.

Lemma plain_none m body k :
  plain_body m body → k ∈ ["body"; "attachments"; "thread"; "~thread"; "from"; "to"] ∨ str_ends_with k "~attach" = true → json_get k (JObject body) = None.
Proof.
  intros Hp Hk. destruct (json_get k (JObject body)) as [v|] eqn:Hv; [|done]. apply json_get_elem in Hv.
  destruct (pb_free _ _ Hp k v Hv) as [Hn Hs]. destruct Hk; [done|congruence].
Qed.

(** The members of a wire message. *)
Section written.
Context (m : Message) (body : list (string * Json)) (tv : Json) (js : list Json).
Context (Hp : plain_body m body) (Ht : match msg_thread m with Some t => sd_to_value t = Ok tv | None => True end)
  (Ha : match msg_attachments m with Some (a :: l) => sd_to_value (a :: l) = Ok (JArray js) | _ => True end).
Abbreviation obj := (message_to_v1_wire m).
Abbreviation field := (v1_attach_field (msg_type m)).
Definition wire_thread : list (string * Json) := match msg_thread m with Some _ => [("~thread", tv)] | None => [] end.
Definition wire_attach : list (string * Json) := match msg_attachments m with Some (_ :: _) => [(field, JArray js)] | _ => [] end.
Definition wire_head : list (string * Json) := [("@type", JString (msg_type m)); ("@id", JString (msg_id m))].

Lemma wire_as : obj = obj_insert_all wire_attach (obj_insert_all wire_thread (obj_insert_all body wire_head)).
Proof.
  unfold message_to_v1_wire, wire_attach, wire_thread, insert_written. rewrite (pb_body _ _ Hp).
  destruct (msg_thread m) as [t|]; [rewrite Ht|]; (destruct (msg_attachments m) as [[|a l]|]; [|rewrite Ha|]; reflexivity).
Qed.
Lemma wire_get k :
  json_get k (JObject obj) = match json_get k (JObject wire_attach) with
                             | Some v => Some v
                             | None => match json_get k (JObject wire_thread) with
                                       | Some v => Some v
                                       | None => match json_get k (JObject body) with Some v => Some v | None => json_get k (JObject wire_head) end
                                       end
                             end.
Proof.
  rewrite wire_as, !insert_all_get; [done|by apply (pb_names _ _ Hp)|unfold wire_thread|unfold wire_attach].
  - destruct (msg_thread m); [apply NoDup_singleton|apply NoDup_nil_2].
  - destruct (msg_attachments m) as [[|a l]|]; [apply NoDup_nil_2|apply NoDup_singleton|apply NoDup_nil_2].
Qed.
Lemma attach_get k : str_ends_with k "~attach" = false → json_get k (JObject wire_attach) = None.
Proof.
  intros Hk. unfold wire_attach. destruct (msg_attachments m) as [[|a l]|]; [done| |done]. rewrite json_get_cons.
  destruct (String.eqb_spec field k) as [<-|]; [by rewrite attach_field_suffix in Hk|done].
Qed.
Lemma thread_get k : k ≠ "~thread" → json_get k (JObject wire_thread) = None.
Proof.
  intros Hk. unfold wire_thread. destruct (msg_thread m); [|done]. rewrite json_get_cons. by destruct (String.eqb_spec "~thread" k) as [<-|].
Qed.
Lemma head_get k v : json_get k (JObject wire_head) = Some v → (∀ u, json_get k (JObject body) = Some u → u = v) →
  str_ends_with k "~attach" = false → k ≠ "~thread" → json_get k (JObject obj) = Some v.
Proof.
  intros Hh Hb Hk Hkt. rewrite wire_get, attach_get, thread_get by done. destruct (json_get k (JObject body)) as [u|] eqn:Hu; [|done]. by rewrite (Hb u eq_refl).
Qed.
Lemma no_get k : k ∈ ["body"; "attachments"; "thread"; "from"; "to"] → json_get k (JObject obj) = None.
Proof.
  intros Hk. rewrite wire_get. assert (Hn : json_get k (JObject body) = None) by (apply (plain_none m body k Hp); left; set_solver).
  rewrite Hn. repeat (apply elem_of_cons in Hk as [->|Hk]; [by rewrite attach_get, thread_get|]). by apply elem_of_nil in Hk.
Qed.
Lemma wire_attachments : parsed_attachments obj = (match msg_attachments m with Some (_ :: _) => Some (JArray js) | _ => None end).
Proof.
  unfold parsed_attachments. rewrite no_get by set_solver. set (P := λ kv : string * Json, str_ends_with kv.1 "~attach" && (match kv.2 with JArray _ => true | _ => false end) = true).
  assert (Hin : ∀ kv, kv ∈ obj → P kv → kv ∈ wire_attach).
  { intros kv Hkv [Hs _]%andb_prop. rewrite wire_as in Hkv. apply insert_all_elem in Hkv as [Hkv|[Hkv|[Hkv|Hkv]%insert_all_elem]%insert_all_elem]; [done|..].
    - exfalso. unfold wire_thread in Hkv. destruct (msg_thread m); [|by apply elem_of_nil in Hkv]. apply list_elem_of_singleton in Hkv as ->. done.
    - destruct kv as [k v]. destruct (pb_free _ _ Hp k v Hkv). cbn in Hs. congruence.
    - exfalso. unfold wire_head in Hkv. apply elem_of_cons in Hkv as [->|Hkv]; [done|]. by apply list_elem_of_singleton in Hkv as ->. }
  change (snd <$> find_first P obj = match msg_attachments m with Some (_ :: _) => Some (JArray js) | _ => None end).
  assert (Hthere : ∀ a l, msg_attachments m = Some (a :: l) → (field, JArray js) ∈ obj).
  { intros a l Hm. rewrite wire_as. unfold wire_attach. rewrite Hm. apply insert_there. }
  clear Ha. unfold wire_attach in Hin. destruct (msg_attachments m) as [[|a l]|].
  1,3: destruct (find_first P obj) as [kv|] eqn:Hf; [|done]; apply find_first_Some in Hf as [Hf HP]; by apply (Hin kv Hf), elem_of_nil in HP.
  destruct (find_first_is_Some P obj (field, JArray js) (Hthere a l eq_refl)) as [kv Hf]; [unfold P; cbn; by rewrite attach_field_suffix|].
  rewrite Hf. apply find_first_Some in Hf as [Hf HP]. pose proof (Hin kv Hf HP) as Hkv. by apply list_elem_of_singleton in Hkv as ->.
Qed.
Lemma wire_type : json_get "@type" (JObject obj) = Some (JString (msg_type m)).
Proof. apply head_get; [done|apply (pb_type _ _ Hp)|done|done]. Qed.
Lemma wire_id : json_get "@id" (JObject obj) = Some (JString (msg_id m)).
Proof. apply head_get; [done|apply (pb_id _ _ Hp)|done|done]. Qed.
Lemma wire_thread_get : json_either "~thread" "thread" (JObject obj) = (match msg_thread m with Some _ => Some tv | None => None end).
Proof.
  unfold json_either. rewrite (no_get "thread") by set_solver. rewrite wire_get, attach_get by done.
  rewrite (plain_none m body "~thread" Hp) by (left; set_solver). unfold wire_thread. by destruct (msg_thread m).
Qed.
(** The body is the whole wire message. *)
Lemma wire_body : parsed_body obj = JObject obj.
Proof.
  unfold parsed_body. rewrite no_get by set_solver. unfold decorated at 3. rewrite wire_type. destruct (json_get "type" (JObject obj));
    (unfold decorated at 2; rewrite wire_id; destruct (json_get "id" (JObject obj)); unfold decorated; by rewrite no_get by set_solver).
Qed.
End written.

(** What goes out in the form of DIDComm v1 is read back.  The wire message that an answer is
    turned into, when the parser reads it, is handed to the deserializer of messages with the id
    and the type of the message, the thread and the attachments as they were written (whatever
    decorator they were carried under), and a body in which every member of the message's body is
    found unchanged. *)
Theorem wire_reads_back m body tv js :
  plain_body m body → match msg_thread m with Some t => sd_to_value t = Ok tv | None => True end →
  match msg_attachments m with Some (a :: l) => sd_to_value (a :: l) = Ok (JArray js) | _ => True end →
  ∃ members, parse_message_to_didcomm (JObject (message_to_v1_wire m)) =
      (match sd_from_value (JObject members) with Ok m' => Ok m' | Err e => Err (AgtTransport ("Failed to parse DIDComm message: " +:+ e)) | Panic => Panic end) ∧
    json_get "id" (JObject members) = Some (JString (msg_id m)) ∧ json_get "type" (JObject members) = Some (JString (msg_type m)) ∧
    json_get "thread" (JObject members) = (match msg_thread m with Some _ => Some tv | None => None end) ∧
    json_get "attachments" (JObject members) = (match msg_attachments m with Some (_ :: _) => Some (JArray js) | _ => None end) ∧
    ∃ body', json_get "body" (JObject members) = Some (JObject body') ∧
      ∀ k v, json_get k (JObject body) = Some v → json_get k (JObject body') = Some v.
Proof.
  intros Hp Ht Ha. set (obj := message_to_v1_wire m). exists (parsed_members obj). split; [done|].
  assert (Hm : parsed_members obj = [("id", JString (msg_id m)); ("type", JString (msg_type m))] ++
    (match msg_thread m with Some _ => [("thread", tv)] | None => [] end) ++
    (match msg_attachments m with Some (_ :: _) => [("attachments", JArray js)] | _ => [] end) ++ [("body", JObject obj)]).
  { unfold parsed_members, json_either at 1 2. unfold obj. erewrite wire_id, wire_type, wire_thread_get, wire_attachments, !no_get, wire_body by (done || set_solver).
    destruct (msg_thread m), (msg_attachments m) as [[|a l]|]; reflexivity. }
  rewrite Hm. split_and!.
  1-4: destruct (msg_thread m), (msg_attachments m) as [[|a l]|]; reflexivity.
  exists obj. split; [destruct (msg_thread m), (msg_attachments m) as [[|a l]|]; reflexivity|].
  intros k v Hv. unfold obj. erewrite wire_get by done. rewrite Hv. destruct (pb_free _ _ Hp k v (json_get_elem _ _ _ Hv)) as [Hk Hs].
  rewrite attach_get, thread_get by (done || set_solver). done.
Qed.
End bridge.

(** The parser keeps neither the parent thread nor a decorator of a message. *)
Lemma parser_drops obj k : k ∈ ["pthid"; "created_time"; "expires_time"; "~transport"] → json_get k (JObject (parsed_members obj)) = None.
Proof.
  intros Hk. unfold parsed_members. repeat (apply elem_of_cons in Hk as [->|Hk]; [|]); [..|by apply elem_of_nil in Hk].
  all: destruct (json_either "@id" "id" _), (json_either "@type" "type" _), (json_either "~thread" "thread" _), (json_get "from" _), (json_get "to" _), (parsed_attachments obj); reflexivity.
Qed.

(** * Concrete runs *)

(** A message as an object of its strings and its body; an envelope whose tag is its sender. *)
Definition toy_read_message (v : Json) : outcome string Message :=
  match json_str_at "id" v, json_str_at "type" v with
  | Some i, Some t => Ok (mkMessage i t (default JNull (json_get "body" v)) (json_str_at "from" v) None None None None None None ∅)
  | _, _ => Err "missing field"
  end.
Definition toy_write_message (m : Message) : Json :=
  JObject ([("id", JString (msg_id m)); ("type", JString (msg_type m)); ("body", msg_body m)] ++ match msg_from m with Some f => [("from", JString f)] | None => [] end).
(** Envelopes have names; every other text is the code of a value. *)
Definition toy_texts : JsonText := {|
  json_print := json_print (JsonText:=code_json);
  json_parse s :=
    if str_starts_with s "JWE " then Ok (JObject [("protected", JString "p"); ("iv", JString "iv"); ("ciphertext", JString s); ("tag", JString "t")])
    else json_parse (JsonText:=code_json) s
|}.
Definition toy_write_basic (b : BasicMessage) : Json :=
  JObject [("@type", JString (bmg_msg_type b)); ("@id", JString (bmg_id b)); ("content", JString (bmg_content b)); ("sent_time", JString (bmg_sent_time b))].
Definition toy_basic : Serde BasicMessage := {|
  sd_to_value b := Ok (toy_write_basic b);
  sd_from_value v :=
    match (i ← json_str_at "@id" v; t ← json_str_at "@type" v; c ← json_str_at "content" v; s ← json_str_at "sent_time" v; Some (mkBasicMessage i t c s None None)) with
    | Some b => Ok b | None => Err "missing field" end;
  sd_to_text _ := Err "not used"; sd_from_text _ := Err "not used"
|}.
#[local] Existing Instances plain_order toy_uuid_text toy_rfc3339 toy_texts toy_bs58 toy_bs58_laws toy_multibase toy_base64 toy_basic.
Definition toy_wire : Serde Message := {|
  sd_to_value m := Ok (toy_write_message m);
  sd_from_value := toy_read_message;
  sd_to_text m := Ok (json_print (toy_write_message m));
  sd_from_text s := let? v := json_parse s in toy_read_message v
|}.
Definition toy_threads : Serde Thread := {|
  sd_to_value t := Ok (json_of_option (th_thid t)); sd_from_value _ := Err "not used"; sd_to_text _ := Err "not used"; sd_from_text _ := Err "not used"
|}.
Definition toy_attachments : Serde (list Attachment) := {|
  sd_to_value l := Ok (JArray ((λ a, json_of_option (at_id a)) <$> l)); sd_from_value _ := Err "not used"; sd_to_text _ := Err "not used"; sd_from_text _ := Err "not used"
|}.
#[local] Existing Instances toy_wire toy_threads toy_attachments EditMessage_countable DeleteMessage_countable code_serde code_serde_laws.

(** The post: what is in an envelope, and whose it is. *)
Definition carol_key : string := toy_public 7.
Definition plain_message (from : option string) (id content : string) : Message :=
  mkMessage id BASIC_MESSAGE_TYPE (toy_write_basic (mkBasicMessage id BASIC_MESSAGE_TYPE content "t0" None None)) from None None None None None None ∅.
Definition toy_post : list (string * (Message * option string)) :=
  [("JWE carol", (plain_message None "m" "hello", Some (bs58_encode carol_key)));
   ("JWE anonymous", (plain_message (Some "did:peer:a") "m" "transfer it", None));
   ("JWE stranger", (plain_message (Some "did:peer:a") "m" "transfer it", Some (bs58_encode (toy_public 3))))].
(** What packs writes who it packed for and as whom. *)
#[local] Instance toy_envelopes : Envelopes unit := {|
  ev_pack m their ours _ w := (Ok ("v2 " +:+ ours +:+ " to " +:+ their), tt, w);
  ev_pack_v1 members keys key _ w := (Ok ("v1 " +:+ key +:+ " to " +:+ keys.1), tt, w);
  ev_auth_key d _ w := (Ok ("key of " +:+ d), tt, w);
  ev_encryption_key d _ w := (Ok ("ka of " +:+ d), tt, w);
  ev_own_key d _ w := (Ok ("own " +:+ d), tt, w);
  ev_endpoint d _ w := (Ok "https://peer", tt, w);
  ev_post _ _ _ _ w := (Ok tt, tt, w)
|}.
#[local] Instance toy_unpacking : Unpacking unit := {|
  ev_unpack packed _ w :=
    (match find_first (λ p : string * (Message * option string), p.1 = packed) toy_post with
     | Some (_, (m, from)) => Ok (m, mkUnpack (bool_decide (is_Some from)) (negb (bool_decide (is_Some from))) from None true false None)
     | None => Err "no envelope"
     end, tt, w);
  ev_decrypt _ _ w := (Err "not used", tt, w)
|}.

(** Alice is known by her DID, Carol by her key alone. *)
Definition carol : ConnectionRecord := toy_connection "c" (Some "did:peer:4carol") (Some (bs58_encode carol_key)).
Definition toy_conns : gmap string ConnectionRecord := <["c" := carol]> bm_connections.
Abbreviation ToyAgent := (AgentState ToyBm unit).
Definition toy_agent : ToyAgent := mkAgentState (mkBasicMessages ∅ toy_conns []) drp_new tt [] [].
Definition toy_processor : MessageProcessor ToyBm := mkProcessor (hr_register bm_handler hr_new) (Some "did:peer:me") (Some "k0") true.
Definition message_text (m : Message) : string := json_print (toy_write_message m).
Definition posted (envelope : string) : outcome TransportError (option string) * ToyAgent :=
  (process_inbound_http toy_processor true envelope None toy_agent world0).1.
Definition filed (r : outcome TransportError (option string) * ToyAgent) : list (string * string * BasicMessageRole * string) := bm_texts (as_shared r.2).

Example carol_is_heard : filed (posted "JWE carol") = [("m", "c", BmReceiver, "hello")].
Proof. vm_compute. reflexivity. Qed.

Theorem envelope_is_filed_witness :
  ∃ r s' w', process_inbound_http toy_processor true "JWE carol" None toy_agent world0
      = (Ok None, s', w') ∧
    bmx_repository (as_shared s') = <[bmr_id r := r]> ∅ ∧ bmr_content r = "hello" ∧ bmr_connection_id r = "c".
Proof.
  destruct (envelope_is_filed toy_processor "JWE carol" None toy_agent world0
    (plain_message None "m" "hello") (mkUnpack true false (Some (bs58_encode carol_key)) None true false None)
    tt world0 (message_text (plain_message None "m" "hello")) (toy_write_message (plain_message None "m" "hello")) (plain_message None "m" "hello")
    (mkBasicMessage "m" BASIC_MESSAGE_TYPE "hello" "t0" None None) carol_key carol)
    as (r & s' & w' & Hr & Hm & _ & _ & Hc & _ & _ & Hcid & _).
  - vm_compute; reflexivity.
  - vm_compute; reflexivity.
  - reflexivity.
  - reflexivity.
  - reflexivity.
  - reflexivity.
  - apply code_reparse.
  - reflexivity.
  - reflexivity.
  - vm_compute; reflexivity.
  - vm_compute; reflexivity.
  - reflexivity.
  - vm_compute; reflexivity.
  - reflexivity.
  - intros i x. cbn [as_shared toy_agent bmx_connections]. unfold toy_conns, bm_connections. rewrite !lookup_insert_Some, lookup_empty.
    by intros [[<- <-]|[_ [[<- <-]|[_ [[<- <-]|[_ ?]]]]]].
  - intros i x. cbn [as_shared toy_agent bmx_connections]. unfold toy_conns, bm_connections. rewrite !lookup_insert_Some, lookup_empty.
    by intros [[<- <-]|[_ [[<- <-]|[_ [[<- <-]|[_ ?]]]]]].
  - by exists r, s', w'.
Defined.

Lemma toy_agent_ok : rs_ok (RS:=gmap string BasicMessageRecord) (as_shared toy_agent) ∧ er_ok (bmx_connections (as_shared toy_agent)).
Proof.
  split; [by intros i x|]. intros i x. cbn [as_shared toy_agent bmx_connections]. unfold toy_conns, bm_connections.
  rewrite !lookup_insert_Some, lookup_empty. by intros [[<- <-]|[_ [[<- <-]|[_ [[<- <-]|[_ ?]]]]]].
Qed.

Definition alice_text : string := message_text (plain_message (Some "did:peer:a") "m" "hello").
Theorem message_filed_with_sender_witness :
  ∃ r b c, messages_of (process_message_with_raw toy_processor alice_text None (Some "did:peer:a") None toy_agent world0).1.2 "m" = Some r ∧
    bmr_content r = bmg_content b ∧ connections_of toy_agent (bmr_connection_id r) = Some c ∧
    (known_as "did:peer:a" c ∨ cnt_their_did (cn_tags c) = Some "did:peer:a" ∨ cn_their_authentication_key c = Some "did:peer:a" ∨ cn_their_key_agreement_key c = Some "did:peer:a").
Proof.
  destruct (messages_of (process_message_with_raw toy_processor alice_text None (Some "did:peer:a") None toy_agent world0).1.2 "m") as [r|] eqn:Hr;
    [|vm_compute in Hr; discriminate].
  destruct (message_filed_with_sender toy_processor alice_text None (Some "did:peer:a") None (toy_write_message (plain_message (Some "did:peer:a") "m" "hello"))
    (plain_message (Some "did:peer:a") "m" "hello") toy_agent world0 "m" r)
    as (b & c & _ & _ & _ & Hcon & Hc & Hwho).
  - vm_compute; reflexivity.
  - apply toy_agent_ok.
  - apply toy_agent_ok.
  - reflexivity.
  - exact Hr.
  - exists r, b, c. split; [reflexivity|]. split; [exact Hcon|]. split; [exact Hc|].
    destruct Hwho as [(sender & [= <-] & Hk)|(from & [= <-] & Hk)]; [by left|by right].
Defined.

(** An answer to Alice, and one whose connection agreed on v1. *)
Definition toy_reply (i : string) : OutboundMessage := mkOutbound (msg_new "r" "t/request-credential" (JObject [("k", JString "v")])) "did:peer:a#key-2" "did:peer:me" (Some i).
Theorem answer_sealed_for_connection_witness :
  ∃ packed s' w', pack_response toy_processor (toy_reply "c") toy_agent world0 = (Ok packed, s', w') ∧
    (sealed_v1 toy_processor (toy_reply "c") carol packed ∨ sealed_v2 (ES:=unit) (toy_reply "c") carol packed).
Proof.
  destruct (pack_response toy_processor (toy_reply "c") toy_agent world0) as [[[packed|e|] s'] w'] eqn:Hp; [|vm_compute in Hp; discriminate..].
  exists packed, s', w'. split; [reflexivity|].
  destruct (answer_sealed_for_connection toy_processor (toy_reply "c") toy_agent world0 "c" carol packed s' w') as [Hs|[Hs _]];
    [reflexivity|vm_compute; reflexivity|exact Hp|by left|by right].
Defined.

Definition toy_thread : Thread := mkThread (Some "th") None None None.
Definition toy_credential : Message :=
  mkMessage "m" "https://didcomm.org/issue-credential/2.0/issue-credential" (JObject [("comment", JString "here"); ("@id", JString "m")]) None None
    (Some toy_thread) None None None (Some [mkAttachment (Some "a0") None None None None None None (ad_of_json JNull)]) ∅.
Theorem wire_reads_back_witness :
  ∃ members body', json_get "attachments" (JObject members) = Some (JArray [JString "a0"]) ∧ json_get "thread" (JObject members) = Some (JString "th") ∧
    json_get "body" (JObject members) = Some (JObject body') ∧ json_get "comment" (JObject body') = Some (JString "here").
Proof.
  destruct (wire_reads_back toy_credential [("comment", JString "here"); ("@id", JString "m")] (JString "th") [JString "a0"])
    as (members & _ & _ & _ & Hth & Ha & body' & Hb & Hk).
  - constructor; [reflexivity|repeat constructor; set_solver|by intros v [=]|by intros v [= <-]|].
    intros k v Hin. repeat (apply elem_of_cons in Hin as [[= -> ->]|Hin]; [split; [set_solver|reflexivity]|]). by apply elem_of_nil in Hin.
  - reflexivity.
  - reflexivity.
  - exists members, body'. split; [exact Ha|]. split; [exact Hth|]. split; [exact Hb|]. by apply Hk.
Defined.

(** ** Where the code falls short *)

(** An envelope that nobody signed for is taken to be from whom its plaintext says: the message is
    filed as Alice's, though only the plaintext names her. *)
Example anyone_speaks_as_alice : filed (posted "JWE anonymous") = [("m", "a", BmReceiver, "transfer it")].
Proof. vm_compute. reflexivity. Qed.
(** So does a stranger with a key of their own. *)
Example stranger_speaks_as_alice : filed (posted "JWE stranger") = [("m", "a", BmReceiver, "transfer it")].
Proof. vm_compute. reflexivity. Qed.
