(* ===== verification/ConnHandlers.v ===== *)
(** DID documents in a DID exchange ([src/protocols/connections/src/handlers]): what is read
    from an attached document and how it is normalized, and the documents and the signed
    attachment that a responder makes.

    The handlers of a DID exchange ([src/protocols/connections/src/handlers]): the responder's
    request and complete handlers and the requester's response handler, with what they share -
    the connection service, the invitations, the DIDs, the wallet and the mediation keys.

    Locks are not poisoned, and nothing is logged: two log lines slice the first eight bytes of
    a key and panic on a shorter one when they are enabled. *)
From Stdlib Require Import Ascii.
From S2P Require Import Prelude AjnaTypes StdText SerdeJson Storage Hashing Keys Dids PeerDid Connections Didcomm RecordRepo Oob.

(** * Reading *)

(** The text behind the first occurrence of a pattern. *)
Fixpoint str_behind (p s : string) : option string :=
  match str_strip_prefix p s with
  | Some t => Some t
  | None => match s with EmptyString => None | String _ s => str_behind p s end
  end.

(** [src/protocols/connections/src/handlers/request_handler.rs:122-131] vm_id_matches *)
Definition vm_id_matches (vm : Json) (ref_id : string) : bool :=
  match json_str_at "id" vm with
  | None => false
  | Some id => bool_decide (id = ref_id) || bool_decide (str_after_last "#"%char id = str_after_last "#"%char ref_id)
  end.

Section reading.
Context `{Bs58} `{Curve25519} `{Base64} `{Hashing.Base64Std} `{JsonText}.

(** [src/protocols/connections/src/handlers/request_handler.rs:22-44] extract_endpoint_from_peer_did_2 *)
Definition extract_endpoint_from_peer_did_2 (did : string) : option string :=
  rest ← str_behind ".S" did;
  match b64url_decode (str_before "."%char rest) with
  | inl _ => None
  | inr service_bytes => match json_parse service_bytes with Ok service_json => json_str_at "s" service_json | _ => None end
  end.

(** The base64 text of an attachment. *)
Definition attachment_base64 (attachment : Json) : option string := data ← json_get "data" attachment; json_str_at "base64" data.

(** [src/protocols/connections/src/handlers/request_handler.rs:58-81] decode_did_doc_attachment *)
Definition decode_did_doc_attachment (attachment : Json) : option Json :=
  base64_str ← attachment_base64 attachment;
  match Hashing.b64_decode base64_str with
  | inl _ => None
  | inr decoded_bytes => match json_parse decoded_bytes with Ok v => Some v | _ => None end
  end.

(** [src/protocols/connections/src/handlers/request_handler.rs:88-96] derive_x25519_from_ed25519_base58 *)
Definition derive_x25519_from_ed25519_base58 (ed25519_base58 : string) : option string :=
  ed_bytes ← bs58_decode ed25519_base58;
  match to_x25519 () () ed_bytes with Ok x25519 => Some (bs58_encode x25519) | _ => None end.

(** [src/protocols/connections/src/handlers/request_handler.rs:102-110] vm_public_key_base58 *)
Definition vm_public_key_base58 (vm : Json) : option string :=
  match json_str_at "publicKeyBase58" vm with
  | Some b58 => Some b58
  | None => mb ← json_str_at "publicKeyMultibase" vm; multibase_to_base58_verkey mb
  end.

(** The key of the first entry of a relationship - a reference or an embedded method -, or of
    the method at [fallback]. *)
Definition relationship_key (did_document : Json) (section : string) (fallback : nat) : option string :=
  let verification_methods := json_array_at "verificationMethod" did_document in
  match (arr ← json_array_at section did_document;
         first ← head arr;
         match first with
         | JString ref_id =>
             vms ← verification_methods; vm ← find_first (λ vm, vm_id_matches vm ref_id = true) vms; vm_public_key_base58 vm
         | _ => vm_public_key_base58 first
         end) with
  | Some key => Some key
  | None => vms ← verification_methods; vm ← vms !! fallback; vm_public_key_base58 vm
  end.

(** [src/protocols/connections/src/handlers/request_handler.rs:221-309] DidExchangeRequestHandler::extract_recipient_keys *)
Definition extract_recipient_keys (request : DidExchangeRequestMessage) : option (string * string) :=
  did_doc_attach ← dxq_did_doc_attach request;
  did_document ← decode_did_doc_attachment did_doc_attach;
  auth_key ← relationship_key did_document "authentication" 0;
  key_agreement ← (match relationship_key did_document "keyAgreement" 1 with
                   | Some ka => Some ka
                   | None => derive_x25519_from_ed25519_base58 auth_key
                   end);
  Some (auth_key, key_agreement).
End reading.

(** * Normalizing *)

(** An embedded method with an id becomes a reference. *)
Definition embedded_id (item : Json) : option string := match item with JObject _ => json_str_at "id" item | _ => None end.
Definition extract_embedded (items : list Json) : list Json * list Json :=
  ((λ item, match embedded_id item with Some id => JString id | None => item end) <$> items,
   filter (λ item, is_Some (embedded_id item)) items).

(** A relationship of the document is normalized; its embedded methods are collected. *)
Definition normalize_section (st : list (string * Json) * list Json) (section : string) : list (string * Json) * list Json :=
  match json_array_at section (JObject st.1) with
  | Some arr => (obj_insert section (JArray (extract_embedded arr).1) st.1, st.2 ++ (extract_embedded arr).2)
  | None => st
  end.
Definition obj_default (key : string) (value : Json) (o : list (string * Json)) : list (string * Json) :=
  match json_get key (JObject o) with Some _ => o | None => obj_insert key value o end.

(** [src/protocols/connections/src/handlers/request_handler.rs:740-782] DidExchangeRequestHandler::handle (the normalization) *)
Definition normalize_requester_document (did_document : Json) : Json :=
  match did_document with
  | JObject obj =>
      let obj := match json_get "publicKey" (JObject obj) with Some pk => obj_default "verificationMethod" pk obj | None => obj end in
      let '(obj, extracted) := foldl normalize_section (obj, []) ["authentication"; "keyAgreement"] in
      match extracted with
      | [] => JObject obj
      | _ =>
          let obj := obj_default "verificationMethod" (JArray []) obj in
          JObject (obj_alter "verificationMethod" (λ v, match v with JArray vms => JArray (vms ++ extracted) | _ => v end) obj)
      end
  | _ => did_document
  end.

(** [src/protocols/connections/src/handlers/response_handler.rs:69-142] DidExchangeResponseHandler::normalize_did_document *)
Definition normalize_did_document (doc_json : Json) : outcome string Json :=
  match doc_json with
  | JObject obj =>
      let '(obj, extracted) := foldl normalize_section (obj, []) ["authentication"; "keyAgreement"] in
      let obj := obj_default "verificationMethod" (JArray []) obj in
      match extracted with
      | [] => Ok (JObject obj)
      | _ => match json_array_at "verificationMethod" (JObject obj) with
             | Some vms => Ok (JObject (obj_insert "verificationMethod" (JArray (vms ++ extracted)) obj))
             | None => Err "verificationMethod must be an array"
             end
      end
  | _ => Err "DID document must be an object"
  end.

(** The first base58 keys of the methods that the two relationships refer to. *)
Definition referred_key (relationships : list VerificationRelationship) (vms : list CoreVerificationMethod) : option string :=
  foldl (λ found vm,
    match found with
    | Some _ => found
    | None => if existsb (λ r, match r with Reference ref_id => bool_decide (ref_id = cvm_id vm) | _ => false end) relationships
              then cvm_public_key_base58 vm else None
    end) None vms.

(** * Making *)

Definition rk_with_fragment (rk : string) : string :=
  match str_strip_prefix "did:key:" rk with
  | Some fingerprint => if str_avoids "#"%char rk then rk +:+ "#" +:+ fingerprint else rk
  | None => rk
  end.

Definition peer1_method (id type controller key : string) : Json :=
  JObject [("id", JString id); ("type", JString type); ("controller", JString controller); ("publicKeyBase58", JString key)].
Definition inline_id (idx : nat) : string := "#inline-" +:+ pretty idx.

Section making.
Context `{UuidText} `{Bs58} `{Curve25519} `{Base64} `{Hashing.Base64Std} `{JsonText} `{Sha256} {WT : Type} `{!Wallet WT}.

(** The entries of the document that is hashed, and of the document. *)
Definition genesis_service (routing_keys : list string) (idx : nat) (ep : string) : Json :=
  JObject [("id", JString (inline_id idx)); ("type", JString "did-communication"); ("priority", JPosInt (N.of_nat idx));
           ("recipientKeys", json_strings ["#key-1"]); ("routingKeys", json_strings routing_keys); ("serviceEndpoint", JString ep)].
Definition full_service (routing_keys : list string) (idx : nat) (ep : string) : Json :=
  JObject [("id", JString (inline_id idx)); ("serviceEndpoint", JString ep); ("type", JString "did-communication");
           ("priority", JPosInt (N.of_nat idx)); ("recipientKeys", json_strings ["#key-1"]); ("routingKeys", json_strings routing_keys)].
Definition genesis_doc (ed x : string) (signing : option string) (endpoints routing_keys : list string) : Json :=
  JObject [("publicKey", JArray ([peer1_method "#key-1" "Ed25519VerificationKey2018" "#id" ed;
                                  peer1_method "#key-2" "X25519KeyAgreementKey2019" "#id" x] ++
                                 match signing with Some s => [peer1_method "#key-3" "Ed25519VerificationKey2018" "#id" s] | None => [] end));
           ("service", JArray (imap (genesis_service routing_keys) endpoints))].
Definition peer1_document (peer_did ed x : string) (signing : option string) (endpoints routing_keys : list string) : Json :=
  JObject [("@context", json_strings ["https://w3id.org/did/v1"]);
           ("id", JString peer_did);
           ("verificationMethod", JArray ([peer1_method (peer_did +:+ "#key-1") "Ed25519VerificationKey2018" peer_did ed;
                                           peer1_method (peer_did +:+ "#key-2") "X25519KeyAgreementKey2019" peer_did x] ++
              match signing with Some s => [peer1_method (peer_did +:+ "#key-3") "Ed25519VerificationKey2018" peer_did s] | None => [] end));
           ("authentication", json_strings ((peer_did +:+ "#key-1") :: match signing with Some _ => [peer_did +:+ "#key-3"] | None => [] end));
           ("keyAgreement", json_strings [peer_did +:+ "#key-2"]);
           ("service", JArray (imap (full_service routing_keys) endpoints))].

(** [src/protocols/connections/src/handlers/request_handler.rs:315-474] DidExchangeRequestHandler::create_peer_did_with_services *)
Definition create_peer_did_with_services (ed25519_public_key : string) (service_endpoints routing_keys : list string)
    (signing_ed25519_public_key : option string) : outcome string (string * Json) :=
  let? x25519_public_key := to_x25519 "Invalid Ed25519 key: TryFromSliceError(())" "Failed to decompress Ed25519 key" ed25519_public_key in
  let ed := bs58_encode ed25519_public_key in
  let x := bs58_encode x25519_public_key in
  let routing_keys := rk_with_fragment <$> routing_keys in
  let signing := bs58_encode <$> signing_ed25519_public_key in
  match service_endpoints with
  | [] => Err "service_endpoints must contain at least one endpoint"
  | _ =>
      let peer_did := "did:peer:1z" +:+ bs58_encode (sha256 (json_print (genesis_doc ed x signing service_endpoints routing_keys))) in
      Ok (peer_did, peer1_document peer_did ed x signing service_endpoints routing_keys)
  end.

Definition peer2_method (id type controller key : string) : Json :=
  JObject [("id", JString id); ("type", JString type); ("controller", JString controller); ("publicKeyMultibase", JString key)].

(** [src/protocols/connections/src/handlers/request_handler.rs:480-556] DidExchangeRequestHandler::create_peer_did_2_with_service *)
Definition create_peer_did_2_with_service (ed25519_public_key service_endpoint : string) (routing_keys : list string)
    : outcome string (string * Json) :=
  let? x25519_public_key := to_x25519 "Invalid Ed25519 key: TryFromSliceError(())" "Failed to decompress Ed25519 key" ed25519_public_key in
  let peer_did := peer2_did ed25519_public_key x25519_public_key
                    (json_print (peer2_service_json false service_endpoint routing_keys ["didcomm/v2"])) in
  Ok (peer_did,
      JObject [("@context", json_strings ["https://www.w3.org/ns/did/v1"; "https://w3id.org/security/suites/ed25519-2020/v1";
                                          "https://w3id.org/security/suites/x25519-2020/v1"]);
               ("id", JString peer_did);
               ("verificationMethod", JArray [peer2_method (peer_did +:+ "#key-1") "Ed25519VerificationKey2020" peer_did
                                                (mb_encode58 (ed25519_codec ed25519_public_key));
                                              peer2_method (peer_did +:+ "#key-2") "X25519KeyAgreementKey2020" peer_did
                                                (mb_encode58 (x25519_codec x25519_public_key))]);
               ("authentication", json_strings [peer_did +:+ "#key-1"]);
               ("keyAgreement", json_strings [peer_did +:+ "#key-2"]);
               ("service", JArray [JObject [("id", JString "#didcomm"); ("type", JString "DIDCommMessaging");
                                            ("serviceEndpoint", JString service_endpoint); ("accept", json_strings ["didcomm/v2"]);
                                            ("routingKeys", json_strings routing_keys)]])]).

(** [replace('+', "-").replace('/', "_").replace("=", "")]. *)
Fixpoint b64_to_url (s : string) : string :=
  match s with
  | EmptyString => EmptyString
  | String a s =>
      if Ascii.eqb a "+"%char then String "-" (b64_to_url s)
      else if Ascii.eqb a "/"%char then String "_" (b64_to_url s)
      else if Ascii.eqb a "="%char then b64_to_url s
      else String a (b64_to_url s)
  end.

Definition wallet_err {A} (pre : string) (m : eff AgentError WT A) : eff string WT A :=
  eff_zoom (λ s, s) (λ s _, s) (λ e, pre +:+ ag_to_string e) m.

(** [src/protocols/connections/src/handlers/request_handler.rs:561-638] DidExchangeRequestHandler::create_did_doc_attach_signed *)
Definition create_did_doc_attach_signed (did_document : Json) (signing_key_id recipient_key_fingerprint : string) : eff string WT Json :=
  let did_doc_base64 := Hashing.b64_encode (json_print did_document) in
  o ← wallet_err "Failed to get key: " (wa_get_key signing_key_id);
  key ← (match o with Some k => mret k | None => eff_throw ("Key not found: " +:+ signing_key_id) end);
  let jwk := JObject [("kty", JString "OKP"); ("crv", JString "Ed25519"); ("x", JString (b64url_encode (key_public key)))] in
  let protected_base64 := b64url_encode (json_print (JObject [("alg", JString "EdDSA"); ("jwk", jwk)])) in
  signature ← wallet_err "Failed to sign: " (wa_sign signing_key_id (protected_base64 +:+ "." +:+ b64_to_url did_doc_base64));
  let kid := if str_starts_with recipient_key_fingerprint "did:key:" then recipient_key_fingerprint
             else "did:key:" +:+ recipient_key_fingerprint in
  id ← new_id;
  mret (JObject [("@id", JString ("did-doc-" +:+ id)); ("mime-type", JString "application/json");
                 ("data", JObject [("base64", JString did_doc_base64);
                                   ("jws", JObject [("protected", JString protected_base64);
                                                    ("signature", JString (b64url_encode (wsg_bytes signature)));
                                                    ("header", JObject [("kid", JString kid)])])])]).
End making.

(** What the handlers share.
    The mediation keys are those of the agent, who sets them when a mediator grants mediation;
    the pending registrations are taken by the agent before a response is sent. *)
Record DidExchange (RS WT : Type) := mkDidExchange {
  dx_connection_service : ConnectionService RS;
  dx_oob_repository : gmap string OutOfBandRecord;
  dx_did_repository : DidRepository;
  dx_wallet_provider : WT;
  dx_registered_mediation_key : option string;
  dx_mediation_routing_keys : option (list string);
  dx_pending_key_registrations : list string
}.
Arguments mkDidExchange {RS WT}.
Arguments dx_connection_service {RS WT}.
Arguments dx_oob_repository {RS WT}.
Arguments dx_did_repository {RS WT}.
Arguments dx_wallet_provider {RS WT}.
Arguments dx_registered_mediation_key {RS WT}.
Arguments dx_mediation_routing_keys {RS WT}.
Arguments dx_pending_key_registrations {RS WT}.

(** [src/protocols/connections/src/handlers/request_handler.rs:149-175] DidExchangeRequestHandler (the rest is [DidExchange]) *)
Record DidExchangeRequestHandler := mkRequestHandler { rqh_auto_accept_connections : bool; rqh_our_did : string }.
(** [src/protocols/connections/src/handlers/response_handler.rs:32-39] DidExchangeResponseHandler (the rest is [DidExchange]) *)
Record DidExchangeResponseHandler := mkResponseHandler { rph_auto_accept_connections : bool }.

#[export] Instance did_exchange_repo {RS WT} : HasRepo (DidExchange RS WT) RS := {|
  repo_of s := cns_repository (dx_connection_service s);
  with_repo r s := mkDidExchange (with_repo r (dx_connection_service s)) (dx_oob_repository s) (dx_did_repository s) (dx_wallet_provider s)
                     (dx_registered_mediation_key s) (dx_mediation_routing_keys s) (dx_pending_key_registrations s);
  repo_of_with _ _ := eq_refl
|}.

(** The text of a decoding error of the crate [bs58]. *)
Class Bs58Error := { bs58_error : string → string }.

(** A byte in two hexadecimal digits. *)
Definition hex_digit (n : N) : ascii := ascii_of_N (if (n <? 10)%N then 48 + n else 87 + n).
Definition hex_byte (a : ascii) : string :=
  String (hex_digit (N_of_ascii a / 16)) (String (hex_digit (N_of_ascii a mod 16)) "").

(** Where a message that arrived over the mesh is answered. *)
Definition mesh_metadata (ep : string) : Json :=
  JObject [("transport", JObject [("preferred", JString "mesh"); ("selected_endpoint", JString ep)])].

Section handlers.
Context `{HashOrder} `{UuidText} `{Bs58} `{Bs58Error} `{Curve25519} `{Base64} `{Hashing.Base64Std} `{JsonText} `{Sha256}.
Context `{Serde DidDocument} `{Serde DidExchangeRequestMessage} `{Serde DidExchangeResponseMessage} `{Serde DidExchangeCompleteMessage}.
Context {RS WT : Type} `{!ExchangeRepo RS ConnectionRecord ConnectionError} `{!Wallet WT}.
Abbreviation DX := (DidExchange RS WT).
Abbreviation dx := (eff MessageHandlerError DX).

(** ** The parts *)

Definition on_connections {A} (pre : string) (m : eff ConnectionError (ConnectionService RS) A) : dx A :=
  eff_zoom dx_connection_service
    (λ c s, mkDidExchange c (dx_oob_repository s) (dx_did_repository s) (dx_wallet_provider s) (dx_registered_mediation_key s)
              (dx_mediation_routing_keys s) (dx_pending_key_registrations s))
    (λ e, ProcessingFailed (pre +:+ cne_to_string e)) m.
Definition on_invitations {A} (m : eff OutOfBandError (gmap string OutOfBandRecord) A) : dx A :=
  eff_zoom dx_oob_repository
    (λ o s, mkDidExchange (dx_connection_service s) o (dx_did_repository s) (dx_wallet_provider s) (dx_registered_mediation_key s)
              (dx_mediation_routing_keys s) (dx_pending_key_registrations s))
    (λ e, ProcessingFailed (obe_to_string e)) m.
Definition on_did_repository {A} (pre : string) (m : eff string DidRepository A) : dx A :=
  eff_zoom dx_did_repository
    (λ d s, mkDidExchange (dx_connection_service s) (dx_oob_repository s) d (dx_wallet_provider s) (dx_registered_mediation_key s)
              (dx_mediation_routing_keys s) (dx_pending_key_registrations s))
    (λ e, ProcessingFailed (pre +:+ e)) m.
Definition on_wallet_provider {E A} (err : E → string) (m : eff E WT A) : dx A :=
  eff_zoom dx_wallet_provider
    (λ w s, mkDidExchange (dx_connection_service s) (dx_oob_repository s) (dx_did_repository s) w (dx_registered_mediation_key s)
              (dx_mediation_routing_keys s) (dx_pending_key_registrations s))
    (λ e, ProcessingFailed (err e)) m.
Definition queue_registration (key : string) : dx unit :=
  eff_modify (λ s, mkDidExchange (dx_connection_service s) (dx_oob_repository s) (dx_did_repository s) (dx_wallet_provider s)
                     (dx_registered_mediation_key s) (dx_mediation_routing_keys s) (dx_pending_key_registrations s ++ [key])).

(** [.map_err(..)?] of a pure call. *)
Definition dx_lift {A} (err : string → MessageHandlerError) (r : outcome string A) : dx A :=
  eff_lift (match r with Ok a => Ok a | Err e => Err (err e) | Panic => Panic end).

(** A new key of the connection. *)
Definition new_connection_key (pre : string) : dx Key :=
  on_wallet_provider (λ e, pre +:+ ag_to_string e) (wa_create_key Ed25519 AgentMessaging).

(** The record remembers the mesh endpoint its message arrived from. *)
Definition prefer_mesh (inbound : InboundMessage) (record : ConnectionRecord) : dx ConnectionRecord :=
  match ctx_sender_endpoint (in_context inbound) with
  | Some ep =>
      if str_starts_with ep "mesh://" then
        now ← eff_world utc_now;
        let record := cn_update_metadata (mesh_metadata ep) now record in
        _ ← on_connections "Failed to save mesh transport metadata: " (cns_update record);
        mret record
      else mret record
  | None => mret record
  end.

(** A protocol message in the body of a DIDComm message. *)
Definition dx_answer {A} `{Serde A} (id type : string) (a : A) (to from connection_id : string) : dx (option OutboundMessage) :=
  json ← dx_lift ProcessingFailed (sd_to_value a);
  mret (Some (mkOutbound (msg_new id type json) to from (Some connection_id))).

(** ** Requests *)

(** [src/protocols/connections/src/handlers/request_handler.rs:716-799] DidExchangeRequestHandler::handle (the requester's document) *)
Definition store_requester_document (use_v2 : bool) (request : DidExchangeRequestMessage) : dx unit :=
  let store document := _ ← eff_catch (on_did_repository "" (store_received_did (dxq_did request) document [])); mret tt in
  if use_v2 then store None
  else match (a ← dxq_did_doc_attach request; decode_did_doc_attachment a) with
       | None => mret tt
       | Some did_document =>
           match sd_from_value (normalize_requester_document did_document) with
           | Ok did_doc_struct => store (Some did_doc_struct)
           | Err _ => mret tt
           | Panic => eff_lift Panic
           end
       end.

(** [src/protocols/connections/src/handlers/request_handler.rs:836-848] DidExchangeRequestHandler::handle (the endpoints of the invitation) *)
Definition invitation_endpoints (invitation : OutOfBandInvitation) : list string :=
  omap (λ svc, match svc with
               | SvInline inline => Some (ins_service_endpoint inline)
               | SvDid did => extract_endpoint_from_peer_did_2 did
               end) (inv_services invitation).

(** [src/protocols/connections/src/handlers/request_handler.rs:884-989] DidExchangeRequestHandler::handle (the DIDComm v2 path) *)
Definition accept_v2 (request : DidExchangeRequestMessage) (connection_id service_endpoint : string) (routing_keys : list string)
    : dx (option OutboundMessage) :=
  our_key ← new_connection_key "Failed to create key: ";
  '(peer_did, did_document) ← dx_lift (λ e, ProcessingFailed ("Failed to create did:peer:2: " +:+ e))
                                (create_peer_did_2_with_service (key_public our_key) service_endpoint routing_keys);
  did_doc_struct ← dx_lift (λ e, ProcessingFailed ("Failed to deserialize DID document: " +:+ e)) (sd_from_value did_document);
  _ ← on_did_repository "Failed to store DID: "
        (store_created_did peer_did (Some did_doc_struct)
           [mkDdk (key_id our_key) (peer_did +:+ "#key-1"); mkDdk (key_id our_key) (peer_did +:+ "#key-2")]);
  '(updated_connection, response_msg) ← on_connections "" (cns_create_response connection_id);
  let updated_connection := cn_with_version "2" (cn_with_did peer_did updated_connection) in
  let response_msg := dxp_with_did peer_did response_msg in
  _ ← on_connections "Failed to save connection: " (cns_update updated_connection);
  dx_answer (dxp_id response_msg) (dxp_msg_type response_msg) response_msg (dxq_did request) peer_did (cn_id updated_connection).

(** [src/protocols/connections/src/handlers/request_handler.rs:1016-1040] DidExchangeRequestHandler::handle (the form of the mediation key) *)
Definition check_mediation_key (registered_key : string) : outcome MessageHandlerError unit :=
  match str_strip_prefix "did:key:z" registered_key with
  | None => Err (ProcessingFailed ("Invalid registered_mediation_key format: " +:+ registered_key +:+ ". Expected did:key:z..."))
  | Some multibase_part =>
      match bs58_decode multibase_part with
      | None => Err (ProcessingFailed ("Failed to decode did:key: " +:+ bs58_error multibase_part))
      | Some decoded =>
          let byte n := default zero (String.get n decoded) in
          if decide (34 ≤ String.length decoded ∧ N_of_ascii (byte 0) = 237%N ∧ N_of_ascii (byte 1) = 1%N) then Ok tt
          else Err (ProcessingFailed ("Invalid Ed25519 key in did:key: expected 0xed01 prefix, got " +:+ hex_byte (byte 0) +:+ hex_byte (byte 1)))
      end
  end.

(** [src/protocols/connections/src/handlers/request_handler.rs:998-1127] DidExchangeRequestHandler::handle (the key of a DIDComm v1 connection) *)
Definition v1_connection_key : dx (Key * bool) :=
  registered_key ← eff_gets dx_registered_mediation_key;
  match registered_key with
  | Some registered_key =>
      _ ← eff_lift (check_mediation_key registered_key);
      connection_key ← new_connection_key "Failed to create connection key: ";
      _ ← queue_registration (did_key (key_public connection_key));
      mret (connection_key, true)
  | None =>
      our_new_key ← new_connection_key "Failed to create new key: ";
      mret (our_new_key, false)
  end.

(** [src/protocols/connections/src/handlers/request_handler.rs:1138-1195] DidExchangeRequestHandler::handle (our did:peer:1) *)
Definition create_v1_did (key : Key) (is_mediated : bool) (service_endpoints routing_keys : list string) : dx (string * Json) :=
  '(peer_did, did_document) ← dx_lift (λ e, ProcessingFailed ("Failed to create did:peer:1: " +:+ e))
                                (create_peer_did_with_services (key_public key) service_endpoints routing_keys None);
  did_doc_struct ← dx_lift (λ e, ProcessingFailed ("Failed to deserialize DID document: " +:+ e)) (sd_from_value did_document);
  let keys := [mkDdk (key_id key) (if is_mediated then peer_did +:+ "#key-1" else "#key-1")] in
  _ ← on_did_repository "Failed to store DID document: " (store_created_did peer_did (Some did_doc_struct) keys);
  mret (peer_did, did_document).

(** [src/protocols/connections/src/handlers/request_handler.rs:1197-1316] DidExchangeRequestHandler::handle (the DIDComm v1 response) *)
Definition respond_v1 (inbound : InboundMessage) (request : DidExchangeRequestMessage) (connection_id : string) (key : Key)
    (peer_did : string) (did_document : Json) : dx (option OutboundMessage) :=
  '(updated_connection, response_msg) ← on_connections "" (cns_create_response connection_id);
  let updated_connection := cn_with_version "1" (cn_with_did peer_did updated_connection) in
  let response_msg := dxp_with_did peer_did response_msg in
  _ ← on_connections "Failed to save updated connection: " (cns_update updated_connection);
  updated_connection ← prefer_mesh inbound updated_connection;
  did_doc_attach ← on_wallet_provider (λ e, "Failed to create did_doc~attach: " +:+ e)
                     (create_did_doc_attach_signed did_document (key_id key) (mb_encode58 (ed25519_codec (key_public key))));
  let response_msg := dxp_with_did_doc_attach did_doc_attach response_msg in
  dx_answer (dxp_id response_msg) (dxp_msg_type response_msg) response_msg (dxq_did request) peer_did (cn_id updated_connection).

(** [src/protocols/connections/src/handlers/request_handler.rs:829-882] DidExchangeRequestHandler::handle (automatic acceptance) *)
Definition dx_accept (use_v2 : bool) (inbound : InboundMessage) (request : DidExchangeRequestMessage) (oob_record : OutOfBandRecord)
    (connection_id : string) : dx (option OutboundMessage) :=
  match invitation_endpoints (ob_invitation oob_record) with
  | [] => eff_throw (ProcessingFailed "No service endpoint found in OOB invitation")
  | service_endpoint :: _ as service_endpoints =>
      routing_keys ← eff_gets (λ s, default [] (dx_mediation_routing_keys s));
      if use_v2 then accept_v2 request connection_id service_endpoint routing_keys
      else
        '(key, is_mediated) ← v1_connection_key;
        '(peer_did, did_document) ← create_v1_did key is_mediated service_endpoints routing_keys;
        respond_v1 inbound request connection_id key peer_did did_document
  end.

(** [src/protocols/connections/src/handlers/request_handler.rs:650-827] DidExchangeRequestHandler::handle *)
Definition dx_request_handle (self : DidExchangeRequestHandler) (inbound : InboundMessage) : dx (option OutboundMessage) :=
  request ← dx_lift InvalidMessage (sd_from_value (A:=DidExchangeRequestMessage) (msg_body (in_message inbound)));
  match dxq_parent_thread_id request with
  | None => eff_throw (InvalidMessage "Missing parent thread ID")
  | Some parent_thread_id =>
      o ← on_invitations (ob_find_by_invitation_id parent_thread_id ObSender);
      match o with
      | None => eff_throw (ProcessingFailed ("Out-of-band invitation not found: " +:+ parent_thread_id))
      | Some oob_record =>
          let use_v2 := str_starts_with (dxq_did request) "did:peer:2" in
          '(their_auth_key, their_key_agreement) ←
            (if use_v2 then eff_lift (parse_peer2_verkeys (dxq_did request))
             else mret (match extract_recipient_keys request with Some (auth, ka) => (Some auth, Some ka) | None => (None, None) end));
          _ ← store_requester_document use_v2 request;
          connection ← on_connections "" (cns_process_request request oob_record (rqh_our_did self) their_auth_key their_key_agreement);
          if negb (bool_decide (cn_state connection = DxRequestReceived)) then mret None
          else if default (rqh_auto_accept_connections self) (cn_auto_accept_connection connection)
          then dx_accept use_v2 inbound request oob_record (cn_id connection)
          else mret None
      end
  end.

(** ** Responses *)

(** [src/protocols/connections/src/handlers/response_handler.rs:153-271] DidExchangeResponseHandler::extract_and_store_did_document *)
Definition extract_and_store_did_document (response : DidExchangeResponseMessage) : dx (option string * option string) :=
  let failed := λ e, ProcessingFailed ("Failed to extract DID document: " +:+ e) in
  match (a ← dxp_did_doc_attach response; attachment_base64 a) with
  | None => mret (None, None)
  | Some base64_str =>
      decoded_bytes ← dx_lift failed (match Hashing.b64_decode base64_str with inr d => Ok d | inl e => Err ("Failed to decode base64: " +:+ e) end);
      did_document_json ← dx_lift (λ e, failed ("Failed to parse DID document JSON: " +:+ e)) (json_parse decoded_bytes);
      normalized_json ← dx_lift failed (normalize_did_document did_document_json);
      did_document ← dx_lift (λ e, failed ("Failed to deserialize DID document: " +:+ e)) (sd_from_value normalized_json);
      let their_auth_key := referred_key (dd_authentication did_document) (dd_verification_method did_document) in
      let their_key_agreement := referred_key (dd_key_agreement did_document) (dd_verification_method did_document) in
      keys ← (match (arr ← json_array_at "authentication" did_document_json; first ← head arr; json_as_str first) with
              | Some ref_id => id ← new_id; mret [mkDdk ("key-" +:+ id) ref_id]
              | None => mret []
              end);
      _ ← on_did_repository "Failed to extract DID document: Failed to store DID document: "
            (store_received_did (dxp_did response) (Some did_document) keys);
      mret (their_auth_key, their_key_agreement)
  end.

(** [src/protocols/connections/src/handlers/response_handler.rs:283-451] DidExchangeResponseHandler::handle *)
Definition dx_response_handle (self : DidExchangeResponseHandler) (inbound : InboundMessage) : dx (option OutboundMessage) :=
  response ← dx_lift InvalidMessage (sd_from_value (A:=DidExchangeResponseMessage) (msg_body (in_message inbound)));
  let use_v2 := str_starts_with (dxp_did response) "did:peer:2" && negb (bool_decide (is_Some (dxp_did_doc_attach response))) in
  '(their_auth_key, their_key_agreement) ←
    (if use_v2 then
       _ ← on_did_repository "Failed to store did:peer:2: " (store_received_did (dxp_did response) None []);
       eff_lift (parse_peer2_verkeys (dxp_did response))
     else extract_and_store_did_document response);
  connection ← on_connections "" (cns_process_response response their_auth_key their_key_agreement);
  connection ← (if use_v2 then
                  let connection := cn_with_version "2" connection in
                  _ ← on_connections "Failed to save DIDComm version: " (cns_update connection);
                  mret connection
                else mret connection);
  connection ← prefer_mesh inbound connection;
  if default (rph_auto_accept_connections self) (cn_auto_accept_connection connection) then
    '(updated_connection, complete_msg) ← on_connections "" (cns_create_complete (cn_id connection));
    dx_answer (dxc_id complete_msg) (dxc_msg_type complete_msg) complete_msg (dxp_did response) (cn_did updated_connection) (cn_id updated_connection)
  else mret None.

(** ** Completes *)

(** [src/protocols/connections/src/handlers/complete_handler.rs:48-91] DidExchangeCompleteHandler::handle *)
Definition dx_complete_handle (inbound : InboundMessage) : dx (option OutboundMessage) :=
  complete ← dx_lift InvalidMessage (sd_from_value (A:=DidExchangeCompleteMessage) (msg_body (in_message inbound)));
  _ ← on_connections "" (cns_process_complete complete);
  mret None.
End handlers.
