(* ===== verification/ConnProps.v ===== *)
(** What a DID exchange promises: its records run a machine whose steps carry the message that
    was heard; a connection that is completed says who it is with, and never changes again. *)
From S2P Require Import Prelude AjnaTypes StdText SerdeJson Storage Hashing Didcomm RecordRepo RecordSpec Keys Dids PeerDid Oob Connections ConnHandlers.

Section machine.
Context `{Serde DidExchangeRequestMessage} `{Serde DidExchangeResponseMessage} `{Serde DidExchangeCompleteMessage}.
Context (invitations : gmap string OutOfBandRecord) (heard : Message → Prop).
(** The records whose metadata the host writes. *)
Context (touched : string → Prop).
Implicit Types (x y : ConnectionRecord).

(** * The machine *)

(** An invitation of the agent, and what was heard. *)
Definition invited (invitation_id : string) : Prop :=
  ∃ k r, invitations !! k = Some r ∧ ob_role r = ObSender ∧ inv_id (ob_invitation r) = invitation_id.
Definition heard_request (thread_id invitation_id : string) (did : string) : Prop :=
  ∃ m q, heard m ∧ sd_from_value (msg_body m) = Ok q ∧ dxq_thread_id q = thread_id ∧ dxq_parent_thread_id q = Some invitation_id ∧ dxq_did q = did.
Definition heard_response (thread_id did : string) : Prop :=
  ∃ m p, heard m ∧ sd_from_value (msg_body m) = Ok p ∧ dxp_thread_id p = thread_id ∧ dxp_did p = did.
Definition heard_complete (thread_id invitation_id : string) : Prop :=
  ∃ m c, heard m ∧ sd_from_value (msg_body m) = Ok c ∧ dxc_thread_id c = thread_id ∧ dxc_parent_thread_id c = Some invitation_id.

(** The tags of a record repeat its fields; the tag of the own DID does not follow the DID of a
    response. *)
Definition cn_tagged x : Prop :=
  cnt_role (cn_tags x) = cn_role x ∧ cnt_state (cn_tags x) = cn_state x ∧ cnt_thread_id (cn_tags x) = cn_thread_id x ∧
  cnt_out_of_band_id (cn_tags x) = cn_out_of_band_id x ∧ cnt_their_did (cn_tags x) = cn_their_did x.

Inductive cn_born : ConnectionRecord → Prop :=
  | born_requester x : cn_role x = DxRequester → cn_state x = DxRequestSent → cn_tagged x → cn_their_did x = None → cn_born x
  | born_responder x did : cn_role x = DxResponder → cn_state x = DxRequestReceived → cn_tagged x → cn_their_did x = Some did →
      invited (cn_out_of_band_id x) → heard_request (cn_thread_id x) (cn_out_of_band_id x) did → cn_born x.

(** What is done with a response. *)
Definition cn_answered (did : string) (auth ka : option string) (t1 t2 : Instant) x : ConnectionRecord :=
  cn_update_state DxResponseReceived t2
    (given cn_with_key_agreement_key ka (given cn_with_authentication_key auth (cn_set_their_did did t1 x))).

Inductive cn_step : ConnectionRecord → ConnectionRecord → Prop :=
  | step_respond x t : cn_role x = DxResponder → cn_state x = DxRequestReceived → cn_step x (cn_update_state DxResponseSent t x)
  | step_named x did version : cn_role x = DxResponder → cn_state x = DxResponseSent → cn_step x (cn_with_version version (cn_with_did did x))
  | step_answered x did auth ka t1 t2 : cn_role x = DxRequester → cn_state x = DxRequestSent → heard_response (cn_thread_id x) did →
      cn_step x (cn_answered did auth ka t1 t2 x)
  | step_versioned x version : cn_role x = DxRequester → cn_state x = DxResponseReceived → cn_step x (cn_with_version version x)
  | step_mesh x ep t : (cn_role x = DxResponder ∧ cn_state x = DxResponseSent) ∨ (cn_role x = DxRequester ∧ cn_state x = DxResponseReceived) →
      cn_step x (cn_update_metadata (mesh_metadata ep) t x)
  | step_finish x t : cn_role x = DxRequester → cn_state x = DxResponseReceived → cn_step x (cn_update_state DxCompleted t x)
  | step_finished x t : cn_role x = DxResponder → cn_state x = DxResponseSent → heard_complete (cn_thread_id x) (cn_out_of_band_id x) →
      cn_step x (cn_update_state DxCompleted t x)
  | step_written x metadata t : touched (cn_id x) → cn_step x (cn_touch t (cn_with_metadata metadata x)).

(** ** What the machine keeps *)

(** The record of a responder says which request and, when it is completed, which complete was
    heard; that of a requester, which response. *)
Record responder_wf x : Prop := {
  rw_state : cn_state x ∈ [DxRequestReceived; DxResponseSent; DxCompleted];
  rw_request : ∃ did, cn_their_did x = Some did ∧ invited (cn_out_of_band_id x) ∧ heard_request (cn_thread_id x) (cn_out_of_band_id x) did;
  rw_complete : cn_state x = DxCompleted → heard_complete (cn_thread_id x) (cn_out_of_band_id x)
}.
Record requester_wf x : Prop := {
  qw_state : cn_state x ∈ [DxRequestSent; DxResponseReceived; DxCompleted];
  qw_asked : cn_state x = DxRequestSent → cn_their_did x = None;
  qw_response : cn_state x ≠ DxRequestSent → ∃ did, cn_their_did x = Some did ∧ heard_response (cn_thread_id x) did
}.
Definition cn_wf x : Prop := cn_tagged x ∧ match cn_role x with DxResponder => responder_wf x | DxRequester => requester_wf x end.

Lemma cn_born_wf x : cn_born x → cn_wf x.
Proof.
  destruct 1 as [x Hr Hs Ht Hd|x did Hr Hs Ht Hd Hi Hq]; (split; [done|]); rewrite Hr; constructor; rewrite ?Hs; eauto; set_solver.
Qed.
Lemma cn_step_tagged x y : cn_step x y → cn_tagged x → cn_tagged y.
Proof.
  intros Hxy (? & ? & ? & ? & ?). destruct Hxy; try (by split_and!).
  unfold cn_answered. destruct auth, ka; by split_and!.
Qed.
Lemma cn_step_wf x y : cn_step x y → cn_wf x → cn_wf y.
Proof.
  intros Hxy [Ht Hx]. split; [by eapply cn_step_tagged|]. unfold cn_wf in *. destruct Hxy as [x t Hr Hs|x did version Hr Hs
    |x did auth ka t1 t2 Hr Hs Hh|x version Hr Hs|x ep t [[Hr Hs]|[Hr Hs]]|x t Hr Hs|x t Hr Hs Hh|x md t Ht'].
  9: revert Hx; cbn; destruct (cn_role x); intros []; by constructor.
  3: unfold cn_answered; destruct auth, ka.
  all: cbn; rewrite Hr in Hx |- *; destruct Hx as [Hst Hq Hc]; constructor; cbn; rewrite ?Hs in *;
    try done; try set_solver; eauto.
Qed.

(** Where a record cn_stands, and what it keeps. *)
Definition cn_rank x : nat :=
  match cn_state x with
  | DxRequestSent | DxRequestReceived => 0
  | DxResponseSent | DxResponseReceived => 1
  | _ => 2
  end.
Definition cn_le x y : Prop :=
  cn_id y = cn_id x ∧ cn_role y = cn_role x ∧ cn_thread_id y = cn_thread_id x ∧ cn_out_of_band_id y = cn_out_of_band_id x ∧
  cn_rank x ≤ cn_rank y ∧ (cn_role x = DxResponder ∨ 1 ≤ cn_rank x → cn_their_did y = cn_their_did x) ∧
  (2 ≤ cn_rank x → y = cn_touch (cn_updated_at y) (cn_with_metadata (cn_metadata y) x)) ∧
  (2 ≤ cn_rank x → ¬ touched (cn_id x) → y = x).
#[export] Instance cn_le_refl : Reflexive cn_le.
Proof. intros x. split_and!; try done. intros _. by destruct x. Qed.
#[export] Instance cn_le_trans : Transitive cn_le.
Proof.
  intros x y z (A1 & A2 & A3 & A4 & A5 & A6 & A7 & A8) (B1 & B2 & B3 & B4 & B5 & B6 & B7 & B8). split_and!; try congruence; [lia| | |].
  - intros Hx. rewrite <-(A6 Hx). apply B6. destruct Hx as [Hx|Hx]; [left; congruence|right; lia].
  - intros Hx. etrans; [apply B7; lia|]. by rewrite (A7 Hx).
  - intros Hx Ht. rewrite (B8 ltac:(lia)); [by apply A8|congruence].
Qed.
Lemma cn_step_le x y : cn_step x y → cn_le x y.
Proof.
  intros Hxy. destruct Hxy as [x t Hr Hs|x did version Hr Hs|x did auth ka t1 t2 Hr Hs Hh|x version Hr Hs|x ep t [[Hr Hs]|[Hr Hs]]|x t Hr Hs|x t Hr Hs Hh|x md t Ht].
  9: by split_and!.
  3: unfold cn_answered; destruct auth, ka.
  all: unfold cn_le, cn_rank; cbn; rewrite ?Hs, ?Hr; split_and!; try done; try lia.
  all: intros [?|?]; [done|lia].
Qed.
End machine.

(** * The calls of the service *)

Section calls.
Context `{UuidText} {RS : Type} `{!ExchangeRepo RS ConnectionRecord ConnectionError} `{!ExchangeRepoLaws RS ConnectionRecord ConnectionError}.
Context `{Serde DidExchangeRequestMessage} `{Serde DidExchangeResponseMessage} `{Serde DidExchangeCompleteMessage}.
Context (invitations : gmap string OutOfBandRecord) (heard : Message → Prop) (touched : string → Prop) (gone : ConnectionRecord → Prop).
Abbreviation CNS := (ConnectionService RS).
Abbreviation ev v m F := (evolves (T:=CNS) (cn_born invitations heard) (cn_step heard touched) gone v m F).
Abbreviation View := (string → option ConnectionRecord).
Implicit Types (x y : ConnectionRecord) (v : View).

(** The record is what the repository has of it. *)
Definition cn_held x v : Prop := v (cn_id x) = Some x.
Definition all_tagged v : Prop := ∀ id x, v id = Some x → cn_tagged x.

Lemma quiet_cn_stamped v f x : quiet (T:=CNS) v (cn_stamped f x) (λ y, ∃ t, y = f t x).
Proof.
  eapply from_bind; [typeclasses eauto|apply quiet_world|]. intros now _. eapply from_conseq; [apply quiet_ret| |done]. intros ? ->. eauto.
Qed.
Lemma quiet_set_given {A} v (set : A → Instant → ConnectionRecord → ConnectionRecord) o x :
  quiet (T:=CNS) v (cn_set_given set o x) (λ y, y = x ∨ ∃ a t, y = set a t x).
Proof.
  destruct o as [a|]; [eapply from_conseq; [apply quiet_cn_stamped|intros y (t & ->); eauto|done]|].
  eapply from_conseq; [apply quiet_ret|auto|done].
Qed.
Lemma quiet_the_connection v i : quiet (T:=CNS) v (the_connection i) (λ x, cn_held x v ∧ cn_id x = i).
Proof.
  apply quiet_keyed. intros Hk. quietly quiet_find_by_id. intros o ->. destruct (v i) as [x|] eqn:Hx; [|apply quiet_throw].
  eapply from_conseq; [apply quiet_ret| |done]. intros ? ->. pose proof (Hk i x Hx : cn_id x = i) as Hi. unfold cn_held. by rewrite Hi.
Qed.
Lemma quiet_module_connection v i : quiet (T:=CNS) v (module_connection i) (λ x, cn_held x v ∧ cn_id x = i).
Proof.
  apply quiet_keyed. intros Hk. apply from_bind with (F := λ o, o = v i); [typeclasses eauto| |].
  - intros s w Hs Hv. pose proof (quiet_find_by_id (T:=CNS) v i s w Hs Hv) as Hf. unfold module_call, eff_zoom.
    change (cns_get_by_id i (id s) w) with (on_records (T:=CNS) (er_find_by_id i) s w).
    destruct (on_records _ s w) as [[[o|e|] s'] w']; destruct Hf as (? & ? & Ho); (split; [done|]); (split; [done|]); intros ? [= <-]. by apply Ho.
  - intros o ->. destruct (v i) as [x|] eqn:Hx; [|apply quiet_throw].
    eapply from_conseq; [apply quiet_ret| |done]. intros ? ->. pose proof (Hk i x Hx : cn_id x = i) as Hi. unfold cn_held. by rewrite Hi.
Qed.
Lemma quiet_the_thread v ro t :
  all_tagged v → quiet (T:=CNS) v (the_thread ro t) (λ x, cn_held x v ∧ cn_role x = ro ∧ cn_thread_id x = t).
Proof.
  intros Hv. quietly quiet_find. intros [x|] Ho; [|apply quiet_throw]. destruct Ho as [[Hr Ht]%bool_decide_eq_true Hx].
  eapply from_conseq; [apply quiet_ret| |done]. intros ? ->. destruct (Hv _ _ Hx) as (Hr' & _ & Ht' & _). split_and!; [done|congruence..].
Qed.
Lemma quiet_in_state v st x : quiet (T:=CNS) v (in_state st x) (λ _, cn_state x = st).
Proof. unfold in_state. case_decide; [|apply quiet_throw]. by eapply from_conseq; [apply quiet_ret| |]. Qed.
Lemma quiet_in_role v ro x : quiet (T:=CNS) v (in_role ro x) (λ _, cn_role x = ro).
Proof. unfold in_role. case_decide; [|apply quiet_throw]. by eapply from_conseq; [apply quiet_ret| |]. Qed.
Lemma quiet_under v p i : quiet (T:=CNS) v (under_invitation p i) (λ _, p = Some i).
Proof. unfold under_invitation. destruct p; [case_decide|]; try apply quiet_throw. eapply from_conseq; [apply quiet_ret|congruence|done]. Qed.
Lemma quiet_announce v x p : quiet (T:=CNS) v (_ ← wake_waiters; emit_conn_changed x p) (λ _, True).
Proof. quietly quiet_modify; [done|]. intros [] _. by apply quiet_modify. Qed.

Lemma ev_quiet {E A B} v (m : eff E CNS A) (k : A → eff E CNS B) F G :
  quiet v m F → (∀ a, F a → ev v (k a) G) → ev v (m ≫= k) G.
Proof. intros Hm Hk. eapply evolves_bind; [by apply evolves_quiet|]. intros a v' [HF ->]. by apply Hk. Qed.
Lemma ev_ret {E A} v (a : A) : ev v (mret (M:=eff E CNS) a) (λ b v', b = a ∧ v' = v).
Proof. apply evolves_quiet, quiet_ret. Qed.
Lemma ev_stored v x y :
  cn_held x v → cn_id y = cn_id x → cn_step heard touched x y → ev v (on_records (er_update y)) (λ _, cn_held y).
Proof.
  intros Hx Hid Hst. eapply evolves_conseq; [apply evolves_update with (x := x); [cbn; by rewrite Hid|exact Hst]|]. by intros [] v'.
Qed.
Lemma ev_put {A} v x y p (a : A) :
  cn_held x v → cn_id y = cn_id x → cn_step heard touched x y → ev v (_ ← put_connection y p; mret a) (λ b v', b = a ∧ cn_held y v').
Proof.
  intros Hx Hid Hst. unfold put_connection. apply evolves_bind with (F := λ _, cn_held y); [apply evolves_bind with (F := λ _, cn_held y)|].
  - by eapply ev_stored.
  - intros [] v' Hy. eapply evolves_conseq; [apply evolves_quiet, quiet_announce|]. intros [] v2 [_ ->]. exact Hy.
  - intros [] v' Hy. eapply evolves_conseq; [apply ev_ret|]. by intros b v2 [-> ->].
Qed.
Lemma ev_open {A} v x p (a : A) : cn_born invitations heard x → ev v (_ ← open_connection x p; mret a) (λ b v', b = a ∧ cn_held x v').
Proof.
  intros Hb. unfold open_connection. apply evolves_bind with (F := λ _, cn_held x); [apply evolves_bind with (F := λ _, cn_held x)|].
  - eapply evolves_conseq; [by apply evolves_save|]. by intros [] v'.
  - intros [] v' Hy. eapply evolves_conseq; [apply evolves_quiet, quiet_announce|]. intros [] v2 [_ ->]. exact Hy.
  - intros [] v' Hy. eapply evolves_conseq; [apply ev_ret|]. by intros b v2 [-> ->].
Qed.
Lemma ev_update v x y : cn_held x v → cn_id y = cn_id x → cn_step heard touched x y → ev v (cns_update y) (λ _ v', cn_held y v').
Proof.
  intros Hx Hid Hst. apply evolves_bind with (F := λ _, cn_held y); [by eapply ev_stored|].
  intros [] v' Hy. eapply evolves_conseq; [by apply evolves_quiet, quiet_modify|]. intros [] v2 [_ ->]. exact Hy.
Qed.

Lemma create_request_ev v r did label : ev v (cns_create_request r did label) (λ _ _, True).
Proof.
  unfold cns_create_request. eapply ev_quiet; [by apply quiet_any|]. intros t _. eapply ev_quiet; [apply quiet_world|]. intros x0 (w1 & w2 & Hx0).
  eapply ev_quiet; [apply quiet_set_given|]. intros x1 Hx1. eapply ev_quiet; [apply quiet_set_given|]. intros x2 Hx2.
  eapply ev_quiet; [apply quiet_world|]. intros q _. eapply ev_quiet; [apply quiet_cn_stamped|]. intros x (t2 & ->).
  eapply evolves_conseq; [|done]. apply ev_open. unfold cnb_build, cnb_new in Hx0. cbn in Hx0. injection Hx0 as <- _.
  assert (∀ y, (y = x2) → cn_role y = DxRequester ∧ cn_tagged y ∧ cn_their_did y = None) as Hy.
  { intros y ->. destruct Hx1 as [->|(a & u & ->)], Hx2 as [->|(a2 & u2 & ->)]; by split_and!. }
  destruct (Hy x2 eq_refl) as (Hr & (? & ? & ? & ? & ?) & Hd). apply born_requester; by split_and?.
Qed.

Lemma process_request_ev v m q r did auth ka :
  heard m → sd_from_value (msg_body m) = Ok q → invited invitations (inv_id (ob_invitation r)) →
  ev v (cns_process_request q r did auth ka) (λ _ _, True).
Proof.
  intros Hm Hq Hi. unfold cns_process_request. eapply ev_quiet; [apply quiet_under|]. intros [] Hp.
  eapply ev_quiet; [eapply quiet_catch, quiet_find|]. intros found _.
  assert (Hnew : ev v (record ← eff_world (cnb_build (cnb_with_names (Some (dxq_did q)) None (Some (dxq_label q))
                 (cnb_new DxResponder DxRequestReceived (dxq_thread_id q) (inv_id (ob_invitation r)) did)));
      record ← cn_set_given cn_set_our_label (inv_label (ob_invitation r)) record;
      record ← cn_set_given cn_set_their_authentication_key auth record;
      record ← cn_set_given cn_set_their_key_agreement_key ka record;
      _ ← open_connection record None;
      mret record) (λ _ _, True)).
  { eapply ev_quiet; [apply quiet_world|]. intros x0 (w1 & w2 & Hx0). unfold cnb_build, cnb_new in Hx0. cbn in Hx0. injection Hx0 as <- _.
    eapply ev_quiet; [apply quiet_set_given|]. intros x1 Hx1. eapply ev_quiet; [apply quiet_set_given|]. intros x2 Hx2.
    eapply ev_quiet; [apply quiet_set_given|]. intros x3 Hx3. eapply evolves_conseq; [|done]. apply ev_open.
    apply born_responder with (did := dxq_did q).
    all: destruct Hx1 as [->|(a & u & ->)], Hx2 as [->|(a2 & u2 & ->)], Hx3 as [->|(a3 & u3 & ->)]; try done; by exists m, q. }
  destruct found as [e|[x|]]; [exact Hnew| |exact Hnew]. eapply evolves_conseq; [apply ev_ret|done].
Qed.

(** A record in a role and a state. *)
Definition cn_stands (ro : DidExchangeRole) (st : DidExchangeState) x : Prop := cn_role x = ro ∧ cn_state x = st.

Lemma create_response_ev v i :
  ev v (cns_create_response i) (λ r v', cn_held r.1 v' ∧ cn_stands DxResponder DxResponseSent r.1).
Proof.
  unfold cns_create_response. eapply ev_quiet; [apply quiet_the_connection|]. intros x [Hx _].
  eapply ev_quiet; [apply quiet_in_state|]. intros [] Hs. eapply ev_quiet; [apply quiet_in_role|]. intros [] Hr.
  eapply ev_quiet; [apply quiet_world|]. intros p _. eapply ev_quiet; [apply quiet_cn_stamped|]. intros ? (t & ->).
  eapply evolves_conseq; [eapply ev_put; [exact Hx|done|by constructor]|]. by intros ? v' [-> Hy].
Qed.
Lemma process_response_ev v m p auth ka :
  all_tagged v → heard m → sd_from_value (msg_body m) = Ok p →
  ev v (cns_process_response p auth ka) (λ x v', cn_held x v' ∧ cn_stands DxRequester DxResponseReceived x).
Proof.
  intros Hv Hm Hp. unfold cns_process_response. eapply ev_quiet; [by apply quiet_the_thread|]. intros x (Hx & Hr & Ht).
  eapply ev_quiet; [apply quiet_in_state|]. intros [] Hs. eapply ev_quiet; [apply quiet_cn_stamped|]. intros ? (t1 & ->). cbv zeta.
  eapply ev_quiet; [apply quiet_cn_stamped|]. intros ? (t2 & ->).
  change (cn_update_state _ _ _) with (cn_answered (dxp_did p) auth ka t1 t2 x).
  assert (Hid : cn_id (cn_answered (dxp_did p) auth ka t1 t2 x) = cn_id x ∧ cn_role (cn_answered (dxp_did p) auth ka t1 t2 x) = cn_role x)
    by (unfold cn_answered; by destruct auth, ka).
  eapply evolves_conseq; [eapply ev_put; [exact Hx|apply Hid|]|].
  - apply step_answered; [done..|]. by exists m, p.
  - intros ? v' [-> Hy]. split; [done|]. split; [by rewrite (proj2 Hid)|done].
Qed.
Lemma create_complete_ev v i : ev v (cns_create_complete i) (λ _ _, True).
Proof.
  unfold cns_create_complete. eapply ev_quiet; [apply quiet_the_connection|]. intros x [Hx _].
  eapply ev_quiet; [apply quiet_in_role|]. intros [] Hr. eapply ev_quiet; [apply quiet_in_state|]. intros [] Hs.
  eapply ev_quiet; [apply quiet_world|]. intros c _. eapply ev_quiet; [apply quiet_cn_stamped|]. intros ? (t & ->).
  eapply evolves_conseq; [eapply ev_put; [exact Hx|done|by apply step_finish]|done].
Qed.
Lemma process_complete_ev v m c :
  all_tagged v → heard m → sd_from_value (msg_body m) = Ok c → ev v (cns_process_complete c) (λ _ _, True).
Proof.
  intros Hv Hm Hc. unfold cns_process_complete. eapply ev_quiet; [by apply quiet_the_thread|]. intros x (Hx & Hr & Ht).
  eapply ev_quiet; [apply quiet_in_state|]. intros [] Hs. eapply ev_quiet; [apply quiet_under|]. intros [] Hp.
  eapply ev_quiet; [apply quiet_cn_stamped|]. intros ? (t & ->).
  eapply evolves_conseq; [eapply ev_put; [exact Hx|done|]|done]. apply step_finished; [done..|]. by exists m, c.
Qed.
End calls.

(** * The handlers *)

Section handlers.
Context `{HashOrder} `{UuidText} `{Bs58} `{Bs58Error} `{Curve25519} `{Base64} `{Hashing.Base64Std} `{JsonText} `{Sha256}.
Context `{Serde DidDocument} `{Serde DidExchangeRequestMessage} `{Serde DidExchangeResponseMessage} `{Serde DidExchangeCompleteMessage}.
Context {RS WT : Type} `{!ExchangeRepo RS ConnectionRecord ConnectionError} `{!ExchangeRepoLaws RS ConnectionRecord ConnectionError} `{!Wallet WT}.
Context (invitations : gmap string OutOfBandRecord) (heard : Message → Prop) (touched : string → Prop) (gone : ConnectionRecord → Prop).
Abbreviation DX := (DidExchange RS WT).
Abbreviation dx := (eff MessageHandlerError DX).
Abbreviation ev v m F := (evolves (T:=DX) (cn_born invitations heard) (cn_step heard touched) gone v m F).
Implicit Types (x y : ConnectionRecord) (v : string → option ConnectionRecord).

Lemma hd_quiet {A B} v (m : dx A) (k : A → dx B) F G :
  quiet v m F → (∀ a, F a → ev v (k a) G) → ev v (m ≫= k) G.
Proof. intros Hm Hk. eapply evolves_bind; [by apply evolves_quiet|]. intros a v' [HF ->]. by apply Hk. Qed.
Lemma hd_end {A} v (m : dx A) F : quiet v m F → ev v m (λ _ _, True).
Proof. intros Hm. eapply evolves_conseq; [by apply evolves_quiet|done]. Qed.
Lemma hd_ret {A} v (a : A) : ev v (mret (M:=dx) a) (λ _ _, True).
Proof. eapply hd_end, quiet_ret. Qed.
Lemma hd_connections {A} v pre (m : eff ConnectionError (ConnectionService RS) A) F :
  evolves (T:=ConnectionService RS) (cn_born invitations heard) (cn_step heard touched) gone v m F → ev v (on_connections pre m) F.
Proof. intros Hm. unfold on_connections. by apply evolves_zoom. Qed.
Lemma quiet_dids {A} v pre (m : eff string DidRepository A) : quiet (T:=DX) v (on_did_repository pre m) (λ _, True).
Proof. eapply from_conseq; [by apply quiet_zoom|done|done]. Qed.
Lemma quiet_wallet {E A} v err (m : eff E WT A) : quiet (T:=DX) v (on_wallet_provider err m) (λ _, True).
Proof. eapply from_conseq; [by apply quiet_zoom|done|done]. Qed.
Lemma quiet_dx_lift {A} v err (r : outcome string A) : quiet (T:=DX) v (dx_lift err r) (λ a, r = Ok a).
Proof. eapply from_conseq; [apply quiet_lift| |done]. intros a Ha. destruct r; naive_solver. Qed.
Lemma quiet_true {A} v (m : dx A) F : quiet (T:=DX) v m F → quiet (T:=DX) v m (λ _, True).
Proof. intros Hm. by eapply from_conseq. Qed.

Lemma hd_answer {A} `{Serde A} v id type (a : A) to from c : ev v (dx_answer id type a to from c) (λ _ _, True).
Proof. unfold dx_answer. eapply hd_quiet; [apply quiet_dx_lift|]. intros j _. apply hd_ret. Qed.

Lemma prefer_mesh_ev v inbound x ro st :
  (ro = DxResponder ∧ st = DxResponseSent) ∨ (ro = DxRequester ∧ st = DxResponseReceived) → cn_held x v → cn_stands ro st x →
  ev v (prefer_mesh inbound x) (λ y v', cn_held y v' ∧ cn_stands ro st y).
Proof.
  intros Hin Hx [Hr Hs]. unfold prefer_mesh.
  assert (Hsame : ev v (mret (M:=dx) x) (λ y v', cn_held y v' ∧ cn_stands ro st y)).
  { eapply evolves_conseq; [apply evolves_quiet, quiet_ret|]. by intros ? v' [-> ->]. }
  destruct (ctx_sender_endpoint _) as [ep|]; [|exact Hsame]. destruct (str_starts_with ep "mesh://"); [|exact Hsame].
  eapply hd_quiet; [apply quiet_world|]. intros now _. cbv zeta. set (y := cn_update_metadata (mesh_metadata ep) now x).
  apply evolves_bind with (F := λ _, cn_held y).
  - apply hd_connections. eapply ev_update; [exact Hx|done|]. apply step_mesh. naive_solver.
  - intros [] v' Hy. eapply evolves_conseq; [apply evolves_quiet, quiet_ret|]. by intros ? v2 [-> ->].
Qed.

Lemma store_requester_quiet v use_v2 q : quiet (T:=DX) v (store_requester_document use_v2 q) (λ _, True).
Proof.
  assert (Hst : ∀ d, quiet (T:=DX) v (_ ← eff_catch (on_did_repository "" (store_received_did (dxq_did q) d [])); mret tt) (λ _, True)).
  { intros d. quietly (quiet_catch v _ (λ _, True) (quiet_dids v "" _)). intros r _. eapply quiet_true, quiet_ret. }
  unfold store_requester_document. destruct use_v2; [apply Hst|]. destruct (_ ≫= _) as [doc|]; [|eapply quiet_true, quiet_ret].
  destruct (sd_from_value _); [apply Hst|eapply quiet_true, quiet_ret|eapply quiet_true, quiet_lift].
Qed.

Lemma named_ev v pre x did version :
  cn_held x v → cn_stands DxResponder DxResponseSent x →
  ev v (on_connections pre (cns_update (cn_with_version version (cn_with_did did x)))) (λ _, cn_held (cn_with_version version (cn_with_did did x))).
Proof. intros Hx [Hr Hs]. apply hd_connections. eapply ev_update; [exact Hx|done|by constructor]. Qed.

Lemma accept_v2_ev v q i ep rks : ev v (accept_v2 q i ep rks) (λ _ _, True).
Proof.
  unfold accept_v2. eapply hd_quiet; [apply quiet_wallet|]. intros key _. eapply hd_quiet; [apply quiet_dx_lift|]. intros [d doc] _.
  eapply hd_quiet; [apply quiet_dx_lift|]. intros ds _. eapply hd_quiet; [apply quiet_dids|]. intros rec _.
  eapply evolves_bind; [apply hd_connections, create_response_ev|]. intros [x p] v1 [Hx Hst]. cbv zeta.
  eapply evolves_bind; [by apply named_ev|]. intros [] v2 _. apply hd_answer.
Qed.
Lemma v1_key_quiet v : quiet (T:=DX) v v1_connection_key (λ _, True).
Proof.
  unfold v1_connection_key. quietly quiet_any; [done|]. intros [k|] _.
  - quietly quiet_lift. intros [] _. quietly quiet_wallet. intros key _. quietly quiet_modify; [done|]. intros [] _. eapply quiet_true, quiet_ret.
  - quietly quiet_wallet. intros key _. eapply quiet_true, quiet_ret.
Qed.
Lemma create_v1_quiet v key med eps rks : quiet (T:=DX) v (create_v1_did key med eps rks) (λ _, True).
Proof.
  unfold create_v1_did. quietly quiet_dx_lift. intros [d doc] _. quietly quiet_dx_lift. intros ds _. quietly quiet_dids. intros rec _.
  eapply quiet_true, quiet_ret.
Qed.
Lemma respond_v1_ev v inbound q i key d doc : ev v (respond_v1 inbound q i key d doc) (λ _ _, True).
Proof.
  unfold respond_v1. eapply evolves_bind; [apply hd_connections, create_response_ev|]. intros [x p] v1 [Hx Hst]. cbv zeta.
  eapply evolves_bind; [by apply named_ev|]. intros [] v2 Hy.
  eapply evolves_bind; [eapply prefer_mesh_ev; [left; by split|exact Hy|exact Hst]|]. intros y v3 _.
  eapply hd_quiet; [apply quiet_wallet|]. intros a _. apply hd_answer.
Qed.
Lemma dx_accept_ev v use_v2 inbound q r i : ev v (dx_accept use_v2 inbound q r i) (λ _ _, True).
Proof.
  unfold dx_accept. destruct (invitation_endpoints _) as [|ep eps]; [eapply hd_end, (quiet_throw _ _ (λ _, True))|].
  eapply hd_quiet; [by apply quiet_any|]. intros rks _. destruct use_v2; [apply accept_v2_ev|].
  eapply hd_quiet; [apply v1_key_quiet|]. intros [key med] _. eapply hd_quiet; [apply create_v1_quiet|]. intros [d doc] _. apply respond_v1_ev.
Qed.

(** The request handler, with the invitations that it sees. *)
Lemma dx_request_ev v self inbound (s : DX) w :
  heard (in_message inbound) → dx_oob_repository s = invitations → rs_ok s → (∀ id, rs_view s id = v id) →
  let '(r, s', _) := dx_request_handle self inbound s w in
  rs_ok s' ∧ ∀ id, rtc (record_change (cn_born invitations heard) (cn_step heard touched) gone) (v id) (rs_view s' id).
Proof.
  intros Hm Hinv Hs Hv.
  assert (Hdone : ∀ s1 : DX, rs_ok s1 → (∀ id, rs_view s1 id = v id) →
    rs_ok s1 ∧ ∀ id, rtc (record_change (cn_born invitations heard) (cn_step heard touched) gone) (v id) (rs_view s1 id)).
  { intros s1 Hs1 Hv1. split; [done|]. intros id. by rewrite Hv1. }
  assert (Hev : ∀ A (m : dx A) F, ev v m F → let '(r, s', _) := m s w in
    rs_ok s' ∧ ∀ id, rtc (record_change (cn_born invitations heard) (cn_step heard touched) gone) (v id) (rs_view s' id)).
  { intros A m F Hev. specialize (Hev s w Hs Hv). destruct (m s w) as [[r s'] w']. by destruct Hev as (? & ? & _). }
  unfold dx_request_handle. destruct (sd_from_value _) as [q|e|] eqn:Hq; [|by apply Hdone..].
  rewrite (eff_bind_run _ _ _ _ q s w) by done. destruct (dxq_parent_thread_id q) as [p|] eqn:Hp; [|by apply Hdone].
  set (o := find_first (λ r, bool_decide (obt_invitation_id (ob_tags r) = p ∧ ob_role r = ObSender) = true) (repo_record_values invitations)).
  rewrite (eff_bind_run _ _ _ _ o s w) by (destruct s; cbn in Hinv; subst; done).
  destruct o as [r|] eqn:Ho; [|by apply Hdone]. unfold o in Ho. apply find_first_Some in Ho as [[k Hk]%elem_of_repo_records [Hi Hr]%bool_decide_eq_true].
  eapply Hev. apply hd_quiet with (F := λ _, True).
  { destruct (str_starts_with _ _); [eapply quiet_true, quiet_lift|eapply quiet_true, quiet_ret]. }
  intros [auth ka] _. eapply hd_quiet; [apply store_requester_quiet|]. intros [] _.
  eapply evolves_bind; [apply hd_connections; eapply process_request_ev; [done..|]|].
  - by exists k, r.
  - intros x v1 _. destruct (negb _); [apply hd_ret|]. destruct (default _ _); [apply dx_accept_ev|apply hd_ret].
Qed.

Lemma extract_quiet v p : quiet (T:=DX) v (extract_and_store_did_document p) (λ _, True).
Proof.
  unfold extract_and_store_did_document. destruct (_ ≫= _) as [b|]; [|eapply quiet_true, quiet_ret].
  quietly quiet_dx_lift. intros bytes _. quietly quiet_dx_lift. intros j _. quietly quiet_dx_lift. intros n _. quietly quiet_dx_lift. intros d _.
  cbv zeta. apply from_bind with (F := λ _, True); [typeclasses eauto| |].
  - destruct (_ ≫= _); [|eapply quiet_true, quiet_ret]. quietly (quiet_any v (new_id (E:=MessageHandlerError) (S:=DX)) (λ _ _, eq_refl)).
    intros i _. eapply quiet_true, quiet_ret.
  - intros keys _. quietly quiet_dids. intros rec _. eapply quiet_true, quiet_ret.
Qed.
Lemma dx_response_ev v self inbound : all_tagged v → heard (in_message inbound) → ev v (dx_response_handle self inbound) (λ _ _, True).
Proof.
  intros Hv Hm. unfold dx_response_handle. eapply hd_quiet; [apply quiet_dx_lift|]. intros p Hp. cbv zeta.
  set (use_v2 := str_starts_with _ _ && _). apply hd_quiet with (F := λ _, True).
  { destruct use_v2; [|apply extract_quiet]. quietly quiet_dids. intros r _. eapply quiet_true, quiet_lift. }
  intros [auth ka] _. eapply evolves_bind; [by apply hd_connections; eapply process_response_ev|]. intros x v1 [Hx Hst].
  apply evolves_bind with (F := λ y v', cn_held y v' ∧ cn_stands DxRequester DxResponseReceived y).
  { destruct use_v2.
    - cbv zeta. apply evolves_bind with (F := λ _, cn_held (cn_with_version "2" x)).
      + apply hd_connections. eapply ev_update; [exact Hx|done|]. by apply step_versioned; apply Hst.
      + intros [] v2 Hy. eapply evolves_conseq; [apply evolves_quiet, quiet_ret|]. by intros ? v3 [-> ->].
    - eapply evolves_conseq; [apply evolves_quiet, quiet_ret|]. by intros ? v3 [-> ->]. }
  intros y v2 [Hy Hsty]. eapply evolves_bind; [eapply prefer_mesh_ev; [right; by split|exact Hy|exact Hsty]|]. intros z v3 _.
  destruct (default _ _); [|apply hd_ret]. eapply evolves_bind; [apply hd_connections, create_complete_ev|]. intros [u c] v4 _. apply hd_answer.
Qed.
Lemma dx_complete_ev v inbound : all_tagged v → heard (in_message inbound) → ev v (dx_complete_handle inbound) (λ _ _, True).
Proof.
  intros Hv Hm. unfold dx_complete_handle. eapply hd_quiet; [apply quiet_dx_lift|]. intros c Hc.
  eapply evolves_bind; [by apply hd_connections; eapply process_complete_ev|]. intros x v1 _. apply hd_ret.
Qed.

(** ** The invitations are only read *)

Definition keeps_oob {E A} (m : eff E DX A) : Prop := ∀ s w, dx_oob_repository (m s w).1.2 = dx_oob_repository s.
Lemma keeps_bind {E A B} (m : eff E DX A) (k : A → eff E DX B) : keeps_oob m → (∀ a, keeps_oob (k a)) → keeps_oob (m ≫= k).
Proof.
  intros Hm Hk s w. specialize (Hm s w). unfold mbind, eff_bind. destruct (m s w) as [[[a|e|] s1] w1]; cbn in *; [|done..].
  by rewrite Hk.
Qed.
Lemma keeps_connections {A} pre (m : eff ConnectionError (ConnectionService RS) A) : keeps_oob (on_connections pre m).
Proof. intros s w. unfold on_connections, eff_zoom. by destruct (m _ w) as [[[a|e|] s1] w1]. Qed.
Lemma keeps_dids {A} pre (m : eff string DidRepository A) : keeps_oob (on_did_repository pre m).
Proof. intros s w. unfold on_did_repository, eff_zoom. by destruct (m _ w) as [[[a|e|] s1] w1]. Qed.
Lemma keeps_wallet {E A} err (m : eff E WT A) : keeps_oob (on_wallet_provider err m).
Proof. intros s w. unfold on_wallet_provider, eff_zoom. by destruct (m _ w) as [[[a|e|] s1] w1]. Qed.
Lemma keeps_catch {E A} (m : eff E DX A) : keeps_oob m → keeps_oob (eff_catch m).
Proof. intros Hm s w. specialize (Hm s w). unfold eff_catch. by destruct (m s w) as [[[a|e|] s1] w1]. Qed.
Create HintDb oob.
#[local] Hint Resolve keeps_connections keeps_dids keeps_wallet keeps_catch : oob.

(** Every part of a handler keeps them. *)
Ltac keep_oob :=
  repeat first [ by auto with oob | by intros ?? | progress cbv zeta | apply keeps_bind; [|intros ?]
               | match goal with |- keeps_oob (match ?x with _ => _ end) => destruct x end ].

Lemma keeps_lift {A} err (r : outcome string A) : keeps_oob (dx_lift err r).
Proof. by destruct r. Qed.
#[local] Hint Resolve keeps_lift : oob.
Lemma keeps_answer {A} `{Serde A} id type (a : A) to from c : keeps_oob (dx_answer id type a to from c).
Proof. unfold dx_answer. keep_oob. Qed.
Lemma keeps_mesh inbound x : keeps_oob (prefer_mesh inbound x).
Proof. unfold prefer_mesh. keep_oob. Qed.
#[local] Hint Resolve keeps_answer keeps_mesh : oob.
Lemma keeps_store use_v2 q : keeps_oob (store_requester_document use_v2 q).
Proof. unfold store_requester_document. keep_oob. Qed.
Lemma keeps_key : keeps_oob v1_connection_key.
Proof. unfold v1_connection_key, new_connection_key, queue_registration. keep_oob. Qed.
Lemma keeps_create_v1 key med eps rks : keeps_oob (create_v1_did key med eps rks).
Proof. unfold create_v1_did. keep_oob. Qed.
Lemma keeps_respond_v1 inbound q i key d doc : keeps_oob (respond_v1 inbound q i key d doc).
Proof. unfold respond_v1. keep_oob. Qed.
Lemma keeps_accept_v2 q i ep rks : keeps_oob (accept_v2 q i ep rks).
Proof. unfold accept_v2, new_connection_key. keep_oob. Qed.
#[local] Hint Resolve keeps_store keeps_key keeps_create_v1 keeps_respond_v1 keeps_accept_v2 : oob.
Lemma keeps_accept use_v2 inbound q r i : keeps_oob (dx_accept use_v2 inbound q r i).
Proof. unfold dx_accept. keep_oob. Qed.
Lemma keeps_extract p : keeps_oob (extract_and_store_did_document p).
Proof. unfold extract_and_store_did_document. keep_oob. Qed.
#[local] Hint Resolve keeps_accept keeps_extract : oob.
Lemma keeps_request self inbound : keeps_oob (dx_request_handle self inbound).
Proof. unfold dx_request_handle. keep_oob. Qed.
Lemma keeps_response self inbound : keeps_oob (dx_response_handle self inbound).
Proof. unfold dx_response_handle. keep_oob. Qed.
Lemma keeps_complete inbound : keeps_oob (dx_complete_handle inbound).
Proof. unfold dx_complete_handle. keep_oob. Qed.
End handlers.

(** * Runs of an agent *)

Section runs.
Context `{HashOrder} `{UuidText} `{Bs58} `{Bs58Error} `{Curve25519} `{Base64} `{Hashing.Base64Std} `{JsonText} `{Sha256}.
Context `{Serde DidDocument} `{Serde DidExchangeRequestMessage} `{Serde DidExchangeResponseMessage} `{Serde DidExchangeCompleteMessage}.
Context {RS WT : Type} `{!ExchangeRepo RS ConnectionRecord ConnectionError} `{!ExchangeRepoLaws RS ConnectionRecord ConnectionError} `{!Wallet WT}.
Abbreviation DX := (DidExchange RS WT).
Abbreviation dx := (eff MessageHandlerError DX).

(** What an agent does with connections: a message goes to its handler, an invitation is
    accepted, a request or a response that waits is answered by hand, the host writes the
    metadata of a record, a record is deleted. *)
Inductive dx_call :=
  | DcRequest (self : DidExchangeRequestHandler) (m : InboundMessage)
  | DcResponse (self : DidExchangeResponseHandler) (m : InboundMessage)
  | DcComplete (m : InboundMessage)
  | DcAsk (oob_record : OutOfBandRecord) (our_did : string) (our_label : option string)
  | DcRespond (connection_id : string)
  | DcFinish (connection_id : string)
  | DcSetMetadata (connection_id : string) (metadata : Json)
  | DcUpdateMetadata (connection_id : string) (metadata : Json)
  | DcClearMetadata (connection_id : string)
  | DcDelete (connection_id : string).

(** A call of the connections module. *)
Definition on_module {A} (m : eff string (ConnectionService RS) A) : dx A :=
  eff_zoom dx_connection_service
    (λ c s, mkDidExchange c (dx_oob_repository s) (dx_did_repository s) (dx_wallet_provider s) (dx_registered_mediation_key s)
              (dx_mediation_routing_keys s) (dx_pending_key_registrations s)) ProcessingFailed m.

Definition dx_run1 (c : dx_call) : dx unit :=
  match c with
  | DcRequest self m => dx_request_handle self m;; mret tt
  | DcResponse self m => dx_response_handle self m;; mret tt
  | DcComplete m => dx_complete_handle m;; mret tt
  | DcAsk r did label => on_connections "" (cns_create_request r did label);; mret tt
  | DcRespond i => on_connections "" (cns_create_response i);; mret tt
  | DcFinish i => on_connections "" (cns_create_complete i);; mret tt
  | DcSetMetadata i md => on_module (set_connection_metadata i md)
  | DcUpdateMetadata i md => on_module (update_connection_metadata i md)
  | DcClearMetadata i => on_module (clear_connection_metadata i)
  | DcDelete i => on_connections "" (cns_delete i)
  end.
(** A run: the calls one after the other, whatever they answer. *)
Fixpoint dx_run (calls : list dx_call) (s : DX) (w : World) : DX * World :=
  match calls with
  | [] => (s, w)
  | c :: calls => let '(_, s, w) := dx_run1 c s w in dx_run calls s w
  end.
(** The messages that a run brings, and the calls that delete. *)
Definition call_message (c : dx_call) : option Message :=
  match c with DcRequest _ m | DcResponse _ m | DcComplete m => Some (in_message m) | _ => None end.
Definition heard_by (calls : list dx_call) (m : Message) : Prop := ∃ c, c ∈ calls ∧ call_message c = Some m.
Definition deletes (c : dx_call) : bool := match c with DcDelete _ => true | _ => false end.
(** The records whose metadata the host writes. *)
Definition call_writes (c : dx_call) : option string :=
  match c with DcSetMetadata i _ | DcUpdateMetadata i _ | DcClearMetadata i => Some i | _ => None end.
Definition touched_by (calls : list dx_call) (i : string) : Prop := ∃ c, c ∈ calls ∧ call_writes c = Some i.

Lemma keeps_module {A} (m : eff string (ConnectionService RS) A) : keeps_oob (on_module m).
Proof. intros s w. unfold on_module, eff_zoom. by destruct (m _ w) as [[[a|e|] s1] w1]. Qed.
Lemma write_metadata_ev invitations heard touched gone v f i :
  touched i → (∀ now x, ∃ md t, f now x = cn_touch t (cn_with_metadata md x)) →
  evolves (T:=DX) (cn_born invitations heard) (cn_step heard touched) gone v (on_module (write_metadata f i)) (λ _ _, True).
Proof.
  intros Hi Hf. apply evolves_zoom with (F := λ _ _, True); [done..|].
  eapply evolves_bind; [eapply evolves_quiet, quiet_module_connection|]. cbv beta. intros x ? [[Hx <-] ->].
  eapply evolves_bind; [apply evolves_quiet, quiet_world|]. cbv beta. intros now ? [_ ->].
  destruct (Hf now x) as (md & t & ->). eapply evolves_conseq; [apply evolves_zoom; [done..|]|done].
  eapply ev_update; [exact Hx|done|]. by constructor.
Qed.

Lemma dx_run1_path invitations heard touched gone c s w :
  dx_oob_repository s = invitations → (∀ m, call_message c = Some m → heard m) → (∀ i, call_writes c = Some i → touched i) → deletes c = false ∨ (∀ x, gone x) →
  rs_ok s → all_tagged (rs_view s) →
  record_path (cn_born invitations heard) (cn_step heard touched) gone s (dx_run1 c s w).1.2 ∧ dx_oob_repository (dx_run1 c s w).1.2 = invitations.
Proof.
  intros Hinv Hm Hw Hg Hs Ht. split.
  - assert (Hev : ∀ A (m : dx A) F, evolves (T:=DX) (cn_born invitations heard) (cn_step heard touched) gone (rs_view s) m F →
      record_path (cn_born invitations heard) (cn_step heard touched) gone s (m s w).1.2).
    { intros A m F Hev. specialize (Hev s w Hs (λ _, eq_refl)). destruct (m s w) as [[r s'] w']. by destruct Hev as (? & ? & _). }
    destruct c as [self m|self m|m|r did label|i|i|i md|i md|i|i]; cbn [dx_run1];
      [|eapply Hev; eapply evolves_bind; [|intros ?? _; apply hd_ret]..| | | |].
    7-9: eapply Hev, write_metadata_ev; [by apply Hw|]; eauto.
    + pose proof (dx_request_ev invitations heard touched gone (rs_view s) self m s w (Hm _ eq_refl) Hinv Hs (λ _, eq_refl)) as Hr.
      unfold mbind, eff_bind. destruct (dx_request_handle self m s w) as [[[a|e|] s'] w']; exact Hr.
    + by apply dx_response_ev, Hm.
    + by apply dx_complete_ev, Hm.
    + apply hd_connections, create_request_ev.
    + apply hd_connections, create_response_ev.
    + apply hd_connections, create_complete_ev.
    + apply Hev with (F := λ _ _, True). apply hd_connections. unfold cns_delete. intros s0 w0 Hs0 Hv0.
      destruct Hg as [Hg|Hg]; [done|].
      pose proof (from_delete (T:=ConnectionService RS) (cn_born invitations heard) (cn_step heard touched) gone (rs_view s) i (λ x _, Hg x) s0 w0 Hs0 Hv0) as Hd.
      destruct (on_records _ s0 w0) as [[r s1] w1]. destruct Hd as (Hs1 & Hv1 & _). split; [done|]. split; [intros id; apply rtc_once, Hv1|].
      intros a _. exists (rs_view s1). done.
  - rewrite <-Hinv. assert (Hk : keeps_oob (dx_run1 c)); [|apply Hk].
    destruct c; cbn [dx_run1]; try (apply keeps_bind; [|by intros ???]);
      auto using keeps_request, keeps_response, keeps_complete, keeps_connections, keeps_module.
Qed.

Lemma dx_run_path invitations heard touched gone calls s w :
  dx_oob_repository s = invitations → (∀ m, heard_by calls m → heard m) → (∀ i, touched_by calls i → touched i) → Forall (λ c, deletes c = false) calls ∨ (∀ x, gone x) →
  rs_ok s → all_tagged (rs_view s) →
  record_path (cn_born invitations heard) (cn_step heard touched) gone s (dx_run calls s w).1.
Proof.
  revert s w. induction calls as [|c calls IH]; intros s w Hinv Hm Hw Hg Hs Ht; cbn [dx_run]; [by apply record_path_refl|].
  assert (Hgc : deletes c = false ∨ ∀ x, gone x) by (destruct Hg as [Hg|]; [left; by inversion Hg|auto]).
  destruct (dx_run1_path invitations heard touched gone c s w Hinv) as [Hp Hinv']; [| |done..|].
  { intros m Hc. apply Hm. exists c. split; [set_solver|done]. }
  { intros i Hc. apply Hw. exists c. split; [set_solver|done]. }
  destruct (dx_run1 c s w) as [[r s1] w1]. cbn [fst snd] in *. eapply record_path_trans; [exact Hp|]. apply IH; [done| | | |apply Hp|].
  - intros m (c' & Hc & Hcm). apply Hm. exists c'. split; [set_solver|done].
  - intros i (c' & Hc & Hcm). apply Hw. exists c'. split; [set_solver|done].
  - destruct Hg as [Hg|]; [left; by inversion Hg|by right].
  - intros i x Hx. eapply (change_path_invariant (cn_born invitations heard) (cn_step heard touched) gone cn_tagged); [| |apply (proj2 Hp i)|apply Ht|exact Hx].
    + by intros ? [].
    + apply cn_step_tagged.
Qed.

(** C29: A connection says who it is with, through any sequence of messages and calls from an empty
    repository, over any repository that keeps its laws.  A responder's record is for an
    invitation of the agent, and a request of that DID was heard on its thread under that
    invitation; when it is completed, a complete was heard on its thread under the invitation.
    A requester's record past its request has the DID of a response that was heard on its
    thread.  The tags that the records are found by repeat their fields. *)
Theorem connection_provenance calls (s : DX) w id x :
  rs_ok s → (∀ i, rs_view s i = None) → rs_view (dx_run calls s w).1 id = Some x →
  cn_tagged x ∧
  match cn_role x with
  | DxResponder => responder_wf (dx_oob_repository s) (heard_by calls) x
  | DxRequester => requester_wf (heard_by calls) x
  end.
Proof.
  intros Hs He Hx.
  destruct (dx_run_path (dx_oob_repository s) (heard_by calls) (touched_by calls) (λ _, True) calls s w) as [_ Hp]; [done..|by right|done| |].
  { intros i y Hy. by rewrite He in Hy. }
  change (cn_wf (dx_oob_repository s) (heard_by calls) x).
  eapply change_path_invariant; [apply (cn_born_wf _ _ (touched_by calls))|apply (cn_step_wf _ _ (touched_by calls))|apply (Hp id)| |exact Hx]. intros y Hy. by rewrite He in Hy.
Qed.

(** C30: Connections only move on: through any messages and any calls of the protocol, of the
    host's metadata functions included, short of deleting records, a record keeps its role, its thread
    and its invitation, it never goes back to an earlier state, and once the other side's DID is
    known from the exchange it is kept.  A completed connection never changes again but for
    its metadata and the time of their writing, and in no field at all if the host does not write
    its metadata: whatever arrives on its thread, from whomever, no message rebinds it.  (The
    host's own [update], which stores whatever record it is given, is not among the calls.) *)
Theorem connection_settles calls (s : DX) w id x :
  rs_ok s → all_tagged (rs_view s) → Forall (λ c, deletes c = false) calls → rs_view s id = Some x →
  ∃ y, rs_view (dx_run calls s w).1 id = Some y ∧
    cn_role y = cn_role x ∧ cn_thread_id y = cn_thread_id x ∧ cn_out_of_band_id y = cn_out_of_band_id x ∧ cn_rank x ≤ cn_rank y ∧
    (cn_role x = DxResponder ∨ 1 ≤ cn_rank x → cn_their_did y = cn_their_did x) ∧
    (cn_state x = DxCompleted → y = cn_touch (cn_updated_at y) (cn_with_metadata (cn_metadata y) x)) ∧
    (cn_state x = DxCompleted → (∀ c, c ∈ calls → call_writes c ≠ Some id) → y = x).
Proof.
  intros Hs Ht Hd Hx.
  destruct (dx_run_path (dx_oob_repository s) (heard_by calls) (touched_by calls) (λ _, False) calls s w) as [_ Hp]; [done..|by left|done|done|].
  destruct (change_path_order (cn_born (dx_oob_repository s) (heard_by calls)) (cn_step (heard_by calls) (touched_by calls)) (cn_le (touched_by calls))
    _ _ _ _ (cn_step_le _ _) (Hp id) x Hx) as (y & Hy & _ & Hr & Hth & Ho & Hrk & Htd & Hmd & Hdone).
  pose proof (er_keyed (repo_of s) id x Hs Hx : cn_id x = id) as Hid.
  assert (Hrank : cn_state x = DxCompleted → 2 ≤ cn_rank x) by (intros Hst; unfold cn_rank; by rewrite Hst).
  exists y. split_and!; try done; [by intros ?%Hrank; apply Hmd|]. intros ?%Hrank Hno. apply Hdone; [done|].
  intros (c & Hc & Hw). apply (Hno c Hc). by rewrite <-Hid.
Qed.
End runs.
