(* ===== verification/ConnFlow.v ===== *)
(** A connection from end to end over DIDComm v2: a requester and a responder with in-memory
    repositories, each running its handlers, from the accepted invitation to two completed
    connections that know each other's keys.

    Runs of the DID exchange: the witnesses of its properties, and the runs that show where the
    code falls short. *)
From Stdlib Require Import Ascii.
From stdpp Require Import countable.
From S2P Require Import Prelude AjnaTypes StdText SerdeJson Storage Hashing Didcomm RecordRepo RecordSpec Keys Dids PeerDid PeerProps Oob Connections ConnHandlers ConnProps.

(** Connections are found by the thread in their tags. *)
Definition conn_thread (x : ConnectionRecord) : string := cnt_thread_id (cn_tags x).
Abbreviation only_conn := (only_of (E:=ConnectionError) conn_thread).
Abbreviation fresh_conns := (fresh_for conn_thread).

(** * Calls over the in-memory repository *)

Section memory_runs.
Context `{HashOrder} `{UuidText}.
Abbreviation Mem := (gmap string ConnectionRecord).
Abbreviation CNS := (ConnectionService Mem).
Implicit Types (m : Mem) (x y : ConnectionRecord).

Lemma find_conn_run m n bus w ro t x :
  only_conn m x → cnt_role (cn_tags x) = ro → conn_thread x = t →
  on_records (T:=CNS) (cn_find_by_role_and_thread_id ro t) (mkConnService m n bus) w = (Ok (Some x), mkConnService m n bus, w).
Proof.
  intros Ho <- <-. unfold on_records, eff_zoom. cbn. unfold cn_find_by_role_and_thread_id. cbn. unfold mr_find, eff_gets.
  rewrite (find_only conn_thread m _ x Ho); [done|by apply bool_decide_eq_true|by intros y [_ Hy]%bool_decide_eq_true].
Qed.
Lemma no_conn_run m n bus w ro t :
  (∀ k y, m !! k = Some y → conn_thread y ≠ t) →
  on_records (T:=CNS) (cn_find_by_role_and_thread_id ro t) (mkConnService m n bus) w = (Ok None, mkConnService m n bus, w).
Proof.
  intros Hn. unfold on_records, eff_zoom. cbn. unfold cn_find_by_role_and_thread_id. cbn. unfold mr_find, eff_gets.
  rewrite (proj2 (find_first_None _ _)); [done|]. intros y [k Hk]%elem_of_repo_records [_ Hy]%bool_decide_eq_true. by apply (Hn k y Hk).
Qed.
Lemma the_connection_run m n bus w x :
  only_conn m x → the_connection (cn_id x) (mkConnService m n bus) w = (Ok x, mkConnService m n bus, w).
Proof. intros [Hx _]. cbn in Hx. unfold the_connection, mbind, eff_bind, on_records, eff_zoom. cbn. by rewrite Hx. Qed.
Lemma the_thread_run m n bus w ro t x :
  only_conn m x → cnt_role (cn_tags x) = ro → conn_thread x = t →
  the_thread ro t (mkConnService m n bus) w = (Ok x, mkConnService m n bus, w).
Proof. intros Ho Hr Ht. unfold the_thread. by rewrite (eff_bind_run _ _ _ _ _ _ _ (find_conn_run m n bus w ro t x Ho Hr Ht)). Qed.
Lemma checks_run m n bus w x ro st :
  cn_role x = ro → cn_state x = st →
  in_role ro x (mkConnService m n bus) w = (Ok tt, mkConnService m n bus, w) ∧ in_state st x (mkConnService m n bus) w = (Ok tt, mkConnService m n bus, w).
Proof. intros <- <-. unfold in_role, in_state. by rewrite !decide_True. Qed.
Lemma under_run m n bus w p i : p = Some i → under_invitation p i (mkConnService m n bus) w = (Ok tt, mkConnService m n bus, w).
Proof. intros ->. unfold under_invitation. by rewrite decide_True. Qed.

Lemma stored_run {A} m n bus w x y p (a : A) :
  only_conn m x → cn_id y = cn_id x → conn_thread y = conn_thread x →
  ∃ bus', (_ ← put_connection y p; mret a) (mkConnService m n bus) w = (Ok a, mkConnService (<[cn_id y := y]> m) (S n) bus', w) ∧
    only_conn (<[cn_id y := y]> m) y.
Proof.
  intros Ho Hid Ht. eexists. split.
  - unfold put_connection, on_records, eff_zoom, wake_waiters, emit_conn_changed, mbind, eff_bind, eff_modify, mret, eff_ret. cbn.
    unfold mr_update. cbn. rewrite Hid, (proj1 Ho : m !! cn_id x = Some x). reflexivity.
  - by refine (only_of_insert (E:=ConnectionError) conn_thread m x y _ _ _).
Qed.
Lemma opened_run {A} m n bus w x p (a : A) :
  m !! cn_id x = None → (∀ k y, m !! k = Some y → conn_thread y ≠ conn_thread x) →
  ∃ bus', (_ ← open_connection x p; mret a) (mkConnService m n bus) w = (Ok a, mkConnService (<[cn_id x := x]> m) (S n) bus', w) ∧
    only_conn (<[cn_id x := x]> m) x.
Proof.
  intros Hid Ht. eexists. split.
  - unfold open_connection, on_records, eff_zoom, wake_waiters, emit_conn_changed, mbind, eff_bind, eff_modify, mret, eff_ret. cbn.
    unfold mr_save. cbn. rewrite Hid. reflexivity.
  - by refine (only_of_new (E:=ConnectionError) conn_thread m x _ _).
Qed.
Lemma update_run m n bus w x y :
  only_conn m x → cn_id y = cn_id x → conn_thread y = conn_thread x →
  cns_update y (mkConnService m n bus) w = (Ok tt, mkConnService (<[cn_id y := y]> m) (S n) bus, w) ∧ only_conn (<[cn_id y := y]> m) y.
Proof.
  intros Ho Hid Ht. split.
  - unfold cns_update, on_records, eff_zoom, wake_waiters, mbind, eff_bind, eff_modify. cbn. unfold mr_update. cbn.
    rewrite Hid, (proj1 Ho : m !! cn_id x = Some x). reflexivity.
  - by refine (only_of_insert (E:=ConnectionError) conn_thread m x y _ _ _).
Qed.

(** A field that may be given is set, or not. *)
Lemma set_given_run {A} (P : ConnectionRecord → Prop) (set : A → Instant → ConnectionRecord → ConnectionRecord) o m n bus w x :
  (∀ a t, P (set a t x)) → P x →
  ∃ y w', cn_set_given set o x (mkConnService m n bus) w = (Ok y, mkConnService m n bus, w') ∧ world_le w w' ∧ P y.
Proof.
  intros Hset Hx. destruct o as [a|]; [|by exists x, w]. eexists _, _. split; [reflexivity|]. split; [split; [done|cbn; lia]|apply Hset].
Qed.

(** What a request is, and the record that waits for its response. *)
Record asked (x : ConnectionRecord) (q : DidExchangeRequestMessage) (did invitation_id : string) : Prop := {
  as_stands : cn_stands DxRequester DxRequestSent x;
  as_role : cnt_role (cn_tags x) = DxRequester;
  as_did : cn_did x = did;
  as_invitation : cn_out_of_band_id x = invitation_id;
  as_thread : cn_thread_id x = dxq_thread_id q ∧ conn_thread x = dxq_thread_id q;
  as_auto : cn_auto_accept_connection x = None;
  as_request : dxq_did q = did ∧ dxq_parent_thread_id q = Some invitation_id
}.
(** A requester's record before its request is made. *)
Definition asking (did invitation_id i : string) (x : ConnectionRecord) : Prop :=
  cn_role x = DxRequester ∧ cnt_role (cn_tags x) = DxRequester ∧ cn_did x = did ∧ cn_out_of_band_id x = invitation_id ∧
  cn_auto_accept_connection x = None ∧ cn_id x = i.

Lemma conn_ask_run m n bus w r did label :
  fresh_conns m w →
  ∃ x q bus' w', cns_create_request r did label (mkConnService m n bus) w = (Ok (x, q), mkConnService (<[cn_id x := x]> m) (S n) bus', w') ∧
    world_le w w' ∧ only_conn (<[cn_id x := x]> m) x ∧ asked x q did (inv_id (ob_invitation r)) ∧
    ∃ i, w_un w ≤ i ∧ dxq_thread_id q = uuid_text w i.
Proof.
  intros Hf. unfold cns_create_request. set (inv := ob_invitation r).
  erewrite eff_bind_run by reflexivity. erewrite eff_bind_run by reflexivity.
  match goal with |- context [cn_set_given _ label ?r] => set (x0 := r) end.
  match goal with |- context [_ (mkConnService m n bus) ?w0] => set (w1 := w0) end.
  assert (Hle1 : world_le w w1) by (split; [done|cbn; lia]).
  assert (Hx0 : asking did (inv_id inv) (uuid_text w (S (w_un w))) x0) by done.
  destruct (set_given_run (asking did (inv_id inv) (uuid_text w (S (w_un w)))) cn_set_our_label label m n bus w1 x0) as (x1 & w2 & Hr1 & Hle2 & Hx1); [done..|].
  rewrite (eff_bind_run _ _ _ _ _ _ _ Hr1).
  destruct (set_given_run (asking did (inv_id inv) (uuid_text w (S (w_un w)))) cn_set_their_label (inv_label inv) m n bus w2 x1) as (x2 & w3 & Hr2 & Hle3 & Hx2);
    [done..|]. rewrite (eff_bind_run _ _ _ _ _ _ _ Hr2). clearbody x0.
  assert (Hle : world_le w w3) by (by do 2 (etrans; [eassumption|])). clear Hle1 Hle2 Hle3 Hr1 Hr2 Hx0 Hx1.
  set (q := (dxq_new (default "Agent" label) did (inv_id inv) w3).1). set (w4 := (utc_now (dxq_new (default "Agent" label) did (inv_id inv) w3).2).2).
  rewrite (eff_bind_run _ _ _ _ q (mkConnService m n bus) (dxq_new (default "Agent" label) did (inv_id inv) w3).2 eq_refl).
  set (x := cn_update_state DxRequestSent (utc_now (dxq_new (default "Agent" label) did (inv_id inv) w3).2).1 (cn_with_thread_id (dxq_thread_id q) x2)).
  rewrite (eff_bind_run _ _ _ _ x (mkConnService m n bus) w4 eq_refl).
  assert (Hq : dxq_thread_id q = uuid_text w (S (w_un w3))) by (unfold uuid_text; by rewrite <-(proj1 Hle)).
  destruct Hx2 as (H1 & H2 & H3 & H4 & H5 & H6). pose proof (proj2 Hle) as Hle'.
  destruct (opened_run m n bus w4 x (Some DxInvitationReceived) (x, q)) as (bus' & Hrun & Ho).
  - change (cn_id x) with (cn_id x2). rewrite H6. apply Hf. lia.
  - intros k y Hy. change (conn_thread x) with (dxq_thread_id q). rewrite Hq. apply (proj2 (Hf (S (w_un w3)) ltac:(lia)) k y Hy).
  - exists x, q, bus', w4. split; [exact Hrun|]. split; [split; [apply Hle|cbn; lia]|]. split; [exact Ho|]. split.
    + constructor; cbn; try done.
    + exists (S (w_un w3)). split; [lia|done].
Qed.

(** What a responder's record says of a request. *)
Record received (y : ConnectionRecord) (q : DidExchangeRequestMessage) (invitation_id : string) (auth ka : option string) : Prop := {
  rc_tag : cnt_role (cn_tags y) = DxResponder;
  rc_role : cn_role y = DxResponder;
  rc_invitation : cn_out_of_band_id y = invitation_id;
  rc_thread : cn_thread_id y = dxq_thread_id q ∧ conn_thread y = dxq_thread_id q;
  rc_auto : cn_auto_accept_connection y = None;
  rc_them : cn_their_did y = Some (dxq_did q) ∧ cn_their_authentication_key y = auth ∧ cn_their_key_agreement_key y = ka
}.
Lemma received_same y y' q i auth ka :
  received y q i auth ka → cn_role y' = cn_role y → cnt_role (cn_tags y') = cnt_role (cn_tags y) → cn_out_of_band_id y' = cn_out_of_band_id y →
  cn_thread_id y' = cn_thread_id y → conn_thread y' = conn_thread y → cn_auto_accept_connection y' = cn_auto_accept_connection y →
  cn_their_did y' = cn_their_did y → cn_their_authentication_key y' = cn_their_authentication_key y →
  cn_their_key_agreement_key y' = cn_their_key_agreement_key y → received y' q i auth ka.
Proof. intros [? ? ? [? ?] ? (? & ? & ?)] **. constructor; split_and?; congruence. Qed.

Lemma key_given_run (P : option string → ConnectionRecord → Prop) set o m n bus w y :
  P None y → (∀ a t, P (Some a) (set a t y)) →
  ∃ y' w', cn_set_given set o y (mkConnService m n bus) w = (Ok y', mkConnService m n bus, w') ∧ world_le w w' ∧ P o y'.
Proof.
  intros Hn Hs. destruct o as [a|]; [|by exists y, w]. eexists _, _. split; [reflexivity|]. split; [split; [done|cbn; lia]|apply Hs].
Qed.

(** A request's record: its labels and keys, and its repository. *)
Definition built (i : string) (q : DidExchangeRequestMessage) (invitation_id : string) (auth ka : option string) (y : ConnectionRecord) : Prop :=
  cn_id y = i ∧ cn_state y = DxRequestReceived ∧ received y q invitation_id auth ka.
Lemma fill_run m n bus w q i j label auth ka y0 :
  m !! i = None → (∀ k y, m !! k = Some y → conn_thread y ≠ dxq_thread_id q) → built i q j None None y0 →
  ∃ y bus' w',
    (record ← cn_set_given cn_set_our_label label y0;
     record ← cn_set_given cn_set_their_authentication_key auth record;
     record ← cn_set_given cn_set_their_key_agreement_key ka record;
     _ ← open_connection record None;
     mret record) (mkConnService m n bus) w = (Ok y, mkConnService (<[cn_id y := y]> m) (S n) bus', w') ∧
    world_le w w' ∧ only_conn (<[cn_id y := y]> m) y ∧ built i q j auth ka y.
Proof.
  intros Hi Hn Hy0.
  destruct (set_given_run (built i q j None None) cn_set_our_label label m n bus w y0) as (y1 & w1 & Hr1 & Hle1 & Hy1); [|exact Hy0|].
  { intros a t. destruct Hy0 as (? & ? & ?). split_and!; [done..|]. by apply (received_same y0). }
  rewrite (eff_bind_run _ _ _ _ _ _ _ Hr1).
  destruct (key_given_run (λ a, built i q j a None) cn_set_their_authentication_key auth m n bus w1 y1 Hy1) as (y2 & w2 & Hr2 & Hle2 & Hy2).
  { intros a t. destruct Hy1 as (? & ? & [? ? ? ? ? (? & ? & ?)]). by split_and!. }
  rewrite (eff_bind_run _ _ _ _ _ _ _ Hr2).
  destruct (key_given_run (λ k, built i q j auth k) cn_set_their_key_agreement_key ka m n bus w2 y2 Hy2) as (y3 & w3 & Hr3 & Hle3 & Hy3).
  { intros a t. destruct Hy2 as (? & ? & [? ? ? ? ? (? & ? & ?)]). by split_and!. }
  rewrite (eff_bind_run _ _ _ _ _ _ _ Hr3). destruct Hy3 as (Hid & Hst & Hrec).
  destruct (opened_run m n bus w3 y3 None y3) as (bus' & Hrun & Ho); [by rewrite Hid| |].
  { intros k z Hz. rewrite (proj2 (rc_thread _ _ _ _ _ Hrec)). by apply (Hn k). }
  exists y3, bus', w3. split; [exact Hrun|]. split; [by do 2 (etrans; [eassumption|])|]. split; [exact Ho|]. by split_and!.
Qed.

Lemma receive_conn_run m n bus w q r did auth ka :
  fresh_conns m w → (∀ k y, m !! k = Some y → conn_thread y ≠ dxq_thread_id q) → dxq_parent_thread_id q = Some (inv_id (ob_invitation r)) →
  ∃ y bus' w', cns_process_request q r did auth ka (mkConnService m n bus) w = (Ok y, mkConnService (<[cn_id y := y]> m) (S n) bus', w') ∧
    world_le w w' ∧ only_conn (<[cn_id y := y]> m) y ∧ received y q (inv_id (ob_invitation r)) auth ka ∧ cn_state y = DxRequestReceived.
Proof.
  intros Hf Hn Hp. unfold cns_process_request. rewrite (eff_bind_run _ _ _ _ _ _ _ (under_run m n bus w _ _ Hp)).
  rewrite (eff_bind_run _ _ _ _ (inr None) (mkConnService m n bus) w) by (unfold eff_catch; by rewrite (no_conn_run m n bus w DxResponder _ Hn)).
  set (b := cnb_with_names _ _ _ _).
  destruct (cnb_build b w) as [y0 w1] eqn:Hb. rewrite (eff_bind_run _ _ _ _ y0 (mkConnService m n bus) w1) by (unfold eff_world; by rewrite Hb).
  assert (Hy0 : built (next_id w) q (inv_id (ob_invitation r)) None None y0 ∧ world_le w w1).
  { cbn in Hb. injection Hb as <- <-. split; [by split_and!|split; [done|cbn; lia]]. }
  destruct Hy0 as [Hy0 Hle1]. destruct (Hf (w_un w) (le_n _)) as [Hnew _].
  destruct (fill_run m n bus w1 q (next_id w) _ (inv_label (ob_invitation r)) auth ka y0 Hnew Hn Hy0) as (y & bus' & w' & Hrun & Hle & Ho & (_ & Hst & Hy)).
  exists y, bus', w'. split; [exact Hrun|]. split; [by etrans|]. by split_and!.
Qed.

(** The responder's answer, the requester's answer to it, and the end. *)
Lemma respond_run m n bus w y :
  only_conn m y → cn_role y = DxResponder → cn_state y = DxRequestReceived →
  ∃ y' p bus' w', cns_create_response (cn_id y) (mkConnService m n bus) w = (Ok (y', p), mkConnService (<[cn_id y' := y']> m) (S n) bus', w') ∧
    world_le w w' ∧ only_conn (<[cn_id y' := y']> m) y' ∧ (∃ t, y' = cn_update_state DxResponseSent t y) ∧ dxp_thread p = thread_of (cn_thread_id y) ∧
    dxp_did_doc_attach p = None.
Proof.
  intros Ho Hr Hs. unfold cns_create_response. rewrite (eff_bind_run _ _ _ _ _ _ _ (the_connection_run m n bus w y Ho)).
  destruct (checks_run m n bus w y _ _ Hr Hs) as [Hc1 Hc2]. rewrite (eff_bind_run _ _ _ _ _ _ _ Hc2), (eff_bind_run _ _ _ _ _ _ _ Hc1).
  set (p := (dxp_new (cn_did y) (cn_thread_id y) w).1). set (w1 := (dxp_new (cn_did y) (cn_thread_id y) w).2).
  rewrite (eff_bind_run _ _ _ _ p (mkConnService m n bus) w1 eq_refl). set (y' := cn_update_state DxResponseSent (utc_now w1).1 y).
  rewrite (eff_bind_run _ _ _ _ y' (mkConnService m n bus) (utc_now w1).2 eq_refl).
  destruct (stored_run m n bus (utc_now w1).2 y y' DxRequestReceived (y', p) Ho eq_refl eq_refl) as (bus' & Hrun & Ho').
  exists y', p, bus', (utc_now w1).2. split; [exact Hrun|]. split; [split; [done|cbn; lia]|]. split_and!; try done. by eexists.
Qed.
Lemma answered_run m n bus w x p auth ka :
  only_conn m x → cn_role x = DxRequester → cnt_role (cn_tags x) = DxRequester → conn_thread x = dxp_thread_id p → cn_state x = DxRequestSent →
  ∃ x' bus' w', cns_process_response p auth ka (mkConnService m n bus) w = (Ok x', mkConnService (<[cn_id x' := x']> m) (S n) bus', w') ∧
    world_le w w' ∧ only_conn (<[cn_id x' := x']> m) x' ∧ ∃ t1 t2, x' = cn_answered (dxp_did p) auth ka t1 t2 x.
Proof.
  intros Ho Hr Hro Ht Hs. unfold cns_process_response. rewrite (eff_bind_run _ _ _ _ _ _ _ (the_thread_run m n bus w _ _ x Ho Hro Ht)).
  rewrite (eff_bind_run _ _ _ _ _ _ _ (proj2 (checks_run m n bus w x _ _ Hr Hs))). erewrite eff_bind_run by reflexivity. cbv zeta.
  erewrite eff_bind_run by reflexivity.
  match goal with |- context [put_connection ?r _] => change r with (cn_answered (dxp_did p) auth ka (utc_now w).1 (utc_now (utc_now w).2).1 x) end.
  set (x' := cn_answered _ _ _ _ _ x).
  destruct (stored_run m n bus (utc_now (utc_now w).2).2 x x' DxRequestSent x' Ho) as (bus' & Hrun & Ho'); [by subst x'; destruct auth, ka..|].
  exists x', bus', (utc_now (utc_now w).2).2. split; [exact Hrun|]. split; [split; [done|cbn; lia]|]. split; [done|]. by do 2 eexists.
Qed.
Lemma finish_run m n bus w x :
  only_conn m x → cn_role x = DxRequester → cn_state x = DxResponseReceived →
  ∃ x' c bus' w', cns_create_complete (cn_id x) (mkConnService m n bus) w = (Ok (x', c), mkConnService (<[cn_id x' := x']> m) (S n) bus', w') ∧
    world_le w w' ∧ only_conn (<[cn_id x' := x']> m) x' ∧ (∃ t, x' = cn_update_state DxCompleted t x) ∧
    dxc_thread_id c = cn_thread_id x ∧ dxc_parent_thread_id c = Some (cn_out_of_band_id x).
Proof.
  intros Ho Hr Hs. unfold cns_create_complete. rewrite (eff_bind_run _ _ _ _ _ _ _ (the_connection_run m n bus w x Ho)).
  destruct (checks_run m n bus w x _ _ Hr Hs) as [Hc1 Hc2]. rewrite (eff_bind_run _ _ _ _ _ _ _ Hc1), (eff_bind_run _ _ _ _ _ _ _ Hc2).
  set (c := (dxc_new (cn_thread_id x) (cn_out_of_band_id x) w).1). set (w1 := (dxc_new (cn_thread_id x) (cn_out_of_band_id x) w).2).
  rewrite (eff_bind_run _ _ _ _ c (mkConnService m n bus) w1 eq_refl). set (x' := cn_update_state DxCompleted (utc_now w1).1 x).
  rewrite (eff_bind_run _ _ _ _ x' (mkConnService m n bus) (utc_now w1).2 eq_refl).
  destruct (stored_run m n bus (utc_now w1).2 x x' DxResponseReceived (x', c) Ho eq_refl eq_refl) as (bus' & Hrun & Ho').
  exists x', c, bus', (utc_now w1).2. split; [exact Hrun|]. split; [split; [done|cbn; lia]|]. split_and!; try done. by eexists.
Qed.
Lemma finished_run m n bus w y c :
  only_conn m y → cn_role y = DxResponder → cnt_role (cn_tags y) = DxResponder → conn_thread y = dxc_thread_id c → cn_state y = DxResponseSent →
  dxc_parent_thread_id c = Some (cn_out_of_band_id y) →
  ∃ y' bus' w', cns_process_complete c (mkConnService m n bus) w = (Ok y', mkConnService (<[cn_id y' := y']> m) (S n) bus', w') ∧
    only_conn (<[cn_id y' := y']> m) y' ∧ ∃ t, y' = cn_update_state DxCompleted t y.
Proof.
  intros Ho Hr Hro Ht Hs Hp. unfold cns_process_complete. rewrite (eff_bind_run _ _ _ _ _ _ _ (the_thread_run m n bus w _ _ y Ho Hro Ht)).
  rewrite (eff_bind_run _ _ _ _ _ _ _ (proj2 (checks_run m n bus w y _ _ Hr Hs))), (eff_bind_run _ _ _ _ _ _ _ (under_run m n bus w _ _ Hp)).
  set (y' := cn_update_state DxCompleted (utc_now w).1 y). rewrite (eff_bind_run _ _ _ _ y' (mkConnService m n bus) (utc_now w).2 eq_refl).
  destruct (stored_run m n bus (utc_now w).2 y y' DxResponseSent y' Ho eq_refl eq_refl) as (bus' & Hrun & Ho').
  exists y', bus', (utc_now w).2. split; [exact Hrun|]. split; [done|]. by eexists.
Qed.
End memory_runs.

(** * Two agents *)

Section agents.
Context `{HashOrder} `{UuidText} `{Bs58Laws} `{Bs58Error} `{Curve25519Laws} `{Base64UrlChars} `{Hashing.Base64Std} `{JsonMembers} `{Sha256}.
Context `{Serde DidDocument}.
Context `{Serde DidExchangeRequestMessage} `{!SerdeLaws DidExchangeRequestMessage} `{Serde DidExchangeResponseMessage} `{!SerdeLaws DidExchangeResponseMessage}.
Context `{Serde DidExchangeCompleteMessage} `{!SerdeLaws DidExchangeCompleteMessage}.
Context {WT : Type} `{!Wallet WT}.
Abbreviation Mem := (gmap string ConnectionRecord).
Abbreviation DX := (DidExchange Mem WT).
Abbreviation dx := (eff MessageHandlerError DX).
Implicit Types (m : Mem) (x y : ConnectionRecord).

Definition dx_with_connections (c : ConnectionService Mem) (s : DX) : DX :=
  mkDidExchange c (dx_oob_repository s) (dx_did_repository s) (dx_wallet_provider s) (dx_registered_mediation_key s)
    (dx_mediation_routing_keys s) (dx_pending_key_registrations s).
Definition dx_with_dids (d : DidRepository) (s : DX) : DX :=
  mkDidExchange (dx_connection_service s) (dx_oob_repository s) d (dx_wallet_provider s) (dx_registered_mediation_key s)
    (dx_mediation_routing_keys s) (dx_pending_key_registrations s).
Definition dx_with_wallet (wt : WT) (s : DX) : DX :=
  mkDidExchange (dx_connection_service s) (dx_oob_repository s) (dx_did_repository s) wt (dx_registered_mediation_key s)
    (dx_mediation_routing_keys s) (dx_pending_key_registrations s).

Lemma on_connections_run {A} pre (c : eff ConnectionError (ConnectionService Mem) A) s w r s' w' :
  c (dx_connection_service s) w = (Ok r, s', w') → on_connections pre c s w = (Ok r, dx_with_connections s' s, w').
Proof. intros Hc. unfold on_connections, eff_zoom. by rewrite Hc. Qed.
Lemma on_dids_run {A} pre (c : eff string DidRepository A) (s : DX) w r s' w' :
  c (dx_did_repository s) w = (Ok r, s', w') → on_did_repository pre c s w = (Ok r, dx_with_dids s' s, w').
Proof. intros Hc. unfold on_did_repository, eff_zoom. by rewrite Hc. Qed.
Lemma put_did_later d role doc k s w r s' w' : put_did d role doc k s w = (Ok r, s', w') → world_le w w'.
Proof. unfold put_did, new_id, mbind, eff_bind, eff_world, mret, eff_ret, eff_modify. cbn. intros [= <- <- <-]. split; [done|cbn; lia]. Qed.
Lemma store_received_run did doc keys (s : DX) w :
  ∃ rec d' w', on_did_repository "" (store_received_did did doc keys) s w = (Ok rec, dx_with_dids d' s, w') ∧ world_le w w'.
Proof.
  destruct (put_did_run did DrReceived doc keys (dx_did_repository s) w) as (r & w2 & Hp & _).
  assert (∃ rec d' w', store_received_did did doc keys (dx_did_repository s) w = (Ok rec, d', w') ∧ world_le w w') as (rec & d' & w' & Hr & Hle).
  { unfold store_received_did, created_already, mbind, eff_bind, eff_gets.
    destruct (drp_records _ !! did); [case_decide; [by do 3 eexists|]|]; (do 3 eexists; split; [exact Hp|by eapply put_did_later]). }
  exists rec, d', w'. split; [by apply on_dids_run|done].
Qed.

(** The agent's wallet makes a key that is a point of the curve, whenever it is asked. *)
Definition makes_keys (wt : WT) : Prop :=
  ∀ w, ∃ key wt' w', wa_create_key Ed25519 AgentMessaging wt w = (Ok key, wt', w') ∧ world_le w w' ∧ is_Some (ed_montgomery (key_public key)).
(** The documents that are made are read. *)
Definition reads_documents : Prop :=
  ∀ ed ep rks did doc, create_peer_did_2_with_service ed ep rks = Ok (did, doc) → ∃ d : DidDocument, sd_from_value doc = Ok d.
(** The invitation of an id is the given one. *)
Definition invites (s : DX) (r : OutOfBandRecord) : Prop :=
  find_first (λ o, bool_decide (obt_invitation_id (ob_tags o) = inv_id (ob_invitation r) ∧ ob_role o = ObSender) = true)
    (repo_record_values (dx_oob_repository s)) = Some r.

Lemma invitation_run s w r :
  invites s r → on_invitations (ob_find_by_invitation_id (inv_id (ob_invitation r)) ObSender) s w = (Ok (Some r), s, w).
Proof. intros Hi. unfold on_invitations, eff_zoom. destruct s. cbn in *. unfold mr_find, eff_gets. by rewrite Hi. Qed.

(** The new DID of a connection decodes to the key it was made from. *)
Lemma created_v2 ed ep rks xk :
  ed_montgomery ed = Some xk →
  ∃ did doc, create_peer_did_2_with_service ed ep rks = Ok (did, doc) ∧ str_starts_with did "did:peer:2" = true ∧
    ∀ E, parse_peer2_verkeys (E:=E) did = Ok (Some (bs58_encode ed), Some (bs58_encode xk)).
Proof.
  intros Hx. assert (Hlen : String.length ed = 32) by (apply ed_montgomery_from; eauto).
  assert (Hlx : String.length xk = 32) by (by eapply ed_montgomery_length).
  unfold create_peer_did_2_with_service, to_x25519. rewrite bool_decide_eq_true_2 by done. cbn [negb]. rewrite Hx.
  eexists _, _. split; [reflexivity|].
  destruct (peer2_service_read false ep rks ["didcomm/v2"] (Some (bs58_encode ed)) (Some (bs58_encode xk)) [bs58_encode ed; bs58_encode xk]) as (svc & Hj & Hsvc).
  split.
  { destruct (peer2_parts ed xk (json_print (peer2_service_json false ep rks ["didcomm/v2"]))) as (parts & Hs & _); rewrite starts_with_strip, Hs; by apply bool_decide_eq_true_2. }
  intros E. unfold parse_peer2_verkeys.
  rewrite (parse_peer2_created ed xk _ svc);
    [by rewrite Hsvc|intros He; by rewrite He in Hlen|intros He; by rewrite He in Hlx|apply json_print_nonempty|done].
Qed.

(** Our DID of a connection: stored as created, with the wallet's key. *)
Definition owns_did (s : DX) (did : string) (key : Key) : Prop :=
  ∃ rec, drp_records (dx_did_repository s) !! did = Some rec ∧ dr_role rec = DrCreated ∧ dr_kms_key_ids rec = [key_id key; key_id key].
(** A record that answered, and its answer. *)
Record responded (s : DX) (y : ConnectionRecord) (p : DidExchangeResponseMessage) (ed xk : string) (key : Key) : Prop := {
  rs_stands : cn_state y = DxResponseSent;
  rs_did : dxp_did p = cn_did y ∧ dxp_did_doc_attach p = None ∧ str_starts_with (cn_did y) "did:peer:2" = true;
  rs_thread : dxp_thread_id p = cn_thread_id y;
  rs_version : cn_didcomm_version y = Some "2";
  rs_key : key_public key = ed ∧ ed_montgomery ed = Some xk ∧ owns_did s (cn_did y) key ∧
    parse_peer2_verkeys (E:=MessageHandlerError) (cn_did y) = Ok (Some (bs58_encode ed), Some (bs58_encode xk))
}.

Lemma accept_v2_run s m n bus w y q ep rks i auth ka :
  dx_connection_service s = mkConnService m n bus → only_conn m y → received y q i auth ka → cn_state y = DxRequestReceived →
  makes_keys (dx_wallet_provider s) → reads_documents → (∀ p : DidExchangeResponseMessage, ∃ v, sd_to_value p = Ok v) →
  ∃ y' p v s' m' n' bus' w' ed xk key, accept_v2 q (cn_id y) ep rks s w =
      (Ok (Some (mkOutbound (msg_new (dxp_id p) (dxp_msg_type p) v) (dxq_did q) (cn_did y') (Some (cn_id y')))), s', w') ∧ world_le w w' ∧
    dx_connection_service s' = mkConnService m' n' bus' ∧ only_conn m' y' ∧ received y' q i auth ka ∧
    sd_from_value v = Ok p ∧ responded s' y' p ed xk key.
Proof.
  intros Hs Ho Hrec Hst Hkey Hread Hwrite. unfold accept_v2, new_connection_key.
  destruct (Hkey w) as (key & wt' & w1 & Hk & Hle1 & [xk Hxk]).
  rewrite (eff_bind_run _ _ _ _ key (dx_with_wallet wt' s) w1) by (unfold on_wallet_provider, eff_zoom; by rewrite Hk).
  destruct (created_v2 (key_public key) ep rks xk Hxk) as (did & doc & Hc & Hpre & Hparse). rewrite Hc.
  rewrite (eff_bind_run (dx_lift _ (Ok _)) _ _ _ (did, doc) (dx_with_wallet wt' s) w1 eq_refl). cbv iota.
  destruct (Hread _ _ _ _ _ Hc) as [d Hd]. rewrite Hd, (eff_bind_run (dx_lift _ (Ok _)) _ _ _ d (dx_with_wallet wt' s) w1 eq_refl).
  set (keys := [mkDdk (key_id key) (did +:+ "#key-1"); mkDdk (key_id key) (did +:+ "#key-2")]).
  destruct (put_did_run did DrCreated (Some d) keys (dx_did_repository s) w1) as (rec & w2 & Hput & Hrole & Hdid & Hdoc & Hkeys).
  pose proof (put_did_later _ _ _ _ _ _ _ _ _ Hput) as Hle2. set (d' := persist_record _ _) in Hput.
  rewrite (eff_bind_run _ _ _ _ rec (dx_with_dids d' (dx_with_wallet wt' s)) w2) by (by apply on_dids_run).
  destruct (respond_run m n bus w2 y Ho (rc_role _ _ _ _ _ Hrec) Hst) as (y1 & p1 & bus1 & w3 & Hr3 & Hle3 & Ho1 & (t & Hy1) & Hth & Hatt).
  rewrite (eff_bind_run _ _ _ _ (y1, p1) (dx_with_connections (mkConnService (<[cn_id y1:=y1]> m) (S n) bus1) (dx_with_dids d' (dx_with_wallet wt' s))) w3)
    by (apply on_connections_run; by rewrite <-Hr3, <-Hs).
  cbv iota zeta. set (y' := cn_with_version "2" (cn_with_did did y1)). set (p := dxp_with_did did p1).
  destruct (update_run (<[cn_id y1:=y1]> m) (S n) bus1 w3 y1 y' Ho1 eq_refl eq_refl) as [Hr4 Ho'].
  rewrite (eff_bind_run _ _ _ _ tt _ _ (on_connections_run _ _ (dx_with_connections _ _) w3 _ _ _ Hr4)).
  destruct (Hwrite p) as [v Hv]. unfold dx_answer. rewrite Hv.
  exists y', p, v. do 4 eexists. exists w3, (key_public key), xk, key. split; [reflexivity|]. split; [by do 2 (etrans; [eassumption|])|].
  split; [reflexivity|]. split; [exact Ho'|]. split; [by subst y' y1; apply (received_same y)|]. split; [by apply sd_value_back|].
  subst y1. constructor; try done.
  - unfold p, dxp_thread_id, dxp_with_did. cbn. by rewrite Hth.
  - split_and!; try done. exists rec. split_and!; [apply lookup_insert_eq|done|]. unfold dr_kms_key_ids. by rewrite Hkeys.
Qed.

Lemma store_v2_run q (s : DX) w : ∃ d' w', store_requester_document true q s w = (Ok tt, dx_with_dids d' s, w') ∧ world_le w w'.
Proof.
  unfold store_requester_document. destruct (store_received_run (dxq_did q) None [] s w) as (rec & d' & w' & Hr & Hle).
  exists d', w'. split; [|done]. rewrite (eff_bind_run _ _ _ _ (inr rec) (dx_with_dids d' s) w'); [done|]. unfold eff_catch. by rewrite Hr.
Qed.

(** What both sides of a request agree on. *)
Record v2_request (q : DidExchangeRequestMessage) (r : OutOfBandRecord) (auth ka : option string) : Prop := {
  vq_parent : dxq_parent_thread_id q = Some (inv_id (ob_invitation r));
  vq_did : str_starts_with (dxq_did q) "did:peer:2" = true;
  vq_keys : parse_peer2_verkeys (E:=MessageHandlerError) (dxq_did q) = Ok (auth, ka)
}.

(** The beginning of the request handler, to the record of the connection. *)
Lemma request_read rh inbound s w q r auth ka :
  sd_from_value (msg_body (in_message inbound)) = Ok q → v2_request q r auth ka → invites s r →
  ∃ d' w', world_le w w' ∧ dx_request_handle rh inbound s w =
    (connection ← on_connections "" (cns_process_request q r (rqh_our_did rh) auth ka);
     if negb (bool_decide (cn_state connection = DxRequestReceived)) then mret None
     else if default (rqh_auto_accept_connections rh) (cn_auto_accept_connection connection)
     then dx_accept true inbound q r (cn_id connection) else mret None) (dx_with_dids d' s) w'.
Proof.
  intros Hq [Hp Hd Hk] Hi. destruct (store_v2_run q s w) as (d' & w' & Hst & Hle). exists d', w'. split; [done|].
  unfold dx_request_handle. rewrite Hq, (eff_bind_run (dx_lift _ (Ok q)) _ _ _ q s w eq_refl), Hp.
  rewrite (eff_bind_run _ _ _ _ _ _ _ (invitation_run s w r Hi)). cbv iota zeta. rewrite Hd, Hk.
  rewrite (eff_bind_run (eff_lift (Ok (auth, ka))) _ _ _ (auth, ka) s w eq_refl). cbv iota.
  by rewrite (eff_bind_run _ _ _ _ _ _ _ Hst).
Qed.

Lemma request_handled rh inbound s m n bus w q r ep eps auth ka :
  dx_connection_service s = mkConnService m n bus → sd_from_value (msg_body (in_message inbound)) = Ok q → v2_request q r auth ka → invites s r →
  invitation_endpoints (ob_invitation r) = ep :: eps → rqh_auto_accept_connections rh = true →
  makes_keys (dx_wallet_provider s) → reads_documents → (∀ p : DidExchangeResponseMessage, ∃ v, sd_to_value p = Ok v) →
  fresh_conns m w → (∀ k y, m !! k = Some y → conn_thread y ≠ dxq_thread_id q) →
  ∃ y p v out s' m' n' bus' w' ed xk key, dx_request_handle rh inbound s w = (Ok (Some out), s', w') ∧ world_le w w' ∧
    msg_body (out_message out) = v ∧ out_to out = dxq_did q ∧
    dx_connection_service s' = mkConnService m' n' bus' ∧ only_conn m' y ∧ received y q (inv_id (ob_invitation r)) auth ka ∧
    sd_from_value v = Ok p ∧ responded s' y p ed xk key ∧ dx_oob_repository s' = dx_oob_repository s.
Proof.
  intros Hs Hq Hv2 Hi Hep Hauto Hkey Hread Hwrite Hf Hn.
  destruct (request_read rh inbound s w q r auth ka Hq Hv2 Hi) as (d' & w1 & Hle1 & Hrun). rewrite Hrun. clear Hrun.
  destruct (receive_conn_run m n bus w1 q r (rqh_our_did rh) auth ka) as (y & bus1 & w2 & Hr & Hle2 & Ho & Hy & Hst);
    [by eapply fresh_for_later|done|by apply Hv2|].
  set (s1 := dx_with_connections (mkConnService (<[cn_id y:=y]> m) (S n) bus1) (dx_with_dids d' s)).
  rewrite (eff_bind_run _ _ _ _ y s1 w2) by (apply on_connections_run; by rewrite <-Hr, <-Hs).
  rewrite Hst, bool_decide_eq_true_2 by done. cbn [negb]. rewrite (rc_auto _ _ _ _ _ Hy), Hauto. cbn [default from_option].
  unfold dx_accept. rewrite Hep. rewrite (eff_bind_run _ _ _ _ (default [] (dx_mediation_routing_keys s1)) s1 w2 eq_refl). cbv iota.
  destruct (accept_v2_run s1 (<[cn_id y:=y]> m) (S n) bus1 w2 y q ep (default [] (dx_mediation_routing_keys s1)) (inv_id (ob_invitation r)) auth ka)
    as (y' & p & v & s' & m' & n' & bus' & w' & ed & xk & key & Hacc & Hle3 & Hs' & Ho' & Hy' & Hp & Hresp); [done..|].
  assert (Hoob : dx_oob_repository s' = dx_oob_repository s).
  { pose proof (keeps_accept_v2 q (cn_id y) ep (default [] (dx_mediation_routing_keys s1)) s1 w2) as Hk. by rewrite Hacc in Hk. }
  exists y', p, v. eexists _, s', m', n', bus', w', ed, xk, key. split; [exact Hacc|]. split_and!; try done. by do 2 (etrans; [eassumption|]).
Qed.

(** A requester takes a response of DIDComm v2 and completes. *)
Lemma response_handled ph inbound (s : DX) m n bus w p x q did i ed xk :
  dx_connection_service s = mkConnService m n bus → sd_from_value (msg_body (in_message inbound)) = Ok p →
  only_conn m x → asked x q did i → dxp_thread_id p = dxq_thread_id q →
  str_starts_with (dxp_did p) "did:peer:2" = true → dxp_did_doc_attach p = None →
  parse_peer2_verkeys (E:=MessageHandlerError) (dxp_did p) = Ok (Some (bs58_encode ed), Some (bs58_encode xk)) →
  rph_auto_accept_connections ph = true → ctx_sender_endpoint (in_context inbound) = None →
  (∀ c : DidExchangeCompleteMessage, ∃ v, sd_to_value c = Ok v) →
  ∃ x' c v out s' m' n' bus' w', dx_response_handle ph inbound s w = (Ok (Some out), s', w') ∧
    msg_body (out_message out) = v ∧ out_to out = dxp_did p ∧
    dx_connection_service s' = mkConnService m' n' bus' ∧ m' !! cn_id x' = Some x' ∧ sd_from_value v = Ok c ∧
    dxc_thread_id c = dxq_thread_id q ∧ dxc_parent_thread_id c = Some i ∧
    cn_stands DxRequester DxCompleted x' ∧ cn_thread_id x' = dxq_thread_id q ∧ cn_out_of_band_id x' = i ∧ cn_did x' = did ∧
    cn_their_did x' = Some (dxp_did p) ∧ cn_their_authentication_key x' = Some (bs58_encode ed) ∧
    cn_their_key_agreement_key x' = Some (bs58_encode xk) ∧ cn_didcomm_version x' = Some "2".
Proof.
  intros Hs Hp Ho [[Hr Hst] Hro Hdid Hinv [Hth Hth'] Hauto _] Hthp Hpre Hatt Hkeys Hph Hep Hwrite. unfold dx_response_handle.
  rewrite Hp, (eff_bind_run (dx_lift _ (Ok p)) _ _ _ p s w eq_refl), Hpre, Hatt. cbv zeta. cbn [andb negb bool_decide].
  destruct (store_received_run (dxp_did p) None [] s w) as (rec & d' & w1 & Hstore & Hle1).
  assert (Hstore' : on_did_repository "Failed to store did:peer:2: " (store_received_did (dxp_did p) None []) s w = (Ok rec, dx_with_dids d' s, w1)).
  { revert Hstore. unfold on_did_repository, eff_zoom. by destruct (store_received_did _ _ _ _ _) as [[[]]]. }
  rewrite (eff_bind_run _ _ _ _ (Some (bs58_encode ed), Some (bs58_encode xk)) (dx_with_dids d' s) w1)
    by (rewrite bool_decide_eq_false_2 by (by intros []); cbn [negb]; rewrite (eff_bind_run _ _ _ _ _ _ _ Hstore'), Hkeys; reflexivity).
  cbv iota.
  destruct (answered_run m n bus w1 x p (Some (bs58_encode ed)) (Some (bs58_encode xk)) Ho Hr Hro) as (x1 & bus1 & w2 & Hr1 & Hle2 & Ho1 & t1 & t2 & Hx1);
    [congruence|done|].
  rewrite (eff_bind_run _ _ _ _ x1 (dx_with_connections (mkConnService (<[cn_id x1:=x1]> m) (S n) bus1) (dx_with_dids d' s)) w2)
    by (apply on_connections_run; by rewrite <-Hr1, <-Hs).
  rewrite bool_decide_eq_false_2 by (by intros []). cbn [negb]. cbv zeta. set (x2 := cn_with_version "2" x1).
  destruct (update_run (<[cn_id x1:=x1]> m) (S n) bus1 w2 x1 x2 Ho1 eq_refl eq_refl) as [Hr2 Ho2].
  rewrite (eff_bind_run _ _ _ _ x2 (dx_with_connections (mkConnService (<[cn_id x2:=x2]> (<[cn_id x1:=x1]> m)) (S (S n)) bus1) (dx_with_dids d' s)) w2)
    by (by rewrite (eff_bind_run _ _ _ _ tt _ _ (on_connections_run _ _ (dx_with_connections _ _) w2 _ _ _ Hr2))).
  set (m2 := <[cn_id x2:=x2]> _) in *. set (s2 := dx_with_connections _ _).
  rewrite (eff_bind_run _ _ _ _ x2 s2 w2) by (unfold prefer_mesh; by rewrite Hep).
  replace (cn_auto_accept_connection x2) with (None (A:=bool)) by (subst x2 x1; done). cbn [default from_option]. rewrite Hph.
  destruct (finish_run m2 (S (S n)) bus1 w2 x2 Ho2) as (x3 & c & bus3 & w3 & Hr3 & Hle3 & Ho3 & (t3 & Hx3) & Hct & Hcp); [by subst x2 x1..|].
  rewrite (eff_bind_run _ _ _ _ (x3, c) (dx_with_connections (mkConnService (<[cn_id x3:=x3]> m2) (S (S (S n))) bus3) s2) w3)
    by (by apply on_connections_run). cbv iota.
  destruct (Hwrite c) as [v Hv]. unfold dx_answer. rewrite Hv. exists x3, c, v. do 6 eexists. split; [reflexivity|].
  do 3 (split; [reflexivity|]). split; [apply Ho3|]. split; [by apply sd_value_back|]. rewrite Hct, Hcp. subst x3 x2 x1. split_and!; try done. cbn. congruence.
Qed.

Lemma complete_handled inbound (s : DX) m n bus w y c :
  dx_connection_service s = mkConnService m n bus → sd_from_value (msg_body (in_message inbound)) = Ok c →
  only_conn m y → cn_role y = DxResponder → cnt_role (cn_tags y) = DxResponder → conn_thread y = dxc_thread_id c → cn_state y = DxResponseSent →
  dxc_parent_thread_id c = Some (cn_out_of_band_id y) →
  ∃ y' s' m' n' bus' w', dx_complete_handle inbound s w = (Ok None, s', w') ∧ dx_connection_service s' = mkConnService m' n' bus' ∧
    dx_did_repository s' = dx_did_repository s ∧ dx_oob_repository s' = dx_oob_repository s ∧
    only_conn m' y' ∧ ∃ t, y' = cn_update_state DxCompleted t y.
Proof.
  intros Hs Hc Ho Hr Hro Ht Hst Hp. unfold dx_complete_handle. rewrite Hc, (eff_bind_run (dx_lift _ (Ok c)) _ _ _ c s w eq_refl).
  destruct (finished_run m n bus w y c Ho Hr Hro Ht Hst Hp) as (y' & bus' & w' & Hrun & Ho' & Hy').
  rewrite (eff_bind_run _ _ _ _ y' (dx_with_connections (mkConnService (<[cn_id y':=y']> m) (S n) bus') s) w')
    by (apply on_connections_run; by rewrite <-Hrun, <-Hs).
  exists y'. do 5 eexists. split; [reflexivity|]. by split_and!.
Qed.

(** A request that was answered is not answered again. *)
Lemma request_repeated rh inbound (s : DX) m n bus w y q r auth ka :
  dx_connection_service s = mkConnService m n bus → sd_from_value (msg_body (in_message inbound)) = Ok q → v2_request q r auth ka → invites s r →
  only_conn m y → cnt_role (cn_tags y) = DxResponder → conn_thread y = dxq_thread_id q → cn_state y ≠ DxRequestReceived →
  ∃ s' w', dx_request_handle rh inbound s w = (Ok None, s', w') ∧ dx_connection_service s' = dx_connection_service s.
Proof.
  intros Hs Hq Hv2 Hi Ho Hro Ht Hst. destruct (request_read rh inbound s w q r auth ka Hq Hv2 Hi) as (d' & w1 & _ & ->).
  rewrite (eff_bind_run _ _ _ _ y (dx_with_connections (mkConnService m n bus) (dx_with_dids d' s)) w1).
  - rewrite bool_decide_eq_false_2 by done. cbn [negb]. eexists _, w1. split; [reflexivity|]. by rewrite Hs.
  - apply on_connections_run. cbn [dx_connection_service dx_with_dids]. rewrite Hs. unfold cns_process_request.
    rewrite (eff_bind_run _ _ _ _ _ _ _ (under_run m n bus w1 _ _ (vq_parent _ _ _ _ Hv2))).
    rewrite (eff_bind_run _ _ _ _ (inr (Some y)) (mkConnService m n bus) w1); [done|].
    unfold eff_catch. by rewrite (find_conn_run m n bus w1 DxResponder (dxq_thread_id q) y Ho Hro Ht).
Qed.

(** ** From an accepted invitation to two connections *)

Definition at_requester {X} (c : dx X) : eff MessageHandlerError (DX * DX) X := eff_zoom fst (λ a s, (a, s.2)) id c.
Definition at_responder {X} (c : dx X) : eff MessageHandlerError (DX * DX) X := eff_zoom snd (λ b s, (s.1, b)) id c.
Lemma at_requester_run {X} (c : dx X) a b w r a' w' : c a w = (Ok r, a', w') → at_requester c (a, b) w = (Ok r, (a', b), w').
Proof. intros Hc. unfold at_requester, eff_zoom. cbn. by rewrite Hc. Qed.
Lemma at_responder_run {X} (c : dx X) a b w r b' w' : c b w = (Ok r, b', w') → at_responder c (a, b) w = (Ok r, (a, b'), w').
Proof. intros Hc. unfold at_responder, eff_zoom. cbn. by rewrite Hc. Qed.

(** The requester accepts the invitation with its DID; every message is delivered, with the
    given context, to the handler of the other side.  The result is the request. *)
Definition answered_with {A} (o : option A) : eff MessageHandlerError (DX * DX) A :=
  match o with Some a => mret a | None => eff_throw (MheOther "no answer") end.
Definition connect_agents (invitation : OutOfBandRecord) (our_did : string) (our_label : option string) (rh : DidExchangeRequestHandler)
    (ph : DidExchangeResponseHandler) (ctx : MessageContext) : eff MessageHandlerError (DX * DX) InboundMessage :=
  '(x, q) ← at_requester (on_connections "" (cns_create_request invitation our_did our_label));
  v ← at_requester (dx_lift ProcessingFailed (sd_to_value q));
  let request := mkInbound (msg_new (dxq_id q) (dxq_msg_type q) v) ctx in
  o ← at_responder (dx_request_handle rh request);
  response ← answered_with o;
  o ← at_requester (dx_response_handle ph (mkInbound (out_message response) ctx));
  complete ← answered_with o;
  _ ← at_responder (dx_complete_handle (mkInbound (out_message complete) ctx));
  mret request.

(** What the two records of a connection say of each other. *)
Record connected (did : string) (i : string) (auth ka : option string) (key : Key) (xk : string) x y : Prop := {
  cd_x : cn_stands DxRequester DxCompleted x;
  cd_y : cn_stands DxResponder DxCompleted y;
  cd_thread : cn_thread_id x = cn_thread_id y;
  cd_invitation : cn_out_of_band_id x = i ∧ cn_out_of_band_id y = i;
  cd_requester : cn_did x = did ∧ cn_their_did y = Some did ∧ cn_their_authentication_key y = auth ∧ cn_their_key_agreement_key y = ka;
  cd_responder : cn_their_did x = Some (cn_did y) ∧ cn_their_authentication_key x = Some (bs58_encode (key_public key)) ∧
    cn_their_key_agreement_key x = Some (bs58_encode xk) ∧ ed_montgomery (key_public key) = Some xk;
  cd_version : cn_didcomm_version x = Some "2" ∧ cn_didcomm_version y = Some "2"
}.

(** C28: A connection completes from end to end over DIDComm v2.  A requester accepts an invitation
    that the responder made, with a did:peer:2 of its own; the three messages go through the
    serializers to the handlers, which accept automatically.  Then both sides hold a completed
    connection, on one thread and for the invitation; each has the DID of the other; the
    responder has the keys that the requester's DID carries, and the requester those of the key
    that the responder's wallet made for this connection, which its new DID is stored with.
    The same request, delivered again, is not answered and changes no connection. *)
Theorem connection_completes ra rb did label rh ph ctx (sa sb : DX) ma na busa mb nb busb w ep eps auth ka :
  dx_connection_service sa = mkConnService ma na busa → dx_connection_service sb = mkConnService mb nb busb → fresh_conns ma w → fresh_conns mb w →
  ob_invitation ra = ob_invitation rb → invites sb rb → invitation_endpoints (ob_invitation rb) = ep :: eps →
  str_starts_with did "did:peer:2" = true → parse_peer2_verkeys (E:=MessageHandlerError) did = Ok (auth, ka) →
  rqh_auto_accept_connections rh = true → rph_auto_accept_connections ph = true → ctx_sender_endpoint ctx = None →
  makes_keys (dx_wallet_provider sb) → reads_documents →
  (∀ q : DidExchangeRequestMessage, ∃ v, sd_to_value q = Ok v) → (∀ p : DidExchangeResponseMessage, ∃ v, sd_to_value p = Ok v) →
  (∀ c : DidExchangeCompleteMessage, ∃ v, sd_to_value c = Ok v) →
  ∃ request x y key xk sa' sb' w', connect_agents ra did label rh ph ctx (sa, sb) w = (Ok request, (sa', sb'), w') ∧
    cns_repository (dx_connection_service sa') !! cn_id x = Some x ∧ cns_repository (dx_connection_service sb') !! cn_id y = Some y ∧
    connected did (inv_id (ob_invitation rb)) auth ka key xk x y ∧ owns_did sb' (cn_did y) key ∧
    ∀ w2, ∃ s' w3, dx_request_handle rh request sb' w2 = (Ok None, s', w3) ∧ dx_connection_service s' = dx_connection_service sb'.
Proof.
  intros Hsa Hsb Hfa Hfb Hinv Hi Hep Hdid Hkeys Hauto Hph Hctx Hkey Hread Hw1 Hw2 Hw3. unfold connect_agents.
  destruct (conn_ask_run ma na busa w ra did label Hfa) as (x & q & bus1 & w1 & Hr1 & Hle1 & Hox & Hask & k & Hk & Hth).
  rewrite (eff_bind_run _ _ _ _ (x, q) (dx_with_connections (mkConnService (<[cn_id x:=x]> ma) (S na) bus1) sa, sb) w1)
    by (apply at_requester_run, on_connections_run; by rewrite <-Hr1, <-Hsa). cbv iota.
  set (sa1 := dx_with_connections _ sa). destruct (Hw1 q) as [v Hv]. rewrite Hv.
  rewrite (eff_bind_run _ _ _ _ v (sa1, sb) w1) by (by apply at_requester_run). cbv zeta. set (request := mkInbound _ ctx).
  pose proof (sd_value_back q v Hv) as Hq. rewrite Hinv in Hask. pose proof (as_request _ _ _ _ Hask) as [Hqd Hqp].
  assert (Hv2 : v2_request q rb auth ka) by (constructor; by rewrite ?Hqd).
  destruct (request_handled rh request sb mb nb busb w1 q rb ep eps auth ka)
    as (y & p & vp & out & sb1 & mb1 & nb1 & bus2 & w2 & ed & xk & key & Hr2 & Hle2 & Hbody & Hto & Hsb1 & Hoy & Hy & Hp & Hresp & Hoob); try done.
  { by eapply fresh_for_later. }
  { intros i z Hz. rewrite Hth. by apply (proj2 (Hfb k Hk) i). }
  rewrite (eff_bind_run _ _ _ _ _ _ _ (at_responder_run _ sa1 sb w1 _ _ _ Hr2)). rewrite (eff_bind_run (answered_with (Some out)) _ _ _ out (sa1, sb1) w2 eq_refl).
  destruct Hresp as [Hst (Hpd & Hpa & Hpre) Hpt Hver (<- & Hxk & Hown & Hparse)].
  assert (Hthy : dxp_thread_id p = dxq_thread_id q) by (rewrite Hpt; apply Hy).
  destruct (response_handled ph (mkInbound (out_message out) ctx) sa1 (<[cn_id x:=x]> ma) (S na) bus1 w2 p x q did (inv_id (ob_invitation rb)) (key_public key) xk)
    as (x' & c & vc & out2 & sa2 & ma2 & na2 & bus3 & w3 & Hr3 & Hbody2 & Hto2 & Hsa2 & Hx' & Hc & Hct & Hcp & Hsx & Hxt & Hxi & Hxd & Hxtd & Hxa & Hxk' & Hxv);
    try done; [cbn; by rewrite Hbody|by rewrite Hpd..|].
  rewrite (eff_bind_run _ _ _ _ _ _ _ (at_requester_run _ sa1 sb1 w2 _ _ _ Hr3)). rewrite (eff_bind_run (answered_with (Some out2)) _ _ _ out2 (sa2, sb1) w3 eq_refl).
  pose proof Hy as [Hro Hrole Hyi [Hyt Hyt'] _ (Hytd & Hya & Hyk)].
  destruct (complete_handled (mkInbound (out_message out2) ctx) sb1 mb1 nb1 bus2 w3 y c)
    as (y' & sb2 & mb2 & nb2 & bus4 & w4 & Hr4 & Hsb2 & Hdids & Hoob2 & Hoy2 & t & Hy'); try done; [cbn; by rewrite Hbody2|congruence|by rewrite Hyi|].
  rewrite (eff_bind_run _ _ _ _ _ _ _ (at_responder_run _ sa2 sb1 w3 _ _ _ Hr4)).
  exists request, x', y', key, xk, sa2, sb2, w4. split; [reflexivity|]. split; [by rewrite Hsa2|]. split; [rewrite Hsb2; apply Hoy2|].
  subst y'. split; [|split].
  - constructor; cbn; try done; try (split_and?; congruence).
  - destruct Hown as (rec & ?). exists rec. cbn. by rewrite Hdids.
  - intros w5. apply (request_repeated rh request sb2 mb2 nb2 bus4 w5 (cn_update_state DxCompleted t y) q rb auth ka Hsb2 Hq Hv2); [|exact Hoy2|done|done|done].
    unfold invites. by rewrite Hoob2, Hoob.
Qed.
End agents.

(** * A concrete environment *)

(** The text of a message: the code of its fields. *)
#[local] Instance Thread_eq_dec : EqDecision Thread.
Proof. solve_decision. Defined.
#[local] Instance Thread_countable : Countable Thread.
Proof.
  apply (inj_countable' (λ t, (th_thid t, th_pthid t, th_sender_order t, th_received_orders t)) (λ '(a, b, c, d), mkThread a b c d)). by intros [].
Defined.
#[local] Instance Request_eq_dec : EqDecision DidExchangeRequestMessage.
Proof. solve_decision. Defined.
#[local] Instance Request_countable : Countable DidExchangeRequestMessage.
Proof.
  apply (inj_countable' (λ q, (dxq_msg_type q, dxq_id q, dxq_label q, dxq_did q, dxq_thread q, dxq_did_doc_attach q))
    (λ '(a, b, c, d, e, f), mkDxRequest a b c d e f)). by intros [].
Defined.
#[local] Instance Response_eq_dec : EqDecision DidExchangeResponseMessage.
Proof. solve_decision. Defined.
#[local] Instance Response_countable : Countable DidExchangeResponseMessage.
Proof.
  apply (inj_countable' (λ q, (dxp_msg_type q, dxp_id q, dxp_did q, dxp_thread q, dxp_did_doc_attach q, dxp_did_rotate_attach q))
    (λ '(a, b, c, d, e, f), mkDxResponse a b c d e f)). by intros [].
Defined.
#[local] Instance Complete_eq_dec : EqDecision DidExchangeCompleteMessage.
Proof. solve_decision. Defined.
#[local] Instance Complete_countable : Countable DidExchangeCompleteMessage.
Proof. apply (inj_countable' (λ q, (dxc_msg_type q, dxc_id q, dxc_thread q)) (λ '(a, b, c), mkDxComplete a b c)). by intros []. Defined.

Definition toy_bs58_error : Bs58Error := {| bs58_error s := "invalid base58: " +:+ s |}.

#[local] Existing Instances plain_order toy_uuid_text toy_bs58 toy_bs58_laws toy_bs58_error toy_curve toy_curve_laws letters_base64 letters_base64_chars
  toy_base64_std code_json code_json_members toy_sha256 toy_documents code_serde code_serde_laws toy_wallet.


(** The invitation with one inline service, its sender and its receiver. *)
Definition conn_invitation : OutOfBandInvitation :=
  mkInvitation "https://didcomm.org/out-of-band/1.1/invitation" "inv" (Some "Faber") None None None (Some ["didexchange"]) None
    [SvInline (ins_new "#inline-0" ["did:key:z6"] [] "https://faber")] None.
Definition conn_sent : OutOfBandRecord := (ob_new conn_invitation ObSender world0).1.
Definition conn_received : OutOfBandRecord := (ob_new conn_invitation ObReceiver world0).1.

(** The requester's DID, made from a key of its own. *)
Definition conn_did : string := peer2_did (toy_public 7) (toy_public 7) (json_print (peer2_service_json false "https://alice" [] ["didcomm/v2"])).
Definition conn_agent (invitations : list OutOfBandRecord) : DidExchange (gmap string ConnectionRecord) nat :=
  mkDidExchange (cns_with_event_bus (cns_new ∅)) (list_to_map ((λ r, (ob_id r, r)) <$> invitations)) drp_new 1 None None [].
Definition conn_requester := conn_agent [conn_received].
Definition conn_responder := conn_agent [conn_sent].
Definition conn_rh : DidExchangeRequestHandler := mkRequestHandler true "did:faber".
Definition conn_ph : DidExchangeResponseHandler := mkResponseHandler true.
Definition conn_context : MessageContext := mkContext None None None None None true true None None.

Lemma toy_makes_keys : makes_keys (WT:=nat) 1.
Proof. intros w. do 3 eexists. split; [reflexivity|]. split; [split; [done|cbn; lia]|by eexists]. Qed.
Lemma toy_reads_documents : reads_documents.
Proof.
  intros ed ep rks did doc. unfold create_peer_did_2_with_service. destruct (to_x25519 _ _ ed); [|done..].
  intros [= <- <-]. by eexists.
Qed.
Lemma no_conns w : fresh_conns ∅ w.
Proof. by intros n _. Qed.

(** The two agents of [connection_completes], and what it says of them. *)
Definition conn_auth : option string := Some (bs58_encode (toy_public 7)).

Theorem connection_completes_witness :
  ∃ request x y key xk sa' sb' w',
    connect_agents conn_received conn_did (Some "Alice") conn_rh conn_ph conn_context (conn_requester, conn_responder) world0 = (Ok request, (sa', sb'), w') ∧
    cns_repository (dx_connection_service sa') !! cn_id x = Some x ∧ cns_repository (dx_connection_service sb') !! cn_id y = Some y ∧
    connected conn_did "inv" conn_auth conn_auth key xk x y ∧ owns_did sb' (cn_did y) key ∧
    ∀ w2, ∃ s' w3, dx_request_handle conn_rh request sb' w2 = (Ok None, s', w3) ∧ dx_connection_service s' = dx_connection_service sb'.
Proof.
  apply (connection_completes conn_received conn_sent conn_did (Some "Alice") conn_rh conn_ph conn_context conn_requester conn_responder
    ∅ 0 (Some []) ∅ 0 (Some []) world0 "https://faber" [] conn_auth conn_auth).
  - reflexivity.
  - reflexivity.
  - apply no_conns.
  - apply no_conns.
  - reflexivity.
  - vm_compute; reflexivity.
  - reflexivity.
  - vm_compute; reflexivity.
  - vm_compute; reflexivity.
  - reflexivity.
  - reflexivity.
  - reflexivity.
  - apply toy_makes_keys.
  - apply toy_reads_documents.
  - intros q. by eexists.
  - intros q. by eexists.
  - intros q. by eexists.
Defined.

(** ** The runs of one agent *)

(** A request over DIDComm v2, and the complete that ends it. *)
Definition conn_request_message (id label : string) : DidExchangeRequestMessage :=
  mkDxRequest DX_REQUEST_TYPE id label conn_did (mkThread (Some id) (Some "inv") None None) None.
Definition as_inbound {A} `{Serde A} (id type : string) (a : A) : InboundMessage :=
  mkInbound (msg_new id type (match sd_to_value a with Ok v => v | _ => JNull end)) conn_context.
Definition run_asks (id : string) : dx_call := DcRequest conn_rh (as_inbound id DX_REQUEST_TYPE (conn_request_message id "Alice")).
Definition run_complete (id : string) : dx_call :=
  DcComplete (as_inbound "c" DX_COMPLETE_TYPE (mkDxComplete DX_COMPLETE_TYPE "c" (mkThread (Some id) (Some "inv") None None))).

Definition conn_run_of (calls : list dx_call) : DidExchange (gmap string ConnectionRecord) nat := (dx_run calls conn_responder world0).1.
(** State, thread and partner of the records. *)
Definition conn_view (s : DidExchange (gmap string ConnectionRecord) nat) : list (DidExchangeState * string * bool) :=
  (λ x, (cn_state x, cn_thread_id x, bool_decide (cn_their_did x = Some conn_did))) <$> repo_record_values (cns_repository (dx_connection_service s)).

Definition run_one : list dx_call := [run_asks "t1"; run_complete "t1"].
Definition run_more : list dx_call := [run_asks "t2"; run_asks "t1"; run_complete "t1"; DcRespond "1"].
Lemma responder_ok : rs_ok conn_responder.
Proof. by intros i x. Qed.

Theorem connection_provenance_witness :
  ∃ x, rs_view (conn_run_of run_one) "1" = Some x ∧ cn_state x = DxCompleted ∧ cn_their_did x = Some conn_did ∧
    responder_wf (dx_oob_repository conn_responder) (heard_by run_one) x ∧ heard_complete (heard_by run_one) "t1" "inv".
Proof.
  destruct (rs_view (conn_run_of run_one) "1") as [x|] eqn:Hx; [|vm_compute in Hx; discriminate]. exists x.
  assert (Hv : (cn_state x, cn_role x, cn_their_did x, (cn_thread_id x, cn_out_of_band_id x)) = (DxCompleted, DxResponder, Some conn_did, ("t1", "inv"))).
  { vm_compute in Hx. injection Hx as <-. vm_compute. reflexivity. }
  injection Hv as Hst Hro Htd Hth Hob.
  pose proof (connection_provenance run_one conn_responder world0 "1" x responder_ok (λ i, eq_refl) Hx) as [_ Hwf]. rewrite Hro in Hwf.
  split; [reflexivity|]. split; [exact Hst|]. split; [exact Htd|]. split; [exact Hwf|].
  rewrite <-Hth, <-Hob. by apply (rw_complete _ _ _ Hwf).
Defined.

(** The host then writes metadata. *)
Definition run_writes : list dx_call := run_more ++ [DcUpdateMetadata "1" (JObject [("height", JString "7")])].
Theorem connection_settles_witness :
  ∃ x y, rs_view (conn_run_of run_one) "1" = Some x ∧ cn_state x = DxCompleted ∧
    rs_view (dx_run run_more (conn_run_of run_one) world0).1 "1" = Some x ∧
    rs_view (dx_run run_writes (conn_run_of run_one) world0).1 "1" = Some y ∧
    y = cn_touch (cn_updated_at y) (cn_with_metadata (cn_metadata y) x) ∧ is_Some (cn_metadata y).
Proof.
  destruct (rs_view (conn_run_of run_one) "1") as [x|] eqn:Hx; [|vm_compute in Hx; discriminate].
  assert (Hst : cn_state x = DxCompleted) by (vm_compute in Hx; injection Hx as <-; vm_compute; reflexivity).
  destruct (dx_run_path (dx_oob_repository conn_responder) (heard_by run_one) (λ _, True) (λ _, True) run_one conn_responder world0) as [Hok Hp];
    [reflexivity|done|done|by right|apply responder_ok|by intros i y Hy|].
  assert (Htag : all_tagged (rs_view (conn_run_of run_one))).
  { intros i y Hy. eapply (change_path_invariant _ _ _ cn_tagged); [| |apply (Hp i)| |exact Hy]; [by intros ? []|apply cn_step_tagged|by intros z Hz]. }
  destruct (connection_settles run_more (conn_run_of run_one) world0 "1" x Hok Htag) as (y & Hy & _ & _ & _ & _ & _ & _ & Hd).
  { by repeat constructor. } { exact Hx. }
  destruct (connection_settles run_writes (conn_run_of run_one) world0 "1" x Hok Htag) as (z & Hz & _ & _ & _ & _ & _ & Hm & _).
  { by repeat constructor. } { exact Hx. }
  exists x, z. split; [reflexivity|]. split; [exact Hst|]. split; [rewrite <-(Hd Hst); [exact Hy|]|].
  - intros c Hc. revert c Hc. apply Forall_forall. by repeat constructor.
  - split; [exact Hz|]. split; [exact (Hm Hst)|]. vm_compute in Hz. injection Hz as <-. by eexists.
Defined.

(** ** Where the code falls short *)

(** A single-use invitation that is done takes another connection. *)
Definition conn_used : DidExchange (gmap string ConnectionRecord) nat := conn_agent [ob_with_state ObDone conn_sent].
Example spent_invitation_connects :
  conn_view (dx_run [run_asks "t1"; run_asks "t2"] conn_used world0).1 = [(DxResponseSent, "t2", true); (DxResponseSent, "t1", true)].
Proof. vm_compute. reflexivity. Qed.

(** The DID that the handler gives a connection does not reach the tag that connections are
    found by. *)
Example own_did_not_found :
  let s := conn_run_of [run_asks "t1"] in
  match rs_view s "1" with
  | Some x => str_starts_with (cn_did x) "did:peer:2" = true ∧
              (on_records (T:=ConnectionService (gmap string ConnectionRecord)) (cn_find_by_did (cn_did x)) (dx_connection_service s) world0).1.1 = Ok []
  | None => False
  end.
Proof. vm_compute. by split. Qed.

(** Whoever repeats the thread of a request is taken for its sender: no connection is made and
    nothing is answered. *)
Definition run_other : InboundMessage :=
  as_inbound "t1" DX_REQUEST_TYPE (mkDxRequest DX_REQUEST_TYPE "t1" "Mallory"
    (peer2_did (toy_public 8) (toy_public 8) (json_print (peer2_service_json false "https://mallory" [] ["didcomm/v2"])))
    (mkThread (Some "t1") (Some "inv") None None) None).
Example other_requester_ignored :
  conn_view (conn_run_of [DcRequest conn_rh run_other; run_asks "t1"]) = [(DxResponseSent, "t1", false)].
Proof. vm_compute. reflexivity. Qed.
