(* ===== verification/Keylists.v ===== *)
(** The repositories of keylist records
    ([src/protocols/coordinate_mediation/src/repository/keylist_repository.rs] and
    [storage_backed_keylist_repository.rs]): the trait, the in-memory repository, the
    storage-backed one with its cache and its index by recipient key, and the laws that the
    services rely on, proved of both.

    A [HashMap] is a map with an order of iteration ([map_iter]).  Every method of the
    storage-backed repository is one step. *)
From S2P Require Import Prelude AjnaTypes SerdeJson Storage AnonCreds RecordRepo Mediation QueueRepo.

(** [src/protocols/coordinate_mediation/src/repository/keylist_repository.rs:9-42] KeylistRepositoryTrait *)
Class KeylistRepo (KS : Type) := {
  kr_save : KeylistRecord → eff MediationError KS unit;
  kr_find_by_mediation_id : string → eff MediationError KS (list KeylistRecord);
  kr_find_by_recipient_key : string → string → eff MediationError KS (option KeylistRecord);
  kr_delete_by_recipient_key : string → string → eff MediationError KS unit;
  kr_delete_by_mediation_id : string → eff MediationError KS unit;
  kr_get_all : eff MediationError KS (list KeylistRecord);
  kr_find_mediation_for_recipient_key : string → eff MediationError KS (option KeylistRecord)
}.

(** A record of a mediation and a key; of a key. *)
Definition kl_is (mediation_id recipient_key : string) (r : KeylistRecord) : Prop :=
  kl_mediation_id r = mediation_id ∧ kl_recipient_key r = recipient_key.
#[export] Instance kl_is_dec m k r : Decision (kl_is m k r) := _.

(** * In memory *)

Section memory.
Context `{HashOrder}.
Abbreviation Keylist := (gmap string KeylistRecord).

(** [src/protocols/coordinate_mediation/src/repository/keylist_repository.rs:65-69] KeylistRepository::save *)
Definition mk_save (record : KeylistRecord) : eff MediationError Keylist unit := eff_modify <[kl_id record := record]>.

(** [src/protocols/coordinate_mediation/src/repository/keylist_repository.rs:71-78] KeylistRepository::find_by_mediation_id *)
Definition mk_find_by_mediation_id (mediation_id : string) : eff MediationError Keylist (list KeylistRecord) :=
  eff_gets (λ m, filter (λ r, kl_mediation_id r = mediation_id) (repo_record_values m)).

(** [src/protocols/coordinate_mediation/src/repository/keylist_repository.rs:80-90] KeylistRepository::find_by_recipient_key *)
Definition mk_find_by_recipient_key (mediation_id recipient_key : string) : eff MediationError Keylist (option KeylistRecord) :=
  eff_gets (λ m, find_first (kl_is mediation_id recipient_key) (repo_record_values m)).

(** [src/protocols/coordinate_mediation/src/repository/keylist_repository.rs:92-97] KeylistRepository::delete_by_recipient_key *)
Definition mk_delete_by_recipient_key (mediation_id recipient_key : string) : eff MediationError Keylist unit :=
  eff_modify (filter (λ kv, ¬ kl_is mediation_id recipient_key kv.2)).

(** [src/protocols/coordinate_mediation/src/repository/keylist_repository.rs:99-103] KeylistRepository::delete_by_mediation_id *)
Definition mk_delete_by_mediation_id (mediation_id : string) : eff MediationError Keylist unit :=
  eff_modify (filter (λ kv, kl_mediation_id kv.2 ≠ mediation_id)).

(** [src/protocols/coordinate_mediation/src/repository/keylist_repository.rs:105-108] KeylistRepository::get_all *)
Definition mk_get_all : eff MediationError Keylist (list KeylistRecord) := eff_gets repo_record_values.

(** [src/protocols/coordinate_mediation/src/repository/keylist_repository.rs:34-41] KeylistRepositoryTrait::find_mediation_for_recipient_key (the provided body) *)
Definition mk_find_mediation_for_recipient_key (recipient_key : string) : eff MediationError Keylist (option KeylistRecord) :=
  all ← mk_get_all;
  mret (find_first (λ r, kl_recipient_key r = recipient_key) all).

#[export] Instance memory_keylist : KeylistRepo Keylist := {|
  kr_save := mk_save; kr_find_by_mediation_id := mk_find_by_mediation_id; kr_find_by_recipient_key := mk_find_by_recipient_key;
  kr_delete_by_recipient_key := mk_delete_by_recipient_key; kr_delete_by_mediation_id := mk_delete_by_mediation_id;
  kr_get_all := mk_get_all; kr_find_mediation_for_recipient_key := mk_find_mediation_for_recipient_key
|}.
End memory.

(** * Over a storage provider *)

(** [src/protocols/coordinate_mediation/src/repository/storage_backed_keylist_repository.rs:16-16] KEYLIST_CATEGORY *)
Definition KEYLIST_CATEGORY : string := "keylist".

(** [src/protocols/coordinate_mediation/src/repository/storage_backed_keylist_repository.rs:25-32] StorageBackedKeylistRepository *)
Record StorageKeylist (ST : Type) := mkStorageKeylist {
  sk_storage : ST;
  sk_cache : option (gmap string KeylistRecord);
  sk_by_recipient_key : gmap string string
}.
Arguments mkStorageKeylist {ST}.
Arguments sk_storage {ST}.
Arguments sk_cache {ST}.
Arguments sk_by_recipient_key {ST}.

(** The kind of a keylist record; a repository of them never refuses one because it is or is not there. *)
#[export] Instance keylist_kind `{Serde KeylistRecord} : RecordKind KeylistRecord MediationError := {|
  rk_key := {| rk_id := kl_id; rk_already := MeAlreadyExists; rk_not_found := MeNotFound |};
  rk_category := KEYLIST_CATEGORY;
  rk_tags r := <["mediation_id" := kl_mediation_id r]> {["recipient_key" := kl_recipient_key r]};
  rk_encode r := match sd_to_text r with
                 | Ok s => Ok s
                 | Err e => Err (MeStorage ("Failed to serialize keylist record: " +:+ e))
                 | Panic => Panic
                 end;
  rk_decode s := match sd_from_text s with Ok r => Some r | _ => None end;
  rk_load_failed e := MeStorage ("Failed to load keylist records: " +:+ ag_to_string e);
  rk_save_failed e := MeStorage ("Failed to store keylist record: " +:+ ag_to_string e);
  rk_update_failed e := MeStorage (ag_to_string e);
  rk_delete_failed e := MeStorage ("Failed to delete keylist record: " +:+ ag_to_string e)
|}.
#[export] Instance keylist_kind_laws `{JsonText} `{Serde KeylistRecord} `{!SerdeLaws KeylistRecord} :
  RecordKindLaws KeylistRecord MediationError.
Proof.
  apply exact_kind_laws. intros x v Hv. cbn in *. destruct (sd_to_text x) as [s| |] eqn:Hs; try done. injection Hv as ->.
  by rewrite (sd_text_back _ _ Hs).
Defined.

Section backed.
Context `{HashOrder} `{Serde KeylistRecord} {ST : Type} `{StorageProvider ST}.
Abbreviation SK := (StorageKeylist ST).
Abbreviation sk := (eff MediationError SK).

(** [src/protocols/coordinate_mediation/src/repository/storage_backed_keylist_repository.rs:36-42] StorageBackedKeylistRepository::new *)
Definition sk_new (storage : ST) : SK := mkStorageKeylist storage None ∅.

Definition sk_on_storage {A} (what : string) (m : eff AgentError ST A) : sk A :=
  eff_zoom sk_storage (λ st s, mkStorageKeylist st (sk_cache s) (sk_by_recipient_key s)) (λ e, MeStorage (what +:+ ag_to_string e)) m.

(** The index of a cache. *)
Definition sk_index (m : gmap string KeylistRecord) : gmap string string :=
  foldl (λ idx kv, <[kl_recipient_key kv.2 := kv.1]> idx) ∅ (map_iter m).

(** [src/protocols/coordinate_mediation/src/repository/storage_backed_keylist_repository.rs:45-90] StorageBackedKeylistRepository::ensure_cache *)
Definition sk_ensure_cache : sk unit :=
  s ← eff_get;
  match sk_cache s with
  | Some _ => mret tt
  | None =>
      records ← sk_on_storage "Failed to load keylist records: " (st_find_all KEYLIST_CATEGORY q_new);
      let map := sb_load records in
      eff_modify (λ s, mkStorageKeylist (sk_storage s) (Some map) (sk_index map))
  end.

(** The cache, which is there after a load ([unwrap]). *)
Definition sk_with_cache {A} (f : gmap string KeylistRecord → A) : sk A :=
  _ ← sk_ensure_cache;
  s ← eff_get;
  match sk_cache s with Some m => mret (f m) | None => eff_lift Panic end.
Definition sk_modify_cache (f : gmap string KeylistRecord → gmap string KeylistRecord) : sk unit :=
  eff_modify (λ s, mkStorageKeylist (sk_storage s) (f <$> sk_cache s) (sk_by_recipient_key s)).

(** [src/protocols/coordinate_mediation/src/repository/storage_backed_keylist_repository.rs:93-109] StorageBackedKeylistRepository::persist *)
Definition sk_persist (record : KeylistRecord) : sk unit :=
  storage_record ← eff_lift (sb_to_storage_record record);
  sk_on_storage "Failed to store keylist record: " (st_save storage_record).

(** [src/protocols/coordinate_mediation/src/repository/storage_backed_keylist_repository.rs:112-120] StorageBackedKeylistRepository::delete_from_storage *)
Definition sk_delete_from_storage (id : string) : sk unit :=
  sk_on_storage "Failed to delete keylist record: " (st_delete KEYLIST_CATEGORY id).

(** [src/protocols/coordinate_mediation/src/repository/storage_backed_keylist_repository.rs:125-140] StorageBackedKeylistRepository::save *)
Definition sk_save (record : KeylistRecord) : sk unit :=
  _ ← sk_ensure_cache;
  _ ← sk_persist record;
  eff_modify (λ s, mkStorageKeylist (sk_storage s) (<[kl_id record := record]> <$> sk_cache s)
                     (<[kl_recipient_key record := kl_id record]> (sk_by_recipient_key s))).

(** [src/protocols/coordinate_mediation/src/repository/storage_backed_keylist_repository.rs:142-152] StorageBackedKeylistRepository::find_by_mediation_id *)
Definition sk_find_by_mediation_id (mediation_id : string) : sk (list KeylistRecord) :=
  sk_with_cache (λ m, filter (λ r, kl_mediation_id r = mediation_id) (repo_record_values m)).

(** [src/protocols/coordinate_mediation/src/repository/storage_backed_keylist_repository.rs:154-167] StorageBackedKeylistRepository::find_by_recipient_key *)
Definition sk_find_by_recipient_key (mediation_id recipient_key : string) : sk (option KeylistRecord) :=
  sk_with_cache (λ m, find_first (kl_is mediation_id recipient_key) (repo_record_values m)).

(** [src/protocols/coordinate_mediation/src/repository/storage_backed_keylist_repository.rs:169-194] StorageBackedKeylistRepository::delete_by_recipient_key *)
Definition sk_delete_by_recipient_key (mediation_id recipient_key : string) : sk unit :=
  found ← sk_find_by_recipient_key mediation_id recipient_key;
  match found with
  | Some r => _ ← sk_delete_from_storage (kl_id r); sk_modify_cache (delete (kl_id r))
  | None => mret tt
  end.

(** [src/protocols/coordinate_mediation/src/repository/storage_backed_keylist_repository.rs:196-224] StorageBackedKeylistRepository::delete_by_mediation_id *)
Definition sk_delete_by_mediation_id (mediation_id : string) : sk unit :=
  ids_to_delete ← sk_with_cache (λ m, kl_id <$> filter (λ r, kl_mediation_id r = mediation_id) (repo_record_values m));
  _ ← each sk_delete_from_storage ids_to_delete;
  sk_modify_cache (λ m, foldl (λ m id, delete id m) m ids_to_delete).

(** [src/protocols/coordinate_mediation/src/repository/storage_backed_keylist_repository.rs:226-230] StorageBackedKeylistRepository::get_all *)
Definition sk_get_all : sk (list KeylistRecord) := sk_with_cache repo_record_values.

(** [src/protocols/coordinate_mediation/src/repository/storage_backed_keylist_repository.rs:232-276] StorageBackedKeylistRepository::find_mediation_for_recipient_key *)
Definition sk_find_mediation_for_recipient_key (recipient_key : string) : sk (option KeylistRecord) :=
  _ ← sk_ensure_cache;
  s ← eff_get;
  match (id ← sk_by_recipient_key s !! recipient_key; m ← sk_cache s; m !! id) with
  | Some record => mret (Some record)
  | None =>
      records ← sk_on_storage "Failed to query keylist by recipient key: "
                  (st_find_all KEYLIST_CATEGORY (q_with_tag q_new "recipient_key" recipient_key));
      match head records with
      | Some record =>
          match sd_from_text (rec_value record) with
          | Ok kl_record =>
              _ ← sk_modify_cache <[kl_id kl_record := kl_record]>;
              mret (Some kl_record)
          | Err e => eff_throw (MeStorage ("Failed to deserialize: " +:+ e))
          | Panic => eff_lift Panic
          end
      | None => mret None
      end
  end.

#[export] Instance storage_keylist : KeylistRepo SK := {|
  kr_save := sk_save; kr_find_by_mediation_id := sk_find_by_mediation_id; kr_find_by_recipient_key := sk_find_by_recipient_key;
  kr_delete_by_recipient_key := sk_delete_by_recipient_key; kr_delete_by_mediation_id := sk_delete_by_mediation_id;
  kr_get_all := sk_get_all; kr_find_mediation_for_recipient_key := sk_find_mediation_for_recipient_key
|}.
End backed.

(** * What the services rely on *)

(** A call that changes nothing that is seen, and comes across no new id. *)
Definition kr_keeps {KS} (ok : KS → Prop) (view : KS → string → option KeylistRecord) (used : KS → string → Prop) (s s' : KS) : Prop :=
  ok s' ∧ (∀ id, view s' id = view s id) ∧ ∀ id, used s' id → used s id.

Class KeylistLaws (KS : Type) `{KeylistRepo KS} := {
  kr_ok : KS → Prop;
  kr_view : KS → string → option KeylistRecord;
  kr_used : KS → string → Prop;
  kr_keyed s id x : kr_ok s → kr_view s id = Some x → kl_id x = id;
  kr_view_used s id : kr_ok s → is_Some (kr_view s id) → kr_used s id;
  kr_save_law x s w : kr_ok s → ¬ kr_used s (kl_id x) →
    match kr_save x s w with
    | (Ok _, s', _) => kr_ok s' ∧ (∀ id, kr_view s' id = if decide (id = kl_id x) then Some x else kr_view s id) ∧
        ∀ id, kr_used s' id → id = kl_id x ∨ kr_used s id
    | (_, s', _) => kr_keeps kr_ok kr_view kr_used s s'
    end;
  kr_delete_law m k s w : kr_ok s →
    match kr_delete_by_recipient_key m k s w with
    | (Ok _, s', _) => kr_ok s' ∧
        (∀ id, kr_view s' id = kr_view s id ∨ kr_view s' id = None ∧ ∃ x, kr_view s id = Some x ∧ kl_is m k x) ∧
        ((∀ i j x y, kr_view s i = Some x → kr_view s j = Some y → kl_is m k x → kl_is m k y → i = j) →
          ∀ id x, kr_view s' id = Some x → ¬ kl_is m k x) ∧
        ∀ id, kr_used s' id → kr_used s id
    | (_, s', _) => kr_keeps kr_ok kr_view kr_used s s'
    end;
  kr_find_law m k s w : kr_ok s →
    match kr_find_by_recipient_key m k s w with
    | (Ok o, s', _) => kr_keeps kr_ok kr_view kr_used s s' ∧
        match o with
        | Some x => kl_is m k x ∧ kr_view s (kl_id x) = Some x
        | None => ∀ id x, kr_view s id = Some x → ¬ kl_is m k x
        end
    | (_, s', _) => kr_keeps kr_ok kr_view kr_used s s'
    end;
  kr_all_law s w : kr_ok s →
    match kr_get_all s w with
    | (Ok l, s', _) => kr_keeps kr_ok kr_view kr_used s s' ∧ ∀ x, x ∈ l ↔ ∃ id, kr_view s id = Some x
    | (_, s', _) => kr_keeps kr_ok kr_view kr_used s s'
    end;
  kr_route_law k s w : kr_ok s →
    match kr_find_mediation_for_recipient_key k s w with
    | (Ok o, s', _) => kr_keeps kr_ok kr_view kr_used s s' ∧
        match o with
        | Some x => kl_recipient_key x = k ∧ kr_view s (kl_id x) = Some x
        | None => ∀ id x, kr_view s id = Some x → kl_recipient_key x ≠ k
        end
    | (_, s', _) => kr_keeps kr_ok kr_view kr_used s s'
    end
}.

Section memory_laws.
Context `{HashOrder} `{Serde KeylistRecord}.

Lemma first_in_values (P : KeylistRecord → Prop) `{∀ x, Decision (P x)} (m : gmap string KeylistRecord) :
  match find_first P (repo_record_values m) with
  | Some x => P x ∧ ∃ id, m !! id = Some x
  | None => ∀ id x, m !! id = Some x → ¬ P x
  end.
Proof.
  destruct (find_first P _) as [x|] eqn:Hf.
  - apply find_first_Some in Hf as [Hx Hp]. split; [done|]. by apply elem_of_repo_records.
  - rewrite find_first_None in Hf. intros id x Hx. apply Hf, elem_of_repo_records. eauto.
Qed.

#[export] Instance memory_keylist_laws : KeylistLaws (gmap string KeylistRecord).
Proof.
  refine {| kr_ok := records_keyed (E:=MediationError); kr_view m id := m !! id; kr_used m id := is_Some (m !! id) |}.
  - intros s id x Hs Hx. by apply Hs.
  - done.
  - intros x s w Hs _. cbn. assert (Hv : ∀ id, <[kl_id x := x]> s !! id = if decide (id = kl_id x) then Some x else s !! id).
    { intros id. case_decide; [subst; by rewrite lookup_insert_eq|by rewrite lookup_insert_ne]. }
    split; [exact (records_keyed_insert (E:=MediationError) s x Hs)|]. split; [exact Hv|]. intros id. rewrite Hv. case_decide; [by left|by right].
  - intros m k s w Hs. cbn. split_and!.
    + intros id x [Hx _]%map_lookup_filter_Some. by apply Hs.
    + intros id. destruct (s !! id) as [x|] eqn:Hx.
      * destruct (decide (kl_is m k x)) as [Hi|Hi].
        -- right. split; [|by exists x]. apply map_lookup_filter_None. right. intros y Hy. assert (y = x) as -> by congruence. cbn. tauto.
        -- left. by apply map_lookup_filter_Some.
      * left. apply map_lookup_filter_None. by left.
    + intros _ id x [_ Hx]%map_lookup_filter_Some. done.
    + intros id [x [Hx _]%map_lookup_filter_Some]. eauto.
  - intros m k s w Hs. cbn. split; [done|]. pose proof (first_in_values (kl_is m k) s) as Hf.
    destruct (find_first _ _) as [x|]; [|done]. destruct Hf as (Hi & id & Hx). split; [done|]. by rewrite (Hs id x Hx : kl_id x = id).
  - intros s w Hs. cbn. split; [done|]. intros x. apply elem_of_repo_records.
  - intros k s w Hs. cbn. split; [done|]. pose proof (first_in_values (λ r, kl_recipient_key r = k) s) as Hf.
    destruct (find_first _ _) as [x|]; [|done]. destruct Hf as (Hi & id & Hx). split; [done|]. by rewrite (Hs id x Hx : kl_id x = id).
Defined.
End memory_laws.

Section backed_laws.
Context `{HashOrder} `{JsonText} `{Serde KeylistRecord} `{!SerdeLaws KeylistRecord} {ST : Type} `{StorageLaws ST}.
Abbreviation SK := (StorageKeylist ST).
Abbreviation kept := (stored (R:=KeylistRecord) (E:=MediationError)).
Implicit Types (s : SK) (st : ST).

(** Every readable record is stored under its id and tagged with its key; a loaded cache
    mirrors the storage; the index names records of its keys, or records that are gone. *)
Record sk_ok s : Prop := {
  sko_keyed id x : kept (sk_storage s) id = Some x → kl_id x = id;
  sko_tags id r x : st_view (sk_storage s) KEYLIST_CATEGORY id = Some r → rk_decode (E:=MediationError) (rec_value r) = Some x →
    rec_tags r !! "recipient_key" = Some (kl_recipient_key x);
  sko_cache m : sk_cache s = Some m → ∀ id, m !! id = kept (sk_storage s) id;
  sko_index m k id x : sk_cache s = Some m → sk_by_recipient_key s !! k = Some id → m !! id = Some x → kl_recipient_key x = k
}.
Definition sk_view s (id : string) : option KeylistRecord := kept (sk_storage s) id.
Definition sk_used s (id : string) : Prop := is_Some (sk_view s id) ∨ ∃ k, sk_by_recipient_key s !! k = Some id.
Abbreviation sk_keeps := (kr_keeps sk_ok sk_view sk_used).
Lemma sk_keeps_refl s : sk_ok s → sk_keeps s s.
Proof. split; [done|]; by split. Qed.
Lemma sk_keeps_trans s s1 s2 : sk_keeps s s1 → sk_keeps s1 s2 → sk_keeps s s2.
Proof. intros (_ & Hv1 & Hu1) (Hok & Hv2 & Hu2). split; [done|]. split; [intros id; by rewrite Hv2|]. intros id Hid. by apply Hu1, Hu2. Qed.

Lemma kept_same st st' : (∀ c n, st_view st' c n = st_view st c n) → ∀ id, kept st' id = kept st id.
Proof. intros Hv id. unfold stored. by rewrite Hv. Qed.

(** A storage call that changes nothing. *)
Lemma sk_same_keeps s st' :
  sk_ok s → (∀ c n, st_view st' c n = st_view (sk_storage s) c n) →
  sk_keeps s (mkStorageKeylist st' (sk_cache s) (sk_by_recipient_key s)).
Proof.
  intros [Hk Ht Hc Hi] Hv. pose proof (kept_same _ _ Hv) as Hs.
  split; [|split; [exact Hs|intros id [Hid|Hid]; [left; unfold sk_view in *; by rewrite <-Hs|by right]]]. split; cbn.
  - intros id x. rewrite Hs. apply Hk.
  - intros id r x. rewrite Hv. apply Ht.
  - intros m Hm id. rewrite Hs. by apply Hc.
  - done.
Qed.

Lemma sk_index_lookup (m : gmap string KeylistRecord) k id : sk_index m !! k = Some id → ∃ x, m !! id = Some x ∧ kl_recipient_key x = k.
Proof.
  unfold sk_index. assert (Hgen : ∀ l acc, (foldl (λ idx kv, <[kl_recipient_key kv.2 := kv.1]> idx) acc l : gmap string string) !! k = Some id →
    acc !! k = Some id ∨ ∃ kv, kv ∈ l ∧ kv.1 = id ∧ kl_recipient_key kv.2 = k).
  { induction l as [|kv l IH]; cbn; intros acc Hk; [by left|]. destruct (IH _ Hk) as [Hin|(kv' & Hkv & Hrest)].
    - apply lookup_insert_Some in Hin as [[<- <-]|[_ Hin]]; [right; exists kv; split; [by left|done]|by left].
    - right. exists kv'. split; [by right|done]. }
  intros Hk. destruct (Hgen _ _ Hk) as [Hin|([i x] & Hkv & <- & Hx)]; [by rewrite lookup_empty in Hin|].
  exists x. split; [by apply elem_of_map_iter|done].
Qed.

Lemma sk_ensure_spec s w :
  sk_ok s →
  match sk_ensure_cache s w with
  | (Ok _, s', _) => is_Some (sk_cache s') ∧ sk_keeps s s'
  | (_, s', _) => sk_keeps s s'
  end.
Proof.
  intros Hs. unfold sk_ensure_cache, mbind, eff_bind, eff_get. destruct (sk_cache s) as [m|] eqn:Hc; [split; [rewrite Hc; eauto|by apply sk_keeps_refl]|].
  unfold sk_on_storage, eff_zoom. pose proof (st_find_all_law KEYLIST_CATEGORY q_new (sk_storage s) w) as Hf.
  destruct (st_find_all KEYLIST_CATEGORY q_new (sk_storage s) w) as [[[l|e|] st'] w']; [|by apply sk_same_keeps..].
  destruct Hf as (Hin & Hall & Hv). destruct (sk_same_keeps s st' Hs Hv) as ([Hk Ht _ _] & Hview & _). cbn in Hk, Ht. split; [cbn; eauto|].
  assert (Hm : ∀ id, sb_load (R:=KeylistRecord) (E:=MediationError) l !! id = kept st' id).
  { apply sb_load_complete; [exact Hk| |].
    - intros r Hr. destruct (Hin r Hr) as (_ & n & Hn). exists n. by rewrite Hv.
    - intros n r Hn. rewrite Hv in Hn. apply (Hall eq_refl eq_refl n r Hn). by intros k v Hkv. }
  split; [split; cbn; [exact Hk|exact Ht|by intros m [= <-]|]|split; [exact Hview|]].
  - intros m k id x [= <-] Hi Hx. apply sk_index_lookup in Hi as (y & Hy & Hyk). by simplify_eq.
  - intros id [Hid|[k Hid]]; [left; by rewrite <-Hview|]. cbn in Hid. apply sk_index_lookup in Hid as (y & Hy & _).
    left. rewrite <-Hview. exists y. unfold sk_view. cbn. by rewrite <-Hm.
Qed.

Lemma sk_with_cache_spec {A} (f : gmap string KeylistRecord → A) s w :
  sk_ok s →
  match sk_with_cache f s w with
  | (Ok a, s', _) => sk_keeps s s' ∧ is_Some (sk_cache s') ∧ ∃ m, a = f m ∧ ∀ id, m !! id = sk_view s id
  | (_, s', _) => sk_keeps s s'
  end.
Proof.
  intros Hs. pose proof (sk_ensure_spec s w Hs) as He. unfold sk_with_cache, mbind, eff_bind.
  destruct (sk_ensure_cache s w) as [[[[]|e|] s'] w']; [|done..]. destruct He as ([m Hm] & Hkeep). cbn. rewrite Hm. cbn.
  split; [done|]. rewrite Hm. split; [eauto|]. exists m. split; [done|]. intros id. destruct Hkeep as (Hs' & Hv & _).
  rewrite <-Hv. by apply (sko_cache s' Hs').
Qed.

Lemma sk_save_spec x s w :
  sk_ok s → ¬ sk_used s (kl_id x) →
  match sk_save x s w with
  | (Ok _, s', _) => sk_ok s' ∧ (∀ id, sk_view s' id = if decide (id = kl_id x) then Some x else sk_view s id) ∧
      ∀ id, sk_used s' id → id = kl_id x ∨ sk_used s id
  | (_, s', _) => sk_keeps s s'
  end.
Proof.
  intros Hs Hnew. pose proof (sk_ensure_spec s w Hs) as He. unfold sk_save, mbind, eff_bind.
  destruct (sk_ensure_cache s w) as [[[[]|e|] s1] w1]; [|done..]. destruct He as ([m Hm] & Hkeep1). pose proof Hkeep1 as (Hs1 & Hv1 & Hu1).
  unfold sk_persist, mbind, eff_bind, eff_lift, sb_to_storage_record, sk_on_storage, eff_zoom.
  destruct (rk_encode x) as [v|e|] eqn:Hx; [|done..]. cbn. set (r := mkRecord _ _ _ _).
  pose proof (st_save_law r (sk_storage s1) w1) as Hsave. destruct (st_save r (sk_storage s1) w1) as [[[[]|e|] st'] w2].
  2, 3: eapply sk_keeps_trans; [exact Hkeep1|by apply sk_same_keeps].
  destruct Hsave as [_ Hsave]. pose proof (rk_decode_encode x v Hx) as Hdec.
  assert (Hst : ∀ id, kept st' id = if decide (id = kl_id x) then Some x else kept (sk_storage s1) id).
  { intros id. unfold stored. rewrite Hsave. cbn. case_decide as Ha; case_decide as Hb; cbn; naive_solver. }
  unfold eff_modify. rewrite Hm. assert (Hview : ∀ id, kept st' id = if decide (id = kl_id x) then Some x else sk_view s id).
  { intros id. rewrite Hst. case_decide; [done|apply Hv1]. }
  split; [|split; [exact Hview|]].
  - destruct Hs1 as [Hk Ht Hc Hi]. split; cbn.
    + intros id y. rewrite Hst. case_decide as Hid; [by intros [= <-]|apply Hk].
    + intros id r' y. rewrite Hsave. case_decide as Hid; [|apply Ht]. intros [= <-] Hy. cbn in Hdec, Hy. rewrite Hdec in Hy. injection Hy as <-. done.
    + intros m' [= <-] id. rewrite Hst. case_decide as Hid; [subst; by rewrite lookup_insert_eq|]. rewrite lookup_insert_ne by done. by apply Hc.
    + intros m' k id y [= <-] Hidx Hy. apply lookup_insert_Some in Hidx as [[<- <-]|[_ Hidx]].
      * rewrite lookup_insert_eq in Hy. by injection Hy as <-.
      * apply lookup_insert_Some in Hy as [[<- _]|[_ Hy]]; [|by apply (Hi m k id y)]. destruct Hnew. apply Hu1. right. by exists k.
  - intros id [Hid|[k Hid]].
    + unfold sk_view in Hid. cbn in Hid. rewrite Hview in Hid. case_decide; [by left|]. right. by left.
    + cbn in Hid. apply lookup_insert_Some in Hid as [[_ <-]|[_ Hid]]; [by left|]. right. apply Hu1. right. by exists k.
Qed.

Lemma first_in_view (P : KeylistRecord → Prop) `{∀ x, Decision (P x)} m s :
  sk_ok s → (∀ id, m !! id = sk_view s id) →
  match find_first P (repo_record_values m) with
  | Some x => P x ∧ sk_view s (kl_id x) = Some x
  | None => ∀ id x, sk_view s id = Some x → ¬ P x
  end.
Proof.
  intros Hs Hm. pose proof (first_in_values P m) as Hf. destruct (find_first _ _) as [x|].
  - destruct Hf as (Hp & id & Hx). rewrite Hm in Hx. split; [done|]. by rewrite (sko_keyed s Hs id x Hx).
  - intros id x Hx. rewrite <-Hm in Hx. by apply (Hf id).
Qed.
Lemma sk_find_spec m k s w :
  sk_ok s →
  match sk_find_by_recipient_key m k s w with
  | (Ok o, s', _) => (sk_keeps s s' ∧ is_Some (sk_cache s')) ∧
      match o with
      | Some x => kl_is m k x ∧ sk_view s (kl_id x) = Some x
      | None => ∀ id x, sk_view s id = Some x → ¬ kl_is m k x
      end
  | (_, s', _) => sk_keeps s s'
  end.
Proof.
  intros Hs. unfold sk_find_by_recipient_key. pose proof (sk_with_cache_spec (λ m0, find_first (kl_is m k) (repo_record_values m0)) s w Hs) as Hc.
  destruct (sk_with_cache _ s w) as [[[o|e|] s'] w']; [|done..]. destruct Hc as (Hkeep & Hc & m0 & -> & Hm0).
  split; [done|]. by apply first_in_view.
Qed.

Lemma sk_delete_spec m k s w :
  sk_ok s →
  match sk_delete_by_recipient_key m k s w with
  | (Ok _, s', _) => sk_ok s' ∧
      (∀ id, sk_view s' id = sk_view s id ∨ sk_view s' id = None ∧ ∃ x, sk_view s id = Some x ∧ kl_is m k x) ∧
      ((∀ i j x y, sk_view s i = Some x → sk_view s j = Some y → kl_is m k x → kl_is m k y → i = j) →
        ∀ id x, sk_view s' id = Some x → ¬ kl_is m k x) ∧
      ∀ id, sk_used s' id → sk_used s id
  | (_, s', _) => sk_keeps s s'
  end.
Proof.
  intros Hs. unfold sk_delete_by_recipient_key, mbind, eff_bind. pose proof (sk_find_spec m k s w Hs) as Hf.
  destruct (sk_find_by_recipient_key m k s w) as [[[[x|]|e|] s1] w1]; [| |done..].
  2:{ destruct Hf as ((([Hk Ht Hc Hi] & Hv & Hu) & _) & Hnone). split; [done|]. split; [by left|]. split; [|done].
      intros _ id y. rewrite Hv. apply Hnone. }
  destruct Hf as ((Hkeep & [m0 Hm0]) & His & Hx). pose proof Hkeep as (Hs1 & Hv1 & Hu1).
  unfold sk_delete_from_storage, sk_on_storage, eff_zoom. pose proof (st_delete_law KEYLIST_CATEGORY (kl_id x) (sk_storage s1) w1) as Hd.
  destruct (st_delete KEYLIST_CATEGORY (kl_id x) (sk_storage s1) w1) as [[[[]|e|] st'] w2].
  2, 3: eapply sk_keeps_trans; [exact Hkeep|by apply sk_same_keeps].
  assert (Hst : ∀ id, kept st' id = if decide (id = kl_id x) then None else sk_view s id).
  { intros id. unfold stored. rewrite Hd. cbn. case_decide as Ha; case_decide as Hb; cbn; first [naive_solver|apply Hv1]. }
  unfold sk_modify_cache, eff_modify. cbn. rewrite Hm0. cbn. split; [|split; [|split]].
  - destruct Hs1 as [Hk Ht Hc Hi]. split; cbn.
    + intros id y. rewrite Hst. case_decide as Hid; [done|]. rewrite <-Hv1. apply Hk.
    + intros id r y. rewrite Hd. case_decide as Hid; [done|apply Ht].
    + intros m' [= <-] id. rewrite Hst. case_decide as Hid; [subst; by rewrite lookup_delete_eq|]. rewrite lookup_delete_ne, <-Hv1 by done. by apply Hc.
    + intros m' k' id y [= <-] Hidx [_ Hy]%lookup_delete_Some. by apply (Hi m0 k' id y).
  - intros id. unfold sk_view in *. cbn. rewrite Hst. case_decide as Hid; [|by left]. subst id. right. split; [done|]. by exists x.
  - intros Hone id y. unfold sk_view at 1. cbn. rewrite Hst. case_decide as Hid; [done|]. intros Hy Hisy. apply Hid. by apply (Hone _ _ y x).
  - intros id [Hid|[k' Hid]]; [|apply Hu1; right; by exists k']. unfold sk_view in Hid. cbn in Hid. rewrite Hst in Hid. case_decide; [by destruct Hid|by left].
Qed.

Lemma sk_cache_fill s y : sk_ok s → sk_view s (kl_id y) = Some y →
  sk_keeps s (mkStorageKeylist (sk_storage s) (<[kl_id y := y]> <$> sk_cache s) (sk_by_recipient_key s)).
Proof.
  intros Hs Hy. pose proof Hs as [Hk Ht Hc Hi]. split; [|done]. split; cbn; [done..| |].
  - intros m. destruct (sk_cache s) as [m0|] eqn:Hm0; [|done]. intros [= <-] id.
    destruct (decide (id = kl_id y)) as [->|Hne]; [by rewrite lookup_insert_eq|rewrite lookup_insert_ne by done; by apply Hc].
  - intros m k id x. destruct (sk_cache s) as [m0|] eqn:Hm0; [|done]. intros [= <-] Hidx [[<- <-]|[_ Hx]]%lookup_insert_Some; [|by apply (Hi m0 k id)].
    apply (Hi m0 k (kl_id y)); [done..|]. by rewrite (Hc m0 eq_refl).
Qed.

Lemma sk_route_spec k s w :
  sk_ok s →
  match sk_find_mediation_for_recipient_key k s w with
  | (Ok o, s', _) => sk_keeps s s' ∧
      match o with
      | Some x => kl_recipient_key x = k ∧ sk_view s (kl_id x) = Some x
      | None => ∀ id x, sk_view s id = Some x → kl_recipient_key x ≠ k
      end
  | (_, s', _) => sk_keeps s s'
  end.
Proof.
  intros Hs. unfold sk_find_mediation_for_recipient_key, mbind, eff_bind. pose proof (sk_ensure_spec s w Hs) as He.
  destruct (sk_ensure_cache s w) as [[[[]|e|] s1] w1]; [|done..]. destruct He as ([m Hm] & Hkeep). pose proof Hkeep as (Hs1 & Hv1 & Hu1).
  unfold eff_get. cbv beta iota. rewrite Hm. cbn [option_bind]. destruct (option_bind _ _ (λ id, m !! id) (sk_by_recipient_key s1 !! k)) as [x|] eqn:Hidx.
  { apply bind_Some in Hidx as (id & Hid & Hx). split; [exact Hkeep|]. split; [by apply (sko_index s1 Hs1 m k id)|].
    rewrite (sko_cache s1 Hs1 m Hm) in Hx. rewrite (sko_keyed s1 Hs1 id x Hx), <-Hv1. exact Hx. }
  unfold sk_on_storage, eff_zoom. set (q := q_with_tag q_new "recipient_key" k). pose proof (st_find_all_law KEYLIST_CATEGORY q (sk_storage s1) w1) as Hf.
  destruct (st_find_all KEYLIST_CATEGORY q (sk_storage s1) w1) as [[[l|e|] st'] w2].
  2, 3: eapply sk_keeps_trans; [exact Hkeep|by apply sk_same_keeps].
  destruct Hf as (Hin & Hall & Hv). pose proof (sk_same_keeps s1 st' Hs1 Hv) as Hkeep2. destruct l as [|r l]; cbn [head].
  - split; [by eapply sk_keeps_trans|]. intros id x Hx Hk. rewrite <-Hv1 in Hx. unfold sk_view, stored in Hx.
    apply bind_Some in Hx as (r & Hr & Hd). assert (Hrl : r ∈ ([] : list AgentRecord)); [|by apply elem_of_nil in Hrl].
    apply (Hall eq_refl eq_refl id r Hr). intros t v Ht. unfold q in Ht. cbn in Ht. apply lookup_insert_Some in Ht as [[<- <-]|[_ Ht]]; [|done].
    rewrite (sko_tags s1 Hs1 id r x Hr Hd). by rewrite Hk.
  - destruct (Hin r) as (Htag & n & Hn); [by left|]. cbn. destruct (sd_from_text (rec_value r)) as [x|e|] eqn:Hd; cbn; [|by eapply sk_keeps_trans..].
    assert (Hdec : rk_decode (R:=KeylistRecord) (E:=MediationError) (rec_value r) = Some x) by (cbn; by rewrite Hd).
    assert (Hx : sk_view s1 n = Some x) by (unfold sk_view, stored; cbn [rk_category keylist_kind]; rewrite Hn; exact Hdec). pose proof (sko_keyed s1 Hs1 n x Hx) as Hid.
    assert (Hx2 : sk_view (mkStorageKeylist st' (sk_cache s1) (sk_by_recipient_key s1)) (kl_id x) = Some x).
    { rewrite Hid. unfold sk_view. cbn. by rewrite (kept_same _ _ Hv). }
    split; [|split].
    + eapply sk_keeps_trans; [eapply sk_keeps_trans; [exact Hkeep|exact Hkeep2]|exact (sk_cache_fill _ x (proj1 Hkeep2) Hx2)].
    + specialize (Htag "recipient_key" k). rewrite (sko_tags s1 Hs1 n r x Hn Hdec) in Htag. cbn in Htag. by injection (Htag eq_refl) as ->.
    + rewrite Hid, <-Hv1. exact Hx.
Qed.

#[export] Instance storage_keylist_laws : KeylistLaws SK.
Proof.
  refine {| kr_ok := sk_ok; kr_view := sk_view; kr_used := sk_used |}.
  - intros s id x Hs. by apply sko_keyed.
  - intros s id Hs Hid. by left.
  - intros x s w. apply sk_save_spec.
  - intros m k s w. apply sk_delete_spec.
  - intros m k s w Hs. pose proof (sk_find_spec m k s w Hs) as Hf. cbn.
    destruct (sk_find_by_recipient_key m k s w) as [[[o|e|] s1] w1]; [|done..]. by destruct Hf as [[Hkeep _] Ho].
  - intros s w Hs. cbn. pose proof (sk_with_cache_spec repo_record_values s w Hs) as Hc. unfold sk_get_all.
    destruct (sk_with_cache repo_record_values s w) as [[[l|e|] s1] w1]; [|done..]. destruct Hc as (Hkeep & _ & m & -> & Hm). split; [done|].
    intros x. rewrite elem_of_repo_records. by setoid_rewrite Hm.
  - intros k s w. apply sk_route_spec.
Defined.
End backed_laws.
