(* ===== verification/Mediator.v ===== *)
(** The services of coordinate-mediation and their handlers: the mediator
    ([services/mediator_service.rs]) and the recipient
    ([services/mediation_recipient_service.rs]).

    The repositories are used through interfaces ([ExchangeRepo], [KeylistRepo]).  The event bus
    is the list of what was emitted, if there is one; waiters for a grant are counted when they
    are woken.  A message is turned into the type of its protocol through a value, by the
    derived serializers ([Serde]); [bs58] is a parameter ([Bs58]). *)
From S2P Require Import Prelude AjnaTypes StdText SerdeJson Storage Didcomm AnonCreds RecordRepo QueueRepo Mediation Keylists Keys.

(** [src/protocols/coordinate_mediation/src/services/mediator_service.rs:390-400] canonicalize_recipient_key *)
Definition canonicalize_recipient_key `{Bs58} (recipient_key : string) : string :=
  match str_strip_prefix "did:key:z" recipient_key with
  | Some stripped =>
      match bs58_decode stripped with
      | Some decoded =>
          match decoded with
          | String b0 (String b1 rest) =>
              if decide (String.length decoded = 34 ∧ Ascii.N_of_ascii b0 = 237%N ∧ Ascii.N_of_ascii b1 = 1%N)
              then bs58_encode rest else recipient_key
          | _ => recipient_key
          end
      | None => recipient_key
      end
  | None => recipient_key
  end.

(** * The mediator *)

(** [src/protocols/coordinate_mediation/src/services/mediator_service.rs:18-29] MediatorService (without the agent's id, which names the tenant of its events) *)
Record MediatorService (RS KS : Type) := mkMediator {
  mds_mediations : RS;
  mds_keylists : KS;
  mds_endpoint : string;
  mds_routing_keys : list string;
  mds_event_bus : option (list MediationEvent)
}.
Arguments mkMediator {RS KS}.
Arguments mds_mediations {RS KS}.
Arguments mds_keylists {RS KS}.
Arguments mds_endpoint {RS KS}.
Arguments mds_routing_keys {RS KS}.
Arguments mds_event_bus {RS KS}.
#[export] Instance mediator_repo {RS KS} : HasRepo (MediatorService RS KS) RS := {|
  repo_of := mds_mediations;
  with_repo r s := mkMediator r (mds_keylists s) (mds_endpoint s) (mds_routing_keys s) (mds_event_bus s);
  repo_of_with _ _ := eq_refl
|}.

Section mediator.
Context `{Bs58} `{UuidText} {RS KS : Type} `{!ExchangeRepo RS MediationRecord MediationError} `{!KeylistRepo KS}.
Abbreviation MDS := (MediatorService RS KS).
Abbreviation med := (eff MediationError MDS).

(** [src/protocols/coordinate_mediation/src/services/mediator_service.rs:33-47] MediatorService::new *)
Definition mds_new (mediation_repository : RS) (keylist_repository : KS) (endpoint : string) (routing_keys : list string) : MDS :=
  mkMediator mediation_repository keylist_repository endpoint routing_keys None.

(** [src/protocols/coordinate_mediation/src/services/mediator_service.rs:60-68] MediatorService::with_event_bus *)
Definition mds_with_event_bus (s : MDS) : MDS :=
  mkMediator (mds_mediations s) (mds_keylists s) (mds_endpoint s) (mds_routing_keys s) (Some []).

Definition on_keylists {A} (m : eff MediationError KS A) : med A :=
  eff_zoom mds_keylists (λ k s, mkMediator (mds_mediations s) k (mds_endpoint s) (mds_routing_keys s) (mds_event_bus s)) id m.
Definition me_ok_or {E S A} (e : E) (o : option A) : eff E S A := match o with Some a => mret a | None => eff_throw e end.

Definition mds_emit (ev : MediationEvent) : med unit :=
  eff_modify (λ s, mkMediator (mds_mediations s) (mds_keylists s) (mds_endpoint s) (mds_routing_keys s) ((λ bus, bus ++ [ev]) <$> mds_event_bus s)).

(** [src/protocols/coordinate_mediation/src/services/mediator_service.rs:71-84] MediatorService::emit_state_changed *)
Definition mds_emit_state_changed (record : MediationRecord) (previous_state : option MediationState) : med unit :=
  mds_emit (EvStateChanged record previous_state).

(** [src/protocols/coordinate_mediation/src/services/mediator_service.rs:89-100] MediatorService::process_request *)
Definition process_mediation_request (connection_id : string) : med MediationRecord :=
  record ← eff_world (mdb_build (mdb_new connection_id MrMediator));
  _ ← on_records (er_save record);
  _ ← mds_emit_state_changed record None;
  mret record.

(** The record of a mediation that may change to a state. *)
Definition transition_to (mediation_id : string) (state : MediationState) : med MediationRecord :=
  o ← on_records (er_find_by_id mediation_id);
  record ← me_ok_or (MeNotFound mediation_id) o;
  if ms_is_valid_transition_from state (md_state record) then mret record
  else eff_throw (MeInvalidStateTransition (md_state record) state).

(** [src/protocols/coordinate_mediation/src/services/mediator_service.rs:105-144] MediatorService::grant_mediation *)
Definition grant_mediation (mediation_id thread_id : string) : med (MediationRecord * MediationGrantMessage) :=
  record ← transition_to mediation_id MsGranted;
  let previous_state := md_state record in
  s ← eff_get;
  let record := md_set_routing (mds_endpoint s) (mds_routing_keys s) (md_set_state MsGranted record) in
  _ ← on_records (er_update record);
  _ ← mds_emit_state_changed record (Some previous_state);
  message ← grant_new thread_id (mds_endpoint s) (mds_routing_keys s);
  mret (record, message).

(** [src/protocols/coordinate_mediation/src/services/mediator_service.rs:149-185] MediatorService::deny_mediation *)
Definition deny_mediation (mediation_id thread_id : string) : med (MediationRecord * MediationDenyMessage) :=
  record ← transition_to mediation_id MsDenied;
  let previous_state := md_state record in
  let record := md_set_state MsDenied record in
  _ ← on_records (er_update record);
  _ ← mds_emit_state_changed record (Some previous_state);
  message ← mdn_new thread_id;
  mret (record, message).

(** [src/protocols/coordinate_mediation/src/services/mediator_service.rs:291-331] MediatorService::process_single_keylist_update (moving the key) *)
Definition release_key (mediation_id key : string) : med unit :=
  new ← on_records (er_find_by_id mediation_id);
  all ← on_keylists kr_get_all;
  each (λ r,
    old ← on_records (er_find_by_id (kl_mediation_id r));
    match md_connection_id <$> old, md_connection_id <$> new with
    | Some oc, Some nc =>
        if decide (oc = nc) then on_keylists (kr_delete_by_recipient_key (kl_mediation_id r) key)
        else eff_throw (MeKeylistUpdateFailed "recipient key is registered to a different connection")
    | _, _ => on_keylists (kr_delete_by_recipient_key (kl_mediation_id r) key)
    end) (filter (λ r, kl_recipient_key r = key ∧ kl_mediation_id r ≠ mediation_id) all).

(** [src/protocols/coordinate_mediation/src/services/mediator_service.rs:333-350] MediatorService::process_single_keylist_update (adding the key) *)
Definition claim_key (mediation_id key : string) : med unit :=
  existing ← on_keylists (kr_find_by_recipient_key mediation_id key);
  match existing with
  | Some _ => mret tt
  | None =>
      record ← eff_world (kl_new mediation_id key KaAdd KrSuccess);
      on_keylists (kr_save record)
  end.

(** [src/protocols/coordinate_mediation/src/services/mediator_service.rs:252-361] MediatorService::process_single_keylist_update *)
Definition process_single_keylist_update (mediation_id : string) (update : KeylistUpdate) : med unit :=
  let key := canonicalize_recipient_key (ku_recipient_key update) in
  match ku_action update with
  | KaAdd => _ ← release_key mediation_id key; claim_key mediation_id key
  | KaRemove => on_keylists (kr_delete_by_recipient_key mediation_id key)
  end.

(** [src/protocols/coordinate_mediation/src/services/mediator_service.rs:202-229] MediatorService::process_keylist_updates (the loop) *)
Definition update_keylist (mediation_id : string) (updates : list KeylistUpdate) : med (list KeylistUpdated * list string * list string) :=
  eff_fold (λ acc update,
    let '(results, keys_added, keys_removed) := acc in
    result ← eff_catch (process_single_keylist_update mediation_id update);
    let key := ku_recipient_key update in
    match result with
    | inr _ =>
        mret (match ku_action update with
              | KaAdd => (results ++ [kd_success key KaAdd], keys_added ++ [key], keys_removed)
              | KaRemove => (results ++ [kd_success key KaRemove], keys_added, keys_removed ++ [key])
              end)
    | inl _ => mret (results ++ [kd_server_error key (ku_action update)], keys_added, keys_removed)
    end) ([], [], []) updates.

(** [src/protocols/coordinate_mediation/src/services/mediator_service.rs:190-249] MediatorService::process_keylist_updates *)
Definition process_keylist_updates (mediation_id : string) (updates : list KeylistUpdate) : med (list KeylistUpdated) :=
  r ← update_keylist mediation_id updates;
  let '(results, keys_added, keys_removed) := r in
  _ ← (if decide (keys_added = [] ∧ keys_removed = []) then mret tt else mds_emit (EvKeylistUpdated mediation_id keys_added keys_removed));
  mret results.

(** [src/protocols/coordinate_mediation/src/services/mediator_service.rs:364-368] MediatorService::get_keylist *)
Definition mds_get_keylist (mediation_id : string) : med (list KeylistRecord) := on_keylists (kr_find_by_mediation_id mediation_id).

(** [src/protocols/coordinate_mediation/src/services/mediator_service.rs:371-377] MediatorService::is_key_in_keylist *)
Definition is_key_in_keylist (mediation_id recipient_key : string) : med bool :=
  o ← on_keylists (kr_find_by_recipient_key mediation_id recipient_key); mret (bool_decide (is_Some o)).

(** [src/protocols/coordinate_mediation/src/services/mediator_service.rs:380-382] MediatorService::get_all_granted *)
Definition mds_get_all_granted : med (list MediationRecord) := on_records mrepo_find_all_granted.
End mediator.

(** [src/protocols/coordinate_mediation/src/services/mediator_service.rs:50-57] MediatorService::with_defaults *)
Definition mds_with_defaults (endpoint : string) (routing_keys : list string)
    : MediatorService (gmap string MediationRecord) (gmap string KeylistRecord) := mds_new ∅ ∅ endpoint routing_keys.

(** * The recipient *)

(** [src/protocols/coordinate_mediation/src/services/mediation_recipient_service.rs:19-28] MediationRecipientService (without the agent's id) *)
Record MediationRecipientService (RS KS : Type) := mkMediationRecipient {
  mrs_mediations : RS;
  mrs_keylists : KS;
  mrs_grant_notify : option nat;
  mrs_event_bus : option (list MediationEvent)
}.
Arguments mkMediationRecipient {RS KS}.
Arguments mrs_mediations {RS KS}.
Arguments mrs_keylists {RS KS}.
Arguments mrs_grant_notify {RS KS}.
Arguments mrs_event_bus {RS KS}.
#[export] Instance mediation_recipient_repo {RS KS} : HasRepo (MediationRecipientService RS KS) RS := {|
  repo_of := mrs_mediations;
  with_repo r s := mkMediationRecipient r (mrs_keylists s) (mrs_grant_notify s) (mrs_event_bus s);
  repo_of_with _ _ := eq_refl
|}.

Section recipient.
Context `{UuidText} {RS KS : Type} `{!ExchangeRepo RS MediationRecord MediationError} `{!KeylistRepo KS}.
Abbreviation MRS := (MediationRecipientService RS KS).
Abbreviation mrc := (eff MediationError MRS).

(** [src/protocols/coordinate_mediation/src/services/mediation_recipient_service.rs:32-43] MediationRecipientService::new *)
Definition mrs_new (mediation_repository : RS) (keylist_repository : KS) : MRS :=
  mkMediationRecipient mediation_repository keylist_repository None None.

(** [src/protocols/coordinate_mediation/src/services/mediation_recipient_service.rs:54-57] MediationRecipientService::with_grant_notify *)
Definition mrs_with_grant_notify (s : MRS) : MRS := mkMediationRecipient (mrs_mediations s) (mrs_keylists s) (Some 0) (mrs_event_bus s).

(** [src/protocols/coordinate_mediation/src/services/mediation_recipient_service.rs:60-68] MediationRecipientService::with_event_bus *)
Definition mrs_with_event_bus (s : MRS) : MRS := mkMediationRecipient (mrs_mediations s) (mrs_keylists s) (mrs_grant_notify s) (Some []).

Definition on_own_keylists {A} (m : eff MediationError KS A) : mrc A :=
  eff_zoom mrs_keylists (λ k s, mkMediationRecipient (mrs_mediations s) k (mrs_grant_notify s) (mrs_event_bus s)) id m.
Definition mrs_emit (ev : MediationEvent) : mrc unit :=
  eff_modify (λ s, mkMediationRecipient (mrs_mediations s) (mrs_keylists s) (mrs_grant_notify s) ((λ bus, bus ++ [ev]) <$> mrs_event_bus s)).
Definition notify_waiters : mrc unit :=
  eff_modify (λ s, mkMediationRecipient (mrs_mediations s) (mrs_keylists s) (S <$> mrs_grant_notify s) (mrs_event_bus s)).

(** [src/protocols/coordinate_mediation/src/services/mediation_recipient_service.rs:71-84] MediationRecipientService::emit_state_changed *)
Definition mrs_emit_state_changed (record : MediationRecord) (previous_state : option MediationState) : mrc unit :=
  mrs_emit (EvStateChanged record previous_state).

(** [src/protocols/coordinate_mediation/src/services/mediation_recipient_service.rs:89-106] MediationRecipientService::create_request *)
Definition create_mediation_request (connection_id : string) : mrc (MediationRecord * MediationRequestMessage) :=
  record ← eff_world (mdb_build (mdb_new connection_id MrRecipient));
  _ ← on_records (er_save record);
  _ ← mrs_emit_state_changed record None;
  message ← mrq_new;
  mret (record, message).

(** [src/protocols/coordinate_mediation/src/services/mediation_recipient_service.rs:244-251] MediationRecipientService::find_by_connection_id *)
Definition mrs_find_by_connection_id (connection_id : string) : mrc (option MediationRecord) :=
  on_records (mrepo_find_by_connection_id connection_id).

(** [src/protocols/coordinate_mediation/src/services/mediation_recipient_service.rs:111-166] MediationRecipientService::process_grant *)
Definition process_grant (connection_id : string) (grant_message : MediationGrantMessage) : mrc MediationRecord :=
  o ← on_records (mrepo_find_by_connection_id connection_id);
  record ← me_ok_or (MeConnectionNotFound connection_id) o;
  if ms_is_valid_transition_from MsGranted (md_state record) then
    let previous_state := md_state record in
    let record := md_set_routing (mg_endpoint grant_message) (mg_routing_keys grant_message) (md_set_state MsGranted record) in
    _ ← on_records (er_update record);
    _ ← notify_waiters;
    _ ← mrs_emit_state_changed record (Some previous_state);
    _ ← (if ms_is_active (md_state record) then mrs_emit (EvRoutingCreated record) else mret tt);
    mret record
  else eff_throw (MeInvalidStateTransition (md_state record) MsGranted).

(** [src/protocols/coordinate_mediation/src/services/mediation_recipient_service.rs:171-190] MediationRecipientService::get_routing_info *)
Definition get_routing_info (mediation_id : string) : mrc (string * list string) :=
  o ← on_records (er_find_by_id mediation_id);
  record ← me_ok_or (MeNotFound mediation_id) o;
  if ms_is_active (md_state record) then
    endpoint ← me_ok_or (MeProtocol "No endpoint in granted mediation") (md_endpoint record);
    mret (endpoint, md_routing_keys record)
  else eff_throw (MeInvalidState [MsGranted] (md_state record)).

(** [src/protocols/coordinate_mediation/src/services/mediation_recipient_service.rs:195-197] MediationRecipientService::create_keylist_update *)
Definition create_keylist_update (updates : list KeylistUpdate) : mrc KeylistUpdateMessage := kum_new updates.

(** [src/protocols/coordinate_mediation/src/services/mediation_recipient_service.rs:202-234] MediationRecipientService::process_keylist_update_response *)
Definition process_keylist_update_response (mediation_id : string) (updated : list KeylistUpdated) : mrc unit :=
  each (λ entry,
    record ← eff_world (kl_new mediation_id (kd_recipient_key entry) (kd_action entry) (kd_result entry));
    match kd_action entry, kd_result entry with
    | KaAdd, KrSuccess => on_own_keylists (kr_save record)
    | KaRemove, KrSuccess => on_own_keylists (kr_delete_by_recipient_key mediation_id (kd_recipient_key entry))
    | _, _ => on_own_keylists (kr_save record)
    end) updated.

(** [src/protocols/coordinate_mediation/src/services/mediation_recipient_service.rs:237-241] MediationRecipientService::get_keylist *)
Definition mrs_get_keylist (mediation_id : string) : mrc (list KeylistRecord) := on_own_keylists (kr_find_by_mediation_id mediation_id).

(** [src/protocols/coordinate_mediation/src/services/mediation_recipient_service.rs:254-256] MediationRecipientService::get_all_granted *)
Definition mrs_get_all_granted : mrc (list MediationRecord) := on_records mrepo_find_all_granted.

(** [src/protocols/coordinate_mediation/src/services/mediation_recipient_service.rs:261-263] MediationRecipientService::update *)
Definition mrs_update (record : MediationRecord) : mrc unit := on_records (er_update record).

(** [src/protocols/coordinate_mediation/src/services/mediation_recipient_service.rs:266-268] MediationRecipientService::delete *)
Definition mrs_delete (id : string) : mrc unit := on_records (er_delete id).
End recipient.

(** [src/protocols/coordinate_mediation/src/services/mediation_recipient_service.rs:46-51] MediationRecipientService::with_defaults *)
Definition mrs_with_defaults : MediationRecipientService (gmap string MediationRecord) (gmap string KeylistRecord) := mrs_new ∅ ∅.

(** * Handlers *)

Section wire.
Context `{Serde Message} {E S : Type}.
(** A message as a value, and the value as the type of the protocol; and back. *)
Definition read_as {B} `{Serde B} (message : Message) : eff MessageHandlerError S B :=
  eff_lift (match sd_to_value message with
            | Ok v => match sd_from_value v with Ok b => Ok b | Err e => Err (InvalidMessage e) | Panic => Panic end
            | Err e => Err (InvalidMessage e)
            | Panic => Panic
            end).
Definition write_as {B} `{Serde B} (b : B) : eff MessageHandlerError S Message :=
  eff_lift (match sd_to_value b with
            | Ok v => match sd_from_value v with Ok m => Ok m | Err e => Err (ProcessingFailed e) | Panic => Panic end
            | Err e => Err (ProcessingFailed e)
            | Panic => Panic
            end).
(** A call of a service, with its error as a failed processing; the connection of a message; the answer to it. *)
Definition mediated {A} (m : eff MediationError S A) : eff MessageHandlerError S A :=
  eff_zoom id (λ s _, s) (λ e, ProcessingFailed (me_to_string e)) m.
Definition over_connection (inbound : InboundMessage) : eff MessageHandlerError S string :=
  me_ok_or (InvalidMessage "Missing connection ID") (ctx_connection_id (in_context inbound)).
Definition answered (inbound : InboundMessage) (connection_id : string) (message : Message) : OutboundMessage :=
  mkOutbound message (default "" (ctx_from (in_context inbound))) (default "" (ctx_to (in_context inbound))) (Some connection_id).
Definition no_mediation (connection_id : string) : MessageHandlerError :=
  ProcessingFailed ("Mediation not found for connection " +:+ connection_id).
End wire.

Section mediator_handlers.
Context `{Bs58} `{UuidText} {RS KS : Type} `{!ExchangeRepo RS MediationRecord MediationError} `{!KeylistRepo KS}.
Context `{Serde Message} `{Serde MediationRequestMessage} `{Serde MediationGrantMessage}.
Context `{Serde KeylistUpdateMessage} `{Serde KeylistUpdateResponseMessage}.
Abbreviation hd := (eff MessageHandlerError (MediatorService RS KS)).
Abbreviation handler := (InboundMessage → hd (option OutboundMessage)).

(** [src/protocols/coordinate_mediation/src/handlers/request_handler.rs:49-108] MediationRequestHandler::handle *)
Definition mediation_request_handle (auto_grant : bool) : handler := λ inbound,
  request_message ← read_as (in_message inbound);
  connection_id ← over_connection inbound;
  record ← mediated (process_mediation_request connection_id);
  if auto_grant then
    granted ← mediated (grant_mediation (md_id record) (mrq_id request_message));
    didcomm_msg ← write_as (snd granted);
    mret (Some (answered inbound connection_id didcomm_msg))
  else mret None.

(** [src/protocols/coordinate_mediation/src/handlers/keylist_update_handler.rs:37-98] KeylistUpdateHandler::handle *)
Definition keylist_update_handle : handler := λ inbound,
  update_message ← read_as (in_message inbound);
  connection_id ← over_connection inbound;
  o ← mediated (on_records (mrepo_find_by_connection_id connection_id));
  mediation ← me_ok_or (no_mediation connection_id) o;
  results ← mediated (process_keylist_updates (md_id mediation) (kum_updates update_message));
  response ← kur_new (kum_id update_message) results;
  didcomm_msg ← write_as response;
  mret (Some (answered inbound connection_id didcomm_msg)).
End mediator_handlers.

Section recipient_handlers.
Context `{UuidText} {RS KS : Type} `{!ExchangeRepo RS MediationRecord MediationError} `{!KeylistRepo KS}.
Context `{Serde Message} `{Serde MediationGrantMessage} `{Serde MediationDenyMessage} `{Serde KeylistUpdateResponseMessage} `{Serde ForwardMessage}.
Abbreviation hd := (eff MessageHandlerError (MediationRecipientService RS KS)).
Abbreviation handler := (InboundMessage → hd (option OutboundMessage)).

(** [src/protocols/coordinate_mediation/src/handlers/grant_handler.rs:37-67] MediationGrantHandler::handle *)
Definition grant_handle : handler := λ inbound,
  grant_message ← read_as (in_message inbound);
  connection_id ← over_connection inbound;
  _ ← mediated (process_grant connection_id grant_message);
  mret None.

(** [src/protocols/coordinate_mediation/src/handlers/deny_handler.rs:37-75] MediationDenyHandler::handle (the denied record is not stored) *)
Definition deny_handle : handler := λ inbound,
  _ ← read_as (B:=MediationDenyMessage) (in_message inbound);
  connection_id ← over_connection inbound;
  o ← mediated (mrs_find_by_connection_id connection_id);
  record ← me_ok_or (no_mediation connection_id) o;
  let record := md_set_state MsDenied record in
  mret None.

(** [src/protocols/coordinate_mediation/src/handlers/keylist_update_response_handler.rs:36-79] KeylistUpdateResponseHandler::handle *)
Definition keylist_update_response_handle : handler := λ inbound,
  response ← read_as (in_message inbound);
  connection_id ← over_connection inbound;
  o ← mediated (mrs_find_by_connection_id connection_id);
  mediation ← me_ok_or (no_mediation connection_id) o;
  _ ← mediated (process_keylist_update_response (md_id mediation) (kur_updated response));
  mret None.

(** [src/protocols/coordinate_mediation/src/handlers/forward_handler.rs:42-73] ForwardHandler::handle (the inner message is left to the agent) *)
Definition forward_handle {S} (inbound : InboundMessage) : eff MessageHandlerError S (option OutboundMessage) :=
  _ ← read_as (B:=ForwardMessage) (in_message inbound);
  mret None.
End recipient_handlers.
