(* ===== verification/MediationProps.v ===== *)
(** What coordinate-mediation promises: a key is registered once, and messages of one connection
    neither move nor remove the keys of another; a mediation is decided once. *)
From S2P Require Import Prelude AjnaTypes StdText SerdeJson Storage Didcomm RecordRepo RecordSpec AnonCreds QueueRepo Wp Mediation Keylists Keys Mediator.

(** ** The registered keys *)

Section keys.
Context `{UuidText} {RS KS : Type} `{!RecordKind MediationRecord MediationError} `{ExchangeRepo RS MediationRecord MediationError}.
Context `{!ExchangeRepoLaws RS MediationRecord MediationError} `{KeylistLaws KS}.
Implicit Types (r : RS) (k : KS) (w : World) (x : KeylistRecord) (m : MediationRecord).

(** Two draws of the random source never give the same text; no text that it will give is in use. *)
Definition uuids_distinct (w : World) : Prop := ∀ n n', uuid_text w n = uuid_text w n' → n = n'.
Definition ids_unused k w : Prop := ∀ n, w_un w ≤ n → ¬ kr_used k (uuid_text w n).
(** A key is registered at most once; the mediation of a registered key exists. *)
Definition keys_once k : Prop := ∀ i j x y, kr_view k i = Some x → kr_view k j = Some y → kl_recipient_key x = kl_recipient_key y → i = j.
Definition keys_grounded r k : Prop := ∀ i x, kr_view k i = Some x → is_Some (er_view r (kl_mediation_id x)).

Record keys_ok r k w : Prop := {
  ko_mediations : er_ok r;
  ko_keylists : kr_ok k;
  ko_distinct : uuids_distinct w;
  ko_unused : ids_unused k w;
  ko_once : keys_once k;
  ko_grounded : keys_grounded r k
}.

(** The connection that a key is registered for. *)
Definition key_owner r k (key c : string) : Prop :=
  ∃ i x m, kr_view k i = Some x ∧ kl_recipient_key x = key ∧ er_view r (kl_mediation_id x) = Some m ∧ md_connection_id m = c.

(** A mediation stays with its connection; once decided it stays decided. *)
Definition md_later m m' : Prop :=
  md_id m' = md_id m ∧ md_connection_id m' = md_connection_id m ∧ md_role m' = md_role m ∧ md_created_at m' = md_created_at m ∧
  (md_state m ≠ MsRequested → md_state m' = md_state m).
#[export] Instance md_later_refl : Reflexive md_later.
Proof. by intros m. Qed.
#[export] Instance md_later_trans : Transitive md_later.
Proof. intros m1 m2 m3 (? & ? & ? & ? & Hs1) (? & ? & ? & ? & Hs2). split_and!; try congruence. intros Hs. rewrite Hs2; rewrite Hs1; done. Qed.

(** What a message over the connection [c] may do. *)
Record acts_for (c : string) r k w r' k' w' : Prop := {
  af_world : world_le w w';
  af_mediations id m : er_view r id = Some m → ∃ m', er_view r' id = Some m' ∧ md_later m m';
  af_kept i x : kr_view k i = Some x →
    kr_view k' i = Some x ∨ ∀ m, er_view r (kl_mediation_id x) = Some m → md_connection_id m = c
}.
(** Its effect, on repositories in order. *)
Definition good_for (c : string) r k w r' k' w' : Prop := keys_ok r' k' w' ∧ acts_for c r k w r' k' w'.

Lemma acts_for_refl c r k w : acts_for c r k w r k w.
Proof. split; [done| |by left]. intros id m Hm. by exists m. Qed.
Lemma acts_for_trans c r k w r1 k1 w1 r2 k2 w2 : acts_for c r k w r1 k1 w1 → acts_for c r1 k1 w1 r2 k2 w2 → acts_for c r k w r2 k2 w2.
Proof.
  intros [Hw1 Hm1 Hk1] [Hw2 Hm2 Hk2]. split; [by etrans| |].
  - intros id m (m1 & Hm & Hl)%Hm1. destruct (Hm2 id m1 Hm) as (m2 & ? & ?). exists m2. split; [done|by etrans].
  - intros i x [Hx|Hc]%Hk1; [|by right]. destruct (Hk2 i x Hx) as [|Hc]; [by left|right].
    intros m (m1 & Hm & Hl)%Hm1. rewrite <-(proj1 (proj2 Hl)). by apply Hc.
Qed.
Lemma good_for_refl c r k w : keys_ok r k w → good_for c r k w r k w.
Proof. split; [done|]. apply acts_for_refl. Qed.
Lemma good_for_trans c r k w r1 k1 w1 r2 k2 w2 : good_for c r k w r1 k1 w1 → good_for c r1 k1 w1 r2 k2 w2 → good_for c r k w r2 k2 w2.
Proof. intros [_ Ha] [Hb Hc]. split; [done|]. by eapply acts_for_trans. Qed.

Lemma uuid_text_later w w' n : world_le w w' → uuid_text w' n = uuid_text w n.
Proof. intros [Hu _]. unfold uuid_text. by rewrite Hu. Qed.
Lemma ids_unused_later k k' w w' : world_le w w' → (∀ i, kr_used k' i → kr_used k i) → ids_unused k w → ids_unused k' w'.
Proof. intros Hw Hu Hf n Hn Hused. rewrite (uuid_text_later w w') in Hused by done. apply (Hf n); [destruct Hw; lia|by apply Hu]. Qed.
Lemma uuids_distinct_later w w' : world_le w w' → uuids_distinct w → uuids_distinct w'.
Proof. intros Hw Hd n n'. rewrite !(uuid_text_later w w') by done. apply Hd. Qed.

(** Mediations that change, with the keylists as they are. *)
Lemma good_mediations c r k w r' w' :
  keys_ok r k w → world_le w w' → er_ok r' → (∀ id m, er_view r id = Some m → ∃ m', er_view r' id = Some m' ∧ md_later m m') →
  good_for c r k w r' k w'.
Proof.
  intros [Hr Hk Hd Hu Ho Hg] Hw Hr' Hm. split.
  - split; [done|done|by eapply uuids_distinct_later|by eapply ids_unused_later|done|].
    intros i x Hx. destruct (Hg i x Hx) as [m Hxm]. destruct (Hm _ _ Hxm) as (m' & Hm' & _). eauto.
  - split; [done|done|by left].
Qed.
Lemma good_mediations_same c r k w r' w' :
  keys_ok r k w → world_le w w' → er_ok r' → (∀ id, er_view r' id = er_view r id) → good_for c r k w r' k w'.
Proof. intros Hok Hw Hr' Hv. apply good_mediations; [done..|]. intros id m Hm. exists m. by rewrite Hv. Qed.

(** Keylists that lose keys of the connection, with the mediations as they are. *)
Lemma good_keylists c r k w k' w' :
  keys_ok r k w → world_le w w' → kr_ok k' → (∀ i, kr_used k' i → kr_used k i) →
  (∀ i, kr_view k' i = kr_view k i ∨ kr_view k' i = None ∧ ∃ x, kr_view k i = Some x ∧ ∀ m, er_view r (kl_mediation_id x) = Some m → md_connection_id m = c) →
  good_for c r k w r k' w'.
Proof.
  intros [Hr Hk Hd Hu Ho Hg] Hw Hk' Hused Hv.
  assert (Hsub : ∀ i x, kr_view k' i = Some x → kr_view k i = Some x) by (intros i x Hx; destruct (Hv i) as [<-|[Hn _]]; [done|congruence]).
  split.
  - split; [done|done|by eapply uuids_distinct_later|by eapply ids_unused_later| |].
    + intros i j x y Hx Hy. apply Ho; by apply Hsub.
    + intros i x Hx. by eapply Hg, Hsub.
  - split; [done|intros id m Hm; by exists m|]. intros i x Hx. destruct (Hv i) as [->|(_ & y & Hy & Hc)]; [by left|]. right. assert (x = y) as -> by congruence. exact Hc.
Qed.
Lemma good_keylists_same c r k w k' w' :
  keys_ok r k w → world_le w w' → kr_keeps kr_ok kr_view kr_used k k' → good_for c r k w r k' w'.
Proof. intros Hok Hw (Hk' & Hv & Hu). apply good_keylists; [done..|]. intros i. by left. Qed.

(** A key that another connection owns stays with it. *)
Lemma owner_kept c r k w r' k' w' key c' : acts_for c r k w r' k' w' → c' ≠ c → key_owner r k key c' → key_owner r' k' key c'.
Proof.
  intros [Hw Hm Hk] Hne (i & x & m & Hx & Hkey & Hxm & Hc). destruct (Hk i x Hx) as [Hx'|Hgone]; [|by destruct Hne; rewrite <-Hc; apply Hgone].
  destruct (Hm _ _ Hxm) as (m' & Hxm' & Hl). exists i, x, m'. split_and!; [done..|]. by rewrite (proj1 (proj2 Hl)).
Qed.
Lemma owner_only r k w key c c' : keys_ok r k w → key_owner r k key c → key_owner r k key c' → c' = c.
Proof.
  intros Hok (i & x & m & Hx & Hkx & Hm & Hc) (j & y & m' & Hy & Hky & Hm' & Hc').
  assert (i = j) as -> by (eapply (ko_once r k w Hok); [done..|congruence]). congruence.
Qed.
End keys.

(** ** Keylists and time *)

Class KeylistTime (KS : Type) `{KeylistRepo KS} : Prop := {
  kt_save x : keeps_time (kr_save x);
  kt_find m k : keeps_time (kr_find_by_recipient_key m k);
  kt_delete m k : keeps_time (kr_delete_by_recipient_key m k);
  kt_all : keeps_time kr_get_all;
  kt_route k : keeps_time (kr_find_mediation_for_recipient_key k)
}.
#[export] Instance memory_keylist_time `{HashOrder} : KeylistTime (gmap string KeylistRecord).
Proof. by constructor; intros; intros s w. Qed.
#[export] Instance storage_keylist_time `{HashOrder} `{Serde KeylistRecord} {ST} `{StorageTime ST} : KeylistTime (StorageKeylist ST).
Proof.
  assert (He : keeps_time (sk_ensure_cache (ST:=ST))).
  { apply time_bind; [apply time_get|]. intros s. destruct (sk_cache s); [apply time_ret|].
    apply time_bind; [apply time_zoom, stt_find_all|]. intros l. apply time_modify. }
  assert (Hc : ∀ A (f : gmap string KeylistRecord → A), keeps_time (sk_with_cache (ST:=ST) f)).
  { intros A f. apply time_bind; [exact He|]. intros _. apply time_bind; [apply time_get|]. intros s. destruct (sk_cache s); [apply time_ret|apply time_lift]. }
  constructor; cbn; intros; [|apply Hc| |apply Hc|].
  - apply time_bind; [exact He|]. intros _. apply time_bind; [|intros _; apply time_modify].
    apply time_bind; [apply time_lift|]. intros r. apply time_zoom, stt_save.
  - apply time_bind; [apply Hc|]. intros [x|]; [|apply time_ret]. apply time_bind; [apply time_zoom, stt_delete|]. intros _. apply time_modify.
  - apply time_bind; [exact He|]. intros _. apply time_bind; [apply time_get|]. intros s. destruct (_ ≫= _); [apply time_ret|].
    apply time_bind; [apply time_zoom, stt_find_all|]. intros l. destruct (head l) as [r|]; [|apply time_ret].
    destruct (sd_from_text (rec_value r)) as [x|e|]; [|apply time_throw|apply time_lift]. apply time_bind; [apply time_modify|]. intros _. apply time_ret.
Qed.

(** ** The calls of the service *)

Section service.
Context `{Bs58} `{UuidText} {RS KS : Type} `{Serde MediationRecord} `{ExchangeRepo RS MediationRecord MediationError}.
Context `{!ExchangeRepoLaws RS MediationRecord MediationError} `{KeylistLaws KS} `{!RepoTime RS MediationRecord MediationError} `{!KeylistTime KS}.
Abbreviation MDS := (MediatorService RS KS).
Implicit Types (s : MDS) (w : World).

Definition sane s w : Prop := keys_ok (mds_mediations s) (mds_keylists s) w.
Definition owns s key c : Prop := key_owner (mds_mediations s) (mds_keylists s) key c.
(** From one state to another, on behalf of a connection. *)
Definition goes (c : string) s w s' w' : Prop := good_for c (mds_mediations s) (mds_keylists s) w (mds_mediations s') (mds_keylists s') w'.
(** The same registrations and mediations are seen. *)
Definition alike s s' : Prop :=
  (∀ id, er_view (mds_mediations s') id = er_view (mds_mediations s) id) ∧ ∀ i, kr_view (mds_keylists s') i = kr_view (mds_keylists s) i.

Lemma goes_refl c s w : sane s w → goes c s w s w.
Proof. apply good_for_refl. Qed.
Lemma goes_trans c s w s1 w1 s2 w2 : goes c s w s1 w1 → goes c s1 w1 s2 w2 → goes c s w s2 w2.
Proof. apply good_for_trans. Qed.
Lemma goes_sane c s w s' w' : goes c s w s' w' → sane s' w'.
Proof. by intros [Hs _]. Qed.

Lemma find_mediation i c s w : sane s w →
  wp (on_records (T:=MDS) (er_find_by_id i)) (λ o s' w', goes c s w s' w' ∧ alike s s' ∧ o = er_view (mds_mediations s) i) (goes c s w) s w.
Proof.
  intros Hs. apply wp_zoom. pose proof (er_find_by_id_law i (mds_mediations s) w (ko_mediations _ _ _ Hs)) as Hl.
  pose proof (rt_find_by_id (E:=MediationError) i (mds_mediations s) w) as Ht. unfold wp. cbn.
  destruct (er_find_by_id i (mds_mediations s) w) as [[[o|e|] r'] w']; cbn in *.
  - destruct Hl as (Hok & -> & Hv). split; [by apply good_mediations_same|]. by split.
  - destruct Hl as [Hok Hv]. by apply good_mediations_same.
  - destruct Hl as [Hok Hv]. by apply good_mediations_same.
Qed.
Lemma find_connection p c s w : sane s w →
  wp (on_records (T:=MDS) (er_find p))
    (λ o s' w', goes c s w s' w' ∧ alike s s' ∧ ∀ m, o = Some m → p m = true ∧ er_view (mds_mediations s) (md_id m) = Some m) (goes c s w) s w.
Proof.
  intros Hs. apply wp_zoom. pose proof (er_find_law p (mds_mediations s) w (ko_mediations _ _ _ Hs)) as Hl.
  pose proof (rt_find (E:=MediationError) p (mds_mediations s) w) as Ht. unfold wp. cbn.
  destruct (er_find p (mds_mediations s) w) as [[[o|e|] r'] w']; cbn in *.
  - destruct Hl as (Hok & Hv & Ho). split; [by apply good_mediations_same|]. split; [by split|]. by intros m ->.
  - destruct Hl as [Hok Hv]. by apply good_mediations_same.
  - destruct Hl as [Hok Hv]. by apply good_mediations_same.
Qed.
(** A record is saved, or put in the place of an earlier one. *)
Lemma save_mediation m c s w : sane s w → wp (on_records (T:=MDS) (er_save m)) (λ _ s' w', goes c s w s' w') (goes c s w) s w.
Proof.
  intros Hs. apply wp_zoom. pose proof (er_save_law m (mds_mediations s) w (ko_mediations _ _ _ Hs)) as Hl.
  pose proof (rt_save (E:=MediationError) m (mds_mediations s) w) as Ht. unfold wp. cbn.
  destruct (er_save m (mds_mediations s) w) as [[[[]|e|] r'] w']; cbn in *.
  - destruct Hl as (Hok & Hn & Hv). apply good_mediations; [done..|]. intros id y Hy. exists y. split; [|done]. rewrite Hv.
    case_decide; [subst; by pose proof (eq_trans (eq_sym Hn) Hy)|exact Hy].
  - destruct Hl as [Hok Hv]. by apply good_mediations_same.
  - destruct Hl as [Hok Hv]. by apply good_mediations_same.
Qed.
Lemma update_mediation m m0 c s w : sane s w → er_view (mds_mediations s) (md_id m) = Some m0 → md_later m0 m →
  wp (on_records (T:=MDS) (er_update m)) (λ _ s' w', goes c s w s' w') (goes c s w) s w.
Proof.
  intros Hs Hm Hl0. apply wp_zoom. pose proof (er_update_law m (mds_mediations s) w (ko_mediations _ _ _ Hs)) as Hl.
  pose proof (rt_update (E:=MediationError) m (mds_mediations s) w) as Ht. unfold wp. cbn.
  destruct (er_update m (mds_mediations s) w) as [[[[]|e|] r'] w']; cbn in *.
  - destruct Hl as (Hok & _ & Hv). apply good_mediations; [done..|]. intros id y Hy. rewrite Hv. cbn.
    case_decide as Hid; [subst; exists m; split; [done|]; by pose proof (eq_trans (eq_sym Hm) Hy) as [= <-]|by exists y].
  - destruct Hl as [Hok Hv]. by apply good_mediations_same.
  - destruct Hl as [Hok Hv]. by apply good_mediations_same.
Qed.

Lemma all_keys c s w : sane s w →
  wp (on_keylists (RS:=RS) kr_get_all) (λ l s' w', goes c s w s' w' ∧ alike s s' ∧ ∀ x, x ∈ l ↔ ∃ i, kr_view (mds_keylists s) i = Some x) (goes c s w) s w.
Proof.
  intros Hs. apply wp_zoom. pose proof (kr_all_law (mds_keylists s) w (ko_keylists _ _ _ Hs)) as Hl. pose proof (kt_all (mds_keylists s) w) as Ht.
  unfold wp. destruct (kr_get_all (mds_keylists s) w) as [[[l|e|] k'] w']; cbn in *; [|by apply good_keylists_same..].
  destruct Hl as [Hl Hin]. split; [by apply good_keylists_same|]. split; [|done]. split; [done|]. apply Hl.
Qed.
Lemma find_key mid key c s w : sane s w →
  wp (on_keylists (RS:=RS) (kr_find_by_recipient_key mid key))
    (λ o s' w', goes c s w s' w' ∧ alike s s' ∧ (o = None → ∀ i x, kr_view (mds_keylists s) i = Some x → ¬ kl_is mid key x)) (goes c s w) s w.
Proof.
  intros Hs. apply wp_zoom. pose proof (kr_find_law mid key (mds_keylists s) w (ko_keylists _ _ _ Hs)) as Hl.
  pose proof (kt_find mid key (mds_keylists s) w) as Ht.
  unfold wp. destruct (kr_find_by_recipient_key mid key (mds_keylists s) w) as [[[o|e|] k'] w']; cbn in *; [|by apply good_keylists_same..].
  destruct Hl as [Hl Ho]. split; [by apply good_keylists_same|]. split; [split; [done|apply Hl]|]. by intros ->.
Qed.
Lemma delete_key mid key c s w : sane s w → (∀ m, er_view (mds_mediations s) mid = Some m → md_connection_id m = c) →
  wp (on_keylists (RS:=RS) (kr_delete_by_recipient_key mid key))
    (λ _ s' w', goes c s w s' w' ∧ mds_mediations s' = mds_mediations s ∧
      ∀ i x, kr_view (mds_keylists s') i = Some x → kr_view (mds_keylists s) i = Some x ∧ ¬ kl_is mid key x) (goes c s w) s w.
Proof.
  intros Hs Hc. apply wp_zoom. pose proof (kr_delete_law mid key (mds_keylists s) w (ko_keylists _ _ _ Hs)) as Hl.
  pose proof (kt_delete mid key (mds_keylists s) w) as Ht.
  unfold wp. destruct (kr_delete_by_recipient_key mid key (mds_keylists s) w) as [[[[]|e|] k'] w']; cbn in *; [|by apply good_keylists_same..].
  destruct Hl as (Hok & Hv & Hnone & Hu). split; [|split; [done|]].
  - apply good_keylists; [done..|]. intros i. destruct (Hv i) as [|(Hn & x & Hx & [Hm _])]; [by left|right]. split; [done|].
    exists x. split; [done|]. intros m. rewrite Hm. apply Hc.
  - intros i x Hx. split.
    + destruct (Hv i) as [<-|[Hn _]]; [done|congruence].
    + apply (Hnone (λ i j x y Hx Hy Hix Hiy, ko_once _ _ _ Hs i j x y Hx Hy (eq_trans (proj2 Hix) (eq_sym (proj2 Hiy)))) i x Hx).
Qed.
Lemma add_key mid key c s w : sane s w → is_Some (er_view (mds_mediations s) mid) →
  (∀ i x, kr_view (mds_keylists s) i = Some x → kl_recipient_key x ≠ key) →
  wp (record ← eff_world (kl_new mid key KaAdd KrSuccess); on_keylists (RS:=RS) (kr_save record)) (λ _ s' w', goes c s w s' w') (goes c s w) s w.
Proof.
  intros Hs Hm Hfree. pose proof Hs as [Hr Hk Hd Hu Ho Hg]. apply wp_bind, wp_world. cbn. set (x := mkKeylist _ _ _ _ _ _). set (w1 := mkWorld _ _ _ _).
  assert (Hw1 : world_le w w1) by (split; [done|cbn; lia]). assert (Hid : kl_id x = uuid_text w (w_un w)) by done.
  assert (Hnew : ¬ kr_used (mds_keylists s) (kl_id x)) by (rewrite Hid; by apply Hu).
  assert (Hnone : kr_view (mds_keylists s) (kl_id x) = None).
  { apply eq_None_not_Some. intros Hx. by apply Hnew, kr_view_used. }
  apply wp_zoom. pose proof (kr_save_law x (mds_keylists s) w1 Hk Hnew) as Hl. pose proof (kt_save x (mds_keylists s) w1) as Ht.
  unfold wp. destruct (kr_save x (mds_keylists s) w1) as [[[[]|e|] k'] w']; cbn [fst snd] in *.
  2, 3: apply good_keylists_same; [done|by etrans|done].
  destruct Hl as (Hok & Hv & Hused). split.
  - split; cbn; [done|done|by eapply uuids_distinct_later; [etrans|]| | |].
    + intros n Hn Hun. rewrite (uuid_text_later w1 w') in Hun by done. apply Hused in Hun as [Heq|Hun].
      * rewrite Hid in Heq. apply (Hd n (w_un w)) in Heq. destruct Ht as [_ Ht]. cbn in Ht. lia.
      * apply (Hu n); [destruct Ht as [_ Ht]; cbn in Ht; lia|exact Hun].
    + intros i j y z. rewrite !Hv. repeat case_decide; intros Hy Hz Hyz; simplify_eq; try done.
      * destruct (Hfree j z Hz). done.
      * by destruct (Hfree i y Hy).
      * by eapply Ho.
    + intros i y. rewrite Hv. case_decide; [by intros [= <-]|apply Hg].
  - split; [by etrans|intros id m Hid'; by exists m|]. intros i y Hy. left. cbn. rewrite Hv, decide_False; [done|]. intros ->. congruence.
Qed.
Ltac sane_now := match goal with Hg : goes _ _ _ ?s ?w |- sane ?s ?w => exact (goes_sane _ _ _ _ _ Hg) end.

(** ** Its methods *)

Definition belongs s (mid c : string) : Prop := ∃ m, er_view (mds_mediations s) mid = Some m ∧ md_connection_id m = c.
Lemma belongs_goes c' s w s' w' mid c : goes c' s w s' w' → belongs s mid c → belongs s' mid c.
Proof. intros [_ Ha] (m & Hm & Hc). destruct (af_mediations _ _ _ _ _ _ _ Ha _ _ Hm) as (m' & Hm' & Hl). exists m'. split; [done|]. by rewrite (proj1 (proj2 Hl)). Qed.

(** A later step of a method, after steps on behalf of the connection. *)
Lemma wp_goes {A} (m : eff MediationError MDS A) Q c s w s1 w1 :
  goes c s w s1 w1 → wp m (λ a s' w', goes c s1 w1 s' w' ∧ Q a s' w') (goes c s1 w1) s1 w1 →
  wp m (λ a s' w', goes c s w s' w' ∧ Q a s' w') (goes c s w) s1 w1.
Proof.
  intros Hg Hm. eapply wp_mono; [exact Hm| |].
  - intros a s2 w2 [Hg2 HQ]. split; [by eapply goes_trans|done].
  - intros s2 w2 Hg2. by eapply goes_trans.
Qed.

Lemma release_goes mid key c s w : sane s w → belongs s mid c →
  wp (release_key mid key)
    (λ _ s' w', goes c s w s' w' ∧ ∀ i x, kr_view (mds_keylists s') i = Some x → kl_recipient_key x = key → kl_mediation_id x = mid) (goes c s w) s w.
Proof.
  intros Hs (m & Hm & Hc). unfold release_key. apply wp_bind. eapply wp_mono; [by apply find_mediation| |done].
  intros o s1 w1 (Hg1 & [Hr1 Hk1] & ->). rewrite Hm. cbn. apply wp_goes; [done|]. apply wp_bind.
  eapply wp_mono; [apply all_keys; sane_now| |done]. intros l s2 w2 (Hg2 & [Hr2 Hk2] & Hl).
  set (P := λ (rest : list KeylistRecord) s' w', goes c s1 w1 s' w' ∧
    ∀ i x, kr_view (mds_keylists s') i = Some x → kl_recipient_key x = key → kl_mediation_id x ≠ mid → x ∈ rest).
  eapply wp_mono; [apply (wp_each _ P)| |done].
  - split; [exact Hg2|]. intros i x Hx Hkey Hne. apply list_elem_of_filter. split; [done|]. apply Hl. exists i. by rewrite <-Hk2.
  - intros r rest s3 w3 [Hg3 Hrest]. apply wp_bind. eapply wp_mono; [apply (find_mediation _ c); sane_now| |intros; by eapply goes_trans].
    intros o s4 w4 (Hg4 & [Hr4 Hk4] & Ho). assert (Hg : goes c s1 w1 s4 w4) by (by eapply goes_trans).
    assert (Hdel : (∀ m', o = Some m' → md_connection_id m' = c) →
      wp (on_keylists (RS:=RS) (kr_delete_by_recipient_key (kl_mediation_id r) key)) (λ _ : unit, P rest) (goes c s1 w1) s4 w4).
    { intros Hconn. eapply wp_mono; [apply (delete_key _ _ c); [sane_now|]| |intros; by eapply goes_trans].
      - intros m'. rewrite Hr4, <-Ho. apply Hconn.
      - intros _ s5 w5 (Hg5 & Hr5 & Hsub). split; [by eapply goes_trans|]. intros i x Hx Hkey Hne. destruct (Hsub i x Hx) as [Hx4 Hnot].
        rewrite Hk4 in Hx4. destruct (elem_of_cons rest x r) as [Hin _]. destruct (Hin (Hrest i x Hx4 Hkey Hne)) as [->|]; [by destruct Hnot|done]. }
    destruct o as [m'|]; [|by apply Hdel]. cbn. case_decide as Heq; [|by apply wp_throw]. apply Hdel. intros m'' [= <-]. by rewrite Heq.
  - intros _ s3 w3 [Hg3 Hrest]. split; [done|]. intros i x Hx Hkey. destruct (decide (kl_mediation_id x = mid)) as [|Hne]; [done|].
    by apply (Hrest i x Hx Hkey), elem_of_nil in Hne.
Qed.

Lemma update_goes mid u c s w : sane s w → belongs s mid c →
  wp (process_single_keylist_update mid u) (λ _ s' w', goes c s w s' w') (goes c s w) s w.
Proof.
  intros Hs Hb. unfold process_single_keylist_update. set (key := canonicalize_recipient_key _). destruct (ku_action u).
  - apply wp_bind. eapply wp_mono; [by apply release_goes| |done]. intros _ s1 w1 [Hg1 Hall]. unfold claim_key. apply wp_bind.
    eapply wp_mono; [apply (find_key _ _ c); sane_now| |intros; by eapply goes_trans].
    intros o s2 w2 (Hg2 & [Hr2 Hk2] & Ho). assert (Hg : goes c s w s2 w2) by (by eapply goes_trans). destruct o as [x|]; [by apply wp_ret|].
    eapply wp_mono; [apply (add_key _ _ c)| |]; [sane_now| | |intros; by eapply goes_trans..].
    + destruct (belongs_goes _ _ _ _ _ _ _ Hg Hb) as (m & Hm & _). eauto.
    + intros i x Hx Hkey. rewrite Hk2 in Hx. apply (Ho eq_refl i x Hx). split; [by apply (Hall i)|done].
  - eapply wp_mono; [apply (delete_key _ _ c); [done|]| |done].
    + intros m Hm. destruct Hb as (m' & Hm' & <-). congruence.
    + by intros _ s1 w1 (Hg & _).
Qed.

Lemma emit_goes ev c s w : sane s w → wp (mds_emit (RS:=RS) (KS:=KS) ev) (λ _ s' w', goes c s w s' w') (goes c s w) s w.
Proof. intros Hs. apply wp_modify. by apply (goes_refl c s w). Qed.

Lemma updates_goes mid us c s w : sane s w → belongs s mid c →
  wp (process_keylist_updates mid us) (λ _ s' w', goes c s w s' w') (goes c s w) s w.
Proof.
  intros Hs Hb. unfold process_keylist_updates, update_keylist. apply wp_bind.
  eapply wp_mono; [apply (wp_fold _ (λ _ _ s' w', goes c s w s' w'))| |done]; [by apply goes_refl| |].
  - intros [[results added] removed] u rest s1 w1 Hg. apply wp_bind, wp_catch.
    eapply wp_mono; [apply (update_goes _ _ c); [sane_now|by eapply belongs_goes]| |].
    + intros [] s2 w2 Hg2. destruct (ku_action u); (apply wp_ret; by eapply goes_trans).
    + intros s2 w2 Hg2. split; [by eapply goes_trans|]. intros e. apply wp_ret. by eapply goes_trans.
  - intros [[results added] removed] s1 w1 Hg. apply wp_bind. case_decide; [by apply wp_ret, wp_ret|].
    eapply wp_mono; [apply (emit_goes _ c); sane_now|intros ? s2 w2 Hg2; cbv beta in Hg2; apply wp_ret; by eapply goes_trans|intros; by eapply goes_trans].
Qed.

Lemma request_goes conn c s w : sane s w →
  wp (process_mediation_request conn) (λ _ s' w', goes c s w s' w') (goes c s w) s w.
Proof.
  intros Hs. unfold process_mediation_request. apply wp_bind, wp_world. set (m := (mdb_build _ w).1). set (w1 := (mdb_build _ w).2).
  assert (Hg1 : goes c s w s w1).
  { apply good_mediations_same; [done| |exact (ko_mediations _ _ _ Hs)|done]. split; [done|cbn; lia]. }
  apply wp_bind. eapply wp_mono; [apply (save_mediation _ c); sane_now| |intros; by eapply goes_trans]. intros ? s2 w2 Hg2; cbv beta in Hg2.
  apply wp_bind. eapply wp_mono; [apply (emit_goes _ c); sane_now| |].
  - intros ? s3 w3 Hg3; cbv beta in Hg3. apply wp_ret. eapply goes_trans; [exact Hg1|]. by eapply goes_trans.
  - intros s3 w3 Hg3. eapply goes_trans; [exact Hg1|]. by eapply goes_trans.
Qed.

Lemma grant_goes mid thread_id c s w : sane s w →
  wp (grant_mediation mid thread_id) (λ _ s' w', goes c s w s' w') (goes c s w) s w.
Proof.
  intros Hs. unfold grant_mediation, transition_to. apply wp_bind, wp_bind. eapply wp_mono; [apply (find_mediation _ c); done| |done].
  intros o s1 w1 (Hg1 & [Hr1 Hk1] & Ho). destruct o as [m|]; [|by apply wp_bind, wp_throw]. apply wp_bind, wp_ret.
  destruct (ms_is_valid_transition_from MsGranted (md_state m)) eqn:Hv; [|by apply wp_throw]. apply wp_ret, wp_bind, wp_get.
  set (m' := md_set_routing _ _ _). assert (Hid : md_id m = mid) by exact (er_keyed _ _ _ (ko_mediations _ _ _ Hs) (eq_sym Ho)).
  assert (Hl : md_later m m') by (split_and!; try done; unfold ms_is_valid_transition_from in Hv; destruct (md_state m) eqn:Hst; try done).
  apply wp_bind. eapply wp_mono; [apply (update_mediation _ m c); [sane_now| |exact Hl]| |intros; by eapply goes_trans].
  { cbn. by rewrite Hid, Hr1. }
  intros ? s2 w2 Hg2; cbv beta in Hg2. apply wp_bind. eapply wp_mono; [apply (emit_goes _ c); sane_now| |intros s3 w3 Hg3; eapply goes_trans; [exact Hg1|]; by eapply goes_trans].
  intros ? s3 w3 Hg3; cbv beta in Hg3. apply wp_bind. unfold grant_new, new_id. apply wp_bind, wp_bind, wp_world, wp_ret, wp_ret, wp_ret.
  eapply goes_trans; [exact Hg1|]. eapply goes_trans; [exact Hg2|]. eapply goes_trans; [exact Hg3|]. apply good_mediations_same; [exact (goes_sane _ _ _ _ _ Hg3)| |exact (ko_mediations _ _ _ (goes_sane _ _ _ _ _ Hg3))|done]. split; [done|cbn; lia].
Qed.

(** ** Its handlers *)

Context `{Serde Message} `{Serde MediationRequestMessage} `{Serde MediationGrantMessage}.
Context `{Serde KeylistUpdateMessage} `{Serde KeylistUpdateResponseMessage}.

Lemma wp_mediated {A} (m : eff MediationError MDS A) Q F s w : wp m Q F s w → wp (mediated m) Q F s w.
Proof. intros Hm. by apply wp_zoom. Qed.
Lemma wp_ok_or {E S A} (e : E) (o : option A) (Q : A → S → World → Prop) F (t : S) w :
  (∀ a, o = Some a → Q a t w) → F t w → wp (me_ok_or e o) Q F t w.
Proof. destruct o; [intros Hq _; by apply wp_ret, Hq|intros _ Hf; by apply wp_throw]. Qed.

Lemma request_handle_goes auto inbound c s w : sane s w →
  wp (mediation_request_handle auto inbound) (λ _ s' w', goes c s w s' w') (goes c s w) s w.
Proof.
  intros Hs. pose proof (goes_refl c s w Hs) as Hrefl. unfold mediation_request_handle. apply wp_bind, wp_lift; [|done]. intros msg _.
  apply wp_bind, wp_ok_or; [|done]. intros conn _. apply wp_bind, wp_mediated. eapply wp_mono; [by apply (request_goes _ c)| |done].
  intros r s1 w1 Hg1; cbv beta in Hg1. destruct auto; [|by apply wp_ret]. apply wp_bind, wp_mediated.
  eapply wp_mono; [apply (grant_goes _ _ c); sane_now| |intros; by eapply goes_trans]. intros g s2 w2 Hg2; cbv beta in Hg2.
  assert (Hg : goes c s w s2 w2) by (by eapply goes_trans). apply wp_bind, wp_lift; [|done]. intros d _. by apply wp_ret.
Qed.

Lemma keylist_handle_goes inbound c s w : sane s w → (∀ c', ctx_connection_id (in_context inbound) = Some c' → c' = c) →
  wp (keylist_update_handle inbound) (λ _ s' w', goes c s w s' w') (goes c s w) s w.
Proof.
  intros Hs Hc. pose proof (goes_refl c s w Hs) as Hrefl. unfold keylist_update_handle. apply wp_bind, wp_lift; [|done]. intros msg _.
  apply wp_bind, wp_ok_or; [|done]. intros conn Hconn. apply Hc in Hconn as ->. apply wp_bind, wp_mediated.
  eapply wp_mono; [by apply (find_connection _ c)| |done]. intros o s1 w1 (Hg1 & [Hr1 _] & Ho). apply wp_bind, wp_ok_or; [|done].
  intros m ->. destruct (Ho m eq_refl) as [Hp%bool_decide_eq_true Hm]. apply wp_bind, wp_mediated.
  eapply wp_mono; [apply (updates_goes _ _ c); [sane_now|exists m; by rewrite Hr1]| |intros; by eapply goes_trans].
  intros results s2 w2 Hg2; cbv beta in Hg2. assert (Hg : goes c s w s2 w2) by (by eapply goes_trans).
  apply wp_bind. unfold kur_new, new_id. apply wp_bind, wp_bind, wp_world, wp_ret, wp_ret. set (w3 := (uuid_new_v4 w2).2).
  assert (Hg3 : goes c s w s2 w3).
  { eapply goes_trans; [exact Hg|]. apply good_mediations_same; [exact (goes_sane _ _ _ _ _ Hg)| |exact (ko_mediations _ _ _ (goes_sane _ _ _ _ _ Hg))|done].
    split; [done|cbn; lia]. }
  apply wp_bind, wp_lift; [|done]. intros d _. by apply wp_ret.
Qed.
End service.

(** ** The spellings of a key *)

Section spellings.
Context `{Bs58} `{!Bs58Laws}.

Lemma canonical_raw key : canonicalize_recipient_key (bs58_encode key) = bs58_encode key.
Proof.
  unfold canonicalize_recipient_key. destruct (str_strip_prefix "did:key:z" (bs58_encode key)) as [t|] eqn:Hs; [|done].
  apply strip_prefix_some in Hs. pose proof (bs58_plain key "key:z") as Hp. rewrite Hs in Hp.
  change ("did:" +:+ "key:z") with "did:key:z" in Hp. by rewrite starts_with_app in Hp.
Qed.
Lemma canonical_did_key key : String.length key = 32 → canonicalize_recipient_key (did_key key) = bs58_encode key.
Proof.
  intros Hl. unfold canonicalize_recipient_key, did_key, multicodec. rewrite strip_prefix_app, bs58_decode_encode. rewrite decide_True; [done|].
  cbn [String.length]. by rewrite Hl.
Qed.

(** The two spellings of an Ed25519 key - its base58 text and its [did:key] - have one
    canonical form, a canonical form is its own, and different keys keep different forms: so a
    key registered in one spelling is found in the other, and is not taken for another key. *)
Theorem spellings_agree (key key' other : string) : String.length key = 32 → String.length key' = 32 →
  canonicalize_recipient_key (did_key key) = canonicalize_recipient_key (bs58_encode key) ∧
  canonicalize_recipient_key (canonicalize_recipient_key other) = canonicalize_recipient_key other ∧
  (canonicalize_recipient_key (did_key key) = canonicalize_recipient_key (did_key key') → key = key').
Proof.
  intros Hl Hl'. rewrite !canonical_did_key, canonical_raw by done. split_and!; [done| |].
  - destruct (decide (canonicalize_recipient_key other = other)) as [Heq|Hne]; [by rewrite !Heq|].
    assert (∃ k, canonicalize_recipient_key other = bs58_encode k) as [k Hk].
    { revert Hne. unfold canonicalize_recipient_key. repeat case_match; try done. intros _. eauto. }
    by rewrite Hk, canonical_raw.
  - intros Heq. pose proof (bs58_decode_encode key) as Hk. rewrite Heq, bs58_decode_encode in Hk. congruence.
Qed.
End spellings.
