(* ===== verification/Forward.v ===== *)
(** Forwarding at a mediator: the live sessions
    ([src/protocols/coordinate_mediation/src/services/live_session_manager.rs]), the forward
    service ([services/forward_service.rs]) with its handler, and the mediator as it is put
    together ([src/mediator_server/src/app.rs]), whose services share their repositories.

    A channel of tokio is a bounded buffer in a store, and a sender is the number of its
    channel, so that one sender can serve several connections.  What the readers of the
    channels do while a delivery waits is a parameter ([WsReaders]).  Notifications are
    counted by the connections they are sent for; a notifier's failure is only logged. *)
From S2P Require Import Prelude AjnaTypes SerdeJson Storage Didcomm AnonCreds RecordRepo Issuance IssuanceMessages MessageQueue QueueRepo Pickup Mediation Keylists Keys Mediator.

(** * Live sessions *)

(** A bounded channel: what is buffered, how much fits, whether the receiver is there. *)
Record LiveChannel := mkChannel { ch_buffer : list string; ch_capacity : nat; ch_open : bool }.
Definition ch_full (c : LiveChannel) : bool := bool_decide (ch_capacity c ≤ length (ch_buffer c)).
Definition ch_push (m : string) (c : LiveChannel) : LiveChannel := mkChannel (ch_buffer c ++ [m]) (ch_capacity c) (ch_open c).

(** [src/protocols/coordinate_mediation/src/services/live_session_manager.rs:15-25] LiveSessionManager *)
Record LiveSessionManager := mkLive {
  lv_sessions : gmap string N;
  lv_binary_sessions : gmap string N;
  lv_channels : gmap N LiveChannel;
  lv_next : N
}.

(** What the readers do with the channels during a wait of a number of milliseconds. *)
Class WsReaders := { ws_read : N → gmap N LiveChannel → gmap N LiveChannel }.

(** [src/protocols/coordinate_mediation/src/services/live_session_manager.rs:29-34] LiveSessionManager::new *)
Definition lv_new : LiveSessionManager := mkLive ∅ ∅ ∅ 0.

Definition lv_set_channels (c : gmap N LiveChannel) (s : LiveSessionManager) : LiveSessionManager :=
  mkLive (lv_sessions s) (lv_binary_sessions s) c (lv_next s).

Section live.
Context `{HashOrder} `{WsReaders} {E : Type}.
Abbreviation lv := (eff E LiveSessionManager).

(** [mpsc::channel], which panics without a capacity. *)
Definition lv_channel (buffer_size : nat) : lv N :=
  if decide (buffer_size = 0) then eff_lift Panic
  else
    s ← eff_get;
    _ ← eff_modify (λ s, mkLive (lv_sessions s) (lv_binary_sessions s) (<[lv_next s := mkChannel [] buffer_size true]> (lv_channels s)) (lv_next s + 1));
    mret (lv_next s).

(** [Sender::try_send]: the error of a refused message, by its text. *)
Definition ch_try_send (id : N) (message : string) : lv (option string) := λ s w,
  match lv_channels s !! id with
  | Some c =>
      if negb (ch_open c) then (Ok (Some "channel closed"), s, w)
      else if ch_full c then (Ok (Some "no available capacity"), s, w)
      else (Ok None, lv_set_channels (<[id := ch_push message c]> (lv_channels s)) s, w)
  | None => (Ok (Some "channel closed"), s, w)
  end.

(** [src/protocols/coordinate_mediation/src/services/live_session_manager.rs:52-62] LiveSessionManager::register_session_with_sender *)
Definition register_session_with_sender (connection_id : string) (sender : N) : lv unit :=
  eff_modify (λ s, mkLive (<[connection_id := sender]> (lv_sessions s)) (lv_binary_sessions s) (lv_channels s) (lv_next s)).

(** [src/protocols/coordinate_mediation/src/services/live_session_manager.rs:40-49] LiveSessionManager::register_session *)
Definition register_session (connection_id : string) (buffer_size : nat) : lv N :=
  tx ← lv_channel buffer_size;
  _ ← register_session_with_sender connection_id tx;
  mret tx.

(** [src/protocols/coordinate_mediation/src/services/live_session_manager.rs:68-75] LiveSessionManager::register_binary_sender *)
Definition register_binary_sender (connection_id : string) (sender : N) : lv unit :=
  eff_modify (λ s, mkLive (lv_sessions s) (<[connection_id := sender]> (lv_binary_sessions s)) (lv_channels s) (lv_next s)).

(** [src/protocols/coordinate_mediation/src/services/live_session_manager.rs:80-86] LiveSessionManager::remove_session *)
Definition remove_session (connection_id : string) : lv unit :=
  eff_modify (λ s, mkLive (delete connection_id (lv_sessions s)) (delete connection_id (lv_binary_sessions s)) (lv_channels s) (lv_next s)).

(** [src/protocols/coordinate_mediation/src/services/live_session_manager.rs:89-91] LiveSessionManager::has_session *)
Definition has_session (connection_id : string) (s : LiveSessionManager) : bool := bool_decide (is_Some (lv_sessions s !! connection_id)).

(** [src/protocols/coordinate_mediation/src/services/live_session_manager.rs:97-109] LiveSessionManager::try_deliver *)
Definition try_deliver (connection_id message : string) : lv (option string) :=
  s ← eff_get;
  match lv_sessions s !! connection_id with
  | Some sender => refused ← ch_try_send sender message; mret ((λ e, "Failed to deliver to live session: " +:+ e) <$> refused)
  | None => mret (Some ("No live session for connection: " +:+ connection_id))
  end.

(** [src/protocols/coordinate_mediation/src/services/live_session_manager.rs:120-135] LiveSessionManager::try_deliver_binary *)
Definition try_deliver_binary (connection_id frame : string) : lv (option string) :=
  s ← eff_get;
  match lv_binary_sessions s !! connection_id with
  | Some sender => refused ← ch_try_send sender frame; mret ((λ e, "Failed to deliver binary to live session: " +:+ e) <$> refused)
  | None => mret (Some ("No binary live session for connection: " +:+ connection_id))
  end.

(** [Duration] of some milliseconds, below a second, by [Debug]. *)
Definition duration_debug (millis : N) : string := pretty millis +:+ "ms".

(** [src/protocols/coordinate_mediation/src/services/live_session_manager.rs:144-163] LiveSessionManager::deliver_or_drop *)
Definition deliver_or_drop (connection_id message : string) (timeout : N) : lv (option string) :=
  s ← eff_get;
  match lv_sessions s !! connection_id with
  | None => mret (Some ("No live session for connection: " +:+ connection_id))
  | Some sender =>
      _ ← eff_modify (λ s, lv_set_channels (ws_read timeout (lv_channels s)) s);
      refused ← ch_try_send sender message;
      mret ((λ e, if decide (e = "channel closed") then "Live session channel closed: channel closed"
                  else "Live session channel full beyond " +:+ duration_debug timeout +:+ " — falling back to queue") <$> refused)
  end.

(** [src/protocols/coordinate_mediation/src/services/live_session_manager.rs:166-168] LiveSessionManager::session_count *)
Definition session_count (s : LiveSessionManager) : nat := size (lv_sessions s).

(** [src/protocols/coordinate_mediation/src/services/live_session_manager.rs:171-181] LiveSessionManager::broadcast_all *)
Definition broadcast_all (message : string) : lv (N * N) :=
  s ← eff_get;
  eff_fold (λ stats entry,
    refused ← ch_try_send (snd entry) message;
    mret (match refused with None => (fst stats + 1, snd stats)%N | Some _ => (fst stats, snd stats + 1)%N end))
    (0%N, 0%N) (map_iter (lv_sessions s)).
End live.

(** * The forward service *)

(** [src/protocols/coordinate_mediation/src/services/forward_service.rs:20-20] FORWARD_STALE_RELIEF_TTL (nanoseconds) *)
Definition FORWARD_STALE_RELIEF_TTL : N := 604800000000000.
(** [src/protocols/coordinate_mediation/src/services/forward_service.rs:27-27] LIVE_PUSH_TIMEOUT (milliseconds) *)
Definition LIVE_PUSH_TIMEOUT : N := 500.
(** [src/protocols/coordinate_mediation/src/services/forward_service.rs:32-32] RECONNECT_REPLAY_BATCH *)
Definition RECONNECT_REPLAY_BATCH : N := 50.
(** [src/protocols/coordinate_mediation/src/services/forward_service.rs:216-216] MAX_QUEUE_PER_CONNECTION *)
Definition MAX_QUEUE_PER_CONNECTION : N := 1000.

(** [src/protocols/coordinate_mediation/src/services/forward_service.rs:81-88] ForwardingStrategy *)
Inductive ForwardingStrategy := QueueOnly | QueueAndLiveDelivery.
#[export] Instance ForwardingStrategy_eq_dec : EqDecision ForwardingStrategy.
Proof. solve_decision. Defined.

(** [src/protocols/coordinate_mediation/src/services/forward_service.rs:92-97] ForwardingStrategy::from_str_lossy *)
Definition fst_from_str_lossy (s : string) : ForwardingStrategy :=
  if decide (s = "queue-only" ∨ s = "queue_only") then QueueOnly else QueueAndLiveDelivery.

(** [src/protocols/coordinate_mediation/src/services/forward_service.rs:107-118] ForwardService (with a notifier as the list of the connections that it was called for) *)
Record ForwardService (RS KS Q : Type) := mkForwardService {
  fs_mediation_repo : RS;
  fs_keylist_repo : KS;
  fs_pickup_service : Q;
  fs_live_sessions : LiveSessionManager;
  fs_strategy : ForwardingStrategy;
  fs_push_notifier : option (list string)
}.
Arguments mkForwardService {RS KS Q}.
Arguments fs_mediation_repo {RS KS Q}.
Arguments fs_keylist_repo {RS KS Q}.
Arguments fs_pickup_service {RS KS Q}.
Arguments fs_live_sessions {RS KS Q}.
Arguments fs_strategy {RS KS Q}.
Arguments fs_push_notifier {RS KS Q}.

Section forward.
Context `{HashOrder} `{WsReaders} `{Bs58} `{Base64Engine} `{UuidText} `{Serde Message} {RS KS Q : Type}.
Context `{!ExchangeRepo RS MediationRecord MediationError} `{!KeylistRepo KS} `{!MessageQueueRepo Q}.
Abbreviation FS := (ForwardService RS KS Q).
Abbreviation fwd := (eff MediationError FS).

(** [src/protocols/coordinate_mediation/src/services/forward_service.rs:122-137] ForwardService::new *)
Definition fs_new (mediation_repo : RS) (keylist_repo : KS) (pickup_service : Q) (live_sessions : LiveSessionManager)
    (strategy : ForwardingStrategy) : FS :=
  mkForwardService mediation_repo keylist_repo pickup_service live_sessions strategy None.

(** [src/protocols/coordinate_mediation/src/services/forward_service.rs:144-147] ForwardService::with_push_notifier *)
Definition fs_with_push_notifier (s : FS) : FS :=
  mkForwardService (fs_mediation_repo s) (fs_keylist_repo s) (fs_pickup_service s) (fs_live_sessions s) (fs_strategy s) (Some []).

Definition fs_on_mediations {A} (m : eff MediationError RS A) : fwd A :=
  eff_zoom fs_mediation_repo (λ r s, mkForwardService r (fs_keylist_repo s) (fs_pickup_service s) (fs_live_sessions s) (fs_strategy s) (fs_push_notifier s)) id m.
Definition fs_on_keylists {A} (m : eff MediationError KS A) : fwd A :=
  eff_zoom fs_keylist_repo (λ k s, mkForwardService (fs_mediation_repo s) k (fs_pickup_service s) (fs_live_sessions s) (fs_strategy s) (fs_push_notifier s)) id m.
Definition fs_on_pickup {A} (what : string) (m : eff PickupError Q A) : fwd A :=
  eff_zoom fs_pickup_service (λ q s, mkForwardService (fs_mediation_repo s) (fs_keylist_repo s) q (fs_live_sessions s) (fs_strategy s) (fs_push_notifier s))
    (λ e, MeStorage (what +:+ pk_to_string e)) m.
Definition fs_on_live {A} (m : eff MediationError LiveSessionManager A) : fwd A :=
  eff_zoom fs_live_sessions (λ l s, mkForwardService (fs_mediation_repo s) (fs_keylist_repo s) (fs_pickup_service s) l (fs_strategy s) (fs_push_notifier s)) id m.
Definition fs_notify (connection_id : string) : fwd unit :=
  eff_modify (λ s, mkForwardService (fs_mediation_repo s) (fs_keylist_repo s) (fs_pickup_service s) (fs_live_sessions s) (fs_strategy s)
                     ((λ l, l ++ [connection_id]) <$> fs_push_notifier s)).

(** [src/protocols/coordinate_mediation/src/services/forward_service.rs:45-57] build_delivery_frame *)
Definition build_delivery_frame (delivery_id : string) (attachments : list Attachment) : fwd (option string) :=
  m ← eff_world (mb_new DELIVERY);
  let m := mb_thread delivery_id (mb_body (JObject []) (mb_id delivery_id m)) in
  match sd_to_text (foldl (λ m att, mb_add_attachment att m) m attachments) with
  | Ok text => mret (Some text)
  | Err _ => mret None
  | Panic => eff_lift Panic
  end.

(** [src/protocols/coordinate_mediation/src/services/forward_service.rs:61-78] encrypted_to_attachment *)
Definition encrypted_to_attachment (message_id encrypted_message : string) : Attachment :=
  mkAttachment (Some message_id) None None (Some "application/didcomm-encrypted+json") None None
    (Some (N.of_nat (String.length encrypted_message))) (ad_of_base64 (b64_encode encrypted_message)).

(** [src/protocols/coordinate_mediation/src/services/forward_service.rs:176-206] ForwardService::process_forward (the mediation of a key, which must be granted) *)
Definition route_of (recipient_key : string) : fwd MediationRecord :=
  found ← fs_on_keylists (kr_find_mediation_for_recipient_key (canonicalize_recipient_key recipient_key));
  keylist_record ← me_ok_or (MeNotFound ("No mediation found for recipient key: " +:+ recipient_key)) found;
  found ← fs_on_mediations (er_find_by_id (kl_mediation_id keylist_record));
  mediation_record ← me_ok_or (MeNotFound ("Mediation not found: " +:+ kl_mediation_id keylist_record)) found;
  if decide (md_state mediation_record = MsGranted) then mret mediation_record
  else eff_throw (MeInvalidState [MsGranted] (md_state mediation_record)).

(** [src/protocols/coordinate_mediation/src/services/forward_service.rs:208-236] ForwardService::process_forward (the cap of a queue, with relief) *)
Definition check_queue_cap (connection_id : string) : fwd unit :=
  counted ← eff_catch (fs_on_pickup "" (pm_pending_count connection_id));
  match counted with
  | inl _ => mret tt
  | inr count =>
      if decide (MAX_QUEUE_PER_CONNECTION ≤ count)%N then
        deleted ← eff_catch (fs_on_pickup "" (pm_delete_expired_for_connection connection_id FORWARD_STALE_RELIEF_TTL));
        let deleted := match deleted with inr n => n | inl _ => 0%N end in
        if decide (deleted = 0%N) then
          eff_throw (MeStorage ("Queue full for connection " +:+ connection_id +:+ " (" +:+ pretty count +:+ " messages, max " +:+
                                pretty MAX_QUEUE_PER_CONNECTION +:+ ")"))
        else mret tt
      else mret tt
  end.

(** [src/protocols/coordinate_mediation/src/services/forward_service.rs:287-336] ForwardService::process_forward (the live push, which may fail) *)
Definition live_push (connection_id message_id encrypted_message : string) : fwd unit :=
  s ← eff_get;
  if bool_decide (fs_strategy s = QueueAndLiveDelivery) && has_session connection_id (fs_live_sessions s) then
    frame ← build_delivery_frame message_id [encrypted_to_attachment message_id encrypted_message];
    match frame with
    | Some frame => _ ← fs_on_live (try_deliver connection_id frame); mret tt
    | None => mret tt
    end
  else mret tt.

(** [src/protocols/coordinate_mediation/src/services/forward_service.rs:152-339] ForwardService::process_forward *)
Definition process_forward (recipient_key encrypted_message : string) : fwd string :=
  if decide (MAX_FORWARDED_MESSAGE_SIZE_BYTES < N.of_nat (String.length encrypted_message))%N then
    eff_throw (MeStorage ("Forwarded message too large: " +:+ pretty (N.of_nat (String.length encrypted_message)) +:+ " bytes (max " +:+
                          pretty MAX_FORWARDED_MESSAGE_SIZE_BYTES +:+ ")"))
  else
    mediation_record ← route_of recipient_key;
    let connection_id := md_connection_id mediation_record in
    _ ← check_queue_cap connection_id;
    message_id ← fs_on_pickup "Failed to queue message: " (queue_message connection_id [recipient_key] encrypted_message);
    _ ← fs_notify connection_id;
    _ ← live_push connection_id message_id encrypted_message;
    mret message_id.

(** [src/protocols/coordinate_mediation/src/services/forward_service.rs:354-402] ForwardService::flush_queued_for_connection (one turn of the loop: what it pushed, and whether it goes on) *)
Definition flush_batch (connection_id : string) : fwd (nat * bool) :=
  request ← drq_new RECONNECT_REPLAY_BATCH;
  batch ← fs_on_pickup "flush take_from_queue: " (process_delivery_request request connection_id);
  match mdm_attachments batch with
  | [] => mret (0, false)
  | attachments =>
      let count := length attachments in
      frame ← build_delivery_frame (mdm_id batch) attachments;
      match frame with
      | None => mret (0, false)
      | Some frame =>
          refused ← fs_on_live (deliver_or_drop connection_id frame LIVE_PUSH_TIMEOUT);
          match refused with
          | Some _ => mret (0, false)
          | None => mret (count, bool_decide (N.to_nat RECONNECT_REPLAY_BATCH ≤ count))
          end
      end
  end.

(** [src/protocols/coordinate_mediation/src/services/forward_service.rs:351-413] ForwardService::flush_queued_for_connection *)
Fixpoint flush_queued_for_connection (fuel : nat) (connection_id : string) : fwd (option nat) :=
  match fuel with
  | 0 => mret None
  | S fuel =>
      turn ← flush_batch connection_id;
      let '(pushed, again) := turn in
      if (again : bool) then more ← flush_queued_for_connection fuel connection_id; mret (Nat.add pushed <$> more)
      else mret (Some pushed)
  end.
End forward.

(** * The forward handler *)

Section handler.
Context `{HashOrder} `{WsReaders} `{Bs58} `{Base64Engine} `{UuidText} `{Serde Message} `{Serde Json} {RS KS Q : Type}.
Context `{!ExchangeRepo RS MediationRecord MediationError} `{!KeylistRepo KS} `{!MessageQueueRepo Q}.
Abbreviation hd := (eff MessageHandlerError (ForwardService RS KS Q)).

(** [src/protocols/coordinate_mediation/src/handlers/mediator_forward_handler.rs:93-111] MediatorForwardHandler::handle (the recipient) *)
Definition forward_to (message : Message) : option string :=
  match json_get "to" (msg_body message) ≫= json_as_str with
  | Some s => Some s
  | None =>
      match msg_extra message !! "to" ≫= json_as_str with
      | Some s => Some s
      | None => msg_to message ≫= head
      end
  end.

(** [DateTime::timestamp]: whole seconds, rounded down. *)
Definition timestamp (t : Instant) : Z := t / 1000000000.

(** [src/protocols/coordinate_mediation/src/handlers/mediator_forward_handler.rs:86-173] MediatorForwardHandler::handle *)
Definition mediator_forward_handle (inbound : InboundMessage) : hd (option OutboundMessage) :=
  let message := in_message inbound in
  to ← me_ok_or (InvalidMessage "Missing 'to' field in forward message") (forward_to message);
  expired ← (match msg_expires_time message with
             | Some expires_time => now ← eff_world utc_now; mret (bool_decide (expires_time < timestamp now)%Z)
             | None => mret false
             end);
  if (expired : bool) then mret None
  else
    encrypted_msg ← me_ok_or (InvalidMessage "Missing 'msg' field in forward message") (body_or_extra "msg" message);
    encrypted_json ← eff_lift (match sd_to_text encrypted_msg with Ok t => Ok t | Err e => Err (ProcessingFailed e) | Panic => Panic end);
    if decide (MAX_FORWARDED_MESSAGE_SIZE_BYTES < N.of_nat (String.length encrypted_json))%N
    then eff_throw (InvalidMessage "Forwarded message too large")
    else _ ← mediated (process_forward to encrypted_json); mret None.
End handler.

(** * The mediator *)

(** [src/mediator_server/src/app.rs:146-184] MediatorApp::build (the services and what they share) *)
Record MediatorApp (RS KS Q : Type) := mkApp {
  app_mediator : MediatorService RS KS;
  app_queue : Q;
  app_live_sessions : LiveSessionManager;
  app_strategy : ForwardingStrategy;
  app_push_notifier : option (list string)
}.
Arguments mkApp {RS KS Q}.
Arguments app_mediator {RS KS Q}.
Arguments app_queue {RS KS Q}.
Arguments app_live_sessions {RS KS Q}.
Arguments app_strategy {RS KS Q}.
Arguments app_push_notifier {RS KS Q}.

Section app.
Context `{HashOrder} `{WsReaders} `{Bs58} `{Base64Engine} `{UuidText} `{Serde Message} `{Serde Json} {RS KS Q : Type}.
Context `{Serde MediationRequestMessage} `{Serde MediationGrantMessage} `{Serde KeylistUpdateMessage} `{Serde KeylistUpdateResponseMessage}.
Context `{!ExchangeRepo RS MediationRecord MediationError} `{!KeylistRepo KS} `{!MessageQueueRepo Q}.
Abbreviation APP := (MediatorApp RS KS Q).
Abbreviation hd := (eff MessageHandlerError APP).

(** The services of the mediator share the repositories ([Arc]). *)
Definition app_forward (s : APP) : ForwardService RS KS Q :=
  mkForwardService (mds_mediations (app_mediator s)) (mds_keylists (app_mediator s)) (app_queue s) (app_live_sessions s) (app_strategy s) (app_push_notifier s).
Definition with_forward (f : ForwardService RS KS Q) (s : APP) : APP :=
  let m := app_mediator s in
  mkApp (mkMediator (fs_mediation_repo f) (fs_keylist_repo f) (mds_endpoint m) (mds_routing_keys m) (mds_event_bus m))
    (fs_pickup_service f) (fs_live_sessions f) (fs_strategy f) (fs_push_notifier f).
Definition by_mediator {A} (m : eff MessageHandlerError (MediatorService RS KS) A) : hd A :=
  eff_zoom app_mediator (λ m s, mkApp m (app_queue s) (app_live_sessions s) (app_strategy s) (app_push_notifier s)) id m.
Definition by_forward {A} (m : eff MessageHandlerError (ForwardService RS KS Q) A) : hd A := eff_zoom app_forward with_forward id m.
Definition by_pickup {A} (m : eff MessageHandlerError Q A) : hd A :=
  eff_zoom app_queue (λ q s, mkApp (app_mediator s) q (app_live_sessions s) (app_strategy s) (app_push_notifier s)) id m.

(** [src/mediator_server/src/app.rs:223-252] MediatorApp::build (the handlers of mediation, forwarding and pickup) *)
Definition app_handler (auto_grant : bool) (msg_type : string) : option (InboundMessage → hd (option OutboundMessage)) :=
  if decide (msg_type = MEDIATE_REQUEST) then Some (λ i, by_mediator (mediation_request_handle auto_grant i))
  else if decide (msg_type = KEYLIST_UPDATE) then Some (λ i, by_mediator (keylist_update_handle i))
  else if decide (msg_type = FORWARD) then Some (λ i, by_forward (mediator_forward_handle i))
  else if decide (msg_type = STATUS_REQUEST) then Some (λ i, by_pickup (status_request_handle i))
  else if decide (msg_type = DELIVERY_REQUEST) then Some (λ i, by_pickup (delivery_request_handle i))
  else if decide (msg_type = MESSAGES_RECEIVED) then Some (λ i, by_pickup (messages_received_handle i))
  else if decide (msg_type = LIVE_DELIVERY_CHANGE) then Some (λ i, by_pickup (live_delivery_change_handle i))
  else None.
End app.
