(* ===== verification/ForwardProps.v ===== *)
(** What forwarding promises: a message that is accepted is in the queue of the connection that
    owns the key it was sent to, whatever other connections did before; and what is queued is
    delivered as it was sent. *)
From S2P Require Import Prelude AjnaTypes SerdeJson Storage Didcomm RecordRepo RecordSpec AnonCreds MessageQueue QueueRepo QueueStore Wp Pickup Mediation Keylists Keys Mediator MediationProps Forward.

(** ** Calls of a queue *)

Section queue.
Context `{ChronoCutoff} `{HashOrder}.
Implicit Types (q : MessageQueue) (w : World).

(** A call brings no message but the one it adds. *)
Lemma queue_call_ids {A} (c : queueE A) q w a q' w' i :
  queue_call c q w = (Ok a, q', w') → is_Some (mq_messages q' !! i) →
  is_Some (mq_messages q !! i) ∨ match c with QAdd m => i = qm_id m | _ => False end.
Proof.
  assert (Hsub : ∀ B (f : MessageQueue → B → MessageQueue) l q0,
    (∀ q b, is_Some (mq_messages (f q b) !! i) → is_Some (mq_messages q !! i)) → is_Some (mq_messages (foldl f q0 l) !! i) → is_Some (mq_messages q0 !! i)).
  { intros B f l q0 Hf. revert q0. induction l as [|j l IH]; intros q0; [done|]. intros Hi%IH. by apply Hf in Hi. }
  destruct c as [m|c k|c k|c k|c k n|ids|ids|j|c|age|c age]; cbn; try (by intros [= _ <- _]; left).
  - intros [= _ <- _]. cbn. rewrite lookup_insert_is_Some. destruct (decide (qm_id m = i)); [by right|left; naive_solver].
  - unfold mq_run, mq_take_from_queue. destruct (mq_by_connection q !! c); [|by intros [= _ <- _]; left]. intros [= _ <- _]. cbn. left.
    rewrite (foldl_alter_lookup qm_mark_sending qm_id) in * by done. by case_decide; [apply fmap_is_Some in H1|].
  - unfold mq_mod, eff_modify. intros [= _ <- _] Hi. left. apply Hsub in Hi; [done|]. intros q0 j. rewrite remove_lookup. by case_decide; [intros []|].
  - unfold mq_mod, eff_modify. intros [= _ <- _]. cbn. left. rewrite (foldl_alter_lookup qm_mark_pending (λ i : string, i)) in * by done.
    by case_decide; [apply fmap_is_Some in H1|].
  - unfold mq_run, mq_clear_connection. destruct (mq_by_connection q !! c); [|by intros [= _ <- _]; left]. intros [= _ <- _]. cbn. left.
    rewrite foldl_delete_lookup in *. case_decide; [by destruct H1|done].
  - unfold mq_expiry, mq_delete_expired. destruct (expiry_cutoff age w) as [[cut|] w1]; [|done]. intros [= _ <- _] Hi. left. apply Hsub in Hi; [done|].
    intros q0 [j conn]. cbn. rewrite lookup_delete_is_Some. tauto.
  - unfold mq_expiry, mq_delete_expired_for_connection. destruct (expiry_cutoff age w) as [[cut|] w1]; [|done].
    destruct (mq_by_connection q !! c); [|by intros [= _ <- _]; left]. intros [= _ <- _]. cbn. left.
    rewrite foldl_delete_lookup in *. case_decide; [by destruct H1|done].
Qed.

(** Relief of a connection takes only messages of the connection. *)
Lemma expire_for_kept c age q w n q' w' i y :
  mq_ok q → queue_call (QExpireFor c age) q w = (Ok n, q', w') → mq_messages q !! i = Some y →
  mq_messages q' !! i = Some y ∨ qm_connection_id y = c.
Proof.
  intros Hok. cbn. unfold mq_expiry, mq_delete_expired_for_connection. destruct (expiry_cutoff age w) as [[cut|] w1]; [|done].
  destruct (mq_by_connection q !! c) as [ids|] eqn:Hc; [|by intros [= _ <- _]; left]. intros [= _ <- _] Hy. cbn.
  rewrite foldl_delete_lookup. case_decide as Hin; [right|by left]. apply list_elem_of_fmap in Hin as (z & Hz & Hin).
  apply list_elem_of_filter in Hin as [_ Hin]. apply elem_of_mq_indexed in Hin as [Hz' <-]; [|done]. rewrite <-Hz in Hz'. by simplify_eq.
Qed.
Lemma expire_for_sub c age q w n q' w' i y :
  queue_call (QExpireFor c age) q w = (Ok n, q', w') → mq_messages q' !! i = Some y → mq_messages q !! i = Some y.
Proof.
  cbn. unfold mq_expiry, mq_delete_expired_for_connection. destruct (expiry_cutoff age w) as [[cut|] w1]; [|done].
  destruct (mq_by_connection q !! c) as [ids|]; [|by intros [= _ <- _]]. intros [= _ <- _]. cbn. rewrite foldl_delete_lookup. by case_decide.
Qed.
End queue.

Section mailbox.
Context `{ChronoCutoff} `{HashOrder} `{UuidText} {Q : Type} `{!MessageQueueRepo Q} `{!MessageQueueLaws Q} `{!QueueTime Q}.
Implicit Types (s : Q) (q : MessageQueue) (w : World).

(** A repository runs a queue in which no id occurs that will be drawn. *)
Definition queue_unused q w : Prop := ∀ n, w_un w ≤ n → mq_messages q !! uuid_text w n = None.
Definition mailbox s q w : Prop := qr_runs s q ∧ queue_unused q w ∧ uuids_distinct w.
Definition call_drawn {A} (c : queueE A) q w : Prop :=
  match c with QAdd m => mq_messages q !! qm_id m = None ∧ ∃ n, qm_id m = uuid_text w n ∧ n < w_un w | _ => True end.

Lemma mailbox_ok s q w : mailbox s q w → mq_ok q.
Proof. intros (Hr & _). by eapply qr_runs_ok. Qed.
Lemma mailbox_later s q w s' q' w' :
  mailbox s q w → world_le w w' → qr_runs s' q' → (∀ i, is_Some (mq_messages q' !! i) → is_Some (mq_messages q !! i)) → mailbox s' q' w'.
Proof.
  intros (_ & Hu & Hd) Hw Hr' Hsub. split; [done|]. split; [|by eapply uuids_distinct_later].
  intros n Hn. apply eq_None_not_Some. intros Hi%Hsub. rewrite (uuid_text_later w w') in Hi by done.
  rewrite Hu in Hi by (destruct Hw; lia). by destruct Hi.
Qed.

Lemma queue_call_spec {A} (c : queueE A) s q w :
  mailbox s q w → call_drawn c q w →
  wp (queue_call c)
    (λ a s' w', world_le w w' ∧ ∃ q0 w0 q' w1, q_same q q0 ∧ queue_call c q0 w0 = (Ok a, q', w1) ∧ mailbox s' q' w')
    (λ s' w', world_le w w' ∧ ∃ q0, q_same q q0 ∧ mailbox s' q0 w') s w.
Proof.
  intros Hbox Hdraw. pose proof Hbox as (Hr & Hu & Hd).
  assert (Hnew : call_new c q) by (destruct c; try done; apply Hdraw).
  pose proof (qr_simulates c s q w Hr Hnew) as Hsim. pose proof (qt_call c s w) as Ht.
  assert (Hsame : ∀ s' q0 w', world_le w w' → q_same q q0 → qr_runs s' q0 → mailbox s' q0 w').
  { intros s' q0 w' Hw [Hm _] Hr'. apply (mailbox_later s q w); [done..|]. by rewrite Hm. }
  unfold wp. destruct (queue_call c s w) as [[[a|e|] s'] w']; cbn in *.
  - destruct Hsim as (q0 & w0 & q' & w1 & Hq0 & Hcall & Hr'). split; [done|]. exists q0, w0, q', w1. split; [done|]. split; [done|].
    split; [done|]. split; [|by eapply uuids_distinct_later]. intros n Hn. apply eq_None_not_Some. intros Hi.
    rewrite (uuid_text_later w w') in Hi by done. assert (Hlt : w_un w ≤ n) by (destruct Ht; lia).
    destruct (queue_call_ids c q0 w0 a q' w1 _ Hcall Hi) as [Hin|Hin].
    + rewrite (proj1 Hq0), Hu in Hin by done. by destruct Hin.
    + destruct c; try done. destruct Hdraw as (_ & j & Hj & Hjn). rewrite Hj in Hin. apply Hd in Hin. lia.
  - destruct Hsim as (q0 & Hq0 & Hr'). split; [done|]. exists q0. by split; [|apply Hsame].
  - destruct Hsim as (q0 & Hq0 & Hr'). split; [done|]. exists q0. by split; [|apply Hsame].
Qed.

(** A message is queued. *)
Lemma queue_message_spec conn keys text s q w :
  mailbox s q w →
  wp (queue_message conn keys text)
    (λ id s' w', world_le w w' ∧ ∃ q' x, mailbox s' q' w' ∧ mq_messages q' = <[id := x]> (mq_messages q) ∧
      (∃ n, w_un w ≤ n ∧ id = uuid_text w n) ∧ qm_id x = id ∧ qm_connection_id x = conn ∧ qm_recipient_keys x = keys ∧
      qm_encrypted_message x = text ∧ qm_state x = Pending)
    (λ s' w', world_le w w' ∧ ∃ q0, q_same q q0 ∧ mailbox s' q0 w') s w.
Proof.
  intros Hbox. unfold queue_message. apply wp_bind, wp_world. cbn. set (x := mkQueued _ _ _ _ _ _). set (w1 := mkWorld _ _ _ _).
  assert (Hw1 : world_le w w1) by (split; [done|cbn; lia]).
  assert (Hfree : mq_messages q !! qm_id x = None) by (apply (proj1 (proj2 Hbox)); lia).
  assert (Hbox1 : mailbox s q w1) by (apply (mailbox_later s q w); [done|done|apply Hbox|done]).
  eapply wp_mono; [apply (queue_call_spec (QAdd x)); [exact Hbox1|]| |].
  - split; [done|]. exists (w_un w). split; [done|cbn; lia].
  - intros id s' w' (Hw & q0 & w0 & q' & w2 & [Hm _] & Hcall & Hbox'). cbn in Hcall. injection Hcall as <- <- _.
    split; [by etrans|]. eexists _, x. split; [exact Hbox'|]. cbn. rewrite Hm. split_and!; try done. by exists (w_un w).
  - intros s' w' (Hw & q0 & Hq0 & Hbox'). split; [by etrans|]. by exists q0.
Qed.
End mailbox.

(** ** The forward service *)

Section forward.
Context `{ChronoCutoff} `{HashOrder} `{WsReaders} `{Bs58} `{Base64Engine} `{UuidText} `{Serde Message} `{Serde MediationRecord} {RS KS Q : Type}.
Context `{!ExchangeRepo RS MediationRecord MediationError} `{!ExchangeRepoLaws RS MediationRecord MediationError} `{!RepoTime RS MediationRecord MediationError}.
Context `{!KeylistRepo KS} `{!KeylistLaws KS} `{!KeylistTime KS} `{!MessageQueueRepo Q} `{!MessageQueueLaws Q} `{!QueueTime Q}.
Abbreviation FS := (ForwardService RS KS Q).
Implicit Types (f : FS) (q : MessageQueue) (w : World).

Definition fs_sane f w : Prop := keys_ok (fs_mediation_repo f) (fs_keylist_repo f) w.
(** Nothing that concerns keys changes. *)
Definition fs_goes f w f' w' : Prop := ∀ c, good_for c (fs_mediation_repo f) (fs_keylist_repo f) w (fs_mediation_repo f') (fs_keylist_repo f') w'.
Definition fs_mailbox f q w : Prop := mailbox (fs_pickup_service f) q w.

Lemma fs_goes_refl f w : fs_sane f w → fs_goes f w f w.
Proof. intros Hs c. by apply good_for_refl. Qed.
Lemma fs_goes_trans f w f1 w1 f2 w2 : fs_goes f w f1 w1 → fs_goes f1 w1 f2 w2 → fs_goes f w f2 w2.
Proof. intros Ha Hb c. by eapply good_for_trans. Qed.
Lemma fs_goes_sane f w f' w' : fs_goes f w f' w' → fs_sane f' w'.
Proof. intros Hg. apply (Hg ""). Qed.
Lemma fs_goes_world f w f' w' : fs_goes f w f' w' → world_le w w'.
Proof. intros Hg. apply (Hg ""). Qed.
Lemma fs_goes_later f w f' w' :
  fs_sane f w → world_le w w' → fs_mediation_repo f' = fs_mediation_repo f → fs_keylist_repo f' = fs_keylist_repo f → fs_goes f w f' w'.
Proof. intros Hs Hw Hr Hk c. rewrite Hr, Hk. apply good_mediations_same; [done|done|exact (ko_mediations _ _ _ Hs)|done]. Qed.

(** Everything but the queue stays as it is, and the queue's messages stay. *)
Definition steady f q w f' w' : Prop := fs_goes f w f' w' ∧ ∃ q', q_same q q' ∧ fs_mailbox f' q' w'.

Lemma q_same_trans q q1 q2 : q_same q q1 → q_same q1 q2 → q_same q q2.
Proof. intros [H1a _] [H2a H2b]. split; [by rewrite H2a|done]. Qed.
Lemma mailbox_move (s : Q) q w w' : mailbox s q w → world_le w w' → mailbox s q w'.
Proof. intros Hb Hw. apply (mailbox_later s q w); [done|done|apply Hb|done]. Qed.
Lemma steady_trans f q w f1 w1 f2 w2 q1 :
  fs_goes f w f1 w1 → q_same q q1 → steady f1 q1 w1 f2 w2 → steady f q w f2 w2.
Proof. intros Hg Hq (Hg2 & q2 & Hq2 & Hb). split; [by eapply fs_goes_trans|]. exists q2. split; [by eapply q_same_trans|done]. Qed.
Lemma steady_refl f q w : fs_sane f w → fs_mailbox f q w → steady f q w f w.
Proof. intros Hs Hb. split; [by apply fs_goes_refl|]. exists q. split; [split; [done|by eapply mailbox_ok]|done]. Qed.
Lemma steady_frame f q w f' w' :
  fs_sane f w → fs_mailbox f q w → world_le w w' → fs_mediation_repo f' = fs_mediation_repo f → fs_keylist_repo f' = fs_keylist_repo f →
  fs_pickup_service f' = fs_pickup_service f → steady f q w f' w'.
Proof.
  intros Hs Hb Hw Hr Hk Hp. split; [by apply fs_goes_later|]. exists q. split; [split; [done|by eapply mailbox_ok]|].
  unfold fs_mailbox. rewrite Hp. by apply (mailbox_move _ _ w).
Qed.

(** The mediation that a key leads to is that of its owner, and granted. *)
Lemma route_spec to f q w : fs_sane f w → fs_mailbox f q w →
  wp (route_of to)
    (λ m f' w', steady f q w f' w' ∧ md_state m = MsGranted ∧
      key_owner (fs_mediation_repo f) (fs_keylist_repo f) (canonicalize_recipient_key to) (md_connection_id m))
    (steady f q w) f w.
Proof.
  intros Hs Hb. set (key := canonicalize_recipient_key to). unfold route_of. apply wp_bind, wp_zoom.
  pose proof (kr_route_law key (fs_keylist_repo f) w (ko_keylists _ _ _ Hs)) as Hl. pose proof (kt_route key (fs_keylist_repo f) w) as Ht.
  assert (Hk : ∀ k' w', kr_keeps kr_ok kr_view kr_used (fs_keylist_repo f) k' → world_le w w' →
    steady f q w (mkForwardService (fs_mediation_repo f) k' (fs_pickup_service f) (fs_live_sessions f) (fs_strategy f) (fs_push_notifier f)) w').
  { intros k' w' Hkeep Hw. split; [intros c; by apply good_keylists_same|]. exists q. split; [split; [done|by eapply mailbox_ok]|].
    by apply (mailbox_move _ _ w). }
  unfold wp at 1. fold key. destruct (kr_find_mediation_for_recipient_key key (fs_keylist_repo f) w) as [[[o|e|] k1] w1]; cbn in Hl, Ht; [|by apply Hk..].
  destruct Hl as [Hkeep Ho]. pose proof (Hk k1 w1 Hkeep Ht) as Hst. set (f1 := mkForwardService _ k1 _ _ _ _) in *.
  apply wp_bind, wp_ok_or; [|done]. intros x ->. destruct Ho as [Hkey Hx]. destruct Hst as (Hg1 & q1 & Hq1 & Hb1).
  pose proof (fs_goes_sane _ _ _ _ Hg1) as Hs1. apply wp_bind, wp_zoom. cbn [fs_mediation_repo f1].
  pose proof (er_find_by_id_law (kl_mediation_id x) (fs_mediation_repo f) w1 (ko_mediations _ _ _ Hs)) as Hl2.
  pose proof (rt_find_by_id (E:=MediationError) (kl_mediation_id x) (fs_mediation_repo f) w1) as Ht2.
  assert (Hr : ∀ r' w', er_ok r' → (∀ id, er_view r' id = er_view (fs_mediation_repo f) id) → world_le w1 w' →
    steady f q w (mkForwardService r' k1 (fs_pickup_service f) (fs_live_sessions f) (fs_strategy f) (fs_push_notifier f)) w').
  { intros r' w' Hok Hv Hw. apply (steady_trans f q w f1 w1 _ _ q1); [done|done|]. split; [intros c; by apply good_mediations_same|].
    exists q1. split; [split; [done|by eapply mailbox_ok]|]. by apply (mailbox_move _ _ w1). }
  unfold wp at 1. destruct (er_find_by_id (kl_mediation_id x) (fs_mediation_repo f) w1) as [[[o|e|] r2] w2]; cbn in Hl2, Ht2; [|destruct Hl2 as [Hok Hv]; by apply Hr..].
  destruct Hl2 as (Hok & -> & Hv). pose proof (Hr r2 w2 Hok Hv Ht2) as Hst2.
  apply wp_bind, wp_ok_or; [|done]. intros m Hm. case_decide as Hgranted; [|by apply wp_throw]. apply wp_ret.
  split; [exact Hst2|]. split; [done|]. by exists (kl_id x), x, m.
Qed.

(** Only messages of one connection may be missing, and none is new. *)
Definition trimmed (c : string) q q' : Prop :=
  (∀ i y, mq_messages q' !! i = Some y → mq_messages q !! i = Some y) ∧
  (∀ i y, mq_messages q !! i = Some y → mq_messages q' !! i = Some y ∨ qm_connection_id y = c).
Lemma trimmed_same c q q' : q_same q q' → trimmed c q q'.
Proof. intros [Hm _]. split; intros i y; rewrite Hm; [done|by left]. Qed.
Lemma trimmed_trans c q q1 q2 : trimmed c q q1 → trimmed c q1 q2 → trimmed c q q2.
Proof. intros [Ha Hb] [Hc Hd]. split; [by eauto|]. intros i y [Hy|]%Hb; [by apply Hd|by right]. Qed.

(** The queue may have been relieved; the keys are as they were. *)
Definition relieved (c : string) f q w f' w' : Prop := fs_goes f w f' w' ∧ ∃ q', trimmed c q q' ∧ fs_mailbox f' q' w'.
Lemma relieved_steady c f q w f' w' : steady f q w f' w' → relieved c f q w f' w'.
Proof. intros (Hg & q' & Hq & Hb). split; [done|]. exists q'. split; [by apply trimmed_same|done]. Qed.
Lemma relieved_trans c f q w f1 w1 f2 w2 q1 :
  fs_goes f w f1 w1 → trimmed c q q1 → relieved c f1 q1 w1 f2 w2 → relieved c f q w f2 w2.
Proof. intros Hg Hq (Hg2 & q2 & Hq2 & Hb). split; [by eapply fs_goes_trans|]. exists q2. split; [by eapply trimmed_trans|done]. Qed.
Lemma relieved_pickup c f q w s' w' q' : fs_sane f w → world_le w w' → trimmed c q q' → mailbox s' q' w' →
  relieved c f q w (mkForwardService (fs_mediation_repo f) (fs_keylist_repo f) s' (fs_live_sessions f) (fs_strategy f) (fs_push_notifier f)) w'.
Proof. intros Hs Hw Hq Hb. split; [by apply fs_goes_later|]. by exists q'. Qed.

(** Making room takes only messages of the connection. *)
Lemma cap_spec c f q w : fs_sane f w → fs_mailbox f q w →
  wp (check_queue_cap c) (λ _, relieved c f q w) (relieved c f q w) f w.
Proof.
  intros Hs Hb. pose proof (mailbox_ok _ _ _ Hb) as Hok. unfold check_queue_cap. apply wp_bind, wp_catch, wp_zoom.
  eapply wp_mono; [by apply (queue_call_spec (QPendingCount c None) _ q)| |].
  2:{ intros s' w' (Hw & q0 & Hq0 & Hb'). assert (Hrel : relieved c f q w (mkForwardService _ _ s' _ _ _) w') by (apply (relieved_pickup c f q w s' w' q0); [done|done|by apply trimmed_same|done]).
      split; [exact Hrel|]. intros _. by apply wp_ret. }
  intros n s1 w1 (Hw1 & q0 & w0 & q1 & w2 & Hq0 & [= _ <- _] & Hb1).
  assert (Hrel : relieved c f q w (mkForwardService (fs_mediation_repo f) (fs_keylist_repo f) s1 (fs_live_sessions f) (fs_strategy f) (fs_push_notifier f)) w1)
    by (apply (relieved_pickup c f q w s1 w1 q0); [done|done|by apply trimmed_same|done]).
  set (f1 := mkForwardService _ _ s1 _ _ _) in *. pose proof (fs_goes_sane _ _ _ _ (proj1 Hrel)) as Hs1.
  case_decide; [|by apply wp_ret]. apply wp_bind, wp_catch, wp_zoom.
  assert (Hend : ∀ s2 w2' q2 (d : () + N), world_le w1 w2' → trimmed c q q2 → mailbox s2 q2 w2' →
    relieved c f q w (mkForwardService (fs_mediation_repo f1) (fs_keylist_repo f1) s2 (fs_live_sessions f1) (fs_strategy f1) (fs_push_notifier f1)) w2').
  { intros s2 w2' q2 _ Hw2 Hq2 Hb2. apply (relieved_pickup c f q w s2 w2' q2); [done|by etrans|done|done]. }
  eapply wp_mono; [by apply (queue_call_spec (QExpireFor c FORWARD_STALE_RELIEF_TTL) _ q0)| |].
  - intros d s2 w2' (Hw2 & q0' & w0' & q2 & w3 & Hq0' & Hcall & Hb2).
    assert (Hq2 : trimmed c q q2).
    { apply (trimmed_trans c q q0'); [apply trimmed_same; exact (q_same_trans _ _ _ Hq0 Hq0')|]. split; [|intros i y; by eapply expire_for_kept, Hcall; apply Hq0'].
      intros i y Hy. eapply expire_for_sub; [exact Hcall|done]. }
    case_decide; [apply wp_throw|apply wp_ret]; by apply (Hend s2 w2' q2 (inr d)).
  - intros s2 w2' (Hw2 & q2 & Hq2 & Hb2).
    assert (Hrel2 : relieved c f q w (mkForwardService (fs_mediation_repo f1) (fs_keylist_repo f1) s2 (fs_live_sessions f1) (fs_strategy f1) (fs_push_notifier f1)) w2').
    { apply (Hend s2 w2' q2 (inl tt)); [done| |done]. apply trimmed_same. exact (q_same_trans _ _ _ Hq0 Hq2). }
    split; [exact Hrel2|]. intros _. rewrite decide_True by done. by apply wp_throw.
Qed.

(** Pushing to a live session touches no more than the sessions. *)
Definition beside f w f' w' : Prop :=
  world_le w w' ∧ fs_mediation_repo f' = fs_mediation_repo f ∧ fs_keylist_repo f' = fs_keylist_repo f ∧ fs_pickup_service f' = fs_pickup_service f.
Lemma live_frame {A} (m : eff MediationError LiveSessionManager A) f w : keeps_time m → wp (fs_on_live (RS:=RS) (KS:=KS) (Q:=Q) m) (λ _, beside f w) (beside f w) f w.
Proof.
  intros Hm. apply wp_zoom. specialize (Hm (fs_live_sessions f) w). unfold wp.
  by destruct (m (fs_live_sessions f) w) as [[[a|e|] l] w'].
Qed.
Lemma beside_trans f w f1 w1 f2 w2 : beside f w f1 w1 → beside f1 w1 f2 w2 → beside f w f2 w2.
Proof. intros (? & ? & ? & ?) (? & ? & ? & ?). split; [by etrans|]. split_and!; congruence. Qed.
Lemma try_send_time {E} id m : keeps_time (E:=E) (ch_try_send id m).
Proof. intros s w. unfold ch_try_send. by repeat case_match. Qed.
Lemma frame_spec id l f w : wp (build_delivery_frame (RS:=RS) (KS:=KS) (Q:=Q) id l) (λ _, beside f w) (beside f w) f w.
Proof.
  unfold build_delivery_frame. apply wp_bind, wp_world. set (w1 := (mb_new DELIVERY w).2).
  assert (Hw : beside f w f w1) by (split; [split; [done|cbn; lia]|done]).
  cbn. destruct (sd_to_text _); [by apply wp_ret|by apply wp_ret|by apply wp_lift].
Qed.
Lemma push_spec c id text f w : wp (live_push (RS:=RS) (KS:=KS) (Q:=Q) c id text) (λ _, beside f w) (beside f w) f w.
Proof.
  assert (Hf : beside f w f w) by done. unfold live_push. apply wp_bind, wp_get. destruct (_ && _); [|by apply wp_ret].
  apply wp_bind. eapply wp_mono; [apply frame_spec| |done]. intros [frame|] f1 w1 Hf1; [|by apply wp_ret]. apply wp_bind.
  eapply wp_mono; [apply live_frame| |].
  - unfold try_deliver. apply time_bind; [apply time_get|]. intros s. destruct (_ !! _); [|apply time_ret]. apply time_bind; [apply try_send_time|]. intros. apply time_ret.
  - intros a f2 w2 Hf2. apply wp_ret. by eapply beside_trans.
  - intros f2 w2 Hf2. by eapply beside_trans.
Qed.

(** The queue holds a new message for a connection; of the other messages, only some of the same
    connection may be missing. *)
Record accepted (c to text id : string) q q' (x : QueuedMessage) : Prop := {
  ac_queued : mq_messages q' !! id = Some x;
  ac_fresh : mq_messages q !! id = None;
  ac_connection : qm_connection_id x = c;
  ac_keys : qm_recipient_keys x = [to];
  ac_text : qm_encrypted_message x = text;
  ac_pending : qm_state x = Pending;
  ac_size : (N.of_nat (String.length text) ≤ MAX_FORWARDED_MESSAGE_SIZE_BYTES)%N;
  ac_others i y : i ≠ id → mq_messages q' !! i = Some y → mq_messages q !! i = Some y;
  ac_kept i y : mq_messages q !! i = Some y → mq_messages q' !! i = Some y ∨ qm_connection_id y = c
}.
(** What a forward does that is not accepted: no message of another connection is lost. *)
Definition refused f q w f' w' : Prop :=
  fs_goes f w f' w' ∧ ∃ c q', (∀ i y, mq_messages q !! i = Some y → mq_messages q' !! i = Some y ∨ qm_connection_id y = c) ∧ fs_mailbox f' q' w'.
Definition queued_for_owner to text f q w id f' w' : Prop :=
  fs_goes f w f' w' ∧ ∃ c q' x, key_owner (fs_mediation_repo f) (fs_keylist_repo f) (canonicalize_recipient_key to) c ∧
    accepted c to text id q q' x ∧ fs_mailbox f' q' w'.

Lemma relieved_refused c f q w f' w' : relieved c f q w f' w' → refused f q w f' w'.
Proof. intros (Hg & q' & [_ Hq] & Hb). split; [done|]. by exists c, q'. Qed.
Lemma beside_goes f q w f' w' : fs_sane f w → fs_mailbox f q w → beside f w f' w' → fs_goes f w f' w' ∧ fs_mailbox f' q w'.
Proof.
  intros Hs Hb (Hw & Hr & Hk & Hp). split; [by apply fs_goes_later|]. unfold fs_mailbox. rewrite Hp. by apply (mailbox_move _ _ w).
Qed.

Lemma forward_spec to text f q w : fs_sane f w → fs_mailbox f q w →
  wp (process_forward to text) (queued_for_owner to text f q w) (refused f q w) f w.
Proof.
  intros Hs Hb. unfold process_forward. case_decide as Hsize.
  { apply wp_throw. by apply (relieved_refused ""), relieved_steady, steady_refl. }
  apply wp_bind. eapply wp_mono; [by apply route_spec| |intros f1 w1 Hst; by apply (relieved_refused ""), relieved_steady].
  intros m f1 w1 (Hst1 & _ & Hown). set (c := md_connection_id m). pose proof Hst1 as (Hg1 & q1 & Hq1 & Hb1).
  pose proof (fs_goes_sane _ _ _ _ Hg1) as Hs1. apply wp_bind.
  assert (Hback : ∀ f2 w2, relieved c f1 q1 w1 f2 w2 → relieved c f q w f2 w2).
  { intros f2 w2. apply relieved_trans; [done|]. by apply trimmed_same. }
  eapply wp_mono; [by apply (cap_spec c f1 q1 w1)| |intros f2 w2 Hrel; by apply (relieved_refused c), Hback].
  intros [] f2 w2 Hrel%Hback. pose proof Hrel as (Hg2 & q2 & Hq2 & Hb2). pose proof (fs_goes_sane _ _ _ _ Hg2) as Hs2.
  apply wp_bind, wp_zoom. eapply wp_mono; [by apply (queue_message_spec c [to] text _ q2)| |].
  2:{ intros s3 w3 (Hw3 & q3 & Hq3 & Hb3). apply (relieved_refused c). apply (relieved_trans c f q w f2 w2 _ _ q2); [done..|].
      by apply (relieved_pickup c f2 q2 w2 s3 w3 q3); [..|apply trimmed_same|]. }
  intros id s3 w3 (Hw3 & q3 & x & Hb3 & Hq3 & (n & Hn & Hid) & Hidx & Hc & Hkeys & Htext & Hpend). set (f3 := mkForwardService _ _ s3 _ _ _).
  assert (Hg3 : fs_goes f w f3 w3) by (eapply fs_goes_trans; [exact Hg2|by apply fs_goes_later]).
  pose proof (fs_goes_world _ _ _ _ Hg2) as Hw2.
  assert (Hfree : mq_messages q !! id = None).
  { rewrite Hid, (uuid_text_later w w2) by done. apply (proj1 (proj2 Hb)). destruct Hw2. lia. }
  assert (Hacc : accepted c to text id q q3 x).
  { destruct Hq2 as [Hsub Hkept]. split; try done; try lia.
    - by rewrite Hq3, lookup_insert_eq.
    - intros i y Hi. rewrite Hq3, lookup_insert_ne by done. apply Hsub.
    - intros i y Hy. rewrite Hq3. destruct (Hkept _ _ Hy) as [Hy2|]; [left|by right]. rewrite lookup_insert_ne; [done|]. intros ->. congruence. }
  assert (Hend : ∀ f4 w4, beside f3 w3 f4 w4 → queued_for_owner to text f q w id f4 w4).
  { intros f4 w4 Hf4. destruct (beside_goes f3 q3 w3 f4 w4 (fs_goes_sane _ _ _ _ Hg3) Hb3 Hf4) as [Hg4 Hb4].
    split; [by eapply fs_goes_trans|]. by exists c, q3, x. }
  assert (Hpanic : ∀ f4 w4, beside f3 w3 f4 w4 → refused f q w f4 w4).
  { intros f4 w4 (Hg & c' & q4 & x' & _ & Hacc' & Hb4)%Hend. split; [done|]. exists c', q4. split; [|done]. by apply Hacc'. }
  apply wp_bind, wp_modify, wp_bind. set (f3' := mkForwardService _ _ _ _ _ _). assert (Hf3 : beside f3 w3 f3' w3) by done.
  eapply wp_mono; [apply push_spec| |].
  - intros [] f4 w4 Hf4. apply wp_ret, Hend. by eapply beside_trans.
  - intros f4 w4 Hf4. apply Hpanic. by eapply beside_trans.
Qed.
End forward.
