(* ===== verification/AppProps.v ===== *)
(** What the mediator promises as a whole: whatever messages come in, the registered keys stay
    in order and the queue stays consistent; a connection's keys and mediations are out of
    reach of the messages of other connections; and mail for a key reaches its owner. *)
From S2P Require Import Prelude AjnaTypes SerdeJson Storage Didcomm RecordRepo RecordSpec AnonCreds Issuance IssuanceMessages MessageQueue QueueRepo QueueStore Wp Pickup Mediation Keylists Keys Mediator MediationProps Forward ForwardProps.

(** ** What the pickup handlers do to the queue *)

Section mail.
Context `{ChronoCutoff} `{HashOrder} `{Base64Engine} `{UuidText} {Q : Type} `{!MessageQueueRepo Q} `{!MessageQueueLaws Q} `{!QueueTime Q}.
Implicit Types (s : Q) (w : World).

Definition has_mail s w : Prop := ∃ q, mailbox s q w.
Definition mail_kept {E A} (m : eff E Q A) : Prop := ∀ s w, has_mail s w → world_le w (m s w).2 ∧ has_mail (m s w).1.2 (m s w).2.

Lemma mail_ret {E A} (a : A) : mail_kept (E:=E) (mret a).
Proof. by intros s w. Qed.
Lemma mail_lift {E A} (r : outcome E A) : mail_kept (eff_lift r).
Proof. by intros s w. Qed.
Lemma mail_throw {E A} (e : E) : mail_kept (A:=A) (eff_throw e).
Proof. by intros s w. Qed.
Lemma mail_bind {E A B} (m : eff E Q A) (k : A → eff E Q B) : mail_kept m → (∀ a, mail_kept (k a)) → mail_kept (m ≫= k).
Proof.
  intros Hm Hk s w Hs. destruct (Hm s w Hs) as [Hw Hs']. unfold mbind, eff_bind. destruct (m s w) as [[[a|e|] s'] w']; [|done..].
  destruct (Hk a s' w' Hs') as [Hw2 Hs2]. split; [by etrans|done].
Qed.
Lemma mail_catch {E A} (m : eff E Q A) : mail_kept m → mail_kept (eff_catch m).
Proof. intros Hm s w Hs. specialize (Hm s w Hs). unfold eff_catch. by destruct (m s w) as [[[a|e|] s'] w']. Qed.
Lemma mail_world {E A} (f : World → A * World) : (∀ w, world_le w (f w).2) → mail_kept (E:=E) (eff_world f).
Proof.
  intros Hf s w [q Hq]. specialize (Hf w). unfold eff_world. destruct (f w) as [a w']. split; [done|]. exists q.
  by apply (mailbox_later s q w); [| |apply Hq|].
Qed.
Lemma mail_serviced {A} (m : eff PickupError Q A) : mail_kept m → mail_kept (serviced m).
Proof. intros Hm s w Hs. specialize (Hm s w Hs). unfold serviced, eff_zoom. cbn. by destruct (m s w) as [[[a|e|] s'] w']. Qed.
Lemma mail_call {A} (c : queueE A) : (match c with QAdd _ => False | _ => True end) → mail_kept (queue_call c).
Proof.
  intros Hc s w [q Hq]. assert (Hd : call_drawn c q w) by (by destruct c).
  pose proof (queue_call_spec c s q w Hq Hd) as Hr. unfold wp in Hr. destruct (queue_call c s w) as [[[a|e|] s'] w']; cbn.
  - destruct Hr as (Hw & _ & _ & q' & _ & _ & _ & Hq'). split; [done|]. by exists q'.
  - destruct Hr as (Hw & q' & _ & Hq'). split; [done|]. by exists q'.
  - destruct Hr as (Hw & q' & _ & Hq'). split; [done|]. by exists q'.
Qed.

Ltac keep_mail :=
  repeat first
    [ apply mail_ret | apply mail_lift | apply mail_throw | apply mail_catch | apply mail_serviced | apply mail_bind; [|intros ?]
    | apply mail_call; exact Logic.I | apply mail_world; intros ?; split; cbn; [done|lia]
    | match goal with
      | |- mail_kept (match ?x with _ => _ end) => destruct x
      | |- mail_kept (let _ := _ in _) => cbv zeta
      end ].

Lemma status_mail inbound : mail_kept (status_request_handle (Q:=Q) inbound).
Proof. unfold status_request_handle, need_connection, process_status_request, stm_new, build_status_response, new_id. keep_mail. Qed.
Lemma delivery_mail inbound : mail_kept (delivery_request_handle (Q:=Q) inbound).
Proof. unfold delivery_request_handle, need_connection, process_delivery_request, mdm_new, build_delivery_response, new_id. keep_mail. Qed.
Lemma received_mail inbound : mail_kept (messages_received_handle (Q:=Q) inbound).
Proof. unfold messages_received_handle, need_connection, process_messages_received, stm_new, build_received_response, new_id. keep_mail. Qed.
Lemma live_mail inbound : mail_kept (live_delivery_change_handle (Q:=Q) inbound).
Proof. unfold live_delivery_change_handle, need_connection, get_queue_count, stm_new, build_live_response, new_id. keep_mail. Qed.
End mail.

(** ** Delivery *)

Section delivery.
Context `{ChronoCutoff} `{HashOrder} `{Base64Engine} `{!Base64EngineLaws} `{Base64Errors} `{JsonText} `{UuidText} {Q : Type} `{!MessageQueueRepo Q} `{!MessageQueueLaws Q} `{!QueueTime Q}.
Implicit Types (s : Q) (q : MessageQueue) (w : World).

(** The pending messages are those of the same queue in another order. *)
Lemma pending_same q q' c key : mq_ok q → q_same q q' → mq_pending q' c key ≡ₚ mq_pending q c key.
Proof.
  intros Hq [Hm Hq']. apply NoDup_Permutation; [eapply NoDup_fmap_1, NoDup_mq_pending, Hq'|eapply NoDup_fmap_1, NoDup_mq_pending, Hq|].
  intros x. by rewrite !elem_of_mq_pending, Hm by done.
Qed.
Lemma take_all q c key limit : N.to_nat limit ≥ length (mq_pending q c key) → (mq_take_from_queue q c key limit).1 ≡ₚ mq_pending q c key.
Proof.
  intros Hl. unfold mq_take_from_queue. destruct (mq_by_connection q !! c) as [ids|] eqn:Hc.
  - cbn. rewrite take_ge by (rewrite (Permutation_length (sort_by_key_perm _ _)); done). apply sort_by_key_perm.
  - cbn. unfold mq_pending, mq_indexed. by rewrite Hc.
Qed.

(** What the recipient reads in an attachment is what was queued. *)
Definition delivered_as (x : QueuedMessage) : DeliveredMessage := mkDelivered (qm_id x) (qm_encrypted_message x).
Lemma delivered_attachments l : delivered_messages (message_attachment <$> l) = Ok (delivered_as <$> l).
Proof. induction l as [|x l IH]; [done|]. cbn. unfold delivered_message. cbn. rewrite b64_decode_encode. cbn. by rewrite IH. Qed.

(** With room for all, a request gives every pending message, as it was queued. *)
Lemma delivery_spec request c s q w : mailbox s q w →
  (N.of_nat (length (mq_pending q c (drq_recipient_key request))) ≤ drq_limit request)%N →
  wp (process_delivery_request request c)
    (λ batch _ _, ∃ l, delivered_messages (mdm_attachments batch) = Ok (delivered_as <$> l) ∧ l ≡ₚ mq_pending q c (drq_recipient_key request))
    (λ _ _, True) s w.
Proof.
  intros Hb Hl. unfold process_delivery_request. apply wp_bind.
  eapply wp_mono; [by apply (queue_call_spec (QTake c (drq_recipient_key request) (drq_limit request)) s q w)| |done].
  intros taken s1 w1 (_ & q0 & w0 & q1 & w2 & Hq0 & Hcall & _). cbn in Hcall. unfold mq_run in Hcall.
  pose proof (pending_same q q0 c (drq_recipient_key request) (mailbox_ok _ _ _ Hb) Hq0) as Hp.
  pose proof (take_all q0 c (drq_recipient_key request) (drq_limit request)) as Ht. destruct (mq_take_from_queue q0 c _ _) as [l q2].
  injection Hcall as <- _ _. unfold wp. cbn.
  exists l. split; [|rewrite Ht; [done|]; rewrite Hp; lia]. destruct (drq_recipient_key request); apply delivered_attachments.
Qed.
End delivery.

(** ** Flushing to a session *)

Section flush.
Context `{ChronoCutoff} `{HashOrder} `{Base64Engine} `{UuidText} {Q : Type} `{!MessageQueueRepo Q} `{!MessageQueueLaws Q} `{!QueueTime Q}.
Implicit Types (s : Q) (q : MessageQueue) (w : World).

(** What is taken is no longer pending; the rest is, and nothing is lost. *)
Lemma take_splits q c limit : mq_ok q →
  let '(l, q') := mq_take_from_queue q c None limit in
  l ++ mq_pending q' c None ≡ₚ mq_pending q c None ∧ (∀ i, is_Some (mq_messages q' !! i) ↔ is_Some (mq_messages q !! i)).
Proof.
  intros Hq. pose proof (mq_step_ok q _ Hq (mq_step_take q c None limit)) as Hq'. unfold mq_take_from_queue in *.
  destruct (mq_by_connection q !! c) as [ids|] eqn:Hc.
  2:{ split; [|done]. unfold mq_pending, mq_indexed. by rewrite Hc. }
  cbn in Hq'. set (l := take _ _) in *. set (q' := mkQueue _ _) in *.
  assert (Hl : ∀ x, x ∈ l → x ∈ mq_pending q c None).
  { intros x Hx. rewrite <-(sort_by_key_perm qm_received_at). eapply elem_of_sublist; [exact Hx|apply sublist_take]. }
  assert (Hat : ∀ i, mq_messages q' !! i = if decide (i ∈ qm_id <$> l) then qm_mark_sending <$> mq_messages q !! i else mq_messages q !! i).
  { intros i. by apply (foldl_alter_lookup qm_mark_sending qm_id). }
  split; [|intros i; rewrite Hat; case_decide; [apply fmap_is_Some|done]].
  assert (Hout : ∀ x, x ∈ mq_pending q' c None ↔ x ∈ mq_pending q c None ∧ qm_id x ∉ qm_id <$> l).
  { intros x. rewrite !elem_of_mq_pending, Hat by done. case_decide as Hin; [|tauto]. split; [|tauto]. intros (Hx & _ & Hp & _).
    destruct (mq_messages q !! qm_id x) as [y|]; [|done]. injection Hx as <-. done. }
  assert (Hnd : NoDup l).
  { eapply sublist_NoDup; [|apply sublist_take]. rewrite sort_by_key_perm. eapply NoDup_fmap_1. by apply NoDup_mq_pending. }
  apply NoDup_Permutation.
  - apply NoDup_app. split_and!; [done| |eapply NoDup_fmap_1; by apply NoDup_mq_pending]. intros x Hx [_ Hn]%Hout. by apply Hn, list_elem_of_fmap_2.
  - eapply NoDup_fmap_1. by apply NoDup_mq_pending.
  - intros x. rewrite elem_of_app, Hout. split; [naive_solver|]. intros Hx. destruct (decide (qm_id x ∈ qm_id <$> l)) as [Hin|]; [left|by right].
    apply list_elem_of_fmap in Hin as (y & Hxy & Hy). apply Hl in Hy as Hy'. apply elem_of_mq_pending in Hx, Hy'; [|done..].
    replace x with y; [done|]. destruct Hx as [Hx _], Hy' as [Hy' _]. rewrite Hxy in Hx. congruence.
Qed.
Lemma batch_spec request c s q w : mailbox s q w → drq_recipient_key request = None →
  wp (process_delivery_request request c)
    (λ batch s' w', ∃ l q', mailbox s' q' w' ∧ mdm_attachments batch = message_attachment <$> l ∧ l ++ mq_pending q' c None ≡ₚ mq_pending q c None ∧
      ∀ i, is_Some (mq_messages q' !! i) ↔ is_Some (mq_messages q !! i))
    (λ _ _, True) s w.
Proof.
  intros Hb Hkey. unfold process_delivery_request. rewrite Hkey. apply wp_bind.
  eapply wp_mono; [by apply (queue_call_spec (QTake c None (drq_limit request)) s q w)| |done].
  intros taken s1 w1 (_ & q0 & w0 & q1 & w2 & Hq0 & Hcall & Hb1). cbn in Hcall. unfold mq_run in Hcall.
  pose proof (take_splits q0 c (drq_limit request) (proj2 Hq0)) as Ht. destruct (mq_take_from_queue q0 c None _) as [l q2].
  injection Hcall as <- <- _. destruct Ht as [Hp Hi]. unfold wp. cbn. exists l, q2. split_and!; [|done| |].
  - apply (mailbox_later s1 q2 w1); [done| |apply Hb1|done]. split; [done|cbn; lia].
  - rewrite Hp. apply pending_same; [by eapply mailbox_ok|done].
  - intros i. by rewrite Hi, (proj1 Hq0).
Qed.
End flush.

(** ** The mediator *)

Section app.
Context `{ChronoCutoff} `{HashOrder} `{WsReaders} `{Bs58} `{Base64Engine} `{UuidText} `{Serde Message} `{Serde Json} `{Serde MediationRecord} {RS KS Q : Type}.
Context `{Serde MediationRequestMessage} `{Serde MediationGrantMessage} `{Serde KeylistUpdateMessage} `{Serde KeylistUpdateResponseMessage}.
Context `{!ExchangeRepo RS MediationRecord MediationError} `{!ExchangeRepoLaws RS MediationRecord MediationError} `{!RepoTime RS MediationRecord MediationError}.
Context `{!KeylistRepo KS} `{!KeylistLaws KS} `{!KeylistTime KS} `{!MessageQueueRepo Q} `{!MessageQueueLaws Q} `{!QueueTime Q}.
Abbreviation APP := (MediatorApp RS KS Q).
Implicit Types (s : APP) (w : World).

Definition app_ok s w : Prop := sane (app_mediator s) w ∧ has_mail (app_queue s) w.
Definition app_owns s key c : Prop := owns (app_mediator s) key c.
(** A step on behalf of a connection. *)
Definition app_goes (c : string) s w s' w' : Prop := goes c (app_mediator s) w (app_mediator s') w' ∧ has_mail (app_queue s') w'.

Lemma app_goes_ok c s w s' w' : app_goes c s w s' w' → app_ok s' w'.
Proof. intros [Hg Hm]. split; [by eapply goes_sane|done]. Qed.
Lemma has_mail_later (x : Q) w w' : world_le w w' → has_mail x w → has_mail x w'.
Proof. intros Hw [q Hq]. exists q. by apply (mailbox_move _ _ w). Qed.
Lemma app_goes_mediator {A} c s w (m : eff MessageHandlerError (MediatorService RS KS) A) :
  app_ok s w → wp m (λ _, goes c (app_mediator s) w) (goes c (app_mediator s) w) (app_mediator s) w →
  wp (by_mediator (Q:=Q) m) (λ _, app_goes c s w) (app_goes c s w) s w.
Proof.
  intros [_ Hb] Hm. apply wp_zoom. eapply wp_mono; [exact Hm| |]; cbn; intros; (split; [done|]);
    (eapply has_mail_later; [|exact Hb]); match goal with Hg : goes _ _ _ _ _ |- _ => exact (af_world _ _ _ _ _ _ _ (proj2 Hg)) end.
Qed.
Lemma app_goes_pickup {A} c s w (m : eff MessageHandlerError Q A) :
  app_ok s w → mail_kept m → wp (by_pickup (RS:=RS) (KS:=KS) m) (λ _, app_goes c s w) (app_goes c s w) s w.
Proof.
  intros [Hs Hb] Hm. apply wp_zoom. destruct (Hm _ _ Hb) as [Hw Hb']. unfold wp.
  assert (Hg : goes c (app_mediator s) w (app_mediator s) (m (app_queue s) w).2).
  { apply good_mediations_same; [done|done|exact (ko_mediations _ _ _ Hs)|done]. }
  by destruct (m (app_queue s) w) as [[[a|e|] s'] w'].
Qed.

Lemma forward_handle_goes inbound (f : ForwardService RS KS Q) w : fs_sane f w → has_mail (fs_pickup_service f) w →
  let post := λ f' w', fs_goes f w f' w' ∧ has_mail (fs_pickup_service f') w' in
  wp (mediator_forward_handle inbound) (λ _, post) post f w.
Proof.
  intros Hs [q Hb] post. assert (Hrefl : post f w) by (split; [by apply fs_goes_refl|by exists q]).
  assert (Hwait : ∀ w', world_le w w' → fs_sane f w' ∧ post f w').
  { intros w' Hw. assert (Hg : fs_goes f w f w') by (by apply fs_goes_later). split; [by eapply fs_goes_sane|].
    split; [done|]. exists q. by apply (mailbox_move _ _ w). }
  unfold mediator_forward_handle. apply wp_bind, wp_ok_or; [|done]. intros to _. apply wp_bind.
  assert (Hrest : ∀ w', world_le w w' → wp (encrypted_msg ← me_ok_or (InvalidMessage "Missing 'msg' field in forward message") (body_or_extra "msg" (in_message inbound));
    encrypted_json ← eff_lift (match sd_to_text encrypted_msg with Ok t => Ok t | Err e => Err (ProcessingFailed e) | Panic => Panic end);
    if decide (MAX_FORWARDED_MESSAGE_SIZE_BYTES < N.of_nat (String.length encrypted_json))%N
    then eff_throw (InvalidMessage "Forwarded message too large")
    else _ ← mediated (process_forward to encrypted_json); mret (None : option OutboundMessage)) (λ _, post) post f w').
  { intros w' Hw. destruct (Hwait w' Hw) as [Hs' Hp']. apply wp_bind, wp_ok_or; [|done]. intros msg _. apply wp_bind, wp_lift; [|done]. intros text _.
    case_decide; [by apply wp_throw|]. apply wp_bind, wp_zoom.
    eapply wp_mono; [apply (forward_spec to text f q w' Hs'); by apply (mailbox_move _ _ w)| |].
    - intros id f2 w2 (Hg2 & c & q2 & x & _ & _ & Hb2). apply wp_ret. split; [eapply fs_goes_trans; [apply Hp'|done]|by exists q2].
    - intros f2 w2 (Hg2 & c & q2 & _ & Hb2). split; [eapply fs_goes_trans; [apply Hp'|done]|by exists q2]. }
  destruct (msg_expires_time (in_message inbound)) as [t|].
  - apply wp_bind, wp_world. unfold utc_now. set (w1 := snd _). assert (Hw1 : world_le w w1) by (split; [done|cbn; lia]).
    apply wp_ret. case_bool_decide; [apply wp_ret; by apply Hwait|by apply Hrest].
  - apply wp_ret. by apply Hrest.
Qed.

Lemma app_goes_forward c inbound s w : app_ok s w →
  wp (by_forward (mediator_forward_handle inbound)) (λ _, app_goes c s w) (app_goes c s w) s w.
Proof.
  intros [Hs Hb]. apply wp_zoom. eapply wp_mono; [by apply (forward_handle_goes inbound (app_forward s) w)| |].
  - intros a f w' [Hg Hb']. split; [apply Hg|done].
  - intros f w' [Hg Hb']. split; [apply Hg|done].
Qed.

(** Each handler of the mediator acts on behalf of the connection its message came over. *)
Lemma app_handler_goes auto ty h inbound c s w : app_handler auto ty = Some h → app_ok s w →
  (∀ c', ctx_connection_id (in_context inbound) = Some c' → c' = c) →
  wp (h inbound) (λ _, app_goes c s w) (app_goes c s w) s w.
Proof.
  intros Hh Hs Hc. unfold app_handler in Hh. repeat case_decide; simplify_eq.
  - apply app_goes_mediator; [done|]. apply request_handle_goes, Hs.
  - apply app_goes_mediator; [done|]. apply keylist_handle_goes; [apply Hs|done].
  - by apply app_goes_forward.
  - by apply app_goes_pickup, status_mail.
  - by apply app_goes_pickup, delivery_mail.
  - by apply app_goes_pickup, received_mail.
  - by apply app_goes_pickup, live_mail.
Qed.

(** A message comes in: its handler runs, and what it answers goes elsewhere. *)
Definition app_receive (auto_grant : bool) (inbound : InboundMessage) s w : APP * World :=
  match app_handler auto_grant (msg_type (in_message inbound)) with
  | Some h => ((h inbound s w).1.2, (h inbound s w).2)
  | None => (s, w)
  end.
Definition app_run (auto_grant : bool) (messages : list InboundMessage) s w : APP * World :=
  foldl (λ '(s, w) inbound, app_receive auto_grant inbound s w) (s, w) messages.

Lemma receive_goes auto inbound c s w : app_ok s w → (∀ c', ctx_connection_id (in_context inbound) = Some c' → c' = c) →
  app_goes c s w (app_receive auto inbound s w).1 (app_receive auto inbound s w).2.
Proof.
  intros Hs Hc. unfold app_receive. destruct (app_handler _ _) as [h|] eqn:Hh; [|split; [by apply goes_refl, Hs|apply Hs]].
  exact (wp_state _ _ _ _ (app_handler_goes _ _ _ _ _ _ _ Hh Hs Hc)).
Qed.

Lemma run_ok auto messages s w : app_ok s w → let '(s', w') := app_run auto messages s w in app_ok s' w'.
Proof.
  unfold app_run. revert s w. induction messages as [|i messages IH]; intros s w Hs; [done|]. cbn [foldl].
  assert (Hg : app_goes (default "" (ctx_connection_id (in_context i))) s w (app_receive auto i s w).1 (app_receive auto i s w).2).
  { apply receive_goes; [done|]. by intros c' ->. }
  destruct (app_receive auto i s w) as [s1 w1]. by eapply IH, app_goes_ok.
Qed.

(** Messages of others leave a connection its keys. *)
Lemma run_keeps_owner auto messages s w key c :
  app_ok s w → Forall (λ i, ctx_connection_id (in_context i) ≠ Some c) messages → app_owns s key c →
  let '(s', w') := app_run auto messages s w in app_ok s' w' ∧ app_owns s' key c ∧ world_le w w'.
Proof.
  unfold app_run. revert s w. induction messages as [|i messages IH]; intros s w Hs Hall Hown; [done|]. cbn [foldl].
  apply Forall_cons in Hall as [Hi Hall]. set (c' := match ctx_connection_id (in_context i) with Some c' => c' | None => c +:+ "'" end).
  assert (Hne : c ≠ c').
  { unfold c'. destruct (ctx_connection_id _); [congruence|]. clear. induction c as [|a c IH]; [done|]. intros [=]. by apply IH. }
  assert (Hg : app_goes c' s w (app_receive auto i s w).1 (app_receive auto i s w).2).
  { apply receive_goes; [done|]. unfold c'. by intros c1 ->. }
  destruct (app_receive auto i s w) as [s1 w1]. cbn in Hg. assert (Hok1 : app_ok s1 w1) by (by eapply app_goes_ok).
  assert (Hown1 : app_owns s1 key c) by (by eapply owner_kept; [apply Hg| |]).
  specialize (IH s1 w1 Hok1 Hall Hown1). destruct (foldl _ _ messages) as [s2 w2]. destruct IH as (? & ? & Hw2). split_and!; [done..|].
  etrans; [|exact Hw2]. exact (af_world _ _ _ _ _ _ _ (proj2 (proj1 Hg))).
Qed.

(** C18: The keys of a connection are out of reach of everyone else: whatever messages the other
    connections send the mediator - requests for mediation, keylist updates that claim or release
    any key, forwards, pickup requests - the registrations stay in order (a key registered once,
    for a mediation that exists) and the key still leads to the connection, and to it alone. *)
Theorem keys_stay_with_owner auto messages s w key c :
  app_ok s w → Forall (λ i, ctx_connection_id (in_context i) ≠ Some c) messages → app_owns s key c →
  let '(s', w') := app_run auto messages s w in app_ok s' w' ∧ ∀ c', app_owns s' key c' ↔ c' = c.
Proof.
  intros Hs Hall Hown. pose proof (run_keeps_owner auto messages s w key c Hs Hall Hown) as Hr.
  destruct (app_run auto messages s w) as [s' w']. destruct Hr as (Hs' & Hown' & _). split; [done|].
  intros c'. split; [by eapply owner_only, Hown'; apply Hs'|by intros ->].
Qed.

(** C17: Mail reaches the owner of its key: when a connection has registered a key, then after
    any messages of other connections a forward to that key which the mediator accepts - in
    whichever of its spellings the key is given - is in the queue of that connection, and the
    next delivery with room for what is pending, be it for all keys or for the spelling
    forwarded to, gives the recipient the message as it was sent, under the id that the
    forward answered. *)
Theorem mail_reaches_owner `{!Base64EngineLaws} `{Base64Errors} `{JsonText} auto messages s w s1 w1 to text c id f2 w2 :
  app_ok s w → Forall (λ i, ctx_connection_id (in_context i) ≠ Some c) messages →
  app_owns s (canonicalize_recipient_key to) c → app_run auto messages s w = (s1, w1) →
  process_forward to text (app_forward s1) w1 = (Ok id, f2, w2) →
  ∃ q x, mailbox (fs_pickup_service f2) q w2 ∧ mq_messages q !! id = Some x ∧ qm_connection_id x = c ∧ qm_state x = Pending ∧
    ∀ request batch t3 w3, drq_recipient_key request = None ∨ drq_recipient_key request = Some to →
      (N.of_nat (length (mq_pending q c (drq_recipient_key request))) ≤ drq_limit request)%N →
      process_delivery_request request c (fs_pickup_service f2) w2 = (Ok batch, t3, w3) →
      ∃ l, delivered_messages (mdm_attachments batch) = Ok l ∧ mkDelivered id text ∈ l.
Proof.
  intros Hs Hall Hown Hrun Hf. pose proof (run_keeps_owner auto messages s w _ c Hs Hall Hown) as Hr. rewrite Hrun in Hr.
  destruct Hr as ((Hs1 & q1 & Hb1) & Hown1 & _).
  destruct (wp_run _ _ _ _ _ _ _ _ (forward_spec to text (app_forward s1) q1 w1 Hs1 Hb1) Hf) as (_ & c' & q2 & x & Hown' & Hacc & Hb2).
  assert (c' = c) as -> by (eapply owner_only; [exact Hs1|exact Hown1|exact Hown']).
  pose proof (ac_queued _ _ _ _ _ _ _ Hacc) as Hx. exists q2, x. pose proof (mailbox_ok _ _ _ Hb2) as Hok.
  pose proof (ac_connection _ _ _ _ _ _ _ Hacc) as Hxc. pose proof (ac_pending _ _ _ _ _ _ _ Hacc) as Hxp.
  pose proof (mqo_id _ Hok _ _ Hx) as Hid. split_and!; [done..|]. intros request batch t3 w3 Hkey Hl Hd.
  destruct (wp_run _ _ _ _ _ _ _ _ (delivery_spec request c _ q2 w2 Hb2 Hl) Hd) as (l & Hl' & Hperm).
  exists (delivered_as <$> l). split; [done|]. rewrite <-Hid, <-(ac_text _ _ _ _ _ _ _ Hacc). apply (list_elem_of_fmap_2 delivered_as).
  rewrite Hperm. apply elem_of_mq_pending; [done|]. rewrite Hid. split_and!; [done..|].
  destruct Hkey as [->| ->]; [done|]. unfold qm_matches_recipient_key. rewrite (ac_keys _ _ _ _ _ _ _ Hacc). cbn. by rewrite bool_decide_true.
Qed.

(** What a turn of a flush, or the whole, does to the queue. *)
Definition flushed (c : string) (n : nat) q (f' : ForwardService RS KS Q) w' : Prop :=
  ∃ q', fs_mailbox f' q' w' ∧ n + length (mq_pending q' c None) ≤ length (mq_pending q c None) ∧
    ∀ i, is_Some (mq_messages q' !! i) ↔ is_Some (mq_messages q !! i).
Lemma flush_batch_spec c (f : ForwardService RS KS Q) q w : fs_mailbox f q w →
  wp (flush_batch c) (λ r f' w', flushed c r.1 q f' w' ∧ (r.2 = true → 0 < r.1)) (λ _ _, True) f w.
Proof.
  intros Hb. unfold flush_batch, drq_new, new_id. apply wp_bind, wp_bind, wp_bind, wp_world, wp_ret, wp_ret. set (w1 := (uuid_new_v4 w).2).
  assert (Hw1 : world_le w w1) by (split; [done|cbn; lia]).
  apply wp_bind, wp_zoom. eapply wp_mono; [apply (batch_spec _ c _ q); [by apply (mailbox_move _ _ w)|done]| |done].
  intros batch s2 w2 (l & q2 & Hb2 & -> & Hp & Hi). set (f2 := mkForwardService _ _ s2 _ _ _).
  assert (Hlen : length l + length (mq_pending q2 c None) = length (mq_pending q c None)) by (by rewrite <-length_app, Hp).
  assert (Hflush : ∀ n f3 w3, n ≤ length l → beside f2 w2 f3 w3 → flushed c n q f3 w3).
  { intros n f3 w3 Hn (Hw3 & _ & _ & Hp3). exists q2. split_and!; [|lia|done]. unfold fs_mailbox. rewrite Hp3. by apply (mailbox_move _ _ w2). }
  destruct l as [|x l]; [apply wp_ret; split; [by apply Hflush|done]|]. cbn [fmap list_fmap].
  apply wp_bind. eapply wp_mono; [apply frame_spec| |done]. intros frame f3 w3 Hf3.
  destruct frame as [frame|]; [|apply wp_ret; split; [by apply Hflush; [cbn; lia|]|done]]. apply wp_bind.
  eapply wp_mono; [apply live_frame| |done].
  { unfold deliver_or_drop. apply time_bind; [apply time_get|]. intros s. destruct (_ !! _); [|apply time_ret].
    apply time_bind; [apply time_modify|]. intros []. apply time_bind; [apply try_send_time|]. intros. apply time_ret. }
  intros refused f4 w4 Hf4. assert (Hf : beside f2 w2 f4 w4) by (by eapply beside_trans).
  destruct refused; apply wp_ret; (split; [apply Hflush; [cbn; rewrite ?length_fmap; lia|done]|cbn; [done || lia]]).
Qed.

(** Flushing the queue of a connection to its session ends: as many turns as there are
    pending messages, and one more, are enough.  When it answers a number of pushed messages,
    that many at least are no longer pending, and no message has left the queue. *)
Theorem flush_ends fuel c (f : ForwardService RS KS Q) q w : fs_mailbox f q w → length (mq_pending q c None) < fuel →
  match flush_queued_for_connection fuel c f w with
  | (Ok pushed, f', w') => ∃ n, pushed = Some n ∧ flushed c n q f' w'
  | _ => True
  end.
Proof.
  intros Hb Hfuel. cut (wp (flush_queued_for_connection fuel c) (λ o f' w', ∃ n, o = Some n ∧ flushed c n q f' w') (λ _ _, True) f w).
  { unfold wp. by destruct (flush_queued_for_connection fuel c f w) as [[[?|?|] ?] ?]. }
  revert f q w Hb Hfuel. induction fuel as [|fuel IH]; intros f q w Hb Hfuel; [lia|]. cbn [flush_queued_for_connection].
  apply wp_bind. eapply wp_mono; [by apply (flush_batch_spec c f q w)| |done]. intros [n again] f1 w1 ((q1 & Hb1 & Hlen & Hi) & Hgo). cbn in *.
  destruct again; [|apply wp_ret; exists n; split; [done|by exists q1]]. specialize (Hgo eq_refl).
  apply wp_bind. eapply wp_mono; [apply (IH f1 q1 w1 Hb1); lia| |done]. intros o f2 w2 (n2 & -> & q2 & Hb2 & Hlen2 & Hi2).
  apply wp_ret. exists (n + n2). split; [done|]. exists q2. split_and!; [done|lia|]. intros i. by rewrite Hi2, Hi.
Qed.
End app.
