(* ===== verification/MediationRuns.v ===== *)
(** Runs of a mediator over small stand-ins: the witnesses of the properties of mediation,
    forwarding and the queues, and the runs that show where the code falls short. *)
From S2P Require Import Prelude AjnaTypes StdText SerdeJson Storage Didcomm RecordRepo RecordSpec AnonCreds Issuance IssuanceMessages IssuanceRuns MessageQueue QueueRepo QueueStore Wp Pickup Mediation Keylists Keys Mediator MediationProps Forward ForwardProps AppProps.

(** * A concrete environment *)

(** Messages are their bodies. *)
Definition unread {A} (to : A → outcome string Json) (from : Json → outcome string A) : Serde A :=
  {| sd_to_value := to; sd_from_value := from; sd_to_text _ := Ok "frame"; sd_from_text _ := Err "" |}.
Definition toy_message : Serde Message := unread (λ m, Ok (msg_body m)) (λ v, Ok (msg_new "answer" "answer" v)).
Definition toy_value : Serde Json :=
  {| sd_to_value v := Ok v; sd_from_value v := Ok v; sd_to_text v := Ok (default "" (json_as_str v)); sd_from_text s := Ok (JString s) |}.
Definition toy_mediations : Serde MediationRecord := unread (λ _, Err "") (λ _, Err "").
Definition toy_keylists : Serde KeylistRecord := unread (λ _, Err "") (λ _, Err "").
Definition toy_request : Serde MediationRequestMessage := unread (λ _, Err "") (λ _, Ok (mkMediationRequest MEDIATE_REQUEST "r")).
Definition toy_grant : Serde MediationGrantMessage := unread (λ m, Ok (JArray (JString <$> mg_routing_keys m))) (λ _, Err "").
Definition toy_update : Serde KeylistUpdateMessage :=
  unread (λ _, Err "") (λ v, match v with
                             | JString k => Ok (mkKeylistUpdateMessage KEYLIST_UPDATE "u" [ku_add k])
                             | JArray [JString k] => Ok (mkKeylistUpdateMessage KEYLIST_UPDATE "u" [ku_remove k])
                             | _ => Err ""
                             end).
Definition toy_updated : Serde KeylistUpdateResponseMessage :=
  unread (λ m, Ok (JArray ((λ u, JString (kr_display (kd_result u))) <$> kur_updated m))) (λ _, Err "").
Definition still_readers : WsReaders := {| ws_read _ c := c |}.
Definition toy_errors : Base64Errors := {| b64_error _ := "" |}.
#[local] Existing Instances plain_order iss_json iss_base64 text_base64_laws toy_uuid_text wide_cutoff toy_bs58 toy_bs58_laws toy_message toy_value
  toy_mediations toy_keylists toy_request toy_grant toy_update toy_updated still_readers toy_errors.

Abbreviation RunApp := (MediatorApp (gmap string MediationRecord) (gmap string KeylistRecord) MessageQueue).
Definition app0 : RunApp := mkApp (mds_new ∅ ∅ "ws" ["route"]) mq_new lv_new QueueAndLiveDelivery None.

Definition from_conn (conn : string) (type : string) (body : Json) : InboundMessage :=
  mkInbound (msg_new "m" type body) (mkContext None None None None (Some conn) true true None None).
Definition asks (conn : string) : InboundMessage := from_conn conn MEDIATE_REQUEST JNull.
Definition adds (conn key : string) : InboundMessage := from_conn conn KEYLIST_UPDATE (JString key).
Definition drops (conn key : string) : InboundMessage := from_conn conn KEYLIST_UPDATE (JArray [JString key]).

(** Bob is granted mediation and registers a key, by its [did:key]. *)
Definition bobs_key : string := "0123456789abcdef0123456789abcdef".
Definition bob_calls : list InboundMessage := [asks "bob"; adds "bob" (did_key bobs_key)].
Definition app_bob : RunApp * World := app_run true bob_calls app0 world0.
(** Mallory tries to claim the key, then to release it. *)
Definition mallory_calls : list InboundMessage :=
  [asks "mallory"; adds "mallory" (bs58_encode bobs_key); drops "mallory" (did_key bobs_key)].

Definition keys_of (s : RunApp) : list (string * string) :=
  (λ x, (kl_recipient_key x, kl_mediation_id x)) <$> repo_record_values (mds_keylists (app_mediator s)).
Example run_registers : keys_of app_bob.1 = [(bs58_encode bobs_key, "0")].
Proof. vm_compute. reflexivity. Qed.

(** * The witnesses *)

Lemma world0_distinct : uuids_distinct world0.
Proof. intros n n' Heq%(inj pretty). cbn in Heq. lia. Qed.
Lemma app0_ok : app_ok app0 world0.
Proof.
  split.
  - split; [by intros id x|by intros id x|exact world0_distinct|by intros n _ [x Hx]|by intros i j x y|by intros i x].
  - exists mq_new. split; [split; [done|apply mq_new_ok]|]. split; [done|exact world0_distinct].
Qed.
Lemma app_bob_ok : app_ok app_bob.1 app_bob.2.
Proof. pose proof (run_ok true bob_calls app0 world0 app0_ok) as Hs. unfold app_bob. by destruct (app_run true bob_calls app0 world0). Qed.
Lemma app_bob_owns : app_owns app_bob.1 (bs58_encode bobs_key) "bob".
Proof. eexists "2", _, _. vm_compute. repeat split; reflexivity. Qed.
Lemma mallory_only : Forall (λ i, ctx_connection_id (in_context i) ≠ Some "bob") mallory_calls.
Proof. by repeat constructor. Qed.

Lemma keys_stay_with_owner_witness :
  app_owns (app_run true mallory_calls app_bob.1 app_bob.2).1 (bs58_encode bobs_key) "bob" ∧
  ¬ app_owns (app_run true mallory_calls app_bob.1 app_bob.2).1 (bs58_encode bobs_key) "mallory".
Proof.
  pose proof (keys_stay_with_owner true mallory_calls app_bob.1 app_bob.2 _ _ app_bob_ok mallory_only app_bob_owns) as Hk.
  destruct (app_run true mallory_calls app_bob.1 app_bob.2) as [s w]. destruct Hk as [_ Hk]. cbn [fst]. split.
  - by apply (Hk "bob").
  - intros Hm. by apply (Hk "mallory") in Hm.
Defined.

Definition app_bob2 : RunApp * World := app_run true mallory_calls app_bob.1 app_bob.2.
Definition mail_run := process_forward (did_key bobs_key) "mail" (app_forward app_bob2.1) app_bob2.2.
Definition mail_fs := mail_run.1.2.
Definition forward_world := mail_run.2.
Lemma mail_accepted : mail_run = (Ok "8", mail_fs, forward_world).
Proof. vm_compute. reflexivity. Qed.
Lemma app_bob2_run : app_run true mallory_calls app_bob.1 app_bob.2 = (app_bob2.1, app_bob2.2).
Proof. unfold app_bob2. by destruct (app_run true mallory_calls app_bob.1 app_bob.2). Qed.

Definition bob_request : DeliveryRequestMessage := mkDeliveryRequest DELIVERY_REQUEST "d" 10 (Some (did_key bobs_key)).
Definition bob_delivery := process_delivery_request (Q:=MessageQueue) bob_request "bob" (fs_pickup_service mail_fs) forward_world.
Definition bob_batch : MessageDeliveryMessage :=
  match bob_delivery.1.1 with Ok batch => batch | _ => mkDelivery "" "" None None [] end.
Lemma bob_delivered : bob_delivery = (Ok bob_batch, bob_delivery.1.2, bob_delivery.2).
Proof. vm_compute. reflexivity. Qed.
Lemma bob_pending : length (mq_pending (fs_pickup_service mail_fs) "bob" (Some (did_key bobs_key))) = 1.
Proof. vm_compute. reflexivity. Qed.

Lemma app_bob_owns_spelled : app_owns app_bob.1 (canonicalize_recipient_key (did_key bobs_key)) "bob".
Proof. rewrite canonical_did_key by done. exact app_bob_owns. Qed.

Lemma mail_reaches_owner_witness :
  delivered_messages (mdm_attachments bob_batch) = Ok [mkDelivered "8" "mail"] ∧
  ∃ l, delivered_messages (mdm_attachments bob_batch) = Ok l ∧ mkDelivered "8" "mail" ∈ l.
Proof.
  split; [vm_compute; reflexivity|].
  destruct (mail_reaches_owner true mallory_calls app_bob.1 app_bob.2 app_bob2.1 app_bob2.2 (did_key bobs_key) "mail" "bob" "8" mail_fs forward_world
    app_bob_ok mallory_only app_bob_owns_spelled app_bob2_run mail_accepted) as (q & x & Hq & _ & _ & _ & Hd).
  apply (Hd bob_request bob_batch bob_delivery.1.2 bob_delivery.2); [by right| |exact bob_delivered].
  destruct Hq as ([Heq _] & _). rewrite <-Heq. change (drq_recipient_key bob_request) with (Some (did_key bobs_key)). rewrite bob_pending. done.
Defined.

(** Bob's session takes one frame. *)
Definition bob_session : LiveSessionManager := (register_session (E:=()) "bob" 1 lv_new world0).1.2.
Definition mail_live (live : LiveSessionManager) : ForwardService (gmap string MediationRecord) (gmap string KeylistRecord) MessageQueue :=
  mkForwardService (fs_mediation_repo mail_fs) (fs_keylist_repo mail_fs) (fs_pickup_service mail_fs) live (fs_strategy mail_fs) (fs_push_notifier mail_fs).
Lemma mail_mailbox live : ∃ q, fs_mailbox (mail_live live) q forward_world.
Proof.
  pose proof (run_ok true mallory_calls app_bob.1 app_bob.2 app_bob_ok) as Hok. fold app_bob2 in Hok.
  change (let '(s', w') := app_bob2 in app_ok s' w') in Hok. destruct app_bob2 as [s w] eqn:Hb. destruct Hok as [Hs [q Hq]].
  pose proof mail_accepted as Hm. unfold mail_run in Hm. rewrite Hb in Hm. cbn [fst snd] in Hm.
  destruct (wp_run _ _ _ _ _ _ _ _ (forward_spec _ _ (app_forward s) q w Hs Hq) Hm) as (_ & c & q' & x & _ & _ & Hq'). by exists q'.
Qed.
Lemma mail_pending live q : fs_mailbox (mail_live live) q forward_world → length (mq_pending q "bob" None) = 1.
Proof. intros ([Heq _] & _). rewrite <-Heq. vm_compute. reflexivity. Qed.

Lemma flush_ends_witness :
  (flush_queued_for_connection 2 "bob" (mail_live bob_session) forward_world).1.1 = Ok (Some 1) ∧
  ∃ q n, flushed "bob" n q (flush_queued_for_connection 2 "bob" (mail_live bob_session) forward_world).1.2
                           (flush_queued_for_connection 2 "bob" (mail_live bob_session) forward_world).2.
Proof.
  split; [vm_compute; reflexivity|]. destruct (mail_mailbox bob_session) as [q Hq].
  assert (Hl : length (mq_pending q "bob" None) < 2) by (rewrite (mail_pending _ _ Hq); lia).
  pose proof (flush_ends 2 "bob" (mail_live bob_session) q forward_world Hq Hl) as Hf.
  assert (Hr : (flush_queued_for_connection 2 "bob" (mail_live bob_session) forward_world).1.1 = Ok (Some 1)) by (vm_compute; reflexivity).
  destruct (flush_queued_for_connection 2 "bob" (mail_live bob_session) forward_world) as [[r f'] w']. cbn [fst snd] in Hr |- *. rewrite Hr in Hf.
  destruct Hf as (n & _ & Hf). exists q, n. exact Hf.
Defined.

Lemma spellings_agree_witness :
  String.length bobs_key = 32 ∧ canonicalize_recipient_key (did_key bobs_key) = canonicalize_recipient_key (bs58_encode bobs_key).
Proof. split; [reflexivity|]. apply (spellings_agree bobs_key bobs_key ""); reflexivity. Defined.

(** ** The stored queue *)

#[local] Instance run_message_eq_dec : EqDecision QueuedMessage.
Proof. solve_decision. Defined.
(** Messages of one shape are stored. *)
Definition plain_message (id : string) (st : QueuedMessageState) : QueuedMessage := mkQueued id "c" [] "m" 0 st.
Definition toy_queued : Serde QueuedMessage := {|
  sd_to_value _ := Err ""; sd_from_value _ := Err "";
  sd_to_text m := if decide (m = plain_message (qm_id m) (qm_state m))
                  then Ok ((match qm_state m with Pending => "p" | Sending => "s" end) +:+ qm_id m) else Err "not of the shape";
  sd_from_text s := match s with
                    | String a id => Ok (plain_message id (if decide (String a "" = "p") then Pending else Sending))
                    | EmptyString => Err ""
                    end
|}.
#[local] Existing Instance toy_queued.
Lemma toy_queued_back (m : QueuedMessage) s : sd_to_text m = Ok s → sd_from_text s = Ok m.
Proof. cbn. case_decide as Hm; [|done]. intros [= <-]. rewrite Hm at 3. by destruct (qm_state m). Qed.
#[local] Instance toy_queued_laws : SerdeLaws QueuedMessage.
Proof. constructor; try done; [exact toy_queued_back|]. intros m s Hs. exists (text_value s). split; [done|]. by apply toy_queued_back. Qed.
#[local] Instance toy_queued_steady : SerdeSteady QueuedMessage.
Proof. constructor. intros m. cbn. by case_decide. Qed.

Definition queue_events : list queue_event :=
  [QeCall string (QAdd (plain_message "1" Pending)); QeCall string (QAdd (mkQueued "2" "c" [] "odd" 0 Pending));
   QeCall (list QueuedMessage) (QTake "c" None 10); QeRestart; QeCall N (QPendingCount "c" None)].
Definition empty_queue : StorageQueue (gmap string (gmap string AgentRecord)) := sq_new ∅.
Lemma empty_queue_runs : sq_runs empty_queue mq_new.
Proof. apply runs_unloaded; [by intros id x|apply mq_new_ok|done]. Qed.

(** The second message cannot be stored; the first was under way, and comes back. *)
Lemma storage_queue_refines_witness :
  (sq_history queue_events empty_queue world0).1 =
    [QaAnswer string (QAdd (plain_message "1" Pending)) "1"; QaRefused;
     QaAnswer (list QueuedMessage) (QTake "c" None 10) [plain_message "1" Pending]; QaRestarted;
     QaAnswer N (QPendingCount "c" None) 1%N] ∧
  ∃ q, queue_history (λ x, ∃ id, held_message (sq_storage empty_queue) id = Some x) mq_new (sq_history queue_events empty_queue world0).1 q ∧ sq_runs (sq_history queue_events empty_queue world0).2 q.
Proof.
  split; [vm_compute; reflexivity|]. apply (storage_queue_refines queue_events empty_queue mq_new world0 empty_queue_runs).
Defined.

(** * Where the code falls short *)

(** A flush that cannot push leaves the message marked as under way: nothing returns it to
    pending before a restart. *)
Example flush_strands :
  let '(r, f, _) := flush_queued_for_connection 2 "bob" (mail_live lv_new) forward_world in
  r = Ok (Some 0) ∧ mq_pending (fs_pickup_service f) "bob" None = [] ∧
  qm_state <$> mq_messages (fs_pickup_service f) !! "8" = Some Sending.
Proof. vm_compute. repeat split. Qed.

(** Whoever knows the id of a message acknowledges it away, over any connection. *)
Example anyone_acknowledges :
  let inbound := from_conn "mallory" MESSAGES_RECEIVED (JObject [("message_id_list", JArray [JString "8"])]) in
  let '(_, q, _) := messages_received_handle (Q:=MessageQueue) inbound (fs_pickup_service mail_fs) forward_world in
  mq_messages (fs_pickup_service mail_fs) !! "8" ≠ None ∧ mq_messages q !! "8" = None.
Proof. vm_compute. split; done. Qed.

(** A message is queued under the spelling it was forwarded to: a request for the same key in
    the spelling it is registered in does not find it. *)
Example other_spelling_misses :
  mq_pending (fs_pickup_service mail_fs) "bob" (Some (bs58_encode bobs_key)) = [] ∧
  length (mq_pending (fs_pickup_service mail_fs) "bob" (Some (did_key bobs_key))) = 1.
Proof. vm_compute. split; reflexivity. Qed.

(** The two halves of an addition, of two connections, one after the other: each sees no record
    of another mediation, then both register the key. *)
Example same_key_twice :
  let both :=
    _ ← release_key "a" "key"; _ ← release_key "b" "key";
    _ ← claim_key "a" "key"; claim_key "b" "key" in
  let mediation id conn := mkMediation id conn MsGranted MrMediator None [] None 0 0 in
  let s := mds_new (KS:=gmap string KeylistRecord) {["a" := mediation "a" "alice"; "b" := mediation "b" "bob"]} ∅ "ws" [] in
  (λ x, (kl_recipient_key x, kl_mediation_id x)) <$> repo_record_values (mds_keylists (both s world0).1.2) = [("key", "b"); ("key", "a")].
Proof. vm_compute. reflexivity. Qed.

(** A reader that comes between the two assignments of a load finds the messages there and the
    index missing. *)
Example load_race_panics :
  (queue_call (QPendingCount "c" None) (mkStorageQueue (ST:=gmap string (gmap string AgentRecord)) ∅ (Some ∅) None) world0).1.1 = Panic.
Proof. vm_compute. reflexivity. Qed.

(** A denial is not stored. *)
Definition toy_deny : Serde MediationDenyMessage := unread (λ _, Err "") (λ _, Ok (mkDeny "" "d" (mkThread None None None None))).
#[local] Existing Instance toy_deny.
Example denial_forgotten :
  let record := mkMediation "m" "conn" MsRequested MrRecipient None [] None 0 0 in
  let s := mrs_new (KS:=gmap string KeylistRecord) {["m" := record]} ∅ in
  let '(r, s', _) := deny_handle (from_conn "conn" "deny" JNull) s world0 in r = Ok None ∧ s' = s.
Proof. vm_compute. split; reflexivity. Qed.

(** A connection whose mediation is not granted registers keys all the same; a forward to one
    of them is then refused. *)
Example ungranted_registers :
  let s := app_run false [asks "bob"; adds "bob" "key"] app0 world0 in
  keys_of s.1 = [("key", "0")] ∧
  (process_forward "key" "mail" (app_forward s.1) s.2).1.1 = Err (MeInvalidState [MsGranted] MsRequested).
Proof. vm_compute. split; reflexivity. Qed.

(** Removing a key that is not registered, or that another connection owns, is a success. *)
Example removal_always_succeeds :
  (process_keylist_updates "1" [ku_remove "nothing"] (app_mediator app_bob.1) world0).1.1 = Ok [mkKeylistUpdated "nothing" KaRemove KrSuccess].
Proof. vm_compute. reflexivity. Qed.
